(* ===== verification/_CoqProject ===== *)
-Q . S2P
Prelude.v
Util.v
Pmm.v
Vmm.v
Paging.v
Mm.v
Sim.v
RtlPath.v
Ob.v
Service.v
Wudf.v
Ke.v
Io.v
Hw.v
Input.v
Raster.v
Vga.v
Fb.v
Mouse.v
Fat32.v
Ide.v
Cdfs.v
Invoke.v
Ram.v
Pe.v
PeSpec.v
Net.v
NetSpec.v
DhcpSpec.v
Nic.v
NicSpec.v
W32k.v
W32kSpec.v
Registry.v
RegistrySpec.v
Driver.v
DriverSpec.v
Ahci.v
AhciSpec.v
Msc.v
MscSpec.v
Hid.v
Xhci.v
XhciSpec.v
Usb.v
UsbSpec.v
Csrss.v
CsrssSpec.v
Audio.v
AudioSpec.v
User32.v
User32Spec.v
Setup.v
SetupSpec.v
Ttf.v
TtfSpec.v
