(* ===== verification/Prelude.v ===== *)
(** * discouNT: a verification of its kernel and drivers

    discouNT is an NT-like operating system in C.  A boot loader hands the
    kernel a memory map; the kernel brings up its memory managers, object
    manager, dispatcher and I/O manager, mounts the boot medium, loads drivers
    from it in dependency order and then starts a Win32 subsystem.  This library
    models the kernel proper and the drivers it cannot start without, and proves
    what makes each of them correct.

    ** Conventions

    A [w]-bit integer is a [Z] with its truncation written out ([u8] to [u64],
    [s8], [s32], [s64], [usize] for the target's pointer width).  Memory is a
    function from addresses to bytes; blocks of known type are maps from
    addresses to records.  A C string is the list of the bytes before its NUL.
    Undefined behaviour (a read through a pointer that leads to no block, a copy
    into an array that is too small) and an exhausted fuel are [None], so a
    theorem that gives a result excludes them.  The three targets are [arch]:
    X86, AMD64, LA64.

    ** Files, sources and state

    - [Prelude] (this file): integers, strings, counting loops, arrays, tactics.
    - [Util]: kernel/core/util.c, the C runtime: 64-bit division, block and
      string operations, [itoa], [wcstoul].
    - [Pmm]: kernel/mm/pmm.c, the page bitmap; the state is its statics, the boot
      record an argument.
    - [Vmm]: kernel/mm/vmm.c, and [PageAllocator], the interface to the heap;
      [Paging]: its [VmmMapMmioRange], the page tables it edits, and the walk the
      processor makes of them.
    - [Mm]: kernel/mm/mm.c, the first-fit heap over any [PageAllocator], and
      [KernelHeap], the interface every component above allocates through;
      [Sim] is a second, minimal heap that keeps it.
    - [RtlPath]: kernel/rtl/rtlpath.c, paths.
    - [Ob]: kernel/ob/object.c, types, handles and reference counts.  Its state
      [ob H M] holds the heap and, in [memory], the state of its client.
    - [Service]: kernel/io/service.c and the service table of kernel/io/driver.c.
    - [Wudf]: kernel/io/wudf_transport.c, request queues to user-mode drivers.
    - [Ke]: kernel/core/ke.c, threads, scheduler, mutexes, events, on [Ob].
    - [Io]: kernel/io/io.c, drivers, devices and requests, on [Ob]; dispatch
      routines are code addresses that an argument runs, and the state of the
      hardware is a field.
    - [Hw]: kernel/io/port.h and pci.h; the hardware is a class [Bus].
    - [Input]: drivers/input and drivers/keyboard, the byte and event rings.
    - [Raster], [Vga], [Fb]: drivers/vga and drivers/fb, drawing, dirty
      rectangles, page flipping, mode setting; sums of coordinates wrap as an [int].
    - [Ttf], [TtfSpec]: drivers/fb/ttf.c, the TrueType tables and the rasteriser; an
      [int32_t] that overflows is undefined.
    - [Mouse]: drivers/mouse, the packet decoder and the cursor over [Fb].
    - [Fat32]: drivers/fat32, on [Io]; [Disk] is what a disk driver promises it.
    - [Ide]: drivers/ide, on [Hw] and [Io]; keeps [Disk].
    - [Cdfs]: drivers/cdfs, ISO 9660 over an ATAPI drive or a [Disk].
    - [Invoke]: kernel/core/invoke.c, argument vectors of programs.
    - [Ram], [Pe], [PeSpec]: kernel/loader/peloader.c and the lookups of
      kernel/core/kexports.c: PE32, ELF32 and ELF64 images, relocation, imports,
      libraries; [Kernel] is what the loader needs of the rest.
    - [Driver], [DriverSpec]: kernel/io/driver.c and the stub installation of
      kernel/io/driver_stubs.c: [Service], [Pe], [Cdfs] and [Io] put together; code of
      loaded images is an argument.
    - [Ahci], [AhciSpec]: drivers/ahci, SATA disks, on [Hw], [Io] and [Paging].
    - [Setup], [SetupSpec]: kernel/core/setup.c, the installation of the system, on
      [Cdfs], [Ide], [Ahci] and [Io]; the screen is a log, the keys to come a list.
    - [Msc], [MscSpec]: drivers/usb/usb_msc.c, USB mass storage over any bulk
      transfer.  [Hid]: the input reports of drivers/usb/xhci.c on
      [Input]; [Xhci], [XhciSpec]: its rings, events and transfers, on a class
      [Dma] of bus masters; [Usb], [UsbSpec]: its enumeration and polling, the
      three older controllers and usb.c.
    - [Net], [NetSpec], [DhcpSpec]: drivers/net, ARP, IPv4, ICMP, UDP, DHCP and DNS
      over any card; [Nic], [NicSpec]: its three cards and their DMA rings.
    - [Audio], [AudioSpec]: kernel/audio, the playback service, and drivers/audio,
      the drivers for AC'97, Ensoniq, HD Audio and Sound Blaster chips.
    - [W32k], [W32kSpec]: win32/w32k, the window manager: windows and classes as
      objects of [Ob], the stacking order, activation, mouse input, composition.
      Window procedures are an argument, drawing is recorded call by call.
    - [Registry], [RegistrySpec]: dlls/advapi32, registry keys and values and the
      service control calls; the state is the two tables and the services.
    - [Csrss], [CsrssSpec]: win32/csrss and win32/smss, the session: logon and
      locking, programs and their threads, input, clearing up.  The statics are five
      records; what it asks of the rest is a class [World], code of programs and
      the other threads are arguments that may change the whole state.  A
      [behaviour] of [CsrssSpec] is what such code may do, calls back included.
    - [User32], [User32Spec]: of dlls/user32, the message table, its quit states
      and timers, the message loop, and edit controls, whose text is a block of the
      heap; other threads act in the argument [KeYield].

    ** What the theorems show

    - Memory: the allocators hand out disjoint blocks that are free and large
      enough, keep their invariant in every reachable state, and give back what
      is released; [realloc] keeps contents.  A device range, once mapped, is
      translated to itself and no other address is translated differently.
    - Objects: a created object is found by name and handle and is destroyed,
      through its type's delete procedure, exactly when its last reference
      goes.
    - Order: services start after what they depend on, each once, and all that
      can start do; each driver's start went one of the listed ways, and it runs
      exactly when every step of loading it succeeded, behind those it depends on; requests to user-mode drivers follow a queue specification;
      keyboard events follow from the byte history, in order, and the keys down
      follow the reports of a USB keyboard.
    - Scheduling: round-robin selection, fairness, mutual exclusion, and the
      resumption of a thread where it yielded.
    - Display: a swap presents exactly the picture drawn, although only the
      dirty rectangle is copied, by commands whose sums fit an [int]
      ([wrapped_rect_escapes] is one that does not); drawing and erasing the cursor cancel.  Glyphs
      follow the even-odd rule, and characters are looked up inside the font file.
    - Files: FAT32 and ISO 9660 reads return the bytes of the file; composed with
      the IDE driver and the laws of an ATA drive, down to the port accesses.
      The IDE driver moves sectors from and to the drive; what it does between the
      last word of a batch and its status is left to the drive, which the code does
      not wait for.  Reads of a USB stick that follows the bulk-only protocol return
      its bytes as far as one transfer goes; behind an xHCI controller, where they go
      through its rings and events, that is 64 KiB inside one 64 KiB region.
    - Installation: whatever the medium holds, an installation writes only inside
      the chosen disk; nothing is written before F10 is pressed.
    - Images: the loaded image of a file, its relocation, the lookup of exports.
    - Network: a DHCP exchange ends with the lease applied, whatever options and
      other traffic come with it, a DNS response gives its first address, no frame
      is read outside its bytes but for DHCP replies with an option that runs past
      them, and the polls of the cards hand over what waits in their rings, in order.
    - Sound: what an AC'97 chip that keeps its register laws has played is the
      beginning of what was written, and the rest stands in order in the ring, no
      slot of it refilled before it is played; packets reach the device the stream was started on.
    - Windows: activation brings a window without owner or owned ones to the front of its band and makes it
      the only active one, a click reaches the window painted last at its point,
      resizing keeps a window on the screen and above its least size, minimising
      and maximising are undone by the same button.
    - Session: its state moves only by logging on, locking, unlocking and giving
      up the shell, whatever programs do, calling back to any depth; clearing up in place is filtering; command
      lines are split into what they were put together from.
    - Messages and text: the message table is one queue under any sequence of
      posts and peeks; replacing the selection of an edit control is [take], the
      new text as far as the limit allows, and [drop], for a control within its limit.
    - Registry: the calls implement a map from paths to named values, up to case,
      and keep their tables free of duplicates; enumeration is complete.  Requests
      the code answers wrongly (values of predefined roots, joined paths that are too
      long, a size without data) are excluded and shown as findings.
    - Errors and limits: what is refused and that nothing changes then, and the
      flaws the model shows ([PROJECT.json] lists them as findings with the
      theorem that proves each).

    ** Fuel and bounds

    Recursion is structural on what bounds the C loop where something does: the
    number of bitmap pages, heap blocks, table slots, polls (100000 in cdfs.c,
    1000000 in ide.c, one in 2048 turns of the waits of net.c), sectors of a request,
    components of a path, the 32 entries of the window list.  Dependency
    recursion in [Service] takes one level more than there are services, which a
    pending service makes enough.  Loops that only data ends take fuel as an
    argument and their theorems give an amount that suffices: the length of the
    longest cluster chain ([Fat32]), the eight slots of a ring ([Nic]), the strings
    and tables of an image ([Pe], [walk]), the depth of nested library loads, the
    chain of owned windows ([W32k]), the programs in the table ([Csrss]).
    [find_entry_cycle] shows that a cyclic chain exhausts any fuel.  How many events
    wait at a poll of [Usb] is up to the controller; its theorem is about one.
    [GetMessageW] waits as long as nothing happens, so its fuel counts the yields.

    ** Not modelled

    Serial log output, which no other result depends on.  Assembly: boot code,
    interrupt stubs, the register part of a context switch (its effect on the
    dispatcher is in [Ke]).  [FbInit] and [FbPaintWallpaper], which read
    pictures through a third-party JPEG decoder.  The stubs
    that forward a call to a loaded driver, and the native shell.  Of csrss,
    the painting of its own windows, the entries of its table for programs that only
    pass a call on, and the return to text mode.  Of user32, window creation, dialogs,
    menus, the other controls and painting.  The other Win32 libraries but advapi32.
    Code taken over from others: the driver framework under compat/wdf, wininet,
    msgina and the applications. *)

From stdpp Require Import base list numbers gmap strings.
From Stdlib Require Import ZArith Lia Ascii.

Declare Scope c_scope.
Delimit Scope c_scope with c.
Global Open Scope Z_scope.

(** * Machine integers

    A [w]-bit unsigned C integer is a [Z] in [0, 2^w); every C operation that
    can leave the range is followed by the truncation the C type makes. *)

Definition u8 (x : Z) : Z := x mod 256.
Definition u16 (x : Z) : Z := x mod 65536.
Definition u32 (x : Z) : Z := x mod 4294967296.
Definition u64 (x : Z) : Z := x mod 18446744073709551616.

(** Signed views (two's complement) of a [char], an [int] and an [int64_t]. *)
Definition s8 (x : Z) : Z := (x + 128) mod 256 - 128.
Definition s32 (x : Z) : Z := (x + 2147483648) mod 4294967296 - 2147483648.
Definition s64 (x : Z) : Z :=
  (x + 9223372036854775808) mod 18446744073709551616 - 9223372036854775808.

(** The targets the kernel is built for.  [size_t] and [uintptr_t] are 32 bits
    on X86 and 64 bits on the other two. *)
Inductive arch := X86 | AMD64 | LA64.

Definition usize (a : arch) (x : Z) : Z :=
  match a with X86 => u32 x | AMD64 | LA64 => u64 x end.

Definition is_u8 (x : Z) : Prop := 0 <= x < 256.
Definition is_u32 (x : Z) : Prop := 0 <= x < 4294967296.
Definition is_u64 (x : Z) : Prop := 0 <= x < 18446744073709551616.

#[global] Instance arch_eq_dec : EqDecision arch.
Proof. solve_decision. Defined.

Create HintDb cint.
#[export] Hint Unfold u8 u16 u32 u64 s8 s32 s64 is_u8 is_u32 is_u64 : cint.

(** [zlia] : linear arithmetic after exposing truncations, divisions and
    remainders by constants. *)
Ltac zlia :=
  autounfold with cint in *; Z.div_mod_to_equations; lia.

(** Split every boolean comparison of integers in sight. *)
Ltac zbool :=
  repeat match goal with
  | |- context [?a =? ?b] => destruct (Z.eqb_spec a b)
  | |- context [?a <? ?b] => destruct (Z.ltb_spec a b)
  | |- context [?a <=? ?b] => destruct (Z.leb_spec a b)
  | H : context [?a =? ?b] |- _ => destruct (Z.eqb_spec a b)
  | H : context [?a <? ?b] |- _ => destruct (Z.ltb_spec a b)
  | H : context [?a <=? ?b] |- _ => destruct (Z.leb_spec a b)
  end.

Lemma u32_small x : is_u32 x -> u32 x = x.
Proof. intros; unfold u32, is_u32 in *; apply Z.mod_small; lia. Qed.

Lemma u64_small x : is_u64 x -> u64 x = x.
Proof. intros; unfold u64, is_u64 in *; apply Z.mod_small; lia. Qed.

Lemma u8_small x : is_u8 x -> u8 x = x.
Proof. intros; unfold u8, is_u8 in *; apply Z.mod_small; lia. Qed.

Lemma u32_range x : is_u32 (u32 x).
Proof. unfold u32, is_u32; apply Z.mod_pos_bound; lia. Qed.

Lemma u64_range x : is_u64 (u64 x).
Proof. unfold u64, is_u64; apply Z.mod_pos_bound; lia. Qed.

Lemma u8_range x : is_u8 (u8 x).
Proof. unfold u8, is_u8; apply Z.mod_pos_bound; lia. Qed.

Lemma usize_small a x : is_u32 x -> usize a x = x.
Proof.
  unfold is_u32. intros. destruct a; cbn [usize]; (rewrite u32_small || rewrite u64_small);
    unfold is_u32, is_u64; lia.
Qed.

#[export] Hint Resolve u8_range u32_range u64_range : cint.

(** * C strings

    A [const char *] argument is the list of the bytes before its terminating
    NUL; a [char] array is the list of all its bytes.  Reading a string at its
    length gives the NUL. *)

Definition char_at (s : list Z) (i : nat) : Z := nth i s 0.

Fixpoint cstr (s : string) : list Z :=
  match s with
  | EmptyString => []
  | String a s' => Z.of_nat (nat_of_ascii a) :: cstr s'
  end.

Arguments cstr _%_string.

(** A well-formed string: every byte is in range and none is the NUL. *)
Definition cstring (s : list Z) : Prop := Forall (fun c => 0 < c < 256) s.

(** Literals are well formed. *)
Ltac cstring_lit :=
  match goal with |- cstring ?s => apply (bool_decide_eq_true_1 (Forall (fun c => 0 < c < 256) s)) end;
  vm_compute; reflexivity.

(** The string a buffer holds: its bytes before the first NUL. *)
Fixpoint buf_str (b : list Z) : list Z :=
  match b with
  | [] => []
  | c :: b' => if c =? 0 then [] else c :: buf_str b'
  end.

(** [seqZ_fold]: a C counting loop [for (i = a; i < a + n; i++)]. *)
Definition for_range {A} (a : Z) (n : Z) (body : Z -> A -> A) (x : A) : A :=
  fold_left (fun acc i => body i acc) (seqZ a n) x.

Lemma for_range_nil {A} a n body (x : A) : n <= 0 -> for_range a n body x = x.
Proof. intros; unfold for_range; rewrite seqZ_nil by lia; done. Qed.

Lemma for_range_cons {A} a n body (x : A) :
  0 < n -> for_range a n body x = for_range (Z.succ a) (Z.pred n) body (body a x).
Proof. intros; unfold for_range; rewrite seqZ_cons by lia; done. Qed.

(** A C search loop [for (i = a; i < a + n; i++) if (test(i)) return i;]. *)
Fixpoint first_from (n : nat) (i : Z) (test : Z -> bool) : option Z :=
  match n with
  | O => None
  | S n' => if test i then Some i else first_from n' (i + 1) test
  end.

Lemma first_from_Some n i test k :
  first_from n i test = Some k <->
  i <= k < i + Z.of_nat n /\ test k = true /\ forall j, i <= j < k -> test j = false.
Proof.
  revert i. induction n as [|n IH]; intros i; cbn [first_from].
  - split; [done | lia].
  - destruct (test i) eqn:E.
    + split.
      * intros [= <-]. repeat split; [lia.. | done | lia].
      * intros (Hk & Ht & Hj). destruct (Z.eq_dec i k) as [->|]; [done|].
        rewrite Hj in E by lia. done.
    + rewrite IH. split; intros (Hk & Ht & Hj); (split; [|split; [done|]]).
      * lia.
      * intros j ?. destruct (Z.eq_dec j i) as [->|]; [done | apply Hj; lia].
      * destruct (Z.eq_dec i k) as [->|]; [congruence | lia].
      * intros; apply Hj; lia.
Qed.

Lemma first_from_None n i test :
  first_from n i test = None <-> forall j, i <= j < i + Z.of_nat n -> test j = false.
Proof.
  revert i. induction n as [|n IH]; intros i; cbn [first_from]; [split; [lia | done]|].
  destruct (test i) eqn:E.
  - split; [done|]. intros H. rewrite H in E by lia. done.
  - rewrite IH. split; intros H j ?; [|apply H; lia].
    destruct (Z.eq_dec j i) as [->|]; [done | apply H; lia].
Qed.

Lemma first_from_ext n i f g :
  (forall j, i <= j < i + Z.of_nat n -> f j = g j) -> first_from n i f = first_from n i g.
Proof.
  revert i. induction n as [|n IH]; intros i H; cbn [first_from]; [done|].
  rewrite H by lia. destruct (g i); [done|]. apply IH. intros; apply H; lia.
Qed.

(** A C array of [Z] read at a [Z] index ([d] outside, which the callers rule
    out) and written there. *)
Definition get {A} (d : A) (l : list A) (i : Z) : A := default d (l !! Z.to_nat i).
Definition put {A} (l : list A) (i : Z) (x : A) : list A := <[Z.to_nat i := x]> l.

Lemma length_put {A} (l : list A) i x : length (put l i x) = length l.
Proof. apply length_insert. Qed.

Lemma get_put {A} (d : A) l i j x :
  0 <= i < Z.of_nat (length l) -> 0 <= j ->
  get d (put l i x) j = if j =? i then x else get d l j.
Proof.
  intros Hi Hj. unfold get, put. destruct (Z.eqb_spec j i) as [->|Hne].
  - rewrite list_lookup_insert_eq by lia. done.
  - rewrite list_lookup_insert_ne by lia. done.
Qed.

Lemma get_app {A} (d : A) l1 l2 i : 0 <= i -> get d (l1 ++ l2) i = if i <? Z.of_nat (length l1) then get d l1 i else get d l2 (i - Z.of_nat (length l1)).
Proof.
  intros Hi. unfold get. destruct (Z.ltb_spec i (Z.of_nat (length l1))); [by rewrite lookup_app_l by lia|].
  rewrite lookup_app_r by lia. do 2 f_equal. lia.
Qed.

Lemma get_zeros n o : get 0 (replicate n 0) o = 0.
Proof. unfold get. destruct (replicate n 0 !! _) eqn:E; [|done]. by apply lookup_replicate in E as [-> _]. Qed.

(** The loop that closes a gap: the entries behind it move forward by one. *)
Lemma shift_entries {A} (d : A) kept rest tail x :
  exists z, for_range (Z.of_nat (length kept)) (Z.of_nat (length rest)) (fun j l => put l j (get d l (j + 1))) (kept ++ x :: rest ++ tail) = kept ++ rest ++ z :: tail.
Proof.
  revert kept x. induction rest as [|y rest IH]; intros kept x; [exists x; by rewrite for_range_nil|].
  rewrite for_range_cons by (cbn [length]; lia). cbn [app].
  assert (E : put (kept ++ x :: y :: rest ++ tail) (Z.of_nat (length kept)) (get d (kept ++ x :: y :: rest ++ tail) (Z.of_nat (length kept) + 1)) = (kept ++ [y]) ++ y :: rest ++ tail).
  { unfold put, get. replace (Z.to_nat (Z.of_nat (length kept) + 1)) with (length kept + 1)%nat by lia. rewrite Nat2Z.id, lookup_app_r, Nat.add_comm, Nat.add_sub by lia. cbn.
    by rewrite insert_app_r_alt, Nat.sub_diag by done; rewrite <- app_assoc. }
  rewrite E. destruct (IH (kept ++ [y]) y) as [z Ez]. exists z. rewrite length_app in Ez. cbn [length] in Ez |- *.
  replace (Z.succ (Z.of_nat (length kept))) with (Z.of_nat (length kept + 1)) by lia.
  replace (Z.pred (Z.of_nat (S (length rest)))) with (Z.of_nat (length rest)) by lia. rewrite Ez. by rewrite <- app_assoc.
Qed.

(** * Bit-level facts shared by the components *)

Lemma land_high_low a b k :
  0 <= k -> 0 <= b < 2 ^ k -> Z.land (a * 2 ^ k) b = 0.
Proof.
  intros Hk Hb. apply Z.bits_inj_iff'. intros n Hn.
  rewrite Z.land_spec, Z.bits_0.
  destruct (Z.lt_ge_cases n k) as [Hlt | Hge].
  - rewrite Z.mul_pow2_bits_low by lia. done.
  - rewrite <- (Z.mod_small b (2 ^ k)) by lia.
    rewrite Z.mod_pow2_bits_high by lia. apply andb_false_r.
Qed.

Lemma lor_high_low a b k :
  0 <= k -> 0 <= b < 2 ^ k -> Z.lor (a * 2 ^ k) b = a * 2 ^ k + b.
Proof. intros. symmetry. by apply Z.add_nocarry_lor, land_high_low. Qed.

Lemma lor_double_bit r b : 0 <= b < 2 -> Z.lor (2 * r) b = 2 * r + b.
Proof.
  intros. rewrite (Z.mul_comm 2 r). apply (lor_high_low r b 1); [lia | by rewrite Z.pow_1_r].
Qed.

Lemma land_1 x : Z.land x 1 = x mod 2.
Proof. exact (Z.land_ones x 1 ltac:(lia)). Qed.

Lemma land_pow2_testbit b k :
  0 <= k -> negb (Z.land b (2 ^ k) =? 0) = Z.testbit b k.
Proof.
  intros Hk. destruct (Z.testbit b k) eqn:E.
  - destruct (Z.eqb_spec (Z.land b (2 ^ k)) 0) as [H|]; [|done].
    assert (Z.testbit (Z.land b (2 ^ k)) k = true) as Ht
      by (rewrite Z.land_spec, E, Z.pow2_bits_true by done; done).
    rewrite H, Z.bits_0 in Ht. done.
  - assert (Z.land b (2 ^ k) = 0) as ->; [|done].
    apply Z.bits_inj_iff'. intros n Hn. rewrite Z.land_spec, Z.bits_0.
    destruct (Z.eq_dec n k) as [->|]; [by rewrite E|].
    rewrite Z.pow2_bits_false by lia. apply andb_false_r.
Qed.

Lemma land_7 x : Z.land x 7 = x mod 8.
Proof. exact (Z.land_ones x 3 ltac:(lia)). Qed.

(** * Counting

    [count_false f n] is the number of [i < n] with [f i = false]. *)
Fixpoint count_false (f : Z -> bool) (n : nat) : Z :=
  match n with
  | O => 0
  | S n' => count_false f n' + (if f (Z.of_nat n') then 0 else 1)
  end.

Lemma count_false_bounds f n : 0 <= count_false f n <= Z.of_nat n.
Proof. induction n as [|n IH]; cbn [count_false]; [lia|]. destruct (f _); lia. Qed.

Lemma count_false_ext f g n :
  (forall i, 0 <= i < Z.of_nat n -> f i = g i) -> count_false f n = count_false g n.
Proof.
  induction n as [|n IH]; intros H; cbn [count_false]; [done|].
  rewrite IH, (H (Z.of_nat n)) by (intros; try apply H; lia). done.
Qed.

Lemma count_false_mono f g n :
  (forall i, 0 <= i < Z.of_nat n -> f i = true -> g i = true) -> count_false g n <= count_false f n.
Proof.
  induction n as [|n IH]; intros H; cbn [count_false]; [lia|].
  specialize (IH ltac:(intros; apply H; lia || done)).
  destruct (f (Z.of_nat n)) eqn:E; [rewrite H by (lia || done); lia|]. destruct (g _); lia.
Qed.

Lemma count_false_update f g n p :
  0 <= p < Z.of_nat n -> (forall i, 0 <= i < Z.of_nat n -> i <> p -> f i = g i) ->
  count_false g n = count_false f n + (if f p then 1 else 0) - (if g p then 1 else 0).
Proof.
  induction n as [|n IH]; intros Hp H; [lia|]. cbn [count_false].
  destruct (Z.eq_dec p (Z.of_nat n)) as [->|].
  - rewrite (count_false_ext g f n) by (intros; symmetry; apply H; lia).
    destruct (f _), (g _); lia.
  - rewrite IH by (intros; try apply H; lia). rewrite (H (Z.of_nat n)) by lia. lia.
Qed.

Lemma count_false_fill f g n a k :
  0 <= a -> 0 <= k ->
  (forall i, 0 <= i < Z.of_nat n -> g i = if (a <=? i) && (i <? a + k) then true else f i) ->
  (forall i, a <= i < a + k -> f i = false) ->
  count_false g n = count_false f n - Z.max 0 (Z.min (a + k) (Z.of_nat n) - a).
Proof.
  intros Ha Hk. induction n as [|n IH]; intros Hg Hf; cbn [count_false]; [lia|].
  rewrite IH by (intros; try apply Hg; try apply Hf; lia).
  rewrite (Hg (Z.of_nat n)) by lia.
  destruct (Z.leb_spec a (Z.of_nat n)), (Z.ltb_spec (Z.of_nat n) (a + k)); cbn [andb];
    try rewrite (Hf (Z.of_nat n)) by lia; destruct (f (Z.of_nat n)); lia.
Qed.

(** Rounding down to a multiple of [2^k] with the [w]-bit mask [~(2^k - 1)]. *)
Lemma land_align w k x :
  0 <= k <= w -> 0 <= x < 2 ^ w -> Z.land x (Z.shiftl (Z.ones (w - k)) k) = x / 2 ^ k * 2 ^ k.
Proof.
  intros Hk Hx. rewrite <- Z.shiftr_div_pow2, <- Z.shiftl_mul_pow2 by lia.
  apply Z.bits_inj_iff'. intros i Hi. rewrite Z.land_spec.
  destruct (Z.lt_ge_cases i k).
  - rewrite !Z.shiftl_spec_low by lia. apply andb_false_r.
  - rewrite !Z.shiftl_spec_high, Z.shiftr_spec by lia. replace (i - k + k) with i by lia.
    destruct (Z.lt_ge_cases i w).
    + rewrite Z.ones_spec_low by lia. apply andb_true_r.
    + rewrite Z.ones_spec_high, andb_false_r by lia. symmetry.
      rewrite <- (Z.mod_small x (2 ^ w)) by lia. apply Z.mod_pow2_bits_high. lia.
Qed.

Lemma land_mask8 x : is_u32 x -> Z.land x (u32 (Z.lnot 7)) = x / 8 * 8.
Proof. intros Hx. exact (land_align 32 3 x ltac:(lia) Hx). Qed.

Lemma land_mask16 x : is_u64 x -> Z.land x (u64 (Z.lnot 15)) = x / 16 * 16.
Proof. intros Hx. exact (land_align 64 4 x ltac:(lia) Hx). Qed.

(** ** Bytes *)
Definition byte (b : Z) : Prop := 0 <= b < 256.

(** Putting two bytes, or a byte and a larger number above it, together. *)
Lemma lor_byte b0 b1 : byte b0 -> 0 <= b1 -> Z.lor b0 (Z.shiftl b1 8) = b0 + 256 * b1.
Proof.
  unfold byte. intros H0 H1. assert (E : Z.shiftl b1 8 = 256 * b1) by (rewrite Z.shiftl_mul_pow2 by lia; lia).
  assert (Hland : Z.land b0 (Z.shiftl b1 8) = 0).
  { apply Z.bits_inj'. intros i Hi. rewrite Z.land_spec, Z.bits_0. destruct (Z.lt_ge_cases i 8) as [Hlt|Hge].
    - rewrite Z.shiftl_spec_low by lia. apply andb_false_r.
    - rewrite (Z.testbit_eqb b0) by lia. rewrite Z.div_small; [done|]. split; [lia|].
      apply Z.lt_le_trans with (2 ^ 8); [lia|]. apply Z.pow_le_mono_r; lia. }
  pose proof (Z.add_lor_land b0 (Z.shiftl b1 8)). lia.
Qed.

(** Evaluate array indices that are constants. *)
Ltac is_numeral n := lazymatch n with O => idtac | S ?m => is_numeral m end.
Ltac const_indices := repeat match goal with |- context [Z.to_nat ?e] =>
  let v := eval vm_compute in (Z.to_nat e) in is_numeral v; change (Z.to_nat e) with v end.
