(* ===== verification/Util.v ===== *)
(** * kernel/core/util.c: the kernel's C runtime

    64-bit division for 32-bit targets, the byte-block operations, the string
    operations and the number/text conversions every other component calls. *)

From stdpp Require Import base list numbers strings.
From Stdlib Require Import ZArith Lia.
From S2P Require Import Prelude.

Module Util.

(** ** util_udivmod64 and its four wrappers

    The loop [for (i = 63; i >= 0; i--)] is the recursion on [n = i + 1]. *)
Fixpoint udivmod64_loop (n : nat) (num den q r : Z) : Z * Z :=
  match n with
  | O => (q, r)
  | S n' =>
      let i := Z.of_nat n' in
      let r := Z.lor (u64 (Z.shiftl r 1)) (Z.land (Z.shiftr num i) 1) in
      if den <=? r
      then udivmod64_loop n' num den (Z.lor q (u64 (Z.shiftl 1 i))) (u64 (r - den))
      else udivmod64_loop n' num den q r
  end.

Definition util_udivmod64 (num den : Z) : Z * Z :=
  if den =? 0 then (0, 0) else udivmod64_loop 64 num den 0 0.

Definition __udivdi3 (num den : Z) : Z := fst (util_udivmod64 num den).
Definition __umoddi3 (num den : Z) : Z := snd (util_udivmod64 num den).

Definition __divdi3 (num den : Z) : Z :=
  if den =? 0 then 0 else
  let un := if num <? 0 then u64 (s64 (- num)) else u64 num in
  let neg := num <? 0 in
  let ud := if den <? 0 then u64 (s64 (- den)) else u64 den in
  let neg := if den <? 0 then negb neg else neg in
  let uq := fst (util_udivmod64 un ud) in
  if neg then s64 (- s64 uq) else s64 uq.

Definition __moddi3 (num den : Z) : Z :=
  if den =? 0 then 0 else
  let un := if num <? 0 then u64 (s64 (- num)) else u64 num in
  let neg := num <? 0 in
  let ud := if den <? 0 then u64 (s64 (- den)) else u64 den in
  let rem := snd (util_udivmod64 un ud) in
  if neg then s64 (- s64 rem) else s64 rem.

(** ** Byte blocks

    Memory is a total map from addresses to bytes; a store makes a new one. *)
Definition mem := Z -> Z.
Definition upd (m : mem) (a v : Z) : mem := fun x => if x =? a then v else m x.

Fixpoint memset_loop (n : nat) (p c : Z) (m : mem) : mem :=
  match n with
  | O => m
  | S n' => memset_loop n' (p + 1) c (upd m p (u8 c))
  end.
Definition memset (s c n : Z) (m : mem) : mem := memset_loop (Z.to_nat n) s c m.

Fixpoint memcpy_loop (n : nat) (d s : Z) (m : mem) : mem :=
  match n with
  | O => m
  | S n' => memcpy_loop n' (d + 1) (s + 1) (upd m d (m s))
  end.
Definition memcpy (d s n : Z) (m : mem) : mem := memcpy_loop (Z.to_nat n) d s m.

(** The backward loop [while (n) { n--; dst[n] = src[n]; }]. *)
Fixpoint memmove_down (n : nat) (d s : Z) (m : mem) : mem :=
  match n with
  | O => m
  | S n' => memmove_down n' d s (upd m (d + Z.of_nat n') (m (s + Z.of_nat n')))
  end.

Definition memmove (d s n : Z) (m : mem) : mem :=
  if (d =? s) || (n =? 0) then m
  else if (d <? s) || (s + n <=? d)
  then for_range 0 n (fun i m => upd m (d + i) (m (s + i))) m
  else memmove_down (Z.to_nat n) d s m.

(** ** Strings *)
Fixpoint strlen (s : list Z) : Z :=
  match s with
  | [] => 0
  | c :: s' => if c =? 0 then 0 else 1 + strlen s'
  end.

Fixpoint strcmp (a b : list Z) : Z :=
  let ca := char_at a 0 in
  let cb := char_at b 0 in
  match a, b with
  | _ :: a', _ :: b' =>
      if negb (ca =? 0) && (ca =? cb) then strcmp a' b' else s8 ca - s8 cb
  | _, _ => s8 ca - s8 cb
  end.

(** [strcpy] into an array: [None] when the copy runs past its end. *)
Fixpoint strcpy (d s : list Z) : option (list Z) :=
  match d with
  | [] => None
  | _ :: d' =>
      let c := char_at s 0 in
      if c =? 0 then Some (0 :: d')
      else match strcpy d' (tl s) with
           | Some d'' => Some (c :: d'')
           | None => None
           end
  end.

Fixpoint strcat (d s : list Z) : option (list Z) :=
  match d with
  | [] => None
  | c :: d' =>
      if c =? 0 then strcpy d s
      else match strcat d' s with
           | Some d'' => Some (c :: d'')
           | None => None
           end
  end.

(** ** Numbers and text

    [itoa]: the digits are produced backwards in [tmp[16]]; the model keeps
    [tmp] as the list of the digits written so far, last one first, which is
    the order the second loop copies them in.  [None] is a write past [tmp]. *)
Definition itoa_digit (r : Z) : Z :=
  u8 (if r <? 10 then 48 + r else 65 + r - 10).

Fixpoint itoa_loop (fuel : nat) (val base : Z) (tmp : list Z) : option (list Z) :=
  if val =? 0 then Some tmp else
  match fuel with
  | O => None
  | S fuel' =>
      let r := Z.rem val base in
      if (length tmp <? 16)%nat
      then itoa_loop fuel' (Z.quot val base) base (itoa_digit r :: tmp)
      else None
  end.

(** The string written to [buf]; 17 iterations reach either the end of the
    number or the end of [tmp]. *)
Definition itoa (val base : Z) : option (list Z) :=
  if val =? 0 then Some [48] else itoa_loop 17 val base [].

(** [wcstoul]: the value and the text left at [*end]. *)
Definition wcs_digit (c : Z) : option Z :=
  if (48 <=? c) && (c <=? 57) then Some (c - 48)
  else if (97 <=? c) && (c <=? 122) then Some (c - 97 + 10)
  else if (65 <=? c) && (c <=? 90) then Some (c - 65 + 10)
  else None.

Fixpoint wcs_skip (p : list Z) : list Z :=
  match p with
  | c :: p' => if (c =? 32) || (c =? 9) then wcs_skip p' else p
  | [] => []
  end.

Fixpoint wcs_digits (p : list Z) (base value : Z) : Z * list Z :=
  match p with
  | [] => (value, p)
  | c :: p' =>
      if c =? 0 then (value, p) else
      match wcs_digit c with
      | None => (value, p)
      | Some digit =>
          if u32 base <=? digit then (value, p)
          else wcs_digits p' base (u32 (u32 (value * u32 base) + digit))
      end
  end.

Definition wcstoul (text : option (list Z)) (base : Z) : Z * option (list Z) :=
  match text with
  | None => (0, None)
  | Some p =>
      let p := wcs_skip p in
      let '(base, p) :=
        if base =? 0 then
          if (char_at p 0 =? 48) && ((char_at p 1 =? 120) || (char_at p 1 =? 88))
          then (16, drop 2 p)
          else ((if char_at p 0 =? 48 then 8 else 10), p)
        else (base, p) in
      let '(v, p) := wcs_digits p base 0 in (v, Some p)
  end.

(** ** Division *)

Lemma udivmod64_loop_spec n num den q r :
  is_u64 num -> 0 < den < 2 ^ 64 -> (n <= 64)%nat ->
  r = num / 2 ^ Z.of_nat n mod den ->
  q = num / 2 ^ Z.of_nat n / den * 2 ^ Z.of_nat n ->
  udivmod64_loop n num den q r = (num / den, num mod den).
Proof.
  unfold is_u64. revert q r. induction n as [|n IH]; intros q r Hnum Hden Hn Hr Hq.
  - rewrite Z.pow_0_r, Z.div_1_r in *. cbn. f_equal; lia.
  - cbn [udivmod64_loop].
    assert (Hp : 2 ^ Z.of_nat (S n) = 2 * 2 ^ Z.of_nat n)
      by (rewrite Nat2Z.inj_succ, Z.pow_succ_r; lia).
    assert (0 < 2 ^ Z.of_nat n <= 2 ^ 63)
      by (split; [apply Z.pow_pos_nonneg; lia | apply Z.pow_le_mono_r; lia]).
    set (P := 2 ^ Z.of_nat n) in *.
    rewrite Hp in *.
    assert (HN : num / P = 2 * (num / (2 * P)) + num / P mod 2).
    { rewrite (Z.mul_comm 2 P), <- Z.div_div by lia. apply Z.div_mod; lia. }
    replace (num / (2 * P)) with (num / P / 2) in *
      by (rewrite Z.div_div, (Z.mul_comm P 2); lia).
    assert (HNle : 0 <= num / P <= num)
      by (split; [apply Z.div_pos; lia | apply Z.div_le_upper_bound; nia]).
    set (N := num / P / 2) in *. set (b := num / P mod 2) in *.
    assert (0 <= b < 2) by (subst b; apply Z.mod_pos_bound; lia).
    rewrite Z.shiftr_div_pow2 by lia. fold P.
    rewrite land_1. fold b.
    pose proof (Z.mod_pos_bound N den ltac:(lia)) as Hrb.
    pose proof (Z.div_mod N den ltac:(lia)) as HNd.
    assert (HNpos : 0 <= N) by (subst N; apply Z.div_pos; lia).
    assert (HQ : 0 <= N / den) by (apply Z.div_pos; lia).
    assert (Hrle : r <= N) by (subst r; apply Z.mod_le; lia).
    rewrite Z.shiftl_mul_pow2, Z.pow_1_r by lia.
    rewrite (u64_small (r * 2)) by (unfold is_u64; lia).
    rewrite (Z.mul_comm r 2), lor_double_bit by lia.
    assert (Hdm : num / P = den * (2 * (N / den)) + (2 * r + b)) by lia.
    destruct (Z.leb_spec den (2 * r + b)) as [Hge | Hlt].
    + apply IH; try lia.
      * rewrite u64_small by (unfold is_u64; lia).
        rewrite Hdm. apply Z.mod_unique_pos with (q := 2 * (N / den) + 1); lia.
      * rewrite Z.shiftl_mul_pow2, Z.mul_1_l, u64_small by (unfold is_u64; lia).
        fold P.
        rewrite <- (Z.div_unique_pos (num / P) den (2 * (N / den) + 1) (2 * r + b - den)) by lia.
        subst q.
        replace (N / den * (2 * P)) with (N / den * 2 ^ (Z.of_nat n + 1))
          by (rewrite Z.pow_add_r, Z.pow_1_r; unfold P; lia).
        rewrite lor_high_low; [rewrite Z.pow_add_r, Z.pow_1_r; unfold P; lia| lia |].
        rewrite Z.pow_add_r, Z.pow_1_r by lia. fold P. lia.
    + apply IH; try lia.
      * rewrite Hdm. apply Z.mod_unique_pos with (q := 2 * (N / den)); lia.
      * rewrite <- (Z.div_unique_pos (num / P) den (2 * (N / den)) (2 * r + b)) by lia. lia.
Qed.

Lemma util_udivmod64_spec num den :
  is_u64 num -> is_u64 den -> den <> 0 ->
  util_udivmod64 num den = (num / den, num mod den).
Proof.
  unfold is_u64, util_udivmod64. intros Hn Hd H0.
  rewrite (proj2 (Z.eqb_neq den 0)) by lia.
  apply udivmod64_loop_spec; unfold is_u64; try lia.
  - rewrite Z.div_small, Z.mod_0_l; [done | lia | change (2 ^ Z.of_nat 64) with (2^64); lia].
  - rewrite (Z.div_small num); [by rewrite Z.div_0_l by lia
      | change (2 ^ Z.of_nat 64) with (2^64); lia].
Qed.

Lemma s64_range x : -9223372036854775808 <= s64 x < 9223372036854775808.
Proof. unfold s64. pose proof (Z.mod_pos_bound (x + 9223372036854775808) 18446744073709551616). lia. Qed.

Lemma s64_u64 x : s64 (u64 x) = s64 x.
Proof. unfold s64, u64. by rewrite Z.add_mod_idemp_l by lia. Qed.

Lemma s64_opp_s64 x : s64 (- s64 x) = s64 (- x).
Proof.
  unfold s64. rewrite Z.opp_sub_distr.
  set (k := 9223372036854775808). set (M := 18446744073709551616).
  f_equal.
  replace (- ((x + k) mod M) + k + k) with (2 * k - (x + k) mod M) by lia.
  rewrite Zminus_mod_idemp_r. f_equal. lia.
Qed.

(** The magnitude [(uint64_t)(-num)] or [(uint64_t)num] is |num|, also for the
    most negative value, whose negation wraps. *)
Lemma u64_magnitude num :
  -9223372036854775808 <= num < 9223372036854775808 ->
  (if num <? 0 then u64 (s64 (- num)) else u64 num) = Z.abs num.
Proof.
  intros. destruct (Z.ltb_spec num 0); [|rewrite u64_small by (unfold is_u64; lia); lia].
  unfold u64, s64. zlia.
Qed.

Lemma quot_abs num den : den <> 0 ->
  Z.quot num den = if xorb (num <? 0) (den <? 0)
                   then - (Z.abs num / Z.abs den) else Z.abs num / Z.abs den.
Proof.
  intros H0. rewrite Z.quot_div by done.
  destruct (Z.ltb_spec num 0); destruct (Z.ltb_spec den 0); cbn [xorb];
    destruct (Z.eq_dec num 0) as [->|]; rewrite ?Z.div_0_l by lia;
    rewrite ?(Z.sgn_neg num), ?(Z.sgn_pos num), ?(Z.sgn_neg den), ?(Z.sgn_pos den) by lia;
    cbn [Z.sgn]; lia.
Qed.

Lemma rem_abs num den : den <> 0 ->
  Z.rem num den = if num <? 0 then - (Z.abs num mod Z.abs den) else Z.abs num mod Z.abs den.
Proof.
  intros H0. rewrite Z.rem_mod by done.
  destruct (Z.ltb_spec num 0); destruct (Z.eq_dec num 0) as [->|];
    rewrite ?Z.mod_0_l by lia;
    rewrite ?(Z.sgn_neg num), ?(Z.sgn_pos num) by lia; lia.
Qed.

Lemma quot_fits num den :
  -9223372036854775808 <= num < 9223372036854775808 -> den <> 0 ->
  0 <= Z.abs num / Z.abs den <= 9223372036854775808.
Proof.
  intros. split; [apply Z.div_pos; lia|].
  apply Z.div_le_upper_bound; [lia|]. nia.
Qed.

(** The 64-bit division helpers the 32-bit kernel links against compute the
    C operators: for every unsigned operand pair the quotient and remainder,
    and for every signed pair the quotient and remainder truncated towards
    zero, the one overflowing quotient (INT64_MIN / -1) wrapping; a zero
    divisor gives 0 from all four. *)
Theorem div64_helpers_correct (num den snum sden : Z) :
  is_u64 num -> is_u64 den ->
  -9223372036854775808 <= snum < 9223372036854775808 ->
  -9223372036854775808 <= sden < 9223372036854775808 ->
  (den <> 0 -> __udivdi3 num den = num / den /\ __umoddi3 num den = num mod den) /\
  (sden <> 0 -> __divdi3 snum sden = s64 (Z.quot snum sden) /\
                __moddi3 snum sden = Z.rem snum sden) /\
  (__udivdi3 num 0 = 0 /\ __umoddi3 num 0 = 0 /\ __divdi3 snum 0 = 0 /\ __moddi3 snum 0 = 0).
Proof.
  intros Hn Hd Hsn Hsd.
  split; [intros; unfold __udivdi3, __umoddi3; by rewrite util_udivmod64_spec|].
  split; [|done]. intros H0. unfold __divdi3, __moddi3. cbv zeta.
  rewrite (proj2 (Z.eqb_neq sden 0)), !u64_magnitude by lia.
  rewrite util_udivmod64_spec by (unfold is_u64; lia). cbn [fst snd].
  rewrite quot_abs, rem_abs by done.
  pose proof (quot_fits snum sden Hsn H0).
  pose proof (Z.mod_pos_bound (Z.abs snum) (Z.abs sden) ltac:(lia)).
  pose proof (Z.mod_le (Z.abs snum) (Z.abs sden) ltac:(lia) ltac:(lia)).
  split.
  - destruct (snum <? 0), (sden <? 0); cbn [negb xorb]; by rewrite ?s64_opp_s64.
  - set (r := Z.abs snum mod Z.abs sden) in *.
    destruct (Z.ltb_spec snum 0); rewrite ?s64_opp_s64; unfold s64; rewrite Z.mod_small; lia.
Qed.

Lemma div64_helpers_correct_witness :
  __divdi3 (-9223372036854775808) (-1) = -9223372036854775808 /\
  __moddi3 (-7) 2 = -1.
Proof.
  destruct (div64_helpers_correct 18446744073709551615 3 (-9223372036854775808) (-1)) as (_ & H & _);
    [unfold is_u64; lia .. |].
  destruct (H ltac:(lia)) as [-> _].
  destruct (div64_helpers_correct 0 0 (-7) 2) as (_ & H' & _); [unfold is_u64; lia .. |].
  destruct (H' ltac:(lia)) as [_ ->]. split; reflexivity.
Defined.

(** ** Byte blocks *)

Lemma forward_copy_spec (k : nat) d s a m x :
  d < s \/ s + Z.of_nat k <= d ->
  for_range a (Z.of_nat k) (fun i m => upd m (d + i) (m (s + i))) m x =
  if (d + a <=? x) && (x <? d + a + Z.of_nat k) then m (s + (x - d)) else m x.
Proof.
  revert a m. induction k as [|k IH]; intros a m Hov.
  - rewrite for_range_nil by lia. zbool; try done; lia.
  - rewrite for_range_cons by lia.
    replace (Z.pred (Z.of_nat (S k))) with (Z.of_nat k) by lia.
    rewrite IH by lia. unfold upd.
    zbool; cbn; try lia; f_equal; lia.
Qed.

Lemma memmove_down_spec n d s m x :
  s < d ->
  memmove_down n d s m x =
  if (d <=? x) && (x <? d + Z.of_nat n) then m (s + (x - d)) else m x.
Proof.
  revert m. induction n as [|n IH]; intros m Hlt; cbn [memmove_down].
  - zbool; try done; lia.
  - rewrite IH by done. unfold upd. zbool; cbn; try lia; f_equal; lia.
Qed.

Lemma memset_loop_spec n p c m x :
  memset_loop n p c m x = if (p <=? x) && (x <? p + Z.of_nat n) then u8 c else m x.
Proof.
  revert p m. induction n as [|n IH]; intros p m; cbn [memset_loop].
  - zbool; try done; lia.
  - rewrite IH. unfold upd. zbool; cbn; try lia; done.
Qed.

Lemma memcpy_loop_spec n d s m x :
  d <= s \/ s + Z.of_nat n <= d ->
  memcpy_loop n d s m x =
  if (d <=? x) && (x <? d + Z.of_nat n) then m (s + (x - d)) else m x.
Proof.
  revert d s m. induction n as [|n IH]; intros d s m Hov; cbn [memcpy_loop].
  - zbool; try done; lia.
  - rewrite IH by lia. unfold upd. zbool; cbn; try lia; f_equal; lia.
Qed.

(** [memmove] is a simultaneous copy for every placement of the two blocks,
    overlapping either way included: afterwards the destination holds the bytes
    the source held before the call, and no other byte of memory changed. *)
Theorem memmove_simultaneous (d s n : Z) (m : mem) (x : Z) :
  0 <= n ->
  memmove d s n m x = if (d <=? x) && (x <? d + n) then m (s + (x - d)) else m x.
Proof.
  intros Hn. unfold memmove.
  destruct (Z.eqb_spec d s) as [->|]; cbn [orb].
  { zbool; cbn; try done. f_equal; lia. }
  destruct (Z.eqb_spec n 0) as [->|]; cbn [orb]. { zbool; cbn; try done; lia. }
  destruct (Z.ltb_spec d s); cbn [orb]; [|destruct (Z.leb_spec (s + n) d)].
  - rewrite <- (Z2Nat.id n) by lia. rewrite forward_copy_spec by lia. by rewrite Z.add_0_r.
  - rewrite <- (Z2Nat.id n) by lia. rewrite forward_copy_spec by lia. by rewrite Z.add_0_r.
  - rewrite memmove_down_spec, Z2Nat.id by lia. done.
Qed.

Lemma memmove_simultaneous_witness :
  map (memmove 2 0 3 (fun a => 10 * a)) [0; 1; 2; 3; 4; 5] = [0; 10; 0; 10; 20; 50].
Proof.
  cbn [map]. rewrite !(memmove_simultaneous 2 0 3 (fun a => 10 * a)) by lia. reflexivity.
Defined.

(** ** Strings *)

Lemma strlen_length s : cstring s -> strlen s = Z.of_nat (length s).
Proof.
  induction 1 as [|c s Hc _ IH]; cbn [strlen length]; [done|].
  rewrite (proj2 (Z.eqb_neq c 0)) by lia. lia.
Qed.

Lemma s8_inj a b : 0 <= a < 256 -> 0 <= b < 256 -> s8 a = s8 b -> a = b.
Proof. intros. zlia. Qed.

Lemma strcmp_eq a b : cstring a -> cstring b -> strcmp a b = 0 <-> a = b.
Proof.
  intros Ha; revert b. induction Ha as [|x a Hx Ha IH]; intros b Hb.
  - destruct Hb as [|y b Hy Hb]; cbn; [done|]. split; [|done].
    intros H. assert (0 = y) by (apply s8_inj; unfold s8 in *; lia). lia.
  - destruct Hb as [|y b Hy Hb]; cbn.
    + split; [|done]. intros H.
      assert (x = 0) by (apply s8_inj; unfold s8 in *; lia). lia.
    + rewrite (proj2 (Z.eqb_neq x 0)) by lia. cbn [negb andb].
      destruct (Z.eqb_spec x y) as [->|Hne].
      * rewrite IH by done. split; congruence.
      * split; [|congruence]. intros H. assert (x = y) by (apply s8_inj; lia). lia.
Qed.

Lemma strcmp_refl a : cstring a -> strcmp a a = 0.
Proof. intros. by apply strcmp_eq. Qed.

Lemma strcpy_spec d s :
  cstring s ->
  match strcpy d s with
  | Some d' => (length s < length d)%nat /\ d' = s ++ 0 :: drop (S (length s)) d
  | None => (length d <= length s)%nat
  end.
Proof.
  intros Hs; revert d. induction Hs as [|c s Hc Hs IH]; intros [|x d]; cbn; try lia.
  - rewrite drop_0. split; [lia | done].
  - rewrite (proj2 (Z.eqb_neq c 0)) by lia.
    specialize (IH d). destruct (strcpy d s) as [d'|]; [|lia].
    destruct IH as [? ->]. split; [lia | done].
Qed.

Lemma buf_str_app s b : cstring s -> buf_str (s ++ 0 :: b) = s.
Proof.
  induction 1 as [|c s Hc _ IH]; cbn; [done|].
  rewrite (proj2 (Z.eqb_neq c 0)) by lia. by rewrite IH.
Qed.

Lemma strcat_spec d s b :
  cstring d -> cstring s ->
  match strcat (d ++ 0 :: b) s with
  | Some d' => (length s <= length b)%nat /\ length d' = length (d ++ 0 :: b) /\ buf_str d' = d ++ s
  | None => (length b < length s)%nat
  end.
Proof.
  intros Hd Hs. induction Hd as [|c d Hc Hd IH].
  - cbn [strcat app]. rewrite Z.eqb_refl.
    pose proof (strcpy_spec (0 :: b) s Hs) as H.
    destruct (strcpy _ _) as [d'|]; cbn [length] in *; [|lia].
    destruct H as [? ->]. split; [lia|].
    split; [|by apply buf_str_app].
    rewrite length_app. cbn [length]. rewrite length_drop. cbn [length]. lia.
  - cbn [strcat app]. rewrite (proj2 (Z.eqb_neq c 0)) by lia.
    destruct (strcat _ s) as [d'|]; [|lia].
    destruct IH as (? & ? & ?). split; [lia|]. cbn [length buf_str].
    rewrite (proj2 (Z.eqb_neq c 0)) by lia. split; [by f_equal | by f_equal].
Qed.

(** ** Numbers and text *)

Lemma wcs_digit_itoa r : 0 <= r < 36 -> wcs_digit (itoa_digit r) = Some r.
Proof.
  intros H. unfold itoa_digit, wcs_digit.
  destruct (Z.ltb_spec r 10); rewrite u8_small by (unfold is_u8; lia);
    zbool; cbn; try lia; f_equal; lia.
Qed.

Lemma itoa_digit_graphic r : 0 <= r < 36 -> 48 <= itoa_digit r <= 90.
Proof.
  intros. unfold itoa_digit. destruct (Z.ltb_spec r 10); rewrite u8_small by (unfold is_u8; lia); lia.
Qed.

Lemma itoa_loop_graphic fuel val base tmp s :
  0 <= val -> 2 <= base <= 36 ->
  itoa_loop fuel val base tmp = Some s ->
  Forall (fun c => 48 <= c <= 90) tmp -> Forall (fun c => 48 <= c <= 90) s.
Proof.
  revert val tmp. induction fuel as [|fuel IH]; intros val tmp Hv Hb; cbn [itoa_loop].
  - destruct (val =? 0); congruence.
  - destruct (Z.eqb_spec val 0); [congruence|]. destruct (_ <? _)%nat; [|done].
    intros Hl Ht. apply (IH _ _ (Z.quot_pos val base Hv ltac:(lia)) Hb Hl).
    constructor; [|done]. apply itoa_digit_graphic.
    rewrite Z.rem_mod_nonneg by lia. pose proof (Z.mod_pos_bound val base). lia.
Qed.

Lemma wcs_digits_itoa fuel val base tmp s :
  0 <= val < 2147483648 -> 2 <= base <= 36 ->
  itoa_loop fuel val base tmp = Some s ->
  wcs_digits s base 0 = wcs_digits tmp base val.
Proof.
  revert val tmp. induction fuel as [|fuel IH]; intros val tmp Hv Hb; cbn [itoa_loop].
  - destruct (Z.eqb_spec val 0); congruence.
  - destruct (Z.eqb_spec val 0) as [->|]; [congruence|]. destruct (_ <? _)%nat; [|done].
    rewrite Z.quot_div_nonneg, Z.rem_mod_nonneg by lia.
    pose proof (Z.mod_pos_bound val base ltac:(lia)) as Hr.
    pose proof (Z.div_mod val base ltac:(lia)) as Hdm.
    assert (0 <= val / base <= val)
      by (split; [apply Z.div_pos; lia | apply Z.div_le_upper_bound; nia]).
    intros Hl. rewrite (IH (val / base) _ ltac:(lia) Hb Hl). cbn [wcs_digits].
    pose proof (itoa_digit_graphic (val mod base) ltac:(lia)).
    rewrite (proj2 (Z.eqb_neq (itoa_digit _) 0)), wcs_digit_itoa by lia.
    rewrite (u32_small base) by (unfold is_u32; lia).
    rewrite (proj2 (Z.leb_gt base _)) by lia.
    rewrite (u32_small (val / base * base)) by (unfold is_u32; nia).
    rewrite u32_small by (unfold is_u32; nia). f_equal. lia.
Qed.

Lemma itoa_loop_total fuel val base tmp :
  4 <= base -> (length tmp <= 16)%nat -> (17 <= fuel + length tmp)%nat ->
  0 <= val < 4 ^ (16 - Z.of_nat (length tmp)) ->
  is_Some (itoa_loop fuel val base tmp).
Proof.
  revert val tmp. induction fuel as [|fuel IH]; intros val tmp Hb Ht Hf Hv; [lia|].
  cbn [itoa_loop]. destruct (Z.eqb_spec val 0); [by eexists|].
  assert (length tmp <> 16)%nat by (intros H16; rewrite H16 in Hv; cbn in Hv; lia).
  destruct (Nat.ltb_spec (length tmp) 16); [|lia].
  apply IH; cbn [length]; try lia.
  rewrite Z.quot_div_nonneg by lia. split; [apply Z.div_pos; lia|].
  apply Z.div_lt_upper_bound; [lia|].
  replace (16 - Z.of_nat (length tmp)) with (Z.succ (16 - Z.of_nat (S (length tmp)))) in Hv by lia.
  rewrite Z.pow_succ_r in Hv by lia.
  assert (0 < 4 ^ (16 - Z.of_nat (S (length tmp)))) by (apply Z.pow_pos_nonneg; lia). nia.
Qed.

(** Printing and reading a number agree: in every base from 4 to 36,
    [itoa] of a non-negative [int] succeeds within its 16-byte scratch array
    and [wcstoul] in the same base reads the value back and consumes the whole
    text; in bases 2 and 3 the same holds whenever [itoa] stays inside the
    array. *)
Theorem itoa_wcstoul_roundtrip (val base : Z) :
  0 <= val < 2147483648 -> 2 <= base <= 36 ->
  (4 <= base -> is_Some (itoa val base)) /\
  (forall s, itoa val base = Some s -> wcstoul (Some s) base = (val, Some [])).
Proof.
  intros Hv Hb. unfold itoa. split.
  - intros. destruct (Z.eqb_spec val 0); [by eexists|].
    apply itoa_loop_total; cbn; lia.
  - intros s. destruct (Z.eqb_spec val 0) as [->|Hne].
    + intros [= <-]. unfold wcstoul. cbn [wcs_skip Z.eqb Pos.eqb orb].
      rewrite (proj2 (Z.eqb_neq base 0)) by lia. cbn [wcs_digits Z.eqb].
      change (wcs_digit 48) with (Some 0). cbv iota.
      rewrite (u32_small base), (proj2 (Z.leb_gt base 0)) by (unfold is_u32; lia). done.
    + intros Hs. unfold wcstoul.
      pose proof (itoa_loop_graphic _ _ _ _ _ (proj1 Hv) Hb Hs (Forall_nil_2 _)) as Hg.
      assert (wcs_skip s = s) as ->.
      { destruct Hg as [|c s' Hc _]; [done|]. cbn. zbool; cbn; lia || done. }
      rewrite (proj2 (Z.eqb_neq base 0)) by lia.
      by rewrite (wcs_digits_itoa _ _ _ _ _ Hv Hb Hs).
Qed.

Lemma itoa_wcstoul_roundtrip_witness :
  wcstoul (Some (cstr "1F9")) 16 = (505, Some []).
Proof. apply (itoa_wcstoul_roundtrip 505 16); [lia | lia | reflexivity]. Defined.

(** The text [itoa] makes of a negative number starts with the character
    [10 - d] positions below ['0'] for its leading digit [d]. *)
Lemma itoa_loop_negative_head fuel val tmp s :
  -2147483648 <= val < 0 ->
  itoa_loop fuel val 10 tmp = Some s ->
  exists c s', s = c :: s' /\ 39 <= c < 48.
Proof.
  revert val tmp. induction fuel as [|fuel IH]; intros val tmp Hv; cbn [itoa_loop].
  - destruct (Z.eqb_spec val 0); [lia | done].
  - destruct (Z.eqb_spec val 0); [lia|]. destruct (_ <? _)%nat; [|done].
    destruct (Z.eq_dec (Z.quot val 10) 0) as [Hq|Hq].
    + rewrite Hq. assert (-10 < val) by (Z.to_euclidean_division_equations; lia).
      assert (Z.rem val 10 = val) as -> by (Z.to_euclidean_division_equations; lia).
      destruct fuel; cbn [itoa_loop Z.eqb]; intros [= <-]; eexists _, _; (split; [done|]);
        unfold itoa_digit; rewrite (proj2 (Z.ltb_lt val 10)) by lia;
        rewrite u8_small; unfold is_u8; lia.
    + apply IH. Z.to_euclidean_division_equations; lia.
Qed.

(** [itoa] has no sign handling: for every negative [int] the text it
    writes in base 10 begins with a character that is neither a digit nor a
    sign, so that reading it back stops at once with value 0. *)
Theorem itoa_negative_unreadable (val : Z) (s : list Z) :
  -2147483648 <= val < 0 -> itoa val 10 = Some s ->
  wcstoul (Some s) 10 = (0, Some s).
Proof.
  intros Hv. unfold itoa. rewrite (proj2 (Z.eqb_neq val 0)) by lia.
  intros Hs. destruct (itoa_loop_negative_head _ _ _ _ Hv Hs) as (c & s' & -> & Hc).
  unfold wcstoul. cbn [wcs_skip].
  rewrite (proj2 (Z.eqb_neq c 32)), (proj2 (Z.eqb_neq c 9)) by lia. cbn [orb Z.eqb wcs_digits].
  rewrite (proj2 (Z.eqb_neq c 0)) by lia. unfold wcs_digit.
  rewrite (proj2 (Z.leb_gt 48 c)), (proj2 (Z.leb_gt 97 c)), (proj2 (Z.leb_gt 65 c)) by lia. done.
Qed.

Lemma itoa_negative_unreadable_witness :
  itoa (-1) 10 = Some (cstr "/") /\ wcstoul (Some (cstr "/")) 10 = (0, Some (cstr "/")).
Proof. split; [reflexivity | apply (itoa_negative_unreadable (-1)); [lia | reflexivity]]. Defined.

End Util.
