(* ===== verification/Pmm.v ===== *)
(** * kernel/mm/pmm.c: the physical page allocator

    One bit per 4 KiB page below 4 GiB (1 = used), a count of the free pages
    and a search hint.  The state is the five file-scope variables. *)

From stdpp Require Import base list numbers.
From Stdlib Require Import ZArith Lia.
From S2P Require Import Prelude.

Module Pmm.

Definition PMM_PAGE_SIZE : Z := 4096.
Definition PMM_MAX_PAGES : Z := 1048576.
Definition PMM_BITMAP_BYTES : Z := PMM_MAX_PAGES / 8.

Record pmm := mkPmm {
  page_bitmap : list Z;
  page_limit : Z;
  managed_pages : Z;
  free_pages : Z;
  search_hint : Z
}.

Definition set_bitmap (st : pmm) (b : list Z) : pmm :=
  mkPmm b (page_limit st) (managed_pages st) (free_pages st) (search_hint st).
Definition set_free (st : pmm) (n : Z) : pmm :=
  mkPmm (page_bitmap st) (page_limit st) (managed_pages st) n (search_hint st).
Definition set_hint (st : pmm) (n : Z) : pmm :=
  mkPmm (page_bitmap st) (page_limit st) (managed_pages st) (free_pages st) n.
Definition set_managed (st : pmm) (n : Z) : pmm :=
  mkPmm (page_bitmap st) (page_limit st) n (free_pages st) (search_hint st).

Definition bitmap_byte (b : list Z) (page : Z) : Z :=
  default 0 (b !! Z.to_nat (Z.shiftr page 3)).

Definition PmmPageUsed (st : pmm) (page : Z) : bool :=
  negb (Z.land (bitmap_byte (page_bitmap st) page) (Z.shiftl 1 (Z.land page 7)) =? 0).

Definition PmmSetPage (page : Z) (used : bool) (st : pmm) : pmm :=
  if page_limit st <=? page then st else
  let mask := u8 (Z.shiftl 1 (Z.land page 7)) in
  let byte := bitmap_byte (page_bitmap st) page in
  let was_used := negb (Z.land byte mask =? 0) in
  let byte' := if used then Z.lor byte mask else Z.land byte (u8 (Z.lnot mask)) in
  let st := set_bitmap st (<[Z.to_nat (Z.shiftr page 3) := byte']> (page_bitmap st)) in
  let st := if was_used && negb used then set_free st (u32 (free_pages st + 1)) else st in
  if negb was_used && used && negb (free_pages st =? 0)
  then set_free st (free_pages st - 1) else st.

(** Both bounds are computed in [uint64_t]. *)
Definition PmmMarkRange (base length : Z) (used : bool) (st : pmm) : pmm :=
  let first := if used then base / PMM_PAGE_SIZE
               else u64 (base + PMM_PAGE_SIZE - 1) / PMM_PAGE_SIZE in
  let last := if used then u64 (base + length + PMM_PAGE_SIZE - 1) / PMM_PAGE_SIZE
              else u64 (base + length) / PMM_PAGE_SIZE in
  let last := if page_limit st <? last then page_limit st else last in
  for_range first (last - first) (fun page => PmmSetPage (u32 page) used) st.

(** ** What the boot loader hands over *)
Definition MULTIBOOT_INFO_MEMORY : Z := Z.shiftl 1 0.
Definition MULTIBOOT_INFO_MODULES : Z := Z.shiftl 1 3.
Definition MULTIBOOT_INFO_MMAP : Z := Z.shiftl 1 6.
Definition MULTIBOOT_MEMORY_AVAILABLE : Z := 1.
Definition sizeof_MULTIBOOT_INFO : Z := 116.
Definition sizeof_MULTIBOOT_MODULE : Z := 16.

Record MULTIBOOT_INFO := {
  flags : Z; mem_upper : Z; mods_count : Z; mods_addr : Z; mmap_length : Z; mmap_addr : Z
}.
Record MULTIBOOT_MMAP_ENTRY := { e_size : Z; e_base : Z; e_length : Z; e_type : Z }.
Record MULTIBOOT_MODULE := { m_start : Z; m_end : Z }.

(** The boot information in memory: the [MULTIBOOT_INFO] with its address, the
    memory-map entry at an address, the [i]-th module, and the linker's
    [__kernel_end]. *)
Record boot := {
  b_info : option (Z * MULTIBOOT_INFO);
  b_entry : Z -> MULTIBOOT_MMAP_ENTRY;
  b_module : Z -> MULTIBOOT_MODULE;
  kernel_end : Z
}.

Definition has_flag (i : MULTIBOOT_INFO) (f : Z) : bool := negb (Z.land (flags i) f =? 0).

(** The body of the loop over the modules. *)
Definition mark_module (b : boot) (i : Z) (st : pmm) : pmm :=
  let m := b_module b i in
  if m_start m <? m_end m
  then PmmMarkRange (m_start m) (m_end m - m_start m) true st else st.

Definition PmmReserveBootData (a : arch) (b : boot) (st : pmm) : pmm :=
  match a with
  | LA64 => PmmMarkRange 0 0x200000 true st
  | _ =>
      let st := PmmMarkRange 0 (kernel_end b) true st in
      match b_info b with
      | None => st
      | Some (addr, info) =>
          let st := PmmMarkRange addr sizeof_MULTIBOOT_INFO true st in
          let st := if has_flag info MULTIBOOT_INFO_MMAP && negb (mmap_addr info =? 0)
                    then PmmMarkRange (mmap_addr info) (mmap_length info) true st else st in
          if has_flag info MULTIBOOT_INFO_MODULES && negb (mods_addr info =? 0) then
            let st := PmmMarkRange (mods_addr info)
                        (usize a (mods_count info * sizeof_MULTIBOOT_MODULE)) true st in
            for_range 0 (mods_count info) (mark_module b) st
          else st
      end
  end.

(** The entries the [while (offset + sizeof(uint32_t) <= info->mmap_length)]
    loop visits; [None] when the fuel runs out.  Both loops of
    [PmmInitialize] walk the map this way. *)
Fixpoint mmap_walk (fuel : nat) (a : arch) (b : boot) (info : MULTIBOOT_INFO) (offset : Z)
  : option (list MULTIBOOT_MMAP_ENTRY) :=
  if usize a (offset + 4) <=? mmap_length info then
    match fuel with
    | O => None
    | S fuel' =>
        let entry := b_entry b (u32 (mmap_addr info + offset)) in
        let offset := u32 (offset + usize a (e_size entry + 4)) in
        if e_size entry =? 0 then Some [entry]
        else match mmap_walk fuel' a b info offset with
             | Some l => Some (entry :: l)
             | None => None
             end
    end
  else Some [].

Definition mmap_entries (a : arch) (b : boot) (info : MULTIBOOT_INFO) :=
  mmap_walk (S (Z.to_nat (mmap_length info / 4))) a b info 0.

Definition available (e : MULTIBOOT_MMAP_ENTRY) : bool := e_type e =? MULTIBOOT_MEMORY_AVAILABLE.

(** [highest]: the end of the highest available region, at least 16 MiB. *)
Definition raise_highest (highest : Z) (entry : MULTIBOOT_MMAP_ENTRY) : Z :=
  let end_ := u64 (e_base entry + e_length entry) in
  if available entry && (highest <? end_) then end_ else highest.

Definition blank (limit : Z) (st : pmm) : pmm :=
  mkPmm (replicate (Z.to_nat PMM_BITMAP_BYTES) 255) limit (managed_pages st) 0 (search_hint st).

Definition mark_entry (st : pmm) (entry : MULTIBOOT_MMAP_ENTRY) : pmm :=
  if available entry then PmmMarkRange (e_base entry) (e_length entry) false st else st.

Definition PmmInitialize (a : arch) (b : boot) (st : pmm) : option pmm :=
  match a with
  | LA64 =>
      let highest := 256 * 1024 * 1024 in
      let st := blank (u32 (highest / PMM_PAGE_SIZE)) st in
      let st := PmmMarkRange 0x100000 (highest - 0x100000) false st in
      let st := set_managed st (free_pages st) in
      let st := PmmReserveBootData a b st in
      Some (set_hint st (0x200000 / PMM_PAGE_SIZE))
  | _ =>
      let use_mmap := match b_info b with
                      | Some (_, info) => has_flag info MULTIBOOT_INFO_MMAP
                      | None => false
                      end in
      match (match b_info b with
             | Some (_, info) => if use_mmap then mmap_entries a b info else Some []
             | None => Some []
             end) with
      | None => None
      | Some entries =>
          let highest :=
            match b_info b with
            | Some (_, info) =>
                if use_mmap then fold_left raise_highest entries (16 * 1024 * 1024)
                else if has_flag info MULTIBOOT_INFO_MEMORY
                then 0x100000 + mem_upper info * 1024
                else 16 * 1024 * 1024
            | None => 16 * 1024 * 1024
            end in
          let highest := if 0x100000000 <? highest then 0x100000000 else highest in
          let limit := u32 (highest / PMM_PAGE_SIZE) in
          let limit := if PMM_MAX_PAGES <? limit then PMM_MAX_PAGES else limit in
          let st := blank limit st in
          let st := if use_mmap then fold_left mark_entry entries st
                    else PmmMarkRange 0x100000 (highest - 0x100000) false st in
          let st := set_managed st (free_pages st) in
          let st := PmmReserveBootData a b st in
          Some (set_hint st (u32 (usize a (kernel_end b + PMM_PAGE_SIZE - 1) / PMM_PAGE_SIZE)))
      end
  end.

(** ** Allocation

    The search loop of one pass: [Some start] when [run] reaches [count]. *)
Fixpoint alloc_scan (fuel : nat) (st : pmm) (count page end_ run start : Z) : option Z :=
  match fuel with
  | O => None
  | S fuel' =>
      if page <? end_ then
        if negb (PmmPageUsed st page) then
          let start := if run =? 0 then page else start in
          let run := u32 (run + 1) in
          if run =? count then Some start
          else alloc_scan fuel' st count (u32 (page + 1)) end_ run start
        else alloc_scan fuel' st count (u32 (page + 1)) end_ 0 start
      else None
  end.

Definition alloc_pass (st : pmm) (count begin end_ : Z) : option Z :=
  alloc_scan (S (Z.to_nat (end_ - begin))) st count begin end_ 0 0.

Definition alloc_take (start count : Z) (st : pmm) : Z * pmm :=
  let st := for_range start count (fun page => PmmSetPage page true) st in
  (start * PMM_PAGE_SIZE, set_hint st (start + count)).

Definition PmmAllocatePages (count : Z) (st : pmm) : Z * pmm :=
  if (count =? 0) || (free_pages st <? count) then (0, st) else
  match alloc_pass st count (search_hint st) (page_limit st) with
  | Some start => alloc_take start count st
  | None =>
      match alloc_pass st count 1 (search_hint st) with
      | Some start => alloc_take start count st
      | None => (0, st)
      end
  end.

Definition PmmAllocatePage (st : pmm) : Z * pmm := PmmAllocatePages 1 st.

(** [for (i = 0; i < count && page + i < page_limit; i++)]; the bound on
    [page + i] stops the loop, so [page_limit + 1] iterations suffice. *)
Fixpoint free_loop (fuel : nat) (page count i : Z) (st : pmm) : pmm :=
  match fuel with
  | O => st
  | S fuel' =>
      if (i <? count) && (u32 (page + i) <? page_limit st)
      then free_loop fuel' page count (i + 1) (PmmSetPage (u32 (page + i)) false st)
      else st
  end.

Definition PmmFreePages (address count : Z) (st : pmm) : pmm :=
  let page := u32 (address / PMM_PAGE_SIZE) in
  if negb (Z.land address (PMM_PAGE_SIZE - 1) =? 0) || (page =? 0) then st else
  let st := free_loop (S (Z.to_nat (page_limit st))) page count 0 st in
  if page <? search_hint st then set_hint st page else st.

Definition PmmFreePage (address : Z) (st : pmm) : pmm := PmmFreePages address 1 st.
Definition PmmGetTotalPages (st : pmm) : Z := managed_pages st.
Definition PmmGetFreePages (st : pmm) : Z := free_pages st.

(** ** The bitmap as a set of pages *)

Definition shape (st : pmm) : Prop :=
  length (page_bitmap st) = Z.to_nat PMM_BITMAP_BYTES /\ 0 <= page_limit st <= PMM_MAX_PAGES.

Definition page_ok (p : Z) : Prop := 0 <= p < PMM_MAX_PAGES.

Definition count_free (st : pmm) : Z := count_false (PmmPageUsed st) (Z.to_nat (page_limit st)).

(** The invariant without the hint, which holds while the state is built:
    pages past the limit are never free and [free_pages] is exact. *)
Definition inv0 (st : pmm) : Prop :=
  shape st /\
  (forall p, page_limit st <= p < PMM_MAX_PAGES -> PmmPageUsed st p = true) /\
  free_pages st = count_free st.

Definition inv (st : pmm) : Prop :=
  inv0 st /\ 1 <= search_hint st <= PMM_MAX_PAGES.

Lemma PmmPageUsed_testbit st p :
  0 <= p -> PmmPageUsed st p = Z.testbit (bitmap_byte (page_bitmap st) p) (p mod 8).
Proof.
  intros. unfold PmmPageUsed. rewrite land_7, Z.shiftl_mul_pow2, Z.mul_1_l by zlia.
  apply land_pow2_testbit. zlia.
Qed.

Lemma bitmap_byte_insert b p q v :
  0 <= p -> 0 <= q -> (Z.to_nat (p / 8) < length b)%nat ->
  bitmap_byte (<[Z.to_nat (Z.shiftr p 3) := v]> b) q =
  if q / 8 =? p / 8 then v else bitmap_byte b q.
Proof.
  intros Hp Hq Hl. unfold bitmap_byte. rewrite !Z.shiftr_div_pow2 by lia.
  change (2 ^ 3) with 8. destruct (Z.eqb_spec (q / 8) (p / 8)) as [->|Hne].
  - by rewrite list_lookup_insert_eq by done.
  - rewrite list_lookup_insert_ne; [done|].
    intros He. apply Hne. apply Z2Nat.inj in He; [done | zlia | zlia].
Qed.

Lemma byte_set_bit b k j :
  0 <= k < 8 -> 0 <= j < 8 ->
  Z.testbit (Z.lor b (u8 (2 ^ k))) j = if j =? k then true else Z.testbit b j.
Proof.
  intros Hk Hj. rewrite Z.lor_spec. unfold u8. change 256 with (2 ^ 8).
  rewrite Z.mod_pow2_bits_low, Z.pow2_bits_eqb by lia.
  rewrite (Z.eqb_sym k j). destruct (j =? k); [apply orb_true_r | apply orb_false_r].
Qed.

Lemma byte_clear_bit b k j :
  0 <= k < 8 -> 0 <= j < 8 ->
  Z.testbit (Z.land b (u8 (Z.lnot (u8 (2 ^ k))))) j = if j =? k then false else Z.testbit b j.
Proof.
  intros Hk Hj. rewrite Z.land_spec. unfold u8. change 256 with (2 ^ 8).
  rewrite Z.mod_pow2_bits_low, Z.lnot_spec, Z.mod_pow2_bits_low, Z.pow2_bits_eqb by lia.
  rewrite (Z.eqb_sym k j). destruct (j =? k); [apply andb_false_r | apply andb_true_r].
Qed.

(** The bitmap write of [PmmSetPage] and the free-page count it keeps. *)
Lemma PmmSetPage_fields p u st :
  page_limit (PmmSetPage p u st) = page_limit st /\
  managed_pages (PmmSetPage p u st) = managed_pages st /\
  search_hint (PmmSetPage p u st) = search_hint st.
Proof. unfold PmmSetPage. by repeat case_match. Qed.

Lemma PmmSetPage_used p u st q :
  shape st -> 0 <= p -> page_ok q ->
  PmmPageUsed (PmmSetPage p u st) q =
  if (q =? p) && (p <? page_limit st) then u else PmmPageUsed st q.
Proof.
  intros [Hlen Hlim] Hp Hq. unfold page_ok, PMM_BITMAP_BYTES, PMM_MAX_PAGES in *.
  unfold PmmSetPage. destruct (Z.leb_spec (page_limit st) p) as [|Hlt].
  { rewrite (proj2 (Z.ltb_ge p _)) by lia. by rewrite andb_false_r. }
  rewrite (proj2 (Z.ltb_lt p _)), andb_true_r by lia.
  set (byte' := if u then _ else _).
  assert (forall st', page_bitmap st' =
            <[Z.to_nat (Z.shiftr p 3) := byte']> (page_bitmap st) ->
          PmmPageUsed st' q = if q =? p then u else PmmPageUsed st q) as Hgoal.
  { intros st' Hb. rewrite !PmmPageUsed_testbit, Hb by lia.
    rewrite bitmap_byte_insert by zlia.
    destruct (Z.eqb_spec (q / 8) (p / 8)) as [He|Hne].
    - assert (bitmap_byte (page_bitmap st) p = bitmap_byte (page_bitmap st) q) as Hbb.
      { unfold bitmap_byte. rewrite !Z.shiftr_div_pow2 by lia. change (2 ^ 3) with 8. by rewrite He. }
      assert ((q mod 8 =? p mod 8) = (q =? p)) as Hmod by (zbool; zlia).
      subst byte'. rewrite land_7, Z.shiftl_mul_pow2, Z.mul_1_l by zlia.
      destruct u; [rewrite byte_set_bit by zlia | rewrite byte_clear_bit by zlia];
        by rewrite Hmod, Hbb.
    - rewrite (proj2 (Z.eqb_neq q p)) by (intros ->; done). done. }
  apply Hgoal. cbv zeta. by repeat case_match.
Qed.

Lemma PmmSetPage_shape p u st : shape st -> shape (PmmSetPage p u st).
Proof.
  intros [Hl Hb]. unfold shape. rewrite (proj1 (PmmSetPage_fields p u st)). split; [|done].
  unfold PmmSetPage. cbv zeta. by repeat case_match; cbn; rewrite ?length_insert.
Qed.

Lemma count_free_pos st p :
  0 <= p < page_limit st -> PmmPageUsed st p = false -> 1 <= count_free st.
Proof.
  intros Hp Hu. unfold count_free.
  set (g := fun q => if q =? p then true else PmmPageUsed st q).
  pose proof (count_false_update (PmmPageUsed st) g (Z.to_nat (page_limit st)) p) as H.
  pose proof (count_false_bounds g (Z.to_nat (page_limit st))).
  rewrite Hu in H. subst g. cbv beta in H. rewrite Z.eqb_refl in H.
  enough (forall i, i <> p -> PmmPageUsed st i = if i =? p then true else PmmPageUsed st i)
    by (rewrite H in *; auto; lia).
  intros i Hi. by rewrite (proj2 (Z.eqb_neq i p)).
Qed.

Lemma PmmSetPage_free p u st :
  inv0 st -> 0 <= p ->
  free_pages (PmmSetPage p u st) = count_free (PmmSetPage p u st).
Proof.
  intros (Hs & Hb & Hc) Hp.
  pose proof Hs as [_ Hlim]. unfold PMM_MAX_PAGES in *.
  destruct (Z.le_gt_cases (page_limit st) p) as [Hge|Hlt].
  { unfold PmmSetPage. by rewrite (proj2 (Z.leb_le _ _) Hge). }
  assert (count_free (PmmSetPage p u st) =
          count_free st + (if PmmPageUsed st p then 1 else 0) - (if u then 1 else 0)) as ->.
  { unfold count_free. rewrite (proj1 (PmmSetPage_fields p u st)).
    rewrite (count_false_update (PmmPageUsed st) _ _ p).
    - rewrite (PmmSetPage_used p u st p Hs Hp) by (unfold page_ok, PMM_MAX_PAGES; lia).
      rewrite Z.eqb_refl, (proj2 (Z.ltb_lt p _)) by lia. done.
    - lia.
    - intros i Hi Hne. rewrite PmmSetPage_used by (try done; unfold page_ok, PMM_MAX_PAGES; lia).
      by rewrite (proj2 (Z.eqb_neq i p)). }
  assert (0 <= count_free st <= 1048576) as Hcb.
  { pose proof (count_false_bounds (PmmPageUsed st) (Z.to_nat (page_limit st))).
    unfold count_free. lia. }
  assert (PmmPageUsed st p = false -> 1 <= count_free st) as Hpos
    by (intros; eapply count_free_pos; [|done]; lia).
  unfold PmmSetPage. rewrite (proj2 (Z.leb_gt _ _) Hlt). cbv zeta.
  assert (negb (Z.land (bitmap_byte (page_bitmap st) p) (u8 (Z.shiftl 1 (Z.land p 7))) =? 0)
          = PmmPageUsed st p) as Hw.
  { unfold PmmPageUsed. rewrite u8_small; [done|].
    rewrite land_7, Z.shiftl_mul_pow2, Z.mul_1_l by zlia.
    unfold is_u8. split; [apply Z.pow_nonneg; lia|].
    apply Z.lt_le_trans with (2 ^ 8); [apply Z.pow_lt_mono_r; zlia | done]. }
  rewrite Hw. destruct (PmmPageUsed st p), u; cbn -[u32]; rewrite Hc; try lia.
  - rewrite u32_small; unfold is_u32; lia.
  - rewrite (proj2 (Z.eqb_neq (count_free st) 0)) by (specialize (Hpos eq_refl); lia).
    cbn. lia.
Qed.

Lemma PmmSetPage_inv0 p u st : inv0 st -> 0 <= p -> inv0 (PmmSetPage p u st).
Proof.
  intros Hi Hp. pose proof Hi as (Hs & Hb & Hc).
  split; [by apply PmmSetPage_shape|]. split; [|by apply PmmSetPage_free].
  rewrite (proj1 (PmmSetPage_fields p u st)). intros q Hq.
  destruct Hs as [Hl Hlim].
  rewrite PmmSetPage_used by (try done; unfold page_ok; lia).
  rewrite Hb by done. destruct (Z.eqb_spec q p) as [->|]; cbn; [|done].
  rewrite (proj2 (Z.ltb_ge p _)); [done | lia].
Qed.

(** What marking the pages of a set [P] as used or free does; every loop over
    [PmmSetPage] is an instance. *)
Record marks (P : Z -> bool) (u : bool) (st st' : pmm) : Prop := {
  mk_inv0 : inv0 st';
  mk_limit : page_limit st' = page_limit st;
  mk_managed : managed_pages st' = managed_pages st;
  mk_hint : search_hint st' = search_hint st;
  mk_used : forall q, page_ok q -> PmmPageUsed st' q =
    if P q && (q <? page_limit st) then u else PmmPageUsed st q
}.

Definition in_range (a n q : Z) : bool := (a <=? q) && (q <? a + n).

Lemma marks_none P u st : inv0 st -> (forall q, page_ok q -> P q = false) -> marks P u st st.
Proof. intros Hi HP. split; try done. intros q Hq. by rewrite HP. Qed.

Lemma marks_ext P Q u st st' :
  marks P u st st' ->
  (forall q, page_ok q -> q < page_limit st -> P q = Q q) -> marks Q u st st'.
Proof.
  intros [H1 H2 H3 H4 H5] HPQ. split; try done. intros q Hq. rewrite H5 by done.
  destruct (Z.ltb_spec q (page_limit st)); [by rewrite HPQ | by rewrite !andb_false_r].
Qed.

Lemma marks_trans P Q u st st' st'' :
  marks P u st st' -> marks Q u st' st'' -> marks (fun q => P q || Q q) u st st''.
Proof.
  intros [H1 H2 H3 H4 H5] [G1 G2 G3 G4 G5]. split; try congruence.
  intros q Hq. rewrite G5, H5, H2 by done.
  destruct (P q), (Q q), (q <? page_limit st); done.
Qed.

Lemma for_range_marked (k : nat) a u st f :
  inv0 st -> 0 <= a ->
  (forall i, a <= i < a + Z.of_nat k -> f i = PmmSetPage i u) ->
  marks (in_range a (Z.of_nat k)) u st (for_range a (Z.of_nat k) f st).
Proof.
  revert a st. induction k as [|k IH]; intros a st Hi Ha Hf.
  - rewrite for_range_nil by lia. apply marks_none; [done|].
    intros q Hq. unfold in_range. destruct (Z.leb_spec a q); cbn; [|done].
    apply Z.ltb_ge. lia.
  - rewrite for_range_cons by lia.
    replace (Z.pred (Z.of_nat (S k))) with (Z.of_nat k) by lia.
    rewrite (Hf a) by lia.
    assert (marks (Z.eqb a) u st (PmmSetPage a u st)) as H0.
    { destruct (PmmSetPage_fields a u st) as (F1 & F2 & F3).
      split; [by apply PmmSetPage_inv0 | done .. |].
      intros q Hq. destruct Hi as (Hs & _ & _). rewrite PmmSetPage_used, (Z.eqb_sym a) by done.
      by destruct (Z.eqb_spec q a) as [->|]. }
    eapply marks_ext; [eapply marks_trans; [exact H0|]|].
    + apply IH; [by apply PmmSetPage_inv0 | lia | intros; apply Hf; lia].
    + intros q Hq _. unfold in_range. zbool; cbn; try done; lia.
Qed.

Lemma for_range_marks a n u st f :
  inv0 st -> 0 <= a ->
  (forall i, a <= i < a + n -> f i = PmmSetPage i u) ->
  marks (in_range a n) u st (for_range a n f st).
Proof.
  intros Hi Ha Hf. destruct (Z.le_gt_cases n 0) as [Hn|Hn].
  - rewrite for_range_nil by done. apply marks_none; [done|].
    intros q Hq. unfold in_range. zbool; cbn; done || lia.
  - rewrite <- (Z2Nat.id n) by lia. apply for_range_marked; try done.
    intros i. rewrite Z2Nat.id by lia. apply Hf.
Qed.

(** ** Allocation *)

Definition free_run (st : pmm) (a n : Z) : Prop :=
  forall i, a <= i < a + n -> PmmPageUsed st i = false.

(** The search finds the lowest run of [count] free pages of its window, and
    finds one whenever there is one. *)
Lemma alloc_scan_spec fuel st count begin page end_ run start :
  0 <= begin -> is_u32 count -> 0 <= end_ <= PMM_MAX_PAGES ->
  begin <= page - run -> page <= Z.max begin end_ -> 0 <= run < count ->
  (run = 0 \/ start = page - run) ->
  free_run st (page - run) run ->
  (forall r, begin <= r -> free_run st r count -> page - run <= r) ->
  (Z.to_nat (end_ - page) < fuel)%nat -> page < 4294967295 ->
  match alloc_scan fuel st count page end_ run start with
  | Some r => begin <= r /\ r + count <= end_ /\ free_run st r count /\
              (forall r', begin <= r' -> free_run st r' count -> r <= r')
  | None => forall r', begin <= r' -> r' + count <= end_ -> ~ free_run st r' count
  end.
Proof.
  unfold is_u32, PMM_MAX_PAGES. revert page run start.
  induction fuel as [|fuel IH]; intros page run start Hb Hc He Hrun Hpage Hr Hst Hfree Hmin Hf Hp;
    [lia|].
  cbn [alloc_scan]. destruct (Z.ltb_spec page end_) as [Hlt|Hge].
  2:{ intros r' Hr' Hend Hfr. specialize (Hmin r' Hr' Hfr). lia. }
  rewrite (u32_small (page + 1)) by (unfold is_u32; lia).
  destruct (PmmPageUsed st page) eqn:Hu; cbn [negb].
  - apply IH; try lia.
    + intros i ?; lia.
    + intros r Hbr Hfr. specialize (Hmin r Hbr Hfr).
      destruct (Z.le_gt_cases (page + 1) r); [lia|].
      rewrite (Hfr page) in Hu by lia. done.
  - rewrite u32_small by (unfold is_u32; lia).
    assert (Hfree' : free_run st (page - run) (run + 1)).
    { intros i Hi. destruct (Z.eq_dec i page) as [->|]; [done | apply Hfree; lia]. }
    destruct (Z.eqb_spec (run + 1) count) as [<-|Hne].
    + replace (if run =? 0 then page else start) with (page - run)
        by (destruct (Z.eqb_spec run 0); lia).
      split; [lia|]. split; [lia|]. split; [done|]. exact Hmin.
    + apply IH; try lia.
      * right. destruct (Z.eqb_spec run 0); lia.
      * by replace (page + 1 - (run + 1)) with (page - run) by lia.
      * intros. replace (page + 1 - (run + 1)) with (page - run) by lia. by apply Hmin.
Qed.

Lemma alloc_pass_spec st count begin end_ :
  0 <= begin <= PMM_MAX_PAGES -> is_u32 count -> 0 < count -> 0 <= end_ <= PMM_MAX_PAGES ->
  match alloc_pass st count begin end_ with
  | Some r => begin <= r /\ r + count <= end_ /\ free_run st r count /\
              (forall r', begin <= r' -> free_run st r' count -> r <= r')
  | None => forall r', begin <= r' -> r' + count <= end_ -> ~ free_run st r' count
  end.
Proof.
  unfold PMM_MAX_PAGES, is_u32. intros. apply alloc_scan_spec; unfold is_u32, PMM_MAX_PAGES; try lia.
  intros i ?; lia.
Qed.

(** The pages [start, start + count) move from free to used and nothing else
    changes. *)
Definition taken (start count : Z) (st st' : pmm) : Prop :=
  1 <= start /\ start + count <= page_limit st /\ free_run st start count /\
  inv st' /\ page_limit st' = page_limit st /\ managed_pages st' = managed_pages st /\
  search_hint st' = start + count /\ free_pages st' = free_pages st - count /\
  (forall q, page_ok q ->
     PmmPageUsed st' q = if in_range start count q then true else PmmPageUsed st q).

Lemma alloc_take_spec start count st :
  inv st -> 1 <= start -> 0 < count -> start + count <= PMM_MAX_PAGES ->
  free_run st start count ->
  exists st', alloc_take start count st = (start * PMM_PAGE_SIZE, st') /\ taken start count st st'.
Proof.
  intros [Hi Hh] Hs Hc Hmax Hfree. pose proof Hi as ((Hlen & Hlim) & Hbeyond & Hcount).
  assert (Hle : start + count <= page_limit st).
  { destruct (Z.le_gt_cases (start + count) (page_limit st)) as [|Hgt]; [done|].
    specialize (Hfree (start + count - 1) ltac:(lia)).
    rewrite Hbeyond in Hfree by lia. done. }
  destruct (for_range_marks start count true st (fun page => PmmSetPage page true) Hi ltac:(lia))
    as [M1 M2 M3 M4 M5]; [done|].
  eexists; split; [reflexivity|].
  set (st1 := for_range start count _ st) in *.
  assert (Hused : forall q, page_ok q -> PmmPageUsed st1 q =
            if in_range start count q then true else PmmPageUsed st q).
  { intros q Hq. rewrite M5 by done. unfold in_range.
    destruct (Z.leb_spec start q), (Z.ltb_spec q (start + count)); cbn; try done.
    by rewrite (proj2 (Z.ltb_lt q _)) by lia. }
  assert (Hcnt : free_pages st1 = free_pages st - count).
  { destruct M1 as (_ & _ & ->). rewrite Hcount. unfold count_free. rewrite M2.
    unfold page_ok, PMM_MAX_PAGES in *.
    rewrite (count_false_fill (PmmPageUsed st) (PmmPageUsed st1) _ start count);
      [lia | lia | lia | intros i ?; apply Hused; lia | exact Hfree]. }
  unfold taken. cbn. unfold inv; cbn. unfold PMM_MAX_PAGES in *.
  repeat split; try done; try lia; try (apply M1).
Qed.

(** The two outcomes of an allocation. *)
Definition alloc_outcome (count : Z) (st : pmm) (addr : Z) (st' : pmm) : Prop :=
  (addr = 0 /\ st' = st /\
     (count = 0 \/ free_pages st < count \/
      (forall r, search_hint st <= r -> r + count <= page_limit st -> ~ free_run st r count) /\
      (forall r, 1 <= r -> r + count <= search_hint st -> ~ free_run st r count))) \/
  (exists start, addr = start * PMM_PAGE_SIZE /\ 0 < count /\ taken start count st st').

Lemma PmmAllocatePages_outcome (st : pmm) (count : Z) :
  inv st -> is_u32 count ->
  alloc_outcome count st (fst (PmmAllocatePages count st)) (snd (PmmAllocatePages count st)).
Proof.
  intros Hinv Hc. pose proof Hinv as [((Hlen & Hlim) & _ & _) Hh]. unfold is_u32 in Hc.
  unfold PmmAllocatePages, alloc_outcome.
  destruct (Z.eqb_spec count 0); cbn [orb]; [left; auto|].
  destruct (Z.ltb_spec (free_pages st) count); cbn [orb]; [left; auto|].
  pose proof (alloc_pass_spec st count (search_hint st) (page_limit st)
    ltac:(lia) Hc ltac:(lia) ltac:(lia)) as H1.
  destruct (alloc_pass st count (search_hint st) _) as [r|].
  { destruct H1 as (? & ? & ? & _).
    destruct (alloc_take_spec r count st Hinv) as (st' & -> & ?); try lia; [done|].
    right. exists r. split; [done|]. split; [lia | done]. }
  pose proof (alloc_pass_spec st count 1 (search_hint st)
    ltac:(unfold PMM_MAX_PAGES; lia) Hc ltac:(lia) ltac:(lia)) as H2.
  destruct (alloc_pass st count 1 _) as [r|].
  { destruct H2 as (? & ? & ? & _).
    destruct (alloc_take_spec r count st Hinv) as (st' & -> & ?); try lia; [done|].
    right. exists r. split; [done|]. split; [lia | done]. }
  left. split; [done|]. split; [done|]. right. right. done.
Qed.

(** ** Release *)

Lemma free_loop_for fuel page count i st :
  shape st -> 0 <= page -> 0 <= i -> page + i <= 4294967295 ->
  (Z.to_nat (page_limit st - (page + i)) < fuel)%nat ->
  free_loop fuel page count i st =
  for_range (page + i) (Z.min (count - i) (page_limit st - (page + i)))
    (fun p => PmmSetPage p false) st.
Proof.
  revert i st. induction fuel as [|fuel IH]; intros i st Hs Hp Hi Hw Hf; [lia|].
  cbn [free_loop]. rewrite u32_small by (unfold is_u32; lia).
  pose proof Hs as [_ Hlim]. unfold PMM_MAX_PAGES in *.
  destruct (Z.ltb_spec i count), (Z.ltb_spec (page + i) (page_limit st)); cbn [andb];
    try (rewrite for_range_nil by lia; done).
  pose proof (PmmSetPage_shape (page + i) false st Hs) as Hs'.
  destruct (PmmSetPage_fields (page + i) false st) as (F1 & _).
  rewrite IH by (rewrite ?F1; try done; lia).
  rewrite F1, (for_range_cons (page + i)) by lia. f_equal; lia.
Qed.

Lemma PmmFreePages_marks st address count page :
  inv st -> is_u32 count -> address = page * PMM_PAGE_SIZE -> 1 <= page < 4294967296 ->
  inv (PmmFreePages address count st) /\
  page_limit (PmmFreePages address count st) = page_limit st /\
  managed_pages (PmmFreePages address count st) = managed_pages st /\
  search_hint (PmmFreePages address count st) = Z.min page (search_hint st) /\
  (forall q, page_ok q -> PmmPageUsed (PmmFreePages address count st) q =
     if in_range page count q && (q <? page_limit st) then false else PmmPageUsed st q).
Proof.
  intros [Hi Hh] Hc -> Hp. unfold PmmFreePages. unfold PMM_PAGE_SIZE.
  rewrite Z.div_mul by lia. rewrite (u32_small page) by (unfold is_u32; lia).
  change (4096 - 1) with (Z.ones 12). rewrite Z.land_ones by lia.
  change (2 ^ 12) with 4096. rewrite Z.mod_mul by lia.
  rewrite (proj2 (Z.eqb_neq page 0)) by lia. cbn [Z.eqb negb orb].
  pose proof Hi as (Hs & _ & _). pose proof Hs as [_ Hlim]. unfold PMM_MAX_PAGES in *.
  rewrite free_loop_for by (try done; lia). rewrite Z.add_0_r, Z.sub_0_r.
  destruct (for_range_marks page (Z.min count (page_limit st - page)) false st
    (fun p => PmmSetPage p false) Hi ltac:(lia)) as [M1 M2 M3 M4 M5]; [done|].
  set (st1 := for_range page _ _ st) in *.
  assert (forall q, page_ok q -> PmmPageUsed st1 q =
     if in_range page count q && (q <? page_limit st) then false else PmmPageUsed st q) as Hu.
  { intros q Hq. rewrite M5 by done. unfold in_range.
    replace ((page <=? q) && (q <? page + Z.min count (page_limit st - page)) && (q <? page_limit st))
      with ((page <=? q) && (q <? page + count) && (q <? page_limit st)); [done|].
    zbool; cbn; try done; lia. }
  rewrite M4. destruct (Z.ltb_spec page (search_hint st)); cbn.
  - unfold inv, PMM_MAX_PAGES; cbn. repeat split; try done; try lia; apply M1.
  - unfold inv, PMM_MAX_PAGES. rewrite M4. repeat split; try done; try lia; apply M1.
Qed.

(** ** Initialisation *)

Lemma blank_used limit st p : page_ok p -> PmmPageUsed (blank limit st) p = true.
Proof.
  unfold page_ok, PMM_MAX_PAGES. intros Hp. rewrite PmmPageUsed_testbit by lia.
  unfold bitmap_byte. cbn [page_bitmap blank].
  rewrite Z.shiftr_div_pow2 by lia. change (2 ^ 3) with 8.
  rewrite lookup_replicate_2 by (unfold PMM_BITMAP_BYTES, PMM_MAX_PAGES; zlia).
  change (default 0 (Some 255)) with (Z.ones 8). apply Z.ones_spec_low. zlia.
Qed.

Lemma blank_inv0 limit st : 0 <= limit <= PMM_MAX_PAGES -> inv0 (blank limit st).
Proof.
  intros Hl. split; [split; [apply length_replicate | done]|].
  split; [intros; apply blank_used; cbn [page_limit blank] in *; unfold page_ok; lia|].
  unfold count_free. cbn [free_pages page_limit blank].
  rewrite (count_false_ext _ (fun _ => true))
    by (intros; apply blank_used; unfold page_ok; lia).
  induction (Z.to_nat limit) as [|n IH]; cbn [count_false]; lia.
Qed.

(** The pages a byte range touches, and the pages wholly inside one. *)
Definition touches (base length q : Z) : bool :=
  (base / 4096 <=? q) && (q <? (base + length + 4095) / 4096).
Definition inside (base length q : Z) : bool :=
  (base <=? q * 4096) && ((q + 1) * 4096 <=? base + length).

Definition range_ok (base length : Z) : Prop :=
  0 <= base /\ 0 <= length /\ base + length + 4095 < 18446744073709551616.

Lemma PmmMarkRange_marks (base length : Z) (u : bool) (st : pmm) :
  inv0 st -> range_ok base length ->
  marks (if u then touches base length else inside base length) u st
        (PmmMarkRange base length u st).
Proof.
  intros Hi (Hb & Hl & Ho). pose proof Hi as ((_ & Hlim) & _ & _).
  unfold PMM_MAX_PAGES in *. unfold PmmMarkRange, PMM_PAGE_SIZE.
  rewrite !u64_small by (unfold is_u64; lia).
  eapply marks_ext.
  - apply for_range_marks; [done | destruct u; apply Z.div_pos; lia |].
    intros i Hi'. rewrite u32_small; [done|]. unfold is_u32.
    split; [destruct u; zlia|]. case_match; zbool; lia.
  - intros q Hq Hql. unfold page_ok, PMM_MAX_PAGES in Hq. unfold in_range, touches, inside.
    destruct u; zbool; cbn; try done; zlia.
Qed.

Definition entry_ok (e : MULTIBOOT_MMAP_ENTRY) : Prop := range_ok (e_base e) (e_length e).

Definition usable (entries : list MULTIBOOT_MMAP_ENTRY) (q : Z) : bool :=
  existsb (fun e => available e && inside (e_base e) (e_length e) q) entries.

Lemma mark_entries_marks entries st :
  inv0 st -> Forall entry_ok entries ->
  marks (usable entries) false st (fold_left mark_entry entries st).
Proof.
  intros Hi He. revert st Hi. induction He as [|e es He _ IH]; intros st Hi; cbn [fold_left].
  - by apply marks_none.
  - assert (marks (fun q => available e && inside (e_base e) (e_length e) q) false st
              (mark_entry st e)) as H1.
    { unfold mark_entry. destruct (available e); cbn [andb].
      - by apply (PmmMarkRange_marks _ _ false).
      - by apply marks_none. }
    exact (marks_trans _ _ _ _ _ _ H1 (IH _ (mk_inv0 _ _ _ _ H1))).
Qed.

(** The pages that hold boot data: the kernel, the boot information, the
    memory map, the module table and the modules. *)
Definition module_page (b : boot) (q i : Z) : bool :=
  let m := b_module b i in
  (m_start m <? m_end m) && touches (m_start m) (m_end m - m_start m) q.

Definition boot_page (a : arch) (b : boot) (q : Z) : bool :=
  touches 0 (kernel_end b) q ||
  match b_info b with
  | None => false
  | Some (addr, info) =>
      touches addr sizeof_MULTIBOOT_INFO q ||
      (has_flag info MULTIBOOT_INFO_MMAP && negb (mmap_addr info =? 0) &&
         touches (mmap_addr info) (mmap_length info) q) ||
      (has_flag info MULTIBOOT_INFO_MODULES && negb (mods_addr info =? 0) &&
         (touches (mods_addr info) (usize a (mods_count info * sizeof_MULTIBOOT_MODULE)) q ||
          existsb (module_page b q) (seqZ 0 (mods_count info))))
  end.

Definition info_ok (addr : Z) (info : MULTIBOOT_INFO) : Prop :=
  0 <= addr < 2 ^ 63 /\ is_u32 (mem_upper info) /\ is_u32 (mods_count info) /\
  is_u32 (mods_addr info) /\ is_u32 (mmap_length info) /\ is_u32 (mmap_addr info).

Definition boot_ok (b : boot) : Prop :=
  1 <= kernel_end b <= 0x100000000 - 4096 /\
  (forall addr info, b_info b = Some (addr, info) -> info_ok addr info) /\
  (forall i, is_u32 (m_start (b_module b i)) /\ is_u32 (m_end (b_module b i))) /\
  (forall p, entry_ok (b_entry b p)).

Lemma mark_modules_marks b (k : nat) j st :
  inv0 st -> (forall i, is_u32 (m_start (b_module b i)) /\ is_u32 (m_end (b_module b i))) ->
  marks (fun q => existsb (module_page b q) (seqZ j (Z.of_nat k))) true st
    (for_range j (Z.of_nat k) (mark_module b) st).
Proof.
  intros Hi Hm. revert j st Hi. induction k as [|k IH]; intros j st Hi.
  - rewrite for_range_nil by lia. apply marks_none; [done|]. by rewrite seqZ_nil by lia.
  - rewrite for_range_cons, seqZ_cons by lia.
    replace (Z.pred (Z.of_nat (S k))) with (Z.of_nat k) by lia.
    assert (marks (fun q => module_page b q j) true st (mark_module b j st)) as H1.
    { unfold module_page, mark_module. cbv zeta. destruct (Hm j) as [[? ?] [? ?]].
      destruct (Z.ltb_spec (m_start (b_module b j)) (m_end (b_module b j))); cbn [andb].
      - apply (PmmMarkRange_marks _ _ true); [done|]. split; [|split]; lia.
      - by apply marks_none. }
    exact (marks_trans _ _ _ _ _ _ H1 (IH _ _ (mk_inv0 _ _ _ _ H1))).
Qed.

Lemma usize_mods a n : is_u32 n -> usize a (n * sizeof_MULTIBOOT_MODULE) <= n * 16 /\
  0 <= usize a (n * sizeof_MULTIBOOT_MODULE).
Proof.
  unfold is_u32, sizeof_MULTIBOOT_MODULE. intros.
  destruct a; cbn [usize]; unfold u32, u64; split;
    first [apply Z.mod_le; lia | apply Z.mod_pos_bound; lia].
Qed.

Lemma PmmReserveBootData_marks a b st :
  a <> LA64 -> boot_ok b -> inv0 st ->
  marks (boot_page a b) true st (PmmReserveBootData a b st).
Proof.
  intros Ha (Hk & Hinfo & Hmod & _) Hi. unfold PmmReserveBootData, boot_page.
  assert (marks (touches 0 (kernel_end b)) true st (PmmMarkRange 0 (kernel_end b) true st)) as H1
    by (apply (PmmMarkRange_marks _ _ true); [done | split; [|split]; lia]).
  set (st1 := PmmMarkRange 0 (kernel_end b) true st) in *.
  destruct (b_info b) as [[addr info]|].
  2:{ destruct a; try done; eapply marks_ext; try done; intros; by rewrite orb_false_r. }
  destruct (Hinfo addr info eq_refl) as (A1 & A2 & A3 & A4 & A5 & A6). unfold is_u32 in *.
  assert (marks (touches addr sizeof_MULTIBOOT_INFO) true st1
            (PmmMarkRange addr sizeof_MULTIBOOT_INFO true st1)) as H2
    by (apply (PmmMarkRange_marks _ _ true);
        [apply H1 | unfold sizeof_MULTIBOOT_INFO; split; [|split]; lia]).
  set (st2 := PmmMarkRange addr _ true st1) in *.
  set (c3 := has_flag info MULTIBOOT_INFO_MMAP && negb (mmap_addr info =? 0)).
  assert (marks (fun q => c3 && touches (mmap_addr info) (mmap_length info) q) true st2
            (if c3 then PmmMarkRange (mmap_addr info) (mmap_length info) true st2 else st2)) as H3.
  { destruct c3; cbn [andb]; [|by apply marks_none; [apply H2|]].
    apply (PmmMarkRange_marks _ _ true); [apply H2 | split; [|split]; lia]. }
  set (st3 := if c3 then _ else st2) in *.
  set (c4 := has_flag info MULTIBOOT_INFO_MODULES && negb (mods_addr info =? 0)).
  pose proof (usize_mods a (mods_count info) A3) as [U1 U2].
  assert (marks (touches (mods_addr info) (usize a (mods_count info * sizeof_MULTIBOOT_MODULE)))
            true st3 (PmmMarkRange (mods_addr info)
              (usize a (mods_count info * sizeof_MULTIBOOT_MODULE)) true st3)) as H4
    by (apply (PmmMarkRange_marks _ _ true); [apply H3 | split; [|split]; lia]).
  pose proof (mark_modules_marks b (Z.to_nat (mods_count info)) 0 _ (mk_inv0 _ _ _ _ H4) Hmod) as H5.
  rewrite Z2Nat.id in H5 by lia.
  pose proof (marks_trans _ _ _ _ _ _ (marks_trans _ _ _ _ _ _ H1 H2) H3) as H123.
  pose proof (marks_trans _ _ _ _ _ _ H123 (marks_trans _ _ _ _ _ _ H4 H5)) as H.
  destruct a; try done; (destruct c4;
    [ eapply marks_ext; [exact H | intros; cbn [andb]; by rewrite !orb_assoc]
    | eapply marks_ext; [exact H123 | intros; cbn [andb]; by rewrite orb_false_r, !orb_assoc]]).
Qed.

(** A memory map whose entries fill [mmap_length] bytes, as the boot protocol
    lays them out. *)
Definition map_ok (b : boot) (info : MULTIBOOT_INFO) : Prop :=
  mmap_length info <= 4294967288 /\
  forall off, 0 <= off -> off + 4 <= mmap_length info ->
    0 <= e_size (b_entry b (u32 (mmap_addr info + off))) /\
    off + e_size (b_entry b (u32 (mmap_addr info + off))) + 4 <= mmap_length info.

Lemma mmap_walk_total fuel a b info off :
  boot_ok b -> map_ok b info -> 0 <= off <= Z.max 0 (mmap_length info) ->
  (Z.to_nat ((mmap_length info - off) / 4) < fuel)%nat ->
  exists es, mmap_walk fuel a b info off = Some es /\ Forall entry_ok es.
Proof.
  intros Hb [Hlen Hmap]. revert off. induction fuel as [|fuel IH]; intros off Hoff Hf; [lia|].
  assert (usize a (off + 4) = off + 4) as Hu.
  { destruct a; cbn [usize]; (rewrite u32_small || rewrite u64_small); unfold is_u32, is_u64; lia. }
  cbn [mmap_walk]. rewrite Hu.
  destruct (Z.leb_spec (off + 4) (mmap_length info)) as [Hle|]; [|by exists []].
  destruct (Hmap off ltac:(lia) Hle) as [S1 S2].
  set (e := b_entry b (u32 (mmap_addr info + off))) in *.
  assert (entry_ok e) by apply Hb.
  destruct (Z.eqb_spec (e_size e) 0) as [|Hne]; [exists [e]; split; [done | by constructor]|].
  assert (usize a (e_size e + 4) = e_size e + 4) as ->.
  { destruct a; cbn [usize]; (rewrite u32_small || rewrite u64_small); unfold is_u32, is_u64; lia. }
  rewrite u32_small by (unfold is_u32; lia).
  destruct (IH (off + (e_size e + 4))) as (es & -> & Hes); [lia | zlia |].
  exists (e :: es). split; [done | by constructor].
Qed.

(** The RAM the boot loader reports: the pages inside an available region of
    the memory map or, without a map, everything from 1 MiB to the limit. *)
Definition ram (a : arch) (b : boot) (q : Z) : bool :=
  match b_info b with
  | Some (_, info) =>
      if has_flag info MULTIBOOT_INFO_MMAP then
        match mmap_entries a b info with Some es => usable es q | None => false end
      else 256 <=? q
  | None => 256 <=? q
  end.

Definition boot_map_ok (b : boot) : Prop :=
  forall addr info, b_info b = Some (addr, info) ->
    has_flag info MULTIBOOT_INFO_MMAP = true -> map_ok b info.

(** The state [PmmInitialize] builds once the set of RAM pages is marked. *)
Lemma PmmInitialize_finish a b limit (P : Z -> bool) st0 st1 hint :
  a <> LA64 -> boot_ok b -> 0 <= limit <= PMM_MAX_PAGES ->
  marks P false (blank limit st0) st1 -> 1 <= hint <= PMM_MAX_PAGES ->
  let st' := set_hint (PmmReserveBootData a b (set_managed st1 (free_pages st1))) hint in
  inv st' /\
  (forall q, page_ok q -> PmmPageUsed st' q = false <->
     q < page_limit st' /\ P q = true /\ boot_page a b q = false).
Proof.
  intros Ha Hb Hl M Hh. cbv zeta.
  assert (inv0 (set_managed st1 (free_pages st1))) as Hi1 by apply M.
  destruct (PmmReserveBootData_marks a b _ Ha Hb Hi1) as [R1 R2 R3 R4 R5].
  set (st2 := PmmReserveBootData a b _) in *.
  split; [split; [exact R1 | exact Hh]|].
  intros q Hq. change (PmmPageUsed (set_hint st2 hint) q) with (PmmPageUsed st2 q).
  change (page_limit (set_hint st2 hint)) with (page_limit st2).
  rewrite R5 by done. rewrite R2.
  change (page_limit (set_managed st1 (free_pages st1))) with (page_limit st1).
  change (PmmPageUsed (set_managed st1 (free_pages st1)) q) with (PmmPageUsed st1 q).
  destruct M as [_ M2 _ _ M5]. rewrite M5, M2 by done. cbn [page_limit blank].
  rewrite blank_used by done.
  destruct (boot_page a b q), (P q), (Z.ltb_spec q limit); cbn [andb];
    split; intros; repeat split; done || lia || (destruct_and?; done || lia).
Qed.

Lemma not_la64 {A} a (x y : A) : a <> LA64 -> match a with LA64 => x | _ => y end = y.
Proof. by destruct a. Qed.

(** The page limit, from the highest address of memory. *)
Lemma page_limit_of hi : 0x100000 <= hi -> exists limit,
  (if PMM_MAX_PAGES <? u32 ((if 0x100000000 <? hi then 0x100000000 else hi) / PMM_PAGE_SIZE)
   then PMM_MAX_PAGES else u32 ((if 0x100000000 <? hi then 0x100000000 else hi) / PMM_PAGE_SIZE)) = limit /\
  0 <= limit <= PMM_MAX_PAGES /\ limit = (if 0x100000000 <? hi then 0x100000000 else hi) / 4096.
Proof.
  intros Hhi. eexists; split; [done|]. unfold PMM_MAX_PAGES, PMM_PAGE_SIZE. destruct (Z.ltb_spec 0x100000000 hi); [done|].
  rewrite u32_small by (unfold is_u32; zlia). destruct (Z.ltb_spec 1048576 (hi / 4096)); zlia.
Qed.

(** The first page the search looks at. *)
Lemma first_hint a b : boot_ok b -> 1 <= u32 (usize a (kernel_end b + PMM_PAGE_SIZE - 1) / PMM_PAGE_SIZE) <= PMM_MAX_PAGES.
Proof.
  intros (Hk & _). unfold PMM_PAGE_SIZE, PMM_MAX_PAGES.
  assert (usize a (kernel_end b + 4096 - 1) = kernel_end b + 4095) as ->
    by (destruct a; cbn [usize]; (rewrite u32_small || rewrite u64_small); unfold is_u32, is_u64; lia).
  rewrite u32_small; [zlia | unfold is_u32; zlia].
Qed.

(** Without a memory map all memory above 1 MiB is one range. *)
Lemma flat_marks hi limit st0 : 0x100000 <= hi <= 0x100000000 -> limit = hi / 4096 -> 0 <= limit <= PMM_MAX_PAGES ->
  marks (fun q => 256 <=? q) false (blank limit st0) (PmmMarkRange 0x100000 (hi - 0x100000) false (blank limit st0)).
Proof.
  intros Hhi -> Hl. eapply marks_ext.
  - apply (PmmMarkRange_marks _ _ false); [by apply blank_inv0 | split; [|split]; lia].
  - intros q Hq Hql. cbn [page_limit blank] in Hql. unfold inside. zbool; cbn; try done; zlia.
Qed.

Lemma raise_highest_ge es h : h <= fold_left raise_highest es h.
Proof.
  revert h. induction es as [|e es IH]; intros h; cbn [fold_left]; [lia|]. etrans; [|apply IH]. unfold raise_highest.
  destruct (available e); cbn [andb]; [|lia]. zbool; lia.
Qed.

Lemma PmmInitialize_total (a : arch) (b : boot) (st : pmm) :
  a <> LA64 -> boot_ok b -> boot_map_ok b ->
  exists st', PmmInitialize a b st = Some st' /\ inv st' /\
    (forall q, page_ok q -> PmmPageUsed st' q = false <->
       q < page_limit st' /\ ram a b q = true /\ boot_page a b q = false).
Proof.
  intros Ha Hb Hm. pose proof (first_hint a b Hb) as Hhint.
  unfold PmmInitialize, ram, mmap_entries in *. rewrite not_la64 by done.
  destruct (b_info b) as [[addr info]|] eqn:Ei.
  - destruct (has_flag info MULTIBOOT_INFO_MMAP) eqn:Ef.
    + pose proof (Hm addr info Ei Ef) as Hmap.
      destruct (mmap_walk_total (S (Z.to_nat (mmap_length info / 4))) a b info 0 Hb Hmap)
        as (es & Hes & Hok); [lia | rewrite Z.sub_0_r; lia |].
      rewrite Hes.
      pose proof (raise_highest_ge es (16 * 1024 * 1024)) as Hhi.
      destruct (page_limit_of (fold_left raise_highest es (16 * 1024 * 1024)) ltac:(lia))
        as (limit & -> & Hl & _).
      eexists. split; [reflexivity|].
      eapply (PmmInitialize_finish a b limit); try done.
      apply mark_entries_marks; [by apply blank_inv0 | done].
    + set (hi := if has_flag info MULTIBOOT_INFO_MEMORY then _ else _).
      assert (0x100000 <= hi) as Hhi.
      { subst hi. destruct Hb as (_ & Hinfo & _).
        destruct (Hinfo _ _ Ei) as (_ & [? ?] & _). case_match; lia. }
      destruct (page_limit_of hi Hhi) as (limit & -> & Hl & He).
      eexists. split; [reflexivity|].
      eapply (PmmInitialize_finish a b limit); try done. apply flat_marks; try done. case_match; zbool; lia.
  - destruct (page_limit_of (16 * 1024 * 1024) ltac:(lia)) as (limit & -> & Hl & He).
    eexists. split; [reflexivity|].
    eapply (PmmInitialize_finish a b limit); try done. apply flat_marks; try done.
Qed.

(** [PmmInitialize] terminates on every well-formed boot record and leaves
    an allocator satisfying its invariant in which a page is free exactly when
    it lies below the limit, is RAM according to the boot loader, and holds no
    part of the kernel image, the boot information, the memory map, the module
    table or a module. *)
Theorem PmmInitialize_correct (a : arch) (b : boot) (st : pmm) :
  a <> LA64 -> boot_ok b -> boot_map_ok b ->
  exists st', PmmInitialize a b st = Some st' /\ inv st' /\
    (forall q, page_ok q -> PmmPageUsed st' q = false <->
       q < page_limit st' /\ ram a b q = true /\ boot_page a b q = false).
Proof. apply PmmInitialize_total. Qed.

(** ** Reachable allocator states *)

Inductive pmm_step : pmm -> pmm -> Prop :=
| step_alloc st count : is_u32 count -> pmm_step st (snd (PmmAllocatePages count st))
| step_free st address count :
    is_u32 count -> 0 <= address < 17592186044416 ->
    pmm_step st (PmmFreePages address count st).

Inductive reachable : pmm -> Prop :=
| reach_init a b st st' :
    a <> LA64 -> boot_ok b -> boot_map_ok b -> PmmInitialize a b st = Some st' -> reachable st'
| reach_step st st' : reachable st -> pmm_step st st' -> reachable st'.

Lemma alloc_preserves_inv st count :
  inv st -> is_u32 count -> inv (snd (PmmAllocatePages count st)).
Proof.
  intros Hi Hc.
  destruct (PmmAllocatePages_outcome st count Hi Hc) as [(_ & -> & _)|(s & _ & _ & T)];
    [done | apply T].
Qed.

Lemma free_preserves_inv st address count :
  inv st -> is_u32 count -> 0 <= address < 17592186044416 ->
  inv (PmmFreePages address count st).
Proof.
  intros Hi Hc Ha.
  destruct (negb (Z.land address (PMM_PAGE_SIZE - 1) =? 0) ||
            (u32 (address / PMM_PAGE_SIZE) =? 0)) eqn:E.
  - unfold PmmFreePages. cbv zeta. by rewrite E.
  - apply orb_false_iff in E as [E1 E2]. unfold PMM_PAGE_SIZE in *.
    apply negb_false_iff, Z.eqb_eq in E1. apply Z.eqb_neq in E2.
    change (4096 - 1) with (Z.ones 12) in E1. rewrite Z.land_ones in E1 by lia.
    change (2 ^ 12) with 4096 in E1.
    rewrite u32_small in E2 by (unfold is_u32; zlia).
    apply (PmmFreePages_marks st address count (address / 4096)); try done;
      unfold PMM_PAGE_SIZE; zlia.
Qed.

(** Every state reachable from boot by any sequence of allocations and
    releases satisfies the invariant: the bitmap keeps its size, no page past
    the limit is ever free, the hint stays inside the bitmap, and the
    [free_pages] counter always equals the number of clear bits. *)
Theorem pmm_reachable_inv (st : pmm) : reachable st -> inv st.
Proof.
  induction 1 as [a b st st' Ha Hb Hm H | st st' _ IH Hstep].
  - unfold inv. revert H. destruct (PmmInitialize_total a b st Ha Hb Hm) as (st1 & -> & Hi & _).
    intros [= <-]. exact Hi.
  - destruct Hstep; [by apply alloc_preserves_inv | by apply free_preserves_inv].
Qed.

(** C1. Page allocation is sound and, per search window, complete: on every
    state satisfying the invariant, [PmmAllocatePages count] either fails
    without changing anything, and then the request was empty, larger than the
    free count, or no run of [count] free pages lies inside [hint, limit) nor
    inside [1, hint); or it returns the address of a run of [count] pages that
    were all free, marks exactly those used, lowers [free_pages] by [count] and
    re-establishes the invariant. *)
Theorem PmmAllocatePages_correct (st : pmm) (count : Z) :
  inv st -> is_u32 count ->
  let '(addr, st') := PmmAllocatePages count st in alloc_outcome count st addr st'.
Proof.
  intros Hi Hc. pose proof (PmmAllocatePages_outcome st count Hi Hc) as H.
  by destruct (PmmAllocatePages count st).
Qed.

(** Releasing an allocation undoes it: after [PmmFreePages] of the address
    and count of a successful [PmmAllocatePages], exactly the pages that were
    free before are free again and the free count is restored. *)
Theorem alloc_free_roundtrip (st st' : pmm) (count addr : Z) :
  inv st -> is_u32 count -> PmmAllocatePages count st = (addr, st') -> addr <> 0 ->
  let st'' := PmmFreePages addr count st' in
  inv st'' /\ free_pages st'' = free_pages st /\
  (forall q, page_ok q -> PmmPageUsed st'' q = PmmPageUsed st q).
Proof.
  intros Hi Hc Ha Hne. pose proof (PmmAllocatePages_outcome st count Hi Hc) as Ho.
  rewrite Ha in Ho. cbn [fst snd] in Ho.
  destruct Ho as [(? & _) | (s & -> & Hpos & (T1 & T2 & T3 & T4 & T5 & T6 & T7 & T8 & T9))]; [done|].
  pose proof Hi as [((_ & Hlim) & _ & Hcnt) _]. unfold PMM_MAX_PAGES in *.
  destruct (PmmFreePages_marks st' (s * PMM_PAGE_SIZE) count s T4 Hc eq_refl ltac:(lia))
    as (F1 & F2 & _ & _ & F5).
  assert (Hu : forall q, page_ok q ->
    PmmPageUsed (PmmFreePages (s * PMM_PAGE_SIZE) count st') q = PmmPageUsed st q).
  { intros q Hq. rewrite F5, T9, T5 by done.
    destruct (in_range s count q) eqn:E; cbn [andb]; [|done].
    unfold in_range in E. rewrite (proj2 (Z.ltb_lt q _)) by (zbool; done || lia).
    symmetry. apply T3. zbool; done || lia. }
  cbv zeta. split; [done|]. split; [|done].
  destruct F1 as [(_ & _ & ->) _]. rewrite Hcnt. unfold count_free. rewrite F2, T5.
  apply count_false_ext. intros. apply Hu. unfold page_ok, PMM_MAX_PAGES. lia.
Qed.

(** *** A machine with 1.25 MiB of RAM and the kernel below 1 MiB *)
Definition small_boot : boot := {|
  b_info := Some (0x9000, {| flags := 1; mem_upper := 256; mods_count := 0; mods_addr := 0;
                             mmap_length := 0; mmap_addr := 0 |});
  b_entry := fun _ => {| e_size := 0; e_base := 0; e_length := 0; e_type := 0 |};
  b_module := fun _ => {| m_start := 0; m_end := 0 |};
  kernel_end := 0x100000
|}.

Definition pmm_zero : pmm := mkPmm (replicate (Z.to_nat PMM_BITMAP_BYTES) 0) 0 0 0 0.

Definition small_pmm : pmm := default pmm_zero (PmmInitialize X86 small_boot pmm_zero).

Lemma small_boot_ok : boot_ok small_boot /\ boot_map_ok small_boot.
Proof.
  split.
  - split; [cbn; lia|]. split; [|split].
    + intros addr info [= <- <-]. unfold info_ok, is_u32; cbn. lia.
    + intros; cbn; unfold is_u32; lia.
    + intros; unfold entry_ok, range_ok; cbn; lia.
  - by intros addr info [= <- <-].
Qed.

Lemma small_pmm_init : PmmInitialize X86 small_boot pmm_zero = Some small_pmm.
Proof.
  destruct (PmmInitialize_total X86 small_boot pmm_zero) as (st' & E & _);
    [done | apply small_boot_ok .. |].
  unfold small_pmm. by rewrite E.
Qed.

Lemma small_pmm_inv : inv small_pmm.
Proof.
  destruct (PmmInitialize_total X86 small_boot pmm_zero) as (st' & E & Hi & _);
    [done | apply small_boot_ok .. |].
  unfold small_pmm. rewrite E. exact Hi.
Qed.

Lemma small_pmm_reachable : reachable small_pmm.
Proof.
  eapply reach_init; [| apply small_boot_ok | apply small_boot_ok | apply small_pmm_init]. done.
Qed.

(** Releasing one page, and allocating: the steps of a schedule. *)
Definition sched_alloc (n : Z) (st : pmm) : pmm := snd (PmmAllocatePages n st).
Definition sched_free (page n : Z) (st : pmm) : pmm := PmmFreePages (page * PMM_PAGE_SIZE) n st.

Lemma sched_alloc_reachable n st : reachable st -> is_u32 n -> reachable (sched_alloc n st).
Proof. intros. eapply reach_step; [done | by apply step_alloc]. Qed.

Lemma sched_free_reachable page n st :
  reachable st -> is_u32 n -> is_u32 page -> reachable (sched_free page n st).
Proof.
  intros ? ? [? ?]. eapply reach_step; [done | apply step_free; [done|]]. unfold PMM_PAGE_SIZE. lia.
Qed.

Definition straddle : pmm :=
  sched_free 258 1 (sched_alloc 2 (sched_free 270 2 (sched_free 257 1 (sched_alloc 64 small_pmm)))).

(** The two search windows are disjoint, so a run that straddles the hint
    is invisible: there is a state reachable from boot by allocations and
    releases in which two adjacent pages are free and the free count is 2, yet
    a request for two pages fails. *)
Theorem alloc_misses_straddling_run :
  exists st, reachable st /\ free_pages st = 2 /\
    (exists r, 1 <= r /\ r + 2 <= page_limit st /\ free_run st r 2) /\
    PmmAllocatePages 2 st = (0, st).
Proof.
  exists straddle. split.
  { unfold straddle.
    apply sched_free_reachable; [apply sched_alloc_reachable;
      [apply sched_free_reachable; [apply sched_free_reachable; [apply sched_alloc_reachable;
        [exact small_pmm_reachable|]|..]|..]|]|..]; unfold is_u32; lia. }
  split; [vm_compute; reflexivity|]. split.
  - exists 257. split; [lia|]. split; [apply Z.leb_le; vm_compute; reflexivity|].
    intros i Hi. assert (i = 257 \/ i = 258) as [-> | ->] by lia; vm_compute; reflexivity.
  - assert (fst (PmmAllocatePages 2 straddle) = 0) as H by (vm_compute; reflexivity).
    assert (inv straddle) as Hi.
    { unfold straddle, sched_alloc, sched_free.
      apply free_preserves_inv; [apply alloc_preserves_inv; [apply free_preserves_inv;
        [apply free_preserves_inv; [apply alloc_preserves_inv; [exact small_pmm_inv|]|..]|..]|]|..];
        unfold is_u32, PMM_PAGE_SIZE; lia. }
    destruct (PmmAllocatePages_outcome straddle 2 Hi ltac:(unfold is_u32; lia))
      as [(_ & Hs & _) | (s & Hs & _ & T)].
    + rewrite (surjective_pairing (PmmAllocatePages 2 straddle)), H, Hs. reflexivity.
    + rewrite H in Hs. destruct T as (? & _). unfold PMM_PAGE_SIZE in Hs. lia.
Qed.

Lemma PmmAllocatePages_correct_witness :
  exists st', PmmAllocatePages 3 small_pmm = (256 * 4096, st') /\ taken 256 3 small_pmm st'.
Proof.
  assert (fst (PmmAllocatePages 3 small_pmm) = 256 * 4096) as Hf by (vm_compute; reflexivity).
  pose proof (PmmAllocatePages_correct small_pmm 3 small_pmm_inv ltac:(unfold is_u32; lia)) as H.
  destruct (PmmAllocatePages 3 small_pmm) as [addr st']. cbn [fst] in Hf. subst addr.
  exists st'. split; [reflexivity|].
  destruct H as [(? & _) | (s & Hs & _ & T)]; [lia|].
  unfold PMM_PAGE_SIZE in Hs. assert (s = 256) as -> by lia. exact T.
Defined.

Lemma PmmInitialize_correct_witness :
  exists st', PmmInitialize X86 small_boot pmm_zero = Some st' /\
    PmmPageUsed st' 300 = false /\ PmmPageUsed st' 8 = true.
Proof.
  destruct (PmmInitialize_correct X86 small_boot pmm_zero ltac:(done)
    (proj1 small_boot_ok) (proj2 small_boot_ok)) as (st' & E & _ & H).
  exists st'. split; [exact E|].
  assert (page_limit st' = 320) as Hl.
  { rewrite small_pmm_init in E. injection E as <-. vm_compute. reflexivity. }
  split.
  - apply H; [unfold page_ok, PMM_MAX_PAGES; lia|]. rewrite Hl. repeat split; try reflexivity.
  - destruct (PmmPageUsed st' 8) eqn:E8; [reflexivity|].
    apply H in E8 as (_ & E8 & _); [discriminate E8 | unfold page_ok, PMM_MAX_PAGES; lia].
Defined.

Lemma pmm_reachable_inv_witness : inv (sched_free 256 1 (sched_alloc 4 small_pmm)).
Proof.
  apply pmm_reachable_inv. apply sched_free_reachable; [|unfold is_u32; lia..].
  apply sched_alloc_reachable; [exact small_pmm_reachable | unfold is_u32; lia].
Defined.

Lemma alloc_free_roundtrip_witness :
  free_pages (PmmFreePages (256 * 4096) 3 (snd (PmmAllocatePages 3 small_pmm))) = 64.
Proof.
  destruct (alloc_free_roundtrip small_pmm (snd (PmmAllocatePages 3 small_pmm)) 3 (256 * 4096))
    as (_ & H & _).
  - exact small_pmm_inv.
  - unfold is_u32; lia.
  - apply injective_projections; [vm_compute; reflexivity | reflexivity].
  - lia.
  - rewrite H. vm_compute. reflexivity.
Defined.

End Pmm.
