(* ===== verification/Vmm.v ===== *)
(** * kernel/mm/vmm.c: virtual pages over the physical allocator

    The kernel address space is identity mapped, so a virtual allocation is a
    physical one.  [PageAllocator] is what this layer promises the heap. *)

From stdpp Require Import base list numbers.
From Stdlib Require Import ZArith Lia.
From S2P Require Import Prelude.
From S2P Require Import Pmm.
Import Pmm.

(** The contract between the page layer and the heap: a page set with an
    allocation that either leaves everything alone and returns 0 or hands over
    a run of free pages. *)
Class PageAllocator (P : Type) := {
  pa_alloc : Z -> P -> Z * P;
  pa_ok : P -> Prop;
  pa_used : P -> Z -> bool;
  pa_free : P -> Z;
  pa_free_nonneg : forall p, pa_ok p -> 0 <= pa_free p;
  pa_alloc_spec : forall p n, pa_ok p -> is_u32 n ->
    let '(addr, p') := pa_alloc n p in
    (addr = 0 /\ p' = p) \/
    (exists s, addr = s * PMM_PAGE_SIZE /\ 1 <= s /\ 0 < n /\ s + n <= PMM_MAX_PAGES /\
       pa_ok p' /\ pa_free p' = pa_free p - n /\
       (forall q, s <= q < s + n -> pa_used p q = false) /\
       (forall q, page_ok q -> pa_used p' q = if in_range s n q then true else pa_used p q))
}.

Module Vmm.

Definition VmmAllocatePages (count : Z) (st : pmm) : Z * pmm :=
  let '(physical, st) := PmmAllocatePages count st in
  ((if negb (physical =? 0) then physical else 0), st).

Definition VmmFreePages (address count : Z) (st : pmm) : pmm := PmmFreePages address count st.

Definition VmmGetPhysicalAddress (address : Z) : Z := address.

Lemma VmmAllocatePages_eq count st : VmmAllocatePages count st = PmmAllocatePages count st.
Proof.
  unfold VmmAllocatePages. destruct (PmmAllocatePages count st) as [a st'].
  by destruct (Z.eqb_spec a 0) as [->|].
Qed.

(** The physical allocator keeps the contract. *)
#[export] Instance pmm_pages : PageAllocator pmm.
Proof.
  refine {| pa_alloc := VmmAllocatePages; pa_ok := inv; pa_used := PmmPageUsed;
            pa_free := free_pages |}.
  - intros p [(_ & _ & ->) _]. apply count_false_bounds.
  - intros p n Hp Hn. rewrite VmmAllocatePages_eq.
    pose proof (PmmAllocatePages_outcome p n Hp Hn) as H.
    destruct (PmmAllocatePages n p) as [addr p']. cbn [fst snd] in H.
    destruct H as [(-> & -> & _) | (s & -> & Hpos & T)]; [by left|]. right.
    destruct T as (T1 & T2 & T3 & T4 & T5 & T6 & T7 & T8 & T9).
    pose proof Hp as [((_ & Hl) & _) _]. exists s.
    split; [done|]. split; [done|]. split; [done|]. split; [lia|].
    split; [done|]. split; [done|]. split; [exact T3 | exact T9].
Defined.

End Vmm.
