(* ===== verification/Paging.v ===== *)
(** * kernel/mm/vmm.c: mapping device memory

    [VmmMapMmioRange] edits the page tables of the processor.  Memory is a
    function from addresses to the 64-bit words there; the tables lie below 4 GiB,
    where the boot code maps every address to itself.  [translate] is how the processor
    translates an address (four levels, with 2 MiB and 1 GiB pages); the theorem
    relates what the function writes to what [translate] then does. *)

From stdpp Require Import base list numbers sets.
From Stdlib Require Import ZArith Lia.
From S2P Require Import Prelude.
From S2P Require Import Pmm.
From S2P Require Import Vmm.
Import Pmm Vmm.

Module Paging.

Record mmu := mkMmu { words : Z -> Z; pages : pmm; cr3 : Z }.

Definition set_word (w : Z -> Z) (a v : Z) : Z -> Z := fun x => if x =? a then v else w x.

Definition FRAME_MASK : Z := 4503599627366400.
Definition TABLE_MASK : Z := 18446744073709547520.
Definition LARGE_MASK : Z := 18446744073707454464.

Definition clear_table (page : Z) (w : Z -> Z) : Z -> Z := for_range 0 512 (fun i w => set_word w (page + 8 * i) 0) w.

(** The table an entry leads to, allocated if the entry is not present; [None]
    without memory. *)
Definition next_table (table index : Z) (m : mmu) : option Z * mmu :=
  let e := words m (table + 8 * index) in
  if negb (Z.land e 1 =? 0) then (Some (Z.land e FRAME_MASK), m) else
  let '(page, p) := PmmAllocatePage (pages m) in
  if page =? 0 then (None, mkMmu (words m) p (cr3 m)) else
  (Some page, mkMmu (set_word (clear_table page (words m)) (table + 8 * index) (Z.lor page 3)) p (cr3 m)).

Definition pml4_index (a : Z) : Z := Z.land (Z.shiftr a 39) 511.
Definition pdpt_index (a : Z) : Z := Z.land (Z.shiftr a 30) 511.
Definition pd_index (a : Z) : Z := Z.land (Z.shiftr a 21) 511.

(** One turn of the loop, for the 2 MiB at [address]. *)
Definition map_large (address : Z) (m : mmu) : bool * mmu :=
  let '(pdpt, m) := next_table (Z.land (cr3 m) TABLE_MASK) (pml4_index address) m in
  match pdpt with
  | None => (false, m)
  | Some pdpt =>
      let '(pd, m) := next_table pdpt (pdpt_index address) m in
      match pd with
      | None => (false, m)
      | Some pd => (true, mkMmu (set_word (words m) (pd + 8 * pd_index address) (Z.lor address 131)) (pages m) (cr3 m))
      end
  end.

Fixpoint map_loop (n : nat) (address end_ : Z) (m : mmu) : bool * mmu :=
  match n with
  | O => (true, m)
  | S n =>
      if address <? end_ then
        let '(ok, m) := map_large address m in
        if ok then map_loop n (address + 2097152) end_ m else (false, m)
      else (true, m)
  end.

(** The loop runs once for every 2 MiB between the rounded ends. *)
Definition VmmMapMmioRange (a : arch) (physical_address length : Z) (m : mmu) : Z * mmu :=
  match a with
  | AMD64 =>
      let start := Z.land physical_address LARGE_MASK in
      let end_ := Z.land (u64 (physical_address + length + 2097151)) LARGE_MASK in
      let '(ok, m) := map_loop (Z.to_nat ((end_ - start) / 2097152)) start end_ m in
      (if ok then physical_address else 0, m)
  | X86 | LA64 => (if 4294967296 <? u64 (physical_address + length) then 0 else usize a physical_address, m)
  end.

(** ** The processor *)
Definition present (e : Z) : bool := negb (Z.land e 1 =? 0).
Definition large (e : Z) : bool := negb (Z.land e 128 =? 0).
Definition pt_index (a : Z) : Z := Z.land (Z.shiftr a 12) 511.

(** A table is named by the indices that lead to it, the last one first. *)
Fixpoint table_at (w : Z -> Z) (root : Z) (p : list Z) : option Z :=
  match p with
  | [] => Some root
  | i :: p =>
      match table_at w root p with
      | Some b => let e := w (b + 8 * i) in if present e && negb (large e) then Some (Z.land e FRAME_MASK) else None
      | None => None
      end
  end.
Definition pte_at (w : Z -> Z) (root : Z) (p : list Z) (i : Z) : option Z :=
  match table_at w root p with Some b => Some (w (b + 8 * i)) | None => None end.

(** The physical address of [va]; an absent entry faults. *)
Definition translate (w : Z -> Z) (root va : Z) : option Z :=
  let i4 := pml4_index va in
  let i3 := pdpt_index va in
  let i2 := pd_index va in
  match pte_at w root [i4] i3 with
  | None => None
  | Some e3 =>
      if negb (present e3) then None else
      if large e3 then Some (Z.land e3 4503598553628672 + va mod 1073741824) else
      match pte_at w root [i3; i4] i2 with
      | None => None
      | Some e2 =>
          if negb (present e2) then None else
          if large e2 then Some (Z.land e2 4503599625273344 + va mod 2097152) else
          match pte_at w root [i2; i3; i4] (pt_index va) with
          | None => None
          | Some e1 => if present e1 then Some (Z.land e1 FRAME_MASK + va mod 4096) else None
          end
      end
  end.

(** ** Well-formed tables *)
Definition index (i : Z) : Prop := 0 <= i < 512.
Definition path (p : list Z) : Prop := Forall index p /\ (length p <= 3)%nat.

Definition root (m : mmu) : Z := Z.land (cr3 m) TABLE_MASK.

(** Each table has a page of its own, which the page allocator holds; the large bit is
    reserved in the first level. *)
Record tables (m : mmu) : Prop := {
  ta_pages : inv (pages m);
  ta_page : forall p b, path p -> table_at (words m) (root m) p = Some b -> exists k, b = 4096 * k /\ page_ok k /\ PmmPageUsed (pages m) k = true;
  ta_apart : forall p q b, path p -> path q -> table_at (words m) (root m) p = Some b -> table_at (words m) (root m) q = Some b -> p = q;
  ta_root : forall i, index i -> present (words m (root m + 8 * i)) = true -> large (words m (root m + 8 * i)) = false
}.

Lemma path_nil : path [].
Proof. split; [constructor | cbn; lia]. Qed.

(** ** Writing *)
Lemma clear_other page w x : (forall i, index i -> x <> page + 8 * i) -> clear_table page w x = w x.
Proof.
  intros Hx. unfold clear_table, for_range. assert (Hs : forall i, i ∈ seqZ 0 512 -> index i) by (intros i Hi; apply elem_of_seqZ in Hi; unfold index; lia).
  generalize dependent (seqZ 0 512). intros l Hl. revert w. induction l as [|i l IH]; intros w; [done|]. cbn [fold_left]. rewrite IH by set_solver.
  unfold set_word. rewrite (proj2 (Z.eqb_neq _ _)); [done|]. apply Hx, Hl. set_solver.
Qed.

Lemma clear_inside page w i : index i -> clear_table page w (page + 8 * i) = 0.
Proof.
  intros Hi. unfold clear_table, for_range. assert (Hin : i ∈ seqZ 0 512) by (apply elem_of_seqZ; unfold index in Hi; lia).
  generalize dependent (seqZ 0 512). intros l Hl.
  assert (G : forall w, (w (page + 8 * i) = 0 \/ i ∈ l) -> fold_left (fun w j => set_word w (page + 8 * j) 0) l w (page + 8 * i) = 0); [|by apply G; right].
  clear Hl. induction l as [|j l IH]; intros w' Hw; [destruct Hw as [|Hw]; [done|by apply not_elem_of_nil in Hw]|]. cbn [fold_left]. apply IH.
  unfold set_word. destruct (Z.eqb_spec (page + 8 * i) (page + 8 * j)) as [|Hne]; [by left|]. destruct Hw as [|[->|]%elem_of_cons]; [by left|done|by right].
Qed.

(** Two places in two tables are different addresses. *)
Lemma places_apart k i k' i' : index i -> index i' -> 4096 * k + 8 * i = 4096 * k' + 8 * i' -> k = k' /\ i = i'.
Proof. unfold index. lia. Qed.

Section frame.
Context (m : mmu) (Hm : tables m).
Abbreviation w := (words m).
Abbreviation r := (root m).

Lemma path_tail i p : path (i :: p) -> index i /\ path p.
Proof. intros [Hf Hl]. apply Forall_cons in Hf as [? ?]. cbn in Hl. split; [done|]. split; [done|lia]. Qed.

(** Writing one entry of a table changes only what is below it. *)
Context (p0 : list Z) (b0 i0 v : Z) (Hp0 : path p0) (Hb0 : table_at w r p0 = Some b0) (Hi0 : index i0).

Lemma entry_kept p b i : path p -> index i -> table_at w r p = Some b -> (p, i) <> (p0, i0) -> set_word w (b0 + 8 * i0) v (b + 8 * i) = w (b + 8 * i).
Proof.
  intros Hp Hi Hb Hne. unfold set_word. destruct (Z.eqb_spec (b + 8 * i) (b0 + 8 * i0)) as [E|]; [|done].
  destruct (ta_page m Hm p b Hp Hb) as (k & -> & _). destruct (ta_page m Hm p0 b0 Hp0 Hb0) as (k0 & Ek & _). rewrite Ek in *.
  apply places_apart in E as [-> ->]; [|done..]. destruct Hne. f_equal. by apply (ta_apart m Hm p p0 (4096 * k0)).
Qed.

Lemma table_kept p : path p -> ~ (i0 :: p0) `suffix_of` p -> table_at (set_word w (b0 + 8 * i0) v) r p = table_at w r p.
Proof.
  induction p as [|i p IH]; intros Hp Hs; [done|]. apply path_tail in Hp as [Hi Hp]. cbn [table_at]. rewrite IH; [|done | intros Hs'; apply Hs; by apply suffix_cons_r].
  destruct (table_at w r p) as [b|] eqn:Hb; [|done]. rewrite entry_kept with (p := p); try done. intros [= -> ->]. by apply Hs.
Qed.

Lemma pte_at_kept p i : path p -> index i -> ~ (i0 :: p0) `suffix_of` p -> (p, i) <> (p0, i0) ->
  pte_at (set_word w (b0 + 8 * i0) v) r p i = pte_at w r p i.
Proof.
  intros Hp Hi Hs Hne. unfold pte_at. rewrite table_kept by done. destruct (table_at w r p) as [b|] eqn:Hb; [|done]. by rewrite entry_kept with (p := p).
Qed.

Lemma pte_at_written : pte_at (set_word w (b0 + 8 * i0) v) r p0 i0 = Some v.
Proof.
  unfold pte_at. rewrite table_kept; [|done | intros Hs; apply suffix_length in Hs; cbn in Hs; lia]. rewrite Hb0. unfold set_word. by rewrite Z.eqb_refl.
Qed.

(** Clearing a page that is no table changes nothing. *)
Lemma table_cleared k p : page_ok k -> PmmPageUsed (pages m) k = false -> path p -> table_at (clear_table (4096 * k) w) r p = table_at w r p.
Proof.
  intros Hk Hu. induction p as [|i p IH]; intros Hp; [done|]. apply path_tail in Hp as [Hi Hp]. cbn [table_at]. rewrite IH by done.
  destruct (table_at w r p) as [b|] eqn:Hb; [|done]. destruct (ta_page m Hm p b Hp Hb) as (k' & -> & Hk' & Hu').
  rewrite clear_other; [done|]. intros j Hj E. apply places_apart in E as [-> _]; [|done..]. congruence.
Qed.

Lemma word_cleared k p b i : page_ok k -> PmmPageUsed (pages m) k = false -> path p -> table_at w r p = Some b -> index i -> clear_table (4096 * k) w (b + 8 * i) = w (b + 8 * i).
Proof.
  intros Hk Hu Hp Hb Hi. destruct (ta_page m Hm p b Hp Hb) as (k' & -> & Hk' & Hu'). rewrite clear_other; [done|].
  intros j Hj E. apply places_apart in E as [-> _]; [|done..]. congruence.
Qed.

End frame.

(** ** Entries *)
Lemma present_mod e : present e = negb (e mod 2 =? 0).
Proof. unfold present. by rewrite land_1. Qed.
Lemma large_bit e : large e = (e / 128 mod 2 =? 1).
Proof. transitivity (Z.testbit e 7); [exact (land_pow2_testbit e 7 ltac:(lia)) | exact (Z.testbit_eqb e 7 ltac:(lia))]. Qed.

Lemma link_entry k : page_ok k -> Z.lor (4096 * k) 3 = 4096 * k + 3.
Proof. intros Hk. rewrite (Z.mul_comm 4096 k). exact (lor_high_low k 3 12 ltac:(lia) ltac:(lia)). Qed.

Lemma frame_of x : 0 <= x < 4503599627370496 -> Z.land x FRAME_MASK = x / 4096 * 4096.
Proof. intros Hx. exact (land_align 52 12 x ltac:(lia) Hx). Qed.

Lemma link_ok k : page_ok k -> present (4096 * k + 3) = true /\ large (4096 * k + 3) = false /\ Z.land (4096 * k + 3) FRAME_MASK = 4096 * k.
Proof.
  unfold page_ok, PMM_MAX_PAGES. intros Hk. rewrite present_mod, large_bit, frame_of by lia.
  split; [destruct (Z.eqb_spec ((4096 * k + 3) mod 2) 0); [zlia|done]|]. split; [destruct (Z.eqb_spec ((4096 * k + 3) / 128 mod 2) 1); [zlia|done] | zlia].
Qed.

Lemma large_ok a : 0 <= a < 134217728 -> let e := Z.lor (2097152 * a) 131 in
  present e = true /\ large e = true /\ Z.land e 4503599625273344 = 2097152 * a.
Proof.
  intros Ha e. assert (E : e = 2097152 * a + 131) by (unfold e; rewrite (Z.mul_comm 2097152 a); exact (lor_high_low a 131 21 ltac:(lia) ltac:(lia))).
  rewrite E, present_mod, large_bit. split; [destruct (Z.eqb_spec ((2097152 * a + 131) mod 2) 0); [zlia|done]|].
  split; [destruct (Z.eqb_spec ((2097152 * a + 131) / 128 mod 2) 1); [done|zlia]|].
  transitivity ((2097152 * a + 131) / 2 ^ 21 * 2 ^ 21); [exact (land_align 52 21 (2097152 * a + 131) ltac:(lia) ltac:(lia)) | zlia].
Qed.

(** ** A page for a table *)
Lemma tables_cleared m k p :
  tables m -> page_ok k -> PmmPageUsed (pages m) k = false -> inv p -> (forall q, PmmPageUsed (pages m) q = true -> page_ok q -> PmmPageUsed p q = true) ->
  tables (mkMmu (clear_table (4096 * k) (words m)) p (cr3 m)).
Proof.
  intros Hm Hk Hu Hp Hmono. pose proof (fun q Hq => table_cleared m Hm k q Hk Hu Hq) as Ht.
  split; cbn [words pages root cr3]; [done | | |]; change (root (mkMmu _ p (cr3 m))) with (root m).
  - intros q b Hq. rewrite Ht by done. intros Hb. destruct (ta_page m Hm q b Hq Hb) as (j & -> & Hj & Hju). exists j. split; [done|]. split; [done|by apply Hmono].
  - intros q q' b Hq Hq'. rewrite !Ht by done. by apply (ta_apart m Hm).
  - intros i Hi. rewrite (word_cleared m Hm k [] (root m) i Hk Hu path_nil eq_refl Hi). by apply (ta_root m Hm).
Qed.

Section link.
Context (m : mmu) (Hm : tables m) (p0 : list Z) (b0 i0 k : Z).
Hypothesis (Hp : path (i0 :: p0)) (Hb0 : table_at (words m) (root m) p0 = Some b0).
Hypothesis (Hk : page_ok k) (Hused : PmmPageUsed (pages m) k = true) (Hfresh : forall p, path p -> table_at (words m) (root m) p <> Some (4096 * k)).
Hypothesis Hzero : forall i, index i -> words m (4096 * k + 8 * i) = 0.

Definition linked : mmu := mkMmu (set_word (words m) (b0 + 8 * i0) (4096 * k + 3)) (pages m) (cr3 m).

Lemma linked_zero i : index i -> words linked (4096 * k + 8 * i) = 0.
Proof.
  intros Hi. destruct (path_tail i0 p0 Hp) as [Hi0 Hp0]. cbn. unfold set_word. destruct (Z.eqb_spec (4096 * k + 8 * i) (b0 + 8 * i0)) as [E|]; [|by apply Hzero].
  destruct (ta_page m Hm p0 b0 Hp0 Hb0) as (k' & -> & _). apply places_apart in E as [<- _]; [|done..]. by apply Hfresh in Hb0.
Qed.

Lemma table_linked p : path p ->
  table_at (words linked) (root m) p =
    if decide (p = i0 :: p0) then Some (4096 * k) else if decide ((i0 :: p0) `suffix_of` p) then None else table_at (words m) (root m) p.
Proof.
  destruct (path_tail i0 p0 Hp) as [Hi0 Hp0]. destruct (link_ok k Hk) as (L1 & L2 & L3). intros Hpp. destruct (decide ((i0 :: p0) `suffix_of` p)) as [[l ->]|Hs].
  - induction l as [|x l IH]; cbn [app] in *.
    + rewrite decide_True by done. cbn [table_at]. cbn [words linked]. rewrite (table_kept m Hm p0 b0 i0 _ Hp0 Hb0 Hi0) by (done || intros Hs; apply suffix_length in Hs; cbn in Hs; lia).
      rewrite Hb0. unfold set_word. by rewrite Z.eqb_refl, L1, L2, L3.
    + rewrite decide_False by (intros E; apply (f_equal length) in E; rewrite !length_cons, length_app in E; cbn in E; lia).
      destruct (path_tail _ _ Hpp) as [Hx Hp']. cbn [table_at]. rewrite (IH Hp'). destruct (decide (l ++ i0 :: p0 = i0 :: p0)); [|done]. by rewrite linked_zero.
  - rewrite decide_False by (intros ->; by apply Hs). by apply (table_kept m Hm p0 b0 i0).
Qed.

Lemma tables_linked : tables linked.
Proof.
  destruct (path_tail i0 p0 Hp) as [Hi0 Hp0]. pose proof Hm as [H1 H2 H3 H4]. split; [done| | |]; change (root linked) with (root m).
  - intros p b Hpp. rewrite table_linked by done. destruct (decide (p = i0 :: p0)) as [->|]; [intros [= <-]; by exists k|]. destruct (decide _); [done|]. by apply H2.
  - intros p q b Hpp Hq. rewrite !table_linked by done. destruct (decide (p = i0 :: p0)) as [->|], (decide (q = i0 :: p0)) as [->|]; [done| | |].
    + intros [= <-]. destruct (decide _); [done|]. intros E. by apply Hfresh in E.
    + destruct (decide _); [done|]. intros E [= <-]. by apply Hfresh in E.
    + destruct (decide _); [done|]. destruct (decide _); [done|]. by apply H3.
  - intros i Hi. cbn [words linked]. unfold set_word. destruct (Z.eqb_spec (root m + 8 * i) (b0 + 8 * i0)); [intros _; by apply link_ok | by apply H4].
Qed.

End link.

(** ** Addresses *)
Definition canonical (va : Z) : Prop := 0 <= va < 281474976710656.

Lemma pml4_index_div va : 0 <= va -> pml4_index va = va / 549755813888 mod 512.
Proof. intros Hv. unfold pml4_index. rewrite Z.shiftr_div_pow2 by lia. exact (Z.land_ones _ 9 ltac:(lia)). Qed.
Lemma pdpt_index_div va : 0 <= va -> pdpt_index va = va / 1073741824 mod 512.
Proof. intros Hv. unfold pdpt_index. rewrite Z.shiftr_div_pow2 by lia. exact (Z.land_ones _ 9 ltac:(lia)). Qed.
Lemma pd_index_div va : 0 <= va -> pd_index va = va / 2097152 mod 512.
Proof. intros Hv. unfold pd_index. rewrite Z.shiftr_div_pow2 by lia. exact (Z.land_ones _ 9 ltac:(lia)). Qed.
Lemma pt_index_ok va : 0 <= va -> index (pt_index va).
Proof. intros Hv. unfold pt_index, index. rewrite Z.shiftr_div_pow2 by lia. rewrite (Z.land_ones _ 9 ltac:(lia) : Z.land _ 511 = _). apply Z.mod_pos_bound. lia. Qed.

Lemma indices_ok va : 0 <= va -> index (pml4_index va) /\ index (pdpt_index va) /\ index (pd_index va).
Proof. intros Hv. rewrite pml4_index_div, pdpt_index_div, pd_index_div by done. unfold index. split_and!; apply Z.mod_pos_bound; lia. Qed.

Lemma same_large va va' : canonical va -> canonical va' ->
  pml4_index va = pml4_index va' -> pdpt_index va = pdpt_index va' -> pd_index va = pd_index va' -> va / 2097152 = va' / 2097152.
Proof.
  unfold canonical. intros Hv Hv'. rewrite !pml4_index_div, !pdpt_index_div, !pd_index_div by lia.
  assert (G : forall x, 0 <= x < 281474976710656 -> x / 2097152 = x / 549755813888 mod 512 * 262144 + x / 1073741824 mod 512 * 512 + x / 2097152 mod 512) by (intros; Z.div_mod_to_equations; lia).
  intros E4 E3 E2. rewrite (G va Hv), (G va' Hv'), E4, E3, E2. done.
Qed.

Lemma paths_of va : 0 <= va -> path [pml4_index va] /\ path [pdpt_index va; pml4_index va] /\ path [pd_index va; pdpt_index va; pml4_index va].
Proof. intros Hv. destruct (indices_ok va Hv) as (? & ? & ?). split_and!; (split; [repeat (constructor; [done|]); constructor | cbn; lia]). Qed.

(** Addresses whose 1 GiB is one page. *)
Definition giga (w : Z -> Z) (root va : Z) : bool :=
  match pte_at w root [pml4_index va] (pdpt_index va) with Some e => present e && large e | None => false end.

Lemma suffix_nil_cons (x : Z) p (l : list Z) : (length l <= length p)%nat -> ~ (x :: p) `suffix_of` l.
Proof. intros Hl Hs. apply suffix_length in Hs. cbn in Hs. lia. Qed.

Section linked_walk.
Context (m : mmu) (Hm : tables m) (p0 : list Z) (b0 i0 k : Z).
Hypothesis (Hp : path (i0 :: p0)) (Hb0 : table_at (words m) (root m) p0 = Some b0).
Hypothesis (Hk : page_ok k) (Hused : PmmPageUsed (pages m) k = true) (Hfresh : forall p, path p -> table_at (words m) (root m) p <> Some (4096 * k)).
Hypothesis Hzero : forall i, index i -> words m (4096 * k + 8 * i) = 0.
Hypothesis Habsent : present (words m (b0 + 8 * i0)) = false.

Lemma entry_linked p i : path p -> index i ->
  pte_at (words (linked m b0 i0 k)) (root m) p i =
    if decide (p = i0 :: p0) then Some 0 else if decide ((i0 :: p0) `suffix_of` p) then None
    else if decide (p = p0 /\ i = i0) then Some (4096 * k + 3) else pte_at (words m) (root m) p i.
Proof.
  intros Hpp Hi. unfold pte_at. rewrite (table_linked m Hm p0 b0 i0 k) by done. destruct (decide (p = i0 :: p0)); [by rewrite (linked_zero m Hm p0 b0 i0 k)|].
  destruct (decide _); [done|]. destruct (path_tail _ _ Hp) as [Hi0 Hp0]. destruct (decide (p = p0 /\ i = i0)) as [[-> ->]|Hne].
  - rewrite Hb0. cbn. unfold set_word. by rewrite Z.eqb_refl.
  - destruct (table_at (words m) (root m) p) as [b|] eqn:Hb; [|done]. cbn [words linked]. rewrite (entry_kept m Hm p0 b0 i0) with (p := p); try done. intros [= -> ->]. by apply Hne.
Qed.

(** Below an absent entry there was nothing. *)
Lemma absent_below i : pte_at (words m) (root m) (i0 :: p0) i = None.
Proof. unfold pte_at. cbn [table_at]. by rewrite Hb0, Habsent. Qed.
Lemma absent_here : pte_at (words m) (root m) p0 i0 = Some (words m (b0 + 8 * i0)).
Proof. unfold pte_at. by rewrite Hb0. Qed.

Lemma linked_same va : 0 <= va -> p0 = [] \/ (exists x, p0 = [x]) ->
  translate (words (linked m b0 i0 k)) (root m) va = translate (words m) (root m) va /\ giga (words (linked m b0 i0 k)) (root m) va = giga (words m) (root m) va.
Proof.
  intros Hv Hp00. destruct (indices_ok va Hv) as (I4 & I3 & I2). destruct (paths_of va Hv) as (P4 & P3 & P2). destruct (link_ok k Hk) as (L1 & L2 & _).
  pose proof absent_below as HB. pose proof absent_here as HH. unfold translate, giga. rewrite !entry_linked by (done || by apply pt_index_ok).
  destruct Hp00 as [Ep|[x Ep]].
  - rewrite Ep in *. destruct (decide ([pml4_index va] = [i0])) as [E4|E4].
    + injection E4 as E4. rewrite E4, HB. done.
    + assert (N4 : ~ [i0] `suffix_of` [pml4_index va]) by (intros [l El]; destruct l as [|? [|]]; naive_solver).
      assert (N3 : ~ [i0] `suffix_of` [pdpt_index va; pml4_index va]) by (intros [l El]; destruct l as [|? [|? [|]]]; naive_solver).
      assert (N2 : ~ [i0] `suffix_of` [pd_index va; pdpt_index va; pml4_index va]) by (intros [l El]; destruct l as [|? [|? [|? [|]]]]; naive_solver).
      rewrite (decide_False (P := [i0] `suffix_of` [pml4_index va])) by done.
      repeat first [rewrite (decide_False (P := _ /\ _)) by naive_solver | rewrite (decide_False (P := [i0] `suffix_of` _)) by done | rewrite (decide_False (P := _ = [i0])) by naive_solver].
      done.
  - rewrite Ep in *. assert (N4 : ~ [i0; x] `suffix_of` [pml4_index va]) by (apply suffix_nil_cons; cbn; lia).
    rewrite (decide_False (P := [pml4_index va] = [i0; x])) by done. rewrite (decide_False (P := [i0; x] `suffix_of` [pml4_index va])) by done.
    destruct (decide ([pml4_index va] = [x] /\ pdpt_index va = i0)) as [[[= E4] E3]|E].
    + rewrite E4, E3, L1, L2, HH, Habsent. cbn [negb andb]. by rewrite decide_True.
    + assert (N3 : ~ [i0; x] `suffix_of` [pdpt_index va; pml4_index va]) by (intros [l El]; destruct l as [|? [|? [|]]]; naive_solver).
      assert (N2 : ~ [i0; x] `suffix_of` [pd_index va; pdpt_index va; pml4_index va]) by (intros [l El]; destruct l as [|? [|? [|? [|]]]]; naive_solver).
      repeat first [rewrite (decide_False (P := [_; _] = [i0; x])) by naive_solver | rewrite (decide_False (P := [i0; x] `suffix_of` _)) by done
        | rewrite (decide_False (P := _ = [x] /\ _)) by naive_solver | rewrite (decide_False (P := [_; _; _] = [i0; x])) by naive_solver].
      done.
Qed.

End linked_walk.

Lemma table_entry w r i p :
  table_at w r (i :: p) = match pte_at w r p i with Some e => if present e && negb (large e) then Some (Z.land e FRAME_MASK) else None | None => None end.
Proof. unfold pte_at. cbn [table_at]. by destruct (table_at w r p). Qed.

(** ** A large page *)
Section leaf.
Context (m : mmu) (Hm : tables m) (A pd : Z).
Hypothesis (HA : canonical A) (Hal : A mod 2097152 = 0).
Hypothesis Hpd : table_at (words m) (root m) [pdpt_index A; pml4_index A] = Some pd.

Definition leafed : mmu := mkMmu (set_word (words m) (pd + 8 * pd_index A) (Z.lor A 131)) (pages m) (cr3 m).

Lemma leaf_entry : present (Z.lor A 131) = true /\ large (Z.lor A 131) = true /\ Z.land (Z.lor A 131) 4503599625273344 = A.
Proof.
  pose proof (large_ok (A / 2097152)) as HL. replace (2097152 * (A / 2097152)) with A in HL by zlia. apply HL. unfold canonical in HA. zlia.
Qed.

Lemma table_leafed p : path p ->
  table_at (words leafed) (root m) p = if decide ([pd_index A; pdpt_index A; pml4_index A] `suffix_of` p) then None else table_at (words m) (root m) p.
Proof.
  unfold canonical in HA. destruct (indices_ok A ltac:(lia)) as (I4 & I3 & I2). destruct (paths_of A ltac:(lia)) as (P4 & P3 & P2). destruct leaf_entry as (_ & L2 & _).
  intros Hp. destruct (decide _) as [[l ->]|Hs]; [|by apply (table_kept m Hm [pdpt_index A; pml4_index A] pd (pd_index A))].
  assert (E0 : table_at (words leafed) (root m) [pd_index A; pdpt_index A; pml4_index A] = None).
  { rewrite table_entry. unfold leafed. cbn [words]. rewrite (pte_at_written m Hm _ pd (pd_index A) (Z.lor A 131) P3 Hpd I2), L2. by rewrite andb_false_r. }
  induction l as [|x l IH]; [exact E0|]. destruct (path_tail _ _ Hp) as [_ Hp']. cbn [app table_at]. by rewrite (IH Hp').
Qed.

Lemma tables_leafed : tables leafed.
Proof.
  unfold canonical in HA. destruct (indices_ok A ltac:(lia)) as (I4 & I3 & I2). destruct (paths_of A ltac:(lia)) as (P4 & P3 & P2). pose proof Hm as [H1 H2 H3 H4].
  split; [done| | |]; change (root leafed) with (root m).
  - intros p b Hp. rewrite table_leafed by done. destruct (decide _); [done|]. by apply H2.
  - intros p q b Hp Hq. rewrite !table_leafed by done. destruct (decide _); [done|]. destruct (decide _); [done|]. by apply H3.
  - intros i Hi. cbn [words leafed]. rewrite (entry_kept m Hm [pdpt_index A; pml4_index A] pd (pd_index A) _ P3 Hpd I2) with (p := []); [by apply H4 | apply path_nil | done..].
Qed.

(** The entry that leads to the directory. *)
Lemma directory_entry : exists e, pte_at (words m) (root m) [pml4_index A] (pdpt_index A) = Some e /\ present e = true /\ large e = false.
Proof.
  pose proof Hpd as E. rewrite table_entry in E. destruct (pte_at _ _ _ _) as [e|]; [|done]. exists e. split; [done|].
  destruct (present e), (large e); done.
Qed.

Lemma leafed_walk va : canonical va ->
  translate (words leafed) (root m) va = (if va / 2097152 =? A / 2097152 then Some va else translate (words m) (root m) va) /\
  giga (words leafed) (root m) va = giga (words m) (root m) va.
Proof.
  intros Hva. pose proof HA as HA'. unfold canonical in HA'. pose proof Hva as Hv. unfold canonical in Hv.
  destruct (indices_ok A ltac:(lia)) as (I4 & I3 & I2). destruct (paths_of A ltac:(lia)) as (P4 & P3 & P2). destruct (indices_ok va ltac:(lia)) as (V4 & V3 & V2).
  destruct (paths_of va ltac:(lia)) as (Q4 & Q3 & Q2). destruct leaf_entry as (L1 & L2 & L3). destruct directory_entry as (e & De & Dp & Dl).
  pose proof (fun p i Hp Hi Hs Hne => pte_at_kept m Hm _ pd (pd_index A) (Z.lor A 131) P3 Hpd I2 p i Hp Hi Hs Hne) as K. fold (words leafed) in K.
  assert (K4 : pte_at (words leafed) (root m) [pml4_index va] (pdpt_index va) = pte_at (words m) (root m) [pml4_index va] (pdpt_index va)).
  { apply K; [done|done| apply suffix_nil_cons; cbn; lia | done]. }
  split; [|unfold giga; by rewrite K4]. unfold translate. rewrite K4. destruct (Z.eqb_spec (va / 2097152) (A / 2097152)) as [E|E].
  - assert (E4 : pml4_index va = pml4_index A) by (rewrite !pml4_index_div by lia; zlia). assert (E3 : pdpt_index va = pdpt_index A) by (rewrite !pdpt_index_div by lia; zlia).
    assert (E2 : pd_index va = pd_index A) by (rewrite !pd_index_div by lia; by rewrite E).
    rewrite E4, E3, E2, De, Dp, Dl. cbn [negb]. unfold leafed at 1. cbn [words]. rewrite (pte_at_written m Hm _ pd (pd_index A) (Z.lor A 131) P3 Hpd I2), L1, L2, L3.
    cbn [negb]. f_equal. zlia.
  - assert (Hne : [pd_index va; pdpt_index va; pml4_index va] <> [pd_index A; pdpt_index A; pml4_index A]) by (intros [= E2 E3 E4]; by apply E, same_large).
    rewrite (K [pdpt_index va; pml4_index va]); [|done|done| apply suffix_nil_cons; cbn; lia | intros [= E3 E4 E2]; apply Hne; congruence].
    rewrite (K [pd_index va; pdpt_index va; pml4_index va]); [done|done|apply pt_index_ok; lia| | done].
    intros [l El]. destruct l as [|? [|? [|? [|]]]]; naive_solver.
Qed.

End leaf.

(** ** The loop *)
Lemma allocate_one p : inv p ->
  let '(page, p') := PmmAllocatePage p in
  (page = 0 /\ p' = p) \/
  exists k, page = 4096 * k /\ page <> 0 /\ page_ok k /\ inv p' /\ PmmPageUsed p k = false /\ PmmPageUsed p' k = true /\ forall q, PmmPageUsed p q = true -> page_ok q -> PmmPageUsed p' q = true.
Proof.
  intros Hp. unfold PmmAllocatePage. pose proof (pa_alloc_spec (P := pmm) p 1 Hp ltac:(unfold is_u32; lia)) as Ha. cbn [pa_alloc pmm_pages] in Ha. rewrite VmmAllocatePages_eq in Ha.
  destruct (PmmAllocatePages 1 p) as [page p']. destruct Ha as [[-> ->]|(s & -> & Hs & _ & Hb & Hp' & _ & Hfree & Hused)]; [by left|]. right. exists s.
  unfold page_ok, in_range, PMM_PAGE_SIZE, PMM_MAX_PAGES in *. cbn [pa_used pa_ok pmm_pages] in *. split; [lia|]. split; [lia|]. split; [lia|]. split; [exact Hp'|]. split; [apply Hfree; lia|]. split.
  - rewrite Hused by lia. by rewrite Z.leb_refl, (proj2 (Z.ltb_lt s (s + 1))) by lia.
  - intros q Hq Hok. rewrite Hused by lia. destruct (_ && _); [done|exact Hq].
Qed.

(** What a step leaves as it was. *)
Definition same_walks (m m' : mmu) : Prop := forall va, 0 <= va ->
  translate (words m') (root m) va = translate (words m) (root m) va /\ giga (words m') (root m) va = giga (words m) (root m) va.

Lemma entry_clear_same m k p i : tables m -> page_ok k -> PmmPageUsed (pages m) k = false -> path p -> index i ->
  pte_at (clear_table (4096 * k) (words m)) (root m) p i = pte_at (words m) (root m) p i.
Proof.
  intros Hm Hk Hu Hp Hi. unfold pte_at. rewrite (table_cleared m Hm k p Hk Hu Hp). destruct (table_at (words m) (root m) p) as [b|] eqn:Hb; [|done].
  by rewrite (word_cleared m Hm k p b i Hk Hu Hp Hb Hi).
Qed.

Lemma cleared_same m k va : tables m -> page_ok k -> PmmPageUsed (pages m) k = false -> 0 <= va ->
  translate (clear_table (4096 * k) (words m)) (root m) va = translate (words m) (root m) va /\ giga (clear_table (4096 * k) (words m)) (root m) va = giga (words m) (root m) va.
Proof.
  intros Hm Hk Hu Hv. destruct (indices_ok va Hv) as (I4 & I3 & I2). destruct (paths_of va Hv) as (P4 & P3 & P2). unfold translate, giga.
  rewrite (entry_clear_same m k _ _ Hm Hk Hu P4 I3), (entry_clear_same m k _ _ Hm Hk Hu P3 I2), (entry_clear_same m k _ _ Hm Hk Hu P2 (pt_index_ok va Hv)). split; reflexivity.
Qed.

Lemma next_table_ok m p b i :
  tables m -> path (i :: p) -> p = [] \/ (exists x, p = [x]) -> table_at (words m) (root m) p = Some b ->
  (present (words m (b + 8 * i)) = true -> large (words m (b + 8 * i)) = false) ->
  let '(res, m') := next_table b i m in
  tables m' /\ cr3 m' = cr3 m /\ same_walks m m' /\
  match res with Some b' => table_at (words m') (root m) (i :: p) = Some b' | None => (PmmAllocatePage (pages m')).1 = 0 end.
Proof.
  intros Hm Hp Hpp Hb He. destruct (path_tail _ _ Hp) as [Hi Hp']. unfold next_table. fold (present (words m (b + 8 * i))). destruct (present (words m (b + 8 * i))) eqn:Ee.
  { split; [done|]. split; [done|]. split; [done|]. cbn [table_at]. by rewrite Hb, Ee, (He eq_refl). }
  pose proof (allocate_one (pages m) (ta_pages m Hm)) as Ha. destruct (PmmAllocatePage (pages m)) as [page q] eqn:Ep.
  destruct Ha as [[-> ->]|(k & -> & Hne & Hk & Hq & Hu & Hu' & Hmono)].
  { cbn [Z.eqb]. split; [by destruct m|]. split; [done|]. split; [done|]. cbn. by rewrite Ep. }
  rewrite (proj2 (Z.eqb_neq _ _) Hne), link_entry by done. set (m1 := mkMmu (clear_table (4096 * k) (words m)) q (cr3 m)).
  assert (Hm1 : tables m1) by (by apply tables_cleared).
  assert (Ht : forall p, path p -> table_at (words m1) (root m1) p = table_at (words m) (root m) p) by (intros; by apply (table_cleared m Hm)).
  assert (Hb1 : table_at (words m1) (root m1) p = Some b) by (by rewrite Ht).
  assert (Hfr : forall p, path p -> table_at (words m1) (root m1) p <> Some (4096 * k)).
  { intros p' Hpath. rewrite Ht by done. intros E. destruct (ta_page m Hm p' _ Hpath E) as (k' & Ek & _ & Hk'). replace k' with k in * by lia. congruence. }
  assert (Hz : forall i, index i -> words m1 (4096 * k + 8 * i) = 0) by (intros; by apply clear_inside).
  assert (Hab : present (words m1 (b + 8 * i)) = false) by (cbn; by rewrite (word_cleared m Hm k p b i)).
  split; [exact (tables_linked m1 Hm1 p b i k Hp Hb1 Hk Hu' Hfr Hz)|]. split; [done|]. split.
  - intros va Hv. destruct (linked_same m1 Hm1 p b i k Hp Hb1 Hk Hfr Hz Hab va Hv Hpp) as [E1 E2]. change (root m1) with (root m) in E1, E2. unfold linked in E1, E2. cbn [words] in E1, E2 |- *. cbn [words m1] in E1, E2. rewrite E1, E2.
    by apply (cleared_same m k).
  - pose proof (table_linked m1 Hm1 p b i k Hp Hb1 Hk Hfr Hz (i :: p) Hp) as E. by rewrite decide_True in E.
Qed.

(** One turn: the 2 MiB at [A] are mapped to themselves, all else is as before. *)
Lemma map_large_ok m A : tables m -> canonical A -> A mod 2097152 = 0 -> giga (words m) (root m) A = false ->
  let '(ok, m') := map_large A m in
  tables m' /\ cr3 m' = cr3 m /\ (ok = false -> (PmmAllocatePage (pages m')).1 = 0) /\
  forall va, canonical va ->
    translate (words m') (root m) va = (if ok && (va / 2097152 =? A / 2097152) then Some va else translate (words m) (root m) va) /\
    giga (words m') (root m) va = giga (words m) (root m) va.
Proof.
  intros Hm HA Hal Hg. pose proof HA as Ha. unfold canonical in Ha. destruct (indices_ok A ltac:(lia)) as (I4 & I3 & I2). destruct (paths_of A ltac:(lia)) as (P4 & P3 & P2).
  unfold map_large. fold (root m). pose proof (next_table_ok m [] (root m) (pml4_index A) Hm P4 (or_introl eq_refl) eq_refl (ta_root m Hm _ I4)) as N1.
  destruct (next_table (root m) (pml4_index A) m) as [[pdpt|] m1]; destruct N1 as (T1 & C1 & S1 & R1).
  2:{ split; [done|]. split; [done|]. split; [done|]. intros va Hv. unfold canonical in Hv. apply S1. lia. }
  assert (Er1 : root m1 = root m) by (unfold root; by rewrite C1). rewrite <- Er1 in R1.
  assert (Hg1 : present (words m1 (pdpt + 8 * pdpt_index A)) = true -> large (words m1 (pdpt + 8 * pdpt_index A)) = false).
  { intros Hpr. destruct (S1 A ltac:(lia)) as [_ G]. rewrite Hg in G. unfold giga, pte_at in G. rewrite <- Er1, R1, Hpr in G. exact G. }
  pose proof (next_table_ok m1 [pml4_index A] pdpt (pdpt_index A) T1 P3 (or_intror (ex_intro _ _ eq_refl)) R1 Hg1) as N2.
  destruct (next_table pdpt (pdpt_index A) m1) as [[pd|] m2]; destruct N2 as (T2 & C2 & S2 & R2).
  2:{ split; [done|]. split; [congruence|]. split; [done|]. intros va Hv. unfold canonical in Hv. destruct (S1 va ltac:(lia)) as [W1 G1]. destruct (S2 va ltac:(lia)) as [W2 G2]. rewrite Er1 in W2, G2. cbn [andb]. by rewrite W2, G2. }
  assert (Er2 : root m2 = root m1) by (unfold root; by rewrite C2). rewrite <- Er2 in R2. split; [exact (tables_leafed m2 T2 A pd HA Hal R2)|]. split; [cbn; congruence|]. split; [done|].
  intros va Hv. pose proof Hv as Hv'. unfold canonical in Hv'. destruct (leafed_walk m2 T2 A pd HA Hal R2 va Hv) as [W3 G3]. destruct (S1 va ltac:(lia)) as [W1 G1]. destruct (S2 va ltac:(lia)) as [W2 G2].
  rewrite Er2, Er1 in W3, G3. rewrite Er1 in W2, G2. cbn [words andb]. rewrite W2, W1 in W3. rewrite G2, G1 in G3. done.
Qed.

Lemma map_loop_ok n A E m :
  tables m -> 0 <= A -> A mod 2097152 = 0 -> A + 2097152 * Z.of_nat n = E -> E <= 281474976710656 ->
  (forall va, A <= va < E -> giga (words m) (root m) va = false) ->
  let '(ok, m') := map_loop n A E m in
  tables m' /\ cr3 m' = cr3 m /\ (ok = false -> (PmmAllocatePage (pages m')).1 = 0) /\
  exists last, A <= last <= E /\ (ok = true -> last = E) /\
  forall va, canonical va -> translate (words m') (root m) va = if (A <=? va) && (va <? last) then Some va else translate (words m) (root m) va.
Proof.
  revert A m. induction n as [|n IH]; intros A m Hm HA Hal HE Hmax Hg; cbn [map_loop].
  { split; [done|]. split; [done|]. split; [done|]. exists A. split; [lia|]. split; [lia|]. intros va _. destruct (Z.leb_spec A va), (Z.ltb_spec va A); done || lia. }
  rewrite (proj2 (Z.ltb_lt A E)) by lia. pose proof (map_large_ok m A Hm ltac:(unfold canonical; lia) Hal (Hg A ltac:(lia))) as H1.
  destruct (map_large A m) as [[|] m1]; destruct H1 as (T1 & C1 & F1 & W1).
  - assert (Er : root m1 = root m) by (unfold root; by rewrite C1).
    assert (Hg1 : forall va, A + 2097152 <= va < E -> giga (words m1) (root m1) va = false).
    { intros va Hva. rewrite Er. rewrite (proj2 (W1 va ltac:(unfold canonical; lia))). apply Hg. lia. }
    specialize (IH (A + 2097152) m1 T1 ltac:(lia) ltac:(zlia) ltac:(lia) Hmax Hg1). destruct (map_loop n (A + 2097152) E m1) as [ok m2]. destruct IH as (T2 & C2 & F2 & last & Hl & Hle & W2).
    split; [done|]. split; [congruence|]. split; [done|]. exists last. split; [lia|]. split; [done|]. intros va Hva. rewrite <- Er, W2 by done. rewrite Er, (proj1 (W1 va Hva)). cbn [andb].
    destruct (Z.leb_spec (A + 2097152) va), (Z.ltb_spec va last), (Z.leb_spec A va), (Z.eqb_spec (va / 2097152) (A / 2097152)); cbn [andb]; try done; zlia.
  - split; [done|]. split; [done|]. split; [done|]. exists A. split; [lia|]. split; [done|]. intros va Hva. rewrite (proj1 (W1 va Hva)). cbn [andb].
    destruct (Z.leb_spec A va), (Z.ltb_spec va A); done || lia.
Qed.

Lemma large_floor x : is_u64 x -> Z.land x LARGE_MASK = x / 2097152 * 2097152.
Proof. intros Hx. exact (land_align 64 21 x ltac:(lia) Hx). Qed.

(** C31. On AMD64, with tables that do not overlap and no 1 GiB page in the way, mapping
    a device range makes the processor translate every address of the 2 MiB
    blocks that cover it to itself; every other address is translated as before,
    and the tables stay well formed.  The result is the range, or 0 when there was
    no page for a table, and then the blocks that were not reached are as before. *)
Theorem VmmMapMmioRange_correct (m : mmu) (physical length : Z) :
  tables m -> 0 < physical -> is_u32 length -> physical + length + 2097151 <= 281474976710656 ->
  let start := physical / 2097152 * 2097152 in
  let end_ := (physical + length + 2097151) / 2097152 * 2097152 in
  (forall va, start <= va < end_ -> giga (words m) (root m) va = false) ->
  let '(result, m') := VmmMapMmioRange AMD64 physical length m in
  tables m' /\ cr3 m' = cr3 m /\ (result = physical \/ result = 0 /\ (PmmAllocatePage (pages m')).1 = 0) /\
  exists last, start <= last <= end_ /\ (result = physical -> last = end_) /\
  forall va, canonical va -> translate (words m') (root m) va = if (start <=? va) && (va <? last) then Some va else translate (words m) (root m) va.
Proof.
  intros Hm Hp Hl Hmax start end_ Hg. unfold is_u32 in Hl. unfold VmmMapMmioRange. cbv zeta. rewrite u64_small, !large_floor by (unfold is_u64; lia). fold start end_.
  assert (Hn : start + 2097152 * Z.of_nat (Z.to_nat ((end_ - start) / 2097152)) = end_) by (unfold start, end_; zlia).
  pose proof (map_loop_ok (Z.to_nat ((end_ - start) / 2097152)) start end_ m Hm ltac:(unfold start; zlia) ltac:(unfold start; zlia) Hn ltac:(unfold end_; zlia) Hg) as Hloop.
  destruct (map_loop _ start end_ m) as [ok m']. destruct Hloop as (T & C & F & last & Hlast & Hok & W). split; [done|]. split; [done|].
  destruct ok.
  - split; [by left|]. exists last. split; [done|]. split; [intros _; by apply Hok | done].
  - split; [right; split; [done | by apply F]|]. exists last. split; [done|]. split; [lia | done].
Qed.

(** An empty first level in page 8, and the registers of a disk controller. *)
Definition empty_mmu : mmu := mkMmu (fun _ => 0) small_pmm 32768.

Lemma empty_tables : tables empty_mmu.
Proof.
  assert (Hn : forall p b, table_at (words empty_mmu) (root empty_mmu) p = Some b -> p = [] /\ b = 32768).
  { intros [|i p] b E; [by injection E as <-|]. cbn [table_at] in E. by destruct (table_at _ _ p). }
  split.
  - exact small_pmm_inv.
  - intros p b _ [_ ->]%Hn. exists 8. split; [done|]. split; [done|]. vm_compute. reflexivity.
  - intros p q b _ _ [-> _]%Hn [-> _]%Hn. done.
  - done.
Qed.

Lemma VmmMapMmioRange_correct_witness :
  exists m', VmmMapMmioRange AMD64 4273930240 4352 empty_mmu = (4273930240, m') /\ translate (words m') (root empty_mmu) 4273930528 = Some 4273930528 /\ tables m'.
Proof.
  assert (Hr : (VmmMapMmioRange AMD64 4273930240 4352 empty_mmu).1 = 4273930240) by (vm_compute; reflexivity).
  pose proof (VmmMapMmioRange_correct empty_mmu 4273930240 4352 empty_tables ltac:(lia) ltac:(unfold is_u32; lia) ltac:(lia)) as H.
  destruct (VmmMapMmioRange AMD64 4273930240 4352 empty_mmu) as [result m']. cbn [fst] in Hr. subst result. exists m'. split; [reflexivity|].
  destruct H as (T & _ & _ & last & _ & Hl & W).
  - intros va _. reflexivity.
  - split; [|exact T]. rewrite W by (unfold canonical; lia). rewrite Hl by reflexivity. vm_compute. reflexivity.
Defined.

End Paging.
