(* ===== verification/Mm.v ===== *)
(** * kernel/mm/mm.c: the kernel heap

    A first-fit allocator over a singly linked list of block headers.  The
    headers are kept in a map from addresses to [HEAP_BLOCK]s, linked through
    their [next] pointers as in memory; the bytes handed out are a separate
    byte memory.  A dereference of an address that holds no header makes the
    whole operation [None]. *)

From stdpp Require Import base list numbers gmap.
From Stdlib Require Import ZArith Lia.
From S2P Require Import Prelude.
From S2P Require Import Util.
From S2P Require Import Pmm.
From S2P Require Import Vmm.
Import Pmm Vmm.

Module Mm.

Definition MM_ALIGN : Z := 8.
Definition MM_SPLIT_MIN : Z := 16.
Definition MM_HEAP_GROW_PAGES : Z := 16.

(** [free] is the C flag: true for a non-zero value. *)
Record HEAP_BLOCK := mkBlock { size : Z; free : bool; next : Z }.

(** Two [uint32_t] and a pointer. *)
Definition sizeof_HEAP_BLOCK (a : arch) : Z := match a with X86 => 12 | AMD64 | LA64 => 16 end.

Record heap (P : Type) := mkHeap {
  hdrs : gmap Z HEAP_BLOCK;
  heap_head : Z;
  heap_committed : Z;
  heap_initialized : bool;
  bytes : Util.mem;
  pages : P
}.
Arguments mkHeap {P}. Arguments hdrs {P}. Arguments heap_head {P}. Arguments heap_committed {P}.
Arguments heap_initialized {P}. Arguments bytes {P}. Arguments pages {P}.

Section Heap.
Context {P : Type} `{!PageAllocator P} (a : arch).

Definition set_hdrs (st : heap P) (m : gmap Z HEAP_BLOCK) : heap P :=
  mkHeap m (heap_head st) (heap_committed st) (heap_initialized st) (bytes st) (pages st).
Definition set_bytes (st : heap P) (m : Util.mem) : heap P :=
  mkHeap (hdrs st) (heap_head st) (heap_committed st) (heap_initialized st) m (pages st).

Definition MmAlignUp (n : Z) : Z := Z.land (u32 (n + MM_ALIGN - 1)) (u32 (Z.lnot (MM_ALIGN - 1))).

(** The part of [MmInitialize] after [PmmInitialize] and [VmmInitialize]. *)
Definition heap_start (data : Util.mem) (p : P) : heap P := mkHeap ∅ 0 0 true data p.

Definition MmGrowHeap (required : Z) (st : heap P) : Z * heap P :=
  let nbytes := u32 (usize a (required + sizeof_HEAP_BLOCK a)) in
  let npages := u32 (nbytes + PMM_PAGE_SIZE - 1) / PMM_PAGE_SIZE in
  let npages := if npages <? MM_HEAP_GROW_PAGES then MM_HEAP_GROW_PAGES else npages in
  let '(block, p') := pa_alloc npages (pages st) in
  if block =? 0
  then (0, mkHeap (hdrs st) (heap_head st) (heap_committed st) (heap_initialized st) (bytes st) p')
  else
    let b := mkBlock (u32 (usize a (u32 (npages * PMM_PAGE_SIZE) - sizeof_HEAP_BLOCK a)))
                     true (heap_head st) in
    (block, mkHeap (<[block := b]> (hdrs st)) block
              (u32 (heap_committed st + u32 (npages * PMM_PAGE_SIZE)))
              (heap_initialized st) (bytes st) p').

Definition MmSplitBlock (block n : Z) (st : heap P) : option (heap P) :=
  match hdrs st !! block with
  | None => None
  | Some b =>
      if size b <=? usize a (n + sizeof_HEAP_BLOCK a + MM_SPLIT_MIN) then Some st
      else
        let remainder := block + sizeof_HEAP_BLOCK a + n in
        let r := mkBlock (u32 (usize a (size b - n - sizeof_HEAP_BLOCK a))) true (next b) in
        Some (set_hdrs st (<[block := mkBlock n (free b) remainder]>
                             (<[remainder := r]> (hdrs st))))
  end.

Fixpoint coalesce_loop (fuel : nat) (block : Z) (m : gmap Z HEAP_BLOCK)
  : option (gmap Z HEAP_BLOCK) :=
  if block =? 0 then Some m else
  match fuel with
  | O => None
  | S fuel' =>
      match m !! block with
      | None => None
      | Some b =>
          if next b =? 0 then Some m else
          match m !! next b with
          | None => None
          | Some nb =>
              let block_end := block + sizeof_HEAP_BLOCK a + size b in
              if free b && free nb && (block_end =? next b)
              then coalesce_loop fuel' block
                     (<[block := mkBlock (u32 (usize a (size b + usize a (sizeof_HEAP_BLOCK a + size nb))))
                                         (free b) (next nb)]> m)
              else coalesce_loop fuel' (next b) m
          end
      end
  end.

(** One iteration per list element: either the list shrinks or the cursor
    advances, so the number of headers bounds the loop. *)
Definition MmCoalesce (st : heap P) : option (heap P) :=
  match coalesce_loop (S (base.size (hdrs st))) (heap_head st) (hdrs st) with
  | Some m => Some (set_hdrs st m)
  | None => None
  end.

(** [for (block = heap_head; block; block = block->next) if (test) ...]: the
    first block passing the test, or [Some 0] at the end of the list. *)
Fixpoint walk (fuel : nat) (m : gmap Z HEAP_BLOCK) (test : Z -> Z -> bool -> bool) (block : Z)
  : option Z :=
  if block =? 0 then Some 0 else
  match fuel with
  | O => None
  | S fuel' =>
      match m !! block with
      | None => None
      | Some b => if test block (size b) (free b) then Some block
                  else walk fuel' m test (next b)
      end
  end.

Definition find_block (test : Z -> Z -> bool -> bool) (st : heap P) : option Z :=
  walk (S (base.size (hdrs st))) (hdrs st) test (heap_head st).

Definition set_free (block : Z) (f : bool) (st : heap P) : option (heap P) :=
  match hdrs st !! block with
  | None => None
  | Some b => Some (set_hdrs st (<[block := mkBlock (size b) f (next b)]> (hdrs st)))
  end.

(** The [retry:] loop; every turn takes pages, so the free-page count bounds
    the number of turns. *)
Fixpoint kmalloc_retry (fuel : nat) (n : Z) (st : heap P) : option (Z * heap P) :=
  match find_block (fun _ sz fr => fr && (n <=? sz)) st with
  | None => None
  | Some block =>
      if negb (block =? 0) then
        match MmSplitBlock block n st with
        | None => None
        | Some st =>
            match set_free block false st with
            | None => None
            | Some st => Some (block + sizeof_HEAP_BLOCK a, st)
            end
        end
      else
        let '(grown, st) := MmGrowHeap n st in
        if grown =? 0 then Some (0, st)
        else match fuel with
             | O => None
             | S fuel' => kmalloc_retry fuel' n st
             end
  end.

Definition kmalloc (n : Z) (st : heap P) : option (Z * heap P) :=
  if (n =? 0) || negb (heap_initialized st) then Some (0, st)
  else kmalloc_retry (S (Z.to_nat (pa_free (pages st)))) (MmAlignUp n) st.

Definition kfree (pointer : Z) (st : heap P) : option (heap P) :=
  if (pointer =? 0) || negb (heap_initialized st) then Some st else
  match find_block (fun block _ _ => block + sizeof_HEAP_BLOCK a =? pointer) st with
  | None => None
  | Some block =>
      if block =? 0 then Some st
      else match set_free block true st with
           | None => None
           | Some st => MmCoalesce st
           end
  end.

Definition malloc (n : Z) (st : heap P) : option (Z * heap P) := kmalloc n st.

Definition calloc (count n : Z) (st : heap P) : option (Z * heap P) :=
  if negb (count =? 0) && (4294967295 / count <? n) then Some (0, st) else
  let nbytes := u32 (count * n) in
  match kmalloc nbytes st with
  | None => None
  | Some (pointer, st) =>
      Some (pointer, if negb (pointer =? 0)
                     then set_bytes st (Util.memset pointer 0 nbytes (bytes st)) else st)
  end.

Definition realloc (pointer n : Z) (st : heap P) : option (Z * heap P) :=
  if pointer =? 0 then kmalloc n st else
  if n =? 0 then match kfree pointer st with Some st => Some (0, st) | None => None end else
  match find_block (fun block _ _ => block + sizeof_HEAP_BLOCK a =? pointer) st with
  | None => None
  | Some block =>
      if block =? 0 then Some (0, st) else
      match hdrs st !! block with
      | None => None
      | Some b =>
          if free b then Some (0, st) else
          if n <=? size b then Some (pointer, st) else
          match kmalloc n st with
          | None => None
          | Some (replacement, st) =>
              if replacement =? 0 then Some (0, st) else
              match hdrs st !! block with
              | None => None
              | Some b =>
                  let copy_size := if size b <? n then size b else n in
                  let st := set_bytes st (Util.memcpy replacement pointer copy_size (bytes st)) in
                  match kfree pointer st with
                  | Some st => Some (replacement, st)
                  | None => None
                  end
              end
          end
      end
  end.

Definition heap_free (pointer : Z) (st : heap P) : option (heap P) := kfree pointer st.

Fixpoint used_loop (fuel : nat) (m : gmap Z HEAP_BLOCK) (block used : Z) : option Z :=
  if block =? 0 then Some used else
  match fuel with
  | O => None
  | S fuel' =>
      match m !! block with
      | None => None
      | Some b => used_loop fuel' m (next b) (if negb (free b) then u32 (used + size b) else used)
      end
  end.

Definition MmGetHeapUsed (st : heap P) : option Z :=
  used_loop (S (base.size (hdrs st))) (hdrs st) (heap_head st) 0.

Definition MmGetHeapTotal (st : heap P) : Z := heap_committed st.


(** ** The block list behind the pointers *)

Record blk := mkBlk { baddr : Z; bsize : Z; bfree : bool }.

(** [chain m p l]: following [next] from [p] in [m] visits the blocks [l]. *)
Fixpoint chain (m : gmap Z HEAP_BLOCK) (p : Z) (l : list blk) : Prop :=
  match l with
  | [] => p = 0
  | b :: l' => p = baddr b /\ p <> 0 /\
      exists nx, m !! p = Some (mkBlock (bsize b) (bfree b) nx) /\ chain m nx l'
  end.

Definition hd_addr (l : list blk) : Z := match l with [] => 0 | b :: _ => baddr b end.

Lemma chain_hd m p l : chain m p l -> p = hd_addr l.
Proof. destruct l; cbn; [done | by intros (-> & _)]. Qed.

(** A chain depends only on the headers of its blocks. *)
Lemma chain_agree m m' p l :
  chain m p l -> (forall b, b ∈ l -> m' !! baddr b = m !! baddr b) -> chain m' p l.
Proof.
  revert p. induction l as [|b l IH]; intros p; cbn; [done|].
  intros (-> & Hne & nx & Hm & Hc) Hag. split; [done|]. split; [done|].
  exists nx. split; [by rewrite Hag by set_solver | apply IH; set_solver].
Qed.

(** Replacing the tail of a chain, the pointer into it kept. *)
Lemma chain_replace m m' p l1 l2 l2' :
  chain m p (l1 ++ l2) -> (forall b, b ∈ l1 -> m' !! baddr b = m !! baddr b) ->
  hd_addr l2' = hd_addr l2 -> chain m' (hd_addr l2') l2' -> chain m' p (l1 ++ l2').
Proof.
  revert p. induction l1 as [|b l1 IH]; intros p; cbn [app].
  - intros H _ He Hc. rewrite (chain_hd _ _ _ H), <- He. done.
  - intros (-> & Hne & nx & Hm & Hc) Hag He Ht. cbn. split; [done|]. split; [done|].
    exists nx. split; [by rewrite Hag by set_solver | apply IH; set_solver].
Qed.

Lemma chain_split m p l1 l2 : chain m p (l1 ++ l2) -> chain m (hd_addr l2) l2.
Proof.
  revert p. induction l1 as [|b l1 IH]; intros p; cbn [app].
  - intros H. by rewrite <- (chain_hd _ _ _ H).
  - intros (_ & _ & nx & _ & Hc). eauto.
Qed.

Lemma chain_lookup m p l1 b l2 :
  chain m p (l1 ++ b :: l2) ->
  baddr b <> 0 /\ m !! baddr b = Some (mkBlock (bsize b) (bfree b) (hd_addr l2)).
Proof.
  intros H. apply chain_split in H. cbn in H. destruct H as (_ & Hne & nx & Hm & Hc).
  by rewrite (chain_hd _ _ _ Hc) in Hm.
Qed.

Lemma chain_length m p l : chain m p l -> NoDup (baddr <$> l) -> (length l <= base.size m)%nat.
Proof.
  intros Hc Hn.
  assert (list_to_set (C := gset Z) (baddr <$> l) ⊆ dom m) as Hsub.
  { intros x Hx. apply elem_of_list_to_set, list_elem_of_fmap in Hx as (b & -> & Hb).
    apply list_elem_of_split in Hb as (l1 & l2 & ->).
    apply elem_of_dom. apply chain_lookup in Hc as [_ ->]. by eexists. }
  apply subseteq_size in Hsub. rewrite size_list_to_set, length_fmap, size_dom in Hsub by done. lia.
Qed.

(** ** The walk over the list *)

Lemma walk_spec fuel m test p l :
  chain m p l -> (length l <= fuel)%nat ->
  (walk fuel m test p = Some 0 /\ Forall (fun b => test (baddr b) (bsize b) (bfree b) = false) l) \/
  (exists l1 b l2, l = l1 ++ b :: l2 /\ walk fuel m test p = Some (baddr b) /\ baddr b <> 0 /\
     test (baddr b) (bsize b) (bfree b) = true /\
     Forall (fun b => test (baddr b) (bsize b) (bfree b) = false) l1).
Proof.
  revert p fuel. induction l as [|b l IH]; intros p fuel Hc Hf.
  - cbn in Hc. subst p. left. by destruct fuel.
  - cbn in Hc. destruct Hc as (-> & Hne & nx & Hm & Hc). cbn in Hf.
    destruct fuel as [|fuel]; [lia|]. cbn [walk].
    rewrite (proj2 (Z.eqb_neq _ _) Hne), Hm. cbn [size free next].
    destruct (test (baddr b) (bsize b) (bfree b)) eqn:Et.
    + right. exists [], b, l. split; [done|]. repeat split; done.
    + destruct (IH nx fuel Hc ltac:(lia)) as [[H1 H2]|(l1 & b' & l2 & -> & H1 & H2 & H3 & H4)].
      * left. split; [done | by constructor].
      * right. exists (b :: l1), b', l2. repeat split; try done. by constructor.
Qed.

(** ** Layout of the blocks *)

Definition hdr : Z := sizeof_HEAP_BLOCK a.

Lemma hdr_range : 12 <= hdr <= 16.
Proof. unfold hdr. destruct a; cbn; lia. Qed.

Definition bend (b : blk) : Z := baddr b + hdr + bsize b.

Definition apart (b c : blk) : Prop := bend b <= baddr c \/ bend c <= baddr b.

Fixpoint separated (l : list blk) : Prop :=
  match l with [] => True | b :: l' => Forall (apart b) l' /\ separated l' end.

Definition in_bounds (b : blk) : Prop :=
  PMM_PAGE_SIZE <= baddr b /\ 0 <= bsize b /\ bend b <= 4294967296.

(** Every page a block occupies belongs to the heap. *)
Definition owned (p : P) (b : blk) : Prop :=
  forall q, page_ok q -> q * PMM_PAGE_SIZE < bend b -> baddr b < (q + 1) * PMM_PAGE_SIZE ->
            pa_used p q = true.

Definition total (l : list blk) : Z := fold_right (fun b t => hdr + bsize b + t) 0 l.

Record layout (p : P) (l : list blk) : Prop := {
  ly_sep : separated l;
  ly_bounds : Forall in_bounds l;
  ly_owned : Forall (owned p) l
}.

Record heap_rep (st : heap P) (l : list blk) : Prop := {
  hr_chain : chain (hdrs st) (heap_head st) l;
  hr_layout : layout (pages st) l;
  hr_total : heap_committed st = u32 (total l);
  hr_pages : pa_ok (pages st);
  hr_init : heap_initialized st = true
}.

Lemma separated_app l1 l2 :
  separated (l1 ++ l2) <->
  separated l1 /\ separated l2 /\ Forall (fun b => Forall (apart b) l2) l1.
Proof.
  induction l1 as [|b l1 IH]; cbn; [rewrite Forall_nil; tauto|].
  rewrite IH, Forall_app, Forall_cons. tauto.
Qed.

Lemma apart_sym b c : apart b c -> apart c b.
Proof. unfold apart. tauto. Qed.

Lemma separated_NoDup l : separated l -> Forall in_bounds l -> NoDup (baddr <$> l).
Proof.
  induction l as [|b l IH]; cbn; intros Hs Hb; [constructor|].
  destruct Hs as [H1 H2]. apply Forall_cons in Hb as [Hb Hbl].
  constructor; [|auto]. intros Hin. apply list_elem_of_fmap in Hin as (c & He & Hc).
  rewrite Forall_forall in H1, Hbl. specialize (H1 c Hc). specialize (Hbl c Hc).
  pose proof hdr_range. unfold apart, in_bounds, bend in *. lia.
Qed.

Lemma layout_NoDup p l : layout p l -> NoDup (baddr <$> l).
Proof. intros [H1 H2 _]. by apply separated_NoDup. Qed.

(** Replacing one block by blocks that fill exactly its place. *)
Definition fills (b : blk) (bs : list blk) : Prop :=
  separated bs /\ Forall (fun c => baddr b <= baddr c /\ bend c <= bend b /\ 0 <= bsize c) bs /\
  total bs = hdr + bsize b.

Lemma layout_refill p l1 b bs l2 :
  layout p (l1 ++ b :: l2) -> fills b bs -> layout p (l1 ++ bs ++ l2).
Proof.
  intros [Hs Hb Ho] (F1 & F2 & _). rewrite Forall_forall in F2.
  apply separated_app in Hs as (S1 & S2 & S3). cbn in S2. destruct S2 as [S2 S4].
  apply Forall_app in Hb as [B1 B2]. apply Forall_cons in B2 as [B2 B3].
  apply Forall_app in Ho as [O1 O2]. apply Forall_cons in O2 as [O2 O3].
  assert (forall c d, c ∈ bs -> apart b d -> in_bounds d -> apart c d) as Hap.
  { intros c d Hc Hbd Hd. specialize (F2 c Hc). unfold apart in *. lia. }
  split.
  - rewrite !separated_app. repeat split; try done.
    + apply Forall_forall. intros c Hc. apply Forall_forall. intros d Hd.
      rewrite Forall_forall in S2, B3. eauto.
    + apply Forall_forall. intros d Hd. rewrite Forall_forall in S3, B1.
      specialize (S3 d Hd). apply Forall_cons in S3 as [S3 S3'].
      apply Forall_app. split; [|done]. apply Forall_forall. intros c Hc.
      apply apart_sym. apply Hap; [done | by apply apart_sym | auto].
  - rewrite !Forall_app. repeat split; try done. apply Forall_forall. intros c Hc.
    specialize (F2 c Hc). unfold in_bounds in *. lia.
  - rewrite !Forall_app. repeat split; try done. apply Forall_forall. intros c Hc q Hq Hlt Hgt.
    specialize (F2 c Hc). apply O2; [done | lia | lia].
Qed.

Lemma total_app l1 l2 : total (l1 ++ l2) = total l1 + total l2.
Proof. unfold total. induction l1; cbn in *; lia. Qed.

Lemma total_refill l1 b bs l2 :
  fills b bs -> total (l1 ++ bs ++ l2) = total (l1 ++ b :: l2).
Proof. intros (_ & _ & F). rewrite !total_app, F. cbn. fold (total l2). lia. Qed.

(** ** Finding, splitting and growing *)

Lemma find_block_spec test st l :
  heap_rep st l ->
  (find_block test st = Some 0 /\
     Forall (fun b => test (baddr b) (bsize b) (bfree b) = false) l) \/
  (exists l1 b l2, l = l1 ++ b :: l2 /\ find_block test st = Some (baddr b) /\ baddr b <> 0 /\
     test (baddr b) (bsize b) (bfree b) = true /\
     Forall (fun b => test (baddr b) (bsize b) (bfree b) = false) l1).
Proof.
  intros H. apply walk_spec; [apply H|].
  pose proof (chain_length _ _ _ (hr_chain _ _ H) (layout_NoDup _ _ (hr_layout _ _ H))). lia.
Qed.

Definition split_blocks (b : blk) (n : Z) : list blk :=
  if bsize b <=? n + hdr + MM_SPLIT_MIN then [mkBlk (baddr b) (bsize b) false]
  else [mkBlk (baddr b) n false; mkBlk (baddr b + hdr + n) (bsize b - n - hdr) true].

Lemma split_blocks_fills b n :
  in_bounds b -> 0 <= n <= bsize b -> fills b (split_blocks b n).
Proof.
  pose proof hdr_range. unfold in_bounds, MM_SPLIT_MIN, fills, split_blocks.
  intros (? & ? & ?) Hn. unfold MM_SPLIT_MIN.
  destruct (Z.leb_spec (bsize b) (n + hdr + 16)); cbn;
    rewrite ?Forall_cons, ?Forall_nil; unfold apart, bend in *; cbn; repeat split; lia.
Qed.

(** Rewriting the header of one block of a chain, and linking a new block
    behind it. *)
Lemma NoDup_middle_ne l1 b l2 c :
  NoDup (baddr <$> l1 ++ b :: l2) -> c ∈ l1 \/ c ∈ l2 -> baddr b <> baddr c.
Proof.
  rewrite fmap_app, fmap_cons, NoDup_app, NoDup_cons. intros (_ & H1 & H2 & _) Hc He.
  destruct Hc as [Hc|Hc]; apply (list_elem_of_fmap_2 baddr) in Hc; rewrite <- He in Hc; [|done].
  apply (H1 _ Hc). by left.
Qed.

Lemma chain_set_here m p l1 b l2 sz f :
  chain m p (l1 ++ b :: l2) -> NoDup (baddr <$> l1 ++ b :: l2) ->
  chain (<[baddr b := mkBlock sz f (hd_addr l2)]> m) p (l1 ++ mkBlk (baddr b) sz f :: l2).
Proof.
  intros Hc Hnd. pose proof (chain_split _ _ _ _ Hc) as Hc2. cbn in Hc2.
  destruct Hc2 as (_ & Hne & nx & _ & Hc2). pose proof (chain_hd _ _ _ Hc2) as ->.
  eapply chain_replace; [exact Hc | | done |].
  - intros c Hin. rewrite lookup_insert_ne; [done|]. eapply NoDup_middle_ne; [done|]. by left.
  - cbn. split; [done|]. split; [done|]. exists (hd_addr l2). rewrite lookup_insert_eq.
    split; [done|]. eapply chain_agree; [exact Hc2|].
    intros c Hin. rewrite lookup_insert_ne; [done|]. eapply NoDup_middle_ne; [done|]. by right.
Qed.

Lemma chain_insert_after m p l1 b l2 n f r s :
  chain m p (l1 ++ b :: l2) -> r <> 0 ->
  NoDup (baddr <$> l1 ++ mkBlk (baddr b) n f :: mkBlk r s true :: l2) ->
  chain (<[baddr b := mkBlock n f r]> (<[r := mkBlock s true (hd_addr l2)]> m)) p
    (l1 ++ mkBlk (baddr b) n f :: mkBlk r s true :: l2).
Proof.
  intros Hc Hr Hnd. pose proof (chain_split _ _ _ _ Hc) as Hc2. cbn in Hc2.
  destruct Hc2 as (_ & Hne & nx & _ & Hc2). pose proof (chain_hd _ _ _ Hc2) as ->.
  pose proof (fun c H => NoDup_middle_ne _ _ _ c Hnd H) as Hb. cbn [baddr] in Hb.
  assert (Hnd2 := Hnd). change (?x :: ?y :: l2) with ([x] ++ y :: l2) in Hnd2.
  rewrite app_assoc in Hnd2.
  pose proof (fun c H => NoDup_middle_ne _ _ _ c Hnd2 H) as Hr'. cbn [baddr] in Hr'.
  assert (forall c, c ∈ l1 \/ c ∈ l2 ->
    <[baddr b := mkBlock n f r]> (<[r := mkBlock s true (hd_addr l2)]> m) !! baddr c = m !! baddr c)
    as Hag.
  { intros c Hin. rewrite !lookup_insert_ne; [done | |].
    - apply Hr'. rewrite elem_of_app. tauto.
    - apply Hb. rewrite elem_of_cons. tauto. }
  eapply chain_replace; [exact Hc | intros c Hin; apply Hag; by left | done |].
  cbn. split; [done|]. split; [done|]. exists r. rewrite lookup_insert_eq.
  split; [done|]. split; [done|]. split; [done|]. exists (hd_addr l2).
  assert (baddr b <> r) by (apply (Hb (mkBlk r s true)); right; apply elem_of_cons; by left).
  rewrite lookup_insert_ne, lookup_insert_eq by done.
  split; [done|]. eapply chain_agree; [exact Hc2|].
  intros c Hin. apply Hag. by right.
Qed.

Lemma layout_middle p l1 b l2 : layout p (l1 ++ b :: l2) -> in_bounds b.
Proof. intros [_ H _]. apply Forall_app in H as [_ H]. by apply Forall_cons in H as [? _]. Qed.

(** [MmSplitBlock] followed by [block->free = 0]. *)
Lemma take_block st l1 b l2 n :
  heap_rep st (l1 ++ b :: l2) -> 0 <= n <= bsize b ->
  exists st1 st', MmSplitBlock (baddr b) n st = Some st1 /\
    set_free (baddr b) false st1 = Some st' /\
    heap_rep st' (l1 ++ split_blocks b n ++ l2) /\
    bytes st' = bytes st /\ pages st' = pages st.
Proof.
  intros [Hc Hl Ht Hp Hi] Hn. pose proof (layout_middle _ _ _ _ Hl) as Hb.
  pose proof hdr_range as Hh. pose proof (layout_NoDup _ _ Hl) as Hnd.
  destruct (chain_lookup _ _ _ _ _ Hc) as [Hne Hm].
  pose proof (split_blocks_fills b n Hb Hn) as Hf.
  pose proof (layout_refill _ _ _ _ _ Hl Hf) as Hl'.
  pose proof (total_refill l1 b _ l2 Hf) as Ht'. rewrite <- Ht' in Ht.
  pose proof Hb as (Hb1 & Hb2 & Hb3). unfold bend, PMM_PAGE_SIZE in Hb1, Hb3.
  unfold MmSplitBlock, set_free. rewrite Hm. cbn [size free next].
  fold hdr. rewrite usize_small by (unfold is_u32, MM_SPLIT_MIN; lia).
  unfold split_blocks, MM_SPLIT_MIN in *.
  destruct (Z.leb_spec (bsize b) (n + hdr + 16)) as [Hle|Hgt].
  - eexists _, _. split; [done|]. rewrite Hm. cbn [size free next].
    split; [done|]. split; [|done]. split; try done. by apply chain_set_here.
  - rewrite (usize_small a (bsize b - n - hdr)), u32_small by (unfold is_u32; lia).
    eexists _, _. split; [done|]. cbn [set_hdrs hdrs]. rewrite lookup_insert_eq. cbn [size free next].
    split; [done|]. split; [|done]. split; try done. cbn [set_hdrs hdrs heap_head].
    rewrite insert_insert_eq. apply chain_insert_after; [done | lia |].
    exact (layout_NoDup _ _ Hl').
Qed.

(** [MmGrowHeap]: nothing, or one more free block at the head of the list,
    large enough whenever the byte count does not overflow. *)
Lemma MmGrowHeap_spec n st l :
  heap_rep st l -> is_u32 n ->
  let '(g, st') := MmGrowHeap n st in
  (g = 0 /\ st' = st) \/
  (g <> 0 /\ exists b, baddr b = g /\ bfree b = true /\ heap_rep st' (b :: l) /\
     bytes st' = bytes st /\ pa_free (pages st') < pa_free (pages st) /\
     (n + hdr + 4095 < 4294967296 -> n <= bsize b)).
Proof.
  intros [Hc [Ls Lb Lo] Ht Hp Hi] Hn. unfold MmGrowHeap, MM_HEAP_GROW_PAGES.
  pose proof hdr_range as Hh. fold hdr.
  set (np0 := u32 (u32 (usize a (n + hdr)) + PMM_PAGE_SIZE - 1) / PMM_PAGE_SIZE).
  set (np := if np0 <? 16 then 16 else np0).
  assert (0 <= np0 <= 1048576) as Hnp0.
  { subst np0. unfold PMM_PAGE_SIZE.
    pose proof (u32_range (u32 (usize a (n + hdr)) + 4096 - 1)) as [? ?]. zlia. }
  assert (16 <= np <= 1048576 /\ np0 <= np) as [Hnp Hnp1] by (subst np; destruct (Z.ltb_spec np0 16); lia).
  pose proof (pa_alloc_spec (pages st) np Hp ltac:(unfold is_u32; lia)) as Ha.
  destruct (pa_alloc np (pages st)) as [g p'].
  destruct Ha as [(-> & ->) | (s & -> & Hs1 & _ & Hs2 & Hok & Hfree & Hun & Hus)].
  { cbn. left. split; [done|]. by destruct st. }
  unfold PMM_MAX_PAGES, PMM_PAGE_SIZE in *.
  rewrite (proj2 (Z.eqb_neq (s * 4096) 0)) by lia. cbv beta iota zeta. right. split; [lia|].
  rewrite (u32_small (np * 4096)) by (unfold is_u32; lia).
  rewrite (usize_small a (np * 4096 - hdr)), (u32_small (np * 4096 - hdr)) by (unfold is_u32; lia).
  set (b := mkBlk (s * 4096) (np * 4096 - hdr) true).
  exists b. split; [done|]. split; [done|].
  assert (Hap : forall c, c ∈ l -> apart b c).
  { intros c Hin. rewrite Forall_forall in Lo, Lb. specialize (Lo c Hin).
    destruct (Lb c Hin) as (C1 & C2 & C3). unfold apart, bend, PMM_PAGE_SIZE in *. cbn [baddr bsize b].
    destruct (Z.le_gt_cases (s * 4096 + hdr + (np * 4096 - hdr)) (baddr c)); [by left|].
    destruct (Z.le_gt_cases (baddr c + hdr + bsize c) (s * 4096)); [by right|].
    exfalso. set (q := Z.max s (baddr c / 4096)).
    assert (s <= q < s + np) as Hq by (subst q; zlia).
    specialize (Lo q). rewrite (Hun q Hq) in Lo. unfold page_ok, PMM_MAX_PAGES, bend, PMM_PAGE_SIZE in Lo.
    discriminate Lo; subst q; zlia. }
  split; [|split; [done|]; split; [cbn; lia|]].
  - split; try done; cbn [heap_head hdrs heap_committed pages].
    + cbn. split; [done|]. split; [lia|]. eexists. rewrite lookup_insert_eq. split; [done|].
      eapply chain_agree; [exact Hc|]. intros c Hin. rewrite lookup_insert_ne; [done|].
      specialize (Hap c Hin). rewrite Forall_forall in Lb. specialize (Lb c Hin).
      unfold apart, in_bounds, bend in *. cbn in Hap. lia.
    + split.
      * cbn. split; [by apply Forall_forall | done].
      * apply Forall_cons. split; [|done]. unfold in_bounds, bend, PMM_PAGE_SIZE. cbn. lia.
      * apply Forall_cons. split.
        -- intros q Hq H1 H2. rewrite Hus by done. unfold in_range, bend, PMM_PAGE_SIZE in *. cbn in *.
           rewrite (proj2 (Z.leb_le s q)), (proj2 (Z.ltb_lt q (s + np))) by lia. done.
        -- eapply Forall_impl; [exact Lo|]. intros c Hoc q Hq H1 H2. rewrite Hus by done.
           destruct (in_range s np q); [done | by apply Hoc].
    + rewrite Ht. unfold u32. rewrite Z.add_mod_idemp_l by lia. f_equal. cbn. fold (total l). lia.
  - intros Hfit. cbn. unfold is_u32 in Hn.
    assert (np0 = (n + hdr + 4095) / 4096).
    { subst np0. rewrite usize_small, (u32_small (n + hdr)), u32_small by (unfold is_u32; lia).
      f_equal. lia. }
    zlia.
Qed.

(** ** The allocations a client sees

    [live] maps the pointer of every allocated block to its capacity. *)

Fixpoint collect (fuel : nat) (m : gmap Z HEAP_BLOCK) (p : Z) : list blk :=
  match fuel with
  | O => []
  | S fuel' =>
      match m !! p with
      | Some b => if p =? 0 then [] else mkBlk p (size b) (free b) :: collect fuel' m (next b)
      | None => []
      end
  end.

Definition blocks_of (st : heap P) : list blk :=
  collect (base.size (hdrs st)) (hdrs st) (heap_head st).

Definition live_of (l : list blk) : gmap Z Z :=
  list_to_map ((fun b => (baddr b + hdr, bsize b)) <$> filter (fun b => bfree b = false) l).

Definition live (st : heap P) : gmap Z Z := live_of (blocks_of st).

Definition heap_ok (st : heap P) : Prop := heap_rep st (blocks_of st).

Lemma collect_chain fuel m p l :
  chain m p l -> (length l <= fuel)%nat -> collect fuel m p = l.
Proof.
  revert p fuel. induction l as [|b l IH]; intros p fuel; cbn.
  - intros -> _. destruct fuel; cbn; [done|]. by destruct (m !! 0).
  - intros (-> & Hne & nx & Hm & Hc) Hf. destruct fuel as [|fuel]; [lia|]. cbn.
    rewrite Hm, (proj2 (Z.eqb_neq _ _) Hne). cbn. rewrite (IH nx fuel Hc) by lia.
    by destruct b.
Qed.

Lemma heap_rep_blocks st l : heap_rep st l -> blocks_of st = l.
Proof.
  intros H. apply collect_chain; [apply H|].
  apply (chain_length _ _ _ (hr_chain _ _ H) (layout_NoDup _ _ (hr_layout _ _ H))).
Qed.

Lemma heap_rep_ok st l : heap_rep st l -> heap_ok st.
Proof. intros H. unfold heap_ok. by rewrite (heap_rep_blocks _ _ H). Qed.

Lemma heap_rep_live st l : heap_rep st l -> live st = live_of l.
Proof. intros H. unfold live. by rewrite (heap_rep_blocks _ _ H). Qed.

Lemma live_of_lookup l p s :
  NoDup (baddr <$> l) ->
  live_of l !! p = Some s <-> exists b, b ∈ l /\ bfree b = false /\ baddr b + hdr = p /\ bsize b = s.
Proof.
  intros Hnd. unfold live_of. rewrite <- elem_of_list_to_map.
  - rewrite list_elem_of_fmap. setoid_rewrite list_elem_of_filter. naive_solver.
  - rewrite <- list_fmap_compose. induction l as [|b l IH]; [constructor|].
    rewrite fmap_cons, NoDup_cons in Hnd. destruct Hnd as [H1 H2]. rewrite filter_cons.
    case_decide; [|auto]. cbn. apply NoDup_cons. split; [|auto].
    intros (c & He & Hc)%list_elem_of_fmap. apply H1. apply list_elem_of_filter in Hc as [_ Hc].
    apply list_elem_of_fmap. exists c. cbn in He. split; [lia | done].
Qed.

Lemma live_of_app l1 l2 : live_of (l1 ++ l2) = live_of l1 ∪ live_of l2.
Proof. unfold live_of. by rewrite filter_app, fmap_app, list_to_map_app. Qed.

Lemma live_of_cons b l :
  live_of (b :: l) = if bfree b then live_of l else <[baddr b + hdr := bsize b]> (live_of l).
Proof.
  unfold live_of. rewrite filter_cons. destruct (bfree b); cbn; done.
Qed.

Lemma live_of_free l : Forall (fun b => bfree b = true) l -> live_of l = ∅.
Proof. induction 1 as [|b l Hb _ IH]; [done|]. by rewrite live_of_cons, Hb. Qed.

Lemma live_of_fresh l1 b l2 :
  NoDup (baddr <$> l1 ++ b :: l2) -> live_of l1 !! (baddr b + hdr) = None /\
                                     live_of l2 !! (baddr b + hdr) = None.
Proof.
  intros Hnd. rewrite !eq_None_not_Some.
  assert (NoDup (baddr <$> l1) /\ NoDup (baddr <$> l2)) as [N1 N2].
  { rewrite fmap_app, fmap_cons, NoDup_app, NoDup_cons in Hnd. tauto. }
  split; intros [s Hs]; apply live_of_lookup in Hs as (c & Hc & _ & He & _); try done;
    (apply (NoDup_middle_ne _ _ _ c Hnd); [tauto | lia]).
Qed.

Definition take_capacity (b : blk) (n : Z) : Z :=
  if bsize b <=? n + hdr + MM_SPLIT_MIN then bsize b else n.

Lemma live_of_take l1 b l2 n :
  bfree b = true -> NoDup (baddr <$> l1 ++ b :: l2) ->
  live_of (l1 ++ split_blocks b n ++ l2) =
  <[baddr b + hdr := take_capacity b n]> (live_of (l1 ++ b :: l2)).
Proof.
  intros Hf Hnd. destruct (live_of_fresh _ _ _ Hnd) as [F1 F2].
  rewrite (live_of_app l1 (b :: l2)), (live_of_app l1 (split_blocks b n ++ l2)), (live_of_cons b l2), Hf.
  unfold split_blocks, take_capacity.
  destruct (bsize b <=? n + hdr + MM_SPLIT_MIN); cbn [app];
    rewrite !live_of_cons; cbn [bfree baddr bsize]; by rewrite insert_union_r.
Qed.

Lemma live_of_release l1 b l2 :
  NoDup (baddr <$> l1 ++ b :: l2) ->
  live_of (l1 ++ mkBlk (baddr b) (bsize b) true :: l2) = delete (baddr b + hdr) (live_of (l1 ++ b :: l2)).
Proof.
  intros Hnd. destruct (live_of_fresh _ _ _ Hnd) as [F1 F2].
  rewrite !live_of_app, !live_of_cons. cbn [bfree]. rewrite delete_union.
  rewrite (delete_id (live_of l1)) by done.
  destruct (bfree b); [by rewrite delete_id | by rewrite delete_insert_id].
Qed.

(** ** kmalloc *)

Definition fits (n : Z) (b : blk) : bool := bfree b && (n <=? bsize b).

(** How a request ends: the list, extended by freshly grown free blocks [G],
    either holds no fitting block or has its first one taken. *)
Definition request (n p : Z) (st st' : heap P) (l : list blk) : Prop :=
  exists G, Forall (fun b => bfree b = true) G /\ bytes st' = bytes st /\
    ((p = 0 /\ heap_rep st' (G ++ l) /\ Forall (fun b => fits n b = false) (G ++ l) /\
        (n + hdr + 4095 < 4294967296 -> st' = st)) \/
     (exists l1 b l2, G ++ l = l1 ++ b :: l2 /\ p = baddr b + hdr /\ fits n b = true /\
        Forall (fun b => fits n b = false) l1 /\ in_bounds b /\
        heap_rep st' (l1 ++ split_blocks b n ++ l2) /\ NoDup (baddr <$> l1 ++ b :: l2))).

Lemma kmalloc_retry_spec fuel n st l :
  heap_rep st l -> is_u32 n -> (Z.to_nat (pa_free (pages st)) < fuel)%nat ->
  exists p st', kmalloc_retry fuel n st = Some (p, st') /\ request n p st st' l.
Proof.
  revert st l. induction fuel as [|fuel IH]; intros st l Hr Hn Hf; [lia|].
  cbn [kmalloc_retry].
  destruct (find_block_spec (fun _ sz fr => fr && (n <=? sz)) st l Hr)
    as [[-> Hnone] | (l1 & b & l2 & -> & -> & Hne & Hfit & Hl1)].
  - cbn [Z.eqb negb]. pose proof (MmGrowHeap_spec n st l Hr Hn) as Hg.
    destruct (MmGrowHeap n st) as [g st1].
    destruct Hg as [(-> & ->) | (Hg & b & Hb & Hbf & Hr1 & Hby & Hlt & Hbig)].
    + exists 0, st. split; [done|]. exists []. split; [done|]. split; [done|]. by left.
    + rewrite (proj2 (Z.eqb_neq g 0) Hg).
      pose proof (pa_free_nonneg _ (hr_pages _ _ Hr1)).
      destruct (IH st1 (b :: l) Hr1 Hn ltac:(lia)) as (p & st' & -> & G & HG & Hby' & Hcase).
      exists p, st'. split; [done|]. exists (G ++ [b]).
      replace ((G ++ [b]) ++ l) with (G ++ b :: l) by (by rewrite <- app_assoc).
      split; [apply Forall_app; split; [done | by constructor]|].
      split; [congruence|].
      destruct Hcase as [(-> & H1 & H2 & H3)|Hfound]; [left | by right].
      split; [done|]. split; [done|]. split; [done|]. intros Hsmall. exfalso.
      apply Forall_app in H2 as [_ H2]. apply Forall_cons in H2 as [H2 _].
      unfold fits in H2. rewrite Hbf in H2. cbn in H2.
      apply Z.leb_gt in H2. specialize (Hbig Hsmall). lia.
  - rewrite (proj2 (Z.eqb_neq _ _) Hne). cbn [negb].
    pose proof Hfit as [Hbf Hle]%andb_true_iff. apply Z.leb_le in Hle.
    destruct (take_block st l1 b l2 n Hr) as (st1 & st' & -> & -> & Hr' & Hby & _);
      [unfold is_u32 in Hn; lia|].
    exists (baddr b + sizeof_HEAP_BLOCK a), st'. split; [done|]. exists [].
    split; [done|]. split; [done|]. right. exists l1, b, l2.
    split; [done|]. split; [done|]. split; [done|]. split; [done|].
    split; [apply (layout_middle _ _ _ _ (hr_layout _ _ Hr))|].
    split; [done | apply (layout_NoDup _ _ (hr_layout _ _ Hr))].
Qed.

Lemma separated_apart l b c :
  separated l -> b ∈ l -> c ∈ l -> baddr b <> baddr c -> apart b c.
Proof.
  induction l as [|d l IH]; cbn; [by intros _ ?%not_elem_of_nil|].
  rewrite !elem_of_cons, Forall_forall. intros [H1 H2] [->|Hb] [->|Hc] Hne; try done.
  - by apply H1.
  - by apply apart_sym, H1.
  - by apply IH.
Qed.

Lemma live_apart st p1 s1 p2 s2 :
  heap_ok st -> live st !! p1 = Some s1 -> live st !! p2 = Some s2 -> p1 <> p2 ->
  p1 + s1 <= p2 - hdr \/ p2 + s2 <= p1 - hdr.
Proof.
  intros H. unfold live. pose proof (hr_layout _ _ H) as Hl.
  rewrite !live_of_lookup by apply (layout_NoDup _ _ Hl).
  intros (b & Hb & _ & <- & <-) (c & Hc & _ & <- & <-) Hne.
  destruct (separated_apart _ b c (ly_sep _ _ Hl) Hb Hc); [lia | ..]; unfold bend in *; lia.
Qed.

Lemma live_bounds st p s :
  heap_ok st -> live st !! p = Some s ->
  PMM_PAGE_SIZE + hdr <= p /\ 0 <= s /\ p + s <= 4294967296.
Proof.
  intros H. unfold live. pose proof (hr_layout _ _ H) as Hl.
  rewrite live_of_lookup by apply (layout_NoDup _ _ Hl).
  intros (b & Hb & _ & <- & <-). pose proof (ly_bounds _ _ Hl) as Hbs.
  rewrite Forall_forall in Hbs. specialize (Hbs b Hb). unfold in_bounds, bend in Hbs. lia.
Qed.

Lemma MmAlignUp_range n : is_u32 (MmAlignUp n).
Proof.
  unfold MmAlignUp, MM_ALIGN. rewrite land_mask8 by apply u32_range.
  pose proof (u32_range (n + 8 - 1)) as [? ?]. unfold is_u32. zlia.
Qed.

Lemma MmAlignUp_ge n : 0 <= n <= 4294967288 -> n <= MmAlignUp n < n + 8 /\ MmAlignUp n mod 8 = 0.
Proof.
  intros. unfold MmAlignUp, MM_ALIGN. rewrite land_mask8 by apply u32_range.
  rewrite u32_small by (unfold is_u32; lia). rewrite Z.mod_mul by lia. zlia.
Qed.

(** What a client gets from an allocation. *)
Definition malloc_post (n p : Z) (st st' : heap P) : Prop :=
  heap_ok st' /\ bytes st' = bytes st /\
  ((p = 0 /\ live st' = live st) \/
   (exists cap, p <> 0 /\ live st !! p = None /\ live st' = <[p := cap]> (live st) /\
      MmAlignUp n <= cap <= MmAlignUp n + hdr + MM_SPLIT_MIN)).

Lemma request_post n p st st' :
  heap_ok st -> 0 <= MmAlignUp n -> request (MmAlignUp n) p st st' (blocks_of st) ->
  malloc_post n p st st'.
Proof.
  intros Hok Hn (G & HG & Hby & Hcase). unfold malloc_post.
  assert (live_of (G ++ blocks_of st) = live st) as Hlive
    by (rewrite live_of_app, (live_of_free G), (left_id_L ∅ _); done).
  destruct Hcase as [(-> & Hr & _) | (l1 & b & l2 & E & -> & Hfit & _ & Hb & Hr & Hnd)].
  - split; [by eapply heap_rep_ok|]. split; [done|]. left. split; [done|].
    rewrite (heap_rep_live _ _ Hr). done.
  - split; [by eapply heap_rep_ok|]. split; [done|]. right.
    apply andb_true_iff in Hfit as [Hf Hle]. apply Z.leb_le in Hle.
    exists (take_capacity b (MmAlignUp n)). pose proof hdr_range.
    unfold in_bounds, PMM_PAGE_SIZE in Hb.
    split; [lia|]. split; [|split].
    + rewrite <- Hlive, E, live_of_app, live_of_cons, Hf.
      destruct (live_of_fresh _ _ _ Hnd) as [F1 F2]. by rewrite lookup_union_None.
    + rewrite (heap_rep_live _ _ Hr), live_of_take, <- E, Hlive by done. done.
    + unfold take_capacity, MM_SPLIT_MIN. destruct (Z.leb_spec (bsize b) (MmAlignUp n + hdr + 16)); lia.
Qed.

Lemma kmalloc_spec n st :
  heap_ok st -> is_u32 n ->
  exists p st', kmalloc n st = Some (p, st') /\ malloc_post n p st st' /\
    (n <= 4294963200 - 32 -> p = 0 ->
     st' = st /\ (n = 0 \/ Forall (fun b => fits (MmAlignUp n) b = false) (blocks_of st))).
Proof.
  intros Hok Hn. unfold kmalloc. rewrite (hr_init _ _ Hok). cbn [negb]. rewrite orb_false_r.
  destruct (Z.eqb_spec n 0) as [->|Hne].
  - exists 0, st. split; [done|]. split; [|auto]. split; [done|]. split; [done|]. by left.
  - destruct (kmalloc_retry_spec (S (Z.to_nat (pa_free (pages st)))) (MmAlignUp n) st _ Hok
      (MmAlignUp_range n) ltac:(lia)) as (p & st' & -> & Hreq).
    exists p, st'. split; [done|]. split.
    { apply request_post; [done | apply MmAlignUp_range | done]. }
    intros Hsmall ->. unfold is_u32 in Hn. pose proof (MmAlignUp_ge n ltac:(lia)) as [? _].
    pose proof hdr_range.
    destruct Hreq as (G & HG & _ & [(_ & _ & Hnofit & Heq) | (l1 & b & l2 & _ & Hz & _ & _ & Hb & _)]).
    + split; [apply Heq; lia|]. right. by apply Forall_app in Hnofit as [_ ?].
    + unfold in_bounds, PMM_PAGE_SIZE in Hb. lia.
Qed.

(** ** Coalescing *)

Definition mergeable (b c : blk) : bool := bfree b && bfree c && (bend b =? baddr c).

Definition merge (b c : blk) : blk := mkBlk (baddr b) (bsize b + hdr + bsize c) (bfree b).

(** The list [MmCoalesce] leaves, [b] being the block under the cursor. *)
Fixpoint coalesce_from (b : blk) (l : list blk) : list blk :=
  match l with
  | [] => [b]
  | c :: l' => if mergeable b c then coalesce_from (merge b c) l' else b :: coalesce_from c l'
  end.

Definition coalesce (l : list blk) : list blk :=
  match l with [] => [] | b :: l' => coalesce_from b l' end.

(** No two neighbours of the list could still be merged. *)
Fixpoint coalesced (l : list blk) : Prop :=
  match l with
  | b :: (c :: _) as l' => mergeable b c = false /\ coalesced l'
  | _ => True
  end.

Lemma coalesce_from_hd b l : exists s l', coalesce_from b l = mkBlk (baddr b) s (bfree b) :: l'.
Proof.
  revert b. induction l as [|c l IH]; intros b; cbn.
  - exists (bsize b), []. by destruct b.
  - destruct (mergeable b c); [|exists (bsize b); destruct b; by eexists].
    destruct (IH (merge b c)) as (s & l' & ->). by exists s, l'.
Qed.

Lemma coalesce_from_coalesced b l : coalesced (coalesce_from b l).
Proof.
  revert b. induction l as [|c l IH]; intros b; cbn; [done|].
  destruct (mergeable b c) eqn:E; [apply IH|].
  destruct (coalesce_from_hd c l) as (s & l' & He). specialize (IH c).
  rewrite He in *. cbn. split; [|exact IH]. unfold mergeable in *. cbn. done.
Qed.

Lemma layout_merge p l1 b c l2 :
  layout p (l1 ++ b :: c :: l2) -> mergeable b c = true -> layout p (l1 ++ merge b c :: l2).
Proof.
  intros [Hs Hb Ho] Hm. apply andb_true_iff in Hm as [_ He]. apply Z.eqb_eq in He.
  pose proof hdr_range.
  apply separated_app in Hs as (S1 & S2 & S3). cbn in S2. destruct S2 as (S2 & S4 & S5).
  apply Forall_cons in S2 as [_ S2].
  apply Forall_app in Hb as [B1 B2]. rewrite !Forall_cons in B2. destruct B2 as (B2 & B3 & B4).
  apply Forall_app in Ho as [O1 O2]. rewrite !Forall_cons in O2. destruct O2 as (O2 & O3 & O4).
  assert (bend (merge b c) = bend c) as Hend by (unfold bend, merge in *; cbn; lia).
  assert (forall d, apart b d -> apart c d -> in_bounds d -> apart (merge b c) d) as Hap.
  { intros d. unfold apart. rewrite Hend. unfold in_bounds, bend, merge in *. cbn. lia. }
  split.
  - apply separated_app. split; [done|]. cbn. split; [split; [|done]|].
    + rewrite Forall_forall in S2, S4, B4 |- *. auto.
    + rewrite Forall_forall in S3, B1 |- *. intros d Hd. specialize (S3 d Hd).
      rewrite !Forall_cons in S3. rewrite Forall_cons. destruct S3 as (X1 & X2 & X3). split; [|done].
      apply apart_sym, Hap; [by apply apart_sym .. | auto].
  - apply Forall_app. split; [done|]. apply Forall_cons. split; [|done].
    unfold in_bounds in *. rewrite Hend. unfold merge; cbn. lia.
  - apply Forall_app. split; [done|]. apply Forall_cons. split; [|done].
    intros q Hq H1 H2. rewrite Hend in H1. cbn in H2.
    destruct (Z.lt_ge_cases (q * PMM_PAGE_SIZE) (bend b)); [apply O2 | apply O3]; try done.
    unfold PMM_PAGE_SIZE in *. lia.
Qed.

Lemma coalesce_from_layout p l1 b l :
  layout p (l1 ++ b :: l) -> layout p (l1 ++ coalesce_from b l).
Proof.
  revert l1 b. induction l as [|c l IH]; intros l1 b Hl; cbn; [done|].
  destruct (mergeable b c) eqn:E.
  - apply IH. by apply layout_merge.
  - replace (l1 ++ b :: coalesce_from c l) with ((l1 ++ [b]) ++ coalesce_from c l)
      by (by rewrite <- app_assoc).
    apply IH. by rewrite <- app_assoc.
Qed.

Lemma coalesce_from_total b l : total (coalesce_from b l) = total (b :: l).
Proof.
  revert b. induction l as [|c l IH]; intros b; cbn [coalesce_from]; [done|].
  destruct (mergeable b c).
  - rewrite IH. unfold merge. cbn. lia.
  - change (total (b :: coalesce_from c l)) with (hdr + bsize b + total (coalesce_from c l)).
    rewrite IH. done.
Qed.

Lemma coalesce_from_live b l : live_of (coalesce_from b l) = live_of (b :: l).
Proof.
  revert b. induction l as [|c l IH]; intros b; cbn [coalesce_from]; [done|].
  destruct (mergeable b c) eqn:E.
  - rewrite IH, !live_of_cons. unfold mergeable in E.
    apply andb_true_iff in E as [[E1 E2]%andb_true_iff _]. cbn [bfree merge]. by rewrite E1, E2.
  - by rewrite !(live_of_cons b), IH.
Qed.

Lemma coalesce_loop_spec fuel m b l p :
  chain m (baddr b) (b :: l) -> layout p (b :: l) -> (length l < fuel)%nat ->
  exists m', coalesce_loop fuel (baddr b) m = Some m' /\
    chain m' (baddr b) (coalesce_from b l) /\
    (forall x, x ∉ baddr <$> b :: l -> m' !! x = m !! x).
Proof.
  revert fuel m b. induction l as [|c l IH]; intros fuel m b Hc Hl Hf;
    (destruct fuel as [|fuel]; [cbn in Hf; lia|]); cbn [coalesce_loop].
  - destruct Hc as (_ & Hne & nx & Hm & ->). rewrite (proj2 (Z.eqb_neq _ _) Hne), Hm. cbn.
    exists m. split; [done|]. split; [|done]. split; [done|]. split; [done|]. by exists 0.
  - destruct Hc as (_ & Hne & nx & Hm & Hcn).
    pose proof Hcn as (-> & Hnec & nx & Hmc & Hcl).
    rewrite (proj2 (Z.eqb_neq _ _) Hne), Hm. cbn [next size free].
    rewrite (proj2 (Z.eqb_neq _ _) Hnec), Hmc. cbn [next size free]. cbn [length] in Hf.
    change (baddr b + sizeof_HEAP_BLOCK a + bsize b) with (bend b).
    fold (mergeable b c). cbn [coalesce_from].
    pose proof (layout_NoDup _ _ Hl) as Hnd. rewrite fmap_cons, NoDup_cons in Hnd.
    destruct Hnd as [Hnb Hnd].
    destruct (mergeable b c) eqn:E.
    + pose proof (layout_merge p [] b c l Hl E) as Hl2.
      assert (u32 (usize a (bsize b + usize a (sizeof_HEAP_BLOCK a + bsize c))) = bsize (merge b c)) as ->.
      { pose proof (layout_middle p [] b (c :: l) Hl) as (A1 & A2 & A3).
        pose proof (layout_middle p [b] c l Hl) as (C1 & C2 & C3).
        pose proof (layout_middle p [] _ l Hl2) as (D1 & D2 & D3).
        unfold bend, merge, PMM_PAGE_SIZE in *. cbn in *. fold hdr. pose proof hdr_range.
        rewrite (usize_small a (hdr + bsize c)), usize_small, u32_small by (unfold is_u32; lia). lia. }
      destruct (IH fuel (<[baddr b := mkBlock (bsize (merge b c)) (bfree b) nx]> m)
        (merge b c)) as (m' & Hrun & Hc' & Hag).
      * cbn [chain]. split; [done|]. split; [done|]. exists nx. rewrite lookup_insert_eq. split; [done|].
        eapply chain_agree; [exact Hcl|]. intros d Hd. rewrite lookup_insert_ne; [done|].
        intros He. apply Hnb. apply list_elem_of_fmap. exists d. cbn in He.
        split; [done|]. apply elem_of_cons. by right.
      * done.
      * lia.
      * exists m'. split; [exact Hrun|]. split; [done|]. intros x Hx.
        rewrite fmap_cons, elem_of_cons in Hx. rewrite fmap_cons, elem_of_cons in Hx.
        rewrite Hag; [rewrite lookup_insert_ne; [done|]; cbn; intros He; apply Hx; by left|].
        rewrite fmap_cons, elem_of_cons. cbn. tauto.
    + destruct (IH fuel m c Hcn) as (m' & -> & Hc' & Hag).
      { destruct Hl as [[_ L1] L2%Forall_cons L3%Forall_cons]. split; tauto. }
      { lia. }
      exists m'. split; [done|]. split.
      * cbn [chain]. split; [done|]. split; [done|]. exists (baddr c).
        rewrite Hag by done. done.
      * intros x Hx. apply Hag. rewrite fmap_cons, elem_of_cons in Hx. tauto.
Qed.

Lemma MmCoalesce_spec st l :
  heap_rep st l ->
  exists st', MmCoalesce st = Some st' /\ heap_rep st' (coalesce l) /\ bytes st' = bytes st /\
    pages st' = pages st.
Proof.
  intros Hr. pose proof Hr as [Hc Hl Ht Hp Hi]. unfold MmCoalesce.
  destruct l as [|b l].
  - cbn in Hc. rewrite Hc. cbn. eexists. split; [done|]. split; [|done].
    split; cbn; try done.
  - pose proof (chain_length _ _ _ Hc (layout_NoDup _ _ Hl)) as Hlen. cbn in Hlen.
    assert (heap_head st = baddr b) as Hhd by (by rewrite (chain_hd _ _ _ Hc)). rewrite Hhd in *.
    destruct (coalesce_loop_spec (S (base.size (hdrs st))) (hdrs st) b l (pages st) Hc Hl ltac:(lia))
      as (m' & -> & Hc' & _).
    eexists. split; [done|]. split; [|done].
    split; cbn [set_hdrs hdrs heap_head heap_committed heap_initialized pages]; try done.
    + by rewrite Hhd.
    + by apply (coalesce_from_layout _ []).
    + cbn [coalesce]. by rewrite coalesce_from_total.
Qed.

(** ** kfree *)

Lemma set_free_spec st l1 b l2 f :
  heap_rep st (l1 ++ b :: l2) ->
  exists st', set_free (baddr b) f st = Some st' /\ bytes st' = bytes st /\ pages st' = pages st /\
    heap_rep st' (l1 ++ mkBlk (baddr b) (bsize b) f :: l2).
Proof.
  intros [Hc Hl Ht Hp Hi]. unfold set_free.
  destruct (chain_lookup _ _ _ _ _ Hc) as [Hne Hm]. rewrite Hm. cbn [size free next].
  eexists. split; [done|]. split; [done|]. split; [done|].
  assert (fills b [mkBlk (baddr b) (bsize b) f]) as Hf.
  { pose proof (layout_middle _ _ _ _ Hl) as (? & ? & ?). unfold fills. cbn.
    rewrite Forall_cons, !Forall_nil. unfold bend; cbn. repeat split; lia. }
  split; cbn [set_hdrs hdrs heap_head heap_committed heap_initialized pages]; try done.
  - apply chain_set_here; [done|]. by eapply layout_NoDup.
  - exact (layout_refill _ _ _ _ _ Hl Hf).
  - rewrite Ht. f_equal. symmetry. exact (total_refill l1 b _ l2 Hf).
Qed.

Lemma kfree_spec p st :
  heap_ok st ->
  exists st', kfree p st = Some st' /\ heap_ok st' /\ bytes st' = bytes st /\
    pages st' = pages st /\ live st' = delete p (live st) /\
    (is_Some (live st !! p) -> coalesced (blocks_of st')).
Proof.
  intros Hok. unfold kfree. rewrite (hr_init _ _ Hok). cbn [negb]. rewrite orb_false_r.
  pose proof hdr_range.
  destruct (Z.eqb_spec p 0) as [->|Hne].
  { assert (live st !! 0 = None) as Hn.
    { rewrite eq_None_not_Some. intros [s Hs]. apply live_bounds in Hs; [|done].
      unfold PMM_PAGE_SIZE in Hs. lia. }
    exists st. split; [done|]. split; [done|]. split; [done|]. split; [done|].
    rewrite delete_id by done. split; [done|]. intros [? Hs]. congruence. }
  destruct (find_block_spec (fun block _ _ => block + sizeof_HEAP_BLOCK a =? p) st _ Hok)
    as [[-> Hnone] | (l1 & b & l2 & E & -> & Hnz & Hfit & _)].
  - assert (live st !! p = None) as Hn.
    { rewrite eq_None_not_Some. intros [s Hs]. unfold live in Hs.
      rewrite live_of_lookup in Hs by (eapply layout_NoDup, Hok).
      destruct Hs as (c & Hc & _ & Hcp & _). rewrite Forall_forall in Hnone.
      specialize (Hnone c Hc). cbn in Hnone. apply Z.eqb_neq in Hnone. by unfold hdr in Hcp. }
    exists st. split; [done|]. split; [done|]. split; [done|]. split; [done|].
    rewrite delete_id by done. split; [done|]. intros [? Hs]. congruence.
  - apply Z.eqb_eq in Hfit. rewrite (proj2 (Z.eqb_neq _ _) Hnz).
    unfold heap_ok in Hok. rewrite E in Hok.
    destruct (set_free_spec st l1 b l2 true Hok) as (st1 & -> & Hby & Hpg & Hr1).
    destruct (MmCoalesce_spec st1 _ Hr1) as (st' & -> & Hr' & Hby' & Hpg').
    exists st'. split; [done|]. split; [by eapply heap_rep_ok|].
    split; [congruence|]. split; [congruence|].
    assert (live_of (coalesce (l1 ++ mkBlk (baddr b) (bsize b) true :: l2)) =
            live_of (l1 ++ mkBlk (baddr b) (bsize b) true :: l2)) as Hco.
    { destruct l1; cbn [app coalesce]; apply coalesce_from_live. }
    split.
    + rewrite (heap_rep_live _ _ Hr'), (heap_rep_live _ _ Hok), Hco.
      rewrite live_of_release by (eapply layout_NoDup, Hok). by rewrite <- Hfit.
    + intros _. rewrite (heap_rep_blocks _ _ Hr').
      destruct l1; cbn [app coalesce]; apply coalesce_from_coalesced.
Qed.

(** ** calloc, realloc and the statistics *)

Lemma heap_ok_set_bytes st m : heap_ok st -> heap_ok (set_bytes st m).
Proof. intros []. by split. Qed.

Lemma live_block st p cap :
  heap_ok st -> live st !! p = Some cap ->
  exists l1 b l2, blocks_of st = l1 ++ b :: l2 /\ baddr b + hdr = p /\ bsize b = cap /\ bfree b = false.
Proof.
  intros Hok. unfold live. rewrite live_of_lookup by (eapply layout_NoDup, Hok).
  intros (b & Hb & Hf & <- & <-). apply list_elem_of_split in Hb as (l1 & l2 & ->). by exists l1, b, l2.
Qed.

(** The header search by pointer finds the block of a live allocation. *)
Lemma find_pointer st p cap :
  heap_ok st -> live st !! p = Some cap ->
  exists block nx, find_block (fun block _ _ => block + sizeof_HEAP_BLOCK a =? p) st = Some block /\
    block = p - hdr /\ block <> 0 /\ hdrs st !! block = Some (mkBlock cap false nx).
Proof.
  intros Hok Hl. destruct (live_block _ _ _ Hok Hl) as (k1 & c & k2 & Ek & Hp & Hcap & Hf).
  destruct (find_block_spec (fun block _ _ => block + sizeof_HEAP_BLOCK a =? p) st _ Hok)
    as [[_ Hnone] | (l1 & b & l2 & E & -> & Hnz & Hfit & _)].
  - rewrite Ek, Forall_app, Forall_cons in Hnone. destruct Hnone as (_ & Hn & _).
    unfold hdr in Hp. apply Z.eqb_neq in Hn. done.
  - apply Z.eqb_eq in Hfit. fold hdr in Hfit.
    exists (baddr b). pose proof (hr_chain _ _ Hok) as Hc. rewrite Ek in Hc.
    apply chain_lookup in Hc as [_ Hm].
    replace (baddr c) with (baddr b) in Hm by lia. rewrite Hcap, Hf in Hm.
    eexists. split; [done|]. split; [lia|]. split; [done | exact Hm].
Qed.

Lemma calloc_spec count n st :
  heap_ok st -> is_u32 count -> is_u32 n ->
  exists p st', calloc count n st = Some (p, st') /\ heap_ok st' /\
    ((p = 0 /\ live st' = live st /\ bytes st' = bytes st) \/
     (exists cap, p <> 0 /\ count * n < 4294967296 /\ live st !! p = None /\
        live st' = <[p := cap]> (live st) /\ MmAlignUp (count * n) <= cap /\
        (forall x, bytes st' x = if (p <=? x) && (x <? p + count * n) then 0 else bytes st x))).
Proof.
  intros Hok [Hc Hc'] [Hn Hn']. unfold calloc.
  destruct (negb (count =? 0) && (4294967295 / count <? n)) eqn:E.
  { exists 0, st. split; [done|]. split; [done|]. by left. }
  assert (count * n < 4294967296) as Hfit.
  { destruct (Z.eqb_spec count 0) as [->|]; [lia|]. cbn in E. apply Z.ltb_ge in E.
    assert (count * (4294967295 / count) <= 4294967295) by (apply Z.mul_div_le; lia). nia. }
  rewrite u32_small by (unfold is_u32; nia).
  destruct (kmalloc_spec (count * n) st Hok ltac:(unfold is_u32; nia)) as (p & st' & -> & Hpost & _).
  destruct Hpost as (Hok' & Hby & Hcase).
  eexists _, _. split; [done|]. destruct Hcase as [[-> Hl] | (cap & Hne & Hnone & Hl & Hle)].
  - split; [done|]. by left.
  - rewrite (proj2 (Z.eqb_neq p 0) Hne). cbn [negb].
    split; [by apply heap_ok_set_bytes|]. right. exists cap. repeat split; try done; try lia.
    intros x. cbn [bytes set_bytes]. unfold Util.memset.
    rewrite Util.memset_loop_spec, Z2Nat.id, Hby by nia. done.
Qed.

Lemma realloc_spec p cap n st :
  heap_ok st -> live st !! p = Some cap -> 0 < n <= 4294963200 - 32 ->
  exists q st', realloc p n st = Some (q, st') /\ heap_ok st' /\
    ((n <= cap /\ q = p /\ st' = st) \/
     (cap < n /\ q = 0 /\ st' = st) \/
     (exists cap', cap < n <= cap' /\ q <> 0 /\ live st !! q = None /\
        live st' = <[q := cap']> (delete p (live st)) /\
        (forall x, bytes st' x = if (q <=? x) && (x <? q + cap) then bytes st (p + (x - q))
                                 else bytes st x))).
Proof.
  intros Hok Hl Hn. unfold realloc.
  destruct (live_bounds _ _ _ Hok Hl) as (Hp1 & Hp2 & Hp3). pose proof hdr_range.
  unfold PMM_PAGE_SIZE in Hp1.
  rewrite (proj2 (Z.eqb_neq p 0)), (proj2 (Z.eqb_neq n 0)) by lia.
  destruct (find_pointer _ _ _ Hok Hl) as (block & nx & -> & Hblk & Hnz & Hm).
  rewrite (proj2 (Z.eqb_neq _ _) Hnz), Hm. cbn [free size].
  destruct (Z.leb_spec n cap) as [Hle|Hgt].
  { exists p, st. split; [done|]. split; [done|]. by left. }
  destruct (kmalloc_spec n st Hok ltac:(unfold is_u32; lia)) as (q & st1 & -> & Hpost & Hfail).
  destruct Hpost as (Hok1 & Hby1 & [[-> Hl1] | (cap' & Hq & Hnone & Hl1 & Hcap')]).
  { destruct (Hfail ltac:(lia) eq_refl) as [-> _]. exists 0, st. split; [done|].
    split; [done|]. right. by left. }
  rewrite (proj2 (Z.eqb_neq q 0) Hq).
  assert (p <> q) as Hpq by congruence.
  assert (live st1 !! p = Some cap) as Hlp by (by rewrite Hl1, lookup_insert_ne).
  destruct (find_pointer _ _ _ Hok1 Hlp) as (block1 & nx1 & _ & Hblk1 & _ & Hm1).
  replace block1 with block in Hm1 by lia. rewrite Hm1. cbn [size].
  rewrite (proj2 (Z.ltb_lt cap n) Hgt).
  set (st2 := set_bytes st1 _).
  assert (heap_ok st2) as Hok2 by (by apply heap_ok_set_bytes).
  destruct (kfree_spec p st2 Hok2) as (st' & -> & Hok' & Hby' & _ & Hl' & _).
  exists q, st'. split; [done|]. split; [done|]. right. right. exists cap'.
  pose proof (MmAlignUp_ge n ltac:(lia)) as [? _].
  split; [lia|]. split; [done|]. split; [done|]. split.
  - rewrite Hl'. change (live st2) with (live st1). rewrite Hl1.
    by rewrite delete_insert_ne by done.
  - intros x. rewrite Hby'. subst st2. cbn [bytes set_bytes]. unfold Util.memcpy.
    assert (live st1 !! q = Some cap') as Hlq by (by rewrite Hl1, lookup_insert_eq).
    pose proof (live_apart st1 p cap q cap' Hok1 Hlp Hlq Hpq) as Hap.
    rewrite Util.memcpy_loop_spec, Z2Nat.id, Hby1 by (rewrite ?Z2Nat.id; lia). done.
Qed.

Definition used_total (l : list blk) : Z :=
  fold_right (fun b t => (if bfree b then 0 else bsize b) + t) 0 l.

Lemma used_loop_spec fuel m p l used :
  chain m p l -> (length l < fuel)%nat ->
  exists v, used_loop fuel m p used = Some v /\ u32 v = u32 (used + used_total l).
Proof.
  revert fuel p used. induction l as [|b l IH]; intros fuel p used Hc Hf;
    (destruct fuel as [|fuel]; [cbn in Hf; lia|]); cbn [used_loop].
  - cbn in Hc. subst p. exists used. cbn. by rewrite Z.add_0_r.
  - destruct Hc as (-> & Hne & nx & Hm & Hc). cbn [length] in Hf.
    rewrite (proj2 (Z.eqb_neq _ _) Hne), Hm. cbn [free size next].
    destruct (IH fuel nx (if negb (bfree b) then u32 (used + bsize b) else used) Hc ltac:(lia))
      as (v & -> & Hv).
    exists v. split; [done|]. rewrite Hv. cbn [used_total fold_right]. fold (used_total l).
    destruct (bfree b); cbn [negb]; [done|]. unfold u32.
    rewrite Z.add_mod_idemp_l by lia. f_equal. lia.
Qed.

(** ** Requests near the top of the 32-bit range *)

Lemma no_huge_block st l n : heap_rep st l -> 4294963200 <= n -> Forall (fun b => fits n b = false) l.
Proof.
  intros [_ [_ Hb _] _ _ _] Hn. eapply Forall_impl; [exact Hb|].
  intros b (H1 & H2 & H3). pose proof hdr_range. unfold bend, PMM_PAGE_SIZE in *.
  unfold fits. rewrite (proj2 (Z.leb_gt n (bsize b))) by lia. apply andb_false_r.
Qed.

Lemma grow_pages_wrap n :
  4294963200 <= n < 4294967296 ->
  (let nbytes := u32 (usize a (n + sizeof_HEAP_BLOCK a)) in
   let npages := u32 (nbytes + PMM_PAGE_SIZE - 1) / PMM_PAGE_SIZE in
   if npages <? MM_HEAP_GROW_PAGES then MM_HEAP_GROW_PAGES else npages) = 16.
Proof.
  intros Hn. fold hdr. pose proof hdr_range. unfold PMM_PAGE_SIZE, MM_HEAP_GROW_PAGES. cbv zeta.
  assert (u32 (usize a (n + hdr)) = (n + hdr) mod 4294967296) as ->.
  { destruct a; cbn [usize]; unfold u32, u64; [by rewrite Z.mod_mod by lia|..];
      rewrite (Z.mod_small (n + hdr) 18446744073709551616) by lia; done. }
  rewrite (proj2 (Z.ltb_lt _ _)); [done|]. zlia.
Qed.

Lemma kmalloc_retry_huge fuel n st l :
  heap_rep st l -> 4294963200 <= n < 4294967296 ->
  (Z.to_nat (pa_free (pages st)) < fuel)%nat ->
  exists st' G, kmalloc_retry fuel n st = Some (0, st') /\ heap_rep st' (G ++ l) /\
    Forall (fun b => bfree b = true) G /\ fst (pa_alloc 16 (pages st')) = 0.
Proof.
  revert st l. induction fuel as [|fuel IH]; intros st l Hr Hn Hf; [lia|].
  cbn [kmalloc_retry].
  destruct (find_block_spec (fun _ sz fr => fr && (n <=? sz)) st l Hr)
    as [[-> _] | (l1 & b & l2 & -> & _ & _ & Hfit & _)].
  2:{ pose proof (no_huge_block _ _ n Hr (proj1 Hn)) as Hno.
      apply Forall_app in Hno as [_ [Hno _]%Forall_cons]. unfold fits in Hno. congruence. }
  cbn [Z.eqb negb]. pose proof (MmGrowHeap_spec n st l Hr ltac:(unfold is_u32; lia)) as Hg.
  pose proof (grow_pages_wrap n Hn) as Hnp. cbv zeta in Hnp.
  destruct (MmGrowHeap n st) as [g st1] eqn:E.
  destruct Hg as [(-> & ->) | (Hg & b & Hb & Hbf & Hr1 & _ & Hlt & _)].
  - cbn. exists st, []. split; [done|]. split; [done|]. split; [done|].
    unfold MmGrowHeap in E. cbv zeta in E. rewrite Hnp in E.
    destruct (pa_alloc 16 (pages st)) as [x p']. destruct (Z.eqb_spec x 0) as [->|Hx]; [done|].
    injection E as -> _. done.
  - rewrite (proj2 (Z.eqb_neq g 0) Hg). pose proof (pa_free_nonneg _ (hr_pages _ _ Hr1)).
    destruct (IH st1 (b :: l) Hr1 Hn ltac:(lia)) as (st' & G & -> & Hr' & HG & Hex).
    exists st', (G ++ [b]). replace ((G ++ [b]) ++ l) with (G ++ b :: l) by (by rewrite <- app_assoc).
    split; [done|]. split; [done|]. split; [|done]. apply Forall_app. split; [done | by constructor].
Qed.

(** ** The heap's theorems *)

(** C2. [kmalloc] is a correct allocator: from any well-formed heap and for
    any 32-bit request it terminates without touching an invalid header and
    leaves a well-formed heap with every live allocation still in place; it
    returns either 0, and for requests up to 4294963168 bytes then only when no
    free block fits and the page allocator cannot supply one, or a pointer that
    was not live, whose block is at least as large as the request (rounded up
    to 8, for requests that do not wrap) and at most [sizeof(HEAP_BLOCK) + 16]
    bytes larger, and whose bytes and header overlap no other live block. *)
Theorem kmalloc_correct (n : Z) (st : heap P) :
  heap_ok st -> is_u32 n ->
  exists p st', kmalloc n st = Some (p, st') /\ heap_ok st' /\ bytes st' = bytes st /\
    (p = 0 -> live st' = live st /\
       (n <= 4294963168 -> st' = st /\
          (n = 0 \/ Forall (fun b => fits (MmAlignUp n) b = false) (blocks_of st)))) /\
    (p <> 0 -> exists cap, live st !! p = None /\ live st' = <[p := cap]> (live st) /\
       MmAlignUp n <= cap <= MmAlignUp n + hdr + MM_SPLIT_MIN /\
       (n <= 4294967288 -> n <= cap) /\
       (forall p' cap', live st !! p' = Some cap' -> p + cap <= p' - hdr \/ p' + cap' <= p - hdr)).
Proof.
  intros Hok Hn. destruct (kmalloc_spec n st Hok Hn) as (p & st' & E & (Hok' & Hby & Hcase) & Hfail).
  exists p, st'. split; [done|]. split; [done|]. split; [done|].
  destruct Hcase as [[-> Hl] | (cap & Hne & Hnone & Hl & Hcap)].
  - split; [|done]. intros _. split; [done|]. intros Hs. apply Hfail; [lia | done].
  - split; [done|]. intros _. exists cap. split; [done|]. split; [done|]. split; [done|]. split.
    + intros Hs. unfold is_u32 in Hn. pose proof (MmAlignUp_ge n ltac:(lia)). lia.
    + intros p' cap' Hp'. apply (live_apart st'); [done | ..]; rewrite ?Hl.
      * by rewrite lookup_insert_eq.
      * rewrite lookup_insert_ne by congruence. done.
      * congruence.
Qed.

(** C17. [kfree] releases exactly its argument: it terminates safely for every
    pointer value, removes the pointer from the live set (so freeing a pointer
    twice, or one the heap never returned, changes no allocation), keeps the
    heap well formed and every byte of memory, and after releasing a live
    pointer no two neighbouring blocks of the list are left unmerged. *)
Theorem kfree_correct (p : Z) (st : heap P) :
  heap_ok st ->
  exists st', kfree p st = Some st' /\ heap_ok st' /\ bytes st' = bytes st /\
    live st' = delete p (live st) /\
    (is_Some (live st !! p) -> coalesced (blocks_of st')).
Proof.
  intros Hok. destruct (kfree_spec p st Hok) as (st' & ? & ? & ? & _ & ? & ?). by exists st'.
Qed.

(** C40. [realloc] of a live pointer to 1 to 4294963168 bytes keeps the data: it returns the same
    pointer when the block is already large enough; otherwise it either fails
    with the heap unchanged, or returns a fresh block of sufficient capacity
    that replaces the old one in the live set, with the old contents copied
    to it and no other byte changed. *)
Theorem realloc_correct (p cap n : Z) (st : heap P) :
  heap_ok st -> live st !! p = Some cap -> 0 < n <= 4294963168 ->
  exists q st', realloc p n st = Some (q, st') /\ heap_ok st' /\
    ((n <= cap /\ q = p /\ st' = st) \/
     (cap < n /\ q = 0 /\ st' = st) \/
     (exists cap', cap < n <= cap' /\ q <> 0 /\ live st !! q = None /\
        live st' = <[q := cap']> (delete p (live st)) /\
        (forall x, bytes st' x = if (q <=? x) && (x <? q + cap) then bytes st (p + (x - q))
                                 else bytes st x))).
Proof. apply realloc_spec. Qed.

(** [calloc] never under-allocates: for every pair of 32-bit arguments it
    returns 0 when the product does not fit 32 bits, and any block it returns
    is a fresh allocation whose first [count * n] bytes, and no others, were
    set to zero. *)
Theorem calloc_correct (count n : Z) (st : heap P) :
  heap_ok st -> is_u32 count -> is_u32 n ->
  exists p st', calloc count n st = Some (p, st') /\ heap_ok st' /\
    (4294967296 <= count * n -> p = 0) /\
    (p = 0 -> live st' = live st /\ bytes st' = bytes st) /\
    (p <> 0 -> exists cap, live st !! p = None /\ live st' = <[p := cap]> (live st) /\
       (count * n <= 4294967288 -> count * n <= cap) /\
       (forall x, bytes st' x = if (p <=? x) && (x <? p + count * n) then 0 else bytes st x)).
Proof.
  intros Hok Hc Hn. destruct (calloc_spec count n st Hok Hc Hn) as (p & st' & E & Hok' & Hcase).
  exists p, st'. split; [done|]. split; [done|].
  destruct Hcase as [(-> & Hl & Hby) | (cap & Hne & Hfit & Hnone & Hl & Hcap & Hby)].
  - repeat split; try done.
  - split; [lia|]. split; [done|]. intros _. exists cap. split; [done|]. split; [done|]. split; [|done].
    intros Hs. unfold is_u32 in *. pose proof (MmAlignUp_ge (count * n) ltac:(nia)). lia.
Qed.

(** The size rounding wraps: a request of 4294967289 bytes or more is
    rounded to 0, so [kmalloc] can answer it with a live block of at most
    [sizeof(HEAP_BLOCK) + 16] bytes instead of failing. *)
Theorem kmalloc_wrap_undersized (n : Z) (st : heap P) :
  heap_ok st -> 4294967288 < n < 4294967296 ->
  exists p st', kmalloc n st = Some (p, st') /\
    (p <> 0 -> exists cap, live st' !! p = Some cap /\ cap <= hdr + MM_SPLIT_MIN).
Proof.
  intros Hok Hn. destruct (kmalloc_spec n st Hok ltac:(unfold is_u32; lia))
    as (p & st' & E & (_ & _ & Hcase) & _).
  exists p, st'. split; [done|]. intros Hp.
  assert (MmAlignUp n = 0) as Hz.
  { unfold MmAlignUp, MM_ALIGN. rewrite land_mask8 by apply u32_range. unfold u32.
    assert ((n + 8 - 1) mod 4294967296 = n + 7 - 4294967296) as -> by zlia. zlia. }
  destruct Hcase as [[? _] | (cap & _ & _ & -> & Hcap)]; [done|].
  exists cap. rewrite lookup_insert_eq. split; [done | lia].
Qed.

(** A request between 4294963200 and 4294967288 bytes makes the page count
    wrap in [MmGrowHeap]: [kmalloc] fails, as it must, but only after it has
    grown the heap sixteen pages at a time until the page allocator cannot
    supply sixteen more. *)
Theorem kmalloc_huge_exhausts (n : Z) (st : heap P) :
  heap_ok st -> 4294963200 <= n <= 4294967288 ->
  exists st', kmalloc n st = Some (0, st') /\ live st' = live st /\
    fst (pa_alloc 16 (pages st')) = 0.
Proof.
  intros Hok Hn. unfold kmalloc. rewrite (hr_init _ _ Hok). cbn [negb].
  rewrite (proj2 (Z.eqb_neq n 0)) by lia. cbn [orb].
  pose proof (MmAlignUp_ge n ltac:(lia)) as [Ha1 Ha2].
  assert (MmAlignUp n < 4294967296) by apply MmAlignUp_range.
  destruct (kmalloc_retry_huge (S (Z.to_nat (pa_free (pages st)))) (MmAlignUp n) st _ Hok
    ltac:(lia) ltac:(lia)) as (st' & G & -> & Hr & HG & Hex).
  exists st'. split; [done|]. split; [|done].
  rewrite (heap_rep_live _ _ Hr), live_of_app, (live_of_free G HG), (left_id_L ∅ _). done.
Qed.

(** [MmGetHeapUsed] reports, modulo 2^32, the total size of the allocated
    blocks, and [MmGetHeapTotal] the total of all blocks with their headers:
    no byte of committed memory is ever lost from the list. *)
Theorem heap_statistics_correct (st : heap P) :
  heap_ok st ->
  (exists v, MmGetHeapUsed st = Some v /\ u32 v = u32 (used_total (blocks_of st))) /\
  MmGetHeapTotal st = u32 (total (blocks_of st)).
Proof.
  intros Hok. split; [|apply (hr_total _ _ Hok)].
  apply (used_loop_spec _ _ _ _ 0 (hr_chain _ _ Hok)).
  pose proof (chain_length _ _ _ (hr_chain _ _ Hok) (layout_NoDup _ _ (hr_layout _ _ Hok))). lia.
Qed.

End Heap.

(** The whole of [MmInitialize] over the physical allocator. *)
Definition MmInitialize (a : arch) (b : boot) (data : Util.mem) (st : pmm) : option (heap pmm) :=
  match PmmInitialize a b st with
  | Some p => Some (heap_start data p)
  | None => None
  end.

Lemma heap_start_ok {P} `{!PageAllocator P} (a : arch) data (p : P) :
  pa_ok p -> heap_ok a (heap_start data p).
Proof.
  intros Hp. unfold heap_ok, blocks_of, heap_start. cbn [hdrs].
  rewrite map_size_empty. split; cbn; try done.
Qed.

Lemma MmInitialize_ok (a : arch) b data st :
  a <> LA64 -> boot_ok b -> boot_map_ok b ->
  exists h, MmInitialize a b data st = Some h /\ heap_ok a h /\ live a h = ∅.
Proof.
  intros Ha Hb Hm. unfold MmInitialize.
  destruct (PmmInitialize_total a b st Ha Hb Hm) as (p & -> & Hp & _).
  eexists. split; [done|]. split; [by apply heap_start_ok|].
  unfold live, blocks_of, heap_start. cbn [hdrs]. by rewrite map_size_empty.
Qed.

(** ** Concrete runs on the small machine *)

Definition small_heap : heap pmm := heap_start (fun _ => 0) small_pmm.

Lemma small_heap_ok a : heap_ok a small_heap.
Proof. apply heap_start_ok. exact small_pmm_inv. Qed.

(** The pointer and the heap of a successful allocation. *)
Definition result {P} (r : option (Z * heap P)) : Z := match r with Some (p, _) => p | None => -1 end.
Definition after {P} (st : heap P) (r : option (Z * heap P)) : heap P :=
  match r with Some (_, st') => st' | None => st end.

Lemma kmalloc_correct_witness :
  kmalloc X86 100 small_heap = Some (1048588, after small_heap (kmalloc X86 100 small_heap)) /\
  live X86 (after small_heap (kmalloc X86 100 small_heap)) !! 1048588 = Some 104.
Proof.
  destruct (kmalloc_correct X86 100 small_heap (small_heap_ok X86) ltac:(unfold is_u32; lia))
    as (p & st' & E & _ & _ & _ & H).
  assert (result (kmalloc X86 100 small_heap) = 1048588) as Hp by (vm_compute; reflexivity).
  assert (live X86 (after small_heap (kmalloc X86 100 small_heap)) !! 1048588 = Some 104) as Hl
    by (vm_compute; reflexivity).
  rewrite E in *. cbn [result] in Hp. subst p. destruct (H ltac:(lia)) as (cap & _ & _ & _ & _ & _).
  split; [reflexivity | exact Hl].
Defined.

Definition one_block : heap pmm := after small_heap (kmalloc X86 100 small_heap).

Lemma one_block_ok : heap_ok X86 one_block /\ live X86 one_block !! 1048588 = Some 104.
Proof.
  split; [|vm_compute; reflexivity]. unfold one_block.
  destruct (kmalloc_spec X86 100 small_heap (small_heap_ok X86) ltac:(unfold is_u32; lia))
    as (p & st' & -> & (Hok & _) & _). exact Hok.
Qed.

Lemma kfree_correct_witness :
  exists st', kfree X86 1048588 one_block = Some st' /\ coalesced X86 (blocks_of st').
Proof.
  destruct one_block_ok as [Hok Hl].
  destruct (kfree_correct X86 1048588 one_block Hok) as (st' & E & _ & _ & _ & Hc).
  exists st'. split; [exact E|]. apply Hc. rewrite Hl. by eexists.
Defined.

Lemma realloc_correct_witness :
  exists q st', realloc X86 1048588 200 one_block = Some (q, st') /\ q = 1048704.
Proof.
  destruct one_block_ok as [Hok Hl].
  destruct (realloc_correct X86 1048588 104 200 one_block Hok Hl ltac:(lia)) as (q & st' & E & _ & _).
  exists q, st'. split; [exact E|].
  assert (result (realloc X86 1048588 200 one_block) = 1048704) as Hq by (vm_compute; reflexivity).
  by rewrite E in Hq.
Defined.

Lemma calloc_correct_witness :
  exists p st', calloc X86 10 20 small_heap = Some (p, st') /\ p <> 0 /\ bytes st' p = 0.
Proof.
  destruct (calloc_correct X86 10 20 small_heap (small_heap_ok X86)
    ltac:(unfold is_u32; lia) ltac:(unfold is_u32; lia)) as (p & st' & E & _ & _ & _ & H).
  exists p, st'. split; [exact E|].
  assert (result (calloc X86 10 20 small_heap) = 1048588) as Hp by (vm_compute; reflexivity).
  rewrite E in Hp. cbn [result] in Hp. subst p. split; [lia|].
  destruct (H ltac:(lia)) as (cap & _ & _ & _ & Hb). rewrite Hb. reflexivity.
Defined.

Lemma kmalloc_wrap_undersized_witness :
  exists p st' cap, kmalloc X86 4294967295 small_heap = Some (p, st') /\ p <> 0 /\
    live X86 st' !! p = Some cap /\ cap <= 28.
Proof.
  destruct (kmalloc_wrap_undersized X86 4294967295 small_heap (small_heap_ok X86) ltac:(lia))
    as (p & st' & E & H).
  assert (result (kmalloc X86 4294967295 small_heap) = 1048588) as Hp by (vm_compute; reflexivity).
  rewrite E in Hp. cbn [result] in Hp. subst p.
  destruct (H ltac:(lia)) as (cap & Hl & Hc). exists 1048588, st', cap.
  split; [exact E|]. split; [lia|]. split; [exact Hl | exact Hc].
Defined.

Lemma kmalloc_huge_exhausts_witness :
  exists st', kmalloc X86 4294967280 small_heap = Some (0, st') /\
    free_pages (pages small_heap) = 64 /\ free_pages (pages st') = 0.
Proof.
  destruct (kmalloc_huge_exhausts X86 4294967280 small_heap (small_heap_ok X86) ltac:(lia))
    as (st' & E & _ & _).
  exists st'. split; [exact E|]. split; [vm_compute; reflexivity|].
  assert (free_pages (pages (after small_heap (kmalloc X86 4294967280 small_heap))) = 0) as H
    by (vm_compute; reflexivity).
  by rewrite E in H.
Defined.

Lemma heap_statistics_correct_witness :
  exists v, MmGetHeapUsed one_block = Some v /\ v = 104.
Proof.
  destruct (heap_statistics_correct X86 one_block (proj1 one_block_ok)) as ((v & E & _) & _).
  exists v. split; [exact E|].
  assert (MmGetHeapUsed one_block = Some 104) as H by (vm_compute; reflexivity). congruence.
Defined.

End Mm.

(** * The contract the executive components rely on *)

(** A kernel heap as its clients see it: pointers with capacities, an
    allocation that returns 0 or a new pointer, a release. *)
Class KernelHeap (H : Type) := {
  kh_ok : H -> Prop;
  kh_live : H -> gmap Z Z;
  kh_malloc : Z -> H -> option (Z * H);
  kh_free : Z -> H -> option H;
  kh_malloc_spec : forall h n, kh_ok h -> 0 < n <= 4294963168 ->
    exists p h', kh_malloc n h = Some (p, h') /\ kh_ok h' /\
      ((p = 0 /\ kh_live h' = kh_live h) \/
       (0 < p < 4294967296 /\ kh_live h !! p = None /\
        exists cap, n <= cap /\ kh_live h' = <[p := cap]> (kh_live h)));
  kh_free_spec : forall h p, kh_ok h ->
    exists h', kh_free p h = Some h' /\ kh_ok h' /\ kh_live h' = delete p (kh_live h);
  kh_live_null : forall h, kh_ok h -> kh_live h !! 0 = None;
  kh_live_bounds : forall h p cap, kh_ok h -> kh_live h !! p = Some cap ->
    0 < p /\ 0 <= cap /\ p + cap <= 4294967296
}.

(** [mm.c] over any page allocator keeps it. *)
#[export] Instance mm_heap {P} `{!PageAllocator P} (a : arch) : KernelHeap (Mm.heap P).
Proof.
  refine {| kh_ok := Mm.heap_ok a; kh_live := Mm.live a;
            kh_malloc := Mm.kmalloc a; kh_free := Mm.kfree a |}.
  - intros h n Hok Hn.
    destruct (Mm.kmalloc_spec a n h Hok ltac:(unfold is_u32; lia)) as (p & h' & E & (Hok' & _ & Hc) & _).
    exists p, h'. split; [done|]. split; [done|].
    destruct Hc as [[-> Hl] | (cap & Hne & Hnone & Hl & Hcap)]; [by left|]. right.
    assert (Mm.live a h' !! p = Some cap) as Hlp by (by rewrite Hl, lookup_insert_eq).
    pose proof (Mm.live_bounds a _ _ _ Hok' Hlp) as Hb.
    pose proof (Mm.MmAlignUp_ge n ltac:(lia)) as [Hge _].
    pose proof (Mm.hdr_range a). unfold PMM_PAGE_SIZE in Hb.
    split; [lia|]. split; [done|]. exists cap. split; [lia | done].
  - intros h p Hok. destruct (Mm.kfree_spec a p h Hok) as (h' & ? & ? & _ & _ & ? & _). by exists h'.
  - intros h Hok. rewrite eq_None_not_Some. intros [s Hs]. apply (Mm.live_bounds a _ _ _ Hok) in Hs.
    pose proof (Mm.hdr_range a). unfold PMM_PAGE_SIZE in Hs. lia.
  - intros h p cap Hok Hs. apply (Mm.live_bounds a _ _ _ Hok) in Hs.
    pose proof (Mm.hdr_range a). unfold PMM_PAGE_SIZE in Hs. lia.
Defined.
