(* ===== verification/Sim.v ===== *)
(** * A second, minimal heap

    The components that allocate are proved against [KernelHeap], not against
    mm.c.  [fresh_heap] is the least that keeps that contract: every block is
    cut above the last one and releasing only forgets.  The concrete machines
    that the larger examples run on use it. *)

From stdpp Require Import base list numbers gmap.
From Stdlib Require Import ZArith Lia.
From S2P Require Import Prelude.
From S2P Require Import Pmm.
From S2P Require Import Vmm.
From S2P Require Import Mm.

Record fresh := mkFresh { break : Z; blocks : gmap Z Z }.

Definition fresh_ok (h : fresh) : Prop :=
  0 < break h <= 4294967296 /\
  forall p cap, blocks h !! p = Some cap -> 0 < p /\ 0 <= cap /\ p + cap <= break h /\ p < break h.

Definition fresh_malloc (n : Z) (h : fresh) : option (Z * fresh) :=
  if break h + n <=? 4294967296
  then Some (break h, mkFresh (break h + n) (<[break h := n]> (blocks h)))
  else Some (0, h).

#[export] Instance fresh_heap : KernelHeap fresh.
Proof.
  refine {| kh_ok := fresh_ok; kh_live := blocks; kh_malloc := fresh_malloc;
            kh_free := fun p h => Some (mkFresh (break h) (delete p (blocks h))) |}.
  - intros h n [Hb Hl] Hn. unfold fresh_malloc. destruct (Z.leb_spec (break h + n) 4294967296).
    + eexists _, _. split; [reflexivity|]. split.
      * split; cbn; [lia|]. intros p cap [[<- <-] | [Hne Hp]]%lookup_insert_Some; [lia|].
        apply Hl in Hp. lia.
      * right. split; [lia|]. split; [|exists n; split; [lia | done]].
        rewrite eq_None_not_Some. intros [c Hc]. apply Hl in Hc. lia.
    + eexists _, _. split; [reflexivity|]. split; [done | by left].
  - intros h p [Hb Hl]. eexists. split; [reflexivity|]. split; [|done]. split; [done|].
    cbn. intros q cap [_ Hq]%lookup_delete_Some. by apply Hl.
  - intros h [_ Hl]. rewrite eq_None_not_Some. intros [c Hc]. apply Hl in Hc. lia.
  - intros h p cap [Hb Hl] Hp. apply Hl in Hp. lia.
Defined.

Definition fresh_start : fresh := mkFresh 65536 ∅.

Lemma fresh_start_ok : kh_ok fresh_start.
Proof. split; [done|]. intros p cap. cbn. by rewrite lookup_empty. Qed.
