(* ===== verification/RtlPath.v ===== *)
(** * kernel/rtl/rtlpath.c: path parsing and normalisation

    Paths are C strings (lists of non-NUL bytes); an optional string is a
    pointer that may be null.  An output buffer is represented by the bytes
    written to it, last one first, so that [output[length - 1]] is the head of
    the list and [length--] its tail. *)

From stdpp Require Import base list numbers strings.
From Stdlib Require Import ZArith Lia.
From S2P Require Import Prelude.

Module RtlPath.

Definition SLASH : Z := 47.
Definition BACKSLASH : Z := 92.
Definition DOT : Z := 46.

Definition RtlIsPathSeparator (ch : Z) : bool := (ch =? SLASH) || (ch =? BACKSLASH).

Fixpoint skip_separators (path : list Z) : list Z :=
  match path with
  | c :: path' => if RtlIsPathSeparator c then skip_separators path' else path
  | [] => []
  end.

(** The three results of [RtlNextPathComponent]: -1, 0 with the cursor at the
    end, and 1 with the component and the advanced cursor. *)
Inductive next_result :=
| NextError
| NextEnd (cursor : list Z)
| NextName (component cursor : list Z).

(** The loop copying bytes up to a separator or the end, with the capacity test;
    [length] counts the bytes copied so far. *)
Fixpoint copy_component (path : list Z) (length capacity : Z) : option (list Z * list Z) :=
  match path with
  | [] => Some ([], [])
  | c :: path' =>
      if RtlIsPathSeparator c then Some ([], path)
      else if capacity <=? length + 1 then None
      else match copy_component path' (length + 1) capacity with
           | Some (name, rest) => Some (c :: name, rest)
           | None => None
           end
  end.

Definition RtlNextPathComponent (cursor : option (list Z)) (component_ok : bool) (capacity : Z)
  : next_result :=
  match cursor with
  | None => NextError
  | Some path =>
      if negb component_ok || (capacity =? 0) then NextError else
      let path := skip_separators path in
      match path with
      | [] => NextEnd path
      | _ =>
          match copy_component path 0 capacity with
          | None => NextError
          | Some (name, rest) => NextName name (skip_separators rest)
          end
      end
  end.

(** The three [length--] steps of the ".." case. *)
Definition pop_slash (floor : nat) (out : list Z) : list Z :=
  match out with
  | c :: out' => if (floor <? length out)%nat && (c =? SLASH) then out' else out
  | [] => []
  end.

Fixpoint pop_name (floor : nat) (out : list Z) : list Z :=
  match out with
  | c :: out' => if (floor <? length out)%nat && negb (c =? SLASH) then pop_name floor out' else out
  | [] => []
  end.

Definition pop_component (floor : nat) (out : list Z) : list Z :=
  pop_slash floor (pop_name floor (pop_slash floor out)).

(** Appending a component, with the separator when one is needed. *)
Definition append_component (component : list Z) (capacity : Z) (out : list Z) : option (list Z) :=
  match (match out with
         | c :: _ => if negb (c =? SLASH)
                     then if capacity <=? Z.of_nat (length out) + 1 then None
                          else Some (SLASH :: out)
                     else Some out
         | [] => Some out
         end) with
  | None => None
  | Some out =>
      if capacity <=? Z.of_nat (length out) + Z.of_nat (length component) then None
      else Some (rev component ++ out)
  end.

Definition is_dot (component : list Z) : bool := bool_decide (component = [DOT]).
Definition is_dotdot (component : list Z) : bool := bool_decide (component = [DOT; DOT]).

(** The main loop; every turn consumes a component, so the length of the path
    bounds it. *)
Fixpoint normalize_loop (fuel : nat) (absolute : bool) (capacity : Z) (cursor out : list Z)
  : option (list Z) :=
  match fuel with
  | O => None
  | S fuel' =>
      match RtlNextPathComponent (Some cursor) true 256 with
      | NextError => None
      | NextEnd _ => Some out
      | NextName component cursor =>
          let floor := if absolute then 1%nat else 0%nat in
          if is_dot component then normalize_loop fuel' absolute capacity cursor out
          else if is_dotdot component && (floor <? length out)%nat
          then normalize_loop fuel' absolute capacity cursor (pop_component floor out)
          else if is_dotdot component && absolute
          then normalize_loop fuel' absolute capacity cursor out
          else match append_component component capacity out with
               | None => None
               | Some out => normalize_loop fuel' absolute capacity cursor out
               end
      end
  end.

(** [Some s]: the function returns [length s] and the output holds [s];
    [None]: it returns -1. *)
Definition RtlNormalizePath (path : option (list Z)) (output_ok : bool) (capacity : Z)
  : option (list Z) :=
  match path with
  | None => None
  | Some path =>
      if negb output_ok || (capacity <? 2) then None else
      let absolute := RtlIsPathSeparator (char_at path 0) in
      let out := if absolute then [SLASH] else [] in
      match normalize_loop (S (length path)) absolute capacity path out with
      | None => None
      | Some [] => Some [if absolute then SLASH else DOT]
      | Some out => Some (rev out)
      end
  end.

Definition sizeof_combined : Z := 512.

Definition RtlJoinPath (base name : option (list Z)) (output_ok : bool) (capacity : Z)
  : option (list Z) :=
  match base, name with
  | Some base, Some name =>
      if negb output_ok || (capacity =? 0) then None else
      if RtlIsPathSeparator (char_at name 0) then RtlNormalizePath (Some name) output_ok capacity else
      (* the copy loop stops at 511 bytes, then base[length] must be the NUL *)
      if sizeof_combined <=? Z.of_nat (length base) then None else
      let combined := base in
      match (match last combined with
             | Some c => if negb (RtlIsPathSeparator c)
                         then if sizeof_combined <=? Z.of_nat (length combined) + 1 then None
                              else Some (combined ++ [SLASH])
                         else Some combined
             | None => Some combined
             end) with
      | None => None
      | Some combined =>
          (* one test per byte of [name]; the last byte's test decides *)
          if negb (bool_decide (name = [])) &&
             (sizeof_combined <=? Z.of_nat (length combined) + Z.of_nat (length name))
          then None
          else RtlNormalizePath (Some (combined ++ name)) output_ok capacity
      end
  | _, _ => None
  end.

(** The suffix after the last separator. *)
Fixpoint filename_loop (path name : list Z) : list Z :=
  match path with
  | [] => name
  | c :: path' => filename_loop path' (if RtlIsPathSeparator c then path' else name)
  end.

Definition RtlPathFileName (path : option (list Z)) : option (list Z) :=
  match path with None => None | Some p => Some (filename_loop p p) end.

(** [dot] of the scan: the index of the last '.' at or after [name_at]. *)
Fixpoint dot_loop (path : list Z) (i name_at dot : Z) : Z :=
  match path with
  | [] => dot
  | c :: path' =>
      dot_loop path' (i + 1) name_at (if (name_at <=? i) && (c =? DOT) then i else dot)
  end.

Definition RtlReplacePathExtension (path extension : option (list Z)) (output_ok : bool)
  (capacity : Z) : option (list Z) :=
  match path, extension with
  | Some path, Some extension =>
      if negb output_ok || (capacity =? 0) then None else
      let name_at := Z.of_nat (length path) - Z.of_nat (length (filename_loop path path)) in
      let length_ := Z.of_nat (length path) in
      let dot := dot_loop path 0 name_at 0 in
      let dot := if (dot =? 0) || (dot <? name_at) then length_ else dot in
      if capacity <? u32 (dot + Z.of_nat (length extension) + 1) then None
      else Some (take (Z.to_nat dot) path ++ extension)
  | _, _ => None
  end.

(** ** Reference semantics: a stack of components *)

Definition plain (c : Z) : Prop := RtlIsPathSeparator c = false.

Definition name_ok (c : list Z) : Prop := c <> [] /\ Forall plain c.

Fixpoint split_path (cur p : list Z) : list (list Z) :=
  match p with
  | [] => match cur with [] => [] | _ => [rev cur] end
  | c :: p' =>
      if RtlIsPathSeparator c
      then match cur with [] => split_path [] p' | _ => rev cur :: split_path [] p' end
      else split_path (c :: cur) p'
  end.

(** The non-empty names between separators. *)
Definition components (p : list Z) : list (list Z) := split_path [] p.

(** One component resolved against the names so far, innermost first; above
    the root ".." stays at the root, above a relative start it is kept as a
    name. *)
Definition resolve1 (absolute : bool) (stk : list (list Z)) (c : list Z) : list (list Z) :=
  if is_dot c then stk
  else if is_dotdot c then
    match stk with
    | [] => if absolute then [] else [c]
    | _ :: stk' => stk'
    end
  else c :: stk.

(** The buffer that spells a stack, last byte first. *)
Fixpoint render (absolute : bool) (stk : list (list Z)) : list Z :=
  match stk with
  | [] => if absolute then [SLASH] else []
  | [c] => rev c ++ (if absolute then [SLASH] else [])
  | c :: stk' => rev c ++ SLASH :: render absolute stk'
  end.

Definition spell (absolute : bool) (stk : list (list Z)) : list Z :=
  match render absolute stk with [] => [DOT] | out => rev out end.

(** Resolving all components, failing on a name of 256 bytes or more and when
    an intermediate path reaches the capacity. *)
Fixpoint resolve (absolute : bool) (capacity : Z) (stk cs : list (list Z))
  : option (list (list Z)) :=
  match cs with
  | [] => Some stk
  | c :: cs' =>
      if 256 <=? Z.of_nat (length c) then None else
      let stk' := resolve1 absolute stk c in
      if (length stk <? length stk')%nat &&
         (capacity <=? Z.of_nat (length (render absolute stk'))) then None
      else resolve absolute capacity stk' cs'
  end.

(** ** Components *)

Lemma components_skip p : components (skip_separators p) = components p.
Proof.
  induction p as [|c p IH]; cbn [skip_separators]; [done|].
  destruct (RtlIsPathSeparator c) eqn:E; [|done]. rewrite IH. unfold components. cbn. by rewrite E.
Qed.

Lemma skip_length p : (length (skip_separators p) <= length p)%nat.
Proof. induction p as [|c p IH]; cbn; [done|]. destruct (RtlIsPathSeparator c); cbn; lia. Qed.

Definition at_boundary (rest : list Z) : Prop :=
  match rest with [] => True | c :: _ => RtlIsPathSeparator c = true end.

Lemma split_path_name cur w rest :
  Forall plain w -> at_boundary rest -> cur ++ w <> [] ->
  split_path cur (w ++ rest) = (rev cur ++ w) :: components rest.
Proof.
  intros Hw Hr. revert cur. induction Hw as [|c w Hc _ IH]; intros cur Hne; cbn [app split_path].
  - rewrite app_nil_r in *. unfold components. destruct cur as [|x cur]; [done|].
    destruct rest as [|c rest]; cbn [split_path at_boundary] in *; [done | by rewrite Hr].
  - rewrite Hc, IH by (by destruct cur). cbn [rev]. by rewrite <- app_assoc.
Qed.

Lemma copy_component_spec p len cap :
  (exists w rest, p = w ++ rest /\ Forall plain w /\ at_boundary rest /\
     ((copy_component p len cap = Some (w, rest) /\ (w = [] \/ len + Z.of_nat (length w) < cap)) \/
      (copy_component p len cap = None /\ w <> [] /\ cap <= len + Z.of_nat (length w)))).
Proof.
  revert len. induction p as [|c p IH]; intros len; cbn [copy_component].
  - exists [], []. repeat split; try done. left. split; [done | by left].
  - destruct (RtlIsPathSeparator c) eqn:E.
    + exists [], (c :: p). repeat split; try done. left. split; [done | by left].
    + destruct (IH (len + 1)) as (w & rest & -> & Hw & Hr & Hcase).
      exists (c :: w), rest. split; [done|]. split; [by constructor|]. split; [done|].
      destruct (Z.leb_spec cap (len + 1)) as [Hle|Hlt].
      { right. split; [done|]. split; [done|]. cbn [length]. lia. }
      destruct Hcase as [[-> Hfit] | (-> & Hne & Hle)].
      * left. split; [done|]. right. cbn [length]. destruct Hfit as [->|]; cbn [length] in *; lia.
      * right. split; [done|]. split; [done|]. cbn [length]. lia.
Qed.

Lemma next_spec p cap :
  1 <= cap ->
  match RtlNextPathComponent (Some p) true cap with
  | NextEnd _ => components p = []
  | NextName c rest => components p = c :: components rest /\ name_ok c /\
      Z.of_nat (length c) < cap /\ (length rest < length p)%nat
  | NextError => exists c cs, components p = c :: cs /\ cap <= Z.of_nat (length c)
  end.
Proof.
  intros Hcap. unfold RtlNextPathComponent. cbn [negb orb].
  rewrite (proj2 (Z.eqb_neq cap 0)) by lia. cbv zeta.
  rewrite <- (components_skip p). pose proof (skip_length p) as Hlen.
  destruct (skip_separators p) as [|c q] eqn:Es; [done|].
  assert (RtlIsPathSeparator c = false) as Hc.
  { clear -Es. induction p as [|d p IH]; cbn in Es; [done|].
    destruct (RtlIsPathSeparator d) eqn:Ed; [auto | congruence]. }
  destruct (copy_component_spec (c :: q) 0 cap) as (w & rest & Hp & Hw & Hr & Hcase).
  assert (w <> []) as Hne.
  { intros ->. cbn in Hp. subst rest. cbn in Hr. congruence. }
  assert (components (c :: q) = w :: components rest) as Hcomp.
  { unfold components at 1. rewrite Hp. rewrite split_path_name; done. }
  destruct Hcase as [[-> Hfit] | (-> & _ & Hle)].
  - rewrite components_skip. split; [done|]. split; [done|].
    split; [destruct Hfit; [done | lia]|].
    pose proof (skip_length rest). rewrite Hp, length_app in Hlen. destruct w; [done|]. cbn in *. lia.
  - rewrite Hcomp. by exists w, (components rest).
Qed.

(** ** The buffer operations on rendered stacks *)

Lemma render_cons (absolute : bool) c stk :
  render absolute (c :: stk) =
  rev c ++ match stk with [] => if absolute then [SLASH] else [] | _ => SLASH :: render absolute stk end.
Proof. by destruct stk. Qed.

Lemma plain_not_slash c : plain c -> (c =? SLASH) = false.
Proof. unfold plain, RtlIsPathSeparator. intros H. by apply orb_false_iff in H as [? _]. Qed.

Lemma name_ok_rev c : name_ok c -> exists x t, rev c = x :: t /\ (x =? SLASH) = false /\
  Forall (fun y => (y =? SLASH) = false) t.
Proof.
  intros [Hne Hp]. apply Forall_rev in Hp.
  destruct (rev c) as [|x t] eqn:E.
  - apply (f_equal (@rev Z)) in E. rewrite rev_involutive in E. done.
  - apply Forall_cons in Hp as [Hx Ht]. exists x, t. split; [done|].
    split; [by apply plain_not_slash|]. eapply Forall_impl; [exact Ht|]. apply plain_not_slash.
Qed.

Lemma pop_name_app floor t out :
  Forall (fun y => (y =? SLASH) = false) t -> (floor <= length out)%nat ->
  pop_name floor (t ++ out) = pop_name floor out.
Proof.
  intros Ht Hf. induction Ht as [|y t Hy _ IH]; [done|]. cbn [app pop_name].
  rewrite Hy. cbn [negb length]. rewrite andb_true_r.
  destruct (Nat.ltb_spec floor (S (length (t ++ out)))) as [_|Hge]; [exact IH|].
  rewrite length_app in Hge. lia.
Qed.

Lemma pop_component_render (absolute : bool) c stk :
  name_ok c -> Forall name_ok stk ->
  pop_component (if absolute then 1%nat else 0%nat) (render absolute (c :: stk)) = render absolute stk.
Proof.
  intros Hc Hs. destruct (name_ok_rev c Hc) as (x & t & E & Hx & Ht).
  rewrite render_cons, E. unfold pop_component. cbn [app pop_slash].
  rewrite Hx, andb_false_r.
  change (x :: t ++ ?o) with ((x :: t) ++ o).
  rewrite pop_name_app; [| by constructor | destruct stk, absolute; cbn; lia].
  destruct stk as [|d stk]; [by destruct absolute|].
  set (r := render absolute (d :: stk)).
  assert ((if absolute then 1 else 0) < length (SLASH :: r))%nat as Hlen.
  { destruct (name_ok_rev d) as (y & u & E2 & _); [by apply Forall_cons in Hs as [? _]|].
    subst r. rewrite render_cons, E2. cbn. destruct absolute; lia. }
  cbn [pop_name pop_slash]. rewrite Z.eqb_refl, andb_false_r. cbn [pop_slash].
  by rewrite (proj2 (Nat.ltb_lt _ _) Hlen), Z.eqb_refl.
Qed.

Lemma append_component_render (absolute : bool) capacity c stk :
  name_ok c -> Forall name_ok stk ->
  append_component c capacity (render absolute stk) =
  if capacity <=? Z.of_nat (length (render absolute (c :: stk))) then None
  else Some (render absolute (c :: stk)).
Proof.
  intros Hc Hs. rewrite render_cons, length_app, length_rev. unfold append_component.
  assert (0 < length c)%nat by (destruct Hc; destruct c; cbn; [done | lia]).
  destruct stk as [|d stk].
  - destruct absolute; cbn [render]; [rewrite Z.eqb_refl; cbn [negb]|];
      cbn [length]; rewrite Nat2Z.inj_add, Z.add_comm; done.
  - destruct (name_ok_rev d) as (y & u & E2 & Hy & _); [by apply Forall_cons in Hs as [? _]|].
    set (r := render absolute (d :: stk)).
    assert (exists r', r = y :: r') as [r' Er] by (subst r; rewrite render_cons, E2; by eexists).
    rewrite Er, Hy. cbn [negb]. rewrite <- Er.
    cbn [length]. destruct (Z.leb_spec capacity (Z.of_nat (length r) + 1)).
    + rewrite (proj2 (Z.leb_le _ _)); [done | lia].
    + rewrite <- Nat2Z.inj_add, Nat.add_comm. done.
Qed.

Lemma render_floor (absolute : bool) stk :
  Forall name_ok stk ->
  ((if absolute then 1 else 0) <? length (render absolute stk))%nat =
  match stk with [] => false | _ => true end.
Proof.
  intros Hs. destruct stk as [|c stk]; [by destruct absolute|]. apply Nat.ltb_lt.
  destruct (name_ok_rev c) as (x & t & E & _); [by apply Forall_cons in Hs as [? _]|].
  rewrite render_cons, E. destruct stk, absolute; cbn; rewrite ?length_app; cbn; lia.
Qed.

Lemma resolve1_ok (absolute : bool) stk c :
  name_ok c -> Forall name_ok stk -> Forall name_ok (resolve1 absolute stk c).
Proof.
  intros Hc Hs. unfold resolve1. destruct (is_dot c); [done|]. destruct (is_dotdot c).
  - destruct Hs; [|done]. destruct absolute; [done | by constructor].
  - by constructor.
Qed.

Lemma normalize_loop_spec fuel (absolute : bool) capacity p stk :
  Forall name_ok stk -> (length p < fuel)%nat ->
  normalize_loop fuel absolute capacity p (render absolute stk) =
  render absolute <$> resolve absolute capacity stk (components p).
Proof.
  revert p stk. induction fuel as [|fuel IH]; intros p stk Hs Hf; [lia|].
  cbn [normalize_loop]. pose proof (next_spec p 256 ltac:(lia)) as Hn.
  destruct (RtlNextPathComponent (Some p) true 256) as [|e|c rest].
  - destruct Hn as (c & cs & -> & Hlen). cbn. by rewrite (proj2 (Z.leb_le _ _) Hlen).
  - by rewrite Hn.
  - destruct Hn as (-> & Hc & Hlen & Hrest). cbn [resolve].
    rewrite (proj2 (Z.leb_gt _ _) Hlen). pose proof (resolve1_ok absolute stk c Hc Hs) as Hs'.
    unfold resolve1 in *. cbv zeta.
    destruct (is_dot c); [rewrite Nat.ltb_irrefl; cbn [andb]; apply IH; [done | lia]|].
    destruct (is_dotdot c); cbn [andb].
    + rewrite render_floor by done. destruct stk as [|d stk]; cbn [andb].
      * destruct absolute; cbn [length Nat.ltb Nat.leb andb].
        -- apply IH; [done | lia].
        -- rewrite append_component_render by done.
           destruct (capacity <=? _); [done|]. apply IH; [done | lia].
      * apply Forall_cons in Hs as [Hd Hs]. rewrite pop_component_render by done.
        rewrite (proj2 (Nat.ltb_ge _ _)) by (cbn; lia). cbn [andb]. apply IH; [done | lia].
    + rewrite append_component_render by done.
      rewrite (proj2 (Nat.ltb_lt _ _)) by (cbn; lia). cbn [andb].
      destruct (capacity <=? _); [done|]. apply IH; [done | lia].
Qed.

Lemma RtlNormalizePath_spec p capacity :
  2 <= capacity ->
  let absolute := RtlIsPathSeparator (char_at p 0) in
  RtlNormalizePath (Some p) true capacity =
  spell absolute <$> resolve absolute capacity [] (components p).
Proof.
  intros Hc. cbv zeta. unfold RtlNormalizePath. cbn [negb orb].
  rewrite (proj2 (Z.ltb_ge capacity 2)) by lia.
  set (absolute := RtlIsPathSeparator (char_at p 0)).
  change (if absolute then [SLASH] else []) with (render absolute []).
  rewrite normalize_loop_spec by (done || lia).
  destruct (resolve absolute capacity [] (components p)) as [stk|]; cbn; [|done].
  unfold spell. destruct (render absolute stk) eqn:E; [|done].
  destruct absolute; [|done]. exfalso. destruct stk as [|d stk]; [done|].
  rewrite render_cons in E. destruct (rev d), stk; done.
Qed.

(** ** Normalised paths *)

Definition real_name (c : list Z) : Prop := is_dot c = false /\ is_dotdot c = false.

Lemma split_path_snoc cur p c :
  name_ok c -> split_path cur (p ++ SLASH :: c) = split_path cur p ++ [c].
Proof.
  intros [Hne Hp]. assert (split_path [] c = [c]) as Hc.
  { pose proof (split_path_name [] c [] Hp I Hne) as H. by rewrite app_nil_r in H. }
  revert cur. induction p as [|x p IH]; intros cur.
  - cbn [app split_path]. change (RtlIsPathSeparator SLASH) with true. cbv iota. rewrite Hc.
    by destruct cur.
  - cbn [app split_path]. destruct (RtlIsPathSeparator x); [destruct cur|]; by rewrite IH.
Qed.

Lemma components_render stk :
  Forall name_ok stk -> components (rev (render true stk)) = rev stk.
Proof.
  induction 1 as [|c stk Hc _ IH]; [done|]. rewrite render_cons. cbn [rev].
  rewrite rev_app_distr, rev_involutive.
  replace (rev (match stk with [] => if true then [SLASH] else [] | _ :: _ => SLASH :: render true stk end)
           ++ c)
    with ((match stk with [] => [] | _ => rev (render true stk) end) ++ SLASH :: c)
    by (destruct stk; cbn [rev app]; rewrite <- ?app_assoc; done).
  unfold components in *. rewrite split_path_snoc by done. f_equal.
  destruct stk; [done | exact IH].
Qed.

Lemma render_grow absolute c stk :
  (length (render absolute stk) <= length (render absolute (c :: stk)))%nat.
Proof. rewrite render_cons, length_app. destruct stk; cbn; lia. Qed.

Lemma render_grow_app absolute l stk :
  (length (render absolute stk) <= length (render absolute (l ++ stk)))%nat.
Proof. induction l as [|c l IH]; [done|]. pose proof (render_grow absolute c (l ++ stk)). cbn [app]. lia. Qed.

Record resolved (capacity : Z) (stk : list (list Z)) : Prop := {
  rs_names : Forall name_ok stk;
  rs_real : Forall real_name stk;
  rs_short : Forall (fun c => Z.of_nat (length c) < 256) stk;
  rs_fits : Z.of_nat (length (render true stk)) < capacity
}.

Lemma resolve_resolved capacity stk cs stk' :
  Forall name_ok cs -> resolved capacity stk ->
  resolve true capacity stk cs = Some stk' -> resolved capacity stk'.
Proof.
  intros Hcs. revert stk. induction Hcs as [|c cs Hc _ IH]; intros stk Hs; cbn [resolve].
  { by intros [= <-]. }
  destruct (Z.leb_spec 256 (Z.of_nat (length c))) as [|Hlt]; [done|]. cbv zeta.
  destruct Hs as [H1 H2 H3 H4].
  destruct (is_dot c) eqn:Ed; [|destruct (is_dotdot c) eqn:Edd]; unfold resolve1; rewrite ?Ed, ?Edd.
  - rewrite Nat.ltb_irrefl. cbn [andb]. by apply IH.
  - destruct stk as [|d stk]; cbn [length].
    + rewrite Nat.ltb_irrefl. cbn [andb]. by apply IH.
    + rewrite (proj2 (Nat.ltb_ge _ _)) by lia. cbn [andb]. apply IH.
      apply Forall_cons in H1 as [? ?], H2 as [? ?], H3 as [? ?].
      pose proof (render_grow true d stk). split; [done | done | done | lia].
  - destruct (_ && _) eqn:E; [done|]. apply IH.
    cbn [length] in E. rewrite (proj2 (Nat.ltb_lt _ _)) in E by lia. cbn [andb] in E.
    apply Z.leb_gt in E. split; [by constructor .. | done].
Qed.

Lemma resolve_real capacity stk cs :
  Forall real_name cs -> Forall (fun c => Z.of_nat (length c) < 256) cs ->
  Z.of_nat (length (render true (rev cs ++ stk))) < capacity ->
  resolve true capacity stk cs = Some (rev cs ++ stk).
Proof.
  intros Hr. revert stk. induction Hr as [|c cs [Hd Hdd] _ IH]; intros stk Hs Hf; [done|].
  apply Forall_cons in Hs as [Hc Hs]. cbn [resolve rev].
  rewrite (proj2 (Z.leb_gt _ _) Hc). unfold resolve1. rewrite Hd, Hdd. cbv zeta.
  cbn [rev] in Hf. rewrite <- app_assoc in Hf |- *. cbn [app] in Hf |- *.
  pose proof (render_grow_app true (rev cs) (c :: stk)).
  rewrite (proj2 (Z.leb_gt capacity _)) by lia. rewrite andb_false_r. by apply IH.
Qed.

Lemma components_ok p : Forall name_ok (components p).
Proof.
  unfold components.
  assert (forall cur, Forall plain cur -> Forall name_ok (split_path cur p)) as H; [|by apply H].
  assert (forall cur, cur <> [] -> Forall plain cur -> name_ok (rev cur)) as Hrev.
  { intros cur Hne Hp. split; [|by apply Forall_rev].
    intros E. apply (f_equal (@rev Z)) in E. by rewrite rev_involutive in E. }
  induction p as [|c p IH]; intros cur Hc; cbn [split_path].
  - destruct cur; [done|]. apply Forall_cons. split; [by apply Hrev | done].
  - destruct (RtlIsPathSeparator c) eqn:E; [|apply IH; by constructor].
    destruct cur; [by apply IH|]. apply Forall_cons. split; [by apply Hrev | by apply IH].
Qed.

Lemma render_true_head stk : exists t, rev (render true stk) = SLASH :: t.
Proof.
  induction stk as [|c stk [t IH]]; [by exists []|]. rewrite render_cons, rev_app_distr, rev_involutive.
  destruct stk; [by exists c|]. cbn [rev]. rewrite IH. by eexists.
Qed.

(** C37. [RtlNormalizePath] computes the stack resolution of its path: for
    every path and capacity of at least 2 it returns exactly the spelling of
    the components resolved one by one ("." dropped, ".." removing the
    innermost name, kept at an absolute root), and fails exactly when a
    component has 256 bytes or more or an intermediate path does not fit the
    capacity with its terminator. *)
Theorem RtlNormalizePath_reference (p : list Z) (capacity : Z) :
  2 <= capacity ->
  RtlNormalizePath (Some p) true capacity =
  spell (RtlIsPathSeparator (char_at p 0)) <$>
    resolve (RtlIsPathSeparator (char_at p 0)) capacity [] (components p).
Proof. apply RtlNormalizePath_spec. Qed.

Lemma RtlNormalizePath_reference_witness :
  RtlNormalizePath (Some (cstr "\WINDOWS\.\temp\..//SYSTEM32/")) true 256 =
  Some (cstr "/WINDOWS/SYSTEM32").
Proof. rewrite RtlNormalizePath_reference by lia. reflexivity. Defined.

(** Absolute paths are normalised once and for all and cannot climb out of
    the root: the result starts with '/', fits the buffer with its NUL,
    contains no "." or ".." component, and normalising it again returns it
    unchanged. *)
Theorem RtlNormalizePath_absolute (p s : list Z) (capacity : Z) :
  2 <= capacity -> RtlIsPathSeparator (char_at p 0) = true ->
  RtlNormalizePath (Some p) true capacity = Some s ->
  char_at s 0 = SLASH /\ Z.of_nat (length s) < capacity /\
  Forall real_name (components s) /\
  RtlNormalizePath (Some s) true capacity = Some s.
Proof.
  intros Hc Ha. rewrite RtlNormalizePath_spec, Ha by done.
  destruct (resolve true capacity [] (components p)) as [stk|] eqn:E; [|done].
  intros [= <-]. assert (resolved capacity stk) as [R1 R2 R3 R4].
  { eapply resolve_resolved; [apply components_ok | | exact E]. split; try done. cbn. lia. }
  destruct (render_true_head stk) as [t Ht].
  assert (spell true stk = rev (render true stk)) as Hsp.
  { unfold spell. destruct (render true stk); [by destruct stk|done]. }
  rewrite Hsp, Ht. split; [done|]. rewrite <- Ht. split; [by rewrite length_rev|].
  rewrite components_render by done. split; [by apply Forall_rev|].
  rewrite RtlNormalizePath_spec, Ht by done. cbn [char_at nth].
  change (RtlIsPathSeparator SLASH) with true. rewrite <- Ht, components_render by done.
  rewrite resolve_real.
  - rewrite rev_involutive, app_nil_r. cbn. by rewrite Hsp.
  - by apply Forall_rev.
  - by apply Forall_rev.
  - by rewrite rev_involutive, app_nil_r.
Qed.

Lemma RtlNormalizePath_absolute_witness :
  RtlNormalizePath (Some (cstr "/A/B")) true 16 = Some (cstr "/A/B").
Proof.
  apply (RtlNormalizePath_absolute (cstr "/../A/./B/C/..") (cstr "/A/B") 16); [lia | reflexivity..].
Defined.

(** Relative paths that climb more than one level lose their prefix: for
    every ordinary name [x], "../../x" normalises to "x", because the second
    ".." removes the ".." kept for the first as if it were a directory. *)
Theorem RtlNormalizePath_dotdot_lost (x : list Z) (capacity : Z) :
  name_ok x -> real_name x -> Z.of_nat (length x) < 256 -> 3 <= capacity ->
  Z.of_nat (length x) < capacity ->
  RtlNormalizePath (Some (cstr "../../" ++ x)) true capacity = Some x.
Proof.
  intros [Hne Hx] [Hd Hdd] Hl Hc Hfit. rewrite RtlNormalizePath_spec by lia.
  change (RtlIsPathSeparator (char_at (cstr "../../" ++ x) 0)) with false.
  assert (components (cstr "../../" ++ x) = [[DOT; DOT]; [DOT; DOT]; x]) as ->.
  { unfold components. cbn. pose proof (split_path_name [] x [] Hx I Hne) as H.
    rewrite app_nil_r in H. rewrite H. done. }
  cbn [resolve]. change (resolve1 false [] [DOT; DOT]) with [[DOT; DOT]].
  change (resolve1 false [[DOT; DOT]] [DOT; DOT]) with (@nil (list Z)). cbn -[Z.of_nat].
  rewrite (proj2 (Z.leb_gt capacity (Z.of_nat 2))) by lia. cbn -[Z.of_nat].
  rewrite (proj2 (Z.leb_gt 256 _)) by done. unfold resolve1. rewrite Hd, Hdd.
  cbn -[Z.of_nat]. rewrite app_nil_r, length_rev, (proj2 (Z.leb_gt 256 _)) by lia.
  rewrite (proj2 (Z.leb_gt capacity _)) by lia. cbn. unfold spell, render. rewrite app_nil_r. destruct (rev x) eqn:E; [|by rewrite <- E, rev_involutive].
  apply (f_equal (@rev Z)) in E. by rewrite rev_involutive in E.
Qed.

Lemma RtlNormalizePath_dotdot_lost_witness :
  RtlNormalizePath (Some (cstr "../../CONFIG")) true 64 = Some (cstr "CONFIG").
Proof.
  apply (RtlNormalizePath_dotdot_lost (cstr "CONFIG")); try (cbn; lia).
  - split; [discriminate | repeat constructor].
  - split; reflexivity.
Defined.

(** ** File names and extensions *)

Lemma filename_plain w n : Forall plain w -> filename_loop w n = n.
Proof. induction 1 as [|c w Hc _ IH]; cbn; [done|]. by rewrite Hc. Qed.

Lemma filename_dir d sep w n :
  RtlIsPathSeparator sep = true -> Forall plain w -> filename_loop (d ++ sep :: w) n = w.
Proof.
  intros Hs Hw. revert n. induction d as [|c d IH]; intros n; cbn.
  - rewrite Hs. by apply filename_plain.
  - apply IH.
Qed.

Lemma dot_loop_app p q i na d :
  dot_loop (p ++ q) i na d = dot_loop q (i + Z.of_nat (length p)) na (dot_loop p i na d).
Proof.
  revert i d. induction p as [|c p IH]; intros i d; cbn [app dot_loop length].
  - f_equal; lia.
  - rewrite IH. f_equal. lia.
Qed.

Lemma dot_loop_before p i na d : i + Z.of_nat (length p) <= na -> dot_loop p i na d = d.
Proof.
  revert i d. induction p as [|c p IH]; intros i d Hi; cbn [dot_loop]; [done|]. cbn [length] in Hi.
  rewrite (proj2 (Z.leb_gt na i)) by lia. cbn [andb]. apply IH. lia.
Qed.

Lemma dot_loop_nodot p i na d : Forall (fun c => c <> DOT) p -> dot_loop p i na d = d.
Proof.
  intros H. revert i. induction H as [|c p Hc _ IH]; intros i; cbn [dot_loop]; [done|].
  rewrite (proj2 (Z.eqb_neq _ _) Hc), andb_false_r. apply IH.
Qed.

(** A directory prefix: empty or ending in a separator. *)
Definition dir_prefix (dir : list Z) : Prop :=
  dir = [] \/ exists d sep, dir = d ++ [sep] /\ RtlIsPathSeparator sep = true.

Lemma filename_of dir w n :
  dir_prefix dir -> Forall plain w -> filename_loop (dir ++ w) (if bool_decide (dir = []) then w else n) = w.
Proof.
  intros [-> | (d & sep & -> & Hs)] Hw.
  - cbn. by apply filename_plain.
  - rewrite <- app_assoc. by apply filename_dir.
Qed.

(** [RtlReplacePathExtension] edits only the file name: for a directory
    prefix and a name [stem.old] whose last dot is the one shown it returns
    [dir/stem] followed by the new extension, for a name without a dot it
    appends the extension, and it fails exactly when the result and its NUL do
    not fit the capacity; dots in directory names are never touched. *)
Theorem RtlReplacePathExtension_correct (dir stem old ext : list Z) (capacity : Z) :
  dir_prefix dir -> Forall plain (stem ++ DOT :: old) -> Forall (fun c => c <> DOT) old ->
  dir ++ stem <> [] -> 0 < capacity ->
  Z.of_nat (length (dir ++ stem ++ DOT :: old)) + Z.of_nat (length ext) < 2147483648 ->
  RtlReplacePathExtension (Some (dir ++ stem ++ DOT :: old)) (Some ext) true capacity =
    (if capacity <? Z.of_nat (length (dir ++ stem ++ ext)) + 1 then None
     else Some (dir ++ stem ++ ext)) /\
  RtlReplacePathExtension (Some (dir ++ old)) (Some ext) true capacity =
    (if capacity <? Z.of_nat (length (dir ++ old ++ ext)) + 1 then None
     else Some (dir ++ old ++ ext)).
Proof.
  intros Hd Hp Ho Hne Hc Hl. unfold RtlReplacePathExtension. cbn [negb orb].
  rewrite (proj2 (Z.eqb_neq capacity 0)) by lia. cbv zeta.
  assert (Forall plain old) as Hpo.
  { apply Forall_app in Hp as [_ Hp]. by apply Forall_cons in Hp as [_ ?]. }
  assert (forall w, Forall plain w -> filename_loop (dir ++ w) (dir ++ w) = w) as Hfn.
  { intros w Hw. pose proof (filename_of dir w (dir ++ w) Hd Hw) as H.
    case_bool_decide as E; [by rewrite E in *|done]. }
  rewrite !Hfn by done. rewrite !length_app in *. cbn [length] in *.
  split.
  - assert (dot_loop (dir ++ stem ++ DOT :: old) 0
      (Z.of_nat (length dir + (length stem + S (length old))) - Z.of_nat (length stem + S (length old))) 0
      = Z.of_nat (length dir + length stem)) as ->.
    { rewrite !dot_loop_app. cbn [dot_loop]. rewrite dot_loop_nodot by done.
      rewrite (proj2 (Z.leb_le _ _)) by lia. rewrite Z.eqb_refl. cbn [andb]. lia. }
    rewrite (proj2 (Z.eqb_neq _ _)), (proj2 (Z.ltb_ge (Z.of_nat _) (_ - _))).
    + cbn [orb]. rewrite u32_small by (unfold is_u32; lia).
      replace (Z.of_nat (length dir + length stem) + Z.of_nat (length ext) + 1)
        with (Z.of_nat (length dir + (length stem + length ext)) + 1) by lia.
      rewrite Nat2Z.id, app_assoc, take_app_length', app_assoc by (by rewrite length_app). done.
    + lia.
    + intros H0. apply Hne. assert (length (dir ++ stem) = 0)%nat by (rewrite length_app; lia).
      by apply nil_length_inv.
  - assert (dot_loop (dir ++ old) 0
      (Z.of_nat (length dir + length old) - Z.of_nat (length old)) 0 = 0) as ->.
    { rewrite dot_loop_app, dot_loop_nodot by done. apply dot_loop_before. lia. }
    cbn [Z.eqb orb]. rewrite u32_small by (unfold is_u32; lia).
    replace (Z.of_nat (length dir + length old) + Z.of_nat (length ext) + 1)
      with (Z.of_nat (length dir + (length old + length ext)) + 1) by lia.
    rewrite Nat2Z.id, take_ge, app_assoc by (by rewrite length_app). done.
Qed.

Lemma RtlReplacePathExtension_correct_witness :
  RtlReplacePathExtension (Some (cstr "/SYS.DIR/APP.EXE")) (Some (cstr ".DLL")) true 64 =
  Some (cstr "/SYS.DIR/APP.DLL").
Proof.
  destruct (RtlReplacePathExtension_correct (cstr "/SYS.DIR/") (cstr "APP") (cstr "EXE") (cstr ".DLL") 64)
    as [H _]; try (cbn; lia).
  - right. exists (cstr "/SYS.DIR"), SLASH. split; reflexivity.
  - repeat constructor.
  - repeat (constructor; [discriminate|]). constructor.
  - discriminate.
  - exact H.
Defined.

End RtlPath.
