(* ===== verification/Ob.v ===== *)
(** * kernel/ob/object.c: the object manager

    The type registry, the global handle table and reference counting.  The
    state holds the two static tables, the OBJECT blocks by address, the kernel
    heap they and the bodies are allocated from (any heap that keeps the
    [KernelHeap] contract) and, opaquely, the rest of the kernel's memory.  A
    delete procedure is a code address; calling one is the argument [call] of
    [ObDereferenceObject].  [None] is a C undefined behaviour. *)

From stdpp Require Import base list numbers gmap strings.
From Stdlib Require Import ZArith Lia.
From S2P Require Import Prelude.
From S2P Require Import Util.
From S2P Require Import Pmm.
From S2P Require Import Vmm.
From S2P Require Import Mm.
Import Util Vmm.

Module Ob.

Definition MAX_OBJECTS : Z := 256.
Definition MAX_OBJECT_TYPES : Z := 32.
Definition MAX_NAME_LEN : Z := 32.
Definition INVALID_HANDLE : Z := 4294967295.

Record OBJECT_TYPE_INFO := mkType { type_name : list Z; delete_proc : Z }.

Record OBJECT := mkObject {
  name : list Z;
  otype : Z;
  ref_count : Z;
  body : Z;
  body_size : Z
}.

(** [char name[32]], three [uint32_t] and a pointer. *)
Definition sizeof_OBJECT (a : arch) : Z := match a with X86 => 48 | AMD64 | LA64 => 56 end.

Record ob (H B : Type) := mkOb {
  objects : list Z;
  count : Z;
  object_types : list OBJECT_TYPE_INFO;
  object_type_count : Z;
  pool : gmap Z OBJECT;
  heap : H;
  memory : B
}.
Arguments mkOb {H B} _ _ _ _ _ _ _.
Arguments objects {H B} _.
Arguments count {H B} _.
Arguments object_types {H B} _.
Arguments object_type_count {H B} _.
Arguments pool {H B} _.
Arguments heap {H B} _.
Arguments memory {H B} _.

Definition no_type : OBJECT_TYPE_INFO := mkType (replicate 32 0) 0.

(** The copy of a name into a [char[MAX_NAME_LEN]] that all creators share:
    [strlen], the clamp, [memcpy] and the NUL. *)
Definition copy_name (old nm : list Z) : list Z :=
  let len := strlen nm in
  let len := if MAX_NAME_LEN <=? len then MAX_NAME_LEN - 1 else len in
  put (take (Z.to_nat len) nm ++ drop (Z.to_nat len) old) len 0.

Section ops.
Context {H B : Type} `{KernelHeap H} (a : arch).
Implicit Types st : ob H B.

Definition set_heap st (h : H) : ob H B :=
  mkOb (objects st) (count st) (object_types st) (object_type_count st) (pool st) h (memory st).
Definition set_memory st (m : B) : ob H B :=
  mkOb (objects st) (count st) (object_types st) (object_type_count st) (pool st) (heap st) m.
Definition set_pool st (m : gmap Z OBJECT) : ob H B :=
  mkOb (objects st) (count st) (object_types st) (object_type_count st) m (heap st) (memory st).

(** [object_types[i]] and [global_table.objects[i]]. *)
Definition type_at st (i : Z) : OBJECT_TYPE_INFO := get no_type (object_types st) i.
Definition ptr_at st (i : Z) : Z := get 0 (objects st) i.

Definition ObRegisterObjectType (nm : option (list Z)) (proc : Z) st : Z * ob H B :=
  match nm with
  | None => (0, st)
  | Some nm =>
      if char_at nm 0 =? 0 then (0, st) else
      match first_from (Z.to_nat (object_type_count st - 1)) 1
              (fun i => strcmp (buf_str (type_name (type_at st i))) nm =? 0) with
      | Some i => (i, st)
      | None =>
          if MAX_OBJECT_TYPES <=? object_type_count st then (0, st) else
          let i := object_type_count st in
          (i, mkOb (objects st) (count st)
                (put (object_types st) i (mkType (copy_name (type_name (type_at st i)) nm) proc))
                (object_type_count st + 1) (pool st) (heap st) (memory st))
      end
  end.

Definition ObGetObjectType (type : Z) st : option OBJECT_TYPE_INFO :=
  if (type =? 0) || (object_type_count st <=? type) then None else Some (type_at st type).

Definition ObInit st : ob H B :=
  mkOb (replicate 256 0) 0 (replicate 32 no_type) 1 (pool st) (heap st) (memory st).

Definition ObCreateObject (type : Z) (nm : option (list Z)) (bd size : Z) st
  : option (Z * ob H B) :=
  match ObGetObjectType type st with
  | None => Some (INVALID_HANDLE, st)
  | Some _ =>
      match first_from 256 0 (fun i => ptr_at st i =? 0) with
      | None => Some (INVALID_HANDLE, st)
      | Some i =>
          match kh_malloc (sizeof_OBJECT a) (heap st) with
          | None => None
          | Some (p, h) =>
              if p =? 0 then Some (INVALID_HANDLE, set_heap st h) else
              let zeroed := replicate 32 0 in
              let o := mkObject (match nm with Some nm => copy_name zeroed nm | None => zeroed end)
                         type 1 bd size in
              Some (i, mkOb (put (objects st) i p) (u32 (count st + 1)) (object_types st)
                         (object_type_count st) (<[p := o]> (pool st)) h (memory st))
          end
      end
  end.

Definition ObReferenceObject (handle : Z) st : option (Z * ob H B) :=
  if (MAX_OBJECTS <=? handle) || (ptr_at st handle =? 0) then Some (0, st) else
  match pool st !! ptr_at st handle with
  | None => None
  | Some o =>
      Some (body o, set_pool st (<[ptr_at st handle :=
        mkObject (name o) (otype o) (u32 (ref_count o + 1)) (body o) (body_size o)]> (pool st)))
  end.

(** The call of the type's delete procedure, if it has one. *)
Definition call_delete (call : Z -> Z -> ob H B -> option (ob H B)) (o : OBJECT) st
  : option (ob H B) :=
  match ObGetObjectType (otype o) st with
  | Some ty => if negb (delete_proc ty =? 0) then call (delete_proc ty) (body o) st else Some st
  | None => Some st
  end.

(** The call and [kfree(obj->body)], which reads [obj->body] again. *)
Definition release_body (call : Z -> Z -> ob H B -> option (ob H B)) (p : Z) (o : OBJECT) st
  : option (ob H B) :=
  if body o =? 0 then Some st else
  match call_delete call o st with
  | None => None
  | Some st1 =>
      match pool st1 !! p with
      | None => None
      | Some o1 => match kh_free (body o1) (heap st1) with
                   | None => None
                   | Some h => Some (set_heap st1 h)
                   end
      end
  end.

Definition ObDereferenceObject (call : Z -> Z -> ob H B -> option (ob H B)) (handle : Z) st
  : option (ob H B) :=
  if (MAX_OBJECTS <=? handle) || (ptr_at st handle =? 0) then Some st else
  let p := ptr_at st handle in
  match pool st !! p with
  | None => None
  | Some o =>
      let o := mkObject (name o) (otype o) (u32 (ref_count o - 1)) (body o) (body_size o) in
      let st := set_pool st (<[p := o]> (pool st)) in
      if negb (ref_count o =? 0) then Some st else
      match release_body call p o st with
      | None => None
      | Some st =>
          match kh_free p (heap st) with
          | None => None
          | Some h =>
              Some (mkOb (put (objects st) handle 0) (u32 (count st - 1)) (object_types st)
                     (object_type_count st) (delete p (pool st)) h (memory st))
          end
      end
  end.

(** The scan reads every object it meets; the table invariant makes that safe. *)
Definition ObFindObject (nm : option (list Z)) (type : Z) st : Z :=
  match first_from 256 0 (fun i =>
          match pool st !! ptr_at st i with
          | Some o =>
              negb (ptr_at st i =? 0) && (otype o =? type) &&
              match nm with Some nm => strcmp (buf_str (name o)) nm =? 0 | None => false end
          | None => false
          end) with
  | Some i => i
  | None => INVALID_HANDLE
  end.

End ops.

(** ** The abstract handle table *)

(** What a handle names: the object's type, its name, its body and the number
    of references held on it. *)
Record entry := mkEntry {
  e_type : Z; e_name : list Z; e_body : Z; e_size : Z; e_refs : Z
}.

Definition entry_of (o : OBJECT) : entry :=
  mkEntry (otype o) (buf_str (name o)) (body o) (body_size o) (ref_count o).

Section inv.
Context {H B : Type} `{KernelHeap H} (a : arch).
Implicit Types st : ob H B.

Definition obj_at st (i : Z) : option (Z * OBJECT) :=
  if (0 <=? i) && (i <? MAX_OBJECTS) && negb (ptr_at st i =? 0)
  then (fun o => (ptr_at st i, o)) <$> pool st !! ptr_at st i
  else None.

Definition table st (i : Z) : option entry := entry_of ∘ snd <$> obj_at st i.

Definition registered st (t : Z) : Prop := 1 <= t < object_type_count st.

Definition type_string st (t : Z) : list Z := buf_str (type_name (type_at st t)).

(** A [char[32]] that holds a C string. *)
Definition name_buf (b : list Z) : Prop :=
  exists s rest, b = s ++ 0 :: rest /\ cstring s /\ length b = 32%nat.

Definition types_ok st : Prop :=
  length (object_types st) = 32%nat /\ 1 <= object_type_count st <= MAX_OBJECT_TYPES /\
  (forall t, 0 <= t < 32 -> length (type_name (type_at st t)) = 32%nat) /\
  (forall t, registered st t -> name_buf (type_name (type_at st t)) /\ type_string st t <> []).

Definition owns (p : Z) (o : OBJECT) (q : Z) : Prop := q = p \/ (q = body o /\ q <> 0).

(** The memory the table owns: object blocks and their bodies. *)
Definition owned st (q : Z) : Prop := exists i p o, obj_at st i = Some (p, o) /\ owns p o q.

(** The invariant with the reference counts of the handles in [D] left open: a
    dying object has count zero. *)
Definition inv_but (D : Z -> Prop) st : Prop :=
  kh_ok (heap st) /\ length (objects st) = 256%nat /\ types_ok st /\
  count st = count_false (fun i => ptr_at st i =? 0) 256 /\
  (forall i, 0 <= i < MAX_OBJECTS -> ptr_at st i <> 0 ->
     exists o, pool st !! ptr_at st i = Some o /\ registered st (otype o) /\
       name_buf (name o) /\ (~ D i -> 0 < ref_count o < 4294967296)) /\
  (forall i p o q, obj_at st i = Some (p, o) -> owns p o q -> is_Some (kh_live (heap st) !! q)) /\
  (forall i p o, obj_at st i = Some (p, o) -> p <> body o) /\
  (forall i j p o p' o' q, obj_at st i = Some (p, o) -> obj_at st j = Some (p', o') ->
     owns p o q -> owns p' o' q -> i = j).

Definition inv st : Prop := inv_but (fun _ => False) st.

(** The type numbering, the object blocks and the table are those of [st];
    memory the table owns is still allocated. *)
Definition quiet st st' : Prop :=
  objects st' = objects st /\ count st' = count st /\ object_types st' = object_types st /\
  object_type_count st' = object_type_count st /\ pool st' = pool st /\
  kh_ok (heap st') /\
  (forall q, owned st q -> kh_live (heap st') !! q = kh_live (heap st) !! q).

(** ** Names *)

Lemma copy_name_spec old nm :
  cstring nm -> length old = 32%nat ->
  name_buf (copy_name old nm) /\ buf_str (copy_name old nm) = take 31 nm.
Proof.
  intros Hn Ho. unfold copy_name. rewrite strlen_length by done.
  set (len := if _ <=? _ then _ else _).
  assert (0 <= len <= 31 /\ (Z.to_nat len <= length nm)%nat /\ take (Z.to_nat len) nm = take 31 nm) as (Hl & Hle & Ht).
  { unfold len, MAX_NAME_LEN. destruct (Z.leb_spec 32 (Z.of_nat (length nm))).
    - change (Z.to_nat (32 - 1)) with 31%nat. repeat split; lia || done.
    - rewrite Nat2Z.id. rewrite !take_ge by lia. repeat split; lia || done. }
  assert (put (take (Z.to_nat len) nm ++ drop (Z.to_nat len) old) len 0 =
          take 31 nm ++ 0 :: drop (S (Z.to_nat len)) old) as ->.
  { unfold put. rewrite insert_app_r_alt by (rewrite length_take; lia).
    rewrite length_take, Nat.min_l, Nat.sub_diag by lia.
    destruct (drop (Z.to_nat len) old) as [|x l] eqn:E.
    - apply (f_equal length) in E. rewrite length_drop in E. cbn in E. lia.
    - rewrite Ht. cbn [insert list_insert]. replace (S (Z.to_nat len)) with (Z.to_nat len + 1)%nat by lia.
      rewrite <- drop_drop, E. done. }
  assert (cstring (take 31 nm)) by (by apply Forall_take).
  split; [|by apply buf_str_app].
  eexists _, _. split; [done|]. split; [done|].
  rewrite <- Ht. rewrite length_app. cbn [length]. rewrite length_take, length_drop. lia.
Qed.

Lemma name_buf_zero : name_buf (replicate 32 0).
Proof. exists [], (replicate 31 0). repeat constructor. Qed.

Lemma name_buf_str b : name_buf b -> cstring (buf_str b).
Proof. intros (s & r & -> & Hs & _). by rewrite buf_str_app. Qed.

(** ** Slots *)

Lemma obj_at_Some st i p o :
  obj_at st i = Some (p, o) <->
  0 <= i < MAX_OBJECTS /\ p = ptr_at st i /\ p <> 0 /\ pool st !! p = Some o.
Proof.
  unfold obj_at.
  destruct (Z.leb_spec 0 i), (Z.ltb_spec i MAX_OBJECTS), (Z.eqb_spec (ptr_at st i) 0) as [E|E];
    cbn [andb negb]; try (split; [done | intros (? & -> & ? & _); lia]).
  destruct (pool st !! ptr_at st i) as [o'|] eqn:Ep; cbn [fmap option_fmap option_map].
  - split.
    + intros [= <- <-]. done.
    + intros (_ & -> & _ & E'). congruence.
  - split; [done|]. intros (_ & -> & _ & E'). congruence.
Qed.

Lemma table_Some st i e :
  table st i = Some e <-> exists p o, obj_at st i = Some (p, o) /\ e = entry_of o.
Proof.
  unfold table. destruct (obj_at st i) as [[p o]|]; cbn.
  - split; [intros [= <-]; eauto | by intros (? & ? & [= <- <-] & ->)].
  - split; [done | by intros (? & ? & ? & _)].
Qed.

(** Under the invariant a slot is empty exactly when its pointer is null. *)
Lemma obj_at_None D st i :
  inv_but D st -> 0 <= i < MAX_OBJECTS -> obj_at st i = None <-> ptr_at st i = 0.
Proof.
  intros (_ & _ & _ & _ & Hs & _) Hi. split.
  - intros E. destruct (Z.eq_dec (ptr_at st i) 0) as [|Hne]; [done|].
    destruct (Hs i Hi Hne) as (o & Ho & _).
    assert (obj_at st i = Some (ptr_at st i, o)) by (by apply obj_at_Some). congruence.
  - intros E. destruct (obj_at st i) as [[p o]|] eqn:Eo; [|done].
    apply obj_at_Some in Eo as (_ & -> & ? & _). done.
Qed.

Lemma obj_at_facts D st i p o :
  inv_but D st -> obj_at st i = Some (p, o) ->
  registered st (otype o) /\ name_buf (name o) /\ (~ D i -> 0 < ref_count o < 4294967296).
Proof.
  intros (_ & _ & _ & _ & Hs & _) Eo. apply obj_at_Some in Eo as (Hi & -> & Hp & Eo).
  destruct (Hs i Hi Hp) as (o' & Eo' & Hf). rewrite Eo in Eo'. by injection Eo' as <-.
Qed.

(** Distinct slots hold distinct blocks. *)
Lemma obj_at_inj D st i j p o o' :
  inv_but D st -> obj_at st i = Some (p, o) -> obj_at st j = Some (p, o') -> i = j.
Proof. intros (_ & _ & _ & _ & _ & _ & _ & Hd) E1 E2. eapply (Hd i j _ _ _ _ p); eauto; by left. Qed.

Lemma ptr_at_put st st' i p k :
  length (objects st) = 256%nat -> objects st' = put (objects st) i p ->
  0 <= i < MAX_OBJECTS -> 0 <= k -> ptr_at st' k = if k =? i then p else ptr_at st k.
Proof.
  intros Hl Ho Hi Hk. unfold ptr_at. rewrite Ho. apply get_put; [|done].
  rewrite Hl. unfold MAX_OBJECTS in Hi. lia.
Qed.

Lemma count_put st st' i p :
  length (objects st) = 256%nat -> objects st' = put (objects st) i p -> 0 <= i < MAX_OBJECTS ->
  count_false (fun k => ptr_at st' k =? 0) 256 =
  count_false (fun k => ptr_at st k =? 0) 256 + (if ptr_at st i =? 0 then 1 else 0)
    - (if p =? 0 then 1 else 0).
Proof.
  intros Hl Ho Hi. unfold MAX_OBJECTS in Hi.
  rewrite (count_false_update (fun k => ptr_at st k =? 0) (fun k => ptr_at st' k =? 0) 256 i) by
    (try lia; intros k Hk Hne; rewrite (ptr_at_put st st' i p k) by (done || lia);
     by rewrite (proj2 (Z.eqb_neq k i) Hne)).
  rewrite (ptr_at_put st st' i p i), Z.eqb_refl by (done || lia). done.
Qed.

Lemma count_range st : 0 <= count_false (fun k => ptr_at st k =? 0) 256 <= 256.
Proof. apply (count_false_bounds _ 256). Qed.

Lemma quiet_same st st' :
  quiet st st' ->
  (forall i, ptr_at st' i = ptr_at st i) /\ (forall i, obj_at st' i = obj_at st i) /\
  (forall q, owned st' q <-> owned st q).
Proof.
  intros (E1 & _ & _ & _ & E5 & _).
  assert (forall i, ptr_at st' i = ptr_at st i) as Hp by (intros; unfold ptr_at; by rewrite E1).
  assert (forall i, obj_at st' i = obj_at st i) as Ho by (intros; unfold obj_at; by rewrite Hp, E5).
  split; [done|]. split; [done|]. intros q. unfold owned. by setoid_rewrite Ho.
Qed.

Lemma quiet_inv D st st' : inv_but D st -> quiet st st' -> inv_but D st'.
Proof.
  intros Hinv Hq. pose proof (quiet_same _ _ Hq) as (Hp & Ho & _).
  destruct Hq as (E1 & E2 & E3 & E4 & E5 & Hh & Hl).
  destruct Hinv as (H1 & H2 & H3 & H4 & H5 & H6 & H7 & H8).
  split; [done|]. split; [by rewrite E1|]. split; [|split].
  - unfold types_ok, registered, type_string, type_at in *. by rewrite E3, E4.
  - rewrite E2, H4. apply count_false_ext. intros. by rewrite Hp.
  - unfold registered in *. setoid_rewrite Hp. setoid_rewrite Ho. rewrite E4, E5.
    split; [done|]. split; [|done]. intros i p o q Eo Hw. rewrite Hl; [by eapply H6|]. by exists i, p, o.
Qed.

(** ** Changing a reference count *)

Definition with_refs (o : OBJECT) (r : Z) : OBJECT :=
  mkObject (name o) (otype o) r (body o) (body_size o).

Lemma obj_at_set_refs D st i p o r k :
  inv_but D st -> obj_at st i = Some (p, o) ->
  obj_at (set_pool st (<[p := with_refs o r]> (pool st))) k =
  if k =? i then Some (p, with_refs o r) else obj_at st k.
Proof.
  intros Hinv Eo. pose proof Eo as Ei. apply obj_at_Some in Ei as (Hi & Hp & Hne & Ep).
  destruct (Z.eqb_spec k i) as [->|Hk].
  - apply obj_at_Some. cbn. rewrite lookup_insert_eq. done.
  - destruct (obj_at st k) as [[p' o']|] eqn:Ek.
    + apply obj_at_Some. pose proof Ek as Ek'. apply obj_at_Some in Ek' as (? & ? & ? & ?). cbn.
      rewrite lookup_insert_ne; [done|]. intros ->. apply Hk. by apply (obj_at_inj D st _ _ p' o' o).
    + destruct (obj_at (set_pool _ _) k) as [[p' o']|] eqn:Ek'; [|done].
      apply obj_at_Some in Ek' as (Hk1 & Hk2 & Hk3 & Hk4). cbn in Hk4.
      change (p' = ptr_at st k) in Hk2.
      apply (obj_at_None D) in Ek; [|done|done]. congruence.
Qed.

Lemma set_refs_inv D D' st i p o r :
  inv_but D st -> obj_at st i = Some (p, o) ->
  (~ D' i -> 0 < r < 4294967296) -> (forall k, k <> i -> D k -> D' k) ->
  inv_but D' (set_pool st (<[p := with_refs o r]> (pool st))).
Proof.
  intros Hinv Eo Hr HD. pose proof (obj_at_set_refs D st i p o r) as Hat.
  pose proof Hinv as (H1 & H2 & H3 & H4 & H5 & H6 & H7 & H8).
  assert (forall k p' o', obj_at (set_pool st (<[p := with_refs o r]> (pool st))) k = Some (p', o') ->
    exists o'', obj_at st k = Some (p', o'') /\ body o'' = body o') as Hback.
  { intros k p' o'. rewrite Hat by done. destruct (Z.eqb_spec k i) as [->|].
    - intros [= <- <-]. by exists o.
    - intros E. by exists o'. }
  assert (forall p' o' o'' q, body o' = body o'' -> owns p' o' q -> owns p' o'' q) as Hown.
  { unfold owns. intros ???? ->. done. }
  split; [done|]. split; [done|]. split; [done|]. split; [done|]. repeat split.
  - intros k Hk Hne. change (ptr_at st k <> 0) in Hne.
    change (ptr_at (set_pool st _) k) with (ptr_at st k). cbn [pool set_pool].
    destruct (H5 k Hk Hne) as (ok & Eok & Hty & Hnb & Hrc).
    assert (obj_at st k = Some (ptr_at st k, ok)) as Ek by (by apply obj_at_Some).
    destruct (Z.eq_dec k i) as [->|Hki].
    + rewrite Eo in Ek. injection Ek as -> ->. rewrite lookup_insert_eq.
      eexists. split; [done|]. split; [done|]. split; [done|]. exact Hr.
    + exists ok. split; [|split; [done|]; split; [done|]; intros; apply Hrc; eauto].
      rewrite lookup_insert_ne; [done|]. intros E. rewrite <- E in Ek. apply Hki. by eapply obj_at_inj.
  - intros k p' o' q Ek Hq. destruct (Hback _ _ _ Ek) as (o'' & Ek' & Hb). eauto.
  - intros k p' o' Ek. destruct (Hback _ _ _ Ek) as (o'' & Ek' & <-). eauto.
  - intros k l p' o' p2 o2 q Ek El Hq Hq'. destruct (Hback _ _ _ Ek) as (o'' & Ek' & Hb).
    destruct (Hback _ _ _ El) as (o2' & El' & Hb'). eauto.
Qed.

Definition entry_refs (e : entry) (r : Z) : entry :=
  mkEntry (e_type e) (e_name e) (e_body e) (e_size e) r.

Lemma ObReferenceObject_spec st h :
  inv st -> 0 <= h ->
  match table st h with
  | None => ObReferenceObject h st = Some (0, st)
  | Some e => e_refs e < 4294967295 ->
      exists st', ObReferenceObject h st = Some (e_body e, st') /\ inv st' /\
        objects st' = objects st /\ heap st' = heap st /\ memory st' = memory st /\
        object_types st' = object_types st /\ object_type_count st' = object_type_count st /\
        (forall k, table st' k = if k =? h then Some (entry_refs e (e_refs e + 1)) else table st k)
  end.
Proof.
  intros Hinv Hh. unfold ObReferenceObject, table.
  destruct (obj_at st h) as [[p o]|] eqn:Eo; cbn [fmap option_fmap option_map].
  - pose proof Eo as Ei. apply obj_at_Some in Ei as (Hi & -> & Hne & Ep).
    rewrite (proj2 (Z.leb_gt _ _)), (proj2 (Z.eqb_neq _ _)), Ep by (done || lia). cbn [orb].
    intros Hr. cbn in Hr. destruct (obj_at_facts _ _ _ _ _ Hinv Eo) as (_ & _ & Hrc).
    specialize (Hrc ltac:(intros [])). rewrite u32_small by (unfold is_u32; lia).
    eexists. split; [reflexivity|].
    split; [by apply (set_refs_inv (fun _ => False) _ st h _ o); [..|intros; lia|]|].
    repeat (split; [done|]). intros k. unfold compose.
    change (mkObject _ _ _ _ _) with (with_refs o (ref_count o + 1)).
    rewrite (obj_at_set_refs _ st h _ o _ k Hinv Eo). by destruct (k =? h).
  - destruct (Z.leb_spec MAX_OBJECTS h); [done|]. cbn [orb].
    apply (obj_at_None _ _ _ Hinv) in Eo; [|done]. by rewrite Eo.
Qed.

(** ** Creation *)

(** A body the caller may hand over: null, or allocated and not yet owned. *)
Definition body_fresh st (bd : Z) : Prop :=
  bd <> 0 -> is_Some (kh_live (heap st) !! bd) /\ ~ owned st bd.

Definition fill st (i p : Z) (o : OBJECT) (h : H) : ob H B :=
  mkOb (put (objects st) i p) (u32 (count st + 1)) (object_types st)
    (object_type_count st) (<[p := o]> (pool st)) h (memory st).

Lemma obj_at_fill st i p o h k :
  inv st -> 0 <= i < MAX_OBJECTS -> ptr_at st i = 0 -> p <> 0 ->
  kh_live (heap st) !! p = None ->
  obj_at (fill st i p o h) k = if k =? i then Some (p, o) else obj_at st k.
Proof.
  intros Hinv Hi Hz Hp Hfresh. pose proof Hinv as (_ & Hl & _ & _ & H5 & H6 & _).
  assert (forall k, 0 <= k -> ptr_at (fill st i p o h) k = if k =? i then p else ptr_at st k) as Hat
    by (intros; by apply (ptr_at_put st)).
  destruct (Z.eqb_spec k i) as [->|Hk].
  - apply obj_at_Some. rewrite Hat, Z.eqb_refl by lia. cbn. by rewrite lookup_insert_eq.
  - unfold obj_at. destruct (Z.leb_spec 0 k) as [Hk0|]; [|done].
    rewrite Hat, (proj2 (Z.eqb_neq _ _) Hk) by done.
    destruct (Z.ltb_spec k MAX_OBJECTS) as [Hk1|]; [|done].
    destruct (Z.eqb_spec (ptr_at st k) 0) as [|Hne]; [done|]. cbn [andb negb pool fill].
    rewrite lookup_insert_ne; [done|]. intros E.
    destruct (H5 k ltac:(lia) Hne) as (ok & Eok & _).
    destruct (H6 k (ptr_at st k) ok p) as [c Hc]; [by apply obj_at_Some | by left | congruence].
Qed.

Lemma fill_inv st i p o h n cap :
  inv st -> 0 <= i < MAX_OBJECTS -> ptr_at st i = 0 -> 0 < p ->
  kh_ok h -> kh_live (heap st) !! p = None -> n <= cap -> kh_live h = <[p := cap]> (kh_live (heap st)) ->
  registered st (otype o) -> name_buf (name o) -> 0 < ref_count o < 4294967296 ->
  body_fresh st (body o) -> inv (fill st i p o h).
Proof.
  intros Hinv Hi Hz Hp Hh Hfresh Hcap Hlive Hty Hnb Hrc Hbd.
  pose proof (obj_at_fill st i p o h) as Hat. specialize (Hat).
  pose proof Hinv as (H1 & H2 & H3 & H4 & H5 & H6 & H7 & H8).
  assert (body o <> p) as Hbp.
  { intros E. destruct (Hbd ltac:(lia)) as [[c Hc] _]. congruence. }
  assert (forall k p' o' q, obj_at st k = Some (p', o') -> owns p' o' q -> ~ owns p o q) as Hsep.
  { intros k p' o' q Ek Hq [-> | [-> Hq0]].
    - destruct (H6 _ _ _ _ Ek Hq). congruence.
    - destruct (Hbd Hq0) as [_ Hno]. apply Hno. by exists k, p', o'. }
  pose proof (count_range st) as Hcr.
  assert (forall k, 0 <= k -> ptr_at (fill st i p o h) k = if k =? i then p else ptr_at st k) as Hpt
    by (intros; by apply (ptr_at_put st)).
  split; [done|]. split; [cbn; by rewrite length_put|]. split; [done|]. split.
  { cbn [count fill]. rewrite (count_put st (fill st i p o h) i p) by done.
    rewrite Hz, Z.eqb_refl, (proj2 (Z.eqb_neq p 0)) by lia.
    rewrite u32_small by (unfold is_u32; lia). lia. }
  repeat split.
  - intros k Hk. rewrite Hpt by lia. cbn [pool fill]. destruct (Z.eqb_spec k i) as [->|Hki].
    + intros _. exists o. by rewrite lookup_insert_eq.
    + intros Hne. destruct (H5 k Hk Hne) as (ok & Eok & Hf). exists ok. split; [|done].
      rewrite lookup_insert_ne; [done|]. intros E.
      destruct (H6 k (ptr_at st k) ok p) as [c Hc]; [by apply obj_at_Some | by left | congruence].
  - intros k p' o' q. rewrite Hat by (done || lia). cbn [heap fill]. rewrite Hlive.
    destruct (Z.eqb_spec k i) as [->|].
    + intros [= <- <-] [-> | [-> Hq0]].
      * rewrite lookup_insert_eq. by eexists.
      * rewrite lookup_insert_ne by done. by apply Hbd.
    + intros Ek Hq. destruct (decide (q = p)) as [->|]; [rewrite lookup_insert_eq; by eexists|].
      rewrite lookup_insert_ne by done. eauto.
  - intros k p' o'. rewrite Hat by (done || lia). destruct (Z.eqb_spec k i); [by intros [= <- <-]|].
    apply H7.
  - intros k l p1 o1 p2 o2 q. rewrite !Hat by (done || lia).
    destruct (Z.eqb_spec k i) as [->|], (Z.eqb_spec l i) as [->|]; [done|..].
    + intros [= <- <-] El Hq Hq2. by destruct (Hsep _ _ _ _ El Hq2).
    + intros Ek [= <- <-] Hq Hq2. by destruct (Hsep _ _ _ _ Ek Hq).
    + apply H8.
Qed.

Definition new_entry (type : Z) (nm : option (list Z)) (bd size : Z) : entry :=
  mkEntry type (match nm with Some nm => take 31 nm | None => [] end) bd size 1.

Lemma ObCreateObject_spec type nm bd size st :
  inv st -> 0 <= type -> match nm with Some nm => cstring nm | None => True end ->
  body_fresh st bd ->
  exists h st', ObCreateObject a type nm bd size st = Some (h, st') /\ inv st' /\
    memory st' = memory st /\ object_types st' = object_types st /\
    object_type_count st' = object_type_count st /\
    ((h = INVALID_HANDLE /\ table st' = table st /\ kh_live (heap st') = kh_live (heap st) /\
      (forall q, owned st' q <-> owned st q) /\
      (~ registered st type \/ (forall k, 0 <= k < MAX_OBJECTS -> table st k <> None) \/
       exists hp, kh_malloc (sizeof_OBJECT a) (heap st) = Some (0, hp))) \/
     (0 <= h < MAX_OBJECTS /\ registered st type /\ table st h = None /\
      (forall k, 0 <= k < h -> table st k <> None) /\
      exists p cap, kh_malloc (sizeof_OBJECT a) (heap st) = Some (p, heap st') /\ p <> 0 /\
        ptr_at st' h = p /\ kh_live (heap st) !! p = None /\ sizeof_OBJECT a <= cap /\
        kh_live (heap st') = <[p := cap]> (kh_live (heap st)) /\
        (forall q, owned st' q <-> owned st q \/ q = p \/ (q = bd /\ bd <> 0)) /\
        (forall k, table st' k = if k =? h then Some (new_entry type nm bd size) else table st k))).
Proof.
  intros Hinv Hty Hnm Hbd. pose proof Hinv as (Hok & _ & _ & _ & H5 & _).
  unfold ObCreateObject, ObGetObjectType.
  destruct (Z.eqb_spec type 0), (Z.leb_spec (object_type_count st) type); cbn [orb];
    try (eexists _, st; do 5 (split; [done|]); left; do 4 (split; [done|]); left; unfold registered; lia).
  assert (registered st type) as Hreg by (unfold registered; lia).
  destruct (first_from 256 0 _) as [i|] eqn:Ef.
  2:{ eexists _, st. do 5 (split; [done|]). left. do 4 (split; [done|]). right. left.
      intros k Hk E. pose proof (proj1 (first_from_None _ _ _) Ef k ltac:(unfold MAX_OBJECTS in *; lia)) as Hz.
      unfold table in E. apply fmap_None, (obj_at_None _ _ _ Hinv) in E; [|done]. cbn in Hz. lia. }
  apply first_from_Some in Ef as (Hi & Hz & Hbefore). apply Z.eqb_eq in Hz.
  destruct (kh_malloc_spec (heap st) (sizeof_OBJECT a) Hok ltac:(destruct a; cbn; lia))
    as (p & hp & Em & Hok' & [[-> Hl] | (Hp & Hfresh & cap & Hcap & Hl)]); rewrite Em.
  - cbn [Z.eqb]. eexists _, (set_heap st hp). split; [done|]. split.
    { eapply quiet_inv; [done|]. repeat split; try done. intros q _. cbn. by rewrite Hl. }
    do 3 (split; [done|]). left. do 2 (split; [done|]). split; [by cbn|]. split; [done|]. right. right. by exists hp.
  - rewrite (proj2 (Z.eqb_neq p 0)) by lia.
    set (o := mkObject _ _ _ _ _).
    assert (name_buf (name o) /\ entry_of o = new_entry type nm bd size) as [Hnb He].
    { subst o. cbn [name]. destruct nm as [nm|].
      - destruct (copy_name_spec (replicate 32 0) nm Hnm eq_refl) as [? Hs].
        split; [done|]. unfold entry_of. cbn. cbn in Hs. by rewrite Hs.
      - split; [apply name_buf_zero | done]. }
    exists i, (fill st i p o hp). split; [done|].
    assert (0 <= i < MAX_OBJECTS) as Hi' by (unfold MAX_OBJECTS; lia).
    assert (forall k, obj_at (fill st i p o hp) k = if k =? i then Some (p, o) else obj_at st k) as Hat
      by (intros; apply obj_at_fill; done || lia).
    assert (obj_at st i = None) as Hnone by (by apply (obj_at_None _ _ _ Hinv)).
    split; [eapply fill_inv; eauto; [lia | cbn; lia]|]. do 3 (split; [done|]). right.
    split; [done|]. split; [done|].
    split; [unfold table; by rewrite Hnone|].
    split.
    { intros k Hk E. unfold table in E. apply fmap_None, (obj_at_None _ _ _ Hinv) in E; [|unfold MAX_OBJECTS; lia].
      specialize (Hbefore k Hk). cbn in Hbefore. lia. }
    exists p, cap. split; [done|]. split; [lia|]. split.
    { specialize (Hat i). rewrite Z.eqb_refl in Hat. by apply obj_at_Some in Hat as (_ & <- & _). }
    do 3 (split; [done|]). split.
    + intros q. unfold owned. split.
      * intros (k & p' & o' & Ek & Hq). rewrite Hat in Ek. destruct (Z.eqb_spec k i) as [->|].
        -- injection Ek as <- <-. right. destruct Hq as [->|[-> ?]]; [by left | by right].
        -- left. by exists k, p', o'.
      * intros [(k & p' & o' & Ek & Hq) | Hq].
        -- exists k, p', o'. rewrite Hat. destruct (Z.eqb_spec k i) as [->|]; [congruence | done].
        -- exists i, p, o. rewrite Hat, Z.eqb_refl. split; [done|]. unfold owns. cbn.
           destruct Hq as [->|[-> ?]]; [by left | by right].
    + intros k. unfold table. rewrite Hat. destruct (k =? i); [|done]. cbn. by rewrite He.
Qed.

(** ** Release *)

Definition clear st (i p : Z) (h : H) : ob H B :=
  mkOb (put (objects st) i 0) (u32 (count st - 1)) (object_types st)
    (object_type_count st) (delete p (pool st)) h (memory st).

Lemma obj_at_clear D st i p o h k :
  inv_but D st -> obj_at st i = Some (p, o) ->
  obj_at (clear st i p h) k = if k =? i then None else obj_at st k.
Proof.
  intros Hinv Eo. pose proof Hinv as (_ & Hl & _ & _ & H5 & _).
  pose proof Eo as Ei. apply obj_at_Some in Ei as (Hi & Hp & Hne & Ep).
  assert (forall k, 0 <= k -> ptr_at (clear st i p h) k = if k =? i then 0 else ptr_at st k) as Hat
    by (intros; by apply (ptr_at_put st)).
  unfold obj_at at 1. destruct (Z.leb_spec 0 k) as [Hk0|]; cbn [andb].
  2:{ unfold obj_at. rewrite (proj2 (Z.leb_gt _ _)) by done. by destruct (k =? i). }
  rewrite Hat by done. destruct (Z.eqb_spec k i) as [->|Hk].
  { cbn [Z.eqb negb]. by rewrite andb_false_r. }
  unfold obj_at. rewrite (proj2 (Z.leb_le 0 k)) by done. cbn [andb].
  destruct (Z.ltb_spec k MAX_OBJECTS) as [Hk1|]; [|done].
  destruct (Z.eqb_spec (ptr_at st k) 0) as [|Hne']; [done|]. cbn [andb negb pool clear].
  rewrite lookup_delete_ne; [done|]. intros E.
  destruct (H5 k ltac:(lia) Hne') as (ok & Eok & _).
  apply Hk. apply (obj_at_inj D st k i p ok o); [done| |done]. apply obj_at_Some. by rewrite E.
Qed.

Lemma clear_inv st i p o h :
  inv_but (eq i) st -> obj_at st i = Some (p, o) -> kh_ok h ->
  (forall q, ~ owns p o q -> kh_live h !! q = kh_live (heap st) !! q) ->
  inv (clear st i p h).
Proof.
  intros Hinv Eo Hh Hl. pose proof (fun k => obj_at_clear (eq i) st i p o h k Hinv Eo) as Hat.
  pose proof Hinv as (H1 & H2 & H3 & H4 & H5 & H6 & H7 & H8).
  pose proof Eo as Ei. apply obj_at_Some in Ei as (Hi & Hp & Hne & Ep).
  assert (forall k, 0 <= k -> ptr_at (clear st i p h) k = if k =? i then 0 else ptr_at st k) as Hpt
    by (intros; by apply (ptr_at_put st)).
  pose proof (count_range (clear st i p h)) as Hcr.
  split; [done|]. split; [cbn; by rewrite length_put|]. split; [done|]. split.
  { rewrite (count_put st (clear st i p h) i 0) in * by done. cbn [count clear].
    rewrite <- Hp, (proj2 (Z.eqb_neq p 0)), Z.eqb_refl in * by done.
    rewrite u32_small by (unfold is_u32; lia). lia. }
  repeat split.
  - intros k Hk. rewrite Hpt by lia. destruct (Z.eqb_spec k i) as [|Hki]; [done|]. intros Hnz.
    destruct (H5 k Hk Hnz) as (ok & Eok & Hty & Hnb & Hrc). exists ok. cbn [pool clear].
    rewrite lookup_delete_ne; [split; [done|]; split; [done|]; split; [done|]; intros _; apply Hrc; congruence|].
    intros E. apply Hki. apply (obj_at_inj (eq i) st k i p ok o); [done| |done].
    apply obj_at_Some. by rewrite E.
  - intros k p' o' q. rewrite Hat. destruct (Z.eqb_spec k i) as [|Hki]; [done|]. intros Ek Hq.
    cbn [heap clear]. rewrite Hl; [by eapply H6|]. intros Hq'. apply Hki. by eapply H8.
  - intros k p' o'. rewrite Hat. destruct (k =? i); [done | apply H7].
  - intros k l p1 o1 p2 o2 q. rewrite !Hat. destruct (k =? i), (l =? i); try done. apply H8.
Qed.

(** A delete procedure that re-enters neither the table nor the blocks it owns:
    what releasing the object needs of the call. *)
Definition deletes_quietly (call : Z -> Z -> ob H B -> option (ob H B)) st (o : OBJECT) : Prop :=
  body o <> 0 -> exists st', call_delete call o st = Some st' /\ quiet st st'.

Lemma release_body_spec call i p o st :
  inv_but (eq i) st -> obj_at st i = Some (p, o) -> deletes_quietly call st o ->
  exists st1 st2, release_body call p o st = Some st2 /\ quiet st st1 /\
    (if body o =? 0 then st1 = st else call_delete call o st = Some st1) /\
    objects st2 = objects st1 /\ count st2 = count st1 /\ pool st2 = pool st1 /\
    object_types st2 = object_types st1 /\ object_type_count st2 = object_type_count st1 /\
    memory st2 = memory st1 /\ kh_ok (heap st2) /\
    kh_live (heap st2) = delete (body o) (kh_live (heap st1)).
Proof.
  intros Hinv Eo Hc. unfold release_body. destruct (Z.eqb_spec (body o) 0) as [E0|Hne].
  - exists st, st. pose proof Hinv as (Hok & _). split; [done|]. split; [done|].
    do 8 (split; [done|]). rewrite delete_id; [done|]. rewrite E0. by apply kh_live_null.
  - destruct (Hc Hne) as (st1 & Ec & Hq). rewrite Ec.
    pose proof Hq as (_ & _ & _ & _ & Ep & Hok & _).
    rewrite Ep. apply obj_at_Some in Eo as (_ & _ & _ & ->).
    destruct (kh_free_spec (heap st1) (body o) Hok) as (h & -> & Hh & Hl).
    exists st1, (set_heap st1 h). do 10 (split; [done|]). done.
Qed.

(** The state after the count of the object in slot [h] dropped to [r]. *)
Definition dropped st (p : Z) (o : OBJECT) (r : Z) : ob H B :=
  set_pool st (<[p := with_refs o r]> (pool st)).

Lemma deref_last_spec call h p o st :
  inv st -> obj_at st h = Some (p, o) -> ref_count o = 1 ->
  deletes_quietly call (dropped st p o 0) o ->
  exists st1 st', ObDereferenceObject call h st = Some st' /\ inv st' /\
    quiet (dropped st p o 0) st1 /\
    (if body o =? 0 then st1 = dropped st p o 0
     else call_delete call o (dropped st p o 0) = Some st1) /\
    memory st' = memory st1 /\
    object_types st' = object_types st /\ object_type_count st' = object_type_count st /\
    kh_live (heap st') = delete p (delete (body o) (kh_live (heap st1))) /\
    (forall k, table st' k = if k =? h then None else table st k).
Proof.
  intros Hinv Eo Hr Hc. pose proof Eo as Ei. apply obj_at_Some in Ei as (Hi & Hp & Hne & Ep).
  assert (inv_but (eq h) (dropped st p o 0)) as Hinv0
    by (eapply set_refs_inv; [exact Hinv | done | done | done]).
  assert (obj_at (dropped st p o 0) h = Some (p, with_refs o 0)) as Eo0
    by (unfold dropped; rewrite (obj_at_set_refs _ st h _ o _ h Hinv Eo), Z.eqb_refl; done).
  destruct (release_body_spec call h p (with_refs o 0) (dropped st p o 0) Hinv0 Eo0)
    as (st1 & st2 & Er & Hq & Hbody & E1 & E2 & E3 & E4 & E5 & E6 & Hok & Hl); [done|].
  change (body (with_refs o 0)) with (body o) in *.
  destruct (kh_free_spec (heap st2) p Hok) as (h' & Ef & Hh' & Hl').
  assert (quiet (dropped st p o 0) (set_heap st2 (heap st1))) as Hq2.
  { destruct Hq as (Q1 & Q2 & Q3 & Q4 & Q5 & Q6).
    split; [exact (eq_trans E1 Q1)|]. split; [exact (eq_trans E2 Q2)|].
    split; [exact (eq_trans E4 Q3)|]. split; [exact (eq_trans E5 Q4)|].
    split; [exact (eq_trans E3 Q5)|]. exact Q6. }
  pose proof (quiet_same _ _ Hq2) as (_ & Ho2 & _).
  exists st1, (clear (set_heap st2 (heap st1)) h p h'). split.
  { unfold ObDereferenceObject. rewrite <- Hp, (proj2 (Z.leb_gt _ _)), (proj2 (Z.eqb_neq p 0)), Ep by (done || lia).
    cbn [orb ref_count]. rewrite Hr. change (u32 (1 - 1)) with 0. cbn [Z.eqb negb].
    change (set_pool st _) with (dropped st p o 0). change (mkObject _ _ _ _ _) with (with_refs o 0).
    rewrite Er, Ef. done. }
  split.
  { eapply clear_inv; [eapply quiet_inv; [exact Hinv0 | done] | rewrite Ho2; exact Eo0 | done|].
    intros q Hq'. cbn [heap set_heap]. rewrite Hl', Hl, lookup_delete_ne by (intros ->; apply Hq'; by left).
    destruct (decide (body o = q)) as [E|]; [|by rewrite lookup_delete_ne].
    rewrite E, lookup_delete_eq. destruct (Z.eq_dec q 0) as [->|]; [|by destruct Hq'; right].
    symmetry. apply kh_live_null. by destruct Hq as (_ & _ & _ & _ & _ & ? & _). }
  split; [done|]. split.
  { destruct (Z.eqb_spec (body o) 0); [done|]. rewrite <- Hbody. done. }
  destruct Hq as (_ & _ & Q3 & Q4 & _). cbn. rewrite E4, E5, E6, Q3, Q4, Hl', Hl. do 4 (split; [done|]).
  intros k. unfold table. rewrite (obj_at_clear (eq h) _ h p (with_refs o 0)).
  - rewrite Ho2. unfold dropped. rewrite (obj_at_set_refs _ st h _ o _ k Hinv Eo). by destruct (k =? h).
  - by eapply quiet_inv.
  - by rewrite Ho2.
Qed.

Lemma deref_more_spec call h e st :
  inv st -> table st h = Some e -> 1 < e_refs e ->
  exists st', ObDereferenceObject call h st = Some st' /\ inv st' /\
    objects st' = objects st /\ heap st' = heap st /\ memory st' = memory st /\
    object_types st' = object_types st /\ object_type_count st' = object_type_count st /\
    (forall k, table st' k = if k =? h then Some (entry_refs e (e_refs e - 1)) else table st k).
Proof.
  intros Hinv (p & o & Eo & ->)%table_Some Hr. cbn in Hr.
  pose proof Eo as Ei. apply obj_at_Some in Ei as (Hi & Hp & Hne & Ep).
  destruct (obj_at_facts _ _ _ _ _ Hinv Eo) as (_ & _ & Hrc). specialize (Hrc ltac:(intros [])).
  unfold ObDereferenceObject.
  rewrite <- Hp, (proj2 (Z.leb_gt _ _)), (proj2 (Z.eqb_neq p 0)), Ep by (done || lia).
  cbn [orb ref_count]. rewrite u32_small by (unfold is_u32; lia).
  rewrite (proj2 (Z.eqb_neq _ _)) by lia. cbn [negb].
  exists (dropped st p o (ref_count o - 1)). split; [done|].
  split; [eapply set_refs_inv; [exact Hinv | done | intros; lia | done]|].
  do 5 (split; [done|]). intros k. unfold table, dropped.
  rewrite (obj_at_set_refs _ st h _ o _ k Hinv Eo). by destruct (k =? h).
Qed.

(** The delete procedures play no part while references remain. *)
Lemma deref_more_any call call' h e st :
  inv st -> table st h = Some e -> 1 < e_refs e ->
  ObDereferenceObject call h st = ObDereferenceObject call' h st.
Proof.
  intros Hinv (p & o & Eo & ->)%table_Some Hr. cbn in Hr.
  pose proof Eo as Ei. apply obj_at_Some in Ei as (Hi & Hp & Hne & Ep).
  destruct (obj_at_facts _ _ _ _ _ Hinv Eo) as (_ & _ & Hrc). specialize (Hrc ltac:(intros [])).
  unfold ObDereferenceObject.
  rewrite <- Hp, (proj2 (Z.leb_gt _ _)), (proj2 (Z.eqb_neq p 0)), Ep by (done || lia).
  cbn [orb ref_count]. rewrite u32_small by (unfold is_u32; lia).
  by rewrite (proj2 (Z.eqb_neq _ _)) by lia.
Qed.

Lemma deref_none call h st :
  inv st -> 0 <= h -> table st h = None -> ObDereferenceObject call h st = Some st.
Proof.
  intros Hinv Hh E. unfold ObDereferenceObject. destruct (Z.leb_spec MAX_OBJECTS h); [done|].
  apply fmap_None, (obj_at_None _ _ _ Hinv) in E; [|done]. by rewrite E.
Qed.

(** ** Search by name *)

Lemma table_facts st i e :
  inv st -> table st i = Some e ->
  0 <= i < MAX_OBJECTS /\ registered st (e_type e) /\ cstring (e_name e) /\
  (length (e_name e) <= 31)%nat /\ 0 < e_refs e < 4294967296.
Proof.
  intros Hinv (p & o & Eo & ->)%table_Some. pose proof (obj_at_facts _ _ _ _ _ Hinv Eo) as (Ht & Hn & Hr).
  apply obj_at_Some in Eo as (Hi & _). split; [done|]. split; [done|].
  split; [by apply name_buf_str|]. split; [|apply Hr; intros []].
  destruct Hn as (s & r & E & Hs & Hl). cbn. rewrite E, buf_str_app by done.
  rewrite E, length_app in Hl. cbn in Hl. lia.
Qed.

Lemma ObFindObject_eq nm type st :
  inv st -> cstring nm ->
  ObFindObject (Some nm) type st =
  match first_from 256 0 (fun i => match table st i with
    | Some e => (e_type e =? type) && bool_decide (e_name e = nm) | None => false end) with
  | Some i => i | None => INVALID_HANDLE end.
Proof.
  intros Hinv Hnm. unfold ObFindObject. rewrite (first_from_ext _ _ _ (fun i => match table st i with
    | Some e => (e_type e =? type) && bool_decide (e_name e = nm) | None => false end)); [done|].
  intros i Hi. unfold table. destruct (obj_at st i) as [[p o]|] eqn:Eo; cbn.
  - pose proof (obj_at_facts _ _ _ _ _ Hinv Eo) as (_ & Hn & _).
    apply obj_at_Some in Eo as (_ & -> & Hne & ->).
    rewrite (proj2 (Z.eqb_neq _ _) Hne). cbn [negb andb]. f_equal.
    apply eq_bool_prop_intro. rewrite Is_true_true, Z.eqb_eq, strcmp_eq by (done || by apply name_buf_str).
    by rewrite Is_true_true, bool_decide_eq_true.
  - apply (obj_at_None _ _ _ Hinv) in Eo; [|unfold MAX_OBJECTS; lia]. rewrite Eo. cbn.
    by destruct (pool st !! 0).
Qed.

(** ** Sequences of references and dereferences *)

Fixpoint reference_times (n : nat) (h : Z) st : option (ob H B) :=
  match n with
  | O => Some st
  | S n' => match ObReferenceObject h st with Some (_, st) => reference_times n' h st | None => None end
  end.

Fixpoint dereference_times (call : Z -> Z -> ob H B -> option (ob H B)) (n : nat) (h : Z) st
  : option (ob H B) :=
  match n with
  | O => Some st
  | S n' => match ObDereferenceObject call h st with
            | Some st => dereference_times call n' h st | None => None end
  end.

Lemma reference_times_spec n h e st :
  inv st -> table st h = Some e -> e_refs e + Z.of_nat n < 4294967296 ->
  exists st', reference_times n h st = Some st' /\ inv st' /\ objects st' = objects st /\ heap st' = heap st /\
    memory st' = memory st /\ object_types st' = object_types st /\
    object_type_count st' = object_type_count st /\
    (forall k, table st' k = if k =? h then Some (entry_refs e (e_refs e + Z.of_nat n)) else table st k).
Proof.
  revert e st. induction n as [|n IH]; intros e st Hinv He Hn; cbn [reference_times].
  - exists st. do 7 (split; [done|]). intros k. destruct (Z.eqb_spec k h) as [->|]; [|done].
    rewrite Z.add_0_r, He. by destruct e.
  - destruct (table_facts _ _ _ Hinv He) as (Hh & _).
    pose proof (ObReferenceObject_spec st h Hinv ltac:(lia)) as Hr. rewrite He in Hr.
    destruct (Hr ltac:(lia)) as (st1 & -> & Hinv1 & E0 & E1 & E2 & E3 & E4 & Ht).
    destruct (IH (entry_refs e (e_refs e + 1)) st1 Hinv1) as (st2 & -> & Hinv2 & F0 & F1 & F2 & F3 & F4 & Ht2).
    { by rewrite Ht, Z.eqb_refl. }
    { cbn. lia. }
    exists st2. do 2 (split; [done|]). do 5 (split; [congruence|]).
    intros k. rewrite Ht2, Ht. destruct (k =? h); [|done]. unfold entry_refs. cbn. do 2 f_equal. lia.
Qed.

Lemma dereference_times_spec call n h e st :
  inv st -> table st h = Some e -> Z.of_nat n < e_refs e ->
  exists st', dereference_times call n h st = Some st' /\ inv st' /\ objects st' = objects st /\ heap st' = heap st /\
    memory st' = memory st /\ object_types st' = object_types st /\
    object_type_count st' = object_type_count st /\
    (forall k, table st' k = if k =? h then Some (entry_refs e (e_refs e - Z.of_nat n)) else table st k).
Proof.
  revert e st. induction n as [|n IH]; intros e st Hinv He Hn; cbn [dereference_times].
  - exists st. do 7 (split; [done|]). intros k. destruct (Z.eqb_spec k h) as [->|]; [|done].
    rewrite Z.sub_0_r, He. by destruct e.
  - destruct (deref_more_spec call h e st Hinv He ltac:(lia)) as (st1 & -> & Hinv1 & E0 & E1 & E2 & E3 & E4 & Ht).
    destruct (IH (entry_refs e (e_refs e - 1)) st1 Hinv1) as (st2 & -> & Hinv2 & F0 & F1 & F2 & F3 & F4 & Ht2).
    { by rewrite Ht, Z.eqb_refl. }
    { cbn. lia. }
    exists st2. do 2 (split; [done|]). do 5 (split; [congruence|]).
    intros k. rewrite Ht2, Ht. destruct (k =? h); [|done]. unfold entry_refs. cbn. do 2 f_equal. lia.
Qed.

Lemma dereference_times_S call n h st :
  dereference_times call (S n) h st =
  match dereference_times call n h st with
  | Some st => ObDereferenceObject call h st | None => None end.
Proof.
  revert st. induction n as [|n IH]; intros st.
  - cbn. by destruct (ObDereferenceObject call h st).
  - change (dereference_times call (S (S n)) h st) with
      (match ObDereferenceObject call h st with
       | Some st => dereference_times call (S n) h st | None => None end).
    cbn [dereference_times]. destruct (ObDereferenceObject call h st); [apply IH | done].
Qed.

(** ** Registration *)

Lemma type_string_facts st t :
  types_ok st -> registered st t ->
  cstring (type_string st t) /\ (length (type_string st t) <= 31)%nat /\ type_string st t <> [].
Proof.
  intros (_ & _ & _ & Hn) Ht. destruct (Hn t Ht) as [Hb Hne]. split; [by apply name_buf_str|].
  split; [|done]. destruct Hb as (s & r & E & Hs & Hl). unfold type_string.
  rewrite E, length_app in Hl. rewrite E, buf_str_app by done. cbn in Hl. lia.
Qed.

(** The registry grows by one type called [take 31 nm]. *)
Definition added st (nm : list Z) (proc : Z) st' : Prop :=
  object_type_count st' = object_type_count st + 1 /\
  objects st' = objects st /\ pool st' = pool st /\ heap st' = heap st /\ memory st' = memory st /\
  type_string st' (object_type_count st) = take 31 nm /\
  delete_proc (type_at st' (object_type_count st)) = proc /\
  (forall t, registered st t -> type_at st' t = type_at st t).

Lemma ObRegisterObjectType_spec nm proc st :
  inv st -> cstring nm -> nm <> [] ->
  (exists i, ObRegisterObjectType (Some nm) proc st = (i, st) /\ registered st i /\
     type_string st i = nm /\ (forall j, 1 <= j < i -> type_string st j <> nm)) \/
  ((forall i, registered st i -> type_string st i <> nm) /\
   ((ObRegisterObjectType (Some nm) proc st = (0, st) /\ object_type_count st = MAX_OBJECT_TYPES) \/
    (exists st', ObRegisterObjectType (Some nm) proc st = (object_type_count st, st') /\
       inv st' /\ added st nm proc st'))).
Proof.
  intros Hinv Hnm Hne. pose proof Hinv as (_ & _ & (Hlen & Hc & Hbuf & Hn) & _).
  unfold ObRegisterObjectType. destruct nm as [|c nm'] eqn:Enm; [done|]. rewrite <- Enm in *.
  assert ((char_at nm 0 =? 0) = false) as -> by
    (rewrite Enm in Hnm |- *; apply Forall_cons in Hnm as [? _]; cbn; apply Z.eqb_neq; lia).
  assert (forall i, registered st i -> strcmp (buf_str (type_name (type_at st i))) nm = 0 <->
    type_string st i = nm) as Hcmp.
  { intros i Hi. apply strcmp_eq; [|done]. by apply (type_string_facts st i). }
  destruct (first_from _ 1 _) as [i|] eqn:Ef.
  - left. exists i. apply first_from_Some in Ef as (Hi & Ht & Hb).
    assert (registered st i) as Hri by (unfold registered; lia).
    split; [done|]. split; [done|]. split; [apply Hcmp; [done|]; by apply Z.eqb_eq|].
    intros j Hj E. apply Hcmp in E; [|unfold registered; lia].
    specialize (Hb j Hj). cbn in Hb. rewrite E in Hb. done.
  - right. pose proof (proj1 (first_from_None _ _ _) Ef) as Hno. split.
    { intros i Hi E. apply Hcmp in E; [|done]. specialize (Hno i ltac:(unfold registered in Hi; lia)).
      cbn in Hno. rewrite E in Hno. done. }
    destruct (Z.leb_spec MAX_OBJECT_TYPES (object_type_count st)); [left; split; [done | lia]|].
    right. unfold MAX_OBJECT_TYPES in *. set (n := object_type_count st) in *.
    set (ty := mkType _ proc). eexists. split; [reflexivity|].
    set (st' := mkOb _ _ _ _ _ _ _).
    destruct (copy_name_spec (type_name (type_at st n)) nm Hnm (Hbuf n ltac:(lia))) as [Hnb Hs].
    assert (forall t, 0 <= t -> type_at st' t = if t =? n then ty else type_at st t) as Hat.
    { intros t Ht. apply get_put; [rewrite Hlen; lia | done]. }
    assert (added st nm proc st') as Hadd.
    { split; [done|]. do 4 (split; [done|]). unfold type_string.
      rewrite !Hat, !Z.eqb_refl by lia. split; [exact Hs|]. split; [done|].
      intros t Ht. unfold registered in Ht. fold n in Ht. rewrite Hat by lia.
      by rewrite (proj2 (Z.eqb_neq t n)) by lia. }
    split; [|done]. destruct Hinv as (I1 & I2 & _ & I4 & I5 & I6 & I7 & I8).
    split; [done|]. split; [done|]. split; [|split; [done|]].
    + split; [cbn; by rewrite length_put|]. split; [cbn; unfold MAX_OBJECT_TYPES; lia|]. split.
      * intros t Ht. rewrite Hat by lia. destruct (Z.eqb_spec t n) as [->|]; [|by apply Hbuf].
        by destruct Hnb as (? & ? & _ & _ & ?).
      * intros t Ht. unfold registered in Ht. cbn in Ht. unfold type_string. rewrite Hat by lia.
        destruct (Z.eqb_spec t n) as [->|]; [|apply Hn; unfold registered; fold n; lia].
        split; [done|]. cbn [type_name ty]. rewrite Hs. by rewrite Enm.
    + split; [|done]. intros i Hi Hz. destruct (I5 i Hi Hz) as (o & ? & Hr & ?). exists o.
      split; [done|]. split; [|done]. unfold registered in *. cbn. lia.
Qed.

Lemma ObInit_inv st : kh_ok (heap st) -> inv (ObInit st) /\ forall k, table (ObInit st) k = None.
Proof.
  intros Hok. assert (forall k, ptr_at (ObInit st) k = 0) as Hz.
  { intros k. unfold ptr_at, get. cbn [objects ObInit].
    destruct (replicate 256 0 !! Z.to_nat k) eqn:E; [|done]. by apply lookup_replicate in E as [-> _]. }
  assert (forall k, obj_at (ObInit st) k = None) as Hn.
  { intros k. destruct (obj_at (ObInit st) k) as [[p o]|] eqn:E; [|done].
    apply obj_at_Some in E as (_ & E & ? & _). rewrite Hz in E. done. }
  split; [|intros k; unfold table; by rewrite Hn].
  split; [done|]. split; [done|]. split.
  { split; [done|]. split; [cbn; unfold MAX_OBJECT_TYPES; lia|]. split.
    - intros t _. unfold type_at, get. cbn [object_types ObInit].
      destruct (replicate 32 no_type !! Z.to_nat t) eqn:E; [|done]. by apply lookup_replicate in E as [-> _].
    - intros t Ht. unfold registered in Ht. cbn in Ht. lia. }
  split; [reflexivity|]. repeat split.
  - intros i _. by rewrite Hz.
  - intros i p o q. by rewrite Hn.
  - intros i p o. by rewrite Hn.
  - intros i j p o p' o' q. by rewrite Hn.
Qed.

(** [ObCreateObject] keeps the manager's invariant on every branch.  It
    returns [INVALID_HANDLE] exactly when the type is unregistered, all 256
    slots are taken or the heap is out of memory, and then neither the table
    nor the set of allocated blocks has changed.  Otherwise it returns the
    lowest free handle, which now names an object with one reference and the
    name cut to 31 bytes; no other handle changes, one block is allocated, and
    [ObFindObject] finds the object under its type and name when the name has
    at most 31 bytes and no lower handle carries the same pair. *)
Theorem ObCreateObject_correct (type : Z) (nm : list Z) (bd size : Z) st :
  inv st -> 0 <= type -> cstring nm -> body_fresh st bd ->
  exists h st', ObCreateObject a type (Some nm) bd size st = Some (h, st') /\ inv st' /\
    (h = INVALID_HANDLE <->
       ~ registered st type \/ (forall k, 0 <= k < MAX_OBJECTS -> table st k <> None) \/
       exists hp, kh_malloc (sizeof_OBJECT a) (heap st) = Some (0, hp)) /\
    (h = INVALID_HANDLE -> table st' = table st /\ kh_live (heap st') = kh_live (heap st)) /\
    (h <> INVALID_HANDLE ->
       0 <= h < MAX_OBJECTS /\ table st h = None /\ (forall k, 0 <= k < h -> table st k <> None) /\
       (forall k, table st' k = if k =? h then Some (new_entry type (Some nm) bd size) else table st k) /\
       (exists p cap, kh_live (heap st) !! p = None /\
          kh_live (heap st') = <[p := cap]> (kh_live (heap st))) /\
       ((length nm <= 31)%nat ->
        (forall k e, 0 <= k < h -> table st k = Some e -> e_type e = type -> e_name e <> nm) ->
        ObFindObject (Some nm) type st' = h)).
Proof.
  intros Hinv Ht Hn Hb.
  destruct (ObCreateObject_spec type (Some nm) bd size st Hinv Ht Hn Hb)
    as (h & st' & E & Hinv' & _ & _ & _ & Hcase).
  exists h, st'. split; [done|]. split; [done|].
  destruct Hcase as [(-> & Htab & Hl & _ & Hwhy) | (Hh & Hreg & Hnone & Hbefore & p & cap & Em & Hp & _ & Hf & _ & Hl & _ & Htab)].
  - split; [done|]. split; done.
  - assert (h <> INVALID_HANDLE) as Hne by (unfold INVALID_HANDLE, MAX_OBJECTS in *; lia).
    split; [|split; [done|]].
    + split; [done|]. intros [? | [Hfull | [hp Em']]]; [done | by destruct (Hfull h Hh) | congruence].
    + intros _. split; [done|]. split; [done|]. split; [done|]. split; [done|].
      split; [by exists p, cap|]. intros Hlen Huniq. rewrite ObFindObject_eq by done.
      rewrite (proj2 (first_from_Some 256 0 _ h)); [done|]. unfold MAX_OBJECTS in Hh. split; [lia|].
      rewrite Htab, Z.eqb_refl. cbn [new_entry e_type e_name]. rewrite Z.eqb_refl, take_ge by lia.
      split; [by rewrite bool_decide_eq_true_2|]. intros j Hj. rewrite Htab.
      rewrite (proj2 (Z.eqb_neq j h)) by lia. destruct (table st j) as [e|] eqn:Ej; [|done].
      destruct (Z.eqb_spec (e_type e) type); [|done]. cbn [andb].
      apply bool_decide_eq_false. by eapply Huniq.
Qed.

(** [ObFindObject] returns the lowest handle whose object has the given
    type and name, or [INVALID_HANDLE] when there is none; since stored names
    are cut to 31 bytes it never finds a longer name. *)
Theorem ObFindObject_correct (nm : list Z) (type : Z) st :
  inv st -> cstring nm ->
  let h := ObFindObject (Some nm) type st in
  ((0 <= h < MAX_OBJECTS /\ (exists e, table st h = Some e /\ e_type e = type /\ e_name e = nm) /\
    (forall k e, 0 <= k < h -> table st k = Some e -> e_type e = type -> e_name e <> nm)) \/
   (h = INVALID_HANDLE /\ forall k e, table st k = Some e -> e_type e = type -> e_name e <> nm)) /\
  ((31 < length nm)%nat -> h = INVALID_HANDLE).
Proof.
  intros Hinv Hn h. assert (h = _) as Eh by (by apply ObFindObject_eq). clearbody h.
  destruct (first_from 256 0 _) as [i|] eqn:Ef; subst h.
  - apply first_from_Some in Ef as (Hi & Ht & Hb).
    destruct (table st i) as [e|] eqn:Ei; [|done]. apply andb_true_iff in Ht as [Hty Hname].
    apply Z.eqb_eq in Hty. apply bool_decide_eq_true in Hname. split.
    + left. split; [unfold MAX_OBJECTS; lia|]. split; [by exists e|]. intros k e' Hk Ek Hty' Hn'.
      specialize (Hb k Hk). rewrite Ek, Hty', Z.eqb_refl, bool_decide_eq_true_2 in Hb by done. done.
    + intros Hlong. destruct (table_facts _ _ _ Hinv Ei) as (_ & _ & _ & Hle & _). subst nm. lia.
  - split; [|done]. right. split; [done|]. intros k e Ek Hty Hname.
    destruct (table_facts _ _ _ Hinv Ek) as (Hk & _). unfold MAX_OBJECTS in Hk.
    pose proof (proj1 (first_from_None _ _ _) Ef k ltac:(lia)) as Hf. cbn in Hf.
    rewrite Ek, Hty, Z.eqb_refl, bool_decide_eq_true_2 in Hf by done. done.
Qed.

(** [ObDereferenceObject] on every handle: it does nothing for a handle
    that names no object; it drops one reference while others remain; and with
    the last reference it runs the type's delete procedure on the body (when
    there is a body and a procedure), frees the body and the object block, and
    empties the slot, leaving all other handles alone and the invariant
    intact.  The delete procedure is any one that leaves the table and the
    blocks it owns alone. *)
Theorem ObDereferenceObject_correct (call : Z -> Z -> ob H B -> option (ob H B)) (h : Z) st :
  inv st -> 0 <= h ->
  (forall p o, obj_at st h = Some (p, o) -> deletes_quietly call (dropped st p o 0) o) ->
  exists st', ObDereferenceObject call h st = Some st' /\ inv st' /\
    match obj_at st h with
    | None => st' = st
    | Some (p, o) =>
        if 1 <? ref_count o
        then heap st' = heap st /\ memory st' = memory st /\
          forall k, table st' k =
            if k =? h then Some (entry_refs (entry_of o) (ref_count o - 1)) else table st k
        else exists st1,
          (if body o =? 0 then st1 = dropped st p o 0
           else call_delete call o (dropped st p o 0) = Some st1) /\
          memory st' = memory st1 /\
          kh_live (heap st') = delete p (delete (body o) (kh_live (heap st1))) /\
          forall k, table st' k = if k =? h then None else table st k
    end.
Proof.
  intros Hinv Hh Hq. destruct (obj_at st h) as [[p o]|] eqn:Eo.
  - destruct (obj_at_facts _ _ _ _ _ Hinv Eo) as (_ & _ & Hrc). specialize (Hrc ltac:(intros [])).
    assert (table st h = Some (entry_of o)) as Ht by (unfold table; by rewrite Eo).
    destruct (Z.ltb_spec 1 (ref_count o)).
    + destruct (deref_more_spec call h (entry_of o) st Hinv Ht ltac:(done))
        as (st' & E & Hi & _ & ? & ? & _ & _ & ?). by exists st'.
    + destruct (deref_last_spec call h p o st Hinv Eo ltac:(lia) (Hq _ _ eq_refl))
        as (st1 & st' & E & Hi & _ & ? & ? & _ & _ & ? & ?).
      exists st'. split; [done|]. split; [done|]. by exists st1.
  - exists st. split; [|done]. apply deref_none; [done..|]. unfold table. by rewrite Eo.
Qed.

(** C18. An object lives exactly as long as it is referenced, and nothing
    leaks: after a successful creation and [n] further references, any [m <= n]
    dereferences leave it in place with [1 + n - m] references, and the
    [n + 1]st one removes it, after which the handle table is the one before
    the creation and the allocated blocks are those before it less the body
    that was handed over (for a type without delete procedure). *)
Theorem object_lifetime (call : Z -> Z -> ob H B -> option (ob H B)) (type : Z) (nm : list Z)
  (bd size h : Z) (n : nat) st st1 :
  inv st -> 0 <= type -> cstring nm -> body_fresh st bd ->
  ObCreateObject a type (Some nm) bd size st = Some (h, st1) -> h <> INVALID_HANDLE ->
  delete_proc (type_at st type) = 0 -> Z.of_nat n < 4294967295 ->
  exists st2, reference_times n h st1 = Some st2 /\
    (forall m, (m <= n)%nat -> exists st3, dereference_times call m h st2 = Some st3 /\
       table st3 h = Some (entry_refs (new_entry type (Some nm) bd size) (1 + Z.of_nat n - Z.of_nat m))) /\
    exists st4, dereference_times call (S n) h st2 = Some st4 /\ inv st4 /\
      (forall k, table st4 k = table st k) /\
      kh_live (heap st4) = delete bd (kh_live (heap st)).
Proof.
  intros Hinv Ht Hn Hb Hc Hh Hdp Hlt.
  destruct (ObCreateObject_spec type (Some nm) bd size st Hinv Ht Hn Hb)
    as (h' & st' & E & Hinv1 & _ & Ety & Etc & Hcase).
  rewrite Hc in E. injection E as <- <-.
  destruct Hcase as [(-> & _) | (Hh2 & Hreg & Hnone & _ & p & cap & _ & Hp0 & Hp & Hf & _ & Hl & _ & Htab)]; [done|].
  set (e := new_entry type (Some nm) bd size) in *.
  assert (table st1 h = Some e) as He by (by rewrite Htab, Z.eqb_refl).
  destruct (reference_times_spec n h e st1 Hinv1 He) as (st2 & E2 & Hinv2 & R0 & R1 & _ & R3 & R4 & Ht2);
    [cbn; lia|].
  exists st2. split; [done|].
  assert (forall m, (m <= n)%nat -> exists st3, dereference_times call m h st2 = Some st3 /\ inv st3 /\
    objects st3 = objects st2 /\ heap st3 = heap st2 /\ object_types st3 = object_types st2 /\
    (forall k, table st3 k = if k =? h then Some (entry_refs e (1 + Z.of_nat n - Z.of_nat m)) else table st2 k)) as Hdown.
  { intros m Hm. destruct (dereference_times_spec call m h (entry_refs e (1 + Z.of_nat n)) st2 Hinv2)
      as (st3 & ? & ? & ? & ? & _ & ? & _ & Ht3).
    - by rewrite Ht2, Z.eqb_refl.
    - cbn. lia.
    - exists st3. repeat (split; [done|]). intros k. rewrite Ht3. by destruct (k =? h). }
  split.
  { intros m Hm. destruct (Hdown m Hm) as (st3 & ? & _ & _ & _ & _ & Ht3). exists st3.
    split; [done|]. by rewrite Ht3, Z.eqb_refl. }
  destruct (Hdown n (le_n n)) as (st3 & E3 & Hinv3 & D0 & D1 & D2 & Ht3).
  assert (table st3 h = Some (entry_refs e 1)) as He3.
  { rewrite Ht3, Z.eqb_refl. do 2 f_equal. lia. }
  apply table_Some in He3 as (p3 & o3 & Eo3 & Heo).
  assert (p3 = p) as ->.
  { apply obj_at_Some in Eo3 as (_ & -> & _). unfold ptr_at in *. by rewrite D0, R0. }
  assert (ref_count o3 = 1 /\ body o3 = bd /\ otype o3 = type) as (Hr3 & Hb3 & Ht3').
  { injection Heo as -> _ -> _ ->. done. }
  destruct (deref_last_spec call h p o3 st3 Hinv3 Eo3 Hr3) as (s1 & st4 & E4 & Hinv4 & _ & Hcall & _ & _ & _ & Hl4 & Ht4).
  { intros _. exists (dropped st3 p o3 0). split; [|by destruct Hinv3; repeat split].
    unfold call_delete, ObGetObjectType. destruct (_ || _); [done|]. unfold type_at.
    cbn [object_types dropped set_pool]. rewrite D2, R3, Ety, Ht3'. fold (type_at st type). by rewrite Hdp. }
  exists st4. rewrite dereference_times_S, E3. split; [done|]. split; [done|]. split.
  { intros k. rewrite Ht4, Ht3, Ht2, Htab. by destruct (Z.eqb_spec k h) as [->|]. }
  assert (kh_live (heap s1) = kh_live (heap st1)) as Hs1.
  { destruct (body o3 =? 0); [subst s1; cbn; by rewrite D1, R1|].
    unfold call_delete, ObGetObjectType in Hcall.
    destruct (_ || _); [injection Hcall as <-; cbn; by rewrite D1, R1|].
    unfold type_at in Hcall. cbn [object_types dropped set_pool] in Hcall.
    rewrite D2, R3, Ety, Ht3' in Hcall. fold (type_at st type) in Hcall. rewrite Hdp in Hcall.
    injection Hcall as <-. cbn. by rewrite D1, R1. }
  rewrite Hl4, Hs1, Hl, Hb3. clear - Hf. apply map_eq. intros q.
  destruct (decide (p = q)) as [<-|]; [|destruct (decide (bd = q)) as [<-|]; by simplify_map_eq].
  destruct (decide (bd = p)) as [->|]; by simplify_map_eq.
Qed.

(** Registration.  For a name of at most 31 bytes it is idempotent, as its
    comment says: registering the name again, from any component and with any
    delete procedure, returns the same number and changes nothing.  A longer
    name is stored cut to 31 bytes and so is never recognised again: the second
    registration takes the next number. *)
Theorem ObRegisterObjectType_idempotent (nm : list Z) (proc proc' i : Z) st st1 :
  inv st -> cstring nm -> nm <> [] ->
  ObRegisterObjectType (Some nm) proc st = (i, st1) -> i <> 0 ->
  inv st1 /\ registered st1 i /\
  ((length nm <= 31)%nat ->
   type_string st1 i = nm /\ ObRegisterObjectType (Some nm) proc' st1 = (i, st1)) /\
  ((31 < length nm)%nat -> object_type_count st1 < MAX_OBJECT_TYPES ->
   exists st2, ObRegisterObjectType (Some nm) proc' st1 = (i + 1, st2)).
Proof.
  intros Hinv Hn Hne E Hi.
  assert (inv st1 /\ registered st1 i /\ type_string st1 i = take 31 nm /\
    (forall j, 1 <= j < i -> type_string st1 j <> nm) /\
    ((31 < length nm)%nat -> object_type_count st1 = i + 1)) as (Hinv1 & Hr & Hs & Hlow & Hlong).
  { destruct (ObRegisterObjectType_spec nm proc st Hinv Hn Hne)
      as [(j & E' & Hr & Hs & Hlow) | (Hno & [[E' _] | (st' & E' & Hinv' & Hadd)])];
      rewrite E in E'; injection E' as -> ->.
    - destruct (type_string_facts st j) as (_ & Hle & _); [by destruct Hinv as (_ & _ & ? & _) | done|].
      rewrite Hs in Hle. split; [done|]. split; [done|]. rewrite take_ge by lia.
      split; [done|]. split; [done | lia].
    - done.
    - destruct Hadd as (Hc & _ & _ & _ & _ & Hs & _ & Hsame). destruct Hinv as (_ & _ & (_ & ? & _) & _).
      split; [done|]. split; [unfold registered; lia|]. split; [done|]. split; [|done].
      intros j Hj. unfold type_string. rewrite Hsame by done. by apply Hno. }
  split; [done|]. split; [done|]. split.
  - intros Hle. rewrite take_ge in Hs by lia. split; [done|].
    destruct (ObRegisterObjectType_spec nm proc' st1 Hinv1 Hn Hne) as [(j & E' & Hj & Hsj & Hlow') | (Hno & _)];
      [|by destruct (Hno i Hr)].
    rewrite E'. f_equal. unfold registered in *.
    destruct (Z.lt_trichotomy i j) as [Hc | [? | Hc]]; [|done|].
    + by destruct (Hlow' i ltac:(lia)).
    + by destruct (Hlow j ltac:(lia)).
  - intros Hgt Hroom.
    destruct (ObRegisterObjectType_spec nm proc' st1 Hinv1 Hn Hne)
      as [(j & E' & Hj & Hsj & _) | (_ & [[E' ?] | (st2 & E' & _)])].
    + destruct (type_string_facts st1 j) as (_ & Hle & _); [by destruct Hinv1 as (_ & _ & ? & _) | done|].
      rewrite Hsj in Hle. lia.
    + lia.
    + exists st2. by rewrite E', Hlong.
Qed.

End inv.

(** ** A concrete manager: mm.c's heap over the boot memory of [Pmm.small_boot],
    one registered type "Event" *)

Definition obx := ob (Mm.heap Pmm.pmm) unit.
Definition boot_ob : obx := ObInit (mkOb [] 0 [] 0 ∅ Mm.small_heap ()).
Definition small_ob : obx := snd (ObRegisterObjectType (Some (cstr "Event")) 0 boot_ob).

Lemma boot_ob_inv : inv (H0 := mm_heap X86) boot_ob.
Proof. apply ObInit_inv. exact (Mm.small_heap_ok X86). Qed.

Lemma cstring_Event : cstring (cstr "Event").
Proof. cstring_lit. Qed.

Lemma small_ob_inv : inv (H0 := mm_heap X86) small_ob.
Proof.
  destruct (ObRegisterObjectType_spec (H0 := mm_heap X86) (cstr "Event") 0 boot_ob boot_ob_inv
    cstring_Event ltac:(discriminate)) as [(i & _ & Hr & _) | (_ & [[_ ?] | (st' & E & Hi & _)])].
  - unfold registered in Hr. cbn in Hr. lia.
  - cbn in *. unfold MAX_OBJECT_TYPES in *. lia.
  - unfold small_ob. rewrite E. exact Hi.
Qed.

Lemma body_fresh_null {H B} `{KernelHeap H} (st : ob H B) : body_fresh st 0.
Proof. by intros ?. Qed.

Lemma ObCreateObject_correct_witness :
  exists h st', ObCreateObject (H0 := mm_heap X86) X86 1 (Some (cstr "Event")) 0 8 small_ob = Some (h, st') /\
    (h = 0 -> ObFindObject (Some (cstr "Event")) 1 st' = 0).
Proof.
  destruct (ObCreateObject_correct (H0 := mm_heap X86) X86 1 (cstr "Event") 0 8 small_ob small_ob_inv
    ltac:(lia) cstring_Event (body_fresh_null _)) as (h & st' & E & _ & _ & _ & Hs).
  exists h, st'. split; [exact E|]. intros ->.
  destruct (Hs ltac:(discriminate)) as (_ & _ & _ & _ & _ & Hf). apply Hf; [cbn; lia | intros; lia].
Defined.

Lemma ObFindObject_correct_witness :
  ObFindObject (Some (cstr "An object name of more than 31 bytes")) 1 small_ob = INVALID_HANDLE.
Proof.
  destruct (ObFindObject_correct (H0 := mm_heap X86) (cstr "An object name of more than 31 bytes") 1
    small_ob small_ob_inv ltac:(cstring_lit)) as [_ H].
  apply H. cbn. lia.
Defined.

(** The state after creating one "Event" object without body. *)
Definition one_object : obx :=
  match ObCreateObject (H0 := mm_heap X86) X86 1 (Some (cstr "Event")) 0 8 small_ob with
  | Some (_, st) => st | None => small_ob end.

Lemma one_object_inv : inv (H0 := mm_heap X86) one_object.
Proof.
  unfold one_object.
  destruct (ObCreateObject_spec (H0 := mm_heap X86) X86 1 (Some (cstr "Event")) 0 8 small_ob small_ob_inv
    ltac:(lia) cstring_Event (body_fresh_null _)) as (h & st' & -> & Hi & _). exact Hi.
Qed.

Lemma ObDereferenceObject_correct_witness :
  exists st', ObDereferenceObject (H0 := mm_heap X86) (fun _ _ st => Some st) 0 one_object = Some st' /\
    ptr_at one_object 0 <> 0 /\ ptr_at st' 0 = 0.
Proof.
  destruct (ObDereferenceObject_correct (H0 := mm_heap X86) (fun _ _ st => Some st) 0 one_object
    one_object_inv ltac:(lia)) as (st' & E & _ & _).
  { intros p o Eo Hb. apply obj_at_Some in Eo as (_ & -> & _ & Eo). exfalso. apply Hb. revert Eo.
    vm_compute. intros [= <-]. reflexivity. }
  exists st'. split; [exact E|]. split; [vm_compute; discriminate|].
  assert ((fun s => ptr_at s 0) <$>
    ObDereferenceObject (H0 := mm_heap X86) (fun _ _ st => Some st) 0 one_object = Some 0) as H
    by (vm_compute; reflexivity).
  rewrite E in H. injection H as ->. reflexivity.
Defined.

Lemma object_lifetime_witness :
  exists st2 st4, reference_times 3 0 one_object = Some st2 /\
    dereference_times (H0 := mm_heap X86) (fun _ _ _ => None) 4 0 st2 = Some st4 /\
    (forall k, table st4 k = table small_ob k).
Proof.
  assert (ObCreateObject (H0 := mm_heap X86) X86 1 (Some (cstr "Event")) 0 8 small_ob =
    Some (0, one_object)) as Hc.
  { assert (fst <$> ObCreateObject (H0 := mm_heap X86) X86 1 (Some (cstr "Event")) 0 8 small_ob = Some 0)
      as Hf by (vm_compute; reflexivity).
    unfold one_object. destruct (ObCreateObject _ _ _ _ _ _) as [[h st]|]; [|discriminate].
    injection Hf as ->. reflexivity. }
  destruct (object_lifetime (H0 := mm_heap X86) X86 (fun _ _ _ => None) 1 (cstr "Event") 0 8 0 3
    small_ob one_object small_ob_inv ltac:(lia) cstring_Event (body_fresh_null _) Hc
    ltac:(discriminate) ltac:(vm_compute; reflexivity) ltac:(lia)) as (st2 & E2 & _ & st4 & E4 & _ & Ht & _).
  exists st2, st4. split; [exact E2|]. split; [exact E4 | exact Ht].
Defined.

Lemma ObRegisterObjectType_idempotent_witness :
  ObRegisterObjectType (Some (cstr "Event")) 7 small_ob = (1, small_ob).
Proof.
  destruct (ObRegisterObjectType_idempotent (H0 := mm_heap X86) (cstr "Event") 0 7 1 boot_ob small_ob
    boot_ob_inv cstring_Event ltac:(discriminate) eq_refl ltac:(discriminate)) as (_ & _ & H & _).
  apply H. cbn. lia.
Defined.

End Ob.
