(* ===== verification/Service.v ===== *)
(** * kernel/io/service.c and the table of kernel/io/driver.c: dependency-ordered
    service start

    A start routine is a function on the rest of the kernel's state [W], which
    includes the kernel heap.  The serial log lines are not modelled. *)

From stdpp Require Import base list numbers gmap strings.
From Stdlib Require Import ZArith Lia.
From S2P Require Import Prelude.
From S2P Require Import Util.
From S2P Require Import Pmm.
From S2P Require Import Vmm.
From S2P Require Import Mm.
Import Util Vmm.

Module Service.

Inductive SERVICE_TYPE := SERVICE_KERNEL_DRIVER | SERVICE_FILE_SYSTEM_DRIVER | SERVICE_WIN32_SUBSYSTEM.

Inductive SERVICE_STATE := SERVICE_STOPPED | SERVICE_START_PENDING | SERVICE_RUNNING | SERVICE_FAILED.

#[global] Instance SERVICE_STATE_eq_dec : EqDecision SERVICE_STATE.
Proof. solve_decision. Defined.

Definition SERVICE_BOOT_START : Z := 0.
Definition SERVICE_SYSTEM_START : Z := 1.
Definition SERVICE_AUTO_START : Z := 2.
Definition SERVICE_DEMAND_START : Z := 3.

(** [dependency_count] is the length of [dependencies]. *)
Record SERVICE_DESCRIPTOR := mkService {
  name : list Z;
  image_path : option (list Z);
  type : SERVICE_TYPE;
  start_type : Z;
  group : option (list Z);
  dependencies : list (list Z)
}.

Record SERVICE_RUNTIME := mkRuntime { descriptor : SERVICE_DESCRIPTOR; state : SERVICE_STATE }.

(** [service_runtime] (empty: the null pointer), its count, and the rest of the
    kernel. *)
Record svc (W : Type) := mkSvc {
  service_runtime : list SERVICE_RUNTIME;
  service_runtime_count : nat;
  world : W
}.
Arguments mkSvc {W} _ _ _.
Arguments service_runtime_count {W} _.
Arguments service_runtime {W} _.
Arguments world {W} _.

(** A descriptor pointer and a state. *)
Definition sizeof_SERVICE_RUNTIME (a : arch) : Z := match a with X86 => 8 | AMD64 | LA64 => 16 end.

Section ops.
Context {W : Type} (start : SERVICE_DESCRIPTOR -> W -> bool * W).
Implicit Types st : svc W.

Definition ServiceManagerInitialize st : svc W := mkSvc [] 0 (world st).

(** [n] more entries from [i] on; reading past the array is undefined. *)
Fixpoint index_loop (n : nat) (i : nat) (nm : list Z) (rt : list SERVICE_RUNTIME) : option Z :=
  match n with
  | O => Some (-1)
  | S n' =>
      match rt !! i with
      | None => None
      | Some r => if strcmp (name (descriptor r)) nm =? 0 then Some (Z.of_nat i)
                  else index_loop n' (S i) nm rt
      end
  end.

Definition service_index (nm : list Z) st : option Z :=
  index_loop (service_runtime_count st) 0 nm (service_runtime st).

(** [runtime->state = s]. *)
Definition set_state (index : Z) (s : SERVICE_STATE) st : svc W :=
  mkSvc (alter (fun r => mkRuntime (descriptor r) s) (Z.to_nat index) (service_runtime st))
    (service_runtime_count st) (world st).

(** The dependency loop, with the recursive call as an argument. *)
Fixpoint start_dependencies (start_one : Z -> svc W -> option (bool * svc W))
  (deps : list (list Z)) st : option (bool * svc W) :=
  match deps with
  | [] => Some (true, st)
  | dep :: deps =>
      match service_index dep st with
      | None => None
      | Some dependency =>
          if dependency <? 0 then Some (false, st) else
          match start_one dependency st with
          | None => None
          | Some (false, st) => Some (false, st)
          | Some (true, st) => start_dependencies start_one deps st
          end
      end
  end.

(** The recursion follows the dependency graph; a service being started is
    pending and stops it, so one more call than there are services is enough. *)
Fixpoint service_start_one (fuel : nat) (index : Z) st : option (bool * svc W) :=
  match fuel with
  | O => None
  | S fuel' =>
      match service_runtime st !! Z.to_nat index with
      | None => None
      | Some runtime =>
          let service := descriptor runtime in
          match state runtime with
          | SERVICE_RUNNING => Some (true, st)
          | SERVICE_START_PENDING => Some (false, set_state index SERVICE_FAILED st)
          | SERVICE_FAILED => Some (false, st)
          | SERVICE_STOPPED =>
              let st := set_state index SERVICE_START_PENDING st in
              match start_dependencies (service_start_one fuel') (dependencies service) st with
              | None => None
              | Some (false, st) => Some (false, set_state index SERVICE_FAILED st)
              | Some (true, st) =>
                  let '(ok, w) := start service (world st) in
                  let st := mkSvc (service_runtime st) (service_runtime_count st) w in
                  if ok then Some (true, set_state index SERVICE_RUNNING st)
                  else Some (false, set_state index SERVICE_FAILED st)
              end
          end
      end
  end.

(** The two [for] loops: the services of one start type, then all phases. *)
Fixpoint start_phase (fuel : nat) (type : Z) (services : list SERVICE_DESCRIPTOR) (i : Z) st
  : option (svc W) :=
  match services with
  | [] => Some st
  | s :: services =>
      if start_type s =? type
      then match service_start_one fuel i st with
           | None => None
           | Some (_, st) => start_phase fuel type services (i + 1) st
           end
      else start_phase fuel type services (i + 1) st
  end.

Fixpoint start_phases (fuel : nat) (types : list Z) (services : list SERVICE_DESCRIPTOR) st
  : option (svc W) :=
  match types with
  | [] => Some st
  | t :: types =>
      match start_phase fuel t services 0 st with
      | None => None
      | Some st => start_phases fuel types services st
      end
  end.

Definition ServiceManagerStart `{KernelHeap W} (a : arch) (services : list SERVICE_DESCRIPTOR) st
  : option (Z * svc W) :=
  if Z.of_nat (length services) =? 0 then Some (0, st) else
  match kh_malloc (u32 (Z.of_nat (length services) * sizeof_SERVICE_RUNTIME a)) (world st) with
  | None => None
  | Some (p, w) =>
      if p =? 0 then Some (0, mkSvc [] (service_runtime_count st) w) else
      let st := mkSvc (map (fun s => mkRuntime s SERVICE_STOPPED) services) (length services) w in
      match start_phases (S (length services)) [SERVICE_BOOT_START; SERVICE_SYSTEM_START; SERVICE_AUTO_START]
              services st with
      | None => None
      | Some st => Some (1, st)
      end
  end.

Definition ServiceManagerGetState (nm : list Z) st : option SERVICE_STATE :=
  match service_index nm st with
  | None => None
  | Some index =>
      if index <? 0 then Some SERVICE_STOPPED
      else state <$> service_runtime st !! Z.to_nat index
  end.

End ops.

(** The boot table of [DriverLoadAll]. *)
Definition driver_services : list SERVICE_DESCRIPTOR :=
  let sys := fun s => Some (cstr s) in
  [ mkService (cstr "Storage") None SERVICE_KERNEL_DRIVER SERVICE_BOOT_START (sys "Boot Bus Extender") [];
    mkService (cstr "Serial") (sys "/DISCOUNT/SYSTEM32/DRIVERS/SERIAL.SYS") SERVICE_KERNEL_DRIVER SERVICE_BOOT_START (sys "System Bus Extender") [];
    mkService (cstr "Cdfs") None SERVICE_FILE_SYSTEM_DRIVER SERVICE_SYSTEM_START (sys "File System") [cstr "Storage"];
    mkService (cstr "Vga") (sys "/DISCOUNT/SYSTEM32/DRIVERS/VGA.SYS") SERVICE_KERNEL_DRIVER SERVICE_SYSTEM_START (sys "Video") [];
    mkService (cstr "Keyboard") (sys "/DISCOUNT/SYSTEM32/DRIVERS/KEYBOARD.SYS") SERVICE_KERNEL_DRIVER SERVICE_SYSTEM_START (sys "Input") [cstr "Serial"];
    mkService (cstr "Framebuffer") (sys "/DISCOUNT/SYSTEM32/DRIVERS/FB.SYS") SERVICE_KERNEL_DRIVER SERVICE_SYSTEM_START (sys "Video") [];
    mkService (cstr "Mouse") (sys "/DISCOUNT/SYSTEM32/DRIVERS/MOUSE.SYS") SERVICE_KERNEL_DRIVER SERVICE_SYSTEM_START (sys "Input") [cstr "Keyboard"; cstr "Framebuffer"];
    mkService (cstr "Net") (sys "/DISCOUNT/SYSTEM32/DRIVERS/NET.SYS") SERVICE_KERNEL_DRIVER SERVICE_AUTO_START (sys "Network") [];
    mkService (cstr "HDA") (sys "/DISCOUNT/SYSTEM32/DRIVERS/HDA.SYS") SERVICE_KERNEL_DRIVER SERVICE_SYSTEM_START (sys "Audio") [];
    mkService (cstr "ES1371") (sys "/DISCOUNT/SYSTEM32/DRIVERS/ES1371.SYS") SERVICE_KERNEL_DRIVER SERVICE_SYSTEM_START (sys "Audio") [];
    mkService (cstr "AC97") (sys "/DISCOUNT/SYSTEM32/DRIVERS/AC97.SYS") SERVICE_KERNEL_DRIVER SERVICE_SYSTEM_START (sys "Audio") [];
    mkService (cstr "SB16") (sys "/DISCOUNT/SYSTEM32/DRIVERS/SB16.SYS") SERVICE_KERNEL_DRIVER SERVICE_SYSTEM_START (sys "Audio") [];
    mkService (cstr "AudioService") None SERVICE_KERNEL_DRIVER SERVICE_AUTO_START (sys "Audio") [];
    mkService (cstr "Win32k") (sys "/DISCOUNT/SYSTEM32/WIN32K.DLL") SERVICE_WIN32_SUBSYSTEM SERVICE_AUTO_START (sys "Win32") [cstr "Framebuffer"; cstr "Mouse"] ].

(** ** The static dependency graph *)

(** The index [service_index] computes for a table of descriptors. *)
Fixpoint find_name (i : nat) (nm : list Z) (ds : list SERVICE_DESCRIPTOR) : Z :=
  match ds with
  | [] => -1
  | d :: ds => if strcmp (name d) nm =? 0 then Z.of_nat i else find_name (S i) nm ds
  end.

Definition resolve (ds : list SERVICE_DESCRIPTOR) (nm : list Z) : Z := find_name 0 nm ds.

Section proofs.
Context {W : Type} (start : SERVICE_DESCRIPTOR -> W -> bool * W).
Context (ds : list SERVICE_DESCRIPTOR).
Implicit Types st : svc W.

(** The table is the one for [ds]. *)
Definition shape st : Prop :=
  map descriptor (service_runtime st) = ds /\ service_runtime_count st = length ds.

(** The state of service [i]. *)
Definition state_of st (i : Z) : option SERVICE_STATE :=
  state <$> service_runtime st !! Z.to_nat i.

Definition in_table (i : Z) : Prop := 0 <= i < Z.of_nat (length ds).

Lemma index_loop_find rt ds0 nm i :
  map descriptor (drop i rt) = ds0 -> index_loop (length ds0) i nm rt = Some (find_name i nm ds0).
Proof.
  revert i. induction ds0 as [|d ds0 IH]; intros i E; cbn [length index_loop find_name]; [done|].
  destruct (drop i rt) as [|r rest] eqn:Ed; [done|]. cbn in E. injection E as <- E.
  assert (rt !! i = Some r) as ->.
  { rewrite <- (Nat.add_0_r i), <- lookup_drop, Ed. done. }
  destruct (strcmp _ _ =? 0); [done|]. apply IH.
  replace (S i) with (i + 1)%nat by lia. rewrite <- drop_drop, Ed. done.
Qed.

Lemma service_index_resolve nm st : shape st -> service_index nm st = Some (resolve ds nm).
Proof. intros [E C]. unfold service_index. rewrite C. by apply index_loop_find. Qed.

Lemma find_name_range i nm ds0 :
  find_name i nm ds0 = -1 \/ Z.of_nat i <= find_name i nm ds0 < Z.of_nat (i + length ds0).
Proof.
  revert i. induction ds0 as [|d ds0 IH]; intros i; cbn [find_name length]; [by left|].
  destruct (strcmp _ _ =? 0); [right; lia|]. destruct (IH (S i)); [by left | right; lia].
Qed.

Lemma resolve_range nm : 0 <= resolve ds nm -> in_table (resolve ds nm).
Proof. unfold in_table, resolve. destruct (find_name_range 0 nm ds); lia. Qed.

Lemma shape_lookup st i :
  shape st -> in_table i -> exists r, service_runtime st !! Z.to_nat i = Some r /\
    ds !! Z.to_nat i = Some (descriptor r).
Proof.
  intros [E _] Hi. unfold in_table in Hi. rewrite <- E, length_map in Hi. rewrite <- E.
  destruct (lookup_lt_is_Some_2 (service_runtime st) (Z.to_nat i)) as [r Hr]; [lia|].
  exists r. split; [done|]. by rewrite list_lookup_fmap, Hr.
Qed.

Lemma set_state_shape i s st : shape st -> shape (set_state i s st).
Proof.
  intros [E C]. split; [|done]. cbn. rewrite <- E. apply list_eq. intros j.
  rewrite !list_lookup_fmap. destruct (decide (j = Z.to_nat i)) as [->|].
  - rewrite list_lookup_alter_eq. by destruct (service_runtime st !! Z.to_nat i).
  - by rewrite list_lookup_alter_ne.
Qed.

Lemma state_of_set st i s j :
  0 <= i -> 0 <= j ->
  state_of (set_state i s st) j = if j =? i then (fun _ => s) <$> state_of st i else state_of st j.
Proof.
  intros Hi Hj. unfold state_of. cbn. destruct (Z.eqb_spec j i) as [->|].
  - rewrite list_lookup_alter_eq. by destruct (service_runtime st !! Z.to_nat i).
  - by rewrite list_lookup_alter_ne by lia.
Qed.

Lemma state_of_Some st i : shape st -> in_table i -> exists s, state_of st i = Some s.
Proof. intros Hs Hi. destruct (shape_lookup st i Hs Hi) as (r & Hr & _). unfold state_of. rewrite Hr. by eexists. Qed.

(** What a completed call may do to the state of any service. *)
Definition step (s s' : SERVICE_STATE) : Prop :=
  s = s' \/ (s = SERVICE_STOPPED /\ (s' = SERVICE_RUNNING \/ s' = SERVICE_FAILED)) \/
  (s = SERVICE_START_PENDING /\ s' = SERVICE_FAILED).

Definition evolves st st' : Prop :=
  forall j s, in_table j -> state_of st j = Some s -> exists s', state_of st' j = Some s' /\ step s s'.

Lemma evolves_refl st : evolves st st.
Proof. intros j s _ E. exists s. split; [done | by left]. Qed.

Lemma step_trans s1 s2 s3 : step s1 s2 -> step s2 s3 -> step s1 s3.
Proof. unfold step. intros. destruct_or?; destruct_and?; subst; try discriminate; eauto. Qed.

Lemma evolves_trans st1 st2 st3 : evolves st1 st2 -> evolves st2 st3 -> evolves st1 st3.
Proof.
  intros H1 H2 j s Hj E. destruct (H1 j s Hj E) as (s' & E' & Hs).
  destruct (H2 j s' Hj E') as (s'' & E'' & Hs'). exists s''. split; [done | by eapply step_trans].
Qed.

(** The number of stopped services bounds the recursion depth. *)
Definition is_stopped st (i : Z) : bool := bool_decide (state_of st i = Some SERVICE_STOPPED).
Definition stopped st : Z := count_false (fun i => negb (is_stopped st i)) (length ds).

Lemma evolves_stopped st st' : shape st -> evolves st st' -> stopped st' <= stopped st.
Proof.
  intros Hs He. unfold stopped. apply count_false_mono. intros i Hi Hf.
  apply negb_true_iff, bool_decide_eq_false in Hf. apply negb_true_iff, bool_decide_eq_false.
  intros E. destruct (state_of_Some st i Hs Hi) as (s & Es). destruct (He i s Hi Es) as (s' & E' & Hst).
  rewrite E in E'. injection E' as <-. rewrite Es in Hf. unfold step in Hst.
  destruct_or?; destruct_and?; subst; try discriminate; done.
Qed.

Lemma pend_stopped st i :
  shape st -> in_table i -> state_of st i = Some SERVICE_STOPPED ->
  stopped (set_state i SERVICE_START_PENDING st) = stopped st - 1.
Proof.
  intros Hs Hi E. unfold stopped. assert (0 <= i) as Hi0 by (unfold in_table in Hi; lia).
  rewrite (count_false_update (fun j => negb (is_stopped st j))
    (fun j => negb (is_stopped (set_state i SERVICE_START_PENDING st) j)) _ i Hi).
  - unfold is_stopped. rewrite state_of_set, Z.eqb_refl, E by done. cbn -[count_false bool_decide].
    rewrite bool_decide_eq_true_2, bool_decide_eq_false_2 by done. cbn [negb]. lia.
  - intros j Hj Hne. unfold is_stopped. rewrite state_of_set by lia.
    by rewrite (proj2 (Z.eqb_neq j i) Hne).
Qed.

(** ** Every call terminates and settles its service *)

Definition settles (call : Z -> svc W -> option (bool * svc W)) : Prop :=
  forall i st r st', shape st -> in_table i -> call i st = Some (r, st') ->
    shape st' /\ evolves st st' /\
    state_of st' i = Some (if r : bool then SERVICE_RUNNING else SERVICE_FAILED).

Lemma start_dependencies_post call deps st r st' :
  settles call -> shape st -> start_dependencies call deps st = Some (r, st') ->
  shape st' /\ evolves st st'.
Proof.
  intros Hc. revert st. induction deps as [|dep deps IH]; intros st Hs; cbn [start_dependencies].
  - intros [= <- <-]. split; [done | apply evolves_refl].
  - rewrite service_index_resolve by done.
    destruct (Z.ltb_spec (resolve ds dep) 0); [intros [= <- <-]; split; [done | apply evolves_refl]|].
    destruct (call _ st) as [[[] st1]|] eqn:E; [..|done];
      destruct (Hc _ _ _ _ Hs (resolve_range dep ltac:(lia)) E) as (Hs1 & He1 & _).
    + intros E2. destruct (IH st1 Hs1 E2) as [Hs2 He2]. split; [done | by eapply evolves_trans].
    + by intros [= <- <-].
Qed.

(** The last assignment of a call: the service leaves the pending state. *)
Lemma settle_state st st1 i s w :
  shape st -> in_table i -> state_of st i = Some SERVICE_STOPPED ->
  shape st1 -> evolves (set_state i SERVICE_START_PENDING st) st1 ->
  s = SERVICE_RUNNING \/ s = SERVICE_FAILED ->
  let st2 := set_state i s (mkSvc (service_runtime st1) (service_runtime_count st1) w) in
  shape st2 /\ evolves st st2 /\ state_of st2 i = Some s.
Proof.
  intros Hs Hi E Hs1 He Hfin st2.
  assert (shape st2) as Hs2 by (apply set_state_shape; exact Hs1).
  assert (forall j, in_table j -> state_of st2 j = if j =? i then Some s else state_of st1 j) as Hst.
  { intros j Hj. unfold st2. unfold in_table in *. rewrite state_of_set by lia.
    destruct (Z.eqb_spec j i) as [->|]; [|done].
    destruct (state_of_Some st1 i Hs1 Hi) as [x Hx]. unfold state_of in *. cbn [service_runtime]. by rewrite Hx. }
  split; [done|]. split; [|by rewrite Hst, Z.eqb_refl].
  intros j s0 Hj E0. rewrite Hst by done. destruct (Z.eqb_spec j i) as [->|Hne].
  - exists s. split; [done|]. rewrite E in E0. injection E0 as <-. unfold step. eauto.
  - apply He; [done|]. unfold in_table in *. rewrite state_of_set by lia.
    by rewrite (proj2 (Z.eqb_neq j i) Hne).
Qed.

Lemma start_one_post fuel : settles (service_start_one start fuel).
Proof.
  induction fuel as [|fuel IH]; intros i st r st' Hs Hi; cbn [service_start_one]; [done|].
  destruct (shape_lookup st i Hs Hi) as (rt & Hr & _). rewrite Hr.
  assert (state_of st i = Some (state rt)) as Est by (unfold state_of; by rewrite Hr).
  destruct (state rt) eqn:E.
  - destruct (start_dependencies _ _ _) as [[ok st1]|] eqn:Ed; [|done].
    destruct (start_dependencies_post _ _ _ _ _ IH (set_state_shape i _ st Hs) Ed) as [Hs1 He1].
    destruct ok.
    + destruct (start _ _) as [ok w]. destruct ok; intros [= <- <-];
        apply (settle_state st st1 i _ w); auto.
    + intros [= <- <-]. destruct st1 as [rt1 n1 w1].
      apply (settle_state st (mkSvc rt1 n1 w1) i _ w1); auto.
  - intros [= <- <-]. split; [by apply set_state_shape|]. unfold in_table in Hi. split.
    + intros j s Hj Ej. unfold in_table in Hj. rewrite state_of_set by lia.
      destruct (Z.eqb_spec j i) as [->|]; [|exists s; split; [done | by left]].
      rewrite Est in Ej |- *. injection Ej as <-. exists SERVICE_FAILED. split; [done|]. by right; right.
    + rewrite state_of_set, Z.eqb_refl, Est by lia. done.
  - intros [= <- <-]. split; [done|]. split; [apply evolves_refl | done].
  - intros [= <- <-]. split; [done|]. split; [apply evolves_refl | done].
Qed.

Lemma start_one_total fuel i st :
  shape st -> in_table i -> stopped st < Z.of_nat fuel ->
  exists r st', service_start_one start fuel i st = Some (r, st').
Proof.
  revert i st. induction fuel as [|fuel IH]; intros i st Hs Hi Hf.
  { pose proof (count_false_bounds (fun i => negb (is_stopped st i)) (length ds)). unfold stopped in Hf. lia. }
  cbn [service_start_one]. destruct (shape_lookup st i Hs Hi) as (rt & Hr & _). rewrite Hr.
  destruct (state rt) eqn:E; eauto.
  assert (state_of st i = Some SERVICE_STOPPED) as Est by (unfold state_of; by rewrite Hr, <- E).
  pose proof (pend_stopped st i Hs Hi Est) as Hp.
  assert (forall deps st0, shape st0 -> stopped st0 < Z.of_nat fuel ->
    exists r st', start_dependencies (service_start_one start fuel) deps st0 = Some (r, st')) as Hdeps.
  { induction deps as [|dep deps IHd]; intros st0 Hs0 Hf0; cbn [start_dependencies]; [by eauto|].
    rewrite service_index_resolve by done. destruct (Z.ltb_spec (resolve ds dep) 0); [by eauto|].
    pose proof (resolve_range dep ltac:(lia)) as Hd.
    destruct (IH _ st0 Hs0 Hd Hf0) as (r & st1 & E1). rewrite E1.
    destruct r; [|by eauto]. destruct (start_one_post _ _ _ _ _ Hs0 Hd E1) as (Hs1 & He1 & _).
    apply IHd; [done|]. pose proof (evolves_stopped st0 st1 Hs0 He1). lia. }
  destruct (Hdeps (dependencies (descriptor rt)) (set_state i SERVICE_START_PENDING st)) as (r & st1 & ->).
  - by apply set_state_shape.
  - lia.
  - destruct r; [|by eauto]. destruct (start _ _) as [[] w]; by eauto.
Qed.

(** ** The phases *)

Definition settled st (i : Z) : Prop :=
  state_of st i = Some SERVICE_RUNNING \/ state_of st i = Some SERVICE_FAILED.

Definition no_pending st : Prop := forall i, in_table i -> state_of st i <> Some SERVICE_START_PENDING.

Lemma evolves_settled st st' i : in_table i -> evolves st st' -> settled st i -> settled st' i.
Proof.
  intros Hi He [E | E]; destruct (He i _ Hi E) as (s' & E' & Hst); unfold step in Hst;
    destruct_or?; destruct_and?; subst; try discriminate; [by left | by right].
Qed.

Lemma evolves_no_pending st st' : shape st -> evolves st st' -> no_pending st -> no_pending st'.
Proof.
  intros Hs He Hn i Hi E. destruct (state_of_Some st i Hs Hi) as (s & Es).
  destruct (He i s Hi Es) as (s' & E' & Hst). rewrite E in E'. injection E' as <-.
  apply (Hn i Hi). rewrite Es. unfold step in Hst. intuition congruence.
Qed.

(** A property kept by every top-level call is kept by the whole start. *)
Definition kept_by_calls (fuel : nat) (Q : svc W -> Prop) : Prop :=
  forall i st r st', shape st -> no_pending st -> in_table i -> Q st ->
    service_start_one start fuel i st = Some (r, st') -> Q st'.

Lemma start_phase_spec fuel Q t rest pre st :
  ds = pre ++ rest -> kept_by_calls fuel Q -> shape st -> no_pending st -> Q st ->
  (length ds < fuel)%nat ->
  exists st', start_phase start fuel t rest (Z.of_nat (length pre)) st = Some st' /\
    shape st' /\ no_pending st' /\ evolves st st' /\ Q st' /\
    forall j d, Z.of_nat (length pre) <= j -> ds !! Z.to_nat j = Some d -> start_type d = t -> settled st' j.
Proof.
  intros Ed HQ. revert pre Ed st. induction rest as [|d rest IH]; intros pre Ed st Hs Hn Hq Hf; cbn [start_phase].
  - exists st. do 3 (split; [done|]). split; [apply evolves_refl|]. split; [done|].
    intros j d Hj E _. apply lookup_lt_Some in E. rewrite Ed, app_nil_r in E. lia.
  - assert (ds = (pre ++ [d]) ++ rest) as Ed' by (rewrite <- app_assoc; exact Ed).
    assert (Z.of_nat (length pre) + 1 = Z.of_nat (length (pre ++ [d]))) as Elen
      by (rewrite length_app; cbn; lia).
    assert (in_table (Z.of_nat (length pre))) as Hi.
    { unfold in_table. rewrite Ed, length_app. cbn. lia. }
    assert (ds !! length pre = Some d) as Hd.
    { rewrite Ed, lookup_app_r, Nat.sub_diag by lia. done. }
    assert (stopped st < Z.of_nat fuel) as Hfuel.
    { pose proof (count_false_bounds (fun i => negb (is_stopped st i)) (length ds)). unfold stopped. lia. }
    rewrite Elen. destruct (Z.eqb_spec (start_type d) t) as [Et|Et].
    + destruct (start_one_total fuel _ st Hs Hi Hfuel) as (r & st1 & E1). rewrite E1.
      destruct (start_one_post fuel _ st r st1 Hs Hi E1) as (Hs1 & He1 & Hset).
      pose proof (evolves_no_pending st st1 Hs He1 Hn) as Hn1.
      destruct (IH _ Ed' st1 Hs1 Hn1 (HQ _ _ _ _ Hs Hn Hi Hq E1) Hf)
        as (st' & E' & Hs' & Hn' & He' & Hq' & Hall).
      exists st'. split; [done|]. split; [done|]. split; [done|].
      split; [by eapply evolves_trans|]. split; [done|].
      intros j d' Hj E2 Et'. destruct (Z.eq_dec j (Z.of_nat (length pre))) as [->|].
      * eapply evolves_settled; [done | exact He' |]. rewrite <- Elen in *.
        unfold settled. rewrite Hset. destruct r; auto.
      * apply (Hall j d'); [lia | done | done].
    + destruct (IH _ Ed' st Hs Hn Hq Hf) as (st' & E' & Hs' & Hn' & He' & Hq' & Hall).
      exists st'. do 5 (split; [done|]). intros j d' Hj E2 Et'.
      destruct (Z.eq_dec j (Z.of_nat (length pre))) as [->|]; [|apply (Hall j d'); [lia | done | done]].
      rewrite Nat2Z.id in E2. congruence.
Qed.

Lemma start_phases_spec fuel Q ts st :
  kept_by_calls fuel Q -> shape st -> no_pending st -> Q st -> (length ds < fuel)%nat ->
  exists st', start_phases start fuel ts ds st = Some st' /\ shape st' /\ no_pending st' /\
    evolves st st' /\ Q st' /\
    forall j d, in_table j -> ds !! Z.to_nat j = Some d -> start_type d ∈ ts -> settled st' j.
Proof.
  intros HQ. revert st. induction ts as [|t ts IH]; intros st Hs Hn Hq Hf; cbn [start_phases].
  - exists st. do 3 (split; [done|]). split; [apply evolves_refl|]. split; [done|].
    intros ??? _ Hin. by apply not_elem_of_nil in Hin.
  - destruct (start_phase_spec fuel Q t ds [] st eq_refl HQ Hs Hn Hq Hf)
      as (st1 & E1 & Hs1 & Hn1 & He1 & Hq1 & Hall). change (Z.of_nat (length [])) with 0 in E1. rewrite E1.
    destruct (IH st1 Hs1 Hn1 Hq1 Hf) as (st2 & E2 & Hs2 & Hn2 & He2 & Hq2 & Hall2).
    exists st2. do 3 (split; [done|]). split; [by eapply evolves_trans|]. split; [done|].
    intros j d Hj Hd [Et|Hin]%elem_of_cons; [|by eapply Hall2].
    eapply evolves_settled; [done | exact He2|]. apply (Hall j d); [unfold in_table in Hj; cbn; lia | done | done].
Qed.

Lemma initial_shape w :
  let st := mkSvc (map (fun s => mkRuntime s SERVICE_STOPPED) ds) (length ds) w in
  shape st /\ forall i, in_table i -> state_of st i = Some SERVICE_STOPPED.
Proof.
  intros st. split.
  - split; [|done]. cbn. rewrite map_map. cbn. apply map_id.
  - intros i Hi. unfold state_of, st. cbn. unfold in_table in Hi.
    destruct (lookup_lt_is_Some_2 ds (Z.to_nat i)) as [d Hd]; [lia|].
    change (map (fun s => mkRuntime s SERVICE_STOPPED) ds) with ((fun s => mkRuntime s SERVICE_STOPPED) <$> ds).
    by rewrite list_lookup_fmap, Hd.
Qed.

Lemma ServiceManagerStart_spec `{KernelHeap W} (a : arch) Q st :
  ds <> [] -> kh_ok (world st) -> Z.of_nat (length ds) <= 1000000 ->
  kept_by_calls (S (length ds)) Q ->
  (forall p w, kh_malloc (Z.of_nat (length ds) * sizeof_SERVICE_RUNTIME a) (world st) = Some (p, w) ->
     Q (mkSvc (map (fun s => mkRuntime s SERVICE_STOPPED) ds) (length ds) w)) ->
  (exists st', ServiceManagerStart start a ds st = Some (0, st') /\
     kh_malloc (Z.of_nat (length ds) * sizeof_SERVICE_RUNTIME a) (world st) = Some (0, world st')) \/
  (exists st', ServiceManagerStart start a ds st = Some (1, st') /\ shape st' /\ no_pending st' /\ Q st' /\
     forall j d, in_table j -> ds !! Z.to_nat j = Some d ->
       SERVICE_BOOT_START <= start_type d <= SERVICE_AUTO_START -> settled st' j).
Proof.
  intros Hne Hok Hlen HQ HQ0. unfold ServiceManagerStart.
  destruct (Z.eqb_spec (Z.of_nat (length ds)) 0) as [E0|Hn0]; [by destruct ds|].
  set (n := Z.of_nat (length ds) * sizeof_SERVICE_RUNTIME a).
  assert (0 < n <= 16000000) as Hn by (unfold n; destruct a; cbn; lia).
  rewrite u32_small by (unfold is_u32; lia).
  destruct (kh_malloc_spec (world st) n Hok ltac:(lia)) as (p & w & Em & Hok' & _). rewrite Em.
  destruct (Z.eqb_spec p 0) as [->|]; [left; by eexists|]. right.
  destruct (initial_shape w) as [Hs Hst].
  destruct (start_phases_spec (S (length ds)) Q [SERVICE_BOOT_START; SERVICE_SYSTEM_START; SERVICE_AUTO_START]
    _ HQ Hs) as (st' & E & Hs' & Hn' & _ & Hq' & Hall).
  - intros i Hi. by rewrite Hst.
  - by eapply HQ0.
  - lia.
  - exists st'. rewrite E. do 4 (split; [done|]). intros j d Hj Hd Ht. apply (Hall j d Hj Hd).
    unfold SERVICE_BOOT_START, SERVICE_SYSTEM_START, SERVICE_AUTO_START in *.
    rewrite !elem_of_cons. lia.
Qed.

End proofs.

Lemma strcmp_name_eq d nm : cstring (name d) -> cstring nm -> (strcmp (name d) nm =? 0) = true <-> name d = nm.
Proof. intros. rewrite Z.eqb_eq. by apply strcmp_eq. Qed.

Lemma find_name_Some i nm ds :
  Forall (fun d => cstring (name d)) ds -> cstring nm -> 0 <= find_name i nm ds ->
  exists d, ds !! (Z.to_nat (find_name i nm ds) - i)%nat = Some d /\ name d = nm /\
    (i <= Z.to_nat (find_name i nm ds))%nat.
Proof.
  intros Hds Hnm. revert i. induction Hds as [|d ds Hd _ IH]; intros i; cbn [find_name]; [lia|].
  destruct (strcmp (name d) nm =? 0) eqn:E.
  - intros _. exists d. rewrite Nat2Z.id, Nat.sub_diag. split; [done|]. split; [by apply strcmp_name_eq | lia].
  - intros Hpos. destruct (IH (S i) Hpos) as (d' & E' & Hn & Hle). exists d'. split; [|split; [done | lia]].
    rewrite <- E'. replace (Z.to_nat (find_name (S i) nm ds) - i)%nat
      with (S (Z.to_nat (find_name (S i) nm ds) - S i)) by lia. done.
Qed.

Lemma resolve_Some ds nm :
  Forall (fun d => cstring (name d)) ds -> cstring nm -> 0 <= resolve ds nm ->
  exists d, ds !! Z.to_nat (resolve ds nm) = Some d /\ name d = nm.
Proof.
  intros H1 H2 H3. destruct (find_name_Some 0 nm ds H1 H2 H3) as (d & E & Hn & _).
  exists d. by rewrite Nat.sub_0_r in E.
Qed.

(** ** The order of the start calls *)

Section order.
Context {H : Type} (ds : list SERVICE_DESCRIPTOR).
Definition event : Type := SERVICE_DESCRIPTOR * bool.

(** A start routine whose outcome may depend on the kernel state and on
    everything started before; [log] records its calls, latest first. *)
Context (oracle : SERVICE_DESCRIPTOR -> H -> list event -> bool * H).

Definition logged_start (d : SERVICE_DESCRIPTOR) (w : H * list event) : bool * (H * list event) :=
  let '(ok, h) := oracle d (fst w) (snd w) in (ok, (h, (d, ok) :: snd w)).

Definition log (st : svc (H * list event)) : list event := snd (world st).

(** Every call comes after a successful one for each dependency, and no service
    is started twice. *)
Fixpoint ordered (l : list event) : Prop :=
  match l with
  | [] => True
  | (d, _) :: l' =>
      (forall dep, dep ∈ dependencies d -> exists d', name d' = dep /\ (d', true) ∈ l') /\
      (forall ok, (d, ok) ∉ l') /\ ordered l'
  end.

Context (Hnames : NoDup ds) (Hcs : Forall (fun d => cstring (name d)) ds).
Context (Hdeps : Forall (fun d => Forall cstring (dependencies d)) ds).
Implicit Types st : svc (H * list event).

(** The states tell what the log says. *)
Definition log_inv st : Prop :=
  ordered (log st) /\
  forall i d, in_table ds i -> ds !! Z.to_nat i = Some d ->
    ((d, true) ∈ log st <-> state_of st i = Some SERVICE_RUNNING) /\
    ((d, false) ∈ log st -> state_of st i = Some SERVICE_FAILED).

(** Calls log only services that were stopped. *)
Definition logs_stopped st st' : Prop :=
  forall i d ok, in_table ds i -> ds !! Z.to_nat i = Some d ->
    state_of st i <> Some SERVICE_STOPPED -> (d, ok) ∈ log st' -> (d, ok) ∈ log st.

Definition keeps_log (call : Z -> svc (H * list event) -> option (bool * svc (H * list event))) : Prop :=
  forall i st r st', shape ds st -> in_table ds i -> log_inv st -> call i st = Some (r, st') ->
    log_inv st' /\ logs_stopped st st'.

Lemma evolves_not_stopped st st' i :
  shape ds st -> in_table ds i -> evolves ds st st' ->
  state_of st i <> Some SERVICE_STOPPED -> state_of st' i <> Some SERVICE_STOPPED.
Proof.
  intros Hs Hi He Hne E. destruct (state_of_Some ds st i Hs Hi) as (s & Es).
  destruct (He i s Hi Es) as (s' & E' & Hst). unfold step in Hst. rewrite Es in Hne. rewrite E in E'.
  injection E' as <-. intuition congruence.
Qed.

Lemma start_dependencies_log call deps st r st' :
  settles ds call -> keeps_log call -> shape ds st -> log_inv st ->
  Forall cstring deps -> start_dependencies call deps st = Some (r, st') ->
  log_inv st' /\ logs_stopped st st' /\
  (r = true -> forall dep, dep ∈ deps -> exists i d, in_table ds i /\ ds !! Z.to_nat i = Some d /\
     name d = dep /\ state_of st' i = Some SERVICE_RUNNING).
Proof.
  intros Hset Hk. revert st. induction deps as [|dep deps IH]; intros st Hs Hl Hd; cbn [start_dependencies].
  - intros [= <- <-]. split; [done|]. split; [by intros ???|]. intros _ dep Hin. by apply not_elem_of_nil in Hin.
  - apply Forall_cons in Hd as [Hdep Hd]. rewrite (service_index_resolve ds) by done.
    destruct (Z.ltb_spec (resolve ds dep) 0); [intros [= <- <-]; split; [done|]; split; [by intros ???|done]|].
    pose proof (resolve_range ds dep ltac:(lia)) as Hi.
    destruct (call _ st) as [[ok st1]|] eqn:E; [|done].
    destruct (Hset _ _ _ _ Hs Hi E) as (Hs1 & He1 & Hr1).
    destruct (Hk _ _ _ _ Hs Hi Hl E) as [Hl1 Hf1].
    destruct ok; [|by intros [= <- <-]]. intros E2.
    destruct (IH st1 Hs1 Hl1 Hd E2) as (Hl2 & Hf2 & Hall).
    destruct (start_dependencies_post ds _ _ _ _ _ Hset Hs1 E2) as [_ He2].
    split; [done|]. split.
    + intros i d b Hi' Hdi Hne Hin. apply (Hf1 i d b Hi' Hdi Hne). apply (Hf2 i d b Hi' Hdi); [|done].
      by apply (evolves_not_stopped st st1).
    + intros -> dep' [->|Hin]%elem_of_cons; [|by apply Hall].
      destruct (resolve_Some ds dep Hcs Hdep ltac:(lia)) as (d & Ed & Hn).
      exists (resolve ds dep), d. do 3 (split; [done|]).
      destruct (He2 _ _ Hi Hr1) as (s' & E' & Hst). rewrite E'. unfold step in Hst. intuition congruence.
Qed.

(** Changing the state of one service together with its log entries. *)
Lemma log_inv_update st i d s h l :
  shape ds st -> log_inv st -> in_table ds i -> ds !! Z.to_nat i = Some d -> ordered l ->
  (forall d' ok, d' <> d -> (d', ok) ∈ l <-> (d', ok) ∈ log st) ->
  ((d, true) ∈ l <-> s = SERVICE_RUNNING) -> ((d, false) ∈ l -> s = SERVICE_FAILED) ->
  log_inv (set_state i s (mkSvc (service_runtime st) (service_runtime_count st) (h, l))).
Proof.
  intros Hs [_ Hl] Hi Hd Ho Hsame Ht Hf. split; [exact Ho|]. intros j d' Hj Hd'.
  change (log (set_state _ _ _)) with l. unfold in_table in *. rewrite state_of_set by lia.
  change (state_of (mkSvc _ _ _) j) with (state_of st j).
  change (state_of (mkSvc _ _ _) i) with (state_of st i).
  destruct (Z.eqb_spec j i) as [->|Hne].
  - rewrite Hd in Hd'. injection Hd' as <-.
    destruct (state_of_Some ds st i Hs Hi) as [s0 ->]. cbn. rewrite Ht. split; [|intros ?; by rewrite Hf].
    split; [by intros -> | by intros [= ->]].
  - assert (d' <> d) as Hdd.
    { intros ->. apply Hne. pose proof (NoDup_lookup _ _ _ _ Hnames Hd Hd'). lia. }
    rewrite !Hsame by done. by apply Hl.
Qed.

Lemma not_logged st i d ok :
  log_inv st -> in_table ds i -> ds !! Z.to_nat i = Some d ->
  state_of st i = Some SERVICE_STOPPED \/ state_of st i = Some SERVICE_START_PENDING -> (d, ok) ∉ log st.
Proof.
  intros [_ Hl] Hi Hd Hst Hin. destruct (Hl i d Hi Hd) as [Ht Hf]. destruct ok.
  - apply Ht in Hin. intuition congruence.
  - apply Hf in Hin. intuition congruence.
Qed.

Lemma set_state_same st i s :
  set_state i s st = set_state i s (mkSvc (service_runtime st) (service_runtime_count st) (fst (world st), log st)).
Proof. unfold set_state, log. cbn. by destruct (world st). Qed.

(** A service that is not logged changes its state, but not to running. *)
Lemma log_inv_silent st i d s :
  shape ds st -> log_inv st -> in_table ds i -> ds !! Z.to_nat i = Some d ->
  (forall ok, (d, ok) ∉ log st) -> s <> SERVICE_RUNNING -> log_inv (set_state i s st).
Proof.
  intros Hs Hl Hi Hd Hno Hne. rewrite set_state_same. apply (log_inv_update st i d); try done.
  - apply Hl.
  - split; [intros Hin; by apply Hno in Hin | done].
  - intros Hin. by apply Hno in Hin.
Qed.

Lemma start_one_log fuel : keeps_log (service_start_one logged_start fuel).
Proof.
  induction fuel as [|fuel IH]; intros i st r st' Hs Hi Hl; cbn [service_start_one]; [done|].
  destruct (shape_lookup ds st i Hs Hi) as (rt & Hr & Hd). rewrite Hr.
  assert (state_of st i = Some (state rt)) as Est by (unfold state_of; by rewrite Hr).
  destruct (state rt) eqn:E; [| |by intros [= <- <-]; split; [done | by intros ???]..].
  2:{ intros [= <- <-]. pose proof (fun ok => not_logged st i _ ok Hl Hi Hd (or_intror Est)) as Hno.
      split; [|by intros ???]. by eapply log_inv_silent. }
  pose proof (fun ok => not_logged st i _ ok Hl Hi Hd (or_introl Est)) as Hno.
  set (st0 := set_state i SERVICE_START_PENDING st).
  assert (shape ds st0) as Hs0 by (by apply set_state_shape).
  assert (log_inv st0) as Hl0.
  { by eapply log_inv_silent. }
  assert (state_of st0 i = Some SERVICE_START_PENDING) as Est0.
  { unfold st0. unfold in_table in Hi. rewrite state_of_set, Z.eqb_refl, Est by lia. done. }
  assert (forall j d ok, in_table ds j -> ds !! Z.to_nat j = Some d ->
    state_of st j <> Some SERVICE_STOPPED -> (d, ok) ∈ log st0 -> (d, ok) ∈ log st) as Hlog0 by done.
  assert (forall j, in_table ds j -> state_of st j <> Some SERVICE_STOPPED ->
    state_of st0 j <> Some SERVICE_STOPPED) as Hns.
  { intros j Hj Hne. unfold st0, in_table in *. rewrite state_of_set by lia.
    destruct (Z.eqb_spec j i) as [->|]; [by rewrite Est | done]. }
  assert (Forall cstring (dependencies (descriptor rt))) as Hdc.
  { rewrite Forall_lookup in Hdeps. by eapply Hdeps. }
  destruct (start_dependencies _ _ st0) as [[ok st1]|] eqn:Ed; [|done].
  destruct (start_dependencies_log _ _ _ _ _ (start_one_post _ ds fuel) IH Hs0 Hl0 Hdc Ed)
    as (Hl1 & Hf1 & Hall).
  destruct (start_dependencies_post ds _ _ _ _ _ (start_one_post _ ds fuel) Hs0 Ed) as [Hs1 He1].
  assert (forall ok, (descriptor rt, ok) ∉ log st1) as Hno1.
  { intros b Hin. apply (Hf1 i _ b Hi Hd) in Hin; [by apply Hno in Hin|]. by rewrite Est0. }
  assert (logs_stopped st st1) as Hf.
  { intros j d b Hj Hdj Hne Hin. apply (Hf1 j d b Hj Hdj) in Hin; [done | by apply Hns]. }
  destruct ok.
  2:{ intros [= <- <-]. split; [|done]. by eapply log_inv_silent. }
  unfold logged_start at 1. destruct (oracle _ _ _) as [ok h].
  assert (log_inv (set_state i (if ok then SERVICE_RUNNING else SERVICE_FAILED)
    (mkSvc (service_runtime st1) (service_runtime_count st1) (h, (descriptor rt, ok) :: log st1)))) as Hfin.
  { apply (log_inv_update st1 i (descriptor rt)); try done.
    - cbn. split; [|split; [done | apply Hl1]]. intros dep Hin.
      destruct (Hall eq_refl dep Hin) as (j & d' & Hj & Hdj & Hn & Hrun). exists d'. split; [done|].
      by apply (proj2 Hl1 j d' Hj Hdj).
    - intros d' b Hne. rewrite elem_of_cons. split; [intros [[= -> _] | ?]; done | by right].
    - rewrite elem_of_cons. split.
      + intros [[= <-] | Hin]; [done | by apply Hno1 in Hin].
      + destruct ok; [by left | done].
    - rewrite elem_of_cons. intros [[= <-] | Hin]; [done | by apply Hno1 in Hin]. }
  assert (logs_stopped st (set_state i (if ok then SERVICE_RUNNING else SERVICE_FAILED)
    (mkSvc (service_runtime st1) (service_runtime_count st1) (h, (descriptor rt, ok) :: log st1)))) as Hff.
  { intros j d b Hj Hdj Hne. change (log (set_state _ _ _)) with ((descriptor rt, ok) :: log st1).
    rewrite elem_of_cons. intros [[= -> ->] | Hin]; [|by apply (Hf j d b)].
    exfalso. pose proof (NoDup_lookup _ _ _ _ Hnames Hd Hdj). apply Hne.
    replace j with i; [done|]. unfold in_table in *. lia. }
  destruct ok; intros [= <- <-]; split; done.
Qed.

End order.

(** A kernel heap next to any other state. *)
#[global] Instance heap_beside {H L} `{!KernelHeap H} : KernelHeap (H * L).
Proof.
  refine {| kh_ok := fun w => kh_ok (fst w); kh_live := fun w => kh_live (fst w);
    kh_malloc := fun n w => (fun r => (fst r, (snd r, snd w))) <$> kh_malloc n (fst w);
    kh_free := fun p w => (fun h => (h, snd w)) <$> kh_free p (fst w) |}.
  - intros [h l] n Hok Hn. destruct (kh_malloc_spec h n Hok Hn) as (p & h' & E & Hok' & Hc).
    exists p, (h', l). cbn [fst snd]. by rewrite E.
  - intros [h l] p Hok. destruct (kh_free_spec h p Hok) as (h' & E & Hf). exists (h', l). cbn [fst snd]. by rewrite E.
  - intros [h l] Hok. by apply kh_live_null.
  - intros [h l] p cap Hok. by apply kh_live_bounds.
Defined.

(** C3. Services start in dependency order.  For every table of distinct
    services and every start routine, whatever its outcomes depend on,
    [ServiceManagerStart] terminates and returns 0 only when the heap has no
    room for the table; otherwise in the sequence of start calls every service
    comes after a successful call for each of its dependencies and none occurs
    twice, a service is RUNNING exactly when its call succeeded, all boot,
    system and auto-start services have been decided (RUNNING or FAILED) and
    none is left START_PENDING. *)
Theorem ServiceManagerStart_ordered {H} `{KernelHeap H} (a : arch) (ds : list SERVICE_DESCRIPTOR)
  (oracle : SERVICE_DESCRIPTOR -> H -> list event -> bool * H) (h : H) :
  ds <> [] -> Z.of_nat (length ds) <= 1000000 -> NoDup ds -> kh_ok h ->
  Forall (fun d => cstring (name d)) ds -> Forall (fun d => Forall cstring (dependencies d)) ds ->
  (exists st', ServiceManagerStart (logged_start oracle) a ds (mkSvc [] 0 (h, [])) = Some (0, st') /\
     kh_malloc (Z.of_nat (length ds) * sizeof_SERVICE_RUNTIME a) h = Some (0, fst (world st')) /\ log st' = []) \/
  (exists st', ServiceManagerStart (logged_start oracle) a ds (mkSvc [] 0 (h, [])) = Some (1, st') /\
     ordered (log st') /\
     forall i d, in_table ds i -> ds !! Z.to_nat i = Some d ->
       ((d, true) ∈ log st' <-> state_of st' i = Some SERVICE_RUNNING) /\
       state_of st' i <> Some SERVICE_START_PENDING /\
       (SERVICE_BOOT_START <= start_type d <= SERVICE_AUTO_START -> settled st' i)).
Proof.
  intros Hne Hlen Hnd Hok Hcs Hdeps.
  assert (forall n p w, kh_malloc n ((h, []) : H * list event) = Some (p, w) ->
    kh_malloc n h = Some (p, fst w) /\ snd w = []) as Hm.
  { intros n p w E. cbn in E. destruct (kh_malloc n h) as [[p' h']|]; [|done]. by injection E as <- <-. }
  destruct (ServiceManagerStart_spec (logged_start oracle) ds a (log_inv ds) (mkSvc [] 0 (h, [])))
    as [(st' & E & Em) | (st' & E & Hs & Hn & [Ho Hl] & Hall)]; try done.
  - intros i st r st' Hs _ Hi Hl Ec. by eapply (start_one_log ds oracle Hnd Hcs Hdeps).
  - intros p w [_ Hw]%Hm. split; [unfold log; cbn; by rewrite Hw|].
    intros i d Hi Hd. destruct (initial_shape ds w) as [_ ->]; [|done]. unfold log. cbn [world].
    rewrite Hw. split; [split; [intros Hin; by apply not_elem_of_nil in Hin | done]|].
    intros Hin. by apply not_elem_of_nil in Hin.
  - left. exists st'. apply Hm in Em as [? ?]. done.
  - right. exists st'. split; [done|]. split; [done|]. intros i d Hi Hd.
    split; [by apply Hl|]. split; [by apply Hn | by apply Hall].
Qed.

(** ** Which services end up running *)

Section startable.
Context {W : Type} (start : SERVICE_DESCRIPTOR -> W -> bool * W) (ok : SERVICE_DESCRIPTOR -> bool).
Context (ds : list SERVICE_DESCRIPTOR).
Context (Hstart : forall d w, fst (start d w) = ok d).

(** A service can be started when its own routine succeeds and every dependency
    names a service that can be started; least fixed point, so a service on a
    dependency cycle cannot. *)
Inductive Startable : Z -> Prop :=
| startable i d :
    in_table ds i -> ds !! Z.to_nat i = Some d -> ok d = true ->
    (forall dep, dep ∈ dependencies d -> 0 <= resolve ds dep) ->
    (forall dep, dep ∈ dependencies d -> Startable (resolve ds dep)) ->
    Startable i.

(** Paths in the dependency graph. *)
Inductive needs : Z -> Z -> Prop :=
| needs_one i d dep :
    ds !! Z.to_nat i = Some d -> dep ∈ dependencies d -> needs i (resolve ds dep)
| needs_more i d dep j :
    ds !! Z.to_nat i = Some d -> dep ∈ dependencies d -> needs (resolve ds dep) j -> needs i j.

Lemma needs_trans i j k : needs i j -> needs j k -> needs i k.
Proof. induction 1; intros; eapply needs_more; eauto. Qed.

Lemma needs_snoc i j d dep :
  needs i j -> ds !! Z.to_nat j = Some d -> dep ∈ dependencies d -> needs i (resolve ds dep).
Proof. intros. eapply needs_trans; [done|]. by eapply needs_one. Qed.

Lemma startable_needs i j : Startable i -> needs i j -> Startable j.
Proof.
  intros Hs Hn. induction Hn as [i d dep Hd Hin | i d dep j Hd Hin _ IH];
    inversion_clear Hs as [? d' _ Hd' _ _ Hall]; rewrite Hd in Hd'; injection Hd' as <-; eauto.
Qed.

Lemma startable_acyclic i : Startable i -> ~ needs i i.
Proof.
  intros Hs. induction Hs as [i d Hi Hd Hok Hpos Hall IH]. intros Hn.
  assert (exists dep, dep ∈ dependencies d /\ needs (resolve ds dep) (resolve ds dep)) as (dep & Hin & Hc).
  { remember i as j eqn:Ej in Hn at 2.
    destruct Hn as [i d' dep Hd' Hin | i d' dep j Hd' Hin Hn'];
      rewrite Hd in Hd'; injection Hd' as <-; exists dep; split; try done.
    - rewrite Ej at 1. by eapply needs_one.
    - subst j. by eapply needs_snoc. }
  by apply (IH dep Hin).
Qed.

Implicit Types st : svc W.

Definition run_ok st : Prop :=
  forall i, in_table ds i ->
    (Startable i -> state_of st i <> Some SERVICE_FAILED) /\
    (state_of st i = Some SERVICE_RUNNING -> Startable i).

(** While [i] is being started, the pending services are those that need it. *)
Definition pending_need st (i : Z) : Prop :=
  forall j, in_table ds j -> state_of st j = Some SERVICE_START_PENDING -> needs j i.

Definition decides (call : Z -> svc W -> option (bool * svc W)) : Prop :=
  forall i st r st', shape ds st -> in_table ds i -> run_ok st -> pending_need st i ->
    call i st = Some (r, st') -> run_ok st' /\ (r = true <-> Startable i).

Lemma run_ok_set st i s :
  shape ds st -> run_ok st -> in_table ds i ->
  (s = SERVICE_FAILED -> ~ Startable i) -> (s = SERVICE_RUNNING -> Startable i) -> run_ok (set_state i s st).
Proof.
  intros Hs Hr Hi Hf Ht j Hj. unfold in_table in *. rewrite state_of_set by lia.
  destruct (Z.eqb_spec j i) as [->|]; [|by apply Hr].
  destruct (state_of_Some ds st i Hs Hi) as [s0 ->]. cbn. split; [intros ? [= ->]; by apply Hf | intros [= ->]; by apply Ht].
Qed.

Lemma start_dependencies_decides call i d st r st' :
  settles ds call -> decides call -> in_table ds i -> ds !! Z.to_nat i = Some d ->
  forall deps, (forall dep, dep ∈ deps -> dep ∈ dependencies d) ->
  shape ds st -> run_ok st ->
  (forall j, in_table ds j -> state_of st j = Some SERVICE_START_PENDING -> j = i \/ needs j i) ->
  start_dependencies call deps st = Some (r, st') ->
  run_ok st' /\
  (r = true <-> forall dep, dep ∈ deps -> 0 <= resolve ds dep /\ Startable (resolve ds dep)).
Proof.
  intros Hset Hdec Hi Hd deps. revert st. induction deps as [|dep deps IH]; intros st Hsub Hs Hr Hp; cbn [start_dependencies].
  - intros [= <- <-]. split; [done|]. split; [|done]. intros _ dep Hin. by apply not_elem_of_nil in Hin.
  - rewrite (service_index_resolve ds) by done.
    destruct (Z.ltb_spec (resolve ds dep) 0).
    { intros [= <- <-]. split; [done|]. split; [done|]. intros Hall.
      destruct (Hall dep ltac:(apply elem_of_cons; by left)). lia. }
    pose proof (resolve_range ds dep ltac:(lia)) as Hj.
    destruct (call _ st) as [[b st1]|] eqn:E; [|done].
    destruct (Hset _ _ _ _ Hs Hj E) as (Hs1 & He1 & _).
    assert (dep ∈ dependencies d) as Hin by (apply Hsub, elem_of_cons; by left).
    destruct (Hdec _ st b st1 Hs Hj Hr) as [Hr1 Hb]; [|done|].
    { intros j Hj' Hpj. destruct (Hp j Hj' Hpj) as [->|Hn]; [by eapply needs_one | by eapply needs_snoc]. }
    destruct b.
    + intros E2. destruct (IH st1) as [Hr2 Hall]; try done.
      * intros dep' ?. apply Hsub, elem_of_cons. by right.
      * intros j Hj' Hpj. apply Hp; [done|]. destruct (state_of_Some ds st j Hs Hj') as [s Es].
        destruct (He1 j s Hj' Es) as (s' & Es' & Hst). unfold step in Hst. intuition congruence.
      * split; [done|]. rewrite Hall. split.
        -- intros Hds dep' [->|?]%elem_of_cons; [|by apply Hds]. split; [done | by apply Hb].
        -- intros Hds dep' ?. apply Hds, elem_of_cons. by right.
    + intros [= <- <-]. split; [done|]. split; [done|]. intros Hall.
      destruct (Hall dep ltac:(apply elem_of_cons; by left)) as [_ Hst]. by apply Hb in Hst.
Qed.

Lemma start_one_decides fuel : decides (service_start_one start fuel).
Proof.
  induction fuel as [|fuel IH]; intros i st r st' Hs Hi Hr Hp; cbn [service_start_one]; [done|].
  destruct (shape_lookup ds st i Hs Hi) as (rt & Hrt & Hd). rewrite Hrt.
  assert (state_of st i = Some (state rt)) as Est by (unfold state_of; by rewrite Hrt).
  destruct (state rt) eqn:E.
  - set (st0 := set_state i SERVICE_START_PENDING st).
    destruct (start_dependencies _ _ st0) as [[b st1]|] eqn:Ed; [|done].
    assert (shape ds st0) as Hs0 by (by apply set_state_shape).
    destruct (start_dependencies_decides _ i _ st0 b st1 (start_one_post start ds fuel) IH Hi Hd
      (dependencies (descriptor rt))) as [Hr1 Hall]; try done.
    { apply run_ok_set; done. }
    { intros j Hj. unfold st0, in_table in *. rewrite state_of_set by lia.
      destruct (Z.eqb_spec j i) as [->|]; [by left | right; by apply Hp]. }
    destruct (start_dependencies_post ds _ _ _ _ _ (start_one_post start ds fuel) Hs0 Ed) as [Hs1 _].
    assert (Startable i <-> b = true /\ ok (descriptor rt) = true) as Hiff.
    { rewrite Hall. split.
      - intros Hst. inversion_clear Hst as [? d' _ Hd' Hok Hpos Hdeps]. rewrite Hd in Hd'. injection Hd' as <-. by eauto.
      - intros [Hds ?]. econstructor; [done..| |]; intros dep Hin; by apply Hds. }
    destruct b.
    + pose proof (Hstart (descriptor rt) (world st1)) as Hok.
      destruct (start _ _) as [b w]. cbn in Hok. subst b.
      destruct (ok (descriptor rt)); intros [= <- <-].
      * split; [apply run_ok_set; try done; intros; by apply Hiff | split; intros; [by apply Hiff | done]].
      * split; [apply run_ok_set; try done; intros _ [_ ?]%Hiff; done | split; [done | intros [_ ?]%Hiff; done]].
    + intros [= <- <-].
      split; [apply run_ok_set; try done; intros _ [? _]%Hiff; done | split; [done | intros [? _]%Hiff; done]].
  - intros [= <- <-]. pose proof (Hp i Hi Est) as Hc.
    assert (~ Startable i) as Hno by (intros Hst; by apply (startable_acyclic i)).
    split; [apply run_ok_set; done | split; done].
  - intros [= <- <-]. split; [done|]. split; [|done]. intros _. by apply Hr.
  - intros [= <- <-]. split; [done|]. split; [done|]. intros Hst. by destruct (proj1 (Hr i Hi) Hst).
Qed.

End startable.

(** Exactly the startable services run.  When the outcome of each start
    routine is fixed ([ok]), after a successful [ServiceManagerStart] a boot,
    system or auto-start service is RUNNING if its routine and, transitively,
    those of all its dependencies succeed, and FAILED otherwise: a missing
    dependency, a failed one and a dependency cycle each fail every service
    that needs them and no other; demand-start services run only when
    startable. *)
Theorem ServiceManagerStart_runs_startable {W} `{KernelHeap W} (a : arch)
  (start : SERVICE_DESCRIPTOR -> W -> bool * W) (ok : SERVICE_DESCRIPTOR -> bool)
  (ds : list SERVICE_DESCRIPTOR) (st st' : svc W) :
  (forall d w, fst (start d w) = ok d) ->
  ds <> [] -> Z.of_nat (length ds) <= 1000000 -> kh_ok (world st) ->
  ServiceManagerStart start a ds st = Some (1, st') ->
  forall i d, in_table ds i -> ds !! Z.to_nat i = Some d ->
    (state_of st' i = Some SERVICE_RUNNING -> Startable ok ds i) /\
    (SERVICE_BOOT_START <= start_type d <= SERVICE_AUTO_START ->
     (Startable ok ds i -> state_of st' i = Some SERVICE_RUNNING) /\
     (~ Startable ok ds i -> state_of st' i = Some SERVICE_FAILED)).
Proof.
  intros Hstart Hne Hlen Hok E i d Hi Hd.
  destruct (ServiceManagerStart_spec start ds a (run_ok ok ds) st)
    as [(s' & E' & _) | (s' & E' & Hs & _ & Hr & Hall)]; try done.
  - intros j s r s' Hs Hn Hj Hr Ec. eapply (start_one_decides start ok ds Hstart); eauto.
    intros k Hk Hpk. by apply Hn in Hpk.
  - intros p w _ j Hj. destruct (initial_shape ds w) as [_ ->]; done.
  - rewrite E in E'. done.
  - rewrite E in E'. injection E' as <-. destruct (Hr i Hi) as [Hf Ht]. split; [done|].
    intros Hty. destruct (Hall i d Hi Hd Hty) as [Hrun | Hfail].
    + split; [done|]. intros Hno. by destruct Hno; apply Ht.
    + split; [|done]. intros Hst. by destruct (Hf Hst).
Qed.

(** ** The boot table *)

Lemma driver_services_ok :
  NoDup driver_services /\ Forall (fun d => cstring (name d)) driver_services /\
  Forall (fun d => Forall cstring (dependencies d)) driver_services.
Proof.
  split; [|split].
  - apply (NoDup_fmap_1 name), (bool_decide_eq_true_1 (NoDup (name <$> driver_services))).
    vm_compute. reflexivity.
  - repeat (constructor; [cstring_lit|]). constructor.
  - repeat (constructor; [repeat (constructor; [cstring_lit|]); constructor|]). constructor.
Qed.

(** When every driver starts, this is the order. *)
Lemma ServiceManagerStart_ordered_witness :
  exists st', ServiceManagerStart (H := heap_beside (KernelHeap0 := mm_heap X86))
      (logged_start (fun _ (h : Mm.heap Pmm.pmm) _ => (true, h))) X86 driver_services
      (mkSvc [] 0 (Mm.small_heap, [])) = Some (1, st') /\
    ordered (log st') /\
    map (fun e => name (fst e)) (rev (log st')) =
    map cstr ["Storage"; "Serial"; "Cdfs"; "Vga"; "Keyboard"; "Framebuffer"; "Mouse"; "HDA"; "ES1371";
              "AC97"; "SB16"; "Net"; "AudioService"; "Win32k"]%string.
Proof.
  destruct driver_services_ok as (H1 & H2 & H3).
  assert ((fun r => (fst r, map (fun e => name (fst e)) (rev (log (snd r))))) <$>
    ServiceManagerStart (H := heap_beside (KernelHeap0 := mm_heap X86))
      (logged_start (fun _ (h : Mm.heap Pmm.pmm) _ => (true, h))) X86 driver_services
      (mkSvc [] 0 (Mm.small_heap, [])) =
    Some (1, map cstr ["Storage"; "Serial"; "Cdfs"; "Vga"; "Keyboard"; "Framebuffer"; "Mouse"; "HDA"; "ES1371";
              "AC97"; "SB16"; "Net"; "AudioService"; "Win32k"]%string)) as Hrun by (vm_compute; reflexivity).
  destruct (ServiceManagerStart_ordered (H0 := mm_heap X86) X86 driver_services (fun _ h _ => (true, h))
    Mm.small_heap ltac:(discriminate) ltac:(cbn; lia) H1 (Mm.small_heap_ok X86) H2 H3)
    as [(st' & E & _) | (st' & E & Ho & _)].
  - rewrite E in Hrun. discriminate Hrun.
  - exists st'. split; [exact E|]. split; [exact Ho|]. rewrite E in Hrun. cbn [fmap option_fmap option_map fst snd] in Hrun.
    injection Hrun as Hrun. exact Hrun.
Defined.

(** When the framebuffer driver fails, the mouse and the window system fail and
    the keyboard still runs. *)
Definition no_framebuffer (d : SERVICE_DESCRIPTOR) : bool :=
  negb (bool_decide (name d = cstr "Framebuffer")).

Lemma ServiceManagerStart_runs_startable_witness :
  exists st', ServiceManagerStart (H := mm_heap X86) (fun d (w : Mm.heap Pmm.pmm) => (no_framebuffer d, w))
      X86 driver_services (mkSvc [] 0 Mm.small_heap) = Some (1, st') /\
    Startable no_framebuffer driver_services 4 /\ ~ Startable no_framebuffer driver_services 13.
Proof.
  assert ((fun r => (fst r, (state_of (snd r) 4, state_of (snd r) 13))) <$>
    ServiceManagerStart (H := mm_heap X86) (fun d (w : Mm.heap Pmm.pmm) => (no_framebuffer d, w))
      X86 driver_services (mkSvc [] 0 Mm.small_heap) =
    Some (1, (Some SERVICE_RUNNING, Some SERVICE_FAILED))) as Hrun by (vm_compute; reflexivity).
  destruct (ServiceManagerStart _ _ _ _) as [[r st']|] eqn:E; [|discriminate].
  cbn [fmap option_fmap option_map fst snd] in Hrun. injection Hrun as -> H4 H13.
  exists st'. split; [reflexivity|].
  pose proof (ServiceManagerStart_runs_startable (H := mm_heap X86) X86 (fun d w => (no_framebuffer d, w))
    no_framebuffer driver_services (mkSvc [] 0 Mm.small_heap) st'
    (fun d w => eq_refl) ltac:(discriminate) ltac:(cbn; lia) (Mm.small_heap_ok X86) E) as Hall.
  split.
  - eapply (Hall 4); [unfold in_table; cbn; lia | reflexivity | exact H4].
  - intros Hs. destruct (Hall 13 (nth 13 driver_services (mkService [] None SERVICE_KERNEL_DRIVER 0 None [])))
      as [_ Hd]; [unfold in_table; cbn; lia | reflexivity|].
    destruct Hd as [Hd _]; [cbn; unfold SERVICE_BOOT_START, SERVICE_AUTO_START; lia|].
    apply Hd in Hs. rewrite H13 in Hs. discriminate Hs.
Defined.

End Service.
