(* ===== verification/Wudf.v ===== *)
(** * kernel/io/wudf_transport.c: the user-mode driver request queues

    Sixteen endpoints of sixteen request slots.  The parallel arrays of
    [WDF_TRANSPORT_ENDPOINT] are one record per slot; buffers are addresses in
    the byte memory of [Util], with 0 the null pointer.  [WudfTransportPoll]
    returns the packet it stores through its argument. *)

From stdpp Require Import base list numbers.
From Stdlib Require Import ZArith Lia.
From S2P Require Import Prelude.
From S2P Require Import Util.
Import Util.

Module Wudf.

Definition WDF_TRANSPORT_MAX_ENDPOINTS : Z := 16.
Definition WDF_TRANSPORT_QUEUE_DEPTH : Z := 16.
Definition WDF_TRANSPORT_BUFFER_SIZE : Z := 4096.

(** [data] holds the [data_length] bytes copied in. *)
Record WDF_TRANSPORT_PACKET := mkPacket {
  token : Z; major_function : Z; ioctl_code : Z;
  input_length : Z; output_length : Z; data_length : Z;
  data : list Z
}.

Record slot := mkSlot {
  packet : WDF_TRANSPORT_PACKET;
  ready : bool;
  completion_buffer : Z;
  completion_buffer_length : Z;
  completed : bool;
  completion_status : Z;
  completion_information : Z
}.

Record WDF_TRANSPORT_ENDPOINT := mkEndpoint { used : bool; next_token : Z; slots : list slot }.

Record transport := mkTransport { endpoints : list WDF_TRANSPORT_ENDPOINT; memory : mem }.

Definition no_slot : slot := mkSlot (mkPacket 0 0 0 0 0 0 []) false 0 0 false 0 0.
Definition no_endpoint : WDF_TRANSPORT_ENDPOINT := mkEndpoint false 0 (replicate 16 no_slot).

Definition endpoint_at (st : transport) (i : Z) : WDF_TRANSPORT_ENDPOINT := get no_endpoint (endpoints st) i.
Definition slot_at (q : WDF_TRANSPORT_ENDPOINT) (i : Z) : slot := get no_slot (slots q) i.

Definition set_endpoint (st : transport) (i : Z) (q : WDF_TRANSPORT_ENDPOINT) : transport :=
  mkTransport (put (endpoints st) i q) (memory st).
Definition set_slot (q : WDF_TRANSPORT_ENDPOINT) (i : Z) (s : slot) : WDF_TRANSPORT_ENDPOINT :=
  mkEndpoint (used q) (next_token q) (put (slots q) i s).

(** Clearing [ready] and [completed] of every slot. *)
Definition reset_slot (s : slot) : slot :=
  mkSlot (packet s) false (completion_buffer s) (completion_buffer_length s) false
    (completion_status s) (completion_information s).

Definition WudfTransportRegisterEndpoint (st : transport) : Z * transport :=
  match first_from 16 0 (fun i => negb (used (endpoint_at st i))) with
  | Some i => (i + 1, set_endpoint st i (mkEndpoint true 1 (map reset_slot (slots (endpoint_at st i)))))
  | None => (0, st)
  end.

(** The endpoint test every operation starts with. *)
Definition valid (endpoint : Z) (st : transport) : bool :=
  negb ((endpoint =? 0) || (WDF_TRANSPORT_MAX_ENDPOINTS <? endpoint)) &&
  used (endpoint_at st (endpoint - 1)).

Definition WudfTransportUnregisterEndpoint (endpoint : Z) (st : transport) : Z * transport :=
  if negb (valid endpoint st) then (0, st) else
  let q := endpoint_at st (endpoint - 1) in
  (1, set_endpoint st (endpoint - 1) (mkEndpoint false (next_token q) (slots q))).

(** The bytes [p[0 .. n)]. *)
Definition copied_in (m : mem) (p n : Z) : list Z := map m (seqZ p n).

Definition WudfTransportSubmit (endpoint major_function ioctl_code dat input_length output_length : Z)
  (token_ok : bool) (st : transport) : option Z * transport :=
  if (dat =? 0) || negb token_ok || negb (valid endpoint st) then (None, st) else
  let queue := endpoint_at st (endpoint - 1) in
  let length := if WDF_TRANSPORT_BUFFER_SIZE <? input_length then WDF_TRANSPORT_BUFFER_SIZE else input_length in
  match first_from 16 0 (fun i => negb (ready (slot_at queue i)) && negb (completed (slot_at queue i))) with
  | None => (None, st)
  | Some i =>
      let s := slot_at queue i in
      let tok := next_token queue in
      let p := mkPacket tok major_function ioctl_code input_length output_length length
                 (copied_in (memory st) dat length) in
      let s := mkSlot p true dat output_length (completed s) (completion_status s) (completion_information s) in
      (Some tok, set_endpoint st (endpoint - 1)
                   (mkEndpoint (used queue) (u32 (tok + 1)) (put (slots queue) i s)))
  end.

Definition WudfTransportPoll (endpoint : Z) (packet_ok : bool) (st : transport)
  : option WDF_TRANSPORT_PACKET :=
  if negb packet_ok || negb (valid endpoint st) then None else
  let queue := endpoint_at st (endpoint - 1) in
  match first_from 16 0 (fun i => ready (slot_at queue i)) with
  | None => None
  | Some i => Some (packet (slot_at queue i))
  end.

Definition WudfTransportComplete (endpoint tok status information dat data_length : Z) (st : transport)
  : Z * transport :=
  if negb (valid endpoint st) then (0, st) else
  let queue := endpoint_at st (endpoint - 1) in
  match first_from 16 0 (fun i => ready (slot_at queue i) && (token (packet (slot_at queue i)) =? tok)) with
  | None => (0, st)
  | Some i =>
      let s := slot_at queue i in
      let copy_length := data_length in
      let copy_length := if completion_buffer_length s <? copy_length then completion_buffer_length s else copy_length in
      let copy_length := if WDF_TRANSPORT_BUFFER_SIZE <? copy_length then WDF_TRANSPORT_BUFFER_SIZE else copy_length in
      let m := if negb (completion_buffer s =? 0) && negb (dat =? 0)
               then memcpy (completion_buffer s) dat copy_length (memory st) else memory st in
      let s := mkSlot (packet s) false 0 0 true status information in
      (1, mkTransport (put (endpoints st) (endpoint - 1) (set_slot queue i s)) m)
  end.

(** The status and information the code stores through its arguments. *)
Definition WudfTransportGetCompletion (endpoint tok : Z) (st : transport) : option (Z * Z) * transport :=
  if negb (valid endpoint st) then (None, st) else
  let queue := endpoint_at st (endpoint - 1) in
  match first_from 16 0 (fun i => completed (slot_at queue i) && (token (packet (slot_at queue i)) =? tok)) with
  | None => (None, st)
  | Some i =>
      let s := slot_at queue i in
      (Some (completion_status s, completion_information s),
       set_endpoint st (endpoint - 1)
         (set_slot queue i (mkSlot (packet s) (ready s) (completion_buffer s) (completion_buffer_length s)
                              false (completion_status s) (completion_information s))))
  end.

(** ** Abstract view: outstanding requests by token *)

Inductive request :=
| Submitted (p : WDF_TRANSPORT_PACKET) (buffer : Z)
| Done (status information : Z).

Definition occupied (s : slot) : bool := ready s || completed s.

Definition request_of (s : slot) : request :=
  if ready s then Submitted (packet s) (completion_buffer s)
  else Done (completion_status s) (completion_information s).

Definition holds (q : WDF_TRANSPORT_ENDPOINT) (tok i : Z) : bool :=
  occupied (slot_at q i) && (token (packet (slot_at q i)) =? tok).

Definition requests (q : WDF_TRANSPORT_ENDPOINT) (tok : Z) : option request :=
  (fun i => request_of (slot_at q i)) <$> first_from 16 0 (holds q tok).

(** Every outstanding request has its own token, below the next one; no slot is
    both pending and completed; a pending slot's buffer is the one to complete. *)
Definition endpoint_inv (q : WDF_TRANSPORT_ENDPOINT) : Prop :=
  length (slots q) = 16%nat /\ 1 <= next_token q < 4294967296 /\
  (forall i, 0 <= i < 16 -> ready (slot_at q i) = true -> completed (slot_at q i) = false /\
     completion_buffer_length (slot_at q i) = output_length (packet (slot_at q i))) /\
  (forall i, 0 <= i < 16 -> occupied (slot_at q i) = true ->
     1 <= token (packet (slot_at q i)) < next_token q) /\
  (forall i j, 0 <= i < 16 -> 0 <= j < 16 -> occupied (slot_at q i) = true -> occupied (slot_at q j) = true ->
     token (packet (slot_at q i)) = token (packet (slot_at q j)) -> i = j).

Definition transport_inv (st : transport) : Prop :=
  length (endpoints st) = 16%nat /\
  forall e, 0 <= e < 16 -> length (slots (endpoint_at st e)) = 16%nat /\
    (used (endpoint_at st e) = true -> endpoint_inv (endpoint_at st e)).

Lemma slot_at_put q q' i s j :
  length (slots q) = 16%nat -> slots q' = put (slots q) i s -> 0 <= i < 16 -> 0 <= j ->
  slot_at q' j = if j =? i then s else slot_at q j.
Proof. intros Hl Hs Hi Hj. unfold slot_at. rewrite Hs. apply get_put; lia. Qed.

Lemma requests_Some q t r :
  endpoint_inv q ->
  requests q t = Some r <->
  exists i, 0 <= i < 16 /\ occupied (slot_at q i) = true /\ token (packet (slot_at q i)) = t /\
    r = request_of (slot_at q i).
Proof.
  intros (_ & _ & _ & _ & Hinj). unfold requests. split.
  - destruct (first_from 16 0 _) as [i|] eqn:E; [|done]. intros [= <-].
    apply first_from_Some in E as (Hi & Ht & _). apply andb_true_iff in Ht as [Ho Ht%Z.eqb_eq].
    exists i. split; [lia | done].
  - intros (i & Hi & Ho & Ht & ->). destruct (first_from 16 0 _) as [k|] eqn:E.
    + apply first_from_Some in E as (Hk & Htk & _). apply andb_true_iff in Htk as [Hok Htk%Z.eqb_eq].
      cbn. do 2 f_equal. f_equal. apply Hinj; try done; lia || congruence.
    + pose proof (proj1 (first_from_None _ _ _) E i ltac:(lia)) as Hf. unfold holds in Hf.
      by rewrite Ho, Ht, Z.eqb_refl in Hf.
Qed.

Lemma requests_None q t :
  endpoint_inv q ->
  requests q t = None <-> forall i, 0 <= i < 16 -> occupied (slot_at q i) = true ->
    token (packet (slot_at q i)) <> t.
Proof.
  intros Hq. rewrite eq_None_not_Some. split.
  - intros Hn i Hi Ho Ht. apply Hn. exists (request_of (slot_at q i)). apply requests_Some; [done|]. by exists i.
  - intros Hn [r (i & Hi & Ho & Ht & _)%requests_Some]; [|done]. by apply (Hn i).
Qed.

(** Writing slot [i] of a queue: the table changes at the old and the new token
    of the slot only. *)
Lemma requests_put q q' i s t :
  endpoint_inv q -> endpoint_inv q' -> slots q' = put (slots q) i s -> 0 <= i < 16 ->
  (occupied (slot_at q i) = true -> token (packet (slot_at q i)) = token (packet s)) ->
  requests q' t =
  if t =? token (packet s) then (if occupied s then Some (request_of s) else
    if occupied (slot_at q i) then None else requests q t)
  else requests q t.
Proof.
  intros Hq Hq' Hs Hi Hold. pose proof Hq as (Hl & _ & _ & _ & Hinj).
  pose proof (fun j => slot_at_put q q' i s j Hl Hs Hi) as Hat. apply option_eq. intros r.
  rewrite requests_Some by done. split.
  - intros (j & Hj & Ho & Ht & ->). rewrite Hat in * by lia. destruct (Z.eqb_spec j i) as [->|Hne].
    + subst t. by rewrite Z.eqb_refl, Ho.
    + destruct (Z.eqb_spec t (token (packet s))) as [Et|_]; [|apply requests_Some; eauto 6].
      destruct (occupied s) eqn:Eo.
      * exfalso. destruct Hq' as (_ & _ & _ & _ & Hinj'). apply Hne.
        apply Hinj'; [done..| | |]; rewrite !Hat by lia; rewrite ?Z.eqb_refl, ?(proj2 (Z.eqb_neq j i) Hne);
          congruence || done.
      * destruct (occupied (slot_at q i)) eqn:Eq; [|apply requests_Some; eauto 6].
        exfalso. apply Hne. apply Hinj; try done. specialize (Hold eq_refl). congruence.
  - destruct (Z.eqb_spec t (token (packet s))) as [Et|Hne].
    + destruct (occupied s) eqn:Eo.
      { intros [= <-]. exists i. rewrite Hat, Z.eqb_refl by lia. done. }
      destruct (occupied (slot_at q i)) eqn:Eq; [done|].
      intros (j & Hj & Ho & Ht & ->)%requests_Some; [|done]. exists j. rewrite Hat by lia.
      destruct (Z.eqb_spec j i) as [->|]; [congruence | done].
    + intros (j & Hj & Ho & Ht & ->)%requests_Some; [|done]. exists j. rewrite Hat by lia.
      destruct (Z.eqb_spec j i) as [->|]; [|done]. rewrite Hold in Ht by done. congruence.
Qed.

Lemma endpoint_inv_put q i s n :
  endpoint_inv q -> 0 <= i < 16 -> next_token q <= n < 4294967296 ->
  (ready s = true -> completed s = false /\ completion_buffer_length s = output_length (packet s)) ->
  (occupied s = true -> 1 <= token (packet s) < n /\
     forall j, 0 <= j < 16 -> j <> i -> occupied (slot_at q j) = true -> token (packet (slot_at q j)) <> token (packet s)) ->
  endpoint_inv (mkEndpoint (used q) n (put (slots q) i s)).
Proof.
  intros (Hl & Hn & Hr & Ho & Hinj) Hi Hn' Hrs Hos.
  set (q' := mkEndpoint _ _ _).
  assert (forall j, 0 <= j -> slot_at q' j = if j =? i then s else slot_at q j) as Hat
    by (intros; by apply (slot_at_put q q' i s j Hl eq_refl)).
  split; [cbn; by rewrite length_put|]. split; [cbn; lia|].
  split; [|split].
  - intros j Hj. rewrite Hat by lia. destruct (j =? i); [done | by apply Hr].
  - intros j Hj. rewrite Hat by lia. cbn [next_token q']. destruct (j =? i); [apply Hos|].
    intros H. specialize (Ho j Hj H). lia.
  - intros j k Hj Hk. rewrite !Hat by lia.
    destruct (Z.eqb_spec j i) as [->|Hji], (Z.eqb_spec k i) as [->|Hki]; [done|..|by apply Hinj].
    + intros H1 H2 E. destruct (Hos H1) as [_ Hd]. by destruct (Hd k Hk Hki H2).
    + intros H1 H2 E. destruct (Hos H2) as [_ Hd]. by destruct (Hd j Hj Hji H1).
Qed.

(** Writing a valid endpoint back. *)
Lemma valid_range e st : valid e st = true -> 0 <= e -> 0 <= e - 1 < 16 /\ used (endpoint_at st (e - 1)) = true.
Proof.
  unfold valid, WDF_TRANSPORT_MAX_ENDPOINTS. intros H He. apply andb_true_iff in H as [H Hu].
  apply negb_true_iff, orb_false_iff in H as [H1 H2]. lia || (split; [lia | done]).
Qed.

Lemma transport_inv_put st i q m :
  transport_inv st -> 0 <= i < 16 -> endpoint_inv q ->
  transport_inv (mkTransport (put (endpoints st) i q) m) /\
  forall k, 0 <= k -> endpoint_at (mkTransport (put (endpoints st) i q) m) k =
    if k =? i then q else endpoint_at st k.
Proof.
  intros [Hl Hall] Hi Hq.
  assert (forall k, 0 <= k -> endpoint_at (mkTransport (put (endpoints st) i q) m) k =
    if k =? i then q else endpoint_at st k) as Hat by (intros; apply get_put; lia).
  split; [|done]. split; [cbn; by rewrite length_put|]. intros e He. rewrite Hat by lia.
  destruct (e =? i); [|by apply Hall]. split; [apply Hq | done].
Qed.

Section valid_endpoint.
Context (e : Z) (st : transport) (Hinv : transport_inv st) (He : 0 <= e) (Hv : valid e st = true).

Definition queue_of (s : transport) : WDF_TRANSPORT_ENDPOINT := endpoint_at s (e - 1).

Lemma valid_facts : 0 <= e - 1 < 16 /\ used (queue_of st) = true /\ endpoint_inv (queue_of st).
Proof.
  destruct (valid_range e st Hv He) as [Hr Hu]. destruct Hinv as [_ Hall].
  split; [done|]. split; [done|]. by apply Hall.
Qed.

(** The rest of the world is untouched. *)
Definition others_same (st' : transport) : Prop :=
  transport_inv st' /\ forall k, 0 <= k -> k <> e - 1 -> endpoint_at st' k = endpoint_at st k.

Lemma write_back q m :
  endpoint_inv q -> let st' := mkTransport (put (endpoints st) (e - 1) q) m in
  queue_of st' = q /\ others_same st'.
Proof.
  intros Hq st'. destruct valid_facts as (Hr & _).
  destruct (transport_inv_put st (e - 1) q m Hinv Hr Hq) as [Hi Hat]. split.
  - unfold queue_of, st'. rewrite Hat, Z.eqb_refl by lia. done.
  - split; [done|]. intros k Hk Hne. unfold st'. rewrite Hat by done. by rewrite (proj2 (Z.eqb_neq k (e - 1)) Hne).
Qed.

Lemma Submit_spec mj io dat inl outl :
  dat <> 0 -> next_token (queue_of st) < 4294967295 ->
  let '(r, st') := WudfTransportSubmit e mj io dat inl outl true st in
  match r with
  | None => st' = st /\ forall i, 0 <= i < 16 -> occupied (slot_at (queue_of st) i) = true
  | Some tok =>
      let n := if WDF_TRANSPORT_BUFFER_SIZE <? inl then WDF_TRANSPORT_BUFFER_SIZE else inl in
      tok = next_token (queue_of st) /\ requests (queue_of st) tok = None /\ others_same st' /\
      memory st' = memory st /\
      forall t, requests (queue_of st') t =
        if t =? tok then Some (Submitted (mkPacket tok mj io inl outl n (copied_in (memory st) dat n)) dat)
        else requests (queue_of st) t
  end.
Proof.
  intros Hd Hn. destruct valid_facts as (Hr & Hu & Hq). unfold WudfTransportSubmit.
  rewrite (proj2 (Z.eqb_neq dat 0) Hd), Hv. cbn [negb orb]. fold (queue_of st).
  destruct (first_from 16 0 _) as [i|] eqn:E.
  - apply first_from_Some in E as (Hi & Hfree & _). apply andb_true_iff in Hfree as [Hf1 Hf2].
    apply negb_true_iff in Hf1, Hf2. pose proof Hq as (Hl & Hnt & _ & Hok & _).
    rewrite u32_small by (unfold is_u32; lia).
    assert (requests (queue_of st) (next_token (queue_of st)) = None) as Hfresh.
    { apply requests_None; [done|]. intros j Hj Ho. specialize (Hok j Hj Ho). lia. }
    set (n := if _ <? _ then _ else _). set (s := mkSlot _ _ _ _ _ _ _).
    pose proof (endpoint_inv_put (queue_of st) i s (next_token (queue_of st) + 1) Hq ltac:(lia) ltac:(lia)) as Hq'.
    destruct (write_back _ (memory st) (Hq' ltac:(by split; cbn) ltac:(intros _; split; [cbn; lia|];
      intros j Hj _ Ho; specialize (Hok j Hj Ho); cbn; lia))) as [Hqq Hoth].
    split; [done|]. split; [done|]. split; [exact Hoth|]. split; [done|]. intros t.
    unfold set_endpoint. rewrite Hqq.
    rewrite (requests_put (queue_of st) _ i s t Hq).
    + cbn. by destruct (t =? _).
    + apply Hq'; [by split; cbn|]. intros _. split; [cbn; lia|].
      intros j Hj _ Ho. specialize (Hok j Hj Ho). cbn. lia.
    + done.
    + lia.
    + unfold occupied. by rewrite Hf1, Hf2.
  - split; [done|]. intros i Hi. pose proof (proj1 (first_from_None _ _ _) E i ltac:(lia)) as Hf. cbn in Hf.
    unfold occupied. by destruct (ready _), (completed _).
Qed.

Lemma Poll_spec :
  match WudfTransportPoll e true st with
  | None => forall t p b, requests (queue_of st) t <> Some (Submitted p b)
  | Some p => exists b, requests (queue_of st) (token p) = Some (Submitted p b)
  end.
Proof.
  destruct valid_facts as (Hr & Hu & Hq). unfold WudfTransportPoll. rewrite Hv. cbn [negb orb].
  fold (queue_of st). destruct (first_from 16 0 _) as [i|] eqn:E.
  - apply first_from_Some in E as (Hi & Hrd & _). exists (completion_buffer (slot_at (queue_of st) i)).
    apply requests_Some; [done|]. exists i. split; [lia|]. unfold occupied, request_of. by rewrite Hrd.
  - intros t p b Hs. apply requests_Some in Hs as (i & Hi & _ & _ & Hs); [|done].
    pose proof (proj1 (first_from_None _ _ _) E i ltac:(lia)) as Hf. cbn in Hf. unfold request_of in Hs.
    by rewrite Hf in Hs.
Qed.

(** The search for the slot of a token. *)
Lemma find_slot (test : slot -> bool) tok :
  (forall s, test s = true -> occupied s = true) ->
  match first_from 16 0 (fun i => test (slot_at (queue_of st) i) && (token (packet (slot_at (queue_of st) i)) =? tok)) with
  | Some i => 0 <= i < 16 /\ test (slot_at (queue_of st) i) = true /\
      token (packet (slot_at (queue_of st) i)) = tok /\
      requests (queue_of st) tok = Some (request_of (slot_at (queue_of st) i))
  | None => forall i, 0 <= i < 16 -> test (slot_at (queue_of st) i) = true ->
      token (packet (slot_at (queue_of st) i)) <> tok
  end.
Proof.
  intros Ht. destruct valid_facts as (Hr & Hu & Hq). destruct (first_from 16 0 _) as [i|] eqn:E.
  - apply first_from_Some in E as (Hi & Hrd & _). apply andb_true_iff in Hrd as [H1 H2%Z.eqb_eq].
    split; [lia|]. split; [done|]. split; [done|]. apply requests_Some; [done|]. exists i.
    split; [lia|]. split; [by apply Ht | done].
  - intros i Hi Hti. pose proof (proj1 (first_from_None _ _ _) E i ltac:(lia)) as Hf. cbn in Hf.
    rewrite Hti in Hf. cbn in Hf. by apply Z.eqb_neq in Hf.
Qed.

Lemma Complete_spec tok status info dat len :
  let '(r, st') := WudfTransportComplete e tok status info dat len st in
  match requests (queue_of st) tok with
  | Some (Submitted p b) =>
      let n := Z.min (Z.min len (output_length p)) WDF_TRANSPORT_BUFFER_SIZE in
      r = 1 /\ others_same st' /\
      memory st' = (if negb (b =? 0) && negb (dat =? 0) then memcpy b dat n (memory st) else memory st) /\
      forall t, requests (queue_of st') t =
        if t =? tok then Some (Done status info) else requests (queue_of st) t
  | _ => r = 0 /\ st' = st
  end.
Proof.
  destruct valid_facts as (Hr & Hu & Hq). pose proof Hq as (Hl & Hnt & Hrd & Hok & Hinj).
  unfold WudfTransportComplete. rewrite Hv. cbn [negb]. fold (queue_of st).
  pose proof (find_slot ready tok) as Hfs.
  destruct (first_from 16 0 _) as [i|].
  - destruct Hfs as (Hi & Hri & Hti & Hreq); [by intros s Hs; unfold occupied; rewrite Hs|].
    rewrite Hreq. unfold request_of. rewrite Hri. destruct (Hrd i Hi Hri) as [Hci Hbl].
    set (s := mkSlot (packet (slot_at (queue_of st) i)) false 0 0 true status info).
    assert (endpoint_inv (set_slot (queue_of st) i s)) as Hq'.
    { apply endpoint_inv_put; [done..|lia|done|]. intros _.
      assert (occupied (slot_at (queue_of st) i) = true) as Hoi by (unfold occupied; by rewrite Hri).
      split; [by apply Hok|]. intros j Hj Hne Ho Ht. apply Hne. by apply Hinj. }
    match goal with |- context [mkTransport _ ?m] => destruct (write_back _ m Hq') as [Hqq Hoth] end.
    split; [done|]. split; [exact Hoth|]. split.
    + cbn [memory]. rewrite Hbl. unfold WDF_TRANSPORT_BUFFER_SIZE.
      replace (Z.min (Z.min len (output_length (packet (slot_at (queue_of st) i)))) 4096) with
        (if 4096 <? (if output_length (packet (slot_at (queue_of st) i)) <? len
                     then output_length (packet (slot_at (queue_of st) i)) else len)
         then 4096 else (if output_length (packet (slot_at (queue_of st) i)) <? len
                     then output_length (packet (slot_at (queue_of st) i)) else len)); [done|].
      zbool; lia.
    + intros t. rewrite Hqq. rewrite (requests_put (queue_of st) _ i s t Hq Hq' eq_refl Hi) by done.
      cbn. rewrite Hti. by destruct (t =? tok).
  - destruct (requests (queue_of st) tok) as [[p b|]|] eqn:Ereq; [|done..].
    apply requests_Some in Ereq as (i & Hi & Ho & Ht & Hs); [|done]. exfalso.
    unfold request_of in Hs. destruct (ready (slot_at (queue_of st) i)) eqn:Hri; [|done].
    by destruct (Hfs ltac:(by intros s Hs'; unfold occupied; rewrite Hs') i Hi Hri).
Qed.

Lemma GetCompletion_spec tok :
  let '(r, st') := WudfTransportGetCompletion e tok st in
  match requests (queue_of st) tok with
  | Some (Done status info) =>
      r = Some (status, info) /\ others_same st' /\ memory st' = memory st /\
      forall t, requests (queue_of st') t = if t =? tok then None else requests (queue_of st) t
  | _ => r = None /\ st' = st
  end.
Proof.
  destruct valid_facts as (Hr & Hu & Hq). pose proof Hq as (Hl & Hnt & Hrd & Hok & Hinj).
  unfold WudfTransportGetCompletion. rewrite Hv. cbn [negb]. fold (queue_of st).
  pose proof (find_slot completed tok) as Hfs.
  assert (forall s, completed s = true -> occupied s = true) as Hco
    by (intros s Hs; unfold occupied; by rewrite Hs, orb_true_r).
  destruct (first_from 16 0 _) as [i|].
  - destruct (Hfs Hco) as (Hi & Hci & Hti & Hreq).
    assert (ready (slot_at (queue_of st) i) = false) as Hri.
    { destruct (ready _) eqn:Hri; [|done]. destruct (Hrd i Hi Hri). congruence. }
    rewrite Hreq. unfold request_of. rewrite Hri. cbn [fst snd].
    match goal with |- context [set_slot (queue_of st) i ?s0] => set (s := s0) end.
    assert (occupied s = false) as Hos by (unfold occupied; cbn; done).
    assert (endpoint_inv (set_slot (queue_of st) i s)) as Hq'.
    { apply endpoint_inv_put; [done..|lia|done|]. by rewrite Hos. }
    destruct (write_back _ (memory st) Hq') as [Hqq Hoth].
    split; [done|]. split; [exact Hoth|]. split; [done|]. intros t. unfold set_endpoint. rewrite Hqq.
    rewrite (requests_put (queue_of st) _ i s t Hq Hq' eq_refl Hi) by done.
    rewrite Hos, (Hco _ Hci). cbn [packet s]. rewrite Hti. done.
  - destruct (requests (queue_of st) tok) as [[|s0 i0]|] eqn:Ereq; [done| |done].
    apply requests_Some in Ereq as (i & Hi & Ho & Ht & Hs); [|done]. exfalso.
    unfold request_of in Hs. destruct (ready (slot_at (queue_of st) i)) eqn:Hri; [done|].
    assert (completed (slot_at (queue_of st) i) = true) as Hci.
    { unfold occupied in Ho. by rewrite Hri in Ho. }
    by destruct (Hfs Hco i Hi Hci).
Qed.

End valid_endpoint.

(** C6. The transport implements a table of requests by token.  On a registered
    endpoint, with the table read off the slots: a submission either finds all
    16 slots taken and changes nothing, or adds a request under a token no
    outstanding request has, with at most 4096 bytes of the input; a poll
    delivers a submitted request unless there is none; a completion succeeds
    exactly for a submitted token, copies at most the output length (and 4096
    bytes) to the submitter's buffer and marks the request done; the result is
    fetched exactly for a done token and only once.  No operation touches
    another endpoint or another token, and the invariant is kept. *)
Theorem WudfTransport_refines (e : Z) (st : transport) :
  transport_inv st -> 0 <= e -> valid e st = true ->
  let q := queue_of e st in
  (forall mj io dat inl outl, dat <> 0 -> next_token q < 4294967295 ->
     let '(r, st') := WudfTransportSubmit e mj io dat inl outl true st in
     match r with
     | None => st' = st /\ forall i, 0 <= i < 16 -> occupied (slot_at q i) = true
     | Some tok =>
         let n := if WDF_TRANSPORT_BUFFER_SIZE <? inl then WDF_TRANSPORT_BUFFER_SIZE else inl in
         requests q tok = None /\ others_same e st st' /\ memory st' = memory st /\
         forall t, requests (queue_of e st') t =
           if t =? tok then Some (Submitted (mkPacket tok mj io inl outl n (copied_in (memory st) dat n)) dat)
           else requests q t
     end) /\
  match WudfTransportPoll e true st with
  | None => forall t p b, requests q t <> Some (Submitted p b)
  | Some p => exists b, requests q (token p) = Some (Submitted p b)
  end /\
  (forall tok status info dat len,
     let '(r, st') := WudfTransportComplete e tok status info dat len st in
     match requests q tok with
     | Some (Submitted p b) =>
         let n := Z.min (Z.min len (output_length p)) WDF_TRANSPORT_BUFFER_SIZE in
         r = 1 /\ others_same e st st' /\
         memory st' = (if negb (b =? 0) && negb (dat =? 0) then memcpy b dat n (memory st) else memory st) /\
         forall t, requests (queue_of e st') t = if t =? tok then Some (Done status info) else requests q t
     | _ => r = 0 /\ st' = st
     end) /\
  (forall tok,
     let '(r, st') := WudfTransportGetCompletion e tok st in
     match requests q tok with
     | Some (Done status info) =>
         r = Some (status, info) /\ others_same e st st' /\ memory st' = memory st /\
         forall t, requests (queue_of e st') t = if t =? tok then None else requests q t
     | _ => r = None /\ st' = st
     end).
Proof.
  intros Hinv He Hv q. split; [|split; [|split]].
  - intros mj io dat inl outl Hd Hn.
    pose proof (Submit_spec e st Hinv He Hv mj io dat inl outl Hd Hn) as Hs.
    destruct (WudfTransportSubmit _ _ _ _ _ _ _ _) as [[tok|] st']; [|done]. by destruct Hs as (_ & ?).
  - by apply Poll_spec.
  - intros. by apply Complete_spec.
  - intros. by apply GetCompletion_spec.
Qed.

(** All endpoints unused, as in the zeroed image. *)
Definition idle : transport := mkTransport (replicate 16 no_endpoint) (fun a => a mod 256).

Lemma Register_inv st :
  transport_inv st ->
  let '(r, st') := WudfTransportRegisterEndpoint st in
  transport_inv st' /\ (r <> 0 -> valid r st' = true /\ 0 <= r /\ forall t, requests (queue_of r st') t = None).
Proof.
  intros Hinv. unfold WudfTransportRegisterEndpoint. destruct (first_from 16 0 _) as [i|] eqn:E; [|done].
  apply first_from_Some in E as (Hi & _). pose proof Hinv as [_ Hall].
  set (q := mkEndpoint true 1 _).
  assert (forall j, 0 <= j < 16 -> occupied (slot_at q j) = false) as Hfree.
  { intros j Hj. unfold slot_at, get, q. cbn [slots].
    change (map reset_slot ?l) with (reset_slot <$> l). rewrite list_lookup_fmap.
    by destruct (_ !! Z.to_nat j). }
  assert (endpoint_inv q) as Hq.
  { split; [unfold q; cbn [slots]; rewrite length_map; exact (proj1 (Hall i ltac:(lia)))|]. split; [cbn; lia|].
    split; [|split].
    - intros j Hj Hr. specialize (Hfree j Hj). unfold occupied in Hfree. by rewrite Hr in Hfree.
    - intros j Hj Ho. by rewrite Hfree in Ho.
    - intros j k Hj Hk Ho. by rewrite Hfree in Ho. }
  destruct (transport_inv_put st i q (memory st) Hinv ltac:(lia) Hq) as [Hi' Hat].
  unfold set_endpoint. split; [done|]. intros _.
  assert (endpoint_at (mkTransport (put (endpoints st) i q) (memory st)) (i + 1 - 1) = q) as Hat'.
  { rewrite Hat by lia. replace (i + 1 - 1) with i by lia. by rewrite Z.eqb_refl. }
  split; [|split; [lia|]].
  - unfold valid. rewrite Hat'. unfold WDF_TRANSPORT_MAX_ENDPOINTS.
    by rewrite (proj2 (Z.eqb_neq (i + 1) 0)), (proj2 (Z.ltb_ge 16 (i + 1))) by lia.
  - intros t. unfold queue_of. rewrite Hat'. apply requests_None; [done|].
    intros j Hj Ho. by rewrite Hfree in Ho.
Qed.

Definition one_endpoint : transport := snd (WudfTransportRegisterEndpoint idle).

Lemma one_endpoint_inv : transport_inv one_endpoint /\ valid 1 one_endpoint = true.
Proof.
  split; [|reflexivity]. assert (transport_inv idle) as Hi.
  { split; [done|]. intros e He. unfold endpoint_at, get, idle. cbn [endpoints].
    assert (replicate 16 no_endpoint !! Z.to_nat e = Some no_endpoint) as -> by (apply lookup_replicate; lia || (split; [done | lia])).
    done. }
  pose proof (Register_inv idle Hi) as H. unfold one_endpoint.
  destruct (WudfTransportRegisterEndpoint idle) as [r st']. apply H.
Qed.

(** Submit, poll, complete and fetch a request. *)
Lemma WudfTransport_refines_witness :
  let '(r, st1) := WudfTransportSubmit 1 4 2228224 4096 8 2 true one_endpoint in
  r = Some 1 /\ requests (queue_of 1 one_endpoint) 1 = None /\
  token <$> WudfTransportPoll 1 true st1 = Some 1.
Proof.
  destruct one_endpoint_inv as [Hi Hv].
  destruct (WudfTransport_refines 1 one_endpoint Hi ltac:(lia) Hv) as (Hs & _).
  specialize (Hs 4 2228224 4096 8 2 ltac:(lia) ltac:(vm_compute; reflexivity)).
  destruct (WudfTransportSubmit 1 4 2228224 4096 8 2 true one_endpoint) as [r st1] eqn:E.
  assert (r = Some 1 /\ token <$> WudfTransportPoll 1 true st1 = Some 1) as [-> Hp].
  { assert (r = fst (WudfTransportSubmit 1 4 2228224 4096 8 2 true one_endpoint)) as -> by (by rewrite E).
    assert (st1 = snd (WudfTransportSubmit 1 4 2228224 4096 8 2 true one_endpoint)) as -> by (by rewrite E).
    vm_compute. split; reflexivity. }
  destruct Hs as (Hn & _). split; [reflexivity|]. split; [exact Hn | exact Hp].
Defined.

End Wudf.
