(* ===== verification/Ke.v ===== *)
(** * kernel/core/ke.c: threads, the cooperative scheduler, mutexes and events

    The state is the object manager's, with the dispatcher's own memory (the
    static variables and the THREAD, PROCESS, MUTEX and EVENT blocks by
    address) as its [memory].  Reading a block that is not there, which is what
    a handle of the wrong type or a null allocation leads to, is undefined
    ([None]).  Register contents are not modelled; the initial stack frame of a
    thread is. *)

From stdpp Require Import base list numbers gmap strings.
From Stdlib Require Import ZArith Lia.
From S2P Require Import Prelude.
From S2P Require Import Util.
From S2P Require Import Pmm.
From S2P Require Import Vmm.
From S2P Require Import Mm.
From S2P Require Import Ob.
Import Util Vmm Ob.

Module Ke.

Inductive THREAD_STATE := THREAD_READY | THREAD_RUNNING | THREAD_WAITING | THREAD_TERMINATED.

#[global] Instance THREAD_STATE_eq_dec : EqDecision THREAD_STATE.
Proof. solve_decision. Defined.

(** [context] is the run of saved registers from [context_esp] to [context_ra];
    [wait_handle] is never used and left out. *)
Record THREAD := mkThread {
  handle : Z;
  state : THREAD_STATE;
  priority : Z;
  stack : Z;
  stack_size : Z;
  entry_point : Z;
  entry_arg : Z;
  context : list Z;
  next : Z
}.

Record PROCESS := mkProcess { pname : list Z; main_thread : Z; thread_list : Z }.
Record MUTEX := mkMutex { locked : bool; owner : Z }.
Record EVENT := mkEvent { signaled : bool; manual_reset : Z }.

Record ke := mkKe {
  threads : gmap Z THREAD;
  processes : gmap Z PROCESS;
  mutexes : gmap Z MUTEX;
  events : gmap Z EVENT;
  words : gmap Z Z;
  current_thread : Z;
  ready_queue : Z;
  process_list : Z;
  thread_count : Z;
  scheduler_ticks : Z;
  process_object_type : Z;
  thread_object_type : Z;
  event_object_type : Z;
  mutex_object_type : Z;
  regs : list Z
}.

Definition sizeof_THREAD (a : arch) : Z := match a with X86 => 84 | AMD64 | LA64 => 160 end.
Definition sizeof_PROCESS (a : arch) : Z := match a with X86 => 172 | AMD64 | LA64 => 184 end.
Definition sizeof_MUTEX (a : arch) : Z := match a with X86 => 8 | AMD64 | LA64 => 16 end.
Definition sizeof_EVENT : Z := 8.

(** Code addresses; any distinct non-null values. *)
Definition KeDeleteThreadObject_addr : Z := 1048576.
Definition KeThreadBootstrap_addr : Z := 1048640.

(** Field updates. *)
Definition set_threads (k : ke) (m : gmap Z THREAD) : ke :=
  mkKe m (processes k) (mutexes k) (events k) (words k) (current_thread k) (ready_queue k)
    (process_list k) (thread_count k) (scheduler_ticks k) (process_object_type k)
    (thread_object_type k) (event_object_type k) (mutex_object_type k) (regs k).
Definition set_processes (k : ke) (m : gmap Z PROCESS) (l : Z) : ke :=
  mkKe (threads k) m (mutexes k) (events k) (words k) (current_thread k) (ready_queue k)
    l (thread_count k) (scheduler_ticks k) (process_object_type k)
    (thread_object_type k) (event_object_type k) (mutex_object_type k) (regs k).
Definition set_mutexes (k : ke) (m : gmap Z MUTEX) : ke :=
  mkKe (threads k) (processes k) m (events k) (words k) (current_thread k) (ready_queue k)
    (process_list k) (thread_count k) (scheduler_ticks k) (process_object_type k)
    (thread_object_type k) (event_object_type k) (mutex_object_type k) (regs k).
Definition set_events (k : ke) (m : gmap Z EVENT) : ke :=
  mkKe (threads k) (processes k) (mutexes k) m (words k) (current_thread k) (ready_queue k)
    (process_list k) (thread_count k) (scheduler_ticks k) (process_object_type k)
    (thread_object_type k) (event_object_type k) (mutex_object_type k) (regs k).
Definition set_words (k : ke) (m : gmap Z Z) : ke :=
  mkKe (threads k) (processes k) (mutexes k) (events k) m (current_thread k) (ready_queue k)
    (process_list k) (thread_count k) (scheduler_ticks k) (process_object_type k)
    (thread_object_type k) (event_object_type k) (mutex_object_type k) (regs k).
Definition set_current (k : ke) (c : Z) : ke :=
  mkKe (threads k) (processes k) (mutexes k) (events k) (words k) c (ready_queue k)
    (process_list k) (thread_count k) (scheduler_ticks k) (process_object_type k)
    (thread_object_type k) (event_object_type k) (mutex_object_type k) (regs k).
Definition set_ready (k : ke) (r : Z) : ke :=
  mkKe (threads k) (processes k) (mutexes k) (events k) (words k) (current_thread k) r
    (process_list k) (thread_count k) (scheduler_ticks k) (process_object_type k)
    (thread_object_type k) (event_object_type k) (mutex_object_type k) (regs k).
Definition set_counts (k : ke) (n t : Z) : ke :=
  mkKe (threads k) (processes k) (mutexes k) (events k) (words k) (current_thread k) (ready_queue k)
    (process_list k) n t (process_object_type k)
    (thread_object_type k) (event_object_type k) (mutex_object_type k) (regs k).
Definition set_types (k : ke) (p t e m : Z) : ke :=
  mkKe (threads k) (processes k) (mutexes k) (events k) (words k) (current_thread k) (ready_queue k)
    (process_list k) (thread_count k) (scheduler_ticks k) p t e m (regs k).
Definition set_regs (k : ke) (r : list Z) : ke :=
  mkKe (threads k) (processes k) (mutexes k) (events k) (words k) (current_thread k) (ready_queue k)
    (process_list k) (thread_count k) (scheduler_ticks k) (process_object_type k)
    (thread_object_type k) (event_object_type k) (mutex_object_type k) r.

Definition with_state (t : THREAD) (s : THREAD_STATE) : THREAD :=
  mkThread (handle t) s (priority t) (stack t) (stack_size t) (entry_point t) (entry_arg t)
    (context t) (next t).
Definition with_next (t : THREAD) (n : Z) : THREAD :=
  mkThread (handle t) (state t) (priority t) (stack t) (stack_size t) (entry_point t) (entry_arg t)
    (context t) n.
Definition with_handle (t : THREAD) (h : Z) : THREAD :=
  mkThread h (state t) (priority t) (stack t) (stack_size t) (entry_point t) (entry_arg t)
    (context t) (next t).
Definition with_context (t : THREAD) (c : list Z) : THREAD :=
  mkThread (handle t) (state t) (priority t) (stack t) (stack_size t) (entry_point t) (entry_arg t)
    c (next t).
Definition with_stack (t : THREAD) (s : Z) : THREAD :=
  mkThread (handle t) (state t) (priority t) s (stack_size t) (entry_point t) (entry_arg t)
    (context t) (next t).

(** ** The ready queue *)

Definition set_thread_state (p : Z) (s : THREAD_STATE) (k : ke) : option ke :=
  t ← threads k !! p; Some (set_threads k (<[p := with_state t s]> (threads k))).

(** [while (tail->next) tail = tail->next; tail->next = thread] *)
Fixpoint append_loop (fuel : nat) (tail thread : Z) (k : ke) : option ke :=
  match fuel with
  | O => None
  | S fuel' =>
      t ← threads k !! tail;
      if next t =? 0 then Some (set_threads k (<[tail := with_next t thread]> (threads k)))
      else append_loop fuel' (next t) thread k
  end.

Definition KeAppendReadyThread (thread : Z) (k : ke) : option ke :=
  if thread =? 0 then Some k else
  t ← threads k !! thread;
  let k := set_threads k (<[thread := with_next t 0]> (threads k)) in
  if ready_queue k =? 0 then Some (set_ready k thread)
  else append_loop (S (size (threads k))) (ready_queue k) thread k.

(** The scan of [KeSelectNextThread]; [Some 0] when the loop ends without a
    candidate.  Each turn moves one step along the queue and the loop stops
    at the current thread. *)
Fixpoint select_loop (fuel : nat) (scan : Z) (k : ke) : option Z :=
  if scan =? 0 then Some 0 else
  match fuel with
  | O => None
  | S fuel' =>
      t ← threads k !! scan;
      if negb (scan =? current_thread k) && bool_decide (state t = THREAD_READY) then Some scan else
      let scan := next t in
      let scan := if (scan =? 0) && negb (current_thread k =? ready_queue k) then ready_queue k else scan in
      if scan =? current_thread k then Some 0 else select_loop fuel' scan k
  end.

Definition KeSelectNextThread (k : ke) : option (Z * ke) :=
  if current_thread k =? 0 then Some (0, k) else
  cur ← threads k !! current_thread k;
  nxt ← select_loop (S (S (size (threads k))))
          (if negb (next cur =? 0) then next cur else ready_queue k) k;
  if nxt =? 0 then Some (0, k) else
  k ← (if bool_decide (state cur = THREAD_RUNNING)
       then set_thread_state (current_thread k) THREAD_READY k else Some k);
  let k := set_current k nxt in
  k ← set_thread_state nxt THREAD_RUNNING k;
  Some (nxt, set_counts k (thread_count k) (u32 (scheduler_ticks k + 1))).

(** The registers [KeYield] saves, as a run of [context]: ESP EBX ESI EDI EBP;
    RSP RBX RSI RDI RBP R12-R15; SP FP S0-S8 RA.  [regs] holds their current
    values in this order. *)
Definition saved_registers (a : arch) : nat := match a with X86 => 5 | AMD64 => 9 | LA64 => 12 end%nat.

(** The first registers of [r] stored over, or loaded into, those of [c]. *)
Definition overwrite (a : arch) (r c : list Z) : list Z :=
  take (saved_registers a) r ++ drop (saved_registers a) c.

Definition KeYield (a : arch) (k : ke) : option ke :=
  if current_thread k =? 0 then Some k else
  cur ← threads k !! current_thread k;
  let k := set_threads k (<[current_thread k := with_context cur (overwrite a (regs k) (context cur))]>
                            (threads k)) in
  '(y, k) ← KeSelectNextThread k;
  (* without a candidate the LA64 code reloads the current thread *)
  let y := if y =? 0 then match a with LA64 => current_thread k | _ => 0 end else y in
  if y =? 0 then Some k else
  t ← threads k !! y;
  Some (set_regs k (overwrite a (context t) (regs k))).

Definition KeStartScheduler (k : ke) : option ke :=
  if ready_queue k =? 0 then Some k else
  set_thread_state (ready_queue k) THREAD_RUNNING (set_current k (ready_queue k)).

(** What [KeThreadBootstrap] does once the entry point has returned. *)
Definition KeThreadBootstrap_exit (k : ke) : option ke :=
  if current_thread k =? 0 then Some k else set_thread_state (current_thread k) THREAD_TERMINATED k.

Section ops.
Context {H : Type} `{KernelHeap H} (a : arch).
Implicit Types st : ob H ke.

Definition lift (f : ke -> option ke) st : option (ob H ke) :=
  k ← f (memory st); Some (set_memory st k).

Definition KeDeleteThreadObject (bd : Z) st : option (ob H ke) :=
  if bd =? 0 then Some st else
  t ← threads (memory st) !! bd;
  if stack t =? 0 then Some st else
  h ← kh_free (stack t) (heap st);
  Some (set_memory (set_heap st h)
          (set_threads (memory st) (<[bd := with_stack t 0]> (threads (memory st))))).

(** The delete procedures this component registers. *)
Definition ke_call (proc bd : Z) st : option (ob H ke) :=
  if proc =? KeDeleteThreadObject_addr then KeDeleteThreadObject bd st else None.

Definition KeInit st : ob H ke :=
  let st := set_memory st (set_counts (memory st) 0 0) in
  let '(p, st) := ObRegisterObjectType (Some (cstr "Process")) 0 st in
  let '(t, st) := ObRegisterObjectType (Some (cstr "Thread")) KeDeleteThreadObject_addr st in
  let '(e, st) := ObRegisterObjectType (Some (cstr "Event")) 0 st in
  let '(m, st) := ObRegisterObjectType (Some (cstr "Mutex")) 0 st in
  set_memory st (set_types (memory st) p t e m).

Definition KeAttachCurrentThread (nm : option (list Z)) st : option (ob H ke) :=
  '(p, h) ← kh_malloc (sizeof_THREAD a) (heap st);
  let st := set_heap st h in
  if (p =? 0) || negb (current_thread (memory st) =? 0) then Some st else
  let t := mkThread 0 THREAD_RUNNING 8 0 0 0 0 (replicate 12 0) 0 in
  let st := set_memory st (set_threads (memory st) (<[p := t]> (threads (memory st)))) in
  '(hd, st) ← ObCreateObject a (thread_object_type (memory st))
                (Some (match nm with Some nm => nm | None => cstr "MainThread" end)) p (sizeof_THREAD a) st;
  let k := set_threads (memory st) (<[p := with_handle t hd]> (threads (memory st))) in
  Some (set_memory st (set_ready (set_current k p) p)).

Definition KeCreateProcess (nm : list Z) st : option (Z * (ob H ke)) :=
  '(p, h) ← kh_malloc (sizeof_PROCESS a) (heap st);
  let st := set_heap st h in
  if p =? 0 then Some (INVALID_HANDLE, st) else
  let k := memory st in
  tl ← (if process_list k =? 0 then Some 0 else thread_list <$> processes k !! process_list k);
  let proc := mkProcess (copy_name (replicate 32 0) nm) 0 tl in
  let st := set_memory st (set_processes k (<[p := proc]> (processes k)) p) in
  ObCreateObject a (process_object_type k) (Some nm) p (sizeof_PROCESS a) st.

(** The decimal digits written backwards from [name + 30]. *)
Fixpoint digits_loop (fuel : nat) (n : Z) (acc : list Z) : list Z :=
  match fuel with
  | O => acc
  | S fuel' =>
      let acc := (48 + n mod 10) :: acc in
      if 0 <? n / 10 then digits_loop fuel' (n / 10) acc else acc
  end.

Definition thread_name (n : Z) : option (list Z) :=
  strcat (cstr "Thread" ++ replicate 58 0) (digits_loop 10 n []).

(** The initial frame: where the saved stack pointer points and the words
    stored there. *)
Definition initial_frame (stk size : Z) : Z * list (Z * Z) :=
  match a with
  | LA64 => (Z.land (u64 (stk + size)) (u64 (Z.lnot 15)), [])
  | AMD64 =>
      let top := Z.land (u64 (stk + size)) (u64 (Z.lnot 15)) in
      let sp := u64 (top - 16) in
      (sp, [(sp, KeThreadBootstrap_addr); (sp + 8, 0)])
  | X86 =>
      let sp := u32 (stk + size - 4) in
      (sp, [(sp, KeThreadBootstrap_addr)])
  end.

Definition store_words (ws : list (Z * Z)) (m : gmap Z Z) : gmap Z Z :=
  fold_left (fun m w => <[fst w := snd w]> m) ws m.

Definition KeCreateThread (entry arg stk_size : Z) st : option (Z * (ob H ke)) :=
  '(p, h) ← kh_malloc (sizeof_THREAD a) (heap st);
  let st := set_heap st h in
  if p =? 0 then Some (INVALID_HANDLE, st) else
  let size := if stk_size =? 0 then 4096 else stk_size in
  '(stk, h) ← kh_malloc size (heap st);
  let st := set_heap st h in
  let '(sp, ws) := initial_frame stk size in
  (* the frame is stored through the unchecked stack pointer *)
  if (stk =? 0) && negb (bool_decide (ws = [])) then None else
  let ra := match a with LA64 => KeThreadBootstrap_addr | _ => 0 end in
  let t := mkThread 0 THREAD_READY 8 stk size entry arg (sp :: replicate 10 0 ++ [ra]) 0 in
  let k := memory st in
  let k := set_threads k (<[p := t]> (threads k)) in
  let k := set_words k (store_words ws (words k)) in
  k ← KeAppendReadyThread p k;
  let n := thread_count k in
  let k := set_counts k (u32 (n + 1)) (scheduler_ticks k) in
  let st := set_memory st k in
  nm ← thread_name n;
  '(hd, st) ← ObCreateObject a (thread_object_type k) (Some (buf_str nm)) p (sizeof_THREAD a) st;
  t ← threads (memory st) !! p;
  if hd =? INVALID_HANDLE then
    h ← kh_free (stack t) (heap st);
    h ← kh_free p h;
    Some (INVALID_HANDLE, set_heap st h)
  else
    Some (hd, set_memory st (set_threads (memory st) (<[p := with_handle t hd]> (threads (memory st))))).

Definition KeTerminateThread (thread_handle : Z) st : option (ob H ke) :=
  '(p, st) ← ObReferenceObject thread_handle st;
  if p =? 0 then Some st else
  st ← lift (set_thread_state p THREAD_TERMINATED) st;
  ObDereferenceObject ke_call thread_handle st.

(** ** Mutexes and events *)

Definition KeCreateMutex st : option (Z * (ob H ke)) :=
  '(p, h) ← kh_malloc (sizeof_MUTEX a) (heap st);
  let st := set_heap st h in
  (* memset through the unchecked pointer *)
  if p =? 0 then None else
  let k := memory st in
  let st := set_memory st (set_mutexes k (<[p := mkMutex false 0]> (mutexes k))) in
  ObCreateObject a (mutex_object_type k) (Some (cstr "Mutex")) p (sizeof_MUTEX a) st.

(** A wait either finishes or yields with the reference still held; a yielded
    wait is resumed by testing the loop condition again. *)
Inductive wait_result := Finished (st : (ob H ke)) | Yielded (body : Z) (st : (ob H ke)).

Definition KeWaitMutex_loop (mutex_handle mutex : Z) st : option wait_result :=
  m ← mutexes (memory st) !! mutex;
  if locked m then st ← lift (KeYield a) st; Some (Yielded mutex st)
  else
    let k := memory st in
    let st := set_memory st (set_mutexes k (<[mutex := mkMutex true (current_thread k)]> (mutexes k))) in
    st ← ObDereferenceObject ke_call mutex_handle st;
    Some (Finished st).

Definition KeWaitMutex (mutex_handle : Z) st : option wait_result :=
  '(mutex, st) ← ObReferenceObject mutex_handle st;
  if mutex =? 0 then Some (Finished st) else KeWaitMutex_loop mutex_handle mutex st.

Definition KeReleaseMutex (mutex_handle : Z) st : option (ob H ke) :=
  '(mutex, st) ← ObReferenceObject mutex_handle st;
  if mutex =? 0 then Some st else
  m ← mutexes (memory st) !! mutex;
  let k := memory st in
  let st := if owner m =? current_thread k
            then set_memory st (set_mutexes k (<[mutex := mkMutex false 0]> (mutexes k))) else st in
  ObDereferenceObject ke_call mutex_handle st.

Definition KeCreateEvent (manual : Z) st : option (Z * (ob H ke)) :=
  '(p, h) ← kh_malloc sizeof_EVENT (heap st);
  let st := set_heap st h in
  if p =? 0 then None else
  let k := memory st in
  let st := set_memory st (set_events k (<[p := mkEvent false manual]> (events k))) in
  ObCreateObject a (event_object_type k) (Some (cstr "Event")) p sizeof_EVENT st.

Definition set_signal (b : bool) (event_handle : Z) st : option (ob H ke) :=
  '(event, st) ← ObReferenceObject event_handle st;
  if event =? 0 then Some st else
  e ← events (memory st) !! event;
  let k := memory st in
  let st := set_memory st (set_events k (<[event := mkEvent b (manual_reset e)]> (events k))) in
  ObDereferenceObject ke_call event_handle st.

Definition KeSetEventHandle (event_handle : Z) st : option (ob H ke) := set_signal true event_handle st.
Definition KeResetEventHandle (event_handle : Z) st : option (ob H ke) := set_signal false event_handle st.

Definition KeWaitEvent_loop (event_handle event : Z) st : option wait_result :=
  e ← events (memory st) !! event;
  if negb (signaled e) then st ← lift (KeYield a) st; Some (Yielded event st)
  else
    let k := memory st in
    let st := if manual_reset e =? 0
              then set_memory st (set_events k (<[event := mkEvent false (manual_reset e)]> (events k))) else st in
    st ← ObDereferenceObject ke_call event_handle st;
    Some (Finished st).

Definition KeWaitEvent (event_handle : Z) st : option wait_result :=
  '(event, st) ← ObReferenceObject event_handle st;
  if event =? 0 then Some (Finished st) else KeWaitEvent_loop event_handle event st.

Definition KeGetSchedulerTicks st : Z := scheduler_ticks (memory st).

End ops.

(** ** Queues *)

(** [l] is the chain of threads from [p] along [next]. *)
Fixpoint is_queue (m : gmap Z THREAD) (p : Z) (l : list Z) : Prop :=
  match l with
  | [] => p = 0
  | x :: l' => p = x /\ x <> 0 /\ exists t, m !! x = Some t /\ is_queue m (next t) l'
  end.

Definition queue (k : ke) (l : list Z) : Prop := is_queue (threads k) (ready_queue k) l /\ NoDup l.

Lemma is_queue_update m p l x t t' :
  m !! x = Some t -> next t' = next t -> is_queue m p l -> is_queue (<[x := t']> m) p l.
Proof.
  intros Hx Hn. revert p. induction l as [|y l IH]; intros p; cbn [is_queue]; [done|].
  intros (-> & Hy & ty & Hty & Hq). split; [done|]. split; [done|].
  destruct (decide (x = y)) as [->|].
  - exists t'. rewrite lookup_insert_eq. split; [done|]. rewrite Hn. assert (ty = t) as <- by congruence. by apply IH.
  - exists ty. rewrite lookup_insert_ne by done. split; [done | by apply IH].
Qed.

Lemma is_queue_fresh m p l x t : x ∉ l -> is_queue m p l -> is_queue (<[x := t]> m) p l.
Proof.
  revert p. induction l as [|y l IH]; intros p; cbn [is_queue]; [done|].
  intros [Hxy Hx]%not_elem_of_cons (-> & Hy & ty & Hty & Hq). split; [done|]. split; [done|].
  exists ty. rewrite lookup_insert_ne by done. split; [done | by apply IH].
Qed.

Lemma is_queue_in m p l x : is_queue m p l -> x ∈ l -> x <> 0 /\ is_Some (m !! x).
Proof.
  revert p. induction l as [|y l IH]; intros p; cbn [is_queue]; [intros _ H; by apply not_elem_of_nil in H|].
  intros (-> & Hy & ty & Hty & Hq) [->|Hin]%elem_of_cons; [split; [done | by eexists] | by eapply IH].
Qed.

Lemma is_queue_size m p l : is_queue m p l -> NoDup l -> (length l <= size m)%nat.
Proof.
  intros Hq Hnd. rewrite <- size_dom, <- (size_list_to_set (C := gset Z) l Hnd).
  apply subseteq_size. intros x Hx. apply elem_of_list_to_set in Hx. apply elem_of_dom.
  by apply (is_queue_in m p l).
Qed.

Lemma is_queue_head m p x l : is_queue m p (x :: l) -> p = x.
Proof. by intros (-> & _). Qed.

Lemma append_loop_spec fuel l tail x tx k :
  is_queue (threads k) tail l -> NoDup l -> l <> [] -> x ∉ l -> x <> 0 -> (length l <= fuel)%nat ->
  threads k !! x = Some tx -> next tx = 0 ->
  exists y ty, y ∈ l /\ threads k !! y = Some ty /\
    append_loop fuel tail x k = Some (set_threads k (<[y := with_next ty x]> (threads k))) /\
    is_queue (<[y := with_next ty x]> (threads k)) tail (l ++ [x]).
Proof.
  revert fuel tail. induction l as [|z l IH]; intros fuel tail Hq Hnd Hne Hx Hx0 Hf Htx Hn0; [done|].
  destruct fuel as [|fuel]; cbn [length] in Hf; [lia|]. destruct Hq as (-> & Hz & tz & Htz & Hq).
  apply not_elem_of_cons in Hx as [Hxz Hx]. apply NoDup_cons in Hnd as [Hzl Hnd].
  cbn [append_loop]. rewrite Htz. cbn [mbind option_bind].
  destruct l as [|y l].
  - cbn in Hq. rewrite Hq. cbn [Z.eqb]. exists z, tz. split; [by apply list_elem_of_singleton|].
    split; [done|]. split; [done|]. split; [done|]. split; [done|].
    exists (with_next tz x). rewrite lookup_insert_eq. split; [done|]. cbn. split; [done|]. split; [done|].
    exists tx. rewrite lookup_insert_ne by done. done.
  - pose proof Hq as (Hnz & Hy0 & _). rewrite (proj2 (Z.eqb_neq (next tz) 0)) by congruence.
    destruct (IH fuel (next tz) Hq Hnd ltac:(done) Hx Hx0 ltac:(lia) Htx Hn0) as (w & tw & Hw & Htw & -> & Hq').
    exists w, tw. split; [by apply elem_of_cons; right|]. split; [done|]. split; [done|].
    change ((z :: y :: l) ++ [x]) with (z :: ((y :: l) ++ [x])). cbn [is_queue]. split; [done|]. split; [done|].
    exists tz. rewrite lookup_insert_ne; [done|]. intros ->. done.
Qed.

(** Appending keeps every thread's state and everything else. *)
Lemma KeAppendReadyThread_spec k l x t :
  queue k l -> x ∉ l -> x <> 0 -> threads k !! x = Some t ->
  exists k' m, KeAppendReadyThread x k = Some k' /\ queue k' (l ++ [x]) /\
    k' = set_ready (set_threads k m) (ready_queue k') /\
    m !! x = Some (with_next t 0) /\
    (forall y ty, y <> x -> threads k !! y = Some ty -> exists n, m !! y = Some (with_next ty n)).
Proof.
  intros [Hq Hnd] Hx Hx0 Ht. unfold KeAppendReadyThread. rewrite (proj2 (Z.eqb_neq x 0) Hx0), Ht.
  cbn [mbind option_bind ready_queue set_threads threads].
  assert (forall ty, ty = with_next ty (next ty)) as Hself by (by intros []).
  assert (NoDup (l ++ [x])) as Hnd'.
  { apply NoDup_app. split; [done|]. split; [|apply NoDup_singleton].
    intros y Hy Hyx%list_elem_of_singleton. by subst. }
  destruct (Z.eqb_spec (ready_queue k) 0) as [E0|Hne].
  - destruct l as [|y l]; [|destruct Hq as (? & ? & _); congruence].
    eexists _, (<[x := with_next t 0]> (threads k)). split; [reflexivity|]. split.
    { split; [|done]. cbn. split; [done|]. split; [done|]. exists (with_next t 0). by rewrite lookup_insert_eq. }
    split; [reflexivity|]. rewrite lookup_insert_eq. split; [done|]. intros y ty Hne Hy.
    exists (next ty). rewrite lookup_insert_ne by done. by rewrite <- Hself.
  - assert (l <> []) as Hl by (intros ->; done).
    pose proof (is_queue_fresh _ _ _ x (with_next t 0) Hx Hq) as Hq1.
    destruct (append_loop_spec (S (size (<[x:=with_next t 0]> (threads k)))) l (ready_queue k) x (with_next t 0)
      (set_threads k (<[x := with_next t 0]> (threads k))) Hq1 Hnd Hl Hx Hx0) as (y & ty & Hy & Hty & -> & Hq2).
    { pose proof (is_queue_size _ _ _ Hq1 Hnd). lia. }
    { apply lookup_insert_eq. }
    { done. }
    cbn [threads set_threads] in *. assert (y <> x) as Hyx by (by intros ->).
    eexists _, (<[y := with_next ty x]> (<[x := with_next t 0]> (threads k))).
    split; [reflexivity|]. split; [split; [exact Hq2 | done]|]. split; [reflexivity|].
    rewrite lookup_insert_ne, lookup_insert_eq by done. split; [done|]. intros z tz Hzx Hz.
    rewrite lookup_insert_ne in Hty by done.
    destruct (decide (z = y)) as [->|].
    + exists x. rewrite lookup_insert_eq. do 2 f_equal. congruence.
    + exists (next tz). rewrite !lookup_insert_ne by done. by rewrite <- Hself.
Qed.

(** ** Selection *)

(** The first ready thread of a list, 0 when there is none. *)
Fixpoint first_ready (m : gmap Z THREAD) (l : list Z) : Z :=
  match l with
  | [] => 0
  | x :: l' => if bool_decide (state <$> m !! x = Some THREAD_READY) then x else first_ready m l'
  end.

Lemma first_ready_app m l1 l2 :
  Forall (fun x => x <> 0) l1 ->
  first_ready m (l1 ++ l2) = if first_ready m l1 =? 0 then first_ready m l2 else first_ready m l1.
Proof.
  induction 1 as [|x l1 Hx _ IH]; cbn [first_ready app]; [done|]. destruct (bool_decide _); [|done].
  by rewrite (proj2 (Z.eqb_neq x 0) Hx).
Qed.

Lemma first_ready_in m l :
  Forall (fun x => x <> 0) l -> first_ready m l <> 0 ->
  exists l1 l2, l = l1 ++ first_ready m l :: l2 /\
    state <$> m !! first_ready m l = Some THREAD_READY /\
    forall y, y ∈ l1 -> state <$> m !! y <> Some THREAD_READY.
Proof.
  induction 1 as [|x l Hx _ IH]; cbn [first_ready]; [done|]. case_bool_decide as E.
  - intros _. exists [], l. split; [done|]. split; [done|]. intros y Hy. by apply not_elem_of_nil in Hy.
  - intros Hne. destruct (IH Hne) as (l1 & l2 & El & Hs & Hb). exists (x :: l1), l2.
    split; [cbn; congruence|]. split; [done|]. intros y [->|Hy]%elem_of_cons; [done | by apply Hb].
Qed.

Lemma first_ready_none m l y :
  Forall (fun x => x <> 0) l -> first_ready m l = 0 -> y ∈ l -> state <$> m !! y <> Some THREAD_READY.
Proof.
  induction 1 as [|x l Hx _ IH]; cbn [first_ready]; [intros _ H; by apply not_elem_of_nil in H|].
  case_bool_decide as E; [done|]. intros H0 [->|Hy]%elem_of_cons; [done | by apply IH].
Qed.

Lemma is_queue_nonzero m p l : is_queue m p l -> Forall (fun x => x <> 0) l.
Proof. intros Hq. apply Forall_forall. intros x Hx. by apply (is_queue_in m p l). Qed.

Lemma select_unfold fuel scan k t :
  scan <> 0 -> threads k !! scan = Some t ->
  select_loop (S fuel) scan k =
  if negb (scan =? current_thread k) && bool_decide (state t = THREAD_READY) then Some scan else
  let s := if (next t =? 0) && negb (current_thread k =? ready_queue k) then ready_queue k else next t in
  if s =? current_thread k then Some 0 else select_loop fuel s k.
Proof.
  intros H0 Ht. cbn [select_loop]. rewrite (proj2 (Z.eqb_neq scan 0) H0), Ht. reflexivity.
Qed.

Lemma select_null fuel k : select_loop fuel 0 k = Some 0.
Proof. by destruct fuel. Qed.

Lemma state_lookup (m : gmap Z THREAD) x t : m !! x = Some t -> (state <$> m !! x = Some THREAD_READY) <-> state t = THREAD_READY.
Proof. intros ->. cbn. split; [by intros [= ?] | by intros ->]. Qed.

(** Scanning the threads before the current one. *)
Lemma select_before k pre post scan fuel :
  is_queue (threads k) scan (pre ++ current_thread k :: post) -> pre <> [] ->
  current_thread k ∉ pre -> (length pre <= fuel)%nat ->
  select_loop fuel scan k = Some (first_ready (threads k) pre).
Proof.
  revert scan fuel. induction pre as [|x pre IH]; intros scan fuel Hq Hne Hc Hf; [done|].
  destruct fuel as [|fuel]; cbn [length] in Hf; [lia|].
  cbn [app is_queue] in Hq. destruct Hq as (-> & Hx & t & Ht & Hq).
  apply not_elem_of_cons in Hc as [Hcx Hc].
  rewrite (select_unfold fuel x k t Hx Ht), (proj2 (Z.eqb_neq x (current_thread k))) by done.
  cbn [negb andb first_ready]. pose proof (state_lookup _ _ _ Ht) as Hst.
  destruct (bool_decide (state t = THREAD_READY)) eqn:Eb.
  { apply bool_decide_eq_true in Eb. by rewrite bool_decide_eq_true_2 by (by apply Hst). }
  apply bool_decide_eq_false in Eb. rewrite bool_decide_eq_false_2 by (by rewrite Hst).
  assert (next t <> 0) as Hn0.
  { destruct pre as [|y pre]; destruct Hq as (-> & ? & _); done. }
  rewrite (proj2 (Z.eqb_neq (next t) 0) Hn0). cbn [andb].
  destruct pre as [|y pre].
  - destruct Hq as (-> & _). by rewrite Z.eqb_refl.
  - pose proof Hq as (Hny & _). apply not_elem_of_cons in Hc as [Hcy Hc'].
    rewrite Hny in *. rewrite (proj2 (Z.eqb_neq y (current_thread k))) by done.
    apply IH; [done | done | by apply not_elem_of_cons | lia].
Qed.

(** Scanning the threads after the current one, then from the head. *)
Lemma select_after k pre post post' scan fuel :
  is_queue (threads k) (ready_queue k) (pre ++ current_thread k :: post) ->
  NoDup (pre ++ current_thread k :: post) ->
  is_queue (threads k) scan post' -> post' <> [] -> current_thread k ∉ post' ->
  (length post' + length pre < fuel)%nat ->
  select_loop fuel scan k = Some (first_ready (threads k) (post' ++ pre)).
Proof.
  intros Hq Hnd. revert scan fuel. induction post' as [|x l IH]; intros scan fuel Hs Hne Hc Hf; [done|].
  destruct fuel as [|fuel]; [lia|]. cbn [length] in Hf. destruct Hs as (-> & Hx & t & Ht & Hs).
  apply not_elem_of_cons in Hc as [Hcx Hc].
  rewrite (select_unfold fuel x k t Hx Ht), (proj2 (Z.eqb_neq x (current_thread k))) by done.
  cbn [negb andb first_ready app]. pose proof (state_lookup _ _ _ Ht) as Hst.
  destruct (bool_decide (state t = THREAD_READY)) eqn:Eb.
  { apply bool_decide_eq_true in Eb. by rewrite bool_decide_eq_true_2 by (by apply Hst). }
  apply bool_decide_eq_false in Eb. rewrite bool_decide_eq_false_2 by (by rewrite Hst).
  apply NoDup_app in Hnd as Hnd'. destruct Hnd' as (_ & Hdis & _).
  assert (current_thread k <> 0) as Hc0 by (eapply (is_queue_in (threads k)); [exact Hq|]; apply elem_of_app; right; by left).
  destruct l as [|y l].
  - cbn in Hs. rewrite Hs. cbn [Z.eqb andb app]. destruct pre as [|z pre].
    + destruct Hq as (-> & _). rewrite Z.eqb_refl. cbn [negb].
      rewrite (proj2 (Z.eqb_neq 0 _)) by done. by rewrite select_null.
    + assert (z <> current_thread k) as Hzc.
      { intros ->. apply (Hdis (current_thread k)); by left. }
      pose proof Hq as (Hrq & _). rewrite Hrq in Hq |- *.
      rewrite (proj2 (Z.eqb_neq (current_thread k) z)) by auto. cbn [negb].
      rewrite (proj2 (Z.eqb_neq z (current_thread k))) by done.
      apply (select_before k (z :: pre) post); [done | done | | cbn [length] in *; lia].
      intros Hin. apply (Hdis _ Hin). by left.
  - pose proof Hs as (Hny & Hy0 & _). apply not_elem_of_cons in Hc as [Hcy Hc'].
    rewrite Hny in Hs |- *. rewrite (proj2 (Z.eqb_neq y 0)) by done. cbn [andb].
    rewrite (proj2 (Z.eqb_neq y (current_thread k))) by done.
    apply IH; [done | done | by apply not_elem_of_cons | cbn [length] in *; lia].
Qed.

(** [l] listed from the successor of the current thread. *)
Definition round (k : ke) (pre post : list Z) : Prop := queue k (pre ++ current_thread k :: post).

Lemma is_queue_app m p l1 l2 : is_queue m p (l1 ++ l2) -> exists q, is_queue m q l2.
Proof.
  revert p. induction l1 as [|x l1 IH]; intros p Hq; [by exists p|].
  destruct Hq as (_ & _ & t & _ & Hq). by eapply IH.
Qed.

Lemma select_round k pre post cur :
  round k pre post -> threads k !! current_thread k = Some cur ->
  select_loop (S (S (size (threads k)))) (if negb (next cur =? 0) then next cur else ready_queue k) k =
  Some (first_ready (threads k) (post ++ pre)).
Proof.
  intros [Hq Hnd] Hcur. pose proof (is_queue_size _ _ _ Hq Hnd) as Hsize.
  rewrite length_app in Hsize. cbn [length] in Hsize.
  destruct (is_queue_app _ _ _ _ Hq) as (q & (-> & Hc0 & t & Ht & Hpost)).
  assert (t = cur) as -> by congruence.
  apply NoDup_app in Hnd as Hnd'. destruct Hnd' as (_ & Hdis & Hnd'). apply NoDup_cons in Hnd' as [Hcp _].
  destruct post as [|y post].
  - cbn in Hpost. rewrite Hpost. cbn [Z.eqb negb app]. destruct pre as [|z pre].
    + pose proof Hq as (Hrq & _). rewrite Hrq, (select_unfold _ _ k cur Hc0 Hcur), Z.eqb_refl.
      cbn [negb andb]. rewrite Hpost, Hrq, !Z.eqb_refl. cbn [negb andb].
      rewrite (proj2 (Z.eqb_neq 0 (current_thread k))) by done. by rewrite select_null.
    + apply (select_before k (z :: pre) []); [done | done | | cbn [length] in *; lia].
      intros Hin. apply (Hdis _ Hin). by left.
  - pose proof Hpost as (Hny & Hy0 & _). rewrite Hny in Hpost |- *. rewrite (proj2 (Z.eqb_neq y 0)) by done. cbn [negb].
    apply (select_after k pre (y :: post)); [done | done | done | done | done | cbn [length] in *; lia].
Qed.

(** The state of a thread after a switch to [y]. *)
Definition switched (cur y x : Z) (s : THREAD_STATE) : THREAD_STATE :=
  if x =? y then THREAD_RUNNING
  else if (x =? cur) && bool_decide (s = THREAD_RUNNING) then THREAD_READY else s.

Lemma with_state_same t : with_state t (state t) = t.
Proof. by destruct t. Qed.

Lemma is_queue_next m m' p l :
  (forall x t, m !! x = Some t -> exists t', m' !! x = Some t' /\ next t' = next t) ->
  is_queue m p l -> is_queue m' p l.
Proof.
  intros Hm. revert p. induction l as [|x l IH]; intros p; cbn [is_queue]; [done|].
  intros (-> & Hx & t & Ht & Hq). split; [done|]. split; [done|].
  destruct (Hm x t Ht) as (t' & Ht' & Hn). exists t'. split; [done|]. rewrite Hn. by apply IH.
Qed.

Lemma KeSelectNextThread_spec k pre post :
  round k pre post ->
  let y := first_ready (threads k) (post ++ pre) in
  if y =? 0 then KeSelectNextThread k = Some (0, k)
  else exists k', KeSelectNextThread k = Some (y, k') /\
    queue k' (pre ++ current_thread k :: post) /\ current_thread k' = y /\
    scheduler_ticks k' = u32 (scheduler_ticks k + 1) /\
    k' = set_counts (set_current (set_threads k (threads k')) y) (thread_count k) (scheduler_ticks k') /\
    forall x t, threads k !! x = Some t ->
      threads k' !! x = Some (with_state t (switched (current_thread k) y x (state t))).
Proof.
  intros Hr y. pose proof Hr as [Hq Hnd].
  destruct (is_queue_in _ _ _ (current_thread k) Hq) as [Hc0 [cur Hcur]].
  { apply elem_of_app. right. by left. }
  unfold KeSelectNextThread. rewrite (proj2 (Z.eqb_neq _ 0) Hc0), Hcur. cbn [mbind option_bind].
  rewrite (select_round k pre post cur Hr Hcur). cbn [mbind option_bind]. fold y.
  destruct (Z.eqb_spec y 0) as [|Hy0]; [done|].
  assert (Forall (fun x => x <> 0) (post ++ pre)) as Hnz.
  { apply is_queue_nonzero in Hq. rewrite Forall_app, Forall_cons in Hq. apply Forall_app. tauto. }
  destruct (first_ready_in _ _ Hnz Hy0) as (l1 & l2 & El & Hys & _). fold y in El, Hys.
  destruct (threads k !! y) as [ty|] eqn:Hty; [|done]. cbn in Hys. injection Hys as Hys.
  assert (y <> current_thread k) as Hyc.
  { intros E. assert (y ∈ post ++ pre) as Hin by (rewrite El; apply elem_of_app; right; by left).
    rewrite E in Hin. apply NoDup_app in Hnd as (_ & Hdis & [Hnc _]%NoDup_cons).
    apply elem_of_app in Hin as [Hin | Hin]; [done|]. apply (Hdis _ Hin). by left. }
  assert (exists m, (if bool_decide (state cur = THREAD_RUNNING)
    then set_thread_state (current_thread k) THREAD_READY k else Some k) = Some (set_threads k m) /\
    forall x t, threads k !! x = Some t -> m !! x = Some (with_state t
      (if (x =? current_thread k) && bool_decide (state t = THREAD_RUNNING) then THREAD_READY else state t)))
    as (m & -> & Hm).
  { case_bool_decide as Hrun.
    - unfold set_thread_state. rewrite Hcur. cbn [mbind option_bind]. eexists. split; [reflexivity|].
      intros x t Hx. destruct (Z.eqb_spec x (current_thread k)) as [->|].
      + rewrite lookup_insert_eq. assert (t = cur) as -> by congruence. by rewrite bool_decide_eq_true_2.
      + rewrite lookup_insert_ne by done. cbn [andb]. by rewrite with_state_same.
    - exists (threads k). split; [by destruct k|]. intros x t Hx.
      destruct (Z.eqb_spec x (current_thread k)) as [->|]; cbn [andb]; [|by rewrite with_state_same].
      assert (t = cur) as -> by congruence. rewrite bool_decide_eq_false_2 by done. by rewrite with_state_same. }
  cbn [mbind option_bind]. unfold set_thread_state. cbn [threads set_current set_threads].
  rewrite (Hm y ty Hty). cbn [mbind option_bind]. eexists. split; [reflexivity|].
  assert (forall x t, threads k !! x = Some t ->
    <[y := with_state (with_state ty (if (y =? current_thread k) && bool_decide (state ty = THREAD_RUNNING)
       then THREAD_READY else state ty)) THREAD_RUNNING]> m !! x =
    Some (with_state t (switched (current_thread k) y x (state t)))) as Hall.
  { intros x t Hx. unfold switched. destruct (Z.eqb_spec x y) as [->|].
    - rewrite lookup_insert_eq. assert (t = ty) as -> by congruence. done.
    - rewrite lookup_insert_ne by done. by apply Hm. }
  split.
  { split; [|done]. cbn [threads set_counts set_threads ready_queue set_current].
    eapply is_queue_next; [|exact Hq]. intros x t Hx. eexists. split; [by apply Hall | done]. }
  split; [done|]. split; [done|]. split; [done|]. exact Hall.
Qed.

(** ** Fairness *)

(** Turning the circle of threads to start after [y]. *)
Lemma rotate {A} (pre post l1 l2 : list A) cur y :
  post ++ pre = l1 ++ y :: l2 ->
  exists pre' post', pre ++ cur :: post = pre' ++ y :: post' /\ post' ++ pre' = l2 ++ cur :: l1.
Proof.
  intros E. apply List.app_eq_app in E as (l0 & [[-> E] | [-> E]]).
  - destruct l0 as [|z l0]; cbn in E.
    + exists [], (l2 ++ cur :: l1). rewrite app_nil_r. cbn. rewrite !app_nil_r. split; [|done].
      by rewrite <- E.
    + injection E as <- ->. exists (pre ++ cur :: l1), l0. split.
      * rewrite <- app_assoc. done.
      * by rewrite app_assoc.
  - exists l0, (l2 ++ cur :: post). rewrite E. rewrite <- !app_assoc. done.
Qed.

Definition ready (k : ke) (x : Z) : Prop := state <$> threads k !! x = Some THREAD_READY.

(** One selection: the ready thread [x] at distance [length l1] ahead is either
    chosen or comes closer. *)
Lemma select_progress k pre post l1 x l2 :
  round k pre post -> post ++ pre = l1 ++ x :: l2 -> ready k x ->
  exists y k', KeSelectNextThread k = Some (y, k') /\ current_thread k' = y /\
    queue k' (pre ++ current_thread k :: post) /\
    (y = x \/ (ready k' x /\ exists pre' post' l1' l2',
       round k' pre' post' /\ post' ++ pre' = l1' ++ x :: l2' /\ (length l1' < length l1)%nat /\
       pre' ++ current_thread k' :: post' = pre ++ current_thread k :: post)).
Proof.
  intros Hr El Hx. pose proof (KeSelectNextThread_spec k pre post Hr) as Hs. cbn zeta in Hs.
  set (y := first_ready (threads k) (post ++ pre)) in *. pose proof Hr as [Hq Hnd].
  assert (Forall (fun x => x <> 0) (post ++ pre)) as Hnz.
  { apply is_queue_nonzero in Hq. rewrite Forall_app, Forall_cons in Hq. apply Forall_app. tauto. }
  assert (y <> 0) as Hy0.
  { intros E. apply (first_ready_none (threads k) (post ++ pre) x Hnz E); [|done].
    rewrite El. apply elem_of_app. right. by left. }
  rewrite (proj2 (Z.eqb_neq y 0) Hy0) in Hs. destruct Hs as (k' & Es & Hq' & Hc' & _ & Hk' & Hall).
  exists y, k'. split; [done|]. split; [done|]. split; [done|].
  destruct (Z.eq_dec y x) as [|Hne]; [by left|]. right.
  destruct (threads k !! x) as [tx|] eqn:Htx; unfold ready in Hx; rewrite Htx in Hx; [|done].
  cbn in Hx. injection Hx as Hx. split.
  { unfold ready. rewrite (Hall x tx Htx). cbn. unfold switched. rewrite (proj2 (Z.eqb_neq x y)) by auto.
    rewrite Hx, bool_decide_eq_false_2, andb_false_r by done. done. }
  destruct (first_ready_in _ _ Hnz Hy0) as (m1 & m2 & Em & _ & Hb). fold y in Em.
  (* y comes before x *)
  assert (exists m3, l1 = m1 ++ y :: m3 /\ m2 = m3 ++ x :: l2) as (m3 & El1 & Em2).
  { rewrite El in Em. apply List.app_eq_app in Em as (l0 & [[E1 E2] | [E1 E2]]).
    - destruct l0 as [|z l0]; cbn in E2; [injection E2 as ->; done|]. injection E2 as <- ->. exists l0. done.
    - destruct l0 as [|z l0]; cbn in E2; [injection E2 as -> _; done|]. injection E2 as <- _.
      exfalso. apply (Hb x); [rewrite E1; apply elem_of_app; right; by left|]. rewrite Htx. cbn. by rewrite Hx. }
  destruct (rotate pre post m1 m2 (current_thread k) y Em) as (pre' & post' & Erot & Eord).
  exists pre', post', m3, (l2 ++ current_thread k :: m1).
  split; [unfold round; rewrite Hc', <- Erot; exact Hq'|].
  split; [rewrite Eord, Em2, <- app_assoc; done|].
  split; [rewrite El1, length_app; cbn; lia|]. by rewrite Hc', Erot.
Qed.

(** C4. The scheduler is round robin.  With the queue [pre ++ current :: post],
    [KeSelectNextThread] always returns: it picks the first ready thread in the
    order after the current one and around to it, makes it current and RUNNING,
    puts a RUNNING predecessor back to READY, and changes no other thread and
    no link; when no other thread is ready it returns 0 and changes nothing. *)
Theorem KeSelectNextThread_round_robin (k : ke) (pre post : list Z) :
  queue k (pre ++ current_thread k :: post) ->
  (exists before y after k', post ++ pre = before ++ y :: after /\ ready k y /\
     (forall x, x ∈ before -> ~ ready k x) /\
     KeSelectNextThread k = Some (y, k') /\ current_thread k' = y /\
     queue k' (pre ++ current_thread k :: post) /\
     forall x t, threads k !! x = Some t ->
       threads k' !! x = Some (with_state t (switched (current_thread k) y x (state t)))) \/
  ((forall x, x ∈ post ++ pre -> ~ ready k x) /\ KeSelectNextThread k = Some (0, k)).
Proof.
  intros Hr. pose proof (KeSelectNextThread_spec k pre post Hr) as Hs. cbn zeta in Hs.
  set (y := first_ready (threads k) (post ++ pre)) in *.
  assert (Forall (fun x => x <> 0) (post ++ pre)) as Hnz.
  { destruct Hr as [Hq _]. apply is_queue_nonzero in Hq. rewrite Forall_app, Forall_cons in Hq.
    apply Forall_app. tauto. }
  destruct (Z.eqb_spec y 0) as [E|Hy0].
  - right. split; [|done]. intros x Hx. by apply (first_ready_none _ (post ++ pre)).
  - left. destruct (first_ready_in _ _ Hnz Hy0) as (l1 & l2 & El & Hy & Hb). fold y in El, Hy.
    destruct Hs as (k' & Es & Hq & Hc & _ & _ & Hall).
    exists l1, y, l2, k'. do 3 (split; [done|]). do 3 (split; [done|]). exact Hall.
Qed.

(** Selections interleaved with what the running threads do to the scheduler's
    state. *)
Fixpoint schedule (fs : list (ke -> ke)) (k : ke) : option (list Z) :=
  match fs with
  | [] => Some []
  | f :: fs => '(y, k) ← KeSelectNextThread (f k); ys ← schedule fs k; Some (y :: ys)
  end.

(** A running thread may change the states of threads other than [x], but not
    the queue or the current thread. *)
Definition tame (l : list Z) (x : Z) (f : ke -> ke) : Prop :=
  forall k, queue k l -> current_thread k ∈ l -> ready k x ->
    queue (f k) l /\ current_thread (f k) = current_thread k /\ ready (f k) x.

Lemma fair_distance fs x : forall k pre post l1 l2,
  round k pre post -> post ++ pre = l1 ++ x :: l2 -> ready k x ->
  Forall (tame (pre ++ current_thread k :: post) x) fs -> (length l1 < length fs)%nat ->
  exists fs1 fs2 ys, fs = fs1 ++ fs2 /\ schedule fs1 k = Some (ys ++ [x]).
Proof.
  induction fs as [|f fs IH]; intros k pre post l1 l2 Hr El Hx Hfs Hlen; [cbn in Hlen; lia|].
  apply Forall_cons in Hfs as [Hf Hfs]. cbn [length] in Hlen.
  destruct (Hf k Hr) as (Hq & Hc & Hx'); [apply elem_of_app; right; by left | done|].
  destruct (select_progress (f k) pre post l1 x l2) as (y & k' & Es & Hc' & Hq' & Hcase);
    [unfold round; by rewrite Hc | done | done|].
  destruct Hcase as [-> | (Hx2 & pre' & post' & l1' & l2' & Hr' & El' & Hlt & Esame)].
  - exists [f], fs, []. split; [done|]. cbn [schedule]. rewrite Es. done.
  - destruct (IH k' pre' post' l1' l2' Hr' El' Hx2) as (fs1 & fs2 & ys & -> & Hs).
    + by rewrite Esame, Hc.
    + lia.
    + exists (f :: fs1), fs2, (y :: ys). split; [done|]. cbn [schedule]. rewrite Es.
      cbn [mbind option_bind]. rewrite Hs. done.
Qed.

(** C19. The scheduler is fair.  A ready thread [x] in a queue of [n] threads is
    selected within [n - 1] selections, whatever the threads that run in
    between do to each other's states. *)
Theorem scheduler_fair (k : ke) (l : list Z) (x : Z) (fs : list (ke -> ke)) :
  queue k l -> current_thread k ∈ l -> x ∈ l -> x <> current_thread k -> ready k x ->
  Forall (tame l x) fs -> length fs = (length l - 1)%nat ->
  exists fs1 fs2 ys, fs = fs1 ++ fs2 /\ schedule fs1 k = Some (ys ++ [x]).
Proof.
  intros Hq Hc Hx Hne Hr Hfs Hlen. apply list_elem_of_split in Hc as (pre & post & ->).
  assert (x ∈ post ++ pre) as Hin.
  { apply elem_of_app in Hx as [?|[?|?]%elem_of_cons]; [|done|]; apply elem_of_app; auto. }
  apply list_elem_of_split in Hin as (l1 & l2 & El).
  apply (fair_distance fs x k pre post l1 l2); try done.
  apply (f_equal length) in El. rewrite !length_app in *. cbn [length] in *. lia.
Qed.

(** ** Creating a thread *)

Lemma digits_loop_spec fuel n acc :
  0 <= n -> cstring acc ->
  cstring (digits_loop fuel n acc) /\ (length (digits_loop fuel n acc) <= fuel + length acc)%nat.
Proof.
  revert n acc. induction fuel as [|fuel IH]; intros n acc Hn Ha; cbn [digits_loop]; [done|].
  assert (cstring ((48 + n mod 10) :: acc)) as Ha'.
  { constructor; [|done]. pose proof (Z.mod_pos_bound n 10). lia. }
  destruct (0 <? n / 10); [|split; [done | cbn; lia]].
  destruct (IH (n / 10) _ ltac:(apply Z.div_pos; lia) Ha') as [H1 H2]. split; [done|]. cbn [length] in H2. lia.
Qed.

Lemma thread_name_spec n :
  0 <= n -> exists b, thread_name n = Some b /\ cstring (buf_str b).
Proof.
  intros Hn. destruct (digits_loop_spec 10 n [] Hn ltac:(constructor)) as [Hd Hl].
  unfold thread_name. change (cstr "Thread" ++ replicate 58 0) with (cstr "Thread" ++ 0 :: replicate 57 0).
  assert (cstring (cstr "Thread")) as Ht by cstring_lit.
  pose proof (strcat_spec (cstr "Thread") (digits_loop 10 n []) (replicate 57 0) Ht Hd) as Hs.
  destruct (strcat _ _) as [b|].
  - exists b. split; [done|]. destruct Hs as (_ & _ & ->). by apply Forall_app.
  - rewrite length_replicate in Hs. cbn [length] in Hl. lia.
Qed.

Section create.
Context {H : Type} `{KernelHeap H} (a : arch).
Implicit Types st : ob H ke.

Lemma fresh_not_owned st p : inv st -> kh_live (heap st) !! p = None -> ~ owned st p.
Proof.
  intros (_ & _ & _ & _ & _ & H6 & _) Hn (i & q & o & Eo & Hq). destruct (H6 _ _ _ _ Eo Hq). congruence.
Qed.

Lemma heap_change_inv st h :
  inv st -> kh_ok h -> (forall q, owned st q -> kh_live h !! q = kh_live (heap st) !! q) ->
  inv (set_heap st h).
Proof. intros Hi Hok Hl. eapply quiet_inv; [done|]. by repeat split. Qed.

(** A heap that gained one block. *)
Definition gained (h : H) (p cap : Z) (h' : H) : Prop :=
  kh_ok h' /\ 0 < p < 4294967296 /\ kh_live h !! p = None /\ kh_live h' = <[p := cap]> (kh_live h).

Lemma malloc_gained h n p h' :
  kh_ok h -> 0 < n <= 4294963168 -> kh_malloc n h = Some (p, h') -> p <> 0 ->
  exists cap, n <= cap /\ gained h p cap h'.
Proof.
  intros Hok Hn E Hp. destruct (kh_malloc_spec h n Hok Hn) as (p' & h2 & E' & Hok' & Hc).
  rewrite E in E'. injection E' as <- <-. destruct Hc as [[-> _] | (Hr & Hnone & cap & Hcap & Hl)]; [done|].
  exists cap. done.
Qed.

Lemma gained_inv st p cap h : inv st -> gained (heap st) p cap h -> inv (set_heap st h).
Proof.
  intros Hi (Hok & _ & Hn & Hl). apply heap_change_inv; [done..|]. intros q Hq. rewrite Hl, lookup_insert_ne; [done|].
  intros <-. by apply (fresh_not_owned st p).
Qed.

(** The dispatcher's part of the invariant: the ready queue is a list of
    allocated thread blocks, and the thread type is registered. *)
Definition ke_inv st (l : list Z) : Prop :=
  inv st /\ queue (memory st) l /\ (forall x, x ∈ l -> is_Some (kh_live (heap st) !! x)) /\
  registered st (thread_object_type (memory st)) /\ 0 <= thread_count (memory st) < 4294967296.

(** The frame a new thread starts from lies in its stack. *)
Definition frame_ok (stk size : Z) (f : Z * list (Z * Z)) : Prop :=
  stk <= fst f <= stk + size /\
  (forall w, w ∈ snd f -> stk <= fst w /\ fst w + (match a with X86 => 4 | _ => 8 end) <= stk + size) /\
  (a <> X86 -> fst f mod 16 = 0) /\ (a <> LA64 -> (fst f, KeThreadBootstrap_addr) ∈ snd f).

Lemma initial_frame_ok stk size :
  0 < stk -> 32 <= size -> stk + size <= 4294967296 -> frame_ok stk size (initial_frame a stk size).
Proof.
  intros Hs Hz Hb. unfold frame_ok, initial_frame.
  destruct a; cbn [fst snd].
  - rewrite u32_small by (unfold is_u32; lia). split; [lia|]. split; [|split; [done | intros _; by left]].
    intros w ->%list_elem_of_singleton. cbn. lia.
  - rewrite (u64_small (stk + size)) by (unfold is_u64; lia). rewrite land_mask16 by (unfold is_u64; lia).
    assert (stk + size - 16 < (stk + size) / 16 * 16 <= stk + size) as Ht by (Z.div_mod_to_equations; lia).
    set (top := (stk + size) / 16) in *. rewrite u64_small by (unfold is_u64; lia).
    split; [lia|]. split; [|split; [|intros _; by left]].
    + intros w [->|[->|Hw]%elem_of_cons]%elem_of_cons; [cbn; lia..|by apply not_elem_of_nil in Hw].
    + intros _. replace (top * 16 - 16) with ((top - 1) * 16) by lia. apply Z.mod_mul. lia.
  - rewrite (u64_small (stk + size)) by (unfold is_u64; lia). rewrite land_mask16 by (unfold is_u64; lia).
    assert (stk + size - 16 < (stk + size) / 16 * 16 <= stk + size) as Ht by (Z.div_mod_to_equations; lia).
    split; [lia|]. split; [intros w Hw; by apply not_elem_of_nil in Hw|]. split; [|done].
    intros _. apply Z.mod_mul. lia.
Qed.

Lemma store_words_frame stk size m w :
  w ∈ snd (initial_frame a stk size) ->
  store_words (snd (initial_frame a stk size)) m !! fst w = Some (snd w).
Proof.
  unfold initial_frame, store_words. destruct a; cbn [snd fold_left fst].
  - intros ->%list_elem_of_singleton. cbn. by rewrite lookup_insert_eq.
  - set (sp := u64 _). intros [->|[->|Hw]%elem_of_cons]%elem_of_cons; cbn.
    + rewrite lookup_insert_ne by lia. by rewrite lookup_insert_eq.
    + by rewrite lookup_insert_eq.
    + by apply not_elem_of_nil in Hw.
  - intros Hw. by apply not_elem_of_nil in Hw.
Qed.

(** The block a new thread gets. *)
Definition new_thread (hd stk size entry arg : Z) : THREAD :=
  mkThread hd THREAD_READY 8 stk size entry arg
    (fst (initial_frame a stk size) :: replicate 10 0 ++ [match a with LA64 => KeThreadBootstrap_addr | _ => 0 end]) 0.

(** The end of [KeCreateThread], from the name on. *)
Definition name_thread (p : Z) (nm : list Z) st : option (Z * ob H ke) :=
  '(hd, st) ← ObCreateObject a (thread_object_type (memory st)) (Some (buf_str nm)) p (sizeof_THREAD a) st;
  t ← threads (memory st) !! p;
  if hd =? INVALID_HANDLE then
    h ← kh_free (stack t) (heap st);
    h ← kh_free p h;
    Some (INVALID_HANDLE, set_heap st h)
  else
    Some (hd, set_memory st (set_threads (memory st) (<[p := with_handle t hd]> (threads (memory st))))).

(** Before that the thread is built and queued. *)
Lemma KeCreateThread_queues st l entry arg size p h1 stk h2 :
  ke_inv st l -> 0 < size <= 4294963168 ->
  kh_malloc (sizeof_THREAD a) (heap st) = Some (p, h1) -> p <> 0 ->
  kh_malloc size h1 = Some (stk, h2) -> stk <> 0 ->
  exists nm st3, KeCreateThread a entry arg size st = name_thread p nm st3 /\ cstring (buf_str nm) /\
    heap st3 = h2 /\ inv st3 /\ body_fresh st3 p /\ registered st3 (thread_object_type (memory st)) /\
    (forall j, table st3 j = table st j) /\ thread_object_type (memory st3) = thread_object_type (memory st) /\
    0 <= thread_count (memory st3) < 4294967296 /\ queue (memory st3) (l ++ [p]) /\
    threads (memory st3) !! p = Some (new_thread 0 stk size entry arg) /\
    (forall w, w ∈ snd (initial_frame a stk size) -> words (memory st3) !! fst w = Some (snd w)).
Proof.
  intros (Hinv & Hq & Hlive & Hreg & Hcnt) Hsize E1 Hp E2 Hstk. pose proof Hinv as (Hok & _).
  destruct (malloc_gained (heap st) (sizeof_THREAD a) p h1 Hok ltac:(destruct a; cbn; lia) E1 Hp) as (cap1 & _ & G1).
  pose proof (gained_inv st p cap1 h1 Hinv G1) as Hinv1. pose proof G1 as (Hok1 & Hpr & Hpn & Hl1).
  destruct (malloc_gained _ _ _ _ Hok1 Hsize E2 Hstk) as (cap2 & _ & G2).
  pose proof (gained_inv (set_heap st h1) stk cap2 h2 Hinv1 G2) as Hinv2. pose proof G2 as (Hok2 & Hsr & Hsn & Hl2).
  assert (stk <> p) as Hsp by (intros ->; rewrite Hl1, lookup_insert_eq in Hsn; done).
  assert (p ∉ l) as Hpl by (intros Hin; destruct (Hlive p Hin); congruence).
  unfold KeCreateThread. rewrite E1. cbn [mbind option_bind heap set_heap].
  rewrite (proj2 (Z.eqb_neq p 0) Hp), (proj2 (Z.eqb_neq size 0)) by lia. rewrite E2. cbn [mbind option_bind].
  destruct (initial_frame a stk size) as [sp ws] eqn:Ef.
  rewrite (proj2 (Z.eqb_neq stk 0) Hstk). cbn [andb memory set_heap].
  set (t := mkThread _ _ _ _ _ _ _ _ _).
  assert (t = new_thread 0 stk size entry arg) as Et by (unfold t, new_thread; by rewrite Ef).
  set (k1 := set_words _ _).
  assert (queue k1 l) as Hq1 by (destruct Hq; split; [by apply is_queue_fresh | done]).
  destruct (KeAppendReadyThread_spec k1 l p t Hq1 Hpl Hp) as (k2 & m & -> & Hq2 & Hk2 & Hm & _); [apply lookup_insert_eq|].
  change (with_next t 0) with t in Hm. cbn [mbind option_bind].
  assert (thread_count k2 = thread_count (memory st) /\ thread_object_type k2 = thread_object_type (memory st) /\
    threads k2 = m /\ words k2 = store_words ws (words (memory st))) as (Hk2c & Hk2t & Hk2m & Hk2w) by (rewrite Hk2; done).
  destruct (thread_name_spec (thread_count k2) ltac:(lia)) as (nm & -> & Hnm). cbn [mbind option_bind].
  set (st3 := set_memory _ (set_counts k2 _ _)). exists nm, st3. do 4 (split; [done|]). split.
  { intros _. split.
    - change (heap st3) with h2. rewrite Hl2, lookup_insert_ne by done. rewrite Hl1, lookup_insert_eq. by eexists.
    - intros Ho. by apply (fresh_not_owned st p Hinv Hpn). }
  do 2 (split; [done|]). split; [exact Hk2t|]. split; [apply u32_range|]. split; [exact Hq2|].
  split; [change (threads k2 !! p = Some (new_thread 0 stk size entry arg)); by rewrite Hk2m, Hm, Et|].
  intros w Hw. change (words (memory st3)) with (words k2). rewrite Hk2w.
  pose proof (store_words_frame stk size (words (memory st)) w) as Hs. rewrite Ef in Hs. by apply Hs.
Qed.

(** What is live after three more blocks. *)
Lemma live_after h p cap1 h1 stk cap2 h2 q cap (L : gmap Z Z) x :
  gained h p cap1 h1 -> gained h1 stk cap2 h2 -> L = <[q := cap]> (kh_live h2) ->
  is_Some (kh_live h !! x) \/ x = p \/ x = stk -> is_Some (L !! x).
Proof.
  intros (_ & _ & _ & Hl1) (_ & _ & _ & Hl2) -> Hx. rewrite Hl2, Hl1, !lookup_insert.
  repeat (case_decide; [by eexists|]). destruct Hx as [?|[?|?]]; [done | congruence..].
Qed.

Lemma KeCreateThread_run st l entry arg size p h1 stk h2 :
  ke_inv st l -> 0 < size <= 4294963168 ->
  kh_malloc (sizeof_THREAD a) (heap st) = Some (p, h1) -> p <> 0 ->
  kh_malloc size h1 = Some (stk, h2) -> stk <> 0 ->
  exists hd st', KeCreateThread a entry arg size st = Some (hd, st') /\
    queue (memory st') (l ++ [p]) /\
    threads (memory st') !! p = Some (new_thread (if hd =? INVALID_HANDLE then 0 else hd) stk size entry arg) /\
    (forall w, w ∈ snd (initial_frame a stk size) -> words (memory st') !! fst w = Some (snd w)) /\
    (hd = INVALID_HANDLE -> kh_live (heap st') !! p = None) /\
    (hd <> INVALID_HANDLE -> ke_inv st' (l ++ [p]) /\ 0 <= hd < MAX_OBJECTS /\ table st hd = None /\
       is_Some (kh_live (heap st') !! p) /\ is_Some (kh_live (heap st') !! stk) /\
       exists nm, forall j, table st' j =
         if j =? hd then Some (new_entry (thread_object_type (memory st)) (Some nm) p (sizeof_THREAD a))
         else table st j) /\
    ((forall j, 0 <= j < MAX_OBJECTS -> table st j <> None) -> hd = INVALID_HANDLE).
Proof.
  intros Hk Hsize E1 Hp E2 Hstk. pose proof Hk as ((Hok & _) & _ & Hlive & _).
  destruct (malloc_gained (heap st) (sizeof_THREAD a) p h1 Hok ltac:(destruct a; cbn; lia) E1 Hp) as (cap1 & _ & G1).
  destruct (malloc_gained _ _ _ _ (proj1 G1) Hsize E2 Hstk) as (cap2 & _ & G2).
  destruct (KeCreateThread_queues st l entry arg size p h1 stk h2 Hk Hsize E1 Hp E2 Hstk)
    as (nm & st3 & -> & Hnm & Hh3 & Hinv3 & Hbf & Hreg3 & Htab3 & Hty3 & Hc3 & Hq3 & Ht3 & Hw3).
  unfold name_thread. rewrite Hty3.
  destruct (ObCreateObject_spec a (thread_object_type (memory st)) (Some (buf_str nm)) p (sizeof_THREAD a) st3 Hinv3
    ltac:(unfold registered in Hreg3; lia) Hnm Hbf) as (hd & st4 & -> & Hinv4 & Hm4 & Ht4 & Htc4 & Hcase).
  cbn [mbind option_bind]. rewrite Hm4, Ht3. cbn [mbind option_bind].
  destruct Hcase as [(-> & Htab & Hl4 & _ & Hwhy) |
    (Hhd & _ & Hnone & _ & q & cap & _ & Hq0 & _ & Hfq & _ & Hl4 & _ & Htab)].
  - rewrite Z.eqb_refl. pose proof Hinv4 as (Hok4 & _).
    destruct (kh_free_spec (heap st4) (stack (new_thread 0 stk size entry arg)) Hok4) as (h5 & -> & Hok5 & Hl5). cbn [mbind option_bind].
    destruct (kh_free_spec h5 p Hok5) as (h6 & -> & Hok6 & Hl6). cbn [mbind option_bind].
    eexists _, _. split; [reflexivity|]. cbn [memory set_heap heap]. rewrite Hm4.
    do 3 (split; [done|]). split; [intros _; by rewrite Hl6, lookup_delete_eq|]. done.
  - assert (hd <> INVALID_HANDLE) as Hne by (unfold INVALID_HANDLE, MAX_OBJECTS in *; lia).
    rewrite (proj2 (Z.eqb_neq hd _) Hne). eexists _, _. split; [reflexivity|].
    set (k4 := set_threads _ _). rewrite Hh3 in Hl4. rewrite Htab3 in Hnone.
    assert (queue k4 (l ++ [p])) as Hq4 by (destruct Hq3; split; [by eapply is_queue_update | done]).
    pose proof (fun x => live_after _ _ _ _ _ _ _ _ _ _ x G1 G2 Hl4) as Hlv.
    split; [exact Hq4|]. split; [unfold k4; cbn [memory set_memory threads set_threads]; by rewrite lookup_insert_eq, (proj2 (Z.eqb_neq hd _) Hne)|].
    split; [exact Hw3|]. split; [done|]. split; [|intros Hfull; by destruct (Hfull hd Hhd)].
    intros _. split.
    { split; [exact Hinv4|]. split; [exact Hq4|]. split.
      { intros x [Hx | ->%list_elem_of_singleton]%elem_of_app; apply Hlv; [left; by apply Hlive | by right; left]. }
      unfold k4. cbn [memory set_memory set_threads thread_object_type thread_count]. rewrite Hty3. split; [|exact Hc3].
      unfold registered in *. cbn [object_type_count set_memory]. by rewrite Htc4. }
    split; [done|]. split; [done|]. split; [by apply Hlv; right; left|].
    split; [by apply Hlv; right; right|]. exists (buf_str nm). intros j.
    change (table (set_memory st4 k4) j) with (table st4 j). by rewrite Htab, Htab3.
Qed.

(** Creating a thread.  When the thread block and a stack of at least 32
    bytes can be allocated, [KeCreateThread] returns; if it returns a handle,
    the thread is READY at the tail of the ready queue behind the same threads
    as before, its handle names an object with one reference whose body is the
    thread block, no other handle changed, block and stack are allocated, the
    dispatcher's invariant holds again, and its saved stack pointer and the
    words stored for the first switch lie inside its stack, 16-byte aligned on
    the 64-bit targets, with the bootstrap routine as return address. *)
Theorem KeCreateThread_correct st l entry arg size p h1 stk h2 :
  ke_inv st l -> 32 <= size <= 4294963168 ->
  kh_malloc (sizeof_THREAD a) (heap st) = Some (p, h1) -> p <> 0 ->
  kh_malloc size h1 = Some (stk, h2) -> stk <> 0 ->
  exists hd st', KeCreateThread a entry arg size st = Some (hd, st') /\
    (hd <> INVALID_HANDLE ->
       ke_inv st' (l ++ [p]) /\ (p ∉ l) /\
       threads (memory st') !! p = Some (new_thread hd stk size entry arg) /\
       table st hd = None /\
       (exists nm, forall j, table st' j =
          (if j =? hd then Some (new_entry (thread_object_type (memory st)) (Some nm) p (sizeof_THREAD a))
           else table st j)) /\
       is_Some (kh_live (heap st') !! p) /\ is_Some (kh_live (heap st') !! stk) /\
       frame_ok stk size (initial_frame a stk size) /\
       forall w, w ∈ snd (initial_frame a stk size) -> words (memory st') !! fst w = Some (snd w)).
Proof.
  intros Hk Hsize E1 Hp E2 Hstk.
  destruct (KeCreateThread_run st l entry arg size p h1 stk h2 Hk ltac:(lia) E1 Hp E2 Hstk)
    as (hd & st' & E & Hq & Ht & Hw & _ & Hok & _).
  exists hd, st'. split; [done|]. intros Hne. destruct (Hok Hne) as (Hinv & Hhd & Hn & Hlp & Hls & nm & Htab).
  rewrite (proj2 (Z.eqb_neq hd _) Hne) in Ht. split; [done|]. split.
  { destruct Hq as [_ Hnd]. apply NoDup_app in Hnd as (_ & Hd & _). intros Hin. apply (Hd p Hin). by left. }
  split; [done|]. split; [done|]. split; [by exists nm|]. split; [done|]. split; [done|]. split; [|done].
  pose proof Hk as (Hi & _). destruct Hi as (Hokh & _).
  destruct (malloc_gained _ (sizeof_THREAD a) _ _ Hokh ltac:(destruct a; cbn; lia) E1 Hp) as (c1 & _ & Hok1 & _).
  destruct (malloc_gained _ size _ _ Hok1 ltac:(lia) E2 Hstk) as (c2 & Hc2 & Hok2 & Hsr & _ & Hl2).
  destruct (kh_live_bounds h2 stk c2 Hok2) as (_ & _ & Hb); [by rewrite Hl2, lookup_insert_eq|].
  apply initial_frame_ok; lia.
Qed.

(** When all 256 handles are taken, [KeCreateThread] frees the block of the
    thread it could not register, but the block stays linked in the ready
    queue as a READY thread: the scheduler will run it after its memory has
    been given back to the heap. *)
Theorem KeCreateThread_failure_dangling st l entry arg size p h1 stk h2 :
  ke_inv st l -> 0 < size <= 4294963168 ->
  kh_malloc (sizeof_THREAD a) (heap st) = Some (p, h1) -> p <> 0 ->
  kh_malloc size h1 = Some (stk, h2) -> stk <> 0 ->
  (forall j, 0 <= j < MAX_OBJECTS -> table st j <> None) ->
  exists st', KeCreateThread a entry arg size st = Some (INVALID_HANDLE, st') /\
    queue (memory st') (l ++ [p]) /\ ready (memory st') p /\ kh_live (heap st') !! p = None.
Proof.
  intros Hk Hsize E1 Hp E2 Hstk Hfull.
  destruct (KeCreateThread_run st l entry arg size p h1 stk h2 Hk Hsize E1 Hp E2 Hstk)
    as (hd & st' & E & Hq & Ht & _ & Hbad & _ & Hf).
  rewrite (Hf Hfull) in *. exists st'. split; [done|]. split; [done|]. split; [|by apply Hbad].
  unfold ready. by rewrite Ht.
Qed.

(** ** Mutexes *)

(** A handle that names a mutex at [p]. *)
Definition names_mutex st (h p : Z) (m : MUTEX) : Prop :=
  0 <= h /\ p <> 0 /\ mutexes (memory st) !! p = Some m /\
  exists e, table st h = Some e /\ e_body e = p /\ e_refs e < 4294967295.

(** The same objects and blocks, up to the dispatcher's own memory. *)
Definition same_objects st st' : Prop :=
  inv st' /\ (forall j, table st' j = table st j) /\ heap st' = heap st.

(** Reference, change the dispatcher's memory, dereference. *)
Lemma bracket st h e f :
  inv st -> 0 <= h -> table st h = Some e -> e_refs e < 4294967295 ->
  exists st1 st2, ObReferenceObject h st = Some (e_body e, st1) /\ memory st1 = memory st /\
    inv st1 /\ table st1 h = Some (entry_refs e (e_refs e + 1)) /\
    (forall j, j <> h -> table st1 j = table st j) /\ heap st1 = heap st /\
    (forall call, ObDereferenceObject call h (set_memory st1 f) = Some (st2)) /\
    same_objects st st2 /\ memory st2 = f.
Proof.
  intros Hinv Hh He Hr. pose proof (ObReferenceObject_spec st h Hinv Hh) as Hs. rewrite He in Hs.
  destruct (Hs Hr) as (st1 & E1 & Hinv1 & _ & Hheap1 & Hm1 & _ & _ & Ht1).
  assert (table st1 h = Some (entry_refs e (e_refs e + 1))) as He1 by (by rewrite Ht1, Z.eqb_refl).
  destruct (table_facts st h e Hinv He) as (_ & _ & _ & _ & Hpos).
  destruct (deref_more_spec (fun _ _ s => Some s) h (entry_refs e (e_refs e + 1)) (set_memory st1 f) Hinv1 He1)
    as (st2 & E2 & Hinv2 & _ & Hheap2 & Hm2 & _ & _ & Ht2); [cbn; lia|].
  exists st1, st2. split; [done|]. split; [done|]. split; [done|]. split; [done|].
  split; [intros j Hj; by rewrite Ht1, (proj2 (Z.eqb_neq j h) Hj)|]. split; [done|]. split.
  { intros call. rewrite <- E2. apply (deref_more_any call _ h (entry_refs e (e_refs e + 1)));
      [exact Hinv1 | exact He1 | cbn; lia]. }
  split; [|done]. split; [done|]. split; [|cbn in Hheap2; congruence].
  intros j. rewrite Ht2. change (table (set_memory st1 f) j) with (table st1 j). rewrite Ht1.
  destruct (Z.eqb_spec j h) as [->|]; [|done]. rewrite He. destruct e. cbn. do 2 f_equal. unfold entry_refs. cbn. f_equal. lia.
Qed.

(** The state in which [KeYield] selects: the current thread's registers saved. *)
Definition saved (k : ke) (cur : THREAD) : ke :=
  set_threads k (<[current_thread k := with_context cur (overwrite a (regs k) (context cur))]> (threads k)).

Lemma saved_round k pre post cur :
  round k pre post -> threads k !! current_thread k = Some cur -> round (saved k cur) pre post.
Proof.
  intros [Hq Hnd] Hc. split; [|done]. unfold saved. cbn [threads set_threads ready_queue current_thread].
  by eapply is_queue_update.
Qed.

Lemma KeYield_spec k pre post cur :
  round k pre post -> threads k !! current_thread k = Some cur ->
  exists k', KeYield a k = Some k' /\ mutexes k' = mutexes k /\ queue k' (pre ++ current_thread k :: post) /\
    (exists s, threads k' !! current_thread k =
       Some (with_state (with_context cur (overwrite a (regs k) (context cur))) s)) /\
    (current_thread k' <> current_thread k -> exists t,
       threads k !! current_thread k' = Some t /\ regs k' = overwrite a (context t) (regs k)).
Proof.
  intros Hr Hcur. pose proof (saved_round k pre post cur Hr Hcur) as Hr1.
  pose proof (KeSelectNextThread_spec (saved k cur) pre post Hr1) as Hs. cbn zeta in Hs.
  pose proof Hr as [Hq _]. destruct (is_queue_in _ _ _ (current_thread k) Hq) as [Hc0 _].
  { apply elem_of_app. right. by left. }
  assert (threads (saved k cur) !! current_thread k =
    Some (with_context cur (overwrite a (regs k) (context cur)))) as Hsc by apply lookup_insert_eq.
  unfold KeYield. rewrite (proj2 (Z.eqb_neq _ 0) Hc0), Hcur. cbn [mbind option_bind]. fold (saved k cur).
  set (y := first_ready (threads (saved k cur)) (post ++ pre)) in *.
  destruct (Z.eqb_spec y 0) as [E|Hy].
  - rewrite Hs. cbn [mbind option_bind Z.eqb]. exists (match a with LA64 => set_regs (saved k cur)
      (overwrite a (overwrite a (regs k) (context cur)) (regs k)) | _ => saved k cur end).
    split.
    { destruct a; [done..|]. cbn [current_thread saved set_threads] in *. rewrite (proj2 (Z.eqb_neq _ 0) Hc0).
      cbn [current_thread saved set_threads] in Hsc |- *. by rewrite Hsc. }
    split; [by destruct a|]. split; [by destruct a|].
    split; [exists (state cur); destruct a; exact Hsc|].
    intros Hne. destruct Hne. by destruct a.
  - destruct Hs as (k' & Es & Hq' & Hc' & _ & Hk' & Hall). rewrite Es. cbn [mbind option_bind].
    rewrite (proj2 (Z.eqb_neq y 0) Hy), (proj2 (Z.eqb_neq y 0) Hy).
    assert (Forall (fun x => x <> 0) (post ++ pre)) as Hnz.
    { apply is_queue_nonzero in Hq. rewrite Forall_app, Forall_cons in Hq. apply Forall_app. tauto. }
    destruct (first_ready_in _ _ Hnz Hy) as (l1 & l2 & El & Hys & _). fold y in El, Hys.
    destruct (threads (saved k cur) !! y) as [ty|] eqn:Hty; [|done].
    rewrite (Hall y ty Hty). cbn [mbind option_bind]. eexists. split; [reflexivity|].
    split; [rewrite Hk'; done|]. split; [exact Hq'|]. split.
    { eexists. cbn [threads set_regs]. apply (Hall _ _ Hsc). }
    cbn [current_thread set_regs regs]. rewrite Hc'. intros Hne. exists ty. split.
    + cbn [saved threads set_threads] in Hty. by rewrite lookup_insert_ne in Hty.
    + rewrite Hk'. done.
Qed.

Lemma overwrite_back r c r' :
  length r = saved_registers a -> length r' = saved_registers a -> overwrite a (overwrite a r c) r' = r.
Proof.
  intros Hr Hr'. unfold overwrite. rewrite (take_ge r), (drop_ge r') by lia.
  rewrite app_nil_r, take_app_length' by done. done.
Qed.

(** A context switch loses nothing.  If a thread yields with some register
    values and a later yield of another thread switches back to it, it gets
    exactly these values back, provided its saved context was left alone in
    between; both yields return. *)
Theorem yield_resumes (k k2 : ke) (pre post pre2 post2 : list Z) :
  queue k (pre ++ current_thread k :: post) -> queue k2 (pre2 ++ current_thread k2 :: post2) ->
  length (regs k) = saved_registers a -> length (regs k2) = saved_registers a ->
  exists k1 k3, KeYield a k = Some k1 /\ KeYield a k2 = Some k3 /\
    (current_thread k2 <> current_thread k -> current_thread k3 = current_thread k ->
     context <$> threads k2 !! current_thread k = context <$> threads k1 !! current_thread k ->
     regs k3 = regs k).
Proof.
  intros Hr Hr2 Hl Hl2.
  destruct (is_queue_in _ _ _ (current_thread k) (proj1 Hr)) as [_ [cur Hcur]].
  { apply elem_of_app. right. by left. }
  destruct (is_queue_in _ _ _ (current_thread k2) (proj1 Hr2)) as [_ [cur2 Hcur2]].
  { apply elem_of_app. right. by left. }
  destruct (KeYield_spec k pre post cur Hr Hcur) as (k1 & E1 & _ & _ & (s & Hs) & _).
  destruct (KeYield_spec k2 pre2 post2 cur2 Hr2 Hcur2) as (k3 & E3 & _ & _ & _ & Hsw).
  exists k1, k3. split; [done|]. split; [done|]. intros Hne Hback Hctx.
  destruct (Hsw ltac:(congruence)) as (t & Ht & ->). rewrite Hback in Ht. rewrite Hs, Ht in Hctx.
  cbn in Hctx. injection Hctx as ->. by apply overwrite_back.
Qed.

(** Mutual exclusion.  For a handle that names a mutex: a wait on a free
    mutex finishes with the current thread as owner, and a wait on a held one
    yields without touching it, whoever waits; a release frees the mutex only
    for its owner and otherwise changes nothing; a wait resumed after a yield
    takes the mutex if it is free by then and yields again if it is not.  Every
    finished operation leaves all handles, reference counts and allocated
    blocks as they were. *)
Theorem mutex_exclusion st h p m pre post :
  inv st -> names_mutex st h p m -> queue (memory st) (pre ++ current_thread (memory st) :: post) ->
  (if locked m
   then exists st', KeWaitMutex a h st = Some (Yielded p st') /\ mutexes (memory st') = mutexes (memory st) /\
     inv st' /\ (exists e, table st' h = Some e /\ e_body e = p /\ 1 < e_refs e) /\
     queue (memory st') (pre ++ current_thread (memory st) :: post)
   else exists st', KeWaitMutex a h st = Some (Finished st') /\ same_objects st st' /\
     memory st' = set_mutexes (memory st)
       (<[p := mkMutex true (current_thread (memory st))]> (mutexes (memory st)))) /\
  (exists st', KeReleaseMutex h st = Some st' /\ same_objects st st' /\
     memory st' = (if owner m =? current_thread (memory st)
       then set_mutexes (memory st) (<[p := mkMutex false 0]> (mutexes (memory st))) else memory st)) /\
  (forall e, table st h = Some e -> 1 < e_refs e ->
     if locked m
     then exists st', KeWaitMutex_loop a h p st = Some (Yielded p st') /\ mutexes (memory st') = mutexes (memory st)
     else exists st', KeWaitMutex_loop a h p st = Some (Finished st') /\
       table st' h = Some (entry_refs e (e_refs e - 1)) /\
       mutexes (memory st') !! p = Some (mkMutex true (current_thread (memory st)))).
Proof.
  intros Hinv (Hh & Hp & Hm & e & He & Hb & Hr) Hq.
  assert (forall st1, memory st1 = memory st -> exists k', lift (KeYield a) st1 = Some (set_memory st1 k') /\
    mutexes k' = mutexes (memory st) /\ queue k' (pre ++ current_thread (memory st) :: post)) as Hy.
  { intros st1 Hm1. destruct Hq as [Hq Hnd].
    destruct (is_queue_in _ _ _ (current_thread (memory st)) Hq) as [_ [cur Hcur]].
    { apply elem_of_app. right. by left. }
    destruct (KeYield_spec (memory st) pre post cur (conj Hq Hnd) Hcur) as (k' & E & Hk & Hq' & _).
    exists k'. unfold lift. rewrite Hm1, E. done. }
  destruct (table_facts st h e Hinv He) as (_ & _ & _ & _ & Hpos).
  split; [|split].
  - destruct (locked m) eqn:El.
    + destruct (bracket st h e (memory st) Hinv Hh He Hr) as (st1 & _ & E1 & Hm1 & Hi1 & Ht1 & _).
      destruct (Hy st1 Hm1) as (k' & Ey & Hk & Hq'). unfold KeWaitMutex, KeWaitMutex_loop.
      rewrite E1. cbn [mbind option_bind]. rewrite Hb, (proj2 (Z.eqb_neq p 0) Hp), Hm1, Hm. cbn [mbind option_bind].
      rewrite El, Ey. cbn [mbind option_bind]. eexists. split; [reflexivity|]. split; [exact Hk|]. split; [exact Hi1|].
      split; [|exact Hq']. eexists. split; [exact Ht1|]. split; [exact Hb | cbn; lia].
    + destruct (bracket st h e (set_mutexes (memory st)
        (<[p := mkMutex true (current_thread (memory st))]> (mutexes (memory st)))) Hinv Hh He Hr)
        as (st1 & st2 & E1 & Hm1 & _ & _ & _ & _ & Ed & Hs & Hm2).
      unfold KeWaitMutex, KeWaitMutex_loop.
      rewrite E1. cbn [mbind option_bind]. rewrite Hb, (proj2 (Z.eqb_neq p 0) Hp), Hm1, Hm. cbn [mbind option_bind].
      rewrite El, Ed. cbn [mbind option_bind]. by eexists.
  - destruct (bracket st h e (if owner m =? current_thread (memory st)
       then set_mutexes (memory st) (<[p := mkMutex false 0]> (mutexes (memory st))) else memory st) Hinv Hh He Hr)
      as (st1 & st2 & E1 & Hm1 & _ & _ & _ & _ & Ed & Hs & Hm2).
    unfold KeReleaseMutex. rewrite E1. cbn [mbind option_bind].
    rewrite Hb, (proj2 (Z.eqb_neq p 0) Hp), Hm1, Hm. cbn [mbind option_bind]. exists st2.
    split; [|done]. rewrite <- (Ed ke_call). destruct (owner m =? _); [done|].
    f_equal. destruct st1; cbn in Hm1 |- *. unfold set_memory. cbn. congruence.
  - intros e' He' Hr'. assert (e' = e) as -> by congruence. unfold KeWaitMutex_loop. rewrite Hm. cbn [mbind option_bind].
    destruct (locked m).
    + destruct (Hy st eq_refl) as (k' & -> & Hk & _). cbn [mbind option_bind]. by eexists.
    + set (k1 := set_mutexes _ _).
      destruct (deref_more_spec ke_call h e (set_memory st k1) Hinv He Hr') as (st2 & -> & _ & _ & _ & Hm2 & _ & _ & Ht2).
      cbn [mbind option_bind]. exists st2. split; [done|]. rewrite Ht2, Z.eqb_refl, Hm2. split; [done|].
      unfold k1. cbn. by rewrite lookup_insert_eq.
Qed.

End create.

(** ** A concrete kernel: boot heap, initialised object manager and dispatcher *)

Definition kex := ob (Mm.heap Pmm.pmm) ke.
Definition ke0 : ke := mkKe ∅ ∅ ∅ ∅ ∅ 0 0 0 0 0 0 0 0 0 [].
Definition boot_ke : kex := KeInit (ObInit (mkOb [] 0 [] 0 ∅ Mm.small_heap ke0)).

Lemma register_inv {H B} `{KernelHeap H} (st : ob H B) nm proc :
  inv st -> cstring nm -> nm <> [] -> inv (snd (ObRegisterObjectType (Some nm) proc st)).
Proof.
  intros Hi Hn Hne. destruct (ObRegisterObjectType_spec nm proc st Hi Hn Hne)
    as [(i & -> & _) | (_ & [[-> _] | (st' & -> & Hi' & _)])]; done.
Qed.

Lemma KeInit_inv {H} `{KernelHeap H} (st : ob H ke) : inv st -> inv (KeInit st).
Proof.
  intros Hi. unfold KeInit.
  pose proof (register_inv (set_memory st (set_counts (memory st) 0 0)) (cstr "Process") 0 Hi
    ltac:(cstring_lit) ltac:(discriminate)) as H1. destruct (ObRegisterObjectType _ _ _) as [x1 s1].
  pose proof (register_inv s1 (cstr "Thread") KeDeleteThreadObject_addr H1 ltac:(cstring_lit) ltac:(discriminate)) as H2.
  destruct (ObRegisterObjectType _ _ _) as [x2 s2].
  pose proof (register_inv s2 (cstr "Event") 0 H2 ltac:(cstring_lit) ltac:(discriminate)) as H3.
  destruct (ObRegisterObjectType _ _ _) as [x3 s3].
  pose proof (register_inv s3 (cstr "Mutex") 0 H3 ltac:(cstring_lit) ltac:(discriminate)) as H4.
  destruct (ObRegisterObjectType _ _ _) as [x4 s4]. exact H4.
Qed.

Lemma boot_ke_inv : ke_inv (H0 := mm_heap X86) boot_ke [].
Proof.
  split.
  { apply KeInit_inv, ObInit_inv. exact (Mm.small_heap_ok X86). }
  split; [split; [reflexivity | constructor]|]. split; [intros x Hx; by apply not_elem_of_nil in Hx|].
  assert (object_type_count boot_ke = 5 /\ thread_object_type (memory boot_ke) = 2 /\
    thread_count (memory boot_ke) = 0) as (E1 & E2 & E3) by (vm_compute; auto).
  unfold registered. rewrite E1, E2, E3. lia.
Qed.

(** Three threads, the second one running. *)
Definition th (s : THREAD_STATE) (n : Z) : THREAD := mkThread 0 s 8 0 0 0 0 (replicate 12 0) n.
Definition three (s1 s3 : THREAD_STATE) : ke :=
  set_ready (set_current (set_threads ke0
    (<[100 := th s1 200]> (<[200 := th THREAD_RUNNING 300]> {[ 300 := th s3 0 ]}))) 200) 100.

Lemma three_queue s1 s3 : queue (three s1 s3) [100; 200; 300].
Proof.
  split.
  - cbn. split; [done|]. split; [done|]. exists (th s1 200). split; [done|]. cbn.
    split; [done|]. split; [done|]. exists (th THREAD_RUNNING 300). split; [done|]. cbn.
    split; [done|]. split; [done|]. exists (th s3 0). split; done.
  - apply (bool_decide_eq_true_1 (NoDup [100; 200; 300])). reflexivity.
Qed.

(** With the third thread terminated the scan wraps to the first. *)
Lemma KeSelectNextThread_round_robin_witness :
  exists k', KeSelectNextThread (three THREAD_READY THREAD_TERMINATED) = Some (100, k') /\
    current_thread k' = 100.
Proof.
  assert (fst <$> KeSelectNextThread (three THREAD_READY THREAD_TERMINATED) = Some 100) as Hr
    by (vm_compute; reflexivity).
  destruct (KeSelectNextThread_round_robin (three THREAD_READY THREAD_TERMINATED) [100] [300]
    (three_queue _ _)) as [(b & y & c & k' & _ & _ & _ & E & Hc & _) | (_ & E)].
  - exists k'. rewrite E in Hr. cbn in Hr. injection Hr as ->. split; [exact E | exact Hc].
  - rewrite E in Hr. discriminate Hr.
Defined.

(** The first thread runs at the latest after two selections, with no
    interference and with the third thread ready in between. *)
Lemma scheduler_fair_witness :
  exists fs1 fs2 ys, [(fun k : ke => k); (fun k => k)] = fs1 ++ fs2 /\
    schedule fs1 (three THREAD_READY THREAD_READY) = Some (ys ++ [100]).
Proof.
  apply (scheduler_fair (three THREAD_READY THREAD_READY) [100; 200; 300] 100).
  - apply three_queue.
  - right. left.
  - left.
  - vm_compute. discriminate.
  - reflexivity.
  - repeat (constructor; [intros k H1 H2 H3; split; [exact H1|]; split; [reflexivity | exact H3]|]).
    constructor.
  - reflexivity.
Defined.

(** Two successive allocations from a heap, given that they do not fail. *)
Lemma two_blocks (h : Mm.heap Pmm.pmm) n m :
  Mm.heap_ok X86 h -> 0 < n <= 4294963168 -> 0 < m <= 4294963168 ->
  (kh_malloc (KernelHeap := mm_heap X86) n h ≫= fun r => (fun r' => (fst r =? 0) || (fst r' =? 0)) <$>
     kh_malloc (KernelHeap := mm_heap X86) m (snd r)) = Some false ->
  exists p h1 q h2, kh_malloc (KernelHeap := mm_heap X86) n h = Some (p, h1) /\ p <> 0 /\
    kh_malloc (KernelHeap := mm_heap X86) m h1 = Some (q, h2) /\ q <> 0.
Proof.
  intros Hok Hn Hm Hne.
  destruct (kh_malloc_spec (KernelHeap := mm_heap X86) h n Hok Hn) as (p & h1 & E1 & Hok1 & _).
  destruct (kh_malloc_spec (KernelHeap := mm_heap X86) h1 m Hok1 Hm) as (q & h2 & E2 & _).
  rewrite E1 in Hne. cbn [mbind option_bind snd] in Hne. rewrite E2 in Hne. injection Hne as Hne.
  apply orb_false_iff in Hne as [H1 H2]. cbn in H1, H2. exists p, h1, q, h2.
  split; [done|]. split; [lia|]. split; [done | lia].
Qed.

(** The second thread yields to the third, which yields back. *)
Lemma yield_resumes_witness :
  exists k1 k3, KeYield X86 (set_regs (three THREAD_TERMINATED THREAD_READY) [1; 2; 3; 4; 5]) = Some k1 /\
    KeYield X86 (set_regs k1 [6; 7; 8; 9; 10]) = Some k3 /\ regs k3 = [1; 2; 3; 4; 5].
Proof.
  set (k := set_regs (three THREAD_TERMINATED THREAD_READY) [1; 2; 3; 4; 5]).
  destruct (KeYield X86 k) as [k1|] eqn:E1; [|exfalso; vm_compute in E1; discriminate E1].
  assert (queue k1 [100; 200; 300] /\ current_thread k1 = 300) as [Hq Hc].
  { destruct (KeYield_spec X86 k [100] [300] (th THREAD_RUNNING 300) (three_queue _ _) ltac:(reflexivity))
      as (k' & E & _ & Hq & _). rewrite E1 in E. injection E as <-. split; [exact Hq|].
    assert (current_thread <$> KeYield X86 k = Some 300) as Hc by (vm_compute; reflexivity).
    rewrite E1 in Hc. by injection Hc. }
  destruct (yield_resumes X86 k (set_regs k1 [6; 7; 8; 9; 10]) [100] [300] [100; 200] [] (three_queue _ _))
    as (k1' & k3 & E1' & E3 & Hres); [cbn [current_thread set_regs]; rewrite Hc; exact Hq | reflexivity | reflexivity|].
  rewrite E1 in E1'. injection E1' as <-.
  exists k1, k3. split; [reflexivity|]. split; [exact E3|]. apply Hres; [cbn; lia| |reflexivity].
  assert (current_thread <$> (KeYield X86 k ≫= fun k1 => KeYield X86 (set_regs k1 [6; 7; 8; 9; 10])) = Some 200) as H3
    by (vm_compute; reflexivity).
  rewrite E1 in H3. cbn [mbind option_bind] in H3. rewrite E3 in H3. injection H3 as ->. reflexivity.
Defined.

Lemma KeCreateThread_correct_witness :
  exists p st', KeCreateThread (H0 := mm_heap X86) X86 4096 7 8192 boot_ke = Some (0, st') /\
    queue (memory st') [p].
Proof.
  destruct (two_blocks (heap boot_ke) (sizeof_THREAD X86) 8192 (Mm.small_heap_ok X86)
    ltac:(cbn; lia) ltac:(lia) ltac:(vm_compute; reflexivity)) as (p & h1 & stk & h2 & E1 & Hp & E2 & Hs).
  destruct (KeCreateThread_correct (H0 := mm_heap X86) X86 boot_ke [] 4096 7 8192 p h1 stk h2 boot_ke_inv
    ltac:(lia) E1 Hp E2 Hs) as (hd & st' & E & Hok).
  assert (fst <$> KeCreateThread (H0 := mm_heap X86) X86 4096 7 8192 boot_ke = Some 0) as Hh by (vm_compute; reflexivity).
  rewrite E in Hh. cbn in Hh. injection Hh as ->.
  exists p, st'. split; [exact E|]. apply Hok. discriminate.
Defined.

(** Taking [n] handles with body-less events. *)
Fixpoint take_handles (n : nat) (st : kex) : kex :=
  match n with
  | O => st
  | S n' =>
      match ObCreateObject (H0 := mm_heap X86) X86 3 None 0 0 st with
      | Some (_, st') => take_handles n' st'
      | None => st
      end
  end.

Lemma take_handles_inv n st :
  ke_inv (H0 := mm_heap X86) st [] -> ke_inv (H0 := mm_heap X86) (take_handles n st) [].
Proof.
  revert st. induction n as [|n IH]; intros st (Hi & Hq & Hl & Hr & Hc); [done|]. cbn [take_handles].
  destruct (ObCreateObject_spec (H0 := mm_heap X86) X86 3 None 0 0 st Hi ltac:(lia) I (body_fresh_null st))
    as (h & st' & -> & Hi' & Hm & _ & Ht & _).
  apply IH. split; [done|]. rewrite Hm. split; [done|]. split; [intros x Hx; by apply not_elem_of_nil in Hx|].
  unfold registered in *. by rewrite Ht.
Qed.

Definition full_ke : kex := take_handles 256 boot_ke.

Lemma full_ke_full : forall j, 0 <= j < MAX_OBJECTS -> table full_ke j <> None.
Proof.
  assert (forallb (fun j => match table full_ke j with Some _ => true | None => false end) (seqZ 0 256) = true)
    as Hall by (vm_compute; reflexivity).
  intros j Hj E. rewrite forallb_forall in Hall. specialize (Hall j).
  rewrite E in Hall. apply Bool.diff_false_true, Hall, list_elem_of_In, elem_of_seqZ. unfold MAX_OBJECTS in Hj. lia.
Qed.

Lemma KeCreateThread_failure_dangling_witness :
  exists p st', KeCreateThread (H0 := mm_heap X86) X86 4096 7 8192 full_ke = Some (INVALID_HANDLE, st') /\
    ready (memory st') p /\ kh_live (KernelHeap := mm_heap X86) (heap st') !! p = None.
Proof.
  pose proof (take_handles_inv 256 boot_ke boot_ke_inv) as Hinv.
  destruct (two_blocks (heap full_ke) (sizeof_THREAD X86) 8192 (proj1 (proj1 Hinv))
    ltac:(cbn; lia) ltac:(lia) ltac:(vm_compute; reflexivity)) as (p & h1 & stk & h2 & E1 & Hp & E2 & Hs).
  destruct (KeCreateThread_failure_dangling (H0 := mm_heap X86) X86 full_ke [] 4096 7 8192 p h1 stk h2 Hinv
    ltac:(lia) E1 Hp E2 Hs full_ke_full) as (st' & E & _ & Hr & Hn).
  exists p, st'. split; [exact E|]. split; [exact Hr | exact Hn].
Defined.

(** A kernel with a running main thread and one free mutex. *)
Definition mutex_ke : kex :=
  match KeAttachCurrentThread (H0 := mm_heap X86) X86 None boot_ke with
  | Some st => match KeCreateMutex (H0 := mm_heap X86) X86 st with Some (_, st) => st | None => st end
  | None => boot_ke
  end.

(** Handing a freshly allocated body to the object manager. *)
Lemma create_with_body {H} `{KernelHeap H} a (st : ob H ke) n p h k type nm size :
  inv st -> 0 < n <= 4294963168 -> kh_malloc n (heap st) = Some (p, h) -> p <> 0 ->
  0 <= type -> cstring nm ->
  exists hd st', ObCreateObject a type (Some nm) p size (set_memory (set_heap st h) k) = Some (hd, st') /\
    inv st' /\ memory st' = k.
Proof.
  intros Hi Hn E Hp Ht Hnm. pose proof Hi as (Hok & _).
  destruct (malloc_gained _ _ _ _ Hok Hn E Hp) as (cap & _ & G). pose proof (gained_inv st p cap h Hi G) as Hi1.
  destruct G as (_ & _ & Hnone & Hl).
  destruct (ObCreateObject_spec a type (Some nm) p size (set_memory (set_heap st h) k) Hi1 Ht Hnm)
    as (hd & st' & Ec & Hi' & Hm & _).
  { intros _. split; [cbn; rewrite Hl, lookup_insert_eq; by eexists|].
    intros Ho. by apply (fresh_not_owned st p Hi Hnone). }
  by exists hd, st'.
Qed.

Lemma failed_malloc_inv {H B} `{KernelHeap H} (st : ob H B) n h :
  inv st -> 0 < n <= 4294963168 -> kh_malloc n (heap st) = Some (0, h) -> inv (set_heap st h).
Proof.
  intros Hi Hn E. pose proof Hi as (Hok & _).
  destruct (kh_malloc_spec (heap st) n Hok Hn) as (p & h' & E' & Hok' & Hc).
  rewrite E in E'. injection E' as <- <-. destruct Hc as [[_ Hl] | [? _]]; [|lia].
  eapply quiet_inv; [done|]. repeat split; try done. intros q _. cbn. by rewrite Hl.
Qed.

Lemma KeAttachCurrentThread_inv {H} `{KernelHeap H} a (st : ob H ke) nm :
  inv st -> 0 <= thread_object_type (memory st) ->
  match nm with Some nm => cstring nm | None => True end -> current_thread (memory st) = 0 ->
  exists st', KeAttachCurrentThread a nm st = Some st' /\ inv st' /\
    mutex_object_type (memory st') = mutex_object_type (memory st).
Proof.
  intros Hi Ht Hn Hc. pose proof Hi as (Hok & _). unfold KeAttachCurrentThread.
  destruct (kh_malloc_spec (heap st) (sizeof_THREAD a) Hok ltac:(destruct a; cbn; lia)) as (p & h & E & _).
  rewrite E. cbn [mbind option_bind memory set_heap]. rewrite Hc.
  destruct (Z.eqb_spec p 0) as [->|Hp]; cbn [orb negb Z.eqb].
  { eexists. split; [done|]. split; [|done]. eapply failed_malloc_inv; [done| |exact E]. destruct a; cbn; lia. }
  set (t := mkThread _ _ _ _ _ _ _ _ _). set (k := set_threads _ _).
  destruct (create_with_body a st (sizeof_THREAD a) p h k (thread_object_type k)
    (match nm with Some nm => nm | None => cstr "MainThread" end) (sizeof_THREAD a) Hi
    ltac:(destruct a; cbn; lia) E Hp Ht) as (hd & st' & Ec & Hi' & Hm).
  { destruct nm; [done | cstring_lit]. }
  cbn [memory set_memory set_heap] in Ec |- *. rewrite Ec. cbn [mbind option_bind].
  eexists. split; [done|]. split; [exact Hi'|]. cbn [memory set_memory]. by rewrite Hm.
Qed.

Lemma KeCreateMutex_inv {H} `{KernelHeap H} a (st : ob H ke) hd st' :
  inv st -> 0 <= mutex_object_type (memory st) -> KeCreateMutex a st = Some (hd, st') -> inv st'.
Proof.
  intros Hi Ht. pose proof Hi as (Hok & _). unfold KeCreateMutex.
  destruct (kh_malloc_spec (heap st) (sizeof_MUTEX a) Hok ltac:(destruct a; cbn; lia)) as (p & h & E & _).
  rewrite E. cbn [mbind option_bind memory set_heap]. destruct (Z.eqb_spec p 0) as [|Hp]; [done|].
  set (k := set_mutexes _ _).
  destruct (create_with_body a st (sizeof_MUTEX a) p h k (mutex_object_type (memory st)) (cstr "Mutex")
    (sizeof_MUTEX a) Hi ltac:(destruct a; cbn; lia) E Hp Ht ltac:(cstring_lit)) as (hd' & st2 & Ec & Hi' & _).
  cbn [memory set_memory set_heap] in Ec |- *. rewrite Ec. by intros [= <- <-].
Qed.

Lemma mutex_ke_inv : inv (H0 := mm_heap X86) mutex_ke.
Proof.
  destruct boot_ke_inv as (Hi & _). unfold mutex_ke.
  assert (thread_object_type (memory boot_ke) = 2 /\ mutex_object_type (memory boot_ke) = 4 /\
    current_thread (memory boot_ke) = 0) as (E1 & E2 & E3) by (vm_compute; auto).
  destruct (KeAttachCurrentThread_inv (H0 := mm_heap X86) X86 boot_ke None Hi ltac:(lia) I E3)
    as (st & -> & Hi1 & Hm).
  destruct (KeCreateMutex X86 st) as [[hd st']|] eqn:E; [|done].
  eapply (KeCreateMutex_inv (H0 := mm_heap X86)); [exact Hi1 | | exact E]. lia.
Qed.

Lemma mutex_exclusion_witness :
  exists st', KeWaitMutex (H0 := mm_heap X86) X86 1 mutex_ke = Some (Finished st') /\
    mutexes (memory st') !! 1048748 = Some (mkMutex true 1048588).
Proof.
  assert (current_thread (memory mutex_ke) = 1048588) as Hc by (vm_compute; reflexivity).
  destruct (mutex_exclusion (H0 := mm_heap X86) X86 mutex_ke 1 1048748 (mkMutex false 0) [] [] mutex_ke_inv)
    as ((st' & E & _ & Hm) & _).
  - split; [lia|]. split; [lia|]. split; [vm_compute; reflexivity|].
    exists (mkEntry 4 (cstr "Mutex") 1048748 8 1). split; [vm_compute; reflexivity|]. split; [reflexivity | cbn; lia].
  - rewrite Hc. split; [|apply NoDup_singleton]. cbn [app is_queue].
    split; [vm_compute; reflexivity|]. split; [lia|].
    exists (mkThread 0 THREAD_RUNNING 8 0 0 0 0 (replicate 12 0) 0). split; [vm_compute; reflexivity | reflexivity].
  - exists st'. split; [exact E|]. rewrite Hm, Hc. cbn. by rewrite lookup_insert_eq.
Defined.

End Ke.
