(* ===== verification/Io.v ===== *)
(** * kernel/io/io.c and kernel/io/driver.c: drivers, devices and requests

    The state is the object manager's with the I/O manager's memory: driver and
    device blocks by address, the zeroed device extensions, and the statics.
    A dispatch or unload routine is a code address; running one is the argument
    [dispatch] or [unload].  Reading a block that is not there is undefined
    ([None]).  The state of the hardware behind the drivers is one more field,
    of any type. *)

From stdpp Require Import base list numbers gmap strings.
From Stdlib Require Import ZArith Lia.
From S2P Require Import Prelude.
From S2P Require Import Util.
From S2P Require Import Pmm.
From S2P Require Import Vmm.
From S2P Require Import Mm.
From S2P Require Import Ob.
Import Util Vmm Ob.

Module Io.

Definition IO_MAX_MAJOR_FUNCTION : Z := 8.
Definition IO_TYPE_DRIVER : Z := 1146246738.
Definition IO_TYPE_DEVICE : Z := 1145394755.

Definition IO_STATUS_SUCCESS : Z := 0.
Definition IO_STATUS_INVALID_PARAMETER : Z := -1.
Definition IO_STATUS_NOT_FOUND : Z := -2.
Definition IO_STATUS_NOT_SUPPORTED : Z := -3.
Definition IO_STATUS_NO_MEMORY : Z := -4.
Definition IO_STATUS_DEVICE_ERROR : Z := -5.

Definition IO_MJ_DEVICE_CONTROL : Z := 4.

(** The union [parameters]. *)
Inductive PARAMETERS :=
| read_write (offset : Z)
| device_control (code input_buffer input_length : Z).

Record IO_REQUEST := mkRequest {
  major_function : Z;
  status : Z;
  information : Z;
  buffer : Z;
  length : Z;
  parameters : PARAMETERS
}.

Record IO_DRIVER_OBJECT := mkDriver {
  dtype : Z;
  dname : list Z;
  image : Z;
  context : Z;
  major_functions : list Z;
  platform_dispatch : list Z;
  unload : Z;
  device_list : Z;
  dhandle : Z
}.

Record IO_DEVICE_OBJECT := mkDevice {
  vtype : Z;
  vname : list Z;
  driver : Z;
  device_extension : Z;
  device_extension_size : Z;
  next_device : Z;
  vhandle : Z
}.

Record io (D : Type) := mkIo {
  drivers : gmap Z IO_DRIVER_OBJECT;
  devices : gmap Z IO_DEVICE_OBJECT;
  bytes : mem;
  driver_object_type : Z;
  device_object_type : Z;
  current_driver : Z;
  hardware : D
}.
Arguments mkIo {D}.
Arguments drivers {D}.
Arguments devices {D}.
Arguments bytes {D}.
Arguments driver_object_type {D}.
Arguments device_object_type {D}.
Arguments current_driver {D}.
Arguments hardware {D}.

(** [uint32_t], [char[32]], pointers, two tables of eight pointers, [HANDLE]. *)
Definition sizeof_IO_DRIVER_OBJECT (a : arch) : Z := match a with X86 => 120 | AMD64 | LA64 => 208 end.
Definition sizeof_IO_DEVICE_OBJECT (a : arch) : Z := match a with X86 => 56 | AMD64 | LA64 => 80 end.

Definition IoDeleteDriverBody_addr : Z := 1048704.
Definition IoDeleteDeviceBody_addr : Z := 1048768.

Definition set_drivers {D} (k : io D) (m : gmap Z IO_DRIVER_OBJECT) : io D :=
  mkIo m (devices k) (bytes k) (driver_object_type k) (device_object_type k) (current_driver k) (hardware k).
Definition set_devices {D} (k : io D) (m : gmap Z IO_DEVICE_OBJECT) : io D :=
  mkIo (drivers k) m (bytes k) (driver_object_type k) (device_object_type k) (current_driver k) (hardware k).
Definition set_bytes {D} (k : io D) (m : mem) : io D :=
  mkIo (drivers k) (devices k) m (driver_object_type k) (device_object_type k) (current_driver k) (hardware k).
Definition set_hardware {D} (k : io D) (h : D) : io D :=
  mkIo (drivers k) (devices k) (bytes k) (driver_object_type k) (device_object_type k) (current_driver k) h.
Definition set_current {D} (k : io D) (c : Z) : io D :=
  mkIo (drivers k) (devices k) (bytes k) (driver_object_type k) (device_object_type k) c (hardware k).

Definition with_device_list (d : IO_DRIVER_OBJECT) (l : Z) : IO_DRIVER_OBJECT :=
  mkDriver (dtype d) (dname d) (image d) (context d) (major_functions d) (platform_dispatch d)
    (unload d) l (dhandle d).
Definition with_dhandle (d : IO_DRIVER_OBJECT) (h : Z) : IO_DRIVER_OBJECT :=
  mkDriver (dtype d) (dname d) (image d) (context d) (major_functions d) (platform_dispatch d)
    (unload d) (device_list d) h.
Definition with_platform_dispatch (d : IO_DRIVER_OBJECT) (l : list Z) : IO_DRIVER_OBJECT :=
  mkDriver (dtype d) (dname d) (image d) (context d) (major_functions d) l
    (unload d) (device_list d) (dhandle d).
Definition with_next (d : IO_DEVICE_OBJECT) (n : Z) : IO_DEVICE_OBJECT :=
  mkDevice (vtype d) (vname d) (driver d) (device_extension d) (device_extension_size d) n (vhandle d).
Definition with_extension (d : IO_DEVICE_OBJECT) (e : Z) : IO_DEVICE_OBJECT :=
  mkDevice (vtype d) (vname d) (driver d) e (device_extension_size d) (next_device d) (vhandle d).
Definition with_vhandle (d : IO_DEVICE_OBJECT) (h n : Z) : IO_DEVICE_OBJECT :=
  mkDevice (vtype d) (vname d) (driver d) (device_extension d) (device_extension_size d) n h.

Definition with_status (r : IO_REQUEST) (s i : Z) : IO_REQUEST :=
  mkRequest (major_function r) s i (buffer r) (length r) (parameters r).

Definition IoCopyName (destination source : list Z) : list Z := copy_name destination source.

Section ops.
Context {D H : Type} `{KernelHeap H} (a : arch).
Implicit Types st : ob H (io D).
(** Running a dispatch routine (major function or platform dispatch) and an
    unload routine. *)
Context (dispatch : Z -> Z -> IO_REQUEST -> ob H (io D) -> option (Z * IO_REQUEST * ob H (io D))).
Context (run_unload : Z -> Z -> ob H (io D) -> option (ob H (io D))).

Definition IoDeleteDeviceBody (bd : Z) st : option (ob H (io D)) :=
  if bd =? 0 then Some st else
  d ← devices (memory st) !! bd;
  if device_extension d =? 0 then Some st else
  h ← kh_free (device_extension d) (heap st);
  Some (set_memory (set_heap st h) (set_devices (memory st) (<[bd := with_extension d 0]> (devices (memory st))))).

(** [while ( *link && *link != device) link = &( *link)->next_device]: [link]
    is the driver's list head ([None]) or the [next_device] of a device. *)
Fixpoint find_link (fuel : nat) (link : option Z) (value device : Z) (m : gmap Z IO_DEVICE_OBJECT)
  : option (option Z * Z) :=
  if (value =? 0) || (value =? device) then Some (link, value) else
  match fuel with
  | O => None
  | S fuel' => d ← m !! value; find_link fuel' (Some value) (next_device d) device m
  end.

Definition unlink_device (device : Z) (d : IO_DEVICE_OBJECT) (k : io D) : option (io D) :=
  if driver d =? 0 then Some k else
  drv ← drivers k !! driver d;
  '(link, value) ← find_link (S (size (devices k))) None (device_list drv) device (devices k);
  if value =? device then
    match link with
    | None => Some (set_drivers k (<[driver d := with_device_list drv (next_device d)]> (drivers k)))
    | Some q => dq ← devices k !! q;
                Some (set_devices k (<[q := with_next dq (next_device d)]> (devices k)))
    end
  else Some k.

(** [call] runs delete procedures. *)
Definition IoDeleteDevice (call : Z -> Z -> ob H (io D) -> option (ob H (io D))) (device : Z) st
  : option (ob H (io D)) :=
  if device =? 0 then Some st else
  d ← devices (memory st) !! device;
  if negb (vtype d =? IO_TYPE_DEVICE) then Some st else
  k ← unlink_device device d (memory st);
  let st := set_memory st k in
  d ← devices (memory st) !! device;
  ObDereferenceObject call (vhandle d) st.

(** [while (driver && driver->device_list) IoDeleteDevice(driver->device_list)]. *)
Fixpoint delete_devices (fuel : nat) (call : Z -> Z -> ob H (io D) -> option (ob H (io D))) (drv : Z) st
  : option (ob H (io D)) :=
  d ← drivers (memory st) !! drv;
  if device_list d =? 0 then Some st else
  match fuel with
  | O => None
  | S fuel' => st ← IoDeleteDevice call (device_list d) st; delete_devices fuel' call drv st
  end.

Definition IoDeleteDriverBody (call : Z -> Z -> ob H (io D) -> option (ob H (io D))) (bd : Z) st
  : option (ob H (io D)) :=
  if bd =? 0 then Some st else
  st ← delete_devices (S (size (devices (memory st)))) call bd st;
  d ← drivers (memory st) !! bd;
  if unload d =? 0 then Some st else run_unload (unload d) bd st.

(** The delete procedures of this component; a driver's deletes devices, whose
    own do not nest further. *)
Definition device_call (proc bd : Z) st : option (ob H (io D)) :=
  if proc =? IoDeleteDeviceBody_addr then IoDeleteDeviceBody bd st else None.
Definition io_call (proc bd : Z) st : option (ob H (io D)) :=
  if proc =? IoDeleteDriverBody_addr then IoDeleteDriverBody device_call bd st else device_call proc bd st.

Definition IoInit st : ob H (io D) :=
  let '(d, st) := ObRegisterObjectType (Some (cstr "IoDriver")) IoDeleteDriverBody_addr st in
  let '(v, st) := ObRegisterObjectType (Some (cstr "IoDevice")) IoDeleteDeviceBody_addr st in
  let k := memory st in
  set_memory st (mkIo (drivers k) (devices k) (bytes k) d v 0 (hardware k)).

Definition IoCreateDriver (nm : option (list Z)) (img ctx : Z) st : option (Z * ob H (io D)) :=
  match nm with
  | None => Some (0, st)
  | Some nm =>
      if driver_object_type (memory st) =? 0 then Some (0, st) else
      '(p, h) ← kh_malloc (sizeof_IO_DRIVER_OBJECT a) (heap st);
      let st := set_heap st h in
      if p =? 0 then Some (0, st) else
      let d := mkDriver IO_TYPE_DRIVER (IoCopyName (replicate 32 0) nm) img ctx (replicate 8 0) (replicate 8 0) 0 0 0 in
      let st := set_memory st (set_drivers (memory st) (<[p := d]> (drivers (memory st)))) in
      '(hd, st) ← ObCreateObject a (driver_object_type (memory st)) (Some nm) p (sizeof_IO_DRIVER_OBJECT a) st;
      if hd =? INVALID_HANDLE then h ← kh_free p (heap st); Some (0, set_heap st h)
      else Some (p, set_memory st (set_drivers (memory st) (<[p := with_dhandle d hd]> (drivers (memory st)))))
  end.

Definition IoGetCurrentDriver st : Z := current_driver (memory st).
Definition IoSetCurrentDriver (drv : Z) st : ob H (io D) := set_memory st (set_current (memory st) drv).

Definition IoSetPlatformDispatch (drv major dispatch_addr : Z) st : option (ob H (io D)) :=
  if (drv =? 0) || (IO_MAX_MAJOR_FUNCTION <=? major) then Some st else
  d ← drivers (memory st) !! drv;
  Some (set_memory st (set_drivers (memory st)
    (<[drv := with_platform_dispatch d (put (platform_dispatch d) major dispatch_addr)]> (drivers (memory st))))).

Definition IoDeleteDriver (drv : Z) st : option (ob H (io D)) :=
  if drv =? 0 then Some st else
  d ← drivers (memory st) !! drv;
  if negb (dtype d =? IO_TYPE_DRIVER) then Some st else
  let k := memory st in
  let st := if current_driver k =? drv then set_memory st (set_current k 0) else st in
  ObDereferenceObject io_call (dhandle d) st.

(** The extension: [Some e] its address or 0, [None] when it cannot be had and
    the device [p] has been freed. *)
Definition alloc_extension (p extension_size : Z) st : option (option Z * ob H (io D)) :=
  if extension_size =? 0 then Some (Some 0, st) else
  '(e, h) ← kh_malloc extension_size (heap st);
  let st := set_heap st h in
  if e =? 0 then h ← kh_free p (heap st); Some (None, set_heap st h)
  else Some (Some e, set_memory st (set_bytes (memory st) (memset e 0 extension_size (bytes (memory st))))).

(** From the initialised block to the end: the handle, the driver's list, and
    the release of everything when there is no handle. *)
Definition register_device (drv : Z) (nm : list Z) (p ext extension_size : Z) st : option (Z * ob H (io D)) :=
  let dev := mkDevice IO_TYPE_DEVICE (IoCopyName (replicate 32 0) nm) drv ext extension_size 0 0 in
  let st := set_memory st (set_devices (memory st) (<[p := dev]> (devices (memory st)))) in
  '(hd, st) ← ObCreateObject a (device_object_type (memory st)) (Some nm) p (sizeof_IO_DEVICE_OBJECT a) st;
  if hd =? INVALID_HANDLE then
    h ← (if ext =? 0 then Some (heap st) else kh_free ext (heap st));
    h ← kh_free p h; Some (0, set_heap st h)
  else
    d ← drivers (memory st) !! drv;
    let k := set_devices (memory st) (<[p := with_vhandle dev hd (device_list d)]> (devices (memory st))) in
    Some (p, set_memory st (set_drivers k (<[drv := with_device_list d p]> (drivers k)))).

Definition IoCreateDevice (drv : Z) (nm : option (list Z)) (extension_size : Z) st : option (Z * ob H (io D)) :=
  if drv =? 0 then Some (0, st) else
  d ← drivers (memory st) !! drv;
  match nm with
  | None => Some (0, st)
  | Some nm =>
      if negb (dtype d =? IO_TYPE_DRIVER) || (char_at nm 0 =? 0) then Some (0, st) else
      if negb (ObFindObject (Some nm) (device_object_type (memory st)) st =? INVALID_HANDLE) then Some (0, st) else
      '(p, h) ← kh_malloc (sizeof_IO_DEVICE_OBJECT a) (heap st);
      let st := set_heap st h in
      if p =? 0 then Some (0, st) else
      '(ext, st) ← alloc_extension p extension_size st;
      match ext with
      | None => Some (0, st)
      | Some ext => register_device drv nm p ext extension_size st
      end
  end.

Definition IoGetDevice (nm : option (list Z)) st : option (Z * ob H (io D)) :=
  match nm with
  | None => Some (0, st)
  | Some nm =>
      if device_object_type (memory st) =? 0 then Some (0, st) else
      let hd := ObFindObject (Some nm) (device_object_type (memory st)) st in
      if hd =? INVALID_HANDLE then Some (0, st) else ObReferenceObject hd st
  end.

(** The request is returned with its status block. *)
Definition IoCallDriver (device : Z) (request : option IO_REQUEST) st
  : option (Z * option IO_REQUEST * ob H (io D)) :=
  match request with
  | None => Some (IO_STATUS_INVALID_PARAMETER, None, st)
  | Some r =>
      if device =? 0 then Some (IO_STATUS_INVALID_PARAMETER, Some r, st) else
      dev ← devices (memory st) !! device;
      if negb (vtype dev =? IO_TYPE_DEVICE) || (driver dev =? 0) || (IO_MAX_MAJOR_FUNCTION <=? major_function r)
      then Some (IO_STATUS_INVALID_PARAMETER, Some r, st) else
      drv ← drivers (memory st) !! driver dev;
      let f := get 0 (major_functions drv) (major_function r) in
      let g := get 0 (platform_dispatch drv) (major_function r) in
      if (f =? 0) && negb (g =? 0) then
        '(s, r, st) ← dispatch g device r st;
        Some (s, Some (with_status r s (information r)), st)
      else if f =? 0 then
        Some (IO_STATUS_NOT_SUPPORTED, Some (with_status r IO_STATUS_NOT_SUPPORTED 0), st)
      else
        '(s, r, st) ← dispatch f device (with_status r IO_STATUS_DEVICE_ERROR 0) st;
        Some (s, Some (with_status r s (information r)), st)
  end.

Definition IoSendRequest (device_name : option (list Z)) (major buf len : Z) st : option (Z * ob H (io D)) :=
  '(device, st) ← IoGetDevice device_name st;
  if device =? 0 then Some (IO_STATUS_NOT_FOUND, st) else
  '(s, _, st) ← IoCallDriver device (Some (mkRequest major 0 0 buf len (read_write 0))) st;
  dev ← devices (memory st) !! device;
  st ← ObDereferenceObject io_call (vhandle dev) st;
  Some (s, st).

(** The second component is what is stored through [information], if anything. *)
Definition IoDeviceControl (device_name : option (list Z)) (code input input_length output output_length : Z) st
  : option (Z * option Z * ob H (io D)) :=
  '(device, st) ← IoGetDevice device_name st;
  if device =? 0 then Some (IO_STATUS_NOT_FOUND, None, st) else
  '(s, r, st) ← IoCallDriver device
      (Some (mkRequest IO_MJ_DEVICE_CONTROL 0 0 output output_length (device_control code input input_length))) st;
  dev ← devices (memory st) !! device;
  st ← ObDereferenceObject io_call (vhandle dev) st;
  Some (s, match r with Some r => Some (information r) | None => None end, st).

End ops.

Section proofs.
Context {D H : Type} `{KernelHeap H} (a : arch).
Implicit Types st : ob H (io D).

(** Allocation and release seen from the object manager. *)
Lemma malloc_cases st n :
  inv st -> 0 < n <= 4294963168 ->
  exists p h, kh_malloc n (heap st) = Some (p, h) /\ inv (set_heap st h) /\
    ((p = 0 /\ kh_live h = kh_live (heap st)) \/
     (p <> 0 /\ kh_live (heap st) !! p = None /\ ~ owned st p /\
      exists cap, kh_live h = <[p := cap]> (kh_live (heap st)))).
Proof.
  intros Hi Hn. pose proof Hi as (Hok & _ & _ & _ & _ & H6 & _).
  destruct (kh_malloc_spec (heap st) n Hok Hn) as (p & h & E & Hok' & Hc). exists p, h. split; [done|].
  destruct Hc as [[-> Hl] | (Hp & Hnone & cap & _ & Hl)].
  - split; [|by left]. eapply quiet_inv; [done|]. repeat split; try done. intros q _. cbn. by rewrite Hl.
  - assert (~ owned st p) as Hno.
    { intros (i & q & o & Eo & Hq). destruct (H6 _ _ _ _ Eo Hq). congruence. }
    split; [|right; split; [lia|]; split; [done|]; split; [done | by exists cap]].
    eapply quiet_inv; [done|]. repeat split; try done. intros q Hq. cbn.
    rewrite Hl, lookup_insert_ne; [done | by intros <-].
Qed.

Lemma free_unowned st p :
  inv st -> ~ owned st p -> exists h, kh_free p (heap st) = Some h /\ inv (set_heap st h) /\
    kh_live h = delete p (kh_live (heap st)).
Proof.
  intros Hi Hno. pose proof Hi as (Hok & _). destruct (kh_free_spec (heap st) p Hok) as (h & E & Hok' & Hl).
  exists h. split; [done|]. split; [|done]. eapply quiet_inv; [done|]. repeat split; try done.
  intros q Hq. cbn. rewrite Hl, lookup_delete_ne; [done | by intros <-].
Qed.

(** The device block [IoCreateDevice] builds. *)
Definition new_device (nm : list Z) (drv ext size nxt hd : Z) : IO_DEVICE_OBJECT :=
  mkDevice IO_TYPE_DEVICE (IoCopyName (replicate 32 0) nm) drv ext size nxt hd.

(** Nothing changed but contents of unallocated memory. *)
Definition unchanged st st' : Prop :=
  inv st' /\ kh_live (heap st') = kh_live (heap st) /\ (forall k, table st' k = table st k) /\
  drivers (memory st') = drivers (memory st).

(** The numbering of the types, and the types of drivers and devices. *)
Definition same_types st st' : Prop :=
  object_type_count st' = object_type_count st /\ device_object_type (memory st') = device_object_type (memory st).

(** The extension step. *)
Lemma extension_step st p size :
  inv st -> ~ owned st p -> 0 <= size <= 4294963168 ->
  exists r st', alloc_extension p size st
    = Some (r, st') /\ inv st' /\ (forall k, table st' k = table st k) /\ (forall q, owned st' q <-> owned st q) /\
    drivers (memory st') = drivers (memory st) /\ devices (memory st') = devices (memory st) /\
    device_object_type (memory st') = device_object_type (memory st) /\
    object_type_count st' = object_type_count st /\
    match r with
    | None => kh_live (heap st') = delete p (kh_live (heap st))
    | Some e => (e = 0 /\ size = 0 /\ kh_live (heap st') = kh_live (heap st)) \/
        (e <> 0 /\ size <> 0 /\ kh_live (heap st) !! e = None /\ ~ owned st e /\
         (forall x, bytes (memory st') x = if (e <=? x) && (x <? e + size) then 0 else bytes (memory st) x) /\
         exists cap, kh_live (heap st') = <[e := cap]> (kh_live (heap st)))
    end.
Proof.
  intros Hi Hno Hs. unfold alloc_extension. destruct (Z.eqb_spec size 0) as [->|Hne].
  { exists (Some 0), st. do 8 (split; [done|]). by left. }
  destruct (malloc_cases st size Hi ltac:(lia)) as (e & h & -> & Hi1 & Hc). cbn [mbind option_bind].
  destruct (Z.eqb_spec e 0) as [->|He].
  - destruct (free_unowned (set_heap st h) p Hi1 Hno) as (h2 & -> & Hi2 & Hl2). cbn [mbind option_bind].
    eexists None, _. split; [reflexivity|]. split; [exact Hi2|]. do 6 (split; [done|]).
    cbn [heap set_heap] in *. rewrite Hl2. by destruct Hc as [[_ ->] | [? _]].
  - eexists (Some e), _. split; [reflexivity|]. split; [exact Hi1|]. do 6 (split; [done|]). right.
    destruct Hc as [[? _] | (_ & Hn & Hno' & cap & Hl)]; [done|].
    do 4 (split; [done|]). split; [|by exists cap]. intros x. cbn. unfold memset.
    rewrite memset_loop_spec, Z2Nat.id by lia. done.
Qed.

(** A failed search means the name is free. *)
Lemma name_free st nm type :
  inv st -> cstring nm -> ObFindObject (Some nm) type st = INVALID_HANDLE ->
  forall k e, table st k = Some e -> e_type e = type -> e_name e <> nm.
Proof.
  intros Hi Hnm Ef k e Ek Ht En. rewrite ObFindObject_eq in Ef by done.
  destruct (first_from 256 0 _) as [i|] eqn:Es.
  - apply first_from_Some in Es as (Hi' & _). unfold INVALID_HANDLE in Ef. lia.
  - destruct (table_facts st k e Hi Ek) as (Hk & _). unfold MAX_OBJECTS in Hk.
    pose proof (proj1 (first_from_None _ _ _) Es k ltac:(lia)) as Hf. cbn in Hf.
    by rewrite Ek, Ht, Z.eqb_refl, bool_decide_eq_true_2 in Hf.
Qed.

(** [IoGetDevice] on a device that is the only one of its name. *)
Lemma IoGetDevice_unique st hd nm e :
  inv st -> cstring nm -> device_object_type (memory st) <> 0 ->
  table st hd = Some e -> e_type e = device_object_type (memory st) -> e_name e = nm ->
  e_refs e < 4294967295 ->
  (forall k e', k <> hd -> table st k = Some e' -> e_type e' = device_object_type (memory st) -> e_name e' <> nm) ->
  exists st2, IoGetDevice (Some nm) st = Some (e_body e, st2) /\ inv st2 /\ memory st2 = memory st /\
    heap st2 = heap st /\
    forall k, table st2 k = if k =? hd then Some (entry_refs e (e_refs e + 1)) else table st k.
Proof.
  intros Hi Hnm Hty He Het Hen Hr Hu. unfold IoGetDevice. rewrite (proj2 (Z.eqb_neq _ 0) Hty).
  destruct (table_facts st hd e Hi He) as (Hhd & _). unfold MAX_OBJECTS in Hhd.
  rewrite ObFindObject_eq by done. rewrite (proj2 (first_from_Some 256 0 _ hd)).
  2:{ split; [lia|]. rewrite He, Het, Z.eqb_refl, Hen, bool_decide_eq_true_2 by done. split; [done|].
      intros j Hj. destruct (table st j) as [e'|] eqn:Ej; [|done].
      destruct (Z.eqb_spec (e_type e') (device_object_type (memory st))); [|done].
      cbn [andb]. apply bool_decide_eq_false. eapply Hu; [|done..]. lia. }
  rewrite (proj2 (Z.eqb_neq hd _)) by (unfold INVALID_HANDLE; lia).
  pose proof (ObReferenceObject_spec st hd Hi ltac:(lia)) as Hrs. rewrite He in Hrs.
  destruct (Hrs Hr) as (st2 & -> & Hi2 & _ & Hh & Hm & _ & _ & Ht2). by exists st2.
Qed.

(** Freeing an optional block the table does not own. *)
Lemma free_extension st ext live0 :
  inv st -> ~ owned st ext ->
  (ext = 0 /\ kh_live (heap st) = live0) \/
    (ext <> 0 /\ live0 !! ext = None /\ exists cap, kh_live (heap st) = <[ext := cap]> live0) ->
  exists h, (if ext =? 0 then Some (heap st) else kh_free ext (heap st)) = Some h /\
    inv (set_heap st h) /\ kh_live h = live0.
Proof.
  intros Hi Hno [[-> Hl] | (He & Hn & cap & Hl)].
  - exists (heap st). split; [done|]. split; [by destruct st | done].
  - rewrite (proj2 (Z.eqb_neq ext 0) He). destruct (free_unowned st ext Hi Hno) as (h & -> & Hi' & Hl').
    exists h. split; [done|]. split; [done|]. rewrite Hl', Hl. by apply delete_insert_id.
Qed.

Lemma register_device_spec st drv d nm p ext size live0 :
  inv st -> registered st (device_object_type (memory st)) -> drivers (memory st) !! drv = Some d ->
  cstring nm -> p <> 0 -> ~ owned st p -> is_Some (kh_live (heap st) !! p) -> ~ owned st ext ->
  (ext = 0 /\ kh_live (heap st) = live0) \/
    (ext <> 0 /\ live0 !! ext = None /\ exists cap, kh_live (heap st) = <[ext := cap]> live0) ->
  exists r st', register_device a drv nm p ext size st = Some (r, st') /\ inv st' /\
    bytes (memory st') = bytes (memory st) /\ same_types st st' /\
    ((r = 0 /\ kh_live (heap st') = delete p live0 /\ (forall k, table st' k = table st k) /\
      drivers (memory st') = drivers (memory st)) \/
     (r = p /\ exists hd, 0 <= hd < MAX_OBJECTS /\ table st hd = None /\
        (forall k, table st' k = if k =? hd
           then Some (new_entry (device_object_type (memory st)) (Some nm) p (sizeof_IO_DEVICE_OBJECT a))
           else table st k) /\
        devices (memory st') = <[p := new_device nm drv ext size (device_list d) hd]> (devices (memory st)) /\
        drivers (memory st') = <[drv := with_device_list d p]> (drivers (memory st)))).
Proof.
  intros Hi Hreg Hd Hnm Hp Hpo Hpl Heo Hext. unfold register_device.
  set (dev := mkDevice _ _ _ _ _ _ _). set (st3 := set_memory st _).
  destruct (ObCreateObject_spec a (device_object_type (memory st3)) (Some nm) p (sizeof_IO_DEVICE_OBJECT a) st3 Hi
    ltac:(unfold registered in Hreg; cbn; lia) Hnm) as (hd & st4 & -> & Hi4 & Hm4 & _ & Hc4 & Hcase).
  { intros _. split; [exact Hpl | exact Hpo]. }
  cbn [mbind option_bind].
  destruct Hcase as [(-> & Htab & Hl4 & Ho4 & _) |
    (Hhd & _ & Hnone & _ & q & capq & _ & _ & _ & _ & _ & _ & _ & Htab)].
  - rewrite Z.eqb_refl. change (heap st3) with (heap st) in Hl4.
    destruct (free_extension st4 ext live0 Hi4) as (h5 & -> & Hi5 & Hl5);
      [rewrite Ho4; exact Heo | by rewrite Hl4|]. cbn [mbind option_bind].
    destruct (free_unowned (set_heap st4 h5) p Hi5) as (h6 & E6 & Hi6 & Hl6).
    { intros Ho. apply Hpo. apply (Ho4 p). exact Ho. }
    cbn [heap set_heap] in E6, Hl6. rewrite E6. cbn [mbind option_bind].
    exists 0, (set_heap st4 h6). split; [done|]. split; [exact Hi6|]. cbn [memory set_heap heap]. rewrite Hm4.
    split; [done|]. split; [split; [exact Hc4 | cbn [memory set_heap]; by rewrite Hm4]|]. left. split; [done|].
    split; [by rewrite Hl6, Hl5|]. split; [|done].
    intros k. change (table (set_heap st4 h6) k) with (table st4 k). by rewrite Htab.
  - rewrite (proj2 (Z.eqb_neq hd _)) by (unfold INVALID_HANDLE, MAX_OBJECTS in *; lia). rewrite Hm4.
    change (drivers (memory st3)) with (drivers (memory st)). rewrite Hd. cbn [mbind option_bind].
    eexists p, _. split; [reflexivity|]. split; [exact Hi4|]. split; [done|]. split; [by split|]. right. split; [done|].
    exists hd. split; [done|]. split; [exact Hnone|]. split; [exact Htab|]. split; [|done].
    cbn [memory set_memory set_drivers set_devices devices st3]. by rewrite insert_insert_eq.
Qed.

(** A device just entered is the one its name finds. *)
Lemma new_device_found st st3 hd nm p :
  inv st3 -> registered st (device_object_type (memory st)) -> 0 <= hd < MAX_OBJECTS -> cstring nm -> nm <> [] -> p <> 0 ->
  device_object_type (memory st3) = device_object_type (memory st) ->
  (forall k, table st3 k = if k =? hd then Some (new_entry (device_object_type (memory st)) (Some nm) p (sizeof_IO_DEVICE_OBJECT a)) else table st k) ->
  (forall k e, table st k = Some e -> e_type e = device_object_type (memory st) -> e_name e <> nm) -> (List.length nm <= 31)%nat ->
  exists st2, IoGetDevice (Some nm) st3 = Some (p, st2) /\ e_refs <$> table st2 hd = Some 2.
Proof.
  intros Hi Hreg Hhd Hnm Hne Hp Hty Ht Huniq Hlen.
  destruct (IoGetDevice_unique st3 hd nm (new_entry (device_object_type (memory st)) (Some nm) p (sizeof_IO_DEVICE_OBJECT a)))
    as (st4 & E4 & _ & _ & _ & Ht4); try done.
  - unfold registered in Hreg. lia.
  - by rewrite Ht, Z.eqb_refl.
  - cbn. by apply take_ge.
  - intros k e' Hk. rewrite Ht, (proj2 (Z.eqb_neq k hd) Hk), Hty. apply Huniq.
  - exists st4. split; [exact E4|]. by rewrite Ht4, Z.eqb_refl.
Qed.

(** [IoCreateDevice] keeps the object manager's invariant on every path and
    leaks nothing: when it returns 0 the handle table, the allocated blocks and
    the drivers are as before.  When it returns a device, no device of that name
    existed; the device is the new head of its driver's list, carries the cut
    name, the handle that names it and a zeroed extension of the requested
    size; no other driver or handle changed; and for a name of at most 31 bytes
    [IoGetDevice] then returns this device with a second reference. *)
Theorem IoCreateDevice_correct st drv d nm size :
  inv st -> registered st (device_object_type (memory st)) -> drivers (memory st) !! drv = Some d ->
  drv <> 0 -> dtype d = IO_TYPE_DRIVER -> cstring nm -> nm <> [] -> 0 <= size <= 4294963168 ->
  exists r st', IoCreateDevice a drv (Some nm) size st = Some (r, st') /\ same_types st st' /\
    (r = 0 -> unchanged st st') /\
    (r <> 0 -> inv st' /\
       (forall k e, table st k = Some e -> e_type e = device_object_type (memory st) -> e_name e <> nm) /\
       exists hd ext, 0 <= hd < MAX_OBJECTS /\ table st hd = None /\
         (forall k, table st' k = if k =? hd
            then Some (new_entry (device_object_type (memory st)) (Some nm) r (sizeof_IO_DEVICE_OBJECT a))
            else table st k) /\
         devices (memory st') = <[r := new_device nm drv ext size (device_list d) hd]> (devices (memory st)) /\
         drivers (memory st') = <[drv := with_device_list d r]> (drivers (memory st)) /\
         (size <> 0 -> ext <> 0 /\ forall x, ext <= x < ext + size -> bytes (memory st') x = 0) /\
         ((List.length nm <= 31)%nat -> exists st2, IoGetDevice (Some nm) st' = Some (r, st2) /\
            e_refs <$> table st2 hd = Some 2)).
Proof.
  intros Hi Hreg Hd Hdrv Hty Hnm Hne Hsize. unfold IoCreateDevice.
  rewrite (proj2 (Z.eqb_neq drv 0) Hdrv), Hd. cbn [mbind option_bind]. rewrite Hty, Z.eqb_refl.
  assert ((char_at nm 0 =? 0) = false) as ->.
  { destruct Hnm as [|c nm' Hc _]; [done|]. cbn. apply Z.eqb_neq. lia. }
  cbn [negb orb].
  destruct (Z.eqb_spec (ObFindObject (Some nm) (device_object_type (memory st)) st) INVALID_HANDLE) as [Ef|Ef];
    cbn [negb]; [|exists 0, st; split; [done|]; split; [by split | by split]].
  pose proof (name_free st nm _ Hi Hnm Ef) as Huniq.
  destruct (malloc_cases st (sizeof_IO_DEVICE_OBJECT a) Hi ltac:(destruct a; cbn; lia)) as (p & h & -> & Hi1 & Hc1).
  cbn [mbind option_bind]. destruct (Z.eqb_spec p 0) as [->|Hp].
  { exists 0, (set_heap st h). split; [done|]. split; [done|]. split; [|done]. intros _. split; [done|].
    destruct Hc1 as [[_ Hl] | [? _]]; [by cbn | done]. }
  destruct Hc1 as [[? _] | (_ & Hpn & Hpo & cap & Hl1)]; [done|].
  destruct (extension_step (set_heap st h) p size Hi1 Hpo Hsize)
    as (ext & st2 & -> & Hi2 & Ht2 & Ho2 & Hdr2 & Hdv2 & Hty2 & Htc2 & Hext).
  cbn [mbind option_bind]. change (heap (set_heap st h)) with h in Hext.
  destruct ext as [ext|].
  2:{ exists 0, st2. split; [done|]. split; [by split|]. split; [|done]. intros _. split; [done|].
      split; [rewrite Hext, Hl1; by apply delete_insert_id|]. split; [intros k; by rewrite Ht2 | done]. }
  assert (forall q, ~ owned (set_heap st h) q -> ~ owned st2 q) as Hown by (intros q Hq Ho; by apply Hq, Ho2).
  destruct (register_device_spec st2 drv d nm p ext size (kh_live h))
    as (r & st3 & -> & Hi3 & Hb3 & [Htc3 Hty3] & Hcase); try done.
  { unfold registered in *. by rewrite Hty2, Htc2. }
  { by rewrite Hdr2. }
  { by apply Hown. }
  { destruct Hext as [(_ & _ & ->) | (_ & _ & Hen & _ & _ & cap2 & ->)];
      [rewrite Hl1, lookup_insert_eq; by eexists|].
    destruct (decide (p = ext)) as [<-|]; [rewrite lookup_insert_eq; by eexists|].
    rewrite lookup_insert_ne, Hl1, lookup_insert_eq by done. by eexists. }
  { apply Hown. destruct Hext as [(-> & _) | (_ & _ & _ & Heo & _)]; [|done].
    intros Ho. destruct Hi1 as (Hok1 & _ & _ & _ & _ & H6 & _), Ho as (i & q & o & Eo & Hq).
    destruct (H6 _ _ _ _ Eo Hq) as [c Hc]. rewrite kh_live_null in Hc by done. done. }
  { destruct Hext as [(-> & _ & Hl2) | (He & _ & Hen & _ & _ & Hl2)]; [by left | by right]. }
  exists r, st3. split; [done|]. split; [split; by rewrite ?Htc3, ?Hty3, ?Htc2, ?Hty2|].
  destruct Hcase as [(-> & Hl3 & Ht3 & Hdr3) | (-> & hd & Hhd & Hnone & Ht3 & Hdv3 & Hdr3)].
  - split; [|done]. intros _. split; [done|]. split; [rewrite Hl3, Hl1; by apply delete_insert_id|].
    split; [intros k; by rewrite Ht3, Ht2 | by rewrite Hdr3, Hdr2].
  - split; [done|]. intros _. rewrite Hty2 in Ht3. rewrite Ht2 in Hnone. split; [done|]. split; [done|].
    assert (forall k, table st3 k = if k =? hd
      then Some (new_entry (device_object_type (memory st)) (Some nm) p (sizeof_IO_DEVICE_OBJECT a))
      else table st k) as Ht3' by (intros k; by rewrite Ht3, Ht2).
    exists hd, ext. split; [done|]. split; [exact Hnone|]. split; [exact Ht3'|].
    split; [by rewrite Hdv3, Hdv2|]. split; [by rewrite Hdr3, Hdr2|]. split.
    { intros Hs0. destruct Hext as [(_ & ? & _) | (He & _ & _ & _ & Hb & _)]; [done|]. split; [done|].
      intros x Hx. rewrite Hb3, Hb. by rewrite (proj2 (Z.leb_le _ _)), (proj2 (Z.ltb_lt _ _)) by lia. }
    intros Hlen. apply (new_device_found st st3); try done. by rewrite Hty3.
Qed.

(** [IoCreateDriver] keeps the invariant on every path; a driver it returns is a
    driver object with that name and no device, in the table under its handle, and
    nothing is left allocated when it returns 0. *)
Theorem IoCreateDriver_correct st nm img ctx :
  inv st -> 0 <= driver_object_type (memory st) -> cstring nm ->
  exists r st', IoCreateDriver a (Some nm) img ctx st = Some (r, st') /\ inv st' /\ same_types st st' /\
    devices (memory st') = devices (memory st) /\
    (r = 0 -> kh_live (heap st') = kh_live (heap st) /\ forall k, table st' k = table st k) /\
    (r <> 0 -> exists hd, 0 <= hd < MAX_OBJECTS /\ table st hd = None /\
       (forall k, table st' k = if k =? hd
          then Some (new_entry (driver_object_type (memory st)) (Some nm) r (sizeof_IO_DRIVER_OBJECT a)) else table st k) /\
       drivers (memory st') !! r
       = Some (mkDriver IO_TYPE_DRIVER (IoCopyName (replicate 32 0) nm) img ctx (replicate 8 0) (replicate 8 0) 0 0 hd)).
Proof.
  intros Hi Hty Hnm. unfold IoCreateDriver. destruct (Z.eqb_spec (driver_object_type (memory st)) 0); [exists 0, st; do 4 (split; [done|]); by split|].
  destruct (malloc_cases st (sizeof_IO_DRIVER_OBJECT a) Hi ltac:(destruct a; cbn; lia)) as (p & h & -> & Hi1 & Hc). cbn [mbind option_bind].
  destruct (Z.eqb_spec p 0) as [->|Hp].
  { destruct Hc as [[_ Hl] | [? _]]; [|done]. exists 0, (set_heap st h). do 4 (split; [done|]). by split. }
  destruct Hc as [[? _] | (_ & Hpn & Hpo & cap & Hl)]; [done|]. set (d := mkDriver _ _ _ _ _ _ _ _ _). set (st2 := set_memory _ _).
  destruct (ObCreateObject_spec a (driver_object_type (memory st2)) (Some nm) p (sizeof_IO_DRIVER_OBJECT a) st2 Hi1 Hty Hnm)
    as (hd & st4 & -> & Hi4 & Hm4 & _ & Hc4 & Hcase).
  { intros _. split; [|exact Hpo]. change (heap st2) with h. rewrite Hl, lookup_insert_eq. by eexists. }
  cbn [mbind option_bind]. destruct Hcase as [(-> & Htab & Hl4 & Ho4 & _) | (Hhd & _ & Hnone & _ & q & capq & _ & _ & _ & _ & _ & _ & _ & Htab)].
  - rewrite Z.eqb_refl. destruct (free_unowned st4 p Hi4) as (h6 & -> & Hi6 & Hl6); [by rewrite Ho4|]. cbn [mbind option_bind].
    exists 0, (set_heap st4 h6). split; [done|]. split; [done|]. split; [split; [exact Hc4 | cbn; by rewrite Hm4]|]. split; [cbn; by rewrite Hm4|].
    split; [|done]. intros _. split; [cbn [heap set_heap]; change (heap st2) with h in Hl4; rewrite Hl6, Hl4, Hl; by apply delete_insert_id|].
    intros k. change (table (set_heap st4 h6) k) with (table st4 k). by rewrite Htab.
  - rewrite (proj2 (Z.eqb_neq hd _)) by (unfold INVALID_HANDLE, MAX_OBJECTS in *; lia). eexists p, _. split; [reflexivity|]. split; [exact Hi4|].
    split; [split; [exact Hc4 | cbn; by rewrite Hm4]|]. split; [cbn; by rewrite Hm4|]. split; [done|]. intros _. exists hd.
    split; [done|]. split; [exact Hnone|]. split; [exact Htab|]. cbn. by rewrite lookup_insert_eq.
Qed.

End proofs.

(** ** A concrete I/O manager *)

Definition iox := ob (Mm.heap Pmm.pmm) (io unit).
Definition io0 : io unit := mkIo ∅ ∅ (fun _ => 0) 0 0 0 tt.
Definition boot_io : iox := IoInit (ObInit (mkOb [] 0 [] 0 ∅ Mm.small_heap io0)).

Lemma IoInit_inv {D H} `{KernelHeap H} (st : ob H (io D)) : inv st -> inv (IoInit st).
Proof.
  intros Hi. unfold IoInit.
  assert (forall (s : ob H (io D)) nm proc, inv s -> cstring nm -> nm <> [] ->
    inv (snd (ObRegisterObjectType (Some nm) proc s))) as Hreg.
  { intros s nm proc Hs Hn Hne. destruct (ObRegisterObjectType_spec nm proc s Hs Hn Hne)
      as [(i & -> & _) | (_ & [[-> _] | (s' & -> & Hs' & _)])]; done. }
  pose proof (Hreg st (cstr "IoDriver") IoDeleteDriverBody_addr Hi ltac:(cstring_lit) ltac:(discriminate)) as H1.
  destruct (ObRegisterObjectType _ _ _) as [x1 s1].
  pose proof (Hreg s1 (cstr "IoDevice") IoDeleteDeviceBody_addr H1 ltac:(cstring_lit) ltac:(discriminate)) as H2.
  destruct (ObRegisterObjectType _ _ _) as [x2 s2]. exact H2.
Qed.

(** A driver block at 4096, outside the table. *)
Definition disk_driver : IO_DRIVER_OBJECT :=
  mkDriver IO_TYPE_DRIVER (IoCopyName (replicate 32 0) (cstr "Disk")) 0 0 (replicate 8 0) (replicate 8 0) 0 0 0.
Definition disk_io : iox := set_memory boot_io (set_drivers (memory boot_io) {[ 4096 := disk_driver ]}).

Lemma disk_io_inv : inv (H0 := mm_heap X86) disk_io.
Proof. apply (IoInit_inv (H0 := mm_heap X86)), ObInit_inv. exact (Mm.small_heap_ok X86). Qed.

Lemma IoCreateDevice_correct_witness :
  exists r st', IoCreateDevice (H0 := mm_heap X86) X86 4096 (Some (cstr "Harddisk0")) 64 disk_io = Some (r, st') /\
    r <> 0 /\ exists st2, IoGetDevice (Some (cstr "Harddisk0")) st' = Some (r, st2).
Proof.
  assert (registered disk_io (device_object_type (memory disk_io))) as Hreg.
  { assert (object_type_count disk_io = 3 /\ device_object_type (memory disk_io) = 2) as [E1 E2] by (vm_compute; auto).
    unfold registered. rewrite E1, E2. lia. }
  destruct (IoCreateDevice_correct (H0 := mm_heap X86) X86 disk_io 4096 disk_driver (cstr "Harddisk0") 64
    disk_io_inv Hreg ltac:(vm_compute; reflexivity) ltac:(lia) eq_refl ltac:(cstring_lit) ltac:(discriminate)
    ltac:(lia)) as (r & st' & E & _ & _ & Hok).
  assert ((fun x => fst x =? 0) <$> IoCreateDevice (H0 := mm_heap X86) X86 4096 (Some (cstr "Harddisk0")) 64 disk_io
    = Some false) as Hr by (vm_compute; reflexivity).
  rewrite E in Hr. cbn in Hr. injection Hr as Hr. exists r, st'. split; [exact E|]. split; [lia|].
  destruct (Hok ltac:(lia)) as (_ & _ & hd & ext & _ & _ & _ & _ & _ & _ & Hg).
  destruct (Hg ltac:(cbn; lia)) as (st2 & E2 & _). exists st2. exact E2.
Defined.

(** A client opens a device of a driver that is then unloaded. *)
Definition unload_session : option (Z * Z * iox) :=
  '(drv, st) ← IoCreateDriver (H0 := mm_heap X86) X86 (Some (cstr "Disk")) 0 0 boot_io;
  '(dev, st) ← IoCreateDevice (H0 := mm_heap X86) X86 drv (Some (cstr "Harddisk0")) 0 st;
  '(_, st) ← IoGetDevice (Some (cstr "Harddisk0")) st;
  st ← IoDeleteDriver (H0 := mm_heap X86) (fun _ _ st => Some st) drv st;
  Some (drv, dev, st).

(** Unloading a driver does not wait for clients of its devices: after a
    client has opened a device, [IoDeleteDriver] frees the driver block while
    the device object, still referenced, keeps pointing to it; the client's
    next request reads the freed block. *)
Theorem IoDeleteDriver_dangling_device :
  exists drv dev st, unload_session = Some (drv, dev, st) /\
    e_body <$> table st 1 = Some dev /\ e_refs <$> table st 1 = Some 1 /\
    driver <$> devices (memory st) !! dev = Some drv /\ drv <> 0 /\
    kh_live (KernelHeap := mm_heap X86) (heap st) !! drv = None.
Proof.
  assert ((fun r => let '(drv, dev, st) := r in
      ((drv =? 0), bool_decide (e_body <$> table st 1 = Some dev), e_refs <$> table st 1,
       bool_decide (driver <$> devices (memory st) !! dev = Some drv),
       kh_live (KernelHeap := mm_heap X86) (heap st) !! drv)) <$> unload_session =
    Some (false, true, Some 1, true, None)) as Hrun by (vm_compute; reflexivity).
  destruct unload_session as [[[drv dev] st]|]; [|done]. cbn in Hrun.
  injection Hrun as H1 H2 H3 H4 H5. exists drv, dev, st.
  apply bool_decide_eq_true in H2, H4. split; [done|]. split; [done|]. split; [done|]. split; [done|].
  split; [lia | done].
Qed.

End Io.
