(* ===== verification/Hw.v ===== *)
(** * kernel/io/port.h and kernel/io/pci.h: access to the hardware

    A device is a state [D] with the processor's port instructions and its
    memory-mapped loads and stores ([Bus]); what the hardware answers is not
    code of the kernel, so it is a class argument.  On X86 and AMD64 [inb] and
    its kin are the instructions; on LA64 the header turns them into loads and
    stores of a window, with a hole below port 0x4000.  Code that talks to the
    hardware is written in the state monad [hw D]. *)

From stdpp Require Import base list numbers.
From Stdlib Require Import ZArith Lia.
From S2P Require Import Prelude.

Definition hw (D A : Type) : Type := D -> A * D.

#[global] Instance hw_ret D : MRet (hw D) := fun A x d => (x, d).
#[global] Instance hw_bind D : MBind (hw D) := fun A B k m d => let '(x, d) := m d in k x d.

Inductive width := W8 | W16 | W32.

(** The value an [n]-byte register can hold. *)
Definition truncate (w : width) (x : Z) : Z :=
  match w with W8 => u8 x | W16 => u16 x | W32 => u32 x end.

Class Bus (D : Type) := {
  port_in : width -> Z -> hw D Z;
  port_out : width -> Z -> Z -> hw D unit;
  mmio_load : width -> Z -> hw D Z;
  mmio_store : width -> Z -> Z -> hw D unit
}.

Module Hw.

Definition IO_PORT_CPU_BASE : Z := 402653184.

Section port.
Context {D : Type} `{Bus D} (a : arch).

(** What the bus answers is cut to the width of the access. *)
Definition port_read (w : width) (p : Z) : hw D Z :=
  let p := u16 p in
  match a with
  | LA64 => if p <? 16384 then mret (truncate w (-1))
            else x ← mmio_load w (IO_PORT_CPU_BASE + p); mret (truncate w x)
  | X86 | AMD64 => x ← port_in w p; mret (truncate w x)
  end.

Definition port_write (w : width) (p v : Z) : hw D unit :=
  let p := u16 p in
  match a with
  | LA64 => if 16384 <=? p then mmio_store w (IO_PORT_CPU_BASE + p) (truncate w v) else mret tt
  | X86 | AMD64 => port_out w p (truncate w v)
  end.

Definition inb : Z -> hw D Z := port_read W8.
Definition inw : Z -> hw D Z := port_read W16.
Definition inl : Z -> hw D Z := port_read W32.
Definition outb : Z -> Z -> hw D unit := port_write W8.
Definition outw : Z -> Z -> hw D unit := port_write W16.
Definition outl : Z -> Z -> hw D unit := port_write W32.

(** ** PCI configuration space *)
Definition pci_address (bus device func offset : Z) : Z :=
  match a with
  | LA64 => 536870912 + Z.shiftl (u8 bus) 20 + Z.shiftl (u8 device) 15 + Z.shiftl (u8 func) 12
            + Z.land (u8 offset) 252
  | X86 | AMD64 =>
      Z.lor (Z.lor (Z.lor (Z.lor 2147483648 (Z.shiftl (u8 bus) 16)) (Z.shiftl (u8 device) 11))
        (Z.shiftl (u8 func) 8)) (Z.land (u8 offset) 252)
  end.

Definition PciConfigRead32 (bus device func offset : Z) : hw D Z :=
  match a with
  | LA64 => x ← mmio_load W32 (pci_address bus device func offset); mret (u32 x)
  | X86 | AMD64 => outl 3320 (pci_address bus device func offset);; inl 3324
  end.

Definition PciConfigWrite32 (bus device func offset v : Z) : hw D unit :=
  match a with
  | LA64 => mmio_store W32 (pci_address bus device func offset) (u32 v)
  | X86 | AMD64 => outl 3320 (pci_address bus device func offset);; outl 3324 v
  end.

Definition PciConfigRead16 (bus device func offset : Z) : hw D Z :=
  x ← PciConfigRead32 bus device func offset;
  mret (u16 (Z.shiftr x (Z.land (u8 offset) 2 * 8))).

Definition PciConfigRead8 (bus device func offset : Z) : hw D Z :=
  x ← PciConfigRead32 bus device func offset;
  mret (u8 (Z.shiftr x (Z.land (u8 offset) 3 * 8))).

End port.

(** What a read gives fits its width, whatever the bus answers. *)
Lemma port_read_range {D} `{Bus D} (a : arch) w p d :
  0 <= fst (port_read a w p d) < match w with W8 => 256 | W16 => 65536 | W32 => 4294967296 end.
Proof.
  unfold port_read. destruct a; cbn.
  3: destruct (_ <? _); cbn; [destruct w; cbn -[Z.modulo]; zlia|].
  all: unfold mbind, hw_bind, mret, hw_ret.
  1,2: destruct (port_in w (u16 p) d). 3: destruct (mmio_load w (IO_PORT_CPU_BASE + u16 p) d).
  all: destruct w; cbn -[Z.modulo]; zlia.
Qed.

End Hw.

(** A [while (timeout--) if (test) return;] loop around one read: at most [n]
    polls, and whether one of them met the test. *)
Fixpoint poll {D} (n : nat) (read : hw D Z) (test : Z -> bool) : hw D bool :=
  match n with
  | O => mret false
  | S n' => x ← read; if test x then mret true else poll n' read test
  end.

(** What the body of a polling loop decides from a status byte. *)
Inductive verdict := Break | Error | Again.

(** [int timeout = n; while (timeout--) { ... }]: the verdict that left the loop
    ([Again] when it ran out) and the value of [timeout] after it. *)
Fixpoint wait_loop {D} (n : nat) (read : hw D Z) (decide : Z -> verdict) : hw D (verdict * Z) :=
  match n with
  | O => mret (Again, -1)
  | S n' =>
      s ← read;
      match decide s with
      | Again => wait_loop n' read decide
      | v => mret (v, Z.of_nat n')
      end
  end.

(** Reading finds the device busy at most [n] times before [Ready]. *)
Inductive polls {D} (read : hw D Z) (busy : Z -> Prop) (Ready : Z -> D -> Prop) : nat -> D -> Prop :=
| polls_now n d s d' : read d = (s, d') -> Ready s d' -> polls read busy Ready n d
| polls_busy n d s d' :
    read d = (s, d') -> busy s -> polls read busy Ready n d' -> polls read busy Ready (S n) d.

(** A loop that goes on while the device is busy, and has turns enough, ends at
    the first answer that is ready. *)
Lemma wait_polls {D} (read : hw D Z) busy Ready n d decide m :
  polls read busy Ready n d -> (n < m)%nat ->
  (forall s, busy s -> decide s = Again) -> (forall s d', Ready s d' -> decide s <> Again) ->
  exists s t d', wait_loop m read decide d = ((decide s, t), d') /\ Z.of_nat (m - n) - 1 <= t /\ Ready s d'.
Proof.
  intros Hp. revert m. induction Hp as [n d s d' E HR | n d s d' E Hb Hp IH]; intros m Hm Hbusy Hr.
  - destruct m as [|m]; [lia|]. exists s, (Z.of_nat m), d'. cbn [wait_loop].
    unfold mbind, hw_bind. rewrite E. specialize (Hr s d' HR).
    destruct (decide s) eqn:Ed; try done; (split; [done | split; [lia | done]]).
  - destruct m as [|m]; [lia|]. cbn [wait_loop]. unfold mbind, hw_bind at 1. rewrite E, Hbusy by done.
    destruct (IH m ltac:(lia) Hbusy Hr) as (s' & t & d'' & Eq & Ht & HR). exists s', t, d''. split; [done|]. split; [|done]. lia.
Qed.
