(* ===== verification/Input.v ===== *)
(** * drivers/input/input.c and drivers/keyboard/keyboard.c

    The two byte queues between the input hardware and the window system.  Both
    drivers keep a ring of [N] slots with one slot always empty, so the ring is
    modelled once: [ring_push] is the body of [input_inject] and
    [kbd_queue_push], [ring_pop] the taking side. *)

From stdpp Require Import base list numbers.
From Stdlib Require Import ZArith Lia.
From S2P Require Import Prelude.
From S2P Require Import Hw.
Import Hw.

Module Ring.

Record ring (A : Type) := mkRing { slots : list A; head : Z; tail : Z }.
Arguments mkRing {A}. Arguments slots {A}. Arguments head {A}. Arguments tail {A}.

(** [next = (head + 1) % N; if (next == tail) return; q[head] = x; head = next] *)
Definition ring_push {A} (N : Z) (x : A) (r : ring A) : ring A :=
  let next := (head r + 1) mod N in
  if next =? tail r then r else mkRing (put (slots r) (head r) x) next (tail r).

(** [if (head == tail) fail; x = q[tail]; tail = (tail + 1) % N] *)
Definition ring_pop {A} (N : Z) (d : A) (r : ring A) : option A * ring A :=
  if head r =? tail r then (None, r) else
  (Some (get d (slots r) (tail r)), mkRing (slots r) (head r) ((tail r + 1) mod N)).

(** ** The queue a ring stands for *)
Section queue.
Context {A : Type} (N : Z) (d : A).
Implicit Types r : ring A.

Definition ring_ok r : Prop :=
  1 < N /\ Z.of_nat (length (slots r)) = N /\ 0 <= head r < N /\ 0 <= tail r < N.

Definition ring_length r : Z := (head r - tail r) mod N.

Definition queue r : list A := map (fun k => get d (slots r) ((tail r + k) mod N)) (seqZ 0 (ring_length r)).

Lemma queue_length r : ring_ok r -> Z.of_nat (length (queue r)) = ring_length r.
Proof.
  intros (? & _). unfold queue. rewrite length_map, length_seqZ.
  pose proof (Z.mod_pos_bound (head r - tail r) N). unfold ring_length in *. lia.
Qed.

Lemma mod_step x : 1 < N -> 0 <= x < N -> (x + 1) mod N = if x + 1 =? N then 0 else x + 1.
Proof.
  intros. destruct (Z.eqb_spec (x + 1) N) as [->|]; [apply Z.mod_same; lia | apply Z.mod_small; lia].
Qed.

Lemma ring_length_cases r : ring_ok r ->
  ring_length r = if tail r <=? head r then head r - tail r else head r - tail r + N.
Proof.
  intros (? & ? & ? & ?). unfold ring_length. destruct (Z.leb_spec (tail r) (head r)).
  - apply Z.mod_small. lia.
  - rewrite <- (Z.mod_small (head r - tail r + N) N) by lia.
    replace (head r - tail r + N) with (head r - tail r + 1 * N) by lia. by rewrite Z.mod_add by lia.
Qed.

(** A push appends, unless the queue holds [N - 1] elements: then it is lost. *)
Lemma ring_push_spec r x : ring_ok r ->
  ring_ok (ring_push N x r) /\
  queue (ring_push N x r) = if (ring_length r <? N - 1) then queue r ++ [x] else queue r.
Proof.
  intros Hok. pose proof (ring_length_cases r Hok) as Hl. destruct Hok as (HN & Hs & Hh & Ht).
  unfold ring_push. pose proof (mod_step (head r) HN Hh) as Hm.
  destruct (Z.eqb_spec ((head r + 1) mod N) (tail r)) as [He|He].
  - split; [done|]. rewrite Hl, <- He, Hm.
    destruct (Z.eqb_spec (head r + 1) N), (Z.leb_spec (tail r) (head r)); zbool; try lia; done.
  - assert (Hok' : ring_ok (mkRing (put (slots r) (head r) x) ((head r + 1) mod N) (tail r))).
    { split; [done|]. cbn. rewrite length_put. pose proof (Z.mod_pos_bound (head r + 1) N). lia. }
    split; [done|]. pose proof (ring_length_cases _ Hok') as Hl'. cbn in Hl'.
    assert (Hlt : ring_length r < N - 1 /\
      ring_length (mkRing (put (slots r) (head r) x) ((head r + 1) mod N) (tail r)) = ring_length r + 1).
    { rewrite Hl', Hl, Hm in *. zbool; lia. }
    destruct Hlt as [Hlt Hsucc]. rewrite (proj2 (Z.ltb_lt _ _) Hlt). unfold queue.
    rewrite Hsucc. cbn [slots head tail].
    assert (0 <= ring_length r) by (rewrite Hl; zbool; lia).
    rewrite seqZ_app, map_app by lia.
    assert (Hat : (tail r + ring_length r) mod N = head r).
    { unfold ring_length. rewrite Zplus_mod_idemp_r. replace (tail r + (head r - tail r)) with (head r) by lia.
      apply Z.mod_small. lia. }
    f_equal.
    + apply map_ext_in. intros k Hk%list_elem_of_In%elem_of_seqZ.
      pose proof (Z.mod_pos_bound (tail r + k) N).
      rewrite get_put by lia. destruct (Z.eqb_spec ((tail r + k) mod N) (head r)) as [Hc|]; [|done].
      exfalso. rewrite <- Hc in Hl. revert Hl.
      destruct (Z.lt_ge_cases (tail r + k) N);
        [rewrite Z.mod_small by lia | rewrite <- (Z.mod_add _ (-1)), Z.mod_small by lia]; zbool; lia.
    + rewrite (seqZ_cons _ 1), seqZ_nil by lia. cbn. rewrite !Z.add_0_l, Hat.
      rewrite get_put, Z.eqb_refl by lia. done.
Qed.

(** A pop takes the oldest element, and fails on the empty queue only. *)
Lemma ring_pop_spec r : ring_ok r ->
  ring_ok (snd (ring_pop N d r)) /\
  match queue r with
  | [] => ring_pop N d r = (None, r)
  | x :: q => fst (ring_pop N d r) = Some x /\ queue (snd (ring_pop N d r)) = q
  end.
Proof.
  intros Hok. pose proof (ring_length_cases r Hok) as Hl. destruct Hok as (HN & Hs & Hh & Ht).
  unfold ring_pop. pose proof (mod_step (tail r) HN Ht) as Hm.
  destruct (Z.eqb_spec (head r) (tail r)) as [He|He].
  - split; [done|]. unfold queue. rewrite seqZ_nil; [done|]. rewrite Hl. zbool; lia.
  - assert (Hok' : ring_ok (mkRing (slots r) (head r) ((tail r + 1) mod N))).
    { split; [done|]. cbn. pose proof (Z.mod_pos_bound (tail r + 1) N). lia. }
    split; [done|]. pose proof (ring_length_cases _ Hok') as Hl'. cbn in Hl'.
    unfold queue at 1. rewrite seqZ_cons by (rewrite Hl; zbool; lia). cbn [map fst snd].
    rewrite Z.add_0_r, Z.mod_small by lia. split; [done|].
    unfold queue. cbn [slots head tail].
    replace (ring_length (mkRing (slots r) (head r) ((tail r + 1) mod N))) with (Z.pred (ring_length r))
      by (rewrite Hl', Hl, Hm; zbool; lia).
    change (Z.succ 0) with (1 + 0). rewrite <- fmap_add_seqZ, map_map. apply map_ext. intros k.
    rewrite Zplus_mod_idemp_l, Z.add_assoc. done.
Qed.

End queue.
End Ring.
Import Ring.

(** ** drivers/input/input.c *)
Module Input.

Definition INPUT_QUEUE_SIZE : Z := 64.
Record INPUT_BYTE := mkByte { mouse : Z; data : Z }.

Definition no_byte : INPUT_BYTE := mkByte 0 0.
Definition input_reset : ring INPUT_BYTE := mkRing (replicate 64 no_byte) 0 0.

Definition input_inject (m dat : Z) (q : ring INPUT_BYTE) : ring INPUT_BYTE :=
  ring_push INPUT_QUEUE_SIZE (mkByte m dat) q.
Definition InputInjectKeyboardByte (dat : Z) : ring INPUT_BYTE -> ring INPUT_BYTE := input_inject 0 dat.
Definition InputInjectMouseByte (dat : Z) : ring INPUT_BYTE -> ring INPUT_BYTE := input_inject 1 dat.

(** The result, then what is stored through [mouse] and [data] when they are
    not NULL; with a NULL [data] the controller's byte is not taken. *)
Definition InputReadControllerByte {D} `{Bus D} (a : arch) (mouse_ok data_ok : bool) (q : ring INPUT_BYTE)
  : hw D (Z * option Z * option Z * ring INPUT_BYTE) :=
  match ring_pop INPUT_QUEUE_SIZE no_byte q with
  | (Some b, q) => mret (1, if mouse_ok then Some (mouse b) else None,
                            if data_ok then Some (data b) else None, q)
  | (None, q) =>
      match a with
      | LA64 => mret (0, None, None, q)
      | X86 | AMD64 =>
          status ← inb a 100;
          if Z.land status 1 =? 0 then mret (0, None, None, q) else
          let m := if mouse_ok then Some (if Z.land status 32 =? 0 then 0 else 1) else None in
          if data_ok then x ← inb a 96; mret (1, m, Some x, q) else mret (1, m, None, q)
      end
  end.

End Input.

(** ** drivers/keyboard/keyboard.c *)
Module Keyboard.

Definition KBD_QUEUE_SIZE : Z := 32.

Definition kbd_ascii : list Z :=
  [0; 0; 49; 50; 51; 52; 53; 54; 55; 56; 57; 48; 45; 61; 8;
   9; 113; 119; 101; 114; 116; 121; 117; 105; 111; 112; 91; 93; 10;
   0; 97; 115; 100; 102; 103; 104; 106; 107; 108; 59; 39; 96;
   0; 92; 122; 120; 99; 118; 98; 110; 109; 44; 46; 47; 0;
   42; 0; 32; 0].

Definition kbd_shift_ascii : list Z :=
  [0; 0; 33; 64; 35; 36; 37; 94; 38; 42; 40; 41; 95; 43; 8;
   9; 81; 87; 69; 82; 84; 89; 85; 73; 79; 80; 123; 125; 10;
   0; 65; 83; 68; 70; 71; 72; 74; 75; 76; 58; 34; 126;
   0; 124; 90; 88; 67; 86; 66; 78; 77; 60; 62; 63; 0;
   42; 0; 32; 0].

Record KEYBOARD_EVENT := mkEvent {
  scancode : Z; ascii : Z; pressed : Z; shift : Z; ctrl : Z; alt : Z; extended : Z
}.

Record kbd := mkKbd {
  kbd_queue : ring KEYBOARD_EVENT;
  kbd_shift : Z;
  kbd_ctrl : Z;
  kbd_alt : Z;
  kbd_capslock : Z;
  kbd_extended : Z
}.

Definition no_event : KEYBOARD_EVENT := mkEvent 0 0 0 0 0 0 0.

Definition set_queue (k : kbd) (q : ring KEYBOARD_EVENT) : kbd :=
  mkKbd q (kbd_shift k) (kbd_ctrl k) (kbd_alt k) (kbd_capslock k) (kbd_extended k).
Definition set_extended (k : kbd) (e : Z) : kbd :=
  mkKbd (kbd_queue k) (kbd_shift k) (kbd_ctrl k) (kbd_alt k) (kbd_capslock k) e.

Definition kbd_queue_push (event : KEYBOARD_EVENT) (k : kbd) : kbd :=
  set_queue k (ring_push KBD_QUEUE_SIZE event (kbd_queue k)).

Definition kbd_translate_ascii (sc : Z) (k : kbd) : Z :=
  if Z.of_nat (length kbd_ascii) <=? sc then 0 else
  let c := if negb (kbd_shift k =? 0) then get 0 kbd_shift_ascii sc else get 0 kbd_ascii sc in
  if (97 <=? c) && (c <=? 122) then
    if negb (Z.lxor (kbd_capslock k) (kbd_shift k) =? 0) then s8 (c - 32) else c
  else if (65 <=? c) && (c <=? 90) then
    if Z.lxor (kbd_capslock k) (kbd_shift k) =? 0 then s8 (c + 32) else c
  else c.

(** The modifier a scan code changes. *)
Definition kbd_modifiers (sc prs : Z) (k : kbd) : kbd :=
  if (sc =? 42) || (sc =? 54) then
    mkKbd (kbd_queue k) (if prs =? 0 then 0 else 1) (kbd_ctrl k) (kbd_alt k) (kbd_capslock k) (kbd_extended k)
  else if sc =? 29 then
    mkKbd (kbd_queue k) (kbd_shift k) (if prs =? 0 then 0 else 1) (kbd_alt k) (kbd_capslock k) (kbd_extended k)
  else if sc =? 56 then
    mkKbd (kbd_queue k) (kbd_shift k) (kbd_ctrl k) (if prs =? 0 then 0 else 1) (kbd_capslock k) (kbd_extended k)
  else if (sc =? 58) && negb (prs =? 0) then
    mkKbd (kbd_queue k) (kbd_shift k) (kbd_ctrl k) (kbd_alt k) (Z.lxor (kbd_capslock k) 1) (kbd_extended k)
  else k.

Definition KeyboardHandleData (dat : Z) (k : kbd) : kbd :=
  if dat =? 224 then set_extended k 1 else
  let prs := if Z.land dat 128 =? 0 then 1 else 0 in
  let sc := Z.land dat 127 in
  let k := kbd_modifiers sc prs k in
  let event := mkEvent sc (if prs =? 0 then 0 else kbd_translate_ascii sc k) prs
                 (kbd_shift k) (kbd_ctrl k) (kbd_alt k) (kbd_extended k) in
  set_extended (kbd_queue_push event k) 0.

Definition KeyboardPollEvent (event_ok : bool) (k : kbd) : option KEYBOARD_EVENT * kbd :=
  if negb event_ok then (None, k) else
  let '(e, q) := ring_pop KBD_QUEUE_SIZE no_event (kbd_queue k) in (e, set_queue k q).

Definition kbd_reset : kbd := mkKbd (mkRing (replicate 32 no_event) 0 0) 0 0 0 0 0.

Section controller.
Context {D : Type} `{Bus D} (a : arch).

Definition kbd_wait_read : hw D unit := poll (Z.to_nat 100000) (inb a 100) (fun x => negb (Z.land x 1 =? 0));; mret tt.
Definition kbd_wait_write : hw D unit := poll (Z.to_nat 100000) (inb a 100) (fun x => Z.land x 2 =? 0);; mret tt.

Fixpoint drain_loop (spins : nat) : hw D unit :=
  match spins with
  | O => mret tt
  | S n => x ← inb a 100; if Z.land x 1 =? 0 then mret tt else inb a 96;; drain_loop n
  end.
Definition kbd_drain_output : hw D unit := drain_loop 32.

Definition kbd_command (cmd : Z) : hw D Z :=
  kbd_wait_write;; outb a 96 cmd;; kbd_wait_read;; inb a 96.

(** [config |= 0x01; config &= (uint8_t)~0x10; config |= 0x40] *)
Definition kbd_config (config : Z) : Z := Z.lor (Z.land (Z.lor config 1) 239) 64.

Definition KeyboardInit : hw D kbd :=
  kbd_drain_output;;
  kbd_wait_write;; outb a 100 174;;
  kbd_wait_write;; outb a 100 32;; kbd_wait_read;;
  config ← inb a 96;
  kbd_wait_write;; outb a 100 96;; kbd_wait_write;; outb a 96 (kbd_config config);;
  kbd_drain_output;;
  kbd_command 244;;
  mret kbd_reset.

Definition KeyboardHandleControllerEvent (k : kbd) : hw D (Z * kbd) :=
  status ← inb a 100;
  if Z.land status 1 =? 0 then mret (0, k) else
  if negb (Z.land status 32 =? 0) then mret (0, k) else
  x ← inb a 96;
  mret (1, KeyboardHandleData x k).

End controller.

(** ** What the events should be

    From the bytes received so far, newest first: a modifier is down when the
    last byte of one of its keys was a press, caps lock is the parity of its
    presses, a key is extended when the byte before it is the prefix 0xE0. *)
Definition is_press (b : Z) : bool := Z.land b 128 =? 0.

Fixpoint held (keys hist : list Z) : Z :=
  match hist with
  | [] => 0
  | b :: h => if existsb (Z.eqb (Z.land b 127)) keys then (if is_press b then 1 else 0) else held keys h
  end.

Fixpoint caps (hist : list Z) : Z :=
  match hist with
  | [] => 0
  | b :: h => if (Z.land b 127 =? 58) && is_press b then 1 - caps h else caps h
  end.

Definition prefixed (hist : list Z) : Z :=
  match hist with b :: _ => if b =? 224 then 1 else 0 | [] => 0 end.

(** The character of a key: letters follow shift and caps lock together, the
    other keys shift alone. *)
Definition key_char (sc : Z) (sh cp : Z) : Z :=
  let c := get 0 kbd_ascii sc in
  if (97 <=? c) && (c <=? 122) then (if sh =? cp then c else c - 32)
  else if sh =? 0 then c else get 0 kbd_shift_ascii sc.

Definition event_of (b : Z) (hist : list Z) : KEYBOARD_EVENT :=
  let sc := Z.land b 127 in
  let h := b :: hist in
  mkEvent sc (if is_press b then key_char sc (held [42; 54] h) (caps h) else 0) (if is_press b then 1 else 0)
    (held [42; 54] h) (held [29] h) (held [56] h) (prefixed hist).

Fixpoint events (hist bytes : list Z) : list KEYBOARD_EVENT :=
  match bytes with
  | [] => []
  | b :: bs => (if b =? 224 then [] else [event_of b hist]) ++ events (b :: hist) bs
  end.

(** Reading until the queue is empty. *)
Fixpoint drain (n : nat) (k : kbd) : list KEYBOARD_EVENT :=
  match n with
  | O => []
  | S n' => match KeyboardPollEvent true k with (Some e, k) => e :: drain n' k | (None, _) => [] end
  end.

Definition handle_all (bytes : list Z) (k : kbd) : kbd := fold_left (fun k b => KeyboardHandleData b k) bytes k.

(** ** The driver follows its history *)
Definition bit (x : Z) : Prop := x = 0 \/ x = 1.

Lemma held_bit keys hist : bit (held keys hist).
Proof.
  induction hist as [|b h IH]; cbn; [by left|].
  destruct (existsb _ keys); [|done]. destruct (is_press b); [by right | by left].
Qed.

Lemma caps_bit hist : bit (caps hist).
Proof.
  unfold bit. induction hist as [|b h IH]; cbn; [by left|]. destruct (_ && _); lia.
Qed.

Lemma translate_key_char k sc :
  0 <= sc < 128 -> bit (kbd_shift k) -> bit (kbd_capslock k) ->
  kbd_translate_ascii sc k = key_char sc (kbd_shift k) (kbd_capslock k).
Proof.
  intros Hsc Hs Hc. destruct k as [q s c al cp e]. cbn in *.
  assert (Hall : forallb (fun sc => forallb (fun s => forallb (fun cp =>
      kbd_translate_ascii sc (mkKbd (mkRing [] 0 0) s 0 0 cp 0) =? key_char sc s cp) [0; 1]) [0; 1]) (seqZ 0 128) = true)
    by (vm_compute; reflexivity).
  rewrite forallb_forall in Hall. specialize (Hall sc ltac:(apply list_elem_of_In, elem_of_seqZ; lia)).
  cbn [forallb] in Hall. rewrite !andb_true_iff, !Z.eqb_eq in Hall.
  destruct Hs as [-> | ->], Hc as [-> | ->]; apply Hall.
Qed.

Record tracks (hist : list Z) (k : kbd) : Prop := {
  tr_shift : kbd_shift k = held [42; 54] hist;
  tr_ctrl : kbd_ctrl k = held [29] hist;
  tr_alt : kbd_alt k = held [56] hist;
  tr_caps : kbd_capslock k = caps hist;
  tr_ext : kbd_extended k = prefixed hist;
  tr_ring : ring_ok KBD_QUEUE_SIZE (kbd_queue k)
}.

Definition pending (k : kbd) : list KEYBOARD_EVENT := queue KBD_QUEUE_SIZE no_event (kbd_queue k).

Lemma land_127_range b : 0 <= Z.land b 127 < 128.
Proof. change 127 with (Z.ones 7). rewrite Z.land_ones by lia. apply Z.mod_pos_bound. lia. Qed.

Lemma modifiers_track hist b k :
  tracks hist k ->
  let k' := kbd_modifiers (Z.land b 127) (if is_press b then 1 else 0) k in
  kbd_shift k' = held [42; 54] (b :: hist) /\ kbd_ctrl k' = held [29] (b :: hist) /\
  kbd_alt k' = held [56] (b :: hist) /\ kbd_capslock k' = caps (b :: hist) /\
  kbd_extended k' = prefixed hist /\ kbd_queue k' = kbd_queue k.
Proof.
  intros [Hs Hc Ha Hp He _]. unfold kbd_modifiers. cbn [held caps existsb].
  rewrite !orb_false_r. destruct (caps_bit hist) as [Hb | Hb]; rewrite Hb in Hp |- *.
  all: destruct (is_press b), (Z.eqb_spec (Z.land b 127) 42), (Z.eqb_spec (Z.land b 127) 54),
      (Z.eqb_spec (Z.land b 127) 29), (Z.eqb_spec (Z.land b 127) 56), (Z.eqb_spec (Z.land b 127) 58);
    try lia; cbn [orb andb negb kbd_shift kbd_ctrl kbd_alt kbd_capslock kbd_extended kbd_queue Z.eqb];
    rewrite ?Hp; repeat split; done.
Qed.

Lemma handle_data_tracks hist b k :
  tracks hist k ->
  tracks (b :: hist) (KeyboardHandleData b k) /\
  pending (KeyboardHandleData b k) =
    take 31 (pending k ++ (if b =? 224 then [] else [event_of b hist])).
Proof.
  intros Ht. pose proof (queue_length KBD_QUEUE_SIZE no_event _ (tr_ring _ _ Ht)) as Hlen.
  pose proof (ring_length_cases KBD_QUEUE_SIZE _ (tr_ring _ _ Ht)) as Hl.
  destruct (tr_ring _ _ Ht) as (_ & _ & Hh & Htl). unfold KBD_QUEUE_SIZE in Hl, Hh, Htl.
  assert (Hle : (length (pending k) <= 31)%nat).
  { unfold pending, KBD_QUEUE_SIZE in *. rewrite Hl in Hlen. revert Hlen. zbool; lia. }
  unfold KeyboardHandleData. destruct (Z.eqb_spec b 224) as [->|Hb].
  - split; [|rewrite app_nil_r, take_ge by done; done]. by destruct Ht; split.
  - pose proof (modifiers_track hist b k Ht) as (Hs & Hc & Ha & Hp & He & Hq).
    fold (is_press b). set (k' := kbd_modifiers _ _ k) in *. clearbody k'.
    assert (Hev : mkEvent (Z.land b 127) (if (if is_press b then 1 else 0) =? 0 then 0 else kbd_translate_ascii (Z.land b 127) k')
        (if is_press b then 1 else 0) (kbd_shift k') (kbd_ctrl k') (kbd_alt k') (kbd_extended k') = event_of b hist).
    { rewrite translate_key_char; [|apply land_127_range | rewrite Hs; apply held_bit | rewrite Hp; apply caps_bit].
      unfold event_of. rewrite Hs, Hc, Ha, Hp, He. by destruct (is_press b). }
    rewrite Hev. clear Hev. set (ev := event_of b hist). clearbody ev.
    pose proof (ring_push_spec KBD_QUEUE_SIZE no_event (kbd_queue k) ev (tr_ring _ _ Ht)) as [Hok Hpush].
    split; [split; cbn; rewrite ?Hq; try done; by destruct (Z.eqb_spec b 224)|].
    unfold pending at 1. cbn. rewrite Hq, Hpush. unfold pending in *.
    destruct (Z.ltb_spec (ring_length KBD_QUEUE_SIZE (kbd_queue k)) (KBD_QUEUE_SIZE - 1)) as [Hlt|Hge].
    + rewrite take_ge; [done|]. rewrite length_app. cbn. unfold KBD_QUEUE_SIZE in *. lia.
    + symmetry. apply take_app_length'. unfold KBD_QUEUE_SIZE in *. lia.
Qed.

Lemma handle_all_tracks bytes hist k :
  tracks hist k ->
  tracks (rev bytes ++ hist) (handle_all bytes k) /\
  pending (handle_all bytes k) = take 31 (pending k ++ events hist bytes).
Proof.
  revert hist k. induction bytes as [|b bs IH]; intros hist k Ht.
  - split; [done|]. cbn [handle_all fold_left events]. rewrite app_nil_r.
    pose proof (queue_length KBD_QUEUE_SIZE no_event _ (tr_ring _ _ Ht)) as Hlen.
    pose proof (Z.mod_pos_bound (head (kbd_queue k) - tail (kbd_queue k)) KBD_QUEUE_SIZE ltac:(done)) as Hm.
    rewrite take_ge; [done|]. unfold pending, ring_length, KBD_QUEUE_SIZE in *. lia.
  - destruct (handle_data_tracks hist b k Ht) as [Ht' Hp].
    specialize (IH _ _ Ht') as [IHt IHp]. cbn [handle_all fold_left events] in *.
    change (rev (b :: bs)) with (rev bs ++ [b]). rewrite <- (assoc_L (++)).
    split; [exact IHt|]. unfold handle_all in IHp. rewrite IHp, Hp.
    destruct (Nat.le_gt_cases (length (pending k ++ (if b =? 224 then [] else [event_of b hist]))) 31).
    + rewrite (take_ge (pending k ++ _)) by done. by rewrite (assoc_L (++)).
    + rewrite (assoc_L (++)), take_app_le by (rewrite length_take; lia).
      rewrite take_take, Nat.min_id. symmetry. apply take_app_le. lia.
Qed.

Lemma drain_pending n k :
  ring_ok KBD_QUEUE_SIZE (kbd_queue k) -> (length (pending k) < n)%nat -> drain n k = pending k.
Proof.
  revert k. induction n as [|n IH]; intros k Hok Hn; [lia|]. cbn [drain]. unfold KeyboardPollEvent. cbn [negb].
  pose proof (ring_pop_spec KBD_QUEUE_SIZE no_event (kbd_queue k) Hok) as [Hok' Hpop].
  unfold pending in *. destruct (queue KBD_QUEUE_SIZE no_event (kbd_queue k)) as [|x q].
  - by rewrite Hpop.
  - destruct Hpop as [Hf Hq]. destruct (ring_pop _ _ _) as [e r]. cbn in *. subst e. f_equal.
    rewrite IH; cbn; rewrite ?Hq; [done.. | cbn in Hn; lia].
Qed.

(** C21. After [KeyboardInit], whatever bytes arrive, polling returns the events
    those bytes mean, in order and without loss up to the 31 the ring holds;
    the ones after are dropped.  An event's modifiers and its character are the
    ones the whole history of bytes determines. *)
Theorem keyboard_events_in_order {D} `{Bus D} (a : arch) (d : D) (bytes : list Z) :
  drain 32 (handle_all bytes (fst (KeyboardInit a d))) = take 31 (events [] bytes).
Proof.
  assert (fst (KeyboardInit a d) = kbd_reset) as ->.
  { unfold KeyboardInit, kbd_drain_output, kbd_wait_write, kbd_wait_read, kbd_command, mbind, hw_bind, mret, hw_ret.
    repeat match goal with |- context [let '(_, _) := ?x in _] => destruct x end. done. }
  assert (Ht : tracks [] kbd_reset) by (split; try done; repeat split; done).
  destruct (handle_all_tracks bytes [] kbd_reset Ht) as [[] Hp].
  rewrite drain_pending; [exact Hp | done |]. rewrite Hp, length_take. lia.
Qed.

(** The driver keeps one flag for both shift keys: with both held, releasing
    either types lower case again. *)
Example keyboard_shift_pair_lost :
  map ascii (events [] [42; 54; 30; 170; 30]) = [0; 0; 65; 0; 97].
Proof. vm_compute. reflexivity. Qed.

End Keyboard.
