(* ===== verification/Raster.v ===== *)
(** * Loops over rows and columns

    The drawing code of drivers/vga and drivers/fb fills arrays row by row.
    These lemmas say what such loops leave in the array; an array is a function
    from index to element, as in the memory of [Util]. *)

From stdpp Require Import base list numbers.
From Stdlib Require Import ZArith Lia.
From S2P Require Import Prelude.
From S2P Require Import Util.
Import Util.

(** Loop invariant of a counting loop. *)
Lemma for_range_inv {A} (P : Z -> A -> Prop) a n body (x : A) :
  0 <= n -> P a x -> (forall i y, a <= i < a + n -> P i y -> P (i + 1) (body i y)) ->
  P (a + n) (for_range a n body x).
Proof.
  intros Hn. remember (Z.to_nat n) as k eqn:Hk. revert a n x Hn Hk.
  induction k as [|k IH]; intros a n x Hn Hk H0 Hs.
  - rewrite for_range_nil by lia. by replace (a + n) with a by lia.
  - rewrite for_range_cons by lia. replace (a + n) with (Z.succ a + Z.pred n) by lia.
    apply IH; [lia.. | |]; [apply Hs; [lia|done] | intros; apply Hs; [lia|done]].
Qed.

(** A loop over an empty or non-empty range, as C writes it. *)
Lemma for_range_rule {A} (P : Z -> A -> Prop) a n body (x : A) :
  P a x -> (forall i y, a <= i < a + n -> P i y -> P (i + 1) (body i y)) ->
  P (a + Z.max 0 n) (for_range a n body x).
Proof.
  intros H0 Hs. destruct (Z.lt_ge_cases n 0).
  - rewrite for_range_nil, Z.max_l by lia. by rewrite Z.add_0_r.
  - rewrite Z.max_r by lia. apply for_range_inv; [lia | done..].
Qed.

(** Two bodies that agree on the range. *)
Lemma for_range_ext {A} a n (f g : Z -> A -> A) (x : A) :
  (forall i y, a <= i < a + n -> f i y = g i y) -> for_range a n f x = for_range a n g x.
Proof.
  intros E. destruct (Z.le_gt_cases n 0) as [Hn|Hn]; [by rewrite !for_range_nil|].
  revert a x E. replace n with (Z.of_nat (Z.to_nat n)) by lia. clear Hn. induction (Z.to_nat n) as [|k IH]; intros a x E; [by rewrite !for_range_nil by lia|].
  rewrite (for_range_cons a _ f), (for_range_cons a _ g), E by lia. replace (Z.pred (Z.of_nat (S k))) with (Z.of_nat k) by lia. apply IH. intros i y Hi. apply E. lia.
Qed.

Definition within (lo i hi : Z) : bool := (lo <=? i) && (i <? hi).

Lemma within_true lo i hi : within lo i hi = true <-> lo <= i < hi.
Proof. unfold within. rewrite andb_true_iff, Z.leb_le, Z.ltb_lt. lia. Qed.

Lemma within_false lo i hi : within lo i hi = false <-> ~ (lo <= i < hi).
Proof. rewrite <- within_true. by destruct (within lo i hi). Qed.

Ltac range_cases :=
  repeat match goal with
  | |- context [within ?a ?b ?c] =>
      let E := fresh "E" in
      destruct (within a b c) eqn:E; [apply within_true in E | apply within_false in E]
  | H : context [within ?a ?b ?c] |- _ =>
      let E := fresh "E" in
      destruct (within a b c) eqn:E; [apply within_true in E | apply within_false in E]
  end.

(** [for (c = a; c < a + n; c++) p[base + c] = v(c)]. *)
Lemma row_write base (v : Z -> Z) a n (m : mem) i :
  for_range a n (fun c m => upd m (base + c) (v c)) m i
  = if within (base + a) i (base + a + n) then v (i - base) else m i.
Proof.
  pose proof (for_range_rule (fun c m' => forall i,
    m' i = if within (base + a) i (base + c) then v (i - base) else m i) a n
    (fun c m => upd m (base + c) (v c)) m) as H.
  rewrite H.
  - range_cases; done || lia.
  - intros j. range_cases; done || lia.
  - intros c m' Hc Hm j. unfold upd. destruct (Z.eqb_spec j (base + c)) as [->|].
    + range_cases; [f_equal; lia | lia].
    + rewrite Hm. range_cases; done || lia.
Qed.

(** A loop whose every round rewrites columns [lo .. hi) of its own row of an
    array of [W] columns at [base], on the rows [g] accepts. *)
Lemma rows_write_guard (g : Z -> bool) base W lo hi (v : Z -> Z -> Z) body a n (m : mem) px py :
  0 <= lo -> hi <= W -> 0 <= px < W ->
  (forall row m i, a <= row < a + n ->
     body row m i = if g row && within (base + row * W + lo) i (base + row * W + hi)
                    then v row (i - base - row * W) else m i) ->
  for_range a n body m (base + py * W + px)
  = if within a py (a + n) && (g py && within lo px hi) then v py px else m (base + py * W + px).
Proof.
  intros Hlo Hhi Hpx Hbody.
  pose proof (for_range_rule (fun r m' => forall py px, 0 <= px < W ->
    m' (base + py * W + px)
    = if within a py r && (g py && within lo px hi) then v py px else m (base + py * W + px))
    a n body m) as H.
  rewrite H by (done || (intros; range_cases; done || lia) ||
    (intros r m' Hr Hm y x Hx; rewrite Hbody, Hm by done;
     destruct (Z.eq_dec y r) as [->|];
     [destruct (g r); range_cases; cbn; first [done | lia | (f_equal; lia)]
     | destruct (g r), (g y); range_cases; cbn; first [done | lia | nia]])).
  range_cases; done || lia.
Qed.

Lemma rows_write_at base W lo hi (v : Z -> Z -> Z) body a n (m : mem) px py :
  0 <= lo -> hi <= W -> 0 <= px < W ->
  (forall row m i, a <= row < a + n ->
     body row m i = if within (base + row * W + lo) i (base + row * W + hi)
                    then v row (i - base - row * W) else m i) ->
  for_range a n body m (base + py * W + px)
  = if within a py (a + n) && within lo px hi then v py px else m (base + py * W + px).
Proof. apply (rows_write_guard (fun _ => true)). Qed.

(** A row of which the columns off the array are skipped. *)
Lemma clipped_row base W (v : Z -> Z) x n (m : mem) i :
  for_range 0 n (fun c m => if (x + c <? 0) || (W <=? x + c) then m else upd m (base + (x + c)) (v c)) m i
  = if within (base + Z.max 0 x) i (base + Z.min W (x + n)) then v (i - base - x) else m i.
Proof.
  pose proof (for_range_rule (fun c m' => forall i,
    m' i = if within (base + Z.max 0 x) i (base + Z.min W (x + c)) then v (i - base - x) else m i) 0 n
    (fun c m => if (x + c <? 0) || (W <=? x + c) then m else upd m (base + (x + c)) (v c)) m) as H.
  rewrite H.
  - range_cases; done || lia.
  - intros j. range_cases; done || lia.
  - intros c m' Hc Hm j. destruct (_ || _) eqn:E.
    + rewrite orb_true_iff, Z.ltb_lt, Z.leb_le in E. rewrite Hm. range_cases; done || lia.
    + rewrite orb_false_iff, Z.ltb_ge, Z.leb_gt in E. unfold upd.
      destruct (Z.eqb_spec j (base + (x + c))) as [->|].
      * range_cases; [f_equal; lia | lia].
      * rewrite Hm. range_cases; done || lia.
Qed.

Lemma rows_write W lo hi (v : Z -> Z -> Z) body a n (m : mem) px py :
  0 <= lo -> hi <= W -> 0 <= px < W ->
  (forall row m i, a <= row < a + n ->
     body row m i = if within (row * W + lo) i (row * W + hi) then v row (i - row * W) else m i) ->
  for_range a n body m (py * W + px)
  = if within a py (a + n) && within lo px hi then v py px else m (py * W + px).
Proof.
  intros Hlo Hhi Hpx Hbody. apply (rows_write_at 0 W lo hi v body a n m px py Hlo Hhi Hpx).
  intros row m' i Hrow. rewrite Hbody, Z.sub_0_r by done. done.
Qed.

(** The same at any address: its row and column are the quotient and the
    remainder by the row length. *)
Lemma rows_write_div base W lo hi (v : Z -> Z -> Z) body a n (m : mem) i :
  0 <= lo -> hi <= W -> 0 < W ->
  (forall row m i, a <= row < a + n ->
     body row m i = if within (base + row * W + lo) i (base + row * W + hi)
                    then v row (i - base - row * W) else m i) ->
  for_range a n body m i
  = if within a ((i - base) / W) (a + n) && within lo ((i - base) mod W) hi
    then v ((i - base) / W) ((i - base) mod W) else m i.
Proof.
  intros Hlo Hhi HW Hbody. pose proof (Z.div_mod (i - base) W ltac:(lia)) as E.
  pose proof (Z.mod_pos_bound (i - base) W HW).
  replace i with (base + (i - base) / W * W + (i - base) mod W) at 1 6 by lia.
  apply (rows_write_at base W lo hi v); done.
Qed.

(** A loop on a state that only touches one part of it is a loop on that part. *)
Lemma for_range_lift {A B} (g : A -> B) a n (fb : Z -> B -> B) (fa : Z -> A -> A) (x : A) (z : B) :
  z = g x -> (forall i y, a <= i < a + n -> fb i (g y) = g (fa i y)) ->
  for_range a n fb z = g (for_range a n fa x).
Proof.
  intros -> Hs. remember (Z.to_nat n) as k eqn:Hk. revert a n x Hk Hs.
  induction k as [|k IH]; intros a n x Hk Hs; [by rewrite !for_range_nil by lia|].
  rewrite (for_range_cons a n fb), (for_range_cons a n fa), Hs by lia. apply IH; [lia|]. intros; apply Hs; lia.
Qed.
