(* ===== verification/Vga.v ===== *)
(** * drivers/vga/vga.c: the 640x480, 16-colour fallback display

    Drawing goes to [back_buffer], one byte per pixel; [VgaSwapBuffers] turns it
    into the four bit planes of the adapter.  [int] coordinates are unbounded:
    the code assumes that sums of a coordinate and an extent do not overflow. *)

From stdpp Require Import base list numbers.
From Stdlib Require Import ZArith Lia.
From S2P Require Import Prelude.
From S2P Require Import Util.
From S2P Require Import Hw.
From S2P Require Import Raster.
Import Util Hw.

Module Vga.

Definition font : list (list Z) :=
  [
   [0; 0; 0; 0; 0; 0; 0; 0]; [24; 24; 24; 24; 24; 0; 24; 0]; [102; 102; 0; 0; 0; 0; 0; 0];
   [108; 108; 254; 108; 254; 108; 108; 0]; [24; 62; 96; 60; 6; 124; 24; 0]; [0; 198; 204; 24; 48; 102; 198; 0];
   [56; 108; 56; 118; 220; 204; 118; 0]; [24; 24; 48; 0; 0; 0; 0; 0]; [12; 24; 48; 48; 48; 24; 12; 0];
   [48; 24; 12; 12; 12; 24; 48; 0]; [0; 102; 60; 255; 60; 102; 0; 0]; [0; 24; 24; 126; 24; 24; 0; 0];
   [0; 0; 0; 0; 0; 24; 24; 48]; [0; 0; 0; 126; 0; 0; 0; 0]; [0; 0; 0; 0; 0; 24; 24; 0];
   [6; 12; 24; 48; 96; 192; 128; 0]; [124; 198; 206; 214; 230; 198; 124; 0]; [24; 56; 24; 24; 24; 24; 126; 0];
   [124; 198; 6; 28; 48; 102; 254; 0]; [124; 198; 6; 60; 6; 198; 124; 0]; [28; 60; 108; 204; 254; 12; 30; 0];
   [254; 192; 252; 6; 6; 198; 124; 0]; [56; 96; 192; 252; 198; 198; 124; 0]; [254; 198; 12; 24; 48; 48; 48; 0];
   [124; 198; 198; 124; 198; 198; 124; 0]; [124; 198; 198; 126; 6; 12; 120; 0]; [0; 24; 24; 0; 0; 24; 24; 0];
   [0; 24; 24; 0; 0; 24; 24; 48]; [6; 12; 24; 48; 24; 12; 6; 0]; [0; 0; 126; 0; 126; 0; 0; 0];
   [96; 48; 24; 12; 24; 48; 96; 0]; [124; 198; 12; 24; 24; 0; 24; 0]; [124; 198; 222; 222; 222; 192; 120; 0];
   [56; 108; 198; 254; 198; 198; 198; 0]; [252; 102; 102; 124; 102; 102; 252; 0]; [60; 102; 192; 192; 192; 102; 60; 0];
   [248; 108; 102; 102; 102; 108; 248; 0]; [254; 98; 104; 120; 104; 98; 254; 0]; [254; 98; 104; 120; 104; 96; 240; 0];
   [60; 102; 192; 206; 198; 102; 62; 0]; [198; 198; 198; 254; 198; 198; 198; 0]; [60; 24; 24; 24; 24; 24; 60; 0];
   [30; 12; 12; 12; 204; 204; 120; 0]; [230; 102; 108; 120; 108; 102; 230; 0]; [240; 96; 96; 96; 98; 102; 254; 0];
   [198; 238; 254; 214; 198; 198; 198; 0]; [198; 230; 246; 222; 206; 198; 198; 0]; [124; 198; 198; 198; 198; 198; 124; 0];
   [252; 102; 102; 124; 96; 96; 240; 0]; [124; 198; 198; 198; 198; 124; 14; 0]; [252; 102; 102; 124; 108; 102; 230; 0];
   [124; 198; 96; 56; 12; 198; 124; 0]; [126; 90; 24; 24; 24; 24; 60; 0]; [198; 198; 198; 198; 198; 198; 124; 0];
   [198; 198; 198; 198; 108; 56; 16; 0]; [198; 198; 214; 214; 254; 108; 108; 0]; [198; 108; 56; 56; 108; 198; 198; 0];
   [102; 102; 60; 24; 24; 24; 60; 0]; [254; 198; 140; 24; 50; 102; 254; 0]; [60; 48; 48; 48; 48; 48; 60; 0];
   [192; 96; 48; 24; 12; 6; 2; 0]; [60; 12; 12; 12; 12; 12; 60; 0]; [16; 56; 108; 198; 0; 0; 0; 0];
   [0; 0; 0; 0; 0; 0; 0; 255]; [48; 24; 12; 0; 0; 0; 0; 0]; [0; 0; 120; 12; 124; 204; 118; 0];
   [224; 96; 124; 102; 102; 102; 220; 0]; [0; 0; 124; 198; 192; 198; 124; 0]; [28; 12; 124; 204; 204; 204; 118; 0];
   [0; 0; 124; 198; 254; 192; 124; 0]; [56; 108; 96; 240; 96; 96; 240; 0]; [0; 0; 118; 204; 204; 124; 12; 248];
   [224; 96; 108; 118; 102; 102; 230; 0]; [24; 0; 56; 24; 24; 24; 60; 0]; [6; 0; 6; 6; 6; 102; 102; 60];
   [224; 96; 102; 108; 120; 108; 230; 0]; [56; 24; 24; 24; 24; 24; 60; 0]; [0; 0; 236; 254; 214; 214; 198; 0];
   [0; 0; 248; 204; 204; 204; 204; 0]; [0; 0; 124; 198; 198; 198; 124; 0]; [0; 0; 220; 102; 102; 124; 96; 240];
   [0; 0; 118; 204; 204; 124; 12; 30]; [0; 0; 220; 118; 96; 96; 240; 0]; [0; 0; 124; 192; 124; 6; 252; 0];
   [48; 48; 252; 48; 48; 54; 28; 0]; [0; 0; 204; 204; 204; 204; 118; 0]; [0; 0; 198; 198; 108; 56; 16; 0];
   [0; 0; 198; 214; 254; 108; 108; 0]; [0; 0; 198; 108; 56; 108; 198; 0]; [0; 0; 198; 198; 126; 6; 252; 0];
   [0; 0; 254; 140; 24; 50; 254; 0]; [14; 24; 24; 112; 24; 24; 14; 0]; [24; 24; 24; 24; 24; 24; 24; 0];
   [112; 24; 24; 14; 24; 24; 112; 0]; [118; 220; 0; 0; 0; 0; 0; 0];
   replicate 8 0].

(** [c] is a [char]; the array has 96 rows. *)
Definition get_font (c : Z) : list Z :=
  if (32 <=? s8 c) && (s8 c <=? 126) then get [] font (s8 c - 32) else get [] font 0.

Definition VgaPutPixel (x y color : Z) (bb : mem) : mem :=
  if (x <? 0) || (640 <=? x) || (y <? 0) || (480 <=? y) then bb else upd bb (y * 640 + x) color.

Definition VgaFillRect (x y w h color : Z) (bb : mem) : mem :=
  let '(w, x) := if x <? 0 then (w + x, 0) else (w, x) in
  let '(h, y) := if y <? 0 then (h + y, 0) else (h, y) in
  let w := if 640 <? x + w then 640 - x else w in
  let h := if 480 <? y + h then 480 - y else h in
  if (w <=? 0) || (h <=? 0) then bb else
  for_range y h (fun row bb => for_range x w (fun col bb => upd bb (row * 640 + col) color) bb) bb.

Definition VgaDrawRect (x y w h color : Z) (bb : mem) : mem :=
  let bb := VgaFillRect x y w 1 color bb in
  let bb := VgaFillRect x (y + h - 1) w 1 color bb in
  let bb := VgaFillRect x y 1 h color bb in
  VgaFillRect (x + w - 1) y 1 h color bb.

Definition VgaDrawChar (x y c fg bg : Z) (bb : mem) : mem :=
  let glyph := get_font c in
  for_range 0 8 (fun row bb =>
    let bits := get 0 glyph row in
    for_range 0 8 (fun col bb =>
      let px := x + col in
      let py := y + row in
      if (0 <=? px) && (px <? 640) && (0 <=? py) && (py <? 480) then
        upd bb (py * 640 + px) (if Z.land bits (Z.shiftr 128 col) =? 0 then bg else fg)
      else bb) bb) bb.

Fixpoint VgaDrawString_loop (str : list Z) (x cx cy fg bg : Z) (bb : mem) : mem :=
  match str with
  | [] => bb
  | c :: str =>
      let '(cx, cy, bb) :=
        if c =? 10 then (x, cy + 10, bb)
        else
          let bb := VgaDrawChar cx cy c fg bg bb in
          let cx := cx + 8 in
          if 640 <? cx + 8 then (x, cy + 10, bb) else (cx, cy, bb) in
      if 480 <? cy + 10 then bb else VgaDrawString_loop str x cx cy fg bg bb
  end.
Definition VgaDrawString (x y : Z) (str : list Z) (fg bg : Z) (bb : mem) : mem :=
  VgaDrawString_loop str x x y fg bg bb.

(** [plane_data]: the four planes, 38400 bytes each. *)
Definition planes := Z -> mem.

Definition or_plane (color p : Z) (o b : Z) (d : planes) : planes :=
  if Z.land color (Z.shiftl 1 p) =? 0 then d
  else fun q => if q =? p then upd (d p) o (u8 (Z.lor (d p o) (Z.shiftl 1 b))) else d q.

Definition build_pixel (bb : mem) (y x : Z) (d : planes) : planes :=
  let color := Z.land (bb (y * 640 + x)) 15 in
  let byte_offset := y * 80 + Z.shiftr x 3 in
  let b := 7 - Z.land x 7 in
  or_plane color 3 byte_offset b (or_plane color 2 byte_offset b
    (or_plane color 1 byte_offset b (or_plane color 0 byte_offset b d))).

Definition build_planes (bb : mem) : planes :=
  for_range 0 480 (fun y d => for_range 0 640 (build_pixel bb y) d) (fun _ _ => 0).

Section device.
Context {D : Type} `{Bus D} (a : arch).

Definition vga_mem : Z := 655360.

Fixpoint store_bytes (n : nat) (i : Z) (src : mem) : hw D unit :=
  match n with
  | O => mret tt
  | S n' => mmio_store W8 (vga_mem + i) (src i);; store_bytes n' (i + 1) src
  end.

Fixpoint outb_all (l : list (Z * Z)) : hw D unit :=
  match l with [] => mret tt | (p, v) :: l => outb a p v;; outb_all l end.

(** Write mask, then the plane, for each of the four planes. *)
Fixpoint flush_planes (d : planes) (ps : list Z) : hw D unit :=
  match ps with
  | [] => mret tt
  | p :: ps => outb a 965 (Z.shiftl 1 p);; store_bytes (Z.to_nat 38400) 0 (d p);; flush_planes d ps
  end.

Definition flush_buffer (bb : mem) : hw D unit :=
  outb a 964 2;; flush_planes (build_planes bb) [0; 1; 2; 3];; outb a 965 15.

Definition VgaClearScreen (color : Z) (bb : mem) : hw D mem :=
  let bb := for_range 0 (640 * 480) (fun i bb => upd bb i color) bb in
  flush_buffer bb;; mret bb.

Definition VgaSwapBuffers (bb : mem) : hw D unit := flush_buffer bb.

Definition crtc : list Z :=
  [95; 79; 80; 130; 84; 128; 11; 62; 0; 64; 0; 0; 0; 0; 0; 0; 234; 12; 223; 40; 0; 231; 4; 227; 255].
Definition graphics : list Z := [0; 0; 0; 0; 0; 0; 5; 15; 255].

(** Each register through its index port and its data port. *)
Definition indexed (ip dp : Z) (l : list Z) : list (Z * Z) :=
  flat_map (fun '(i, v) => [(ip, i); (dp, v)]) (zip (seqZ 0 (Z.of_nat (length l))) l).

Definition VgaInit (bb : mem) : hw D mem :=
  outb a 962 227;; outb_all (indexed 964 965 [3; 1; 15; 0; 6]);;
  outb a 980 17;; x ← inb a 981; outb a 981 (Z.land x 127);;
  outb_all (indexed 980 981 crtc);;
  outb_all (indexed 974 975 graphics);;
  inb a 986;;
  outb_all (indexed 960 960 (seqZ 0 16));;
  outb_all [(960, 16); (960, 65); (960, 17); (960, 0); (960, 18); (960, 15); (960, 19); (960, 0); (960, 20); (960, 0)];;
  inb a 986;; outb a 960 32;;
  mret (for_range 0 (640 * 480) (fun i bb => upd bb i 0) bb).

End device.

(** ** What drawing does to the picture *)

(** [VgaFillRect] paints the part of the rectangle that is on the screen and
    nothing else. *)
Lemma VgaFillRect_spec x y w h color bb px py :
  0 <= px < 640 -> 0 <= py < 480 ->
  VgaFillRect x y w h color bb (py * 640 + px)
  = if within x px (x + w) && within y py (y + h) then color else bb (py * 640 + px).
Proof.
  intros Hx Hy. unfold VgaFillRect.
  set (xx := if x <? 0 then (w + x, 0) else (w, x)).
  set (yy := if y <? 0 then (h + y, 0) else (h, y)).
  assert (Hxx : snd xx = Z.max x 0 /\ fst xx + snd xx = x + w) by (unfold xx; zbool; cbn; lia).
  assert (Hyy : snd yy = Z.max y 0 /\ fst yy + snd yy = y + h) by (unfold yy; zbool; cbn; lia).
  destruct xx as [w' x'], yy as [h' y']. cbn in Hxx, Hyy.
  set (w2 := if 640 <? x' + w' then 640 - x' else w').
  set (h2 := if 480 <? y' + h' then 480 - y' else h').
  assert (Hw2 : x' + w2 = Z.min (x + w) 640) by (unfold w2; zbool; lia).
  assert (Hh2 : y' + h2 = Z.min (y + h) 480) by (unfold h2; zbool; lia).
  destruct ((w2 <=? 0) || (h2 <=? 0)) eqn:E.
  - rewrite orb_true_iff, !Z.leb_le in E. range_cases; try done; lia.
  - rewrite orb_false_iff, !Z.leb_gt in E.
    rewrite (rows_write 640 x' (x' + w2) (fun _ _ => color)) by
      (lia || (intros; rewrite row_write; range_cases; done || lia)).
    range_cases; try done; lia.
Qed.

(** ** The bit planes *)
Definition plane_bit (d : planes) (p x y : Z) : bool :=
  Z.testbit (d p (y * 80 + Z.shiftr x 3)) (7 - Z.land x 7).

Lemma shiftl_1_testbit k n : 0 <= k -> 0 <= n -> Z.testbit (Z.shiftl 1 k) n = (n =? k).
Proof.
  intros. rewrite Z.shiftl_1_l. destruct (Z.eqb_spec n k) as [->|].
  - by apply Z.pow2_bits_true.
  - by apply Z.pow2_bits_false.
Qed.

Lemma u8_testbit v n : 0 <= n < 8 -> Z.testbit (u8 v) n = Z.testbit v n.
Proof. intros. unfold u8. change 256 with (2 ^ 8). apply Z.mod_pow2_bits_low. lia. Qed.

Lemma or_plane_bit color p o b d q o' b' :
  0 <= p -> 0 <= b < 8 -> 0 <= b' < 8 ->
  Z.testbit (or_plane color p o b d q o') b'
  = Z.testbit (d q o') b' || ((q =? p) && (o' =? o) && (b' =? b) && Z.testbit color p).
Proof.
  intros Hp Hb Hb'. unfold or_plane. rewrite Z.shiftl_1_l.
  pose proof (land_pow2_testbit color p Hp) as E.
  destruct (Z.land color (2 ^ p) =? 0); cbn in E; rewrite <- E.
  - by rewrite andb_false_r, orb_false_r.
  - destruct (Z.eqb_spec q p) as [->|]; [|by rewrite orb_false_r]. unfold upd.
    destruct (Z.eqb_spec o' o) as [->|]; [|by rewrite orb_false_r].
    rewrite u8_testbit, Z.lor_spec, shiftl_1_testbit by lia.
    by rewrite andb_true_r.
Qed.

Lemma pixel_position x : 0 <= x -> Z.shiftr x 3 = x / 8 /\ Z.land x 7 = x mod 8.
Proof. intros. split; [by rewrite Z.shiftr_div_pow2 | apply land_7]. Qed.

Lemma build_pixel_bit bb y x d p x' y' :
  0 <= p < 4 -> 0 <= x < 640 -> 0 <= x' < 640 ->
  plane_bit (build_pixel bb y x d) p x' y'
  = plane_bit d p x' y' || ((x' =? x) && (y' =? y) && Z.testbit (Z.land (bb (y * 640 + x)) 15) p).
Proof.
  intros Hp Hx Hx'. unfold plane_bit, build_pixel.
  destruct (pixel_position x) as [-> ->]; [lia|]. destruct (pixel_position x') as [-> ->]; [lia|].
  rewrite !or_plane_bit by (try lia; zlia).
  assert (Hpos : (y' * 80 + x' / 8 =? y * 80 + x / 8) && (7 - x' mod 8 =? 7 - x mod 8) = (x' =? x) && (y' =? y)).
  { apply eq_true_iff_eq. rewrite !andb_true_iff, !Z.eqb_eq. zlia. }
  rewrite <- Hpos, <- !orb_assoc. f_equal.
  assert (p = 0 \/ p = 1 \/ p = 2 \/ p = 3) as [-> | [-> | [-> | ->]]] by lia; cbn [Z.eqb Pos.eqb];
    rewrite ?andb_false_l, ?orb_false_l, ?orb_false_r; done.
Qed.

Definition pixel_bit (bb : mem) (p y x : Z) : bool := Z.testbit (Z.land (bb (y * 640 + x)) 15) p.

Lemma build_row_bit bb p r d x y :
  0 <= p < 4 -> 0 <= x < 640 ->
  plane_bit (for_range 0 640 (build_pixel bb r) d) p x y
  = plane_bit d p x y || ((y =? r) && pixel_bit bb p y x).
Proof.
  intros Hp Hx.
  pose proof (for_range_rule (fun c d' => forall x, 0 <= x < 640 ->
    plane_bit d' p x y = plane_bit d p x y || ((y =? r) && (x <? c) && pixel_bit bb p y x))
    0 640 (build_pixel bb r) d) as H.
  rewrite H; [| | | done].
  - zbool; cbn; done || lia.
  - intros x' Hx'. rewrite (proj2 (Z.ltb_ge _ _)), andb_false_r, orb_false_r by lia. done.
  - intros c d' Hc Hd x' Hx'. rewrite build_pixel_bit, Hd by lia. unfold pixel_bit.
    destruct (plane_bit d p x' y); cbn [orb]; [done|].
    destruct (Z.eqb_spec x' c) as [->|], (Z.eqb_spec y r) as [->|]; cbn [andb];
      rewrite ?orb_false_r; try done; zbool; cbn; try done; lia.
Qed.

Lemma build_planes_bit bb p x y :
  0 <= p < 4 -> 0 <= x < 640 -> 0 <= y < 480 ->
  plane_bit (build_planes bb) p x y = pixel_bit bb p y x.
Proof.
  intros Hp Hx Hy. unfold build_planes.
  pose proof (for_range_rule (fun r d => forall y x, 0 <= x < 640 -> 0 <= y ->
    plane_bit d p x y = (y <? r) && pixel_bit bb p y x) 0 480
    (fun y d => for_range 0 640 (build_pixel bb y) d) (fun _ _ => 0)) as H.
  rewrite H; [| | | done | lia].
  - zbool; cbn; done || lia.
  - intros y' x' _ Hy'. unfold plane_bit. rewrite Z.bits_0, (proj2 (Z.ltb_ge _ _)) by lia. done.
  - intros r d Hr Hd y' x' Hx' Hy'. rewrite build_row_bit, Hd by lia.
    zbool; cbn; rewrite ?orb_false_r; try done; lia.
Qed.

End Vga.
