(* ===== verification/Fb.v ===== *)
(** * drivers/fb/fb.c: the framebuffer compositor

    Drawing goes to two arrays of the size of the screen, [fb_surface] (RGB) and
    [fb_shadow] (palette index), and grows a dirty rectangle; [FbSwapBuffers]
    copies that rectangle to the adapter's memory, on the hidden one of two
    pages where the adapter can flip.  The statics are grouped by purpose; an
    allocated array is its address (0 for NULL) and its elements, the adapter's
    memory is the bytes of [ram].  Coordinates are [int]: a sum that a caller's
    values can take out of range wraps ([s32]), and the theorems are about
    commands whose sums stay in range. *)

From stdpp Require Import base list numbers gmap strings.
From Stdlib Require Import ZArith Lia.
From S2P Require Import Prelude.
From S2P Require Import Util.
From S2P Require Import Pmm.
From S2P Require Import Vmm.
From S2P Require Import Mm.
From S2P Require Import Hw.
From S2P Require Import Sim.
From S2P Require Import Raster.
From S2P Require Import Vga.
Import Util Hw Vga.

Module Fb.

Definition COLOR_BLUE : Z := 1.

Record MODE := mkMode {
  use_framebuffer : bool;
  fb_width : Z; fb_height : Z;
  fb_addr : Z; fb_present_addr : Z; fb_pitch : Z; fb_bpp : Z
}.
Record SURFACES := mkSurfaces {
  fb_shadow : Z; shadow : mem;
  fb_surface : Z; surface : mem;
  back_buffer : mem
}.
Record CLIP := mkClip {
  fb_clip_enabled : bool; fb_clip_left : Z; fb_clip_top : Z; fb_clip_right : Z; fb_clip_bottom : Z
}.
Record DIRTY := mkDirty {
  dirty_valid : bool; dirty_x1 : Z; dirty_y1 : Z; dirty_x2 : Z; dirty_y2 : Z
}.
Record SVGA := mkSvga { svga_io_port : Z; svga_fifo : Z; svga_fifo_max : Z; svga_active : bool }.
Record FLIP := mkFlip { bga_page_flip : bool; bga_display_page : Z; bga_pages_initialized : bool }.

Record fb (D H : Type) := mkFb {
  mode : MODE; surf : SURFACES; clip : CLIP; dirt : DIRTY; svga : SVGA; flip : FLIP;
  ram : mem; dev : D; heap : H
}.
Arguments mkFb {D H}. Arguments mode {D H}. Arguments surf {D H}. Arguments clip {D H}.
Arguments dirt {D H}. Arguments svga {D H}. Arguments flip {D H}. Arguments ram {D H}.
Arguments dev {D H}. Arguments heap {D H}.

Definition no_dirty : DIRTY := mkDirty false 0 0 0 0.

Definition vga_to_rgb888 : list Z :=
  [0; 170; 43520; 43690; 11141120; 11141290; 11162880; 11184810;
   5592405; 5592575; 5635925; 5636095; 16733525; 16733695; 16777045; 16777215].

Definition rgb888 (color : Z) : Z := get 0 vga_to_rgb888 (Z.land color 15).

Record FB_MODE := mkFbMode { width : Z; height : Z; bpp : Z }.

Definition fb_modes : list FB_MODE :=
  flat_map (fun '(w, h) => [mkFbMode w h 16; mkFbMode w h 24; mkFbMode w h 32])
    [(640, 480); (800, 600); (1024, 768); (1152, 864); (1280, 1024); (640, 360); (800, 450); (960, 540);
     (1280, 720); (1366, 768); (1600, 900); (1920, 1080)].

Definition FB_MODE_COUNT : Z := Z.of_nat (length fb_modes).

(** The nearest palette entry, the first of the nearest ones. *)
Definition rgb_distance (r g b i : Z) : Z :=
  let p := get 0 vga_to_rgb888 i in
  let dr := s32 (r - Z.land (Z.shiftr p 16) 255) in
  let dg := s32 (g - Z.land (Z.shiftr p 8) 255) in
  let db := s32 (b - Z.land p 255) in
  u32 (dr * dr + dg * dg + db * db).

Definition fb_rgb_to_index (rgb : Z) : Z :=
  let r := Z.land (Z.shiftr rgb 16) 255 in
  let g := Z.land (Z.shiftr rgb 8) 255 in
  let b := Z.land rgb 255 in
  snd (for_range 0 16 (fun i '(best, result) =>
    let distance := rgb_distance r g b i in
    if distance <? best then (distance, i) else (best, result)) (4294967295, 0)).

Definition font : list (list Z) := Vga.font.
Definition fb_get_font (c : Z) : list Z :=
  if (32 <=? s8 c) && (s8 c <=? 126) then get [] font (s8 c - 32) else get [] font 0.

(** ** Little-endian stores *)
Definition byte_of (k v : Z) : Z := u8 (Z.shiftr v (8 * k)).

Definition store_le (n p v : Z) (m : mem) : mem := for_range 0 n (fun k m => upd m (p + k) (byte_of k v)) m.

Definition load_le32 (p : Z) (m : mem) : Z :=
  m p + Z.shiftl (m (p + 1)) 8 + Z.shiftl (m (p + 2)) 16 + Z.shiftl (m (p + 3)) 24.

(** [memcpy] of [n] words of a [uint32_t] array to bytes. *)
Definition copy_words (dst : Z) (src : mem) (i n : Z) (m : mem) : mem :=
  for_range 0 (u32 n * 4) (fun k m => upd m (dst + k) (byte_of (k mod 4) (src (i + k / 4)))) m.

Section ops.
Context {D H : Type} `{Bus D} `{KernelHeap H} (a : arch).
Implicit Types st : fb D H.
(** What an array holds when [kmalloc] has just returned it. *)
Context (uninit : Z -> mem).

Definition set_mode st (x : MODE) : fb D H :=
  mkFb x (surf st) (clip st) (dirt st) (svga st) (flip st) (ram st) (dev st) (heap st).
Definition set_surf st (x : SURFACES) : fb D H :=
  mkFb (mode st) x (clip st) (dirt st) (svga st) (flip st) (ram st) (dev st) (heap st).
Definition set_clip st (x : CLIP) : fb D H :=
  mkFb (mode st) (surf st) x (dirt st) (svga st) (flip st) (ram st) (dev st) (heap st).
Definition set_dirt st (x : DIRTY) : fb D H :=
  mkFb (mode st) (surf st) (clip st) x (svga st) (flip st) (ram st) (dev st) (heap st).
Definition set_svga st (x : SVGA) : fb D H :=
  mkFb (mode st) (surf st) (clip st) (dirt st) x (flip st) (ram st) (dev st) (heap st).
Definition set_flip st (x : FLIP) : fb D H :=
  mkFb (mode st) (surf st) (clip st) (dirt st) (svga st) x (ram st) (dev st) (heap st).
Definition set_ram st (x : mem) : fb D H :=
  mkFb (mode st) (surf st) (clip st) (dirt st) (svga st) (flip st) x (dev st) (heap st).
Definition set_dev st (x : D) : fb D H :=
  mkFb (mode st) (surf st) (clip st) (dirt st) (svga st) (flip st) (ram st) x (heap st).
Definition set_heap st (x : H) : fb D H :=
  mkFb (mode st) (surf st) (clip st) (dirt st) (svga st) (flip st) (ram st) (dev st) x.

Definition with_arrays (s : SURFACES) (sh sf : mem) : SURFACES :=
  mkSurfaces (fb_shadow s) sh (fb_surface s) sf (back_buffer s).
Definition with_back (s : SURFACES) (bb : mem) : SURFACES :=
  mkSurfaces (fb_shadow s) (shadow s) (fb_surface s) (surface s) bb.
Definition with_present (m : MODE) (p : Z) : MODE :=
  mkMode (use_framebuffer m) (fb_width m) (fb_height m) (fb_addr m) p (fb_pitch m) (fb_bpp m).

(** ** The indexed picture *)
Definition fb_indexed_buffer st : option mem :=
  if use_framebuffer (mode st) then
    (if fb_shadow (surf st) =? 0 then None else Some (shadow (surf st)))
  else Some (back_buffer (surf st)).

Definition fb_indexed_stride st : Z := if use_framebuffer (mode st) then fb_width (mode st) else 640.
Definition indexed_height st : Z := if use_framebuffer (mode st) then fb_height (mode st) else 480.

(** ** Dirty rectangle

    Coordinates and sizes are C ints: sums and differences that a caller's values can take out of range wrap around. *)
Definition fb_reset_dirty st : fb D H := set_dirt st no_dirty.

Definition fb_mark_dirty (x y w h : Z) st : fb D H :=
  let m := mode st in
  if negb (use_framebuffer m) then st else
  let '(w, x) := if x <? 0 then (s32 (w + x), 0) else (w, x) in
  let '(h, y) := if y <? 0 then (s32 (h + y), 0) else (h, y) in
  if (fb_width m <=? x) || (fb_height m <=? y) || (w <=? 0) || (h <=? 0) then st else
  let w := if fb_width m <? s32 (x + w) then fb_width m - x else w in
  let h := if fb_height m <? s32 (y + h) then fb_height m - y else h in
  if (w <=? 0) || (h <=? 0) then st else
  let x2 := s32 (x + w - 1) in
  let y2 := s32 (y + h - 1) in
  let d := dirt st in
  if negb (dirty_valid d) then set_dirt st (mkDirty true x y x2 y2)
  else set_dirt st (mkDirty true
    (if x <? dirty_x1 d then x else dirty_x1 d) (if y <? dirty_y1 d then y else dirty_y1 d)
    (if dirty_x2 d <? x2 then x2 else dirty_x2 d) (if dirty_y2 d <? y2 then y2 else dirty_y2 d)).

(** ** Reading *)
Definition FbIsFramebuffer st : bool := use_framebuffer (mode st).
Definition FbGetWidth st : Z := fb_width (mode st).
Definition FbGetHeight st : Z := fb_height (mode st).
Definition FbGetModeCount : Z := FB_MODE_COUNT.

Definition FbGetModeInfo (index : Z) : option FB_MODE :=
  if (index <? 0) || (FB_MODE_COUNT <=? index) then None else fb_modes !! Z.to_nat index.

Definition FbGetPixel (x y : Z) st : Z :=
  match fb_indexed_buffer st with
  | None => 0
  | Some buf =>
      if (x <? 0) || (fb_indexed_stride st <=? x) || (y <? 0) || (indexed_height st <=? y) then 0
      else buf (y * fb_indexed_stride st + x)
  end.

Definition FbGetPixelRGB (x y : Z) st : Z :=
  let m := mode st in
  if use_framebuffer m && negb (fb_surface (surf st) =? 0) && (0 <=? x) && (x <? fb_width m)
     && (0 <=? y) && (y <? fb_height m)
  then surface (surf st) (y * fb_width m + x)
  else rgb888 (FbGetPixel x y st).

Definition FbCapture (dst_ok : bool) (dst_stride : Z) (dst : mem) st : mem :=
  match fb_indexed_buffer st with
  | None => dst
  | Some src =>
      let width := fb_indexed_stride st in
      if negb dst_ok || (dst_stride <? width) then dst else
      for_range 0 (indexed_height st) (fun y dst =>
        for_range 0 (u32 width) (fun k dst => upd dst (y * dst_stride + k) (src (y * width + k))) dst) dst
  end.

Definition FbCaptureRGB (x y w h : Z) (dst_ok : bool) (dst_stride : Z) (dst : mem) st : mem :=
  let m := mode st in
  if negb dst_ok || (fb_surface (surf st) =? 0) || (w <=? 0) || (h <=? 0) || (dst_stride <? w) then dst else
  for_range 0 h (fun row dst =>
    let sy := s32 (y + row) in
    if (sy <? 0) || (fb_height m <=? sy) then dst else
    for_range 0 w (fun col dst =>
      let sx := s32 (x + col) in
      upd dst (s32 (row * dst_stride + col))
        (if (0 <=? sx) && (sx <? fb_width m) then surface (surf st) (sy * fb_width m + sx) else 0)) dst) dst.

(** ** Drawing *)
Definition FbPutPixel (x y color : Z) st : fb D H :=
  let m := mode st in let s := surf st in let c := clip st in
  if use_framebuffer m then
    if (fb_shadow s =? 0) || (fb_surface s =? 0) || (x <? 0) || (fb_width m <=? x) || (y <? 0) || (fb_height m <=? y)
    then st else
    if fb_clip_enabled c && ((x <? fb_clip_left c) || (fb_clip_right c <=? x) || (y <? fb_clip_top c) || (fb_clip_bottom c <=? y))
    then st else
    fb_mark_dirty x y 1 1 (set_surf st (with_arrays s
      (upd (shadow s) (y * fb_width m + x) (Z.land color 15))
      (upd (surface s) (y * fb_width m + x) (rgb888 color))))
  else set_surf st (with_back s (VgaPutPixel x y color (back_buffer s))).

Definition FbPutPixelRGB (x y rgb : Z) st : fb D H :=
  let m := mode st in let s := surf st in
  if negb (use_framebuffer m) then FbPutPixel x y (fb_rgb_to_index rgb) st else
  if (fb_surface s =? 0) || (fb_shadow s =? 0) || (x <? 0) || (fb_width m <=? x) || (y <? 0) || (fb_height m <=? y)
  then st else
  fb_mark_dirty x y 1 1 (set_surf st (with_arrays s
    (upd (shadow s) (y * fb_width m + x) (fb_rgb_to_index rgb))
    (upd (surface s) (y * fb_width m + x) rgb))).

(** The clipping both rectangle fills start with: the rectangle left to paint. *)
Definition clip_rect (x y w h : Z) st : Z * Z * Z * Z :=
  let m := mode st in let c := clip st in
  let '(x, y, w, h) :=
    if fb_clip_enabled c then
      let '(w, x) := if x <? fb_clip_left c then (s32 (w - s32 (fb_clip_left c - x)), fb_clip_left c) else (w, x) in
      let '(h, y) := if y <? fb_clip_top c then (s32 (h - s32 (fb_clip_top c - y)), fb_clip_top c) else (h, y) in
      let w := if fb_clip_right c <? s32 (x + w) then fb_clip_right c - x else w in
      let h := if fb_clip_bottom c <? s32 (y + h) then fb_clip_bottom c - y else h in
      (x, y, w, h)
    else (x, y, w, h) in
  let '(w, x) := if x <? 0 then (s32 (w + x), 0) else (w, x) in
  let '(h, y) := if y <? 0 then (s32 (h + y), 0) else (h, y) in
  let w := if fb_width m <? s32 (x + w) then fb_width m - x else w in
  let h := if fb_height m <? s32 (y + h) then fb_height m - y else h in
  (x, y, w, h).

(** Both arrays filled over the rectangle. *)
Definition fill_array (x y w h W v : Z) (arr : mem) : mem :=
  for_range y h (fun row arr => for_range 0 w (fun col arr => upd arr (row * W + x + col) v) arr) arr.

Definition FbFillRect (x y w h color : Z) st : fb D H :=
  let m := mode st in let s := surf st in
  if use_framebuffer m then
    if (fb_shadow s =? 0) || (fb_surface s =? 0) then st else
    let '(x, y, w, h) := clip_rect x y w h st in
    if (w <=? 0) || (h <=? 0) then st else
    fb_mark_dirty x y w h (set_surf st (with_arrays s
      (fill_array x y w h (fb_width m) (Z.land color 15) (shadow s))
      (fill_array x y w h (fb_width m) (rgb888 color) (surface s))))
  else set_surf st (with_back s (VgaFillRect x y w h color (back_buffer s))).

Definition FbFillRectRGB (x y w h rgb : Z) st : fb D H :=
  let m := mode st in let s := surf st in
  if negb (use_framebuffer m) || (fb_surface s =? 0) then FbFillRect x y w h 0 st else
  let '(x, y, w, h) := clip_rect x y w h st in
  if (w <=? 0) || (h <=? 0) then st else
  let palette := fb_rgb_to_index rgb in
  fb_mark_dirty x y w h (set_surf st (with_arrays s
    (fill_array x y w h (fb_width m) palette (shadow s))
    (fill_array x y w h (fb_width m) rgb (surface s)))).

Definition FbDrawRect (x y w h color : Z) st : fb D H :=
  let st := FbFillRect x y w 1 color st in
  let st := FbFillRect x (s32 (y + h - 1)) w 1 color st in
  let st := FbFillRect x y 1 h color st in
  FbFillRect (s32 (x + w - 1)) y 1 h color st.

(** [src] is the source array, NULL when [src_ok] is false. *)
Definition FbBlitRGB (x y w h : Z) (src_ok : bool) (src : mem) (src_stride : Z) st : fb D H :=
  let m := mode st in let s := surf st in let W := fb_width m in
  if negb src_ok || (fb_surface s =? 0) || (w <=? 0) || (h <=? 0) || (src_stride <? w) then st else
  if (0 <=? x) && (0 <=? y) && (s32 (x + w) <=? W) && (s32 (y + h) <=? fb_height m) then
    fb_mark_dirty x y w h (set_surf st (with_arrays s (shadow s)
      (for_range 0 h (fun row arr =>
        for_range 0 w (fun k arr => upd arr ((y + row) * W + x + k) (src (s32 (row * src_stride) + k))) arr) (surface s))))
  else
    fb_mark_dirty x y w h (set_surf st (with_arrays s (shadow s)
      (for_range 0 h (fun row arr =>
        let dy := s32 (y + row) in
        if (dy <? 0) || (fb_height m <=? dy) then arr else
        for_range 0 w (fun col arr =>
          let dx := s32 (x + col) in
          if (dx <? 0) || (W <=? dx) then arr else
          upd arr (dy * W + dx) (src (s32 (row * src_stride + col)))) arr) (surface s)))).

(** The indexed blit: [soff] is where [src] points after its adjustments. *)
Definition FbBlitIndexed (x y w h : Z) (src_ok : bool) (src : mem) (src_stride : Z) st : fb D H :=
  let width := fb_indexed_stride st in
  let height := indexed_height st in
  match fb_indexed_buffer st with
  | None => st
  | Some dst =>
      if negb src_ok then st else
      let '(soff, w, x) := if x <? 0 then (- x, s32 (w + x), 0) else (0, w, x) in
      let '(soff, h, y) := if y <? 0 then (soff - s32 (y * src_stride), s32 (h + y), 0) else (soff, h, y) in
      if (width <=? x) || (height <=? y) || (w <=? 0) || (h <=? 0) then st else
      let w := if width <? s32 (x + w) then width - x else w in
      let h := if height <? s32 (y + h) then height - y else h in
      if (w <=? 0) || (h <=? 0) then st else
      let out := for_range 0 h (fun row arr =>
        for_range 0 w (fun k arr => upd arr ((y + row) * width + x + k) (src (soff + s32 (row * src_stride) + k))) arr) dst in
      if use_framebuffer (mode st)
      then fb_mark_dirty x y w h (set_surf st (with_arrays (surf st) out (surface (surf st))))
      else set_surf st (with_back (surf st) out)
  end.

Definition FbSetClipRect (x y w h : Z) st : fb D H :=
  let m := mode st in
  let l := if x <? 0 then 0 else x in
  let t := if y <? 0 then 0 else y in
  let r := if fb_width m <? s32 (x + w) then fb_width m else s32 (x + w) in
  let b := if fb_height m <? s32 (y + h) then fb_height m else s32 (y + h) in
  set_clip st (mkClip true l t (if r <? l then l else r) (if b <? t then t else b)).

Definition FbResetClipRect st : fb D H :=
  let c := clip st in
  set_clip st (mkClip false (fb_clip_left c) (fb_clip_top c) (fb_clip_right c) (fb_clip_bottom c)).

(** [fb_use_ttf_glyphs] is 0 and nothing assigns it: the glyphs are the 8x8 ones. *)
Definition FbDrawChar (x y c fg bg : Z) st : fb D H :=
  if use_framebuffer (mode st) then
    let glyph := fb_get_font c in
    for_range 0 8 (fun row st =>
      let bits := get 0 glyph row in
      for_range 0 8 (fun col st =>
        FbPutPixel (s32 (x + col)) (s32 (y + row)) (if Z.land bits (Z.shiftr 128 col) =? 0 then bg else fg) st) st) st
  else set_surf st (with_back (surf st) (VgaDrawChar x y c fg bg (back_buffer (surf st)))).

Definition FbDrawCharTransparent (x y c fg : Z) st : fb D H :=
  if negb (use_framebuffer (mode st)) then
    set_surf st (with_back (surf st) (VgaDrawChar x y c fg COLOR_BLUE (back_buffer (surf st))))
  else
    let glyph := fb_get_font c in
    for_range 0 8 (fun row st =>
      let bits := get 0 glyph row in
      for_range 0 8 (fun col st =>
        if Z.land bits (Z.shiftr 128 col) =? 0 then st else FbPutPixel (s32 (x + col)) (s32 (y + row)) fg st) st) st.

Fixpoint transparent_loop (str : list Z) (x cx y fg : Z) st : fb D H :=
  match str with
  | [] => st
  | c :: str => if c =? 10 then transparent_loop str x x (s32 (y + 10)) fg st
                else transparent_loop str x (s32 (cx + 8)) y fg (FbDrawCharTransparent cx y c fg st)
  end.
Definition FbDrawStringTransparent (x y : Z) (str : option (list Z)) (fg : Z) st : fb D H :=
  match str with None => st | Some str => transparent_loop str x x y fg st end.

Fixpoint string_loop (str : list Z) (x cx cy fg bg : Z) st : fb D H :=
  match str with
  | [] => st
  | c :: str =>
      let '(cx, cy, st) :=
        if c =? 10 then (x, s32 (cy + 10), st)
        else
          let st := FbDrawChar cx cy c fg bg st in
          let cx := s32 (cx + 8) in
          if fb_width (mode st) <? s32 (cx + 8) then (x, s32 (cy + 10), st) else (cx, cy, st) in
      if fb_height (mode st) <? s32 (cy + 8) then st else string_loop str x cx cy fg bg st
  end.
Definition FbDrawString (x y : Z) (str : list Z) (fg bg : Z) st : fb D H :=
  if use_framebuffer (mode st) then string_loop str x x y fg bg st
  else set_surf st (with_back (surf st) (VgaDrawString x y str fg bg (back_buffer (surf st)))).

Definition FbClearScreen (color : Z) st : fb D H :=
  let m := mode st in let s := surf st in
  if use_framebuffer m then
    let count := u32 (u32 (fb_width m) * u32 (fb_height m)) in
    if (fb_shadow s =? 0) || (fb_surface s =? 0) then st else
    fb_mark_dirty 0 0 (fb_width m) (fb_height m) (set_surf st (with_arrays s
      (for_range 0 count (fun i arr => upd arr i (Z.land color 15)) (shadow s))
      (for_range 0 count (fun i arr => upd arr i (rgb888 color)) (surface s))))
  else
    let '(bb, d) := VgaClearScreen a color (back_buffer s) (dev st) in
    set_dev (set_surf st (with_back s bb)) d.

(** ** Presenting *)
Definition bga_write (index value : Z) : hw D unit :=
  match a with
  | LA64 => mmio_store W16 (1090520320 + 2 * u16 index) (u16 value)
  | X86 | AMD64 => outw a 462 index;; outw a 463 value
  end.

Definition bga_read (index : Z) : hw D Z :=
  match a with
  | LA64 => x ← mmio_load W16 (1090520320 + 2 * u16 index); mret (u16 x)
  | X86 | AMD64 => outw a 462 index;; inw a 463
  end.

Definition svga_update (x y w h : Z) st : fb D H :=
  let v := svga st in
  if negb (svga_active v) || (svga_fifo v =? 0) || (w <=? 0) || (h <=? 0) then st else
  let f := svga_fifo v in
  let next := load_le32 (f + 8) (ram st) in
  let fifo_min := load_le32 f (ram st) in
  let next := if (next <? fifo_min) || (svga_fifo_max v <? u32 (next + 20)) then fifo_min else next in
  let m := store_le 4 (f + next) 1 (ram st) in
  let m := store_le 4 (f + next + 4) x m in
  let m := store_le 4 (f + next + 8) y m in
  let m := store_le 4 (f + next + 12) w m in
  let m := store_le 4 (f + next + 16) h m in
  let next := u32 (next + 20) in
  let next := if svga_fifo_max v <=? next then load_le32 f m else next in
  set_ram st (store_le 4 (f + 8) next m).

(** The bytes of a pixel in the adapter's format. *)
Definition pixel_bytes (depth : Z) : Z := if depth =? 16 then 2 else if depth =? 24 then 3 else 4.
Definition rgb565 (rgb : Z) : Z :=
  u16 (Z.lor (Z.lor (Z.shiftl (Z.shiftr rgb 19) 11) (Z.shiftl (Z.land (Z.shiftr rgb 10) 63) 5))
    (Z.land (Z.shiftr rgb 3) 31)).
Definition hw_pixel (depth rgb : Z) : Z :=
  if depth =? 16 then rgb565 rgb else if depth =? 24 then rgb else Z.land rgb 16777215.

Definition fb_write_hw_rgb (x y rgb : Z) st : fb D H :=
  let m := mode st in
  if (fb_addr m =? 0) || (x <? 0) || (fb_width m <=? x) || (y <? 0) || (fb_height m <=? y) then st else
  let row := fb_present_addr m + u32 (y * fb_pitch m) in
  let n := pixel_bytes (fb_bpp m) in
  set_ram st (store_le n (row + n * x) (hw_pixel (fb_bpp m) rgb) (ram st)).

(** Rows [y1 .. y2], columns [x1 .. x2] of the surface to the page at [base]:
    with 32 bits per pixel by words, else pixel by pixel to the present page. *)
Definition present_words (base x1 y1 x2 y2 : Z) st : fb D H :=
  let m := mode st in
  for_range y1 (y2 - y1 + 1) (fun y st =>
    set_ram st (copy_words (base + u32 (y * fb_pitch m) + x1 * 4) (surface (surf st))
      (y * fb_width m + x1) (u32 (x2 - x1 + 1)) (ram st))) st.

Definition present_pixels (x1 y1 x2 y2 : Z) st : fb D H :=
  for_range y1 (y2 - y1 + 1) (fun y st =>
    for_range x1 (x2 - x1 + 1) (fun x st =>
      fb_write_hw_rgb x y (surface (surf st) (y * fb_width (mode st) + x)) st) st) st.

Definition page_addr (m : MODE) (page : Z) : Z := fb_addr m + u32 (u32 (u32 page * fb_height m) * fb_pitch m).

Definition set_present (p : Z) st : fb D H := set_mode st (with_present (mode st) p).

(** [!bga_pages_initialized]: both pages get the whole surface. *)
Definition init_pages (target : Z) st : fb D H :=
  let m := mode st in
  if bga_pages_initialized (flip st) then st else
  let st :=
    if fb_bpp m =? 32 then
      for_range 0 (fb_height m) (fun y st =>
        let row := copy_words (fb_addr m + u32 (y * fb_pitch m)) (surface (surf st)) (y * fb_width m) (fb_width m) (ram st) in
        set_ram st (copy_words (fb_addr m + u32 (fb_height m * fb_pitch m) + u32 (y * fb_pitch m)) (surface (surf st))
          (y * fb_width m) (fb_width m) row)) st
    else
      let st := present_pixels 0 0 (fb_width m - 1) (fb_height m - 1) (set_present (page_addr m 0) st) in
      let st := present_pixels 0 0 (fb_width m - 1) (fb_height m - 1) (set_present (page_addr m 1) st) in
      set_present target st in
  set_flip st (mkFlip (bga_page_flip (flip st)) (bga_display_page (flip st)) true).

Definition swap_flip st : fb D H :=
  let d := dirt st in
  let st := if fb_present_addr (mode st) =? 0 then set_present (fb_addr (mode st)) st else st in
  let target_page := Z.lxor (bga_display_page (flip st)) 1 in
  let target := page_addr (mode st) target_page in
  let old_page := page_addr (mode st) (bga_display_page (flip st)) in
  let st := set_present target st in
  let st := init_pages target st in
  let st :=
    if fb_bpp (mode st) =? 32 then present_words target (dirty_x1 d) (dirty_y1 d) (dirty_x2 d) (dirty_y2 d) st
    else present_pixels (dirty_x1 d) (dirty_y1 d) (dirty_x2 d) (dirty_y2 d) st in
  let st := set_dev st (snd (bga_write 8 0 (dev st))) in
  let st := set_dev st (snd (bga_write 9 (target_page * fb_height (mode st)) (dev st))) in
  let st := set_flip st (mkFlip (bga_page_flip (flip st)) target_page (bga_pages_initialized (flip st))) in
  if fb_bpp (mode st) =? 32 then present_words old_page (dirty_x1 d) (dirty_y1 d) (dirty_x2 d) (dirty_y2 d) st
  else
    let st := set_present old_page st in
    let st := present_pixels (dirty_x1 d) (dirty_y1 d) (dirty_x2 d) (dirty_y2 d) st in
    set_present target st.

Definition FbSwapBuffers st : fb D H :=
  let d := dirt st in
  if use_framebuffer (mode st) then
    if (fb_surface (surf st) =? 0) || negb (dirty_valid d) then st else
    let st :=
      if bga_page_flip (flip st) then swap_flip st
      else if fb_bpp (mode st) =? 32 then
        present_words (fb_addr (mode st)) (dirty_x1 d) (dirty_y1 d) (dirty_x2 d) (dirty_y2 d) st
      else present_pixels (dirty_x1 d) (dirty_y1 d) (dirty_x2 d) (dirty_y2 d) st in
    fb_reset_dirty (svga_update (dirty_x1 d) (dirty_y1 d) (dirty_x2 d - dirty_x1 d + 1) (dirty_y2 d - dirty_y1 d + 1) st)
  else set_dev st (snd (VgaSwapBuffers a (back_buffer (surf st)) (dev st))).

(** ** Setting a mode *)
Definition fb_alloc_surfaces (pixels : Z) st : option (bool * fb D H) :=
  let s := surf st in
  h ← (if fb_shadow s =? 0 then Some (heap st) else kh_free (fb_shadow s) (heap st));
  h ← (if fb_surface s =? 0 then Some h else kh_free (fb_surface s) h);
  '(p, h) ← kh_malloc pixels h;
  '(q, h) ← kh_malloc (u32 (pixels * 4)) h;
  if (p =? 0) || (q =? 0) then
    h ← (if p =? 0 then Some h else kh_free p h);
    h ← (if q =? 0 then Some h else kh_free q h);
    Some (false, set_heap (set_surf st (mkSurfaces 0 (shadow s) 0 (surface s) (back_buffer s))) h)
  else
    Some (true, set_heap (set_surf st (mkSurfaces p (uninit p) q (uninit q) (back_buffer s))) h).

(** The scan of the PCI functions; [Some] of what [visit] finds first. *)
Section scan.
Context {R : Type} (visit : Z -> Z -> Z -> Z -> hw D (option R)).

Fixpoint scan_functions (n : nat) (bus slot func : Z) : hw D (option R) :=
  match n with
  | O => mret None
  | S n' =>
      id ← PciConfigRead32 a bus slot func 0;
      if id =? 4294967295 then
        if func =? 0 then mret None else scan_functions n' bus slot (func + 1)
      else
        r ← visit bus slot func id;
        match r with Some _ => mret r | None => scan_functions n' bus slot (func + 1) end
  end.

Fixpoint scan_slots (n : nat) (bus slot : Z) : hw D (option R) :=
  match n with
  | O => mret None
  | S n' => r ← scan_functions 8 bus slot 0;
            match r with Some _ => mret r | None => scan_slots n' bus (slot + 1) end
  end.

Fixpoint scan_buses (n : nat) (bus : Z) : hw D (option R) :=
  match n with
  | O => mret None
  | S n' => r ← scan_slots 32 bus 0;
            match r with Some _ => mret r | None => scan_buses n' (bus + 1) end
  end.
End scan.

Definition fb_find_lfb_phys : hw D Z :=
  r ← scan_buses (fun bus slot func id =>
        if (Z.land id 65535 =? 4660) && (Z.land (Z.shiftr id 16) 65535 =? 4369) then
          bar0 ← PciConfigRead32 a bus slot func 16;
          mret (if Z.land bar0 4294967280 =? 0 then None else Some (Z.land bar0 4294967280))
        else mret None) 256 0;
  mret (default 3758096384 r).

Definition fb_find_vmware : hw D (option (Z * Z)) :=
  scan_buses (fun bus slot func id =>
    let vendor := u16 (Z.land id 65535) in
    let device := u16 (Z.shiftr id 16) in
    if negb (vendor =? 5549) || (negb (device =? 1029) && negb (device =? 1808)) then mret None else
    command ← PciConfigRead32 a bus slot func 4;
    PciConfigWrite32 a bus slot func 4 (Z.lor command 7);;
    bar0 ← PciConfigRead32 a bus slot func 16;
    bar1 ← PciConfigRead32 a bus slot func 20;
    mret (if device =? 1029 then
            if (Z.land bar0 1 =? 0) || negb (Z.land bar1 1 =? 0) then None
            else Some (u16 (Z.land bar0 65532), Z.land bar1 4294967280)
          else if (Z.land bar0 1 =? 0) && negb (Z.land bar0 4294967280 =? 0) then Some (17760, Z.land bar0 4294967280)
          else if (Z.land bar1 1 =? 0) && negb (Z.land bar1 4294967280 =? 0) then Some (17760, Z.land bar1 4294967280)
          else None)) 256 0.

Fixpoint bga_write_all (l : list (Z * Z)) : hw D unit :=
  match l with [] => mret tt | (i, v) :: l => bga_write i v;; bga_write_all l end.

(** The mode registers in the order the driver writes them. *)
Definition bga_program (w h b : Z) : list (Z * Z) :=
  [(4, 0); (1, w); (2, h); (6, w); (7, h * 2); (3, b); (8, 0); (9, 0); (4, Z.lor (Z.lor 1 64) 128)].

(** The shadow cleared, the whole screen dirty, the framebuffer in use. *)
Definition activate (size : Z) st : fb D H :=
  let s := surf st in
  let st := set_surf st (with_arrays s (for_range 0 size (fun i arr => upd arr i 0) (shadow s)) (surface s)) in
  let m := mode st in
  let st := set_mode st (mkMode true (fb_width m) (fb_height m) (fb_addr m) (fb_present_addr m) (fb_pitch m) (fb_bpp m)) in
  fb_mark_dirty 0 0 (fb_width m) (fb_height m) (fb_reset_dirty st).

(** Up to the allocation of the surfaces. *)
Definition bga_prepare (w h b : Z) st : option (bool * fb D H) :=
  let '(id, d) := bga_read 0 (dev st) in
  if (id <? 45248) || (45253 <? id) then Some (false, set_dev st d) else
  let '(phys, d) := fb_find_lfb_phys d in
  if phys <? 1048576 then Some (false, set_dev st d) else
  let '(_, d) := bga_write_all (bga_program w h b) d in
  let '(rw, d) := bga_read 1 d in
  let '(rh, d) := bga_read 2 d in
  let '(rb, d) := bga_read 3 d in
  let m := mode st in
  let st := set_dev (set_mode st (mkMode (use_framebuffer m) rw rh (fb_addr m) (fb_present_addr m) (fb_pitch m) (u8 rb))) d in
  if negb (rw =? w) || negb (rh =? h) || negb (u8 rb =? b) then Some (false, st) else
  let st := set_mode st (mkMode (use_framebuffer m) rw rh phys phys (u32 (rw * (u8 rb / 8))) (u8 rb)) in
  let st := set_flip st (mkFlip true 0 false) in
  fb_alloc_surfaces (u32 (u32 rw * u32 rh)) st.

Definition fb_try_bga_mode (w h b : Z) st : option (bool * fb D H) :=
  '(ok, st) ← bga_prepare w h b st;
  if negb ok then Some (false, st)
  else Some (true, activate (u32 (u32 (fb_width (mode st)) * u32 (fb_height (mode st)))) st).

Definition svga_write (port index value : Z) : hw D unit := outl a port index;; outl a (u16 (port + 1)) value.
Definition svga_read (port index : Z) : hw D Z := outl a port index;; inl a (u16 (port + 1)).

Fixpoint svga_write_all (port : Z) (l : list (Z * Z)) : hw D unit :=
  match l with [] => mret tt | (i, v) :: l => svga_write port i v;; svga_write_all port l end.

(** The command FIFO of [mem_size] bytes at [mem_start]. *)
Definition svga_setup (port mem_start mem_size : Z) st : fb D H :=
  if (1048576 <=? mem_start) && (1024 <=? mem_size) then
    let fmax := if mem_size <? 10256 then Z.land mem_size 4294967292 else 10256 in
    let m := store_le 4 (mem_start + 12) 16 (store_le 4 (mem_start + 8) 16
      (store_le 4 (mem_start + 4) fmax (store_le 4 mem_start 16 (ram st)))) in
    let '(_, d) := svga_write port 20 1 (dev st) in
    set_dev (set_svga (set_ram st m) (mkSvga port mem_start fmax (36 <=? fmax))) d
  else
    let v := svga st in
    set_svga st (mkSvga port (svga_fifo v) (svga_fifo_max v) false).

Definition fb_try_vmware_mode (w h b : Z) st : option (bool * fb D H) :=
  let '(found, d) := fb_find_vmware (dev st) in
  match found with
  | None => Some (false, set_dev st d)
  | Some (port, bar_fb) =>
      let '(_, d) := svga_write port 0 2415919106 d in
      let '(id, d) := svga_read port 0 d in
      if negb (id =? 2415919106) && negb (id =? 2415919105) then Some (false, set_dev st d) else
      let '(_, d) := svga_write_all port [(1, 0); (2, w); (3, h); (7, b); (1, 1)] d in
      let '(rw, d) := svga_read port 2 d in
      let '(rh, d) := svga_read port 3 d in
      let '(rb, d) := svga_read port 7 d in
      let '(pitch, d) := svga_read port 12 d in
      let '(fb_start, d) := svga_read port 13 d in
      let fb_start := if fb_start =? 0 then bar_fb else fb_start in
      let m := mode st in
      let st := set_dev (set_mode st (mkMode (use_framebuffer m) (s32 rw) (s32 rh) (fb_addr m) (fb_present_addr m) (fb_pitch m) (u8 rb))) d in
      if negb (s32 rw =? w) || negb (s32 rh =? h) || (negb (u8 rb =? b) && negb (u8 rb =? 32))
         || (pitch <? u32 (s32 rw * 4)) || (fb_start <? 1048576) then Some (false, st) else
      let '(off, d) := svga_read port 14 (dev st) in
      let '(mem_start, d) := svga_read port 18 d in
      let '(mem_size, d) := svga_read port 19 d in
      let st := set_dev (set_mode st (mkMode (use_framebuffer m) (s32 rw) (s32 rh) (u32 (fb_start + off)) (fb_present_addr m) pitch (u8 rb))) d in
      let st := svga_setup port mem_start mem_size st in
      let shadow_size := u32 (u32 (s32 rw) * u32 (s32 rh)) in
      '(ok, st) ← fb_alloc_surfaces shadow_size st;
      if negb ok then Some (false, st) else
      let st := activate shadow_size st in
      if svga_active (svga st) then Some (true, st) else
      h ← kh_free (fb_shadow (surf st)) (heap st);
      h ← kh_free (fb_surface (surf st)) h;
      let s := surf st in let m := mode st in
      Some (false, set_heap (set_surf (set_mode st
        (mkMode false (fb_width m) (fb_height m) 0 (fb_present_addr m) (fb_pitch m) (fb_bpp m)))
        (mkSurfaces 0 (shadow s) 0 (surface s) (back_buffer s))) h)
  end.

Definition FbSetResolution (w h b : Z) st : option (bool * fb D H) :=
  if negb (use_framebuffer (mode st)) then Some (false, st) else
  if (w <? 320) || (h <? 200) then Some (false, st) else
  if negb (b =? 16) && negb (b =? 24) && negb (b =? 32) then Some (false, st) else
  if negb (existsb (fun f => (width f =? w) && (height f =? h) && (bpp f =? b)) fb_modes) then Some (false, st) else
  '(ok, st) ← fb_try_bga_mode (u16 w) (u16 h) (u16 b) st;
  if negb ok then Some (false, st) else
  Some (true, FbSwapBuffers (FbClearScreen COLOR_BLUE st)).

End ops.

(** * Correctness of the compositor *)
Section proofs.
Context {D H : Type} `{Bus D} `{KernelHeap H} (a : arch).
Implicit Types st : fb D H.

(** A mode the drivers set: the rows of both pages fit the 32-bit offsets. *)
Record mode_ok (m : MODE) : Prop := {
  mo_use : use_framebuffer m = true;
  mo_width : 0 < fb_width m < 65536;
  mo_height : 0 < fb_height m < 65536;
  mo_bpp : fb_bpp m = 16 \/ fb_bpp m = 24 \/ fb_bpp m = 32;
  mo_pitch : fb_width m * pixel_bytes (fb_bpp m) <= fb_pitch m;
  mo_pages : 2 * fb_height m * fb_pitch m < 4294967296;
  mo_addr : fb_addr m <> 0
}.

Definition on_screen (m : MODE) (x y : Z) : Prop := 0 <= x < fb_width m /\ 0 <= y < fb_height m.

Definition dirty_ok (m : MODE) (d : DIRTY) : Prop :=
  dirty_valid d = true ->
  0 <= dirty_x1 d <= dirty_x2 d /\ dirty_x2 d < fb_width m /\
  0 <= dirty_y1 d <= dirty_y2 d /\ dirty_y2 d < fb_height m.

Definition in_dirty (d : DIRTY) (x y : Z) : bool :=
  dirty_valid d && within (dirty_x1 d) x (dirty_x2 d + 1) && within (dirty_y1 d) y (dirty_y2 d + 1).

(** Coordinates and sizes far from the limits of an int, and clip rectangles made of them. *)
Definition small (z : Z) : Prop := -268435456 <= z <= 268435456.
Record clip_ok (c : CLIP) : Prop := {
  cl_left : 0 <= fb_clip_left c /\ small (fb_clip_left c);
  cl_right : 0 <= fb_clip_right c /\ small (fb_clip_right c);
  cl_top : 0 <= fb_clip_top c /\ small (fb_clip_top c);
  cl_bottom : 0 <= fb_clip_bottom c /\ small (fb_clip_bottom c)
}.

Lemma s32_small x : -2147483648 <= x < 2147483648 -> s32 x = x.
Proof. intros. unfold s32. rewrite Z.mod_small; lia. Qed.

Record screen_ok st : Prop := {
  so_mode : mode_ok (mode st);
  so_dirty : dirty_ok (mode st) (dirt st);
  so_arrays : fb_shadow (surf st) <> 0 /\ fb_surface (surf st) <> 0;
  so_page : bga_display_page (flip st) = 0 \/ bga_display_page (flip st) = 1;
  so_flip : bga_page_flip (flip st) = false ->
            bga_display_page (flip st) = 0 /\ (fb_bpp (mode st) = 32 \/ fb_present_addr (mode st) = fb_addr (mode st));
  so_svga : svga_active (svga st) = false;
  so_clip : clip_ok (clip st)
}.

(** Byte [k] of a pixel of a page, and what it should be. *)
Definition pixel_addr (m : MODE) (page x y k : Z) : Z :=
  fb_addr m + page * fb_height m * fb_pitch m + y * fb_pitch m + pixel_bytes (fb_bpp m) * x + k.

Definition encode (depth rgb : Z) : Z := if depth =? 32 then rgb else hw_pixel depth rgb.

Definition shows st (page x y : Z) : Prop :=
  forall k, 0 <= k < pixel_bytes (fb_bpp (mode st)) ->
  ram st (pixel_addr (mode st) page x y k)
  = byte_of k (encode (fb_bpp (mode st)) (surface (surf st) (y * fb_width (mode st) + x))).

(** The pages that have been drawn on: both when flipping, once initialised. *)
Definition live_page st (page : Z) : Prop :=
  if bga_page_flip (flip st) then bga_pages_initialized (flip st) = true /\ (page = 0 \/ page = 1) else page = 0.

(** Outside the dirty rectangle the adapter shows the surface; pages not yet
    initialised wait for a frame that is already due. *)
Definition coherent st : Prop :=
  (bga_page_flip (flip st) = true -> bga_pages_initialized (flip st) = false -> dirty_valid (dirt st) = true) /\
  forall page x y, live_page st page -> on_screen (mode st) x y -> in_dirty (dirt st) x y = false ->
  shows st page x y.

(** ** Addresses *)
Lemma pixel_bytes_range depth : 2 <= pixel_bytes depth <= 4.
Proof. unfold pixel_bytes. destruct (depth =? 16), (depth =? 24); lia. Qed.

Lemma pitch_pos m : mode_ok m -> 0 < fb_pitch m < 4294967296 /\ pixel_bytes (fb_bpp m) * fb_width m <= fb_pitch m.
Proof.
  intros []. pose proof (pixel_bytes_range (fb_bpp m)). nia.
Qed.

Lemma page_addr_eq m page : mode_ok m -> page = 0 \/ page = 1 ->
  page_addr m page = fb_addr m + page * fb_height m * fb_pitch m.
Proof.
  intros Hm Hp. pose proof (pitch_pos m Hm) as [? _]. destruct Hm. unfold page_addr.
  assert (Hh : u32 page = page) by (apply u32_small; unfold is_u32; lia). rewrite Hh.
  rewrite (u32_small (page * fb_height m)) by (unfold is_u32; destruct Hp; subst; lia).
  rewrite u32_small by (unfold is_u32; destruct Hp; subst; nia). lia.
Qed.

Lemma row_offset m y : mode_ok m -> 0 <= y < fb_height m -> u32 (y * fb_pitch m) = y * fb_pitch m.
Proof.
  intros Hm Hy. pose proof (pitch_pos m Hm) as [? _]. destruct Hm. apply u32_small. unfold is_u32. nia.
Qed.

(** ** One rectangle of the surface on one page

    [blit m s base x1 y1 x2 y2 r] is the memory after the copy. *)
Definition blit (m : MODE) (s : mem) (base x1 y1 x2 y2 : Z) (r : mem) : mem := fun i =>
  let row := (i - base) / fb_pitch m in
  let col := (i - base) mod fb_pitch m in
  let n := pixel_bytes (fb_bpp m) in
  if within y1 row (y2 + 1) && within (n * x1) col (n * (x2 + 1))
  then byte_of (col mod n) (encode (fb_bpp m) (s (row * fb_width m + col / n))) else r i.

Lemma blit_at m s page x1 y1 x2 y2 r page' x y k :
  mode_ok m -> page = 0 \/ page = 1 -> page' = 0 \/ page' = 1 ->
  0 <= y1 -> y2 < fb_height m ->
  on_screen m x y -> 0 <= k < pixel_bytes (fb_bpp m) ->
  blit m s (page_addr m page) x1 y1 x2 y2 r (pixel_addr m page' x y k)
  = if (page' =? page) && within x1 x (x2 + 1) && within y1 y (y2 + 1)
    then byte_of k (encode (fb_bpp m) (s (y * fb_width m + x))) else r (pixel_addr m page' x y k).
Proof.
  intros Hm Hp Hp' Hy1 Hy2 [Hx Hy] Hk. unfold blit. rewrite page_addr_eq by done.
  pose proof (pitch_pos m Hm) as [Hpitch Hn]. pose proof (pixel_bytes_range (fb_bpp m)).
  set (n := pixel_bytes (fb_bpp m)) in *.
  set (row := (page' - page) * fb_height m + y).
  assert (Hcol : 0 <= n * x + k < fb_pitch m) by nia.
  replace (pixel_addr m page' x y k - (fb_addr m + page * fb_height m * fb_pitch m))
    with ((n * x + k) + row * fb_pitch m) by (unfold pixel_addr, row; fold n; lia).
  rewrite Z.div_add, Z.mod_add, Z.div_small, Z.mod_small, Z.add_0_l by lia.
  replace ((n * x + k) mod n) with k
    by (rewrite Z.add_comm, Z.mul_comm, Z.mod_add, Z.mod_small by lia; done).
  replace ((n * x + k) / n) with x
    by (rewrite Z.add_comm, Z.mul_comm, Z.div_add, Z.div_small by lia; done).
  assert (Hc : within (n * x1) (n * x + k) (n * (x2 + 1)) = within x1 x (x2 + 1))
    by (apply eq_true_iff_eq; rewrite !within_true; nia).
  rewrite Hc. subst row. destruct (Z.eqb_spec page' page) as [->|Hne].
  - rewrite Z.sub_diag, Z.mul_0_l, Z.add_0_l, andb_true_l. by rewrite andb_comm.
  - assert (within y1 ((page' - page) * fb_height m + y) (y2 + 1) = false) as ->
      by (apply within_false; destruct Hp, Hp'; subst; lia).
    done.
Qed.

Lemma copy_words_spec dst src i n m j : is_u32 n ->
  copy_words dst src i n m j
  = if within dst j (dst + 4 * n) then byte_of ((j - dst) mod 4) (src (i + (j - dst) / 4)) else m j.
Proof.
  intros Hn. unfold copy_words. rewrite (u32_small n Hn).
  rewrite (row_write dst (fun k => byte_of (k mod 4) (src (i + k / 4)))).
  rewrite Z.add_0_r, (Z.mul_comm n 4). done.
Qed.

Lemma store_le_spec n p v m j :
  store_le n p v m j = if within p j (p + n) then byte_of (j - p) v else m j.
Proof. unfold store_le. rewrite (row_write p (fun k => byte_of k v)), Z.add_0_r. done. Qed.

(** A row of pixels stored one by one. *)
Lemma store_row n base x1 c (v : Z -> Z) m j : 0 < n ->
  for_range x1 c (fun x m => store_le n (base + n * x) (v x) m) m j
  = if within (base + n * x1) j (base + n * (x1 + c))
    then byte_of ((j - base) mod n) (v ((j - base) / n)) else m j.
Proof.
  intros Hn. rewrite (rows_write_div base n 0 n (fun x k => byte_of k (v x))); [|lia..|].
  - assert (within x1 ((j - base) / n) (x1 + c) && within 0 ((j - base) mod n) n
            = within (base + n * x1) j (base + n * (x1 + c))) as ->; [|done].
    pose proof (Z.div_mod (j - base) n ltac:(lia)). pose proof (Z.mod_pos_bound (j - base) n Hn).
    apply eq_true_iff_eq. rewrite andb_true_iff, !within_true. nia.
  - intros x m' i _. rewrite store_le_spec, (Z.mul_comm n x), Z.add_0_r.
    destruct (within _ _ _); [f_equal; lia | done].
Qed.

Definition rect_ok (m : MODE) (x1 y1 x2 y2 : Z) : Prop :=
  0 <= x1 <= x2 /\ x2 < fb_width m /\ 0 <= y1 <= y2 /\ y2 < fb_height m.

Lemma set_ram_id st : set_ram st (ram st) = st.
Proof. by destruct st. Qed.

Lemma present_words_blit base x1 y1 x2 y2 st :
  mode_ok (mode st) -> fb_bpp (mode st) = 32 -> rect_ok (mode st) x1 y1 x2 y2 ->
  exists r, present_words base x1 y1 x2 y2 st = set_ram st r /\
    forall i, r i = blit (mode st) (surface (surf st)) base x1 y1 x2 y2 (ram st) i.
Proof.
  intros Hm Hb (Hx & Hx2 & Hy & Hy2). unfold present_words.
  rewrite (for_range_lift (set_ram st) _ _ _ (fun y r =>
    copy_words (base + u32 (y * fb_pitch (mode st)) + x1 * 4) (surface (surf st))
      (y * fb_width (mode st) + x1) (u32 (x2 - x1 + 1)) r) (ram st)) by (done || by rewrite set_ram_id).
  eexists. split; [done|]. intros i. pose proof (pitch_pos _ Hm) as [? Hn].
  unfold blit. rewrite Hb in *. change (pixel_bytes 32) with 4 in *. change (encode 32) with (fun rgb : Z => rgb).
  rewrite (rows_write_div base (fb_pitch (mode st)) (4 * x1) (4 * (x2 + 1))
    (fun y c => byte_of (c mod 4) (surface (surf st) (y * fb_width (mode st) + c / 4)))); [|lia..|].
  - replace (y1 + (y2 - y1 + 1)) with (y2 + 1) by lia. done.
  - intros y r j Hyr. destruct Hm.
    rewrite copy_words_spec, row_offset by (apply u32_range || split; try done; lia).
    rewrite (u32_small (x2 - x1 + 1)) by (unfold is_u32; lia).
    assert (within (base + y * fb_pitch (mode st) + x1 * 4) j (base + y * fb_pitch (mode st) + x1 * 4 + 4 * (x2 - x1 + 1))
      = within (base + y * fb_pitch (mode st) + 4 * x1) j (base + y * fb_pitch (mode st) + 4 * (x2 + 1))) as ->
      by (apply eq_true_iff_eq; rewrite !within_true; lia).
    destruct (within _ _ _); [|done]. set (c := j - base - y * fb_pitch (mode st)).
    replace (j - (base + y * fb_pitch (mode st) + x1 * 4)) with (c + (- x1) * 4) by lia.
    rewrite Z.mod_add, Z.div_add by lia. do 2 f_equal. lia.
Qed.

Lemma present_pixels_blit x1 y1 x2 y2 st :
  mode_ok (mode st) -> fb_bpp (mode st) <> 32 -> rect_ok (mode st) x1 y1 x2 y2 ->
  exists r, present_pixels x1 y1 x2 y2 st = set_ram st r /\
    forall i, r i = blit (mode st) (surface (surf st)) (fb_present_addr (mode st)) x1 y1 x2 y2 (ram st) i.
Proof.
  intros Hm Hb (Hx & Hx2 & Hy & Hy2). unfold present_pixels.
  set (m := mode st) in *. set (n := pixel_bytes (fb_bpp m)).
  set (pix := fun y x => hw_pixel (fb_bpp m) (surface (surf st) (y * fb_width m + x))).
  rewrite (for_range_lift (set_ram st) _ _ _ (fun y r =>
    for_range x1 (x2 - x1 + 1) (fun x r =>
      store_le n (fb_present_addr m + u32 (y * fb_pitch m) + n * x) (pix y x) r) r) (ram st)); [| by rewrite set_ram_id |].
  2:{ intros y r Hyr. apply for_range_lift; [done|]. intros x r' Hxr. unfold fb_write_hw_rgb. cbn. fold m. destruct Hm.
      rewrite (proj2 (Z.eqb_neq _ _)), !(proj2 (Z.ltb_ge _ _)), !(proj2 (Z.leb_gt _ _)) by lia. done. }
  eexists. split; [done|]. intros i. pose proof (pitch_pos _ Hm) as [? Hn].
  pose proof (pixel_bytes_range (fb_bpp m)) as Hnr. fold n in Hn, Hnr. unfold blit. fold n.
  rewrite (rows_write_div (fb_present_addr m) (fb_pitch m) (n * x1) (n * (x2 + 1))
    (fun y c => byte_of (c mod n) (pix y (c / n)))); [|nia..|].
  - replace (y1 + (y2 - y1 + 1)) with (y2 + 1) by lia. unfold pix, encode.
    rewrite (proj2 (Z.eqb_neq _ _) Hb). done.
  - intros y r j Hyr. rewrite store_row, row_offset by (done || lia).
    replace (x1 + (x2 - x1 + 1)) with (x2 + 1) by lia.
    rewrite Z.sub_add_distr. done.
Qed.

(** [st'] is [st] with one rectangle of the surface copied to [page]. *)
Definition painted st st' (page x1 y1 x2 y2 : Z) : Prop :=
  exists r, st' = set_ram st r /\
  forall page' x y k, page' = 0 \/ page' = 1 -> on_screen (mode st) x y -> 0 <= k < pixel_bytes (fb_bpp (mode st)) ->
  r (pixel_addr (mode st) page' x y k)
  = if (page' =? page) && within x1 x (x2 + 1) && within y1 y (y2 + 1)
    then byte_of k (encode (fb_bpp (mode st)) (surface (surf st) (y * fb_width (mode st) + x)))
    else ram st (pixel_addr (mode st) page' x y k).

Lemma painted_shows st st' page x1 y1 x2 y2 page' x y :
  painted st st' page x1 y1 x2 y2 -> page' = 0 \/ page' = 1 -> on_screen (mode st) x y ->
  ((page' = page /\ x1 <= x <= x2 /\ y1 <= y <= y2) \/ shows st page' x y) -> shows st' page' x y.
Proof.
  intros (r & -> & Hr) Hp Hxy Hc k Hk. cbn in *. rewrite Hr by done.
  destruct ((page' =? page) && within x1 x (x2 + 1) && within y1 y (y2 + 1)) eqn:E; [done|].
  destruct Hc as [(-> & Hx & Hy) | Hs]; [|by apply Hs].
  rewrite Z.eqb_refl, !(proj2 (within_true _ _ _)) in E by lia. done.
Qed.

Definition copy_rect (page x1 y1 x2 y2 : Z) st : fb D H :=
  if fb_bpp (mode st) =? 32 then present_words (page_addr (mode st) page) x1 y1 x2 y2 st
  else present_pixels x1 y1 x2 y2 st.

Lemma copy_rect_painted page x1 y1 x2 y2 st :
  mode_ok (mode st) -> page = 0 \/ page = 1 -> rect_ok (mode st) x1 y1 x2 y2 ->
  fb_bpp (mode st) = 32 \/ fb_present_addr (mode st) = page_addr (mode st) page ->
  painted st (copy_rect page x1 y1 x2 y2 st) page x1 y1 x2 y2.
Proof.
  intros Hm Hp Hr Hpres. unfold copy_rect.
  assert (exists r, (if fb_bpp (mode st) =? 32 then present_words (page_addr (mode st) page) x1 y1 x2 y2 st
      else present_pixels x1 y1 x2 y2 st) = set_ram st r /\
    forall i, r i = blit (mode st) (surface (surf st)) (page_addr (mode st) page) x1 y1 x2 y2 (ram st) i)
    as (r & -> & Hri).
  { destruct (Z.eqb_spec (fb_bpp (mode st)) 32) as [Hb|Hb]; [by apply present_words_blit|].
    destruct Hpres as [|Hpres]; [done|]. rewrite <- Hpres. by apply present_pixels_blit. }
  exists r. split; [done|]. intros page' x y k Hp' Hxy Hk. rewrite Hri.
  destruct Hr as (_ & _ & ? & ?). apply blit_at; try done; lia.
Qed.

(** ** Both pages filled *)
Lemma init_row_words page row st :
  mode_ok (mode st) -> fb_bpp (mode st) = 32 -> page = 0 \/ page = 1 -> 0 <= row < fb_height (mode st) ->
  painted st (set_ram st (copy_words (fb_addr (mode st) + page * fb_height (mode st) * fb_pitch (mode st)
     + u32 (row * fb_pitch (mode st))) (surface (surf st)) (row * fb_width (mode st)) (fb_width (mode st)) (ram st)))
   page 0 row (fb_width (mode st) - 1) row.
Proof.
  intros Hm Hb Hp Hrow.
  pose proof (copy_rect_painted page 0 row (fb_width (mode st) - 1) row st Hm Hp) as Hc.
  unfold copy_rect in Hc. rewrite Hb, Z.eqb_refl in Hc. unfold present_words in Hc.
  replace (row - row + 1) with 1 in Hc by lia. rewrite for_range_cons, for_range_nil in Hc by lia.
  rewrite page_addr_eq in Hc by done.
  replace (fb_width (mode st) - 1 - 0 + 1) with (fb_width (mode st)) in Hc by lia.
  rewrite Z.mul_0_l, !Z.add_0_r, (u32_small (fb_width _)) in Hc by (destruct Hm; unfold is_u32; lia).
  apply Hc; [|by left]. destruct Hm. unfold rect_ok. lia.
Qed.

Definition both_show st (rows : Z) : Prop :=
  forall page x y, page = 0 \/ page = 1 -> on_screen (mode st) x y -> y < rows -> shows st page x y.

Lemma painted_row st st' page row :
  painted st st' page 0 row (fb_width (mode st) - 1) row -> page = 0 \/ page = 1 ->
  both_show st row ->
  (forall x y, on_screen (mode st) x y -> y < row + 1 -> shows st' page x y) /\
  (forall page' x y, page' = 0 \/ page' = 1 -> on_screen (mode st) x y -> shows st page' x y -> shows st' page' x y).
Proof.
  intros Hpt Hp Hb. split.
  - intros x y Hxy Hy. apply (painted_shows st st' page 0 row (fb_width (mode st) - 1) row); [done..|].
    destruct Hxy. destruct (Z.eq_dec y row) as [->|]; [left; lia | right; apply Hb; [done | by split | lia]].
  - intros page' x y Hp' Hxy Hs. eapply painted_shows; [done..|]. by right.
Qed.

Lemma init_pages_words target st :
  mode_ok (mode st) -> fb_bpp (mode st) = 32 -> bga_pages_initialized (flip st) = false ->
  exists r, init_pages target st =
      set_flip (set_ram st r) (mkFlip (bga_page_flip (flip st)) (bga_display_page (flip st)) true) /\
    both_show (set_ram st r) (fb_height (mode st)).
Proof.
  intros Hm Hb Hi. unfold init_pages. rewrite Hi, Hb, Z.eqb_refl.
  set (loop := for_range _ _ _ st).
  assert (Hl : exists r, loop = set_ram st r /\ both_show (set_ram st r) (0 + Z.max 0 (fb_height (mode st)))).
  { apply (for_range_rule (fun rows st' => exists r, st' = set_ram st r /\ both_show (set_ram st r) rows)).
    - exists (ram st). split; [by rewrite set_ram_id|]. intros page x y _ [_ ?]. lia.
    - intros row st' Hrow (r & -> & Hbs). cbn [mode surf ram set_ram].
      set (s0 := set_ram st r) in *.
      pose proof (init_row_words 0 row s0 Hm Hb (or_introl eq_refl) ltac:(cbn; lia)) as P0.
      cbn in P0. rewrite Z.add_0_r in P0.
      set (s1 := set_ram s0 _) in P0.
      pose proof (init_row_words 1 row s1 Hm Hb (or_intror eq_refl) ltac:(cbn; lia)) as P1.
      destruct (painted_row _ _ _ _ P0 (or_introl eq_refl) Hbs) as [Hn0 Hk0].
      assert (Hbs1 : both_show s1 row) by (intros p x y Hp Hxy Hy; apply Hk0, Hbs; done).
      destruct (painted_row _ _ _ _ P1 (or_intror eq_refl) Hbs1) as [Hn1 Hk1].
      assert (Hoff : u32 (fb_height (mode st) * fb_pitch (mode st)) = 1 * fb_height (mode st) * fb_pitch (mode st)).
      { pose proof (pitch_pos _ Hm). destruct Hm. rewrite u32_small by (unfold is_u32; nia). lia. }
      eexists. split; [reflexivity|]. rewrite Hoff.
      intros page x y [-> | ->] Hxy Hy.
      + apply Hk1; [by left | done |]. by apply Hn0.
      + by apply Hn1. }
  destruct Hl as (r & -> & Hbs). exists r. split; [done|].
  destruct Hm. by rewrite Z.add_0_l, Z.max_r in Hbs by lia.
Qed.

Lemma mode_ok_present m p : mode_ok m -> mode_ok (with_present m p).
Proof. by intros []; split. Qed.

Lemma init_pages_spec target st :
  mode_ok (mode st) -> fb_present_addr (mode st) = target -> bga_pages_initialized (flip st) = false ->
  exists r, init_pages target st =
      set_flip (set_ram st r) (mkFlip (bga_page_flip (flip st)) (bga_display_page (flip st)) true) /\
    both_show (set_ram st r) (fb_height (mode st)).
Proof.
  intros Hm Ht Hi. destruct (Z.eq_dec (fb_bpp (mode st)) 32) as [Hb|Hb]; [by apply init_pages_words|].
  unfold init_pages. rewrite Hi, (proj2 (Z.eqb_neq _ _) Hb). set (m := mode st) in *.
  assert (Hr : rect_ok m 0 0 (fb_width m - 1) (fb_height m - 1)) by (destruct Hm; unfold rect_ok; lia).
  set (s0 := set_present (page_addr m 0) st).
  pose proof (copy_rect_painted 0 0 0 (fb_width m - 1) (fb_height m - 1) s0
    (mode_ok_present _ _ Hm) (or_introl eq_refl) Hr (or_intror eq_refl)) as P0.
  unfold copy_rect in P0. cbn [mode s0 set_present set_mode with_present fb_bpp] in P0.
  fold m in P0. rewrite (proj2 (Z.eqb_neq _ _) Hb) in P0.
  destruct P0 as (r0 & E0 & H0').
  cbn [s0 set_present set_mode mode with_present fb_width fb_height] in E0. fold m in E0.
  fold s0. rewrite E0. set (s1 := set_present (page_addr m 1) (set_ram s0 r0)).
  pose proof (copy_rect_painted 1 0 0 (fb_width m - 1) (fb_height m - 1) s1
    (mode_ok_present _ _ (mode_ok_present _ _ Hm)) (or_intror eq_refl) Hr (or_intror eq_refl)) as P1.
  unfold copy_rect in P1. cbn [mode s1 s0 set_present set_mode set_ram with_present fb_bpp] in P1.
  fold m in P1. rewrite (proj2 (Z.eqb_neq _ _) Hb) in P1. destruct P1 as (r1 & E1 & H1').
  fold s1. rewrite E1. exists r1. split.
  - unfold s1, s0. destruct st as [[] ? ? ? ? [] ? ? ?]. cbn in *. by subst.
  - intros page x y Hp Hxy Hy k Hk. cbn [mode set_ram ram surf]. fold m.
    destruct Hxy as [Hx Hy'].
    etransitivity; [apply (H1' page x y k); done|]. cbn [mode s1 s0 set_present set_mode set_ram with_present surf ram].
    assert (within 0 x (fb_width m - 1 + 1) = true) as -> by (apply within_true; cbn in Hx; unfold m; lia).
    assert (within 0 y (fb_height m - 1 + 1) = true) as -> by (apply within_true; cbn in Hy'; unfold m; lia).
    destruct (Z.eqb_spec page 1) as [->|Hne]; [done|]. cbn [andb].
    assert (page = 0) as -> by lia.
    etransitivity; [apply (H0' 0 x y k); done|]. cbn [mode s0 set_present set_mode with_present surf ram].
    assert (within 0 x (fb_width m - 1 + 1) = true) as -> by (apply within_true; cbn in Hx; unfold m; lia).
    assert (within 0 y (fb_height m - 1 + 1) = true) as -> by (apply within_true; cbn in Hy'; unfold m; lia).
    done.
Qed.

Definition flipped st : Z := Z.lxor (bga_display_page (flip st)) 1.

Lemma flipped_page st : bga_display_page (flip st) = 0 \/ bga_display_page (flip st) = 1 ->
  flipped st = 1 - bga_display_page (flip st) /\ (flipped st = 0 \/ flipped st = 1).
Proof. unfold flipped. intros [-> | ->]; (split; [done | (by left) || (by right)]). Qed.

(** After [init_pages] both pages are live and show what is not dirty. *)
Lemma init_pages_coherent target st :
  screen_ok st -> coherent st -> bga_page_flip (flip st) = true -> fb_present_addr (mode st) = target ->
  exists r, init_pages target st = set_flip (set_ram st r) (mkFlip true (bga_display_page (flip st)) true) /\
    forall page x y, page = 0 \/ page = 1 -> on_screen (mode st) x y -> in_dirty (dirt st) x y = false ->
      shows (set_ram st r) page x y.
Proof.
  intros Hok [_ Hco] Hf Ht. destruct (bga_pages_initialized (flip st)) eqn:Hi.
  - exists (ram st). unfold init_pages. rewrite Hi, set_ram_id. split.
    + destruct st as [? ? ? ? ? [] ? ? ?]. cbn in *. by subst.
    + intros page x y Hp Hxy Hd. apply Hco; [|done..]. unfold live_page. by rewrite Hf, Hi.
  - destruct (init_pages_spec target st (so_mode _ Hok) Ht Hi) as (r & -> & Hb). exists r.
    rewrite Hf. split; [done|]. intros page x y Hp Hxy _. apply Hb; [done..|]. apply Hxy.
Qed.

Lemma set_present_twice p q st : set_present p (set_present q st) = set_present p st.
Proof. done. Qed.

Lemma screen_ok_present p st : screen_ok st -> bga_page_flip (flip st) = true -> screen_ok (set_present p st).
Proof.
  intros [] Hf. split; cbn; try done; [by apply mode_ok_present|]. by rewrite Hf.
Qed.

Lemma in_dirty_rect d x y :
  dirty_valid d = true -> in_dirty d x y = false \/ (dirty_x1 d <= x <= dirty_x2 d /\ dirty_y1 d <= y <= dirty_y2 d).
Proof. intros Hd. unfold in_dirty. rewrite Hd. range_cases; cbn; (by left) || (right; lia). Qed.

Lemma swap_flip_spec st :
  screen_ok st -> coherent st -> bga_page_flip (flip st) = true -> dirty_valid (dirt st) = true ->
  exists r, swap_flip a st =
    mkFb (with_present (mode st) (page_addr (mode st) (flipped st))) (surf st) (clip st) (dirt st) (svga st)
      (mkFlip true (flipped st) true) r
      (snd (bga_write a 9 (flipped st * fb_height (mode st)) (snd (bga_write a 8 0 (dev st))))) (heap st) /\
    forall page x y, page = 0 \/ page = 1 -> on_screen (mode st) x y -> shows (set_ram st r) page x y.
Proof.
  intros Hok Hco Hf Hd. pose proof (so_dirty _ Hok Hd) as Hr.
  destruct (flipped_page st (so_page _ Hok)) as [Hfl Htp].
  unfold swap_flip. fold (flipped st).
  set (st0 := if fb_present_addr (mode st) =? 0 then _ else st).
  assert (Hpg : forall p, page_addr (mode st0) p = page_addr (mode st) p) by (unfold st0; destruct (_ =? _); done).
  assert (Hst0 : set_present (page_addr (mode st) (flipped st)) st0 = set_present (page_addr (mode st) (flipped st)) st)
    by (unfold st0; destruct (_ =? _); done).
  assert (Hfl0 : Z.lxor (bga_display_page (flip st0)) 1 = flipped st /\ flip st0 = flip st)
    by (unfold st0; destruct (_ =? _); done).
  destruct Hfl0 as [-> ->]. rewrite !Hpg, Hst0. clearbody st0. clear Hst0 Hpg.
  set (target := page_addr (mode st) (flipped st)). set (st1 := set_present target st).
  assert (Hok1 : screen_ok st1) by (by apply screen_ok_present).
  destruct (init_pages_coherent target st1 Hok1 Hco Hf eq_refl) as (r1 & -> & Hs1).
  set (st2 := set_flip (set_ram st1 r1) _).
  pose proof (copy_rect_painted (flipped st) (dirty_x1 (dirt st)) (dirty_y1 (dirt st)) (dirty_x2 (dirt st)) (dirty_y2 (dirt st))
    st2 (so_mode _ Hok1) Htp Hr (or_intror eq_refl)) as P2.
  unfold copy_rect in P2. change (page_addr (mode st2) (flipped st)) with target in P2.
  destruct P2 as (r2 & -> & P2).
  assert (Hs2 : forall page x y, page = 0 \/ page = 1 -> on_screen (mode st) x y ->
    page = flipped st \/ in_dirty (dirt st) x y = false -> shows (set_ram st2 r2) page x y).
  { intros page x y Hp Hxy Hc. apply (painted_shows st2 _ (flipped st) (dirty_x1 (dirt st)) (dirty_y1 (dirt st))
      (dirty_x2 (dirt st)) (dirty_y2 (dirt st))); [by exists r2 | done | done |].
    destruct (in_dirty_rect (dirt st) x y Hd) as [Hn | Hin]; [right; by apply (Hs1 page)|].
    destruct Hc as [-> | Hn]; [left; lia | right; by apply (Hs1 page)]. }
  clear P2 Hs1. cbn [set_dev set_flip set_ram st2 st1 set_present set_mode with_present
    mode surf clip dirt svga flip ram dev heap fb_bpp fb_height bga_page_flip bga_pages_initialized].
  set (st3 := mkFb (with_present (mode st) target) (surf st) (clip st) (dirt st) (svga st) (mkFlip true (flipped st) true)
    r2 (snd (bga_write a 9 (flipped st * fb_height (mode st)) (snd (bga_write a 8 0 (dev st))))) (heap st)).
  match goal with |- context [set_flip ?x ?y] => change (set_flip x y) with st3 end.
  set (old := bga_display_page (flip st)).
  pose proof (copy_rect_painted old (dirty_x1 (dirt st)) (dirty_y1 (dirt st)) (dirty_x2 (dirt st)) (dirty_y2 (dirt st))
    (if fb_bpp (mode st) =? 32 then st3 else set_present (page_addr (mode st) old) st3)) as P3.
  assert (Hs3 : forall page x y, page = 0 \/ page = 1 -> on_screen (mode st) x y ->
    page = old \/ in_dirty (dirt st) x y = false \/ page = flipped st).
  { intros page x y Hp _. unfold old. destruct Hp, (so_page _ Hok); lia. }
  destruct (Z.eqb_spec (fb_bpp (mode st)) 32) as [Hb|Hb].
  - specialize (P3 (so_mode _ Hok1) (so_page _ Hok) Hr (or_introl Hb)).
    unfold copy_rect in P3. cbn [mode st3 with_present fb_bpp] in P3. rewrite Hb in P3. cbn [Z.eqb Pos.eqb] in P3.
    change (page_addr _ old) with (page_addr (mode st) old) in P3.
    pose proof P3 as (r3 & E & _). rewrite E in P3 |- *. exists r3. split; [done|].
    intros page x y Hp Hxy.
    refine (painted_shows st3 (set_ram st3 r3) old _ _ _ _ page x y P3 Hp Hxy _).
    destruct (in_dirty_rect (dirt st) x y Hd) as [Hn | Hin]; [right; apply (Hs2 page x y); auto|].
    destruct (Hs3 page x y Hp Hxy) as [-> | [Hn | Hn]]; [left; lia | right; apply (Hs2 page x y); auto..].
  - specialize (P3 (mode_ok_present _ _ (so_mode _ Hok1)) (so_page _ Hok) Hr (or_intror eq_refl)).
    unfold copy_rect in P3. cbn [mode st3 set_present set_mode with_present fb_bpp] in P3.
    rewrite (proj2 (Z.eqb_neq _ _) Hb) in P3.
    pose proof P3 as (r3 & E & _). fold st3 in E, P3. rewrite E in P3 |- *. exists r3. split; [done|].
    intros page x y Hp Hxy.
    refine (painted_shows (set_present (page_addr (mode st) old) st3) _ old _ _ _ _ page x y P3 Hp Hxy _).
    destruct (in_dirty_rect (dirt st) x y Hd) as [Hn | Hin]; [right; apply (Hs2 page x y); auto|].
    destruct (Hs3 page x y Hp Hxy) as [-> | [Hn | Hn]]; [left; lia | right; apply (Hs2 page x y); auto..].
Qed.

Lemma svga_idle x y w h st : svga_active (svga st) = false -> svga_update x y w h st = st.
Proof. intros E. unfold svga_update. by rewrite E. Qed.

(** A state all of whose live pages show the surface, with nothing dirty. *)
Lemma presented_coherent st :
  dirty_valid (dirt st) = false ->
  (bga_page_flip (flip st) = true -> bga_pages_initialized (flip st) = true) ->
  (forall page x y, live_page st page -> on_screen (mode st) x y -> shows st page x y) -> coherent st.
Proof. intros Hd Hi Hs. split; [intros Hf Hn; rewrite Hi in Hn; done | intros; by apply Hs]. Qed.

Lemma display_live st : screen_ok st ->
  (bga_page_flip (flip st) = true -> bga_pages_initialized (flip st) = true) ->
  live_page st (bga_display_page (flip st)).
Proof.
  intros [] Hi. unfold live_page. destruct (bga_page_flip (flip st)); [split; [by apply Hi | done] |].
  by apply so_flip0.
Qed.

Record swap_result st st' : Prop := {
  sr_ok : screen_ok st';
  sr_coherent : coherent st';
  sr_surf : surf st' = surf st;
  sr_clip : clip st' = clip st;
  sr_mode : mode st' = with_present (mode st) (fb_present_addr (mode st'));
  sr_clean : dirty_valid (dirt st') = false;
  sr_flip : bga_page_flip (flip st') = bga_page_flip (flip st);
  sr_dev : bga_page_flip (flip st) = true -> dirty_valid (dirt st) = true ->
    dev st' = snd (bga_write a 9 (bga_display_page (flip st') * fb_height (mode st)) (snd (bga_write a 8 0 (dev st))));
  sr_shown : forall x y, on_screen (mode st) x y -> shows st' (bga_display_page (flip st')) x y
}.

Lemma with_present_id m : with_present m (fb_present_addr m) = m.
Proof. by destruct m. Qed.

Lemma swap_spec st : screen_ok st -> coherent st -> swap_result st (FbSwapBuffers a st).
Proof.
  intros Hok Hco. pose proof Hok as [Hm Hdok Har Hpg Hfl Hsv Hcl]. unfold FbSwapBuffers.
  rewrite (mo_use _ Hm), (proj2 (Z.eqb_neq _ _) (proj2 Har)). cbn [orb].
  destruct (dirty_valid (dirt st)) eqn:Hd; cbn [negb].
  2:{ assert (Hi : bga_page_flip (flip st) = true -> bga_pages_initialized (flip st) = true).
      { intros Hf. destruct (bga_pages_initialized _) eqn:Hi; [done|]. destruct Hco as [Hc _].
        rewrite Hc in Hd by done. done. }
      split; try done; [by rewrite with_present_id | by rewrite Hd |]. intros x y Hxy. destruct Hco as [_ Hs].
      apply Hs; [by apply display_live | done |]. unfold in_dirty. by rewrite Hd. }
  destruct (bga_page_flip (flip st)) eqn:Hf.
  - destruct (swap_flip_spec st Hok Hco Hf Hd) as (r & -> & Hs). rewrite svga_idle by done.
    destruct (flipped_page st Hpg) as [_ Htp].
    split; cbn; try done.
    + split; cbn; try done; by apply mode_ok_present.
    + apply presented_coherent; [done..|]. cbn. intros page x y [_ Hp] Hxy. by apply (Hs page).
    + intros x y Hxy. by apply (Hs (flipped st)).
  - destruct (Hfl eq_refl) as [Hp0 Hpr].
    assert (Hp32 : fb_bpp (mode st) = 32 \/ fb_present_addr (mode st) = page_addr (mode st) 0).
    { destruct Hpr as [|Hpr]; [by left | right]. rewrite Hpr, page_addr_eq by (done || by left). lia. }
    pose proof (copy_rect_painted 0 (dirty_x1 (dirt st)) (dirty_y1 (dirt st)) (dirty_x2 (dirt st)) (dirty_y2 (dirt st))
      st Hm (or_introl eq_refl) (Hdok Hd) Hp32) as P.
    unfold copy_rect in P. rewrite page_addr_eq in P by (done || by left).
    replace (fb_addr (mode st) + 0 * fb_height (mode st) * fb_pitch (mode st)) with (fb_addr (mode st)) in P by lia.
    pose proof P as (r & E & _). rewrite E in P |- *. rewrite svga_idle by done.
    assert (Hs : forall x y, on_screen (mode st) x y -> shows (set_ram st r) 0 x y).
    { intros x y Hxy. apply (painted_shows _ _ _ _ _ _ _ 0 x y P); [by left | done|].
      destruct (in_dirty_rect (dirt st) x y Hd) as [Hn | Hin]; [right | left; lia].
      destruct Hco as [_ Hc]. apply Hc; [|done..]. unfold live_page. by rewrite Hf. }
    split; cbn; try done.
    + apply presented_coherent; cbn; [done | by rewrite Hf |]. intros page x y Hl Hxy.
      unfold live_page in Hl. cbn in Hl. rewrite Hf in Hl. subst. by apply Hs.
    + by rewrite with_present_id.
    + by rewrite Hf.
    + intros x y Hxy. rewrite Hp0. by apply Hs.
Qed.

(** ** Drawing *)
Definition small_rect (x y w h : Z) : Prop := small x /\ small y /\ small w /\ small h.

Lemma mark_dirty_spec x y w h st :
  small_rect x y w h -> mode_ok (mode st) -> dirty_ok (mode st) (dirt st) ->
  exists d, fb_mark_dirty x y w h st = set_dirt st d /\ dirty_ok (mode st) d /\
    (dirty_valid (dirt st) = true -> dirty_valid d = true) /\
    forall px py, on_screen (mode st) px py ->
      in_dirty (dirt st) px py = true \/ (x <= px < x + w /\ y <= py < y + h) -> in_dirty d px py = true.
Proof.
  intros (Sx & Sy & Sw & Sh) Hm Hd. unfold fb_mark_dirty. rewrite (mo_use _ Hm). cbn [negb]. set (m := mode st) in *.
  unfold small in *. rewrite (s32_small (w + x)), (s32_small (h + y)) by lia. pose proof (mo_width _ Hm). pose proof (mo_height _ Hm).
  assert (Hid : exists d, st = set_dirt st d /\ d = dirt st) by (exists (dirt st); by destruct st).
  assert (Hskip : (forall px py, on_screen m px py -> ~ (x <= px < x + w /\ y <= py < y + h)) ->
    exists d, st = set_dirt st d /\ dirty_ok m d /\ (dirty_valid (dirt st) = true -> dirty_valid d = true) /\
    forall px py, on_screen m px py ->
      in_dirty (dirt st) px py = true \/ (x <= px < x + w /\ y <= py < y + h) -> in_dirty d px py = true).
  { intros Hno. destruct Hid as (d & E & ->). exists (dirt st). split; [done|]. split; [done|]. split; [done|].
    intros px py Hxy [|Hc]; [done|]. by destruct (Hno px py Hxy). }
  clear Hid. set (xx := if x <? 0 then (w + x, 0) else (w, x)). set (yy := if y <? 0 then (h + y, 0) else (h, y)).
  assert (Hxx : snd xx = Z.max x 0 /\ fst xx + snd xx = x + w) by (unfold xx; zbool; cbn; lia).
  assert (Hyy : snd yy = Z.max y 0 /\ fst yy + snd yy = y + h) by (unfold yy; zbool; cbn; lia).
  destruct xx as [w' x'], yy as [h' y']. cbn in Hxx, Hyy. destruct Hxx as [Ex Ew], Hyy as [Ey Eh].
  destruct (_ || _) eqn:E1.
  { rewrite !orb_true_iff, !Z.leb_le in E1. apply Hskip. intros px py [Hx Hy]. lia. }
  rewrite !orb_false_iff, !Z.leb_gt in E1.
  rewrite (s32_small (x' + w')), (s32_small (y' + h')) by lia.
  set (w2 := if fb_width m <? x' + w' then fb_width m - x' else w').
  set (h2 := if fb_height m <? y' + h' then fb_height m - y' else h').
  assert (Hw2 : x' + w2 = Z.min (x + w) (fb_width m)) by (unfold w2; zbool; lia).
  assert (Hh2 : y' + h2 = Z.min (y + h) (fb_height m)) by (unfold h2; zbool; lia).
  clearbody w2 h2. clear Hskip.
  assert (Hpos : 0 < w2 /\ 0 < h2) by lia.
  assert ((w2 <=? 0) || (h2 <=? 0) = false) as -> by (rewrite orb_false_iff, !Z.leb_gt; lia).
  rewrite (s32_small (x' + w2 - 1)), (s32_small (y' + h2 - 1)) by lia.
  unfold dirty_ok in *. destruct (dirty_valid (dirt st)) eqn:Hv; cbn [negb].
  - specialize (Hd eq_refl). eexists. split; [reflexivity|]. cbn [dirty_valid dirty_x1 dirty_y1 dirty_x2 dirty_y2].
    split; [intros _; zbool; lia|]. split; [done|]. intros px py [Hx Hy] Hc. unfold in_dirty in *. cbn.
    rewrite Hv in Hc. rewrite !andb_true_iff, !within_true in *. zbool; lia.
  - eexists. split; [reflexivity|]. cbn [dirty_valid dirty_x1 dirty_y1 dirty_x2 dirty_y2].
    split; [intros _; lia|]. split; [done|]. intros px py [Hx Hy] Hc. unfold in_dirty in *. cbn.
    rewrite Hv in Hc. destruct Hc as [|Hc]; [done|]. rewrite !andb_true_iff, !within_true. lia.
Qed.

(** What every drawing operation keeps. *)
Record drawn st st' : Prop := {
  dr_ok : screen_ok st';
  dr_coherent : coherent st';
  dr_mode : mode st' = mode st;
  dr_flip : flip st' = flip st
}.

Lemma drawn_refl st : screen_ok st -> coherent st -> drawn st st.
Proof. by split. Qed.

Lemma drawn_trans st1 st2 st3 : drawn st1 st2 -> drawn st2 st3 -> drawn st1 st3.
Proof. intros [_ _ E F] [? ? E' F']. split; [done.. | by rewrite E' | by rewrite F']. Qed.

(** The arrays change inside a rectangle that is then marked dirty. *)
Lemma draw_marked x y w h sh sf st :
  small_rect x y w h -> screen_ok st -> coherent st ->
  (forall px py, on_screen (mode st) px py -> ~ (x <= px < x + w /\ y <= py < y + h) ->
     sf (py * fb_width (mode st) + px) = surface (surf st) (py * fb_width (mode st) + px)) ->
  drawn st (fb_mark_dirty x y w h (set_surf st (with_arrays (surf st) sh sf))).
Proof.
  intros Hsm Hok Hco Hsf. set (st1 := set_surf st _).
  destruct (mark_dirty_spec x y w h st1 Hsm (so_mode _ Hok) (so_dirty _ Hok)) as (d & -> & Hd & Hv & Hin).
  destruct Hok as [Hm ? ? ? ? ? ?]. split; [by split | | done | done]. destruct Hco as [Hc Hs]. split.
  - intros Hf Hi. cbn in *. apply Hv, Hc; done.
  - intros page px py Hl Hxy Hnd. cbn in Hnd, Hxy.
    assert (Hnd0 : in_dirty (dirt st) px py = false).
    { destruct (in_dirty (dirt st) px py) eqn:E; [|done]. rewrite (Hin px py Hxy) in Hnd by (by left). done. }
    intros k Hk. cbn. rewrite Hsf; [by apply (Hs page px py)|done|].
    intros Hr. rewrite (Hin px py Hxy) in Hnd by (by right). done.
Qed.

Lemma upd_other (m : mem) W x y v px py :
  0 <= x < W -> 0 <= px < W -> ~ (x <= px < x + 1 /\ y <= py < y + 1) ->
  upd m (y * W + x) v (py * W + px) = m (py * W + px).
Proof.
  intros Hx Hpx Hne. unfold upd. destruct (Z.eqb_spec (py * W + px) (y * W + x)) as [E|]; [|done].
  exfalso. apply Hne. assert (py = y) as ->; [|lia].
  apply (f_equal (fun z => z / W)) in E. rewrite !Z.div_add_l, !Z.div_small in E by lia. lia.
Qed.

Lemma FbPutPixel_drawn x y color st : screen_ok st -> coherent st -> drawn st (FbPutPixel x y color st).
Proof.
  intros Hok Hco. unfold FbPutPixel. rewrite (mo_use _ (so_mode _ Hok)).
  destruct (_ || _) eqn:E; [by apply drawn_refl|]. rewrite !orb_false_iff, !Z.leb_gt, !Z.ltb_ge in E.
  destruct (_ && _); [by apply drawn_refl|].
  apply draw_marked; [destruct (so_mode _ Hok); unfold small_rect, small; lia | done..|]. intros px py [? ?] Hn. apply upd_other; lia.
Qed.

Lemma FbPutPixelRGB_drawn x y rgb st : screen_ok st -> coherent st -> drawn st (FbPutPixelRGB x y rgb st).
Proof.
  intros Hok Hco. unfold FbPutPixelRGB. rewrite (mo_use _ (so_mode _ Hok)). cbn [negb].
  destruct (_ || _) eqn:E; [by apply drawn_refl|]. rewrite !orb_false_iff, !Z.leb_gt, !Z.ltb_ge in E.
  apply draw_marked; [destruct (so_mode _ Hok); unfold small_rect, small; lia | done..|]. intros px py [? ?] Hn. apply upd_other; lia.
Qed.

(** ** Rectangles *)
Definition in_clip (c : CLIP) (px py : Z) : bool :=
  negb (fb_clip_enabled c) || (within (fb_clip_left c) px (fb_clip_right c) && within (fb_clip_top c) py (fb_clip_bottom c)).

Lemma in_clip_true c px py : in_clip c px py = true <->
  (fb_clip_enabled c = true -> fb_clip_left c <= px < fb_clip_right c /\ fb_clip_top c <= py < fb_clip_bottom c).
Proof.
  unfold in_clip. rewrite orb_true_iff, negb_true_iff, andb_true_iff, !within_true.
  destruct (fb_clip_enabled c); intuition (done || lia).
Qed.

(** One axis of [clip_rect]. *)
Definition clip_axis (en : bool) (lo hi lim x w : Z) : Z * Z :=
  let '(x, w) :=
    if en then
      let '(w, x) := if x <? lo then (s32 (w - s32 (lo - x)), lo) else (w, x) in
      (x, if hi <? s32 (x + w) then hi - x else w)
    else (x, w) in
  let '(w, x) := if x <? 0 then (s32 (w + x), 0) else (w, x) in
  (x, if lim <? s32 (x + w) then lim - x else w).

Lemma clip_rect_axes x y w h st :
  clip_rect x y w h st =
  let c := clip st in
  let '(x', w') := clip_axis (fb_clip_enabled c) (fb_clip_left c) (fb_clip_right c) (fb_width (mode st)) x w in
  let '(y', h') := clip_axis (fb_clip_enabled c) (fb_clip_top c) (fb_clip_bottom c) (fb_height (mode st)) y h in
  (x', y', w', h').
Proof.
  unfold clip_rect, clip_axis. destruct (fb_clip_enabled (clip st)).
  - destruct (x <? _), (y <? _); cbn zeta beta iota; destruct (_ <? 0), (_ <? 0); done.
  - destruct (x <? 0), (y <? 0); done.
Qed.

(** Wrapped sums that are in range, and tests of the rest. *)
Ltac unwrap := repeat match goal with |- context [s32 ?e] => rewrite (s32_small e) by lia end.
Ltac zsplit := match goal with |- context [?u <? ?v] => lazymatch v with context [s32 _] => fail | context [if _ then _ else _] => fail | _ => destruct (Z.ltb_spec u v); cbn beta iota zeta end end.

Lemma clip_axis_spec en lo hi lim x w p :
  small x -> small w -> 0 <= lo /\ small lo -> 0 <= hi /\ small hi -> lim < 65536 -> 0 <= p < lim ->
  let '(x', w') := clip_axis en lo hi lim x w in
  0 <= x' /\ x' + w' <= lim /\
  (x' <= p < x' + w' <-> x <= p < x + w /\ (en = true -> lo <= p < hi)).
Proof.
  intros Sx Sw [Hlo Sl] [Hhi Sh] Hlim Hp. unfold clip_axis, small in *. destruct en; repeat (unwrap; zsplit); intuition lia.
Qed.

Lemma clip_rect_spec x y w h st px py :
  small_rect x y w h -> mode_ok (mode st) -> clip_ok (clip st) -> on_screen (mode st) px py ->
  let '(x', y', w', h') := clip_rect x y w h st in
  0 <= x' /\ 0 <= y' /\ x' + w' <= fb_width (mode st) /\ y' + h' <= fb_height (mode st) /\
  (x' <= px < x' + w' /\ y' <= py < y' + h' <->
   x <= px < x + w /\ y <= py < y + h /\ in_clip (clip st) px py = true).
Proof.
  intros (Sx & Sy & Sw & Sh) Hm [] [Hx Hy]. rewrite clip_rect_axes. cbn zeta. pose proof (mo_width _ Hm) as [_ ?]. pose proof (mo_height _ Hm) as [_ ?].
  pose proof (clip_axis_spec (fb_clip_enabled (clip st)) (fb_clip_left (clip st)) (fb_clip_right (clip st)) (fb_width (mode st)) x w px) as Ha.
  pose proof (clip_axis_spec (fb_clip_enabled (clip st)) (fb_clip_top (clip st)) (fb_clip_bottom (clip st)) (fb_height (mode st)) y h py) as Hb.
  destruct (clip_axis _ _ _ _ x w) as [x' w'], (clip_axis _ _ _ _ y h) as [y' h'].
  rewrite in_clip_true. intuition.
Qed.

Lemma fill_array_spec x y w h W v arr px py :
  0 <= x -> x + w <= W -> 0 <= px < W ->
  fill_array x y w h W v arr (py * W + px)
  = if within x px (x + w) && within y py (y + h) then v else arr (py * W + px).
Proof.
  intros Hx HW Hpx. unfold fill_array.
  rewrite (rows_write W x (x + w) (fun _ _ => v)); [by rewrite andb_comm | lia..|].
  intros row m i _. rewrite (row_write _ (fun _ => v)).
  replace (row * W + x + 0) with (row * W + x) by lia. by rewrite Z.add_assoc.
Qed.

Lemma fill_drawn x y w h v v' st :
  small_rect x y w h -> screen_ok st -> coherent st ->
  drawn st (let '(x, y, w, h) := clip_rect x y w h st in
    if (w <=? 0) || (h <=? 0) then st else
    fb_mark_dirty x y w h (set_surf st (with_arrays (surf st)
      (fill_array x y w h (fb_width (mode st)) v (shadow (surf st)))
      (fill_array x y w h (fb_width (mode st)) v' (surface (surf st)))))).
Proof.
  intros Hsm Hok Hco. pose proof (clip_rect_spec x y w h st 0 0 Hsm (so_mode _ Hok) (so_clip _ Hok)) as Hc.
  destruct (clip_rect x y w h st) as [[[x' y'] w'] h'].
  destruct (so_mode _ Hok). destruct Hc as (? & ? & ? & ? & _); [unfold on_screen; lia|].
  destruct (_ || _) eqn:E; [by apply drawn_refl|].
  rewrite orb_false_iff, !Z.leb_gt in E. apply draw_marked; [unfold small_rect, small; lia | done..|]. intros px py [Hx Hy] Hn. rewrite fill_array_spec by lia.
  range_cases; cbn; try done. exfalso. apply Hn. lia.
Qed.

Lemma FbFillRect_drawn x y w h color st : small_rect x y w h -> screen_ok st -> coherent st -> drawn st (FbFillRect x y w h color st).
Proof.
  intros Hsm Hok Hco. unfold FbFillRect. rewrite (mo_use _ (so_mode _ Hok)).
  destruct (_ || _); [by apply drawn_refl|]. by apply fill_drawn.
Qed.

Lemma FbFillRectRGB_drawn x y w h rgb st : small_rect x y w h -> screen_ok st -> coherent st -> drawn st (FbFillRectRGB x y w h rgb st).
Proof.
  intros Hsm Hok Hco. unfold FbFillRectRGB. destruct (_ || _); [by apply FbFillRect_drawn|]. by apply fill_drawn.
Qed.

(** ** Blits *)
Lemma blit_array_spec x y w h W Hh (src : mem) stride arr px py :
  0 <= px < W -> 0 <= py < Hh ->
  for_range 0 h (fun row arr =>
    let dy := y + row in
    if (dy <? 0) || (Hh <=? dy) then arr else
    for_range 0 w (fun col arr =>
      let dx := x + col in
      if (dx <? 0) || (W <=? dx) then arr else
      upd arr (dy * W + dx) (src (row * stride + col))) arr) arr (py * W + px)
  = if within x px (x + w) && within y py (y + h) then src ((py - y) * stride + (px - x)) else arr (py * W + px).
Proof.
  intros Hx Hy.
  replace (py * W + px) with (y * W + (py - y) * W + px) by lia.
  rewrite (rows_write_guard (fun row => negb ((y + row <? 0) || (Hh <=? y + row))) (y * W) W
    (Z.max 0 x) (Z.min W (x + w)) (fun row c => src (row * stride + (c - x)))); [|lia..|].
  - replace (y + (py - y)) with py by lia.
    assert (negb ((py <? 0) || (Hh <=? py)) = true) as ->
      by (rewrite negb_true_iff, orb_false_iff, Z.ltb_ge, Z.leb_gt; lia).
    range_cases; cbn; try done; lia.
  - intros row m i _. cbn zeta. destruct ((_ <? 0) || (Hh <=? _)); cbn [negb andb]; [done|].
    rewrite (clipped_row ((y + row) * W) W (fun c => src (row * stride + c))).
    rewrite !Z.mul_add_distr_r. destruct (within _ _ _); [|done].
    do 2 f_equal. lia.
Qed.

Lemma blit_inside_spec x y w h W (src : mem) stride arr px py :
  0 <= x -> x + w <= W -> 0 <= px < W ->
  for_range 0 h (fun row arr =>
    for_range 0 w (fun k arr => upd arr ((y + row) * W + x + k) (src (row * stride + k))) arr) arr (py * W + px)
  = if within x px (x + w) && within y py (y + h) then src ((py - y) * stride + (px - x)) else arr (py * W + px).
Proof.
  intros Hx HW Hpx. replace (py * W + px) with (y * W + (py - y) * W + px) by lia.
  rewrite (rows_write_at (y * W) W x (x + w) (fun row c => src (row * stride + (c - x)))); [|lia..|].
  - range_cases; cbn; try done; lia.
  - intros row m i _. rewrite (row_write _ (fun k => src (row * stride + k))).
    rewrite !Z.mul_add_distr_r. replace (y * W + row * W + x + 0) with (y * W + row * W + x) by lia.
    rewrite !(Z.add_assoc _ x w). destruct (within _ _ _); [|done]. do 2 f_equal. lia.
Qed.

(** No sum of a picture that fits leaves the range of an int. *)
Definition small_picture (h stride : Z) : Prop := h * stride <= 2147483648.

Lemma blit_array_wrapped x y w h W Hh (src : mem) stride arr :
  small_rect x y w h -> w <= stride -> small_picture h stride ->
  for_range 0 h (fun row arr =>
    let dy := s32 (y + row) in
    if (dy <? 0) || (Hh <=? dy) then arr else
    for_range 0 w (fun col arr =>
      let dx := s32 (x + col) in
      if (dx <? 0) || (W <=? dx) then arr else
      upd arr (dy * W + dx) (src (s32 (row * stride + col)))) arr) arr =
  for_range 0 h (fun row arr =>
    let dy := y + row in
    if (dy <? 0) || (Hh <=? dy) then arr else
    for_range 0 w (fun col arr =>
      let dx := x + col in
      if (dx <? 0) || (W <=? dx) then arr else
      upd arr (dy * W + dx) (src (row * stride + col))) arr) arr.
Proof.
  unfold small_rect, small, small_picture. intros (Sx & Sy & Sw & Sh) Hws Hpic. apply for_range_ext. intros row arr' Hr. cbn zeta. rewrite (s32_small (y + row)) by lia.
  destruct (_ || _); [done|]. apply for_range_ext. intros col arr2 Hc. rewrite (s32_small (x + col)), (s32_small (row * stride + col)) by nia. done.
Qed.

Lemma blit_inside_wrapped x y w h W (src : mem) stride arr :
  0 < w <= stride -> small_picture h stride ->
  for_range 0 h (fun row arr => for_range 0 w (fun k arr => upd arr ((y + row) * W + x + k) (src (s32 (row * stride) + k))) arr) arr =
  for_range 0 h (fun row arr => for_range 0 w (fun k arr => upd arr ((y + row) * W + x + k) (src (row * stride + k))) arr) arr.
Proof.
  unfold small_picture. intros Hws Hpic. apply for_range_ext. intros row arr' Hr. by rewrite (s32_small (row * stride)) by nia.
Qed.

(** Both paths of [FbBlitRGB] copy exactly the part of the picture that is on
    the screen, and mark it. *)
Lemma FbBlitRGB_surface x y w h src stride st :
  small_rect x y w h -> small_picture h stride -> screen_ok st -> 0 < w -> 0 < h -> w <= stride ->
  exists arr, FbBlitRGB x y w h true src stride st =
    fb_mark_dirty x y w h (set_surf st (with_arrays (surf st) (shadow (surf st)) arr)) /\
  forall px py, on_screen (mode st) px py ->
    arr (py * fb_width (mode st) + px)
    = if within x px (x + w) && within y py (y + h) then src ((py - y) * stride + (px - x))
      else surface (surf st) (py * fb_width (mode st) + px).
Proof.
  intros Hsm Hpic Hok Hw Hh Hs. pose proof Hsm as (Sx & Sy & Sw & Sh). unfold small in *. unfold FbBlitRGB. cbn [negb].
  rewrite (s32_small (x + w)), (s32_small (y + h)) by lia.
  assert (false || (fb_surface (surf st) =? 0) || (w <=? 0) || (h <=? 0) || (stride <? w) = false) as ->.
  { rewrite !orb_false_iff, Z.eqb_neq, !Z.leb_gt, Z.ltb_ge. destruct (so_arrays _ Hok). split_and!; done || lia. }
  destruct (_ && _) eqn:E.
  - rewrite !andb_true_iff, !Z.leb_le in E. eexists. split; [reflexivity|].
    intros px py [Hx Hy]. rewrite blit_inside_wrapped by (lia || done). apply blit_inside_spec; lia.
  - eexists. split; [reflexivity|]. intros px py [Hx Hy]. rewrite blit_array_wrapped by done. by apply blit_array_spec.
Qed.

Lemma FbBlitRGB_drawn x y w h ok src stride st :
  small_rect x y w h -> small_picture h stride -> screen_ok st -> coherent st -> drawn st (FbBlitRGB x y w h ok src stride st).
Proof.
  intros Hsm Hpic Hok Hco.
  destruct (negb ok || (fb_surface (surf st) =? 0) || (w <=? 0) || (h <=? 0) || (stride <? w)) eqn:E.
  { unfold FbBlitRGB. rewrite E. by apply drawn_refl. }
  rewrite !orb_false_iff, !Z.leb_gt, Z.ltb_ge, negb_false_iff in E. destruct E as ((((-> & _) & Hw) & Hh) & Hs).
  destruct (FbBlitRGB_surface x y w h src stride st Hsm Hpic Hok Hw Hh Hs) as (arr & -> & Harr).
  apply draw_marked; [done..|]. intros px py Hxy Hn. rewrite Harr by done.
  range_cases; cbn; try done. exfalso. apply Hn. lia.
Qed.

Lemma FbBlitIndexed_drawn x y w h ok src stride st :
  small_rect x y w h -> screen_ok st -> coherent st ->
  drawn st (FbBlitIndexed x y w h ok src stride st) /\
  surface (surf (FbBlitIndexed x y w h ok src stride st)) = surface (surf st).
Proof.
  intros (Sx & Sy & Sw & Sh) Hok Hco. unfold FbBlitIndexed, fb_indexed_buffer, indexed_height, fb_indexed_stride. rewrite (mo_use _ (so_mode _ Hok)).
  pose proof (mo_width _ (so_mode _ Hok)). pose proof (mo_height _ (so_mode _ Hok)). unfold small in *.
  assert (Hmark : forall x y w h sh, small_rect x y w h ->
    drawn st (fb_mark_dirty x y w h (set_surf st (with_arrays (surf st) sh (surface (surf st))))) /\
    surface (surf (fb_mark_dirty x y w h (set_surf st (with_arrays (surf st) sh (surface (surf st)))))) = surface (surf st)).
  { intros x0 y0 w0 h0 sh Hsm. split; [by apply draw_marked|].
    destruct (mark_dirty_spec x0 y0 w0 h0 (set_surf st (with_arrays (surf st) sh (surface (surf st)))) Hsm (so_mode _ Hok) (so_dirty _ Hok))
      as (? & -> & _). done. }
  assert (Hid : drawn st st /\ surface (surf st) = surface (surf st)) by (split; [by apply drawn_refl | done]).
  destruct (fb_shadow (surf st) =? 0); [done|]. destruct ok; [|done]. cbn [negb].
  rewrite (s32_small (w + x)), (s32_small (h + y)) by lia.
  destruct (Z.ltb_spec x 0), (Z.ltb_spec y 0); cbn zeta iota;
    repeat match goal with |- context [if ?b then st else _] => destruct b eqn:?; [done|] end;
    repeat match goal with E : (_ || _) = false |- _ => rewrite !orb_false_iff, !Z.leb_gt in E end; apply Hmark; unfold small_rect, small; zbool; lia.
Qed.

Lemma screen_small m : mode_ok m -> small_rect 0 0 (fb_width m) (fb_height m).
Proof. intros []. unfold small_rect, small. lia. Qed.

Lemma FbClearScreen_drawn color st :
  screen_ok st -> coherent st ->
  drawn st (FbClearScreen a color st) /\
  forall x y, on_screen (mode st) x y ->
    surface (surf (FbClearScreen a color st)) (y * fb_width (mode st) + x) = rgb888 color.
Proof.
  intros Hok Hco. unfold FbClearScreen. rewrite (mo_use _ (so_mode _ Hok)).
  destruct (so_arrays _ Hok) as [Hs Hf]. rewrite (proj2 (Z.eqb_neq _ _) Hs), (proj2 (Z.eqb_neq _ _) Hf). cbn [orb].
  split.
  - apply draw_marked; [by apply screen_small; apply Hok | done..|]. intros px py [Hx Hy] Hn. exfalso. apply Hn. lia.
  - intros x y [Hx Hy]. set (st1 := set_surf st _).
    destruct (mark_dirty_spec 0 0 (fb_width (mode st)) (fb_height (mode st)) st1 (screen_small _ (so_mode _ Hok)) (so_mode _ Hok) (so_dirty _ Hok))
      as (? & -> & _). cbn.
    rewrite (row_write 0 (fun _ => rgb888 color)). destruct (so_mode _ Hok).
    rewrite !u32_small by (rewrite ?u32_small; unfold is_u32; nia).
    rewrite (proj2 (within_true _ _ _)) by nia. done.
Qed.

Lemma for_range_drawn st0 lo n body st :
  (forall i st, screen_ok st -> coherent st -> drawn st (body i st)) ->
  drawn st0 st -> drawn st0 (for_range lo n body st).
Proof.
  intros Hb Hd. apply (for_range_rule (fun _ st' => drawn st0 st')); [done|].
  intros i st' _ Hd'. eapply drawn_trans; [done|]. apply Hb; apply Hd'.
Qed.

(** What a caller's coordinates and sizes are taken to be: at most 2^26. *)
Definition coord (z : Z) : Prop := -67108864 <= z <= 67108864.
Definition fits_rect (x y w h : Z) : Prop := coord x /\ coord y /\ coord w /\ coord h.
Lemma fits_small x y w h : fits_rect x y w h -> small_rect x y w h.
Proof. unfold fits_rect, coord, small_rect, small. lia. Qed.

Lemma FbDrawRect_drawn x y w h color st : fits_rect x y w h -> screen_ok st -> coherent st -> drawn st (FbDrawRect x y w h color st).
Proof.
  unfold fits_rect, coord. intros Hr Hok Hco. unfold FbDrawRect.
  assert (Hs : forall x y w h st', small_rect x y w h -> drawn st st' -> drawn st (FbFillRect x y w h color st')).
  { intros ? ? ? ? st' Hsm Hd. eapply drawn_trans; [done|]. apply FbFillRect_drawn; [done | apply Hd..]. }
  rewrite !s32_small by lia. do 4 (apply Hs; [unfold small_rect, small; lia|]). by apply drawn_refl.
Qed.

Lemma FbDrawChar_drawn x y c fg bg st : screen_ok st -> coherent st -> drawn st (FbDrawChar x y c fg bg st).
Proof.
  intros Hok Hco. unfold FbDrawChar. rewrite (mo_use _ (so_mode _ Hok)).
  apply for_range_drawn; [|by apply drawn_refl]. intros row st' Hok' Hco'.
  apply for_range_drawn; [|by apply drawn_refl]. intros col st'' Hok'' Hco''. by apply FbPutPixel_drawn.
Qed.

Lemma FbDrawCharTransparent_drawn x y c fg st :
  screen_ok st -> coherent st -> drawn st (FbDrawCharTransparent x y c fg st).
Proof.
  intros Hok Hco. unfold FbDrawCharTransparent. rewrite (mo_use _ (so_mode _ Hok)). cbn [negb].
  apply for_range_drawn; [|by apply drawn_refl]. intros row st' Hok' Hco'.
  apply for_range_drawn; [|by apply drawn_refl]. intros col st'' Hok'' Hco''.
  destruct (_ =? 0); [by apply drawn_refl | by apply FbPutPixel_drawn].
Qed.

Lemma transparent_loop_drawn str x cx y fg st0 st : drawn st0 st -> drawn st0 (transparent_loop str x cx y fg st).
Proof.
  revert cx y st. induction str as [|c str IH]; intros cx y st Hd; cbn [transparent_loop]; [done|].
  destruct (c =? 10); apply IH; [done|]. eapply drawn_trans; [done|]. apply FbDrawCharTransparent_drawn; apply Hd.
Qed.

Lemma string_loop_drawn str x cx cy fg bg st0 st : drawn st0 st -> drawn st0 (string_loop str x cx cy fg bg st).
Proof.
  revert cx cy st. induction str as [|c str IH]; intros cx cy st Hd; cbn [string_loop]; [done|].
  assert (Hch : drawn st0 (FbDrawChar cx cy c fg bg st)) by (eapply drawn_trans; [done|]; apply FbDrawChar_drawn; apply Hd).
  destruct (c =? 10); [destruct (_ <? _); [done | by apply IH]|].
  destruct (_ <? _); (destruct (_ <? _); [done | by apply IH]).
Qed.

(** The clip rectangle is not part of what is presented. *)
Lemma set_clip_drawn st c : clip_ok c -> screen_ok st -> coherent st -> drawn st (set_clip st c).
Proof. intros Hc [] [? Hs]. split; [by split | by split | done | done]. Qed.

Lemma FbSetClipRect_drawn x y w h st : fits_rect x y w h -> screen_ok st -> coherent st -> drawn st (FbSetClipRect x y w h st).
Proof.
  unfold fits_rect, coord. intros Hr Hok Hco. pose proof (mo_width _ (so_mode _ Hok)). pose proof (mo_height _ (so_mode _ Hok)). unfold FbSetClipRect. rewrite !s32_small by lia.
  apply set_clip_drawn; [|done..]. split; cbn; unfold small; zbool; lia.
Qed.

Lemma FbResetClipRect_drawn st : screen_ok st -> coherent st -> drawn st (FbResetClipRect st).
Proof. intros Hok. apply set_clip_drawn; [|done]. by destruct (so_clip _ Hok). Qed.

End proofs.

(** ** Frames

    The drawing interface, as a client sees it. *)
Inductive command :=
| PutPixel (x y color : Z)
| PutPixelRGB (x y rgb : Z)
| FillRect (x y w h color : Z)
| FillRectRGB (x y w h rgb : Z)
| DrawRect (x y w h color : Z)
| DrawChar (x y c fg bg : Z)
| DrawCharTransparent (x y c fg : Z)
| DrawString (x y : Z) (str : list Z) (fg bg : Z)
| DrawStringTransparent (x y : Z) (str : option (list Z)) (fg : Z)
| BlitRGB (x y w h : Z) (ok : bool) (src : mem) (stride : Z)
| BlitIndexed (x y w h : Z) (ok : bool) (src : mem) (stride : Z)
| ClearScreen (color : Z)
| SetClipRect (x y w h : Z)
| ResetClipRect
| SwapBuffers.

Section frames.
Context {D H : Type} `{Bus D} `{KernelHeap H} (a : arch).
Implicit Types st : fb D H.

Definition exec (c : command) st : fb D H :=
  match c with
  | PutPixel x y color => FbPutPixel x y color st
  | PutPixelRGB x y rgb => FbPutPixelRGB x y rgb st
  | FillRect x y w h color => FbFillRect x y w h color st
  | FillRectRGB x y w h rgb => FbFillRectRGB x y w h rgb st
  | DrawRect x y w h color => FbDrawRect x y w h color st
  | DrawChar x y c fg bg => FbDrawChar x y c fg bg st
  | DrawCharTransparent x y c fg => FbDrawCharTransparent x y c fg st
  | DrawString x y str fg bg => FbDrawString x y str fg bg st
  | DrawStringTransparent x y str fg => FbDrawStringTransparent x y str fg st
  | BlitRGB x y w h ok src stride => FbBlitRGB x y w h ok src stride st
  | BlitIndexed x y w h ok src stride => FbBlitIndexed x y w h ok src stride st
  | ClearScreen color => FbClearScreen a color st
  | SetClipRect x y w h => FbSetClipRect x y w h st
  | ResetClipRect => FbResetClipRect st
  | SwapBuffers => FbSwapBuffers a st
  end.

(** Commands whose arithmetic stays within an int, which C requires: rectangles, positions and
    pictures of at most 2^26 in each direction, pictures of at most 2^31 pixels and strings of at most 2^20 characters. *)
Definition fits (c : command) : Prop :=
  match c with
  | PutPixel _ _ _ | PutPixelRGB _ _ _ | ClearScreen _ | ResetClipRect | SwapBuffers => True
  | FillRect x y w h _ | FillRectRGB x y w h _ | DrawRect x y w h _ | SetClipRect x y w h => fits_rect x y w h
  | DrawChar x y _ _ _ | DrawCharTransparent x y _ _ => coord x /\ coord y
  | DrawString x y str _ _ => coord x /\ coord y /\ Z.of_nat (length str) <= 1048576
  | DrawStringTransparent x y str _ => coord x /\ coord y /\ Z.of_nat (length (default [] str)) <= 1048576
  | BlitRGB x y w h _ _ stride => fits_rect x y w h /\ small_picture h stride
  | BlitIndexed x y w h _ _ stride => fits_rect x y w h /\ small_picture h stride /\ Z.abs (y * stride) <= 2147483647
  end.

Definition exec_all (cs : list command) st : fb D H := fold_left (fun st c => exec c st) cs st.

(** Every command but the swap only draws. *)
Lemma exec_drawn c st : fits c -> screen_ok st -> coherent st -> c = SwapBuffers \/ drawn st (exec c st).
Proof.
  intros Hf Hok Hco. destruct c; [right.. | by left]; cbn [exec fits] in *.
  - by apply FbPutPixel_drawn.
  - by apply FbPutPixelRGB_drawn.
  - apply FbFillRect_drawn; [by apply fits_small | done..].
  - apply FbFillRectRGB_drawn; [by apply fits_small | done..].
  - by apply FbDrawRect_drawn.
  - by apply FbDrawChar_drawn.
  - by apply FbDrawCharTransparent_drawn.
  - unfold FbDrawString. rewrite (mo_use _ (so_mode _ Hok)). by apply string_loop_drawn, drawn_refl.
  - destruct str; [by apply transparent_loop_drawn, drawn_refl | by apply drawn_refl].
  - destruct Hf. apply FbBlitRGB_drawn; [by apply fits_small | done..].
  - destruct Hf. apply FbBlitIndexed_drawn; [by apply fits_small | done..].
  - by apply FbClearScreen_drawn.
  - by apply FbSetClipRect_drawn.
  - by apply FbResetClipRect_drawn.
Qed.

Lemma exec_ok c st : fits c -> screen_ok st -> coherent st -> screen_ok (exec c st) /\ coherent (exec c st).
Proof.
  intros Hf Hok Hco. destruct (exec_drawn c st Hf Hok Hco) as [-> | []]; [|done].
  by destruct (swap_spec a st Hok Hco).
Qed.

Lemma exec_all_ok cs st : Forall fits cs -> screen_ok st -> coherent st -> screen_ok (exec_all cs st) /\ coherent (exec_all cs st).
Proof.
  intros Hf. revert st. induction Hf as [|c cs Hc Hf IH]; intros st Hok Hco; [done|].
  change (exec_all (c :: cs) st) with (exec_all cs (exec c st)).
  destruct (exec_ok c st Hc Hok Hco). by apply IH.
Qed.

(** ** Where a screen comes from *)
Lemma fb_modes_small w h b :
  existsb (fun f => (width f =? w) && (height f =? h) && (bpp f =? b)) fb_modes = true ->
  0 < w <= 1920 /\ 0 < h <= 1080 /\ (b = 16 \/ b = 24 \/ b = 32).
Proof.
  intros Hex. apply existsb_exists in Hex as (f & Hf & Heq).
  rewrite !andb_true_iff, !Z.eqb_eq in Heq. destruct Heq as [[<- <-] <-].
  assert (Hall : forallb (fun f => (0 <? width f) && (width f <=? 1920) && (0 <? height f) && (height f <=? 1080)
    && ((bpp f =? 16) || (bpp f =? 24) || (bpp f =? 32))) fb_modes = true) by (vm_compute; reflexivity).
  rewrite forallb_forall in Hall. specialize (Hall f Hf).
  rewrite !andb_true_iff, !orb_true_iff, !Z.ltb_lt, !Z.leb_le, !Z.eqb_eq in Hall. lia.
Qed.

(** The geometry a screen keeps while it is drawn on. *)
Definition same_screen st st' : Prop :=
  fb_width (mode st') = fb_width (mode st) /\ fb_height (mode st') = fb_height (mode st) /\
  fb_bpp (mode st') = fb_bpp (mode st) /\ bga_page_flip (flip st') = bga_page_flip (flip st).

Lemma exec_same c st : fits c -> screen_ok st -> coherent st -> same_screen st (exec c st).
Proof.
  intros Hf Hok Hco. unfold same_screen. destruct (exec_drawn c st Hf Hok Hco) as [-> | [_ _ E F]].
  - destruct (swap_spec a st Hok Hco) as [_ _ _ _ E _ F _ _]. cbn [exec]. by rewrite E, F.
  - by rewrite E, F.
Qed.

Lemma exec_all_same cs st : Forall fits cs -> screen_ok st -> coherent st -> same_screen st (exec_all cs st).
Proof.
  intros Hf. revert st. induction Hf as [|c cs Hc Hf IH]; intros st Hok Hco; [by repeat split|].
  change (exec_all (c :: cs) st) with (exec_all cs (exec c st)).
  destruct (exec_ok c st Hc Hok Hco) as [Hok' Hco']. destruct (exec_same c st Hc Hok Hco) as (E1 & E2 & E3 & E4).
  destruct (IH _ Hok' Hco') as (F1 & F2 & F3 & F4). unfold same_screen. by rewrite F1, F2, F3, F4.
Qed.

Lemma activate_ok size st :
  mode_ok (mkMode true (fb_width (mode st)) (fb_height (mode st)) (fb_addr (mode st)) (fb_present_addr (mode st))
    (fb_pitch (mode st)) (fb_bpp (mode st))) ->
  fb_shadow (surf st) <> 0 /\ fb_surface (surf st) <> 0 ->
  flip st = mkFlip true 0 false -> svga_active (svga st) = false -> clip_ok (clip st) ->
  screen_ok (activate size st) /\ coherent (activate size st) /\
  mode (activate size st) = mkMode true (fb_width (mode st)) (fb_height (mode st)) (fb_addr (mode st))
    (fb_present_addr (mode st)) (fb_pitch (mode st)) (fb_bpp (mode st)) /\
  flip (activate size st) = flip st.
Proof.
  intros Hm Har Hf Hsv Hcl. unfold activate. cbn zeta. set (st1 := set_mode _ _).
  assert (Hd0 : dirty_ok (mode (fb_reset_dirty st1)) (dirt (fb_reset_dirty st1))) by done.
  destruct (mark_dirty_spec 0 0 (fb_width (mode st)) (fb_height (mode st)) (fb_reset_dirty st1) (screen_small _ Hm) Hm Hd0)
    as (d & E & Hd & _ & Hin). cbn [mode st1 set_surf set_mode] in *. rewrite E.
  assert (Hv : dirty_valid d = true).
  { destruct Hm. specialize (Hin 0 0 ltac:(unfold on_screen; cbn in *; lia) ltac:(right; cbn in *; lia)).
    unfold in_dirty in Hin. by destruct (dirty_valid d). }
  split; [split; cbn; try done; [by rewrite Hf; left | by rewrite Hf]|]. split; [|done].
  split; [done|]. intros page x y Hl. unfold live_page in Hl. cbn in Hl. rewrite Hf in Hl. by destruct Hl.
Qed.

Lemma fb_alloc_surfaces_spec uninit pixels st ok st' :
  fb_alloc_surfaces uninit pixels st = Some (ok, st') ->
  mode st' = mode st /\ flip st' = flip st /\ svga st' = svga st /\ clip st' = clip st /\
  (ok = true -> fb_shadow (surf st') <> 0 /\ fb_surface (surf st') <> 0).
Proof.
  unfold fb_alloc_surfaces. intros E. repeat case_match; simplify_option_eq; try done.
  all: repeat (case_match; simplify_option_eq); try done.
  all: split_and!; try done; intros _; cbn; zbool; done.
Qed.

Lemma fb_try_bga_mode_ok uninit w h b st st' :
  0 < w <= 1920 -> 0 < h <= 1080 -> b = 16 \/ b = 24 \/ b = 32 -> svga_active (svga st) = false -> clip_ok (clip st) ->
  fb_try_bga_mode a uninit w h b st = Some (true, st') ->
  screen_ok st' /\ coherent st' /\
  fb_width (mode st') = w /\ fb_height (mode st') = h /\ fb_bpp (mode st') = b /\ bga_page_flip (flip st') = true.
Proof.
  intros Hw Hh Hb Hsv Hcl. unfold fb_try_bga_mode, bga_prepare.
  destruct (bga_read a 0 (dev st)) as [id d0]. destruct (_ || _); [done|].
  destruct (fb_find_lfb_phys a d0) as [phys d1]. destruct (Z.ltb_spec phys 1048576) as [|Hphys]; [done|].
  destruct (bga_write_all _ _ _) as [u d2]. destruct (bga_read a 1 d2) as [rw d3].
  destruct (bga_read a 2 d3) as [rh d4]. destruct (bga_read a 3 d4) as [rb d5].
  destruct (_ || _) eqn:E; [done|]. rewrite !orb_false_iff, !negb_false_iff, !Z.eqb_eq in E.
  destruct E as [[-> ->] Eb]. rewrite Eb.
  destruct (fb_alloc_surfaces _ _ _) as [[ok st1]|] eqn:Ea; [|done]. cbn [mbind option_bind].
  destruct (fb_alloc_surfaces_spec _ _ _ _ _ Ea) as (Em & Ef & Es & Ec & Hok). cbn in Em, Ef, Es, Ec.
  destruct ok; [|done]. cbn [negb]. intros [= <-].
  assert (Hpitch : u32 (w * (b / 8)) = w * pixel_bytes b).
  { assert (b / 8 = pixel_bytes b) as -> by (destruct Hb as [-> | [-> | ->]]; done).
    pose proof (pixel_bytes_range b). apply u32_small. unfold is_u32. nia. }
  edestruct (activate_ok (u32 (u32 (fb_width (mode st1)) * u32 (fb_height (mode st1)))) st1) as (H1' & H2' & H3' & H4').
  - rewrite Em. cbn. rewrite Hpitch. pose proof (pixel_bytes_range b).
    assert (w * pixel_bytes b <= 7680) by nia. split; cbn; try done; try lia; nia.
  - by apply Hok.
  - done.
  - by rewrite Es.
  - by rewrite Ec.
  - split; [exact H1'|]. split; [exact H2'|]. rewrite H3', H4', Em, Ef. done.
Qed.

Lemma FbSetResolution_ok uninit w h b st st' :
  svga_active (svga st) = false -> clip_ok (clip st) -> FbSetResolution a uninit w h b st = Some (true, st') ->
  screen_ok st' /\ coherent st' /\
  fb_width (mode st') = w /\ fb_height (mode st') = h /\ fb_bpp (mode st') = b /\ bga_page_flip (flip st') = true.
Proof.
  intros Hsv Hcl. unfold FbSetResolution.
  destruct (negb (use_framebuffer _)); [done|]. destruct (_ || _); [done|]. destruct (_ && _); [done|].
  destruct (existsb _ _) eqn:Hex; [|done]. cbn [negb]. apply fb_modes_small in Hex as (Hw & Hh & Hb).
  rewrite !(fun x (Hx : 0 <= x < 65536) => Z.mod_small x 65536 Hx : u16 x = x) by lia.
  destruct (fb_try_bga_mode _ _ _ _ _ _) as [[ok st1]|] eqn:Et; [|done]. cbn [mbind option_bind].
  destruct ok; [|done]. cbn [negb]. intros [= <-].
  destruct (fb_try_bga_mode_ok _ _ _ _ _ _ Hw Hh Hb Hsv Hcl Et) as (Hok & Hco & E1 & E2 & E3 & E4).
  destruct (exec_all_ok [ClearScreen COLOR_BLUE; SwapBuffers] st1 ltac:(by repeat constructor) Hok Hco) as [Hok' Hco'].
  destruct (exec_all_same [ClearScreen COLOR_BLUE; SwapBuffers] st1 ltac:(by repeat constructor) Hok Hco) as (F1 & F2 & F3 & F4).
  cbn [exec_all fold_left exec] in *. rewrite F1, F2, F3, F4. done.
Qed.

Lemma get_pixel_rgb st x y : screen_ok st -> on_screen (mode st) x y ->
  FbGetPixelRGB x y st = surface (surf st) (y * fb_width (mode st) + x).
Proof.
  intros Hok [Hx Hy]. unfold FbGetPixelRGB. rewrite (mo_use _ (so_mode _ Hok)).
  rewrite (proj2 (Z.eqb_neq _ _) (proj2 (so_arrays _ Hok))), !(proj2 (Z.leb_le _ _)), !(proj2 (Z.ltb_lt _ _)) by lia.
  done.
Qed.

Lemma get_pixel_index st x y : screen_ok st -> on_screen (mode st) x y ->
  FbGetPixel x y st = shadow (surf st) (y * fb_width (mode st) + x).
Proof.
  intros Hok [Hx Hy]. unfold FbGetPixel, fb_indexed_buffer, fb_indexed_stride, indexed_height.
  rewrite (mo_use _ (so_mode _ Hok)), (proj2 (Z.eqb_neq _ _) (proj1 (so_arrays _ Hok))).
  rewrite !(proj2 (Z.leb_gt _ _)), !(proj2 (Z.ltb_ge _ _)) by lia. done.
Qed.

(** C5. On an adapter driven as a Bochs one (the VMware driver is not active), once [FbSetResolution] has accepted a mode, after any drawing
    commands (swaps among them) whose coordinates and sums stay within an int, as [fits] says, the next [FbSwapBuffers] leaves on the page it selects,
    for every pixel of the screen, exactly the bytes that encode the pixel
    [FbGetPixelRGB] reports, although only the dirty rectangle is copied and
    the two pages alternate; when anything was drawn the adapter is told to
    scan that page out. *)
Theorem FbSwapBuffers_presents uninit (w h b : Z) st st1 (cs : list command) :
  svga_active (svga st) = false -> clip_ok (clip st) -> Forall fits cs -> FbSetResolution a uninit w h b st = Some (true, st1) ->
  let st2 := exec_all cs st1 in
  let st3 := FbSwapBuffers a st2 in
  let page := bga_display_page (flip st3) in
  (forall x y k, 0 <= x < w -> 0 <= y < h -> 0 <= k < pixel_bytes b ->
     ram st3 (pixel_addr (mode st3) page x y k) = byte_of k (encode b (FbGetPixelRGB x y st2))) /\
  (dirty_valid (dirt st2) = true ->
     dev st3 = snd (bga_write a 9 (page * h) (snd (bga_write a 8 0 (dev st2))))).
Proof.
  intros Hsv Hcl Hf Hset st2 st3 page. destruct (FbSetResolution_ok _ _ _ _ _ _ Hsv Hcl Hset) as (Hok1 & Hco1 & E1 & E2 & E3 & E4).
  destruct (exec_all_ok cs st1 Hf Hok1 Hco1) as [Hok2 Hco2]. fold st2 in Hok2, Hco2.
  destruct (exec_all_same cs st1 Hf Hok1 Hco1) as (F1 & F2 & F3 & F4). fold st2 in F1, F2, F3, F4.
  destruct (swap_spec a st2 Hok2 Hco2) as [Hok3 _ Hsurf _ Hmode _ _ Hdev Hshow]. fold st3 in Hok3, Hsurf, Hmode, Hdev, Hshow.
  rewrite E1, E2, E3, E4 in *. split.
  - intros x y k Hx Hy Hk. assert (Hxy : on_screen (mode st2) x y) by (unfold on_screen; lia).
    rewrite get_pixel_rgb, <- Hsurf by done.
    assert (Hb3 : fb_bpp (mode st3) = b /\ fb_width (mode st3) = w) by (rewrite Hmode; cbn; lia).
    destruct Hb3 as [Hb3 Hw3]. pose proof (Hshow x y Hxy k) as Hs. rewrite Hb3, Hw3 in Hs. rewrite F1.
    apply Hs, Hk.
  - intros Hd. rewrite Hdev, F2 by done. done.
Qed.

(** [FbFillRect] changes the pixels of its rectangle that are on the screen
    and inside the clip rectangle to the colour, in both pictures, and no
    other pixel.  The rectangle is one whose arithmetic stays within an int. *)
Theorem FbFillRect_exact (x y w h color : Z) st :
  fits_rect x y w h -> screen_ok st ->
  let st' := FbFillRect x y w h color st in
  forall px py, on_screen (mode st) px py ->
  let hit := within x px (x + w) && within y py (y + h) && in_clip (clip st) px py in
  FbGetPixelRGB px py st' = (if hit then rgb888 color else FbGetPixelRGB px py st) /\
  FbGetPixel px py st' = (if hit then Z.land color 15 else FbGetPixel px py st).
Proof.
  intros Hr%fits_small Hok st' px py Hxy hit.
  pose proof (clip_rect_spec x y w h st px py Hr (so_mode _ Hok) (so_clip _ Hok) Hxy) as Hc. unfold st', FbFillRect.
  rewrite (mo_use _ (so_mode _ Hok)). destruct (so_arrays _ Hok) as [Hs Hf].
  rewrite (proj2 (Z.eqb_neq _ _) Hs), (proj2 (Z.eqb_neq _ _) Hf). cbn [orb].
  destruct (clip_rect x y w h st) as [[[x' y'] w'] h']. destruct Hc as (Hx0 & Hy0 & HW & HH & Hiff).
  assert (Hhit : hit = within x' px (x' + w') && within y' py (y' + h')).
  { unfold hit. apply eq_true_iff_eq. rewrite !andb_true_iff, !within_true. tauto. }
  rewrite Hhit. destruct (_ || _) eqn:E.
  { rewrite orb_true_iff, !Z.leb_le in E. range_cases; cbn; try done; lia. }
  set (st1 := set_surf st _).
  destruct (mark_dirty_spec x' y' w' h' st1 ltac:(rewrite orb_false_iff, !Z.leb_gt in E; destruct (so_mode _ Hok); unfold small_rect, small; lia) (so_mode _ Hok) (so_dirty _ Hok)) as (d & -> & Hd & _).
  assert (Hok1 : screen_ok (set_dirt st1 d)) by (destruct Hok; by split).
  rewrite !get_pixel_rgb, !get_pixel_index by done. destruct Hxy as [Hx Hy].
  cbn. rewrite !fill_array_spec by lia. done.
Qed.

(** The indexed blit reaches neither [fb_surface] nor, therefore, the screen:
    every pixel [FbGetPixelRGB] reports, and so every byte the next swap
    presents, is the old one. *)
Theorem FbBlitIndexed_invisible (x y w h : Z) (src : mem) (stride : Z) st px py :
  fits_rect x y w h -> screen_ok st -> coherent st -> on_screen (mode st) px py ->
  FbGetPixelRGB px py (FbBlitIndexed x y w h true src stride st) = FbGetPixelRGB px py st.
Proof.
  intros Hr%fits_small Hok Hco Hxy. destruct (FbBlitIndexed_drawn x y w h true src stride st Hr Hok Hco) as [[Hok' _ Em _] Es].
  rewrite !get_pixel_rgb by (done || by rewrite Em). by rewrite Es, Em.
Qed.

End frames.

(** ** A Bochs adapter to draw on

    Registers behind an index port and a data port, and the PCI function that
    says where the linear framebuffer is. *)
Record bochs := mkBochs { index : Z; regs : gmap Z Z; config : Z }.

#[export] Instance bochs_bus : Bus bochs := {
  port_in := fun w p d => (match w with
    | W16 => if p =? 463 then default 0 (regs d !! index d) else 65535
    | W8 => 255
    | W32 => if config d =? 2147483648 then 286331444 else if config d =? 2147483664 then 3758096384 else 4294967295
    end, d);
  port_out := fun w p v d => (tt, if p =? 462 then mkBochs v (regs d) (config d)
    else if p =? 463 then mkBochs (index d) (<[index d := v]> (regs d)) (config d)
    else if p =? 3320 then mkBochs (index d) (regs d) v else d);
  mmio_load := fun _ _ d => (0, d);
  mmio_store := fun _ _ _ d => (tt, d)
}.

Definition old_mode : fb bochs fresh :=
  mkFb (mkMode true 640 480 3758096384 3758096384 2560 32) (mkSurfaces 0 (fun _ => 0) 0 (fun _ => 0) (fun _ => 0))
    (mkClip false 0 0 0 0) no_dirty (mkSvga 0 0 0 false) (mkFlip true 0 true) (fun _ => 0)
    (mkBochs 0 {[ 0 := 45253 ]} 0) fresh_start.

Definition text_frame : list command :=
  [FillRect 10 10 100 50 4; DrawString 12 12 (cstr "discouNT") 15 4; SetClipRect 0 0 40 40;
   SwapBuffers; FillRectRGB 30 30 200 200 1193046; ResetClipRect].

Lemma old_mode_prepared : fst <$> bga_prepare X86 (fun _ _ => 0) 640 360 16 old_mode = Some true.
Proof. vm_compute. reflexivity. Qed.

Lemma old_mode_accepted : exists st1, FbSetResolution X86 (fun _ _ => 0) 640 360 16 old_mode = Some (true, st1).
Proof.
  pose proof old_mode_prepared as E. unfold FbSetResolution, fb_try_bga_mode.
  assert (existsb (fun f => (width f =? 640) && (height f =? 360) && (bpp f =? 16)) fb_modes = true) as -> by done.
  cbn -[FbSwapBuffers FbClearScreen activate bga_prepare u16].
  change (u16 640) with 640. change (u16 360) with 360. change (u16 16) with 16.
  destruct (bga_prepare X86 (fun _ _ => 0) 640 360 16 old_mode) as [[ok st]|]; [|done].
  cbn in E. injection E as ->. cbn [mbind option_bind negb]. eexists. reflexivity.
Qed.

Lemma FbSwapBuffers_presents_witness :
  exists st1, FbSetResolution X86 (fun _ _ => 0) 640 360 16 old_mode = Some (true, st1) /\
  let st2 := exec_all X86 text_frame st1 in
  let st3 := FbSwapBuffers X86 st2 in
  forall x y k, 0 <= x < 640 -> 0 <= y < 360 -> 0 <= k < 2 ->
    ram st3 (pixel_addr (mode st3) (bga_display_page (flip st3)) x y k)
    = byte_of k (encode 16 (FbGetPixelRGB x y st2)).
Proof.
  destruct old_mode_accepted as (st1 & E). exists st1. split; [exact E|].
  exact (proj1 (FbSwapBuffers_presents X86 (fun _ _ => 0) 640 360 16 old_mode st1 text_frame eq_refl ltac:(split; cbn; unfold small; lia) ltac:(repeat constructor; cbn; unfold fits_rect, coord; cbn; lia) E)).
Defined.

(** A small screen, shown as it is. *)
Definition small_screen : fb bochs fresh :=
  mkFb (mkMode true 20 10 1048576 1048576 80 32) (mkSurfaces 65536 (fun _ => 0) 131072 (fun _ => 0) (fun _ => 0))
    (mkClip true 2 2 8 8) no_dirty (mkSvga 0 0 0 false) (mkFlip false 0 true) (fun _ => 0)
    (mkBochs 0 ∅ 0) fresh_start.

Lemma small_screen_ok : screen_ok small_screen.
Proof. split; cbn; try done; auto. split; cbn; auto; lia. Qed.

(** A rectangle at the right end of the ints is not clipped: the sum wraps, and the fill starts far outside the picture. *)
Example wrapped_rect_escapes : clip_rect 2147483647 0 10 10 small_screen = (2147483647, 2, 10, 6).
Proof. vm_compute. reflexivity. Qed.

Lemma FbFillRect_exact_witness :
  screen_ok small_screen /\ map (fun x => FbGetPixelRGB x 5 (FbFillRect (-3) 4 9 9 4 small_screen)) [1; 2; 5; 6]
    = [0; 11141120; 11141120; 0].
Proof.
  split; [exact small_screen_ok|]. cbn [map].
  rewrite !(fun x Hx => proj1 (FbFillRect_exact (-3) 4 9 9 4 small_screen ltac:(unfold fits_rect, coord; lia) small_screen_ok x 5 Hx))
    by (unfold on_screen; cbn; lia).
  reflexivity.
Defined.

End Fb.
