(* ===== verification/Mouse.v ===== *)
(** * drivers/mouse/mouse.c: the PS/2 mouse and its cursor

    The packet decoder is a byte-driven state machine ([mouse_cycle]); the
    cursor is drawn over the compositor's picture of [Fb], with the pixels under
    it saved in [cursor_bg] (an array of rows of 11). *)

From stdpp Require Import base list numbers gmap.
From Stdlib Require Import ZArith Lia.
From S2P Require Import Prelude.
From S2P Require Import Util.
From S2P Require Import Pmm.
From S2P Require Import Vmm.
From S2P Require Import Mm.
From S2P Require Import Hw.
From S2P Require Import Sim.
From S2P Require Import Raster.
From S2P Require Import Vga.
From S2P Require Import Fb.
Import Util Hw Fb.

Module Mouse.

Definition cursor : list (list Z) :=
  [[1; 0; 0; 0; 0; 0; 0; 0; 0; 0; 0];
   [1; 1; 0; 0; 0; 0; 0; 0; 0; 0; 0];
   [1; 2; 1; 0; 0; 0; 0; 0; 0; 0; 0];
   [1; 2; 2; 1; 0; 0; 0; 0; 0; 0; 0];
   [1; 2; 2; 2; 1; 0; 0; 0; 0; 0; 0];
   [1; 2; 2; 2; 2; 1; 0; 0; 0; 0; 0];
   [1; 2; 2; 2; 2; 2; 1; 0; 0; 0; 0];
   [1; 2; 2; 2; 2; 2; 2; 1; 0; 0; 0];
   [1; 2; 2; 2; 2; 2; 2; 2; 1; 0; 0];
   [1; 2; 2; 2; 2; 2; 2; 2; 2; 1; 0];
   [1; 2; 2; 2; 2; 2; 2; 2; 2; 2; 1];
   [1; 2; 2; 2; 2; 2; 1; 1; 1; 1; 1];
   [1; 2; 2; 1; 2; 2; 1; 0; 0; 0; 0];
   [1; 2; 1; 0; 1; 2; 2; 1; 0; 0; 0];
   [1; 1; 0; 0; 1; 2; 2; 1; 0; 0; 0];
   [1; 0; 0; 0; 0; 1; 2; 2; 1; 0; 0];
   [0; 0; 0; 0; 0; 1; 2; 2; 1; 0; 0];
   [0; 0; 0; 0; 0; 0; 1; 1; 0; 0; 0]].

Definition cursor_sizewe : list (list Z) :=
  [[0; 0; 0; 0; 0; 2; 0; 0; 0; 0; 0];
   [0; 0; 0; 0; 2; 1; 2; 0; 0; 0; 0];
   [0; 0; 0; 2; 1; 1; 1; 2; 0; 0; 0];
   [0; 0; 2; 1; 1; 1; 1; 1; 2; 0; 0];
   [2; 1; 1; 1; 1; 1; 1; 1; 1; 1; 2];
   [2; 1; 1; 1; 1; 1; 1; 1; 1; 1; 2];
   [2; 1; 1; 1; 1; 1; 1; 1; 1; 1; 2];
   [0; 0; 2; 1; 1; 1; 1; 1; 2; 0; 0];
   [0; 0; 0; 2; 1; 1; 1; 2; 0; 0; 0];
   [0; 0; 0; 0; 2; 1; 2; 0; 0; 0; 0];
   [0; 0; 0; 0; 0; 2; 0; 0; 0; 0; 0]].

Definition cursor_sizens : list (list Z) :=
  [[0; 0; 0; 0; 2; 2; 2; 0; 0; 0; 0];
   [0; 0; 0; 2; 1; 1; 1; 2; 0; 0; 0];
   [0; 0; 2; 1; 1; 1; 1; 1; 2; 0; 0];
   [0; 0; 0; 0; 0; 1; 0; 0; 0; 0; 0];
   [0; 0; 0; 0; 0; 1; 0; 0; 0; 0; 0];
   [0; 0; 0; 0; 0; 1; 0; 0; 0; 0; 0];
   [0; 0; 0; 0; 0; 1; 0; 0; 0; 0; 0];
   [0; 0; 0; 0; 0; 1; 0; 0; 0; 0; 0];
   [0; 0; 2; 1; 1; 1; 1; 1; 2; 0; 0];
   [0; 0; 0; 2; 1; 1; 1; 2; 0; 0; 0];
   [0; 0; 0; 0; 2; 2; 2; 0; 0; 0; 0]].

Definition cursor_sizenwse : list (list Z) :=
  [[2; 1; 0; 0; 0; 0; 0; 0; 0; 0; 0];
   [1; 2; 1; 0; 0; 0; 0; 0; 0; 0; 0];
   [0; 1; 2; 1; 0; 0; 0; 0; 0; 0; 0];
   [0; 0; 1; 2; 1; 0; 0; 0; 0; 0; 0];
   [0; 0; 0; 1; 2; 1; 0; 0; 0; 0; 0];
   [0; 0; 0; 0; 1; 2; 1; 0; 0; 0; 0];
   [0; 0; 0; 0; 0; 1; 2; 1; 0; 0; 0];
   [0; 0; 0; 0; 0; 0; 1; 2; 1; 0; 0];
   [0; 0; 0; 0; 0; 0; 0; 1; 2; 1; 0];
   [0; 0; 0; 0; 0; 0; 0; 0; 1; 2; 1];
   [0; 0; 0; 0; 0; 0; 0; 0; 0; 1; 2]].

Definition cursor_sizenesw : list (list Z) :=
  [[0; 0; 0; 0; 0; 0; 0; 0; 0; 1; 2];
   [0; 0; 0; 0; 0; 0; 0; 0; 1; 2; 1];
   [0; 0; 0; 0; 0; 0; 0; 1; 2; 1; 0];
   [0; 0; 0; 0; 0; 0; 1; 2; 1; 0; 0];
   [0; 0; 0; 0; 0; 1; 2; 1; 0; 0; 0];
   [0; 0; 0; 0; 1; 2; 1; 0; 0; 0; 0];
   [0; 0; 0; 1; 2; 1; 0; 0; 0; 0; 0];
   [0; 0; 1; 2; 1; 0; 0; 0; 0; 0; 0];
   [0; 1; 2; 1; 0; 0; 0; 0; 0; 0; 0];
   [1; 2; 1; 0; 0; 0; 0; 0; 0; 0; 0];
   [2; 1; 0; 0; 0; 0; 0; 0; 0; 0; 0]].

Inductive MOUSE_CURSOR_TYPE :=
| MOUSE_CURSOR_ARROW | MOUSE_CURSOR_SIZEWE | MOUSE_CURSOR_SIZENS | MOUSE_CURSOR_SIZENWSE | MOUSE_CURSOR_SIZENESW.

#[global] Instance cursor_type_eq_dec : EqDecision MOUSE_CURSOR_TYPE.
Proof. solve_decision. Defined.

Record MOUSE_STATE := mkState {
  x : Z; y : Z; buttons : Z; left_down : Z; right_down : Z; middle_down : Z; wheel_delta : Z
}.

Record mouse := mkMouse {
  state : MOUSE_STATE;
  mouse_cycle : Z;
  mouse_byte : list Z;
  mouse_packet_size : Z;
  mouse_old_x : Z;
  mouse_old_y : Z;
  mouse_cursor_type : MOUSE_CURSOR_TYPE;
  cursor_bg : mem;
  cursor_saved : bool
}.

Definition set_state (m : mouse) (s : MOUSE_STATE) : mouse :=
  mkMouse s (mouse_cycle m) (mouse_byte m) (mouse_packet_size m) (mouse_old_x m) (mouse_old_y m)
    (mouse_cursor_type m) (cursor_bg m) (cursor_saved m).
Definition set_cycle (m : mouse) (c : Z) (b : list Z) : mouse :=
  mkMouse (state m) c b (mouse_packet_size m) (mouse_old_x m) (mouse_old_y m)
    (mouse_cursor_type m) (cursor_bg m) (cursor_saved m).
Definition with_wheel (s : MOUSE_STATE) (w : Z) : MOUSE_STATE :=
  mkState (x s) (y s) (buttons s) (left_down s) (right_down s) (middle_down s) w.

(** The colour class of a cursor cell: 0 transparent, 1 white, 2 black. *)
Definition cell (bitmap : list (list Z)) (row col : Z) : Z := get 0 (get [] bitmap row) col.

Definition mouse_cursor_at (t : MOUSE_CURSOR_TYPE) (row col : Z) : Z :=
  match t with
  | MOUSE_CURSOR_ARROW => cell cursor row col
  | _ =>
      if (11 <=? row) || (11 <=? col) then cell cursor 0 0 else
      match t with
      | MOUSE_CURSOR_SIZEWE => cell cursor_sizewe row col
      | MOUSE_CURSOR_SIZENS => cell cursor_sizens row col
      | MOUSE_CURSOR_SIZENWSE => cell cursor_sizenwse row col
      | MOUSE_CURSOR_SIZENESW => cell cursor_sizenesw row col
      | MOUSE_CURSOR_ARROW => cell cursor row col
      end
  end.

Definition mouse_cursor_width (t : MOUSE_CURSOR_TYPE) : Z := 11.
Definition mouse_cursor_height (t : MOUSE_CURSOR_TYPE) : Z := match t with MOUSE_CURSOR_ARROW => 18 | _ => 11 end.

(** ** Packets *)

(** [x_move = x_move * 2] into an [int8_t]; zero stays zero. *)
Definition double_move (d : Z) : Z := if 0 <? d then s8 (d * 2) else if d <? 0 then s8 (d * 2) else d.

Definition clamp (v hi : Z) : Z :=
  let hi := if hi <? 0 then 0 else hi in
  let v := if v <? 0 then 0 else v in
  if hi <? v then hi else v.

(** The screen size is read through [FbGetWidth] and [FbGetHeight]. *)
Definition MouseHandleByte (fbw fbh data : Z) (m : mouse) : mouse :=
  let s := state m in
  if mouse_cycle m =? 0 then
    if Z.land data 8 =? 0 then m
    else set_cycle (set_state m (with_wheel s 0)) 1 (put (mouse_byte m) 0 (s8 data))
  else if mouse_cycle m =? 1 then set_cycle m 2 (put (mouse_byte m) 1 (s8 data))
  else if mouse_cycle m =? 2 then
    let bytes := put (mouse_byte m) 2 (s8 data) in
    let b := Z.land (get 0 bytes 0) 7 in
    let x_move := double_move (get 0 bytes 1) in
    let y_move := double_move (s8 (- get 0 bytes 2)) in
    let s := mkState (clamp (x s + x_move) (fbw - 1)) (clamp (y s + y_move) (fbh - 1)) b
               (Z.land b 1) (Z.land b 2) (Z.land b 4) (wheel_delta s) in
    set_cycle (set_state m s) (if mouse_packet_size m =? 3 then 0 else 3) bytes
  else if mouse_cycle m =? 3 then
    let wheel := Z.land data 15 in
    let wheel := if Z.land wheel 8 =? 0 then wheel else wheel - 16 in
    set_cycle (set_state m (with_wheel s wheel)) 0 (mouse_byte m)
  else m.

Definition MouseGetState (m : mouse) : MOUSE_STATE := state m.

Section controller.
Context {D : Type} `{Bus D} (a : arch).

Definition mouse_wait (type : Z) : hw D unit :=
  (if type =? 0 then poll (Z.to_nat 100000) (inb a 100) (fun v => Z.land v 1 =? 1)
   else poll (Z.to_nat 100000) (inb a 100) (fun v => Z.land v 2 =? 0));; mret tt.

Definition mouse_write (data : Z) : hw D unit := mouse_wait 1;; outb a 100 212;; mouse_wait 1;; outb a 96 data.
Definition mouse_read : hw D Z := mouse_wait 0;; inb a 96.

Fixpoint mouse_command (l : list Z) : hw D unit :=
  match l with [] => mret tt | c :: l => mouse_write c;; mouse_read;; mouse_command l end.

Definition MouseInit (m : mouse) : hw D mouse :=
  mouse_wait 1;; outb a 100 168;;
  mouse_wait 1;; outb a 100 32;; mouse_wait 0;; v ← inb a 96;
  mouse_wait 1;; outb a 100 96;; mouse_wait 1;; outb a 96 (Z.lor v 2);;
  mouse_command [246; 243; 200; 243; 100; 243; 80];;
  mouse_write 242;; mouse_read;; id ← mouse_read;
  mouse_command [244];;
  let s := state m in
  mret (mkMouse (mkState 320 240 (buttons s) (left_down s) (right_down s) (middle_down s) 0)
    (mouse_cycle m) (mouse_byte m) (if id =? 3 then 4 else 3) 320 240 (mouse_cursor_type m) (cursor_bg m) false).

Definition MouseHandleInterrupt (fbw fbh : Z) (m : mouse) : hw D mouse :=
  status ← inb a 100;
  if Z.land status 32 =? 0 then mret m else
  if Z.land status 1 =? 0 then mret m else
  data ← inb a 96;
  mret (MouseHandleByte fbw fbh data m).

End controller.

(** ** The cursor on the screen *)
Section cursor_ops.
Context {D H : Type} `{Bus D} `{KernelHeap H}.
Implicit Types st : fb D H.

Definition visible (px py : Z) st : bool :=
  (0 <=? px) && (px <? FbGetWidth st) && (0 <=? py) && (py <? FbGetHeight st).

Definition MouseEraseCursor (m : mouse) st : fb D H :=
  if negb (cursor_saved m) then st else
  let t := mouse_cursor_type m in
  for_range 0 (mouse_cursor_height t) (fun row st =>
    for_range 0 (mouse_cursor_width t) (fun col st =>
      if mouse_cursor_at t row col =? 0 then st else
      let px := mouse_old_x m + col in
      let py := mouse_old_y m + row in
      if visible px py st then FbPutPixelRGB px py (cursor_bg m (row * 11 + col)) st else st) st) st.

(** The pixels under the cursor at [cx], [cy]. *)
Definition save_background (t : MOUSE_CURSOR_TYPE) (cx cy : Z) st (bg : mem) : mem :=
  for_range 0 (mouse_cursor_height t) (fun row bg =>
    for_range 0 (mouse_cursor_width t) (fun col bg =>
      if mouse_cursor_at t row col =? 0 then bg else
      let px := cx + col in
      let py := cy + row in
      if visible px py st then upd bg (row * 11 + col) (FbGetPixelRGB px py st) else bg) bg) bg.

Definition paint_cursor (t : MOUSE_CURSOR_TYPE) (cx cy : Z) st : fb D H :=
  for_range 0 (mouse_cursor_height t) (fun row st =>
    for_range 0 (mouse_cursor_width t) (fun col st =>
      let px := cx + col in
      let py := cy + row in
      if visible px py st then
        if mouse_cursor_at t row col =? 1 then FbPutPixel px py 15 st
        else if mouse_cursor_at t row col =? 2 then FbPutPixel px py 0 st else st
      else st) st) st.

Definition MouseDrawCursor (m : mouse) st : mouse * fb D H :=
  let t := mouse_cursor_type m in
  let cx := x (state m) in
  let cy := y (state m) in
  let bg := save_background t cx cy st (cursor_bg m) in
  (mkMouse (state m) (mouse_cycle m) (mouse_byte m) (mouse_packet_size m) cx cy t bg true,
   paint_cursor t cx cy st).

Definition MouseSetCursorType (t : MOUSE_CURSOR_TYPE) (m : mouse) st : mouse * fb D H :=
  if decide (mouse_cursor_type m = t) then (m, st) else
  let st := MouseEraseCursor m st in
  (mkMouse (state m) (mouse_cycle m) (mouse_byte m) (mouse_packet_size m) (mouse_old_x m) (mouse_old_y m)
     t (cursor_bg m) false, st).

End cursor_ops.

(** ** The decoder *)

Lemma packet_run fbw fbh b0 b1 b2 m :
  Z.land b0 8 <> 0 -> mouse_cycle m = 0 -> mouse_packet_size m = 3 -> length (mouse_byte m) = 3%nat ->
  let m' := fold_left (fun m b => MouseHandleByte fbw fbh b m) [b0; b1; b2] m in
  let b := Z.land (s8 b0) 7 in
  state m' = mkState (clamp (x (state m) + double_move (s8 b1)) (fbw - 1))
    (clamp (y (state m) + double_move (s8 (- s8 b2))) (fbh - 1)) b (Z.land b 1) (Z.land b 2) (Z.land b 4) 0 /\
  mouse_cycle m' = 0.
Proof.
  intros Hsync Hc Hp Hl. destruct m as [s c bytes n ox oy t bg sv]. cbn in Hc, Hp, Hl. subst c n.
  destruct bytes as [|v0 [|v1 [|v2 []]]]; try done.
  set (m0 := mkMouse s 0 _ 3 ox oy t bg sv). cbn [fold_left].
  assert (E1 : MouseHandleByte fbw fbh b0 m0 = mkMouse (with_wheel s 0) 1 [s8 b0; v1; v2] 3 ox oy t bg sv).
  { unfold MouseHandleByte. cbn [mouse_cycle m0 Z.eqb]. rewrite (proj2 (Z.eqb_neq _ _) Hsync). done. }
  rewrite E1. done.
Qed.

(** A three-byte packet (the first byte has its sync bit) from a driver
    between packets: the buttons are the low bits of the first byte, the
    pointer moves by twice the signed deltas, up for positive [dy], as long as
    they are below 64, and it stays on the screen; the driver is between
    packets again. *)
Theorem mouse_packet_moves (fbw fbh b0 dx dy : Z) (m : mouse) :
  0 < fbw -> 0 < fbh -> is_u8 b0 -> Z.land b0 8 <> 0 -> -64 < dx < 64 -> -64 < dy < 64 ->
  mouse_cycle m = 0 -> mouse_packet_size m = 3 -> length (mouse_byte m) = 3%nat ->
  let m' := fold_left (fun m b => MouseHandleByte fbw fbh b m) [b0; u8 dx; u8 dy] m in
  let s := state m in
  x (state m') = Z.max 0 (Z.min (fbw - 1) (x s + 2 * dx)) /\
  y (state m') = Z.max 0 (Z.min (fbh - 1) (y s - 2 * dy)) /\
  buttons (state m') = Z.land b0 7 /\ wheel_delta (state m') = 0 /\ mouse_cycle m' = 0.
Proof.
  intros Hw Hh Hb0 Hsync Hdx Hdy Hc Hp Hl m' s.
  destruct (packet_run fbw fbh b0 (u8 dx) (u8 dy) m Hsync Hc Hp Hl) as [E Ec]. fold m' in E, Ec. rewrite E.
  cbn [x y buttons wheel_delta]. fold s.
  assert (s8 (u8 dx) = dx) as -> by zlia. assert (s8 (- s8 (u8 dy)) = - dy) as -> by zlia.
  assert (Hd : forall d, -64 < d < 64 -> double_move d = 2 * d) by (intros; unfold double_move; zbool; zlia).
  rewrite !Hd by lia. rewrite !land_7. unfold clamp. split_and!; try done; zbool; try lia. zlia.
Qed.

Definition centred : mouse :=
  mkMouse (mkState 320 240 0 0 0 0 0) 0 [0; 0; 0] 3 320 240 MOUSE_CURSOR_ARROW (fun _ => 0) false.

Lemma mouse_packet_moves_witness :
  let m' := fold_left (fun m b => MouseHandleByte 640 480 b m) [9; 20; 246] centred in
  x (state m') = 360 /\ y (state m') = 260 /\ buttons (state m') = 1.
Proof.
  destruct (mouse_packet_moves 640 480 9 20 (-10) centred ltac:(lia) ltac:(lia) ltac:(split; lia) ltac:(discriminate)
    ltac:(lia) ltac:(lia) eq_refl eq_refl eq_refl) as (Hx & Hy & Hb & _).
  split; [exact Hx|]. split; [exact Hy | exact Hb].
Defined.

(** The doubled delta is cut to eight signed bits: from 64 counts on, a fast
    motion to the right moves the pointer to the left. *)
Theorem mouse_fast_motion_reversed (fbw fbh b0 dx : Z) (m : mouse) :
  0 <= x (state m) < fbw -> Z.land b0 8 <> 0 -> 64 <= dx < 128 ->
  mouse_cycle m = 0 -> mouse_packet_size m = 3 -> length (mouse_byte m) = 3%nat ->
  x (state (fold_left (fun m b => MouseHandleByte fbw fbh b m) [b0; dx; 0] m))
  = Z.max 0 (x (state m) - (256 - 2 * dx)).
Proof.
  intros Hx Hsync Hdx Hc Hp Hl. destruct (packet_run fbw fbh b0 dx 0 m Hsync Hc Hp Hl) as [-> _]. cbn [x].
  assert (double_move (s8 dx) = 2 * dx - 256) as -> by (unfold double_move; zbool; zlia).
  unfold clamp. zbool; lia.
Qed.

(** ** Drawing and erasing the cursor *)
Section cursor_proofs.
Context {D H : Type} `{Bus D} `{KernelHeap H}.
Implicit Types st : fb D H.

Lemma visible_on_screen px py st : visible px py st = true <-> on_screen (mode st) px py.
Proof.
  unfold visible, on_screen, FbGetWidth, FbGetHeight. rewrite !andb_true_iff, !Z.leb_le, !Z.ltb_lt. lia.
Qed.

Lemma visible_mode px py st st' : mode st' = mode st -> visible px py st' = visible px py st.
Proof. intros E. unfold visible, FbGetWidth, FbGetHeight. by rewrite E. Qed.

Lemma marked_surface px py x y w h st sh sf :
  small_rect x y w h -> screen_ok st -> on_screen (mode st) px py ->
  FbGetPixelRGB px py (fb_mark_dirty x y w h (set_surf st (with_arrays (surf st) sh sf)))
  = sf (py * fb_width (mode st) + px).
Proof.
  intros Hsm Hok Hxy.
  destruct (mark_dirty_spec x y w h (set_surf st (with_arrays (surf st) sh sf)) Hsm (so_mode _ Hok) (so_dirty _ Hok))
    as (d & -> & Hd & _).
  rewrite get_pixel_rgb; [done | | done]. by destruct Hok; split.
Qed.

Lemma put_rgb_get px py x y rgb st :
  screen_ok st -> on_screen (mode st) px py -> on_screen (mode st) x y ->
  FbGetPixelRGB px py (FbPutPixelRGB x y rgb st) = if (px =? x) && (py =? y) then rgb else FbGetPixelRGB px py st.
Proof.
  intros Hok Hp [Hx Hy]. unfold FbPutPixelRGB. rewrite (mo_use _ (so_mode _ Hok)). cbn [negb].
  destruct (so_arrays _ Hok) as [Hs Hf].
  rewrite (proj2 (Z.eqb_neq _ _) Hs), (proj2 (Z.eqb_neq _ _) Hf), !(proj2 (Z.leb_gt _ _)), !(proj2 (Z.ltb_ge _ _)) by lia.
  cbn [orb]. rewrite marked_surface, get_pixel_rgb by (done || (destruct (so_mode _ Hok); unfold small_rect, small; lia)). destruct Hp as [Hpx Hpy].
  destruct (Z.eqb_spec px x) as [->|], (Z.eqb_spec py y) as [->|]; cbn [andb];
    [unfold upd; by rewrite Z.eqb_refl | apply upd_other; lia..].
Qed.

Lemma put_color_other px py x y color st :
  screen_ok st -> on_screen (mode st) px py -> px <> x \/ py <> y ->
  FbGetPixelRGB px py (FbPutPixel x y color st) = FbGetPixelRGB px py st.
Proof.
  intros Hok Hp Hne. unfold FbPutPixel. rewrite (mo_use _ (so_mode _ Hok)).
  destruct (_ || _) eqn:E; [done|]. rewrite !orb_false_iff, !Z.leb_gt, !Z.ltb_ge in E.
  destruct (_ && _); [done|]. rewrite marked_surface, get_pixel_rgb by (done || (destruct (so_mode _ Hok); unfold small_rect, small; lia)). destruct Hp as [Hpx Hpy].
  apply upd_other; lia.
Qed.

Section at_position.
Context (t : MOUSE_CURSOR_TYPE) (cx cy : Z) (st0 : fb D H).
Context (Hok : screen_ok st0) (Hco : coherent st0).

(** The pixels the cursor paints. *)
Definition covered (px py : Z) : bool :=
  within 0 (py - cy) (mouse_cursor_height t) && within 0 (px - cx) 11
  && negb (mouse_cursor_at t (py - cy) (px - cx) =? 0).

Lemma save_background_spec bg row col :
  0 <= row < mouse_cursor_height t -> 0 <= col < 11 -> mouse_cursor_at t row col <> 0 ->
  on_screen (mode st0) (cx + col) (cy + row) ->
  save_background t cx cy st0 bg (row * 11 + col) = FbGetPixelRGB (cx + col) (cy + row) st0.
Proof.
  intros Hr Hc Hcell Hscr. unfold save_background, mouse_cursor_width.
  pose proof (for_range_rule (fun r (bg' : mem) => forall row col, 0 <= row < r -> 0 <= col < 11 ->
    mouse_cursor_at t row col <> 0 -> on_screen (mode st0) (cx + col) (cy + row) ->
    bg' (row * 11 + col) = FbGetPixelRGB (cx + col) (cy + row) st0) 0 (mouse_cursor_height t)) as Hrows.
  apply Hrows; [lia | | lia | done | done | done]. clear row col Hr Hc Hcell Hscr Hrows.
  intros r bg' Hr Hbg row col Hrow Hcol Hcell Hscr.
  pose proof (for_range_rule (fun c (bg'' : mem) => forall row col,
    (0 <= row < r /\ 0 <= col < 11 \/ row = r /\ 0 <= col < c) ->
    mouse_cursor_at t row col <> 0 -> on_screen (mode st0) (cx + col) (cy + row) ->
    bg'' (row * 11 + col) = FbGetPixelRGB (cx + col) (cy + row) st0) 0 11) as Hcols.
  apply Hcols; [| | lia | done | done].
  - intros ? ? [|]; [by apply Hbg; lia | lia].
  - clear row col Hrow Hcol Hcell Hscr Hcols. intros c bg'' Hc Hbg'' row col Hcase Hcell Hscr.
    destruct (Z.eqb_spec (mouse_cursor_at t r c) 0) as [E|E].
    + apply Hbg''; [|done..]. destruct (Z.eq_dec col c) as [->|]; [|lia].
      destruct (Z.eq_dec row r) as [->|]; [done | lia].
    + destruct (visible (cx + c) (cy + r) st0) eqn:V.
      * unfold upd. destruct (Z.eqb_spec (row * 11 + col) (r * 11 + c)) as [Ei|Ei].
        -- assert (row = r /\ col = c) as [-> ->] by lia. done.
        -- apply Hbg''; [lia | done..].
      * apply Hbg''; [|done..]. destruct (Z.eq_dec col c) as [->|]; [|lia].
        destruct (Z.eq_dec row r) as [->|]; [|lia]. apply visible_on_screen in Hscr. congruence.
Qed.

(** Two nested loops over the cells, as one rule. *)
Lemma cells_rule (P : Z -> Z -> fb D H -> Prop) body st :
  P 0 0 st ->
  (forall row col st, 0 <= row < mouse_cursor_height t -> 0 <= col < 11 -> P row col st -> P row (col + 1) (body row col st)) ->
  (forall row st, P row 11 st -> P (row + 1) 0 st) ->
  P (mouse_cursor_height t) 0
    (for_range 0 (mouse_cursor_height t) (fun row st => for_range 0 (mouse_cursor_width t) (body row) st) st).
Proof.
  intros H0' Hcol Hrow.
  pose proof (for_range_inv (fun r st => P r 0 st) 0 (mouse_cursor_height t)) as R. cbn in R.
  apply R; [by destruct t | done |]. intros row st1 Hr HP. apply Hrow.
  pose proof (for_range_inv (fun c st => P row c st) 0 11) as C. cbn in C. apply C; [lia | done |].
  intros col st2 Hc HP2. by apply Hcol.
Qed.

Lemma paint_cursor_spec :
  drawn st0 (paint_cursor t cx cy st0) /\
  forall px py, on_screen (mode st0) px py -> covered px py = false ->
    FbGetPixelRGB px py (paint_cursor t cx cy st0) = FbGetPixelRGB px py st0.
Proof.
  unfold paint_cursor. apply (cells_rule (fun _ _ st => drawn st0 st /\
    forall px py, on_screen (mode st0) px py -> covered px py = false -> FbGetPixelRGB px py st = FbGetPixelRGB px py st0)).
  - split; [by apply drawn_refl | done].
  - intros row col st Hr Hc [Hd Hs]. destruct (visible _ _ _); [|done].
    assert (Hput : forall color, mouse_cursor_at t row col <> 0 ->
      drawn st0 (FbPutPixel (cx + col) (cy + row) color st) /\
      forall px py, on_screen (mode st0) px py -> covered px py = false ->
        FbGetPixelRGB px py (FbPutPixel (cx + col) (cy + row) color st) = FbGetPixelRGB px py st0).
    { intros color Hcell. split; [eapply drawn_trans; [done|]; apply FbPutPixel_drawn; apply Hd|].
      intros px py Hp Hcov. rewrite put_color_other; [by apply Hs | apply Hd | by rewrite (dr_mode _ _ Hd) |].
      destruct (Z.eq_dec px (cx + col)) as [->|]; [|by left]. right. intros ->. unfold covered in Hcov.
      replace (cy + row - cy) with row in Hcov by lia. replace (cx + col - cx) with col in Hcov by lia.
      rewrite !(proj2 (within_true _ _ _)), (proj2 (Z.eqb_neq _ _) Hcell) in Hcov by lia. done. }
    destruct (Z.eqb_spec (mouse_cursor_at t row col) 1); [apply Hput; lia|].
    destruct (Z.eqb_spec (mouse_cursor_at t row col) 2); [apply Hput; lia | done].
  - done.
Qed.

(** Erasing with the saved background puts every pixel back. *)
Lemma erase_spec m st :
  drawn st0 st -> cursor_saved m = true -> mouse_cursor_type m = t -> mouse_old_x m = cx -> mouse_old_y m = cy ->
  (forall row col, 0 <= row < mouse_cursor_height t -> 0 <= col < 11 -> mouse_cursor_at t row col <> 0 ->
     on_screen (mode st0) (cx + col) (cy + row) ->
     cursor_bg m (row * 11 + col) = FbGetPixelRGB (cx + col) (cy + row) st0) ->
  (forall px py, on_screen (mode st0) px py -> covered px py = false ->
     FbGetPixelRGB px py st = FbGetPixelRGB px py st0) ->
  drawn st0 (MouseEraseCursor m st) /\
  forall px py, on_screen (mode st0) px py -> FbGetPixelRGB px py (MouseEraseCursor m st) = FbGetPixelRGB px py st0.
Proof.
  intros Hd Hsv Ht Hx Hy Hbg Hs. unfold MouseEraseCursor. rewrite Hsv, Ht, Hx, Hy. cbn [negb].
  pose proof (cells_rule (fun row col st => drawn st0 st /\
    forall px py, on_screen (mode st0) px py ->
      (covered px py = true -> py - cy < row \/ py - cy = row /\ px - cx < col) ->
      FbGetPixelRGB px py st = FbGetPixelRGB px py st0)
    (fun row col st => if mouse_cursor_at t row col =? 0 then st else
       if visible (cx + col) (cy + row) st then FbPutPixelRGB (cx + col) (cy + row) (cursor_bg m (row * 11 + col)) st
       else st)) as Hrule.
  destruct (Hrule st) as [Hd' Hs']; clear Hrule.
  - split; [done|]. intros px py Hp Hc. apply Hs; [done|]. destruct (covered px py) eqn:E; [|done].
    specialize (Hc eq_refl). unfold covered in E. rewrite !andb_true_iff, !within_true in E. lia.
  - intros row col st1 Hr Hc [Hd1 Hs1]. destruct (Z.eqb_spec (mouse_cursor_at t row col) 0) as [E|E].
    { split; [done|]. intros px py Hp Hcov. apply Hs1; [done|]. intros C. specialize (Hcov C).
      destruct (Z.eq_dec (py - cy) row) as [<-|]; [|lia]. destruct (Z.eq_dec (px - cx) col) as [<-|]; [|lia].
      unfold covered in C. rewrite E, andb_false_r in C. done. }
    rewrite (visible_mode _ _ _ _ (dr_mode _ _ Hd1)).
    destruct (visible (cx + col) (cy + row) st0) eqn:V.
    + apply visible_on_screen in V. split.
      { eapply drawn_trans; [done|]. apply FbPutPixelRGB_drawn; apply Hd1. }
      intros px py Hp Hcov. rewrite put_rgb_get; [|apply Hd1 | by rewrite (dr_mode _ _ Hd1)..].
      destruct (Z.eqb_spec px (cx + col)) as [->|], (Z.eqb_spec py (cy + row)) as [->|]; cbn [andb];
        [by apply Hbg | apply Hs1; [done|]; intros C; specialize (Hcov C); lia..].
    + split; [done|]. intros px py Hp Hcov. apply Hs1; [done|]. intros C. specialize (Hcov C).
      destruct (Z.eq_dec (py - cy) row) as [<-|]; [|lia]. destruct (Z.eq_dec (px - cx) col) as [<-|]; [|lia].
      replace (cx + (px - cx)) with px in V by lia. replace (cy + (py - cy)) with py in V by lia.
      apply visible_on_screen in Hp. congruence.
  - intros row st1 [Hd1 Hs1]. split; [done|]. intros px py Hp Hcov. apply Hs1; [done|]. intros C. specialize (Hcov C).
    unfold covered in C. rewrite !andb_true_iff, !within_true in C. lia.
  - split; [exact Hd'|]. intros px py Hp. apply Hs'; [done|]. intros C.
    unfold covered in C. rewrite !andb_true_iff, !within_true in C. lia.
Qed.

End at_position.

(** Erasing the cursor right after drawing it restores the picture: every
    pixel of the screen is the one before, wherever the pointer is (part or all
    of the bitmap off the screen), whatever its shape and whatever the clip
    rectangle in force. *)
Theorem cursor_draw_erase (m : mouse) st :
  screen_ok st -> coherent st ->
  let '(m', st') := MouseDrawCursor m st in
  forall px py, on_screen (mode st) px py ->
    FbGetPixelRGB px py (MouseEraseCursor m' st') = FbGetPixelRGB px py st.
Proof.
  intros Hok Hco. cbn. set (t := mouse_cursor_type m). set (cx := x (state m)). set (cy := y (state m)).
  destruct (paint_cursor_spec t cx cy st Hok Hco) as [Hd Hs].
  assert (Hbg : forall row col, 0 <= row < mouse_cursor_height t -> 0 <= col < 11 -> mouse_cursor_at t row col <> 0 ->
    on_screen (mode st) (cx + col) (cy + row) ->
    save_background t cx cy st (cursor_bg m) (row * 11 + col) = FbGetPixelRGB (cx + col) (cy + row) st)
    by (intros; by apply save_background_spec).
  apply (erase_spec t cx cy st (mkMouse (state m) (mouse_cycle m) (mouse_byte m) (mouse_packet_size m) cx cy t
    (save_background t cx cy st (cursor_bg m)) true) (paint_cursor t cx cy st) Hd eq_refl eq_refl eq_refl eq_refl Hbg Hs).
Qed.

End cursor_proofs.

Lemma small_screen_coherent : coherent small_screen.
Proof.
  split; [done|]. intros page px py Hl Hp _ k Hk. unfold live_page in Hl. cbn in Hl. subst page.
  cbn. unfold byte_of, encode. cbn [Z.eqb Pos.eqb]. by rewrite Z.shiftr_0_l.
Qed.

Lemma cursor_draw_erase_witness :
  let '(m', st') := MouseDrawCursor (set_state centred (mkState 3 (-2) 0 0 0 0 0)) small_screen in
  FbGetPixelRGB 3 3 st' = 16777215 /\ FbGetPixelRGB 3 3 (MouseEraseCursor m' st') = 0.
Proof.
  pose proof (cursor_draw_erase (set_state centred (mkState 3 (-2) 0 0 0 0 0)) small_screen
    small_screen_ok small_screen_coherent) as P.
  unfold MouseDrawCursor in *. split; [vm_compute; reflexivity|].
  etransitivity; [apply P; split; cbn; lia | reflexivity].
Defined.

End Mouse.
