(* ===== verification/Fat32.v ===== *)
(** * drivers/fat32/fat32.c: the read-only FAT32 file system

    Sectors come through the I/O manager of [Io]: [read_bytes] builds the
    request and calls [IoCallDriver]; what it read is the list of bytes the
    device left in the buffer.  Loops that follow a cluster chain of the disk
    take [fuel]: nothing in the code bounds them ([None] is running out of it,
    or undefined behaviour below).  The file's bytes are returned as a list with
    the address of the buffer that holds them. *)

From stdpp Require Import base list numbers gmap strings.
From Stdlib Require Import ZArith Lia.
From S2P Require Import Prelude.
From S2P Require Import Util.
From S2P Require Import Pmm.
From S2P Require Import Vmm.
From S2P Require Import Mm.
From S2P Require Import Ob.
From S2P Require Import RtlPath.
From S2P Require Import Io.
From S2P Require Import Sim.
Import Util Ob Io RtlPath.

Module Fat32.

Definition IO_MJ_READ : Z := 2.

(** Little-endian fields of a block of bytes. *)
Definition le8 (b : list Z) (o : Z) : Z := get 0 b o.
Definition le16 (b : list Z) (o : Z) : Z := le8 b o + 256 * le8 b (o + 1).
Definition le32 (b : list Z) (o : Z) : Z := le16 b o + 65536 * le16 b (o + 2).

Record FAT32_VOLUME := mkVolume {
  device : Z;
  partition_lba : Z; fat_lba : Z; data_lba : Z; root_cluster : Z;
  sectors_per_fat : Z; bytes_per_sector : Z; sectors_per_cluster : Z; mounted : bool
}.

Definition no_volume : FAT32_VOLUME := mkVolume 0 0 0 0 0 0 0 0 false.

(** The fields of a directory entry the code reads. *)
Record FAT_DIRECTORY_ENTRY := mkEntry {
  name : list Z; attributes : Z; cluster_high : Z; cluster_low : Z; size : Z
}.

Definition entry_at (sector : list Z) (o : Z) : FAT_DIRECTORY_ENTRY :=
  mkEntry (take 11 (drop (Z.to_nat o) sector)) (le8 sector (o + 11)) (le16 sector (o + 20))
    (le16 sector (o + 26)) (le32 sector (o + 28)).

Definition first_cluster (e : FAT_DIRECTORY_ENTRY) : Z := Z.lor (u32 (Z.shiftl (cluster_high e) 16)) (cluster_low e).
Definition is_directory (e : FAT_DIRECTORY_ENTRY) : bool := negb (Z.land (attributes e) 16 =? 0).

Definition upper (c : Z) : Z := if (97 <=? c) && (c <=? 122) then u8 (c - 32) else c.

Definition names_equal (a b : list Z) : bool := bool_decide (take 11 a = take 11 b).

(** ** 8.3 names *)
Definition at_end (path : list Z) : bool :=
  match path with [] => true | c :: _ => RtlIsPathSeparator c end.

(** First loop: the base name, up to a dot; second loop: the extension. *)
Fixpoint short_base (component : list Z) (base : Z) (nm : list Z) : list Z * list Z :=
  match component with
  | [] => (nm, [])
  | c :: rest =>
      if RtlIsPathSeparator c then (nm, component) else
      if c =? DOT then (nm, rest) else
      if base <? 8 then short_base rest (base + 1) (put nm base (upper c)) else short_base rest base nm
  end.

Fixpoint short_ext (component : list Z) (extension : Z) (nm : list Z) : list Z :=
  match component with
  | [] => nm
  | c :: rest =>
      if RtlIsPathSeparator c then nm else
      if extension <? 11 then short_ext rest (extension + 1) (put nm extension (upper c)) else short_ext rest extension nm
  end.

Definition short_name (component : list Z) : list Z :=
  let '(nm, rest) := short_base component 0 (replicate 11 32) in short_ext rest 8 nm.

Fixpoint skip_component (path : list Z) : list Z :=
  match path with
  | [] => []
  | c :: rest => if RtlIsPathSeparator c then path else skip_component rest
  end.

(** ** One sector of a directory *)
Inductive scan_result := Found (e : FAT_DIRECTORY_ENTRY) | End_of_directory | More.

Definition entry_test (wanted : list Z) (e : FAT_DIRECTORY_ENTRY) : scan_result :=
  if le8 (name e) 0 =? 0 then End_of_directory else
  if (le8 (name e) 0 =? 229) || (attributes e =? 15) || negb (Z.land (attributes e) 8 =? 0) then More else
  if names_equal (name e) wanted then Found e else More.

Fixpoint scan_sector (n : nat) (o : Z) (wanted sector : list Z) : scan_result :=
  match n with
  | O => More
  | S n' => match entry_test wanted (entry_at sector o) with
            | More => scan_sector n' (o + 32) wanted sector
            | r => r
            end
  end.

(** [cluster >= 2 && cluster < 0x0FFFFFF8] *)
Definition in_chain (cluster : Z) : bool := (2 <=? cluster) && (cluster <? 268435448).

Section ops.
Context {D H : Type} `{KernelHeap H} (a : arch).
Implicit Types st : ob H (io D).
Context (dispatch : Z -> Z -> IO_REQUEST -> ob H (io D) -> option (Z * IO_REQUEST * ob H (io D))).
Context (run_unload : Z -> Z -> ob H (io D) -> option (ob H (io D))).

Definition read_bytes (v : FAT32_VOLUME) (offset buffer length : Z) st : option (option (list Z) * ob H (io D)) :=
  '(s, _, st) ← IoCallDriver dispatch (device v) (Some (mkRequest IO_MJ_READ 0 0 buffer length (read_write offset))) st;
  Some (if s =? IO_STATUS_SUCCESS then Some (map (bytes (memory st)) (seqZ buffer length)) else None, st).

Definition read_sector (v : FAT32_VOLUME) (lba buffer : Z) st : option (option (list Z) * ob H (io D)) :=
  read_bytes v (lba * bytes_per_sector v) buffer (bytes_per_sector v) st.

Definition next_cluster (v : FAT32_VOLUME) (cluster sector : Z) st : option (Z * ob H (io D)) :=
  let fat_offset := u32 (cluster * 4) in
  let lba := u32 (fat_lba v + fat_offset / bytes_per_sector v) in
  let offset := fat_offset mod bytes_per_sector v in
  '(data, st) ← read_sector v lba sector st;
  match data with
  | None => Some (268435455, st)
  | Some b => Some (Z.land (le32 b offset) 268435455, st)
  end.

Definition cluster_lba (v : FAT32_VOLUME) (cluster : Z) : Z :=
  u32 (data_lba v + u32 (u32 (cluster - 2) * sectors_per_cluster v)).

(** The sectors of one directory cluster; [None] for a read that failed. *)
Fixpoint scan_cluster (n : nat) (v : FAT32_VOLUME) (lba : Z) (wanted : list Z) (sector : Z) st
  : option (option scan_result * ob H (io D)) :=
  match n with
  | O => Some (Some More, st)
  | S n' =>
      '(data, st) ← read_sector v lba sector st;
      match data with
      | None => Some (None, st)
      | Some b =>
          match scan_sector (Z.to_nat ((bytes_per_sector v + 31) / 32)) 0 wanted b with
          | More => scan_cluster n' v (u32 (lba + 1)) wanted sector st
          | r => Some (Some r, st)
          end
      end
  end.

Fixpoint find_loop (fuel : nat) (v : FAT32_VOLUME) (directory_cluster : Z) (wanted : list Z) (sector : Z) st
  : option (option FAT_DIRECTORY_ENTRY * ob H (io D)) :=
  if in_chain directory_cluster then
    match fuel with
    | O => None
    | S fuel' =>
        '(r, st) ← scan_cluster (Z.to_nat (sectors_per_cluster v)) v (cluster_lba v directory_cluster) wanted sector st;
        match r with
        | Some (Found e) => Some (Some e, st)
        | Some More => '(c, st) ← next_cluster v directory_cluster sector st; find_loop fuel' v c wanted sector st
        | Some End_of_directory | None => Some (None, st)
        end
    end
  else Some (None, st).

Definition find_entry (fuel : nat) (v : FAT32_VOLUME) (directory_cluster : Z) (component : list Z) (sector : Z) st
  : option (option FAT_DIRECTORY_ENTRY * ob H (io D)) :=
  find_loop fuel v directory_cluster (short_name component) sector st.

(** The path walk: the entry of the last component. *)
Fixpoint walk_path (steps fuel : nat) (v : FAT32_VOLUME) (directory : Z) (cursor : list Z) (sector : Z) st
  : option (option FAT_DIRECTORY_ENTRY * ob H (io D)) :=
  match steps with
  | O => None
  | S steps' =>
      '(e, st) ← find_entry fuel v directory cursor sector st;
      match e with
      | None => Some (None, st)
      | Some e =>
          let next := skip_separators (skip_component cursor) in
          match next with
          | [] => Some (Some e, st)
          | _ => if negb (is_directory e) then Some (None, st)
                 else walk_path steps' fuel v (first_cluster e) next sector st
          end
      end
  end.

(** ** File data: [copied] is the length of [acc]. *)
Fixpoint copy_sectors (n : nat) (v : FAT32_VOLUME) (lba sz sector : Z) (acc : list Z) st
  : option (option (list Z) * ob H (io D)) :=
  match n with
  | O => Some (Some acc, st)
  | S n' =>
      let copied := Z.of_nat (Datatypes.length acc) in
      if sz <=? copied then Some (Some acc, st) else
      let amount := sz - copied in
      let amount := if bytes_per_sector v <? amount then bytes_per_sector v else amount in
      '(data, st) ← read_sector v lba sector st;
      match data with
      | None => Some (None, st)
      | Some b => copy_sectors n' v (u32 (lba + 1)) sz sector (acc ++ take (Z.to_nat amount) b) st
      end
  end.

Fixpoint copy_chain (fuel : nat) (v : FAT32_VOLUME) (cluster sz sector : Z) (acc : list Z) st
  : option (option (list Z) * ob H (io D)) :=
  if in_chain cluster && (Z.of_nat (Datatypes.length acc) <? sz) then
    match fuel with
    | O => None
    | S fuel' =>
        '(r, st) ← copy_sectors (Z.to_nat (sectors_per_cluster v)) v (cluster_lba v cluster) sz sector acc st;
        match r with
        | None => Some (None, st)
        | Some acc => '(c, st) ← next_cluster v cluster sector st; copy_chain fuel' v c sz sector acc st
        end
    end
  else Some (Some acc, st).

(** [kfree] of one or two blocks, then the result 0. *)
Definition fail1 (p : Z) st : option (option (Z * list Z) * ob H (io D)) :=
  h ← kh_free p (heap st); Some (None, set_heap st h).

(** The buffer's address and the file's bytes ([*size] of them), or failure. *)
Definition Fat32ReadFile (fuel : nat) (v : FAT32_VOLUME) (path : option (list Z)) (outputs_ok : bool) st
  : option (option (Z * list Z) * ob H (io D)) :=
  match path with
  | None => Some (None, st)
  | Some path =>
      if negb (mounted v) || negb outputs_ok then Some (None, st) else
      '(sector, h) ← kh_malloc (bytes_per_sector v) (heap st);
      let st := set_heap st h in
      if sector =? 0 then Some (None, st) else
      let cursor := skip_separators path in
      '(e, st) ← walk_path (S (Datatypes.length path)) fuel v (root_cluster v) cursor sector st;
      match e with
      | None => fail1 sector st
      | Some e =>
          if is_directory e then fail1 sector st else
          '(buffer, h) ← kh_malloc (if size e =? 0 then 1 else size e) (heap st);
          let st := set_heap st h in
          if buffer =? 0 then fail1 sector st else
          '(r, st) ← copy_chain fuel v (first_cluster e) (size e) sector [] st;
          match r with
          | None => h ← kh_free buffer (heap st); fail1 sector (set_heap st h)
          | Some data =>
              h ← kh_free sector (heap st);
              let st := set_heap st h in
              if negb (Z.of_nat (Datatypes.length data) =? size e) then fail1 buffer st
              else Some (Some (buffer, data), st)
          end
      end
  end.

Definition Fat32IsMounted (v : FAT32_VOLUME) : bool := mounted v.

(** [fail]: the device's reference is dropped and the volume cleared. *)
Definition mount_fail (v : FAT32_VOLUME) st : option (bool * FAT32_VOLUME * ob H (io D)) :=
  dev ← devices (memory st) !! device v;
  st ← ObDereferenceObject (io_call run_unload) (vhandle dev) st;
  Some (false, no_volume, st).

Definition bpb_ok (b : list Z) : bool :=
  (le16 b 11 =? 512) && negb (le8 b 13 =? 0) && negb (le16 b 14 =? 0) && negb (le32 b 36 =? 0) && negb (le32 b 44 =? 0).

(** [stack] is the address of the local [sector] array. *)
Definition Fat32Initialize (stack : Z) (device_name : option (list Z)) st : option (bool * FAT32_VOLUME * ob H (io D)) :=
  '(dev, st) ← IoGetDevice device_name st;
  if dev =? 0 then Some (false, no_volume, st) else
  let v := mkVolume dev 0 0 0 0 0 512 0 false in
  '(data, st) ← read_sector v 0 stack st;
  match data with
  | None => mount_fail v st
  | Some b =>
      let part := if (le8 b 510 =? 85) && (le8 b 511 =? 170) && ((le8 b 450 =? 11) || (le8 b 450 =? 12))
                  then le32 b 454 else 0 in
      let v := mkVolume dev part 0 0 0 0 512 0 false in
      '(data, st) ← read_sector v part stack st;
      match data with
      | None => mount_fail v st
      | Some b =>
          if negb (bpb_ok b) then mount_fail v st else
          let fat := u32 (part + le16 b 14) in
          Some (true, mkVolume dev part fat (u32 (fat + u32 (le8 b 16 * le32 b 36))) (le32 b 44) (le32 b 36)
            (le16 b 11) (le8 b 13) true, st)
      end
  end.

End ops.

(** * What a volume holds

    [img] is the disk, byte by byte.  The reference definitions read it
    directly: the successor of a cluster, the clusters of a chain, the entries
    of a directory, the entry of a path. *)
(** ** Blocks of memory *)
Definition load (m : mem) (p n : Z) : list Z := map m (seqZ p n).
Definition store (m : mem) (p : Z) (bs : list Z) : mem :=
  fun x => if (p <=? x) && (x <? p + Z.of_nat (Datatypes.length bs)) then get 0 bs (x - p) else m x.

Lemma store_nil m p x : store m p [] x = m x.
Proof. unfold store. destruct (Z.leb_spec p x); cbn [andb]; [|done]. by rewrite (proj2 (Z.ltb_ge _ _)) by (cbn; lia). Qed.

Lemma store_ext m m' p bs x : m x = m' x -> store m p bs x = store m' p bs x.
Proof. intros E. unfold store. by destruct (_ && _). Qed.

(** Two blocks written one after the other. *)
Lemma store_app m p b1 b2 x :
  store (store m p b1) (p + Z.of_nat (Datatypes.length b1)) b2 x = store m p (b1 ++ b2) x.
Proof.
  unfold store. rewrite length_app. destruct (Z.leb_spec (p + Z.of_nat (Datatypes.length b1)) x); cbn [andb].
  - rewrite (proj2 (Z.leb_le p x)) by lia. cbn [andb].
    replace (p + Z.of_nat (Datatypes.length b1 + Datatypes.length b2)) with (p + Z.of_nat (Datatypes.length b1) + Z.of_nat (Datatypes.length b2)) by lia.
    destruct (Z.ltb_spec x (p + Z.of_nat (Datatypes.length b1) + Z.of_nat (Datatypes.length b2))).
    + unfold get. rewrite lookup_app_r by lia. do 2 f_equal. lia.
    + by rewrite (proj2 (Z.ltb_ge x (p + Z.of_nat (Datatypes.length b1)))) by lia.
  - destruct (Z.leb_spec p x); cbn [andb]; [|done].
    rewrite !(proj2 (Z.ltb_lt _ _)) by lia. unfold get. by rewrite lookup_app_l by lia.
Qed.

Lemma load_length m p n : 0 <= n -> Datatypes.length (load m p n) = Z.to_nat n.
Proof. intros. unfold load. rewrite length_map, length_seqZ. done. Qed.

Lemma load_app m p n k : 0 <= n -> 0 <= k -> load m p (n + k) = load m p n ++ load m (p + n) k.
Proof. intros. unfold load. by rewrite seqZ_app, map_app by lia. Qed.

Lemma load_store m p bs n : n = Z.of_nat (Datatypes.length bs) -> load (store m p bs) p n = bs.
Proof.
  intros ->. apply list_eq. intros i. unfold load. rewrite list_lookup_fmap.
  destruct (Nat.lt_ge_cases i (Datatypes.length bs)) as [Hi|Hi].
  - rewrite lookup_seqZ_lt by lia. cbn. unfold store. rewrite (proj2 (Z.leb_le _ _)), (proj2 (Z.ltb_lt _ _)) by lia. cbn [andb]. unfold get.
    replace (Z.to_nat (p + Z.of_nat i - p)) with i by lia. destruct (lookup_lt_is_Some_2 bs i ltac:(lia)) as [b ->]. done.
  - rewrite lookup_seqZ_ge, lookup_ge_None_2 by lia. done.
Qed.

(** What a disk driver promises the code that reads through it: a request for at most 1 MiB of
    whole sectors inside the disk, into a buffer that does not touch the
    driver's own memory, succeeds with the disk's bytes in the buffer; nothing
    else changes but the driver's own memory and the hardware. *)
Class Disk {D H : Type} (dispatch : Z -> Z -> IO_REQUEST -> ob H (io D) -> option (Z * IO_REQUEST * ob H (io D)))
    (device routine : Z) (img : Z -> Z) (limit : Z) (Ready : io D -> Prop) (private : Z -> Prop) : Prop := {
  disk_read st r offset :
    Ready (memory st) -> major_function r = IO_MJ_READ -> parameters r = read_write offset ->
    0 <= offset -> offset mod 512 = 0 -> 0 < Io.length r <= 1048576 -> Io.length r mod 512 = 0 -> offset + Io.length r <= limit * 512 ->
    0 < buffer r -> (forall x, buffer r <= x < buffer r + Io.length r -> ~ private x) ->
    exists r' m d, dispatch routine device r st
        = Some (IO_STATUS_SUCCESS, r', set_memory st (set_hardware (set_bytes (memory st) m) d)) /\
      Ready (set_hardware (set_bytes (memory st) m) d) /\
      forall x, ~ private x -> m x = store (bytes (memory st)) (buffer r) (load img offset (Io.length r)) x
}.

(** [n] bytes a driver with this [private] memory may be given as a buffer. *)
Definition usable (private : Z -> Prop) (buf n : Z) : Prop := 0 < buf /\ forall x, buf <= x < buf + n -> ~ private x.

Lemma usable_sub private p n q k : usable private p n -> p <= q -> q + k <= p + n -> usable private q k.
Proof. intros [Hp Hx] Hq Hk. split; [lia|]. intros x ?. apply Hx. lia. Qed.

Lemma usable_nonnull private p n : usable private p n -> p <> 0.
Proof. intros [Hp _]. lia. Qed.

Section disk.
Context (img : Z -> Z) (limit : Z) (v : FAT32_VOLUME).

Definition slice (o n : Z) : list Z := map img (seqZ o n).
Definition fat_next (c : Z) : Z := Z.land (le32 (slice (fat_lba v * 512 + 4 * c) 4) 0) 268435455.
Definition cluster_start (c : Z) : Z := (data_lba v + (c - 2) * sectors_per_cluster v) * 512.
Definition cluster_data (c : Z) : list Z := slice (cluster_start c) (sectors_per_cluster v * 512).

(** The geometry [Fat32Initialize] accepts, on a disk of 32-bit sector numbers. *)
Record volume_ok : Prop := {
  vo_mounted : mounted v = true;
  vo_bps : bytes_per_sector v = 512;
  vo_spc : 0 < sectors_per_cluster v < 256;
  vo_fat : 0 <= fat_lba v;
  vo_data : 0 <= data_lba v;
  vo_limit : limit <= 4294967296
}.

(** Cluster [c] and its entry in the FAT lie on the disk. *)
Definition on_disk (c : Z) : Prop :=
  fat_lba v + c * 4 / 512 < limit /\ data_lba v + (c - 1) * sectors_per_cluster v <= limit.

(** A chain: from [c] through the FAT to a mark outside it. *)
Inductive chain : Z -> list Z -> Prop :=
| chain_end c : in_chain c = false -> chain c []
| chain_cons c l :
    in_chain c = true -> on_disk c ->
    chain (fat_next c) l -> chain c (c :: l).

Definition chain_data (l : list Z) : list Z := concat (map cluster_data l).

(** The 32-byte entries of a block of [n] of them. *)
Definition entries_of (b : list Z) (n : nat) : list FAT_DIRECTORY_ENTRY :=
  map (fun i => entry_at b (32 * i)) (seqZ 0 (Z.of_nat n)).

Definition chain_entries (l : list Z) : list FAT_DIRECTORY_ENTRY :=
  flat_map (fun c => flat_map (fun s => entries_of (slice (cluster_start c + s * 512) 512) 16)
    (seqZ 0 (sectors_per_cluster v))) l.

Fixpoint scan_list (wanted : list Z) (es : list FAT_DIRECTORY_ENTRY) : scan_result :=
  match es with
  | [] => More
  | e :: es => match entry_test wanted e with More => scan_list wanted es | r => r end
  end.

(** The entry the names [cs] lead to from the directory at cluster [dir]; no
    chain on the way is longer than [fuel]. *)
Inductive resolves (fuel : nat) : Z -> list (list Z) -> FAT_DIRECTORY_ENTRY -> Prop :=
| resolves_last dir c l e :
    chain dir l -> (Datatypes.length l <= fuel)%nat -> scan_list (short_name c) (chain_entries l) = Found e ->
    resolves fuel dir [c] e
| resolves_step dir c c' cs l e e' :
    chain dir l -> (Datatypes.length l <= fuel)%nat -> scan_list (short_name c) (chain_entries l) = Found e ->
    is_directory e = true -> resolves fuel (first_cluster e) (c' :: cs) e' ->
    resolves fuel dir (c :: c' :: cs) e'.

(** ** Arithmetic of the layout *)
Lemma in_chain_range c : in_chain c = true -> 2 <= c < 268435448.
Proof. unfold in_chain. rewrite andb_true_iff, Z.leb_le, Z.ltb_lt. lia. Qed.

Lemma slice_length o n : 0 <= n -> Datatypes.length (slice o n) = Z.to_nat n.
Proof. intros. unfold slice. by rewrite length_map, length_seqZ. Qed.

Lemma slice_app o n m : 0 <= n -> 0 <= m -> slice o (n + m) = slice o n ++ slice (o + n) m.
Proof. intros. unfold slice. by rewrite seqZ_app, map_app by lia. Qed.

Lemma slice_get o n k : 0 <= k < n -> le8 (slice o n) k = img (o + k).
Proof.
  intros Hk. unfold le8, get, slice. rewrite list_lookup_fmap, lookup_seqZ_lt by lia. cbn. f_equal. lia.
Qed.

Lemma cluster_lba_eq c :
  volume_ok -> in_chain c = true -> on_disk c ->
  cluster_lba v c * 512 = cluster_start c /\
  0 <= cluster_lba v c /\ cluster_lba v c + sectors_per_cluster v <= limit.
Proof.
  intros [] Hc [_ Hf]. apply in_chain_range in Hc. unfold cluster_lba, cluster_start.
  rewrite (u32_small (c - 2)) by (unfold is_u32; lia).
  rewrite (u32_small ((c - 2) * _)) by (unfold is_u32; nia).
  rewrite u32_small by (unfold is_u32; nia). split; [done|]. nia.
Qed.

Lemma scan_sector_list n o wanted b :
  scan_sector n o wanted b = scan_list wanted (map (fun i => entry_at b (o + 32 * i)) (seqZ 0 (Z.of_nat n))).
Proof.
  revert o. induction n as [|n IH]; intros o; [done|]. cbn [scan_sector].
  rewrite seqZ_cons by lia. cbn [map scan_list]. rewrite Z.mul_0_r, Z.add_0_r, IH.
  replace (Z.pred (Z.of_nat (S n))) with (Z.of_nat n) by lia.
  change (Z.succ 0) with (1 + 0). rewrite <- fmap_add_seqZ. rewrite map_map.
  destruct (entry_test _ _); [done..|]. f_equal. apply map_ext. intros i. f_equal. lia.
Qed.

Lemma scan_list_app wanted l1 l2 :
  scan_list wanted (l1 ++ l2) = match scan_list wanted l1 with More => scan_list wanted l2 | r => r end.
Proof. induction l1 as [|e l1 IH]; [done|]. cbn. by destruct (entry_test wanted e). Qed.

(** ** The device

    [st] has the volume's device with a driver whose read routine leaves the
    disk's bytes in the buffer and touches nothing else. *)
Context {D H : Type} `{KernelHeap H}.
Implicit Types st : ob H (io D).
Context (dispatch : Z -> Z -> IO_REQUEST -> ob H (io D) -> option (Z * IO_REQUEST * ob H (io D))).

Context (routine : Z) (Ready : io D -> Prop) (private : Z -> Prop).

Definition attached st : Prop :=
  device v <> 0 /\ routine <> 0 /\ Ready (memory st) /\ exists dev drv,
    devices (memory st) !! device v = Some dev /\ vtype dev = IO_TYPE_DEVICE /\ driver dev <> 0 /\
    drivers (memory st) !! driver dev = Some drv /\ get 0 (major_functions drv) IO_MJ_READ = routine.

Context `{!Disk dispatch (device v) routine img limit Ready private} (Hvol : volume_ok).

Lemma disk_request offset buf n st :
  attached st -> usable private buf n -> 0 <= offset -> offset mod 512 = 0 -> 0 < n <= 1048576 -> n mod 512 = 0 -> offset + n <= limit * 512 ->
  exists r' m d, IoCallDriver dispatch (device v) (Some (mkRequest IO_MJ_READ 0 0 buf n (read_write offset))) st
      = Some (IO_STATUS_SUCCESS, r', set_memory st (set_hardware (set_bytes (memory st) m) d)) /\
    attached (set_memory st (set_hardware (set_bytes (memory st) m) d)) /\
    forall x, ~ private x -> m x = store (bytes (memory st)) buf (slice offset n) x.
Proof.
  intros (Hdev & Hf & Hrdy & dev & drv & E1 & E2 & E3 & E4 & E5) [Hb Hp] Ho Hoa Hn Hna Hfit. unfold IoCallDriver.
  rewrite (proj2 (Z.eqb_neq _ _) Hdev). cbn [major_function]. rewrite E1. cbn [mbind option_bind].
  rewrite E2, Z.eqb_refl, (proj2 (Z.eqb_neq _ _) E3). cbn [negb orb].
  change (IO_MAX_MAJOR_FUNCTION <=? IO_MJ_READ) with false. rewrite E4. cbn [mbind option_bind].
  rewrite E5, (proj2 (Z.eqb_neq _ _) Hf). cbn [andb].
  set (r := with_status _ _ _).
  destruct (disk_read st r offset Hrdy eq_refl eq_refl Ho Hoa Hn Hna Hfit Hb Hp) as (r' & m & d & -> & Hrdy' & Hm).
  cbn [mbind option_bind]. eexists _, m, d. split; [reflexivity|]. split; [|exact Hm].
  split; [done|]. split; [done|]. split; [exact Hrdy'|]. by exists dev, drv.
Qed.

Lemma read_bytes_ok offset buf n st :
  attached st -> usable private buf n -> 0 <= offset -> offset mod 512 = 0 -> 0 < n <= 1048576 -> n mod 512 = 0 -> offset + n <= limit * 512 ->
  exists st', read_bytes dispatch v offset buf n st = Some (Some (slice offset n), st') /\ attached st' /\ heap st' = heap st.
Proof.
  intros Ha Hu Ho Hoa Hn Hna Hfit. unfold read_bytes.
  destruct (disk_request offset buf n st Ha Hu Ho Hoa Hn Hna Hfit) as (r' & m & d & -> & Ha' & Hm). cbn [mbind option_bind].
  eexists. split; [|by split]. do 3 f_equal. change (IO_STATUS_SUCCESS =? IO_STATUS_SUCCESS) with true. cbn iota. f_equal. cbn.
  rewrite <- (load_store (bytes (memory st)) buf (slice offset n) n) by (rewrite slice_length; lia).
  apply map_ext_in. intros x Hx%list_elem_of_In%elem_of_seqZ. apply Hm. destruct Hu as [_ Hu]. by apply Hu.
Qed.

(** The disk behind a 512-byte buffer. *)
Definition primed (buf : Z) st : Prop := attached st /\ usable private buf 512.

Lemma read_sector_ok lba buf st :
  primed buf st -> 0 <= lba < limit ->
  exists st', read_sector dispatch v lba buf st = Some (Some (slice (lba * 512) 512), st') /\ primed buf st' /\ heap st' = heap st.
Proof.
  intros [Ha Hb] Hl. unfold read_sector. rewrite (vo_bps Hvol).
  destruct (read_bytes_ok (lba * 512) buf 512 st Ha Hb) as (st' & E & Ha' & Hh); [zlia..|]. by exists st'.
Qed.

Lemma next_cluster_ok c buf st :
  primed buf st -> in_chain c = true -> on_disk c ->
  exists st', next_cluster dispatch v c buf st = Some (fat_next c, st') /\ primed buf st' /\ heap st' = heap st.
Proof.
  intros Ha Hc%in_chain_range [Hd _]. unfold next_cluster. rewrite (vo_bps Hvol). destruct Hvol.
  rewrite (u32_small (c * 4)) by (unfold is_u32; lia).
  rewrite (u32_small (fat_lba v + _)) by (unfold is_u32; zlia).
  destruct (read_sector_ok (fat_lba v + c * 4 / 512) buf st Ha ltac:(zlia)) as (st' & -> & Ha' & Hh).
  cbn [mbind option_bind]. exists st'. split; [|done]. do 2 f_equal. unfold fat_next. f_equal.
  unfold le32, le16. rewrite !slice_get by zlia. f_equal; [|f_equal]; f_equal; repeat (f_equal; try zlia).
Qed.

(** ** Directories *)
Definition lba_entries (lba n : Z) : list FAT_DIRECTORY_ENTRY :=
  flat_map (fun s => entries_of (slice ((lba + s) * 512) 512) 16) (seqZ 0 n).

Lemma lba_entries_cons lba n : 0 < n ->
  lba_entries lba n = entries_of (slice (lba * 512) 512) 16 ++ lba_entries (lba + 1) (n - 1).
Proof.
  intros Hn. unfold lba_entries. rewrite seqZ_cons by lia. cbn [flat_map]. rewrite Z.add_0_r. f_equal.
  change (Z.succ 0) with (1 + 0). rewrite <- fmap_add_seqZ. replace (Z.pred n) with (n - 1) by lia.
  rewrite !flat_map_concat_map, map_map. f_equal. apply map_ext. intros s. f_equal. f_equal. lia.
Qed.

Lemma scan_cluster_ok n lba wanted buf st :
  primed buf st -> 0 <= lba -> lba + Z.of_nat n <= limit ->
  exists st', scan_cluster dispatch n v lba wanted buf st = Some (Some (scan_list wanted (lba_entries lba (Z.of_nat n))), st') /\
    primed buf st' /\ heap st' = heap st.
Proof.
  revert lba st. induction n as [|n IH]; intros lba st Ha Hl Hn; cbn [scan_cluster]; [by exists st|].
  destruct (read_sector_ok lba buf st Ha ltac:(lia)) as (st1 & -> & Ha1 & Hh1). cbn [mbind option_bind].
  rewrite (vo_bps Hvol). change (Z.to_nat ((512 + 31) / 32)) with 16%nat.
  rewrite scan_sector_list, lba_entries_cons, scan_list_app by lia.
  change (map (fun i => entry_at (slice (lba * 512) 512) (0 + 32 * i)) (seqZ 0 (Z.of_nat 16)))
    with (entries_of (slice (lba * 512) 512) 16).
  destruct (scan_list wanted (entries_of _ _)) eqn:E; [by exists st1..|].
  replace (Z.of_nat (S n) - 1) with (Z.of_nat n) by lia.
  destruct n as [|n].
  { by exists st1. }
  rewrite u32_small by (pose proof (vo_limit Hvol); unfold is_u32; lia).
  destruct (IH (lba + 1) st1 Ha1 ltac:(lia) ltac:(lia)) as (st' & -> & Ha' & Hh'). exists st'. by rewrite Hh'.
Qed.

Lemma chain_entries_cons c l :
  volume_ok -> in_chain c = true -> on_disk c ->
  chain_entries (c :: l) = lba_entries (cluster_lba v c) (sectors_per_cluster v) ++ chain_entries l.
Proof.
  intros Hv Hc Hf. destruct (cluster_lba_eq c Hv Hc Hf) as [E _]. unfold chain_entries, lba_entries. cbn [flat_map].
  f_equal. rewrite !flat_map_concat_map. f_equal. apply map_ext. intros s. rewrite <- E. f_equal. f_equal. lia.
Qed.

Lemma find_loop_ok c l fuel wanted buf st :
  chain c l -> (Datatypes.length l <= fuel)%nat -> primed buf st ->
  exists st', find_loop dispatch fuel v c wanted buf st
      = Some (match scan_list wanted (chain_entries l) with Found e => Some e | _ => None end, st') /\
    primed buf st' /\ heap st' = heap st.
Proof.
  intros Hc. revert fuel st. induction Hc as [c Hend | c l Hin Hfit Hc IH]; intros fuel st Hl Ha.
  - exists st. destruct fuel; cbn [find_loop]; rewrite Hend; done.
  - destruct fuel as [|fuel]; [cbn in Hl; lia|]. cbn [find_loop]. rewrite Hin.
    destruct (cluster_lba_eq c Hvol Hin Hfit) as (_ & Hlo & Hhi). pose proof (vo_spc Hvol) as Hspc.
    destruct (scan_cluster_ok (Z.to_nat (sectors_per_cluster v)) (cluster_lba v c) wanted buf st Ha Hlo ltac:(lia))
      as (st1 & -> & Ha1 & Hh1).
    cbn [mbind option_bind]. rewrite Z2Nat.id by lia. rewrite chain_entries_cons, scan_list_app by done.
    destruct (scan_list wanted (lba_entries _ _)); [by exists st1..|].
    destruct (next_cluster_ok c buf st1 Ha1 Hin Hfit) as (st2 & -> & Ha2 & Hh2). cbn [mbind option_bind].
    destruct (IH fuel st2 ltac:(cbn in Hl; lia) Ha2) as (st3 & -> & Ha3 & Hh3).
    exists st3. split; [done|]. split; [done|]. by rewrite Hh3, Hh2.
Qed.

(** ** Data *)
Lemma take_take_app {A} n (l r : list A) : take n (take n l ++ r) = take n (l ++ r).
Proof.
  destruct (Nat.le_gt_cases (Datatypes.length l) n).
  - by rewrite (take_ge l) by done.
  - rewrite !take_app_le by (rewrite ?length_take; lia). by rewrite take_take, Nat.min_id.
Qed.

Lemma copy_sectors_ok n lba sz buf acc st :
  primed buf st -> 0 <= lba -> lba + Z.of_nat n <= limit -> Z.of_nat (Datatypes.length acc) <= sz ->
  exists st', copy_sectors dispatch n v lba sz buf acc st
      = Some (Some (take (Z.to_nat sz) (acc ++ slice (lba * 512) (Z.of_nat n * 512))), st') /\
    primed buf st' /\ heap st' = heap st.
Proof.
  revert lba acc st. induction n as [|n IH]; intros lba acc st Ha Hlo Hhi Hacc; cbn [copy_sectors].
  - exists st. split; [|done]. cbn. rewrite app_nil_r, take_ge by lia. done.
  - destruct (Z.leb_spec sz (Z.of_nat (Datatypes.length acc))) as [Hfull|Hmore].
    { exists st. split; [|done]. do 2 f_equal. rewrite take_app_le, take_ge by lia. done. }
    destruct (read_sector_ok lba buf st Ha ltac:(lia)) as (st1 & -> & Ha1 & Hh1). cbn [mbind option_bind]. rewrite (vo_bps Hvol).
    set (amount := if 512 <? sz - _ then 512 else _).
    assert (Hacc' : acc ++ take (Z.to_nat amount) (slice (lba * 512) 512) = take (Z.to_nat sz) (acc ++ slice (lba * 512) 512)).
    { rewrite (take_app_ge acc) by lia. f_equal. unfold amount. destruct (Z.ltb_spec 512 (sz - Z.of_nat (Datatypes.length acc))).
      - rewrite !take_ge by (rewrite slice_length by lia; lia). done.
      - f_equal. lia. }
    rewrite Hacc'. set (acc' := take _ _).
    assert (Hl' : Z.of_nat (Datatypes.length acc') <= sz) by (unfold acc'; rewrite length_take; lia).
    assert (Hstep : exists st', copy_sectors dispatch n v (u32 (lba + 1)) sz buf acc' st1
      = Some (Some (take (Z.to_nat sz) (acc' ++ slice ((lba + 1) * 512) (Z.of_nat n * 512))), st') /\
      primed buf st' /\ heap st' = heap st1).
    { destruct n as [|n].
      - exists st1. cbn [copy_sectors]. split; [|done]. cbn. rewrite app_nil_r, take_ge by lia. done.
      - rewrite u32_small by (pose proof (vo_limit Hvol); unfold is_u32; lia). apply IH; try done; lia. }
    destruct Hstep as (st' & -> & Ha' & Hh'). exists st'. split; [|split; [done | by rewrite Hh']].
    do 3 f_equal. unfold acc'. rewrite take_take_app, <- (assoc_L (++)). do 2 f_equal.
    replace (Z.of_nat (S n) * 512) with (512 + Z.of_nat n * 512) by lia.
    rewrite slice_app by lia. do 2 f_equal. lia.
Qed.

Lemma copy_chain_ok c l fuel sz buf acc st :
  chain c l -> (Datatypes.length l <= fuel)%nat -> primed buf st -> Z.of_nat (Datatypes.length acc) <= sz ->
  exists st', copy_chain dispatch fuel v c sz buf acc st = Some (Some (take (Z.to_nat sz) (acc ++ chain_data l)), st') /\
    primed buf st' /\ heap st' = heap st.
Proof.
  intros Hc. revert fuel acc st. induction Hc as [c Hend | c l Hin Hfit Hc IH]; intros fuel acc st Hl Ha Hacc.
  - exists st. destruct fuel; cbn [copy_chain]; rewrite Hend; cbn [andb]; unfold chain_data; cbn;
      rewrite app_nil_r, take_ge by lia; done.
  - destruct (Z.ltb_spec (Z.of_nat (Datatypes.length acc)) sz) as [Hlt|Hge].
    + destruct fuel as [|fuel]; [cbn in Hl; lia|]. cbn [copy_chain]. rewrite Hin, (proj2 (Z.ltb_lt _ _) Hlt). cbn [andb].
      destruct (cluster_lba_eq c Hvol Hin Hfit) as (Eq & Hlo & Hhi). pose proof (vo_spc Hvol) as Hspc.
      destruct (copy_sectors_ok (Z.to_nat (sectors_per_cluster v)) (cluster_lba v c) sz buf acc st Ha Hlo ltac:(lia) Hacc)
        as (st1 & -> & Ha1 & Hh1).
      cbn [mbind option_bind]. rewrite Z2Nat.id, Eq by lia.
      destruct (next_cluster_ok c buf st1 Ha1 Hin Hfit) as (st2 & -> & Ha2 & Hh2). cbn [mbind option_bind].
      destruct (IH fuel (take (Z.to_nat sz) (acc ++ slice (cluster_start c) (sectors_per_cluster v * 512))) st2
        ltac:(cbn in Hl; lia) Ha2 ltac:(rewrite length_take; lia)) as (st3 & -> & Ha3 & Hh3).
      exists st3. split; [|split; [done | by rewrite Hh3, Hh2]].
      rewrite take_take_app, <- (assoc_L (++)). done.
    + exists st. split; [|done]. destruct fuel; cbn [copy_chain]; rewrite (proj2 (Z.ltb_ge _ _) Hge), andb_false_r;
        rewrite take_app_le, take_ge by lia; done.
Qed.

(** ** Paths *)
Lemma skip_component_app w rest : Forall plain w -> at_boundary rest -> skip_component (w ++ rest) = rest.
Proof.
  intros Hw Hr. induction Hw as [|c w Hc _ IH]; cbn [app skip_component]; [|by rewrite Hc].
  destruct rest as [|c rest]; [done|]. cbn in *. by rewrite Hr.
Qed.

Lemma short_ext_app w rest e nm : Forall plain w -> at_boundary rest -> short_ext (w ++ rest) e nm = short_ext w e nm.
Proof.
  intros Hw Hr. revert e nm. induction Hw as [|c w Hc _ IH]; intros e nm; cbn [app short_ext].
  - destruct rest as [|c rest]; [done|]. cbn in *. by rewrite Hr.
  - rewrite Hc. destruct (_ <? _); apply IH.
Qed.

Lemma short_base_app w rest b nm : Forall plain w -> at_boundary rest ->
  let '(nm1, r1) := short_base (w ++ rest) b nm in
  let '(nm2, r2) := short_base w b nm in
  nm1 = nm2 /\ forall e, short_ext r1 e nm1 = short_ext r2 e nm2.
Proof.
  intros Hw Hr. revert b nm. induction Hw as [|c w Hc Hw IH]; intros b nm; cbn [app short_base].
  - destruct rest as [|c rest]; [done|]. cbn in Hr. cbn [short_base]. rewrite Hr. split; [done|].
    intros e. cbn. by rewrite Hr.
  - rewrite Hc. destruct (c =? DOT); [split; [done|]; intros e; by apply short_ext_app|].
    destruct (_ <? _); apply IH.
Qed.

(** A name is read from a path up to the next separator. *)
Lemma short_name_app w rest : Forall plain w -> at_boundary rest -> short_name (w ++ rest) = short_name w.
Proof.
  intros Hw Hr. unfold short_name. pose proof (short_base_app w rest 0 (replicate 11 32) Hw Hr) as Hs.
  destruct (short_base (w ++ rest) _ _) as [nm1 r1], (short_base w _ _) as [nm2 r2]. destruct Hs as [_ Hs]. apply Hs.
Qed.

(** The first name of a path without leading separators. *)
Lemma cursor_split p c cs :
  components p = c :: cs -> exists rest,
    skip_separators p = c ++ rest /\ Forall plain c /\ at_boundary rest /\ components rest = cs.
Proof.
  rewrite <- (components_skip p). intros E.
  assert (Hs : match skip_separators p with [] => True | x :: _ => plain x end).
  { clear E. induction p as [|x p IH]; cbn; [done|]. destruct (RtlIsPathSeparator x) eqn:Ex; done. }
  destruct (copy_component_spec (skip_separators p) 0 1000000) as (w & rest & Hp & Hw & Hr & _).
  assert (w <> []) as Hne.
  { intros ->. cbn in Hp. rewrite Hp in Hs, E. destruct rest as [|x rest]; [done|]. cbn in Hr. unfold plain in Hs. congruence. }
  rewrite Hp in E |- *. unfold components in E. rewrite split_path_name in E by done. cbn in E. simplify_eq.
  by exists rest.
Qed.

Lemma skip_separators_nil p : skip_separators p = [] <-> components p = [].
Proof.
  rewrite <- (components_skip p). split; [by intros ->|].
  destruct (skip_separators p) as [|x q] eqn:E; [done|]. intros Hc. exfalso.
  assert (Hx : plain x).
  { clear Hc. induction p as [|y p IH]; cbn in E; [done|]. destruct (RtlIsPathSeparator y) eqn:Ey; [by apply IH|].
    by simplify_eq. }
  unfold components in Hc. cbn in Hc. rewrite Hx in Hc.
  destruct (copy_component_spec q 0 1000000) as (w & rest & -> & Hw & Hr & _).
  rewrite split_path_name in Hc by done. done.
Qed.

Lemma walk_path_ok fuel dir cs e p buf st :
  resolves fuel dir cs e -> forall steps, components p = cs -> (Datatypes.length cs <= steps)%nat -> primed buf st ->
  exists st', walk_path dispatch steps fuel v dir (skip_separators p) buf st = Some (Some e, st') /\
    primed buf st' /\ heap st' = heap st.
Proof.
  intros Hres. revert p st.
  induction Hres as [dir c l e Hc Hl Hs | dir c c' cs l e e' Hc Hl Hs Hd Hres IH]; intros p st steps Hp Hn Ha.
  all: destruct steps as [|steps]; [cbn in Hn; lia|].
  all: destruct (cursor_split p _ _ Hp) as (rest & Ep & Hpl & Hb & Hrest).
  all: cbn [walk_path]; unfold find_entry; rewrite Ep, short_name_app, skip_component_app by done.
  all: destruct (find_loop_ok dir l fuel (short_name c) buf st Hc Hl Ha) as (st1 & -> & Ha1 & Hh1).
  all: rewrite Hs; cbn [mbind option_bind].
  - rewrite (proj2 (skip_separators_nil rest) Hrest). by exists st1.
  - destruct (skip_separators rest) as [|x q] eqn:Er.
    { apply skip_separators_nil in Er. rewrite Er in Hrest. done. }
    rewrite <- Er, Hd. cbn [negb].
    destruct (IH rest st1 steps Hrest ltac:(cbn in *; lia) Ha1) as (st2 & -> & Ha2 & Hh2).
    exists st2. split; [done|]. split; [done|]. by rewrite Hh2.
Qed.

Lemma components_length p : (Datatypes.length (components p) <= Datatypes.length p)%nat.
Proof.
  unfold components.
  assert (Hg : forall cur, (Datatypes.length (split_path cur p) <= Datatypes.length p + (match cur with [] => 0 | _ => 1 end))%nat).
  { induction p as [|c p IH]; intros cur; cbn [split_path]; [destruct cur; cbn; lia|].
    destruct (RtlIsPathSeparator c).
    - pose proof (IH []) as I. cbn in I. destruct cur; cbn; lia.
    - specialize (IH (c :: cur)). destruct cur; cbn in *; lia. }
  specialize (Hg []). cbn in Hg. lia.
Qed.

Lemma read_file_ok (fuel : nat) (path : list Z) (e : FAT_DIRECTORY_ENTRY) (l : list Z) (sector buffer : Z) (h1 h2 : H) st :
  attached st -> usable private sector 512 -> resolves fuel (root_cluster v) (components path) e -> is_directory e = false ->
  chain (first_cluster e) l -> (Datatypes.length l <= fuel)%nat ->
  0 <= size e <= Z.of_nat (Datatypes.length (chain_data l)) ->
  kh_malloc 512 (heap st) = Some (sector, h1) ->
  kh_malloc (Z.max 1 (size e)) h1 = Some (buffer, h2) -> buffer <> 0 -> kh_ok h2 ->
  exists st', Fat32ReadFile dispatch fuel v (Some path) true st
      = Some (Some (buffer, take (Z.to_nat (size e)) (chain_data l)), st') /\
    kh_free sector h2 = Some (heap st').
Proof.
  intros Ha Hu Hres Hfile Hch Hl Hsz E1 E2 Hb Hok. pose proof (usable_nonnull _ _ _ Hu) as Hs. unfold Fat32ReadFile.
  rewrite (vo_mounted Hvol), (vo_bps Hvol), E1. cbn [negb orb mbind option_bind].
  rewrite (proj2 (Z.eqb_neq _ _) Hs).
  destruct (walk_path_ok fuel _ _ e path sector (set_heap st h1) Hres (S (Datatypes.length path)) eq_refl) as (st1 & -> & Ha1 & Hh1);
    [pose proof (components_length path); lia | split; [exact Ha | exact Hu] |].
  cbn [mbind option_bind]. rewrite Hfile, Hh1. cbn [heap set_heap].
  replace (if size e =? 0 then 1 else size e) with (Z.max 1 (size e)) by (destruct (Z.eqb_spec (size e) 0); lia).
  rewrite E2. cbn [mbind option_bind]. rewrite (proj2 (Z.eqb_neq _ _) Hb).
  destruct (copy_chain_ok (first_cluster e) l fuel (size e) sector [] (set_heap st1 h2) Hch Hl Ha1 ltac:(cbn; lia))
    as (st2 & -> & Ha2 & Hh2).
  cbn [mbind option_bind app]. rewrite Hh2. cbn [heap set_heap].
  destruct (kh_free_spec h2 sector Hok) as (h3 & E3 & _). rewrite E3. cbn [mbind option_bind].
  rewrite length_take, (proj2 (Z.eqb_eq _ _)) by lia. cbn [negb]. by eexists.
Qed.

(** C7. Reading a file that is on the volume: when the path's names lead
    through the directories to a file, its chain holds at least its size, and
    the two buffers can be had, [Fat32ReadFile] returns the first [size] bytes
    of the chain's clusters in order, and leaves of its two allocations only
    the returned buffer. *)
Theorem Fat32ReadFile_correct (fuel : nat) (path : list Z) (e : FAT_DIRECTORY_ENTRY) (l : list Z) (sector buffer : Z) (h1 h2 : H) st :
  attached st -> usable private sector 512 -> resolves fuel (root_cluster v) (components path) e -> is_directory e = false ->
  chain (first_cluster e) l -> (Datatypes.length l <= fuel)%nat ->
  0 <= size e <= Z.of_nat (Datatypes.length (chain_data l)) ->
  kh_malloc 512 (heap st) = Some (sector, h1) ->
  kh_malloc (Z.max 1 (size e)) h1 = Some (buffer, h2) -> buffer <> 0 -> kh_ok h2 ->
  exists st', Fat32ReadFile dispatch fuel v (Some path) true st
      = Some (Some (buffer, take (Z.to_nat (size e)) (chain_data l)), st') /\
    kh_free sector h2 = Some (heap st').
Proof. apply read_file_ok. Qed.

(** A directory whose chain comes back to itself: a name it does not hold is
    searched for ever, however much fuel the walk is given. *)
Theorem find_entry_cycle (fuel : nat) (c : Z) (component : list Z) (buf : Z) st :
  attached st -> usable private buf 512 -> in_chain c = true -> on_disk c -> fat_next c = c ->
  scan_list (short_name component) (lba_entries (cluster_lba v c) (sectors_per_cluster v)) = More ->
  find_entry dispatch fuel v c component buf st = None.
Proof.
  intros Ha Hu Hin Hfit Hself Hmore. unfold find_entry.
  assert (Hp : primed buf st) by done. clear Ha. revert st Hp. induction fuel as [|fuel IH]; intros st Ha;
    cbn [find_loop]; rewrite Hin; [done|].
  destruct (cluster_lba_eq c Hvol Hin Hfit) as (_ & Hlo & Hhi). pose proof (vo_spc Hvol) as Hspc.
  destruct (scan_cluster_ok (Z.to_nat (sectors_per_cluster v)) (cluster_lba v c) (short_name component) buf st Ha Hlo ltac:(lia))
    as (st1 & -> & Ha1 & Hh1).
  cbn [mbind option_bind]. rewrite Z2Nat.id, Hmore by lia.
  destruct (next_cluster_ok c buf st1 Ha1 Hin Hfit) as (st2 & -> & Ha2 & _). cbn [mbind option_bind].
  rewrite Hself. by apply IH.
Qed.

End disk.

(** ** A volume of four sectors

    One sector per cluster: the FAT, the root directory (cluster 2) and a file
    of five bytes (cluster 3). *)
Definition tiny_root : list Z := cstr "HELLO   TXT " ++ replicate 14 0 ++ [3; 0; 5; 0; 0; 0].
Definition tiny_fat : list Z := replicate 8 0 ++ [255; 255; 255; 15; 255; 255; 255; 15].
Definition tiny_img (o : Z) : Z :=
  if o <? 512 then 0 else if o <? 1024 then get 0 tiny_fat (o - 512)
  else if o <? 1536 then get 0 tiny_root (o - 1024) else get 0 (cstr "hello") (o - 1536).

Definition tiny_volume : FAT32_VOLUME := mkVolume 8192 0 1 2 2 1 512 1 true.

Definition image_dispatch {D} (img : Z -> Z) (f dev : Z) (r : IO_REQUEST) (st : ob fresh (io D)) : option (Z * IO_REQUEST * ob fresh (io D)) :=
  match parameters r with
  | read_write off => Some (0, r, set_memory st (set_bytes (memory st) (store (bytes (memory st)) (buffer r) (load img off (Io.length r)))))
  | _ => None
  end.

Definition tiny_state : ob fresh (io unit) :=
  mkOb [] 0 [] 0 ∅ fresh_start
    (mkIo {[ 4096 := mkDriver IO_TYPE_DRIVER [] 0 0 (replicate 8 77) (replicate 8 0) 0 8192 0 ]}
      {[ 8192 := mkDevice IO_TYPE_DEVICE [] 4096 0 0 0 1 ]} (fun _ => 0) 1 2 0 tt).

Definition tiny_entry : FAT_DIRECTORY_ENTRY := mkEntry (cstr "HELLO   TXT") 32 0 3 5.

#[global] Instance image_disk {D} img dev routine limit :
  Disk (image_dispatch (D := D) img) dev routine img limit (fun _ => True) (fun _ => False).
Proof.
  split. intros st r offset _ _ Hp. intros. unfold image_dispatch. rewrite Hp. eexists r, _, (hardware (memory st)).
  split; [reflexivity|]. split; [done|].
  intros x _. done.
Qed.

Lemma tiny_volume_ok : volume_ok 4 tiny_volume.
Proof. split; cbn; try done; lia. Qed.

Lemma tiny_chain c : c = 2 \/ c = 3 -> chain tiny_img 4 tiny_volume c [c].
Proof. intros [-> | ->]; (apply chain_cons; [done | done | apply chain_end; vm_compute; reflexivity]). Qed.

Lemma tiny_resolves : resolves tiny_img 4 tiny_volume 1 2 (components (cstr "/hello.txt")) tiny_entry.
Proof.
  change (components (cstr "/hello.txt")) with [cstr "hello.txt"].
  apply (resolves_last _ _ _ _ _ _ [2]); [apply tiny_chain; by left | done | vm_compute; reflexivity].
Qed.

Lemma tiny_attached : attached tiny_volume 77 (fun _ => True) tiny_state.
Proof. do 3 (split; [done|]). by eexists _, _. Qed.

Lemma all_usable p n : 0 < p -> usable (fun _ => False) p n.
Proof. intros Hp. split; [done|]. intros k _ []. Qed.

Lemma Fat32ReadFile_correct_witness :
  exists st', Fat32ReadFile (image_dispatch tiny_img) 1 tiny_volume (Some (cstr "/hello.txt")) true tiny_state
    = Some (Some (66048, cstr "hello"), st').
Proof.
  destruct (Fat32ReadFile_correct tiny_img 4 tiny_volume (image_dispatch tiny_img) 77 (fun _ => True) (fun _ => False) tiny_volume_ok 1 (cstr "/hello.txt")
    tiny_entry [3] 65536 66048 (mkFresh 66048 {[ 65536 := 512 ]}) (mkFresh 66053 {[ 65536 := 512; 66048 := 5 ]}) tiny_state
    tiny_attached (all_usable 65536 512 ltac:(lia)) tiny_resolves eq_refl (tiny_chain 3 (or_intror eq_refl)) ltac:(cbn; lia) ltac:(vm_compute; split; discriminate)
    ltac:(vm_compute; reflexivity) ltac:(vm_compute; reflexivity) ltac:(lia)) as (st' & E & _).
  { split; cbn; [lia|]. intros p cap. rewrite lookup_insert_Some, lookup_singleton_Some. intuition (subst; lia || done). }
  exists st'. rewrite E. vm_compute. reflexivity.
Defined.

(** A root directory of deleted entries whose cluster is its own successor. *)
Definition cyclic_img (o : Z) : Z := if o <? 1024 then get 0 [2; 0; 0; 0] (o - 520) else 229.

Lemma find_entry_cycle_witness :
  find_entry (image_dispatch cyclic_img) 1000 tiny_volume 2 (cstr "hello.txt") 65536 tiny_state = None.
Proof.
  apply (find_entry_cycle cyclic_img 4 tiny_volume (image_dispatch cyclic_img) 77 (fun _ => True) (fun _ => False) tiny_volume_ok 1000 2
    (cstr "hello.txt") 65536 tiny_state tiny_attached (all_usable 65536 512 ltac:(lia)) eq_refl ltac:(done)); vm_compute; reflexivity.
Defined.

End Fat32.
