(* ===== verification/Ide.v ===== *)
(** * drivers/ide/ide.c: disks on the ATA ports

    Sector transfers in PIO mode, with 28-bit or 48-bit addresses, the dispatch
    routine the I/O manager calls for reads and writes, and the probe that finds
    the disks.  A disk's parameters live in the extension of its device object,
    so [ide_dispatch] decodes them from the kernel's memory.  The drive behind
    the ports is a [Bus]; the laws of an ATA drive are stated against its
    register file, and [Ide] is then a [Disk] in the sense of [Fat32].  Serial
    log lines are left out. *)

From stdpp Require Import base list numbers gmap strings.
From Stdlib Require Import ZArith Lia.
From S2P Require Import Prelude.
From S2P Require Import Util.
From S2P Require Import Pmm.
From S2P Require Import Vmm.
From S2P Require Import Mm.
From S2P Require Import Sim.
From S2P Require Import Ob.
From S2P Require Import Io.
From S2P Require Import Hw.
From S2P Require Import RtlPath.
From S2P Require Import Fat32.
Import Util Ob Io Hw RtlPath Fat32.

Module Ide.

Definition IO_MJ_WRITE : Z := 3.

Record IDE_DISK := mkDisk {
  io_base : Z;
  control_base : Z;
  slave : Z;
  lba48 : Z;
  sectors : Z
}.

Definition sizeof_IDE_DISK : Z := 12.

(** The structure in memory: two [uint16_t], two [uint8_t], padding, [uint32_t]. *)
Definition disk_at (m : mem) (p : Z) : IDE_DISK :=
  let b := load m p sizeof_IDE_DISK in mkDisk (le16 b 0) (le16 b 2) (le8 b 4) (le8 b 5) (le32 b 8).

Definition disk_bytes (d : IDE_DISK) : list Z :=
  [io_base d mod 256; io_base d / 256; control_base d mod 256; control_base d / 256; slave d; lba48 d; 0; 0;
   sectors d mod 256; sectors d / 256 mod 256; sectors d / 65536 mod 256; sectors d / 16777216].

(** The commands. *)
Definition ATA_CMD_READ : Z := 32.
Definition ATA_CMD_WRITE : Z := 48.
Definition ATA_CMD_READ_EXT : Z := 36.
Definition ATA_CMD_WRITE_EXT : Z := 52.
Definition ATA_CMD_IDENTIFY : Z := 236.
Definition ATA_CMD_FLUSH : Z := 231.
Definition ATA_CMD_FLUSH_EXT : Z := 234.

Definition transfer_command (ext write : bool) : Z :=
  if ext then (if write then ATA_CMD_WRITE_EXT else ATA_CMD_READ_EXT)
  else (if write then ATA_CMD_WRITE else ATA_CMD_READ).

(** ** The ports *)
Section ata.
Context {D : Type} `{Bus D} (a : arch) (disk : IDE_DISK).

Definition ide_delay : hw D unit :=
  inb a (control_base disk);; inb a (control_base disk);; inb a (control_base disk);;
  inb a (control_base disk);; mret tt.

(** The body of the polling loop. *)
Definition wait_test (need_data : bool) (status : Z) : verdict :=
  if (status =? 255) || (status =? 0) then Again
  else if Z.land status 128 =? 0 then
    if negb (Z.land status 33 =? 0) then Error
    else if negb need_data || negb (Z.land status 8 =? 0) then Break else Again
  else Again.

Definition ide_wait (need_data : bool) : hw D bool :=
  r ← wait_loop (Z.to_nat 1000000) (inb a (io_base disk + 7)) (wait_test need_data);
  mret (match fst r with Break => true | _ => false end).

Definition select_byte (lba : Z) : Z :=
  Z.lor (Z.lor 224 (Z.shiftl (slave disk) 4)) (if lba48 disk =? 0 then Z.land (Z.shiftr lba 24) 15 else 0).

Definition ide_select (lba : Z) : hw D unit := outb a (io_base disk + 6) (select_byte lba);; ide_delay.

(** Filling the task file for [batch] sectors from [lba] on, and the command. *)
Definition issue (lba batch : Z) (write : bool) : hw D unit :=
  ide_select lba;;
  (if lba48 disk =? 0 then mret tt else
   outb a (io_base disk + 1) 0;; outb a (io_base disk + 2) (Z.shiftr batch 8);; outb a (io_base disk + 3) (Z.shiftr lba 24);;
   outb a (io_base disk + 4) 0;; outb a (io_base disk + 5) 0);;
  outb a (io_base disk + 1) 0;; outb a (io_base disk + 2) batch;; outb a (io_base disk + 3) lba;;
  outb a (io_base disk + 4) (Z.shiftr lba 8);; outb a (io_base disk + 5) (Z.shiftr lba 16);;
  outb a (io_base disk + 7) (transfer_command (negb (lba48 disk =? 0)) write).

(** [n] words between the data port and the buffer. *)
Fixpoint read_words (n : nat) (buffer : Z) (m : mem) : hw D mem :=
  match n with
  | O => mret m
  | S n' => v ← inw a (io_base disk);
            read_words n' (buffer + 2) (upd (upd m buffer (u8 v)) (buffer + 1) (u8 (Z.shiftr v 8)))
  end.

Fixpoint write_words (n : nat) (buffer : Z) (m : mem) : hw D unit :=
  match n with
  | O => mret tt
  | S n' => outw a (io_base disk) (Z.lor (m buffer) (u16 (Z.shiftl (m (buffer + 1)) 8)));; write_words n' (buffer + 2) m
  end.

(** The sectors of a batch: whether all were transferred, and the memory. *)
Fixpoint move_sectors (n : nat) (buffer : Z) (write : bool) (m : mem) : hw D (bool * mem) :=
  match n with
  | O => mret (true, m)
  | S n' =>
      ok ← ide_wait true;
      if negb ok then mret (false, m) else
      m ← (if write then write_words 256 buffer m;; mret m else read_words 256 buffer m);
      move_sectors n' (buffer + 512) write m
  end.

(** [while (sectors)]: a batch moves at least one sector, so [count] turns do. *)
Fixpoint batches (fuel : nat) (lba buffer count : Z) (write : bool) (m : mem) : hw D (bool * mem) :=
  if count =? 0 then mret (true, m) else
  match fuel with
  | O => mret (false, m)
  | S fuel' =>
      let batch := if 256 <? count then 256 else count in
      if (sectors disk <=? lba) || (u32 (sectors disk - lba) <? batch) then mret (false, m) else
      issue lba batch write;;
      r ← move_sectors (Z.to_nat batch) buffer write m;
      let '(ok, m) := r in
      if negb ok then mret (false, m) else
      batches fuel' (u32 (lba + batch)) (buffer + 512 * batch) (count - batch) write m
  end.

Definition ide_transfer (lba buffer count : Z) (write : bool) (m : mem) : hw D (bool * mem) :=
  r ← batches (Z.to_nat count) lba buffer count write m;
  let '(ok, m) := r in
  if negb ok then mret (false, m) else
  if write then
    outb a (io_base disk + 7) (if lba48 disk =? 0 then ATA_CMD_FLUSH else ATA_CMD_FLUSH_EXT);;
    ok ← ide_wait false; mret (ok, m)
  else mret (true, m).

End ata.

(** ** The driver *)
Section driver.
Context {D H : Type} `{Bus D} `{KernelHeap H} (a : arch).

(** The file-scope variables beside the I/O manager's state. *)
Record ide := mkIde {
  kern : ob H (io D);
  ide_driver : Z;
  disk_count : Z;
  disk_sectors : list Z
}.
Definition set_kern (st : ide) (k : ob H (io D)) : ide := mkIde k (ide_driver st) (disk_count st) (disk_sectors st).
Definition on_hardware {A} (f : hw D A) (k : ob H (io D)) : A * ob H (io D) :=
  let '(x, d) := f (hardware (memory k)) in (x, set_memory k (set_hardware (memory k) d)).

(** The code addresses of [ide_dispatch]. *)
Definition ide_dispatch_addr : Z := 1052672.

(** The request is a read or a write: [read_write] is the live member. *)
Definition ide_dispatch (device : Z) (r : IO_REQUEST) (k : ob H (io D)) : option (Z * IO_REQUEST * ob H (io D)) :=
  dev ← devices (memory k) !! device;
  match parameters r with
  | device_control _ _ _ => None
  | read_write offset =>
      if (buffer r =? 0) || (Io.length r =? 0) || negb (Z.land offset 511 =? 0) || negb (Z.land (Io.length r) 511 =? 0)
         || (4294967295 <? Z.shiftr offset 9)
      then Some (IO_STATUS_INVALID_PARAMETER, r, k) else
      let disk := disk_at (bytes (memory k)) (device_extension dev) in
      let '((ok, m), d) := ide_transfer a disk (u32 (Z.shiftr offset 9)) (buffer r) (Z.shiftr (Io.length r) 9)
                             (major_function r =? IO_MJ_WRITE) (bytes (memory k)) (hardware (memory k)) in
      let k := set_memory k (set_hardware (set_bytes (memory k) m) d) in
      if negb ok then Some (IO_STATUS_DEVICE_ERROR, r, k)
      else Some (IO_STATUS_SUCCESS, with_status r (status r) (Io.length r), k)
  end.

(** Running a dispatch routine, when [ide_dispatch] is the only one. *)
Definition run_ide (f device : Z) (r : IO_REQUEST) (k : ob H (io D)) : option (Z * IO_REQUEST * ob H (io D)) :=
  if f =? ide_dispatch_addr then ide_dispatch device r k else None.

Fixpoint read_identify (n : nat) (base : Z) : hw D (list Z) :=
  match n with O => mret [] | S n' => w ← inw a base; r ← read_identify n' base; mret (w :: r) end.

(** The address mode and the size an identify block gives. *)
Definition identify_size (id : list Z) : Z * Z :=
  let w k := get 0 id k in
  let small := Z.lor (w 60) (u32 (Z.shiftl (w 61) 16)) in
  if Z.land (w 83) 1024 =? 0 then (0, small) else
  let sectors48 := Z.lor (Z.lor (Z.lor (w 100) (Z.shiftl (w 101) 16)) (Z.shiftl (w 102) 32)) (u64 (Z.shiftl (w 103) 48)) in
  if sectors48 =? 0 then (0, small)
  else (1, if 4294967295 <? sectors48 then 4294967295 else u32 sectors48).

(** The hardware part of [ide_probe]: the disk, or nothing. *)
Definition identify (io_base control_base slave : Z) : hw D (option IDE_DISK) :=
  let probe := mkDisk io_base control_base slave 0 0 in
  outb a (io_base + 6) (Z.lor 160 (Z.shiftl slave 4));; ide_delay a probe;;
  outb a (io_base + 2) 0;; outb a (io_base + 3) 0;; outb a (io_base + 4) 0;; outb a (io_base + 5) 0;;
  status ← inb a (io_base + 7);
  if (status =? 0) || (status =? 255) then mret None else
  if negb (Z.land status 1 =? 0) then mret None else
  mid ← inb a (io_base + 4);
  atapi ← (if negb (mid =? 0) then mret true else high ← inb a (io_base + 5); mret (negb (high =? 0)));
  if (atapi : bool) then mret None else
  outb a (io_base + 7) ATA_CMD_IDENTIFY;;
  ok ← ide_wait a probe true;
  if negb ok then mret None else
  id ← read_identify 256 io_base;
  let '(ext, n) := identify_size id in
  mret (Some (mkDisk io_base control_base slave ext n)).

Definition disk_name (n : Z) : list Z := cstr "Harddisk" ++ [48 + n].

Definition ide_probe (io_base control_base slave : Z) (st : ide) : option (bool * ide) :=
  let '(found, k) := on_hardware (identify io_base control_base slave) (kern st) in
  let st := set_kern st k in
  match found with
  | None => Some (false, st)
  | Some probe =>
      if (sectors probe =? 0) || (4 <=? disk_count st) then Some (false, st) else
      '(device, k) ← IoCreateDevice a (ide_driver st) (Some (disk_name (disk_count st))) sizeof_IDE_DISK (kern st);
      if device =? 0 then Some (false, set_kern st k) else
      dev ← devices (memory k) !! device;
      let k := set_memory k (set_bytes (memory k) (store (bytes (memory k)) (device_extension dev) (disk_bytes probe))) in
      Some (true, mkIde k (ide_driver st) (disk_count st + 1) (put (disk_sectors st) (disk_count st) (sectors probe)))
  end.

Definition with_major_function (d : IO_DRIVER_OBJECT) (i f : Z) : IO_DRIVER_OBJECT :=
  mkDriver (dtype d) (dname d) (image d) (context d) (put (major_functions d) i f) (platform_dispatch d)
    (unload d) (device_list d) (dhandle d).

Definition IdeInitialize (driver : Z) (st : ide) : option (bool * ide) :=
  if driver =? 0 then Some (false, st) else
  let k := kern st in
  drv ← drivers (memory k) !! driver;
  let drv := with_major_function (with_major_function drv IO_MJ_READ ide_dispatch_addr) IO_MJ_WRITE ide_dispatch_addr in
  let k := set_memory k (set_drivers (memory k) (<[driver := drv]> (drivers (memory k)))) in
  let st := mkIde k driver 0 (replicate 4 0) in
  '(_, st) ← ide_probe 496 1014 0 st;
  '(_, st) ← ide_probe 496 1014 1 st;
  '(_, st) ← ide_probe 368 886 0 st;
  '(_, st) ← ide_probe 368 886 1 st;
  Some (negb (disk_count st =? 0), st).

Definition IdeGetDiskCount (st : ide) : Z := disk_count st.
Definition IdeGetDiskSectors (index : Z) (st : ide) : Z :=
  if index <? disk_count st then get 0 (disk_sectors st) index else 0.

Definition IdeBootInitialize (st : ide) : option (bool * ide) :=
  '(driver, k) ← IoCreateDriver a (Some (cstr "BootIde")) 0 0 (kern st);
  let st := set_kern st k in
  if driver =? 0 then Some (false, st) else IdeInitialize driver st.

Definition DriverEntry (driver : Z) (st : ide) : option (bool * ide) := IdeInitialize driver st.

End driver.

(** ** An ATA drive

    The task file keeps the last two bytes written to each address register
    (48-bit commands use both); [tf_request] is what a command with it asks
    for. *)
Record taskfile := mkTask {
  tf_device : Z;
  tf_count : Z * Z;
  tf_low : Z * Z;
  tf_mid : Z * Z;
  tf_high : Z * Z
}.

Definition tf_write (k v : Z) (t : taskfile) : taskfile :=
  let '(mkTask dv n lo mi hi) := t in
  if k =? 2 then mkTask dv (v, fst n) lo mi hi
  else if k =? 3 then mkTask dv n (v, fst lo) mi hi
  else if k =? 4 then mkTask dv n lo (v, fst mi) hi
  else if k =? 5 then mkTask dv n lo mi (v, fst hi)
  else if k =? 6 then mkTask v n lo mi hi else t.

(** Write or read, the first sector and the number of sectors: a count of zero
    stands for the largest.  The device register must select this drive (bit 4)
    and sector addresses (bit 6). *)
Definition tf_request (slave cmd : Z) (t : taskfile) : option (bool * Z * Z) :=
  let '(mkTask dv n lo mi hi) := t in
  if negb (Z.land dv 16 =? 16 * slave) || (Z.land dv 64 =? 0) then None else
  let addr28 := fst lo + 256 * fst mi + 65536 * fst hi + 16777216 * Z.land dv 15 in
  let addr48 := fst lo + 256 * fst mi + 65536 * fst hi + 16777216 * snd lo + 4294967296 * snd mi + 1099511627776 * snd hi in
  let count28 := if fst n =? 0 then 256 else fst n in
  let count48 := if fst n + 256 * snd n =? 0 then 65536 else fst n + 256 * snd n in
  if cmd =? ATA_CMD_READ then Some (false, addr28, count28)
  else if cmd =? ATA_CMD_WRITE then Some (true, addr28, count28)
  else if cmd =? ATA_CMD_READ_EXT then Some (false, addr48, count48)
  else if cmd =? ATA_CMD_WRITE_EXT then Some (true, addr48, count48)
  else None.

(** What the drive is doing; [c] is the contents of its medium. *)
Inductive ata :=
| Ready (c : Z -> Z) (t : taskfile)
| DataIn (c : Z -> Z) (bs : list Z)                 (** [bs] to be sent *)
| WordsIn (c : Z -> Z) (n : nat) (bs : list Z)      (** [n] words of a sector left *)
| DataOut (c : Z -> Z) (lba : Z) (n : nat)          (** [n] sectors to be taken *)
| WordsOut (c : Z -> Z) (lba : Z) (n k : nat) (got : list Z).

Section drive.
Context {D : Type} `{Bus D} (a : arch) (disk : IDE_DISK) (limit : Z).
(** The view of the hardware's state, and how many polls it may be busy. *)
Context (drv : ata -> D -> Prop) (patience : nat).

Definition ata_polls : (Z -> D -> Prop) -> nat -> D -> Prop :=
  polls (inb a (io_base disk + 7)) (fun s => Z.land s 128 <> 0).

(** The laws: registers can be written and the alternate status read while the
    drive is ready; a command takes what the task file asks for; data moves in
    sectors of 256 words, each announced by DRQ. *)
Record ata_drive : Prop := {
  ad_bound : Z.of_nat patience < 1000000;
  ad_alternate c t d : drv (Ready c t) d -> drv (Ready c t) (snd (inb a (control_base disk) d));
  ad_register c t k v d : drv (Ready c t) d -> 1 <= k <= 6 -> 0 <= v < 256 ->
    drv (Ready c (tf_write k v t)) (snd (outb a (io_base disk + k) v d));
  ad_command c t cmd w lba n d : drv (Ready c t) d -> tf_request (slave disk) cmd t = Some (w, lba, n) -> lba + n <= limit ->
    drv (if w then DataOut c lba (Z.to_nat n) else DataIn c (load c (lba * 512) (n * 512))) (snd (outb a (io_base disk + 7) cmd d));
  ad_data_in c bs d : drv (DataIn c bs) d -> bs <> [] ->
    ata_polls (fun s d' => Z.land s 128 = 0 /\ Z.land s 33 = 0 /\ Z.land s 8 <> 0 /\ drv (WordsIn c 256 bs) d') patience d;
  ad_word_in c n b0 b1 bs d : drv (WordsIn c (S n) (b0 :: b1 :: bs)) d -> 0 <= b0 < 256 -> 0 <= b1 < 256 ->
    fst (inw a (io_base disk) d) = b0 + 256 * b1 /\ drv (WordsIn c n bs) (snd (inw a (io_base disk) d));
  ad_sector_in c bs d : drv (WordsIn c 0 bs) d -> drv (DataIn c bs) d;
  ad_read_end c d : drv (DataIn c []) d -> exists t, drv (Ready c t) d;
  ad_data_out c lba n d : drv (DataOut c lba (S n)) d ->
    ata_polls (fun s d' => Z.land s 128 = 0 /\ Z.land s 33 = 0 /\ Z.land s 8 <> 0 /\ drv (WordsOut c lba n 256 []) d') patience d;
  ad_word_out c lba n k got w d : drv (WordsOut c lba n (S k) got) d -> 0 <= w < 65536 ->
    drv (WordsOut c lba n k (got ++ [w mod 256; w / 256])) (snd (outw a (io_base disk) w d));
  ad_sector_out c lba n got d : drv (WordsOut c lba n 0 got) d -> drv (DataOut (store c (lba * 512) got) (lba + 1) n) d
}.

Context (Hdrive : ata_drive).
(** The disk the driver was told of: its size is not above the drive's, and
    fits the addresses of the commands it will use. *)
Record disk_ok : Prop := {
  dk_slave : slave disk = 0 \/ slave disk = 1;
  dk_sectors : 0 <= sectors disk <= limit;
  dk_size : sectors disk < 4294967296;
  dk_lba28 : lba48 disk = 0 -> sectors disk <= 268435456
}.
Context (Hdisk : disk_ok).

(** ** Commands *)
Lemma outb_low p v d : outb a p v d = outb a p (u8 v) d.
Proof. unfold outb, port_write, truncate. by rewrite (u8_small (u8 v)) by apply u8_range. Qed.

Lemma register_ok c t k v d : drv (Ready c t) d -> 1 <= k <= 6 ->
  exists d', outb a (io_base disk + k) v d = (tt, d') /\ drv (Ready c (tf_write k (u8 v) t)) d'.
Proof.
  intros Hd Hk. rewrite outb_low. pose proof (ad_register Hdrive c t k (u8 v) d Hd Hk (u8_range v)) as Hr.
  destruct (outb a _ _ _) as [[] d']. by exists d'.
Qed.

Lemma delay_ok c t d : drv (Ready c t) d -> exists d', ide_delay a disk d = (tt, d') /\ drv (Ready c t) d'.
Proof.
  intros Hd. unfold ide_delay, mbind, hw_bind, mret, hw_ret.
  do 4 (match goal with Hd : drv (Ready c t) ?d |- _ =>
    let Hd' := fresh in pose proof (ad_alternate Hdrive c t d Hd) as Hd'; clear Hd;
    destruct (inb a (control_base disk) d) as [? ?]; cbn [snd] in Hd' end).
  by eexists.
Qed.

Lemma select_bits s x : s = 0 \/ s = 1 -> 0 <= x < 16 ->
  Z.land (u8 (Z.lor (Z.lor 224 (Z.shiftl s 4)) x)) 16 = 16 * s /\
  Z.land (u8 (Z.lor (Z.lor 224 (Z.shiftl s 4)) x)) 64 = 64 /\
  Z.land (u8 (Z.lor (Z.lor 224 (Z.shiftl s 4)) x)) 15 = x.
Proof.
  intros Hs Hx. assert (Hl : x ∈ seqZ 0 16) by (apply elem_of_seqZ; lia). revert x Hx Hl.
  assert (Forall (fun x => Z.land (u8 (Z.lor (Z.lor 224 (Z.shiftl s 4)) x)) 16 = 16 * s /\
    Z.land (u8 (Z.lor (Z.lor 224 (Z.shiftl s 4)) x)) 64 = 64 /\
    Z.land (u8 (Z.lor (Z.lor 224 (Z.shiftl s 4)) x)) 15 = x) (seqZ 0 16)) as Hall.
  { destruct Hs as [-> | ->]; apply (bool_decide_eq_true_1 _); vm_compute; reflexivity. }
  rewrite Forall_forall in Hall. auto.
Qed.

Ltac next_register :=
  match goal with Hd : drv (Ready _ _) ?d |- context [outb a (io_base disk + ?k) ?v ?d] =>
    let d' := fresh "d" in let Hd' := fresh "Hd" in
    destruct (register_ok _ _ k v d Hd ltac:(lia)) as (d' & -> & Hd'); clear Hd
  end.

Ltac send_command lba n :=
  match goal with Hd : drv (Ready ?c ?t) ?d |- context [outb a (io_base disk + 7) ?cmd ?d] =>
    let Hc := fresh in let d' := fresh "d" in
    pose proof (fun w => ad_command Hdrive c t cmd w lba n d Hd) as Hc;
    destruct (outb a (io_base disk + 7) cmd d) as [[] d']; exists d'; split; [done|]; apply Hc
  end.

(** The task file the code fills asks for the sectors it was told to move. *)
Lemma issue_ok c t lba batch write d :
  drv (Ready c t) d -> 0 <= lba -> 1 <= batch <= 256 -> lba + batch <= sectors disk ->
  exists d', issue a disk lba batch write d = (tt, d') /\
    drv (if write then DataOut c lba (Z.to_nat batch) else DataIn c (load c (lba * 512) (batch * 512))) d'.
Proof.
  intros Hd Hl Hb Hfit. destruct Hdisk as [Hs Hn Hsz H28].
  set (x := if lba48 disk =? 0 then Z.land (Z.shiftr lba 24) 15 else 0).
  assert (Hx : 0 <= x < 16 /\ (lba48 disk = 0 -> x = lba / 16777216)).
  { unfold x. rewrite (Z.land_ones _ 4), Z.shiftr_div_pow2 by lia. change (2 ^ 4) with 16. change (2 ^ 24) with 16777216.
    destruct (Z.eqb_spec (lba48 disk) 0) as [E|E]; [specialize (H28 E)|]; split; zlia. }
  destruct Hx as [Hx Hx28]. destruct (select_bits (slave disk) x Hs Hx) as (B16 & B64 & B15).
  unfold issue, ide_select, select_byte, mbind, hw_bind. fold x. set (dv := Z.lor (Z.lor 224 (Z.shiftl (slave disk) 4)) x) in *.
  next_register. destruct (delay_ok _ _ _ Hd0) as (d1 & -> & Hd1). clear d0 Hd0.
  assert (Hsh : Z.shiftr lba 8 = lba / 256 /\ Z.shiftr lba 16 = lba / 65536 /\ Z.shiftr lba 24 = lba / 16777216 /\ Z.shiftr batch 8 = batch / 256)
    by (rewrite !Z.shiftr_div_pow2 by lia; done).
  destruct Hsh as (S8 & S16 & S24 & SB). unfold mret, hw_ret.
  destruct (Z.eqb_spec (lba48 disk) 0) as [E|E]; repeat next_register.
  all: send_command lba batch; [|lia].
  all: destruct t as [dv0 n0 lo0 mi0 hi0]; cbn [tf_write Z.eqb Pos.eqb fst snd]; unfold tf_request.
  all: rewrite ?S8, ?S16, ?S24, ?SB, B16, B64, Z.eqb_refl; cbn [negb orb Z.eqb fst snd].
  - specialize (Hx28 E). specialize (H28 E). rewrite B15. clearbody x. destruct write; cbn -[Z.mul Z.add u8 Z.div];
      (replace (if u8 batch =? 0 then 256 else u8 batch) with batch by (destruct (Z.eqb_spec (u8 batch) 0); zlia)); do 3 f_equal; zlia.
  - destruct write; cbn -[Z.mul Z.add u8 Z.div];
      (rewrite (proj2 (Z.eqb_neq (u8 batch + 256 * u8 (batch / 256)) 0)) by zlia); do 3 f_equal; zlia.
Qed.

(** ** Data *)
Lemma wait_data (P : D -> Prop) d :
  ata_polls (fun s d' => Z.land s 128 = 0 /\ Z.land s 33 = 0 /\ Z.land s 8 <> 0 /\ P d') patience d ->
  exists d', ide_wait a disk true d = (true, d') /\ P d'.
Proof.
  intros Hp. pose proof (ad_bound Hdrive) as Hb.
  assert (Ht : forall s, Z.land s 128 = 0 -> Z.land s 33 = 0 -> Z.land s 8 <> 0 -> wait_test true s = Break).
  { intros s H1 H2 H3. unfold wait_test. rewrite H1, H2, (proj2 (Z.eqb_neq _ _) H3). cbn [negb orb Z.eqb].
    destruct (Z.eqb_spec s 255) as [-> | _]; [done|]. by destruct (Z.eqb_spec s 0) as [-> | _]. }
  destruct (wait_polls _ _ _ patience d (wait_test true) (Z.to_nat 1000000) Hp ltac:(lia)) as (s & t & d' & E & _ & H1 & H2 & H3 & HP).
  - intros s Hs. unfold wait_test. rewrite (proj2 (Z.eqb_neq _ _) Hs). by destruct (_ || _).
  - intros s d' (H1 & H2 & H3 & _). by rewrite Ht.
  - exists d'. unfold ide_wait, mbind, hw_bind. rewrite E, Ht by done. done.
Qed.

Lemma upd_pair m p x y z : upd (upd m p x) (p + 1) y z = store m p [x; y] z.
Proof.
  unfold upd, store, get. cbn [Datatypes.length]. destruct (Z.eqb_spec z (p + 1)) as [-> | H1].
  - rewrite (proj2 (Z.leb_le _ _)), (proj2 (Z.ltb_lt _ _)) by lia. cbn [andb]. by replace (Z.to_nat (p + 1 - p)) with 1%nat by lia.
  - destruct (Z.eqb_spec z p) as [-> | H2].
    + rewrite (proj2 (Z.leb_le _ _)), (proj2 (Z.ltb_lt _ _)) by lia. cbn [andb]. by replace (Z.to_nat (p - p)) with 0%nat by lia.
    + destruct (Z.leb_spec p z); cbn [andb]; [|done]. by rewrite (proj2 (Z.ltb_ge _ _)) by lia.
Qed.

Lemma read_words_ok c n bs rest p m d :
  drv (WordsIn c n (bs ++ rest)) d -> Datatypes.length bs = (2 * n)%nat -> Forall byte bs ->
  exists m' d', read_words a disk n p m d = (m', d') /\ drv (WordsIn c 0 rest) d' /\ forall x, m' x = store m p bs x.
Proof.
  revert bs p m d. induction n as [|n IH]; intros bs p m d Hd Hl Hb; cbn [read_words].
  - destruct bs; [|done]. exists m, d. split; [done|]. split; [done|]. intros x. by rewrite store_nil.
  - destruct bs as [|b0 [|b1 bs]]; [done | cbn in Hl; lia |].
    apply Forall_cons in Hb as [Hb0 Hb]. apply Forall_cons in Hb as [Hb1 Hbs].
    destruct (ad_word_in Hdrive c n b0 b1 (bs ++ rest) d Hd Hb0 Hb1) as [Ev Hd']. unfold mbind, hw_bind.
    destruct (inw a (io_base disk) d) as [v d1]. cbn [fst snd] in *. subst v.
    replace (u8 (b0 + 256 * b1)) with b0 by (unfold byte in *; zlia).
    replace (u8 (Z.shiftr (b0 + 256 * b1) 8)) with b1 by (rewrite Z.shiftr_div_pow2 by lia; change (2 ^ 8) with 256; unfold byte in *; zlia).
    destruct (IH bs (p + 2) (upd (upd m p b0) (p + 1) b1) d1 Hd' ltac:(cbn in Hl; lia) Hbs) as (m' & d' & -> & Hd2 & Hm).
    exists m', d'. split; [done|]. split; [done|]. intros x. rewrite Hm.
    change (b0 :: b1 :: bs) with ([b0; b1] ++ bs). rewrite <- store_app. by apply store_ext, upd_pair.
Qed.

Lemma read_sectors_ok c n bs p m d :
  drv (DataIn c bs) d -> Datatypes.length bs = (512 * n)%nat -> Forall byte bs ->
  exists m' d', move_sectors a disk n p false m d = ((true, m'), d') /\ drv (DataIn c []) d' /\ forall x, m' x = store m p bs x.
Proof.
  revert bs p m d. induction n as [|n IH]; intros bs p m d Hd Hl Hb; cbn [move_sectors].
  - destruct bs; [|done]. exists m, d. split; [done|]. split; [done|]. intros x. by rewrite store_nil.
  - assert (bs <> []) as Hne by (intros ->; cbn in Hl; lia).
    destruct (wait_data _ d (ad_data_in Hdrive c bs d Hd Hne)) as (d1 & E1 & Hd1). unfold mbind, hw_bind. rewrite E1. cbn [negb].
    rewrite <- (take_drop 512 bs) in Hd1, Hb. apply Forall_app in Hb as [Hb1 Hb2].
    assert (Hlt : Datatypes.length (take 512 bs) = 512%nat) by (rewrite length_take; lia).
    destruct (read_words_ok c 256 (take 512 bs) _ p m d1 Hd1 ltac:(rewrite Hlt; lia) Hb1) as (m1 & d2 & -> & Hd2 & Hm1).
    destruct (IH (drop 512 bs) (p + 512) m1 d2 (ad_sector_in Hdrive _ _ _ Hd2) ltac:(rewrite length_drop; lia) Hb2) as (m' & d' & -> & Hd' & Hm).
    exists m', d'. split; [done|]. split; [done|]. intros x. rewrite Hm.
    trans (store m p (take 512 bs ++ drop 512 bs) x); [|by rewrite take_drop]. rewrite <- store_app, Hlt. by apply store_ext.
Qed.

Lemma byte_load c p n : (forall o, byte (c o)) -> Forall byte (load c p n).
Proof. intros Hc. apply Forall_forall. intros x Hx. unfold load in Hx. apply list_elem_of_fmap in Hx as (o & -> & _). apply Hc. Qed.

Lemma store_load_split c o m p n k x : 0 <= n -> 0 <= k ->
  store (store m p (load c o n)) (p + n) (load c (o + n) k) x = store m p (load c o (n + k)) x.
Proof.
  intros Hn Hk. rewrite load_app, <- store_app by lia. rewrite load_length by lia. by rewrite Z2Nat.id by lia.
Qed.

Lemma batches_read_ok fuel c t lba p count m d :
  drv (Ready c t) d -> (forall o, byte (c o)) -> 0 <= lba -> 0 <= count <= Z.of_nat fuel -> lba + count <= sectors disk ->
  exists m' t' d', batches a disk fuel lba p count false m d = ((true, m'), d') /\ drv (Ready c t') d' /\
    forall x, m' x = store m p (load c (lba * 512) (count * 512)) x.
Proof.
  intros Hd Hc. revert t lba p count m d Hd. induction fuel as [|fuel IH]; intros t lba p count m d Hd Hl Hn Hfit.
  all: destruct (Z.eqb_spec count 0) as [-> | Hne].
  1,3: exists m, t, d; cbn; split; [done|]; split; [done|]; intros x; by rewrite store_nil.
  { lia. }
  cbn [batches]. rewrite (proj2 (Z.eqb_neq _ _) Hne).
  set (batch := if 256 <? count then 256 else count).
  assert (Hb : 1 <= batch <= 256 /\ batch <= count) by (unfold batch; destruct (Z.ltb_spec 256 count); lia). clearbody batch.
  pose proof (dk_size Hdisk). rewrite (u32_small (sectors disk - lba)) by (unfold is_u32; lia).
  rewrite (proj2 (Z.leb_gt _ _)), (proj2 (Z.ltb_ge _ _)) by lia. cbn [orb].
  destruct (issue_ok c t lba batch false d Hd Hl ltac:(lia) ltac:(lia)) as (d1 & E1 & Hd1). unfold mbind, hw_bind. rewrite E1.
  destruct (read_sectors_ok c (Z.to_nat batch) _ p m d1 Hd1) as (m1 & d2 & -> & Hd2 & Hm1);
    [rewrite load_length by lia; lia | by apply byte_load |].
  cbn [negb]. destruct (ad_read_end Hdrive _ _ Hd2) as [t2 Hd3].
  rewrite u32_small by (unfold is_u32; lia).
  destruct (IH t2 (lba + batch) (p + 512 * batch) (count - batch) m1 d2 Hd3 ltac:(lia) ltac:(lia) ltac:(lia)) as (m' & t' & d' & -> & Hd' & Hm).
  exists m', t', d'. split; [done|]. split; [done|]. intros x.
  rewrite Hm, (store_ext m1 _ _ _ x (Hm1 x)).
  replace (count * 512) with (batch * 512 + (count - batch) * 512) by lia.
  rewrite <- store_load_split by lia. by rewrite Z.mul_add_distr_r, (Z.mul_comm 512).
Qed.

(** A whole read. *)
Lemma transfer_read_ok c t lba p count m d :
  drv (Ready c t) d -> (forall o, byte (c o)) -> 0 <= lba -> 0 <= count -> lba + count <= sectors disk ->
  exists m' t' d', ide_transfer a disk lba p count false m d = ((true, m'), d') /\ drv (Ready c t') d' /\
    forall x, m' x = store m p (load c (lba * 512) (count * 512)) x.
Proof.
  intros Hd Hc Hl Hn Hfit. unfold ide_transfer, mbind, hw_bind.
  destruct (batches_read_ok (Z.to_nat count) c t lba p count m d Hd Hc Hl ltac:(lia) Hfit) as (m' & t' & d' & -> & Hd' & Hm).
  by exists m', t', d'.
Qed.

(** ** Writes *)
Lemma word_of_bytes b0 b1 : byte b0 -> byte b1 -> Z.lor b0 (u16 (Z.shiftl b1 8)) = b0 + 256 * b1.
Proof.
  intros H0 H1. rewrite <- lor_byte by (try done; unfold byte in *; lia). f_equal.
  unfold byte in *. rewrite Z.shiftl_mul_pow2 by lia. change (2 ^ 8) with 256. zlia.
Qed.

Lemma write_words_ok c lba n k got p m d :
  drv (WordsOut c lba n k got) d -> (forall x, byte (m x)) ->
  exists d', write_words a disk k p m d = (tt, d') /\ drv (WordsOut c lba n 0 (got ++ load m p (2 * Z.of_nat k))) d'.
Proof.
  intros Hd Hm. revert got p d Hd. induction k as [|k IH]; intros got p d Hd; cbn [write_words].
  - exists d. split; [done|]. cbn. by rewrite app_nil_r.
  - rewrite (word_of_bytes _ _ (Hm p) (Hm (p + 1))). pose proof (Hm p) as B0. pose proof (Hm (p + 1)) as B1. unfold byte in *.
    pose proof (ad_word_out Hdrive c lba n k got (m p + 256 * m (p + 1)) d Hd ltac:(lia)) as Hd1. unfold mbind, hw_bind.
    destruct (outw a (io_base disk) _ d) as [[] d1]. cbn [snd] in Hd1.
    replace ((m p + 256 * m (p + 1)) mod 256) with (m p) in Hd1 by zlia.
    replace ((m p + 256 * m (p + 1)) / 256) with (m (p + 1)) in Hd1 by zlia.
    destruct (IH _ (p + 2) d1 Hd1) as (d' & -> & Hd'). exists d'. split; [done|].
    replace (2 * Z.of_nat (S k)) with (2 + 2 * Z.of_nat k) by lia. rewrite load_app by lia.
    assert (load m p 2 = [m p; m (p + 1)]) as -> by (unfold load; rewrite !seqZ_cons, seqZ_nil by lia; done).
    rewrite <- app_assoc in Hd'. exact Hd'.
Qed.

Lemma write_sectors_ok c lba n p m d :
  drv (DataOut c lba n) d -> (forall x, byte (m x)) ->
  exists c' d', move_sectors a disk n p true m d = ((true, m), d') /\ drv (DataOut c' (lba + Z.of_nat n) 0) d' /\
    forall o, c' o = store c (lba * 512) (load m p (Z.of_nat n * 512)) o.
Proof.
  intros Hd Hm. revert c lba p d Hd. induction n as [|n IH]; intros c lba p d Hd; cbn [move_sectors].
  - exists c, d. rewrite Z.add_0_r. split; [done|]. split; [done|]. intros o. by rewrite store_nil.
  - destruct (wait_data _ d (ad_data_out Hdrive c lba n d Hd)) as (d1 & E1 & Hd1). unfold mbind, hw_bind. rewrite E1. cbn [negb].
    destruct (write_words_ok c lba n 256 [] p m d1 Hd1 Hm) as (d2 & -> & Hd2). cbn [app] in Hd2.
    change (2 * Z.of_nat 256) with 512 in Hd2. apply (ad_sector_out Hdrive) in Hd2. unfold mret at 1, hw_ret at 1.
    destruct (IH _ _ (p + 512) d2 Hd2) as (c' & d' & -> & Hd' & Hc). exists c', d'. split; [done|]. split.
    + by replace (lba + Z.of_nat (S n)) with (lba + 1 + Z.of_nat n) by lia.
    + intros o. rewrite Hc. replace (Z.of_nat (S n) * 512) with (512 + Z.of_nat n * 512) by lia.
      rewrite <- store_load_split by lia. by rewrite Z.mul_add_distr_r.
Qed.

(** C25. The driver moves the right sectors.  A read of any number of sectors inside
    the disk, with 28-bit or 48-bit addresses, brings exactly their bytes to the
    buffer and changes no other byte of memory nor of the medium.  A batch of a write
    (up to 256 sectors; larger writes are made of such batches) has the drive take the
    bytes of the buffer into exactly those sectors, every sector after the drive asked
    for it.  How the drive ends the write is not part of this: the code does not wait for it. *)
Theorem ide_moves_sectors (c : Z -> Z) (t : taskfile) (lba p count : Z) (m : mem) (d : D) :
  drv (Ready c t) d -> (forall o, byte (c o)) -> (forall x, byte (m x)) ->
  0 <= lba -> 0 <= count -> lba + count <= sectors disk ->
  (exists m' t' d', ide_transfer a disk lba p count false m d = ((true, m'), d') /\ drv (Ready c t') d' /\
     forall x, m' x = store m p (load c (lba * 512) (count * 512)) x) /\
  (1 <= count <= 256 ->
   exists c' d', (issue a disk lba count true;; move_sectors a disk (Z.to_nat count) p true m) d = ((true, m), d') /\
     drv (DataOut c' (lba + count) 0) d' /\ forall o, c' o = store c (lba * 512) (load m p (count * 512)) o).
Proof.
  intros Hd Hc Hm Hl Hn Hfit. split; [by apply (transfer_read_ok c t)|]. intros Hb. pose proof (dk_size Hdisk).
  destruct (issue_ok c t lba count true d Hd Hl ltac:(lia) ltac:(lia)) as (d1 & E1 & Hd1). unfold mbind, hw_bind. rewrite E1.
  destruct (write_sectors_ok c lba (Z.to_nat count) p m d1 Hd1 Hm) as (c1 & d2 & E2 & Hd2 & Hc1). rewrite Z2Nat.id in * by lia. by exists c1, d2.
Qed.

End drive.

(** ** The driver is a [Disk] *)
Section disk.
Context {D H : Type} `{Bus D} `{KernelHeap H} (a : arch).
Context (limit : Z) (drv : ata -> D -> Prop) (patience : nat) (disk : IDE_DISK) (device ext : Z) (c : Z -> Z).
Context (Hdrive : ata_drive a disk limit drv patience) (Hdisk : disk_ok disk limit) (Hbytes : forall o, byte (c o)).
Implicit Types k : ob H (io D).

(** The device object has the disk in its extension, and the drive is ready. *)
Definition ide_ready (s : io D) : Prop :=
  (exists dev, devices s !! device = Some dev /\ device_extension dev = ext) /\
  disk_at (bytes s) ext = disk /\ exists t, drv (Ready c t) (hardware s).

Definition extension (x : Z) : Prop := ext <= x < ext + sizeof_IDE_DISK.

Lemma disk_at_ext m m' p : (forall x, p <= x < p + sizeof_IDE_DISK -> m' x = m x) -> disk_at m' p = disk_at m p.
Proof.
  intros E. unfold disk_at. assert (load m' p sizeof_IDE_DISK = load m p sizeof_IDE_DISK) as ->; [|done].
  apply map_ext_in. intros x Hx%list_elem_of_In%elem_of_seqZ. by apply E.
Qed.

Lemma store_outside m p bs x : ~ p <= x < p + Z.of_nat (Datatypes.length bs) -> store m p bs x = m x.
Proof.
  intros Hx. unfold store. destruct (Z.leb_spec p x); cbn [andb]; [|done]. by rewrite (proj2 (Z.ltb_ge _ _)) by lia.
Qed.

Lemma aligned x : 0 <= x -> Z.land x 511 = x mod 512 /\ Z.shiftr x 9 = x / 512.
Proof. intros Hx. split; [exact (Z.land_ones x 9 ltac:(lia))|]. by rewrite Z.shiftr_div_pow2 by lia. Qed.

#[export] Instance ide_disk : Disk (run_ide (H := H) a) device ide_dispatch_addr c (sectors disk) ide_ready extension.
Proof.
  split. intros st r offset ((dev & E1 & E2) & Edisk & t & Hd) Hmj Hpar Ho Hoa Hn Hna Hfit Hb Hp.
  unfold run_ide, ide_dispatch. rewrite Z.eqb_refl, E1, Hpar. cbn [mbind option_bind].
  destruct (aligned offset Ho) as [-> ->]. destruct (aligned (Io.length r) ltac:(lia)) as [-> ->].
  pose proof (dk_size _ _ Hdisk) as Hsz.
  rewrite (proj2 (Z.eqb_neq (buffer r) 0)), (proj2 (Z.eqb_neq (Io.length r) 0)), Hoa, Hna by lia. cbn [negb orb Z.eqb].
  rewrite (proj2 (Z.ltb_ge 4294967295 _)) by zlia. rewrite E2, Edisk, Hmj, u32_small by (unfold is_u32; zlia).
  change (IO_MJ_READ =? IO_MJ_WRITE) with false.
  destruct (transfer_read_ok a disk limit drv patience Hdrive Hdisk c t (offset / 512) (buffer r) (Io.length r / 512) (bytes (memory st))
    (hardware (memory st)) Hd Hbytes ltac:(zlia) ltac:(zlia) ltac:(zlia)) as (m' & t' & d' & -> & Hd' & Hm).
  cbn [negb]. replace (offset / 512 * 512) with offset in Hm by zlia. replace (Io.length r / 512 * 512) with (Io.length r) in Hm by zlia.
  eexists _, m', d'. split; [reflexivity|]. split; [|intros x _; apply Hm].
  split; [by exists dev|]. split; [|by exists t'].
  cbn. etrans; [|exact Edisk]. apply disk_at_ext. intros x Hx. rewrite Hm. apply store_outside.
  rewrite load_length by lia. intros Hin. apply (Hp x); [|done]. lia.
Qed.

(** C8. FAT32 on an IDE disk: reading a file of the volume through the I/O
    manager, the driver's dispatch routine, its task-file commands and PIO
    words brings the bytes the medium holds for the file's clusters. *)
Theorem Fat32ReadFile_on_ide (v : FAT32_VOLUME) (fuel : nat) (path : list Z) (e : FAT_DIRECTORY_ENTRY) (l : list Z)
    (sector buffer : Z) (h1 h2 : H) st :
  Fat32.device v = device -> volume_ok (sectors disk) v -> attached v ide_dispatch_addr ide_ready st ->
  usable extension sector 512 -> resolves c (sectors disk) v fuel (root_cluster v) (components path) e -> is_directory e = false ->
  chain c (sectors disk) v (first_cluster e) l -> (Datatypes.length l <= fuel)%nat ->
  0 <= size e <= Z.of_nat (Datatypes.length (chain_data c v l)) ->
  kh_malloc 512 (heap st) = Some (sector, h1) ->
  kh_malloc (Z.max 1 (size e)) h1 = Some (buffer, h2) -> buffer <> 0 -> kh_ok h2 ->
  exists st', Fat32ReadFile (run_ide a) fuel v (Some path) true st
      = Some (Some (buffer, take (Z.to_nat (size e)) (chain_data c v l)), st') /\
    kh_free sector h2 = Some (heap st').
Proof.
  intros E Hv. pose proof ide_disk as Hd. rewrite <- E in Hd.
  by apply (read_file_ok c (sectors disk) v (run_ide a) ide_dispatch_addr ide_ready extension Hv).
Qed.

(** C39. What the driver refuses: a request without a buffer, of no sectors, not
    made of whole sectors, or beyond 2^32 sectors is an invalid parameter; one
    whose first batch (at most 256 sectors) leaves the disk is a device error.
    Neither touches the hardware, the memory or the request.  A longer request that
    leaves the disk only after its first batch is not covered: its first batches are
    moved before it fails. *)
Theorem ide_dispatch_refuses (dev : Z) (r : IO_REQUEST) (k : ob H (io D)) (o : IO_DEVICE_OBJECT) (offset : Z) :
  devices (memory k) !! dev = Some o -> parameters r = read_write offset -> 0 <= offset -> 0 <= Io.length r ->
  let size := sectors (disk_at (bytes (memory k)) (device_extension o)) in
  let valid := buffer r <> 0 /\ Io.length r <> 0 /\ offset mod 512 = 0 /\ Io.length r mod 512 = 0 /\ offset < 2199023255552 in
  (~ valid -> ide_dispatch a dev r k = Some (IO_STATUS_INVALID_PARAMETER, r, k)) /\
  (valid -> 0 <= size < 4294967296 -> size < offset / 512 + Z.min 256 (Io.length r / 512) ->
   ide_dispatch a dev r k = Some (IO_STATUS_DEVICE_ERROR, r, k)).
Proof.
  intros E1 Hpar Ho Hn size valid. unfold ide_dispatch. rewrite E1, Hpar. cbn [mbind option_bind].
  destruct (aligned offset Ho) as [-> ->]. destruct (aligned (Io.length r) Hn) as [-> ->]. split.
  - intros Hv. assert ((buffer r =? 0) || (Io.length r =? 0) || negb (offset mod 512 =? 0) || negb (Io.length r mod 512 =? 0)
      || (4294967295 <? offset / 512) = true) as ->; [|done].
    unfold valid in Hv. zbool; cbn; try done. zlia.
  - intros (V1 & V2 & V3 & V4 & V5) Hs Hout.
    rewrite (proj2 (Z.eqb_neq (buffer r) 0)), (proj2 (Z.eqb_neq (Io.length r) 0)), V3, V4 by done. cbn [negb orb Z.eqb].
    rewrite (proj2 (Z.ltb_ge 4294967295 _)), u32_small by (unfold is_u32; zlia).
    unfold ide_transfer, mbind, hw_bind. destruct (Z.to_nat (Io.length r / 512)) as [|fuel] eqn:Ef; [zlia|]. cbn [batches].
    rewrite (proj2 (Z.eqb_neq (Io.length r / 512) 0)) by zlia. fold size.
    set (batch := if 256 <? _ then 256 else _).
    assert (Hb : batch = Z.min 256 (Io.length r / 512)) by (unfold batch; destruct (Z.ltb_spec 256 (Io.length r / 512)); lia).
    assert ((size <=? offset / 512) || (u32 (size - offset / 512) <? batch) = true) as ->.
    { destruct (Z.leb_spec size (offset / 512)); [done|]. cbn [orb]. rewrite u32_small by (unfold is_u32; zlia). apply Z.ltb_lt. lia. }
    cbn. by destruct k as [? ? ? ? ? ? []].
Qed.

End disk.

(** ** Probing *)
Section probe.
Context {D H : Type} `{Bus D} `{KernelHeap H} (a : arch).

Record disk_wf (p : IDE_DISK) : Prop := {
  dw_base : 0 <= io_base p < 65536;
  dw_control : 0 <= control_base p < 65536;
  dw_slave : byte (slave p);
  dw_lba48 : byte (lba48 p);
  dw_sectors : is_u32 (sectors p)
}.

(** The structure copied into the extension is read back. *)
Lemma disk_at_bytes m p d : disk_wf d -> disk_at (store m p (disk_bytes d)) p = d.
Proof.
  intros [Hb Hc Hs Hl Hn]. unfold disk_at. rewrite load_store by done. destruct d as [b c s l n]. unfold byte, is_u32 in *. cbn in *.
  unfold disk_bytes, le32, le16, le8, get. cbn -[Z.div Z.modulo Z.mul Z.add].
  const_indices.
  cbn -[Z.div Z.modulo Z.mul Z.add]. f_equal; zlia.
Qed.

(** A successful probe leaves a device object for the disk: named after
    its number, with an extension from which the dispatch routine decodes the
    very parameters the identify block gave, and counted with its size. *)
Theorem ide_probe_attaches (base control sl : Z) (probe : IDE_DISK) (d : D) (st : @ide D H) (st' : ide) :
  disk_wf probe -> 0 <= disk_count st -> Datatypes.length (disk_sectors st) = 4%nat ->
  identify a base control sl (hardware (memory (kern st))) = (Some probe, d) ->
  ide_probe a base control sl st = Some (true, st') ->
  disk_count st < 4 /\ disk_count st' = disk_count st + 1 /\ IdeGetDiskSectors (disk_count st) st' = sectors probe /\ sectors probe <> 0 /\
  exists dev o k, IoCreateDevice a (ide_driver st) (Some (disk_name (disk_count st))) sizeof_IDE_DISK
      (set_memory (kern st) (set_hardware (memory (kern st)) d)) = Some (dev, k) /\ dev <> 0 /\
    devices (memory (kern st')) !! dev = Some o /\ disk_at (bytes (memory (kern st'))) (device_extension o) = probe.
Proof.
  intros Hwf Hc Hl Eid. unfold ide_probe, on_hardware. rewrite Eid. cbn [kern set_kern].
  destruct ((sectors probe =? 0) || (4 <=? disk_count (set_kern st _))) eqn:E0; [done|].
  apply orb_false_iff in E0 as [E0 E4]. cbn in E4.
  destruct (IoCreateDevice a _ _ _ _) as [[dev k]|] eqn:Ec; cbn [mbind option_bind]; [|done].
  destruct (Z.eqb_spec dev 0) as [|Hne]; [done|].
  destruct (devices (memory k) !! dev) as [o|] eqn:Eo; cbn [mbind option_bind]; [|done].
  intros [= <-]. split; [lia|]. split; [done|]. split.
  { unfold IdeGetDiskSectors. cbn. rewrite (proj2 (Z.ltb_lt _ _)) by lia. unfold get, put. by rewrite list_lookup_insert_eq by lia. }
  split; [lia|]. exists dev, o, k. split; [done|]. split; [done|]. split; [done|]. by apply disk_at_bytes.
Qed.

End probe.

(** ** A drive that is never busy *)
Section simulator.
Context (limit : Z).

Definition idle_task : taskfile := mkTask 0 (0, 0) (0, 0) (0, 0) (0, 0).

Definition settle (d : ata) : ata :=
  match d with
  | WordsIn c O [] | DataIn c [] => Ready c idle_task
  | WordsIn c O bs => DataIn c bs
  | WordsOut c lba O O got => Ready (store c (lba * 512) got) idle_task
  | WordsOut c lba n O got => DataOut (store c (lba * 512) got) (lba + 1) n
  | DataOut c _ O => Ready c idle_task
  | _ => d
  end.

Definition sim_in (w : width) (p : Z) (d : ata) : Z * ata :=
  if p =? 503 then
    match settle d with
    | DataIn c bs => (88, WordsIn c 256 bs)
    | DataOut c lba (S n) => (88, WordsOut c lba n 256 [])
    | _ => (80, d)
    end
  else if p =? 496 then
    match d with WordsIn c (S n) (b0 :: b1 :: bs) => (b0 + 256 * b1, WordsIn c n bs) | _ => (0, d) end
  else (0, d).

Definition sim_out (w : width) (p v : Z) (d : ata) : unit * ata :=
  (tt, if p =? 503 then
         match settle d with
         | Ready c t => match tf_request 0 v t with
                        | Some (w, lba, n) =>
                            if lba + n <=? limit then
                              if w then DataOut c lba (Z.to_nat n) else DataIn c (load c (lba * 512) (n * 512))
                            else d
                        | None => d
                        end
         | _ => d
         end
       else if p =? 496 then
         match d with WordsOut c lba n (S k) got => WordsOut c lba n k (got ++ [v mod 256; v / 256]) | _ => d end
       else match settle d with Ready c t => Ready c (tf_write (p - 496) v t) | _ => d end).

Definition sim_bus : Bus ata :=
  {| port_in := sim_in; port_out := sim_out; mmio_load := fun _ _ d => (0, d); mmio_store := fun _ _ _ d => (tt, d) |}.

Definition sim_view (s d : ata) : Prop := settle d = settle s.

Lemma sim_read (w : width) (p : Z) d : 0 <= p < 65536 ->
  @port_read _ sim_bus X86 w p d = (truncate w (fst (sim_in w p d)), snd (sim_in w p d)).
Proof.
  intros Hp. unfold port_read. rewrite (proj2 (Z.mod_small_iff p 65536 ltac:(lia)) (or_introl Hp) : u16 p = p).
  cbn. unfold mbind, hw_bind. by destruct (sim_in w p d).
Qed.

Lemma sim_write (w : width) (p v : Z) d : 0 <= p < 65536 -> @port_write _ sim_bus X86 w p v d = sim_out w p (truncate w v) d.
Proof. intros Hp. unfold port_write. by rewrite (proj2 (Z.mod_small_iff p 65536 ltac:(lia)) (or_introl Hp) : u16 p = p). Qed.

(** A state that does not move by itself is the only one with its view. *)
Lemma view_words_in c n bs d : sim_view (WordsIn c (S n) bs) d -> d = WordsIn c (S n) bs.
Proof. unfold sim_view. destruct d as [| ? [|]| ? [|] [|] | ? ? [|] | ? ? [|] [|] ?]; cbn; intros E; simplify_eq; done. Qed.

Lemma view_words_out c lba n k got d : sim_view (WordsOut c lba n (S k) got) d -> d = WordsOut c lba n (S k) got.
Proof. unfold sim_view. destruct n; destruct d as [| ? [|]| ? [|] [|] | ? ? [|] | ? ? [|] [|] ?]; cbn; intros E; simplify_eq; done. Qed.

Definition sim_disk : IDE_DISK := mkDisk 496 1014 0 0 limit.

Lemma ata_sim_drive : @ata_drive _ sim_bus X86 sim_disk limit sim_view 0.
Proof.
  split; unfold inb, inw, outb, outw; cbn [io_base control_base slave sim_disk].
  - lia.
  - intros c t d Hd. by rewrite sim_read by lia.
  - intros c t k v d Hd Hk Hv. rewrite sim_write by lia. unfold sim_out, sim_view. cbn [snd].
    rewrite (proj2 (Z.eqb_neq (496 + k) 503)), (proj2 (Z.eqb_neq (496 + k) 496)) by lia. rewrite Hd. cbn [settle truncate].
    rewrite u8_small by (unfold is_u8; lia). by replace (496 + k - 496) with k by lia.
  - intros c t cmd w lba n d Hd Hq Hfit. rewrite sim_write by lia. unfold sim_out, sim_view. cbn [snd truncate Z.add Pos.add Z.eqb Pos.eqb].
    rewrite Hd. cbn [settle].
    assert (0 <= cmd < 256) as Hcmd.
    { destruct t as [dv cn lo mi hi]. unfold tf_request, ATA_CMD_READ, ATA_CMD_WRITE, ATA_CMD_READ_EXT, ATA_CMD_WRITE_EXT in Hq.
      destruct (_ || _); [done|].
      destruct (Z.eqb_spec cmd 32); [lia|]. destruct (Z.eqb_spec cmd 48); [lia|]. destruct (Z.eqb_spec cmd 36); [lia|].
      destruct (Z.eqb_spec cmd 52); [lia|]. done. }
    rewrite u8_small by (unfold is_u8; lia). rewrite Hq, (proj2 (Z.leb_le _ _) Hfit). by destruct w.
  - intros c [|b bs] d Hd Hne; [done|]. eapply polls_now; [unfold inb; rewrite sim_read by (cbn; lia); unfold sim_in;
      change (io_base sim_disk + 7 =? 503) with true; cbn iota; rewrite Hd; reflexivity|]. done.
  - intros c n b0 b1 bs d Hd H0 H1. apply view_words_in in Hd as ->. rewrite sim_read by lia. cbn [sim_in Z.eqb Pos.eqb fst snd truncate].
    split; [|done]. cbn. zlia.
  - intros c bs d Hd. unfold sim_view in *. rewrite Hd. by destruct bs.
  - intros c d Hd. by exists idle_task.
  - intros c lba n d Hd. eapply polls_now; [unfold inb; rewrite sim_read by (cbn; lia); unfold sim_in;
      change (io_base sim_disk + 7 =? 503) with true; cbn iota; rewrite Hd; reflexivity|]. done.
  - intros c lba n k got w d Hd Hw. apply view_words_out in Hd as ->. rewrite sim_write by lia. cbn [sim_out Z.eqb Pos.eqb snd truncate].
    by rewrite (proj2 (Z.mod_small_iff w 65536 ltac:(lia)) (or_introl Hw) : u16 w = w).
  - intros c lba n got d Hd. unfold sim_view in *. rewrite Hd. by destruct n.
Qed.

End simulator.

Lemma sim_disk_ok limit : 0 <= limit <= 268435456 -> disk_ok (sim_disk limit) limit.
Proof. intros Hl. split; cbn; [by left | lia | lia | lia]. Qed.

Lemma ide_moves_sectors_witness :
  (exists m' d', @ide_transfer _ (sim_bus 4) X86 (sim_disk 4) 2 4096 2 false (fun _ => 65) (Ready (fun _ => 66) idle_task) = ((true, m'), d') /\ m' 4100 = 66) /\
  exists c' d', (@issue _ (sim_bus 4) X86 (sim_disk 4) 2 2 true;; @move_sectors _ (sim_bus 4) X86 (sim_disk 4) 2 4096 true (fun _ => 65)) (Ready (fun _ => 66) idle_task)
    = ((true, fun _ => 65), d') /\ sim_view (DataOut c' 4 0) d' /\ c' 1024 = 65 /\ c' 1023 = 66.
Proof.
  destruct (@ide_moves_sectors _ (sim_bus 4) X86 (sim_disk 4) 4 sim_view 0 (ata_sim_drive 4) (sim_disk_ok 4 ltac:(lia))
    (fun _ => 66) idle_task 2 4096 2 (fun _ => 65) (Ready (fun _ => 66) idle_task) eq_refl) as [(m' & t' & d' & E & _ & Hm) Hw]; try (unfold byte; cbn; lia).
  split; [exists m', d'; split; [exact E|]; rewrite Hm; vm_compute; reflexivity|].
  destruct (Hw ltac:(lia)) as (c' & d2 & E2 & Hd2 & Hc). exists c', d2. split; [exact E2|]. split; [exact Hd2|]. split; rewrite Hc; vm_compute; reflexivity.
Defined.

(** ** The volume of [Fat32] on such a drive *)
Definition ide_volume_state : ob fresh (io ata) :=
  mkOb [] 0 [] 0 ∅ fresh_start
    (mkIo {[ 4096 := mkDriver IO_TYPE_DRIVER [] 0 0 (replicate 8 ide_dispatch_addr) (replicate 8 0) 0 8192 0 ]}
      {[ 8192 := mkDevice IO_TYPE_DEVICE [] 4096 12288 12 0 1 ]} (store (fun _ => 0) 12288 (disk_bytes (sim_disk 4))) 1 2 0
      (Ready tiny_img idle_task)).

Lemma tiny_img_bytes o : byte (tiny_img o).
Proof.
  assert (Hg : forall l k, Forall byte l -> byte (get 0 l k)).
  { intros l k Hl. unfold get. destruct (l !! Z.to_nat k) eqn:E; cbn; [|unfold byte; lia]. by eapply Forall_lookup in Hl. }
  unfold tiny_img. repeat destruct (_ <? _); [unfold byte; lia|..]; apply Hg;
    match goal with |- Forall byte ?l => apply (bool_decide_eq_true_1 (Forall (fun b => 0 <= b < 256) l)) end; vm_compute; reflexivity.
Qed.

Lemma ide_volume_attached : attached tiny_volume ide_dispatch_addr (ide_ready sim_view (sim_disk 4) 8192 12288 tiny_img) ide_volume_state.
Proof.
  split; [done|]. split; [done|]. split; [|by eexists _, _].
  split; [by eexists|]. split; [vm_compute; reflexivity | by exists idle_task].
Qed.

Lemma Fat32ReadFile_on_ide_witness :
  exists st', @Fat32ReadFile ata fresh _ (@run_ide _ _ (sim_bus 4) X86) 1 tiny_volume (Some (cstr "/hello.txt")) true ide_volume_state
    = Some (Some (66048, cstr "hello"), st').
Proof.
  destruct (@Fat32ReadFile_on_ide ata fresh (sim_bus 4) _ X86 4 sim_view 0 (sim_disk 4) 8192 12288 tiny_img (ata_sim_drive 4)
    (sim_disk_ok 4 ltac:(lia)) tiny_img_bytes tiny_volume 1 (cstr "/hello.txt") tiny_entry [3] 65536 66048
    (mkFresh 66048 {[ 65536 := 512 ]}) (mkFresh 66053 {[ 65536 := 512; 66048 := 5 ]}) ide_volume_state eq_refl tiny_volume_ok
    ide_volume_attached) as (st' & E & _).
  - split; [lia|]. unfold extension, sizeof_IDE_DISK. lia.
  - exact tiny_resolves.
  - reflexivity.
  - exact (tiny_chain 3 (or_intror eq_refl)).
  - cbn. lia.
  - vm_compute. split; discriminate.
  - vm_compute. reflexivity.
  - vm_compute. reflexivity.
  - lia.
  - split; cbn; [lia|]. intros p cap. rewrite lookup_insert_Some, lookup_singleton_Some. intuition (subst; lia || done).
  - exists st'. rewrite E. vm_compute. reflexivity.
Defined.

Lemma ide_dispatch_refuses_witness :
  @ide_dispatch ata fresh (sim_bus 4) X86 8192 (mkRequest IO_MJ_READ 0 0 4096 100 (read_write 0)) ide_volume_state
    = Some (IO_STATUS_INVALID_PARAMETER, mkRequest IO_MJ_READ 0 0 4096 100 (read_write 0), ide_volume_state) /\
  @ide_dispatch ata fresh (sim_bus 4) X86 8192 (mkRequest IO_MJ_READ 0 0 4096 1024 (read_write 1536)) ide_volume_state
    = Some (IO_STATUS_DEVICE_ERROR, mkRequest IO_MJ_READ 0 0 4096 1024 (read_write 1536), ide_volume_state).
Proof.
  assert (E : sectors (disk_at (bytes (memory ide_volume_state)) 12288) = 4) by (vm_compute; reflexivity).
  split.
  - apply (@ide_dispatch_refuses ata fresh (sim_bus 4) X86 8192 (mkRequest IO_MJ_READ 0 0 4096 100 (read_write 0)) ide_volume_state
      (mkDevice IO_TYPE_DEVICE [] 4096 12288 12 0 1) 0 eq_refl eq_refl ltac:(lia) ltac:(cbn; lia)).
    cbn. intros (_ & _ & _ & H & _). discriminate.
  - apply (@ide_dispatch_refuses ata fresh (sim_bus 4) X86 8192 (mkRequest IO_MJ_READ 0 0 4096 1024 (read_write 1536)) ide_volume_state
      (mkDevice IO_TYPE_DEVICE [] 4096 12288 12 0 1) 1536 eq_refl eq_refl ltac:(lia) ltac:(cbn; lia)).
    + repeat split; cbn; (reflexivity || lia).
    + cbn [device_extension]. rewrite E. lia.
    + cbn [device_extension]. rewrite E. reflexivity.
Defined.

(** ** A drive that answers IDENTIFY with 4096 sectors *)
Definition id_bus : Bus Z :=
  {| port_in := fun _ p d => if p =? 503 then (88, d) else if p =? 496 then (if d =? 60 then 4096 else 0, d + 1) else (0, d);
     port_out := fun _ _ _ d => (tt, d); mmio_load := fun _ _ d => (0, d); mmio_store := fun _ _ _ d => (tt, d) |}.

Definition id_boot : ob fresh (io Z) := IoInit (ObInit (mkOb [] 0 [] 0 ∅ fresh_start (mkIo ∅ ∅ (fun _ => 0) 0 0 0 0))).
Definition id_state : @ide Z fresh :=
  mkIde (set_memory id_boot (set_drivers (memory id_boot)
    {[ 4096 := mkDriver IO_TYPE_DRIVER (cstr "Disk") 0 0 (replicate 8 0) (replicate 8 0) 0 0 0 ]})) 4096 0 (replicate 4 0).

Lemma id_probe_runs : fst <$> @ide_probe Z fresh id_bus _ X86 496 1014 0 id_state = Some true.
Proof. vm_compute. reflexivity. Qed.

Lemma id_identifies : @identify Z id_bus X86 496 1014 0 (hardware (memory (kern id_state))) = (Some (mkDisk 496 1014 0 0 4096), 256).
Proof. vm_compute. reflexivity. Qed.

Lemma ide_probe_attaches_witness :
  exists st', @ide_probe Z fresh id_bus _ X86 496 1014 0 id_state = Some (true, st') /\ IdeGetDiskSectors 0 st' = 4096.
Proof.
  pose proof id_probe_runs as Hb.
  destruct (@ide_probe Z fresh id_bus _ X86 496 1014 0 id_state) as [[b st']|] eqn:E; cbn in Hb; [|discriminate].
  injection Hb as ->. exists st'. split; [reflexivity|].
  destruct (@ide_probe_attaches Z fresh id_bus _ X86 496 1014 0 (mkDisk 496 1014 0 0 4096) 256 id_state st') as (_ & _ & Hs & _).
  - split; unfold byte, is_u32; cbn; lia.
  - cbn. lia.
  - reflexivity.
  - exact id_identifies.
  - exact E.
  - exact Hs.
Defined.

End Ide.
