(* ===== verification/Cdfs.v ===== *)
(** * drivers/cdfs/cdfs.c: the boot medium

    ISO 9660 files from an ATAPI drive on the IDE ports, or from a disk device
    of [Io] that holds the same image, or, once one is mounted, from the FAT32
    volume of [Fat32].  Buffers live in the kernel's memory ([bytes] of [Io]);
    the read-ahead cache is the static array it is in the code.  Reading a
    directory record past the end of its buffer is undefined ([None]).  Serial
    log lines are left out. *)

From stdpp Require Import base list numbers gmap strings.
From Stdlib Require Import ZArith Lia.
From S2P Require Import Prelude.
From S2P Require Import Util.
From S2P Require Import Pmm.
From S2P Require Import Vmm.
From S2P Require Import Mm.
From S2P Require Import Sim.
From S2P Require Import RtlPath.
From S2P Require Import Ob.
From S2P Require Import Io.
From S2P Require Import Hw.
From S2P Require Import Fat32.
Import Util Ob Io RtlPath Hw Fat32.

Module Cdfs.

Definition CDFS_SECTOR_SIZE : Z := 2048.

Record cdfs := mkCdfs {
  cdrom_present : bool;
  cdrom_ready : bool;
  usb_iso_device : Z;
  ide_base : Z;
  ide_slave : bool;
  iso_cache : list Z;
  iso_cache_lba : Z;
  iso_cache_valid : bool
}.

Definition set_cache (c : cdfs) (b : list Z) (lba : Z) (v : bool) : cdfs :=
  mkCdfs (cdrom_present c) (cdrom_ready c) (usb_iso_device c) (ide_base c) (ide_slave c) b lba v.

(** [char] comparison, letters folded to upper case. *)
Definition fold_char (c : Z) : Z := if (97 <=? s8 c) && (s8 c <=? 122) then s8 c - 32 else s8 c.

Fixpoint cdfs_name_equal (a b : list Z) : bool :=
  match a, b with
  | x :: a, y :: b => (fold_char x =? fold_char y) && cdfs_name_equal a b
  | [], [] => true
  | _, _ => false
  end.

(** ** The ATA ports *)
Section ata.
Context {D : Type} `{Bus D} (a : arch).

(** [while ((inb(base + 7) & 0x80) && timeout--)]: the final [timeout]. *)
Fixpoint busy_loop (n : nat) (base : Z) : hw D Z :=
  s ← inb a (base + 7);
  if Z.land s 128 =? 0 then mret (Z.of_nat n) else
  match n with O => mret (-1) | S n' => busy_loop n' base end.

Definition ata_wait_not_busy (base : Z) : hw D bool :=
  t ← busy_loop (Z.to_nat 100000) base; mret (0 <? t).

Definition ata_wait_drq (base : Z) : hw D bool :=
  r ← wait_loop (Z.to_nat 100000) (inb a (base + 7)) (fun s =>
        if negb (Z.land s 1 =? 0) then Error else if negb (Z.land s 8 =? 0) then Break else Again);
  mret (match fst r with Break => true | _ => false end).

Fixpoint outw_all (base : Z) (ws : list Z) : hw D unit :=
  match ws with [] => mret tt | w :: ws => outw a base w;; outw_all base ws end.

Fixpoint inw_all (n : nat) (base : Z) : hw D (list Z) :=
  match n with
  | O => mret []
  | S n' => w ← inw a base; r ← inw_all n' base; mret (u8 w :: u8 (Z.shiftr w 8) :: r)
  end.

(** The READ(12) packet as six words. *)
Definition read12 (lba sectors : Z) : list Z :=
  let b k := Z.land (Z.shiftr lba k) 255 in
  [168; b 24 + 256 * b 16; b 8 + 256 * b 0; 0; 256 * u8 sectors; 0].

(** Writing the bytes [bs] into an array from index [o] on. *)
Definition splice (buf : list Z) (o : Z) (bs : list Z) : list Z :=
  take (Z.to_nat o) buf ++ bs ++ drop (Z.to_nat o + Datatypes.length bs) buf.

(** The data phases: what is in the buffer, and how much was transferred.  A
    phase moves at least one byte, so [wanted] bounds the turns. *)
Fixpoint data_loop (fuel : nat) (base wanted transferred : Z) (buf : list Z) : hw D (bool * list Z) :=
  if wanted <=? transferred then mret (transferred =? wanted, buf) else
  match fuel with
  | O => mret (false, buf)
  | S fuel' =>
      r ← wait_loop (Z.to_nat 100000) (inb a (base + 7)) (fun s =>
            if negb (Z.land s 1 =? 0) then Error else if negb (Z.land s 8 =? 0) then Break
            else if Z.land s 128 =? 0 then Break else Again);
      match fst r with
      | Error => mret (false, buf)
      | _ =>
          if snd r =? 0 then mret (false, buf) else
          s ← inb a (base + 7);
          if Z.land s 8 =? 0 then mret (transferred =? wanted, buf) else
          hi ← inb a (base + 5);
          lo ← inb a (base + 4);
          let phase := Z.lor (Z.shiftl hi 8) lo in
          let phase := if phase =? 0 then CDFS_SECTOR_SIZE else phase in
          let phase := if wanted - transferred <? phase then wanted - transferred else phase in
          bs ← inw_all (Z.to_nat (phase / 2)) base;
          data_loop fuel' base wanted (transferred + phase) (splice buf transferred bs)
      end
  end.

(** [buf] is what the buffer held; the result comes with what it holds then. *)
Definition atapi_read_sectors_internal (base : Z) (slave : bool) (lba : Z) (buf : list Z) (sectors : Z)
  : hw D (bool * list Z) :=
  outb a (base + 6) (if slave then 176 else 160);;
  r ← wait_loop (Z.to_nat 100000) (inb a (base + 7)) (fun s =>
        if (Z.land s 128 =? 0) && negb (Z.land s 64 =? 0) then Break else Again);
  if snd r =? 0 then mret (false, buf) else
  outb a (base + 1) 0;;
  outb a (base + 4) 0;;
  outb a (base + 5) 8;;
  outb a (base + 7) 160;;
  r ← wait_loop (Z.to_nat 100000) (inb a (base + 7)) (fun s =>
        if negb (Z.land s 1 =? 0) then Error else if negb (Z.land s 8 =? 0) then Break else Again);
  match fst r with
  | Error => inb a (base + 1);; inb a (base + 2);; mret (false, buf)
  | _ =>
      if snd r =? 0 then mret (false, buf) else
      inb a (base + 2);;
      outw_all base (read12 lba sectors);;
      let wanted := u8 sectors * CDFS_SECTOR_SIZE in
      data_loop (Z.to_nat wanted) base wanted 0 buf
  end.

Definition atapi_read_sector_internal (base : Z) (slave : bool) (lba : Z) (buf : list Z) : hw D (bool * list Z) :=
  atapi_read_sectors_internal base slave lba buf 1.

Definition probe_ide_device (base : Z) (slave : bool) : hw D bool :=
  let drive_sel := if slave then 176 else 160 in
  outb a (base + 6) drive_sel;;
  status ← inb a (base + 7);
  if (status =? 255) || (status =? 0) then mret false else
  ready ← ata_wait_not_busy base;
  if negb ready then mret false else
  sc ← inb a (base + 2);
  sn ← inb a (base + 3);
  cl ← inb a (base + 4);
  ch ← inb a (base + 5);
  if (cl =? 20) && (ch =? 235) then mret true else
  if (cl =? 0) && (ch =? 0) && (sc =? 1) && (sn =? 1) then mret false else
  outb a (base + 6) drive_sel;;
  outb a (base + 7) 161;;
  drq ← ata_wait_drq base;
  if negb drq then mret false else
  identify ← inw_all 256 base;
  mret (negb (Z.land (le16 identify 0) 32768 =? 0) && negb (Z.land (le16 identify 0) 128 =? 0)).

End ata.

Definition is_iso (b : list Z) : bool :=
  (le8 b 0 =? 1) && (le8 b 1 =? 67) && (le8 b 2 =? 68) && (le8 b 3 =? 48) && (le8 b 4 =? 48) && (le8 b 5 =? 49).

(** ** One directory *)

(** [entry_name]: the identifier up to its version, at most 254 bytes; [None]
    when a byte lies outside the buffer. *)
Fixpoint entry_name (n : nat) (buf : list Z) (o : Z) : option (list Z) :=
  match n with
  | O => Some []
  | S n' =>
      c ← buf !! Z.to_nat o;
      if c =? 59 then Some [] else rest ← entry_name n' buf (o + 1); Some (c :: rest)
  end.

Record found_entry := mkFound { found_lba : Z; found_size : Z; found_is_dir : bool }.

(** The scan of a directory buffer of [total] bytes: [Some None] when the name
    is not there, [None] when a field lies outside the buffer.  Every turn
    moves on by a byte at least. *)
Fixpoint scan_dir (fuel : nat) (component dir_buf : list Z) (total off : Z) : option (option found_entry) :=
  if total <=? off then Some None else
  match fuel with
  | O => None
  | S fuel' =>
      len ← dir_buf !! Z.to_nat off;
      if len =? 0 then scan_dir fuel' component dir_buf total ((off / CDFS_SECTOR_SIZE + 1) * CDFS_SECTOR_SIZE) else
      flags ← dir_buf !! Z.to_nat (off + 25);
      name_len ← dir_buf !! Z.to_nat (off + 32);
      name ← entry_name (Z.to_nat (Z.min name_len 254)) dir_buf (off + 33);
      if cdfs_name_equal component (buf_str name) then
        Some (Some (mkFound (le32 dir_buf (off + 2)) (le32 dir_buf (off + 10)) (negb (Z.land flags 2 =? 0))))
      else scan_dir fuel' component dir_buf total (off + len)
  end.

(** ** The kernel's memory *)


(** ** The file system *)
Section fs.
Context {D H : Type} `{Bus D} `{KernelHeap H} (a : arch).
Context (dispatch : Z -> Z -> IO_REQUEST -> ob H (io D) -> option (Z * IO_REQUEST * ob H (io D))).
Context (run_unload : Z -> Z -> ob H (io D) -> option (ob H (io D))).
(** The address of the local array [sector]. *)
Context (stack : Z).

Record sys := mkSys { kern : ob H (io D); cd : cdfs }.
Definition dev (st : sys) : D := hardware (memory (kern st)).
Implicit Types st : sys.

Definition set_kern st (k : ob H (io D)) : sys := mkSys k (cd st).
Definition set_dev st (d : D) : sys := mkSys (set_memory (kern st) (set_hardware (memory (kern st)) d)) (cd st).
Definition set_cd st (c : cdfs) : sys := mkSys (kern st) c.
Definition ram st : mem := bytes (memory (kern st)).
Definition set_ram st (m : mem) : sys := set_kern st (set_memory (kern st) (set_bytes (memory (kern st)) m)).
Definition set_sys_heap st (h : H) : sys := set_kern st (set_heap (kern st) h).

Definition usb_read_iso_sectors (lba sectors buffer : Z) st : option (bool * sys) :=
  if usb_iso_device (cd st) =? 0 then Some (false, st) else
  '(s, _, k) ← IoCallDriver dispatch (usb_iso_device (cd st))
      (Some (mkRequest IO_MJ_READ 0 0 buffer (u32 (u8 sectors * CDFS_SECTOR_SIZE)) (read_write (lba * CDFS_SECTOR_SIZE))))
      (kern st);
  Some (s =? IO_STATUS_SUCCESS, set_kern st k).

Definition usb_read_iso_sector (lba buffer : Z) st : option (bool * sys) :=
  if usb_iso_device (cd st) =? 0 then Some (false, st) else
  '(s, _, k) ← IoCallDriver dispatch (usb_iso_device (cd st))
      (Some (mkRequest IO_MJ_READ 0 0 buffer CDFS_SECTOR_SIZE (read_write (lba * CDFS_SECTOR_SIZE)))) (kern st);
  Some (s =? IO_STATUS_SUCCESS, set_kern st k).

(** [atapi_read_sectors_internal] into the memory at [buffer]. *)
Definition atapi_read_memory (base : Z) (slave : bool) (lba buffer sectors : Z) st : bool * sys :=
  let '(ok, bs, d) := atapi_read_sectors_internal a base slave lba
                        (load (ram st) buffer (u8 sectors * CDFS_SECTOR_SIZE)) sectors (dev st) in
  (ok, set_ram (set_dev st d) (store (ram st) buffer bs)).

(** One sector, through the read-ahead cache of eight. *)
Definition CdfsReadSector (lba buffer : Z) st : option (bool * sys) :=
  let c := cd st in
  if negb (cdrom_present c) || negb (cdrom_ready c) then Some (false, st) else
  if negb (usb_iso_device c =? 0) then usb_read_iso_sector lba buffer st else
  if iso_cache_valid c && (iso_cache_lba c <=? lba) && (lba <? u32 (iso_cache_lba c + 8)) then
    Some (true, set_ram st (store (ram st) buffer
      (take 2048 (drop (Z.to_nat ((lba - iso_cache_lba c) * CDFS_SECTOR_SIZE)) (iso_cache c)))))
  else
    let '(ok, cache, d) := atapi_read_sectors_internal a (ide_base c) (ide_slave c) lba (iso_cache c) 8 (dev st) in
    let st := set_cd (set_dev st d) (set_cache c cache lba ok) in
    if negb ok then Some (false, st) else Some (true, set_ram st (store (ram st) buffer (take 2048 cache))).

(** The loop that fills [dir_buf]: what [CdfsReadSector] returns is ignored. *)
Fixpoint read_directory (n : nat) (lba p : Z) st : option sys :=
  match n with
  | O => Some st
  | S n' => '(_, st) ← CdfsReadSector lba p st; read_directory n' (u32 (lba + 1)) (p + CDFS_SECTOR_SIZE) st
  end.

(** The walk over the components of the normalised path; each takes a byte of
    it at least. *)
Fixpoint find_walk (steps : nat) (cursor : list Z) (dir_lba dir_size : Z) st : option (option (Z * Z) * sys) :=
  match steps with
  | O => None
  | S steps' =>
      match RtlNextPathComponent (Some cursor) true 256 with
      | NextName component cursor =>
          let sectors := u32 (dir_size + CDFS_SECTOR_SIZE - 1) / CDFS_SECTOR_SIZE in
          let total := u32 (sectors * CDFS_SECTOR_SIZE) in
          '(dir_buf, h) ← kh_malloc total (heap (kern st));
          let st := set_sys_heap st h in
          if dir_buf =? 0 then Some (None, st) else
          st ← read_directory (Z.to_nat sectors) dir_lba dir_buf st;
          found ← scan_dir (Z.to_nat total) component (load (ram st) dir_buf total) (s32 total) 0;
          h ← kh_free dir_buf (heap (kern st));
          let st := set_sys_heap st h in
          match found with
          | None => Some (None, st)
          | Some e =>
              match cursor with
              | [] => Some (Some (found_lba e, found_size e), st)
              | _ => if found_is_dir e then find_walk steps' cursor (found_lba e) (found_size e) st
                     else Some (None, st)
              end
          end
      | NextEnd _ | NextError => Some (None, st)
      end
  end.

(** [*out_lba] and [*out_size]. *)
Definition CdfsFindFile (path : option (list Z)) (outputs_ok : bool) st : option (option (Z * Z) * sys) :=
  match path with
  | None => Some (None, st)
  | Some p =>
      if negb (cdrom_ready (cd st)) || negb outputs_ok then Some (None, st) else
      '(ok, st) ← CdfsReadSector 16 stack st;
      if negb ok then Some (None, st) else
      let sector := load (ram st) stack CDFS_SECTOR_SIZE in
      match RtlNormalizePath (Some p) true 256 with
      | None => Some (None, st)
      | Some normalized =>
          find_walk (S (Datatypes.length normalized)) normalized (le32 sector (156 + 2)) (le32 sector (156 + 10)) st
      end
  end.

(** One transfer of at most 255 sectors. *)
Definition read_batch (lba batch p : Z) st : option (bool * sys) :=
  if negb (usb_iso_device (cd st) =? 0) then usb_read_iso_sectors lba batch p st
  else Some (atapi_read_memory (ide_base (cd st)) (ide_slave (cd st)) lba p batch st).

Fixpoint read_batches (fuel : nat) (lba sectors done buffer : Z) st : option (bool * sys) :=
  if sectors <=? done then Some (true, st) else
  match fuel with
  | O => None
  | S fuel' =>
      let remaining := sectors - done in
      let batch := if 255 <? remaining then 255 else u8 remaining in
      let at_ := buffer + done * CDFS_SECTOR_SIZE in
      '(ok, st) ← read_batch (u32 (lba + done)) batch at_ st;
      if negb ok then h ← kh_free buffer (heap (kern st)); Some (false, set_sys_heap st h)
      else read_batches fuel' lba sectors (done + batch) buffer st
  end.

(** The buffer, the file's size, and the bytes the buffer holds; [vol] and
    [fuel] are the FAT32 volume, which takes over when it is mounted. *)
Definition CdfsReadFile (fuel : nat) (vol : FAT32_VOLUME) (path : option (list Z)) st
  : option (option (Z * Z * list Z) * sys) :=
  if Fat32IsMounted vol then
    '(r, k) ← Fat32ReadFile dispatch fuel vol path true (kern st);
    Some (match r with Some (p, bs) => Some (p, Z.of_nat (Datatypes.length bs), bs) | None => None end, set_kern st k)
  else
    '(r, st) ← CdfsFindFile path true st;
    match r with
    | None => Some (None, st)
    | Some (lba, size) =>
        let sectors := u32 (size + 2047) / 2048 in
        let alloc_size := u32 (sectors * 2048) in
        '(buffer, h) ← kh_malloc (if alloc_size =? 0 then 1 else alloc_size) (heap (kern st));
        let st := set_sys_heap st h in
        if buffer =? 0 then Some (None, st) else
        '(ok, st) ← read_batches (Z.to_nat sectors) lba sectors 0 buffer st;
        if negb ok then Some (None, st) else Some (Some (buffer, size, load (ram st) buffer size), st)
    end.

(** ** Finding the medium *)
Definition set_usb (c : cdfs) (u : Z) : cdfs :=
  mkCdfs (cdrom_present c) (cdrom_ready c) u (ide_base c) (ide_slave c) (iso_cache c) (iso_cache_lba c) (iso_cache_valid c).

Fixpoint probe_disks (names : list (list Z)) st : option (bool * sys) :=
  match names with
  | [] => Some (false, st)
  | n :: names =>
      '(u, k) ← IoGetDevice (Some n) (kern st);
      let st := set_cd (set_kern st k) (set_usb (cd st) u) in
      if u =? 0 then probe_disks names st else
      '(ok, st) ← usb_read_iso_sector 16 stack st;
      if ok && is_iso (load (ram st) stack CDFS_SECTOR_SIZE) then
        let c := cd st in
        Some (true, set_cd st (mkCdfs true true u (ide_base c) (ide_slave c) (iso_cache c) (iso_cache_lba c) (iso_cache_valid c)))
      else
        d ← devices (memory (kern st)) !! u;
        k ← ObDereferenceObject (io_call run_unload) (vhandle d) (kern st);
        probe_disks names (set_cd (set_kern st k) (set_usb (cd st) 0))
  end.

Fixpoint probe_ports (ports : list (Z * bool)) : hw D (option (Z * bool)) :=
  match ports with
  | [] => mret None
  | (base, slave) :: ports =>
      ok ← probe_ide_device a base slave;
      if negb ok then probe_ports ports else mret (Some (base, slave))
  end.

Definition CdfsInit st : option sys :=
  let c := cd st in
  let st := set_cd st (mkCdfs false false (usb_iso_device c) (ide_base c) (ide_slave c) (iso_cache c) (iso_cache_lba c) false) in
  '(found, st) ← (probe_disks [cstr "UsbDisk0"; cstr "Harddisk0"] st);
  if (found : bool) then Some st else
  let '(port, d) := probe_ports [(496, false); (496, true); (368, false); (368, true)] (dev st) in
  let st := set_dev st d in
  match port with
  | None => Some st
  | Some (base, slave) =>
      let c := cd st in
      let st := set_cd st (mkCdfs true false (usb_iso_device c) base slave (iso_cache c) (iso_cache_lba c) (iso_cache_valid c)) in
      let b := load (ram st) stack CDFS_SECTOR_SIZE in
      let '(ok, b, d) := atapi_read_sector_internal a base slave 16 b (dev st) in
      let '(ok, b, d) := if ok then (ok, b, d) else atapi_read_sector_internal a base slave 17 b d in
      let st := set_ram (set_dev st d) (store (ram st) stack b) in
      if negb ok then Some st else
      let c := cd st in
      Some (set_cd st (mkCdfs true (is_iso b) (usb_iso_device c) base slave (iso_cache c) (iso_cache_lba c) (iso_cache_valid c)))
  end.

End fs.

(** * The drive

    What the code relies on of an ATAPI drive in PIO mode.  A drive is polled at
    its status register: BSY (0x80) until it is ready, then DRDY (0x40), DRQ
    (0x08) or ERR (0x01).  [disc] is its contents, [limit] its sectors. *)
Inductive drive_state :=
| Idle | Selected | Packet (ws : list Z) | Reading (bs : list Z)
| Phase (n : Z) (bs : list Z) | Words (n : Z) (bs : list Z) | Failed.

(** The bytes of a command packet sent as words, low byte first. *)
Definition packet_bytes (ws : list Z) : list Z := flat_map (fun w => [w mod 256; w / 256]) ws.

Definition be32 (b : list Z) (o : Z) : Z :=
  16777216 * get 0 b o + 65536 * get 0 b (o + 1) + 256 * get 0 b (o + 2) + get 0 b (o + 3).

(** A complete READ(12) packet: its first sector and its count. *)
Definition read12_request (ws : list Z) : option (Z * Z) :=
  let b := packet_bytes ws in
  if bool_decide (Datatypes.length ws = 6%nat) && (get 0 b 0 =? 168) then Some (be32 b 2, be32 b 6) else None.

(** [n] sectors of a disc. *)
Definition disc_sectors (disc : Z -> Z) (lba n : Z) : list Z := slice disc (lba * 2048) (n * 2048).

Section drive.
Context {D : Type} `{Bus D} (a : arch) (base : Z) (slave : bool) (disc : Z -> Z) (limit : Z).
(** The view of the hardware's state, and how many polls it may be busy. *)
Context (drv : drive_state -> D -> Prop) (patience : nat).

(** At most [n] polls of the status find the drive busy before [Ready]. *)
Definition drive_polls : (Z -> D -> Prop) -> nat -> D -> Prop :=
  polls (inb a (base + 7)) (fun s => Z.land s 1 = 0 /\ Z.land s 8 = 0 /\ Z.land s 128 <> 0).

Record atapi_drive : Prop := {
  ad_bound : Z.of_nat patience < 99999;
  ad_select d : drv Idle d ->
    drive_polls (fun s d' => Z.land s 128 = 0 /\ Z.land s 64 <> 0 /\ drv Selected d') patience
      (snd (outb a (base + 6) (if slave then 176 else 160) d));
  ad_packet d : drv Selected d ->
    drive_polls (fun s d' => Z.land s 1 = 0 /\ Z.land s 8 <> 0 /\ drv (Packet []) d') patience
      (snd ((outb a (base + 1) 0;; outb a (base + 4) 0;; outb a (base + 5) 8;; outb a (base + 7) 160) d));
  ad_reason d : drv (Packet []) d -> drv (Packet []) (snd (inb a (base + 2) d));
  ad_word ws w d : drv (Packet ws) d -> (Datatypes.length ws < 5)%nat -> 0 <= w < 65536 ->
    drv (Packet (ws ++ [w])) (snd (outw a base w d));
  ad_command ws w lba n d : drv (Packet ws) d -> 0 <= w < 65536 -> read12_request (ws ++ [w]) = Some (lba, n) ->
    drv (if lba + n <=? limit then Reading (disc_sectors disc lba n) else Failed) (snd (outw a base w d));
  ad_phase bs d : drv (Reading bs) d -> bs <> [] -> Z.of_nat (Datatypes.length bs) mod 2 = 0 ->
    drive_polls (fun s d' => Z.land s 1 = 0 /\ Z.land s 8 <> 0 /\
      exists n, 0 < n < 65536 /\ n mod 2 = 0 /\ n <= Z.of_nat (Datatypes.length bs) /\ drv (Phase n bs) d') patience d;
  ad_status n bs d : drv (Phase n bs) d ->
    Z.land (fst (inb a (base + 7) d)) 8 <> 0 /\ drv (Phase n bs) (snd (inb a (base + 7) d));
  ad_high n bs d : drv (Phase n bs) d -> 0 < n < 65536 ->
    fst (inb a (base + 5) d) = n / 256 /\ drv (Phase n bs) (snd (inb a (base + 5) d));
  ad_low n bs d : drv (Phase n bs) d ->
    fst (inb a (base + 4) d) = n mod 256 /\ drv (Words n bs) (snd (inb a (base + 4) d));
  ad_transfer n b0 b1 bs d : drv (Words n (b0 :: b1 :: bs)) d -> 0 < n -> 0 <= b0 < 256 -> 0 <= b1 < 256 ->
    fst (inw a base d) = b0 + 256 * b1 /\ drv (Words (n - 2) bs) (snd (inw a base d));
  ad_phase_end bs d : drv (Words 0 bs) d -> drv (Reading bs) d;
  ad_end d : drv (Reading []) d -> drv Idle d;
  ad_error d : drv Failed d ->
    drive_polls (fun s d' => Z.land s 1 <> 0 /\ drv Idle d') patience d
}.

Context (Hdrive : atapi_drive) (Hbytes : forall o, 0 <= disc o < 256).

Lemma drive_wait Ready n d decide m :
  drive_polls Ready n d -> (n + 1 < m)%nat ->
  (forall s, Z.land s 1 = 0 -> Z.land s 8 = 0 -> Z.land s 128 <> 0 -> decide s = Again) ->
  (forall s d', Ready s d' -> decide s <> Again) ->
  exists s t d', wait_loop m (inb a (base + 7)) decide d = ((decide s, t), d') /\ t <> 0 /\ Ready s d'.
Proof.
  intros Hp Hm Hb Hr. destruct (wait_polls _ _ Ready n d decide m Hp ltac:(lia)) as (s & t & d' & E & Ht & HR); [| exact Hr |].
  - intros s (E1 & E8 & E128). by apply Hb.
  - exists s, t, d'. split; [exact E|]. split; [lia | done].
Qed.

(** The packet the code sends asks for what it was told to read. *)
Lemma read12_ok lba n : is_u32 lba -> 0 <= n < 256 -> read12_request (read12 lba n) = Some (lba, n).
Proof.
  intros Hl Hn. unfold read12_request, read12.
  assert (Hb : forall k, 0 <= k -> Z.land (Z.shiftr lba k) 255 = lba / 2 ^ k mod 256).
  { intros k Hk. rewrite Z.shiftr_div_pow2 by lia. exact (Z.land_ones _ 8 ltac:(lia)). }
  rewrite !Hb by lia. change (2 ^ 24) with 16777216. change (2 ^ 16) with 65536. change (2 ^ 8) with 256. change (2 ^ 0) with 1.
  clear Hb. set (b3 := lba / 16777216 mod 256). set (b2 := lba / 65536 mod 256).
  set (b1 := lba / 256 mod 256). set (b0 := lba / 1 mod 256).
  assert (Hlba : lba = 16777216 * b3 + 65536 * b2 + 256 * b1 + b0) by (subst b3 b2 b1 b0; zlia).
  assert (Hr : 0 <= b3 < 256 /\ 0 <= b2 < 256 /\ 0 <= b1 < 256 /\ 0 <= b0 < 256) by (subst b3 b2 b1 b0; zlia).
  clearbody b3 b2 b1 b0.
  unfold packet_bytes, be32. cbn [Datatypes.length flat_map app get].
  rewrite bool_decide_true by done. unfold get. cbn -[Z.div Z.modulo Z.mul Z.add].
  change (168 mod 256 =? 168) with true. cbn [andb]. const_indices. cbn -[Z.div Z.modulo Z.mul Z.add]. do 2 f_equal; zlia.
Qed.

Lemma send_words sent ws lba n d :
  drv (Packet sent) d -> ws <> [] -> (Datatypes.length sent + Datatypes.length ws = 6)%nat -> Forall (fun w => 0 <= w < 65536) ws ->
  read12_request (sent ++ ws) = Some (lba, n) ->
  drv (if lba + n <=? limit then Reading (disc_sectors disc lba n) else Failed) (snd (outw_all a base ws d)).
Proof.
  revert sent d. induction ws as [|w ws IH]; intros sent d Hd Hne Hl Hw Hreq; [done|]. inversion Hw as [|? ? Hw0 Hws]; subst.
  cbn [outw_all]. unfold mbind, hw_bind. destruct ws as [|w' ws].
  - pose proof (ad_command Hdrive sent w lba n d Hd Hw0 Hreq) as Hc. destruct (outw a base w d) as [[] d']. exact Hc.
  - cbn in Hl. pose proof (ad_word Hdrive sent w d Hd ltac:(lia) Hw0) as Hc. destruct (outw a base w d) as [[] d'].
    apply (IH (sent ++ [w])); [done | done | rewrite length_app; cbn; lia | done |]. by rewrite <- app_assoc.
Qed.

Lemma send_packet lba n d :
  drv (Packet []) d -> is_u32 lba -> 0 <= n < 256 ->
  drv (if lba + n <=? limit then Reading (disc_sectors disc lba n) else Failed) (snd (outw_all a base (read12 lba n) d)).
Proof.
  intros Hd Hl Hn. apply (send_words []); [done..| |by apply read12_ok].
  assert (Hb : forall k, 0 <= Z.land (Z.shiftr lba k) 255 < 256).
  { intros k. change 255 with (Z.ones 8). rewrite Z.land_ones by lia. apply Z.mod_pos_bound. lia. }
  pose proof (Hb 24). pose proof (Hb 16). pose proof (Hb 8). pose proof (Hb 0). unfold read12. cbv zeta.
  repeat constructor; zlia.
Qed.

Lemma inw_all_ok m n bs d :
  drv (Words n bs) d -> n = 2 * Z.of_nat m -> n <= Z.of_nat (Datatypes.length bs) -> Forall (fun b => 0 <= b < 256) bs ->
  fst (inw_all a m base d) = take (Z.to_nat n) bs /\ drv (Reading (drop (Z.to_nat n) bs)) (snd (inw_all a m base d)).
Proof.
  revert n bs d. induction m as [|m IH]; intros n bs d Hd -> Hl Hb; cbn [inw_all].
  - split; [done|]. by apply (ad_phase_end Hdrive).
  - destruct bs as [|b0 [|b1 bs]]; [cbn in Hl; lia..|].
    inversion Hb as [|? ? Hb0 Hb']; subst. inversion Hb' as [|? ? Hb1 Hb'']; subst.
    destruct (ad_transfer Hdrive _ _ _ _ _ Hd ltac:(lia) Hb0 Hb1) as [E Hd'].
    unfold mbind, hw_bind. destruct (inw a base d) as [w d1]. cbn [fst snd] in *. subst w.
    destruct (IH (2 * Z.of_nat (S m) - 2) bs d1 Hd' ltac:(lia) ltac:(cbn in Hl; lia) Hb'') as [E' Hd''].
    destruct (inw_all a m base d1) as [r d2]. cbn [fst snd] in *.
    replace (Z.to_nat (2 * Z.of_nat (S m))) with (S (S (Z.to_nat (2 * Z.of_nat (S m) - 2)))) by lia.
    cbn [take drop]. split; [|exact Hd'']. subst r. cbn. f_equal; [zlia|]. f_equal.
    rewrite Z.shiftr_div_pow2 by lia. change (2 ^ 8) with 256. zlia.
Qed.

Lemma splice_splice buf o n bs :
  0 <= o -> 0 <= n <= Z.of_nat (Datatypes.length bs) -> o + Z.of_nat (Datatypes.length bs) <= Z.of_nat (Datatypes.length buf) ->
  splice (splice buf o (take (Z.to_nat n) bs)) (o + n) (drop (Z.to_nat n) bs) = splice buf o bs.
Proof.
  intros Ho Hn Hl. unfold splice.
  assert (H1 : Datatypes.length (take (Z.to_nat o) buf ++ take (Z.to_nat n) bs) = Z.to_nat (o + n))
    by (rewrite length_app, !length_take; lia).
  rewrite (assoc_L (++) (take (Z.to_nat o) buf) (take (Z.to_nat n) bs)). rewrite (take_app_length' _ _ _ (eq_sym H1)).
  rewrite drop_app_ge by (rewrite H1; lia). rewrite H1, length_take, drop_drop, length_drop.
  rewrite <- (assoc_L (++)), (assoc_L (++) (take _ bs)), take_drop. do 3 f_equal. lia.
Qed.

Lemma data_loop_ok fuel wanted t buf bs d :
  drv (Reading bs) d -> Z.of_nat (Datatypes.length bs) = wanted - t -> (wanted - t) mod 2 = 0 -> Forall (fun b => 0 <= b < 256) bs ->
  0 <= t -> wanted <= Z.of_nat (Datatypes.length buf) -> wanted - t <= Z.of_nat fuel ->
  exists d', data_loop a fuel base wanted t buf d = ((true, splice buf t bs), d') /\ drv Idle d'.
Proof.
  revert t buf bs d. induction fuel as [|fuel IH]; intros t buf bs d Hd Hlen Heven Hb Ht Hbuf Hf.
  all: destruct (Z.leb_spec wanted t) as [Hle|Hlt].
  2: lia.
  1,2: assert (bs = []) as -> by (destruct bs; [done | cbn in Hlen; lia]); assert (wanted = t) as -> by (cbn in Hlen; lia).
  1,2: exists d; cbn [data_loop]; rewrite Z.leb_refl, Z.eqb_refl; split; [|by apply (ad_end Hdrive)].
  1,2: unfold splice; cbn [app Datatypes.length]; by rewrite Nat.add_0_r, take_drop.
  cbn [data_loop]. rewrite (proj2 (Z.leb_gt _ _) Hlt).
  assert (bs <> []) as Hne by (intros ->; cbn in Hlen; lia).
  edestruct (drive_wait _ _ _ (fun s => if negb (Z.land s 1 =? 0) then Error else if negb (Z.land s 8 =? 0) then Break
            else if Z.land s 128 =? 0 then Break else Again) (Z.to_nat 100000) (ad_phase Hdrive bs d Hd Hne ltac:(rewrite Hlen; exact Heven)))
    as (s & tm & d1 & Ew & Htm & H1 & H8 & n & Hn & Hev & Hnl & Hd1).
  { pose proof (ad_bound Hdrive). lia. }
  { intros s' E1 E8 E128. by rewrite E1, E8, (proj2 (Z.eqb_neq _ _) E128). }
  { intros s' d' (E1 & E8 & _). by rewrite E1, (proj2 (Z.eqb_neq _ _) E8). }
  unfold mbind, hw_bind. rewrite Ew, H1, (proj2 (Z.eqb_neq _ _) H8). cbn [Z.eqb negb fst snd].
  rewrite (proj2 (Z.eqb_neq _ _) Htm). clear Ew.
  destruct (ad_status Hdrive n bs d1 Hd1) as [Es Hd2]. destruct (inb a (base + 7) d1) as [s2 d2]. cbn [fst snd] in *.
  rewrite (proj2 (Z.eqb_neq _ _) Es).
  destruct (ad_high Hdrive n bs d2 Hd2 Hn) as [Eh Hd3]. destruct (inb a (base + 5) d2) as [hi d3]. cbn [fst snd] in *.
  destruct (ad_low Hdrive n bs d3 Hd3) as [El Hd4]. destruct (inb a (base + 4) d3) as [lo d4]. cbn [fst snd] in *.
  subst hi lo. rewrite Z.shiftl_mul_pow2 by lia.
  rewrite (lor_high_low (n / 256) (n mod 256) 8) by (try lia; change (2 ^ 8) with 256; zlia).
  replace (n / 256 * 2 ^ 8 + n mod 256) with n by (change (2 ^ 8) with 256; zlia).
  rewrite (proj2 (Z.eqb_neq n 0)), (proj2 (Z.ltb_ge (wanted - t) n)) by lia.
  destruct (inw_all_ok (Z.to_nat (n / 2)) n bs d4 Hd4 ltac:(zlia) Hnl Hb) as [Ei Hd5].
  destruct (inw_all a (Z.to_nat (n / 2)) base d4) as [ws d5]. cbn [fst snd] in *. subst ws.
  destruct (IH (t + n) (splice buf t (take (Z.to_nat n) bs)) (drop (Z.to_nat n) bs) d5 Hd5) as (d' & -> & Hd').
  - rewrite length_drop. lia.
  - zlia.
  - by apply Forall_drop.
  - lia.
  - unfold splice. rewrite !length_app, length_drop, !length_take. lia.
  - lia.
  - exists d'. split; [|done]. rewrite splice_splice by lia. done.
Qed.

(** Reading [n] sectors of an idle drive: the buffer gets the disc's bytes when
    they are on it, and nothing is reported read when they are not. *)
Lemma atapi_read_ok lba buf n d :
  drv Idle d -> is_u32 lba -> 1 <= n < 256 -> n * 2048 <= Z.of_nat (Datatypes.length buf) ->
  exists buf' d', atapi_read_sectors_internal a base slave lba buf n d = ((lba + n <=? limit, buf'), d') /\ drv Idle d' /\
    buf' = if lba + n <=? limit then splice buf 0 (disc_sectors disc lba n) else buf.
Proof.
  intros Hd Hl Hn Hbuf. unfold atapi_read_sectors_internal.
  edestruct (drive_wait _ _ _ (fun s => if (Z.land s 128 =? 0) && negb (Z.land s 64 =? 0) then Break else Again)
    (Z.to_nat 100000) (ad_select Hdrive d Hd)) as (s & t & d1 & Ew & Ht & H128 & H64 & Hd1).
  { pose proof (ad_bound Hdrive). lia. }
  { intros s' _ _ E128. by rewrite (proj2 (Z.eqb_neq _ _) E128). }
  { intros s' d' (E128 & E64 & _). by rewrite E128, (proj2 (Z.eqb_neq _ _) E64). }
  unfold mbind, hw_bind at 1. destruct (outb a (base + 6) _ d) as [[] d0]. cbn [snd] in Ew.
  unfold mbind, hw_bind at 1. rewrite Ew. cbn [snd]. rewrite (proj2 (Z.eqb_neq _ _) Ht).
  pose proof (ad_packet Hdrive d1 Hd1) as Hp. unfold mbind, hw_bind in Hp |- *.
  destruct (outb a (base + 1) 0 d1) as [[] d2], (outb a (base + 4) 0 d2) as [[] d3],
    (outb a (base + 5) 8 d3) as [[] d4], (outb a (base + 7) 160 d4) as [[] d5]. cbn [snd] in Hp.
  edestruct (drive_wait _ _ _ (fun s => if negb (Z.land s 1 =? 0) then Error else if negb (Z.land s 8 =? 0) then Break else Again)
    (Z.to_nat 100000) Hp) as (s' & t' & d6 & -> & Ht' & H1 & H8 & Hd6).
  { pose proof (ad_bound Hdrive). lia. }
  { intros x E1 E8 _. by rewrite E1, E8. }
  { intros x d' (E1 & E8 & _). by rewrite E1, (proj2 (Z.eqb_neq _ _) E8). }
  rewrite H1, (proj2 (Z.eqb_neq _ _) H8). cbn [Z.eqb negb fst snd]. rewrite (proj2 (Z.eqb_neq _ _) Ht').
  pose proof (ad_reason Hdrive d6 Hd6) as Hd7. destruct (inb a (base + 2) d6) as [r d7]. cbn [snd] in Hd7.
  pose proof (send_packet lba n d7 Hd7 Hl ltac:(lia)) as Hd8.
  destruct (outw_all a base (read12 lba n) d7) as [[] d8]. cbn [snd] in Hd8.
  rewrite (u8_small n) by (unfold is_u8; lia). unfold CDFS_SECTOR_SIZE.
  destruct (lba + n <=? limit).
  - destruct (data_loop_ok (Z.to_nat (n * 2048)) (n * 2048) 0 buf _ d8 Hd8) as (d' & -> & Hd'); try lia.
    + unfold disc_sectors. rewrite slice_length by lia. lia.
    + zlia.
    + unfold disc_sectors, slice. apply Forall_fmap, Forall_true. intros o. apply Hbytes.
    + by eexists _, d'.
  - replace (Z.to_nat (n * 2048)) with (S (Z.to_nat (n * 2048 - 1))) by lia. cbn [data_loop].
    rewrite (proj2 (Z.leb_gt (n * 2048) 0)) by lia.
    edestruct (drive_wait _ _ _ (fun s => if negb (Z.land s 1 =? 0) then Error else if negb (Z.land s 8 =? 0) then Break
            else if Z.land s 128 =? 0 then Break else Again) (Z.to_nat 100000) (ad_error Hdrive d8 Hd8))
      as (x & t'' & d9 & Ew' & _ & Hx & Hd9).
    { pose proof (ad_bound Hdrive). lia. }
    { intros x E1 E8 E128. by rewrite E1, E8, (proj2 (Z.eqb_neq _ _) E128). }
    { intros x d' (E1 & _). by rewrite (proj2 (Z.eqb_neq _ _) E1). }
    unfold mbind, hw_bind. rewrite Ew', (proj2 (Z.eqb_neq _ _) Hx). cbn [negb fst]. by eexists _, d9.
Qed.

End drive.

(** * Directories as ISO 9660 writes them

    A directory is a sequence of sectors, each holding whole records and zeros
    up to its end. *)
Record dir_record := mkRecord { r_lba : Z; r_size : Z; r_date : list Z; r_flags : Z; r_name : list Z }.

Definition bytes_le (x : Z) : list Z := [x mod 256; x / 256 mod 256; x / 65536 mod 256; x / 16777216 mod 256].

(** An identifier of even length is followed by a pad byte. *)
Definition record_len (r : dir_record) : Z :=
  let n := Z.of_nat (Datatypes.length (r_name r)) in 33 + n + (1 - n mod 2).

Definition encode_record (r : dir_record) : list Z :=
  [record_len r; 0] ++ bytes_le (r_lba r) ++ rev (bytes_le (r_lba r)) ++ bytes_le (r_size r) ++ rev (bytes_le (r_size r))
  ++ r_date r ++ [r_flags r; 0; 0; 1; 0; 0; 1; Z.of_nat (Datatypes.length (r_name r))] ++ r_name r
  ++ replicate (Z.to_nat (1 - Z.of_nat (Datatypes.length (r_name r)) mod 2)) 0.

Record record_ok (r : dir_record) : Prop := {
  ro_lba : is_u32 (r_lba r);
  ro_size : is_u32 (r_size r);
  ro_date : Datatypes.length (r_date r) = 7%nat;
  ro_name : 0 < Z.of_nat (Datatypes.length (r_name r)) <= 221
}.

Definition encode_records (rs : list dir_record) : list Z := concat (map encode_record rs).
Definition encode_sector (rs : list dir_record) : list Z :=
  encode_records rs ++ replicate (2048 - Datatypes.length (encode_records rs)) 0.
Definition encode_dir (ss : list (list dir_record)) : list Z := concat (map encode_sector ss).

Definition sector_ok (rs : list dir_record) : Prop :=
  Forall record_ok rs /\ (Datatypes.length (encode_records rs) <= 2048)%nat.

(** The identifier without its version. *)
Fixpoint before_semicolon (name : list Z) : list Z :=
  match name with [] => [] | c :: name => if c =? 59 then [] else c :: before_semicolon name end.

Definition record_matches (component : list Z) (r : dir_record) : bool :=
  cdfs_name_equal component (buf_str (before_semicolon (r_name r))).

Definition record_entry (r : dir_record) : found_entry :=
  mkFound (r_lba r) (r_size r) (negb (Z.land (r_flags r) 2 =? 0)).

Fixpoint find_record (component : list Z) (rs : list dir_record) : option dir_record :=
  match rs with [] => None | r :: rs => if record_matches component r then Some r else find_record component rs end.

Lemma encode_record_length r : record_ok r -> Z.of_nat (Datatypes.length (encode_record r)) = record_len r.
Proof.
  intros []. unfold encode_record, record_len. rewrite !length_app, length_replicate, !length_rev. cbn -[Z.modulo Z.of_nat]. zlia.
Qed.

Lemma encode_sector_length rs : sector_ok rs -> Datatypes.length (encode_sector rs) = 2048%nat.
Proof. intros [_ Hl]. unfold encode_sector. rewrite length_app, length_replicate. lia. Qed.

Lemma encode_dir_length ss : Forall sector_ok ss -> Datatypes.length (encode_dir ss) = (2048 * Datatypes.length ss)%nat.
Proof.
  induction 1 as [|rs ss Hs _ IH]; [done|]. unfold encode_dir in *. cbn [map concat Datatypes.length].
  rewrite length_app, IH, encode_sector_length by done. lia.
Qed.

(** Reading a buffer at an offset is reading its tail. *)
Lemma lookup_tail (buf tl : list Z) (o k : Z) :
  drop (Z.to_nat o) buf = tl -> 0 <= o -> 0 <= k -> buf !! Z.to_nat (o + k) = tl !! Z.to_nat k.
Proof. intros <- Ho Hk. rewrite lookup_drop. f_equal. lia. Qed.

Lemma get_tail (buf tl : list Z) (o k : Z) :
  drop (Z.to_nat o) buf = tl -> 0 <= o -> 0 <= k -> get 0 buf (o + k) = get 0 tl k.
Proof. intros Hd Ho Hk. unfold get. by rewrite (lookup_tail buf tl) by done. Qed.

Lemma entry_name_ok (name : list Z) buf o tl :
  drop (Z.to_nat o) buf = name ++ tl -> 0 <= o -> entry_name (Datatypes.length name) buf o = Some (before_semicolon name).
Proof.
  revert o. induction name as [|c name IH]; intros o Hd Ho; [done|]. cbn [Datatypes.length entry_name before_semicolon].
  pose proof (lookup_tail _ _ o 0 Hd Ho ltac:(lia)) as E. rewrite Z.add_0_r in E. rewrite E. cbn [lookup list_lookup mbind option_bind app].
  change (Z.to_nat 0) with 0%nat. cbn [lookup list_lookup mbind option_bind].
  destruct (c =? 59); [done|]. rewrite IH; [done| |lia].
  replace (Z.to_nat (o + 1)) with (Z.to_nat o + 1)%nat by lia. by rewrite <- drop_drop, Hd.
Qed.

Lemma le32_bytes x tl : is_u32 x -> le32 (bytes_le x ++ tl) 0 = x.
Proof.
  intros Hx. unfold le32, le16, le8, get, bytes_le. const_indices. cbn -[Z.div Z.modulo Z.mul Z.add]. zlia.
Qed.

Lemma le32_tail buf tl o : drop (Z.to_nat o) buf = tl -> 0 <= o -> le32 buf o = le32 tl 0.
Proof.
  intros Hd Ho. unfold le32, le16, le8. rewrite <- (get_tail buf tl o 0 Hd), <- (get_tail buf tl o (0 + 1) Hd),
    <- (get_tail buf tl o (0 + 2) Hd), <- (get_tail buf tl o (0 + 2 + 1) Hd) by lia. repeat (f_equal; try lia).
Qed.

(** One record: its name is compared, and it is skipped by its length. *)
Lemma scan_record fuel component buf total off r tl :
  drop (Z.to_nat off) buf = encode_record r ++ tl -> record_ok r -> 0 <= off < total ->
  scan_dir (S fuel) component buf total off =
  if record_matches component r then Some (Some (record_entry r)) else scan_dir fuel component buf total (off + record_len r).
Proof.
  intros Hd Hr Hoff. pose proof (encode_record_length r Hr) as Hlen. destruct Hr as [Hlba Hsize Hdate Hname].
  destruct r as [lba sz date flags name]. cbn [r_lba r_size r_date r_flags r_name] in *.
  destruct date as [|t0 [|t1 [|t2 [|t3 [|t4 [|t5 [|t6 [|]]]]]]]]; try discriminate Hdate.
  assert (Hnz : record_len (mkRecord lba sz [t0; t1; t2; t3; t4; t5; t6] flags name) <> 0)
    by (unfold record_len; cbn [r_name]; zlia).
  set (len := record_len _) in *.
  assert (Hdrop : forall k, 0 <= k -> drop (Z.to_nat (off + k)) buf =
    drop (Z.to_nat k) (encode_record (mkRecord lba sz [t0; t1; t2; t3; t4; t5; t6] flags name) ++ tl)).
  { intros k Hk. rewrite <- Hd, drop_drop. f_equal. lia. }
  cbn [scan_dir]. rewrite (proj2 (Z.leb_gt _ _)) by lia.
  rewrite <- (Z.add_0_r off) at 1.
  rewrite (lookup_tail _ _ off 0 Hd), (lookup_tail _ _ off 25 Hd), (lookup_tail _ _ off 32 Hd) by lia.
  unfold encode_record. fold len. cbn [r_lba r_size r_date r_flags r_name].
  unfold bytes_le at 1 2 3 4. cbn [rev app]. const_indices. cbn [lookup list_lookup mbind option_bind].
  rewrite (proj2 (Z.eqb_neq _ _) Hnz), Z.min_l, Nat2Z.id by lia.
  rewrite (entry_name_ok name buf (off + 33) (replicate (Z.to_nat (1 - Z.of_nat (Datatypes.length name) mod 2)) 0 ++ tl)).
  - cbn [mbind option_bind]. unfold record_matches. cbn [r_name].
    destruct (cdfs_name_equal _ _); [|done]. unfold record_entry. cbn [r_lba r_size r_flags].
    assert (le32 buf (off + 2) = lba) as ->.
    { erewrite (le32_tail buf) by (try lia; apply Hdrop; lia). unfold encode_record. cbn [r_lba r_size r_date r_flags r_name].
      const_indices. cbn [app drop]. rewrite <- app_assoc. by apply le32_bytes. }
    assert (le32 buf (off + 10) = sz) as ->; [|done].
    erewrite (le32_tail buf) by (try lia; apply Hdrop; lia). unfold encode_record, bytes_le at 1 2. cbn [r_lba r_size r_date r_flags r_name].
    const_indices. cbn [app rev drop]. rewrite <- app_assoc. by apply le32_bytes.
  - rewrite Hdrop by lia. unfold encode_record, bytes_le. cbn [r_lba r_size r_date r_flags r_name rev app].
    const_indices. cbn [drop]. by rewrite <- app_assoc.
  - lia.
Qed.

Lemma scan_records fuel component buf total off rs tl :
  drop (Z.to_nat off) buf = encode_records rs ++ tl -> Forall record_ok rs -> 0 <= off ->
  off + Z.of_nat (Datatypes.length (encode_records rs)) <= total -> total - off <= Z.of_nat fuel ->
  exists fuel', total - (off + Z.of_nat (Datatypes.length (encode_records rs))) <= Z.of_nat fuel' /\
    scan_dir fuel component buf total off =
    match find_record component rs with
    | Some r => Some (Some (record_entry r))
    | None => scan_dir fuel' component buf total (off + Z.of_nat (Datatypes.length (encode_records rs)))
    end.
Proof.
  intros Hd Hrs. revert fuel off Hd. induction Hrs as [|r rs Hr Hrs IH]; intros fuel off Hd Hoff Hl Hf.
  - exists fuel. cbn. rewrite Z.add_0_r. done.
  - unfold encode_records in Hd, Hl |- *. cbn [map concat] in Hd, Hl |- *. fold (encode_records rs) in Hd, Hl |- *.
    rewrite length_app, Nat2Z.inj_add, encode_record_length in Hl |- * by done. rewrite <- app_assoc in Hd.
    assert (Hpos : 0 < record_len r) by (destruct Hr; unfold record_len; zlia).
    destruct fuel as [|fuel]; [lia|]. rewrite (scan_record fuel component buf total off r _ Hd Hr) by lia.
    destruct (IH fuel (off + record_len r)) as (fuel' & Hf' & E); [|lia..|].
    + replace (Z.to_nat (off + record_len r)) with (Z.to_nat off + Z.to_nat (record_len r))%nat by lia.
      rewrite <- drop_drop, Hd. rewrite <- encode_record_length by done. rewrite Nat2Z.id. apply drop_app_length.
    + exists fuel'. replace (off + (record_len r + Z.of_nat (Datatypes.length (encode_records rs))))
        with (off + record_len r + Z.of_nat (Datatypes.length (encode_records rs))) by lia.
      split; [done|]. cbn [find_record]. by destruct (record_matches component r).
Qed.

Lemma find_record_app component rs rs' :
  find_record component (rs ++ rs') = match find_record component rs with Some r => Some r | None => find_record component rs' end.
Proof. induction rs as [|r rs IH]; [done|]. cbn. by destruct (record_matches component r). Qed.

Lemma scan_done fuel component buf total off : total <= off -> scan_dir fuel component buf total off = Some None.
Proof. intros Hl. destruct fuel; cbn [scan_dir]; by rewrite (proj2 (Z.leb_le _ _) Hl). Qed.

Lemma scan_sectors fuel component buf k ss :
  drop (Z.to_nat (2048 * k)) buf = encode_dir ss -> Forall sector_ok ss -> 0 <= k ->
  2048 * Z.of_nat (Datatypes.length ss) <= Z.of_nat fuel ->
  scan_dir fuel component buf (2048 * k + 2048 * Z.of_nat (Datatypes.length ss)) (2048 * k)
  = Some (record_entry <$> find_record component (concat ss)).
Proof.
  intros Hd Hss. revert fuel k Hd. induction Hss as [|rs ss Hs Hss IH]; intros fuel k Hd Hk Hf.
  { apply scan_done. cbn. lia. }
  set (total := 2048 * k + _). cbn [Datatypes.length] in Hf.
  unfold encode_dir in Hd. cbn [map concat] in Hd. fold (encode_dir ss) in Hd.
  assert (Hnext : drop (Z.to_nat (2048 * (k + 1))) buf = encode_dir ss).
  { replace (Z.to_nat (2048 * (k + 1))) with (Z.to_nat (2048 * k) + 2048)%nat by lia.
    rewrite <- drop_drop, Hd. rewrite <- (encode_sector_length rs Hs). apply drop_app_length. }
  assert (Htot : total = 2048 * (k + 1) + 2048 * Z.of_nat (Datatypes.length ss)) by (unfold total; cbn [Datatypes.length]; lia).
  unfold encode_sector in Hd. rewrite <- app_assoc in Hd. destruct Hs as [Hrs Hlen].
  destruct (scan_records fuel component buf total (2048 * k) rs _ Hd Hrs ltac:(lia) ltac:(lia) ltac:(lia)) as (fuel' & Hf' & ->).
  cbn [concat]. rewrite find_record_app. destruct (find_record component rs) as [r|]; [done|].
  set (used := Datatypes.length (encode_records rs)) in *.
  destruct (Nat.eq_dec used 2048) as [Efull|Hpart].
  - replace (2048 * k + Z.of_nat used) with (2048 * (k + 1)) by lia. rewrite Htot. apply IH; [done | lia..].
  - destruct fuel' as [|fuel']; [lia|]. cbn [scan_dir]. rewrite (proj2 (Z.leb_gt _ _)) by lia.
    assert (E0 : buf !! Z.to_nat (2048 * k + Z.of_nat used) = Some 0).
    { rewrite (lookup_tail _ _ _ _ Hd), Nat2Z.id by lia. rewrite lookup_app_r by (fold used; lia). fold used.
      rewrite lookup_app_l, lookup_replicate by (rewrite ?length_replicate; lia). split; [done | lia]. }
    rewrite E0. cbn [mbind option_bind Z.eqb].
    replace ((2048 * k + Z.of_nat used) / CDFS_SECTOR_SIZE + 1) with (k + 1) by (unfold CDFS_SECTOR_SIZE; zlia).
    unfold CDFS_SECTOR_SIZE. rewrite (Z.mul_comm (k + 1)), Htot. apply IH; [done | lia..].
Qed.

(** * A medium

    What finding and reading files needs of a way to read sectors: [disc] with
    [limit] sectors is there in every state that satisfies [Ready]. *)
Section medium.
Context {D H : Type} `{Bus D} `{KernelHeap H} (a : arch).
Context (dispatch : Z -> Z -> IO_REQUEST -> ob H (io D) -> option (Z * IO_REQUEST * ob H (io D))).
Context (disc : Z -> Z) (limit : Z).

(** Addresses the medium's driver keeps for itself. *)
Context (private : Z -> Prop).

(** [st'] is [st] with [bs] in memory at [p], up to the medium's own state. *)
Definition filled (st : @sys D H) (p : Z) (bs : list Z) (st' : @sys D H) : Prop :=
  (forall x, ~ private x -> ram st' x = store (ram st) p bs x) /\ heap (kern st') = heap (kern st).

Class Medium (Ready : @sys D H -> Prop) : Prop := {
  md_limit : limit <= 4294967296;
  md_present st : Ready st -> cdrom_ready (cd st) = true;
  (** the read-ahead takes the seven sectors that follow *)
  md_sector st lba p : Ready st -> usable private p 2048 -> 0 <= lba -> lba + 8 <= limit ->
    exists st', CdfsReadSector a dispatch lba p st = Some (true, st') /\ Ready st' /\ filled st p (disc_sectors disc lba 1) st';
  md_batch st lba n p : Ready st -> usable private p (n * 2048) -> 0 <= lba -> 1 <= n < 256 -> lba + n <= limit ->
    exists st', read_batch a dispatch lba n p st = Some (true, st') /\ Ready st' /\ filled st p (disc_sectors disc lba n) st';
  md_heap st h : Ready st -> Ready (set_sys_heap st h)
}.

Context (Ready : @sys D H -> Prop) `{!Medium Ready}.

Lemma disc_sectors_length (lba n : Z) : 0 <= n -> Datatypes.length (disc_sectors disc lba n) = Z.to_nat (n * 2048).
Proof. intros. unfold disc_sectors. by rewrite slice_length by lia. Qed.

Lemma disc_sectors_app lba n m : 0 <= n -> 0 <= m -> disc_sectors disc lba (n + m) = disc_sectors disc lba n ++ disc_sectors disc (lba + n) m.
Proof. intros. unfold disc_sectors. rewrite Z.mul_add_distr_r, slice_app by lia. do 2 f_equal. lia. Qed.

Lemma filled_nil st p : filled st p [] st.
Proof. split; [|done]. intros x _. by rewrite store_nil. Qed.

Lemma filled_app st p b1 st1 b2 st2 :
  filled st p b1 st1 -> filled st1 (p + Z.of_nat (Datatypes.length b1)) b2 st2 -> filled st p (b1 ++ b2) st2.
Proof.
  intros [E1 Hh1] [E2 Hh2]. split; [|congruence]. intros x Hx. rewrite (E2 x Hx), <- store_app. by apply store_ext, E1.
Qed.

Lemma load_filled st p bs st' n :
  filled st p bs st' -> usable private p n -> 0 <= n <= Z.of_nat (Datatypes.length bs) -> load (ram st') p n = take (Z.to_nat n) bs.
Proof.
  intros [E _] [_ Hp] Hn. apply list_eq. intros i. unfold load. rewrite list_lookup_fmap.
  destruct (Nat.lt_ge_cases i (Z.to_nat n)) as [Hi|Hi].
  - rewrite lookup_seqZ_lt, lookup_take_lt by lia. cbn. rewrite E by (apply Hp; lia). unfold store.
    rewrite (proj2 (Z.leb_le _ _)), (proj2 (Z.ltb_lt _ _)) by lia. cbn [andb]. unfold get.
    replace (Z.to_nat (p + Z.of_nat i - p)) with i by lia. destruct (lookup_lt_is_Some_2 bs i ltac:(lia)) as [b ->]. done.
  - rewrite lookup_seqZ_ge, lookup_take_ge by lia. done.
Qed.

Ltac sub_usable Hu := eapply usable_sub; [exact Hu | unfold CDFS_SECTOR_SIZE; lia | unfold CDFS_SECTOR_SIZE; lia].

Lemma read_directory_ok n lba p st :
  Ready st -> usable private p (Z.of_nat n * 2048) -> 0 <= lba -> lba + Z.of_nat n + 7 <= limit ->
  exists st', read_directory a dispatch n lba p st = Some st' /\ Ready st' /\ filled st p (disc_sectors disc lba (Z.of_nat n)) st'.
Proof.
  revert lba p st. induction n as [|n IH]; intros lba p st Hr Hu Hl Hn; cbn [read_directory].
  - exists st. split; [done|]. split; [done|]. apply filled_nil.
  - destruct (md_sector st lba p Hr ltac:(sub_usable Hu) Hl ltac:(lia)) as (st1 & -> & Hr1 & Hf1). cbn [mbind option_bind].
    destruct n as [|n].
    { exists st1. done. }
    pose proof md_limit. rewrite u32_small by (unfold is_u32; lia).
    destruct (IH (lba + 1) (p + CDFS_SECTOR_SIZE) st1 Hr1
      ltac:(sub_usable Hu) ltac:(lia) ltac:(lia)) as (st2 & -> & Hr2 & Hf2).
    exists st2. split; [done|]. split; [done|].
    replace (Z.of_nat (S (S n))) with (1 + Z.of_nat (S n)) by lia. rewrite disc_sectors_app by lia.
    eapply filled_app; [exact Hf1|]. rewrite disc_sectors_length by lia. exact Hf2.
Qed.

Lemma read_batches_ok fuel lba sectors done_ buffer st :
  Ready st -> usable private buffer (sectors * 2048) -> 0 <= lba -> 0 <= done_ <= sectors -> lba + sectors <= limit -> sectors - done_ <= Z.of_nat fuel ->
  exists st', read_batches a dispatch fuel lba sectors done_ buffer st = Some (true, st') /\ Ready st' /\
    filled st (buffer + done_ * 2048) (disc_sectors disc (lba + done_) (sectors - done_)) st'.
Proof.
  revert done_ st. induction fuel as [|fuel IH]; intros t st Hr Hu Hl Ht Hlim Hf.
  all: destruct (Z.leb_spec sectors t) as [Hle|Hlt].
  2: lia.
  1,2: exists st; cbn [read_batches]; rewrite (proj2 (Z.leb_le _ _) Hle); split; [done|]; split; [done|].
  1,2: replace (sectors - t) with 0 by lia; apply filled_nil.
  cbn [read_batches]. rewrite (proj2 (Z.leb_gt _ _) Hlt). pose proof md_limit.
  set (batch := if 255 <? sectors - t then 255 else u8 (sectors - t)).
  assert (Hb : 1 <= batch < 256 /\ batch <= sectors - t) by (unfold batch; destruct (Z.ltb_spec 255 (sectors - t)); zlia).
  rewrite u32_small by (unfold is_u32; lia). unfold CDFS_SECTOR_SIZE.
  destruct (md_batch st (lba + t) batch (buffer + t * 2048) Hr ltac:(sub_usable Hu) ltac:(lia) ltac:(lia) ltac:(lia)) as (st1 & -> & Hr1 & Hf1).
  cbn [mbind option_bind negb].
  destruct (IH (t + batch) st1 Hr1 Hu ltac:(lia) ltac:(lia) ltac:(lia) ltac:(lia)) as (st2 & -> & Hr2 & Hf2).
  exists st2. split; [done|]. split; [done|].
  replace (sectors - t) with (batch + (sectors - (t + batch))) by lia. rewrite disc_sectors_app by lia.
  eapply filled_app; [exact Hf1|]. rewrite disc_sectors_length by lia.
  replace (buffer + t * 2048 + Z.of_nat (Z.to_nat (batch * 2048))) with (buffer + (t + batch) * 2048) by lia.
  by replace (lba + t + batch) with (lba + (t + batch)) by lia.
Qed.

(** ** Directories and files on the medium *)

(** The directory of [size] bytes at [lba] is spelled by the records [ss]. *)
Record directory_at (lba size : Z) (ss : list (list dir_record)) : Prop := {
  da_sectors : Forall sector_ok ss;
  da_count : 0 < Z.of_nat (Datatypes.length ss) < 1048576;
  da_size : 0 <= size /\ (size + 2047) / 2048 = Z.of_nat (Datatypes.length ss);
  da_place : 0 <= lba /\ lba + Z.of_nat (Datatypes.length ss) + 7 <= limit;
  da_data : disc_sectors disc lba (Z.of_nat (Datatypes.length ss)) = encode_dir ss
}.

Definition record_is_dir (r : dir_record) : bool := negb (Z.land (r_flags r) 2 =? 0).

(** The record the names [cs] lead to from a directory, and the sizes of the
    directories on the way. *)
Inductive resolves_to : Z -> Z -> list (list Z) -> dir_record -> list Z -> Prop :=
| resolves_here lba size ss c r :
    directory_at lba size ss -> find_record c (concat ss) = Some r ->
    resolves_to lba size [c] r [2048 * Z.of_nat (Datatypes.length ss)]
| resolves_below lba size ss c r c' cs r' sizes :
    directory_at lba size ss -> find_record c (concat ss) = Some r -> record_is_dir r = true ->
    resolves_to (r_lba r) (r_size r) (c' :: cs) r' sizes ->
    resolves_to lba size (c :: c' :: cs) r' (2048 * Z.of_nat (Datatypes.length ss) :: sizes).

(** Blocks of these sizes can be allocated, and released, one after the other. *)
Inductive scratch : H -> list Z -> H -> Prop :=
| scratch_nil h : scratch h [] h
| scratch_cons h n p h1 h2 ns h3 :
    kh_malloc n h = Some (p, h1) -> usable private p n -> kh_free p h1 = Some h2 -> scratch h2 ns h3 -> scratch h (n :: ns) h3.

Lemma buf_str_length b : (Datatypes.length (buf_str b) <= Datatypes.length b)%nat.
Proof. induction b as [|c b IH]; cbn; [done|]. destruct (c =? 0); cbn; lia. Qed.

Lemma before_semicolon_length b : (Datatypes.length (before_semicolon b) <= Datatypes.length b)%nat.
Proof. induction b as [|c b IH]; cbn; [done|]. destruct (c =? 59); cbn; lia. Qed.

Lemma name_equal_length x y : cdfs_name_equal x y = true -> Datatypes.length x = Datatypes.length y.
Proof. revert y. induction x as [|c x IH]; intros [|d y]; cbn; try done. intros [_ E]%andb_true_iff. f_equal. by apply IH. Qed.

Lemma find_record_name c rs r :
  Forall record_ok rs -> find_record c rs = Some r -> Z.of_nat (Datatypes.length c) < 256.
Proof.
  induction 1 as [|x rs Hx _ IH]; cbn; [done|]. destruct (record_matches c x) eqn:E; [|done]. intros _.
  apply name_equal_length in E. pose proof (buf_str_length (before_semicolon (r_name x))).
  pose proof (before_semicolon_length (r_name x)). destruct Hx. lia.
Qed.

Lemma concat_ok ss : Forall sector_ok ss -> Forall record_ok (concat ss).
Proof. induction 1 as [|rs ss [Hrs _] _ IH]; cbn; [done|]. by apply Forall_app. Qed.

(** Searching one directory for one name. *)
Lemma search_directory lba size ss c cursor rest steps st p h1 h2 :
  Ready st -> directory_at lba size ss -> components cursor = c :: rest -> Z.of_nat (Datatypes.length c) < 256 ->
  kh_malloc (2048 * Z.of_nat (Datatypes.length ss)) (heap (kern st)) = Some (p, h1) ->
  usable private p (2048 * Z.of_nat (Datatypes.length ss)) -> kh_free p h1 = Some h2 ->
  exists cursor' st', components cursor' = rest /\ (Datatypes.length cursor' < Datatypes.length cursor)%nat /\
    (rest = [] -> cursor' = []) /\ Ready st' /\ heap (kern st') = h2 /\
    find_walk a dispatch (S steps) cursor lba size st =
    match find_record c (concat ss) with
    | None => Some (None, st')
    | Some r => match cursor' with
                | [] => Some (Some (r_lba r, r_size r), st')
                | _ => if record_is_dir r then find_walk a dispatch steps cursor' (r_lba r) (r_size r) st' else Some (None, st')
                end
    end.
Proof.
  intros Hr [Hss Hcnt [Hsz0 Hsz] [Hl Hlim] Hdata] Hc Hlen E1 Hu E2. cbn [find_walk]. pose proof (usable_nonnull _ _ _ Hu) as Hp.
  pose proof (next_spec cursor 256 ltac:(lia)) as Hn.
  destruct (RtlNextPathComponent (Some cursor) true 256) as [| |c' cursor'] eqn:En.
  { destruct Hn as (? & ? & Hx & ?). rewrite Hx in Hc. simplify_eq. lia. }
  { by rewrite Hn in Hc. }
  destruct Hn as (Hx & _ & _ & Hlt). rewrite Hx in Hc. injection Hc as -> Hrest.
  unfold CDFS_SECTOR_SIZE in *. replace (size + 2048 - 1) with (size + 2047) by lia.
  rewrite (u32_small (size + 2047)), Hsz by (unfold is_u32; zlia). set (n := Z.of_nat (Datatypes.length ss)) in *.
  rewrite (u32_small (n * 2048)), (Z.mul_comm n), E1 by (unfold is_u32; lia). cbn [mbind option_bind].
  rewrite (proj2 (Z.eqb_neq _ _) Hp).
  destruct (read_directory_ok (Z.to_nat n) lba p (set_sys_heap st h1) (md_heap st h1 Hr)
    ltac:(sub_usable Hu) Hl ltac:(lia)) as (st1 & -> & Hr1 & Hf1).
  cbn [mbind option_bind]. rewrite Z2Nat.id in Hf1 by lia. rewrite Hdata in Hf1.
  pose proof (encode_dir_length ss Hss) as Hdl.
  rewrite (load_filled _ _ _ _ (2048 * n) Hf1 Hu), take_ge by lia.
  replace (s32 (2048 * n)) with (2048 * n) by (unfold s32; zlia).
  pose proof (scan_sectors (Z.to_nat (2048 * n)) c (encode_dir ss) 0 ss eq_refl Hss ltac:(lia) ltac:(lia)) as Hscan.
  fold n in Hscan. rewrite Z.mul_0_r, Z.add_0_l in Hscan. rewrite Hscan.
  cbn [mbind option_bind]. destruct Hf1 as [_ Hh1]. cbn in Hh1. rewrite Hh1, E2. cbn [mbind option_bind].
  exists cursor', (set_sys_heap st1 h2). split; [done|]. split; [done|]. split.
  { intros ->. apply skip_separators_nil in Hrest. revert Hrest En. unfold RtlNextPathComponent. cbn [negb orb Z.eqb].
    destruct (skip_separators cursor) as [|x q]; [done|]. destruct (copy_component _ _ _) as [[w rs]|]; [|done].
    intros Hs [= <- <-]. revert Hs. generalize rs. intros l. induction l as [|y l IH]; cbn; [done|].
    destruct (RtlIsPathSeparator y) eqn:Ey; [done|]. cbn. by rewrite Ey. }
  split; [by apply md_heap|]. split; [done|]. by destruct (find_record c (concat ss)).
Qed.

Lemma find_walk_ok lba size cs r sizes cursor steps st h :
  resolves_to lba size cs r sizes -> components cursor = cs -> (Datatypes.length cs <= steps)%nat ->
  Ready st -> scratch (heap (kern st)) sizes h ->
  exists st', find_walk a dispatch steps cursor lba size st = Some (Some (r_lba r, r_size r), st') /\ Ready st' /\
    heap (kern st') = h.
Proof.
  intros Hres. revert cursor steps st.
  induction Hres as [lba size ss c r Hd Hf | lba size ss c r c' cs r' sizes Hd Hf Hdir Hres IH]; intros cursor steps st Hc Hn Hr Hs.
  all: inversion Hs as [|h0 m p h1 h2 ns h3 E1 Hp E2 Hs']; subst.
  all: destruct steps as [|steps]; [cbn in Hn; lia|].
  all: pose proof (find_record_name c _ r (concat_ok ss (da_sectors _ _ _ Hd)) Hf) as Hlen.
  all: destruct (search_directory lba size ss c cursor _ steps st p h1 h2 Hr Hd Hc Hlen E1 Hp E2)
    as (cursor' & st1 & Hc' & Hlt & Hnil & Hr1 & Hh1 & ->); rewrite Hf.
  - rewrite Hnil by done. inversion Hs'; subst. by exists st1.
  - destruct cursor' as [|x q]; [done|]. rewrite Hdir. apply IH; try done. { cbn in *. lia. } by rewrite Hh1.
Qed.

(** C9. A file of the medium: when the names of the normalised path lead from
    the root directory of the volume descriptor through well-formed directories
    to a record, and memory can be had for the directories and the file,
    [CdfsReadFile] finds it, releases what the search allocated, and returns a
    buffer with exactly the bytes of the file's extent. *)
Theorem CdfsReadFile_correct (stack : Z) (fuel : nat) (vol : FAT32_VOLUME) (path norm : list Z) (r : dir_record)
    (sizes : list Z) (buffer : Z) (h1 h2 : H) (st : @sys D H) :
  Ready st -> usable private stack 2048 -> mounted vol = false -> 24 <= limit -> RtlNormalizePath (Some path) true 256 = Some norm ->
  resolves_to (le32 (disc_sectors disc 16 1) 158) (le32 (disc_sectors disc 16 1) 166) (components norm) r sizes ->
  0 <= r_size r <= 4294965248 -> 0 <= r_lba r -> r_lba r + (r_size r + 2047) / 2048 <= limit ->
  scratch (heap (kern st)) sizes h1 ->
  kh_malloc (Z.max 1 ((r_size r + 2047) / 2048 * 2048)) h1 = Some (buffer, h2) ->
  usable private buffer ((r_size r + 2047) / 2048 * 2048) ->
  exists st', CdfsReadFile a dispatch stack fuel vol (Some path) st
      = Some (Some (buffer, r_size r, slice disc (r_lba r * 2048) (r_size r)), st') /\
    Ready st' /\ heap (kern st') = h2.
Proof.
  intros Hr Hst Hvol Hlim En Hres Hsz Hlba Hend Hs E2 Hu. pose proof (usable_nonnull _ _ _ Hu) as Hb.
  unfold CdfsReadFile, Fat32IsMounted, CdfsFindFile.
  rewrite Hvol, (md_present st Hr). cbn [negb orb].
  destruct (md_sector st 16 stack Hr Hst ltac:(lia) ltac:(lia)) as (st1 & -> & Hr1 & Hf1). cbn [mbind option_bind negb].
  rewrite En. unfold CDFS_SECTOR_SIZE.
  pose proof (disc_sectors_length 16 1 ltac:(lia)) as Hl16.
  rewrite (load_filled _ _ _ _ 2048 Hf1 Hst), take_ge by (rewrite Hl16; lia).
  change (156 + 2) with 158. change (156 + 10) with 166.
  destruct Hf1 as [_ Hh1]. rewrite <- Hh1 in Hs.
  destruct (find_walk_ok _ _ _ r sizes norm (S (Datatypes.length norm)) st1 h1 Hres eq_refl) as (st2 & -> & Hr2 & Hh2);
    [pose proof (components_length norm); lia | done | done |].
  cbn [mbind option_bind]. set (n := (r_size r + 2047) / 2048) in *.
  assert (Hn : 0 <= n /\ n * 2048 < 4294967296 /\ r_size r <= n * 2048) by (unfold n; zlia).
  rewrite (u32_small (r_size r + 2047)) by (unfold is_u32; lia). fold n. rewrite (u32_small (n * 2048)) by (unfold is_u32; lia).
  replace (if n * 2048 =? 0 then 1 else n * 2048) with (Z.max 1 (n * 2048)) by (destruct (Z.eqb_spec (n * 2048) 0); lia).
  rewrite Hh2, E2. cbn [mbind option_bind]. rewrite (proj2 (Z.eqb_neq _ _) Hb).
  destruct (read_batches_ok (Z.to_nat n) (r_lba r) n 0 buffer (set_sys_heap st2 h2) (md_heap st2 h2 Hr2) Hu Hlba ltac:(lia) Hend ltac:(lia))
    as (st3 & -> & Hr3 & Hf3).
  cbn [mbind option_bind negb]. rewrite Z.mul_0_l, !Z.add_0_r, Z.sub_0_r in Hf3. exists st3.
  rewrite (load_filled _ _ _ _ (r_size r) Hf3 ltac:(sub_usable Hu)) by (rewrite disc_sectors_length by lia; lia).
  split; [|split; [done | by destruct Hf3]]. do 4 f_equal. unfold disc_sectors.
  replace (n * 2048) with (r_size r + (n * 2048 - r_size r)) by lia. rewrite slice_app by lia.
  rewrite take_app_length'; [done|]. by rewrite slice_length by lia.
Qed.

End medium.

(** * The ATAPI drive is a medium *)
Section atapi.
Context {D H : Type} `{Bus D} `{KernelHeap H} (a : arch).
Context (dispatch : Z -> Z -> IO_REQUEST -> ob H (io D) -> option (Z * IO_REQUEST * ob H (io D))).
Context (disc : Z -> Z) (limit base : Z) (slave : bool) (drv : drive_state -> D -> Prop) (patience : nat).
Context (Hdrive : atapi_drive a base slave disc limit drv patience).
Context (private : Z -> Prop) (Hbytes : forall o, 0 <= disc o < 256) (Hlimit : limit < 4294967296).

(** The drive is idle, and a valid cache holds the eight sectors it names. *)
Record atapi_ready (st : @sys D H) : Prop := {
  ar_present : cdrom_present (cd st) = true;
  ar_ready : cdrom_ready (cd st) = true;
  ar_no_disk : usb_iso_device (cd st) = 0;
  ar_base : ide_base (cd st) = base;
  ar_slave : ide_slave (cd st) = slave;
  ar_idle : drv Idle (dev st);
  ar_cache_size : Datatypes.length (iso_cache (cd st)) = Z.to_nat 16384;
  ar_cache : iso_cache_valid (cd st) = true ->
    0 <= iso_cache_lba (cd st) /\ iso_cache_lba (cd st) + 8 <= limit /\ iso_cache (cd st) = disc_sectors disc (iso_cache_lba (cd st)) 8
}.

Definition in_cache (c : cdfs) (lba : Z) : bool :=
  iso_cache_valid c && (iso_cache_lba c <=? lba) && (lba <? iso_cache_lba c + 8).

Lemma splice_all buf bs : Datatypes.length buf = Datatypes.length bs -> splice buf 0 bs = bs.
Proof. intros E. unfold splice. cbn. rewrite drop_ge by lia. apply app_nil_r. Qed.

Lemma read_sector_cases (st : @sys D H) (lba p : Z) :
  atapi_ready st -> 0 <= lba < limit ->
  exists st', CdfsReadSector a dispatch lba p st = Some (in_cache (cd st) lba || (lba + 8 <=? limit), st') /\ atapi_ready st' /\
    (in_cache (cd st) lba || (lba + 8 <=? limit) = true -> filled private st p (disc_sectors disc lba 1) st').
Proof.
  intros Hr Hl. unfold CdfsReadSector. rewrite (ar_present _ Hr), (ar_ready _ Hr), (ar_no_disk _ Hr). cbn [negb orb Z.eqb].
  assert (Hc : iso_cache_valid (cd st) && (iso_cache_lba (cd st) <=? lba) && (lba <? u32 (iso_cache_lba (cd st) + 8)) = in_cache (cd st) lba).
  { unfold in_cache. destruct (iso_cache_valid (cd st)) eqn:Ev; [|done]. destruct (ar_cache _ Hr Ev) as (Hlo & Hhi & _).
    by rewrite u32_small by (unfold is_u32; lia). }
  rewrite Hc. destruct (in_cache (cd st) lba) eqn:Ein; cbn [orb].
  - unfold in_cache in Ein. rewrite !andb_true_iff, Z.leb_le, Z.ltb_lt in Ein. destruct Ein as [[Ev Hge] Hlt].
    destruct (ar_cache _ Hr Ev) as (Hlo & Hhi & Ec). eexists. split; [reflexivity|]. split; [by destruct Hr|].
    intros _. split; [|done]. intros x _. cbn. f_equal. rewrite Ec. unfold CDFS_SECTOR_SIZE.
    set (k := lba - iso_cache_lba (cd st)).
    replace 8 with (k + (1 + (8 - k - 1))) by lia. rewrite !disc_sectors_app by lia.
    rewrite drop_app_length' by (rewrite disc_sectors_length by lia; done).
    rewrite take_app_length' by (rewrite disc_sectors_length by lia; done). f_equal. lia.
  - rewrite (ar_base _ Hr), (ar_slave _ Hr).
    destruct (atapi_read_ok a base slave disc limit drv patience Hdrive Hbytes lba (iso_cache (cd st)) 8 (dev st) (ar_idle _ Hr))
      as (buf & d' & -> & Hd' & ->); [unfold is_u32; lia | lia | rewrite (ar_cache_size _ Hr); lia |].
    destruct (Z.leb_spec (lba + 8) limit) as [Hfit|Hout]; cbn [negb].
    + pose proof (disc_sectors_length disc lba 8 ltac:(lia)) as Hl8.
      rewrite splice_all by (rewrite Hl8; apply (ar_cache_size _ Hr)).
      eexists. split; [reflexivity|]. split.
      * destruct Hr. split; [assumption..| |]; [exact Hl8|]. intros _. split; [|by split]. cbn. lia.
      * intros _. split; [|done]. intros x _.
        change (store (ram st) p (take 2048 (disc_sectors disc lba 8)) x = store (ram st) p (disc_sectors disc lba 1) x).
        change 8 with (1 + 7). rewrite disc_sectors_app by lia.
        by rewrite take_app_length' by (rewrite disc_sectors_length by lia; done).
    + eexists. split; [reflexivity|]. split; [|done]. destruct Hr. split; cbn; done.
Qed.

(** The read-ahead cache is transparent: a sector that is in it, or that has
    seven more after it on the disc, is read as the disc has it, and the cache
    stays an exact copy of eight sectors; any other sector of the disc cannot
    be read, although it is there. *)
Theorem CdfsReadSector_correct (st : @sys D H) (lba p : Z) :
  atapi_ready st -> 0 <= lba < limit ->
  exists st', CdfsReadSector a dispatch lba p st = Some (in_cache (cd st) lba || (lba + 8 <=? limit), st') /\ atapi_ready st' /\
    (in_cache (cd st) lba || (lba + 8 <=? limit) = true -> filled private st p (disc_sectors disc lba 1) st').
Proof. apply read_sector_cases. Qed.

#[local] Instance atapi_medium : Medium a dispatch disc limit private atapi_ready.
Proof.
  split; [lia|..].
  - intros st Hr. apply (ar_ready _ Hr).
  - intros st lba p Hr _ Hl Hfit. destruct (read_sector_cases st lba p Hr ltac:(lia)) as (st' & E & Hr' & Hf).
    rewrite (proj2 (Z.leb_le _ _) Hfit), orb_true_r in *. exists st'. auto.
  - intros st lba n p Hr _ Hl Hn Hfit. unfold read_batch, atapi_read_memory.
    rewrite (ar_no_disk _ Hr), (ar_base _ Hr), (ar_slave _ Hr). cbn [Z.eqb negb].
    rewrite (u8_small n) by (unfold is_u8; lia). unfold CDFS_SECTOR_SIZE.
    assert (Hlen : Datatypes.length (load (ram st) p (n * 2048)) = Z.to_nat (n * 2048)) by (unfold load; by rewrite length_map, length_seqZ).
    destruct (atapi_read_ok a base slave disc limit drv patience Hdrive Hbytes lba (load (ram st) p (n * 2048)) n (dev st) (ar_idle _ Hr))
      as (buf & d' & -> & Hd' & ->); [unfold is_u32; lia | lia | lia |].
    rewrite (proj2 (Z.leb_le _ _) Hfit), splice_all by (rewrite disc_sectors_length by lia; done).
    eexists. split; [reflexivity|]. split; [|done]. destruct Hr. by split.
  - intros st h Hr. destruct Hr. by split.
Qed.

End atapi.

(** * A disk with the image on it is a medium *)
Section disk.
Context {D H : Type} `{Bus D} `{KernelHeap H} (a : arch).
Context (dispatch : Z -> Z -> IO_REQUEST -> ob H (io D) -> option (Z * IO_REQUEST * ob H (io D))).
Context (disc : Z -> Z) (limit device routine : Z) (Idle : io D -> Prop) (private : Z -> Prop).

Record disk_ready (st : @sys D H) : Prop := {
  kr_present : cdrom_present (cd st) = true;
  kr_ready : cdrom_ready (cd st) = true;
  kr_disk : usb_iso_device (cd st) = device;
  kr_attached : attached (mkVolume device 0 0 0 0 0 0 0 false) routine Idle (kern st)
}.

Context `{!Disk dispatch device routine disc (limit * 4) Idle private} (Hlimit : limit <= 4294967296).

Lemma disk_call st p n lba :
  disk_ready st -> usable private p (n * 2048) -> 0 <= lba -> 0 < n < 256 -> lba + n <= limit ->
  exists r' st', IoCallDriver dispatch device (Some (mkRequest IO_MJ_READ 0 0 p (n * 2048) (read_write (lba * 2048)))) (kern st)
      = Some (IO_STATUS_SUCCESS, r', kern st') /\ st' = set_kern st (kern st') /\ disk_ready st' /\
    filled private st p (disc_sectors disc lba n) st'.
Proof.
  intros [Hp Hr Hd Ha] Hu Hl Hn Hfit.
  destruct (disk_request disc (limit * 4) (mkVolume device 0 0 0 0 0 0 0 false) dispatch routine Idle private (lba * 2048) p (n * 2048) (kern st) Ha Hu)
    as (r' & m & d & E & Ha' & Hm); [zlia..|]. cbn [Fat32.device] in E.
  eexists _, (set_kern st _). rewrite E. split; [reflexivity|]. split; [done|]. split; [by split|].
  split; [|done]. intros x Hx. exact (Hm x Hx).
Qed.

#[local] Instance disk_medium : Medium a dispatch disc limit private disk_ready.
Proof.
  split; [done|..].
  - intros st Hr. apply (kr_ready _ Hr).
  - intros st lba p Hr Hu Hl Hfit. unfold CdfsReadSector, usb_read_iso_sector.
    rewrite (kr_present _ Hr), (kr_ready _ Hr), (kr_disk _ Hr). cbn [negb orb].
    rewrite (proj2 (Z.eqb_neq device 0)) by (destruct (kr_attached _ Hr); done). cbn [negb].
    destruct (disk_call st p 1 lba Hr Hu Hl ltac:(lia) ltac:(lia)) as (r' & st' & E' & E & Hr' & Hf).
    unfold CDFS_SECTOR_SIZE. change (1 * 2048) with 2048 in E'. rewrite E'.
    cbn [mbind option_bind]. rewrite <- E. exists st'. done.
  - intros st lba n p Hr Hu Hl Hn Hfit. unfold read_batch, usb_read_iso_sectors. rewrite (kr_disk _ Hr).
    rewrite (proj2 (Z.eqb_neq device 0)) by (destruct (kr_attached _ Hr); done). cbn [negb].
    rewrite (u8_small n), u32_small by (unfold is_u8, is_u32, CDFS_SECTOR_SIZE; lia).
    destruct (disk_call st p n lba Hr Hu Hl ltac:(lia) Hfit) as (r' & st' & E' & E & Hr' & Hf).
    unfold CDFS_SECTOR_SIZE. rewrite E'.
    cbn [mbind option_bind]. rewrite <- E. exists st'. done.
  - intros st h Hr. destruct Hr. by split.
Qed.

End disk.

(** ** A drive that is never busy *)
Section simulator.
Context (disc : Z -> Z) (limit : Z).

Definition settle (d : drive_state) : drive_state :=
  match d with
  | Words n bs => if n =? 0 then match bs with [] => Idle | _ => Reading bs end else d
  | Reading [] => Idle
  | _ => d
  end.

Definition sim_in (w : width) (p : Z) (d : drive_state) : Z * drive_state :=
  if p =? 503 then
    match settle d with
    | Reading bs => let n := Z.min 2048 (Z.of_nat (Datatypes.length bs)) in (88, Phase n bs)
    | Failed => (81, Idle)
    | Phase _ _ | Packet _ => (88, d)
    | _ => (80, d)
    end
  else match d with
  | Phase n bs => if p =? 501 then (n / 256, d) else if p =? 500 then (n mod 256, Words n bs) else (0, d)
  | Words n (b0 :: b1 :: bs) => if p =? 496 then (b0 + 256 * b1, Words (n - 2) bs) else (0, d)
  | _ => (0, d)
  end.

Definition sim_out (w : width) (p v : Z) (d : drive_state) : unit * drive_state :=
  (tt, if p =? 502 then Selected else if p =? 503 then Packet [] else
       if p =? 496 then match d with
         | Packet ws => match read12_request (ws ++ [v]) with
                        | Some (lba, n) => if lba + n <=? limit then Reading (disc_sectors disc lba n) else Failed
                        | None => Packet (ws ++ [v])
                        end
         | _ => d
         end
       else d).

Definition sim_bus : Bus drive_state :=
  {| port_in := sim_in; port_out := sim_out; mmio_load := fun _ _ d => (0, d); mmio_store := fun _ _ _ d => (tt, d) |}.

Definition sim_view (s d : drive_state) : Prop := settle d = settle s.

Lemma sim_port (w : width) (p : Z) d : 0 <= p < 65536 -> @port_read _ sim_bus X86 w p d = (truncate w (fst (sim_in w p d)), snd (sim_in w p d)).
Proof. intros Hp. unfold port_read. rewrite (proj2 (Z.mod_small_iff p 65536 ltac:(lia)) (or_introl Hp) : u16 p = p). cbn. unfold mbind, hw_bind. by destruct (sim_in w p d). Qed.

Lemma sim_drive : @atapi_drive _ sim_bus X86 496 false disc limit sim_view 0.
Proof.
  assert (Hv : forall s d, sim_view s d -> settle s = s -> match s with Idle | Reading _ => True | _ => d = s end).
  { intros s d E1 E2. unfold sim_view in E1. rewrite E2 in E1. clear E2. destruct d as [| | |[|b bs]| |n [|b bs]|]; cbn in E1; subst; try done;
      destruct (_ =? 0); done. }
  split; unfold inb, inw.
  - cbn. lia.
  - intros d _. eapply polls_now; [reflexivity|]. done.
  - intros d Hd. eapply polls_now; [reflexivity|]. done.
  - intros d Hd. by apply Hv in Hd as ->.
  - intros ws w d Hd Hl Hw. apply Hv in Hd as ->; [|done]. cbn.
    rewrite (proj2 (Z.mod_small_iff w 65536 ltac:(lia)) (or_introl Hw) : u16 w = w).
    assert (read12_request (ws ++ [w]) = None) as ->; [|done].
    unfold read12_request. rewrite bool_decide_false; [done|]. rewrite length_app. cbn. lia.
  - intros ws w lba n d Hd Hw E. apply Hv in Hd as ->; [|done]. cbn.
    rewrite (proj2 (Z.mod_small_iff w 65536 ltac:(lia)) (or_introl Hw) : u16 w = w), E. done.
  - intros bs d Hd Hne Hev.
    assert (settle d = Reading bs) as E by (rewrite Hd; by destruct bs).
    eapply polls_now; [unfold inb; rewrite sim_port by lia; unfold sim_in; change (496 + 7 =? 503) with true; cbn iota; rewrite E; reflexivity|].
    split; [done|]. split; [done|]. assert (0 < Z.of_nat (Datatypes.length bs)) by (destruct bs; [done | cbn; lia]).
    eexists. split; [|split; [|split; [|reflexivity]]]; zlia.
  - intros n bs d Hd. apply Hv in Hd as ->; done.
  - intros n bs d Hd Hn. apply Hv in Hd as ->; [|done]. split; [|done]. rewrite sim_port by lia. change (u8 (n / 256) = n / 256). zlia.
  - intros n bs d Hd. apply Hv in Hd as ->; [|done]. split; [|done]. rewrite sim_port by lia. change (u8 (n mod 256) = n mod 256). zlia.
  - intros n b0 b1 bs d Hd Hn H0 H1.
    assert (settle (Words n (b0 :: b1 :: bs)) = Words n (b0 :: b1 :: bs)) as E by (cbn; by rewrite (proj2 (Z.eqb_neq n 0)) by lia).
    apply Hv in Hd as ->; [|done]. rewrite sim_port by lia. split; [change (u16 (b0 + 256 * b1) = b0 + 256 * b1); zlia | done].
  - intros bs d Hd. unfold sim_view in *. rewrite Hd. done.
  - intros d Hd. exact Hd.
  - intros d Hd. apply Hv in Hd as ->; [|done]. eapply polls_now; [reflexivity|]. done.
Qed.

End simulator.

(** ** A disc with one file *)
Definition tiny_date : list Z := [124; 1; 1; 0; 0; 0; 0].
Definition tiny_records : list dir_record :=
  [mkRecord 20 2048 tiny_date 2 [0]; mkRecord 20 2048 tiny_date 2 [1]; mkRecord 21 5 tiny_date 0 (cstr "HELLO.TXT;1")].
Definition tiny_descriptor : list Z := replicate 158 0 ++ bytes_le 20 ++ rev (bytes_le 20) ++ bytes_le 2048.
Definition tiny_disc (o : Z) : Z :=
  if o / 2048 =? 16 then get 0 tiny_descriptor (o mod 2048)
  else if o / 2048 =? 20 then get 0 (encode_records tiny_records) (o mod 2048)
  else if o / 2048 =? 21 then get 0 (cstr "hello") (o mod 2048) else 0.

Definition tiny_sys : @sys drive_state fresh :=
  mkSys (mkOb [] 0 [] 0 ∅ fresh_start (mkIo ∅ ∅ (fun _ => 0) 1 2 0 Idle)) (mkCdfs true true 0 496 false (replicate (Z.to_nat 16384) 0) 0 false).

Lemma get_range (l : list Z) o : Forall (fun b => 0 <= b < 256) l -> 0 <= get 0 l o < 256.
Proof. intros Hl. unfold get. destruct (l !! Z.to_nat o) eqn:E; cbn; [|lia]. by eapply Forall_lookup in Hl. Qed.

Lemma tiny_disc_bytes o : 0 <= tiny_disc o < 256.
Proof.
  unfold tiny_disc. repeat destruct (_ =? _); try lia; apply get_range;
    match goal with |- Forall ?P ?l => apply (bool_decide_eq_true_1 (Forall P l)) end; vm_compute; reflexivity.
Qed.

Lemma tiny_drive : @atapi_drive _ (sim_bus tiny_disc 40) X86 496 false tiny_disc 40 sim_view 0.
Proof. apply sim_drive. Qed.

Lemma tiny_ready : @atapi_ready _ _ tiny_disc 40 496 false sim_view tiny_sys.
Proof. by split. Qed.

Lemma tiny_directory : directory_at tiny_disc 40 20 2048 [tiny_records].
Proof.
  split; [|done|done|done|vm_compute; reflexivity].
  repeat constructor; cbn; try done.
Qed.

Lemma disc_resolves : resolves_to tiny_disc 40 (le32 (disc_sectors tiny_disc 16 1) 158) (le32 (disc_sectors tiny_disc 16 1) 166)
  (components (cstr "/hello.txt")) (mkRecord 21 5 tiny_date 0 (cstr "HELLO.TXT;1")) [2048].
Proof.
  replace (le32 (disc_sectors tiny_disc 16 1) 158) with 20 by (vm_compute; reflexivity).
  replace (le32 (disc_sectors tiny_disc 16 1) 166) with 2048 by (vm_compute; reflexivity).
  apply (resolves_here tiny_disc 40 20 2048 [tiny_records] (cstr "hello.txt") _ tiny_directory). vm_compute. reflexivity.
Qed.

Lemma CdfsReadFile_correct_witness :
  exists st', @CdfsReadFile _ _ (sim_bus tiny_disc 40) _ X86 (image_dispatch tiny_disc) 4096 0 no_volume (Some (cstr "\hello.txt")) tiny_sys
    = Some (Some (67584, 5, cstr "hello"), st').
Proof.
  pose proof (@atapi_medium _ fresh (sim_bus tiny_disc 40) X86 (image_dispatch tiny_disc) tiny_disc 40 496 false sim_view 0 tiny_drive
    (fun _ => False) tiny_disc_bytes ltac:(lia)) as Hm.
  destruct (@CdfsReadFile_correct _ _ (sim_bus tiny_disc 40) _ X86 (image_dispatch tiny_disc) tiny_disc 40 _ _ Hm 4096 0 no_volume
    (cstr "\hello.txt") (cstr "/hello.txt") _ [2048] 67584 (mkFresh 67584 ∅) (mkFresh 69632 {[ 67584 := 2048 ]}) tiny_sys
    tiny_ready (all_usable 4096 2048 ltac:(lia)) eq_refl ltac:(lia) eq_refl disc_resolves) as (st' & E & _).
  - cbn. lia.
  - cbn. lia.
  - vm_compute. discriminate.
  - eapply scratch_cons; [reflexivity | by apply all_usable | | apply scratch_nil]. vm_compute. reflexivity.
  - vm_compute. reflexivity.
  - by apply all_usable.
  - exists st'. rewrite E. cbn [r_lba r_size].
    replace (slice tiny_disc (21 * 2048) 5) with (cstr "hello") by (vm_compute; reflexivity). reflexivity.
Defined.

Lemma CdfsReadSector_correct_witness :
  exists st', @CdfsReadSector _ fresh (sim_bus tiny_disc 40) X86 (image_dispatch tiny_disc) 39 4096 tiny_sys = Some (false, st').
Proof.
  destruct (@CdfsReadSector_correct _ fresh (sim_bus tiny_disc 40) X86 (image_dispatch tiny_disc) tiny_disc 40 496 false sim_view 0 tiny_drive
    (fun _ => False) tiny_disc_bytes ltac:(lia) tiny_sys 39 4096 tiny_ready ltac:(lia)) as (st' & E & _).
  exists st'. exact E.
Defined.

End Cdfs.
