(* ===== verification/Invoke.v ===== *)
(** * kernel/core/invoke.c: calling the entry point of a program

    The five ways a loaded image is entered.  An entry point is a code address;
    [run] is what the processor does there with the arguments of each calling
    convention.  A [char] or [uint16_t] string is the list of its units before
    the terminator; [argv] is the list of the strings its pointers lead to (the
    code cuts them out of one buffer by writing terminators into it). *)

From stdpp Require Import base list numbers strings.
From Stdlib Require Import ZArith Lia.
From S2P Require Import Prelude.

Module Invoke.

Definition is_blank (c : Z) : bool := (c =? 32) || (c =? 9).
Definition is_quote (c : Z) : bool := (c =? 34) || (c =? 39).

Fixpoint skip_blanks (b : list Z) : list Z :=
  match b with [] => [] | c :: b' => if is_blank c then skip_blanks b' else b end.

(** The units before the first one that satisfies [stop], and the rest. *)
Fixpoint cut (stop : Z -> bool) (b : list Z) : list Z * list Z :=
  match b with
  | [] => ([], [])
  | c :: b' => if stop c then ([], b) else let '(w, r) := cut stop b' in (c :: w, r)
  end.

(** The argument loop from [argc] on; every turn takes a unit of the buffer. *)
Fixpoint split_args (fuel : nat) (argc : Z) (b : list Z) : list (list Z) :=
  match fuel, b with
  | S fuel', _ :: _ =>
      if 31 <=? argc then [] else
      match skip_blanks b with
      | [] => []
      | c :: b' =>
          let '(w, r) := if is_quote c then cut (Z.eqb c) b' else cut is_blank (c :: b') in
          w :: split_args fuel' (argc + 1) (tail r)
      end
  | _, _ => []
  end.

(** The command line as it is copied to [buffer]: 255 units at most. *)
Definition copy_line (command_line : option (list Z)) : list Z :=
  match command_line with Some l => take 255 l | None => [] end.

Definition arguments (command_line : option (list Z)) : list (list Z) :=
  let b := copy_line command_line in split_args (length b) 1 b.

(** What the processor is given. *)
Inductive invocation :=
| Main
| MainArgs (argc : Z) (argv : list (list Z))
| WMain (argc : Z) (argv : list (list Z))
| WinMain (image : Z) (command_line : list Z) (show : Z)
| WWinMain (image : Z) (command_line : list Z) (show : Z).

Section invoke.
Context {S : Type} (run : Z -> invocation -> S -> Z * S).

Definition KeInvokeMain (entry : Z) (s : S) : Z * S := if entry =? 0 then (-1, s) else run entry Main s.

Definition KeInvokeMainArgs (entry : Z) (image_path command_line : option (list Z)) (s : S) : Z * S :=
  if entry =? 0 then (-1, s) else
  let argv := default [] image_path :: arguments command_line in
  run entry (MainArgs (Z.of_nat (length argv)) argv) s.

Definition KeInvokeWMain (entry : Z) (image_path command_line : option (list Z)) (s : S) : Z * S :=
  if entry =? 0 then (-1, s) else
  let image := match image_path with Some p => take 255 p | None => [] end in
  let argv := image :: arguments command_line in
  run entry (WMain (Z.of_nat (length argv)) argv) s.

Definition KeInvokeWinMain (entry image : Z) (command_line : option (list Z)) (s : S) : Z * S :=
  if entry =? 0 then (-1, s) else run entry (WinMain image (default [] command_line) 1) s.

Definition KeInvokeWWinMain (entry image : Z) (command_line : option (list Z)) (s : S) : Z * S :=
  if entry =? 0 then (-1, s) else run entry (WWinMain image (default [] command_line) 1) s.

End invoke.

(** ** How a caller spells arguments

    A plain word as it is, any other in double quotes. *)
Definition plain_word (w : list Z) : bool :=
  match w with [] => false | c :: _ => negb (is_quote c) && forallb (fun x => negb (is_blank x)) w end.

Definition spell_arg (w : list Z) : list Z := if plain_word w then w else 34 :: w ++ [34].

Fixpoint spell_args (ws : list (list Z)) : list Z :=
  match ws with
  | [] => []
  | [w] => spell_arg w
  | w :: ws => spell_arg w ++ 32 :: spell_args ws
  end.

Lemma cut_app stop w rest :
  forallb (fun x => negb (stop x)) w = true -> match rest with [] => True | c :: _ => stop c = true end ->
  cut stop (w ++ rest) = (w, rest).
Proof.
  intros Hw Hr. induction w as [|c w IH]; cbn in *.
  - destruct rest as [|c rest]; [done|]. cbn. by rewrite Hr.
  - apply andb_true_iff in Hw as [Hc Hw]. rewrite negb_true_iff in Hc. by rewrite Hc, IH.
Qed.

Lemma split_blank fuel argc b : split_args fuel argc (32 :: b) = split_args fuel argc b.
Proof. destruct fuel as [|fuel]; [done|]. cbn [split_args skip_blanks]. change (is_blank 32) with true. cbn iota. by destruct b; [destruct (31 <=? argc)|]. Qed.

Lemma no_quote_cut w : forallb (fun x => negb (x =? 34)) w = true -> forallb (fun x => negb (34 =? x)) w = true.
Proof. intros H. rewrite <- H. clear H. induction w as [|x w IH]; [done|]. cbn [forallb]. by rewrite IH, (Z.eqb_sym 34 x). Qed.

(** One spelled argument is read back whole, wherever the loop stands. *)
Lemma read_arg fuel argc w rest :
  forallb (fun x => negb (x =? 34)) w = true -> argc < 31 ->
  match rest with [] => True | c :: _ => c = 32 end ->
  split_args (S fuel) argc (spell_arg w ++ rest) = w :: split_args fuel (argc + 1) (tail rest).
Proof.
  intros Hq Ha Hr. unfold spell_arg. destruct (plain_word w) eqn:Ep.
  - destruct w as [|c w]; [done|]. cbn [plain_word] in Ep. apply andb_true_iff in Ep as [Hc Hb]. rewrite negb_true_iff in Hc.
    pose proof Hb as Hb'. cbn [forallb] in Hb'. apply andb_true_iff in Hb' as [Hb0 _]. rewrite negb_true_iff in Hb0.
    cbn [split_args app skip_blanks]. rewrite (proj2 (Z.leb_gt _ _)), Hb0, Hc by lia.
    change (c :: w ++ rest) with ((c :: w) ++ rest). rewrite cut_app; [done | done |].
    destruct rest as [|x rest]; [done|]. by subst x.
  - cbn [split_args app skip_blanks]. rewrite (proj2 (Z.leb_gt _ _)) by lia. change (is_blank 34) with false. change (is_quote 34) with true.
    cbn iota. rewrite <- app_assoc, cut_app by (done || by apply no_quote_cut). cbn [app tail].
    destruct rest as [|x rest]; [done|]. subst x. change (is_quote 34) with true. cbn [tail]. by rewrite split_blank.
Qed.

Lemma read_args ws : forall fuel argc,
  Forall (fun w => forallb (fun x => negb (x =? 34)) w = true) ws ->
  argc + Z.of_nat (length ws) <= 31 -> (length ws <= fuel)%nat -> split_args fuel argc (spell_args ws) = ws.
Proof.
  induction ws as [|w ws IH]; intros fuel argc Hq Ha Hf; [by destruct fuel|].
  inversion Hq as [|? ? Hw Hws]; subst. destruct fuel as [|fuel]; [cbn in Hf; lia|]. cbn [length] in *.
  assert (spell_args (w :: ws) = spell_arg w ++ match ws with [] => [] | _ => 32 :: spell_args ws end) as ->.
  { destruct ws; [symmetry; apply app_nil_r | done]. }
  rewrite read_arg; [|done | lia | by destruct ws]. f_equal. destruct ws as [|w' ws]; [by destruct fuel|]. apply IH; [done | lia..].
Qed.

Lemma spell_args_length ws : (length ws <= length (spell_args ws))%nat.
Proof.
  assert (Hw : forall w, (1 <= length (spell_arg w))%nat).
  { intros w. unfold spell_arg. destruct (plain_word w) eqn:E; [by destruct w; cbn; [|lia]|]. cbn. lia. }
  induction ws as [|w ws IH]; [done|]. cbn [length]. pose proof (Hw w). destruct ws as [|w' ws]; [cbn in *; lia|].
  change (spell_args (w :: w' :: ws)) with (spell_arg w ++ 32 :: spell_args (w' :: ws)). rewrite length_app. cbn [length] in *. lia.
Qed.

Lemma split_args_bound fuel argc b : argc <= 31 -> argc + Z.of_nat (length (split_args fuel argc b)) <= 31.
Proof.
  revert argc b. induction fuel as [|fuel IH]; intros argc b Ha; [cbn; lia|]. destruct b as [|c b]; [cbn; lia|].
  cbn [split_args]. destruct (Z.leb_spec 31 argc); [cbn; lia|]. destruct (skip_blanks (c :: b)) as [|c' b']; [cbn; lia|].
  destruct (if is_quote c' then _ else _) as [w r]. cbn [length]. specialize (IH (argc + 1) (tail r)). lia.
Qed.

(** Arguments survive the command line: up to thirty of them without double
    quotes, spelled with quotes where they need them and separated by blanks,
    reach the program's [main] as they were given, after the image path. *)
Theorem KeInvokeMainArgs_roundtrip {S} (run : Z -> invocation -> S -> Z * S) (entry : Z) (image : list Z) (ws : list (list Z)) (s : S) :
  entry <> 0 -> Forall (fun w => forallb (fun x => negb (x =? 34)) w = true) ws ->
  (length ws <= 30)%nat -> (length (spell_args ws) <= 255)%nat ->
  KeInvokeMainArgs run entry (Some image) (Some (spell_args ws)) s = run entry (MainArgs (Z.of_nat (length ws) + 1) (image :: ws)) s.
Proof.
  intros He Hq Hn Hl. unfold KeInvokeMainArgs, arguments, copy_line. rewrite (proj2 (Z.eqb_neq _ _) He), take_ge by done.
  rewrite read_args; [|done | lia | apply spell_args_length]. cbn [default length]. do 2 f_equal. lia.
Qed.

Lemma KeInvokeMainArgs_roundtrip_witness :
  KeInvokeMainArgs (fun _ i s => (0, i :: s)) 4096 (Some (cstr "A.EXE")) (Some (spell_args [cstr "-o"; []; cstr "my file"])) []
  = (0, [MainArgs 4 [cstr "A.EXE"; cstr "-o"; []; cstr "my file"]]).
Proof. apply (KeInvokeMainArgs_roundtrip (fun _ i s => (0, i :: s)) 4096 (cstr "A.EXE") [cstr "-o"; []; cstr "my file"] []); [lia | repeat (apply Forall_cons; split; [reflexivity|]); by apply Forall_nil | apply Nat.leb_le; reflexivity | apply Nat.leb_le; reflexivity]. Defined.

(** The argument vector never outgrows its array of 32 pointers, terminator
    included, whatever the command line, and holds the command line's words
    only from its first 255 units. *)
Theorem argv_bounded (command_line : option (list Z)) (image : list Z) :
  Z.of_nat (length (image :: arguments command_line)) <= 31 /\ arguments command_line = arguments (take 255 <$> command_line).
Proof.
  split.
  - cbn [length]. pose proof (split_args_bound (length (copy_line command_line)) 1 (copy_line command_line)). unfold arguments. lia.
  - unfold arguments, copy_line. destruct command_line as [l|]; [|done]. cbn. by rewrite (take_ge (take 255 l)) by (rewrite length_take; lia).
Qed.

End Invoke.
