(* ===== verification/Ram.v ===== *)
(** * Memory as the image loader sees it

    Little-endian access to flat memory, strings in it, and the interface
    between the loader and the rest of the kernel. *)

From stdpp Require Import base list numbers.
From Stdlib Require Import ZArith Lia.
From S2P Require Import Prelude.
From S2P Require Import Util.
Import Util.

(** ** Little-endian memory *)
Fixpoint ldn (n : nat) (m : mem) (p : Z) : Z :=
  match n with O => 0 | S n' => m p + 256 * ldn n' m (p + 1) end.
Fixpoint stn (n : nat) (m : mem) (p v : Z) : mem :=
  match n with O => m | S n' => stn n' (upd m p (v mod 256)) (p + 1) (v / 256) end.

Abbreviation ld8 := (ldn 1).
Abbreviation ld16 := (ldn 2).
Abbreviation ld32 := (ldn 4).
Abbreviation ld64 := (ldn 8).
Abbreviation st32 := (stn 4).
Abbreviation st64 := (stn 8).

(** A pointer or [uintptr_t] field. *)
Definition ptr_bytes (a : arch) : nat := match a with X86 => 4 | AMD64 | LA64 => 8 end.
Definition ldp (a : arch) := ldn (ptr_bytes a).
Definition stp (a : arch) := stn (ptr_bytes a).

(** [strcmp(p, name) == 0] for a string in memory and a known one. *)
Fixpoint str_at (m : mem) (p : Z) (name : list Z) : bool :=
  match name with
  | [] => m p =? 0
  | c :: name => (m p =? c) && str_at m (p + 1) name
  end.

(** The string at [p], when it ends within [walk] bytes. *)
Fixpoint read_str (walk : nat) (m : mem) (p : Z) : option (list Z) :=
  match walk with
  | O => None
  | S w => if m p =? 0 then Some [] else s ← read_str w m (p + 1); Some (m p :: s)
  end.

(** What the loader needs of the kernel: memory, [kmalloc], [kfree] and
    [CdfsReadFile] (the buffer's address and its size). *)
Class Kernel (S : Type) := {
  k_ram : S -> mem;
  k_set_ram : mem -> S -> S;
  k_malloc : Z -> S -> option (Z * S);
  k_free : Z -> S -> option S;
  k_read_file : list Z -> S -> option (option (Z * Z) * S);
  k_ram_set m s : k_ram (k_set_ram m s) = m;
  k_ram_malloc n s p s' : k_malloc n s = Some (p, s') -> k_ram s' = k_ram s;
  k_ram_free p s s' : k_free p s = Some s' -> k_ram s' = k_ram s
}.

(** ** Lemmas *)
Lemma ldn_ext n m m' p : (forall i, 0 <= i < Z.of_nat n -> m (p + i) = m' (p + i)) -> ldn n m p = ldn n m' p.
Proof.
  revert p. induction n as [|n IH]; intros p E; cbn [ldn]; [done|].
  rewrite <- (Z.add_0_r p) at 1 3. rewrite E by lia. do 2 f_equal. apply IH. intros i Hi. 
  replace (p + 1 + i) with (p + (1 + i)) by lia. apply E. lia.
Qed.

Lemma ldn_range n m p : (forall x, 0 <= m x < 256) -> 0 <= ldn n m p < 256 ^ Z.of_nat n.
Proof.
  intros Hm. revert p. induction n as [|n IH]; intros p; cbn [ldn]; [done|].
  rewrite Nat2Z.inj_succ, Z.pow_succ_r by lia. pose proof (Hm p). specialize (IH (p + 1)). lia.
Qed.

Lemma stn_out n m p v x : x < p \/ p + Z.of_nat n <= x -> stn n m p v x = m x.
Proof.
  revert m p v. induction n as [|n IH]; intros m p v Hx; cbn [stn]; [done|].
  rewrite IH by lia. unfold upd. destruct (Z.eqb_spec x p); [lia|done].
Qed.

Lemma ldn_stn n m p v : 0 <= v < 256 ^ Z.of_nat n -> ldn n (stn n m p v) p = v.
Proof.
  revert m p v. induction n as [|n IH]; intros m p v Hv; cbn [ldn stn]; [cbn in Hv; lia|].
  rewrite Nat2Z.inj_succ, Z.pow_succ_r in Hv by lia.
  rewrite IH by (Z.div_mod_to_equations; nia). rewrite stn_out by lia. unfold upd. rewrite Z.eqb_refl.
  Z.div_mod_to_equations; lia.
Qed.

Lemma ldn_stn_ne n k m p q v : p + Z.of_nat n <= q \/ q + Z.of_nat k <= p -> ldn n (stn k m q v) p = ldn n m p.
Proof. intros Hd. apply ldn_ext. intros i Hi. apply stn_out. lia. Qed.

Lemma stn_bytes n m p v x : (forall x, 0 <= m x < 256) -> 0 <= stn n m p v x < 256.
Proof.
  revert m p v. induction n as [|n IH]; intros m p v Hm; cbn [stn]; [done|]. apply IH. intros y. unfold upd.
  destruct (y =? p); [apply Z.mod_pos_bound; lia | done].
Qed.

Lemma str_at_ext m m' p s : (forall i, 0 <= i <= Z.of_nat (length s) -> m (p + i) = m' (p + i)) -> str_at m p s = str_at m' p s.
Proof.
  revert p. induction s as [|c s IH]; intros p E; cbn [str_at].
  - rewrite <- (Z.add_0_r p). by rewrite E by (cbn; lia).
  - rewrite <- (Z.add_0_r p) at 1 3. rewrite E by (cbn; lia). f_equal. apply IH. intros i Hi.
    replace (p + 1 + i) with (p + (1 + i)) by lia. apply E. cbn [length]. lia.
Qed.

(** Two strings in memory: at [p] there is [t], and it is [s] exactly when they
    are equal. *)
Lemma str_at_eq m p s t : cstring s -> cstring t -> str_at m p t = true -> str_at m p s = bool_decide (s = t).
Proof.
  intros Hs Ht. revert p t Ht. induction Hs as [|c s Hc Hs IH]; intros p t Ht E.
  - destruct Ht as [|d t Hd Ht]; cbn in *; [by rewrite E|]. apply andb_true_iff in E as [E%Z.eqb_eq _].
    rewrite (proj2 (Z.eqb_neq _ _)) by lia. done.
  - destruct Ht as [|d t Hd Ht]; cbn [str_at] in *.
    + apply Z.eqb_eq in E. rewrite E, (proj2 (Z.eqb_neq 0 c)) by lia. done.
    + apply andb_true_iff in E as [E%Z.eqb_eq E']. rewrite E, (IH _ _ Ht E').
      destruct (Z.eqb_spec d c) as [->|Hne]; cbn [andb].
      * apply bool_decide_ext. split; [by intros ->|by intros [= ->]].
      * symmetry. apply bool_decide_false. congruence.
Qed.

Lemma read_str_at m p s walk : cstring s -> str_at m p s = true -> (length s < walk)%nat -> read_str walk m p = Some s.
Proof.
  intros Hs. revert p walk. induction Hs as [|c s Hc Hs IH]; intros p walk E Hw; (destruct walk as [|w]; [cbn in Hw; lia|]); cbn [read_str str_at] in *.
  - by rewrite E.
  - apply andb_true_iff in E as [E%Z.eqb_eq E']. rewrite E, (proj2 (Z.eqb_neq c 0)) by lia.
    rewrite (IH _ w E') by (cbn in Hw; lia). done.
Qed.
