(* ===== verification/Pe.v ===== *)
(** * kernel/loader/peloader.c: loading programs, libraries and drivers

    Images are PE32, ELF32 or ELF64 files in memory; the loader copies them to
    a block of their own behind a runtime header, relocates them, resolves what
    they import and keeps the list of loaded libraries.  Memory is flat and
    byte addressed; every pointer the code computes is cut to the width of the
    target ([usize]), and a structure is read at the offsets of its fields.

    What the loader needs of the kernel is the class [Kernel]: memory, the heap
    and [CdfsReadFile].  Calling a library's entry point is the argument
    [call_dllmain].  Walks that only the contents of memory end (strings,
    import tables, relocation blocks) take the fuel [walk], loading a library
    the fuel of [PeLoadDll]; [None] is running out of it, or a copy into a
    fixed array that does not fit.  Serial log lines are left out. *)

From stdpp Require Import base list numbers strings.
From Stdlib Require Import ZArith Lia.
From S2P Require Import Prelude.
From S2P Require Import Util.
From S2P Require Import Ram.
Import Util.

Module Pe.

Definition PE_RUNTIME_MAGIC : Z := 1414417476.
Definition PE_RUNTIME_FLAG_ELF : Z := 1.
Definition ELF_MAGIC : Z := 1179403647.

(** [PE_RUNTIME_HEADER]: the offsets of its fields. *)
Definition sizeof_RUNTIME (a : arch) : Z := match a with X86 => 160 | AMD64 | LA64 => 176 end.
Definition rt_magic : Z := 0.
Definition rt_flags : Z := 4.
Definition rt_image_size : Z := 8.
Definition rt_elf_base_vaddr (a : arch) : Z := match a with X86 => 12 | AMD64 | LA64 => 16 end.
Definition rt_source_image (a : arch) : Z := match a with X86 => 16 | AMD64 | LA64 => 24 end.
Definition rt_allocation_base (a : arch) : Z := match a with X86 => 20 | AMD64 | LA64 => 32 end.
Definition rt_source_size (a : arch) : Z := match a with X86 => 24 | AMD64 | LA64 => 40 end.
Definition rt_elf_class (a : arch) : Z := match a with X86 => 28 | AMD64 | LA64 => 44 end.
Definition rt_image_path (a : arch) : Z := match a with X86 => 32 | AMD64 | LA64 => 48 end.

Definition sizeof_LOADED_DLL (a : arch) : Z := match a with X86 => 204 | AMD64 | LA64 => 216 end.

Record LOADED_DLL := mkDll { dll_at : Z; dll_name : list Z; dll_path : list Z; image_base : Z; entry_point : Z }.

(** The statics; [pe_loading_stack] is the part of the array in use, and
    [loaded_drivers] the table of driver.c, newest first. *)
Record pe (S : Type) := mkPe {
  kernel : S;
  dll_list : list LOADED_DLL;
  pe_last_error : list Z;
  pe_current_loading_dll : option (list Z);
  pe_loading_stack : list (list Z);
  pe_loading_driver : bool;
  loaded_drivers : list (list Z * Z)
}.
Arguments mkPe {S}. Arguments kernel {S}. Arguments dll_list {S}. Arguments pe_last_error {S}.
Arguments pe_current_loading_dll {S}. Arguments pe_loading_stack {S}. Arguments pe_loading_driver {S}. Arguments loaded_drivers {S}.

(** A symbol is asked for by name or by ordinal ([MAKEINTRESOURCE]). *)
Inductive symbol := ByName (name : list Z) | ByOrdinal (o : Z).

(** ** Error texts: 255 bytes at most *)
Definition clip (s : list Z) : list Z := take 255 s.
Definition missing_dll (dll_name : option (list Z)) : list Z :=
  clip (cstr "This application failed to start because " ++ default [] dll_name ++ cstr " was not found.").
Definition missing_proc (dll_name func_name : option (list Z)) : list Z :=
  clip (cstr "The procedure entry point " ++ default [] func_name ++ cstr " could not be located in " ++ default [] dll_name ++ cstr ".").
Definition missing_elf_proc (func_name : option (list Z)) : list Z :=
  clip (cstr "The procedure entry point " ++ default [] func_name ++ cstr " could not be located.").

Definition fold_case (c : Z) : Z := if (97 <=? s8 c) && (s8 c <=? 122) then s8 c - 32 else s8 c.
Fixpoint pe_name_equals_ignore_case (x y : list Z) : bool :=
  match x, y with
  | c :: x, d :: y => (fold_case c =? fold_case d) && pe_name_equals_ignore_case x y
  | [], [] => true
  | _, _ => false
  end.

Section image.
Context (a : arch).

Definition P (p : Z) : Z := usize a p.

(** The header's address, or 0. *)
Definition PeGetRuntimeHeader (m : mem) (image : Z) : Z :=
  if image =? 0 then 0 else
  let hdr := P (image - sizeof_RUNTIME a) in
  if ld32 m hdr =? PE_RUNTIME_MAGIC then hdr else 0.

(** Copying a string of at most [n - 1] bytes into an array in memory. *)
Fixpoint put_str (m : mem) (p : Z) (s : list Z) : mem :=
  match s with [] => upd m p 0 | c :: s => put_str (upd m p c) (p + 1) s end.

Definition PeSetImagePath (m : mem) (image : Z) (path : option (list Z)) : mem :=
  let runtime := PeGetRuntimeHeader m image in
  if runtime =? 0 then m else put_str m (runtime + rt_image_path a) (take 127 (default [] path)).

(** The address of the path in the header, or 0. *)
Definition PeGetImagePath (m : mem) (image : Z) : Z :=
  let runtime := PeGetRuntimeHeader m image in
  if (runtime =? 0) || (m (runtime + rt_image_path a) =? 0) then 0 else runtime + rt_image_path a.

(** ** ELF headers in memory *)
Definition PeGetELFLoadBase (m : mem) (elf : Z) : Z :=
  let ph := P (elf + ld32 m (elf + 28)) in
  let base := for_range 0 (ld16 m (elf + 44)) (fun i base =>
    let h := ph + 32 * i in
    if (ld32 m h =? 1) && (0 <? ld32 m (h + 20)) && (ld32 m (h + 8) <? base) then ld32 m (h + 8) else base) 4294967295 in
  if base =? 4294967295 then 0 else base.

Definition PeGetELF64LoadBase (m : mem) (elf : Z) : Z :=
  let ph := P (elf + ld64 m (elf + 32)) in
  let base := for_range 0 (ld16 m (elf + 56)) (fun i base =>
    let h := ph + 56 * i in
    if (ld32 m h =? 1) && negb (ld64 m (h + 40) =? 0) && (ld64 m (h + 16) <? base) then P (ld64 m (h + 16)) else base) (P (-1)) in
  if base =? P (-1) then 0 else base.

(** ** Entry point, kind and relocations of a loaded image *)
Definition PeGetEntryPoint (m : mem) (image : Z) : Z :=
  let runtime := PeGetRuntimeHeader m image in
  if image =? 0 then 0 else
  if ld32 m image =? ELF_MAGIC then
    if negb (runtime =? 0) && (ld8 m (runtime + rt_elf_class a) =? 2) then
      let source := ldp a m (runtime + rt_source_image a) in
      let elf64 := if source =? 0 then image else source in
      let base64 := if source =? 0 then PeGetELF64LoadBase m elf64 else ldp a m (runtime + rt_elf_base_vaddr a) in
      let entry := ld64 m (elf64 + 24) in
      if entry =? 0 then 0 else
      if base64 <=? entry then P (image + (entry - base64)) else
      if entry <? ld32 m (runtime + rt_image_size) then P (image + entry) else 0
    else
      let base := if negb (runtime =? 0) && negb (Z.land (ld32 m (runtime + rt_flags)) PE_RUNTIME_FLAG_ELF =? 0)
                  then u32 (ldp a m (runtime + rt_elf_base_vaddr a)) else PeGetELFLoadBase m image in
      let entry := ld32 m (image + 24) in
      if entry =? 0 then 0 else
      if negb (base =? 0) && (base <=? entry) then P (image + (entry - base)) else
      if negb (runtime =? 0) && (entry <? ld32 m (runtime + rt_image_size)) then P (image + entry) else 0
  else if negb (ld16 m image =? 23117) then 0 else
  let opt := P (image + ld32 m (image + 60) + 24) in
  P (image + ld32 m (opt + 16)).

Definition PeIsELFImage (m : mem) (image : Z) : bool :=
  if image =? 0 then false else
  let runtime := PeGetRuntimeHeader m image in
  if negb (runtime =? 0) && negb (Z.land (ld32 m (runtime + rt_flags)) PE_RUNTIME_FLAG_ELF =? 0) then true
  else ld32 m image =? ELF_MAGIC.

(** One entry of a relocation block, and the block's entries in order. *)
Definition reloc_entry (image page_rva delta e : Z) (m : mem) : mem :=
  if Z.shiftr e 12 =? 3 then
    let patch := P (image + page_rva + Z.land e 4095) in
    st32 m patch (u32 (ld32 m patch + delta))
  else m.

Fixpoint reloc_block (n : nat) (image page_rva delta entries : Z) (m : mem) : mem :=
  match n with
  | O => m
  | S n' => reloc_block n' image page_rva delta (entries + 2) (reloc_entry image page_rva delta (ld16 m entries) m)
  end.

Fixpoint reloc_loop (walk : nat) (image delta reloc reloc_end : Z) (m : mem) : option mem :=
  if negb (reloc <? reloc_end) then Some m else
  match walk with
  | O => None
  | S w =>
      let page_rva := ld32 m reloc in
      let block_size := ld32 m (reloc + 4) in
      if block_size =? 0 then Some m else
      let count := s32 (u32 (block_size - 8) / 2) in
      reloc_loop w image delta (P (reloc + block_size)) reloc_end
        (reloc_block (Z.to_nat count) image page_rva delta (P (reloc + 8)) m)
  end.

Definition PePerformRelocations (walk : nat) (image : Z) (m : mem) : option mem :=
  if (image =? 0) || (ld32 m image =? ELF_MAGIC) then Some m else
  let opt := P (image + ld32 m (image + 60) + 24) in
  let delta := s32 (u32 (u32 image - ld32 m (opt + 28))) in
  if delta =? 0 then Some m else
  if ld32 m (opt + 92) <=? 5 then Some m else
  let reloc_rva := ld32 m (opt + 96 + 40) in
  let reloc_size := ld32 m (opt + 96 + 44) in
  if (reloc_rva =? 0) || (reloc_size =? 0) then Some m else
  let reloc := P (image + reloc_rva) in
  reloc_loop walk image delta reloc (P (reloc + reloc_size)) m.

(** ** Exports *)

(** [_Name@N] or [Name@N] against the name without decoration. *)
Fixpoint decorated (m : mem) (export : Z) (requested : list Z) : bool :=
  match requested with
  | [] => (m export =? 0) || (m export =? 64)
  | c :: requested =>
      if (m export =? 0) || (m export =? 64) then false
      else (c =? m export) && decorated m (export + 1) requested
  end.

Definition decorated_match (m : mem) (name : Z) (func_name : list Z) : bool :=
  decorated m (if m name =? 95 then name + 1 else name)
    (match func_name with c :: rest => if c =? 95 then rest else func_name | [] => [] end).

(** The loop over the named exports. *)
Fixpoint find_export (n : nat) (i : Z) (m : mem) (dll functions names ordinals : Z) (func_name : list Z) : Z :=
  match n with
  | O => 0
  | S n' =>
      let name := P (dll + ld32 m (names + 4 * i)) in
      if str_at m name func_name || decorated_match m name func_name
      then P (dll + ld32 m (functions + 4 * ld16 m (ordinals + 2 * i)))
      else find_export n' (i + 1) m dll functions names ordinals func_name
  end.

(** The sections an ELF file names its symbols in: table, count and strings. *)
Record symbols := mkSymbols { sym_table : Z; sym_count : Z; sym_strings : Z }.

Definition elf32_sections (m : mem) (file : Z) : symbols * symbols :=
  let sh := P (file + ld32 m (file + 32)) in
  let shstr := P (file + ld32 m (sh + 40 * ld16 m (file + 50) + 16)) in
  for_range 0 (ld16 m (file + 48)) (fun i '(dyn, sta) =>
    let h := sh + 40 * i in
    let name := P (shstr + ld32 m h) in
    let at_ := P (file + ld32 m (h + 16)) in
    let count := ld32 m (h + 20) / 16 in
    let dyn := if str_at m name (cstr ".dynsym") then mkSymbols at_ count (sym_strings dyn) else dyn in
    let dyn := if str_at m name (cstr ".dynstr") then mkSymbols (sym_table dyn) (sym_count dyn) at_ else dyn in
    let sta := if str_at m name (cstr ".symtab") then mkSymbols at_ count (sym_strings sta) else sta in
    let sta := if str_at m name (cstr ".strtab") then mkSymbols (sym_table sta) (sym_count sta) at_ else sta in
    (dyn, sta)) (mkSymbols 0 0 0, mkSymbols 0 0 0).

Definition has_symbols (s : symbols) : bool := negb (sym_table s =? 0) && negb (sym_strings s =? 0).

(** The first symbol of that name decides. *)
Fixpoint find_sym32 (n : nat) (i : Z) (m : mem) (s : symbols) (elf base : Z) (func_name : list Z) : Z :=
  match n with
  | O => 0
  | S n' =>
      let y := sym_table s + 16 * i in
      if negb (ld32 m y =? 0) && str_at m (P (sym_strings s + ld32 m y)) func_name then
        let value := ld32 m (y + 4) in
        if negb (value =? 0) && (base <=? value) then P (elf + (value - base)) else 0
      else find_sym32 n' (i + 1) m s elf base func_name
  end.

Definition PeGetELFProcAddress (m : mem) (elf : Z) (func_name : list Z) : Z :=
  let runtime := PeGetRuntimeHeader m elf in
  let own := negb (runtime =? 0) && negb (Z.land (ld32 m (runtime + rt_flags)) PE_RUNTIME_FLAG_ELF =? 0)
             && negb (ldp a m (runtime + rt_source_image a) =? 0) in
  let file := if own then ldp a m (runtime + rt_source_image a) else elf in
  let base := if own then u32 (ldp a m (runtime + rt_elf_base_vaddr a)) else PeGetELFLoadBase m elf in
  let '(dyn, sta) := elf32_sections m file in
  let dyn := if has_symbols dyn then dyn else if has_symbols sta then sta else dyn in
  if negb (has_symbols dyn) then 0 else find_sym32 (Z.to_nat (sym_count dyn)) 0 m dyn elf base func_name.

Definition elf64_sections (m : mem) (file : Z) : symbols * symbols :=
  let sh := P (file + ld64 m (file + 40)) in
  let shstr := P (file + ld64 m (sh + 64 * ld16 m (file + 62) + 24)) in
  for_range 0 (ld16 m (file + 60)) (fun i '(dyn, sta) =>
    let h := sh + 64 * i in
    let name := P (shstr + ld32 m h) in
    let at_ := P (file + ld64 m (h + 24)) in
    let count := u32 (ld64 m (h + 32) / 24) in
    if str_at m name (cstr ".dynsym") then (mkSymbols at_ count (sym_strings dyn), sta) else
    if str_at m name (cstr ".dynstr") then (mkSymbols (sym_table dyn) (sym_count dyn) at_, sta) else
    if str_at m name (cstr ".symtab") then (dyn, mkSymbols at_ count (sym_strings sta)) else
    if str_at m name (cstr ".strtab") then (dyn, mkSymbols (sym_table sta) (sym_count sta) at_) else (dyn, sta))
  (mkSymbols 0 0 0, mkSymbols 0 0 0).

(** [for (i = 0; i < count; i++)] with a [uint16_t i]: past 65535 it starts
    over, so [walk] bounds the turns. *)
Fixpoint find_sym64 (walk : nat) (i : Z) (m : mem) (s : symbols) (elf base : Z) (func_name : list Z) : option Z :=
  if sym_count s <=? i then Some 0 else
  match walk with
  | O => None
  | S w =>
      let y := sym_table s + 24 * i in
      if (ld32 m y =? 0) || negb (str_at m (P (sym_strings s + ld32 m y)) func_name)
      then find_sym64 w (u16 (i + 1)) m s elf base func_name
      else
        let value := ld64 m (y + 8) in
        Some (if value =? 0 then 0 else if base <=? value then P (elf + (value - base)) else P (elf + value))
  end.

Definition PeGetELF64ProcAddress (walk : nat) (m : mem) (elf : Z) (func_name : list Z) : option Z :=
  let runtime := PeGetRuntimeHeader m elf in
  let own := negb (runtime =? 0) && negb (ldp a m (runtime + rt_source_image a) =? 0) in
  let file := if own then ldp a m (runtime + rt_source_image a) else elf in
  let base := if negb (runtime =? 0) then ldp a m (runtime + rt_elf_base_vaddr a) else PeGetELF64LoadBase m file in
  let limit := if negb (runtime =? 0) then ld32 m (runtime + rt_source_size a) else 4294967295 in
  if (file =? 0) || (limit <? u64 (ld64 m (file + 40) + ld16 m (file + 60) * ld16 m (file + 58))) then Some 0 else
  if ld16 m (file + 60) <=? ld16 m (file + 62) then Some 0 else
  let '(dyn, sta) := elf64_sections m file in
  let dyn := if has_symbols dyn then dyn else sta in
  if negb (has_symbols dyn) then Some 0 else find_sym64 walk 0 m dyn elf base func_name.

(** [None] only when [find_sym64] runs out of fuel. *)
Definition PeGetProcAddress (walk : nat) (m : mem) (dll : Z) (func_name : symbol) : option Z :=
  if dll =? 0 then Some 0 else
  let runtime := PeGetRuntimeHeader m dll in
  if negb (runtime =? 0) && negb (Z.land (ld32 m (runtime + rt_flags)) PE_RUNTIME_FLAG_ELF =? 0) then
    match func_name with
    | ByOrdinal _ => Some 0
    | ByName n => if ld8 m (runtime + rt_elf_class a) =? 2 then PeGetELF64ProcAddress walk m dll n
                  else Some (PeGetELFProcAddress m dll n)
    end
  else if ld32 m dll =? ELF_MAGIC then
    match func_name with ByOrdinal _ => Some 0 | ByName n => Some (PeGetELFProcAddress m dll n) end
  else
  let opt := P (dll + ld32 m (dll + 60) + 24) in
  if ld32 m (opt + 92) <? 1 then Some 0 else
  let export_rva := ld32 m (opt + 96) in
  if export_rva =? 0 then Some 0 else
  let exp := P (dll + export_rva) in
  let functions := P (dll + ld32 m (exp + 28)) in
  let names := P (dll + ld32 m (exp + 32)) in
  let ordinals := P (dll + ld32 m (exp + 36)) in
  match func_name with
  | ByOrdinal o =>
      if o =? 0 then Some 0 else
      let index := o - ld32 m (exp + 16) in
      if o <? ld32 m (exp + 16) then Some 0 else
      if (ld32 m (exp + 20) <=? index) || (ld32 m (functions + 4 * index) =? 0) then Some 0 else
      Some (P (dll + ld32 m (functions + 4 * index)))
  | ByName n => Some (find_export (Z.to_nat (ld32 m (exp + 24))) 0 m dll functions names ordinals n)
  end.

End image.

(** ** Loading *)
Definition loader (S A : Type) : Type := pe S -> option (A * pe S).
#[global] Instance loader_ret S : MRet (loader S) := fun A x st => Some (x, st).
#[global] Instance loader_bind S : MBind (loader S) := fun A B k m st => match m st with Some (x, st') => k x st' | None => None end.

Section load.
Context {S : Type} `{Kernel S} (a : arch) (walk : nat).
Implicit Types st : pe S.

Definition get_ram : loader S mem := fun st => Some (k_ram (kernel st), st).
Definition set_kernel st (k : S) : pe S :=
  mkPe k (dll_list st) (pe_last_error st) (pe_current_loading_dll st) (pe_loading_stack st) (pe_loading_driver st) (loaded_drivers st).
Definition put_ram (m : mem) : loader S unit := fun st => Some (tt, set_kernel st (k_set_ram m (kernel st))).
Definition pe_malloc (n : Z) : loader S Z := fun st => '(p, k) ← k_malloc n (kernel st); Some (p, set_kernel st k).
Definition pe_free (p : Z) : loader S unit := fun st => k ← k_free p (kernel st); Some (tt, set_kernel st k).
Definition read_file (path : list Z) : loader S (option (Z * Z)) := fun st => '(r, k) ← k_read_file path (kernel st); Some (r, set_kernel st k).
(** Memory that is defined to be undefined behaviour when it is [None]. *)
Definition lift {A} (x : option A) : loader S A := fun st => x ← x; Some (x, st).
Definition get_state : loader S (pe S) := fun st => Some (st, st).
Definition put_error (e : list Z) : loader S unit := fun st =>
  Some (tt, mkPe (kernel st) (dll_list st) e (pe_current_loading_dll st) (pe_loading_stack st) (pe_loading_driver st) (loaded_drivers st)).
Definition put_dlls (l : list LOADED_DLL) : loader S unit := fun st =>
  Some (tt, mkPe (kernel st) l (pe_last_error st) (pe_current_loading_dll st) (pe_loading_stack st) (pe_loading_driver st) (loaded_drivers st)).
Definition put_loading (c : option (list Z)) (s : list (list Z)) : loader S unit := fun st =>
  Some (tt, mkPe (kernel st) (dll_list st) (pe_last_error st) c s (pe_loading_driver st) (loaded_drivers st)).

Definition PeSetLoadingDriver (loading : bool) : loader S unit := fun st =>
  Some (tt, mkPe (kernel st) (dll_list st) (pe_last_error st) (pe_current_loading_dll st) (pe_loading_stack st) loading (loaded_drivers st)).
Definition PeSetLastError (text : option (list Z)) : loader S unit := put_error (clip (default [] text)).
Definition PeSetImportMissingDllError (dll_name : option (list Z)) : loader S unit := put_error (missing_dll dll_name).
Definition PeSetImportMissingProcError (dll_name func_name : option (list Z)) : loader S unit := put_error (missing_proc dll_name func_name).
Definition PeSetELFImportMissingProcError (func_name : option (list Z)) : loader S unit := put_error (missing_elf_proc func_name).
Definition PeGetLastError st : option (list Z) := match pe_last_error st with [] => None | e => Some e end.
Definition PeClearLastError : loader S unit := put_error [].

Definition PeFreeImage (image : Z) : loader S unit :=
  if image =? 0 then mret tt else
  m ← get_ram;
  let runtime := PeGetRuntimeHeader a m image in
  if runtime =? 0 then pe_free image else
  let source := ldp a m (runtime + rt_source_image a) in
  (if source =? 0 then mret tt
   else pe_free source;; m ← get_ram; put_ram (stp a m (runtime + rt_source_image a) 0));;
  m ← get_ram;
  let alloc := ldp a m (runtime + rt_allocation_base a) in
  pe_free (if alloc =? 0 then runtime else alloc).

(** The fields of the runtime header, then the cleared image. *)
Definition fill_runtime (runtime flags image_size base source alloc source_size : Z) (m : mem) : mem :=
  let m := st32 m (runtime + rt_magic) PE_RUNTIME_MAGIC in
  let m := st32 m (runtime + rt_flags) flags in
  let m := st32 m (runtime + rt_image_size) image_size in
  let m := stp a m (runtime + rt_elf_base_vaddr a) base in
  let m := stp a m (runtime + rt_source_image a) source in
  let m := stp a m (runtime + rt_allocation_base a) alloc in
  let m := st32 m (runtime + rt_source_size a) source_size in
  upd m (runtime + rt_image_path a) 0.

(** ** PE32 *)
Fixpoint copy_sections (n : nat) (section image_data size image image_size : Z) (m : mem) : mem :=
  match n with
  | O => m
  | Datatypes.S n' =>
      let dest := ld32 m (section + 12) in
      let len := ld32 m (section + 16) in
      let src := ld32 m (section + 20) in
      let m := if (0 <? len) && (u32 (src + len) <=? size) && (u32 (dest + len) <=? image_size)
               then memcpy (P a (image + dest)) (P a (image_data + src)) len m else m in
      copy_sections n' (section + 40) image_data size image image_size m
  end.

Definition PeLoadPE (image_data size : Z) : loader S Z :=
  m ← get_ram;
  if negb (ld16 m image_data =? 23117) then mret 0 else
  let pe_off := ld32 m (image_data + 60) in
  if size <? u32 (pe_off + 4) then mret 0 else
  let file := P a (image_data + pe_off) in
  if negb (ld32 m file =? 17744) then mret 0 else
  let opt := P a (file + 24) in
  if negb (ld16 m opt =? 267) then mret 0 else
  let image_size := ld32 m (opt + 56) in
  if (image_size =? 0) || (16777216 <? image_size) then mret 0 else
  alloc_base ← pe_malloc (u32 (sizeof_RUNTIME a + image_size));
  if alloc_base =? 0 then mret 0 else
  m ← get_ram;
  let m := fill_runtime alloc_base 0 image_size 0 0 alloc_base 0 m in
  let image := alloc_base + sizeof_RUNTIME a in
  let m := memset image 0 image_size m in
  let headers_size := ld32 m (opt + 60) in
  let headers_size := if size <? headers_size then size else headers_size in
  let m := memcpy image image_data headers_size m in
  let sections := P a (opt + ld16 m (file + 20)) in
  put_ram (copy_sections (Z.to_nat (ld16 m (file + 6))) sections image_data size image image_size m);;
  mret image.

(** ** ELF32 *)

(** [PeResolveExternalSymbol], which may load further libraries. *)
Context (resolve : list Z -> loader S Z).

(** End and start of the loaded segments. *)
Definition elf32_span (m : mem) (image_data ph : Z) : Z * Z :=
  for_range 0 (ld16 m (image_data + 44)) (fun i '(mem_end, base) =>
    let h := ph + 32 * i in
    if ld32 m h =? 1 then
      let end_ := u32 (ld32 m (h + 8) + ld32 m (h + 20)) in
      (if mem_end <? end_ then end_ else mem_end, if ld32 m (h + 8) <? base then ld32 m (h + 8) else base)
    else (mem_end, base)) (0, 4294967295).

Fixpoint elf32_segments (n : nat) (h image_data size image image_size base : Z) (m : mem) : mem :=
  match n with
  | O => m
  | Datatypes.S n' =>
      let len := ld32 m (h + 16) in
      let dest := u32 (ld32 m (h + 8) - base) in
      let src := ld32 m (h + 4) in
      let m := if (ld32 m h =? 1) && (0 <? len) && (u32 (src + len) <=? size) && (u32 (dest + len) <=? image_size)
               then memcpy (P a (image + dest)) (P a (image_data + src)) len m else m in
      elf32_segments n' (h + 32) image_data size image image_size base m
  end.

(** The symbol and string tables of a relocation section. *)
Definition rel_tables (m : mem) (image_data size sh shnum h : Z) : Z * Z :=
  let link := ld32 m (h + 24) in
  if link <? shnum then
    let symsec := sh + 40 * link in
    if (ld32 m (symsec + 36) =? 16) && (ld32 m (symsec + 16) <? size) then
      let symtab := P a (image_data + ld32 m (symsec + 16)) in
      let slink := ld32 m (symsec + 24) in
      if slink <? shnum then
        let strsec := sh + 40 * slink in
        if ld32 m (strsec + 16) <? size then (symtab, P a (image_data + ld32 m (strsec + 16))) else (symtab, 0)
      else (symtab, 0)
    else (0, 0)
  else (0, 0).

(** What a relocation stores, when it stores anything. *)
Definition rel32_value (r_type image addend sym_value patch : Z) : option Z :=
  if r_type =? 8 then Some (u32 (u32 image + addend)) else
  if sym_value =? 0 then None else
  if r_type =? 2 then Some (u32 (sym_value + addend - u32 patch)) else
  if (r_type =? 6) || (r_type =? 7) then Some sym_value else
  if r_type =? 1 then Some (u32 (sym_value + addend)) else None.

(** The value of a symbol of the image, before imports are looked up. *)
Definition sym32_value (value base image : Z) : Z :=
  if base <=? value then u32 (u32 image + (value - base))
  else if negb (value =? 0) then u32 (u32 image + value) else 0.

(** [false] when an import is missing: the image has then been released. *)
Fixpoint elf32_relocs (n : nat) (rel symtab strtab source alloc image image_size base : Z) : loader S bool :=
  match n with
  | O => mret true
  | Datatypes.S n' =>
      m ← get_ram;
      let r_offset := ld32 m rel in
      let r_info := ld32 m (rel + 4) in
      let r_sym := Z.shiftr r_info 8 in
      let r_type := Z.land r_info 255 in
      let patch_off := r_offset - base in
      if (r_offset <? base) || (image_size <? u32 (patch_off + 4))
      then elf32_relocs n' (rel + 8) symtab strtab source alloc image image_size base else
      let patch := P a (image + patch_off) in
      let addend := ld32 m patch in
      let sym := symtab + 16 * r_sym in
      let used := negb (symtab =? 0) && negb (r_sym =? 0) in
      let value := ld32 m (sym + 4) in
      let sym_value := if used then sym32_value value base image else 0 in
      let name := ld32 m sym in
      if used && (value =? 0) && negb (strtab =? 0) && negb (name =? 0) then
        sym_name ← lift (read_str walk m (P a (strtab + name)));
        resolved ← resolve sym_name;
        if resolved =? 0 then
          PeSetELFImportMissingProcError (Some sym_name);; pe_free source;; pe_free alloc;; mret false
        else
          m ← get_ram;
          put_ram (match rel32_value r_type image addend (u32 resolved) patch with Some v => st32 m patch v | None => m end);;
          elf32_relocs n' (rel + 8) symtab strtab source alloc image image_size base
      else
        put_ram (match rel32_value r_type image addend sym_value patch with Some v => st32 m patch v | None => m end);;
        elf32_relocs n' (rel + 8) symtab strtab source alloc image image_size base
  end.

Fixpoint elf32_rel_sections (n : nat) (h image_data size sh source alloc image image_size base : Z) : loader S bool :=
  match n with
  | O => mret true
  | Datatypes.S n' =>
      m ← get_ram;
      if negb (ld32 m (h + 4) =? 9)
      then elf32_rel_sections n' (h + 40) image_data size sh source alloc image image_size base else
      let '(symtab, strtab) := rel_tables m image_data size sh (ld16 m (image_data + 48)) h in
      ok ← elf32_relocs (Z.to_nat (ld32 m (h + 20) / 8)) (P a (image_data + ld32 m (h + 16))) symtab strtab
             source alloc image image_size base;
      if negb ok then mret false
      else elf32_rel_sections n' (h + 40) image_data size sh source alloc image image_size base
  end.

Definition PeLoadELF32 (image_data size : Z) : loader S Z :=
  m ← get_ram;
  if negb (ld8 m (image_data + 4) =? 1) then mret 0 else
  if negb (ld16 m (image_data + 18) =? 3) then mret 0 else
  let ph := P a (image_data + ld32 m (image_data + 28)) in
  let '(mem_end, base) := elf32_span m image_data ph in
  if (base =? 4294967295) || (mem_end <=? base) then mret 0 else
  let image_size := mem_end - base in
  if 16777216 <? image_size then mret 0 else
  alloc_base ← pe_malloc (u32 (sizeof_RUNTIME a + image_size));
  if alloc_base =? 0 then mret 0 else
  let image := alloc_base + sizeof_RUNTIME a in
  source_copy ← pe_malloc size;
  if source_copy =? 0 then pe_free alloc_base;; mret 0 else
  m ← get_ram;
  let m := memcpy source_copy image_data size m in
  let m := fill_runtime alloc_base PE_RUNTIME_FLAG_ELF image_size base source_copy alloc_base size m in
  let m := upd m (alloc_base + rt_elf_class a) 1 in
  let m := memset image 0 image_size m in
  let m := elf32_segments (Z.to_nat (ld16 m (image_data + 44))) ph image_data size image image_size base m in
  put_ram m;;
  let sh := P a (image_data + ld32 m (image_data + 32)) in
  ok ← elf32_rel_sections (Z.to_nat (ld16 m (image_data + 48))) sh image_data size sh source_copy alloc_base image image_size base;
  if negb ok then mret 0 else mret image.

(** ** ELF64 *)
Definition elf64_machine : Z := match a with LA64 => 258 | X86 | AMD64 => 62 end.

(** The end of the segments, or [None] for a segment outside the file or with
    a range that wraps. *)
Fixpoint elf64_end (n : nat) (h size mem_end : Z) (m : mem) : option Z :=
  match n with
  | O => Some mem_end
  | Datatypes.S n' =>
      if negb (ld32 m h =? 1) then elf64_end n' (h + 56) size mem_end m else
      let vaddr := ld64 m (h + 16) in
      let end_ := u64 (vaddr + ld64 m (h + 40)) in
      if (size <? u64 (ld64 m (h + 8) + ld64 m (h + 32))) || (end_ <? vaddr) then None
      else elf64_end n' (h + 56) size (if mem_end <? end_ then usize a end_ else mem_end) m
  end.

(** [false] when a segment does not fit the span. *)
Fixpoint elf64_segments (n : nat) (h image_data image span base : Z) (m : mem) : bool * mem :=
  match n with
  | O => (true, m)
  | Datatypes.S n' =>
      let filesz := ld64 m (h + 32) in
      if negb (ld32 m h =? 1) || (filesz =? 0) then elf64_segments n' (h + 56) image_data image span base m else
      let dest := u64 (ld64 m (h + 16) - base) in
      if span <? u64 (dest + filesz) then (false, m) else
      elf64_segments n' (h + 56) image_data image span base
        (memcpy (P a (image + u32 dest)) (P a (image_data + u32 (ld64 m (h + 8)))) (u32 filesz) m)
  end.

(** [symsec] and [strtab]. *)
Definition elf64_dynamic (m : mem) (image_data size sh : Z) : Z * Z :=
  let shnum := ld16 m (image_data + 60) in
  let shstrndx := ld16 m (image_data + 62) in
  let shstr := ld64 m (sh + 64 * shstrndx + 24) in
  let named := (shstrndx <? shnum) && (shstr <? size) in
  for_range 0 shnum (fun i '(symsec, strtab) =>
    let h := sh + 64 * i in
    let is_ name := named && str_at m (P a (image_data + shstr + ld32 m h)) name in
    (if is_ (cstr ".dynsym") then h else symsec,
     if is_ (cstr ".dynstr") && (u64 (ld64 m (h + 24) + ld64 m (h + 32)) <=? size) then P a (image_data + ld64 m (h + 24)) else strtab))
  (0, 0).

(** The width of a patch and its value, per target. *)
Definition rela_value (type image addend sym patch : Z) : option (nat * Z) :=
  match a with
  | LA64 =>
      if type =? 3 then Some (8%nat, u64 (image + addend)) else
      if type =? 2 then Some (8%nat, u64 (sym + addend)) else
      if type =? 1 then Some (4%nat, u32 (sym + addend)) else
      if type =? 5 then Some (8%nat, sym) else None
  | X86 | AMD64 =>
      if type =? 8 then Some (8%nat, u64 (image + addend)) else
      if type =? 1 then Some (8%nat, u64 (sym + addend)) else
      if (type =? 6) || (type =? 7) then Some (8%nat, sym) else
      if type =? 2 then Some (4%nat, u32 (sym + addend - patch)) else
      if (type =? 10) || (type =? 11) then Some (4%nat, u32 (sym + addend)) else None
  end.

Definition apply_rela (type image addend sym patch : Z) (m : mem) : mem :=
  match rela_value type image addend sym patch with Some (n, v) => stn n m patch v | None => m end.

Fixpoint elf64_relas (n : nat) (rela syms symcount strtab source alloc image span base : Z) : loader S bool :=
  match n with
  | O => mret true
  | Datatypes.S n' =>
      m ← get_ram;
      let r_offset := ld64 m rela in
      let type := u32 (ld64 m (rela + 8)) in
      let si := Z.shiftr (ld64 m (rela + 8)) 32 in
      let addend := s64 (ld64 m (rela + 16)) in
      let off := u64 (r_offset - base) in
      if (r_offset <? base) || (span <? u64 (off + 8))
      then elf64_relas n' (rela + 24) syms symcount strtab source alloc image span base else
      let sym := syms + 24 * si in
      let value := ld64 m (sym + 8) in
      let name := ld32 m sym in
      let patch := P a (image + u32 off) in
      if (si <? symcount) && (value =? 0) && negb (name =? 0) then
        sym_name ← lift (read_str walk m (P a (strtab + name)));
        resolved ← resolve sym_name;
        if resolved =? 0 then
          PeSetELFImportMissingProcError (Some sym_name);; pe_free source;; pe_free alloc;; mret false
        else
          m ← get_ram;
          put_ram (apply_rela type image addend resolved patch m);;
          elf64_relas n' (rela + 24) syms symcount strtab source alloc image span base
      else
        let sym := if (si <? symcount) && negb (value =? 0)
                   then P a (image + (if base <=? value then value - base else value)) else 0 in
        put_ram (apply_rela type image addend sym patch m);;
        elf64_relas n' (rela + 24) syms symcount strtab source alloc image span base
  end.

Fixpoint elf64_rela_sections (n : nat) (h image_data size syms symcount strtab source alloc image span base : Z) : loader S bool :=
  match n with
  | O => mret true
  | Datatypes.S n' =>
      m ← get_ram;
      if negb (ld32 m (h + 4) =? 4) || (size <? u64 (ld64 m (h + 24) + ld64 m (h + 32)))
      then elf64_rela_sections n' (h + 64) image_data size syms symcount strtab source alloc image span base else
      ok ← elf64_relas (Z.to_nat (u32 (ld64 m (h + 32) / 24))) (P a (image_data + ld64 m (h + 24))) syms symcount strtab
             source alloc image span base;
      if negb ok then mret false
      else elf64_rela_sections n' (h + 64) image_data size syms symcount strtab source alloc image span base
  end.

Definition elf64_relocate (image_data size source alloc image span base : Z) : loader S bool :=
  m ← get_ram;
  let shoff := ld64 m (image_data + 40) in
  if (shoff =? 0) || (size <? u64 (shoff + ld16 m (image_data + 60) * ld16 m (image_data + 58))) then mret true else
  let sh := P a (image_data + shoff) in
  let '(symsec, strtab) := elf64_dynamic m image_data size sh in
  if (symsec =? 0) || (strtab =? 0) then mret true else
  elf64_rela_sections (Z.to_nat (ld16 m (image_data + 60))) sh image_data size (P a (image_data + ld64 m (symsec + 24)))
    (u32 (ld64 m (symsec + 32) / 24)) strtab source alloc image span base.

Definition PeLoadELF64 (image_data size : Z) : loader S Z :=
  m ← get_ram;
  let base := PeGetELF64LoadBase a m image_data in
  let phoff := ld64 m (image_data + 32) in
  let phnum := ld16 m (image_data + 56) in
  let phentsize := ld16 m (image_data + 54) in
  if negb (ld16 m (image_data + 18) =? elf64_machine) || (phentsize <? 56) then mret 0 else
  if (size <=? phoff) || (size <? u64 (phoff + phnum * phentsize)) then mret 0 else
  let ph := P a (image_data + phoff) in
  match elf64_end (Z.to_nat phnum) ph size 0 m with
  | None => mret 0
  | Some mem_end =>
      if (mem_end <=? base) || (268435456 <? mem_end - base) then mret 0 else
      let span := mem_end - base in
      let slack := match a with LA64 => 65535 | X86 | AMD64 => 0 end in
      alloc_base ← pe_malloc (u32 (sizeof_RUNTIME a + span + slack));
      if alloc_base =? 0 then mret 0 else
      let image := match a with
                   | LA64 => u64 (alloc_base + sizeof_RUNTIME a + 65535) / 65536 * 65536
                   | X86 | AMD64 => alloc_base + sizeof_RUNTIME a
                   end in
      let runtime := image - sizeof_RUNTIME a in
      source_copy ← pe_malloc size;
      if source_copy =? 0 then pe_free alloc_base;; mret 0 else
      m ← get_ram;
      let m := memcpy source_copy image_data size m in
      let m := fill_runtime runtime PE_RUNTIME_FLAG_ELF span base source_copy alloc_base size m in
      let m := upd m (runtime + rt_elf_class a) 2 in
      let m := memset image 0 span m in
      let '(fits, m) := elf64_segments (Z.to_nat phnum) ph image_data image span base m in
      put_ram m;;
      if negb fits then pe_free source_copy;; pe_free alloc_base;; mret 0 else
      ok ← elf64_relocate image_data size source_copy alloc_base image span base;
      if negb ok then mret 0 else mret image
  end.

Definition PeLoadELF (image_data size : Z) : loader S Z :=
  m ← get_ram;
  if ld8 m (image_data + 4) =? 2 then PeLoadELF64 image_data size else PeLoadELF32 image_data size.

Definition PeLoadImage (image_data size : Z) : loader S Z :=
  if size <? 64 then mret 0 else
  m ← get_ram;
  if ld32 m image_data =? ELF_MAGIC then PeLoadELF image_data size else PeLoadPE image_data size.

End load.

(** ** Symbols and libraries *)
Section dll.
Context {S : Type} `{Kernel S} (a : arch) (walk : nat).
(** The kernel's export table, and running [DllMain] of the image at an address. *)
Context (kernel_exports : list (list Z * Z)) (call_dllmain : Z -> Z -> loader S unit).
Implicit Types st : pe S.

Definition core_dlls : list (list Z) := map cstr
  ["NTDLL.DLL"; "KERNEL32.DLL"; "ADVAPI32.DLL"; "GDI32.DLL"; "USER32.DLL"; "OLE32.DLL"; "OLEAUT32.DLL"; "D3D9.DLL";
   "DDRAW.DLL"; "DSOUND.DLL"; "RPCRT4.DLL"; "SHELL32.DLL"; "SHLWAPI.DLL"; "COMCTL32.DLL"; "COMDLG32.DLL"]%string.

Definition KernelResolveExport (name : list Z) : Z :=
  match name with
  | [] => 0
  | _ => match find (fun e => bool_decide (fst e = name)) kernel_exports with Some e => snd e | None => 0 end
  end.

Definition get_proc (image : Z) (name : list Z) : loader S Z :=
  m ← get_ram; lift (PeGetProcAddress a walk m image (ByName name)).

(** The first image of the list that exports the name. *)
Fixpoint first_proc (images : list Z) (name : list Z) : loader S Z :=
  match images with
  | [] => mret 0
  | i :: images => addr ← get_proc i name; if negb (addr =? 0) then mret addr else first_proc images name
  end.

Definition PeFindLoadedDllSymbol (name : list Z) : loader S Z :=
  st ← get_state; first_proc (map image_base (dll_list st)) name.

Definition DriverResolveSymbol (name : list Z) : loader S Z :=
  st ← get_state; first_proc (map snd (loaded_drivers st)) name.

Definition PeGetLoadedModuleHandle (name : list Z) st : Z :=
  match name with
  | [] => 0
  | _ => match find (fun d => pe_name_equals_ignore_case (dll_name d) name) (dll_list st) with
         | Some d => image_base d
         | None => 0
         end
  end.

Fixpoint PeFindCoreDllSymbol (dlls : list (list Z)) (name : list Z) : loader S Z :=
  match dlls with
  | [] => mret 0
  | d :: dlls =>
      st ← get_state;
      let image := PeGetLoadedModuleHandle d st in
      if image =? 0 then PeFindCoreDllSymbol dlls name else
      addr ← get_proc image name;
      if negb (addr =? 0) then mret addr else PeFindCoreDllSymbol dlls name
  end.

Section resolve.
(** [PeLoadDll]. *)
Context (load_dll : list Z -> loader S Z).

Definition set_loading (c : option (list Z)) : loader S unit := st ← get_state; put_loading c (pe_loading_stack st).

Fixpoint load_providers (outer : option (list Z)) (dlls : list (list Z)) : loader S unit :=
  match dlls with
  | [] => mret tt
  | d :: dlls =>
      if match outer with Some o => pe_name_equals_ignore_case o d | None => false end then load_providers outer dlls
      else load_dll d;; set_loading outer;; load_providers outer dlls
  end.

Definition PeResolveExternalSymbol (name : list Z) : loader S Z :=
  match name with
  | [] => mret 0
  | _ =>
      st ← get_state;
      let addr := KernelResolveExport name in
      if negb (addr =? 0) then mret addr else
      if pe_loading_driver st then DriverResolveSymbol name else
      addr ← PeFindCoreDllSymbol core_dlls name;
      if negb (addr =? 0) then mret addr else
      addr ← DriverResolveSymbol name;
      if negb (addr =? 0) then mret addr else
      load_providers (pe_current_loading_dll st) core_dlls;;
      addr ← PeFindCoreDllSymbol core_dlls name;
      if negb (addr =? 0) then mret addr else
      addr ← DriverResolveSymbol name;
      if negb (addr =? 0) then mret addr else
      PeFindLoadedDllSymbol name
  end.

Definition KernelResolveSymbol (name : list Z) : loader S Z :=
  match name with
  | [] => mret 0
  | _ =>
      let addr := KernelResolveExport name in
      if negb (addr =? 0) then mret addr else
      addr ← PeResolveExternalSymbol name;
      if negb (addr =? 0) then mret addr else DriverResolveSymbol name
  end.

(** One import of a library: the slot and whether it is missing. *)
Fixpoint import_functions (fuel : nat) (image dll_base : Z) (dll_name : list Z) (lookup iat missing : Z) : loader S Z :=
  match fuel with
  | O => lift None
  | Datatypes.S fuel' =>
      m ← get_ram;
      let l := ld32 m lookup in
      if l =? 0 then mret missing else
      if negb (Z.land l 2147483648 =? 0) then import_functions fuel' image dll_base dll_name (lookup + 4) (iat + 4) missing else
      func_name ← lift (read_str walk m (P a (image + Z.land l 2147483647) + 2));
      addr ← (if dll_base =? 0 then mret 0 else lift (PeGetProcAddress a walk m dll_base (ByName func_name)));
      put_ram (st32 m iat (u32 addr));;
      if negb (addr =? 0) then import_functions fuel' image dll_base dll_name (lookup + 4) (iat + 4) missing else
      st ← get_state;
      (match pe_last_error st with
       | [] => if dll_base =? 0 then PeSetImportMissingDllError (Some dll_name)
               else PeSetImportMissingProcError (Some dll_name) (Some func_name)
       | _ => mret tt
       end);;
      import_functions fuel' image dll_base dll_name (lookup + 4) (iat + 4) (missing + 1)
  end.

Fixpoint import_dlls (fuel : nat) (image import missing : Z) : loader S Z :=
  match fuel with
  | O => lift None
  | Datatypes.S fuel' =>
      m ← get_ram;
      if ld32 m (import + 12) =? 0 then mret missing else
      dll_name ← lift (read_str walk m (P a (image + ld32 m (import + 12))));
      dll_base ← load_dll dll_name;
      m ← get_ram;
      let table := if ld32 m import =? 0 then ld32 m (import + 16) else ld32 m import in
      missing ← import_functions walk image dll_base dll_name (P a (image + table)) (P a (image + ld32 m (import + 16))) missing;
      import_dlls fuel' image (import + 20) missing
  end.

Definition PeResolveImports (image : Z) : loader S bool :=
  if image =? 0 then mret false else
  m ← get_ram;
  if ld32 m image =? ELF_MAGIC then mret true else
  PeClearLastError;;
  let opt := P a (image + ld32 m (image + 60) + 24) in
  if ld32 m (opt + 92) <? 2 then mret true else
  let import_rva := ld32 m (opt + 96 + 8) in
  if import_rva =? 0 then mret true else
  missing ← import_dlls walk image (P a (image + import_rva)) 0;
  mret (s32 missing =? 0).

End resolve.

Definition upper_name (dll_name : list Z) : list Z :=
  map (fun c => if (97 <=? s8 c) && (s8 c <=? 122) then u8 (c - 32) else c) (take 127 dll_name).

Definition set_entry (at_ entry : Z) (l : list LOADED_DLL) : list LOADED_DLL :=
  map (fun d => if dll_at d =? at_ then mkDll (dll_at d) (dll_name d) (dll_path d) (image_base d) entry else d) l.

(** The record of a library whose image is at [image], and what follows once
    its imports have been resolved by [load_dll]. *)
Definition register_dll (load_dll : list Z -> loader S Z) (name path : list Z) (image : Z) : loader S Z :=
  new_dll ← pe_malloc (sizeof_LOADED_DLL a);
  if new_dll =? 0 then PeFreeImage a image;; mret 0 else
  (* strcpy into name[64] and path[128] *)
  (if (64 <=? Z.of_nat (length name)) || (128 <=? Z.of_nat (length path)) then lift None else mret tt);;
  st ← get_state;
  let next := dll_list st in
  put_dlls (mkDll new_dll name path image 0 :: next);;
  m ← get_ram;
  put_ram (PeSetImagePath a m image (Some path));;
  ok ← PeResolveImports load_dll image;
  if negb ok then put_dlls next;; pe_free new_dll;; PeFreeImage a image;; mret 0 else
  m ← get_ram;
  m ← lift (PePerformRelocations a walk image m);
  put_ram m;;
  let entry := PeGetEntryPoint a m image in
  entry ← (if (entry =? 0) && PeIsELFImage a m image then get_proc image (cstr "DllMain") else mret entry);
  (if entry =? 0 then mret tt else call_dllmain entry image);;
  st ← get_state;
  put_dlls (set_entry new_dll entry (dll_list st));;
  mret image.

Fixpoint PeLoadDll (fuel : nat) (name : list Z) : loader S Z :=
  match fuel with
  | O => lift None
  | Datatypes.S fuel' =>
      st ← get_state;
      match find (fun d => bool_decide (dll_name d = name)) (dll_list st) with
      | Some d => mret (image_base d)
      | None =>
          if existsb (fun n => pe_name_equals_ignore_case n name) (pe_loading_stack st) then mret 0 else
          let in_system := cstr "DISCOUNT/SYSTEM32/" ++ upper_name name in
          let in_apps := cstr "DISCOUNT/APPS/" ++ upper_name name in
          r ← read_file in_system;
          r' ← (match r with Some f => mret (Some (f, in_system))
                | None => r2 ← read_file in_apps; mret (match r2 with Some f => Some (f, in_apps) | None => None end)
                end);
          match r' with
          | None => mret 0
          | Some (file_buf, file_size, path) =>
              st ← get_state;
              if 16 <=? Z.of_nat (length (pe_loading_stack st)) then pe_free file_buf;; mret 0 else
              (* strcpy into pe_loading_stack[depth][128] *)
              (if 128 <=? Z.of_nat (length name) then lift None else mret tt);;
              let previous := pe_current_loading_dll st in
              put_loading (Some name) (pe_loading_stack st ++ [name]);;
              image ← PeLoadImage a walk (PeResolveExternalSymbol (PeLoadDll fuel')) file_buf file_size;
              st ← get_state;
              put_loading previous (removelast (pe_loading_stack st));;
              pe_free file_buf;;
              if image =? 0 then mret 0 else register_dll (PeLoadDll fuel') name path image
          end
      end
  end.

End dll.

End Pe.
