(* ===== verification/PeSpec.v ===== *)
(** * What the image loader does

    The theorems about [Pe]: the image a PE file is loaded to, its relocation,
    the lookup of its exports, and what loading libraries leaves of the
    loader's own state; then a library of 428 bytes they are applied to. *)

From stdpp Require Import base list numbers strings.
From Stdlib Require Import ZArith Lia.
From S2P Require Import Prelude.
From S2P Require Import Util.
From S2P Require Import Ram.
From S2P Require Import Pe.
Import Util Pe.

Module PeSpec.

(** * PE images

    What a PE file says its image is: headers, then the sections in order, each
    over what came before. *)
Definition word (a : arch) : Z := match a with X86 => 4294967296 | AMD64 | LA64 => 18446744073709551616 end.

Lemma P_small a x : 0 <= x < word a -> P a x = x.
Proof. intros Hx. unfold P, usize, word in *. destruct a; (apply u32_small || apply u64_small); done. Qed.

Record section := mkSection { sec_dest : Z; sec_len : Z; sec_src : Z }.

Definition section_at (m : mem) (h : Z) : section := mkSection (ld32 m (h + 12)) (ld32 m (h + 16)) (ld32 m (h + 20)).
Fixpoint sections_at (m : mem) (h : Z) (n : nat) : list section :=
  match n with O => [] | S n' => section_at m h :: sections_at m (h + 40) n' end.

Definition covers (size image_size : Z) (s : section) (k : Z) : bool :=
  (sec_src s + sec_len s <=? size) && (sec_dest s + sec_len s <=? image_size) && (sec_dest s <=? k) && (k <? sec_dest s + sec_len s).

(** Byte [k] of the image of the file at [d] in [m]. *)
Definition overlay (m : mem) (d size image_size : Z) (secs : list section) (under : Z -> Z) : Z -> Z :=
  fold_left (fun (f : Z -> Z) (s : section) k => if covers size image_size s k then m (d + sec_src s + (k - sec_dest s)) else f k) secs under.

Definition pe_header_size (m : mem) (d size : Z) : Z := Z.min size (ld32 m (d + ld32 m (d + 60) + 24 + 60)).
Definition pe_image_size (m : mem) (d : Z) : Z := ld32 m (d + ld32 m (d + 60) + 24 + 56).
Definition pe_table (m : mem) (d : Z) : Z := d + ld32 m (d + 60) + 24 + ld16 m (d + ld32 m (d + 60) + 20).
Definition pe_section_count (m : mem) (d : Z) : nat := Z.to_nat (ld16 m (d + ld32 m (d + 60) + 6)).
Definition pe_sections (m : mem) (d : Z) : list section := sections_at m (pe_table m d) (pe_section_count m d).

Definition pe_contents (m : mem) (d size : Z) : Z -> Z :=
  overlay m d size (pe_image_size m d) (pe_sections m d) (fun k => if k <? pe_header_size m d size then m (d + k) else 0).

(** A PE32 file of [size] bytes at [d]: its headers lie inside it, and no size
    in them wraps. *)
Record pe_file (m : mem) (d size : Z) : Prop := {
  pf_size : 64 <= size < 4294967296;
  pf_mz : ld16 m d = 23117;
  pf_headers : ld32 m (d + 60) + 120 <= size;
  pf_signature : ld32 m (d + ld32 m (d + 60)) = 17744;
  pf_magic : ld16 m (d + ld32 m (d + 60) + 24) = 267;
  pf_table : pe_table m d + 40 * Z.of_nat (pe_section_count m d) <= d + size;
  pf_image : 0 < pe_image_size m d <= 16777216;
  pf_header_size : pe_header_size m d size <= pe_image_size m d;
  pf_sections : Forall (fun s => sec_src s + sec_len s < 4294967296 /\ sec_dest s + sec_len s < 4294967296) (pe_sections m d)
}.

Section pe_load.
Context (a : arch) (m0 : mem) (d size image N : Z).
Context (Hbytes : forall x, 0 <= m0 x < 256).
Context (Hd : 0 <= d /\ d + size <= word a) (Hi : 0 <= image /\ image + N <= word a).
Context (Hapart : d + size <= image \/ image + N <= d).

Lemma section_range m h : (forall x, 0 <= m x < 256) ->
  0 <= sec_dest (section_at m h) < 4294967296 /\ 0 <= sec_len (section_at m h) < 4294967296 /\ 0 <= sec_src (section_at m h) < 4294967296.
Proof. intros Hm. cbn. repeat split; apply (ldn_range 4); done. Qed.

(** The section loop lays the sections over the image and touches nothing else. *)
Lemma copy_sections_ok n : forall h m f,
  d <= h -> h + 40 * Z.of_nat n <= d + size ->
  (forall x, d <= x < d + size -> m x = m0 x) -> (forall k, 0 <= k < N -> m (image + k) = f k) ->
  Forall (fun s => sec_src s + sec_len s < 4294967296 /\ sec_dest s + sec_len s < 4294967296) (sections_at m0 h n) ->
  let m' := copy_sections a n h d size image N m in
  (forall k, 0 <= k < N -> m' (image + k) = overlay m0 d size N (sections_at m0 h n) f k) /\
  (forall x, x < image \/ image + N <= x -> m' x = m x).
Proof.
  induction n as [|n IH]; intros h m f Hlo Hhi Hsrc Himg Hsec; [done|]. cbn [copy_sections sections_at].
  inversion Hsec as [|? ? [Hw1 Hw2] Hrest]; subst.
  assert (Hf : forall o, 0 <= o <= 36 -> ld32 m (h + o) = ld32 m0 (h + o)).
  { intros o Ho. apply ldn_ext. intros j Hj. apply Hsrc. lia. }
  rewrite !Hf by lia. pose proof (section_range m0 h Hbytes) as (Hr1 & Hr2 & Hr3).
  change (ld32 m0 (h + 12)) with (sec_dest (section_at m0 h)). change (ld32 m0 (h + 16)) with (sec_len (section_at m0 h)).
  change (ld32 m0 (h + 20)) with (sec_src (section_at m0 h)). set (s := section_at m0 h) in *.
  rewrite !u32_small by (unfold is_u32; lia).
  match goal with |- context [copy_sections a n (h + 40) d size image N ?x] => set (m1 := x) end.
  assert (Hm1 : forall x, m1 x = if (image <=? x) && (x <? image + N) && covers size N s (x - image) then m (d + sec_src s + (x - image - sec_dest s)) else m x).
  { intros x. unfold m1, covers. destruct (Z.ltb_spec 0 (sec_len s)); cbn [andb].
    - destruct (Z.leb_spec (sec_src s + sec_len s) size); cbn [andb]; [|by rewrite andb_false_r].
      destruct (Z.leb_spec (sec_dest s + sec_len s) N); cbn [andb]; [|by rewrite andb_false_r].
      rewrite !P_small by lia. unfold memcpy. rewrite memcpy_loop_spec, Z2Nat.id by lia.
      zbool; cbn; try lia; f_equal; lia.
    - zbool; cbn; try lia; done. }
  destruct (IH (h + 40) m1 (fun k => if covers size N s k then m0 (d + sec_src s + (k - sec_dest s)) else f k)) as [E1 E2]; [lia|lia|..|done|].
  - intros x Hx. rewrite Hm1, <- Hsrc by done.
    assert ((image <=? x) && (x <? image + N) = false) as -> by (zbool; cbn; done || lia). done.
  - intros k Hk. rewrite Hm1. rewrite (proj2 (Z.leb_le _ _)), (proj2 (Z.ltb_lt _ _)) by lia. cbn [andb].
    replace (image + k - image) with k by lia. destruct (covers size N s k) eqn:E; [|by apply Himg].
    apply Hsrc. unfold covers in E. rewrite !andb_true_iff, !Z.leb_le, Z.ltb_lt in E. lia.
  - split; [exact E1|]. intros x Hx. rewrite E2, Hm1 by done.
    assert ((image <=? x) && (x <? image + N) = false) as -> by (zbool; cbn; done || lia). done.
Qed.

End pe_load.

Lemma ldn_upd_ne n m p q v : p + Z.of_nat n <= q \/ q < p -> ldn n (upd m q v) p = ldn n m p.
Proof. intros Hq. apply ldn_ext. intros i Hi. unfold upd. destruct (Z.eqb_spec (p + i) q); [lia|done]. Qed.

Lemma ld32_low m p : (forall x, 0 <= m x < 256) -> ld32 m p mod 65536 = ld16 m p.
Proof.
  intros Hm. cbn [ldn]. pose proof (Hm p). pose proof (Hm (p + 1)). pose proof (Hm (p + 1 + 1)). pose proof (Hm (p + 1 + 1 + 1)).
  Z.div_mod_to_equations. lia.
Qed.

Ltac runtime_offsets a := unfold ldp, stp, rt_magic, rt_flags, rt_image_size, rt_elf_base_vaddr, rt_source_image, rt_allocation_base,
  rt_source_size, rt_image_path, rt_elf_class, sizeof_RUNTIME, ptr_bytes in *; destruct a.

(** The header holds what was put in it, and nothing outside it changed. *)
Lemma fill_runtime_ok a r flags n base source alloc ssize m :
  0 <= flags < 4294967296 -> 0 <= n < 4294967296 -> 0 <= base < word a -> 0 <= source < word a -> 0 <= alloc < word a ->
  let m' := fill_runtime a r flags n base source alloc ssize m in
  ld32 m' r = PE_RUNTIME_MAGIC /\ ld32 m' (r + rt_flags) = flags /\ ld32 m' (r + rt_image_size) = n /\
  ldp a m' (r + rt_elf_base_vaddr a) = base /\ ldp a m' (r + rt_source_image a) = source /\
  ldp a m' (r + rt_allocation_base a) = alloc /\
  (forall x, x < r \/ r + sizeof_RUNTIME a <= x -> m' x = m x).
Proof.
  intros Hfl Hn Hb Hs Ha m'. unfold m', fill_runtime. clear m'.
  runtime_offsets a; unfold word, PE_RUNTIME_MAGIC in *; rewrite (Z.add_0_r r).
  all: repeat split; try (repeat first [rewrite ldn_upd_ne by lia | rewrite ldn_stn_ne by lia]; rewrite ldn_stn by (cbn; lia); done).
  all: try (intros x Hx; unfold upd; rewrite (proj2 (Z.eqb_neq x _)) by lia; rewrite !stn_out by lia; done).
Qed.

Section pe_load_image.
Context {S : Type} `{Kernel S} (a : arch) (walk : nat) (resolve : list Z -> loader S Z).

(** The memory [PeLoadPE] leaves: block [B] with header and image. *)
Definition pe_memory (m : mem) (d size B : Z) : mem :=
  let N := pe_image_size m d in
  let image := B + sizeof_RUNTIME a in
  let m1 := memset image 0 N (fill_runtime a B 0 N 0 0 B 0 m) in
  let m2 := memcpy image d (pe_header_size m d size) m1 in
  copy_sections a (pe_section_count m d) (pe_table m d) d size image N m2.

(** A file of 64 bytes or more that starts like a PE file and whose headers are
    inside it is accepted, and loading it computes [pe_memory]. *)
Lemma PeLoadImage_runs d size st B k1 :
  let m := k_ram (kernel st) in
  (forall x, 0 <= m x < 256) -> pe_file m d size -> 0 <= d -> d + size < word a ->
  k_malloc (sizeof_RUNTIME a + pe_image_size m d) (kernel st) = Some (B, k1) -> 0 < B ->
  B + sizeof_RUNTIME a + pe_image_size m d <= word a ->
  d + size <= B \/ B + sizeof_RUNTIME a + pe_image_size m d <= d ->
  PeLoadImage a walk resolve d size st =
  Some (B + sizeof_RUNTIME a, set_kernel (set_kernel st k1) (k_set_ram (pe_memory m d size B) k1)).
Proof.
  intros m Hm Hf Hd Hdw Ea HB HBw Hap. pose proof Hf as [Hsz Hmz Hh Hsig Hmag Htab Himg Hhs Hsec].
  set (N := pe_image_size m d) in *. set (e := ld32 m (d + 60)) in *. set (R := sizeof_RUNTIME a) in *.
  assert (He : 0 <= e < 4294967296) by apply (ldn_range 4 m (d + 60) Hm).
  assert (HR : 0 < R <= 176) by (unfold R, sizeof_RUNTIME; destruct a; lia).
  unfold PeLoadImage, PeLoadPE, mbind, loader_bind, mret, loader_ret, get_ram, pe_malloc, put_ram. fold m.
  rewrite (proj2 (Z.ltb_ge size 64)) by lia. cbv beta. fold m.
  assert (ld32 m d <> ELF_MAGIC) as Hne.
  { intros E. pose proof (ld32_low m d Hm) as Hl. rewrite E, Hmz in Hl. done. }
  rewrite (proj2 (Z.eqb_neq _ _) Hne). cbv beta. fold m. rewrite Hmz. cbn [Z.eqb negb Pos.eqb]. fold e.
  rewrite (u32_small (e + 4)), (proj2 (Z.ltb_ge size (e + 4))) by (unfold is_u32; lia).
  rewrite (P_small a (d + e)) by lia. rewrite Hsig. cbn [Z.eqb negb Pos.eqb].
  rewrite (P_small a (d + e + 24)) by lia. rewrite Hmag. cbn [Z.eqb negb Pos.eqb].
  change (ld32 m (d + e + 24 + 56)) with N.
  rewrite (proj2 (Z.eqb_neq N 0)), (proj2 (Z.ltb_ge 16777216 N)) by lia. cbn [orb].
  fold R. rewrite u32_small by (unfold is_u32; lia). rewrite Ea. cbn [mbind option_bind]. rewrite (proj2 (Z.eqb_neq B 0)) by lia.
  cbn [kernel set_kernel]. rewrite (k_ram_malloc _ _ _ _ Ea). fold m.
  destruct (fill_runtime_ok a B 0 N 0 0 B 0 m) as (_ & _ & _ & _ & _ & _ & Hout); [lia.. |unfold word in *; destruct a; lia|
    unfold word in *; destruct a; lia | unfold word in *; destruct a; lia|].
  set (m1 := memset (B + R) 0 N (fill_runtime a B 0 N 0 0 B 0 m)).
  assert (Hm1 : forall x, d <= x < d + size -> m1 x = m x).
  { intros x Hx. unfold m1, memset. rewrite memset_loop_spec, Z2Nat.id by lia.
    assert ((B + R <=? x) && (x <? B + R + N) = false) as -> by (zbool; cbn; done || lia). apply Hout. lia. }
  assert (Hld : forall n o, 0 <= o -> o + Z.of_nat n <= size -> ldn n m1 (d + o) = ldn n m (d + o)).
  { intros n o Ho Hn. apply ldn_ext. intros j Hj. apply Hm1. lia. }
  assert (E60 : ld32 m1 (d + e + 24 + 60) = ld32 m (d + e + 24 + 60)).
  { replace (d + e + 24 + 60) with (d + (e + 84)) by lia. apply Hld; lia. }
  rewrite E60.
  replace (if size <? ld32 m (d + e + 24 + 60) then size else ld32 m (d + e + 24 + 60)) with (pe_header_size m d size)
    by (unfold pe_header_size; fold e; destruct (Z.ltb_spec size (ld32 m (d + e + 24 + 60))); lia).
  set (m2 := memcpy (B + R) d (pe_header_size m d size) m1).
  assert (Hhs0 : 0 <= pe_header_size m d size).
  { unfold pe_header_size. fold e. pose proof (ldn_range 4 m (d + e + 24 + 60) Hm). cbn in *. lia. }
  assert (Hm2 : forall x, d <= x < d + size -> m2 x = m x).
  { intros x Hx. unfold m2, memcpy. rewrite memcpy_loop_spec, Z2Nat.id by (unfold pe_header_size in *; lia).
    assert ((B + R <=? x) && (x <? B + R + pe_header_size m d size) = false) as -> by (zbool; cbn; done || lia). by apply Hm1. }
  assert (Hld2 : forall n o, 0 <= o -> o + Z.of_nat n <= size -> ldn n m2 (d + o) = ldn n m (d + o)).
  { intros n o Ho Hn. apply ldn_ext. intros j Hj. apply Hm2. lia. }
  replace (d + e + 20) with (d + (e + 20)) by lia. replace (d + e + 6) with (d + (e + 6)) by lia. rewrite !Hld2 by lia.
  replace (d + (e + 20)) with (d + e + 20) by lia. replace (d + (e + 6)) with (d + e + 6) by lia.
  pose proof (ldn_range 2 m (d + e + 20) Hm) as Ho. pose proof Htab as Htab'. unfold pe_table in Htab'. fold e in Htab'. change (256 ^ Z.of_nat 2) with 65536 in Ho.
  rewrite P_small by lia. done.
Qed.

Lemma pe_memory_ok m d size B :
  (forall x, 0 <= m x < 256) -> pe_file m d size -> 0 <= d -> d + size < word a -> 0 < B ->
  let N := pe_image_size m d in let image := B + sizeof_RUNTIME a in
  image + N <= word a -> d + size <= B \/ image + N <= d ->
  let m' := pe_memory m d size B in
  (forall k, 0 <= k < N -> m' (image + k) = pe_contents m d size k) /\
  (forall x, x < image \/ image + N <= x -> m' x = fill_runtime a B 0 N 0 0 B 0 m x).
Proof.
  intros Hm Hf Hd Hdw HB N image Hw Hap m'. pose proof Hf as [Hsz Hmz Hh Hsig Hmag Htab Himg Hhs Hsec].
  assert (HR : 0 < sizeof_RUNTIME a) by (unfold sizeof_RUNTIME; destruct a; lia).
  destruct (fill_runtime_ok a B 0 N 0 0 B 0 m) as (_ & _ & _ & _ & _ & _ & Hout); [unfold image, N in *; lia..|].
  pose proof (ldn_range 4 m (d + 60) Hm) as He. change (256 ^ Z.of_nat 4) with 4294967296 in He.
  pose proof (ldn_range 4 m (d + ld32 m (d + 60) + 24 + 60) Hm) as He'. change (256 ^ Z.of_nat 4) with 4294967296 in He'.
  assert (Hhs0 : 0 <= pe_header_size m d size <= size) by (unfold pe_header_size; lia).
  pose proof (ldn_range 2 m (d + ld32 m (d + 60) + 20) Hm) as Ho. change (256 ^ Z.of_nat 2) with 65536 in Ho.
  assert (Htab0 : d <= pe_table m d) by (unfold pe_table; lia).
  assert (HBi : B < image) by (unfold image; lia).
  unfold m', pe_memory. fold N. fold image.
  set (m1 := memset image 0 N _). set (m2 := memcpy image d _ m1).
  assert (Hm1 : forall x, m1 x = if (image <=? x) && (x <? image + N) then 0 else fill_runtime a B 0 N 0 0 B 0 m x).
  { intros x. unfold m1, memset. rewrite memset_loop_spec, Z2Nat.id by lia. done. }
  assert (Hm2 : forall x, m2 x = if (image <=? x) && (x <? image + pe_header_size m d size) then m1 (d + (x - image)) else m1 x).
  { intros x. unfold m2, memcpy. rewrite memcpy_loop_spec, Z2Nat.id by lia. done. }
  assert (Hsrc1 : forall x, d <= x < d + size -> m1 x = m x).
  { intros x Hx. rewrite Hm1. assert ((image <=? x) && (x <? image + N) = false) as -> by (zbool; cbn; done || lia). apply Hout. lia. }
  destruct (copy_sections_ok a m d size image N Hm ltac:(lia) ltac:(lia) ltac:(lia) (pe_section_count m d) (pe_table m d) m2
    (fun k => if k <? pe_header_size m d size then m (d + k) else 0)) as [E1 E2]; [lia | lia | | | exact Hsec |].
  - intros x Hx. rewrite Hm2. assert ((image <=? x) && (x <? image + pe_header_size m d size) = false) as -> by (zbool; cbn; done || lia).
    by apply Hsrc1.
  - intros k Hk. rewrite Hm2. rewrite (proj2 (Z.leb_le image (image + k))) by lia. cbn [andb].
    replace (image + k <? image + pe_header_size m d size) with (k <? pe_header_size m d size) by (zbool; done || lia).
    destruct (Z.ltb_spec k (pe_header_size m d size)).
    + rewrite Hsrc1 by lia. f_equal. lia.
    + rewrite Hm1, (proj2 (Z.leb_le _ _)), (proj2 (Z.ltb_lt _ _)) by lia. done.
  - split; [exact E1|]. intros x Hx. rewrite E2, Hm2 by done.
    assert ((image <=? x) && (x <? image + pe_header_size m d size) = false) as -> by (zbool; cbn; done || lia).
    rewrite Hm1. assert ((image <=? x) && (x <? image + N) = false) as -> by (zbool; cbn; done || lia). done.
Qed.

(** C14. Loading a well-formed PE32 file: the image is the file's headers with its
    sections laid over them in order and zeros elsewhere; the block in front of
    it is a runtime header that the loader recognises and that names the
    allocation; and no other byte of memory changes. *)
Theorem PeLoadImage_correct (d size : Z) (st : pe S) (B : Z) (k1 : S) :
  let m := k_ram (kernel st) in
  let N := pe_image_size m d in
  (forall x, 0 <= m x < 256) -> pe_file m d size -> 0 <= d -> d + size < word a ->
  k_malloc (sizeof_RUNTIME a + N) (kernel st) = Some (B, k1) -> 0 < B -> B + sizeof_RUNTIME a + N <= word a ->
  d + size <= B \/ B + sizeof_RUNTIME a + N <= d ->
  exists st', PeLoadImage a walk resolve d size st = Some (B + sizeof_RUNTIME a, st') /\
    dll_list st' = dll_list st /\ let m' := k_ram (kernel st') in
    (forall k, 0 <= k < N -> m' (B + sizeof_RUNTIME a + k) = pe_contents m d size k) /\
    (forall x, x < B \/ B + sizeof_RUNTIME a + N <= x -> m' x = m x) /\
    PeGetRuntimeHeader a m' (B + sizeof_RUNTIME a) = B /\ ld32 m' (B + rt_flags) = 0 /\ ld32 m' (B + rt_image_size) = N /\
    ldp a m' (B + rt_source_image a) = 0 /\ ldp a m' (B + rt_allocation_base a) = B.
Proof.
  intros m N Hm Hf Hd Hdw Ea HB Hw Hap.
  rewrite (PeLoadImage_runs d size st B k1) by done. eexists. split; [reflexivity|]. split; [done|].
  cbn [kernel set_kernel]. rewrite k_ram_set. fold m.
  destruct (pe_memory_ok m d size B Hm Hf Hd Hdw HB Hw Hap) as [E1 E2]. fold N in E1, E2.
  assert (HR : 160 <= sizeof_RUNTIME a) by (unfold sizeof_RUNTIME; destruct a; lia).
  pose proof (pf_image _ _ _ Hf) as Himg. fold N in Himg.
  destruct (fill_runtime_ok a B 0 N 0 0 B 0 m) as (F1 & F2 & F3 & _ & F5 & F6 & Hout); [lia..|].
  set (m' := pe_memory m d size B) in *.
  assert (Hld : forall n o, 0 <= o -> o + Z.of_nat n <= sizeof_RUNTIME a -> ldn n m' (B + o) = ldn n (fill_runtime a B 0 N 0 0 B 0 m) (B + o)).
  { intros n o Ho Hn. apply ldn_ext. intros j Hj. apply E2. lia. }
  split; [exact E1|]. split; [|split; [|repeat split]].
  - intros x Hx. rewrite E2 by lia. apply Hout. lia.
  - unfold PeGetRuntimeHeader. rewrite (proj2 (Z.eqb_neq _ 0)) by lia.
    replace (B + sizeof_RUNTIME a - sizeof_RUNTIME a) with B by lia. rewrite P_small by lia.
    rewrite <- (Z.add_0_r B) at 1. rewrite Hld, Z.add_0_r, F1 by lia. done.
  - rewrite Hld; [exact F2 | unfold rt_flags; lia | unfold rt_flags; cbn; lia].
  - rewrite Hld; [exact F3 | unfold rt_image_size; lia | unfold rt_image_size; cbn; lia].
  - unfold ldp in *. rewrite Hld; [exact F5 | unfold rt_source_image; destruct a; lia | unfold rt_source_image, ptr_bytes, sizeof_RUNTIME; destruct a; cbn; lia].
  - unfold ldp in *. rewrite Hld; [exact F6 | unfold rt_allocation_base; destruct a; lia | unfold rt_allocation_base, ptr_bytes, sizeof_RUNTIME; destruct a; cbn; lia].
Qed.

End pe_load_image.

(** * Base relocations *)

(** Adding [delta] to the words at [slots], one after the other. *)
Definition relocate (delta : Z) (slots : list Z) (m : mem) : mem :=
  fold_left (fun (m : mem) p => st32 m p (u32 (ld32 m p + delta))) slots m.

(** A block of the relocation table: a page and its entries. *)
Record reloc_page := mkPage { page_rva : Z; page_entries : list Z }.

Definition page_bytes (b : reloc_page) : Z := 8 + 2 * Z.of_nat (length (page_entries b)).
Fixpoint table_bytes (bs : list reloc_page) : Z := match bs with [] => 0 | b :: bs => page_bytes b + table_bytes bs end.

Fixpoint entries_at (m : mem) (p : Z) (es : list Z) : Prop :=
  match es with [] => True | e :: es => ld16 m p = e /\ entries_at m (p + 2) es end.

Fixpoint table_at (m : mem) (p : Z) (bs : list reloc_page) : Prop :=
  match bs with
  | [] => True
  | b :: bs => ld32 m p = page_rva b /\ ld32 m (p + 4) = page_bytes b /\ entries_at m (p + 8) (page_entries b) /\
               table_at m (p + page_bytes b) bs
  end.

(** The words that HIGHLOW entries (type 3) name. *)
Definition entry_slots (a : arch) (image rva : Z) (es : list Z) : list Z :=
  map (fun e => P a (image + rva + Z.land e 4095)) (filter (fun e => Z.shiftr e 12 = 3) es).
Definition table_slots (a : arch) (image : Z) (bs : list reloc_page) : list Z :=
  flat_map (fun b => entry_slots a image (page_rva b) (page_entries b)) bs.

Definition apart (lo hi : Z) (p : Z) : Prop := p + 4 <= lo \/ hi <= p.

Lemma relocate_out delta slots m x : Forall (fun p => x < p \/ p + 4 <= x) slots -> relocate delta slots m x = m x.
Proof.
  intros Hs. revert m. induction Hs as [|p slots Hp _ IH]; intros m; [done|].
  change (relocate delta (p :: slots) m) with (relocate delta slots (st32 m p (u32 (ld32 m p + delta)))).
  rewrite IH. apply stn_out. lia.
Qed.

Lemma relocate_table delta slots lo hi m : Forall (apart lo hi) slots -> forall x, lo <= x < hi -> relocate delta slots m x = m x.
Proof. intros Hs x Hx. apply relocate_out. eapply Forall_impl; [exact Hs|]. unfold apart. intros p Hp. lia. Qed.

(** Each word of a list of separate words moves by [delta]. *)
Lemma relocate_slots delta slots m p :
  ForallOrdPairs (fun p q => p + 4 <= q \/ q + 4 <= p) slots -> p ∈ slots ->
  ld32 (relocate delta slots m) p = u32 (ld32 m p + delta).
Proof.
  intros Hs. revert m. induction Hs as [|q slots Hq Hs IH]; intros m Hp; [by apply elem_of_nil in Hp|].
  apply elem_of_cons in Hp as [-> | Hp].
  - rewrite (ldn_ext 4 _ (st32 m q (u32 (ld32 m q + delta)))).
    + apply ldn_stn. apply u32_range.
    + intros i Hi. apply (relocate_out delta slots). eapply Forall_impl; [exact Hq|]. cbn. intros r Hr. lia.
  - change (relocate delta (q :: slots) m) with (relocate delta slots (st32 m q (u32 (ld32 m q + delta)))).
    rewrite IH by done. f_equal. f_equal. apply ldn_stn_ne. rewrite Forall_forall in Hq. specialize (Hq p Hp). lia.
Qed.

Section relocs.
Context (a : arch) (image delta lo hi : Z) (m0 : mem).
Context (Hhi : 0 <= lo /\ hi < word a).

Lemma reloc_block_ok rva es : forall p m,
  (forall x, lo <= x < hi -> m x = m0 x) -> lo <= p -> p + 2 * Z.of_nat (length es) <= hi -> entries_at m0 p es ->
  Forall (apart lo hi) (entry_slots a image rva es) ->
  reloc_block a (length es) image rva delta p m = relocate delta (entry_slots a image rva es) m.
Proof.
  induction es as [|e es IH]; intros p m Hm Hp Hl He Ha; [done|]. cbn [length reloc_block] in *. destruct He as [He Hes].
  assert (ld16 m p = e) as ->.
  { rewrite <- He. apply ldn_ext. intros i Hi. apply Hm. lia. }
  unfold reloc_entry, entry_slots in *. rewrite filter_cons in Ha |- *.
  destruct (decide (Z.shiftr e 12 = 3)) as [E|E].
  - rewrite (proj2 (Z.eqb_eq _ _) E). cbn [map] in *. inversion Ha as [|? ? Hslot Ha']; subst. rewrite IH; [done | | lia | lia | done | done].
    intros x Hx. rewrite <- Hm by done. apply stn_out. unfold apart in Hslot. lia.
  - rewrite (proj2 (Z.eqb_neq _ _) E). apply IH; [done | lia | lia | done | done].
Qed.

Lemma reloc_loop_ok bs : forall walk p m,
  (forall x, lo <= x < hi -> m x = m0 x) -> lo <= p -> p + table_bytes bs = hi -> table_at m0 p bs ->
  Forall (fun b => page_bytes b < 4294967296) bs -> (length bs <= walk)%nat ->
  Forall (apart lo hi) (table_slots a image bs) ->
  reloc_loop a walk image delta p hi m = Some (relocate delta (table_slots a image bs) m).
Proof.
  induction bs as [|b bs IH]; intros walk p m Hm Hp Hl Ht Hb Hw Ha.
  { cbn in Hl. destruct walk; cbn [reloc_loop]; rewrite (proj2 (Z.ltb_ge p hi)) by lia; done. }
  destruct walk as [|walk]; [cbn in Hw; lia|]. cbn [table_bytes] in Hl. destruct Ht as (Hrva & Hsz & He & Ht).
  apply Forall_cons in Hb as [Hb0 Hb']. cbn [table_slots flat_map] in Ha. apply Forall_app in Ha as [Ha1 Ha2].
  assert (Hpos : 0 <= table_bytes bs).
  { clear. induction bs as [|c bs IH]; cbn [table_bytes]; [lia|]. unfold page_bytes. lia. }
  assert (Hpb : 8 <= page_bytes b) by (unfold page_bytes; lia).
  cbn [reloc_loop]. rewrite (proj2 (Z.ltb_lt p hi)) by lia. cbn [negb].
  assert (ld32 m p = page_rva b) as ->.
  { rewrite <- Hrva. apply ldn_ext. intros i Hi. apply Hm. lia. }
  assert (ld32 m (p + 4) = page_bytes b) as ->.
  { rewrite <- Hsz. apply ldn_ext. intros i Hi. apply Hm. lia. }
  rewrite (proj2 (Z.eqb_neq (page_bytes b) 0)) by lia.
  assert (s32 (u32 (page_bytes b - 8) / 2) = Z.of_nat (length (page_entries b))) as -> by (unfold page_bytes in *; zlia).
  rewrite Nat2Z.id, !P_small by (unfold page_bytes in *; lia).
  rewrite reloc_block_ok by (done || unfold page_bytes in *; lia).
  rewrite IH; [unfold relocate, table_slots; cbn [flat_map]; by rewrite fold_left_app | | lia | lia | done | done | cbn in Hw; lia | done].
  intros x Hx. rewrite <- Hm by done. by eapply relocate_table.
Qed.

End relocs.

(** What the headers of a loaded PE image at [image] say about relocation. *)
Record reloc_image (a : arch) (m : mem) (image : Z) (bs : list reloc_page) : Prop := {
  ri_base : 0 < image;
  ri_pe : ld32 m image <> ELF_MAGIC;
  ri_opt : image + ld32 m (image + 60) + 24 < word a;
  ri_dirs : let opt := image + ld32 m (image + 60) + 24 in
    5 < ld32 m (opt + 92) /\ 0 < ld32 m (opt + 96 + 40) /\ 0 < ld32 m (opt + 96 + 44) /\
    ld32 m (opt + 96 + 44) = table_bytes bs /\ table_at m (image + ld32 m (opt + 96 + 40)) bs /\
    image + ld32 m (opt + 96 + 40) + table_bytes bs < word a /\
    Forall (apart (image + ld32 m (opt + 96 + 40)) (image + ld32 m (opt + 96 + 40) + table_bytes bs)) (table_slots a image bs);
  ri_sizes : Forall (fun b => page_bytes b < 4294967296) bs;
  ri_slots : ForallOrdPairs (fun p q => p + 4 <= q \/ q + 4 <= p) (table_slots a image bs)
}.

(** How far the image is from where it was linked. *)
Definition image_delta (m : mem) (image : Z) : Z :=
  s32 (u32 (u32 image - ld32 m (image + ld32 m (image + 60) + 24 + 28))).

(** C28. Relocating a loaded PE image adds the distance from its linked base to
    exactly the words its relocation table names, and changes no other byte;
    as many turns as the table has blocks are enough. *)
Theorem PePerformRelocations_correct (a : arch) (walk : nat) (image : Z) (m : mem) (bs : list reloc_page) :
  (forall x, 0 <= m x < 256) -> reloc_image a m image bs -> (length bs <= walk)%nat ->
  exists m', PePerformRelocations a walk image m = Some m' /\
    (forall p, p ∈ table_slots a image bs -> ld32 m' p = u32 (ld32 m p + image_delta m image)) /\
    (forall x, (forall p, p ∈ table_slots a image bs -> x < p \/ p + 4 <= x) -> m' x = m x).
Proof.
  intros Hm [Hb Hpe Hopt Hd Hsz Hsl] Hw. unfold PePerformRelocations, image_delta.
  pose proof (ldn_range 4 m (image + 60) Hm) as He.
  rewrite (proj2 (Z.eqb_neq image 0)), (proj2 (Z.eqb_neq _ _) Hpe) by lia. cbn [orb].
  rewrite P_small by lia. set (opt := image + ld32 m (image + 60) + 24) in *. cbv zeta in Hd.
  destruct Hd as (H92 & Hrva & Hsize & Esize & Ht & Hend & Hap).
  set (delta := s32 (u32 (u32 image - ld32 m (opt + 28)))).
  destruct (Z.eqb_spec delta 0) as [E0|E0].
  { exists m. split; [done|]. split; [|done]. intros p _. rewrite E0, Z.add_0_r. symmetry. apply u32_small.
    pose proof (ldn_range 4 m p Hm) as Hr. change (256 ^ Z.of_nat 4) with 4294967296 in Hr. exact Hr. }
  rewrite (proj2 (Z.leb_gt _ _) H92), !(proj2 (Z.eqb_neq _ 0)) by lia. cbn [orb].
  rewrite (P_small a (image + _)) by lia. rewrite Esize, P_small by lia.
  rewrite (reloc_loop_ok a image delta (image + ld32 m (opt + 96 + 40)) (image + ld32 m (opt + 96 + 40) + table_bytes bs) m ltac:(lia) bs)
    by (done || lia).
  eexists. split; [reflexivity|]. split.
  - intros p Hp. by apply relocate_slots.
  - intros x Hx. apply relocate_out. rewrite Forall_forall. intros p Hp. by apply Hx.
Qed.

(** * Exports *)

(** A name against a request, as strings: the same, or the same once a leading
    underscore of either and the part from '@' on are taken off. *)
Definition strip_underscore (s : list Z) : list Z := match s with c :: r => if c =? 95 then r else s | [] => [] end.
Fixpoint before_at (s : list Z) : list Z := match s with [] => [] | c :: s => if c =? 64 then [] else c :: before_at s end.
Definition export_matches (name request : list Z) : bool :=
  bool_decide (name = request) || bool_decide (before_at (strip_underscore name) = strip_underscore request).

Lemma decorated_spec m p name request :
  cstring name -> cstring request -> Forall (fun c => c <> 64) request -> str_at m p name = true ->
  decorated m p request = bool_decide (before_at name = request).
Proof.
  intros Hn. revert p request. induction Hn as [|c name Hc Hn IH]; intros p request Hr H64 E; cbn [str_at] in E.
  - apply Z.eqb_eq in E. destruct request as [|d request]; cbn [decorated before_at]; rewrite E; done.
  - apply andb_true_iff in E as [E%Z.eqb_eq E']. cbn [before_at].
    destruct request as [|d request]; cbn [decorated]; rewrite E, (proj2 (Z.eqb_neq c 0)) by lia; cbn [orb].
    + destruct (Z.eqb_spec c 64) as [->|Hne]; [done|]. symmetry. by apply bool_decide_false.
    + destruct (Z.eqb_spec c 64) as [->|Hne]; [symmetry; by apply bool_decide_false|].
      apply Forall_cons in Hr as [Hd Hr]. apply Forall_cons in H64 as [_ H64]. rewrite (IH _ _ Hr H64 E').
      destruct (Z.eqb_spec d c) as [->|Hdc]; cbn [andb].
      * apply bool_decide_ext. split; [by intros ->|by intros [= ->]].
      * symmetry. apply bool_decide_false. congruence.
Qed.

Lemma decorated_match_spec m p name request :
  cstring name -> cstring request -> Forall (fun c => c <> 64) request -> str_at m p name = true ->
  str_at m p request || decorated_match m p request = export_matches name request.
Proof.
  intros Hn Hr H64 E. unfold export_matches, decorated_match. rewrite (str_at_eq m p request name Hr Hn E).
  f_equal; [apply bool_decide_ext; split; congruence|].
  change (match request with c :: rest => if c =? 95 then rest else request | [] => [] end) with (strip_underscore request).
  assert (Hs : cstring (strip_underscore request) /\ Forall (fun c => c <> 64) (strip_underscore request)).
  { destruct request as [|c request]; [done|]. cbn. destruct (c =? 95); [|done].
    apply Forall_cons in Hr as [_ Hr]. apply Forall_cons in H64 as [_ H64]. done. }
  destruct Hs as [Hs Hs64]. destruct Hn as [|c name Hc Hn].
  - cbn in E. apply Z.eqb_eq in E. rewrite E. cbn [Z.eqb]. apply decorated_spec; [constructor | done | done | by cbn; rewrite E].
  - pose proof E as E0. cbn [str_at] in E0. apply andb_true_iff in E0 as [E1%Z.eqb_eq E2]. rewrite E1. cbn [strip_underscore].
    destruct (c =? 95); apply decorated_spec; try done. by constructor.
Qed.

(** The export directory at [exp] of the image at [dll] lists these names and
    the addresses they lead to. *)
Fixpoint exports_at (a : arch) (m : mem) (dll functions names ordinals i : Z) (l : list (list Z * Z)) : Prop :=
  match l with
  | [] => True
  | (name, addr) :: l =>
      str_at m (P a (dll + ld32 m (names + 4 * i))) name = true /\ cstring name /\
      addr = P a (dll + ld32 m (functions + 4 * ld16 m (ordinals + 2 * i))) /\
      exports_at a m dll functions names ordinals (i + 1) l
  end.

Fixpoint lookup_export (l : list (list Z * Z)) (request : list Z) : Z :=
  match l with [] => 0 | (name, addr) :: l => if export_matches name request then addr else lookup_export l request end.

Lemma find_export_spec a m dll functions names ordinals request l : forall i,
  cstring request -> Forall (fun c => c <> 64) request -> exports_at a m dll functions names ordinals i l ->
  find_export a (length l) i m dll functions names ordinals request = lookup_export l request.
Proof.
  induction l as [|[name addr] l IH]; intros i Hr H64 He; [done|]. destruct He as (Hs & Hn & -> & He).
  cbn [length find_export lookup_export]. rewrite (decorated_match_spec m _ name request Hn Hr H64 Hs).
  destruct (export_matches name request); [done|]. by apply IH.
Qed.

(** Looking up a name in a PE library gives the address of its first export
    whose name is the request, or is its stdcall decoration ([_Name@N]), and 0
    when there is none. *)
Theorem PeGetProcAddress_correct (a : arch) (walk : nat) (m : mem) (dll : Z) (request : list Z) (l : list (list Z * Z)) :
  let opt := P a (dll + ld32 m (dll + 60) + 24) in
  let exp := P a (dll + ld32 m (opt + 96)) in
  0 < dll -> ld32 m dll <> ELF_MAGIC ->
  (PeGetRuntimeHeader a m dll = 0 \/ Z.land (ld32 m (PeGetRuntimeHeader a m dll + rt_flags)) PE_RUNTIME_FLAG_ELF = 0) ->
  1 <= ld32 m (opt + 92) -> ld32 m (opt + 96) <> 0 -> ld32 m (exp + 24) = Z.of_nat (length l) ->
  exports_at a m dll (P a (dll + ld32 m (exp + 28))) (P a (dll + ld32 m (exp + 32))) (P a (dll + ld32 m (exp + 36))) 0 l ->
  cstring request -> Forall (fun c => c <> 64) request ->
  PeGetProcAddress a walk m dll (ByName request) = Some (lookup_export l request).
Proof.
  intros opt exp Hd Hne Hrt Hn Hx Hc Hl Hr H64. unfold PeGetProcAddress. rewrite (proj2 (Z.eqb_neq dll 0)) by lia.
  assert (negb (PeGetRuntimeHeader a m dll =? 0) && negb (Z.land (ld32 m (PeGetRuntimeHeader a m dll + rt_flags)) PE_RUNTIME_FLAG_ELF =? 0) = false) as ->
    by (destruct Hrt as [-> | ->]; [done | apply andb_false_r]).
  rewrite (proj2 (Z.eqb_neq _ _) Hne). fold opt. rewrite (proj2 (Z.ltb_ge _ 1)), (proj2 (Z.eqb_neq _ _) Hx) by lia. fold exp.
  rewrite Hc, Nat2Z.id. f_equal. by apply find_export_spec.
Qed.

(** * What loading leaves of the loader's own state *)
Definition dll_key (d : LOADED_DLL) : list Z * Z := (dll_name d, image_base d).
Definition dll_keys {S} (st : pe S) : list (list Z * Z) := map dll_key (dll_list st).

(** Libraries that are loaded stay so, behind the new ones; the loading stack
    and what is being loaded are as before. *)
Definition kept {S} (st st' : pe S) : Prop :=
  pe_loading_stack st' = pe_loading_stack st /\ pe_current_loading_dll st' = pe_current_loading_dll st /\
  pe_loading_driver st' = pe_loading_driver st /\ loaded_drivers st' = loaded_drivers st /\
  exists new, dll_keys st' = new ++ dll_keys st.

#[global] Instance kept_preorder {S} : PreOrder (@kept S).
Proof.
  split.
  - intros st. do 4 (split; [done|]). by exists [].
  - intros st1 st2 st3 (E1 & E2 & E3 & E4 & n1 & E5) (F1 & F2 & F3 & F4 & n2 & F5).
    do 4 (split; [congruence|]). exists (n2 ++ n1). by rewrite F5, E5, app_assoc.
Qed.

Definition keeps {S A} (f : loader S A) : Prop := forall st x st', f st = Some (x, st') -> kept st st'.

Lemma keeps_bind {S A B} (f : loader S A) (g : A -> loader S B) : keeps f -> (forall x, keeps (g x)) -> keeps (f ≫= g).
Proof.
  intros Hf Hg st y st'. unfold mbind, loader_bind. destruct (f st) as [[x st1]|] eqn:E; [|done]. intros E'.
  transitivity st1; [by eapply Hf | by eapply Hg].
Qed.

Lemma bind_Some {S A B} (f : loader S A) (g : A -> loader S B) st y st' :
  (f ≫= g) st = Some (y, st') -> exists x st1, f st = Some (x, st1) /\ g x st1 = Some (y, st').
Proof. unfold mbind, loader_bind. destruct (f st) as [[x st1]|]; [|done]. by exists x, st1. Qed.

Lemma keeps_ret {S A} (x : A) : keeps (S := S) (mret x).
Proof. intros st y st' [= <- <-]. done. Qed.

(** An operation that changes the kernel and the error text only. *)
Lemma keeps_kernel {S A} (f : loader S A) :
  (forall st x st', f st = Some (x, st') -> exists k e, st' = mkPe k (dll_list st) e (pe_current_loading_dll st)
     (pe_loading_stack st) (pe_loading_driver st) (loaded_drivers st)) -> keeps f.
Proof. intros Hf st x st' E. destruct (Hf _ _ _ E) as (k & e & ->). do 4 (split; [done|]). by exists []. Qed.

(** The same, seen from a state [st0] before. *)
Definition keeps_from {S A} (st0 : pe S) (f : loader S A) : Prop :=
  forall st x st', kept st0 st -> f st = Some (x, st') -> kept st0 st'.

Lemma keeps_from_keeps {S A} (st0 : pe S) (f : loader S A) : keeps f -> keeps_from st0 f.
Proof. intros Hf st x st' Hk E. transitivity st; [done | by eapply Hf]. Qed.

Lemma keeps_from_bind {S A B} (st0 : pe S) (f : loader S A) (g : A -> loader S B) :
  keeps_from st0 f -> (forall x, keeps_from st0 (g x)) -> keeps_from st0 (f ≫= g).
Proof.
  intros Hf Hg st y st' Hk. unfold mbind, loader_bind. destruct (f st) as [[x st1]|] eqn:E; [|done]. intros E'.
  eapply Hg; [|exact E']. by eapply Hf.
Qed.

(** A loader that begins by looking at the state. *)
Lemma keeps_state {S A} (g : pe S -> loader S A) : (forall st0, keeps_from st0 (g st0)) -> keeps (get_state ≫= g).
Proof. intros Hg st x st'. unfold mbind, loader_bind, get_state. intros E. eapply Hg; [|exact E]. done. Qed.

Create HintDb keeps.
#[export] Hint Resolve keeps_ret : keeps.

Section keeps.
Context {S : Type} `{Kernel S}.

Ltac kernel_op := apply keeps_kernel; intros st x st'; unfold get_ram, put_ram, pe_malloc, pe_free, read_file, lift, get_state, put_error;
  cbn [mbind option_bind]; repeat (case_match; try done); intros [= <- <-]; destruct st; by eexists _, _.

Lemma keeps_get_ram : keeps (S := S) get_ram. Proof. kernel_op. Qed.
Lemma keeps_get_state : keeps (S := S) get_state. Proof. kernel_op. Qed.
Lemma keeps_put_ram m : keeps (S := S) (put_ram m). Proof. kernel_op. Qed.
Lemma keeps_put_error e : keeps (S := S) (put_error e). Proof. kernel_op. Qed.
Lemma keeps_lift {A} (x : option A) : keeps (S := S) (lift x).
Proof. apply keeps_kernel. intros st y st'. unfold lift. destruct x; cbn; [|done]. intros [= <- <-]. destruct st. by eexists _, _. Qed.
Lemma keeps_pe_malloc n : keeps (S := S) (pe_malloc n).
Proof. apply keeps_kernel. intros st y st'. unfold pe_malloc. destruct (k_malloc _ _) as [[]|]; cbn; [|done]. intros [= <- <-]. by eexists _, _. Qed.
Lemma keeps_pe_free n : keeps (S := S) (pe_free n).
Proof. apply keeps_kernel. intros st y st'. unfold pe_free. destruct (k_free _ _); cbn; [|done]. intros [= <- <-]. by eexists _, _. Qed.
Lemma keeps_read_file n : keeps (S := S) (read_file n).
Proof. apply keeps_kernel. intros st y st'. unfold read_file. destruct (k_read_file _ _) as [[]|]; cbn; [|done]. intros [= <- <-]. by eexists _, _. Qed.

End keeps.
#[export] Hint Resolve keeps_get_ram keeps_get_state keeps_put_ram keeps_put_error keeps_lift keeps_pe_malloc keeps_pe_free keeps_read_file : keeps.

(** Follow the binds and the branches of a loader. *)
Ltac keep := repeat first
  [ done | solve [eauto 2 with keeps] | apply keeps_bind; [|intros ?] | case_match ].

Section keeps_load.
Context {S : Type} `{Kernel S}.

Lemma keeps_PeFreeImage a image : keeps (S := S) (PeFreeImage a image).
Proof. unfold PeFreeImage. keep. Qed.

Lemma keeps_PeLoadPE a d size : keeps (S := S) (PeLoadPE a d size).
Proof. unfold PeLoadPE. keep. Qed.

Context (resolve : list Z -> loader S Z) (Hres : forall n, keeps (resolve n)).
#[local] Hint Resolve Hres : keeps.

Lemma keeps_elf32_relocs a walk n : forall r y t s al i sz b, keeps (elf32_relocs a walk resolve n r y t s al i sz b).
Proof. induction n as [|n IH]; intros; cbn [elf32_relocs]; unfold PeSetELFImportMissingProcError; keep. Qed.
#[local] Hint Resolve keeps_elf32_relocs : keeps.

Lemma keeps_elf32_rel_sections a walk n : forall h d size sh s al i sz b, keeps (elf32_rel_sections a walk resolve n h d size sh s al i sz b).
Proof. induction n as [|n IH]; intros; cbn [elf32_rel_sections]; keep. Qed.
#[local] Hint Resolve keeps_elf32_rel_sections : keeps.

Lemma keeps_PeLoadELF32 a walk d size : keeps (PeLoadELF32 a walk resolve d size).
Proof. unfold PeLoadELF32. keep. Qed.

Lemma keeps_elf64_relas a walk n : forall r y c t s al i sp b, keeps (elf64_relas a walk resolve n r y c t s al i sp b).
Proof. induction n as [|n IH]; intros; cbn [elf64_relas]; unfold PeSetELFImportMissingProcError; keep. Qed.
#[local] Hint Resolve keeps_elf64_relas : keeps.

Lemma keeps_elf64_rela_sections a walk n : forall h d size y c t s al i sp b, keeps (elf64_rela_sections a walk resolve n h d size y c t s al i sp b).
Proof. induction n as [|n IH]; intros; cbn [elf64_rela_sections]; keep. Qed.
#[local] Hint Resolve keeps_elf64_rela_sections : keeps.

Lemma keeps_PeLoadELF64 a walk d size : keeps (PeLoadELF64 a walk resolve d size).
Proof. unfold PeLoadELF64, elf64_relocate. keep. Qed.
#[local] Hint Resolve keeps_PeLoadELF32 keeps_PeLoadELF64 keeps_PeLoadPE : keeps.

Lemma keeps_PeLoadImage a walk d size : keeps (PeLoadImage a walk resolve d size).
Proof. unfold PeLoadImage, PeLoadELF. keep. Qed.

End keeps_load.

#[export] Hint Resolve keeps_PeFreeImage keeps_PeLoadImage : keeps.

Section keeps_dll.
Context {S : Type} `{Kernel S} (a : arch) (walk : nat) (kernel_exports : list (list Z * Z)).
Context (call_dllmain : Z -> Z -> loader S unit) (Hmain : forall e i, keeps (call_dllmain e i)).

Lemma keeps_get_proc i n : keeps (S := S) (get_proc a walk i n).
Proof. unfold get_proc. keep. Qed.
#[local] Hint Resolve keeps_get_proc : keeps.

Lemma keeps_first_proc is_ n : keeps (S := S) (first_proc a walk is_ n).
Proof. induction is_ as [|i is_ IH]; cbn [first_proc]; keep. Qed.
#[local] Hint Resolve keeps_first_proc : keeps.

Lemma keeps_core ds n : keeps (S := S) (PeFindCoreDllSymbol a walk ds n).
Proof. induction ds as [|d ds IH]; cbn [PeFindCoreDllSymbol]; keep. Qed.
#[local] Hint Resolve keeps_core : keeps.

Section load.
Context (load_dll : list Z -> loader S Z) (Hload : forall n, keeps (load_dll n)).
#[local] Hint Resolve Hload Hmain : keeps.

(** Setting what is being loaded to what it was keeps the state. *)
Lemma keeps_load_providers st0 ds : keeps_from st0 (load_providers load_dll (pe_current_loading_dll st0) ds).
Proof.
  induction ds as [|d ds IH]; cbn [load_providers]; [by apply keeps_from_keeps, keeps_ret|].
  destruct (match pe_current_loading_dll st0 with Some o => _ | None => false end); [done|].
  apply keeps_from_bind; [by apply keeps_from_keeps|]. intros _. apply keeps_from_bind; [|done].
  intros st x st' (K1 & K2 & K3 & K4 & K5) [= <- <-]. by do 4 (split; [done|]).
Qed.

Lemma keeps_resolve n : keeps (PeResolveExternalSymbol a walk kernel_exports load_dll n).
Proof.
  unfold PeResolveExternalSymbol, DriverResolveSymbol, PeFindLoadedDllSymbol. destruct n as [|c n]; [keep|].
  apply keeps_state. intros st0. case_match; [by apply keeps_from_keeps, keeps_ret|].
  case_match; [apply keeps_from_keeps; keep|].
  repeat first [apply keeps_load_providers | solve [apply keeps_from_keeps; eauto 2 with keeps]
    | apply keeps_from_bind; [|intros ?] | solve [apply keeps_from_keeps; keep] | case_match].
Qed.

Lemma keeps_import_functions n : forall i b d l t k, keeps (import_functions a walk n i b d l t k).
Proof.
  induction n as [|n IH]; intros; cbn [import_functions]; unfold PeSetImportMissingDllError, PeSetImportMissingProcError; keep.
Qed.
#[local] Hint Resolve keeps_import_functions : keeps.

Lemma keeps_import_dlls n : forall i p k, keeps (import_dlls a walk load_dll n i p k).
Proof. induction n as [|n IH]; intros; cbn [import_dlls]; keep. Qed.
#[local] Hint Resolve keeps_import_dlls : keeps.

Lemma keeps_PeResolveImports i : keeps (PeResolveImports a walk load_dll i).
Proof. unfold PeResolveImports, PeClearLastError. keep. Qed.

(** A library that is registered is in the list when that ends well. *)
Definition dll_result (st : pe S) (name : list Z) (image : Z) (st' : pe S) : Prop :=
  kept st st' /\ (image <> 0 -> (name, image) ∈ dll_keys st').

Lemma set_entry_keys at_ e l : map dll_key (set_entry at_ e l) = map dll_key l.
Proof. unfold set_entry. rewrite map_map. apply map_ext. intros d. by destruct (dll_at d =? at_). Qed.

(** Replacing the list by one that still ends in the old one. *)
Lemma kept_put_dlls (st0 st : pe S) l new :
  kept st0 st -> map dll_key l = new ++ dll_keys st0 ->
  kept st0 (mkPe (kernel st) l (pe_last_error st) (pe_current_loading_dll st) (pe_loading_stack st) (pe_loading_driver st) (loaded_drivers st)).
Proof. intros (K1 & K2 & K3 & K4 & K5) E. do 4 (split; [done|]). by exists new. Qed.

Lemma register_dll_result name path image st x st' :
  register_dll a walk call_dllmain load_dll name path image st = Some (x, st') -> dll_result st name x st'.
Proof.
  unfold register_dll, dll_result. intros E. apply bind_Some in E as (p & st1 & E1 & E).
  pose proof (keeps_pe_malloc _ _ _ _ E1) as K1. destruct (p =? 0).
  { apply bind_Some in E as (u & st2 & E2 & E). injection E as <- <-. split; [|done]. transitivity st1; [done|].
    by eapply keeps_PeFreeImage. }
  apply bind_Some in E as (u & st2 & E2 & E). assert (K2 : kept st st2).
  { transitivity st1; [done|]. destruct (_ || _) in E2; [by eapply keeps_lift | by eapply keeps_ret]. }
  apply bind_Some in E as (? & ? & [= <- <-] & E). apply bind_Some in E as (? & st3 & [= _ <-] & E).
  set (st3 := mkPe _ _ _ _ _ _ _) in E. set (next := dll_list st2) in *.
  assert (K3 : kept st st3).
  { destruct K2 as (K21 & K22 & K23 & K24 & new & K25). eapply (kept_put_dlls _ st2); [by do 4 (split; [done|]); exists new|].
    cbn [map]. fold next. change (map dll_key next) with (dll_keys st2). rewrite K25. by rewrite app_comm_cons. }
  assert (Hin : (name, image) ∈ dll_keys st3) by (cbn; by left).
  apply bind_Some in E as (? & ? & [= <- <-] & E). apply bind_Some in E as (? & st4 & E4 & E).
  apply bind_Some in E as (ok & st5 & E5 & E).
  assert (K5 : kept st3 st5) by (transitivity st4; [by eapply keeps_put_ram | by eapply keeps_PeResolveImports]).
  destruct (negb ok).
  { apply bind_Some in E as (? & st6 & [= _ <-] & E). set (st6 := mkPe _ _ _ _ _ _ _) in E.
    apply bind_Some in E as (? & st7 & E7 & E). apply bind_Some in E as (? & st8 & E8 & E). injection E as <- <-.
    split; [|done]. transitivity st6; [|transitivity st7; [by eapply keeps_pe_free | by eapply keeps_PeFreeImage]].
    destruct K2 as (_ & _ & _ & _ & new & K25). eapply (kept_put_dlls _ st5); [by transitivity st3|]. exact K25. }
  apply bind_Some in E as (? & ? & [= <- <-] & E). apply bind_Some in E as (m & st6 & E6 & E).
  apply bind_Some in E as (? & st7 & E7 & E). apply bind_Some in E as (entry & st8 & E8 & E).
  apply bind_Some in E as (? & st9 & E9 & E). apply bind_Some in E as (? & ? & [= <- <-] & E).
  apply bind_Some in E as (? & st10 & [= _ <-] & E). injection E as <- <-.
  assert (K9 : kept st3 st9).
  { transitivity st5; [done|]. transitivity st6; [by eapply keeps_lift|]. transitivity st7; [by eapply keeps_put_ram|].
    transitivity st8; [destruct (_ && _) in E8; [by eapply keeps_get_proc | by eapply keeps_ret]|].
    destruct (entry =? 0) in E9; [by eapply keeps_ret | by eapply Hmain]. }
  set (st10 := mkPe _ _ _ _ _ _ _).
  assert (K10 : kept st3 st10).
  { destruct K9 as (K91 & K92 & K93 & K94 & new & K95). eapply (kept_put_dlls _ st9); [by do 4 (split; [done|]); exists new|].
    rewrite set_entry_keys. exact K95. }
  split; [by transitivity st3|]. intros _. destruct K10 as (_ & _ & _ & _ & new & ->). apply elem_of_app. by right.
Qed.

End load.

(** From the load of the image to its registration: the name is on the stack
    while the image is built, and off it again afterwards. *)
Lemma PeLoadDll_result fuel : forall name st x st',
  PeLoadDll a walk kernel_exports call_dllmain fuel name st = Some (x, st') -> dll_result st name x st'.
Proof.
  induction fuel as [|fuel IH]; intros name st x st' E; [done|]. cbn [PeLoadDll] in E.
  assert (Hload : forall n, keeps (PeLoadDll a walk kernel_exports call_dllmain fuel n)) by (intros n s y s' Es; by eapply IH).
  apply bind_Some in E as (? & ? & [= <- <-] & E).
  destruct (find _ _) as [d|] eqn:Ef.
  { injection E as <- <-. split; [done|]. intros _. apply find_some in Ef as [Hin Hd]. apply bool_decide_eq_true in Hd. subst name.
    unfold dll_keys. change (dll_name d, image_base d) with (dll_key d). apply list_elem_of_In, in_map; done. }
  clear Ef. destruct (existsb _ _); [by injection E as <- <-|].
  apply bind_Some in E as (r & st1 & E1 & E). apply bind_Some in E as (r' & st2 & E2 & E).
  assert (K2 : kept st st2).
  { transitivity st1; [by eapply keeps_read_file|]. destruct r; [by eapply keeps_ret|].
    apply bind_Some in E2 as (r2 & st3 & E3 & E2). injection E2 as _ <-. by eapply keeps_read_file. }
  destruct r' as [[[file_buf file_size] path]|]; [|by injection E as <- <-].
  apply bind_Some in E as (? & ? & [= <- <-] & E).
  destruct (16 <=? _).
  { apply bind_Some in E as (? & st3 & E3 & E). injection E as <- <-. split; [|done]. transitivity st2; [done|]. by eapply keeps_pe_free. }
  apply bind_Some in E as (? & st3 & E3 & E).
  assert (st3 = st2) as -> by (destruct (128 <=? _) in E3; [done | by injection E3 as _ ->]).
  apply bind_Some in E as (? & st4 & [= _ <-] & E). set (st4 := mkPe _ _ _ _ _ _ _) in E.
  apply bind_Some in E as (image & st5 & E5 & E). apply bind_Some in E as (? & ? & [= <- <-] & E).
  apply bind_Some in E as (? & st6 & [= _ <-] & E). set (st6 := mkPe _ _ _ _ _ _ _) in E.
  assert (K5 : kept st4 st5).
  { eapply keeps_PeLoadImage; [|exact E5]. intros n. by apply keeps_resolve. }
  assert (K6 : kept st st6).
  { transitivity st2; [done|]. destruct K5 as (F1 & F2 & F3 & F4 & F5). cbn in F1, F2, F3, F4.
    split; [cbn; by rewrite F1, removelast_last|]. by do 3 (split; [done|]). }
  apply bind_Some in E as (? & st7 & E7 & E). assert (K7 : kept st st7) by (transitivity st6; [done | by eapply keeps_pe_free]).
  destruct (image =? 0); [by injection E as <- <-|].
  destruct (register_dll_result _ Hload name path image st7 x st' E) as [K8 Hin].
  split; [by transitivity st7 | done].
Qed.

(** Loading a library keeps the loader's state straight: whatever it loads on
    the way, and whether it succeeds or not, the loading stack and the library
    being loaded are what they were, every library loaded before is still
    there, and a library it returns is in the list under its name.  This is about loads that
    return, with entry points that leave the loader's state alone. *)
Theorem PeLoadDll_keeps (fuel : nat) (name : list Z) (st : pe S) (image : Z) (st' : pe S) :
  PeLoadDll a walk kernel_exports call_dllmain fuel name st = Some (image, st') ->
  pe_loading_stack st' = pe_loading_stack st /\ pe_current_loading_dll st' = pe_current_loading_dll st /\
  (exists new, dll_keys st' = new ++ dll_keys st) /\ (image <> 0 -> (name, image) ∈ dll_keys st').
Proof.
  intros E. destruct (PeLoadDll_result _ _ _ _ _ E) as [(K1 & K2 & _ & _ & K5) Hin]. done.
Qed.

End keeps_dll.

(** * A small library

    One section, one export ([_Ping@4], at the section's start) and one word to
    relocate; linked at 0x400000, 428 bytes long. *)
Definition bytes_le (n : nat) (x : Z) : list Z := map (fun i => x / 256 ^ i mod 256) (seqZ 0 (Z.of_nat n)).

Definition tiny_headers (dest len : Z) : list Z :=
  [77; 90] ++ replicate 58 0 ++ bytes_le 4 64
  ++ [80; 69; 0; 0] ++ bytes_le 2 332 ++ bytes_le 2 1 ++ replicate 12 0 ++ bytes_le 2 224 ++ [0; 0]
  ++ bytes_le 2 267 ++ replicate 26 0 ++ bytes_le 4 4194304 ++ replicate 24 0 ++ bytes_le 4 512 ++ bytes_le 4 352
  ++ replicate 28 0 ++ bytes_le 4 16 ++ bytes_le 4 356 ++ bytes_le 4 40 ++ replicate 32 0 ++ bytes_le 4 416 ++ bytes_le 4 12
  ++ replicate 80 0
  ++ cstr ".text" ++ [0; 0; 0] ++ bytes_le 4 76 ++ bytes_le 4 dest ++ bytes_le 4 len ++ bytes_le 4 352 ++ replicate 16 0.

Definition tiny_body : list Z :=
  bytes_le 4 4194320
  ++ replicate 16 0 ++ bytes_le 4 1 ++ bytes_le 4 1 ++ bytes_le 4 1 ++ bytes_le 4 396 ++ bytes_le 4 400 ++ bytes_le 4 404
  ++ bytes_le 4 352 ++ bytes_le 4 406 ++ bytes_le 2 0 ++ cstr "_Ping@4" ++ [0; 0; 0]
  ++ bytes_le 4 0 ++ bytes_le 4 12 ++ bytes_le 2 12640 ++ bytes_le 2 0.

Definition tiny_file : list Z := tiny_headers 352 76 ++ tiny_body.

(** [l] at address [p], zeros elsewhere. *)
Definition ram_of (p : Z) (l : list Z) : mem := fun x => if (p <=? x) && (x <? p + Z.of_nat (length l)) then get 0 l (x - p) else 0.

(** Memory, a break, and files. *)
Record toy := mkToy { t_ram : mem; t_break : Z; t_files : list (list Z * list Z) }.

#[export] Instance toy_kernel : Kernel toy.
Proof.
  refine {| k_ram := t_ram; k_set_ram := fun m s => mkToy m (t_break s) (t_files s);
            k_malloc := fun n s => Some (t_break s, mkToy (t_ram s) (t_break s + n) (t_files s));
            k_free := fun _ s => Some s;
            k_read_file := fun path s =>
              match find (fun f => bool_decide (fst f = path)) (t_files s) with
              | Some (_, bs) => Some (Some (t_break s, Z.of_nat (length bs)),
                  mkToy (fun x => if (t_break s <=? x) && (x <? t_break s + Z.of_nat (length bs)) then get 0 bs (x - t_break s) else t_ram s x)
                    (t_break s + Z.of_nat (length bs)) (t_files s))
              | None => Some (None, s)
              end |}.
  - done.
  - by intros n s p s' [= <- <-].
  - by intros p s s' [= <-].
Defined.

Definition toy_state (m : mem) (files : list (list Z * list Z)) : pe toy := mkPe (mkToy m 65536 files) [] [] None [] false [].

Lemma ram_of_bytes p l : Forall (fun b => 0 <= b < 256) l -> forall x, 0 <= ram_of p l x < 256.
Proof.
  intros Hl x. unfold ram_of. destruct (_ && _); [|lia]. unfold get. destruct (l !! Z.to_nat (x - p)) eqn:E; cbn; [|lia].
  by eapply Forall_lookup in Hl.
Qed.

Lemma tiny_bytes : Forall (fun b => 0 <= b < 256) tiny_file.
Proof. apply (bool_decide_eq_true_1 (Forall _ tiny_file)). vm_compute. reflexivity. Qed.

(** Closed comparisons, decided by evaluation. *)
Ltac eval_le := apply Z.leb_le; vm_compute; reflexivity.
Ltac eval_lt := apply Z.ltb_lt; vm_compute; reflexivity.
Ltac eval_eq := apply Z.eqb_eq; vm_compute; reflexivity.

Lemma tiny_sections : pe_sections (ram_of 4096 tiny_file) 4096 = [mkSection 352 76 352].
Proof. vm_compute. reflexivity. Qed.

Lemma tiny_pe_file : pe_file (ram_of 4096 tiny_file) 4096 428.
Proof.
  split; [lia | eval_eq | eval_le | eval_eq | eval_eq | eval_le | split; [eval_lt | eval_le] | eval_le |].
  rewrite tiny_sections. repeat constructor.
Qed.

Lemma tiny_malloc : k_malloc (sizeof_RUNTIME X86 + pe_image_size (ram_of 4096 tiny_file) 4096) (mkToy (ram_of 4096 tiny_file) 65536 [])
  = Some (65536, mkToy (ram_of 4096 tiny_file) 66208 []).
Proof. assert (pe_image_size (ram_of 4096 tiny_file) 4096 = 512) as -> by (vm_compute; reflexivity). reflexivity. Qed.

Lemma PeLoadImage_correct_witness :
  exists st', PeLoadImage X86 0 (fun _ => mret 0) 4096 428 (toy_state (ram_of 4096 tiny_file) []) = Some (65696, st') /\
    k_ram (kernel st') (65696 + 352) = 16 /\ PeGetRuntimeHeader X86 (k_ram (kernel st')) 65696 = 65536.
Proof.
  destruct (@PeLoadImage_correct toy toy_kernel X86 0 (fun _ => mret 0) 4096 428 (toy_state (ram_of 4096 tiny_file) []) 65536
    (mkToy (ram_of 4096 tiny_file) 66208 []) (ram_of_bytes 4096 tiny_file tiny_bytes) tiny_pe_file ltac:(lia) ltac:(done)
    tiny_malloc ltac:(lia) ltac:(eval_le) ltac:(left; eval_le))
    as (st' & E & _ & Hc & _ & Hr & _).
  exists st'. split; [exact E|]. split; [|exact Hr].
  change (65696 + 352) with (65536 + sizeof_RUNTIME X86 + 352). rewrite Hc; [vm_compute; reflexivity | vm_compute; split; [discriminate|reflexivity]].
Defined.

Definition tiny_pages : list reloc_page := [mkPage 0 [12640; 0]].

Lemma tiny_slots : table_slots X86 65536 tiny_pages = [65888].
Proof. vm_compute. reflexivity. Qed.

Lemma tiny_reloc_image : reloc_image X86 (ram_of 65536 tiny_file) 65536 tiny_pages.
Proof.
  assert (E1 : ld32 (ram_of 65536 tiny_file) (65536 + 60) = 64) by eval_eq.
  split; [lia | | | | repeat constructor | rewrite tiny_slots; repeat constructor].
  - apply Z.eqb_neq. vm_compute. reflexivity.
  - eval_lt.
  - rewrite E1, tiny_slots. cbv zeta.
    assert (ld32 (ram_of 65536 tiny_file) (65536 + 64 + 24 + 96 + 40) = 416) as -> by eval_eq.
    split; [eval_lt|]. split; [lia|]. split; [eval_lt|]. split; [eval_eq|]. split; [|split; [eval_lt|]].
    + repeat split; eval_eq.
    + apply Forall_cons. split; [left; lia | by apply Forall_nil].
Qed.

Lemma PePerformRelocations_correct_witness :
  exists m', PePerformRelocations X86 1 65536 (ram_of 65536 tiny_file) = Some m' /\ ld32 m' 65888 = 65552.
Proof.
  destruct (PePerformRelocations_correct X86 1 65536 (ram_of 65536 tiny_file) tiny_pages (ram_of_bytes 65536 tiny_file tiny_bytes)
    tiny_reloc_image ltac:(cbn; lia)) as (m' & E & Hs & _).
  exists m'. split; [exact E|]. rewrite Hs; [vm_compute; reflexivity|]. rewrite tiny_slots. by apply list_elem_of_singleton.
Defined.

Lemma PeGetProcAddress_correct_witness :
  PeGetProcAddress X86 0 (ram_of 65536 tiny_file) 65536 (ByName (cstr "Ping")) = Some 65888.
Proof.
  apply (PeGetProcAddress_correct X86 0 (ram_of 65536 tiny_file) 65536 (cstr "Ping") [(cstr "_Ping@4", 65888)]).
  - lia.
  - apply Z.eqb_neq. vm_compute. reflexivity.
  - left. vm_compute. reflexivity.
  - eval_le.
  - apply Z.eqb_neq. vm_compute. reflexivity.
  - eval_eq.
  - split; [vm_compute; reflexivity|]. split; [cstring_lit|]. split; [vm_compute; reflexivity | done].
  - cstring_lit.
  - repeat constructor; discriminate.
Defined.

Definition tiny_boot : pe toy := toy_state (fun _ => 0) [(cstr "DISCOUNT/SYSTEM32/TINY.DLL", tiny_file)].

Lemma tiny_load_result : fst <$> PeLoadDll X86 300 [] (fun _ _ => mret tt) 1 (cstr "tiny.dll") tiny_boot = Some 66124.
Proof. vm_compute. reflexivity. Qed.

Lemma PeLoadDll_keeps_witness :
  exists st', PeLoadDll X86 300 [] (fun _ _ => mret tt) 1 (cstr "tiny.dll") tiny_boot = Some (66124, st') /\
    (cstr "tiny.dll", 66124) ∈ dll_keys st'.
Proof.
  pose proof tiny_load_result as E0.
  pose proof (PeLoadDll_keeps X86 300 [] (fun _ _ => mret tt) (fun _ _ => keeps_ret tt) 1 (cstr "tiny.dll") tiny_boot) as Hk.
  destruct (PeLoadDll X86 300 [] (fun _ _ => mret tt) 1 (cstr "tiny.dll") tiny_boot) as [[image st']|]; [|discriminate E0].
  injection E0 as ->. exists st'. split; [reflexivity|]. apply (Hk 66124 st' eq_refl). lia.
Defined.

Definition wrap_boot : pe toy := toy_state (ram_of 4096 (tiny_headers 4294967136 200 ++ tiny_body ++ replicate 200 0)) [].

(** A section whose destination wraps passes the bounds test and is copied over
    the runtime header in front of the image: afterwards the loader no longer
    recognises the image as its own. *)
Theorem PeLoadImage_section_wrap :
  match PeLoadImage X86 0 (fun _ => mret 0) 4096 628 wrap_boot with
  | Some (image, st') => image = 65696 /\ PeGetRuntimeHeader X86 (k_ram (kernel st')) image = 0
  | None => False
  end.
Proof.
  assert (E : (fun r => (fst r, PeGetRuntimeHeader X86 (k_ram (kernel (snd r))) (fst r))) <$>
    PeLoadImage X86 0 (fun _ => mret 0) 4096 628 wrap_boot = Some (65696, 0))
    by (vm_compute; reflexivity).
  destruct (PeLoadImage _ _ _ _ _ _) as [[image st']|]; [|discriminate E].
  injection E as E1 E2. subst image. split; [reflexivity | exact E2].
Qed.

End PeSpec.
