(* ===== verification/Net.v ===== *)
(** * drivers/net/net.c: the network stack

    Ethernet frames are lists of bytes; a header is the list of its fields as the
    packed structure lays them out.  Reading past the end of a frame is
    undefined ([None]).  The network card is a [NIC_OPS] record, as in the code;
    [poll] gives the frames the card hands to [net_handle_frame], in order.
    The statics are grouped by protocol; an address is the list of its bytes.
    Serial log lines are left out. *)

From stdpp Require Import base list numbers gmap strings.
From Stdlib Require Import ZArith Lia.
From S2P Require Import Prelude.
From S2P Require Import Util.
From S2P Require Import Hw.
Import Util Hw.

Module Net.

Definition bswap16 (v : Z) : Z := u16 (Z.lor (Z.shiftl v 8) (Z.shiftr v 8)).
Definition bswap32 (v : Z) : Z :=
  Z.lor (Z.lor (Z.lor (u32 (Z.shiftl (Z.land v 255) 24)) (Z.shiftl (Z.land v 65280) 8))
    (Z.shiftr (Z.land v 16711680) 8)) (Z.shiftr (Z.land v 4278190080) 24).

(** A field of two or four bytes, as a little-endian processor stores it. *)
Definition store16 (v : Z) : list Z := [u8 v; u8 (Z.shiftr v 8)].
Definition store32 (v : Z) : list Z := [u8 v; u8 (Z.shiftr v 8); u8 (Z.shiftr v 16); u8 (Z.shiftr v 24)].
Definition load8 (f : list Z) (o : Z) : option Z := if o <? 0 then None else f !! Z.to_nat o.
Definition load16 (f : list Z) (o : Z) : option Z := b0 ← load8 f o; b1 ← load8 f (o + 1); Some (b0 + 256 * b1).
Definition load32 (f : list Z) (o : Z) : option Z := w0 ← load16 f o; w1 ← load16 f (o + 2); Some (w0 + 65536 * w1).
(** [memcpy(dst, f + o, n)]. *)
Fixpoint load_bytes (f : list Z) (o : Z) (n : nat) : option (list Z) :=
  match n with O => Some [] | S n' => b ← load8 f o; r ← load_bytes f (o + 1) n'; Some (b :: r) end.

(** ** Checksums *)
Fixpoint sum_words (p : list Z) (sum : Z) : Z :=
  match p with
  | b0 :: b1 :: p => sum_words p (u32 (sum + Z.lor (Z.shiftl b0 8) b1))
  | [b0] => u32 (sum + Z.shiftl b0 8)
  | [] => sum
  end.

(** [while (sum >> 16)]: two turns bring 32 bits down to 16. *)
Fixpoint fold_carries (fuel : nat) (sum : Z) : Z :=
  if Z.shiftr sum 16 =? 0 then sum else
  match fuel with O => sum | S fuel' => fold_carries fuel' (Z.land sum 65535 + Z.shiftr sum 16) end.

Definition net_checksum (data : list Z) : Z := u16 (Z.lnot (fold_carries 3 (sum_words data 0))).

(** ** Addresses *)
Definition ip_equal (a b : list Z) : bool :=
  (get 0 a 0 =? get 0 b 0) && (get 0 a 1 =? get 0 b 1) && (get 0 a 2 =? get 0 b 2) && (get 0 a 3 =? get 0 b 3).

Definition ip_same_subnet (mask a b : list Z) : bool :=
  let same i := Z.land (get 0 a i) (get 0 mask i) =? Z.land (get 0 b i) (get 0 mask i) in
  same 0 && same 1 && same 2 && same 3.

Definition format_ip (ip : list Z) : option (list Z) :=
  n0 ← itoa (get 0 ip 0) 10; n1 ← itoa (get 0 ip 1) 10; n2 ← itoa (get 0 ip 2) 10; n3 ← itoa (get 0 ip 3) 10;
  Some (n0 ++ cstr "." ++ n1 ++ cstr "." ++ n2 ++ cstr "." ++ n3).

(** [out] is the bytes stored so far, [idx] of them. *)
Fixpoint parse_loop (text : list Z) (idx val : Z) (saw : bool) (out : list Z) : option (list Z) :=
  match text with
  | [] => if negb saw || negb (idx =? 3) then None else Some (out ++ [u8 val])
  | c :: text =>
      if (48 <=? c) && (c <=? 57) then
        let val := val * 10 + (c - 48) in
        if 255 <? val then None else parse_loop text idx val true out
      else if c =? 46 then
        if negb saw || (3 <=? idx) then None else parse_loop text (idx + 1) 0 false (out ++ [u8 val])
      else None
  end.
Definition parse_ip (text : list Z) : option (list Z) := parse_loop text 0 0 false [].

(** ** Frames *)
Definition ETH_HDR (dst src : list Z) (type : Z) : list Z := dst ++ src ++ store16 (bswap16 type).

Definition ARP_PKT (oper : Z) (sha spa tha tpa : list Z) : list Z :=
  store16 (bswap16 1) ++ store16 (bswap16 2048) ++ [6; 4] ++ store16 (bswap16 oper) ++ sha ++ spa ++ tha ++ tpa.

(** [checksum] is the value of the field. *)
Definition IPV4_HDR (total_len id ttl protocol checksum : Z) (src dst : list Z) : list Z :=
  [69; 0] ++ store16 (bswap16 total_len) ++ store16 (bswap16 id) ++ [0; 0] ++ [ttl; protocol] ++ store16 checksum ++ src ++ dst.

Definition ip_header (total_len id ttl protocol : Z) (src dst : list Z) : list Z :=
  IPV4_HDR total_len id ttl protocol (bswap16 (net_checksum (IPV4_HDR total_len id ttl protocol 0 src dst))) src dst.

Definition UDP_HDR (src_port dst_port len : Z) : list Z :=
  store16 (bswap16 src_port) ++ store16 (bswap16 dst_port) ++ store16 (bswap16 len) ++ [0; 0].

(** What is on the stack behind a frame shorter than 60 bytes. *)
Definition pad (stack frame : list Z) : list Z := frame ++ take (60 - Datatypes.length frame) stack.

Definition udp_frame (stack mac src_ip dst_ip dst_mac : list Z) (src_port dst_port : Z) (payload : list Z) (ttl ip_id : Z) : option (list Z) :=
  let n := Z.of_nat (Datatypes.length payload) in
  if 600 <? 42 + n then None else
  Some (pad stack (ETH_HDR dst_mac mac 2048 ++ ip_header (28 + n) ip_id ttl 17 src_ip dst_ip ++ UDP_HDR src_port dst_port (8 + n) ++ payload)).

Definition arp_frame (mac ip target_ip : list Z) : list Z :=
  ETH_HDR (replicate 6 255) mac 2054 ++ ARP_PKT 1 mac ip (replicate 6 0) target_ip ++ replicate 22 0.

Definition ICMP_ECHO_PKT (type checksum identifier sequence : Z) (payload : list Z) : list Z :=
  [type; 0] ++ store16 checksum ++ store16 (bswap16 identifier) ++ store16 (bswap16 sequence) ++ payload.

Definition ping_identifier : Z := 20052.
Definition ping_payload : list Z := map (fun i => u8 (65 + i mod 26)) (seqZ 0 32).

Definition icmp_frame (mac ip target_ip dst_mac : list Z) (seq : Z) : list Z :=
  ETH_HDR dst_mac mac 2048 ++ ip_header 60 seq 64 1 ip target_ip ++
  ICMP_ECHO_PKT 8 (bswap16 (net_checksum (ICMP_ECHO_PKT 8 0 ping_identifier seq ping_payload))) ping_identifier seq ping_payload.

Definition dhcp_xid : Z := 1314145360.

Definition DHCP_PKT (op xid flags : Z) (yiaddr chaddr options : list Z) : list Z :=
  [op; 1; 6; 0] ++ store32 (bswap32 xid) ++ [0; 0] ++ store16 (bswap16 flags) ++ replicate 4 0 ++ yiaddr ++ replicate 8 0
  ++ (chaddr ++ replicate 10 0) ++ replicate 192 0 ++ (options ++ replicate (312 - Datatypes.length options) 0).

Definition dhcp_options (mac : list Z) (msg_type : Z) (requested_ip server_ip : option (list Z)) : list Z :=
  [99; 130; 83; 99] ++ [53; 1; msg_type] ++ [61; 7; 1] ++ mac ++ [55; 3; 1; 3; 6]
  ++ match requested_ip with Some ip => [50; 4] ++ ip | None => [] end
  ++ match server_ip with Some ip => [54; 4] ++ ip | None => [] end ++ [255].

Definition dhcp_packet (mac : list Z) (msg_type : Z) (requested_ip server_ip : option (list Z)) : list Z :=
  DHCP_PKT 1 dhcp_xid 32768 (replicate 4 0) mac (dhcp_options mac msg_type requested_ip server_ip).

(** ** DNS messages *)
Definition dns_read16 (f : list Z) (o : Z) : option Z := b0 ← load8 f o; b1 ← load8 f (o + 1); Some (Z.lor (Z.shiftl b0 8) b1).

(** The offset after the name, -1 for a malformed one.  [n] labels are left of
    the 128 the code allows. *)
Fixpoint skip_loop (n : nat) (msg : list Z) (len offset : Z) : option Z :=
  if len <=? offset then Some (-1) else
  count ← load8 msg offset;
  let offset := offset + 1 in
  if count =? 0 then Some offset else
  if Z.land count 192 =? 192 then Some (if len <=? offset then -1 else offset + 1) else
  if negb (Z.land count 192 =? 0) then Some (-1) else
  if (63 <? count) || (len <? offset + count) then Some (-1) else
  match n with O => Some (-1) | S n' => skip_loop n' msg len (offset + count) end.
Definition dns_skip_name (msg : list Z) (len offset : Z) : option Z := skip_loop 128 msg len offset.

(** [name[i]] for [i] from the head of [rest] on, [label] the characters since
    [start]; [out] is what has been written. *)
Fixpoint encode_loop (rest label out : list Z) (out_len : Z) : option (list Z) :=
  let label_len := Z.of_nat (Datatypes.length label) in
  let close := if (label_len <? 1) || (63 <? label_len) || (out_len <? Z.of_nat (Datatypes.length out) + label_len + 2)
               then None else Some (out ++ [label_len] ++ label) in
  match rest with
  | [] => out ← close; Some (out ++ [0])
  | c :: rest => if c =? 46 then out ← close; encode_loop rest [] out out_len else encode_loop rest (label ++ [c]) out out_len
  end.
Definition dns_encode_name (name : list Z) (out_len : Z) : option (list Z) :=
  match name with
  | [] => None
  | _ => if (List.last name 0) =? 46 then None else encode_loop name [] [] out_len
  end.

(** ** State *)
Record ADDRESSES := mkAddresses {
  nic_mac : list Z;
  nic_ip : list Z;
  nic_mask : list Z;
  nic_gateway : list Z;
  nic_dns : list Z;
  nic_dns_valid : bool
}.
Record ARP := mkArp { arp_ip : list Z; arp_mac : list Z; arp_valid : bool }.
Record PING := mkPing { ping_sequence : Z; ping_got_reply : bool; ping_reply_ip : list Z }.
Record DHCP := mkDhcp {
  dhcp_offer_valid : bool;
  dhcp_ack_valid : bool;
  dhcp_offer_ip : list Z;
  dhcp_server_ip : list Z;
  dhcp_offer_mask : list Z;
  dhcp_offer_gateway : list Z
}.
Record DNS := mkDns { dns_query_id : Z; dns_query_active : bool; dns_result_valid : bool; dns_result_ip : list Z }.

(** What received frames can change. *)
Record proto := mkProto { addresses : ADDRESSES; arp : ARP; ping : PING; dhcp : DHCP; dns : DNS }.

Definition with_addresses (s : proto) (x : ADDRESSES) : proto := mkProto x (arp s) (ping s) (dhcp s) (dns s).
Definition with_arp (s : proto) (x : ARP) : proto := mkProto (addresses s) x (ping s) (dhcp s) (dns s).
Definition with_ping (s : proto) (x : PING) : proto := mkProto (addresses s) (arp s) x (dhcp s) (dns s).
Definition with_dhcp (s : proto) (x : DHCP) : proto := mkProto (addresses s) (arp s) (ping s) x (dns s).
Definition with_dns (s : proto) (x : DNS) : proto := mkProto (addresses s) (arp s) (ping s) (dhcp s) x.

Definition set_ip (a : ADDRESSES) (ip : list Z) : ADDRESSES :=
  mkAddresses (nic_mac a) ip (nic_mask a) (nic_gateway a) (nic_dns a) (nic_dns_valid a).
Definition set_mask (a : ADDRESSES) (m : list Z) : ADDRESSES :=
  mkAddresses (nic_mac a) (nic_ip a) m (nic_gateway a) (nic_dns a) (nic_dns_valid a).
Definition set_gateway (a : ADDRESSES) (g : list Z) : ADDRESSES :=
  mkAddresses (nic_mac a) (nic_ip a) (nic_mask a) g (nic_dns a) (nic_dns_valid a).
Definition set_dns_server (a : ADDRESSES) (d : list Z) (v : bool) : ADDRESSES :=
  mkAddresses (nic_mac a) (nic_ip a) (nic_mask a) (nic_gateway a) d v.
Definition set_mac (a : ADDRESSES) (m : list Z) : ADDRESSES :=
  mkAddresses m (nic_ip a) (nic_mask a) (nic_gateway a) (nic_dns a) (nic_dns_valid a).

(** ** Received frames *)

(** The questions are passed over: the offset after them, or nothing. *)
Fixpoint skip_questions (n : nat) (p : list Z) (len offset : Z) : option (option Z) :=
  match n with
  | O => Some (Some offset)
  | S n' =>
      offset ← dns_skip_name p len offset;
      if (offset <? 0) || (len <? offset + 4) then Some None else skip_questions n' p len (offset + 4)
  end.

(** The first address record among [n] answers. *)
Fixpoint find_answer (n : nat) (p : list Z) (len offset : Z) : option (option (list Z)) :=
  match n with
  | O => Some None
  | S n' =>
      offset ← dns_skip_name p len offset;
      if (offset <? 0) || (len <? offset + 10) then Some None else
      type ← dns_read16 p offset; klass ← dns_read16 p (offset + 2); rdlen ← dns_read16 p (offset + 8);
      let offset := offset + 10 in
      if len <? offset + rdlen then Some None else
      if (type =? 1) && (klass =? 1) && (rdlen =? 4) then ip ← load_bytes p offset 4; Some (Some ip)
      else find_answer n' p len (offset + rdlen)
  end.

Definition handle_dns_response (p : list Z) (s : proto) : option proto :=
  let len := Z.of_nat (Datatypes.length p) in
  let q := dns s in
  if negb (dns_query_active q) || (len <? 12) then Some s else
  id ← dns_read16 p 0;
  if negb (id =? dns_query_id q) then Some s else
  flags ← dns_read16 p 2;
  if (Z.land flags 32768 =? 0) || negb (Z.land flags 15 =? 0) then Some s else
  questions ← dns_read16 p 4; answers ← dns_read16 p 6;
  if (questions =? 0) || (answers =? 0) then Some s else
  offset ← skip_questions (Z.to_nat questions) p len 12;
  match offset with
  | None => Some s
  | Some offset =>
      r ← find_answer (Z.to_nat answers) p len offset;
      match r with
      | None => Some s
      | Some ip => Some (with_dns s (mkDns (dns_query_id q) false true ip))
      end
  end.

Definition handle_arp (f : list Z) (s : proto) : option proto :=
  if (Datatypes.length f <? 42)%nat then Some s else
  oper ← load16 f 20;
  if bswap16 oper =? 2 then
    spa ← load_bytes f 28 4; sha ← load_bytes f 22 6; Some (with_arp s (mkArp spa sha true))
  else Some s.

(** The option loop of a DHCP message: the message type, and what the options
    store.  An option takes at least one byte, so [fuel] can be the length. *)
Fixpoint option_loop (fuel : nat) (f : list Z) (opt limit msg_type : Z) (s : proto) : option (Z * proto) :=
  if limit <=? opt then Some (msg_type, s) else
  match fuel with
  | O => None
  | S fuel' =>
      code ← load8 f opt;
      let opt := opt + 1 in
      if code =? 0 then option_loop fuel' f opt limit msg_type s else
      if code =? 255 then Some (msg_type, s) else
      olen ← load8 f opt;
      let opt := opt + 1 in
      let h := dhcp s in
      if (code =? 53) && (1 <=? olen) then t ← load8 f opt; option_loop fuel' f (opt + olen) limit t s
      else if (code =? 1) && (4 <=? olen) then
        x ← load_bytes f opt 4;
        option_loop fuel' f (opt + olen) limit msg_type (with_dhcp s
          (mkDhcp (dhcp_offer_valid h) (dhcp_ack_valid h) (dhcp_offer_ip h) (dhcp_server_ip h) x (dhcp_offer_gateway h)))
      else if (code =? 3) && (4 <=? olen) then
        x ← load_bytes f opt 4;
        option_loop fuel' f (opt + olen) limit msg_type (with_dhcp s
          (mkDhcp (dhcp_offer_valid h) (dhcp_ack_valid h) (dhcp_offer_ip h) (dhcp_server_ip h) (dhcp_offer_mask h) x))
      else if (code =? 54) && (4 <=? olen) then
        x ← load_bytes f opt 4;
        option_loop fuel' f (opt + olen) limit msg_type (with_dhcp s
          (mkDhcp (dhcp_offer_valid h) (dhcp_ack_valid h) (dhcp_offer_ip h) x (dhcp_offer_mask h) (dhcp_offer_gateway h)))
      else if (code =? 6) && (4 <=? olen) then
        x ← load_bytes f opt 4;
        option_loop fuel' f (opt + olen) limit msg_type (with_addresses s (set_dns_server (addresses s) x true))
      else option_loop fuel' f (opt + olen) limit msg_type s
  end.

(** A DHCP reply at offset [o] of the frame, in a datagram of [udp_len]. *)
Definition handle_dhcp (f : list Z) (o udp_len : Z) (s : proto) : option proto :=
  if udp_len <? 248 then Some s else
  op ← load8 f o; htype ← load8 f (o + 1); hlen ← load8 f (o + 2);
  if negb (op =? 2) || negb (htype =? 1) || negb (hlen =? 6) then Some s else
  xid ← load32 f (o + 4);
  if negb (bswap32 xid =? dhcp_xid) then Some s else
  c0 ← load8 f (o + 236); c1 ← load8 f (o + 237); c2 ← load8 f (o + 238); c3 ← load8 f (o + 239);
  if negb (c0 =? 99) || negb (c1 =? 130) || negb (c2 =? 83) || negb (c3 =? 99) then Some s else
  '(msg_type, s) ← option_loop (Datatypes.length f) f (o + 240) (o + udp_len - 8) 0 s;
  let h := dhcp s in
  if msg_type =? 2 then
    ip ← load_bytes f (o + 16) 4;
    Some (with_dhcp s (mkDhcp true (dhcp_ack_valid h) ip (dhcp_server_ip h) (dhcp_offer_mask h) (dhcp_offer_gateway h)))
  else if msg_type =? 5 then
    ip ← load_bytes f (o + 16) 4;
    Some (with_dhcp s (mkDhcp (dhcp_offer_valid h) true ip (dhcp_server_ip h) (dhcp_offer_mask h) (dhcp_offer_gateway h)))
  else Some s.

Definition handle_udp (f : list Z) (ihl : Z) (s : proto) : option proto :=
  let len := Z.of_nat (Datatypes.length f) in
  if len <? 14 + ihl + 8 then Some s else
  let udp := 14 + ihl in
  l ← load16 f (udp + 4);
  let udp_len := bswap16 l in
  if (udp_len <? 8) || (len - 14 - ihl <? udp_len) then Some s else
  sp ← load16 f udp; dp ← load16 f (udp + 2);
  if dns_query_active (dns s) && (bswap16 sp =? 53) then
    p ← load_bytes f (udp + 8) (Z.to_nat (udp_len - 8)); handle_dns_response p s
  else if negb (bswap16 sp =? 67) || negb (bswap16 dp =? 68) then Some s
  else handle_dhcp f (udp + 8) udp_len s.

Definition handle_ipv4 (f : list Z) (s : proto) : option proto :=
  let len := Z.of_nat (Datatypes.length f) in
  if len <? 34 then Some s else
  ver_ihl ← load8 f 14;
  if negb (Z.shiftr ver_ihl 4 =? 4) then Some s else
  let ihl := Z.land ver_ihl 15 * 4 in
  protocol ← load8 f 23;
  if protocol =? 1 then
    if len <? 14 + ihl + 40 then Some s else
    type ← load8 f (14 + ihl); id ← load16 f (14 + ihl + 4); seq ← load16 f (14 + ihl + 6);
    if (type =? 0) && (bswap16 id =? ping_identifier) && (bswap16 seq =? ping_sequence (ping s)) then
      src ← load_bytes f 26 4; Some (with_ping s (mkPing (ping_sequence (ping s)) true src))
    else Some s
  else if protocol =? 17 then handle_udp f ihl s
  else Some s.

Definition net_handle_frame (f : list Z) (s : proto) : option proto :=
  if (Datatypes.length f <? 14)%nat then Some s else
  type ← load16 f 12;
  if type =? bswap16 2054 then handle_arp f s
  else if type =? bswap16 2048 then handle_ipv4 f s
  else Some s.

Definition dhcp_reset_offer_state (s : proto) : proto :=
  with_addresses (with_dhcp s (mkDhcp false false (replicate 4 0) (replicate 4 0) (replicate 4 0) (replicate 4 0)))
    (set_dns_server (addresses s) (replicate 4 0) false).

(** The statics before [NetInit]. *)
Definition net_start : proto :=
  mkProto (mkAddresses (replicate 6 0) [10; 0; 2; 15] [255; 255; 255; 0] [10; 0; 2; 2] (replicate 4 0) false)
    (mkArp (replicate 4 0) (replicate 6 0) false) (mkPing 1 false (replicate 4 0))
    (mkDhcp false false (replicate 4 0) (replicate 4 0) (replicate 4 0) (replicate 4 0)) (mkDns 20052 false false (replicate 4 0)).

(** ** Cards *)
Record PCI_DEVICE_INFO := mkPci {
  p_bus : Z; p_slot : Z; p_func : Z; vendor_id : Z; device_id : Z; bar0 : Z; bar1 : Z; command : Z; irq : Z
}.

(** [init] also gives the hardware address it stored in [nic_mac], if it got so
    far. *)
Record NIC_OPS (W : Type) := mkNic {
  init : PCI_DEVICE_INFO -> W -> option (bool * option (list Z) * W);
  poll_frames : W -> option (list (list Z) * W);
  send_raw : list Z -> W -> option W;
  is_ready : W -> bool;
  nic_name : list Z
}.
Arguments mkNic {W}.
Arguments init {W}.
Arguments poll_frames {W}.
Arguments send_raw {W}.
Arguments is_ready {W}.

Section pci.
Context {D : Type} `{Bus D} (a : arch).

Definition pci_enable_busmaster (pci : PCI_DEVICE_INFO) : hw D unit :=
  PciConfigWrite32 a (p_bus pci) (p_slot pci) (p_func pci) 4 (Z.lor (command pci) 7).

Fixpoint find_functions (n : nat) (slot func vendor device : Z) : hw D (option PCI_DEVICE_INFO) :=
  match n with
  | O => mret None
  | S n' =>
      id ← PciConfigRead32 a 0 slot func 0;
      if id =? 4294967295 then
        if func =? 0 then mret None else find_functions n' slot (func + 1) vendor device
      else if (Z.land id 65535 =? vendor) && (Z.land (Z.shiftr id 16) 65535 =? device) then
        b0 ← PciConfigRead32 a 0 slot func 16; b1 ← PciConfigRead32 a 0 slot func 20;
        cmd ← PciConfigRead32 a 0 slot func 4; line ← PciConfigRead8 a 0 slot func 60;
        mret (Some (mkPci 0 slot func vendor device b0 b1 cmd line))
      else find_functions n' slot (func + 1) vendor device
  end.

(** Slot 3 first, then slot 0, of bus 0. *)
Definition pci_find_first (vendor device : Z) : hw D (option PCI_DEVICE_INFO) :=
  r ← find_functions 8 3 0 vendor device;
  match r with Some p => mret (Some p) | None => find_functions 8 0 0 vendor device end.

End pci.

(** ** Operations *)
Section ops.
Context {W : Type}.
(** The bytes of the stack behind a short frame, and [pci_find_first]. *)
Context (stack : list Z) (find : Z -> Z -> W -> option PCI_DEVICE_INFO * W).

Record net := mkNet { state : proto; nic_ready : bool; nic_ops : option (NIC_OPS W); world : W }.
Implicit Types st : net.
Definition set_proto st (s : proto) : net := mkNet s (nic_ready st) (nic_ops st) (world st).
Definition set_world st (w : W) : net := mkNet (state st) (nic_ready st) (nic_ops st) w.

Definition nic_send_raw (frame : list Z) st : option net :=
  match nic_ops st with
  | None => Some st
  | Some ops => w ← send_raw ops frame (world st); Some (set_world st w)
  end.

Fixpoint handle_frames (fs : list (list Z)) (s : proto) : option proto :=
  match fs with [] => Some s | f :: fs => s ← net_handle_frame f s; handle_frames fs s end.

Definition NetPoll st : option net :=
  match nic_ops st with
  | None => Some st
  | Some ops =>
      '(fs, w) ← poll_frames ops (world st);
      s ← handle_frames fs (state st);
      Some (set_world (set_proto st s) w)
  end.

Definition NetIsReady st : bool :=
  nic_ready st && match nic_ops st with Some ops => is_ready ops (world st) | None => false end.

(** [for (i = 0; i < N && !flag; i++) if ((i & 0x7FF) == 0) NetPoll();]: only a
    poll can raise the flag, so the loop is its [poll_count N] polls. *)
Definition poll_count (N : Z) : nat := Z.to_nat ((N + 2047) / 2048).
Fixpoint spin (n : nat) (flag : proto -> bool) st : option net :=
  if flag (state st) then Some st else
  match n with O => Some st | S n' => st ← NetPoll st; spin n' flag st end.

Definition send_udp_ipv4 (src_ip dst_ip dst_mac : list Z) (src_port dst_port : Z) (payload : list Z) (ttl ip_id : Z) st : option net :=
  match udp_frame stack (nic_mac (addresses (state st))) src_ip dst_ip dst_mac src_port dst_port payload ttl ip_id with
  | None => Some st
  | Some f => nic_send_raw f st
  end.

Definition send_arp_request (target_ip : list Z) st : option net :=
  let a := addresses (state st) in nic_send_raw (arp_frame (nic_mac a) (nic_ip a) target_ip) st.

Definition send_icmp_echo (target_ip dst_mac : list Z) (seq : Z) st : option net :=
  let a := addresses (state st) in nic_send_raw (icmp_frame (nic_mac a) (nic_ip a) target_ip dst_mac seq) st.

Definition send_dhcp_packet (msg_type : Z) (requested_ip server_ip : option (list Z)) st : option net :=
  send_udp_ipv4 (replicate 4 0) (replicate 4 255) (replicate 6 255) 68 67
    (dhcp_packet (nic_mac (addresses (state st))) msg_type requested_ip server_ip) 64 (u16 dhcp_xid) st.

Definition clear_offer st : net :=
  let h := dhcp (state st) in
  set_proto st (with_dhcp (state st) (mkDhcp false (dhcp_ack_valid h) (dhcp_offer_ip h) (dhcp_server_ip h) (dhcp_offer_mask h) (dhcp_offer_gateway h))).

Fixpoint dhcp_attempts (n : nat) st : option net :=
  if dhcp_ack_valid (dhcp (state st)) then Some st else
  match n with
  | O => Some st
  | S n' =>
      st ← send_dhcp_packet 1 None None (clear_offer st);
      st ← spin (poll_count 6000000) (fun s => dhcp_offer_valid (dhcp s)) st;
      let h := dhcp (state st) in
      if negb (dhcp_offer_valid h) then dhcp_attempts n' st else
      st ← send_dhcp_packet 3 (Some (dhcp_offer_ip h)) (Some (dhcp_server_ip h)) st;
      st ← spin (poll_count 6000000) (fun s => dhcp_ack_valid (dhcp s)) st;
      dhcp_attempts n' st
  end.

Definition nonzero_ip (ip : list Z) : bool :=
  negb (get 0 ip 0 =? 0) || negb (get 0 ip 1 =? 0) || negb (get 0 ip 2 =? 0) || negb (get 0 ip 3 =? 0).

(** The lease, where the exchange ended with an acknowledgement. *)
Definition apply_lease (s : proto) : proto :=
  let h := dhcp s in
  if negb (dhcp_ack_valid h) then s else
  let a := set_ip (addresses s) (dhcp_offer_ip h) in
  let a := if nonzero_ip (dhcp_offer_mask h) then set_mask a (dhcp_offer_mask h) else a in
  let a := if nonzero_ip (dhcp_offer_gateway h) then set_gateway a (dhcp_offer_gateway h) else a in
  with_addresses s a.

Fixpoint probe_cards (cards : list (Z * Z * NIC_OPS W)) st : option net :=
  match cards with
  | [] => Some st
  | (vendor, device, ops) :: cards =>
      let '(pci, w) := find vendor device (world st) in
      let st := set_world st w in
      match pci with
      | None => probe_cards cards st
      | Some pci =>
          '(ok, mac, w) ← init ops pci w;
          let st := set_world st w in
          let st := match mac with Some m => set_proto st (with_addresses (state st) (set_mac (addresses (state st)) m)) | None => st end in
          if (ok : bool) then Some (mkNet (state st) true (Some ops) (world st)) else probe_cards cards st
      end
  end.

Definition NetInit (rtl_ops pcnet_ops e1000_ops : NIC_OPS W) st : option net :=
  st ← probe_cards [(4332, 33081, rtl_ops); (4130, 8192, pcnet_ops); (32902, 4110, e1000_ops); (32902, 4111, e1000_ops);
                    (32902, 4100, e1000_ops); (32902, 4220, e1000_ops)] (mkNet (state st) false None (world st));
  if negb (nic_ready st) then Some st else
  st ← dhcp_attempts 3 (set_proto st (dhcp_reset_offer_state (state st)));
  Some (set_proto st (apply_lease (state st))).

(** [arp_valid = 0], the request, and the wait. *)
Definition arp_lookup (next_hop : list Z) st : option net :=
  let r := arp (state st) in
  st ← send_arp_request next_hop (set_proto st (with_arp (state st) (mkArp (arp_ip r) (arp_mac r) false)));
  spin (poll_count 4000000) (fun s => arp_valid (arp s)) st.

Definition arp_found (next_hop : list Z) st : bool := arp_valid (arp (state st)) && ip_equal (arp_ip (arp (state st))) next_hop.

Definition set_dns st (id : Z) (active valid : bool) : net :=
  set_proto st (with_dns (state st) (mkDns id active valid (dns_result_ip (dns (state st))))).
Definition dns_st st : DNS := dns (state st).

(** Up to [n] transmissions of the query, each with a new identifier. *)
Fixpoint ask (n : nat) (server mac body : list Z) st : option net :=
  if dns_result_valid (dns_st st) then Some st else
  match n with
  | O => Some st
  | S n' =>
      let id := u16 (dns_query_id (dns_st st) + 1) in
      st ← send_udp_ipv4 (nic_ip (addresses (state st))) server mac 53000 53 ([u8 (Z.shiftr id 8); u8 id] ++ body) 64 id
             (set_dns st id true (dns_result_valid (dns_st st)));
      st ← spin (poll_count 12000000) (fun s => dns_result_valid (dns s)) st;
      ask n' server mac body st
  end.
Definition ask_twice (server mac body : list Z) st : option net :=
  st ← ask 2 server mac body st;
  Some (set_dns st (dns_query_id (dns_st st)) false (dns_result_valid (dns_st st))).

(** The query without its identifier; [None] is a store past [query[512]]. *)
Definition dns_query (encoded : list Z) : option (list Z) :=
  let q := [1; 0; 0; 1; 0; 0; 0; 0; 0; 0] ++ encoded ++ [0; 1; 0; 1] in
  if (510 <? Datatypes.length q)%nat then None else Some q.

(** The first server.  [Some body] is the query that was built; without an
    answer to the ARP request it is not, and stays uninitialised. *)
Definition resolve_primary (name : list Z) st : option (Z * option (list Z) * net) :=
  let a := addresses (state st) in
  let next_hop := if ip_same_subnet (nic_mask a) (nic_ip a) (nic_dns a) then nic_dns a else nic_gateway a in
  st ← arp_lookup next_hop (set_dns st (dns_query_id (dns_st st)) (dns_query_active (dns_st st)) false);
  if negb (arp_found next_hop st) then Some (0, None, st) else
  let mac := arp_mac (arp (state st)) in
  let st := set_dns st (u16 (dns_query_id (dns_st st) + 1)) (dns_query_active (dns_st st)) (dns_result_valid (dns_st st)) in
  match dns_encode_name name 500 with
  | None => Some (-4, None, st)
  | Some encoded =>
      body ← dns_query encoded;
      st ← ask_twice (nic_dns (addresses (state st))) mac body
             (set_dns st (dns_query_id (dns_st st)) (dns_query_active (dns_st st)) false);
      Some (0, Some body, st)
  end.

(** The public server, through the gateway: sending an uninitialised query is
    undefined. *)
Definition resolve_fallback (body : option (list Z)) st : option net :=
  if dns_result_valid (dns_st st) || ip_equal (nic_dns (addresses (state st))) [8; 8; 8; 8] then Some st else
  let next_hop := nic_gateway (addresses (state st)) in
  st ← arp_lookup next_hop st;
  if negb (arp_found next_hop st) then Some st else
  body ← body;
  ask_twice [8; 8; 8; 8] (arp_mac (arp (state st))) body st.

(** The result code, and the text stored in [out_ip]. *)
Definition NetResolve (name : option (list Z)) (out_ok : bool) (out_ip_len : Z) st : option (Z * option (list Z) * net) :=
  match name with
  | None => Some (-1, None, st)
  | Some name =>
      if negb out_ok || (out_ip_len <? 16) then Some (-1, None, st) else
      match parse_ip name with
      | Some literal => text ← format_ip literal; Some (0, Some text, st)
      | None =>
          if negb (NetIsReady st) || negb (nic_dns_valid (addresses (state st))) then Some (-2, None, st) else
          '(code, body, st) ← resolve_primary name st;
          if negb (code =? 0) then Some (code, None, st) else
          st ← resolve_fallback body st;
          if negb (dns_result_valid (dns_st st)) then Some (-5, None, st) else
          text ← format_ip (dns_result_ip (dns_st st)); Some (0, Some text, st)
      end
  end.

(** The four echo requests: which were answered. *)
Fixpoint ping_attempts (n : nat) (target_ip mac : list Z) (results : list bool) st : option (list bool * net) :=
  match n with
  | O => Some (results, st)
  | S n' =>
      let g := ping (state st) in
      st ← send_icmp_echo target_ip mac (ping_sequence g)
             (set_proto st (with_ping (state st) (mkPing (ping_sequence g) false (ping_reply_ip g))));
      st ← spin (poll_count 12000000) (fun s => ping_got_reply (ping s)) st;
      let g := ping (state st) in
      ping_attempts n' target_ip mac (results ++ [ping_got_reply g])
        (set_proto st (with_ping (state st) (mkPing (u16 (ping_sequence g + 1)) (ping_got_reply g) (ping_reply_ip g))))
  end.

Definition attempt_text (i : Z) (got : bool) : option (list Z) :=
  n ← itoa (i + 1) 10;
  Some (cstr "#" ++ n ++ (if got then cstr " reply" else cstr " timeout") ++ (if i =? 3 then [] else cstr " ")).

Definition ping_text (reply_ip : list Z) (results : list bool) : option (list Z) :=
  ip ← format_ip reply_ip;
  t0 ← attempt_text 0 (get false results 0); t1 ← attempt_text 1 (get false results 1);
  t2 ← attempt_text 2 (get false results 2); t3 ← attempt_text 3 (get false results 3);
  n ← itoa (Z.of_nat (count_occ Bool.bool_dec results true)) 10;
  Some (cstr "Reply from " ++ ip ++ cstr ": " ++ t0 ++ t1 ++ t2 ++ t3 ++ cstr " (" ++ n ++ cstr "/4 replies)").

Definition NetPing (ip_text : list Z) st : option (Z * list Z * net) :=
  if negb (NetIsReady st) then Some (-1, cstr "Network unavailable", st) else
  '(target, st) ← match parse_ip ip_text with
                  | Some ip => Some (Some ip, st)
                  | None => '(code, text, st) ← NetResolve (Some ip_text) true 32 st;
                            Some (if code =? 0 then parse_ip (default [] text) else None, st)
                  end;
  match target with
  | None => Some (-2, cstr "Could not resolve host", st)
  | Some target_ip =>
      let a := addresses (state st) in
      let next_hop := if ip_same_subnet (nic_mask a) (nic_ip a) target_ip then target_ip else nic_gateway a in
      st ← arp_lookup next_hop st;
      if negb (arp_found next_hop st) then Some (-3, cstr "ARP timeout", st) else
      '(results, st) ← ping_attempts 4 target_ip (arp_mac (arp (state st))) [] st;
      if negb (existsb id results) then
        Some (-4, cstr "Request timed out: #1 timeout #2 timeout #3 timeout #4 timeout", st)
      else text ← ping_text (ping_reply_ip (ping (state st))) results; Some (0, text, st)
  end.

End ops.

End Net.
