(* ===== verification/NetSpec.v ===== *)
(** * What the network stack does

    The theorems about [Net]: frames that are sent carry valid checksums,
    addresses survive printing and parsing, a DNS response yields its first
    address record, and nothing but the options of a
    DHCP reply is ever read outside a frame. *)

From stdpp Require Import base list numbers gmap strings.
From Stdlib Require Import ZArith Lia.
From S2P Require Import Prelude.
From S2P Require Import Util.
From S2P Require Import Net.
Import Util Net.

Module NetSpec.

(** ** Checksums *)

(** The sum of the big-endian words of a block. *)
Fixpoint words_sum (p : list Z) : Z :=
  match p with
  | b0 :: b1 :: p => 256 * b0 + b1 + words_sum p
  | [b0] => 256 * b0
  | [] => 0
  end.

(** Induction two bytes at a time. *)
Lemma pairs_ind (P : list Z -> Prop) :
  P [] -> (forall b, P [b]) -> (forall b0 b1 p, P p -> P (b0 :: b1 :: p)) -> forall p, P p.
Proof.
  intros H0 H1 H2 p. enough (P p /\ forall b, P (b :: p)) as [? _] by done.
  induction p as [|b p [IH1 IH2]]; [by split|]. split; [done|]. intros b'. by apply H2.
Qed.

Lemma words_sum_range p : Forall byte p -> 0 <= words_sum p <= 65535 * Z.of_nat (Datatypes.length p).
Proof.
  induction p as [|b|b0 b1 p IH] using pairs_ind; intros Hp; cbn [words_sum Datatypes.length]; [lia|..].
  - apply Forall_cons in Hp as [Hb _]. unfold byte in Hb. lia.
  - apply Forall_cons in Hp as [H0 Hp]. apply Forall_cons in Hp as [H1 Hp]. specialize (IH Hp). unfold byte in *. lia.
Qed.

Lemma words_sum_app p q : Nat.Even (Datatypes.length p) -> words_sum (p ++ q) = words_sum p + words_sum q.
Proof.
  induction p as [|b|b0 b1 p IH] using pairs_ind; cbn [words_sum app Datatypes.length]; intros He; [lia|..].
  - destruct He as [n Hn]. lia.
  - rewrite IH; [lia|]. destruct He as [n Hn]. exists (pred n). lia.
Qed.

Lemma sum_words_eq p s : Forall byte p -> 0 <= s -> s + words_sum p < 4294967296 -> sum_words p s = s + words_sum p.
Proof.
  revert s. induction p as [|b|b0 b1 p IH] using pairs_ind; intros s Hp Hs Hlt; cbn [sum_words words_sum] in *; [lia|..].
  - apply Forall_cons in Hp as [Hb _]. unfold byte in Hb. rewrite Z.shiftl_mul_pow2 by lia. change (2 ^ 8) with 256.
    rewrite u32_small by (unfold is_u32; lia). lia.
  - apply Forall_cons in Hp as [H0 Hp]. apply Forall_cons in Hp as [H1 Hp]. pose proof (words_sum_range p Hp) as Hr.
    rewrite Z.lor_comm, lor_byte by (unfold byte in *; lia). unfold byte in *.
    rewrite u32_small by (unfold is_u32; lia). rewrite IH by (try done; lia). lia.
Qed.

(** End-around carries: the remainder modulo 2^16-1, never 0 but for 0. *)
Lemma fold_carries_spec x : is_u32 x ->
  let r := fold_carries 3 x in 0 <= r < 65536 /\ r mod 65535 = x mod 65535 /\ (r = 0 <-> x = 0).
Proof.
  unfold is_u32. intros Hx. cbn zeta.
  assert (Hstep : forall n y, 0 <= y < 4294967296 -> fold_carries (S n) y =
    if y <? 65536 then y else fold_carries n (y mod 65536 + y / 65536)).
  { intros n y Hy. cbn [fold_carries]. rewrite Z.shiftr_div_pow2 by lia. change (2 ^ 16) with 65536.
    rewrite (Z.land_ones y 16 ltac:(lia) : Z.land y 65535 = y mod 65536).
    destruct (Z.ltb_spec y 65536); [by rewrite Z.div_small by lia|].
    rewrite (proj2 (Z.eqb_neq _ _)) by zlia. done. }
  rewrite Hstep by done. destruct (Z.ltb_spec x 65536); [lia|].
  set (y := x mod 65536 + x / 65536). assert (Hy : 0 < y < 131071 /\ y mod 65535 = x mod 65535).
  { unfold y. split; [zlia|]. rewrite (Z.div_mod x 65536) at 3 by lia.
    replace (65536 * (x / 65536) + x mod 65536) with (x mod 65536 + x / 65536 + x / 65536 * 65535) by lia. by rewrite Z.mod_add by lia. }
  clearbody y. rewrite Hstep by lia. destruct (Z.ltb_spec y 65536); [lia|].
  set (z := y mod 65536 + y / 65536). assert (Hz : 0 < z < 65536 /\ z mod 65535 = y mod 65535).
  { unfold z. split; [zlia|]. rewrite (Z.div_mod y 65536) at 3 by lia.
    replace (65536 * (y / 65536) + y mod 65536) with (y mod 65536 + y / 65536 + y / 65536 * 65535) by lia. by rewrite Z.mod_add by lia. }
  clearbody z. rewrite Hstep by lia. rewrite (proj2 (Z.ltb_lt _ _)) by lia. lia.
Qed.

Lemma net_checksum_eq p : Forall byte p -> Z.of_nat (Datatypes.length p) <= 65536 ->
  net_checksum p = 65535 - fold_carries 3 (words_sum p).
Proof.
  intros Hp Hl. pose proof (words_sum_range p Hp) as Hr. unfold net_checksum.
  rewrite sum_words_eq, Z.add_0_l by (try done; lia).
  destruct (fold_carries_spec (words_sum p)) as [Hf _]; [unfold is_u32; lia|].
  unfold Z.lnot. zlia.
Qed.

(** Stored big-endian in place of the zero it was computed with, at an even
    offset, the checksum makes the block sum to nothing. *)
Lemma checksum_verifies (pre post : list Z) :
  Nat.Even (Datatypes.length pre) -> Forall byte pre -> Forall byte post ->
  Z.of_nat (Datatypes.length pre + Datatypes.length post) <= 65534 ->
  let c := net_checksum (pre ++ [0; 0] ++ post) in
  0 <= c < 65536 /\ net_checksum (pre ++ [c / 256; c mod 256] ++ post) = 0.
Proof.
  intros He Hpre Hpost Hl c.
  assert (Hz : Forall byte (pre ++ [0; 0] ++ post)).
  { apply Forall_app; split; [done|]. apply Forall_app; split; [|done]. repeat constructor; unfold byte; lia. }
  set (s := words_sum pre + words_sum post).
  assert (Es : forall x y, words_sum (pre ++ [x; y] ++ post) = s + (256 * x + y)).
  { intros x y. unfold s. rewrite words_sum_app by done. cbn [app words_sum]. lia. }
  pose proof (words_sum_range _ Hz) as Hr. rewrite Es in Hr. rewrite !length_app in Hr. cbn [Datatypes.length] in Hr.
  assert (Hc : c = 65535 - fold_carries 3 s).
  { unfold c. rewrite net_checksum_eq by (try done; rewrite !length_app; cbn [Datatypes.length]; lia). rewrite Es. do 2 f_equal. lia. }
  destruct (fold_carries_spec s) as (F1 & F2 & F3); [unfold is_u32; lia|].
  split; [lia|]. rewrite net_checksum_eq.
  - rewrite Es. destruct (fold_carries_spec (s + (256 * (c / 256) + c mod 256))) as (G1 & G2 & G3); [unfold is_u32; zlia|].
    set (r := fold_carries 3 (s + _)) in *. set (f := fold_carries 3 s) in *. clearbody r f.
    assert (256 * (c / 256) + c mod 256 = c) as Ecc by zlia. rewrite Ecc in G2, G3.
    assert (Hmod : (s + c) mod 65535 = 0).
    { replace (s + c) with ((1 + s / 65535 - f / 65535) * 65535); [apply Z.mod_mul; lia|].
      pose proof (Z.div_mod s 65535). pose proof (Z.div_mod f 65535). lia. }
    assert (r <> 0) by (rewrite G3; lia). rewrite Hmod in G2. assert (r = 65535) by zlia. lia.
  - apply Forall_app; split; [done|]. apply Forall_app; split; [|done]. repeat constructor; unfold byte; zlia.
  - rewrite !length_app. cbn [Datatypes.length]. lia.
Qed.

(** ** Fields *)
Lemma bswap16_eq v : 0 <= v < 65536 -> bswap16 v = v / 256 + 256 * (v mod 256).
Proof.
  intros Hv. unfold bswap16. rewrite Z.lor_comm, Z.shiftr_div_pow2 by lia. change (2 ^ 8) with 256.
  rewrite lor_byte by (unfold byte; zlia). zlia.
Qed.

(** A [uint16_t] in network order. *)
Lemma store16_bswap v : 0 <= v < 65536 -> store16 (bswap16 v) = [v / 256; v mod 256].
Proof.
  intros Hv. unfold store16. rewrite bswap16_eq, Z.shiftr_div_pow2 by lia. change (2 ^ 8) with 256. f_equal; [|f_equal]; zlia.
Qed.

Lemma bswap16_load b0 b1 : byte b0 -> byte b1 -> bswap16 (b0 + 256 * b1) = 256 * b0 + b1.
Proof. unfold byte. intros H0 H1. rewrite bswap16_eq by lia. zlia. Qed.

Lemma store16_byte v : Forall byte (store16 v).
Proof. unfold store16. repeat constructor; apply u8_range. Qed.

(** An address of [n] bytes. *)
Definition addr (n : nat) (l : list Z) : Prop := Datatypes.length l = n /\ Forall byte l.

Ltac bytes_here := cbn [app]; repeat first [apply store16_byte | assumption | apply Forall_nil_2 | apply Forall_cons_2; [solve [done | unfold byte in *; lia]|] | apply Forall_app_2].

Lemma eth_length dst src type : addr 6 dst -> addr 6 src -> Datatypes.length (ETH_HDR dst src type) = 14%nat.
Proof. intros [Hd _] [Hs _]. unfold ETH_HDR. rewrite !length_app, Hd, Hs. done. Qed.

Lemma ip_header_length total id ttl pr src dst : addr 4 src -> addr 4 dst -> Datatypes.length (ip_header total id ttl pr src dst) = 20%nat.
Proof. intros [Hs _] [Hd _]. unfold ip_header, IPV4_HDR. rewrite !length_app, Hs, Hd. done. Qed.

Lemma ip_header_valid total id ttl pr src dst :
  addr 4 src -> addr 4 dst -> byte ttl -> byte pr -> net_checksum (ip_header total id ttl pr src dst) = 0.
Proof.
  intros [Hs Bs] [Hd Bd] Ht Hp.
  set (pre := [69; 0] ++ store16 (bswap16 total) ++ store16 (bswap16 id) ++ [0; 0] ++ [ttl; pr]).
  assert (Hpre : Forall byte pre) by (unfold pre; bytes_here).
  destruct (checksum_verifies pre (src ++ dst)) as [Hc Hv]; [by exists 5%nat | done | by apply Forall_app | rewrite length_app, Hs, Hd; cbn; lia |].
  unfold ip_header. replace (IPV4_HDR total id ttl pr 0 src dst) with (pre ++ [0; 0] ++ src ++ dst) by done.
  set (c := net_checksum _) in *. unfold IPV4_HDR. rewrite (store16_bswap c Hc). exact Hv.
Qed.

Lemma icmp_valid identifier seq payload :
  Forall byte payload -> Z.of_nat (Datatypes.length payload) <= 60000 ->
  net_checksum (ICMP_ECHO_PKT 8 (bswap16 (net_checksum (ICMP_ECHO_PKT 8 0 identifier seq payload))) identifier seq payload) = 0.
Proof.
  intros Hp Hl. set (post := store16 (bswap16 identifier) ++ store16 (bswap16 seq) ++ payload).
  destruct (checksum_verifies [8; 0] post) as [Hc Hv].
  - by exists 1%nat.
  - bytes_here.
  - unfold post. bytes_here.
  - unfold post. rewrite !length_app. cbn [Datatypes.length store16]. lia.
  - replace (ICMP_ECHO_PKT 8 0 identifier seq payload) with ([8; 0] ++ [0; 0] ++ post) by done.
    set (c := net_checksum _) in *. unfold ICMP_ECHO_PKT. by rewrite (store16_bswap c Hc).
Qed.

Lemma cut_header (e h r : list Z) n k : Datatypes.length e = n -> Datatypes.length h = k -> take k (drop n (e ++ h ++ r)) = h.
Proof. intros <- <-. by rewrite drop_app_length, take_app_length. Qed.

(** Every IPv4 frame the stack sends carries a valid header checksum, and
    an echo request a valid ICMP checksum: summed with the checksum in place,
    as a receiver does, the block comes to zero. *)
Theorem sent_checksums_valid (stack mac ip target dst_mac payload f : list Z) (sp dp ttl id seq : Z) :
  addr 6 mac -> addr 6 dst_mac -> addr 4 ip -> addr 4 target -> byte ttl ->
  udp_frame stack mac ip target dst_mac sp dp payload ttl id = Some f ->
  net_checksum (take 20 (drop 14 f)) = 0 /\
  net_checksum (take 20 (drop 14 (icmp_frame mac ip target dst_mac seq))) = 0 /\
  net_checksum (take 40 (drop 34 (icmp_frame mac ip target dst_mac seq))) = 0.
Proof.
  intros Hm Hdm Hi Ht Httl. unfold udp_frame. destruct (600 <? _); [done|]. intros E. apply (inj Some) in E as <-. split; [|split].
  - unfold pad. set (h := ip_header _ _ _ _ _ _). rewrite <- (app_assoc (ETH_HDR dst_mac mac 2048)), <- (app_assoc h).
    rewrite (cut_header (ETH_HDR dst_mac mac 2048) h _ 14 20) by (apply eth_length || apply ip_header_length; done).
    apply ip_header_valid; try done; unfold byte; lia.
  - unfold icmp_frame. set (h := ip_header _ _ _ _ _ _).
    rewrite (cut_header (ETH_HDR dst_mac mac 2048) h _ 14 20) by (apply eth_length || apply ip_header_length; done).
    apply ip_header_valid; try done; unfold byte; lia.
  - unfold icmp_frame. rewrite app_assoc.
    rewrite drop_app_length' by (rewrite length_app, eth_length, ip_header_length by done; done).
    rewrite take_ge by done. apply icmp_valid; [|vm_compute; discriminate].
    apply (bool_decide_eq_true_1 (Forall (fun b => 0 <= b < 256) ping_payload)). vm_compute. reflexivity.
Qed.

(** ** Addresses as text *)
Definition digits (v : Z) : list Z :=
  if v <? 10 then [48 + v] else if v <? 100 then [48 + v / 10; 48 + v mod 10] else [48 + v / 100; 48 + v / 10 mod 10; 48 + v mod 10].

Lemma itoa_byte v : byte v -> itoa v 10 = Some (digits v).
Proof.
  intros Hv. assert (Hl : v ∈ seqZ 0 256) by (apply elem_of_seqZ; unfold byte in Hv; lia). revert v Hv Hl.
  assert (Forall (fun v => itoa v 10 = Some (digits v)) (seqZ 0 256)) as Hall.
  { apply (bool_decide_eq_true_1 _). vm_compute. reflexivity. }
  rewrite Forall_forall in Hall. auto.
Qed.

Lemma parse_digits v rest idx out : byte v -> parse_loop (digits v ++ rest) idx 0 false out = parse_loop rest idx v true out.
Proof.
  unfold byte. intros Hv.
  assert (Hd : forall c t i x s o, 48 <= c <= 57 -> x * 10 + (c - 48) <= 255 ->
    parse_loop (c :: t) i x s o = parse_loop t i (x * 10 + (c - 48)) true o).
  { intros c t i x s o Hc Hx. cbn [parse_loop]. rewrite !(proj2 (Z.leb_le _ _)), (proj2 (Z.ltb_ge _ _)) by lia. done. }
  unfold digits. destruct (Z.ltb_spec v 10); [|destruct (Z.ltb_spec v 100)]; cbn [app].
  all: rewrite !Hd by zlia; f_equal; zlia.
Qed.

(** An address printed by [format_ip] is read back by [parse_ip]. *)
Theorem format_parse_ip (ip : list Z) : addr 4 ip -> exists text, format_ip ip = Some text /\ parse_ip text = Some ip.
Proof.
  intros [Hl Hb]. destruct ip as [|a [|b [|c [|e [|]]]]]; try done.
  repeat (apply Forall_cons in Hb as [? Hb]). unfold format_ip, get. const_indices. cbn [lookup list_lookup default from_option id].
  rewrite !itoa_byte by done. cbn [mbind option_bind]. eexists. split; [reflexivity|]. unfold parse_ip.
  change (cstr ".") with [46].
  assert (Hdot : forall t i x o, 0 <= i < 3 -> parse_loop ([46] ++ t) i x true o = parse_loop t (i + 1) 0 false (o ++ [u8 x])).
  { intros t i x o Hi. cbn. by rewrite (proj2 (Z.leb_gt 3 i)) by lia. }
  rewrite parse_digits, Hdot, parse_digits, Hdot, parse_digits, Hdot by (done || lia).
  rewrite <- (app_nil_r (digits e)), parse_digits by done. cbn [parse_loop negb orb Z.add Z.eqb Pos.eqb Pos.add Pos.succ app].
  by rewrite !u8_small by done.
Qed.

(** ** Reading what is there *)

(** [f] has [l] at offset [o]. *)
Definition at_ (f : list Z) (o : Z) (l : list Z) : Prop := 0 <= o /\ exists post, drop (Z.to_nat o) f = l ++ post.

Lemma at_cons f o b l : at_ f o (b :: l) -> load8 f o = Some b /\ at_ f (o + 1) l.
Proof.
  intros [Ho [post E]]. unfold load8. rewrite (proj2 (Z.ltb_ge _ _)) by lia. split.
  - rewrite <- (Nat.add_0_r (Z.to_nat o)), <- lookup_drop, E. done.
  - split; [lia|]. exists post. rewrite Z2Nat.inj_add, <- drop_drop, E by lia. done.
Qed.

Lemma at_app f o l1 l2 : at_ f o (l1 ++ l2) -> at_ f o l1 /\ at_ f (o + Z.of_nat (Datatypes.length l1)) l2.
Proof.
  revert o. induction l1 as [|b l1 IH]; intros o Ha.
  - cbn. rewrite Z.add_0_r. split; [|done]. destruct Ha as [Ho _]. split; [done|]. by eexists.
  - destruct (at_cons _ _ _ _ Ha) as [_ Ht]. destruct (IH _ Ht) as [_ H2]. split.
    + destruct Ha as [Ho [post E]]. split; [done|]. exists (l2 ++ post). by rewrite E, <- !app_assoc.
    + cbn [Datatypes.length]. by replace (o + Z.of_nat (S (Datatypes.length l1))) with (o + 1 + Z.of_nat (Datatypes.length l1)) by lia.
Qed.

Lemma at_here pre l post : at_ (pre ++ l ++ post) (Z.of_nat (Datatypes.length pre)) l.
Proof. split; [lia|]. exists post. by rewrite Nat2Z.id, drop_app_length. Qed.

Lemma at_bytes f o l : at_ f o l -> load_bytes f o (Datatypes.length l) = Some l.
Proof.
  revert o. induction l as [|b l IH]; intros o Ha; cbn [Datatypes.length load_bytes]; [done|].
  destruct (at_cons _ _ _ _ Ha) as [-> Ht]. cbn [mbind option_bind]. by rewrite (IH _ Ht).
Qed.

Definition be16 (v : Z) : list Z := [v / 256; v mod 256].

Lemma at_read16 f o v : at_ f o (be16 v) -> 0 <= v < 65536 -> dns_read16 f o = Some v.
Proof.
  intros Ha Hv. destruct (at_cons _ _ _ _ Ha) as [E0 Ha1]. destruct (at_cons _ _ _ _ Ha1) as [E1 _].
  unfold dns_read16. rewrite E0, E1. cbn [mbind option_bind]. f_equal.
  rewrite Z.lor_comm, lor_byte by (unfold byte; zlia). zlia.
Qed.

(** ** Names *)
Definition enc_label (l : list Z) : list Z := Z.of_nat (Datatypes.length l) :: l.
Definition label_ok (l : list Z) : Prop := (1 <= Datatypes.length l <= 63)%nat.
Definition enc_labels (ls : list (list Z)) : list Z := concat (map enc_label ls).

(** A name on the wire: labels up to the root, or up to a pointer. *)
Inductive wire_name : list Z -> Prop :=
| wire_root ls : Forall label_ok ls -> (Datatypes.length ls <= 128)%nat -> wire_name (enc_labels ls ++ [0])
| wire_pointer ls h l : Forall label_ok ls -> (Datatypes.length ls <= 128)%nat -> 192 <= h < 256 -> wire_name (enc_labels ls ++ [h; l]).

Lemma top_bits c : byte c -> Z.land c 192 = if c <? 64 then 0 else if c <? 128 then 64 else if c <? 192 then 128 else 192.
Proof.
  intros Hc. assert (Hl : c ∈ seqZ 0 256) by (apply elem_of_seqZ; unfold byte in Hc; lia). revert c Hc Hl.
  assert (Forall (fun c => Z.land c 192 = if c <? 64 then 0 else if c <? 128 then 64 else if c <? 192 then 128 else 192) (seqZ 0 256)) as Hall.
  { apply (bool_decide_eq_true_1 _). vm_compute. reflexivity. }
  rewrite Forall_forall in Hall. auto.
Qed.

Lemma enc_labels_cons l ls : enc_labels (l :: ls) = Z.of_nat (Datatypes.length l) :: l ++ enc_labels ls.
Proof. done. Qed.

Lemma skip_labels ls n msg len o tail :
  Forall label_ok ls -> at_ msg o (enc_labels ls ++ tail) -> o + Z.of_nat (Datatypes.length (enc_labels ls)) <= len ->
  (Datatypes.length ls <= n)%nat ->
  skip_loop n msg len o = skip_loop (n - Datatypes.length ls) msg len (o + Z.of_nat (Datatypes.length (enc_labels ls))).
Proof.
  revert n o. induction ls as [|l ls IH]; intros n o Hok Ha Hl Hn.
  - cbn. rewrite Z.add_0_r. f_equal. lia.
  - apply Forall_cons in Hok as [Hlo Hok]. unfold label_ok in Hlo. destruct n as [|n]; [cbn in Hn; lia|].
    rewrite enc_labels_cons in *. cbn [app] in Ha. destruct (at_cons _ _ _ _ Ha) as [E Ha1].
    rewrite <- app_assoc in Ha1. destruct (at_app _ _ _ _ Ha1) as [_ Ha2]. cbn [Datatypes.length] in Hl |- *. rewrite length_app in Hl |- *.
    cbn [skip_loop]. rewrite (proj2 (Z.leb_gt _ _)) by lia. rewrite E. cbn [mbind option_bind].
    rewrite (proj2 (Z.eqb_neq (Z.of_nat _) 0)) by lia. rewrite top_bits by (unfold byte; lia).
    rewrite (proj2 (Z.ltb_lt (Z.of_nat _) 64)) by lia. cbn [Z.eqb negb].
    rewrite (proj2 (Z.ltb_ge 63 _)), (proj2 (Z.ltb_ge len _)) by lia. cbn [orb].
    rewrite IH by (try done; cbn in Hn; lia). f_equal; cbn; lia.
Qed.

Lemma skip_name_ok w msg len o : wire_name w -> at_ msg o w -> o + Z.of_nat (Datatypes.length w) <= len ->
  dns_skip_name msg len o = Some (o + Z.of_nat (Datatypes.length w)).
Proof.
  intros Hw Ha Hl. unfold dns_skip_name.
  destruct Hw as [ls Hok Hn | ls h l Hok Hn Hh]; rewrite length_app in *; cbn [Datatypes.length] in *.
  all: rewrite (skip_labels ls 128 msg len o _ Hok Ha) by lia; destruct (at_app _ _ _ _ Ha) as [_ Ht].
  all: set (o' := o + Z.of_nat (Datatypes.length (enc_labels ls))) in *; destruct (at_cons _ _ _ _ Ht) as [E Ht'].
  all: destruct (128 - Datatypes.length ls)%nat; cbn [skip_loop]; rewrite (proj2 (Z.leb_gt _ _)) by lia; rewrite E; cbn [mbind option_bind].
  1,2: cbn [Z.eqb]; f_equal; lia.
  all: rewrite (proj2 (Z.eqb_neq h 0)) by lia; rewrite top_bits by (unfold byte; lia).
  all: rewrite !(proj2 (Z.ltb_ge h _)) by lia; cbn [Z.eqb Pos.eqb]; rewrite (proj2 (Z.leb_gt _ _)) by lia; f_equal; lia.
Qed.

(** The labels of a name, joined by dots. *)
Fixpoint join_labels (ls : list (list Z)) : list Z :=
  match ls with [] => [] | [l] => l | l :: ls => l ++ 46 :: join_labels ls end.

Lemma encode_loop_spec rest label out n e :
  encode_loop rest label out n = Some e ->
  exists ls, e = out ++ enc_labels ls ++ [0] /\ Forall label_ok ls /\ ls <> [] /\ join_labels ls = label ++ rest /\
    Z.of_nat (Datatypes.length e) <= n.
Proof.
  revert label out. induction rest as [|c rest IH]; intros label out; cbn [encode_loop].
  all: destruct ((Z.of_nat (Datatypes.length label) <? 1) || (63 <? Z.of_nat (Datatypes.length label)) || (n <? _)) eqn:E.
  all: rewrite ?orb_false_iff in E; cbn [mbind option_bind].
  - done.
  - intros [= <-]. exists [label]. destruct E as [[E1 E2] E3]. split; [|split; [|split; [done|]]].
    + rewrite <- !app_assoc. f_equal. unfold enc_labels. cbn. by rewrite app_nil_r.
    + apply Forall_singleton. unfold label_ok. lia.
    + rewrite app_nil_r. split; [done|]. rewrite !length_app. cbn [Datatypes.length]. lia.
  - destruct (Z.eqb_spec c 46); [done|]. intros He. destruct (IH _ _ He) as (ls & H1 & H2 & H3 & H4 & H5).
    exists ls. repeat split; try done. by rewrite H4, <- app_assoc.
  - destruct E as [[E1 E2] E3]. destruct (Z.eqb_spec c 46) as [-> | Hc]; intros He; destruct (IH _ _ He) as (ls & H1 & H2 & H3 & H4 & H5).
    + exists (label :: ls). split; [|split; [|split; [done|split; [|done]]]].
      * rewrite H1, enc_labels_cons, <- !app_assoc. cbn. by rewrite <- !app_assoc.
      * constructor; [unfold label_ok; lia | done].
      * cbn [join_labels]. destruct ls; [done|]. by rewrite H4.
    + exists ls. repeat split; try done. by rewrite H4, <- app_assoc.
Qed.

Lemma enc_labels_length ls : Forall label_ok ls -> (2 * Datatypes.length ls <= Datatypes.length (enc_labels ls))%nat.
Proof. induction 1 as [|l ls Hl _ IH]; [done|]. rewrite enc_labels_cons. cbn [Datatypes.length]. rewrite length_app. unfold label_ok in Hl. lia. Qed.

(** What the resolver asks for is a name on the wire that spells the host. *)
Lemma encode_name_wire name n e :
  dns_encode_name name n = Some e -> (Datatypes.length e <= 257)%nat ->
  wire_name e /\ exists ls, e = enc_labels ls ++ [0] /\ join_labels ls = name.
Proof.
  unfold dns_encode_name. destruct name as [|c name]; [done|]. destruct (List.last _ _ =? 46); [done|]. intros He Hl.
  destruct (encode_loop_spec _ _ _ _ _ He) as (ls & -> & Hok & _ & Hj & _). cbn [app] in *. split; [|by exists ls].
  rewrite length_app in Hl. cbn in Hl. pose proof (enc_labels_length ls Hok). constructor; [done|lia].
Qed.

(** ** Responses *)
Record resource := mkResource { rr_name : list Z; rr_type : Z; rr_class : Z; rr_ttl : list Z; rr_data : list Z }.

Definition enc_rr (r : resource) : list Z :=
  rr_name r ++ be16 (rr_type r) ++ be16 (rr_class r) ++ rr_ttl r ++ be16 (Z.of_nat (Datatypes.length (rr_data r))) ++ rr_data r.

Record rr_ok (r : resource) : Prop := {
  ro_name : wire_name (rr_name r);
  ro_type : 0 <= rr_type r < 65536;
  ro_class : 0 <= rr_class r < 65536;
  ro_ttl : Datatypes.length (rr_ttl r) = 4%nat;
  ro_data : Z.of_nat (Datatypes.length (rr_data r)) < 65536
}.

Definition is_address (r : resource) : bool :=
  (rr_type r =? 1) && (rr_class r =? 1) && (Z.of_nat (Datatypes.length (rr_data r)) =? 4).

(** A question: its name and its type and class. *)
Definition question_ok (q : list Z * list Z) : Prop := wire_name (fst q) /\ Datatypes.length (snd q) = 4%nat.
Definition enc_question (q : list Z * list Z) : list Z := fst q ++ snd q.

Definition dns_message (id flags : Z) (counts : list Z) (qs : list (list Z * list Z)) (rs : list resource) (extra : list Z) : list Z :=
  be16 id ++ be16 flags ++ be16 (Z.of_nat (Datatypes.length qs)) ++ be16 (Z.of_nat (Datatypes.length rs)) ++ counts
  ++ concat (map enc_question qs) ++ concat (map enc_rr rs) ++ extra.

Lemma skip_questions_ok qs p len o :
  Forall question_ok qs -> at_ p o (concat (map enc_question qs)) ->
  o + Z.of_nat (Datatypes.length (concat (map enc_question qs))) <= len ->
  skip_questions (Datatypes.length qs) p len o = Some (Some (o + Z.of_nat (Datatypes.length (concat (map enc_question qs))))).
Proof.
  revert o. induction qs as [|[w t] qs IH]; intros o Hok Ha Hl; cbn [Datatypes.length skip_questions map concat] in *.
  - by rewrite Z.add_0_r.
  - apply Forall_cons in Hok as [[Hw Ht] Hok]. cbn [fst snd] in *. unfold enc_question in *. cbn [fst snd] in *.
    rewrite !length_app in *. destruct (at_app _ _ _ _ Ha) as [Haq Har]. destruct (at_app _ _ _ _ Haq) as [Haw _].
    rewrite length_app in Har.
    rewrite (skip_name_ok w) by (try done; lia). cbn [mbind option_bind].
    rewrite (proj2 (Z.ltb_ge _ 0)), (proj2 (Z.ltb_ge len _)) by (destruct Ha; lia). cbn [orb].
    replace (o + Z.of_nat (Datatypes.length w) + 4) with (o + Z.of_nat (Datatypes.length w + Datatypes.length t)) by lia.
    rewrite IH by (try done; lia). do 2 f_equal. lia.
Qed.

Lemma find_answer_ok rs p len o :
  Forall rr_ok rs -> at_ p o (concat (map enc_rr rs)) -> o + Z.of_nat (Datatypes.length (concat (map enc_rr rs))) <= len ->
  find_answer (Datatypes.length rs) p len o = Some (rr_data <$> List.find is_address rs).
Proof.
  revert o. induction rs as [|r rs IH]; intros o Hok Ha Hl; cbn [Datatypes.length find_answer map concat List.find] in *; [done|].
  apply Forall_cons in Hok as [[Hw Hty Hcl Httl Hda] Hok]. rewrite length_app in Hl.
  destruct (at_app _ _ _ _ Ha) as [Har Hrest]. 
  assert (El : Datatypes.length (enc_rr r) = (Datatypes.length (rr_name r) + (2 + (2 + (4 + (2 + Datatypes.length (rr_data r))))))%nat)
    by (unfold enc_rr; rewrite !length_app, Httl; done).
  rewrite El in Hl, Hrest. unfold enc_rr in Har.
  assert (0 <= o) as Ho by (destruct Ha; done).
  destruct (at_app _ _ _ _ Har) as [Haw H1]. rewrite (skip_name_ok (rr_name r)) by (try done; lia). cbn [mbind option_bind].
  set (o1 := o + Z.of_nat (Datatypes.length (rr_name r))) in *.
  rewrite (proj2 (Z.ltb_ge _ 0)), (proj2 (Z.ltb_ge len _)) by lia. cbn [orb].
  destruct (at_app _ _ _ _ H1) as [Ht H2]. cbn [be16 Datatypes.length] in H2. destruct (at_app _ _ _ _ H2) as [Hc H3].
  cbn [be16 Datatypes.length] in H3. destruct (at_app _ _ _ _ H3) as [_ H4]. rewrite Httl in H4.
  destruct (at_app _ _ _ _ H4) as [Hrd H5]. cbn [be16 Datatypes.length] in H5.
  replace (o1 + Z.of_nat 2) with (o1 + 2) in Hc by lia. rewrite (at_read16 _ _ _ Ht Hty), (at_read16 _ _ _ Hc Hcl). cbn [mbind option_bind].
  replace (o1 + Z.of_nat 2 + Z.of_nat 2 + Z.of_nat 4) with (o1 + 8) in Hrd, H5 by lia.
  rewrite (at_read16 _ _ _ Hrd) by lia. cbn [mbind option_bind]. rewrite (proj2 (Z.ltb_ge len _)) by lia.
  unfold is_address at 1. replace (o1 + 8 + Z.of_nat 2) with (o1 + 10) in H5 by lia.
  destruct ((rr_type r =? 1) && (rr_class r =? 1) && (Z.of_nat (Datatypes.length (rr_data r)) =? 4)) eqn:E.
  - rewrite !andb_true_iff, !Z.eqb_eq in E. destruct E as [_ E4]. pose proof (at_bytes _ _ _ H5) as Hb.
    replace (Datatypes.length (rr_data r)) with 4%nat in Hb by lia. by rewrite Hb.
  - apply IH; [done| |lia].
    replace (o1 + 10 + Z.of_nat (Datatypes.length (rr_data r))) with
      (o + Z.of_nat (Datatypes.length (rr_name r) + (2 + (2 + (4 + (2 + Datatypes.length (rr_data r))))))) by lia. done.
Qed.

(** C29. A response to the outstanding query, well formed in its questions and
    answers, yields the first address record among its answers, whatever other
    records surround it, and closes the query; without one nothing changes. *)
Theorem handle_dns_response_correct (s : proto) (flags : Z) (counts extra : list Z) (qs : list (list Z * list Z)) (rs : list resource) :
  dns_query_active (dns s) = true -> 0 <= dns_query_id (dns s) < 65536 ->
  0 <= flags < 65536 -> Z.land flags 32768 <> 0 -> Z.land flags 15 = 0 -> Datatypes.length counts = 4%nat ->
  qs <> [] -> rs <> [] -> Z.of_nat (Datatypes.length qs) < 65536 -> Z.of_nat (Datatypes.length rs) < 65536 ->
  Forall question_ok qs -> Forall rr_ok rs ->
  handle_dns_response (dns_message (dns_query_id (dns s)) flags counts qs rs extra) s
  = Some (match List.find is_address rs with
          | Some r => with_dns s (mkDns (dns_query_id (dns s)) false true (rr_data r))
          | None => s
          end).
Proof.
  intros Hact Hid Hfl Hbit Hcode Hcnt Hq Hr Hql Hrl Hqok Hrok. unfold handle_dns_response.
  set (m := dns_message _ _ _ _ _ _). set (Q := concat (map enc_question qs)). set (R := concat (map enc_rr rs)).
  assert (Hlen : Z.of_nat (Datatypes.length m) = 12 + Z.of_nat (Datatypes.length Q) + Z.of_nat (Datatypes.length R) + Z.of_nat (Datatypes.length extra)).
  { unfold m, dns_message. rewrite !length_app, Hcnt. cbn [be16 Datatypes.length]. fold Q R. lia. }
  assert (Ha : at_ m 0 (be16 (dns_query_id (dns s)) ++ be16 flags ++ be16 (Z.of_nat (Datatypes.length qs))
    ++ be16 (Z.of_nat (Datatypes.length rs)) ++ counts ++ Q ++ R ++ extra)) by (split; [lia|]; exists []; by rewrite app_nil_r).
  destruct (at_app _ _ _ _ Ha) as [A1 B1]. destruct (at_app _ _ _ _ B1) as [A2 B2]. destruct (at_app _ _ _ _ B2) as [A3 B3].
  destruct (at_app _ _ _ _ B3) as [A4 B4]. destruct (at_app _ _ _ _ B4) as [_ B5]. destruct (at_app _ _ _ _ B5) as [A6 B6].
  destruct (at_app _ _ _ _ B6) as [A7 _]. rewrite Hcnt in A6, A7. cbn [be16 Datatypes.length] in A2, A3, A4, A6, A7.
  change (0 + Z.of_nat 2) with 2 in *. change (2 + Z.of_nat 2) with 4 in *. change (4 + Z.of_nat 2) with 6 in *.
  change (6 + Z.of_nat 2) with 8 in *. change (8 + Z.of_nat 4) with 12 in *.
  rewrite Hact, (proj2 (Z.ltb_ge _ 12)) by lia. cbn [negb orb].
  rewrite (at_read16 _ _ _ A1) by done. cbn [mbind option_bind]. rewrite Z.eqb_refl. cbn [negb].
  rewrite (at_read16 _ _ _ A2) by done. cbn [mbind option_bind]. rewrite (proj2 (Z.eqb_neq _ _) Hbit), Hcode. cbn [Z.eqb negb orb].
  rewrite (at_read16 _ _ _ A3), (at_read16 _ _ _ A4) by lia. cbn [mbind option_bind].
  rewrite (proj2 (Z.eqb_neq (Z.of_nat (Datatypes.length qs)) 0)), (proj2 (Z.eqb_neq (Z.of_nat (Datatypes.length rs)) 0))
    by (destruct qs, rs; cbn; done || lia). cbn [orb]. rewrite !Nat2Z.id.
  rewrite (skip_questions_ok qs m _ 12) by (try done; fold Q; lia). cbn [mbind option_bind]. fold Q.
  rewrite (find_answer_ok rs) by (try done; fold R; lia). cbn [mbind option_bind]. by destruct (List.find is_address rs).
Qed.

(** ** Nothing is read outside a frame *)
Section safety.
Context (f : list Z) (Hf : Forall byte f).

Lemma load8_in o : 0 <= o < (Z.of_nat (Datatypes.length f)) -> exists b, load8 f o = Some b /\ byte b.
Proof.
  intros Ho. unfold load8. rewrite (proj2 (Z.ltb_ge _ _)) by lia.
  destruct (lookup_lt_is_Some_2 f (Z.to_nat o)) as [b E]; [lia|]. exists b. split; [done|]. by eapply (Forall_lookup_1 byte), E.
Qed.

Lemma load16_in o : 0 <= o -> o + 2 <= (Z.of_nat (Datatypes.length f)) -> exists v, load16 f o = Some v /\ 0 <= v < 65536.
Proof.
  intros H0 H1. unfold load16. destruct (load8_in o) as (b0 & -> & B0); [lia|]. destruct (load8_in (o + 1)) as (b1 & -> & B1); [lia|].
  eexists. split; [done|]. unfold byte in *. lia.
Qed.

Lemma load32_in o : 0 <= o -> o + 4 <= (Z.of_nat (Datatypes.length f)) -> exists v, load32 f o = Some v.
Proof.
  intros H0 H1. unfold load32. destruct (load16_in o) as (b0 & -> & B0); [lia..|]. destruct (load16_in (o + 2)) as (b1 & -> & B1); [lia..|].
  by eexists.
Qed.

Lemma read16_in o : 0 <= o -> o + 2 <= (Z.of_nat (Datatypes.length f)) -> exists v, dns_read16 f o = Some v /\ 0 <= v < 65536.
Proof.
  intros H0 H1. unfold dns_read16. destruct (load8_in o) as (b0 & -> & B0); [lia|]. destruct (load8_in (o + 1)) as (b1 & -> & B1); [lia|].
  eexists. split; [done|]. rewrite Z.lor_comm, lor_byte by (unfold byte in *; lia). unfold byte in *. lia.
Qed.

Lemma load_bytes_in n o : 0 <= o -> o + Z.of_nat n <= (Z.of_nat (Datatypes.length f)) -> exists l, load_bytes f o n = Some l /\ Datatypes.length l = n /\ Forall byte l.
Proof.
  revert o. induction n as [|n IH]; intros o H0 H1; cbn [load_bytes]; [by exists []|].
  destruct (load8_in o) as (b & -> & B); [lia|]. destruct (IH (o + 1)) as (l & -> & Hl & Hb); [lia..|].
  cbn [mbind option_bind]. exists (b :: l). split; [done|]. split; [cbn; lia|]. by constructor.
Qed.

Lemma skip_in n o : 0 <= o -> exists r, skip_loop n f (Z.of_nat (Datatypes.length f)) o = Some r /\ (r = -1 \/ o < r <= (Z.of_nat (Datatypes.length f))).
Proof.
  revert o. induction n as [|n IH]; intros o Ho; cbn [skip_loop].
  all: destruct (Z.leb_spec (Z.of_nat (Datatypes.length f)) o); [by exists (-1); auto|].
  all: destruct (load8_in o) as (c & -> & Hc); [lia|]; cbn [mbind option_bind]; unfold byte in Hc.
  all: destruct (Z.eqb_spec c 0); [exists (o + 1); split; [done|right; lia]|].
  all: destruct (Z.land c 192 =? 192); [destruct (Z.leb_spec (Z.of_nat (Datatypes.length f)) (o + 1)); eexists; (split; [reflexivity|lia])|].
  all: destruct (negb (Z.land c 192 =? 0)); [by exists (-1); auto|].
  all: destruct (63 <? c); [by exists (-1); auto|]; cbn [orb]; destruct (Z.ltb_spec (Z.of_nat (Datatypes.length f)) (o + 1 + c)); [by exists (-1); auto|].
  - by exists (-1); auto.
  - destruct (IH (o + 1 + c)) as (r & -> & Hr); [lia|]. exists r. split; [done|]. lia.
Qed.

Lemma questions_in n o : 0 <= o -> exists r, skip_questions n f (Z.of_nat (Datatypes.length f)) o = Some r /\ match r with Some o' => 0 <= o' | None => True end.
Proof.
  revert o. induction n as [|n IH]; intros o Ho; cbn [skip_questions]; [by exists (Some o)|].
  unfold dns_skip_name. destruct (skip_in 128 o Ho) as (r & -> & Hr). cbn [mbind option_bind].
  destruct (Z.ltb_spec r 0); cbn [orb]; [by exists None|]. destruct (Z.ltb_spec (Z.of_nat (Datatypes.length f)) (r + 4)); [by exists None|]. apply IH. lia.
Qed.

Lemma answers_in n o : 0 <= o -> exists r, find_answer n f (Z.of_nat (Datatypes.length f)) o = Some r.
Proof.
  revert o. induction n as [|n IH]; intros o Ho; cbn [find_answer]; [by exists None|].
  unfold dns_skip_name. destruct (skip_in 128 o Ho) as (r & -> & Hr). cbn [mbind option_bind].
  destruct (Z.ltb_spec r 0); cbn [orb]; [by exists None|]. destruct (Z.ltb_spec (Z.of_nat (Datatypes.length f)) (r + 10)); [by exists None|].
  destruct (read16_in r) as (t & -> & Ht); [lia..|]. destruct (read16_in (r + 2)) as (k & -> & Hk); [lia..|].
  destruct (read16_in (r + 8)) as (n' & -> & Hn'); [lia..|]. cbn [mbind option_bind].
  destruct (Z.ltb_spec (Z.of_nat (Datatypes.length f)) (r + 10 + n')); [by exists None|].
  destruct ((t =? 1) && (k =? 1) && (n' =? 4)) eqn:E; [|apply IH; lia].
  rewrite !andb_true_iff, !Z.eqb_eq in E. destruct (load_bytes_in 4 (r + 10)) as (l & -> & _); [lia..|]. by eexists.
Qed.

Lemma dns_in s : exists s', handle_dns_response f s = Some s'.
Proof.
  unfold handle_dns_response. destruct (dns_query_active (dns s)); cbn [negb orb]; [|by eexists].
  destruct (Z.ltb_spec (Z.of_nat (Datatypes.length f)) 12); [by eexists|]. destruct (read16_in 0) as (id & -> & _); [lia..|]. cbn [mbind option_bind].
  destruct (negb _); [by eexists|]. destruct (read16_in 2) as (fl & -> & _); [lia..|]. cbn [mbind option_bind].
  destruct (_ || _); [by eexists|]. destruct (read16_in 4) as (qn & -> & _); [lia..|]. destruct (read16_in 6) as (an & -> & _); [lia..|].
  cbn [mbind option_bind]. destruct (_ || _); [by eexists|].
  destruct (questions_in (Z.to_nat qn) 12) as ([o|] & -> & Ho); [lia|..]; cbn [mbind option_bind]; [|by eexists].
  destruct (answers_in (Z.to_nat an) o Ho) as ([ip|] & ->); cbn [mbind option_bind]; by eexists.
Qed.

End safety.

(** The options from [o] on lie, each with its length and its data, before
    [limit]. *)
Inductive fits (f : list Z) (limit : Z) : Z -> Prop :=
| fits_end o : limit <= o -> fits f limit o
| fits_pad o : load8 f o = Some 0 -> fits f limit (o + 1) -> fits f limit o
| fits_stop o : load8 f o = Some 255 -> fits f limit o
| fits_option o code n :
    load8 f o = Some code -> code <> 0 -> code <> 255 -> load8 f (o + 1) = Some n -> o + 2 + n <= limit ->
    fits f limit (o + 2 + n) -> fits f limit o.

Lemma options_in f limit fuel o t s :
  Forall byte f -> 0 <= o -> limit <= Z.of_nat (Datatypes.length f) -> limit - o <= Z.of_nat fuel -> fits f limit o ->
  exists r, option_loop fuel f o limit t s = Some r.
Proof.
  intros Hf Ho Hl Hn Hfit. revert fuel t s Ho Hn.
  induction Hfit as [o Hend | o E Hfit IH | o E | o code n E H0 H255 En Hin Hfit IH]; intros fuel t s Ho Hn.
  - exists (t, s). destruct fuel; cbn [option_loop]; by rewrite (proj2 (Z.leb_le _ _)) by lia.
  - destruct (Z.leb_spec limit o) as [Hle|Hlt]; [exists (t, s); destruct fuel; cbn [option_loop]; by rewrite (proj2 (Z.leb_le _ _)) by lia|].
    destruct fuel as [|fuel]; [lia|]. cbn [option_loop]. rewrite (proj2 (Z.leb_gt _ _)), E by lia. cbn [mbind option_bind Z.eqb]. apply IH; lia.
  - destruct (Z.leb_spec limit o) as [Hle|Hlt]; [exists (t, s); destruct fuel; cbn [option_loop]; by rewrite (proj2 (Z.leb_le _ _)) by lia|].
    destruct fuel as [|fuel]; [lia|]. cbn [option_loop]. rewrite (proj2 (Z.leb_gt _ _)), E by lia. cbn. by eexists.
  - destruct (Z.leb_spec limit o) as [Hle|Hlt]; [exists (t, s); destruct fuel; cbn [option_loop]; by rewrite (proj2 (Z.leb_le _ _)) by lia|].
    destruct fuel as [|fuel]; [lia|]. cbn [option_loop]. rewrite (proj2 (Z.leb_gt _ _)), E by lia. cbn [mbind option_bind].
    rewrite (proj2 (Z.eqb_neq code 0)), (proj2 (Z.eqb_neq code 255)), En by done. cbn [mbind option_bind].
    assert (Bn : byte n).
    { unfold load8 in En. destruct (o + 1 <? 0); [done|]. by eapply (Forall_lookup_1 byte), En. }
    unfold byte in Bn. replace (o + 1 + 1) with (o + 2) by lia.
    repeat match goal with |- context [if ?b then _ else _] => destruct b eqn:?E end; rewrite ?andb_true_iff, ?Z.leb_le in *.
    1: destruct (load8_in f Hf (o + 2)) as (x & -> & _); [lia|]; cbn [mbind option_bind].
    2-5: destruct (load_bytes_in f Hf 4 (o + 2)) as (x & -> & _); [lia..|]; cbn [mbind option_bind].
    all: apply IH; lia.
Qed.

(** A BOOTP reply to this machine's request at offset [o]: the operation, the
    hardware type and length, the transaction and the cookie. *)
Record bootp_reply (f : list Z) (o : Z) : Prop := {
  br_op : load8 f o = Some 2;
  br_hardware : load8 f (o + 1) = Some 1 /\ load8 f (o + 2) = Some 6;
  br_xid : exists x, load32 f (o + 4) = Some x /\ bswap32 x = dhcp_xid;
  br_cookie : load8 f (o + 236) = Some 99 /\ load8 f (o + 237) = Some 130 /\ load8 f (o + 238) = Some 83 /\ load8 f (o + 239) = Some 99
}.

(** A frame that is a DHCP reply to this machine: IPv4, UDP from port 67 to
    port 68 with its header at [u], a length field [n] that covers the fixed part
    and lies in the frame, and a BOOTP reply.  These are the frames whose options
    the stack walks. *)
Record dhcp_reply (f : list Z) (u n : Z) : Prop := {
  dr_type : load16 f 12 = Some (bswap16 2048);
  dr_ip : exists v, load8 f 14 = Some v /\ Z.shiftr v 4 = 4 /\ u = 14 + Z.land v 15 * 4;
  dr_udp : load8 f 23 = Some 17;
  dr_ports : exists sp dp, load16 f u = Some sp /\ load16 f (u + 2) = Some dp /\ bswap16 sp = 67 /\ bswap16 dp = 68;
  dr_length : exists l, load16 f (u + 4) = Some l /\ n = bswap16 l /\ 248 <= n <= Z.of_nat (Datatypes.length f) - u;
  dr_bootp : bootp_reply f (u + 8)
}.

Ltac neg_eqb :=
  rewrite ?orb_false_iff, ?negb_false_iff, ?Z.eqb_eq in *; destruct_and?; subst.

Lemma dhcp_in f o n s :
  Forall byte f -> 0 <= o -> o + n - 8 <= Z.of_nat (Datatypes.length f) ->
  (248 <= n -> bootp_reply f o -> fits f (o + n - 8) (o + 240)) ->
  exists s', handle_dhcp f o n s = Some s'.
Proof.
  intros Hf Ho Hn Hfit. unfold handle_dhcp. destruct (Z.ltb_spec n 248); [by eexists|]. specialize (Hfit ltac:(lia)).
  destruct (load8_in f Hf o) as (x0 & E0 & _); [lia|]. destruct (load8_in f Hf (o + 1)) as (x1 & E1 & _); [lia|].
  destruct (load8_in f Hf (o + 2)) as (x2 & E2 & _); [lia|]. rewrite E0, E1, E2. cbn [mbind option_bind].
  destruct (negb (x0 =? 2) || _ || _) eqn:Eh; [by eexists|].
  destruct (load32_in f Hf (o + 4)) as (x & Ex); [lia..|]. rewrite Ex. cbn [mbind option_bind].
  destruct (negb (bswap32 x =? _)) eqn:Et; [by eexists|].
  destruct (load8_in f Hf (o + 236)) as (c0 & C0 & _); [lia|]. destruct (load8_in f Hf (o + 237)) as (c1 & C1 & _); [lia|].
  destruct (load8_in f Hf (o + 238)) as (c2 & C2 & _); [lia|]. destruct (load8_in f Hf (o + 239)) as (c3 & C3 & _); [lia|].
  rewrite C0, C1, C2, C3. cbn [mbind option_bind]. destruct (negb (c0 =? 99) || _ || _ || _) eqn:Ec; [by eexists|].
  neg_eqb.
  destruct (options_in f (o + n - 8) (Datatypes.length f) (o + 240) 0 s Hf) as ([t s'] & ->);
    [lia..| apply Hfit; split; eauto |]. cbn [mbind option_bind].
  destruct (load_bytes_in f Hf 4 (o + 16)) as (ip & -> & _); [lia..|]. cbn [mbind option_bind].
  destruct (t =? 2); [by eexists|]. destruct (t =? 5); by eexists.
Qed.

Lemma udp_in f ihl s :
  Forall byte f -> 0 <= ihl -> load16 f 12 = Some (bswap16 2048) -> load8 f 23 = Some 17 ->
  (exists v, load8 f 14 = Some v /\ Z.shiftr v 4 = 4 /\ ihl = Z.land v 15 * 4) ->
  (forall u n, dhcp_reply f u n -> fits f (u + n) (u + 248)) ->
  exists s', handle_udp f ihl s = Some s'.
Proof.
  intros Hf Hi Hty Hpr (v & Hv & Hver & ->) Hfit. unfold handle_udp. set (ihl := Z.land v 15 * 4) in *.
  destruct (Z.ltb_spec (Z.of_nat (Datatypes.length f)) (14 + ihl + 8)); [by eexists|].
  destruct (load16_in f Hf (14 + ihl + 4)) as (l & E & Hl); [lia..|]. rewrite E. cbn [mbind option_bind].
  remember (bswap16 l) as n eqn:En. destruct (Z.ltb_spec n 8); cbn [orb]; [by eexists|].
  destruct (Z.ltb_spec (Z.of_nat (Datatypes.length f) - 14 - ihl) n); [by eexists|].
  destruct (load16_in f Hf (14 + ihl)) as (sp & Es & _); [lia..|]. destruct (load16_in f Hf (14 + ihl + 2)) as (dp & Ed & _); [lia..|].
  rewrite Es, Ed. cbn [mbind option_bind]. destruct (_ && _).
  - destruct (load_bytes_in f Hf (Z.to_nat (n - 8)) (14 + ihl + 8)) as (p & -> & _ & Hp); [lia..|]. cbn [mbind option_bind]. by apply dns_in.
  - destruct (negb (bswap16 sp =? 67) || _) eqn:Ep; [by eexists|]. apply dhcp_in; [done|lia..|]. intros Hn Hb. neg_eqb.
    replace (14 + ihl + 8 + bswap16 l - 8) with (14 + ihl + bswap16 l) by lia.
    replace (14 + ihl + 8 + 240) with (14 + ihl + 248) by lia. apply Hfit. split; eauto 8.
    exists l. split; [done|]. split; [done|]. lia.
Qed.

Lemma frame_in (f : list Z) (s : proto) :
  Forall byte f -> (forall u n, dhcp_reply f u n -> fits f (u + n) (u + 248)) -> exists s', net_handle_frame f s = Some s'.
Proof.
  intros Hf Hfit. unfold net_handle_frame. destruct (Nat.ltb_spec (Datatypes.length f) 14); [by eexists|].
  destruct (load16_in f Hf 12) as (t & Et & _); [lia..|]. rewrite Et. cbn [mbind option_bind]. destruct (t =? bswap16 2054).
  { unfold handle_arp. destruct (Nat.ltb_spec (Datatypes.length f) 42); [by eexists|].
    destruct (load16_in f Hf 20) as (x & -> & _); [lia..|]. cbn [mbind option_bind]. destruct (_ =? _); [|by eexists].
    destruct (load_bytes_in f Hf 4 28) as (p & -> & _); [lia..|]. destruct (load_bytes_in f Hf 6 22) as (q & -> & _); [lia..|]. by eexists. }
  destruct (Z.eqb_spec t (bswap16 2048)) as [->|]; [|by eexists]. unfold handle_ipv4.
  destruct (Z.ltb_spec (Z.of_nat (Datatypes.length f)) 34); [by eexists|].
  destruct (load8_in f Hf 14) as (v & Ev & Hv); [lia|]. rewrite Ev. cbn [mbind option_bind].
  destruct (Z.eqb_spec (Z.shiftr v 4) 4) as [Ever|]; cbn [negb]; [|by eexists].
  assert (Hi : 0 <= Z.land v 15) by (apply Z.land_nonneg; lia). set (ihl := Z.land v 15 * 4).
  destruct (load8_in f Hf 23) as (pr & Epr & _); [lia|]. rewrite Epr. cbn [mbind option_bind]. destruct (pr =? 1).
  - destruct (Z.ltb_spec (Z.of_nat (Datatypes.length f)) (14 + ihl + 40)); [by eexists|].
    destruct (load8_in f Hf (14 + ihl)) as (ty & -> & _); [lia|]. destruct (load16_in f Hf (14 + ihl + 4)) as (id & -> & _); [lia..|].
    destruct (load16_in f Hf (14 + ihl + 6)) as (sq & -> & _); [lia..|]. cbn [mbind option_bind]. destruct (_ && _); [|by eexists].
    destruct (load_bytes_in f Hf 4 26) as (src & -> & _); [lia..|]. by eexists.
  - destruct (Z.eqb_spec pr 17) as [->|]; [|by eexists]. apply udp_in; eauto. lia.
Qed.

(** ** Frames that are no DHCP replies *)

(** A frame that is no DHCP reply to this machine. *)
Definition quiet_frame (f : list Z) : Prop := Forall byte f /\ forall u n, ~ dhcp_reply f u n.

(** What a successful parse went through. *)
Ltac parsed H := repeat match type of H with
  | mbind _ _ = Some _ => apply bind_Some in H as (? & ? & H)
  | (if ?b then _ else _) = Some _ => destruct b eqn:?
  | match ?o with Some _ => _ | None => _ end = Some _ => destruct o
  | Some _ = Some _ => injection H as <-
  end.

Definition same_lease (s s' : proto) : Prop := dhcp s' = dhcp s /\ addresses s' = addresses s.

Lemma dns_same p s s' : handle_dns_response p s = Some s' -> same_lease s s'.
Proof. unfold handle_dns_response. intros E. parsed E; done. Qed.

Lemma dhcp_other f o n s s' : handle_dhcp f o n s = Some s' -> ~ (248 <= n /\ bootp_reply f o) -> s' = s.
Proof.
  unfold handle_dhcp. intros E Hn. destruct (Z.ltb_spec n 248); [by injection E|].
  apply bind_Some in E as (op & E0 & E). apply bind_Some in E as (ht & E1 & E). apply bind_Some in E as (hl & E2 & E).
  destruct (negb (op =? 2) || _ || _) eqn:Eh; [by injection E|]. apply bind_Some in E as (x & Ex & E).
  destruct (negb (bswap32 x =? _)) eqn:Et; [by injection E|].
  apply bind_Some in E as (c0 & C0 & E). apply bind_Some in E as (c1 & C1 & E). apply bind_Some in E as (c2 & C2 & E). apply bind_Some in E as (c3 & C3 & E).
  destruct (negb (c0 =? 99) || _ || _ || _) eqn:Ec; [by injection E|]. neg_eqb. destruct Hn. split; [done|]. split; eauto.
Qed.

Lemma udp_same f ihl s s' : load16 f 12 = Some (bswap16 2048) -> load8 f 23 = Some 17 ->
  (exists v, load8 f 14 = Some v /\ Z.shiftr v 4 = 4 /\ ihl = Z.land v 15 * 4) -> (forall u n, ~ dhcp_reply f u n) ->
  handle_udp f ihl s = Some s' -> same_lease s s'.
Proof.
  intros Hty Hpr (v & Hv & Hver & Ei) Hno E. unfold handle_udp in E. destruct (_ <? _) in E; [by injection E as <-|].
  apply bind_Some in E as (l & El & E). destruct (Z.ltb_spec (bswap16 l) 8); cbn [orb] in E; [by injection E as <-|].
  destruct (Z.ltb_spec (Z.of_nat (Datatypes.length f) - 14 - ihl) (bswap16 l)); [by injection E as <-|].
  apply bind_Some in E as (sp & Es & E). apply bind_Some in E as (dp & Ed & E). destruct (_ && _) in E.
  - apply bind_Some in E as (p & _ & E). by eapply dns_same.
  - destruct (negb (bswap16 sp =? 67) || _) eqn:Ep; [by injection E as <-|]. neg_eqb. rewrite (dhcp_other _ _ _ _ _ E); [done|]. intros [Hn Hb].
    apply (Hno (14 + Z.land v 15 * 4) (bswap16 l)). split; eauto 8. exists l. split; [done|]. split; [done | lia].
Qed.

(** Such a frame is taken, and the lease is left alone. *)
Lemma quiet_frame_taken f s : quiet_frame f -> exists s', net_handle_frame f s = Some s' /\ same_lease s s'.
Proof.
  intros [Hf Hno]. destruct (frame_in f s Hf) as [s' E]; [intros u n Hr; by destruct (Hno u n)|]. exists s'. split; [done|]. revert E.
  unfold net_handle_frame. destruct (_ <? _)%nat; [by intros [= <-]|]. intros E. apply bind_Some in E as (t & Et & E). destruct (t =? bswap16 2054).
  { unfold handle_arp in E. parsed E; done. }
  destruct (Z.eqb_spec t (bswap16 2048)) as [->|]; [|by injection E as <-]. unfold handle_ipv4 in E. destruct (_ <? _) in E; [by injection E as <-|].
  apply bind_Some in E as (v & Ev & E). destruct (Z.eqb_spec (Z.shiftr v 4) 4) as [Ever|]; cbn [negb] in E; [|by injection E as <-].
  apply bind_Some in E as (pr & Epr & E). destruct (pr =? 1); [parsed E; done|]. destruct (Z.eqb_spec pr 17) as [->|]; [|by injection E as <-]. by eapply udp_same; eauto.
Qed.

(** C30. No frame makes the stack read outside it, whatever its bytes and whatever
    the stack waits for, unless it is a DHCP reply to this machine (IPv4, UDP from
    port 67 to port 68, with the machine's transaction and the cookie) one of whose
    options runs past its datagram: every length in ARP, IPv4, ICMP, UDP and DNS
    parsing is checked before it is used. *)
Theorem net_handle_frame_safe (f : list Z) (s : proto) :
  Forall byte f -> (forall u n, dhcp_reply f u n -> fits f (u + n) (u + 248)) -> exists s', net_handle_frame f s = Some s'.
Proof. apply frame_in. Qed.

(** ** Witnesses *)
Definition mac_a : list Z := [82; 84; 0; 18; 52; 86].
Definition mac_b : list Z := [82; 85; 10; 0; 2; 2].
Definition ip_a : list Z := [10; 0; 2; 15].
Definition ip_b : list Z := [10; 0; 2; 2].

Ltac addr_here := split; [reflexivity | repeat constructor; cbn; lia].

Lemma sent_checksums_valid_witness :
  exists f, udp_frame [] mac_a ip_a ip_b mac_b 53000 53 (cstr "datagram of odd length..") 64 7 = Some f /\
    net_checksum (take 20 (drop 14 f)) = 0 /\ Datatypes.length f = 66%nat.
Proof.
  assert (H : exists f, udp_frame [] mac_a ip_a ip_b mac_b 53000 53 (cstr "datagram of odd length..") 64 7 = Some f /\ Datatypes.length f = 66%nat)
    by (eexists; vm_compute; split; reflexivity).
  destruct H as (f & Hf & Hl). exists f. split; [done|]. split; [|done].
  apply (sent_checksums_valid [] mac_a ip_a ip_b mac_b (cstr "datagram of odd length..") f 53000 53 64 7 1); try addr_here; [split; lia|done].
Defined.

Lemma format_parse_ip_witness : exists text, format_ip [192; 168; 0; 7] = Some text /\ parse_ip text = Some [192; 168; 0; 7].
Proof. apply format_parse_ip. addr_here. Defined.

(** A response with an alias before the address. *)
Definition sample_question : list Z * list Z := (enc_labels [cstr "www"; cstr "site"; cstr "org"] ++ [0], [0; 1; 0; 1]).
Definition sample_alias : resource := mkResource (enc_labels [] ++ [192; 12]) 5 1 [0; 0; 1; 44] (enc_labels [cstr "web"] ++ [192; 16]).
Definition sample_address : resource := mkResource (enc_labels [cstr "web"] ++ [192; 16]) 1 1 [0; 0; 1; 44] [93; 184; 216; 34].
Definition asking : proto := with_dns net_start (mkDns 20053 true false (replicate 4 0)).

Lemma handle_dns_response_correct_witness :
  handle_dns_response (dns_message 20053 33152 [0; 0; 0; 0] [sample_question] [sample_alias; sample_address] []) asking
  = Some (with_dns asking (mkDns 20053 false true [93; 184; 216; 34])).
Proof.
  assert (L : forall ls, Forall label_ok ls <-> Forall (fun l => (1 <= Datatypes.length l)%nat /\ (Datatypes.length l <= 63)%nat) ls) by done.
  assert (Hq : wire_name (fst sample_question)) by (apply wire_root; [apply L; repeat constructor; cbn; lia | cbn; lia]).
  assert (Hp : wire_name (rr_name sample_alias)) by (apply wire_pointer; [constructor | cbn; lia | lia]).
  assert (Ha : wire_name (rr_name sample_address)) by (apply wire_pointer; [apply L; repeat constructor; cbn; lia | cbn; lia | lia]).
  apply (handle_dns_response_correct asking 33152 [0; 0; 0; 0] [] [sample_question] [sample_alias; sample_address]); try done.
  - constructor; [by split | constructor].
  - repeat constructor; done.
Defined.

(** A DHCP reply to this machine with a message type and the end mark, and an
    ARP reply. *)
Definition small_dhcp : list Z :=
  ETH_HDR mac_a mac_b 2048 ++ ip_header 280 1 64 17 ip_b ip_a ++ UDP_HDR 67 68 252
  ++ take 236 (DHCP_PKT 2 dhcp_xid 0 ip_a mac_a []) ++ [99; 130; 83; 99; 53; 1; 2; 255].
Definition arp_reply : list Z :=
  ETH_HDR mac_a mac_b 2054 ++ [0; 1; 8; 0; 6; 4; 0; 2] ++ mac_b ++ ip_b ++ mac_a ++ ip_a ++ replicate 230 0.

Ltac frame_bytes l := apply (bool_decide_eq_true_1 (Forall (fun b => 0 <= b < 256) l)); vm_compute; reflexivity.

Lemma net_handle_frame_safe_witness :
  (exists s', net_handle_frame small_dhcp net_start = Some s') /\ dhcp_reply small_dhcp 34 252 /\
  (exists s', net_handle_frame arp_reply net_start = Some s').
Proof.
  split; [|split].
  - apply net_handle_frame_safe; [frame_bytes small_dhcp|].
    intros u n [_ (v & Ev & _ & ->) _ _ (l & El & -> & _) _]. vm_compute in Ev. injection Ev as <-. vm_compute in El. injection El as <-.
    apply (fits_option _ _ _ 53 1); [reflexivity | done | done | reflexivity | by vm_compute |]. apply fits_stop. reflexivity.
  - split; [reflexivity | eexists; repeat split; reflexivity | reflexivity | do 2 eexists; repeat split; reflexivity | |].
    + eexists. split; [reflexivity|]. split; [reflexivity|]. vm_compute. split; discriminate.
    + split; [reflexivity | split; reflexivity | eexists; split; reflexivity | repeat split; reflexivity].
  - apply net_handle_frame_safe; [frame_bytes arp_reply|]. intros u n [Et _ _ _ _ _]. vm_compute in Et. discriminate.
Defined.

(** ** What goes wrong *)

(** The loop over the options of a DHCP reply reads the length of an option
    without checking that it is inside the datagram: a reply that ends with an
    option's code makes it read past the frame. *)
Definition truncated_dhcp : list Z :=
  ETH_HDR mac_a mac_b 2048 ++ ip_header 277 1 64 17 ip_b ip_a ++ UDP_HDR 67 68 249
  ++ take 236 (DHCP_PKT 2 dhcp_xid 0 ip_a mac_a []) ++ [99; 130; 83; 99; 53].

Theorem dhcp_truncated_option_overread : Datatypes.length truncated_dhcp = 283%nat /\ net_handle_frame truncated_dhcp net_start = None.
Proof. vm_compute. split; reflexivity. Qed.

(** [dns_encode_name] is given all of [query + 12], so that a name it accepts
    leaves no room for the type and class that [NetResolve] stores behind it. *)
Definition long_name : list Z := concat (replicate 7 (replicate 63 97 ++ [46])) ++ replicate 50 97.

Theorem dns_long_name_overflow : exists e, dns_encode_name long_name 500 = Some e /\ dns_query e = None.
Proof. eexists. split; vm_compute; reflexivity. Qed.

End NetSpec.
