(* ===== verification/DhcpSpec.v ===== *)
(** * The DHCP exchange

    [NetInit] on a wire where a server answers amid other traffic: what any well-formed reply
    does to the protocol state, whatever its options and their order, how long the waits
    last, and the addresses the interface ends up with. *)

From stdpp Require Import base list numbers gmap strings.
From Stdlib Require Import ZArith Lia.
From S2P Require Import Prelude.
From S2P Require Import Util.
From S2P Require Import Net.
From S2P Require Import NetSpec.
Import Util Net NetSpec.

Module DhcpSpec.

(** ** Replies *)

(** The options of a reply: padding, or a code with its data. *)
Inductive item := Pad | Opt (code : Z) (data : list Z).
Definition enc_item (i : item) : list Z := match i with Pad => [0] | Opt c d => c :: Z.of_nat (Datatypes.length d) :: d end.
Definition enc_items (l : list item) : list Z := concat (map enc_item l).
Definition item_ok (i : item) : Prop := match i with Pad => True | Opt c d => c <> 0 /\ c <> 255 end.

(** The first four bytes of the last option with that code that has them, and the last message type. *)
Fixpoint value (code : Z) (l : list item) : option (list Z) :=
  match l with
  | [] => None
  | Pad :: l => value code l
  | Opt c d :: l => match value code l with Some v => Some v | None => if (c =? code) && (4 <=? Datatypes.length d)%nat then Some (take 4 d) else None end
  end.
Fixpoint message_type (l : list item) : option Z :=
  match l with
  | [] => None
  | Opt 53 (t :: _) :: l => Some (default t (message_type l))
  | _ :: l => message_type l
  end.

(** What the options store. *)
Definition granted (l : list item) (s : proto) : proto :=
  let h := dhcp s in
  with_addresses (with_dhcp s (mkDhcp (dhcp_offer_valid h) (dhcp_ack_valid h) (dhcp_offer_ip h)
      (default (dhcp_server_ip h) (value 54 l)) (default (dhcp_offer_mask h) (value 1 l)) (default (dhcp_offer_gateway h) (value 3 l))))
    (match value 6 l with Some d => set_dns_server (addresses s) d true | None => addresses s end).

(** A step of the loop. *)
Definition stored (i : item) (ts : Z * proto) : Z * proto :=
  match i with Pad => ts | Opt c d => (default ts.1 (message_type [i]), granted [i] ts.2) end.

Lemma option_step f o limit fuel t s i rest : item_ok i -> at_ f o (enc_item i ++ rest) -> o < limit ->
  option_loop (S fuel) f o limit t s
  = option_loop fuel f (o + Z.of_nat (Datatypes.length (enc_item i))) limit (stored i (t, s)).1 (stored i (t, s)).2.
Proof.
  intros Hi Ha Hl. cbn [option_loop]. rewrite (proj2 (Z.leb_gt _ _) Hl). destruct i as [|c d]; cbn [enc_item app] in Ha.
  { destruct (at_cons _ _ _ _ Ha) as [-> _]. done. }
  destruct Hi as (H0 & H255). destruct (at_cons _ _ _ _ Ha) as [-> H1]. destruct (at_cons _ _ _ _ H1) as [E1 H2].
  cbn [mbind option_bind]. rewrite (proj2 (Z.eqb_neq c 0)), (proj2 (Z.eqb_neq c 255)), E1 by done. cbn [mbind option_bind].
  replace (o + Z.of_nat (Datatypes.length (enc_item (Opt c d)))) with (o + 1 + 1 + Z.of_nat (Datatypes.length d)) by (cbn; lia).
  apply at_app in H2 as [Hd _].
  assert (H4 : (4 <= Datatypes.length d)%nat -> load_bytes f (o + 1 + 1) 4 = Some (take 4 d)).
  { intros Hn. rewrite <- (take_drop 4 d) in Hd. apply at_app in Hd as [Hd _]. apply at_bytes in Hd. by rewrite length_take_le in Hd by done. }
  assert (B4 : (4 <=? Z.of_nat (Datatypes.length d)) = (4 <=? Datatypes.length d)%nat) by (destruct (Z.leb_spec 4 (Z.of_nat (Datatypes.length d))), (Nat.leb_spec 4 (Datatypes.length d)); (done || lia)).
  rewrite !B4. clear B4. unfold stored, granted. cbn [value fst snd].
  destruct (Z.eqb_spec c 53) as [->|N53].
  { destruct d as [|x d]; cbn [Datatypes.length andb].
    - cbn. by destruct s as [[] ? ? [] ?].
    - destruct (at_cons _ _ _ _ Hd) as [-> _]. rewrite (proj2 (Z.leb_le 1 _)) by lia. cbn [andb mbind option_bind]. cbn. by destruct s as [[] ? ? [] ?]. }
  assert (Em : message_type [Opt c d] = None) by (destruct c as [|c|c]; try done; repeat (destruct c as [c|c|]; try done)). rewrite Em. cbn [default andb].
  destruct (Nat.leb_spec 4 (Datatypes.length d)) as [Hn|Hn]; rewrite ?andb_true_r, ?andb_false_r.
  - rewrite (H4 Hn). cbn [mbind option_bind].
    destruct (Z.eqb_spec c 1) as [->|N1]; [cbn; by destruct s as [[] ? ? [] ?]|].
    destruct (Z.eqb_spec c 3) as [->|N3]; [cbn; by destruct s as [[] ? ? [] ?]|].
    destruct (Z.eqb_spec c 54) as [->|N54]; [cbn; by destruct s as [[] ? ? [] ?]|].
    destruct (Z.eqb_spec c 6) as [->|N6]; [cbn; by destruct s as [[] ? ? [] ?]|]. cbn. by destruct s as [[] ? ? [] ?].
  - cbn. by destruct s as [[] ? ? [] ?].
Qed.

(** All of them: the loop ends at the end mark, or where the datagram does. *)
Lemma message_type_cons i l t : default (default t (message_type [i])) (message_type l) = default t (message_type (i :: l)).
Proof.
  destruct i as [|c d]; [done|]. destruct c as [|c|c]; try done. repeat (destruct c as [c|c|]; try done). destruct d; done.
Qed.

Lemma granted_cons i l s : granted l (granted [i] s) = granted (i :: l) s.
Proof.
  unfold granted. destruct i as [|c d]; cbn [value]; [by destruct s as [[] ? ? [] ?]|].
  destruct (_ && _), (_ && _), (_ && _), (_ && _), (value 54 l), (value 1 l), (value 3 l), (value 6 l); by destruct s as [[] ? ? [] ?].
Qed.

Lemma options_granted f limit l : forall o fuel t s tail, Forall item_ok l -> at_ f o (enc_items l ++ tail) ->
  (o + Z.of_nat (Datatypes.length (enc_items l)) = limit \/ (o + Z.of_nat (Datatypes.length (enc_items l)) < limit /\ exists tl, tail = 255 :: tl)) ->
  (Datatypes.length l < fuel)%nat -> option_loop fuel f o limit t s = Some (default t (message_type l), granted l s).
Proof.
  induction l as [|i l IH]; intros o fuel t s tail Hok Ha Hend Hfuel; (destruct fuel as [|fuel]; [cbn in Hfuel; lia|]).
  - assert (Es : granted [] s = s) by (by destruct s as [[] ? ? [] ?]). rewrite Es. cbn in Hend. cbn [option_loop]. destruct (Z.leb_spec limit o); [done|].
    destruct Hend as [|[_ [tl ->]]]; [lia|]. cbn [enc_items map concat app] in Ha. destruct (at_cons _ _ _ _ Ha) as [-> _]. done.
  - apply Forall_cons in Hok as [Hi Hok]. change (enc_items (i :: l)) with (enc_item i ++ enc_items l) in *. rewrite length_app in Hend. rewrite <- app_assoc in Ha.
    assert (Hpos : (0 < Datatypes.length (enc_item i))%nat) by (destruct i; cbn; lia).
    rewrite (option_step f o limit fuel t s i (enc_items l ++ tail) Hi Ha) by lia. apply at_app in Ha as [_ Ha].
    rewrite (IH _ fuel _ _ tail Hok Ha); [|destruct Hend as [|[? ?]]; [left | right; split; [|done]]; lia | cbn in Hfuel; lia].
    destruct i as [|c d]; cbn [stored fst snd]; [done|]. by rewrite message_type_cons, granted_cons.
Qed.

(** A well-formed DHCP reply to this machine: it gives address [ip] and has options [l]; behind
    the end mark, or where the datagram ends, anything may follow. *)
Record reply (f ip : list Z) (l : list item) : Prop := {
  re_bytes : Forall byte f;
  re_frame : exists u n tail, dhcp_reply f u n /\ load_bytes f (u + 24) 4 = Some ip /\ at_ f (u + 248) (enc_items l ++ tail) /\
    (248 + Z.of_nat (Datatypes.length (enc_items l)) = n \/ (248 + Z.of_nat (Datatypes.length (enc_items l)) < n /\ exists tl, tail = 255 :: tl));
  re_items : Forall item_ok l
}.

(** The state after it. *)
Definition replied (ip : list Z) (l : list item) (s : proto) : proto :=
  let s := granted l s in
  let h := dhcp s in
  if default 0 (message_type l) =? 2 then with_dhcp s (mkDhcp true (dhcp_ack_valid h) ip (dhcp_server_ip h) (dhcp_offer_mask h) (dhcp_offer_gateway h))
  else if default 0 (message_type l) =? 5 then with_dhcp s (mkDhcp (dhcp_offer_valid h) true ip (dhcp_server_ip h) (dhcp_offer_mask h) (dhcp_offer_gateway h))
  else s.

Lemma bootp_handled f o n ip l s tail : 248 <= n -> bootp_reply f o -> load_bytes f (o + 16) 4 = Some ip -> Forall item_ok l ->
  at_ f (o + 240) (enc_items l ++ tail) -> (Datatypes.length l < Datatypes.length f)%nat ->
  (248 + Z.of_nat (Datatypes.length (enc_items l)) = n \/ (248 + Z.of_nat (Datatypes.length (enc_items l)) < n /\ exists tl, tail = 255 :: tl)) ->
  handle_dhcp f o n s = Some (replied ip l s).
Proof.
  intros Hn [E0 [E1 E2] (x & Ex & Hx) (C0 & C1 & C2 & C3)] Eip Hok Ha Hfuel Hend. unfold handle_dhcp. rewrite (proj2 (Z.ltb_ge _ _) Hn), E0, E1, E2, Ex, C0, C1, C2, C3.
  cbn [mbind option_bind Z.eqb Pos.eqb negb orb]. rewrite Hx, Z.eqb_refl. cbn [negb].
  rewrite (options_granted f (o + n - 8) l (o + 240) _ 0 s tail Hok Ha); [|destruct Hend as [|[? ?]]; [left; lia | right; split; [lia | done]] | done].
  cbn [mbind option_bind]. unfold replied. rewrite Eip. by destruct (default 0 (message_type l) =? 2), (default 0 (message_type l) =? 5).
Qed.

Lemma reply_dispatched f u n s : dhcp_reply f u n -> net_handle_frame f s = handle_dhcp f (u + 8) n s.
Proof.
  intros [Ht (v & Ev & Hver & Eu) Hp (sp & dp & Es & Ed & Hsp & Hdp) (l & El & En & Hn) _].
  assert (0 <= Z.land v 15) by (apply Z.land_nonneg; lia). unfold net_handle_frame. destruct (Nat.ltb_spec (Datatypes.length f) 14); [lia|].
  rewrite Ht. cbn [mbind option_bind]. change (bswap16 2048 =? bswap16 2054) with false. change (bswap16 2048 =? bswap16 2048) with true. cbn iota.
  unfold handle_ipv4. rewrite (proj2 (Z.ltb_ge _ 34)), Ev, Hp by lia. cbn [mbind option_bind]. rewrite Hver. cbn [Z.eqb Pos.eqb negb].
  unfold handle_udp. rewrite <- Eu. rewrite (proj2 (Z.ltb_ge _ (u + 8))), El by lia. cbn [mbind option_bind]. rewrite <- En.
  replace (Z.of_nat (Datatypes.length f) - 14 - Z.land v 15 * 4) with (Z.of_nat (Datatypes.length f) - u) by lia.
  rewrite (proj2 (Z.ltb_ge n 8)), (proj2 (Z.ltb_ge _ n)), Es, Ed by lia. cbn [mbind option_bind orb]. rewrite Hsp, Hdp.
  change (67 =? 53) with false. rewrite andb_false_r. done.
Qed.

Lemma enc_items_length l : (Datatypes.length l <= Datatypes.length (enc_items l))%nat.
Proof. induction l as [|i l IH]; [done|]. change (enc_items (i :: l)) with (enc_item i ++ enc_items l). rewrite length_app. destruct i; cbn; lia. Qed.

Lemma reply_handled f ip l s : reply f ip l -> net_handle_frame f s = Some (replied ip l s).
Proof.
  intros [_ (u & n & tail & Hr & Eip & Ha & Hend) Hok]. rewrite (reply_dispatched f u n s Hr). pose proof (dr_length _ _ _ Hr) as (x & _ & _ & Hn).
  pose proof (enc_items_length l) as Hlen. destruct (dr_ip _ _ _ Hr) as (v & _ & _ & Eu). assert (0 <= Z.land v 15) by (apply Z.land_nonneg; lia).
  apply (bootp_handled f (u + 8) n ip l s tail); [lia | apply Hr | by replace (u + 8 + 16) with (u + 24) by lia | done | by replace (u + 8 + 240) with (u + 248) by lia | lia | exact Hend].
Qed.

(** A poll that brings the reply amid quiet frames. *)
Lemma quiet_frames fs s : Forall quiet_frame fs -> exists s', handle_frames fs s = Some s' /\ same_lease s s'.
Proof.
  intros Hq. revert s. induction Hq as [|f fs Hf Hq IH]; intros s; cbn [handle_frames]; [by exists s|].
  destruct (quiet_frame_taken f s Hf) as (s1 & -> & E1 & E2). cbn [mbind option_bind]. destruct (IH s1) as (s2 & -> & E3 & E4). exists s2. split; [done|]. split; congruence.
Qed.

Lemma handle_frames_app fs1 fs2 s : handle_frames (fs1 ++ fs2) s = handle_frames fs1 s ≫= handle_frames fs2.
Proof. revert s. induction fs1 as [|f fs1 IH]; intros s; cbn [app handle_frames]; [done|]. destruct (net_handle_frame f s); [apply IH | done]. Qed.

Lemma replied_same ip l s s' : same_lease s s' -> same_lease (replied ip l s) (replied ip l s').
Proof. intros [E1 E2]. destruct s, s'. cbn in E1, E2. subst. unfold replied, granted, same_lease. cbn. by destruct (default 0 (message_type l) =? 2), (default 0 (message_type l) =? 5), (value 6 l). Qed.

Definition brings (fs : list (list Z)) (ip : list Z) (l : list item) : Prop :=
  exists before f after, fs = before ++ f :: after /\ Forall quiet_frame before /\ Forall quiet_frame after /\ reply f ip l.

Lemma brings_handled fs ip l s s0 : brings fs ip l -> same_lease s0 s -> exists s', handle_frames fs s = Some s' /\ same_lease (replied ip l s0) s'.
Proof.
  intros (before & f & after & -> & Hb & Ha & Hr) H0. rewrite handle_frames_app. destruct (quiet_frames before s Hb) as (s1 & -> & [E1 E2]). cbn [mbind option_bind handle_frames].
  rewrite (reply_handled f ip l s1 Hr). cbn [mbind option_bind]. destruct (quiet_frames after (replied ip l s1) Ha) as (s2 & -> & [E3 E4]). exists s2. split; [done|].
  destruct (replied_same ip l s0 s1) as [E5 E6]; [destruct H0; split; congruence|]. split; congruence.
Qed.

(** ** A card on a wire

    [inbox] is what each poll will find, [outbox] what was sent. *)
Record wire := mkWire { inbox : list (list (list Z)); outbox : list (list Z) }.

Definition wire_ops (mac : list Z) : NIC_OPS wire :=
  mkNic (fun _ w => Some (true, Some mac, w))
    (fun w => Some (match inbox w with [] => ([], w) | fs :: rest => (fs, mkWire rest (outbox w)) end))
    (fun f w => Some (mkWire (inbox w) (outbox w ++ [f]))) (fun _ => true) (cstr "wire").

(** The card is the first candidate. *)
Definition find_wire (pci : PCI_DEVICE_INFO) (vendor device : Z) (w : wire) : option PCI_DEVICE_INFO * wire :=
  (if vendor =? 4332 then Some pci else None, w).

(** Waiting passes over quiet frames, until the frames that raise the flag. *)
Lemma spin_wire mac n flag r idle fs rest out ip l :
  (forall s s', same_lease s s' -> flag s' = flag s) -> Forall (Forall quiet_frame) idle -> brings fs ip l -> forall s s0,
  (Datatypes.length idle < n)%nat -> same_lease s0 s -> flag s = false -> flag (replied ip l s0) = true ->
  exists s', spin n flag (mkNet s r (Some (wire_ops mac)) (mkWire (idle ++ fs :: rest) out))
      = Some (mkNet s' r (Some (wire_ops mac)) (mkWire rest out)) /\ same_lease (replied ip l s0) s'.
Proof.
  intros Hflag Hidle Hb. revert n. induction Hidle as [|q idle Hq Hidle IH]; intros n s s0 Hn H0 Hf Hf'; (destruct n as [|n]; [cbn in Hn; lia|]); cbn [spin state]; rewrite Hf.
  - unfold NetPoll. cbn [nic_ops poll_frames wire_ops inbox world app state mbind option_bind outbox].
    destruct (brings_handled fs ip l s s0 Hb H0) as (s' & -> & Hs). cbn [mbind option_bind].
    exists s'. split; [|done]. destruct n; cbn [spin]; unfold set_world, set_proto; cbn [state world nic_ready nic_ops]; by rewrite (Hflag _ _ Hs), Hf'.
  - unfold NetPoll. cbn [nic_ops poll_frames wire_ops inbox world app state mbind option_bind outbox].
    destruct (quiet_frames q s Hq) as (s1 & -> & E). cbn [mbind option_bind]. unfold set_world, set_proto. cbn [state world nic_ready nic_ops].
    apply IH; [cbn in Hn; lia | destruct H0, E; split; congruence | by rewrite (Hflag s s1) | done].
Qed.

Definition discover_frame (stack mac : list Z) : option (list Z) :=
  udp_frame stack mac (replicate 4 0) (replicate 4 255) (replicate 6 255) 68 67 (dhcp_packet mac 1 None None) 64 (u16 dhcp_xid).
Definition request_frame (stack mac ip server : list Z) : option (list Z) :=
  udp_frame stack mac (replicate 4 0) (replicate 4 255) (replicate 6 255) 68 67 (dhcp_packet mac 3 (Some ip) (Some server)) 64 (u16 dhcp_xid).

Definition no_offer (s : proto) : proto :=
  let h := dhcp s in
  with_dhcp s (mkDhcp false (dhcp_ack_valid h) (dhcp_offer_ip h) (dhcp_server_ip h) (dhcp_offer_mask h) (dhcp_offer_gateway h)).

Lemma send_wire stack mac mt ip sv s r w f :
  nic_mac (addresses s) = mac ->
  udp_frame stack mac (replicate 4 0) (replicate 4 255) (replicate 6 255) 68 67 (dhcp_packet mac mt ip sv) 64 (u16 dhcp_xid) = Some f ->
  send_dhcp_packet stack mt ip sv (mkNet s r (Some (wire_ops mac)) w) = Some (mkNet s r (Some (wire_ops mac)) (mkWire (inbox w) (outbox w ++ [f]))).
Proof. intros Hm Hf. unfold send_dhcp_packet, send_udp_ipv4. cbn [state]. rewrite Hm, Hf. done. Qed.

Lemma attempts_step {W} stack n (st : @net W) :
  dhcp_attempts stack (S n) st =
  if dhcp_ack_valid (dhcp (state st)) then Some st else
  st ← send_dhcp_packet stack 1 None None (clear_offer st);
  st ← spin (poll_count 6000000) (fun s => dhcp_offer_valid (dhcp s)) st;
  let h := dhcp (state st) in
  if negb (dhcp_offer_valid h) then dhcp_attempts stack n st else
  st ← send_dhcp_packet stack 3 (Some (dhcp_offer_ip h)) (Some (dhcp_server_ip h)) st;
  st ← spin (poll_count 6000000) (fun s => dhcp_ack_valid (dhcp s)) st;
  dhcp_attempts stack n st.
Proof. reflexivity. Qed.

Lemma attempts_done {W} stack n (st : @net W) : dhcp_ack_valid (dhcp (state st)) = true -> dhcp_attempts stack n st = Some st.
Proof. intros E. destruct n; cbn [dhcp_attempts]; by rewrite E. Qed.

Lemma offer_flag s s' : same_lease s s' -> dhcp_offer_valid (dhcp s') = dhcp_offer_valid (dhcp s).
Proof. by intros [-> _]. Qed.
Lemma ack_flag s s' : same_lease s s' -> dhcp_ack_valid (dhcp s') = dhcp_ack_valid (dhcp s).
Proof. by intros [-> _]. Qed.

(** One attempt with a server that answers. *)
Lemma attempt_ok stack mac idle1 idle2 offer ack ip ip' server O A discover request rest s n r :
  brings offer ip O -> brings ack ip' A -> message_type O = Some 2 -> message_type A = Some 5 -> value 54 O = Some server ->
  Forall (Forall quiet_frame) idle1 -> Forall (Forall quiet_frame) idle2 -> Z.of_nat (Datatypes.length idle1) < 2930 -> Z.of_nat (Datatypes.length idle2) < 2930 ->
  discover_frame stack mac = Some discover -> request_frame stack mac ip server = Some request ->
  nic_mac (addresses s) = mac -> dhcp_ack_valid (dhcp s) = false ->
  exists s', dhcp_attempts stack (S n) (mkNet s r (Some (wire_ops mac)) (mkWire (idle1 ++ offer :: idle2 ++ ack :: rest) []))
    = Some (mkNet s' r (Some (wire_ops mac)) (mkWire rest [discover; request])) /\ same_lease (replied ip' A (replied ip O (no_offer s))) s'.
Proof.
  intros HO HA TO TA Esv Hq1 Hq2 Hk1 Hk2 Ed Er Hm Hack. rewrite attempts_step. cbn [state]. rewrite Hack.
  assert (Hpolls : Z.of_nat (poll_count 6000000) = 2930) by (unfold poll_count; rewrite Z2Nat.id by done; done).
  generalize dependent (poll_count 6000000). intros N Hpolls.
  change (clear_offer (mkNet s r (Some (wire_ops mac)) ?w)) with (mkNet (no_offer s) r (Some (wire_ops mac)) w).
  rewrite (send_wire stack mac 1 None None (no_offer s) r _ discover Hm Ed). cbn [mbind option_bind inbox outbox app].
  set (s0 := replied ip O (no_offer s)).
  assert (F0 : dhcp_offer_valid (dhcp s0) = true /\ dhcp_offer_ip (dhcp s0) = ip /\ dhcp_server_ip (dhcp s0) = server /\ dhcp_ack_valid (dhcp s0) = false /\ nic_mac (addresses s0) = mac).
  { subst s0. unfold replied. rewrite TO. cbn [default Z.eqb Pos.eqb]. unfold granted. cbn. rewrite Esv. destruct (value 6 O); by cbn. }
  destruct F0 as (F1 & F2 & F3 & F4 & F5).
  destruct (spin_wire mac N (fun s => dhcp_offer_valid (dhcp s)) r idle1 offer (idle2 ++ ack :: rest) [discover] ip O offer_flag Hq1 HO (no_offer s) (no_offer s))
    as (s1 & -> & [E1 E2]); [lia | done | done | exact F1 |]. fold s0 in E1, E2.
  cbn [mbind option_bind state]. rewrite E1, F1, F2, F3. cbn [negb].
  rewrite (send_wire stack mac 3 (Some ip) (Some server) s1 r _ request ltac:(congruence) Er). cbn [mbind option_bind inbox outbox app].
  destruct (spin_wire mac N (fun s => dhcp_ack_valid (dhcp s)) r idle2 ack rest [discover; request] ip' A ack_flag Hq2 HA s1 s0)
    as (s2 & -> & Es2); [lia | by split | congruence | unfold replied; by rewrite TA |].
  cbn [mbind option_bind]. exists s2. split; [|done]. apply attempts_done. cbn [state]. rewrite (ack_flag _ _ Es2). unfold replied. by rewrite TA.
Qed.

(** The card is found at the first probe. *)
Lemma probe_wire pci mac device cards s w :
  probe_cards (find_wire pci) ((4332, device, wire_ops mac) :: cards) (mkNet s false None w)
  = Some (mkNet (with_addresses s (set_mac (addresses s) mac)) true (Some (wire_ops mac)) w).
Proof. reflexivity. Qed.

Definition probed (s : proto) (mac : list Z) : proto := dhcp_reset_offer_state (with_addresses s (set_mac (addresses s) mac)).

Lemma NetInit_probed stack pci mac pcnet e1000 s w st :
  dhcp_attempts stack 3 (mkNet (probed s mac) true (Some (wire_ops mac)) w) = Some st ->
  NetInit stack (find_wire pci) (wire_ops mac) pcnet e1000 (mkNet s false None w) = Some (set_proto st (apply_lease (state st))).
Proof.
  intros E. unfold NetInit. set (n := 3%nat) in *. cbn [state world]. rewrite probe_wire. cbn [mbind option_bind nic_ready negb].
  transitivity (st' ← dhcp_attempts stack n (mkNet (probed s mac) true (Some (wire_ops mac)) w); Some (set_proto st' (apply_lease (state st'))));
    [reflexivity | by rewrite E].
Qed.

(** What the acknowledgement says, or else the offer. *)
Definition chosen (code : Z) (O A : list item) : option (list Z) := match value code A with Some v => Some v | None => value code O end.

(** C16. The DHCP exchange of [NetInit]: any server that answers within the wait with a well-formed
    offer that names it, and within the next with a well-formed acknowledgement (any options, in any
    order, with any padding), amid any other frames that are no DHCP replies to this machine, gets one
    request for what it offered, and the interface ends with the acknowledged address, the mask and
    gateway of the acknowledgement, or else of the offer, unless they are missing or zero, and its name server. *)
Theorem NetInit_leases (stack mac ip ip' server : list Z) (O A : list item) (pci : PCI_DEVICE_INFO) (pcnet e1000 : NIC_OPS wire)
    (idle1 idle2 : list (list (list Z))) (offer ack : list (list Z)) (discover request : list Z) (rest : list (list (list Z))) (s : proto) :
  brings offer ip O -> message_type O = Some 2 -> value 54 O = Some server ->
  brings ack ip' A -> message_type A = Some 5 ->
  Forall (Forall quiet_frame) idle1 -> Forall (Forall quiet_frame) idle2 -> Z.of_nat (Datatypes.length idle1) < 2930 -> Z.of_nat (Datatypes.length idle2) < 2930 ->
  discover_frame stack mac = Some discover -> request_frame stack mac ip server = Some request ->
  let given code usual := match chosen code O A with Some v => if nonzero_ip v then v else usual | None => usual end in
  exists st, NetInit stack (find_wire pci) (wire_ops mac) pcnet e1000
      (mkNet s false None (mkWire (idle1 ++ offer :: idle2 ++ ack :: rest) [])) = Some st /\
    nic_ready st = true /\ world st = mkWire rest [discover; request] /\
    addresses (state st) = mkAddresses mac ip' (given 1 (nic_mask (addresses s))) (given 3 (nic_gateway (addresses s)))
      (default (replicate 4 0) (chosen 6 O A)) (bool_decide (is_Some (chosen 6 O A))).
Proof.
  intros HO TO Esv HA TA Hq1 Hq2 Hk1 Hk2 Ed Er given.
  destruct (attempt_ok stack mac idle1 idle2 offer ack ip ip' server O A discover request rest (probed s mac) 2 true HO HA TO TA Esv Hq1 Hq2 Hk1 Hk2 Ed Er eq_refl eq_refl)
    as (s' & E & [E1 E2]). eexists. split; [by apply NetInit_probed|].
  split; [done|]. split; [done|]. cbn [state set_proto]. unfold apply_lease. rewrite E1, E2. unfold replied. rewrite TO, TA. cbn [default Z.eqb Pos.eqb].
  unfold given, chosen. unfold granted. cbn.
  destruct (value 1 A) as [m|], (value 1 O) as [m'|]; cbn [default];
  destruct (value 3 A) as [g|], (value 3 O) as [g'|]; cbn [default];
  destruct (value 6 A) as [d|], (value 6 O) as [d'|]; cbn;
  repeat match goal with |- context [nonzero_ip ?x] => destruct (nonzero_ip x) eqn:? end; cbn; done.
Qed.

(** ** Witness *)
Definition server_reply (ip : list Z) (options : list Z) : list Z :=
  ETH_HDR mac_a mac_b 2048 ++ ip_header 576 1 64 17 ip_b (replicate 4 255) ++ UDP_HDR 67 68 556 ++ DHCP_PKT 2 dhcp_xid 0 ip mac_a ([99; 130; 83; 99] ++ options ++ [255]).

(** Server, lease time, padding, mask, two routers, name server; the acknowledgement has no gateway. *)
Definition offer_items : list item :=
  [Opt 53 [2]; Opt 54 ip_b; Opt 51 [0; 1; 81; 128]; Pad; Opt 1 [255; 255; 255; 0]; Opt 3 [10; 0; 2; 2; 10; 0; 2; 4]; Opt 6 [10; 0; 2; 3]].
Definition ack_items : list item := [Opt 51 [0; 1; 81; 128]; Opt 6 [10; 0; 2; 3]; Opt 1 [255; 255; 0; 0]; Opt 53 [5]; Opt 54 ip_b].
Definition sample_pci : PCI_DEVICE_INFO := mkPci 0 3 0 4332 33081 49153 0 7 11.
Definition idle_nic : NIC_OPS wire := mkNic (fun _ w => Some (false, None, w)) (fun w => Some ([], w)) (fun _ w => Some w) (fun _ => false) [].

Lemma sample_reply l : l = offer_items \/ l = ack_items -> reply (server_reply [10; 0; 2; 15] (enc_items l)) [10; 0; 2; 15] l.
Proof.
  intros Hl. assert (Hok : Forall item_ok l) by (destruct Hl as [-> | ->]; repeat constructor; done). split; [|exists 34, 556|done].
  - destruct Hl as [-> | ->]; apply (bool_decide_eq_true_1 (Forall (fun b => 0 <= b < 256) _)); vm_compute; reflexivity.
  - destruct Hl as [-> | ->]; eexists; (split; [|split; [reflexivity|split; [split; [lia|]; eexists; reflexivity | right; split; [vm_compute; reflexivity | eexists; reflexivity]]]]);
      (split; [reflexivity | eexists; repeat split; reflexivity | reflexivity | do 2 eexists; repeat split; reflexivity | eexists; split; [reflexivity|]; split; [reflexivity|]; vm_compute; split; discriminate|
        split; [reflexivity | split; reflexivity | eexists; split; reflexivity | repeat split; reflexivity]]).
Qed.

Lemma arp_quiet : quiet_frame arp_reply.
Proof. split; [frame_bytes arp_reply|]. intros u n [Et _ _ _ _ _]. vm_compute in Et. discriminate. Qed.

Lemma NetInit_leases_witness :
  exists st, NetInit [] (find_wire sample_pci) (wire_ops mac_a) idle_nic idle_nic
      (mkNet net_start false None (mkWire ([[]; [arp_reply]] ++ [server_reply [10; 0; 2; 15] (enc_items offer_items)]
        :: [[]] ++ [arp_reply; server_reply [10; 0; 2; 15] (enc_items ack_items)] :: []) [])) = Some st /\
    nic_ip (addresses (state st)) = [10; 0; 2; 15] /\ nic_mask (addresses (state st)) = [255; 255; 0; 0] /\ nic_gateway (addresses (state st)) = [10; 0; 2; 2].
Proof.
  assert (H : exists discover request, discover_frame [] mac_a = Some discover /\ request_frame [] mac_a [10; 0; 2; 15] ip_b = Some request)
    by (do 2 eexists; vm_compute; split; reflexivity).
  destruct H as (discover & request & Ed & Er). pose proof arp_quiet as Hq.
  assert (HO : brings [server_reply [10; 0; 2; 15] (enc_items offer_items)] [10; 0; 2; 15] offer_items).
  { eexists [], _, []. split; [reflexivity|]. split; [done|]. split; [done|]. apply sample_reply. by left. }
  assert (HA : brings [arp_reply; server_reply [10; 0; 2; 15] (enc_items ack_items)] [10; 0; 2; 15] ack_items).
  { eexists [arp_reply], _, []. split; [reflexivity|]. split; [by apply Forall_singleton|]. split; [done|]. apply sample_reply. by right. }
  assert (Hi1 : Forall (Forall quiet_frame) [[]; [arp_reply]]) by (apply Forall_cons_2; [done|]; apply Forall_singleton; by apply Forall_singleton).
  assert (Hi2 : Forall (Forall quiet_frame) [[]]) by (by apply Forall_singleton).
  destruct (NetInit_leases [] mac_a [10; 0; 2; 15] [10; 0; 2; 15] ip_b offer_items ack_items sample_pci idle_nic idle_nic [[]; [arp_reply]] [[]]
    _ _ discover request [] net_start HO eq_refl eq_refl HA eq_refl Hi1 Hi2 eq_refl eq_refl Ed Er) as (st & E & _ & _ & Ha).
  exists st. split; [exact E|]. rewrite Ha. split; [reflexivity|]. split; reflexivity.
Defined.

(** When the ARP request for the name server is not answered, the query is never
    built, but the fallback through the gateway sends it. *)
Definition resolving : proto :=
  with_addresses net_start (mkAddresses mac_a [10; 0; 2; 15] [255; 255; 255; 0] [10; 0; 2; 2] [10; 0; 2; 3] true).
Definition gateway_reply : list Z := ETH_HDR mac_a mac_b 2054 ++ ARP_PKT 2 mac_b [10; 0; 2; 2] mac_a [10; 0; 2; 15].

Theorem NetResolve_uninitialised_query :
  NetResolve [] (Some (cstr "site.org")) true 16
    (mkNet resolving true (Some (wire_ops mac_a)) (mkWire (replicate 1954 [] ++ [[gateway_reply]]) [])) = None.
Proof. vm_compute. reflexivity. Qed.

End DhcpSpec.
