(* ===== verification/Nic.v ===== *)
(** * drivers/net/net.c: the cards

    The RTL8139, PCnet and E1000 drivers, each a [NIC_OPS] record of [Net].  The
    memory a card shares with the driver by DMA (rings, buffers) belongs to the
    hardware: it is read and written with the bus's loads and stores, so that a
    card may change it at any time.  Of the packets a poll finds, the bytes are
    given in order; [NetPoll] hands them to [net_handle_frame], which does not
    touch the card. *)

From stdpp Require Import base list numbers gmap strings.
From Stdlib Require Import ZArith Lia.
From S2P Require Import Prelude.
From S2P Require Import Util.
From S2P Require Import Pmm.
From S2P Require Import Vmm.
From S2P Require Import Mm.
From S2P Require Import Hw.
From S2P Require Import Net.
Import Util Hw Net.

Module Nic.

Definition RX_BUF_SIZE : Z := 8192.
Definition TX_BUF_SIZE : Z := 2048.

(** ** Memory shared with a card *)
Section memory.
Context {D : Type} `{Bus D}.

Definition ld (w : width) (p : Z) : hw D Z := x ← mmio_load w p; mret (truncate w x).
Definition st (w : width) (p v : Z) : hw D unit := mmio_store w p (truncate w v).

(** [memcpy] from a local buffer, [memset] to zero, and the bytes of a packet. *)
Fixpoint copy_out (p : Z) (bytes : list Z) : hw D unit :=
  match bytes with [] => mret tt | b :: bytes => st W8 p b;; copy_out (p + 1) bytes end.
Definition zero_out (p : Z) (n : nat) : hw D unit := copy_out p (replicate n 0).
Fixpoint copy_in (p : Z) (n : nat) : hw D (list Z) :=
  match n with O => mret [] | S n' => b ← ld W8 p; r ← copy_in (p + 1) n'; mret (b :: r) end.

Fixpoint read_mac (a : arch) (n : nat) (port : Z) : hw D (list Z) :=
  match n with O => mret [] | S n' => b ← inb a port; r ← read_mac a n' (port + 1); mret (b :: r) end.

End memory.

(** ** The drivers' statics *)
Record RTL := mkRtl { rtl_io : Z; rx_offset : Z; tx_slot : Z; rtl_rx : Z; rtl_tx : list Z; rtl_ready : bool }.
Record PCNET := mkPcnet {
  pc_io : Z; init_block : Z; pc_rx_ring : Z; pc_tx_ring : Z; pc_rx : list Z; pc_tx : list Z; rx_index : Z; tx_index : Z; pc_ready : bool
}.
Record E1000 := mkE1000 {
  mmio : Z; e_rx_ring : Z; e_tx_ring : Z; e_rx : list Z; e_tx : list Z; rx_tail : Z; tx_tail : Z; e_ready : bool
}.

Definition rtl_zero : RTL := mkRtl 0 0 0 0 (replicate 4 0) false.
Definition pcnet_zero : PCNET := mkPcnet 0 0 0 0 (replicate 8 0) (replicate 8 0) 0 0 false.
Definition e1000_zero : E1000 := mkE1000 0 0 0 (replicate 8 0) (replicate 8 0) 0 0 false.

Section cards.
Context {D H : Type} `{Bus D} `{KernelHeap H} (a : arch).

Record cards := mkCards { rtl : RTL; pcnet : PCNET; e1000 : E1000; bus : D; kheap : H }.
Implicit Types w : cards.

Definition on_bus {A} (f : hw D A) w : A * cards :=
  let '(x, d) := f (bus w) in (x, mkCards (rtl w) (pcnet w) (e1000 w) d (kheap w)).
Definition set_rtl w (r : RTL) : cards := mkCards r (pcnet w) (e1000 w) (bus w) (kheap w).
Definition set_pcnet w (c : PCNET) : cards := mkCards (rtl w) c (e1000 w) (bus w) (kheap w).
Definition set_e1000 w (c : E1000) : cards := mkCards (rtl w) (pcnet w) c (bus w) (kheap w).
Definition put_heap w (h : H) : cards := mkCards (rtl w) (pcnet w) (e1000 w) (bus w) h.

Definition card_malloc (n : Z) w : option (Z * cards) := '(p, h) ← kh_malloc n (kheap w); Some (p, put_heap w h).
Fixpoint allocate (sizes : list Z) w : option (list Z * cards) :=
  match sizes with [] => Some ([], w) | n :: sizes => '(p, w) ← card_malloc n w; '(ps, w) ← allocate sizes w; Some (p :: ps, w) end.
Definition null (p : Z) : bool := p =? 0.

(** ** RTL8139 *)

(** From the reset on. *)
Definition rtl_start (port rx_buffer : Z) : hw D (list Z) :=
  outb a (port + 82) 0;; outb a (port + 55) 16;;
  wait_loop (Z.to_nat 1000000) (inb a (port + 55)) (fun s => if Z.land s 16 =? 0 then Break else Again);;
  mac ← read_mac a 6 port;
  outl a (port + 48) rx_buffer;; outw a (port + 60) 0;; outl a (port + 68) 138;; outl a (port + 64) 50333440;;
  outl a (port + 76) 0;; outw a (port + 56) 0;; outw a (port + 62) 65535;; outb a (port + 55) 12;; mret mac.

Definition rtl_init (pci : PCI_DEVICE_INFO) w : option (bool * option (list Z) * cards) :=
  let port := u16 (Z.land (bar0 pci) 4294967292) in
  let '(_, w) := on_bus (pci_enable_busmaster a pci) w in
  '(ps, w) ← allocate [RX_BUF_SIZE + 16 + 1500; TX_BUF_SIZE; TX_BUF_SIZE; TX_BUF_SIZE; TX_BUF_SIZE] w;
  let rx := get 0 ps 0 in
  let r := rtl w in
  let w := set_rtl w (mkRtl port (rx_offset r) (tx_slot r) rx (drop 1 ps) (rtl_ready r)) in
  if existsb null ps then Some (false, None, w) else
  let '(mac, w) := on_bus (rtl_start port (u32 rx)) w in
  Some (true, Some mac, set_rtl w (mkRtl port 0 (tx_slot r) rx (drop 1 ps) true)).

Definition rtl_send (frame : list Z) w : option cards :=
  let r := rtl w in
  let len := Z.of_nat (Datatypes.length frame) in
  let tx := get 0 (rtl_tx r) (tx_slot r) in
  if negb (rtl_ready r) || null tx || (len <=? 0) || (TX_BUF_SIZE <? len) then Some w else
  let '(_, w) := on_bus (copy_out tx frame;; outl a (rtl_io r + 32 + tx_slot r * 4) (u32 tx);; outl a (rtl_io r + 16 + tx_slot r * 4) len) w in
  Some (set_rtl w (mkRtl (rtl_io r) (rx_offset r) (Z.land (tx_slot r + 1) 3) (rtl_rx r) (rtl_tx r) (rtl_ready r))).

(** The offset of the packet after one of [len] bytes at [off]. *)
Definition next_packet (off len : Z) : Z := u16 (Z.land (off + len + 4 + 3) (Z.lnot 3) mod RX_BUF_SIZE).

(** [while (!(inb(io + CR) & 1))]: as many turns as the card has packets. *)
Fixpoint rtl_loop (fuel : nat) (got : list (list Z)) w : option (list (list Z) * cards) :=
  let r := rtl w in
  let '(cr, w) := on_bus (inb a (rtl_io r + 55)) w in
  if negb (Z.land cr 1 =? 0) then Some (got, w) else
  match fuel with
  | O => None
  | S fuel' =>
      let hdr := rtl_rx r + rx_offset r in
      let '(status, w) := on_bus (ld W16 hdr) w in
      let '(packet_len, w) := on_bus (ld W16 (hdr + 2)) w in
      if (Z.land status 1 =? 0) || (packet_len <? 60) || (1600 <? packet_len) then
        Some (got, snd (on_bus (outw a (rtl_io r + 56) (Z.land (rx_offset r - 16) 65535)) w))
      else
      let '(packet, w) := on_bus (copy_in (hdr + 4) (Z.to_nat packet_len)) w in
      let off := next_packet (rx_offset r) packet_len in
      let w := set_rtl w (mkRtl (rtl_io r) off (tx_slot r) (rtl_rx r) (rtl_tx r) (rtl_ready r)) in
      let '(_, w) := on_bus (outw a (rtl_io r + 56) (Z.land (off - 16) 65535);; outw a (rtl_io r + 62) 65535) w in
      rtl_loop fuel' (got ++ [packet]) w
  end.

Definition rtl_poll (fuel : nat) w : option (list (list Z) * cards) :=
  if negb (rtl_ready (rtl w)) then Some ([], w) else rtl_loop fuel [] w.

Definition rtl_is_ready w : bool := rtl_ready (rtl w).
Definition rtl_ops (fuel : nat) : NIC_OPS cards := mkNic rtl_init (rtl_poll fuel) rtl_send rtl_is_ready (cstr "RTL8139").

(** ** PCnet *)
Section pcnet.
Context (io : Z).
Definition pcnet_rap (reg : Z) : hw D unit := outw a (io + 18) reg.
Definition pcnet_csr_read (reg : Z) : hw D Z := pcnet_rap reg;; inw a (io + 16).
Definition pcnet_csr_write (reg v : Z) : hw D unit := pcnet_rap reg;; outw a (io + 16) v.
Definition pcnet_bcr_write (reg v : Z) : hw D unit := pcnet_rap reg;; outw a (io + 22) v.

Definition pcnet_reset : hw D unit :=
  inw a (io + 20);; inw a (io + 20);; pcnet_bcr_write 20 2;; pcnet_csr_write 0 4.

(** The two rings and the initialisation block cleared, the hardware address read
    and stored in the block with the ring sizes and addresses. *)
Definition pcnet_blocks (block rx tx : Z) : hw D (list Z) :=
  zero_out block 28;; zero_out rx 128;; zero_out tx 128;;
  mac ← read_mac a 6 io;
  copy_out (block + 4) mac;; st W8 (block + 2) 51;; st W32 (block + 20) (u32 rx);; st W32 (block + 24) (u32 tx);; mret mac.

(** One descriptor of each ring. *)
Definition pcnet_desc (rx tx rbuf tbuf : Z) : hw D unit :=
  st W32 rx (u32 rbuf);; st W16 (rx + 4) (- TX_BUF_SIZE);; st W16 (rx + 6) 32768;;
  st W32 tx (u32 tbuf);; st W16 (tx + 4) (- TX_BUF_SIZE);; st W16 (tx + 6) 0.

Definition pcnet_start (block : Z) : hw D unit :=
  pcnet_csr_write 1 (Z.land block 65535);; pcnet_csr_write 2 (Z.land (Z.shiftr (u32 block) 16) 65535);; pcnet_csr_write 3 0;; pcnet_csr_write 0 1;;
  wait_loop (Z.to_nat 1000000) (pcnet_csr_read 0) (fun s => if Z.land s 256 =? 0 then Again else Break);;
  pcnet_csr_write 0 258.
End pcnet.

Definition set_buffers (c : PCNET) (rx tx : list Z) : PCNET :=
  mkPcnet (pc_io c) (init_block c) (pc_rx_ring c) (pc_tx_ring c) rx tx (rx_index c) (tx_index c) (pc_ready c).

(** The buffers of descriptors [i], [i + 1], ...; [false] when one is refused. *)
Fixpoint pcnet_buffers (n : nat) (i : Z) w : option (bool * cards) :=
  match n with
  | O => Some (true, w)
  | S n' =>
      '(r, w) ← card_malloc TX_BUF_SIZE w; '(t, w) ← card_malloc TX_BUF_SIZE w;
      let c := pcnet w in
      let w := set_pcnet w (set_buffers c (put (pc_rx c) i r) (put (pc_tx c) i t)) in
      if null r || null t then Some (false, w) else
      let '(_, w) := on_bus (pcnet_desc (pc_rx_ring c + 16 * i) (pc_tx_ring c + 16 * i) r t) w in
      pcnet_buffers n' (i + 1) w
  end.

Definition pcnet_init (pci : PCI_DEVICE_INFO) w : option (bool * option (list Z) * cards) :=
  let io := u16 (Z.land (bar0 pci) 4294967292) in
  let '(_, w) := on_bus (pci_enable_busmaster a pci;; pcnet_reset io) w in
  '(ps, w) ← allocate [28; 128; 128] w;
  let c := pcnet w in
  let w := set_pcnet w (mkPcnet io (get 0 ps 0) (get 0 ps 1) (get 0 ps 2) (pc_rx c) (pc_tx c) (rx_index c) (tx_index c) (pc_ready c)) in
  if existsb null ps then Some (false, None, w) else
  let '(mac, w) := on_bus (pcnet_blocks io (get 0 ps 0) (get 0 ps 1) (get 0 ps 2)) w in
  '(ok, w) ← pcnet_buffers 8 0 w;
  if negb ok then Some (false, Some mac, w) else
  let '(_, w) := on_bus (pcnet_start io (get 0 ps 0)) w in
  let c := pcnet w in
  Some (true, Some mac, set_pcnet w (mkPcnet io (init_block c) (pc_rx_ring c) (pc_tx_ring c) (pc_rx c) (pc_tx c) 0 0 true)).

Definition pcnet_send (frame : list Z) w : option cards :=
  let c := pcnet w in
  let idx := Z.land (tx_index c) 7 in
  let len := Z.of_nat (Datatypes.length frame) in
  if negb (pc_ready c) || (len <=? 0) || (TX_BUF_SIZE <? len) then Some w else
  let d := pc_tx_ring c + 16 * idx in
  let '(status, w) := on_bus (ld W16 (d + 6)) w in
  if negb (Z.land status 32768 =? 0) then Some w else
  let '(_, w) := on_bus (copy_out (get 0 (pc_tx c) idx) frame;; st W16 (d + 4) (- len);; st W32 (d + 8) 0;; st W16 (d + 6) 33536) w in
  let w := set_pcnet w (mkPcnet (pc_io c) (init_block c) (pc_rx_ring c) (pc_tx_ring c) (pc_rx c) (pc_tx c) (rx_index c) (Z.land (tx_index c + 1) 7) (pc_ready c)) in
  let '(_, w) := on_bus (pcnet_csr_write (pc_io c) 0 10) w in
  Some w.

(** A descriptor the card has given back: its packet, if it is whole and not too
    long, and the descriptor returned to the card. *)
Definition pcnet_take (d buffer : Z) : hw D (list (list Z)) :=
  status ← ld W16 (d + 6);
  got ← (if Z.land status 768 =? 768 then
           misc ← ld W32 (d + 8);
           let packet_len := Z.land misc 4095 in
           if (0 <? packet_len) && (packet_len <=? TX_BUF_SIZE) then p ← copy_in buffer (Z.to_nat packet_len); mret [p] else mret []
         else mret []);
  st W16 (d + 4) (- TX_BUF_SIZE);; st W16 (d + 6) 32768;; mret got.

Fixpoint pcnet_loop (n : nat) (got : list (list Z)) w : list (list Z) * cards :=
  match n with
  | O => (got, w)
  | S n' =>
      let c := pcnet w in
      let i := Z.land (rx_index c) 7 in
      let d := pc_rx_ring c + 16 * i in
      let '(status, w) := on_bus (ld W16 (d + 6)) w in
      if negb (Z.land status 32768 =? 0) then (got, w) else
      let '(g, w) := on_bus (pcnet_take d (get 0 (pc_rx c) i)) w in
      pcnet_loop n' (got ++ g)
        (set_pcnet w (mkPcnet (pc_io c) (init_block c) (pc_rx_ring c) (pc_tx_ring c) (pc_rx c) (pc_tx c) (Z.land (rx_index c + 1) 7) (tx_index c) (pc_ready c)))
  end.

Definition pcnet_poll w : option (list (list Z) * cards) :=
  if negb (pc_ready (pcnet w)) then Some ([], w) else
  let '(got, w) := pcnet_loop 8 [] w in
  let '(_, w) := on_bus (csr0 ← pcnet_csr_read (pc_io (pcnet w)) 0; pcnet_csr_write (pc_io (pcnet w)) 0 csr0) w in
  Some (got, w).

Definition pcnet_is_ready w : bool := pc_ready (pcnet w).
Definition pcnet_ops : NIC_OPS cards := mkNic pcnet_init pcnet_poll pcnet_send pcnet_is_ready (cstr "PCnet").

(** ** E1000 *)
Section e1000.
Context (base : Z).
Definition e1000_r32 (reg : Z) : hw D Z := ld W32 (base + reg).
Definition e1000_w32 (reg v : Z) : hw D unit := st W32 (base + reg) v.

Fixpoint eeprom_wait (n : nat) : hw D (option Z) :=
  match n with
  | O => mret None
  | S n' => v ← e1000_r32 20; if negb (Z.land v 16 =? 0) then mret (Some (u16 (Z.shiftr v 16))) else eeprom_wait n'
  end.
Definition e1000_read_eeprom_word (index : Z) : hw D (option Z) :=
  e1000_w32 20 (Z.lor 1 (Z.shiftl index 8));; eeprom_wait (Z.to_nat 100000).

Definition word_bytes (v : Z) : list Z := [Z.land v 255; u8 (Z.shiftr v 8)].

Definition mac_registers : hw D (list Z) :=
  ral ← e1000_r32 21504; rah ← e1000_r32 21508;
  mret [Z.land ral 255; Z.land (Z.shiftr ral 8) 255; Z.land (Z.shiftr ral 16) 255; Z.land (Z.shiftr ral 24) 255;
        Z.land rah 255; Z.land (Z.shiftr rah 8) 255].

(** From the EEPROM, or from the address registers when a word does not come. *)
Definition e1000_mac : hw D (list Z) :=
  w0 ← e1000_read_eeprom_word 0;
  match w0 with None => mac_registers | Some w0 =>
  w1 ← e1000_read_eeprom_word 1;
  match w1 with None => mac_registers | Some w1 =>
  w2 ← e1000_read_eeprom_word 2;
  match w2 with None => mac_registers | Some w2 => mret (word_bytes w0 ++ word_bytes w1 ++ word_bytes w2) end end end.

Definition e1000_start (rx tx : Z) : hw D unit :=
  e1000_w32 10240 (u32 rx);; e1000_w32 10248 128;; e1000_w32 10256 0;; e1000_w32 10264 7;; e1000_w32 256 67141634;;
  e1000_w32 14336 (u32 tx);; e1000_w32 14344 128;; e1000_w32 14352 0;; e1000_w32 14360 0;; e1000_w32 1024 262394;;
  e1000_w32 1040 6299658;; e1000_w32 208 0;; e1000_w32 192 4294967295.
End e1000.

(** The 64-bit address field: a zero-extended 32-bit pointer. *)
Definition st64 (p v : Z) : hw D unit := st W32 p (u32 v);; st W32 (p + 4) 0.

Fixpoint e1000_buffers (n : nat) (i : Z) w : option (bool * cards) :=
  match n with
  | O => Some (true, w)
  | S n' =>
      '(r, w) ← card_malloc TX_BUF_SIZE w; '(t, w) ← card_malloc TX_BUF_SIZE w;
      let c := e1000 w in
      let w := set_e1000 w (mkE1000 (mmio c) (e_rx_ring c) (e_tx_ring c) (put (e_rx c) i r) (put (e_tx c) i t) (rx_tail c) (tx_tail c) (e_ready c)) in
      if null r || null t then Some (false, w) else
      let '(_, w) := on_bus (st64 (e_rx_ring c + 16 * i) r;; st64 (e_tx_ring c + 16 * i) t;; st W8 (e_tx_ring c + 16 * i + 12) 1) w in
      e1000_buffers n' (i + 1) w
  end.

Definition e1000_init (pci : PCI_DEVICE_INFO) w : option (bool * option (list Z) * cards) :=
  let base := Z.land (bar0 pci) 4294967280 in
  let '(_, w) := on_bus (pci_enable_busmaster a pci) w in
  '(ps, w) ← allocate [128; 128] w;
  let c := e1000 w in
  let rx := get 0 ps 0 in
  let tx := get 0 ps 1 in
  let w := set_e1000 w (mkE1000 base rx tx (e_rx c) (e_tx c) (rx_tail c) (tx_tail c) (e_ready c)) in
  if existsb null ps then Some (false, None, w) else
  let '(_, w) := on_bus (zero_out rx 128;; zero_out tx 128) w in
  '(ok, w) ← e1000_buffers 8 0 w;
  if negb ok then Some (false, None, w) else
  let '(mac, w) := on_bus (m ← e1000_mac base; e1000_start base rx tx;; mret m) w in
  let c := e1000 w in
  Some (true, Some mac, set_e1000 w (mkE1000 base rx tx (e_rx c) (e_tx c) 7 0 true)).

Definition e1000_send (frame : list Z) w : option cards :=
  let c := e1000 w in
  let idx := tx_tail c in
  let len := Z.of_nat (Datatypes.length frame) in
  if negb (e_ready c) || (len <=? 0) || (TX_BUF_SIZE <? len) then Some w else
  let d := e_tx_ring c + 16 * idx in
  let '(status, w) := on_bus (ld W8 (d + 12)) w in
  if Z.land status 1 =? 0 then Some w else
  let tail := Z.land (tx_tail c + 1) 7 in
  let '(_, w) := on_bus (copy_out (get 0 (e_tx c) idx) frame;; st W16 (d + 8) len;; st W8 (d + 11) 11;; st W8 (d + 12) 0;;
                         e1000_w32 (mmio c) 14360 tail) w in
  Some (set_e1000 w (mkE1000 (mmio c) (e_rx_ring c) (e_tx_ring c) (e_rx c) (e_tx c) (rx_tail c) tail (e_ready c))).

Definition e1000_take (d buffer : Z) : hw D (list (list Z)) :=
  n ← ld W16 (d + 8);
  got ← (if 0 <? n then n ← ld W16 (d + 8); p ← copy_in buffer (Z.to_nat n); mret [p] else mret []);
  st W8 (d + 12) 0;; mret got.

(** [while (rx_ring[(rx_tail + 1) & 7].status & 1)]. *)
Fixpoint e1000_loop (fuel : nat) (got : list (list Z)) w : option (list (list Z) * cards) :=
  let c := e1000 w in
  let idx := Z.land (rx_tail c + 1) 7 in
  let d := e_rx_ring c + 16 * idx in
  let '(status, w) := on_bus (ld W8 (d + 12)) w in
  if Z.land status 1 =? 0 then Some (got, w) else
  match fuel with
  | O => None
  | S fuel' =>
      let '(g, w) := on_bus (g ← e1000_take d (get 0 (e_rx c) idx); e1000_w32 (mmio c) 10264 idx;; mret g) w in
      e1000_loop fuel' (got ++ g) (set_e1000 w (mkE1000 (mmio c) (e_rx_ring c) (e_tx_ring c) (e_rx c) (e_tx c) idx (tx_tail c) (e_ready c)))
  end.

Definition e1000_poll (fuel : nat) w : option (list (list Z) * cards) :=
  if negb (e_ready (e1000 w)) then Some ([], w) else e1000_loop fuel [] w.

Definition e1000_is_ready w : bool := e_ready (e1000 w).
Definition e1000_ops (fuel : nat) : NIC_OPS cards := mkNic e1000_init (e1000_poll fuel) e1000_send e1000_is_ready (cstr "E1000").

(** ** The driver on this hardware *)
Definition find_card (vendor device : Z) w : option PCI_DEVICE_INFO * cards := on_bus (pci_find_first a vendor device) w.

Definition NetInit_cards (stack : list Z) (fuel : nat) : @net cards -> option (@net cards) :=
  NetInit stack find_card (rtl_ops fuel) pcnet_ops (e1000_ops fuel).

End cards.

End Nic.
