(* ===== verification/NicSpec.v ===== *)
(** * The cards' rings

    What the polls of PCnet and E1000 do, on hardware whose memory behaves as
    memory: they empty the receive ring.  The ring is abstracted to its slots,
    the poll to [drain]; the loops refine it, so that a poll hands over every
    packet that waits, once and in the order of the ring, and gives its descriptors
    back to the card.  The loop of E1000 has no bound of its own: that it ends is
    part of the claim. *)

From stdpp Require Import base list numbers gmap strings.
From Stdlib Require Import ZArith Lia.
From S2P Require Import Prelude.
From S2P Require Import Util.
From S2P Require Import Pmm.
From S2P Require Import Vmm.
From S2P Require Import Mm.
From S2P Require Import Hw.
From S2P Require Import Net.
From S2P Require Import Nic.
Import Util Hw Net Nic.

Module NicSpec.

(** ** Memory that behaves as memory *)
Definition size (w : width) : Z := match w with W8 => 1 | W16 => 2 | W32 => 4 end.

Definition mval (w : width) (m : mem) (p : Z) : Z :=
  match w with
  | W8 => u8 (m p)
  | W16 => u8 (m p) + 256 * u8 (m (p + 1))
  | W32 => u8 (m p) + 256 * u8 (m (p + 1)) + 65536 * u8 (m (p + 2)) + 16777216 * u8 (m (p + 3))
  end.

Definition mwrite (w : width) (m : mem) (p v : Z) : mem :=
  fun x => if (p <=? x) && (x <? p + size w) then u8 (Z.shiftr v (8 * (x - p))) else m x.

(** [plain] addresses are memory, which the card leaves alone meanwhile; the
    others are registers, and neither they nor the ports change the memory. *)
Class QuietMemory (D : Type) `{Bus D} := {
  plain : Z -> Prop;
  view : D -> mem;
  quiet_load : forall w p d, (forall i, 0 <= i < size w -> plain (p + i)) ->
    truncate w (fst (mmio_load w p d)) = mval w (view d) p;
  quiet_keep : forall w p d, view (snd (mmio_load w p d)) = view d;
  quiet_store : forall w p v d, (forall i, 0 <= i < size w -> plain (p + i)) -> view (snd (mmio_store w p v d)) = mwrite w (view d) p v;
  quiet_reg : forall w p v d, (forall i, 0 <= i < size w -> ~ plain (p + i)) -> view (snd (mmio_store w p v d)) = view d;
  quiet_window : forall x, IO_PORT_CPU_BASE <= x < IO_PORT_CPU_BASE + 65540 -> ~ plain x;
  quiet_in : forall w p d, view (snd (port_in w p d)) = view d;
  quiet_out : forall w p v d, view (snd (port_out w p v d)) = view d
}.

Section does.
Context {D : Type} `{QuietMemory D}.

(** From memory [m], [f] gives [x] and leaves memory [m']. *)
Definition does {A} (m : mem) (f : hw D A) (x : A) (m' : mem) : Prop :=
  forall d, view d = m -> fst (f d) = x /\ view (snd (f d)) = m'.

Lemma does_ret {A} m (x : A) : does m (mret x) x m.
Proof. by intros d E. Qed.

Lemma does_bind {A B} m m1 m2 (f : hw D A) (k : A -> hw D B) x y : does m f x m1 -> does m1 (k x) y m2 -> does m (f ≫= k) y m2.
Proof. intros Hf Hk d E. destruct (Hf d E) as [Ex Em]. unfold mbind, hw_bind. destruct (f d) as [x' d']. cbn in *. subst x'. by apply Hk. Qed.

Lemma does_ld w m p : (forall i, 0 <= i < size w -> plain (p + i)) -> does m (ld w p) (mval w m p) m.
Proof.
  intros Hp d E. pose proof (quiet_load w p d Hp) as Ev. pose proof (quiet_keep w p d) as Em. unfold ld, mbind, hw_bind, mret, hw_ret.
  destruct (mmio_load w p d). cbn in *. by subst m.
Qed.

Lemma does_st w m p v : (forall i, 0 <= i < size w -> plain (p + i)) -> does m (st w p v) tt (mwrite w m p (truncate w v)).
Proof. intros Hp d E. split; [by destruct (fst _)|]. unfold st. rewrite (quiet_store w p _ d Hp). by subst m. Qed.

Lemma does_copy m p n : (forall i, 0 <= i < Z.of_nat n -> plain (p + i)) -> does m (copy_in p n) (map (fun x => u8 (m x)) (seqZ p (Z.of_nat n))) m.
Proof.
  revert p. induction n as [|n IH]; intros p Hp; [apply does_ret|]. cbn [copy_in]. rewrite (seqZ_cons p) by lia. cbn [map].
  eapply does_bind; [apply (does_ld W8); cbn [size]; intros i Hi; apply Hp; lia|].
  eapply does_bind; [apply IH; intros i Hi; replace (Z.succ p + i) with (p + (i + 1)) by lia; replace (p + 1 + i) with (p + (i + 1)) by lia; apply Hp; lia|].
  replace (Z.pred (Z.of_nat (S n))) with (Z.of_nat n) by lia. apply does_ret.
Qed.

(** ** Rings *)

(** A slot is the card's, or has been given back, with a packet or without. *)
Inductive ring_slot := Card | Host (packet : option (list Z)).

(** The abstract poll: from slot [i] on, until a slot is the card's. *)
Fixpoint drain (n i : nat) (R : list ring_slot) : list (list Z) * nat * list ring_slot :=
  match n with
  | O => ([], i, R)
  | S n' =>
      match R !! i with
      | Some (Host o) =>
          let '(fs, i', R') := drain n' ((i + 1) mod 8)%nat (<[i := Card]> R) in (option_list o ++ fs, i', R')
      | _ => ([], i, R)
      end
  end.

Definition waiting (s : ring_slot) : bool := match s with Host _ => true | Card => false end.
Definition backlog (R : list ring_slot) : nat := Datatypes.length (List.filter waiting R).

Lemma backlog_insert R i o : R !! i = Some (Host o) -> backlog R = S (backlog (<[i := Card]> R)).
Proof.
  unfold backlog. revert i. induction R as [|s R IH]; intros i E; [done|]. destruct i as [|i]; cbn in E.
  - injection E as ->. done.
  - specialize (IH i E). cbn [insert list_insert List.filter]. destruct (waiting s); cbn; by rewrite IH.
Qed.

Lemma drain_enough n k i R : (backlog R <= n)%nat -> drain (n + k) i R = drain n i R.
Proof.
  revert i R. induction n as [|n IH]; intros i R Hn.
  - destruct k; [done|]. cbn [drain Nat.add]. destruct (R !! i) as [[|o]|] eqn:E; try done. rewrite (backlog_insert R i o E) in Hn. lia.
  - cbn [drain Nat.add]. destruct (R !! i) as [[|o]|] eqn:E; try done. rewrite (backlog_insert R i o E) in Hn. by rewrite IH by lia.
Qed.

(** With as many turns as slots wait, the slot it stops at is the card's. *)
Lemma drain_empties n i R fs i' R' :
  Datatypes.length R = 8%nat -> (i < 8)%nat -> (backlog R <= n)%nat -> drain n i R = (fs, i', R') ->
  R' !! i' = Some Card /\ (i' < 8)%nat /\ Datatypes.length R' = 8%nat.
Proof.
  revert i R fs. induction n as [|n IH]; intros i R fs HR Hi Hn; cbn [drain];
    destruct (lookup_lt_is_Some_2 R i) as [sl E]; try lia; rewrite ?E.
  - intros [= _ <- <-]. destruct sl as [|o]; [done|]. rewrite (backlog_insert R i o E) in Hn. lia.
  - destruct sl as [|o]; [intros [= _ <- <-]; done|]. rewrite (backlog_insert R i o E) in Hn.
    destruct (drain n _ _) as [[fs0 i0] R0] eqn:Ed. intros [= _ <- <-].
    apply (IH _ _ fs0) in Ed; [done | by rewrite length_insert | apply Nat.mod_upper_bound; lia | lia].
Qed.

(** Where a ring of eight descriptors and its buffers are. *)
Record ring_layout (ring : Z) (bufs : list Z) : Prop := {
  rl_bufs : Datatypes.length bufs = 8%nat;
  rl_ring : forall k, 0 <= k < 128 -> plain (ring + k);
  rl_plain : forall b k, b ∈ bufs -> 0 <= k < TX_BUF_SIZE -> plain (b + k);
  rl_apart : forall b k, b ∈ bufs -> 0 <= k < TX_BUF_SIZE -> b + k < ring \/ ring + 128 <= b + k
}.

(** Memories that differ at most in [n] bytes from [p] on. *)
Definition outside (p n : Z) (m m' : mem) : Prop := forall x, x < p \/ p + n <= x -> m' x = m x.

Section ring.
Context (decode : mem -> Z -> Z -> ring_slot).
Hypothesis decode_ext : forall m m' d b,
  (forall k, 0 <= k < 16 -> m' (d + k) = m (d + k)) -> (forall k, 0 <= k < TX_BUF_SIZE -> m' (b + k) = m (b + k)) ->
  decode m' d b = decode m d b.
Context (ring : Z) (bufs : list Z) (HL : ring_layout ring bufs).

Definition slots (m : mem) : list ring_slot := imap (fun j b => decode m (ring + 16 * Z.of_nat j) b) bufs.

Lemma slots_length m : Datatypes.length (slots m) = 8%nat.
Proof. unfold slots. rewrite length_imap. apply HL. Qed.

Lemma slots_lookup m i : (i < 8)%nat -> slots m !! i = Some (decode m (ring + 16 * Z.of_nat i) (get 0 bufs (Z.of_nat i))).
Proof.
  intros Hi. unfold slots. rewrite list_lookup_imap. unfold get. rewrite Nat2Z.id.
  destruct (lookup_lt_is_Some_2 bufs i) as [b ->]; [rewrite (rl_bufs _ _ HL); lia|]. done.
Qed.

Lemma slots_backlog m : (backlog (slots m) <= 8)%nat.
Proof. rewrite <- (slots_length m). apply List.filter_length_le. Qed.

(** Giving one descriptor back to the card changes that slot alone. *)
Lemma slots_give m m' i :
  (i < 8)%nat -> outside (ring + 16 * Z.of_nat i) 16 m m' ->
  decode m' (ring + 16 * Z.of_nat i) (get 0 bufs (Z.of_nat i)) = Card -> slots m' = <[i := Card]> (slots m).
Proof.
  intros Hi Ho Hc. apply list_eq. intros j. destruct (decide (j < 8)%nat) as [Hj|Hj].
  - destruct (decide (j = i)) as [->|Hne].
    + rewrite list_lookup_insert_eq by (rewrite slots_length; lia). by rewrite slots_lookup, Hc.
    + rewrite list_lookup_insert_ne by done. rewrite !slots_lookup by done. f_equal. apply decode_ext; intros k Hk; apply Ho; [lia|].
      unfold get. rewrite Nat2Z.id. destruct (lookup_lt_is_Some_2 bufs j) as [b Eb]; [rewrite (rl_bufs _ _ HL); lia|].
      rewrite Eb. change (default 0 (Some b)) with b. pose proof (rl_apart _ _ HL b k (list_elem_of_lookup_2 _ _ _ Eb) Hk). lia.
  - rewrite !lookup_ge_None_2; [done | rewrite length_insert, slots_length; lia | rewrite slots_length; lia].
Qed.

Lemma buffer_plain i k : (i < 8)%nat -> 0 <= k < TX_BUF_SIZE -> plain (get 0 bufs (Z.of_nat i) + k).
Proof.
  intros Hi Hk. unfold get. rewrite Nat2Z.id. destruct (lookup_lt_is_Some_2 bufs i) as [b Eb]; [rewrite (rl_bufs _ _ HL); lia|].
  rewrite Eb. apply (rl_plain _ _ HL); [by eapply list_elem_of_lookup_2 | done].
Qed.

Lemma desc_plain i k n : (i < 8)%nat -> 0 <= k -> k + n <= 16 -> forall j, 0 <= j < n -> plain (ring + 16 * Z.of_nat i + k + j).
Proof. intros Hi Hk Hn j Hj. replace (ring + 16 * Z.of_nat i + k + j) with (ring + (16 * Z.of_nat i + k + j)) by lia. apply (rl_ring _ _ HL). lia. Qed.

End ring.

Lemma outside_refl p n m : outside p n m m.
Proof. done. Qed.

Lemma outside_write w p n m m' q v : outside p n m m' -> p <= q -> q + size w <= p + n -> outside p n m (mwrite w m' q v).
Proof.
  intros Ho H1 H2 x Hx. unfold mwrite. destruct (Z.leb_spec q x), (Z.ltb_spec x (q + size w)); cbn; try (by apply Ho). lia.
Qed.

Lemma next_slot i : (i < 8)%nat -> Z.land (Z.of_nat i + 1) 7 = Z.of_nat ((i + 1) mod 8).
Proof. intros Hi. do 8 (destruct i as [|i]; [done|]). lia. Qed.

(** ** PCnet *)
Definition pc_slot (m : mem) (d b : Z) : ring_slot :=
  let status := mval W16 m (d + 6) in
  if negb (Z.land status 32768 =? 0) then Card else
  let n := Z.land (mval W32 m (d + 8)) 4095 in
  Host (if (Z.land status 768 =? 768) && (0 <? n) && (n <=? TX_BUF_SIZE) then Some (map (fun x => u8 (m x)) (seqZ b n)) else None).

Lemma map_ext_seqZ (m m' : mem) b n k : n <= k -> (forall i, 0 <= i < k -> m' (b + i) = m (b + i)) ->
  map (fun x => u8 (m' x)) (seqZ b n) = map (fun x => u8 (m x)) (seqZ b n).
Proof.
  intros Hn Hm. apply map_ext_in. intros x Hx. apply list_elem_of_In, elem_of_seqZ in Hx.
  replace x with (b + (x - b)) by lia. by rewrite Hm by lia.
Qed.

Lemma mval_ext w (m m' : mem) d k : 0 <= k -> k + size w <= 16 -> (forall i, 0 <= i < 16 -> m' (d + i) = m (d + i)) -> mval w m' (d + k) = mval w m (d + k).
Proof. intros Hk Hs Hm. destruct w; cbn [mval size] in *; rewrite <- ?Z.add_assoc, ?Hm by lia; done. Qed.

Lemma pc_slot_ext m m' d b :
  (forall k, 0 <= k < 16 -> m' (d + k) = m (d + k)) -> (forall k, 0 <= k < TX_BUF_SIZE -> m' (b + k) = m (b + k)) ->
  pc_slot m' d b = pc_slot m d b.
Proof.
  intros Hd Hb. unfold pc_slot. rewrite (mval_ext W16 m m' d 6), (mval_ext W32 m m' d 8) by (done || cbn; lia).
  destruct (negb _); [done|]. destruct (_ && (_ <? _)); [|done].
  cbn [andb]. destruct (Z.leb_spec (Z.land (mval W32 m (d + 8)) 4095) TX_BUF_SIZE); [|done]. by rewrite (map_ext_seqZ m m' b _ TX_BUF_SIZE).
Qed.

(** The memory after a descriptor has been returned. *)
Definition pc_given (m : mem) (d : Z) : mem := mwrite W16 (mwrite W16 m (d + 4) 63488) (d + 6) 32768.

Lemma pc_given_card m d b : pc_slot (pc_given m d) d b = Card.
Proof.
  unfold pc_slot. replace (mval W16 (pc_given m d) (d + 6)) with 32768; [done|]. unfold pc_given, mval, mwrite. cbn [size].
  rewrite (proj2 (Z.leb_le (d + 6) (d + 6))), (proj2 (Z.ltb_lt (d + 6) (d + 6 + 2))), (proj2 (Z.leb_le (d + 6) (d + 6 + 1))),
    (proj2 (Z.ltb_lt (d + 6 + 1) (d + 6 + 2))) by lia.
  cbn [andb]. replace (d + 6 - (d + 6)) with 0 by lia. replace (d + 6 + 1 - (d + 6)) with 1 by lia. done.
Qed.

Lemma does_pcnet_take ring bufs i m o :
  ring_layout ring bufs -> (i < 8)%nat -> let d := ring + 16 * Z.of_nat i in let b := get 0 bufs (Z.of_nat i) in
  pc_slot m d b = Host o -> does m (pcnet_take d b) (option_list o) (pc_given m d).
Proof.
  intros HL Hi d b. unfold pc_slot, pcnet_take. set (status := mval W16 m (d + 6)). set (n := Z.land (mval W32 m (d + 8)) 4095).
  destruct (negb _); [done|]. intros [= <-].
  assert (Hd : forall k w, 0 <= k -> k + size w <= 16 -> forall j, 0 <= j < size w -> plain (d + k + j)) by (intros; eapply desc_plain; eauto).
  eapply does_bind; [apply does_ld, Hd; cbn; lia|]. fold status.
  assert (Hrest : forall g : list (list Z), does m (st W16 (d + 4) (- TX_BUF_SIZE);; st W16 (d + 6) 32768;; mret g) g (pc_given m d)).
  { intros g. eapply does_bind; [apply does_st, Hd; cbn; lia|]. eapply does_bind; [apply does_st, Hd; cbn; lia|]. apply does_ret. }
  eapply does_bind; [|apply Hrest]. destruct (Z.land status 768 =? 768); [|apply does_ret].
  eapply does_bind; [apply does_ld, Hd; cbn; lia|]. cbn zeta. fold n.
  destruct (Z.ltb_spec 0 n); [|apply does_ret]. destruct (Z.leb_spec n TX_BUF_SIZE); [|apply does_ret]. cbn [andb].
  eapply does_bind; [|apply does_ret].
  pose proof (does_copy m b (Z.to_nat n)) as Hc. rewrite Z2Nat.id in Hc by lia. apply Hc. intros j Hj. apply (buffer_plain ring bufs HL); [done|lia].
Qed.

End does.

Section polls.
Context {D H : Type} `{QuietMemory D} `{KernelHeap H} (a : arch).
Implicit Types w : @cards D H.

Lemma on_bus_does {A} (f : hw D A) w x m' :
  does (view (bus w)) f x m' -> exists d', on_bus f w = (x, mkCards (rtl w) (pcnet w) (e1000 w) d' (kheap w)) /\ view d' = m'.
Proof. intros Hf. destruct (Hf _ eq_refl) as [E1 E2]. unfold on_bus. destruct (f (bus w)) as [x' d']. cbn in *. subst. by eexists. Qed.

Definition pc_slots w : list ring_slot := slots pc_slot (pc_rx_ring (pcnet w)) (pc_rx (pcnet w)) (view (bus w)).

(** What a poll may change of the card's record. *)
Definition pc_moved (c : PCNET) (i : Z) : PCNET :=
  mkPcnet (pc_io c) (init_block c) (pc_rx_ring c) (pc_tx_ring c) (pc_rx c) (pc_tx c) i (tx_index c) (pc_ready c).

Lemma pcnet_loop_drain n i got w fs i' R' :
  ring_layout (pc_rx_ring (pcnet w)) (pc_rx (pcnet w)) -> rx_index (pcnet w) = Z.of_nat i -> (i < 8)%nat -> drain n i (pc_slots w) = (fs, i', R') ->
  exists d', pcnet_loop n got w = (got ++ fs, mkCards (rtl w) (pc_moved (pcnet w) (Z.of_nat i')) (e1000 w) d' (kheap w)) /\
    slots pc_slot (pc_rx_ring (pcnet w)) (pc_rx (pcnet w)) (view d') = R'.
Proof.
  revert i got w fs. induction n as [|n IH]; intros i got w fs HL Hx Hi Hd; cbn [drain pcnet_loop] in *.
  { injection Hd as <- <- <-. exists (bus w). rewrite app_nil_r. split; [|done]. destruct w as [r [] e d h]. cbn in *. by subst. }
  set (c := pcnet w) in *. assert (Ei : Z.land (rx_index c) 7 = Z.of_nat i).
  { rewrite Hx. change 7 with (Z.ones 3). rewrite Z.land_ones by lia. apply Z.mod_small. cbn. lia. }
  rewrite Ei. set (d := pc_rx_ring c + 16 * Z.of_nat i). set (b := get 0 (pc_rx c) (Z.of_nat i)).
  assert (Es : pc_slots w !! i = Some (pc_slot (view (bus w)) d b)) by (apply slots_lookup; done). rewrite Es in Hd.
  destruct (on_bus_does (ld W16 (d + 6)) w (mval W16 (view (bus w)) (d + 6)) (view (bus w))) as (d1 & E1 & V1).
  { apply does_ld. intros j Hj. apply (desc_plain _ _ HL i 6 2); cbn in *; lia. }
  rewrite E1. destruct (negb (Z.land (mval W16 (view (bus w)) (d + 6)) 32768 =? 0)) eqn:Eo.
  - unfold pc_slot in Hd. rewrite Eo in Hd. injection Hd as <- <- <-. exists d1. rewrite app_nil_r, V1. split; [|done].
    f_equal. unfold c in *. destruct w as [r [] e d0 h]. cbn in *. by subst.
  - destruct (pc_slot (view (bus w)) d b) as [|o] eqn:Eslot; [unfold pc_slot in Eslot; rewrite Eo in Eslot; done|].
    set (w1 := mkCards _ _ _ d1 _).
    destruct (on_bus_does (pcnet_take d b) w1 (option_list o) (pc_given (view (bus w)) d)) as (d2 & E2 & V2).
    { cbn. rewrite V1. by apply (does_pcnet_take (pc_rx_ring c) (pc_rx c) i). }
    rewrite E2. cbn [rtl pcnet e1000 kheap w1]. destruct (drain n _ _) as [[fs0 i0] R0] eqn:Ed. injection Hd as <- <- <-.
    set (w2 := set_pcnet _ _).
    assert (Eg : pc_slots w2 = <[i := Card]> (pc_slots w)).
    { unfold pc_slots. cbn. rewrite V2. apply (slots_give pc_slot pc_slot_ext _ _ HL); [done | | apply pc_given_card].
      repeat apply outside_write; try (apply outside_refl); cbn; fold c d; lia. }
    rewrite <- Eg in Ed. destruct (IH ((i + 1) mod 8)%nat (got ++ option_list o) w2 fs0) as (d3 & E3 & V3); [exact HL | | | exact Ed |].
    + cbn. fold c. by rewrite Hx, next_slot.
    + apply Nat.mod_upper_bound. lia.
    + exists d3. rewrite E3, <- app_assoc. by split.
Qed.

(** Ports do not change the memory. *)
Definition quiet {A} (f : hw D A) : Prop := forall d, view (snd (f d)) = view d.

Lemma quiet_op_bind {A B} (f : hw D A) (k : A -> hw D B) : quiet f -> (forall x, quiet (k x)) -> quiet (f ≫= k).
Proof. intros Hf Hk d. unfold mbind, hw_bind. specialize (Hf d). destruct (f d) as [x d']. cbn in *. by rewrite (Hk x d'). Qed.

Lemma quiet_op_ret {A} (x : A) : quiet (mret x).
Proof. done. Qed.

Lemma quiet_op_read wd p : quiet (port_read a wd p).
Proof.
  unfold port_read. destruct a; [| |destruct (_ <? _); [by apply quiet_op_ret|]];
    (apply quiet_op_bind; [intros d; apply quiet_in || apply quiet_keep | intros; apply quiet_op_ret]).
Qed.

Lemma quiet_op_write wd p v : quiet (port_write a wd p v).
Proof.
  unfold port_write. destruct a; [intros d; apply quiet_out..|]. destruct (_ <=? _); [|by apply quiet_op_ret].
  intros d. apply quiet_reg. intros i Hi. apply quiet_window. pose proof (Z.mod_pos_bound p 65536 eq_refl). unfold u16.
  destruct wd; cbn in Hi; lia.
Qed.

(** A poll of PCnet is [drain]: the packets that wait in the ring, each once
    and in order, and their descriptors returned to the card; it stops at the
    first slot that is the card's, having left none before it. *)
Theorem pcnet_poll_drains w (i i' : nat) (fs : list (list Z)) (R' : list ring_slot) :
  ring_layout (pc_rx_ring (pcnet w)) (pc_rx (pcnet w)) -> pc_ready (pcnet w) = true -> rx_index (pcnet w) = Z.of_nat i -> (i < 8)%nat ->
  drain 8 i (pc_slots w) = (fs, i', R') ->
  exists w', pcnet_poll a w = Some (fs, w') /\ pcnet w' = pc_moved (pcnet w) (Z.of_nat i') /\ pc_slots w' = R' /\ R' !! i' = Some Card.
Proof.
  intros HL Hr Hx Hi Hd. unfold pcnet_poll. rewrite Hr. cbn [negb].
  destruct (pcnet_loop_drain 8 i [] w fs i' R' HL Hx Hi Hd) as (d' & E & V). rewrite E. cbn [app].
  set (c := pc_io _). set (f := csr0 ← pcnet_csr_read a c 0; _).
  assert (Hk : quiet f).
  { apply quiet_op_bind; [apply quiet_op_bind; [|intros; apply quiet_op_read]; apply quiet_op_write|].
    intros v. apply quiet_op_bind; [apply quiet_op_write | intros; apply quiet_op_write]. }
  unfold on_bus. cbn [bus rtl pcnet e1000 kheap]. specialize (Hk d'). destruct (f d') as [u d2]. cbn in Hk.
  eexists. split; [reflexivity|]. split; [done|]. split; [unfold pc_slots; cbn; by rewrite Hk|].
  apply (drain_empties 8 i _ fs i' R') in Hd as (? & _); [done | by apply slots_length | done | by apply slots_backlog].
Qed.

(** ** E1000 *)

(** The length field of a descriptor does not exceed the buffer: the card is
    programmed with buffers of 2048 bytes. *)
Definition e_slot (m : mem) (d b : Z) : ring_slot :=
  if Z.land (mval W8 m (d + 12)) 1 =? 0 then Card else
  let n := mval W16 m (d + 8) in
  Host (if 0 <? n then Some (map (fun x => u8 (m x)) (seqZ b (Z.min n TX_BUF_SIZE))) else None).

Definition lengths_ok (ring : Z) (m : mem) : Prop := forall i, (i < 8)%nat -> mval W16 m (ring + 16 * Z.of_nat i + 8) <= TX_BUF_SIZE.

Lemma e_slot_ext m m' d b :
  (forall k, 0 <= k < 16 -> m' (d + k) = m (d + k)) -> (forall k, 0 <= k < TX_BUF_SIZE -> m' (b + k) = m (b + k)) ->
  e_slot m' d b = e_slot m d b.
Proof.
  intros Hd Hb. unfold e_slot. rewrite (mval_ext W16 m m' d 8), (mval_ext W8 m m' d 12) by (done || cbn; lia).
  destruct (_ =? _); [done|]. destruct (_ <? _); [|done]. by rewrite (map_ext_seqZ m m' b _ TX_BUF_SIZE) by (done || lia).
Qed.

Lemma mwrite8 m p v x : mwrite W8 m p v x = if x =? p then u8 v else m x.
Proof.
  unfold mwrite. cbn [size]. destruct (Z.eqb_spec x p) as [->|].
  - rewrite (proj2 (Z.leb_le p p)), (proj2 (Z.ltb_lt p (p + 1))) by lia. cbn. by replace (p - p) with 0 by lia.
  - destruct (Z.leb_spec p x), (Z.ltb_spec x (p + 1)); done || lia.
Qed.

Lemma e_given_card m d b : e_slot (mwrite W8 m (d + 12) 0) d b = Card.
Proof. unfold e_slot, mval. rewrite mwrite8, Z.eqb_refl. done. Qed.

Lemma e_given_lengths ring m i : lengths_ok ring m -> lengths_ok ring (mwrite W8 m (ring + 16 * Z.of_nat i + 12) 0).
Proof.
  intros Hl j Hj. specialize (Hl j Hj). unfold mval in *. rewrite !mwrite8.
  rewrite !(proj2 (Z.eqb_neq _ _)) by lia. done.
Qed.

Definition e_slots w : list ring_slot := slots e_slot (e_rx_ring (e1000 w)) (e_rx (e1000 w)) (view (bus w)).

Definition e_moved (c : E1000) (t : Z) : E1000 :=
  mkE1000 (mmio c) (e_rx_ring c) (e_tx_ring c) (e_rx c) (e_tx c) t (tx_tail c) (e_ready c).

(** The registers are not memory. *)
Definition registers (base : Z) : Prop := forall k, 0 <= k < 131072 -> ~ plain (base + k).

Lemma does_e1000_take ring bufs base t i m o :
  ring_layout ring bufs -> registers base -> lengths_ok ring m -> (i < 8)%nat ->
  let d := ring + 16 * Z.of_nat i in let b := get 0 bufs (Z.of_nat i) in
  e_slot m d b = Host o ->
  does m (g ← e1000_take d b; e1000_w32 base 10264 t;; mret g) (option_list o) (mwrite W8 m (d + 12) 0).
Proof.
  intros HL Hb Hl Hi d b. unfold e_slot, e1000_take. set (n := mval W16 m (d + 8)). assert (Hn : n <= TX_BUF_SIZE) by (by apply Hl).
  destruct (_ =? _); [done|]. intros [= <-].
  assert (Hd : forall k wd, 0 <= k -> k + size wd <= 16 -> forall j, 0 <= j < size wd -> plain (d + k + j)) by (intros; eapply desc_plain; eauto).
  set (g := option_list _). eapply (does_bind _ (mwrite W8 m (d + 12) 0) _ _ _ g).
  - eapply does_bind; [apply does_ld, Hd; cbn; lia|]. fold n.
    eapply (does_bind _ m _ _ _ g); [|eapply does_bind; [apply does_st, Hd; cbn; lia | apply does_ret]].
    unfold g. destruct (Z.ltb_spec 0 n); [|apply does_ret]. eapply does_bind; [apply does_ld, Hd; cbn; lia|]. fold n.
    eapply does_bind; [|apply does_ret]. rewrite Z.min_l by done.
    pose proof (does_copy m b (Z.to_nat n)) as Hc. rewrite Z2Nat.id in Hc by lia. apply Hc.
    intros j Hj. apply (buffer_plain ring bufs HL); [done|lia].
  - eapply does_bind; [|apply does_ret]. intros dd Ed. split; [by destruct (fst _)|]. rewrite <- Ed. apply quiet_reg.
    intros j Hj. cbn in Hj. replace (base + 10264 + j) with (base + (10264 + j)) by lia. apply Hb. lia.
Qed.

(** The state in which the next slot is [i], and what one turn of the loop does
    to it. *)
Record e_ok w (i : nat) : Prop := {
  eo_layout : ring_layout (e_rx_ring (e1000 w)) (e_rx (e1000 w));
  eo_registers : registers (mmio (e1000 w));
  eo_lengths : lengths_ok (e_rx_ring (e1000 w)) (view (bus w));
  eo_next : Z.land (rx_tail (e1000 w) + 1) 7 = Z.of_nat i;
  eo_small : (i < 8)%nat
}.

Definition e_advanced w d' (t : Z) : @cards D H := mkCards (rtl w) (pcnet w) (e_moved (e1000 w) t) d' (kheap w).

Lemma e_same w d' : e_advanced w d' (rx_tail (e1000 w)) = mkCards (rtl w) (pcnet w) (e1000 w) d' (kheap w).
Proof. by destruct w as [? ? [] ? ?]. Qed.

Lemma e1000_loop_stop n i got w : e_ok w i -> e_slots w !! i = Some Card ->
  exists d', e1000_loop n got w = Some (got, e_advanced w d' (rx_tail (e1000 w))) /\ view d' = view (bus w).
Proof.
  intros [HL _ _ Hi Hlt]. unfold e_slots. rewrite slots_lookup by done. set (d := _ + 16 * _). intros [= Hs].
  destruct (on_bus_does (ld W8 (d + 12)) w (mval W8 (view (bus w)) (d + 12)) (view (bus w))) as (d1 & E1 & V1);
    [apply does_ld; intros j Hj; apply (desc_plain _ _ HL i 12 1); cbn in *; lia|].
  exists d1. rewrite e_same. split; [|done]. unfold e_slot in Hs.
  destruct n; cbn [e1000_loop]; rewrite Hi; fold d; rewrite E1; by destruct (Z.land (mval W8 (view (bus w)) (d + 12)) 1 =? 0).
Qed.

Lemma e1000_loop_step n i got w o : e_ok w i -> e_slots w !! i = Some (Host o) ->
  exists d', let w' := e_advanced w d' (Z.of_nat i) in
    e1000_loop (S n) got w = e1000_loop n (got ++ option_list o) w' /\ e_ok w' ((i + 1) mod 8) /\ e_slots w' = <[i := Card]> (e_slots w).
Proof.
  intros [HL Hreg Hlen Hi Hlt] Hs. pose proof Hs as Hs'. unfold e_slots in Hs'. rewrite slots_lookup in Hs' by done.
  set (d := _ + 16 * _) in Hs'. set (b := get _ _ _) in Hs'. injection Hs' as Hslot.
  destruct (on_bus_does (ld W8 (d + 12)) w (mval W8 (view (bus w)) (d + 12)) (view (bus w))) as (d1 & E1 & V1);
    [apply does_ld; intros j Hj; apply (desc_plain _ _ HL i 12 1); cbn in *; lia|].
  set (w1 := mkCards _ _ _ d1 _) in E1.
  destruct (on_bus_does (g ← e1000_take d b; e1000_w32 (mmio (e1000 w)) 10264 (Z.of_nat i);; mret g) w1 (option_list o)
    (mwrite W8 (view (bus w)) (d + 12) 0)) as (d2 & E2 & V2).
  { cbn [bus w1]. rewrite V1. by apply (does_e1000_take (e_rx_ring (e1000 w)) (e_rx (e1000 w))). }
  exists d2. split; [|split].
  - cbn [e1000_loop]. rewrite Hi. fold d b. rewrite E1. assert (Hb : (Z.land (mval W8 (view (bus w)) (d + 12)) 1 =? 0) = false).
    { unfold e_slot in Hslot. by destruct (_ =? 0). }
    rewrite Hb, E2. reflexivity.
  - split; cbn [e_advanced e1000 e_moved e_rx_ring e_rx mmio bus rx_tail]; [done|done| |by apply next_slot|apply Nat.mod_upper_bound; lia]. rewrite V2. by apply e_given_lengths.
  - unfold e_slots. cbn. rewrite V2. apply (slots_give e_slot e_slot_ext _ _ HL); [done| |apply e_given_card].
    apply outside_write; [apply outside_refl | fold d; lia | cbn; fold d; lia].
Qed.

Lemma e1000_loop_drain n i got w fs i' R' : e_ok w i -> (backlog (e_slots w) <= n)%nat -> drain n i (e_slots w) = (fs, i', R') ->
  exists d' t, e1000_loop n got w = Some (got ++ fs, e_advanced w d' t) /\ e_ok (e_advanced w d' t) i' /\ e_slots (e_advanced w d' t) = R'.
Proof.
  revert i got w fs. induction n as [|n IH]; intros i got w fs Hok Hb Hd; cbn [drain] in Hd;
    (destruct (e_slots w !! i) as [[|o]|] eqn:Es;
     [| |apply lookup_ge_None_1 in Es; unfold e_slots in Es; rewrite slots_length in Es by apply Hok; destruct Hok; lia]).
  1,3: injection Hd as <- <- <-; match goal with |- context [e1000_loop ?k _ _] => destruct (e1000_loop_stop k i got w Hok Es) as (d' & E & V) end; exists d', (rx_tail (e1000 w));
    rewrite E, app_nil_r; split; [done|]; destruct Hok; (split; [split; cbn; rewrite ?V; done | unfold e_slots; cbn; by rewrite V]).
  - rewrite (backlog_insert _ _ _ Es) in Hb. lia.
  - destruct (e1000_loop_step n i got w o Hok Es) as (d' & E & Hok' & Ew). destruct (drain n _ _) as [[fs0 i0] R0] eqn:Ed.
    injection Hd as <- <- <-. rewrite (backlog_insert _ _ _ Es), <- Ew in Hb. rewrite <- Ew in Ed. rewrite E.
    destruct (IH _ (got ++ option_list o) _ fs0 Hok' ltac:(lia) Ed) as (d2 & t & E' & R). exists d2, t. rewrite E', <- app_assoc. done.
Qed.

(** C27. The loop of [e1000_poll], which ends when the next descriptor is not done,
    needs at most eight turns, and is [drain] too. *)
Theorem e1000_poll_drains w (fuel i i' : nat) (fs : list (list Z)) (R' : list ring_slot) :
  e_ok w i -> e_ready (e1000 w) = true -> (8 <= fuel)%nat -> drain 8 i (e_slots w) = (fs, i', R') ->
  exists w', e1000_poll fuel w = Some (fs, w') /\ e_ok w' i' /\ e_slots w' = R' /\ R' !! i' = Some Card.
Proof.
  intros Hok Hr Hf Hd. unfold e1000_poll. rewrite Hr. cbn [negb]. pose proof (slots_backlog e_slot _ _ (eo_layout _ _ Hok) (view (bus w))) as Hb.
  destruct (e1000_loop_drain fuel i [] w fs i' R') as (d' & t & E & Hok' & Hs); [done | unfold e_slots in *; lia | |].
  { replace fuel with (8 + (fuel - 8))%nat by lia. by rewrite drain_enough. }
  exists (e_advanced w d' t). split; [exact E|]. split; [done|]. split; [done|].
  apply (drain_empties 8 i _ fs i' R') in Hd as (? & _); [done | apply slots_length, Hok | apply Hok | done].
Qed.

(** ** RTL8139 *)

(** The offset into the receive buffer stays a multiple of four below its size,
    whatever lengths the card reports, so that a packet ends within 1600 bytes
    of the wrap. *)
Definition rtl_ok w : Prop := 0 <= rx_offset (rtl w) < RX_BUF_SIZE /\ rx_offset (rtl w) mod 4 = 0.

Lemma next_packet_ok off len : 0 <= next_packet off len < RX_BUF_SIZE /\ next_packet off len mod 4 = 0.
Proof.
  unfold next_packet, u16, RX_BUF_SIZE. set (x := off + len + 4 + 3).
  assert (E : Z.land x (Z.lnot 3) = 4 * (x / 4)).
  { change 3 with (Z.ones 2). rewrite <- Z.ldiff_land, Z.ldiff_ones_r by lia. rewrite Z.shiftl_mul_pow2, Z.shiftr_div_pow2 by lia. change (2 ^ 2) with 4. lia. }
  rewrite E. pose proof (Z.mod_pos_bound (4 * (x / 4)) 8192 eq_refl). rewrite (Z.mod_small (_ mod _)) by lia. split; [done|]. zlia.
Qed.

Lemma on_bus_rtl {A} (f : hw D A) w : rtl (snd (on_bus f w)) = rtl w.
Proof. unfold on_bus. by destruct (f (bus w)). Qed.

Lemma copy_in_length n p d : Datatypes.length (fst (copy_in (D := D) p n d)) = n.
Proof.
  revert p d. induction n as [|n IH]; intros p d; [done|]. cbn [copy_in]. unfold mbind, hw_bind.
  destruct (ld W8 p d) as [x d1]. specialize (IH (p + 1) d1). destruct (copy_in (p + 1) n d1) as [r d2]. cbn in *. by rewrite IH.
Qed.

Lemma rtl_loop_bounds fuel got w fs w' :
  rtl_loop a fuel got w = Some (fs, w') -> rtl_ok w -> Forall (fun f => 60 <= Z.of_nat (Datatypes.length f) <= 1600) got ->
  rtl_ok w' /\ Forall (fun f => 60 <= Z.of_nat (Datatypes.length f) <= 1600) fs.
Proof.
  revert got w. induction fuel as [|fuel IH]; intros got w; cbn [rtl_loop];
    (destruct (on_bus _ w) as [cr w1] eqn:E1; pose proof (on_bus_rtl (inb a (rtl_io (rtl w) + 55)) w) as R1; rewrite E1 in R1; cbn [snd] in R1;
     destruct (negb (Z.land cr 1 =? 0)); [intros [= <- <-] Hok Hg; split; [unfold rtl_ok in *; by rewrite R1|done]|]); [done|].
  destruct (on_bus (ld W16 _) w1) as [status w2] eqn:E2. pose proof (on_bus_rtl (ld W16 (rtl_rx (rtl w) + rx_offset (rtl w))) w1) as R2.
  rewrite E2 in R2. cbn [snd] in R2. destruct (on_bus (ld W16 _) w2) as [len w3] eqn:E3.
  pose proof (on_bus_rtl (ld W16 (rtl_rx (rtl w) + rx_offset (rtl w) + 2)) w2) as R3. rewrite E3 in R3. cbn [snd] in R3.
  destruct (Z.land status 1 =? 0); cbn [orb].
  { intros [= <- <-] Hok Hg. split; [|done]. unfold rtl_ok in *. rewrite on_bus_rtl. congruence. }
  destruct (Z.ltb_spec len 60), (Z.ltb_spec 1600 len); cbn [orb];
    try (intros [= <- <-] Hok Hg; split; [|done]; unfold rtl_ok in *; rewrite on_bus_rtl; congruence).
  destruct (on_bus (copy_in _ _) w3) as [packet w4] eqn:E4.
  assert (Hp : Z.of_nat (Datatypes.length packet) = len).
  { unfold on_bus in E4. destruct (copy_in _ _ _) as [x d'] eqn:Ec. injection E4 as <- _.
    pose proof (copy_in_length (Z.to_nat len) (rtl_rx (rtl w) + rx_offset (rtl w) + 4) (bus w3)) as Hl. rewrite Ec in Hl. cbn in Hl. lia. }
  set (w5 := set_rtl w4 _). destruct (on_bus (_ ≫= _) w5) as [u w6] eqn:E6. intros E Hok Hg. apply (IH _ _ E).
  - match type of E6 with on_bus ?f _ = _ => pose proof (on_bus_rtl f w5) as R6 end. rewrite E6 in R6. cbn [snd] in R6.
    unfold rtl_ok. rewrite R6. apply next_packet_ok.
  - apply Forall_app. split; [done|]. repeat constructor; lia.
Qed.

(** Whatever the card puts in its buffer and registers, a poll of the RTL8139
    hands over only packets of 60 to 1600 bytes and quiet the offset of the next
    header aligned and inside the 8192 bytes of the ring. *)
Theorem rtl_poll_bounds w (fuel : nat) (fs : list (list Z)) w' :
  rtl_ok w -> rtl_poll a fuel w = Some (fs, w') ->
  rtl_ok w' /\ Forall (fun f => 60 <= Z.of_nat (Datatypes.length f) <= 1600) fs.
Proof.
  intros Hok. unfold rtl_poll. destruct (negb _); [intros [= <- <-]; split; [done|constructor]|].
  intros E. apply (rtl_loop_bounds _ _ _ _ _ E Hok). constructor.
Qed.

End polls.

(** ** A simulated board

    Memory below 16 MiB, registers above that read as zero, and ports that read
    as [1]: no packet waits in the RTL8139. *)
Record board := mkBoard { b_mem : mem; b_ports : list (Z * Z) }.

Definition sim_load (wd : width) (p : Z) (d : board) : Z * board := (if p <? 16777216 then mval wd (b_mem d) p else 0, d).
Definition sim_store (wd : width) (p v : Z) (d : board) : unit * board :=
  (tt, if (p <? 16777216) then mkBoard (mwrite wd (b_mem d) p v) (b_ports d) else d).

#[global] Instance board_bus : Bus board := {
  port_in wd p d := (1, d);
  port_out wd p v d := (tt, mkBoard (b_mem d) ((p, v) :: b_ports d));
  mmio_load := sim_load;
  mmio_store := sim_store
}.

Lemma mval_truncate wd m p : truncate wd (mval wd m p) = mval wd m p.
Proof.
  assert (B : forall x, 0 <= u8 x < 256) by (intros; apply Z.mod_pos_bound; lia).
  pose proof (B (m p)). pose proof (B (m (p + 1))). pose proof (B (m (p + 2))). pose proof (B (m (p + 3))).
  destruct wd; cbn [truncate mval]; unfold u8, u16, u32 in *; rewrite Z.mod_small; lia.
Qed.

#[global, refine] Instance board_quiet : QuietMemory board := {
  plain x := x < 16777216;
  view := b_mem
}.
Proof.
  - intros wd p d Hp. assert (p < 16777216) by (specialize (Hp 0); destruct wd; cbn in Hp; lia).
    cbn. unfold sim_load. rewrite (proj2 (Z.ltb_lt _ _)) by done. apply mval_truncate.
  - done.
  - intros wd p v d Hp. assert (p < 16777216) by (specialize (Hp 0); destruct wd; cbn in Hp; lia).
    cbn. unfold sim_store. by rewrite (proj2 (Z.ltb_lt _ _)).
  - intros wd p v d Hp. assert (16777216 <= p) by (specialize (Hp 0); destruct wd; cbn in Hp; lia).
    cbn. unfold sim_store. by rewrite (proj2 (Z.ltb_ge _ _)).
  - intros x Hx. unfold IO_PORT_CPU_BASE in Hx. lia.
  - done.
  - done.
Defined.

(** Rings at 0x10000, buffers from 0x20000 on; slots 6, 7 and 0 have been filled,
    slot 7 with a packet that was cut short. *)
Definition sample_bufs : list Z := map (fun i => 131072 + 2048 * i) (seqZ 0 8).
Definition filled (fields : list (Z * list Z)) : mem :=
  foldr (fun '(p, bytes) m => fun x => if (p <=? x) && (x <? p + Z.of_nat (Datatypes.length bytes)) then get 0 bytes (x - p) else m x) (fun _ => 0) fields.
Definition pc_memory : mem :=
  filled (map (fun i => (65536 + 16 * i + 6, [0; 128])) (seqZ 1 5) ++
    [(65536 + 16 * 6 + 6, [0; 3; 60; 0]); (65536 + 16 * 7 + 6, [0; 2; 60; 0]); (65536 + 6, [0; 3; 61; 0]);
     (131072 + 2048 * 6, replicate 60 7); (131072, replicate 61 8)]).
Definition pc_state {H} (h : H) : @cards board H :=
  mkCards rtl_zero (mkPcnet 49152 61440 65536 65664 sample_bufs sample_bufs 6 0 true) e1000_zero (mkBoard pc_memory []) h.

Lemma sample_layout : ring_layout (D := board) 65536 sample_bufs.
Proof.
  assert (Hb : forall b, b ∈ sample_bufs -> 131072 <= b <= 145408).
  { intros b Hin. assert (Hall : Forall (fun b => 131072 <= b <= 145408) sample_bufs) by (repeat constructor; lia).
    by apply (Forall_forall _ _) with (x := b) in Hall. }
  split; [done | intros k Hk; cbn; lia | intros b k Hin Hk; specialize (Hb b Hin); unfold TX_BUF_SIZE in Hk; cbn; lia |
    intros b k Hin Hk; specialize (Hb b Hin); lia].
Qed.

Lemma pcnet_poll_drains_witness :
  exists w', pcnet_poll X86 (pc_state tt) = Some ([replicate 60 7; replicate 61 8], w') /\ rx_index (pcnet w') = 1.
Proof.
  destruct (pcnet_poll_drains X86 (pc_state tt) 6 1 [replicate 60 7; replicate 61 8] (replicate 8 Card)) as (w' & E & Ep & _ & _).
  - exact sample_layout.
  - reflexivity.
  - reflexivity.
  - lia.
  - vm_compute. reflexivity.
  - exists w'. split; [exact E|]. rewrite Ep. reflexivity.
Defined.

(** All eight slots of the E1000 are full: the loop goes round once. *)
Definition e_memory : mem :=
  filled (map (fun i => (65536 + 16 * i + 8, [60; 0; 0; 0; 1])) (seqZ 0 8) ++ map (fun i => (131072 + 2048 * i, replicate 60 (i + 1))) (seqZ 0 8)).
Definition e_state {H} (h : H) : @cards board H :=
  mkCards rtl_zero pcnet_zero (mkE1000 4026531840 65536 65664 sample_bufs sample_bufs 7 0 true) (mkBoard e_memory []) h.

Lemma e_state_ok : e_ok (e_state tt) 0.
Proof.
  split; [exact sample_layout | | | reflexivity | lia].
  - intros k Hk. cbn. lia.
  - intros i Hi. do 8 (destruct i as [|i]; [vm_compute; discriminate|]). lia.
Qed.

Lemma e1000_poll_drains_witness :
  exists w', e1000_poll 8 (e_state tt) = Some (map (fun i => replicate 60 (i + 1)) (seqZ 0 8), w') /\ e_ok w' 0.
Proof.
  destruct (e1000_poll_drains (e_state tt) 8 0 0 (map (fun i => replicate 60 (i + 1)) (seqZ 0 8)) (replicate 8 Card)) as (w' & E & Hok & _ & _).
  - exact e_state_ok.
  - reflexivity.
  - lia.
  - vm_compute. reflexivity.
  - exists w'. by split.
Defined.

(** A packet of 60 bytes at the end of the ring, then an empty buffer. *)
Record rtl_board := mkRtlBoard { r_board : board; r_waiting : bool }.
#[global] Instance rtl_board_bus : Bus rtl_board := {
  port_in wd p d := (if r_waiting d then 0 else 1, mkRtlBoard (r_board d) false);
  port_out wd p v d := (tt, d);
  mmio_load wd p d := (fst (sim_load wd p (r_board d)), d);
  mmio_store wd p v d := (tt, d)
}.
Definition rtl_state : @cards rtl_board unit :=
  mkCards (mkRtl 49152 8188 0 65536 (replicate 4 0) true) pcnet_zero e1000_zero
    (mkRtlBoard (mkBoard (filled [(65536 + 8188, [1; 0; 60; 0] ++ replicate 60 9)]) []) true) tt.

Lemma rtl_poll_bounds_witness :
  exists w', rtl_poll X86 1 rtl_state = Some ([replicate 60 9], w') /\ rx_offset (rtl w') = 60 /\ rtl_ok w'.
Proof.
  assert (E : prod_map id (fun w => rx_offset (rtl w)) <$> rtl_poll X86 1 rtl_state = Some ([replicate 60 9], 60)) by (vm_compute; reflexivity).
  destruct (rtl_poll X86 1 rtl_state) as [[fs w']|] eqn:Ep; [|discriminate]. injection E as -> Eo. exists w'. split; [reflexivity|]. split; [exact Eo|].
  apply (rtl_poll_bounds X86 rtl_state 1 [replicate 60 9] w'); [split; [cbn; unfold RX_BUF_SIZE; lia | reflexivity] | exact Ep].
Defined.

End NicSpec.
