(* ===== verification/W32k.v ===== *)
(** * win32/w32k/w32k.c: the window manager

    Windows and window classes are objects of [Ob]; their bodies are blocks of
    the kernel heap, kept here by address, and reading one that is not allocated
    is undefined.  The statics of the file are the other fields of the state.
    A window procedure is a code address: running one is the argument [proc].
    What the file asks of the framebuffer and the mouse cursor is recorded, in
    order, as a list of [draw] commands; the size of the screen, whether there is
    a linear framebuffer and whether the wallpaper can be painted are fields.
    Coordinates are far from the ends of [int], so their arithmetic is that of
    [Z].  Serial log lines are left out. *)

From stdpp Require Import base list numbers gmap strings.
From Stdlib Require Import ZArith Lia.
From S2P Require Import Prelude.
From S2P Require Import Util.
From S2P Require Import Pmm.
From S2P Require Import Vmm.
From S2P Require Import Mm.
From S2P Require Import Ob.
From S2P Require Import Mouse.
Import Util Ob Mouse.

Module W32k.

Definition MAX_WINDOWS : Z := 32.
Definition TITLEBAR_HEIGHT : Z := 18.
Definition FRAME_THICKNESS : Z := 2.
Definition BUTTON_SIZE : Z := 17.
Definition BUTTON_MARGIN : Z := 1.
Definition ICON_BOX_SIZE : Z := 14.
Definition MINIMIZED_WIDTH : Z := 180.

Definition BLACK : Z := 0.
Definition BLUE : Z := 1.
Definition LIGHT_GRAY : Z := 7.
Definition DARK_GRAY : Z := 8.
Definition WHITE : Z := 15.

Definition WS_VISIBLE : Z := 268435456.
Definition WS_CAPTION : Z := 12582912.
Definition WS_SYSMENU : Z := 524288.
Definition WS_THICKFRAME : Z := 262144.
Definition WS_MINIMIZEBOX : Z := 131072.
Definition WS_MAXIMIZEBOX : Z := 65536.
Definition WS_EX_TOPMOST : Z := 8.
Definition WS_EX_NOACTIVATE : Z := 134217728.
Definition WS_EX_CLIENTEDGE : Z := 512.

Definition WM_CREATE : Z := 1.
Definition WM_DESTROY : Z := 2.
Definition WM_PAINT : Z := 15.
Definition WM_CLOSE : Z := 16.
Definition WM_MOUSEMOVE : Z := 512.
Definition WM_LBUTTONDOWN : Z := 513.
Definition WM_LBUTTONUP : Z := 514.

(** [flags & mask] as a condition. *)
Definition has (flags mask : Z) : bool := negb (Z.land flags mask =? 0).

(** ** Data *)
Record WNDCLASS := mkClass { className : list Z; class_style : Z; class_proc : Z }.

(** [x, y, width, height], and their copies [restore_*]. *)
Record PLACE := mkPlace { wx : Z; wy : Z; ww : Z; wh : Z }.
Record SHOW := mkShow { visible : bool; active : bool; minimized : bool; maximized : bool }.

Record WINDOW := mkWindow {
  title : list Z;
  place : PLACE;
  restore : PLACE;
  style : Z;
  exstyle : Z;
  show : SHOW;
  desktop : bool;
  owner : Z;
  big_icon : Z;
  small_icon : Z;
  wndClass : Z;
  wndProc : Z
}.

Definition with_place (w : WINDOW) (p : PLACE) : WINDOW :=
  mkWindow (title w) p (restore w) (style w) (exstyle w) (show w) (desktop w) (owner w) (big_icon w) (small_icon w) (wndClass w) (wndProc w).
Definition with_restore (w : WINDOW) (p : PLACE) : WINDOW :=
  mkWindow (title w) (place w) p (style w) (exstyle w) (show w) (desktop w) (owner w) (big_icon w) (small_icon w) (wndClass w) (wndProc w).
Definition with_show (w : WINDOW) (s : SHOW) : WINDOW :=
  mkWindow (title w) (place w) (restore w) (style w) (exstyle w) s (desktop w) (owner w) (big_icon w) (small_icon w) (wndClass w) (wndProc w).
Definition with_exstyle (w : WINDOW) (e : Z) : WINDOW :=
  mkWindow (title w) (place w) (restore w) (style w) e (show w) (desktop w) (owner w) (big_icon w) (small_icon w) (wndClass w) (wndProc w).
Definition with_icons (w : WINDOW) (b s : Z) : WINDOW :=
  mkWindow (title w) (place w) (restore w) (style w) (exstyle w) (show w) (desktop w) (owner w) b s (wndClass w) (wndProc w).

Definition set_visible (w : WINDOW) (b : bool) : WINDOW := with_show w (mkShow b (active (show w)) (minimized (show w)) (maximized (show w))).
Definition set_active (w : WINDOW) (b : bool) : WINDOW := with_show w (mkShow (visible (show w)) b (minimized (show w)) (maximized (show w))).
Definition set_minimized (w : WINDOW) (b : bool) : WINDOW := with_show w (mkShow (visible (show w)) (active (show w)) b (maximized (show w))).
Definition set_maximized (w : WINDOW) (b : bool) : WINDOW := with_show w (mkShow (visible (show w)) (active (show w)) (minimized (show w)) b).

(** The icon a pointer leads to, if it has the right magic number, pixels and a
    positive size. *)
Record DISCOUNT_ICON := mkIcon { icon_width : Z; icon_height : Z; icon_pixels : Z -> Z }.

Inductive CAPTION_BUTTON_HIT := CAPBTN_NONE | CAPBTN_MINIMIZE | CAPBTN_MAXIMIZE | CAPBTN_CLOSE.

#[global] Instance hit_eq_dec : EqDecision CAPTION_BUTTON_HIT.
Proof. solve_decision. Defined.

(** The bits of [resize_edge]. *)
Record EDGE := mkEdge { e_left : bool; e_right : bool; e_top : bool; e_bottom : bool }.
Definition RESIZE_NONE : EDGE := mkEdge false false false false.
Definition no_edge (e : EDGE) : bool := negb (e_left e || e_right e || e_top e || e_bottom e).

Inductive draw :=
| FbFillRect (x y w h c : Z)
| FbFillRectRGB (x y w h rgb : Z)
| FbPutPixel (x y c : Z)
| FbDrawChar (x y ch fg bg : Z)
| FbDrawString (x y : Z) (s : list Z) (fg bg : Z)
| FbDrawStringTransparent (x y : Z) (s : list Z) (fg : Z)
| FbPaintWallpaper (x y w h : Z)
| FbSetClipRect (x y w h : Z)
| FbResetClipRect
| FbCaptureRGB (x y w h dst stride : Z)
| FbBlitRGB (x y w h src stride : Z)
| MouseEraseCursor
| MouseDrawCursor
| MouseSetCursorType (t : MOUSE_CURSOR_TYPE)
| FbSwapBuffers.

Record SCREEN := mkScreen { scr_width : Z; scr_height : Z; framebuffer : bool; wallpaper : bool }.

Record DRAG := mkDrag { dragging : bool; drag_window : Z; drag_offset_x : Z; drag_offset_y : Z; drag_pixels : Z; drag_pixels_width : Z; drag_pixels_height : Z }.
Record RESIZE := mkResize { resizing : bool; resize_window : Z; resize_edge : EDGE; resize_start_mouse_x : Z; resize_start_mouse_y : Z; resize_start : PLACE }.
Record PRESS := mkPress { caption_press_hit : CAPTION_BUTTON_HIT; caption_press_win : Z; caption_press_hwnd : Z }.

Record w32k := mkW32k {
  windows : gmap Z WINDOW;
  classes : gmap Z WNDCLASS;
  icons : Z -> option DISCOUNT_ICON;
  window_list : list Z;
  window_count : Z;
  window_object_type : Z;
  active_window : Z;
  redraw_in_progress : bool;
  color_preview_overlay : bool;
  drag : DRAG;
  resize : RESIZE;
  press : PRESS;
  screen : SCREEN;
  drawn : list draw
}.

Definition no_drag : DRAG := mkDrag false INVALID_HANDLE 0 0 0 0 0.
Definition no_resize : RESIZE := mkResize false INVALID_HANDLE RESIZE_NONE 0 0 (mkPlace 0 0 0 0).
Definition no_press : PRESS := mkPress CAPBTN_NONE 0 INVALID_HANDLE.

(** The statics before [Win32kInit]. *)
Definition w32k_start (icons : Z -> option DISCOUNT_ICON) : w32k :=
  mkW32k ∅ ∅ icons (replicate 32 0) 0 0 INVALID_HANDLE false false no_drag no_resize no_press (mkScreen 0 0 false false) [].

Definition put_windows (s : w32k) (m : gmap Z WINDOW) : w32k :=
  mkW32k m (classes s) (icons s) (window_list s) (window_count s) (window_object_type s) (active_window s) (redraw_in_progress s) (color_preview_overlay s) (drag s) (resize s) (press s) (screen s) (drawn s).
Definition put_classes (s : w32k) (m : gmap Z WNDCLASS) : w32k :=
  mkW32k (windows s) m (icons s) (window_list s) (window_count s) (window_object_type s) (active_window s) (redraw_in_progress s) (color_preview_overlay s) (drag s) (resize s) (press s) (screen s) (drawn s).
Definition put_list (s : w32k) (l : list Z) (n : Z) : w32k :=
  mkW32k (windows s) (classes s) (icons s) l n (window_object_type s) (active_window s) (redraw_in_progress s) (color_preview_overlay s) (drag s) (resize s) (press s) (screen s) (drawn s).
Definition put_active (s : w32k) (h : Z) : w32k :=
  mkW32k (windows s) (classes s) (icons s) (window_list s) (window_count s) (window_object_type s) h (redraw_in_progress s) (color_preview_overlay s) (drag s) (resize s) (press s) (screen s) (drawn s).
Definition put_redraw (s : w32k) (b : bool) : w32k :=
  mkW32k (windows s) (classes s) (icons s) (window_list s) (window_count s) (window_object_type s) (active_window s) b (color_preview_overlay s) (drag s) (resize s) (press s) (screen s) (drawn s).
Definition put_preview (s : w32k) (b : bool) : w32k :=
  mkW32k (windows s) (classes s) (icons s) (window_list s) (window_count s) (window_object_type s) (active_window s) (redraw_in_progress s) b (drag s) (resize s) (press s) (screen s) (drawn s).
Definition put_drag (s : w32k) (d : DRAG) : w32k :=
  mkW32k (windows s) (classes s) (icons s) (window_list s) (window_count s) (window_object_type s) (active_window s) (redraw_in_progress s) (color_preview_overlay s) d (resize s) (press s) (screen s) (drawn s).
Definition put_resize (s : w32k) (r : RESIZE) : w32k :=
  mkW32k (windows s) (classes s) (icons s) (window_list s) (window_count s) (window_object_type s) (active_window s) (redraw_in_progress s) (color_preview_overlay s) (drag s) r (press s) (screen s) (drawn s).
Definition put_press (s : w32k) (p : PRESS) : w32k :=
  mkW32k (windows s) (classes s) (icons s) (window_list s) (window_count s) (window_object_type s) (active_window s) (redraw_in_progress s) (color_preview_overlay s) (drag s) (resize s) p (screen s) (drawn s).
Definition put_screen (s : w32k) (t : Z) (c : SCREEN) : w32k :=
  mkW32k (windows s) (classes s) (icons s) (window_list s) (window_count s) t (active_window s) (redraw_in_progress s) (color_preview_overlay s) (drag s) (resize s) (press s) c (drawn s).
Definition put_drawn (s : w32k) (d : list draw) : w32k :=
  mkW32k (windows s) (classes s) (icons s) (window_list s) (window_count s) (window_object_type s) (active_window s) (redraw_in_progress s) (color_preview_overlay s) (drag s) (resize s) (press s) (screen s) d.

(** ** Geometry *)
Definition minimized_window_height : Z := 1 + TITLEBAR_HEIGHT + 1.

Definition window_frame_thickness (w : WINDOW) : Z :=
  if has (style w) WS_THICKFRAME then FRAME_THICKNESS
  else if has (style w) WS_CAPTION then 1 else 0.

Definition window_client_edge (w : WINDOW) : Z := if has (exstyle w) WS_EX_CLIENTEDGE then 2 else 0.

Definition client_top (w : WINDOW) : Z :=
  if minimized (show w) then wh (place w) else
  window_frame_thickness w + (if has (style w) WS_CAPTION then TITLEBAR_HEIGHT else 0) + window_client_edge w.
Definition client_left (w : WINDOW) : Z := window_frame_thickness w + window_client_edge w.
Definition client_right (w : WINDOW) : Z := ww (place w) - window_frame_thickness w - window_client_edge w.
Definition client_bottom (w : WINDOW) : Z :=
  if minimized (show w) then wh (place w) else wh (place w) - window_frame_thickness w - window_client_edge w.

Definition get_caption_button_count (w : WINDOW) : Z :=
  if negb (has (style w) WS_CAPTION) || negb (has (style w) WS_SYSMENU) then 0 else
  1 + (if has (style w) WS_MAXIMIZEBOX then 1 else 0) + (if has (style w) WS_MINIMIZEBOX then 1 else 0).

Definition get_caption_button_x (w : WINDOW) (index_from_right : Z) : Z :=
  wx (place w) + ww (place w) - window_frame_thickness w - BUTTON_MARGIN - BUTTON_SIZE - index_from_right * (BUTTON_SIZE + 2).

(** The index of the minimise button. *)
Definition min_index (w : WINDOW) : Z := if has (style w) WS_MAXIMIZEBOX then 2 else 1.

Definition over_button (w : WINDOW) (index x : Z) : bool :=
  (get_caption_button_x w index <=? x) && (x <? get_caption_button_x w index + BUTTON_SIZE).

Definition hit_caption_button (w : WINDOW) (x y : Z) : CAPTION_BUTTON_HIT :=
  if negb (has (style w) WS_CAPTION) || negb (has (style w) WS_SYSMENU) then CAPBTN_NONE else
  let by_ := wy (place w) + window_frame_thickness w + BUTTON_MARGIN in
  if negb ((by_ <=? y) && (y <? by_ + BUTTON_SIZE)) then CAPBTN_NONE else
  if over_button w 0 x then CAPBTN_CLOSE else
  if has (style w) WS_MAXIMIZEBOX && over_button w 1 x then CAPBTN_MAXIMIZE else
  if has (style w) WS_MINIMIZEBOX && over_button w (min_index w) x then CAPBTN_MINIMIZE else CAPBTN_NONE.

Definition is_in_window (w : WINDOW) (x y : Z) : bool :=
  (wx (place w) <=? x) && (x <? wx (place w) + ww (place w)) && (wy (place w) <=? y) && (y <? wy (place w) + wh (place w)).

Definition is_title_bar (w : WINDOW) (x y : Z) : bool :=
  if negb (has (style w) WS_CAPTION) then false else
  let frame := window_frame_thickness w in
  let tx := wx (place w) + frame in
  let ty := wy (place w) + frame in
  let tw := ww (place w) - FRAME_THICKNESS * 2 in
  if negb ((tx <=? x) && (x <? tx + tw) && (ty <=? y) && (y <? ty + TITLEBAR_HEIGHT)) then false else
  if negb (bool_decide (hit_caption_button w x y = CAPBTN_NONE)) then false else
  negb (has (style w) WS_SYSMENU && (x <? wx (place w) + frame + BUTTON_MARGIN + ICON_BOX_SIZE + 2)).

Definition hit_resize_edge (w : WINDOW) (x y : Z) : EDGE :=
  if minimized (show w) || maximized (show w) || negb (has (style w) WS_THICKFRAME) || negb (is_in_window w x y) then RESIZE_NONE else
  let left := x <? wx (place w) + 4 in
  let top := y <? wy (place w) + 4 in
  mkEdge left (negb left && (wx (place w) + ww (place w) - 4 <=? x)) top (negb top && (wy (place w) + wh (place w) - 4 <=? y)).

Definition rects_intersect (x1 y1 w1 h1 x2 y2 w2 h2 : Z) : bool :=
  negb ((x1 + w1 <=? x2) || (x2 + w2 <=? x1) || (y1 + h1 <=? y2) || (y2 + h2 <=? y1)).
Definition meets (p q : PLACE) : bool := rects_intersect (wx p) (wy p) (ww p) (wh p) (wx q) (wy q) (ww q) (wh q).

(** The smallest rectangle around two, as a position and a size. *)
Definition span (p q : PLACE) : PLACE :=
  let left := Z.min (wx p) (wx q) in
  let top := Z.min (wy p) (wy q) in
  mkPlace left top (Z.max (wx p + ww p) (wx q + ww q) - left) (Z.max (wy p + wh p) (wy q + wh q) - top).

(** ** Drawing *)
Definition draw_hline (x y w c : Z) : list draw := [FbFillRect x y w 1 c].
Definition draw_vline (x y h c : Z) : list draw := [FbFillRect x y 1 h c].

Definition draw_bevel (x y w h light dark : Z) : list draw :=
  if (w <=? 1) || (h <=? 1) then [] else
  draw_hline x y (w - 1) light ++ draw_vline x y (h - 1) light ++ draw_hline (x + 1) (y + h - 1) (w - 1) dark ++ draw_vline (x + w - 1) (y + 1) (h - 1) dark.

Definition draw_caption_glyph_min (x y size o : Z) : list draw :=
  let w := size - 6 in [FbFillRect (x + Z.quot (size - w) 2 + o) (y + size - 6 + o) w 1 BLACK].

Definition draw_caption_glyph_max (x y size o : Z) : list draw :=
  let l := x + 3 + o in
  let t := y + 3 + o in
  let w := size - 6 in
  draw_hline l t w BLACK ++ draw_vline l t w BLACK ++ draw_hline l (t + w) w BLACK ++ draw_vline (l + w) t w BLACK.

Definition draw_caption_glyph_restore (x y size o : Z) : list draw :=
  let w := size - 6 in
  draw_hline (x + 1 + o) (y + 1 + o) w BLACK ++ draw_vline (x + 1 + o) (y + 1 + o) w BLACK ++
  draw_hline (x + 1 + o) (y + 1 + w + o) w BLACK ++ draw_vline (x + 1 + w + o) (y + 1 + o) w BLACK ++
  draw_hline (x + 3 + o) (y + 3 + o) (w - 2) BLACK ++ draw_vline (x + 3 + o) (y + 3 + o) (w - 2) BLACK ++
  draw_hline (x + 3 + o) (y + 3 + w - 2 + o) (w - 2) BLACK ++ draw_vline (x + 3 + w - 2 + o) (y + 3 + o) (w - 2) BLACK.

Definition draw_caption_glyph_close (x y size o : Z) : list draw :=
  concat (map (fun i => [FbFillRect (x + 3 + i + o) (y + 2 + i + o) 2 1 BLACK; FbFillRect (x + size - 3 - i + o) (y + 2 + i + o) 2 1 BLACK])
    (seqZ 0 (size - 3))).

(** Only these four glyphs are ever asked for. *)
Inductive glyph := GlyphMin | GlyphMax | GlyphRestore | GlyphClose.

Definition draw_caption_button (x y size : Z) (g : glyph) (pressed : bool) : list draw :=
  let o := if pressed then 1 else 0 in
  [FbFillRect x y size size BLACK] ++
  (if pressed then draw_bevel (x + 1) (y + 1) (size - 2) (size - 2) DARK_GRAY WHITE
   else draw_bevel (x + 1) (y + 1) (size - 2) (size - 2) WHITE DARK_GRAY) ++
  [FbFillRect (x + 2) (y + 2) (size - 4) (size - 4) LIGHT_GRAY] ++
  match g with
  | GlyphMin => draw_caption_glyph_min x y size o
  | GlyphMax => draw_caption_glyph_max x y size o
  | GlyphRestore => draw_caption_glyph_restore x y size o
  | GlyphClose => draw_caption_glyph_close x y size o
  end.

Definition win32k_rgb_to_index (color : Z) : Z :=
  let r := Z.land color 255 in
  let g := Z.land (Z.shiftr color 8) 255 in
  let b := Z.land (Z.shiftr color 16) 255 in
  if (220 <? r) && (220 <? g) && (220 <? b) then 15 else
  if (r <? 40) && (g <? 40) && (b <? 40) then 0 else
  if (180 <? r) && (g <? 100) && (b <? 100) then 4 else
  if (r <? 100) && (180 <? g) && (b <? 100) then 2 else
  if (180 <? r) && (180 <? g) && (b <? 100) then 14 else
  if (r <? 100) && (g <? 100) && (180 <? b) then 1 else
  if (150 <? r) && (150 <? g) && (150 <? b) then 7 else
  if (r <? g) && (b <? g) then 10 else
  if (g <? r) && (b <? r) then 12 else
  if (r <? b) && (g <? b) then 9 else 8.

(** The first letter or digit of a title, in upper case. *)
Fixpoint title_glyph (t : list Z) : option Z :=
  match t with
  | [] => None
  | c :: t =>
      if (97 <=? c) && (c <=? 122) then Some (c - 32)
      else if ((65 <=? c) && (c <=? 90)) || ((48 <=? c) && (c <=? 57)) then Some c else title_glyph t
  end.

Definition draw_icon (icon : DISCOUNT_ICON) (x y : Z) : list draw :=
  concat (map (fun dy => concat (map (fun dx =>
    let sy := Z.quot (dy * icon_height icon) ICON_BOX_SIZE in
    let sx := Z.quot (dx * icon_width icon) ICON_BOX_SIZE in
    let pixel := icon_pixels icon (sy * icon_width icon + sx) in
    if u8 (Z.shiftr pixel 24) =? 0 then [] else [FbPutPixel (x + dx) (y + dy) (win32k_rgb_to_index (Z.land pixel 16777215))])
    (seqZ 0 ICON_BOX_SIZE))) (seqZ 0 ICON_BOX_SIZE)).

Definition draw_sys_icon (s : w32k) (w : WINDOW) (x y : Z) : list draw :=
  let key := if negb (small_icon w =? 0) then small_icon w else big_icon w in
  let plain := [FbFillRect (x + 2) (y + 2) 10 10 BLUE; FbFillRect (x + 4) (y + 4) 6 1 WHITE] in
  if key =? 0 then plain else
  match icons s key with
  | Some icon => draw_icon icon x y
  | None =>
      let fill := 1 + Z.shiftr key 4 mod 14 in
      let fill := if (fill =? LIGHT_GRAY) || (fill =? WHITE) then BLUE else fill in
      let box := [FbFillRect (x + 2) (y + 2) (ICON_BOX_SIZE - 4) (ICON_BOX_SIZE - 4) fill] in
      match title_glyph (buf_str (title w)) with
      | Some g => box ++ [FbDrawChar (x + 4) (y + 3) g WHITE fill]
      | None => box ++ plain
      end
  end.

Definition shade (from to i width : Z) : Z := from + Z.quot ((to - from) * i) (if 1 <? width then width - 1 else 1).

Definition draw_caption_background (s : w32k) (x y width height : Z) (active : bool) : list draw :=
  if negb (framebuffer (screen s)) then [FbFillRect x y width height (if active then BLUE else DARK_GRAY)] else
  map (fun i =>
    let r := shade (if active then 63 else 128) (if active then 10 else 192) i width in
    let g := shade (if active then 91 else 128) (if active then 27 else 192) i width in
    let b := shade (if active then 183 else 128) (if active then 132 else 192) i width in
    FbFillRectRGB (x + i) y 1 height (Z.lor (Z.lor (Z.shiftl r 16) (Z.shiftl g 8)) b)) (seqZ 0 width).

Definition caption_button_pressed (s : w32k) (p : Z) (hit : CAPTION_BUTTON_HIT) : bool :=
  (caption_press_win (press s) =? p) && bool_decide (caption_press_hit (press s) = hit).

(** The buttons of the window at [p]. *)
Definition draw_buttons (s : w32k) (p : Z) (w : WINDOW) (btn_y : Z) : list draw :=
  (if has (style w) WS_MINIMIZEBOX then
     draw_caption_button (get_caption_button_x w (min_index w)) btn_y BUTTON_SIZE (if minimized (show w) then GlyphRestore else GlyphMin)
       (caption_button_pressed s p CAPBTN_MINIMIZE) else []) ++
  (if has (style w) WS_MAXIMIZEBOX then
     draw_caption_button (get_caption_button_x w 1) btn_y BUTTON_SIZE (if maximized (show w) then GlyphRestore else GlyphMax)
       (caption_button_pressed s p CAPBTN_MAXIMIZE) else []) ++
  draw_caption_button (get_caption_button_x w 0) btn_y BUTTON_SIZE GlyphClose (caption_button_pressed s p CAPBTN_CLOSE).

(** As much of the title as fits between the icon and the buttons. *)
Definition draw_title (s : w32k) (w : WINDOW) (cap_x cap_y : Z) : list draw :=
  let sys := has (style w) WS_SYSMENU in
  let text_x := cap_x + BUTTON_MARGIN + (if sys then ICON_BOX_SIZE + 4 else 2) in
  let text_right := wx (place w) + ww (place w) - window_frame_thickness w - BUTTON_MARGIN
                    - (if sys then get_caption_button_count w * (BUTTON_SIZE + 2) + 2 else 2) in
  let max_chars := Z.quot (text_right - text_x) 8 in
  let t := buf_str (title w) in
  let len := Z.max 0 (Z.min (strlen t) max_chars) in
  let fg := if active (show w) then WHITE else LIGHT_GRAY in
  let text := take (Z.to_nat len) t in
  if framebuffer (screen s) then [FbDrawStringTransparent text_x (cap_y + 4) text fg]
  else [FbDrawString text_x (cap_y + 4) text fg (if active (show w) then BLUE else DARK_GRAY)].

(** Background, icon, buttons and title: the part of the caption that
    [draw_window_frame] and [draw_window_caption] share. *)
Definition draw_caption (s : w32k) (p : Z) (w : WINDOW) : list draw :=
  let frame := window_frame_thickness w in
  let cap_x := wx (place w) + frame in
  let cap_y := wy (place w) + frame in
  draw_caption_background s cap_x cap_y (ww (place w) - frame * 2) TITLEBAR_HEIGHT (active (show w)) ++
  (if has (style w) WS_SYSMENU
   then draw_sys_icon s w (cap_x + BUTTON_MARGIN) (cap_y + BUTTON_MARGIN) ++ draw_buttons s p w (cap_y + BUTTON_MARGIN) else []) ++
  draw_title s w cap_x cap_y.

Definition draw_window_frame (s : w32k) (p : Z) (w : WINDOW) : list draw :=
  let x := wx (place w) in
  let y := wy (place w) in
  let width := ww (place w) in
  let height := wh (place w) in
  let frame := window_frame_thickness w in
  let client_w := client_right w - client_left w in
  let client_h := client_bottom w - client_top w in
  [FbFillRect x y width height LIGHT_GRAY] ++
  (if 2 <=? frame then draw_bevel x y width height WHITE BLACK ++ draw_bevel (x + 1) (y + 1) (width - 2) (height - 2) WHITE DARK_GRAY
   else if frame =? 1 then draw_bevel x y width height WHITE DARK_GRAY else []) ++
  (if has (style w) WS_CAPTION then draw_caption s p w else []) ++
  (if (0 <? client_w) && (0 <? client_h) then
     [FbFillRect (x + client_left w) (y + client_top w) client_w client_h LIGHT_GRAY] ++
     (if negb (window_client_edge w =? 0)
      then draw_bevel (x + client_left w - 2) (y + client_top w - 2) (client_w + 4) (client_h + 4) DARK_GRAY WHITE else [])
   else []).

Definition draw_window_caption (s : w32k) (p : Z) (w : WINDOW) : list draw :=
  if negb (has (style w) WS_CAPTION) || minimized (show w) then [] else draw_caption s p w.

Definition paint_desktop_area (s : w32k) (x y w h : Z) : list draw :=
  if wallpaper (screen s) then [FbPaintWallpaper x y w h] else [FbFillRect x y w h BLUE].

(** The grid of the colour preview. *)
Definition draw_preview (s : w32k) : list draw :=
  let sw := scr_width (screen s) in
  let sh := scr_height (screen s) in
  concat (map (fun j => map (fun i =>
    let px := 8 * i in
    let py := 8 * j in
    let r := u32 (Z.quot (px * 255) (if 1 <? sw then sw - 1 else 1)) in
    let g := u32 (Z.quot (py * 255) (if 1 <? sh then sh - 1 else 1)) in
    let b := u32 (Z.quot (Z.land (i + j) 31 * 255) 31) in
    FbFillRectRGB px py 8 8 (Z.lor (Z.lor (Z.shiftl r 16) (Z.shiftl g 8)) b))
    (seqZ 0 (Z.max 0 ((sw + 7) / 8)))) (seqZ 0 (Z.max 0 ((sh + 7) / 8)))).

(** ** Programs

    A step on the object manager's state, in whose [memory] the window manager's
    is; [None] is an undefined behaviour or an exhausted fuel. *)
Definition prog (H A : Type) : Type := ob H w32k -> option (A * ob H w32k).

#[global] Instance prog_ret H : MRet (prog H) := fun A x st => Some (x, st).
#[global] Instance prog_bind H : MBind (prog H) := fun A B k m st => '(x, st) ← m st; k x st.

Section ops.
Context {H : Type} `{KernelHeap H} (a : arch).
(** What a window procedure (code address, window, message, [wParam],
    [lParam]) does. *)
Context (proc : Z -> Z -> Z -> Z -> Z -> prog H unit).

Definition gets {A} (f : w32k -> A) : prog H A := fun st => Some (f (memory st), st).
Definition modify (f : w32k -> w32k) : prog H unit := fun st => Some (tt, set_memory st (f (memory st))).
Definition undefined {A} : prog H A := fun _ => None.

Definition paint (f : w32k -> list draw) : prog H unit := modify (fun s => put_drawn s (drawn s ++ f s)).
Definition emit (d : draw) : prog H unit := paint (fun _ => [d]).

(** The delete procedure of the window type is null. *)
Definition ref (h : Z) : prog H Z := ObReferenceObject h.
Definition deref (h : Z) : prog H unit := fun st => st ← ObDereferenceObject (fun _ _ st => Some st) h st; Some (tt, st).

(** Blocks are read while they are allocated. *)
Definition allocated (p : Z) (st : ob H w32k) : bool := match kh_live (heap st) !! p with Some _ => true | None => false end.
Definition win_at (p : Z) : prog H WINDOW := fun st =>
  if allocated p st then match windows (memory st) !! p with Some w => Some (w, st) | None => None end else None.
Definition class_at (p : Z) : prog H WNDCLASS := fun st =>
  if allocated p st then match classes (memory st) !! p with Some c => Some (c, st) | None => None end else None.
Definition update (p : Z) (f : WINDOW -> WINDOW) : prog H unit :=
  w ← win_at p; modify (fun s => put_windows s (<[p := f w]> (windows s))).

(** [WINDOW *win = ObReferenceObject(h); if (win) ...; if (win) ObDereferenceObject(h);] *)
Definition with_window {A} (h : Z) (none : A) (body : Z -> WINDOW -> prog H A) : prog H A :=
  p ← ref h;
  if p =? 0 then mret none else
  w ← win_at p; x ← body p w; deref h;; mret x.

Definition call_proc (w : WINDOW) (hwnd msg lparam : Z) : prog H unit :=
  if wndProc w =? 0 then mret tt else proc (wndProc w) hwnd msg 0 lparam.

Definition screen_width : prog H Z := gets (fun s => scr_width (screen s)).
Definition screen_height : prog H Z := gets (fun s => scr_height (screen s)).
(** The screen, or 640 by 480. *)
Definition screen_size : prog H (Z * Z) :=
  w ← screen_width; h ← screen_height; mret (if w <=? 0 then 640 else w, if h <=? 0 then 480 else h).

(** ** The window list *)
Definition list_at (i : Z) : prog H Z := gets (fun s => get 0 (window_list s) i).
Definition put_slot (i h : Z) : prog H unit :=
  if (i <? 0) || (MAX_WINDOWS <=? i) then undefined else modify (fun s => put_list s (put (window_list s) i h) (window_count s)).

(** The same for [window_list[i]]: the reference that is given back is to the handle
    that is there afterwards. *)
Definition with_slot {A} (i : Z) (none : A) (body : Z -> Z -> WINDOW -> prog H A) : prog H A :=
  h ← list_at i; p ← ref h;
  if p =? 0 then mret none else
  w ← win_at p; x ← body h p w; h' ← list_at i; deref h';; mret x.

(** [for (i = start; i < window_count; i++)]; the bound is read again at every
    turn, since procedures called by the body may change it. *)
Fixpoint windows_from (n : nat) (i : Z) (body : Z -> prog H unit) : prog H unit :=
  c ← gets window_count;
  if c <=? i then mret tt else
  match n with O => undefined | S n' => body i;; windows_from n' (i + 1) body end.
Definition for_windows (body : Z -> prog H unit) : prog H unit := windows_from 32 0 body.

(** The last and the first index of a handle among the first [n], or -1. *)
Definition first_index (l : list Z) (n h : Z) : Z := match first_from (Z.to_nat n) 0 (fun i => get 0 l i =? h) with Some i => i | None => -1 end.
Definition last_index (l : list Z) (n h : Z) : Z := for_range 0 n (fun i acc => if get 0 l i =? h then i else acc) (-1).

(** [for (i = a; i < b; i++) list[i] = list[i + 1]] and
    [for (i = a; i > b; i--) list[i] = list[i - 1]]. *)
Fixpoint shift_down (n : nat) (i b : Z) (l : list Z) : list Z :=
  match n with O => l | S n' => if i <? b then shift_down n' (i + 1) b (put l i (get 0 l (i + 1))) else l end.
Fixpoint shift_up (n : nat) (i b : Z) (l : list Z) : list Z :=
  match n with O => l | S n' => if b <? i then shift_up n' (i - 1) b (put l i (get 0 l (i - 1))) else l end.
Definition modify_list (f : list Z -> list Z) : prog H unit := modify (fun s => put_list s (f (window_list s)) (window_count s)).

Fixpoint raise_owned (fuel : nat) (owner_h i : Z) : prog H unit :=
  c ← gets window_count;
  if c <=? i then mret tt else
  match fuel with
  | O => undefined
  | S fuel' =>
      child_hwnd ← list_at i;
      is_owned ← with_window child_hwnd false (fun _ child => mret (owner child =? owner_h));
      if negb is_owned then raise_owned fuel' owner_h (i + 1) else
      l ← gets window_list; c ← gets window_count;
      let owner_pos := last_index l c owner_h in
      let child_pos := last_index l c child_hwnd in
      (if (0 <=? owner_pos) && (0 <=? child_pos) && negb (child_pos =? owner_pos + 1)
       then modify_list (shift_up 32 child_pos (owner_pos + 1));; put_slot (owner_pos + 1) child_hwnd
       else mret tt);;
      raise_owned fuel' child_hwnd 0;;
      raise_owned fuel' owner_h (owner_pos + 2)
  end.
Definition raise_owned_windows (fuel : nat) (owner_h : Z) : prog H unit := raise_owned fuel owner_h 0.

Definition is_class (w : WINDOW) (nm : list Z) : prog H bool :=
  c ← class_at (wndClass w); mret (strcmp (buf_str (className c)) nm =? 0).

Definition window_is_topmost (w : WINDOW) : prog H bool :=
  if wndClass w =? 0 then mret false else
  if has (exstyle w) WS_EX_TOPMOST then mret true else
  tray ← is_class w (cstr "Shell_TrayWnd");
  if tray : bool then mret true else is_class w (cstr "MenuPopup").

Definition is_menu_popup_window (w : WINDOW) : prog H bool :=
  if wndClass w =? 0 then mret false else is_class w (cstr "MenuPopup").

Definition set_window_active (hwnd : Z) : prog H unit :=
  refuse ← (if hwnd =? INVALID_HANDLE then mret false else with_window hwnd true (fun _ w => mret (desktop w)));
  if refuse : bool then mret tt else
  modify (fun s => put_active s hwnd);;
  for_windows (fun i => h ← list_at i; with_window h tt (fun p _ => update p (fun w => set_active w (h =? hwnd)))).

(** The first index of a topmost window from [i] on, or [window_count]. *)
Fixpoint first_topmost_from (n : nat) (i found : Z) : prog H Z :=
  c ← gets window_count;
  if c <=? i then mret found else
  match n with
  | O => undefined
  | S n' =>
      h ← list_at i;
      top ← with_window h false (fun _ w => window_is_topmost w);
      first_topmost_from n' (i + 1) (if (top : bool) && (found =? c) then i else found)
  end.

(** Where the owner of a moved window is above it, the window goes there. *)
Definition above_owner (hwnd target : Z) : prog H unit :=
  with_window hwnd tt (fun _ moved =>
    if owner moved =? INVALID_HANDLE then mret tt else
    l ← gets window_list; c ← gets window_count;
    let owner_pos := first_index l c (owner moved) in
    if (0 <=? owner_pos) && (target <=? owner_pos)
    then modify_list (fun l => put (shift_down 32 target owner_pos l) owner_pos hwnd) else mret tt).

Definition raise_window (fuel : nat) (hwnd : Z) : prog H unit :=
  cand ← with_window hwnd None (fun _ w => if desktop w then mret None else t ← window_is_topmost w; mret (Some t));
  match cand with
  | None => mret tt
  | Some candidate_topmost =>
      count0 ← gets window_count;
      first_topmost ← first_topmost_from 32 0 count0;
      l ← gets window_list; c ← gets window_count;
      let pos := first_index l c hwnd in
      if pos <? 0 then mret tt else
      let target := if (candidate_topmost : bool) then c - 1 else first_topmost - (if pos <? first_topmost then 1 else 0) in
      let target := Z.max 0 target in
      (if pos =? target then mret tt else
       modify_list (fun l => put (if pos <? target then shift_down 32 pos target l else shift_up 32 pos target l) target hwnd);;
       above_owner hwnd target);;
      raise_owned_windows fuel hwnd
  end.

(** From the front to the back. *)
Fixpoint find_back {A} (n : nat) (i : Z) (none : A) (test : Z -> Z -> prog H (option A)) : prog H A :=
  if i <? 0 then mret none else
  match n with
  | O => undefined
  | S n' =>
      h ← list_at i; r ← test i h;
      match r with Some x => mret x | None => find_back n' (i - 1) none test end
  end.

Definition find_topmost_visible_window : prog H Z :=
  c ← gets window_count;
  find_back 32 (c - 1) INVALID_HANDLE (fun _ h =>
    with_window h None (fun _ w => mret (if visible (show w) && negb (minimized (show w)) && negb (desktop w) then Some h else None))).

(** The reference to a window that is not visible is not given back. *)
Definition find_window_at (x y : Z) : prog H Z :=
  c ← gets window_count;
  find_back 32 (c - 1) INVALID_HANDLE (fun _ h =>
    p ← ref h;
    if p =? 0 then mret None else
    w ← win_at p;
    if visible (show w) then deref h;; mret (if is_in_window w x y then Some h else None) else mret None).

Definition has_visible_menu_popup : prog H bool :=
  c ← gets window_count;
  (fix scan (n : nat) (i : Z) : prog H bool :=
     if c <=? i then mret false else
     match n with
     | O => undefined
     | S n' =>
         h ← list_at i;
         v ← with_window h false (fun _ w => if visible (show w) then is_menu_popup_window w else mret false);
         if v : bool then mret true else scan n' (i + 1)
     end) 32%nat 0.

(** ** States of a window *)
Definition restored_place (w : WINDOW) : PLACE :=
  mkPlace (wx (restore w)) (wy (restore w)) (if 0 <? ww (restore w) then ww (restore w) else ww (place w))
    (if 0 <? wh (restore w) then wh (restore w) else wh (place w)).

Definition restore_window_if_needed (p : Z) : prog H unit :=
  update p (fun w => if negb (minimized (show w)) then w else with_place (set_visible (set_minimized w false) true) (restored_place w)).

(** How many other windows are minimised. *)
Fixpoint count_minimized (n : nat) (i hwnd acc : Z) : prog H Z :=
  c ← gets window_count;
  if c <=? i then mret acc else
  match n with
  | O => undefined
  | S n' =>
      h ← list_at i;
      m ← (if h =? hwnd then mret false else with_window h false (fun _ w => mret (visible (show w) && minimized (show w))));
      count_minimized n' (i + 1) hwnd (if m : bool then acc + 1 else acc)
  end.

(** The place of the [slot]-th minimised window. *)
Definition minimized_place (screen_w screen_h slot : Z) : PLACE :=
  let step := MINIMIZED_WIDTH + 8 in
  let bottom := screen_h - 8 - minimized_window_height in
  let x := 8 + slot * step in
  let '(x, y) :=
    if screen_w <? x + MINIMIZED_WIDTH then
      let columns := Z.max 1 (Z.quot (screen_w - 8) step) in
      (8 + (slot mod columns) * step, bottom - (slot / columns) * (minimized_window_height + 8))
    else (x, bottom) in
  mkPlace x (Z.max 0 y) MINIMIZED_WIDTH minimized_window_height.

Definition layout_minimized_window (hwnd p : Z) : prog H unit :=
  '(sw, sh) ← screen_size;
  n ← count_minimized 32 0 hwnd 0;
  update p (fun w => with_place w (minimized_place sw sh n)).

Definition minimize_window (hwnd p : Z) : prog H unit :=
  w ← win_at p;
  if minimized (show w) then mret tt else
  update p (fun w => set_visible (set_minimized (with_restore w (place w)) true) true);;
  layout_minimized_window hwnd p;;
  modify (fun s => let d := drag s in
    if drag_window d =? hwnd
    then put_drag s (mkDrag false INVALID_HANDLE (drag_offset_x d) (drag_offset_y d) (drag_pixels d) (drag_pixels_width d) (drag_pixels_height d)) else s).

Definition maximize_window (p : Z) : prog H unit :=
  w ← win_at p;
  if maximized (show w) then mret tt else
  '(sw, sh) ← screen_size;
  update p (fun w => set_maximized (with_place (with_restore w (place w)) (mkPlace 0 0 sw sh)) true).

Definition restore_window (p : Z) : prog H unit :=
  update p (fun w => if negb (maximized (show w)) then w else set_maximized (with_place w (restored_place w)) false).

(** ** Composition *)

(** A window in its layer: menus are in the second. *)
Definition in_layer (popups : bool) (w : WINDOW) : prog H bool :=
  if negb (visible (show w)) then mret false else m ← is_menu_popup_window w; mret (Bool.eqb m popups).

Definition paint_window (p h : Z) (w : WINDOW) : prog H unit :=
  paint (fun s => draw_window_frame s p w);; if minimized (show w) then mret tt else call_proc w h WM_PAINT 0.

(** Both layers of the windows that [test] selects: frames and clients. *)
Definition paint_layers (test : Z -> WINDOW -> prog H bool) : prog H unit :=
  let layer popups := for_windows (fun i =>
    with_slot i tt (fun h p w => inl ← in_layer popups w; if negb inl then mret tt else
                                 t ← test h w; if t : bool then paint_window p h w else mret tt)) in
  layer false;; layer true.

Definition all_windows (_ : Z) (_ : WINDOW) : prog H bool := mret true.

Definition paint_captions (popups : bool) : prog H unit :=
  for_windows (fun i => h ← list_at i;
    with_window h tt (fun p w => inl ← in_layer popups w; if inl : bool then paint (fun s => draw_window_caption s p w) else mret tt)).

Definition Win32kRedrawAll : prog H unit :=
  busy ← gets redraw_in_progress;
  if busy : bool then mret tt else
  modify (fun s => put_redraw s true);;
  emit MouseEraseCursor;;
  paint (fun s => paint_desktop_area s 0 0 (scr_width (screen s)) (scr_height (screen s)));;
  paint_layers all_windows;;
  paint_captions false;; paint_captions true;;
  paint (fun s => if color_preview_overlay s then draw_preview s else []);;
  emit MouseDrawCursor;; emit FbSwapBuffers;;
  modify (fun s => put_redraw s false).

Definition Win32kSetColorPreview (enabled : bool) : prog H unit :=
  modify (fun s => put_preview s enabled);; Win32kRedrawAll.

Definition Win32kRefreshCursor : prog H unit := emit MouseEraseCursor;; emit MouseDrawCursor;; emit FbSwapBuffers.

(** The captions of the windows that meet [area], all layers at once. *)
Definition captions_in (area : PLACE) (test : Z -> prog H bool) : prog H unit :=
  for_windows (fun i => h ← list_at i;
    with_window h tt (fun p w =>
      if negb (visible (show w)) then mret tt else
      t ← test h;
      if (t : bool) && meets (place w) area then paint (fun s => draw_window_caption s p w) else mret tt)).

Definition clip_to (area : PLACE) : prog H unit := emit (FbSetClipRect (wx area) (wy area) (ww area) (wh area)).
Definition paint_desktop_in (area : PLACE) : prog H unit := paint (fun s => paint_desktop_area s (wx area) (wy area) (ww area) (wh area)).

Definition kfree_w (p : Z) : prog H unit := fun st => h ← kh_free p (heap st); Some (tt, Ob.set_heap st h).
Definition kmalloc_w (n : Z) : prog H Z := fun st => '(p, h) ← kh_malloc n (heap st); Some (p, Ob.set_heap st h).

Definition set_pixels (p w h : Z) : prog H unit :=
  modify (fun s => let d := drag s in put_drag s (mkDrag (dragging d) (drag_window d) (drag_offset_x d) (drag_offset_y d) p w h)).
Definition free_pixels : prog H unit := d ← gets drag; if drag_pixels d =? 0 then mret tt else kfree_w (drag_pixels d).

Definition begin_fast_drag (hwnd : Z) : prog H unit :=
  with_window hwnd tt (fun p w =>
    emit MouseEraseCursor;; clip_to (place w);; paint_desktop_in (place w);; paint_window p hwnd w;;
    w ← win_at p;
    paint (fun s => draw_window_caption s p w);; emit FbResetClipRect;;
    free_pixels;;
    q ← kmalloc_w (u32 (u32 (ww (place w)) * u32 (wh (place w)) * 4));
    set_pixels q (ww (place w)) (wh (place w));;
    (if q =? 0 then mret tt else emit (FbCaptureRGB (wx (place w)) (wy (place w)) (ww (place w)) (wh (place w)) q (ww (place w))));;
    emit MouseDrawCursor;; emit FbSwapBuffers).

(** [window_list[i] != drag_window || !drag_pixels]. *)
Definition not_dragged (h : Z) : prog H bool := d ← gets drag; mret (negb (h =? drag_window d) || (drag_pixels d =? 0)).

Definition fast_drag_present (p old_x old_y : Z) : prog H unit :=
  w ← win_at p;
  let area := span (mkPlace old_x old_y (ww (place w)) (wh (place w))) (place w) in
  emit MouseEraseCursor;; clip_to area;; paint_desktop_in area;;
  paint_layers (fun h o =>
    d ← gets drag;
    if (h =? drag_window d) || meets (place o) area then not_dragged h else mret false);;
  captions_in area not_dragged;;
  w ← win_at p;
  paint (fun s => let d := drag s in
    if negb (drag_pixels d =? 0) && (drag_pixels_width d =? ww (place w)) && (drag_pixels_height d =? wh (place w))
    then [FbBlitRGB (wx (place w)) (wy (place w)) (ww (place w)) (wh (place w)) (drag_pixels d) (drag_pixels_width d)] else []);;
  emit FbResetClipRect;; emit MouseDrawCursor;; emit FbSwapBuffers.

(** The part of the screen that resizing the window at [p] has touched. *)
Definition resize_present (p : Z) : prog H unit :=
  w ← win_at p; r ← gets resize;
  let area := span (resize_start r) (place w) in
  emit MouseEraseCursor;; clip_to area;; paint_desktop_in area;;
  paint_layers (fun _ o => mret (meets (place o) area));;
  captions_in area (fun _ => mret true);;
  emit FbResetClipRect;; emit MouseDrawCursor;; emit FbSwapBuffers.

(** The cursor of a point over an edge. *)
Definition edge_cursor (e : EDGE) : MOUSE_CURSOR_TYPE :=
  if e_left e && e_top e then MOUSE_CURSOR_SIZENWSE else
  if e_right e && e_bottom e then MOUSE_CURSOR_SIZENWSE else
  if e_right e && e_top e then MOUSE_CURSOR_SIZENESW else
  if e_left e && e_bottom e then MOUSE_CURSOR_SIZENESW else
  if e_left e || e_right e then MOUSE_CURSOR_SIZEWE else
  if e_top e || e_bottom e then MOUSE_CURSOR_SIZENS else MOUSE_CURSOR_ARROW.

Definition update_cursor_for_point (x y : Z) : prog H unit :=
  r ← gets resize;
  edge ← (if resizing r then mret (resize_edge r) else
          hwnd ← find_window_at x y;
          if hwnd =? INVALID_HANDLE then mret RESIZE_NONE else
          with_window hwnd RESIZE_NONE (fun _ w => mret (hit_resize_edge w x y)));
  emit (MouseSetCursorType (edge_cursor edge)).

(** ** Creation and destruction *)
Definition sizeof_WNDCLASS : Z := match a with X86 => 72 | AMD64 | LA64 => 80 end.
Definition sizeof_WINDOW : Z := match a with X86 => 132 | AMD64 | LA64 => 144 end.

(** [memset] to zero and [memcpy] of at most 63 characters. *)
Definition text64 (s : list Z) : list Z := let t := take 63 s in t ++ replicate (64 - length t) 0.

Definition ob_create (nm : list Z) (body size : Z) : prog H Z := fun st =>
  ObCreateObject a (window_object_type (memory st)) (Some nm) body size st.

Definition Win32kInit (scr : SCREEN) : prog H unit := fun st =>
  let '(t, st) := ObRegisterObjectType (Some (cstr "Window")) 0 st in
  (modify (fun s => put_screen s t scr);;
   paint (fun s => paint_desktop_area s 0 0 (scr_width (screen s)) (scr_height (screen s)));;
   modify (fun s =>
     let d := drag s in
     let r := resize s in
     put_resize (put_drag (put_active (put_list s (window_list s) 0) INVALID_HANDLE)
       (mkDrag false INVALID_HANDLE (drag_offset_x d) (drag_offset_y d) (drag_pixels d) (drag_pixels_width d) (drag_pixels_height d)))
       (mkResize false INVALID_HANDLE (resize_edge r) (resize_start_mouse_x r) (resize_start_mouse_y r) (resize_start r)))) st.

Definition Win32kRegisterClass (nm : list Z) (sty pr : Z) : prog H Z :=
  wc ← kmalloc_w sizeof_WNDCLASS;
  if wc =? 0 then mret INVALID_HANDLE else
  modify (fun s => put_classes s (<[wc := mkClass (text64 nm) sty pr]> (classes s)));;
  h ← ob_create nm wc sizeof_WNDCLASS;
  (if h =? INVALID_HANDLE then kfree_w wc else mret tt);; mret h.

Definition new_window (c : WNDCLASS) (wc : Z) (ttl : list Z) (x y w h sty exs own : Z) : WINDOW :=
  let named nm := strcmp (buf_str (className c)) nm =? 0 in
  let free_size := named (cstr "Desktop") || named (cstr "Shell_TrayWnd") in
  let w := if free_size then w else Z.max 96 w in
  let h := if free_size then h else Z.max 64 h in
  let p := mkPlace x y w h in
  mkWindow (text64 ttl) p p sty exs (mkShow (has sty WS_VISIBLE) false false false) (named (cstr "Desktop")) own 0 0 wc (class_proc c).

(** The desktop goes to the back of the list, others to the front. *)
Definition enlist (hwnd : Z) (is_desktop : bool) : prog H unit :=
  modify (fun s =>
    let n := window_count s in
    if n <? MAX_WINDOWS then
      if is_desktop then put_list s (put (shift_up 32 n 0 (window_list s)) 0 hwnd) (n + 1)
      else put_list s (put (window_list s) n hwnd) (n + 1)
    else s).

Definition win32k_create_window_by_class (fuel : nat) (hClass : Z) (ttl : list Z) (x y w h sty exs own : Z) : prog H Z :=
  if hClass =? INVALID_HANDLE then mret INVALID_HANDLE else
  wc ← ref hClass;
  if wc =? 0 then mret INVALID_HANDLE else
  p ← kmalloc_w sizeof_WINDOW;
  if p =? 0 then deref hClass;; mret INVALID_HANDLE else
  c ← class_at wc;
  let win := new_window c wc ttl x y w h sty exs own in
  modify (fun s => put_windows s (<[p := win]> (windows s)));;
  hwnd ← ob_create ttl p sizeof_WINDOW;
  if hwnd =? INVALID_HANDLE then kfree_w p;; deref hClass;; mret INVALID_HANDLE else
  enlist hwnd (desktop win);;
  (if desktop win then mret tt else raise_window fuel hwnd);;
  win ← win_at p;
  call_proc win hwnd WM_CREATE 0;;
  deref hClass;; mret hwnd.

Definition Win32kCreateWindowByClass (fuel : nat) (hClass : Z) (ttl : list Z) (x y w h sty : Z) : prog H Z :=
  win32k_create_window_by_class fuel hClass ttl x y w h sty 0 INVALID_HANDLE.

Definition Win32kCreateWindowEx (fuel : nat) (nm ttl : list Z) (x y w h sty exs own : Z) : prog H Z := fun st =>
  let hClass := ObFindObject (Some nm) (window_object_type (memory st)) st in
  if hClass =? INVALID_HANDLE then Some (INVALID_HANDLE, st) else
  win32k_create_window_by_class fuel hClass ttl x y w h sty exs own st.

Definition Win32kCreateWindow (fuel : nat) (nm ttl : list Z) (x y w h sty : Z) : prog H Z :=
  Win32kCreateWindowEx fuel nm ttl x y w h sty 0 INVALID_HANDLE.

(** [hwnd] leaves the list. *)
Definition unlist (hwnd : Z) : prog H unit :=
  modify (fun s =>
    let i := first_index (window_list s) (window_count s) hwnd in
    if i <? 0 then s else put_list s (shift_down 32 i (window_count s - 1) (window_list s)) (window_count s - 1)).

Definition Win32kDestroyWindow (hwnd : Z) : prog H unit :=
  p ← ref hwnd;
  if p =? 0 then mret tt else
  unlist hwnd;;
  act ← gets active_window;
  (if act =? hwnd then
     t ← find_topmost_visible_window;
     modify (fun s => put_active s t);; set_window_active t
   else mret tt);;
  w ← win_at p;
  call_proc w hwnd WM_DESTROY 0;;
  deref hwnd;; deref hwnd.

(** ** Requests *)
Definition Win32kActivateWindow (fuel : nat) (hwnd : Z) : prog H unit :=
  if hwnd =? INVALID_HANDLE then mret tt else
  act ← gets active_window;
  go ← with_window hwnd false (fun _ w =>
    mret (negb (has (exstyle w) WS_EX_NOACTIVATE) && negb (desktop w && negb (act =? INVALID_HANDLE) && negb (act =? hwnd))));
  if go : bool then raise_window fuel hwnd;; set_window_active hwnd else mret tt.

Definition Win32kShowWindow (hwnd : Z) : prog H unit :=
  with_window hwnd tt (fun p _ =>
    update p (fun w => set_visible (set_minimized w false) true);;
    w ← win_at p;
    if desktop w then Win32kRedrawAll else paint (fun s => draw_window_frame s p w)).

Definition SW_HIDE : Z := 0.
Definition SW_SHOWNORMAL : Z := 1.
Definition SW_SHOWMINIMIZED : Z := 2.
Definition SW_MINIMIZE : Z := 6.
Definition SW_RESTORE : Z := 9.

Definition Win32kSetWindowShowState (fuel : nat) (hwnd command : Z) : prog H unit :=
  p ← ref hwnd;
  if p =? 0 then mret tt else
  if command =? SW_HIDE then update p (fun w => set_visible w false);; deref hwnd;; Win32kRedrawAll else
  if (command =? SW_MINIMIZE) || (command =? SW_SHOWMINIMIZED) then
    update p (fun w => set_visible w true);; minimize_window hwnd p;; deref hwnd;;
    t ← find_topmost_visible_window; set_window_active t;; Win32kRedrawAll
  else
    update p (fun w => set_visible w true);;
    (if (command =? SW_RESTORE) || (command =? SW_SHOWNORMAL) then restore_window_if_needed p else mret tt);;
    deref hwnd;; Win32kActivateWindow fuel hwnd;; Win32kRedrawAll.

Definition Win32kIsWindowMinimized (hwnd : Z) : prog H bool := with_window hwnd false (fun _ w => mret (minimized (show w))).

Definition Win32kUpdateWindow (hwnd : Z) : prog H unit :=
  p ← ref hwnd;
  if p =? 0 then mret tt else
  w ← win_at p;
  menu ← (if desktop w || (owner w =? INVALID_HANDLE) || (owner w =? 0) then has_visible_menu_popup else mret false);
  if menu : bool then deref hwnd;; Win32kRedrawAll else
  (if minimized (show w) then mret tt else call_proc w hwnd WM_PAINT 0);; deref hwnd.

(** [RECT] as left, top, right, bottom; [None] leaves the caller's untouched. *)
Definition client_rect (w : WINDOW) : Z * Z * Z * Z := (0, 0, client_right w - client_left w, client_bottom w - client_top w).
Definition client_screen_rect (w : WINDOW) : Z * Z * Z * Z :=
  (wx (place w) + client_left w, wy (place w) + client_top w, wx (place w) + client_right w, wy (place w) + client_bottom w).
Definition window_rect (w : WINDOW) : Z * Z * Z * Z :=
  (wx (place w), wy (place w), wx (place w) + ww (place w), wy (place w) + wh (place w)).
Definition Win32kGetClientRect (hwnd : Z) : prog H (option (Z * Z * Z * Z)) := with_window hwnd None (fun _ w => mret (Some (client_rect w))).
Definition Win32kGetClientScreenRect (hwnd : Z) : prog H (option (Z * Z * Z * Z)) := with_window hwnd None (fun _ w => mret (Some (client_screen_rect w))).
Definition Win32kGetWindowRect (hwnd : Z) : prog H (option (Z * Z * Z * Z)) := with_window hwnd None (fun _ w => mret (Some (window_rect w))).

Definition Win32kIsDragging : prog H bool := gets (fun s => dragging (drag s)).
Definition Win32kIsResizing : prog H bool := gets (fun s => resizing (resize s)).
Definition Win32kGetActiveWindow : prog H Z := gets active_window.
Definition Win32kGetScreenWidth : prog H Z := w ← screen_width; mret (if 0 <? w then w else 800).
Definition Win32kGetScreenHeight : prog H Z := h ← screen_height; mret (if 0 <? h then h else 600).

Definition Win32kSetWindowIcons (hwnd big small : Z) : prog H unit :=
  with_window hwnd tt (fun p _ => update p (fun w => with_icons w big (if negb (small =? 0) then small else big))).

Definition Win32kSetWindowRect (hwnd x y width height : Z) : prog H unit :=
  with_window hwnd tt (fun p _ =>
    if (0 <? width) && (0 <? height) then
      let q := mkPlace x y width height in
      update p (fun w => let w := with_place w q in if maximized (show w) then w else with_restore w q)
    else mret tt).

Definition SWP_NOSIZE : Z := 1.
Definition SWP_NOMOVE : Z := 2.
Definition SWP_NOZORDER : Z := 4.
Definition SWP_NOACTIVATE : Z := 16.
Definition SWP_SHOWWINDOW : Z := 64.
Definition SWP_HIDEWINDOW : Z := 128.
(** [(HANDLE)-1] and [(HANDLE)-2]. *)
Definition HWND_TOPMOST : Z := 4294967295.
Definition HWND_NOTOPMOST : Z := 4294967294.

Definition moved (flags x y width height : Z) (w : WINDOW) : WINDOW :=
  let p := place w in
  let p := if has flags SWP_NOMOVE then p else mkPlace x y (ww p) (wh p) in
  let sized := negb (has flags SWP_NOSIZE) && (0 <? width) && (0 <? height) in
  let p := if sized then mkPlace (wx p) (wy p) width height else p in
  let w := with_place w p in
  let w := if sized && negb (maximized (show w)) then with_restore w (mkPlace (wx (restore w)) (wy (restore w)) width height) else w in
  let w := if has flags SWP_HIDEWINDOW then set_visible w false else w in
  if has flags SWP_SHOWWINDOW then set_visible w true else w.

Definition Win32kSetWindowPos (fuel : nat) (hwnd insert_after x y width height flags : Z) : prog H Z :=
  p ← ref hwnd;
  if p =? 0 then mret 0 else
  update p (moved flags x y width height);;
  (if negb (has flags SWP_NOZORDER) && negb (insert_after =? INVALID_HANDLE) then
     (if insert_after =? HWND_TOPMOST then update p (fun w => with_exstyle w (Z.lor (exstyle w) WS_EX_TOPMOST))
      else if insert_after =? HWND_NOTOPMOST then update p (fun w => with_exstyle w (Z.ldiff (exstyle w) WS_EX_TOPMOST)) else mret tt);;
     raise_window fuel hwnd
   else mret tt);;
  w ← win_at p;
  (if negb (has flags SWP_NOACTIVATE) && negb (has (exstyle w) WS_EX_NOACTIVATE) then set_window_active hwnd else mret tt);;
  deref hwnd;; Win32kRedrawAll;; mret 1.

(** ** The mouse *)
Definition MAKELPARAM (l h : Z) : Z := u32 (Z.lor (u16 (Z.land l 65535)) (Z.shiftl (u16 (Z.land h 65535)) 16)).

Definition in_client (w : WINDOW) (x y : Z) : bool :=
  (client_left w + wx (place w) <=? x) && (x <? client_right w + wx (place w)) && (client_top w + wy (place w) <=? y) && (y <? client_bottom w + wy (place w)).

(** A mouse message in client coordinates. *)
Definition notify_client (w : WINDOW) (hwnd msg x y : Z) : prog H unit :=
  if in_client w x y then call_proc w hwnd msg (MAKELPARAM (x - (wx (place w) + client_left w)) (y - (wy (place w) + client_top w))) else mret tt.

Definition do_caption_button_action (hwnd p : Z) (hit : CAPTION_BUTTON_HIT) : prog H unit :=
  w ← win_at p;
  match hit with
  | CAPBTN_CLOSE =>
      call_proc w hwnd WM_CLOSE 0;;
      q ← ref hwnd;
      if q =? 0 then mret tt else deref hwnd;; Win32kDestroyWindow hwnd
  | CAPBTN_MAXIMIZE =>
      if minimized (show w) then restore_window_if_needed p;; maximize_window p
      else if maximized (show w) then restore_window p else maximize_window p
  | CAPBTN_MINIMIZE =>
      if minimized (show w) then restore_window_if_needed p;; set_window_active hwnd
      else minimize_window hwnd p;; t ← find_topmost_visible_window; set_window_active t
  | CAPBTN_NONE => mret tt
  end.

Definition Win32kHandleMouseDown (fuel : nat) (x y button : Z) : prog H unit :=
  if negb (button =? 1) then mret tt else
  hwnd ← find_window_at x y;
  if hwnd =? INVALID_HANDLE then mret tt else
  p ← ref hwnd;
  if p =? 0 then mret tt else
  w ← win_at p;
  (if negb (desktop w) && negb (has (exstyle w) WS_EX_NOACTIVATE) then raise_window fuel hwnd;; set_window_active hwnd else mret tt);;
  w ← win_at p;
  let hit := hit_caption_button w x y in
  if negb (bool_decide (hit = CAPBTN_NONE)) then modify (fun s => put_press s (mkPress hit p hwnd));; deref hwnd;; Win32kRedrawAll else
  let edge := hit_resize_edge w x y in
  if negb (no_edge edge) then modify (fun s => put_resize s (mkResize true hwnd edge x y (place w)));; deref hwnd;; Win32kRedrawAll else
  (if is_title_bar w x y then
     modify (fun s => let d := drag s in
       put_drag s (mkDrag true hwnd (x - wx (place w)) (y - wy (place w)) (drag_pixels d) (drag_pixels_width d) (drag_pixels_height d)));;
     begin_fast_drag hwnd
   else notify_client w hwnd WM_LBUTTONDOWN x y);;
  deref hwnd.

(** A message to the window under the pointer. *)
Definition notify_at (msg x y : Z) : prog H unit :=
  hwnd ← find_window_at x y;
  if hwnd =? INVALID_HANDLE then mret tt else with_window hwnd tt (fun _ w => notify_client w hwnd msg x y).

Definition release_press (x y : Z) : prog H unit :=
  pr ← gets press;
  let hw := caption_press_hwnd pr in
  let hit := caption_press_hit pr in
  p ← ref hw;
  fire ← (if p =? 0 then mret false else w ← win_at p; mret (visible (show w) && bool_decide (hit_caption_button w x y = hit)));
  modify (fun s => put_press s no_press);;
  (if fire : bool then do_caption_button_action hw p hit else mret tt);;
  (if p =? 0 then mret tt else deref hw);;
  Win32kRedrawAll.

Definition end_drag : prog H unit :=
  d ← gets drag;
  if negb (dragging d) then mret tt else
  free_pixels;; modify (fun s => put_drag s (mkDrag false INVALID_HANDLE (drag_offset_x d) (drag_offset_y d) 0 0 0)).

(** [resizing = 0; resize_window = INVALID_HANDLE; resize_edge = RESIZE_NONE]. *)
Definition stop_resize : prog H unit :=
  modify (fun s => let r := resize s in
    put_resize s (mkResize false INVALID_HANDLE RESIZE_NONE (resize_start_mouse_x r) (resize_start_mouse_y r) (resize_start r))).

Definition Win32kHandleMouseUp (x y button : Z) : prog H unit :=
  if negb (button =? 1) then mret tt else
  pr ← gets press;
  if negb (caption_press_hwnd pr =? INVALID_HANDLE) then release_press x y else
  end_drag;;
  r ← gets resize;
  (if resizing r then stop_resize else mret tt);;
  notify_at WM_LBUTTONUP x y;;
  update_cursor_for_point x y.

(** One axis of a resize: the position and size from those at the start, the
    pointer's way, which edges move, the least size and the screen's. *)
Definition resize_axis (start size delta least bound : Z) (low high : bool) : Z * Z :=
  let n := if high then size + delta else size in
  let '(p, n) := if low then (start + delta, size - delta) else (start, n) in
  let '(p, n) := if n <? least then (if low then p - (least - n) else p, least) else (p, n) in
  let '(p, n) := if p <? 0 then (0, if low then n + p else n) else (p, n) in
  let '(p, n) := if bound <? p + n then (if high then (p, bound - p) else (bound - n, n)) else (p, n) in
  (Z.max 0 p, Z.max least n).

Definition resized (r : RESIZE) (x y screen_w screen_h : Z) : PLACE :=
  let s := resize_start r in
  let e := resize_edge r in
  let '(px, pw) := resize_axis (wx s) (ww s) (x - resize_start_mouse_x r) 96 screen_w (e_left e) (e_right e) in
  let '(py, ph) := resize_axis (wy s) (wh s) (y - resize_start_mouse_y r) 64 screen_h (e_top e) (e_bottom e) in
  mkPlace px py pw ph.

Definition resize_step (x y : Z) : prog H unit :=
  r ← gets resize;
  p ← ref (resize_window r);
  if p =? 0 then stop_resize else
  '(sw, sh) ← screen_size;
  update p (fun w =>
    let w := with_place w (resized r x y sw sh) in
    if maximized (show w) || minimized (show w) then w else with_restore w (place w));;
  update_cursor_for_point x y;;
  resize_present p;;
  r ← gets resize;
  deref (resize_window r).

(** A coordinate of a dragged window, kept on the screen. *)
Definition drag_axis (pos size bound : Z) : Z :=
  let p := Z.max 0 pos in
  let p := if bound <? p + size then bound - size else p in
  Z.max 0 p.

Definition drag_step (x y : Z) : prog H unit :=
  d ← gets drag;
  if negb (dragging d) || (drag_window d =? INVALID_HANDLE) then mret tt else
  p ← ref (drag_window d);
  if p =? 0 then modify (fun s => put_drag s (mkDrag false (drag_window d) (drag_offset_x d) (drag_offset_y d) (drag_pixels d) (drag_pixels_width d) (drag_pixels_height d))) else
  w ← win_at p;
  '(sw, sh) ← screen_size;
  let new_x := drag_axis (x - drag_offset_x d) (ww (place w)) sw in
  let new_y := drag_axis (y - drag_offset_y d) (wh (place w)) sh in
  (if (new_x =? wx (place w)) && (new_y =? wy (place w)) then mret tt else
   restore_window p;;
   update p (fun v => with_place (with_restore v (mkPlace new_x new_y (ww (restore v)) (wh (restore v)))) (mkPlace new_x new_y (ww (place v)) (wh (place v))));;
   emit MouseEraseCursor;;
   fast_drag_present p (wx (place w)) (wy (place w)));;
  d ← gets drag;
  deref (drag_window d).

Definition Win32kHandleMouseMove (x y : Z) : prog H unit :=
  r ← gets resize;
  if resizing r && negb (resize_window r =? INVALID_HANDLE) then resize_step x y else
  notify_at WM_MOUSEMOVE x y;;
  update_cursor_for_point x y;;
  drag_step x y.

End ops.

End W32k.
