(* ===== verification/W32kSpec.v ===== *)
(** * What the window manager does

    The order of the windows, which window a click reaches, what is painted and
    in which order, where dragged and resized windows end up, and what goes
    wrong.  [seen] describes a state by the window behind every handle in the
    list; the operations are computed on it, the reference counting of [Ob] and
    the arrays hidden. *)

From stdpp Require Import base list numbers gmap strings.
From Stdlib Require Import ZArith Lia.
From S2P Require Import Prelude.
From S2P Require Import Util.
From S2P Require Import Pmm.
From S2P Require Import Vmm.
From S2P Require Import Mm.
From S2P Require Import Sim.
From S2P Require Import Ob.
From S2P Require Import Mouse.
From S2P Require Import W32k.
Import Util Ob Mouse W32k.

Module W32kSpec.

Section spec.
Context {H : Type} `{KernelHeap H} (a : arch).
Implicit Types st : ob H w32k.

(** ** Running programs *)
Lemma run_bind {A B} (f : prog H A) (k : A -> prog H B) st x st1 : f st = Some (x, st1) -> (f ≫= k) st = k x st1.
Proof. intros E. unfold mbind, prog_bind. by rewrite E. Qed.

Lemma set_memory_id st : set_memory st (memory st) = st.
Proof. by destruct st. Qed.
Lemma set_memory_twice st m m' : set_memory (set_memory st m) m' = set_memory st m'.
Proof. done. Qed.

(** The window behind a handle: the object is alive with a count that another
    reference does not overflow, and so is its block. *)
Record holds st (h p : Z) (w : WINDOW) : Prop := {
  ho_handle : 0 <= h < MAX_OBJECTS;
  ho_ptr : ptr_at st h <> 0;
  ho_body : exists o, pool st !! ptr_at st h = Some o /\ body o = p /\ 0 < ref_count o < 4294967295;
  ho_nonnull : p <> 0;
  ho_live : allocated p st = true;
  ho_win : windows (memory st) !! p = Some w
}.

(** [f] changes the window manager's state alone, whatever the counts are. *)
Definition acts {A} (f : prog H A) st (x : A) (m : w32k) : Prop := forall P, f (set_pool st P) = Some (x, set_memory (set_pool st P) m).

Lemma acts_ret {A} (x : A) st : acts (mret x) st x (memory st).
Proof. by intros P; destruct st. Qed.

Lemma acts_gets {A} (f : w32k -> A) st : acts (gets f) st (f (memory st)) (memory st).
Proof. by intros P; destruct st. Qed.

Lemma acts_bind {A B} (f : prog H A) (k : A -> prog H B) st x m y m' :
  acts f st x m -> acts (k x) (set_memory st m) y m' -> acts (f ≫= k) st y m'.
Proof. intros Hf Hk P. rewrite (run_bind _ _ _ _ _ (Hf P)). apply (Hk P). Qed.

Lemma acts_modify f st : acts (modify f) st tt (f (memory st)).
Proof. by intros P. Qed.

Lemma acts_win st p w : allocated p st = true -> windows (memory st) !! p = Some w -> acts (win_at p) st w (memory st).
Proof. intros Hl Hw P. unfold win_at. unfold allocated in *. cbn. rewrite Hl, Hw. by destruct st. Qed.

Lemma acts_update st p w f : allocated p st = true -> windows (memory st) !! p = Some w ->
  acts (update p f) st tt (put_windows (memory st) (<[p := f w]> (windows (memory st)))).
Proof. intros Hl Hw. eapply acts_bind; [by apply acts_win|]. rewrite set_memory_id. apply acts_modify. Qed.

(** Taking a reference, acting on the state and giving the reference back. *)
Lemma ref_runs st h p w : holds st h p w ->
  exists o, pool st !! ptr_at st h = Some o /\ 0 < ref_count o < 4294967295 /\
    ref h st = Some (p, set_pool st (<[ptr_at st h := mkObject (name o) (otype o) (ref_count o + 1) (body o) (body_size o)]> (pool st))).
Proof.
  intros [Hh Hp (o & Ho & <- & Hr) Hn Hl Hw]. exists o. split; [done|]. split; [done|].
  unfold ref, ObReferenceObject. destruct (Z.leb_spec MAX_OBJECTS h); [lia|]. rewrite (proj2 (Z.eqb_neq _ _) Hp). cbn [orb].
  rewrite Ho. unfold u32. by rewrite Z.mod_small by lia.
Qed.

Lemma deref_runs st h q o m : 0 <= h < MAX_OBJECTS -> ptr_at st h = q -> q <> 0 -> pool st !! q = Some o -> 0 < ref_count o < 4294967295 ->
  deref h (set_memory (set_pool st (<[q := mkObject (name o) (otype o) (ref_count o + 1) (body o) (body_size o)]> (pool st))) m)
  = Some (tt, set_memory st m).
Proof.
  intros Hh Hq Hn Ho Hr. unfold deref, ObDereferenceObject. change (ptr_at (set_memory (set_pool st ?P) m) h) with (ptr_at st h).
  destruct (Z.leb_spec MAX_OBJECTS h); [lia|]. rewrite Hq, (proj2 (Z.eqb_neq _ _) Hn). cbn [orb pool set_memory set_pool].
  rewrite lookup_insert_eq. cbn [ref_count name otype body body_size].
  replace (u32 (ref_count o + 1 - 1)) with (ref_count o) by (unfold u32; rewrite Z.mod_small; lia).
  rewrite (proj2 (Z.eqb_neq (ref_count o) 0)) by lia. cbn [negb mbind option_bind]. do 2 f_equal.
  destruct st as [obs cnt ty tc pl hp me]. unfold set_pool, set_memory. cbn in *. f_equal.
  rewrite insert_insert_eq. apply insert_id. rewrite Ho. by destruct o.
Qed.

Lemma with_window_runs {A} st h p w (none x : A) (f : Z -> WINDOW -> prog H A) m :
  holds st h p w -> acts (f p w) st x m -> with_window h none f st = Some (x, set_memory st m).
Proof.
  intros Hh Hact. destruct (ref_runs st h p w Hh) as (o & Ho & Hr & E). unfold with_window. rewrite (run_bind _ _ _ _ _ E).
  rewrite (proj2 (Z.eqb_neq _ _) (ho_nonnull _ _ _ _ Hh)).
  rewrite (run_bind _ _ _ _ _ (acts_win st p w (ho_live _ _ _ _ Hh) (ho_win _ _ _ _ Hh) _)).
  change (set_memory (set_pool st ?P) (memory st)) with (set_pool st P). rewrite (run_bind _ _ _ _ _ (Hact _)).
  rewrite (run_bind _ _ _ _ _ (deref_runs st h _ o m (ho_handle _ _ _ _ Hh) eq_refl (ho_ptr _ _ _ _ Hh) Ho Hr)). done.
Qed.

Lemma with_slot_runs {A} st i h p w (none x : A) (f : Z -> Z -> WINDOW -> prog H A) m :
  h = get 0 (window_list (memory st)) i -> window_list m = window_list (memory st) ->
  holds st h p w -> acts (f h p w) st x m -> with_slot i none f st = Some (x, set_memory st m).
Proof.
  intros Eh Em Hh Hact. destruct (ref_runs st h p w Hh) as (o & Ho & Hr & E). unfold with_slot, list_at.
  rewrite (run_bind (gets _) _ st h st) by (by rewrite Eh). rewrite (run_bind _ _ _ _ _ E), (proj2 (Z.eqb_neq _ _) (ho_nonnull _ _ _ _ Hh)).
  rewrite (run_bind _ _ _ _ _ (acts_win st p w (ho_live _ _ _ _ Hh) (ho_win _ _ _ _ Hh) _)).
  change (set_memory (set_pool st ?P) (memory st)) with (set_pool st P). rewrite (run_bind _ _ _ _ _ (Hact _)).
  match goal with |- (gets _ ≫= _) ?s = _ => rewrite (run_bind (gets _) _ s h s) by (unfold gets; do 2 f_equal; cbn; by rewrite Em) end.
  by rewrite (run_bind _ _ _ _ _ (deref_runs st h _ o m (ho_handle _ _ _ _ Hh) eq_refl (ho_ptr _ _ _ _ Hh) Ho Hr)).
Qed.

(** ** The abstract state *)
Definition order (s : w32k) : list Z := take (Z.to_nat (window_count s)) (window_list s).

Definition no_window : WINDOW := mkWindow [] (mkPlace 0 0 0 0) (mkPlace 0 0 0 0) 0 0 (mkShow false false false false) false 0 0 0 0 0.

(** The block and the window behind a handle. *)
Definition block st (h : Z) : Z := match pool st !! ptr_at st h with Some o => body o | None => 0 end.
Definition look st (h : Z) : WINDOW := default no_window (windows (memory st) !! block st h).

Definition class_ok st (w : WINDOW) : Prop := wndClass w <> 0 -> allocated (wndClass w) st = true /\ is_Some (classes (memory st) !! wndClass w).

Record seen st : Prop := {
  se_length : length (window_list (memory st)) = 32%nat;
  se_count : 0 <= window_count (memory st) <= MAX_WINDOWS;
  se_nodup : NoDup (order (memory st));
  se_holds : forall h, h ∈ order (memory st) -> holds st h (block st h) (look st h);
  se_class : forall h, h ∈ order (memory st) -> class_ok st (look st h);
  se_apart : forall h h', h ∈ order (memory st) -> h' ∈ order (memory st) -> block st h = block st h' -> h = h'
}.

Lemma order_length st : seen st -> length (order (memory st)) = Z.to_nat (window_count (memory st)).
Proof. intros [Hl Hc _ _ _ _]. unfold order, MAX_WINDOWS in *. rewrite length_take. lia. Qed.

Lemma slot_order st i : seen st -> 0 <= i < window_count (memory st) ->
  order (memory st) !! Z.to_nat i = Some (get 0 (window_list (memory st)) i).
Proof.
  intros [Hl Hc _ _ _ _] Hi. unfold MAX_WINDOWS in *. unfold order. rewrite lookup_take_lt by lia. unfold get.
  destruct (lookup_lt_is_Some_2 (window_list (memory st)) (Z.to_nat i)) as [h ->]; [lia|]. done.
Qed.

Lemma slot_in st i : seen st -> 0 <= i < window_count (memory st) -> get 0 (window_list (memory st)) i ∈ order (memory st).
Proof. intros Hs Hi. eapply list_elem_of_lookup_2. by apply slot_order. Qed.

Lemma run_gets {A B} (f : w32k -> A) (k : A -> prog H B) st : (gets f ≫= k) st = k (f (memory st)) st.
Proof. done. Qed.

(** A reading of the window behind a handle of the list. *)
Lemma read_window {A} st h (none x : A) (f : Z -> WINDOW -> prog H A) :
  seen st -> h ∈ order (memory st) -> acts (f (block st h) (look st h)) st x (memory st) -> with_window h none f st = Some (x, st).
Proof.
  intros Hs Hh Ha. rewrite <- (set_memory_id st) at 2. eapply with_window_runs; [by apply (se_holds st Hs) | done].
Qed.

(** [seen] of a given state by evaluation. *)
Definition heldb st (h : Z) : bool :=
  (0 <=? h) && (h <? MAX_OBJECTS) && negb (ptr_at st h =? 0) &&
  match pool st !! ptr_at st h with
  | Some o => (0 <? ref_count o) && (ref_count o <? 4294967295) && negb (body o =? 0) && allocated (body o) st && bool_decide (is_Some (windows (memory st) !! body o))
  | None => false
  end.
Definition classb st (w : WINDOW) : bool := (wndClass w =? 0) || (allocated (wndClass w) st && bool_decide (is_Some (classes (memory st) !! wndClass w))).
Definition seenb st : bool :=
  bool_decide (length (window_list (memory st)) = 32%nat) && (0 <=? window_count (memory st)) && (window_count (memory st) <=? MAX_WINDOWS) &&
  bool_decide (NoDup (map (block st) (order (memory st)))) &&
  forallb (fun h => heldb st h && classb st (look st h)) (order (memory st)).

Lemma heldb_holds st h : heldb st h = true -> holds st h (block st h) (look st h).
Proof.
  unfold heldb, look, block. rewrite !andb_true_iff, negb_true_iff, Z.eqb_neq. intros (((H1 & H2) & H3) & H4).
  destruct (pool st !! ptr_at st h) as [o|] eqn:Ho; [|done]. rewrite !andb_true_iff, negb_true_iff, Z.eqb_neq, bool_decide_eq_true in H4.
  destruct H4 as ((((R1 & R2) & B) & L) & [w Hw]). split; try done; [lia | exists o; repeat split; lia || done | by rewrite Hw].
Qed.

Lemma NoDup_map_inj {A B} (f : A -> B) (l : list A) : NoDup (map f l) -> NoDup l /\ forall x y, x ∈ l -> y ∈ l -> f x = f y -> x = y.
Proof.
  induction l as [|x l IH]; cbn; [split; [constructor | set_solver]|]. rewrite !NoDup_cons. intros [Hx [Hl Hi]%IH]. split; [split; [|done]|].
  - intros Hin. apply Hx. by apply list_elem_of_fmap_2.
  - intros y z [->|Hy]%elem_of_cons [->|Hz]%elem_of_cons E; try done; [|  | by apply Hi]; exfalso; apply Hx; [rewrite E | rewrite <- E]; by apply list_elem_of_fmap_2.
Qed.

Lemma seenb_seen st : seenb st = true -> seen st.
Proof.
  unfold seenb. rewrite !andb_true_iff, !bool_decide_eq_true. intros ((((Hl & C0) & C1) & Hd) & Hf). rewrite forallb_forall in Hf.
  destruct (NoDup_map_inj _ _ Hd) as [HN Hi]. split; [done | lia | done | | | exact Hi]; intros h Hh; apply list_elem_of_In, Hf in Hh; apply andb_true_iff in Hh as [Hh Hc].
  - by apply heldb_holds.
  - intros Hn. unfold classb in Hc. rewrite (proj2 (Z.eqb_neq _ _) Hn) in Hc. cbn [orb] in Hc. apply andb_true_iff in Hc. by rewrite bool_decide_eq_true in Hc.
Qed.

(** ** Classes *)
Definition class_name st (w : WINDOW) : list Z := match classes (memory st) !! wndClass w with Some c => buf_str (className c) | None => [] end.

Definition topmost st (w : WINDOW) : bool :=
  negb (wndClass w =? 0) && (has (exstyle w) WS_EX_TOPMOST || (strcmp (class_name st w) (cstr "Shell_TrayWnd") =? 0)
                             || (strcmp (class_name st w) (cstr "MenuPopup") =? 0)).
Definition popup st (w : WINDOW) : bool := negb (wndClass w =? 0) && (strcmp (class_name st w) (cstr "MenuPopup") =? 0).

Lemma acts_is_class st w nm : class_ok st w -> wndClass w <> 0 -> acts (is_class w nm) st (strcmp (class_name st w) nm =? 0) (memory st).
Proof.
  intros Hc Hn. destruct (Hc Hn) as [Hl [c Ec]]. unfold is_class, class_name. rewrite Ec. eapply acts_bind; [|rewrite set_memory_id; apply acts_ret].
  intros P. unfold class_at, allocated in *. cbn. rewrite Hl, Ec. by destruct st.
Qed.

Lemma acts_topmost st w : class_ok st w -> acts (window_is_topmost w) st (topmost st w) (memory st).
Proof.
  intros Hc. unfold window_is_topmost, topmost. destruct (Z.eqb_spec (wndClass w) 0) as [|Hn]; [apply acts_ret|]. cbn [negb andb].
  destruct (has _ _); [apply acts_ret|]. cbn [orb]. eapply acts_bind; [by apply acts_is_class|]. rewrite set_memory_id.
  destruct (_ =? 0); [apply acts_ret | by apply acts_is_class].
Qed.

Lemma acts_popup st w : class_ok st w -> acts (is_menu_popup_window w) st (popup st w) (memory st).
Proof.
  intros Hc. unfold is_menu_popup_window, popup. destruct (Z.eqb_spec (wndClass w) 0) as [|Hn]; [apply acts_ret|]. by apply acts_is_class.
Qed.

(** ** Moving in the list *)
Lemma shift_down_moves n (X Y Z' : list Z) c h : (length Y <= n)%nat ->
  put (shift_down n (Z.of_nat (length X)) (Z.of_nat (length X + length Y)) (X ++ c :: Y ++ Z')) (Z.of_nat (length X + length Y)) h = X ++ Y ++ h :: Z'.
Proof.
  revert n X c. induction Y as [|y Y IH]; intros n X c Hn.
  - rewrite Nat.add_0_r. assert (E : shift_down n (Z.of_nat (length X)) (Z.of_nat (length X)) (X ++ c :: Z') = X ++ c :: Z') by
      (destruct n; [done|]; cbn [shift_down]; by rewrite Z.ltb_irrefl).
    cbn [app]. rewrite E. unfold put. rewrite Nat2Z.id, insert_app_r_alt by lia. by rewrite Nat.sub_diag.
  - destruct n as [|n]; [cbn in Hn; lia|]. cbn [shift_down]. rewrite (proj2 (Z.ltb_lt _ _)) by (cbn [length]; lia).
    assert (Eg : get 0 (X ++ c :: (y :: Y) ++ Z') (Z.of_nat (length X) + 1) = y).
    { unfold get. rewrite lookup_app_r by lia. replace (Z.to_nat (Z.of_nat (length X) + 1) - length X)%nat with 1%nat by lia. done. }
    rewrite Eg. replace (put (X ++ c :: (y :: Y) ++ Z') (Z.of_nat (length X)) y) with ((X ++ [y]) ++ y :: Y ++ Z').
    2:{ unfold put. rewrite Nat2Z.id, insert_app_r_alt, Nat.sub_diag, <- app_assoc by lia. done. }
    replace (Z.of_nat (length X) + 1) with (Z.of_nat (length (X ++ [y]))) by (rewrite length_app; cbn; lia).
    replace (length X + length (y :: Y))%nat with (length (X ++ [y]) + length Y)%nat by (rewrite length_app; cbn; lia).
    rewrite IH by (cbn in Hn; lia). by rewrite <- app_assoc.
Qed.

Lemma shift_up_moves n (X Y Z' : list Z) c h : (length Y <= n)%nat ->
  put (shift_up n (Z.of_nat (length X + length Y)) (Z.of_nat (length X)) (X ++ Y ++ c :: Z')) (Z.of_nat (length X)) h = X ++ h :: Y ++ Z'.
Proof.
  revert n c Z'. induction Y as [|y Y IH] using rev_ind; intros n c Z' Hn.
  - rewrite Nat.add_0_r. assert (E : shift_up n (Z.of_nat (length X)) (Z.of_nat (length X)) (X ++ c :: Z') = X ++ c :: Z') by
      (destruct n; [done|]; cbn [shift_up]; by rewrite Z.ltb_irrefl).
    cbn [app]. rewrite E. unfold put. rewrite Nat2Z.id, insert_app_r_alt by lia. by rewrite Nat.sub_diag.
  - rewrite length_app in Hn. cbn in Hn. destruct n as [|n]; [lia|]. cbn [shift_up]. rewrite length_app. cbn [length].
    rewrite (proj2 (Z.ltb_lt _ _)) by lia.
    assert (Eg : get 0 (X ++ (Y ++ [y]) ++ c :: Z') (Z.of_nat (length X + (length Y + 1)) - 1) = y).
    { unfold get. rewrite lookup_app_r by lia. rewrite lookup_app_l by (rewrite length_app; cbn; lia).
      replace (Z.to_nat (Z.of_nat (length X + (length Y + 1)) - 1) - length X)%nat with (length Y) by lia. by rewrite lookup_app_r, Nat.sub_diag by lia. }
    rewrite Eg. replace (put (X ++ (Y ++ [y]) ++ c :: Z') (Z.of_nat (length X + (length Y + 1))) y) with (X ++ Y ++ y :: y :: Z').
    2:{ unfold put. rewrite Nat2Z.id, insert_app_r_alt by lia. rewrite insert_app_r_alt by (rewrite length_app; cbn; lia).
        rewrite length_app. cbn [length]. replace (length X + (length Y + 1) - length X - (length Y + 1))%nat with 0%nat by lia.
        cbn. by rewrite <- app_assoc. }
    replace (Z.of_nat (length X + (length Y + 1)) - 1) with (Z.of_nat (length X + length Y)) by lia.
    rewrite IH by lia. by rewrite <- app_assoc.
Qed.

(** ** Raising *)
Definition is_top st (h : Z) : bool := topmost st (look st h).

Lemma first_topmost_kept n i found st :
  seen st -> 0 <= i -> window_count (memory st) - i <= Z.of_nat n -> found <> window_count (memory st) -> first_topmost_from n i found st = Some (found, st).
Proof.
  intros Hs. revert i. induction n as [|n IH]; intros i Hi Hn Hf; cbn [first_topmost_from]; rewrite run_gets.
  - by rewrite (proj2 (Z.leb_le _ _)) by lia.
  - destruct (Z.leb_spec (window_count (memory st)) i); [done|]. unfold list_at. rewrite run_gets. set (h := get 0 _ i).
    assert (Hin : h ∈ order (memory st)) by (by apply slot_in).
    rewrite (run_bind _ _ _ _ _ (read_window st h false _ _ Hs Hin (acts_topmost st _ (se_class st Hs h Hin)))).
    rewrite (proj2 (Z.eqb_neq _ _) Hf), andb_false_r. apply IH; lia || done.
Qed.

(** With the ordinary windows behind the topmost ones, the scan finds where these
    begin. *)
Lemma first_topmost_bands n i st (A B : list Z) :
  seen st -> order (memory st) = A ++ B -> 0 <= i <= Z.of_nat (length A) -> window_count (memory st) - i <= Z.of_nat n ->
  Forall (fun h => is_top st h = false) A -> Forall (fun h => is_top st h = true) B ->
  first_topmost_from n i (window_count (memory st)) st = Some (Z.of_nat (length A), st).
Proof.
  intros Hs Ho Hi Hn HA HB. pose proof (order_length st Hs) as Hlen. rewrite Ho, length_app in Hlen. pose proof (se_count st Hs) as Hc.
  revert i Hi Hn. induction n as [|n IH]; intros i Hi Hn; cbn [first_topmost_from]; rewrite run_gets.
  { rewrite (proj2 (Z.leb_le _ _)) by lia. unfold mret, prog_ret. do 2 f_equal. lia. }
  destruct (Z.leb_spec (window_count (memory st)) i); [unfold mret, prog_ret; do 2 f_equal; lia|].
  unfold list_at. rewrite run_gets. set (h := get 0 _ i). assert (Hin : h ∈ order (memory st)) by (by apply slot_in; [|lia]).
  rewrite (run_bind _ _ _ _ _ (read_window st h false _ _ Hs Hin (acts_topmost st _ (se_class st Hs h Hin)))). fold (is_top st h).
  pose proof (slot_order st i Hs ltac:(lia)) as E. rewrite Ho in E. fold h in E. rewrite Z.eqb_refl, andb_true_r.
  destruct (decide (i = Z.of_nat (length A))) as [->|Hne].
  - rewrite lookup_app_r in E by lia. rewrite (Forall_lookup_1 _ _ _ _ HB E). apply first_topmost_kept; lia || done.
  - rewrite lookup_app_l in E by lia. rewrite (Forall_lookup_1 _ _ _ _ HA E). apply IH; lia.
Qed.

Lemma raise_owned_nothing fuel i hwnd st :
  seen st -> 0 <= i -> window_count (memory st) - i <= Z.of_nat fuel ->
  (forall h, h ∈ order (memory st) -> owner (look st h) <> hwnd) -> raise_owned fuel hwnd i st = Some (tt, st).
Proof.
  intros Hs. revert i. induction fuel as [|fuel IH]; intros i Hi Hn Hown; cbn [raise_owned]; rewrite run_gets.
  - by rewrite (proj2 (Z.leb_le _ _)) by lia.
  - destruct (Z.leb_spec (window_count (memory st)) i); [done|]. unfold list_at. rewrite run_gets. set (h := get 0 _ i).
    assert (Hin : h ∈ order (memory st)) by (by apply slot_in).
    rewrite (run_bind _ _ _ _ _ (read_window st h false (owner (look st h) =? hwnd) _ Hs Hin (acts_ret _ st))).
    rewrite (proj2 (Z.eqb_neq _ _) (Hown h Hin)). cbn [negb]. apply IH; lia || done.
Qed.

Lemma first_index_at (l : list Z) n (X Y : list Z) h :
  take (Z.to_nat n) l = X ++ h :: Y -> 0 <= n <= Z.of_nat (length l) -> h ∉ X -> first_index l n h = Z.of_nat (length X).
Proof.
  intros E Hn Hx. unfold first_index. assert (Hl : (length X < Z.to_nat n)%nat).
  { apply (f_equal length) in E. rewrite length_take, length_app in E. cbn in E. lia. }
  assert (Hat : forall i, (i < Z.to_nat n)%nat -> get 0 l (Z.of_nat i) = nth i (X ++ h :: Y) 0).
  { intros i Hi. rewrite <- E. unfold get. rewrite Nat2Z.id, nth_lookup, lookup_take_lt by done. done. }
  assert (Hgen : forall k i, (i <= length X)%nat -> (length X < i + k)%nat -> (i + k <= Z.to_nat n)%nat ->
    first_from k (Z.of_nat i) (fun i => get 0 l i =? h) = Some (Z.of_nat (length X))).
  { induction k as [|k IH]; intros i Hi Hk Hkn; [lia|]. cbn [first_from]. rewrite (Hat i) by lia.
    destruct (decide (i = length X)) as [->|Hne].
    - rewrite app_nth2, Nat.sub_diag by lia. cbn. by rewrite Z.eqb_refl.
    - rewrite app_nth1 by lia. rewrite (proj2 (Z.eqb_neq _ _)).
      + replace (Z.of_nat i + 1) with (Z.of_nat (S i)) by lia. apply IH; lia.
      + intros Eq. apply Hx. rewrite <- Eq. apply list_elem_of_In, nth_In. lia. }
  pose proof (Hgen (Z.to_nat n) 0%nat ltac:(lia) ltac:(lia) ltac:(lia)) as G. change (Z.of_nat 0) with 0 in G. by rewrite G.
Qed.

(** A change of the order alone keeps the state well formed. *)
Lemma seen_reorder st l' :
  seen st -> length l' = 32%nat -> take (Z.to_nat (window_count (memory st))) l' ≡ₚ order (memory st) ->
  seen (set_memory st (put_list (memory st) l' (window_count (memory st)))).
Proof.
  intros [Hl Hc Hd Hh Hcl Hap] Hl' Hp. assert (Hin : forall h, h ∈ take (Z.to_nat (window_count (memory st))) l' -> h ∈ order (memory st)) by (intros h; by rewrite Hp).
  split; cbn; [done | done | | | |].
  - unfold order at 1. cbn. by rewrite Hp.
  - intros h Hi. destruct (Hh h (Hin h Hi)). by split.
  - intros h Hi. apply (Hcl h (Hin h Hi)).
  - intros h h' Hi Hi'. apply Hap; by apply Hin.
Qed.

(** The state with another order, and the windows behind its handles. *)
Definition reordered st (l : list Z) : ob H w32k := set_memory st (put_list (memory st) (l ++ drop (length l) (window_list (memory st))) (window_count (memory st))).

Lemma order_reordered st l : seen st -> l ≡ₚ order (memory st) -> order (memory (reordered st l)) = l.
Proof.
  intros Hs Hp. apply Permutation_length in Hp. rewrite (order_length st Hs) in Hp. unfold order. cbn. by rewrite <- Hp, take_app_length.
Qed.

Lemma seen_reordered st l : seen st -> l ≡ₚ order (memory st) -> seen (reordered st l).
Proof.
  intros Hs Hp. pose proof (Permutation_length Hp) as Hl. rewrite (order_length st Hs) in Hl.
  pose proof (se_length st Hs). pose proof (se_count st Hs). unfold MAX_WINDOWS in *.
  apply seen_reorder; [done | rewrite length_app, length_drop; lia | rewrite <- Hl, take_app_length; done].
Qed.

Lemma window_list_split st : seen st -> window_list (memory st) = order (memory st) ++ drop (length (order (memory st))) (window_list (memory st)).
Proof. intros Hs. rewrite (order_length st Hs). unfold order. by rewrite take_drop. Qed.

Lemma raise_moves fuel st hwnd (A B X Y R : list Z) :
  seen st -> order (memory st) = A ++ B -> Forall (fun h => is_top st h = false) A -> Forall (fun h => is_top st h = true) B ->
  order (memory st) = X ++ hwnd :: Y ++ R -> (if is_top st hwnd then R = [] else R = B) ->
  desktop (look st hwnd) = false -> owner (look st hwnd) = INVALID_HANDLE ->
  (forall h, h ∈ order (memory st) -> owner (look st h) <> hwnd) -> (32 <= fuel)%nat ->
  raise_window fuel hwnd st = Some (tt, reordered st (X ++ Y ++ hwnd :: R)).
Proof.
  intros Hs Ho HA HB Hx HR Hdesk Hown Howned Hfuel. pose proof (order_length st Hs) as Hlen. pose proof (se_count st Hs) as Hc.
  pose proof (se_length st Hs) as Hll. pose proof (se_nodup st Hs) as Hnd. unfold MAX_WINDOWS in Hc.
  assert (Hin : hwnd ∈ order (memory st)) by (rewrite Hx; set_solver).
  assert (Hp : X ++ Y ++ hwnd :: R ≡ₚ order (memory st)) by (rewrite Hx; rewrite Permutation_middle; done).
  assert (Hacts : acts (if desktop (look st hwnd) then mret None else t ← window_is_topmost (look st hwnd); mret (Some t)) st (Some (is_top st hwnd)) (memory st)).
  { rewrite Hdesk. eapply acts_bind; [by apply acts_topmost, (se_class st Hs)|]. rewrite set_memory_id. apply acts_ret. }
  unfold raise_window. rewrite (run_bind _ _ _ _ _ (read_window st hwnd None _ _ Hs Hin Hacts)). rewrite run_gets.
  rewrite (run_bind _ _ _ _ _ (first_topmost_bands 32 0 st A B Hs Ho ltac:(lia) ltac:(lia) HA HB)). rewrite !run_gets.
  assert (Hfi : first_index (window_list (memory st)) (window_count (memory st)) hwnd = Z.of_nat (length X)).
  { apply (first_index_at _ _ X (Y ++ R)); [exact Hx | lia|]. rewrite Hx in Hnd. apply NoDup_app in Hnd as (_ & Hd & _). intros Hi. apply (Hd hwnd Hi). set_solver. }
  rewrite Hfi. rewrite (proj2 (Z.ltb_ge _ 0)) by lia.
  assert (HlenX : (length (order (memory st)) = length X + S (length Y + length R))%nat) by (rewrite Hx, length_app; cbn; rewrite length_app; done).
  assert (HlenA : (length (order (memory st)) = length A + length B)%nat) by (rewrite Ho, length_app; done).
  assert (Htarget : Z.max 0 (if is_top st hwnd then window_count (memory st) - 1
      else Z.of_nat (length A) - (if Z.of_nat (length X) <? Z.of_nat (length A) then 1 else 0)) = Z.of_nat (length X + length Y)).
  { destruct (is_top st hwnd); subst R; cbn [length] in *; [lia|]. rewrite (proj2 (Z.ltb_lt _ _)) by lia. lia. }
  rewrite Htarget. clear Htarget.
  assert (Hraise : forall l', l' ≡ₚ order (memory st) -> raise_owned_windows fuel hwnd (reordered st l') = Some (tt, reordered st l')).
  { intros l' Hl'. apply raise_owned_nothing; [by apply seen_reordered | lia | cbn; lia|]. intros h Hh. rewrite order_reordered, Hl' in Hh by done. by apply Howned. }
  destruct (Z.eqb_spec (Z.of_nat (length X)) (Z.of_nat (length X + length Y))) as [Eq|Hne].
  { assert (Y = []) as -> by (destruct Y; [done|cbn in Eq; lia]). cbn [app] in *. unfold mbind, prog_bind at 1. cbn [mret prog_ret].
    specialize (Hraise (order (memory st)) (reflexivity _)). rewrite <- Hx.
    assert (reordered st (order (memory st)) = st) as Est.
    { unfold reordered. rewrite <- window_list_split by done. destruct st as [? ? ? ? ? ? []]. done. }
    rewrite Est in Hraise. by rewrite Est, <- Hraise. }
  rewrite (proj2 (Z.ltb_lt _ _)) by lia.
  assert (Emod : modify_list (fun l => put (shift_down 32 (Z.of_nat (length X)) (Z.of_nat (length X + length Y)) l) (Z.of_nat (length X + length Y)) hwnd) st
    = Some (tt, reordered st (X ++ Y ++ hwnd :: R))).
  { unfold modify_list, modify, reordered. do 2 f_equal. f_equal. f_equal. rewrite (Permutation_length Hp).
    pose proof (window_list_split st Hs) as Ew. set (D := drop _ _) in *. clearbody D. rewrite Hx in Ew.
    rewrite Ew, <- app_assoc. cbn [app]. rewrite <- app_assoc, shift_down_moves by lia. by rewrite <- !app_assoc. }
  assert (Eabove : above_owner hwnd (Z.of_nat (length X + length Y)) (reordered st (X ++ Y ++ hwnd :: R)) = Some (tt, reordered st (X ++ Y ++ hwnd :: R))).
  { apply read_window; [by apply seen_reordered | by rewrite order_reordered, Hp |].
    change (look (reordered st _) hwnd) with (look st hwnd). rewrite Hown, Z.eqb_refl. apply acts_ret. }
  assert (Eboth : (modify_list (fun l => put (shift_down 32 (Z.of_nat (length X)) (Z.of_nat (length X + length Y)) l) (Z.of_nat (length X + length Y)) hwnd);;
    above_owner hwnd (Z.of_nat (length X + length Y))) st = Some (tt, reordered st (X ++ Y ++ hwnd :: R))) by (by rewrite (run_bind _ _ _ _ _ Emod)).
  rewrite (run_bind _ _ _ _ _ Eboth). by apply Hraise.
Qed.

(** A list without one of its elements. *)
Lemma filter_absent (L : list Z) x : x ∉ L -> filter (fun h => h <> x) L = L.
Proof.
  induction L as [|y L IH]; intros Hx; [done|]. rewrite filter_cons_True by set_solver. rewrite IH by set_solver. done.
Qed.

Lemma filter_split (L : list Z) x : NoDup L -> x ∈ L -> exists X Y, L = X ++ x :: Y /\ filter (fun h => h <> x) L = X ++ Y.
Proof.
  intros HN Hi. apply list_elem_of_split in Hi as (X & Y & ->). exists X, Y. split; [done|]. apply NoDup_app in HN as (_ & HX & HY).
  apply NoDup_cons in HY as [HY _]. rewrite filter_app, filter_cons_False by tauto.
  rewrite !filter_absent; [done | done | intros Hi; apply (HX x Hi); set_solver].
Qed.

(** Raising a window without owner or owned windows brings it to the front of
    its band: in front of all ordinary windows, or in front of everything when
    it is topmost.  The other windows keep their order, the topmost ones stay in
    front of the ordinary ones, and nothing but the order changes. *)
Lemma raise_window_fronts (fuel : nat) st (hwnd : Z) (A B : list Z) :
  seen st -> order (memory st) = A ++ B -> Forall (fun h => is_top st h = false) A -> Forall (fun h => is_top st h = true) B ->
  hwnd ∈ order (memory st) -> desktop (look st hwnd) = false -> owner (look st hwnd) = INVALID_HANDLE ->
  (forall h, h ∈ order (memory st) -> owner (look st h) <> hwnd) -> (32 <= fuel)%nat ->
  exists l, raise_window fuel hwnd st = Some (tt, reordered st l) /\ l ≡ₚ order (memory st) /\
    l = filter (fun h => h <> hwnd) A ++ (if is_top st hwnd then [] else [hwnd]) ++ filter (fun h => h <> hwnd) B ++ (if is_top st hwnd then [hwnd] else []).
Proof.
  intros Hs Ho HA HB Hin Hdesk Hown Howned Hfuel. pose proof (se_nodup st Hs) as Hnd. rewrite Ho in Hnd, Hin. apply NoDup_app in Hnd as (NA & Hd & NB).
  destruct (is_top st hwnd) eqn:Et.
  - assert (HiB : hwnd ∈ B). { apply elem_of_app in Hin as [Hi|]; [|done]. rewrite Forall_forall in HA. rewrite (HA hwnd Hi) in Et. done. }
    destruct (filter_split B hwnd NB HiB) as (X & Y & -> & Ef). rewrite Ef, (filter_absent A) by (intros Hi; by apply (Hd hwnd Hi)).
    exists ((A ++ X) ++ Y ++ [hwnd]). split; [|split; [rewrite Ho, <- app_assoc, (Permutation_app_comm Y [hwnd]); done | by rewrite <- !app_assoc]].
    apply (raise_moves fuel st hwnd A (X ++ hwnd :: Y)); try done; [by rewrite Ho, app_nil_r, <- app_assoc | by rewrite Et].
  - assert (HiA : hwnd ∈ A). { apply elem_of_app in Hin as [|Hi]; [done|]. rewrite Forall_forall in HB. rewrite (HB hwnd Hi) in Et. done. }
    destruct (filter_split A hwnd NA HiA) as (X & Y & -> & Ef). rewrite Ef, (filter_absent B) by (intros Hi; apply (Hd hwnd HiA Hi)).
    exists (X ++ Y ++ hwnd :: B). split; [|split; [rewrite Ho, <- app_assoc; apply Permutation_app_head; symmetry; apply Permutation_middle | by rewrite app_nil_r, <- !app_assoc]].
    apply (raise_moves fuel st hwnd (X ++ hwnd :: Y) B); try done; [by rewrite Ho, <- app_assoc | by rewrite Et].
Qed.

(** ** The window under a point *)
Definition hit st (x y : Z) (h : Z) : Prop := visible (show (look st h)) = true /\ is_in_window (look st h) x y = true.
#[export] Instance hit_dec st x y h : Decision (hit st x y h).
Proof. unfold hit. apply _. Defined.

Lemma holds_pool st P h : holds st h (block st h) (look st h) -> P !! ptr_at st h = pool st !! ptr_at st h -> holds (set_pool st P) h (block st h) (look st h).
Proof. intros [A1 A2 A3 A4 A5 A6] E. split; try done. destruct A3 as (o & Ho & R). exists o. cbn. by rewrite <- E in Ho. Qed.

Lemma ptr_inj st h h' : seen st -> h ∈ order (memory st) -> h' ∈ order (memory st) -> ptr_at st h = ptr_at st h' -> h = h'.
Proof. intros Hs Hh Hh' E. apply (se_apart st Hs); [done..|]. unfold block. by rewrite E. Qed.

(** One turn of [find_window_at]: a visible window leaves no trace, a reference to
    another stays behind. *)
Definition probe (x y h : Z) : prog H (option Z) :=
  p ← ref h;
  if p =? 0 then mret None else
  w ← win_at p;
  if visible (show w) then deref h;; mret (if is_in_window w x y then Some h else None) else mret None.

Lemma probe_runs st x y h p w : holds st h p w ->
  if visible (show w) then probe x y h st = Some (if is_in_window w x y then Some h else None, st)
  else exists o, probe x y h st = Some (None, set_pool st (<[ptr_at st h := o]> (pool st))).
Proof.
  intros Hh. destruct (ref_runs _ _ _ _ Hh) as (o & Ho & Hr & E). unfold probe.
  set (P := <[_ := _]> (pool st)) in E.
  assert (E2 : forall A (k : Z -> prog H A), (ref h ≫= k) st = k p (set_pool st P)) by (intros A k; by rewrite (run_bind _ _ _ _ _ E)).
  assert (E3 : forall A (k : WINDOW -> prog H A), (win_at p ≫= k) (set_pool st P) = k w (set_pool st P)).
  { intros A k. by rewrite (run_bind _ _ _ _ _ (acts_win st p w (ho_live _ _ _ _ Hh) (ho_win _ _ _ _ Hh) P)). }
  destruct (visible (show w)) eqn:Ev.
  - rewrite E2, (proj2 (Z.eqb_neq _ _) (ho_nonnull _ _ _ _ Hh)), E3, Ev.
    pose proof (deref_runs st h _ o (memory st) (ho_handle _ _ _ _ Hh) eq_refl (ho_ptr _ _ _ _ Hh) Ho Hr) as Ed.
    change (set_memory (set_pool st ?P) (memory st)) with (set_pool st P) in Ed. rewrite set_memory_id in Ed. fold P in Ed.
    by rewrite (run_bind _ _ _ _ _ Ed).
  - eexists. by rewrite E2, (proj2 (Z.eqb_neq _ _) (ho_nonnull _ _ _ _ Hh)), E3, Ev.
Qed.

Lemma find_back_hit st x y n (i : nat) P :
  seen st -> Z.of_nat i <= window_count (memory st) -> (i <= n)%nat ->
  (forall h, h ∈ take i (order (memory st)) -> P !! ptr_at st h = pool st !! ptr_at st h) ->
  exists P', find_back n (Z.of_nat i - 1) INVALID_HANDLE (fun _ => probe x y) (set_pool st P)
    = Some (default INVALID_HANDLE (last (filter (hit st x y) (take i (order (memory st))))), set_pool st P').
Proof.
  intros Hs. revert i P. induction n as [|n IH]; intros i P Hi Hn HP; destruct i as [|i]; try lia.
  1,2: (exists P; rewrite take_0; cbn [find_back]; by rewrite (proj2 (Z.ltb_lt _ _)) by lia).
  cbn [find_back]. rewrite (proj2 (Z.ltb_ge _ _)) by lia. unfold list_at. rewrite run_gets. cbn [memory set_pool].
  replace (Z.of_nat (S i) - 1) with (Z.of_nat i) by lia.
  pose proof (slot_order st (Z.of_nat i) Hs ltac:(lia)) as Eh. rewrite Nat2Z.id in Eh. set (h := get 0 _ _) in *.
  rewrite (take_S_r _ _ _ Eh) in HP |- *. rewrite filter_app.
  assert (Hin : h ∈ order (memory st)) by (by eapply list_elem_of_lookup_2).
  assert (Hh : holds (set_pool st P) h (block st h) (look st h)) by (apply holds_pool; [by apply (se_holds st Hs) | apply HP; set_solver]).
  pose proof (probe_runs _ x y _ _ _ Hh) as Hp.
  assert (Hlow : forall h', h' ∈ take i (order (memory st)) -> ptr_at st h' <> ptr_at st h).
  { intros h' (j & Ej & Hj)%elem_of_take Ep. apply ptr_inj in Ep; [|done|by eapply list_elem_of_lookup_2|done]. subst h'.
    pose proof (NoDup_lookup _ _ _ _ (se_nodup st Hs) Ej Eh). lia. }
  destruct (visible (show (look st h))) eqn:Ev.
  - rewrite (run_bind _ _ _ _ _ Hp). destruct (is_in_window (look st h) x y) eqn:Ei.
    + exists P. rewrite (filter_cons_True _ h []) by (by split). rewrite filter_nil, last_snoc. done.
    + rewrite (filter_cons_False _ h []) by (intros [_ Hb]; congruence). rewrite filter_nil, app_nil_r. apply IH; [lia|lia|].
      intros h' Hh'. apply HP. set_solver.
  - destruct Hp as (o & Hp). rewrite (run_bind _ _ _ _ _ Hp). rewrite (filter_cons_False _ h []) by (intros [Hb _]; congruence). rewrite filter_nil, app_nil_r.
    apply (IH i (<[ptr_at st h := o]> P)); [lia|lia|]. intros h' Hh'. rewrite lookup_insert_ne by (apply not_eq_sym, Hlow, Hh'). apply HP. set_solver.
Qed.

Lemma find_window_at_front st x y : seen st ->
  exists P, find_window_at x y st = Some (default INVALID_HANDLE (last (filter (hit st x y) (order (memory st)))), set_pool st P).
Proof.
  intros Hs. pose proof (se_count st Hs) as Hc. unfold MAX_WINDOWS in Hc.
  destruct (find_back_hit st x y 32 (Z.to_nat (window_count (memory st))) (pool st) Hs) as (P & E); [lia|lia|done|].
  exists P. rewrite take_ge in E by (rewrite order_length; [lia|done]). rewrite Z2Nat.id in E by lia.
  replace (set_pool st (pool st)) with st in E by (by destruct st). exact E.
Qed.

(** ** Working on a window under a reference *)

(** A reference more, with room for another. *)
Definition refs st (h : Z) : Z := match pool st !! ptr_at st h with Some o => ref_count o | None => 0 end.

Definition taken st (h : Z) : ob H w32k :=
  match pool st !! ptr_at st h with
  | Some o => set_pool st (<[ptr_at st h := mkObject (name o) (otype o) (ref_count o + 1) (body o) (body_size o)]> (pool st))
  | None => st
  end.

Lemma taken_pool st h : holds st h (block st h) (look st h) -> exists P, taken st h = set_pool st P.
Proof. intros [_ _ (o & Ho & _) _ _ _]. unfold taken. rewrite Ho. by eexists. Qed.

Lemma taken_block st h h' : holds st h (block st h) (look st h) -> block (taken st h) h' = block st h'.
Proof.
  intros [_ _ (o & Ho & _) _ _ _]. unfold taken, block. rewrite Ho. cbn. change (ptr_at (set_pool st ?P) h') with (ptr_at st h').
  destruct (decide (ptr_at st h' = ptr_at st h)) as [->|Hne]; [by rewrite lookup_insert_eq, Ho | by rewrite lookup_insert_ne].
Qed.

Lemma taken_look st h h' : holds st h (block st h) (look st h) -> look (taken st h) h' = look st h'.
Proof. intros Hh. unfold look. rewrite taken_block by done. destruct (taken_pool st h Hh) as (P & ->). done. Qed.

Lemma seen_taken st h : seen st -> h ∈ order (memory st) -> refs st h < 4294967294 -> seen (taken st h).
Proof.
  intros Hs Hin Hr. pose proof (se_holds st Hs h Hin) as Hh. destruct (taken_pool st h Hh) as (P & Ep).
  assert (Em : memory (taken st h) = memory st) by (by rewrite Ep). destruct Hs as [Hl Hc Hd Hho Hcl Hap].
  split; rewrite ?Em; try done.
  - intros h' Hh'. rewrite taken_block, taken_look by done. destruct (Hho h' Hh') as [B1 B2 (o' & B3 & B4 & B5) B6 B7 B8].
    rewrite Ep in *. split; try done. cbn. change (ptr_at (set_pool st P) h') with (ptr_at st h').
    destruct Hh as [_ _ (o & Ho & _ & Hor) _ _ _]. unfold taken in Ep. rewrite Ho in Ep. unfold refs in Hr. rewrite Ho in Hr.
    apply (f_equal pool) in Ep. cbn in Ep. rewrite <- Ep. destruct (decide (ptr_at st h' = ptr_at st h)) as [E|Hne].
    + rewrite E, lookup_insert_eq. eexists. split; [done|]. cbn. rewrite E, Ho in B3. injection B3 as <-. split; [done|lia].
    + rewrite lookup_insert_ne by done. eauto.
  - intros h' Hh'. rewrite taken_look by done. unfold class_ok in *. rewrite Ep. exact (Hcl h' Hh').
  - intros h1 h2 H1 H2. rewrite !taken_block by done. by apply Hap.
Qed.

Lemma run_ref {A} st h p w (k : Z -> prog H A) : holds st h p w -> (ref h ≫= k) st = k p (taken st h).
Proof. intros Hh. destruct (ref_runs st h p w Hh) as (o & Ho & Hr & E). rewrite (run_bind _ _ _ _ _ E). unfold taken. by rewrite Ho. Qed.

(** Giving the reference back, after the window manager's state alone has changed. *)
Lemma deref_back st h p w m : holds st h p w -> deref h (set_memory (taken st h) m) = Some (tt, set_memory st m).
Proof.
  intros Hh. destruct (ref_runs st h p w Hh) as (o & Ho & Hr & _). unfold taken. rewrite Ho.
  exact (deref_runs st h _ o m (ho_handle _ _ _ _ Hh) eq_refl (ho_ptr _ _ _ _ Hh) Ho Hr).
Qed.

(** ** Changing one window *)
Definition changed st (h : Z) (w : WINDOW) : ob H w32k := set_memory st (put_windows (memory st) (<[block st h := w]> (windows (memory st)))).

Lemma look_changed st h w h' : seen st -> h ∈ order (memory st) -> h' ∈ order (memory st) -> look (changed st h w) h' = if decide (h' = h) then w else look st h'.
Proof.
  intros Hs Hh Hh'. unfold look, changed. change (block (set_memory st ?m) h') with (block st h'). cbn. destruct (decide (h' = h)) as [->|Hne].
  - by rewrite lookup_insert_eq.
  - rewrite lookup_insert_ne; [done|]. intros E. apply Hne. symmetry. by apply (se_apart st Hs).
Qed.

Lemma seen_changed st h w : seen st -> h ∈ order (memory st) -> wndClass w = wndClass (look st h) -> seen (changed st h w).
Proof.
  intros Hs Hh Hw. pose proof Hs as [Hl Hc Hd Hho Hcl Hap]. split; try done.
  - intros h' Hh'. change (block (changed st h w) h') with (block st h'). change (h' ∈ order (memory st)) in Hh'. rewrite look_changed by done.
    destruct (Hho h' Hh') as [B1 B2 B3 B4 B5 B6]. split; try done. cbn. destruct (decide (h' = h)) as [->|Hne]; [by rewrite lookup_insert_eq|].
    rewrite lookup_insert_ne; [done|]. intros E. apply Hne. symmetry. by apply Hap.
  - intros h' Hh'. change (h' ∈ order (memory st)) in Hh'. rewrite look_changed by done. destruct (decide (h' = h)) as [->|]; [|by apply Hcl].
    unfold class_ok in *. rewrite Hw. by apply Hcl.
Qed.

Lemma update_changes st h f : seen st -> h ∈ order (memory st) -> update (block st h) f st = Some (tt, changed st h (f (look st h))).
Proof.
  intros Hs Hh. destruct (se_holds st Hs h Hh) as [_ _ _ _ Hl Hw]. pose proof (acts_update st _ _ f Hl Hw (pool st)) as E.
  replace (set_pool st (pool st)) with st in E by (by destruct st). exact E.
Qed.

Lemma win_at_reads st h : seen st -> h ∈ order (memory st) -> win_at (block st h) st = Some (look st h, st).
Proof.
  intros Hs Hh. destruct (se_holds st Hs h Hh) as [_ _ _ _ Hl Hw]. unfold win_at. by rewrite Hl, Hw.
Qed.

(** ** Activation *)
Definition make_active (hwnd : Z) st (h : Z) : ob H w32k := changed st h (set_active (look st h) (h =? hwnd)).
Definition activated (hwnd : Z) st (l : list Z) : ob H w32k := fold_left (make_active hwnd) l st.

Lemma activated_ok hwnd l st :
  seen st -> (forall h, h ∈ l -> h ∈ order (memory st)) -> NoDup l ->
  let st' := activated hwnd st l in
  seen st' /\ put_windows (memory st') ∅ = put_windows (memory st) ∅ /\
  (forall h, block st' h = block st h) /\
  (forall h, h ∈ order (memory st) -> look st' h = if decide (h ∈ l) then set_active (look st h) (h =? hwnd) else look st h).
Proof.
  revert st. induction l as [|h l IH]; intros st Hs Hl Hd; cbn.
  { split; [done|]. split; [done|]. split; [done|]. intros h Hh. by rewrite decide_False by set_solver. }
  apply NoDup_cons in Hd as [Hn Hd]. assert (Hh : h ∈ order (memory st)) by set_solver.
  destruct (IH (make_active hwnd st h)) as (Hs' & Hm & Hb & Hk); [by apply seen_changed | intros h' Hi; apply Hl; set_solver | done |].
  split; [done|]. split; [done|]. split; [done|]. intros h' Hi. rewrite Hk by done. unfold make_active. rewrite look_changed by done.
  destruct (decide (h' = h)) as [->|Hne]; [by rewrite decide_False, decide_True by set_solver|].
  destruct (decide (h' ∈ l)); [by rewrite decide_True by set_solver | by rewrite decide_False by set_solver].
Qed.

Lemma activate_runs hwnd st h : seen st -> h ∈ order (memory st) ->
  with_window h tt (fun p _ => update p (fun w => set_active w (h =? hwnd))) st = Some (tt, make_active hwnd st h).
Proof.
  intros Hs Hh. pose proof (se_holds st Hs h Hh) as Hho. eapply with_window_runs; [exact Hho|].
  exact (acts_update st _ _ (fun w => set_active w (h =? hwnd)) (ho_live _ _ _ _ Hho) (ho_win _ _ _ _ Hho)).
Qed.

(** Every window of the list, from any turn of the loop on. *)
Lemma activate_from hwnd n i st :
  seen st -> 0 <= i -> window_count (memory st) - i <= Z.of_nat n ->
  windows_from n i (fun i => h ← list_at i; with_window h tt (fun p _ => update p (fun w => set_active w (h =? hwnd)))) st
  = Some (tt, activated hwnd st (drop (Z.to_nat i) (order (memory st)))).
Proof.
  revert i st. induction n as [|n IH]; intros i st Hs Hi Hn; cbn [windows_from]; rewrite run_gets; destruct (Z.leb_spec (window_count (memory st)) i);
    try lia; try (rewrite drop_ge by (rewrite order_length; [lia|done]); done).
  assert (E : (h ← list_at i; with_window h tt (fun p _ => update p (fun w => set_active w (h =? hwnd)))) st = Some (tt, make_active hwnd st (get 0 (window_list (memory st)) i))).
  { unfold list_at. rewrite run_gets. apply activate_runs; [done | by apply slot_in]. }
  rewrite (run_bind _ _ _ _ _ E). pose proof (slot_in st i Hs ltac:(lia)) as Hh. rewrite IH; [|by apply seen_changed | lia | cbn; lia].
  rewrite (drop_S _ _ _ (slot_order st i Hs ltac:(lia))). cbn [activated fold_left]. by replace (Z.to_nat (i + 1)) with (S (Z.to_nat i)) by lia.
Qed.

Lemma seen_active st h : seen st -> seen (set_memory st (put_active (memory st) h)).
Proof. intros []. split; try done. intros h' Hh. destruct (se_holds0 h' Hh). by split. Qed.

(** Exactly the window that was asked for is active, if any. *)
Definition may_activate st (hwnd : Z) : Prop := hwnd = INVALID_HANDLE \/ hwnd ∈ order (memory st) /\ desktop (look st hwnd) = false.

Lemma set_window_active_sets st hwnd :
  seen st -> may_activate st hwnd ->
  exists st', set_window_active hwnd st = Some (tt, st') /\ seen st' /\ put_windows (memory st') ∅ = put_windows (put_active (memory st) hwnd) ∅ /\
    (forall h, block st' h = block st h) /\ forall h, h ∈ order (memory st) -> look st' h = set_active (look st h) (h =? hwnd).
Proof.
  intros Hs Hmay. set (st1 := set_memory st (put_active (memory st) hwnd)). pose proof (seen_active st hwnd Hs) as Hs1. fold st1 in Hs1.
  destruct (activated_ok hwnd (order (memory st)) st1 Hs1 ltac:(done) (se_nodup st Hs)) as (Hs' & Hm & Hb & Hk).
  exists (activated hwnd st1 (order (memory st))). split; [|split; [done|split; [done|split; [done|]]]].
  - assert (Eref : (if hwnd =? INVALID_HANDLE then mret false else with_window hwnd true (fun _ w => mret (desktop w))) st = Some (false, st)).
    { destruct (Z.eqb_spec hwnd INVALID_HANDLE) as [|Hn]; [done|]. destruct Hmay as [|[Hh Hd]]; [done|]. apply read_window; [done|done|]. rewrite Hd. apply acts_ret. }
    unfold set_window_active. rewrite (run_bind _ _ _ _ _ Eref), (run_bind _ _ _ _ _ (eq_refl : modify _ st = Some (tt, st1))).
    pose proof (se_count st Hs) as Hc. unfold MAX_WINDOWS in Hc. unfold for_windows. rewrite activate_from by (done || cbn; lia). by rewrite drop_0.
  - intros h Hi. rewrite Hk by done. by rewrite decide_True.
Qed.

(** C35. Activating a window without owner or owned windows, which may be activated, brings it to the front of
    its band ([owner_click_loses_window] shows what raising an owner can do): in front of all ordinary windows, or in front of everything when
    it is topmost.  The other windows keep their order, so the topmost ones stay
    in front; it becomes the active window, the only one with an active caption,
    and nothing else of any window changes. *)
Theorem activate_window_fronts (fuel : nat) st (hwnd : Z) (A B : list Z) :
  seen st -> order (memory st) = A ++ B -> Forall (fun h => is_top st h = false) A -> Forall (fun h => is_top st h = true) B ->
  hwnd ∈ order (memory st) -> hwnd <> INVALID_HANDLE -> has (exstyle (look st hwnd)) WS_EX_NOACTIVATE = false ->
  desktop (look st hwnd) = false -> owner (look st hwnd) = INVALID_HANDLE ->
  (forall h, h ∈ order (memory st) -> owner (look st h) <> hwnd) -> (32 <= fuel)%nat ->
  exists st', Win32kActivateWindow fuel hwnd st = Some (tt, st') /\ seen st' /\ active_window (memory st') = hwnd /\
    order (memory st') = filter (fun h => h <> hwnd) A ++ (if is_top st hwnd then [] else [hwnd]) ++ filter (fun h => h <> hwnd) B ++ (if is_top st hwnd then [hwnd] else []) /\
    forall h, h ∈ order (memory st) -> look st' h = set_active (look st h) (h =? hwnd).
Proof.
  intros Hs Ho HA HB Hin Hinv Hno Hdesk Hown Howned Hfuel.
  destruct (raise_window_fronts fuel st hwnd A B Hs Ho HA HB Hin Hdesk Hown Howned Hfuel) as (l & Er & Hp & Hl).
  assert (Hin' : hwnd ∈ order (memory (reordered st l))) by (by rewrite order_reordered, Hp).
  destruct (set_window_active_sets (reordered st l) hwnd (seen_reordered st l Hs Hp) (or_intror (conj Hin' Hdesk))) as (st' & Ea & Hs' & Hm & _ & Hk).
  exists st'. split; [|split; [done|split; [by apply (f_equal active_window) in Hm|split]]].
  - unfold Win32kActivateWindow. rewrite (proj2 (Z.eqb_neq _ _) Hinv), run_gets.
    assert (Eg : with_window hwnd false (fun _ w => mret (negb (has (exstyle w) WS_EX_NOACTIVATE) &&
        negb (desktop w && negb (active_window (memory st) =? INVALID_HANDLE) && negb (active_window (memory st) =? hwnd)))) st = Some (true, st)).
    { apply read_window; [done|done|]. rewrite Hno, Hdesk. apply acts_ret. }
    by rewrite (run_bind _ _ _ _ _ Eg), (run_bind _ _ _ _ _ Er).
  - rewrite <- Hl. rewrite <- (order_reordered st l Hs Hp) at 1. exact (f_equal order Hm).
  - intros h Hh. apply Hk. by rewrite order_reordered, Hp.
Qed.

(** ** Minimising and maximising *)
Lemma seen_memory st m :
  seen st -> windows m = windows (memory st) -> classes m = classes (memory st) -> window_list m = window_list (memory st) ->
  window_count m = window_count (memory st) -> seen (set_memory st m).
Proof.
  intros [Hl Hc Hd Hh Hcl Hap] Ew Ec El En. assert (Eo : order m = order (memory st)) by (unfold order; by rewrite El, En).
  split; unfold class_ok, look in *; cbn; rewrite ?Eo, ?El, ?En, ?Ec, ?Ew; try done.
  intros h Hi. destruct (Hh h Hi). split; try done. cbn. by rewrite Ew.
Qed.

Lemma count_minimized_runs n i hwnd acc st : seen st -> 0 <= i -> window_count (memory st) - i <= Z.of_nat n ->
  exists k, count_minimized n i hwnd acc st = Some (k, st).
Proof.
  intros Hs. revert i acc. induction n as [|n IH]; intros i acc Hi Hn; cbn [count_minimized]; rewrite run_gets; destruct (Z.leb_spec (window_count (memory st)) i);
    try lia; try (by eexists).
  unfold list_at. rewrite run_gets. set (h := get 0 _ i). assert (Hin : h ∈ order (memory st)) by (by apply slot_in).
  assert (E : exists m, (if h =? hwnd then mret false else with_window h false (fun _ w => mret (visible (show w) && minimized (show w)))) st = Some (m, st)).
  { destruct (h =? hwnd); [by eexists|]. eexists. apply read_window; [done|done|]. apply acts_ret. }
  destruct E as (m & E). rewrite (run_bind _ _ _ _ _ E). apply IH; lia.
Qed.

Lemma find_topmost_runs st : seen st -> exists t, find_topmost_visible_window st = Some (t, st) /\ may_activate st t.
Proof.
  intros Hs. pose proof (se_count st Hs) as Hc. unfold MAX_WINDOWS in Hc. unfold find_topmost_visible_window. rewrite run_gets.
  assert (G : forall n i, i < window_count (memory st) -> i < Z.of_nat n -> exists t, find_back n i INVALID_HANDLE (fun _ h =>
    with_window h None (fun _ w => mret (if visible (show w) && negb (minimized (show w)) && negb (desktop w) then Some h else None))) st = Some (t, st) /\ may_activate st t).
  { induction n as [|n IH]; intros i Hi Hn; cbn [find_back]; destruct (Z.ltb_spec i 0); try lia; try (eexists; split; [done | by left]).
    unfold list_at. rewrite run_gets. set (h := get 0 _ i). assert (Hh : h ∈ order (memory st)) by (apply slot_in; [done|lia]).
    rewrite (run_bind _ _ _ _ _ (read_window st h None _ _ Hs Hh (acts_ret _ st))).
    destruct (visible _ && _ && _) eqn:E; [|apply IH; lia]. eexists. split; [done|]. right. split; [done|].
    apply andb_true_iff in E as [_ E]. by apply negb_true_iff in E. }
  apply (G 32%nat); lia.
Qed.

Lemma screen_size_reads st : exists s, screen_size st = Some (s, st).
Proof. by eexists. Qed.

(** A window that is minimised remembers where it was. *)
Lemma minimize_window_runs st h :
  seen st -> h ∈ order (memory st) -> minimized (show (look st h)) = false ->
  exists st', minimize_window h (block st h) st = Some (tt, st') /\ seen st' /\ order (memory st') = order (memory st) /\ (forall h', block st' h' = block st h') /\
    exists q, look st' h = with_place (set_visible (set_minimized (with_restore (look st h) (place (look st h))) true) true) q.
Proof.
  intros Hs Hh Hm. unfold minimize_window. rewrite (run_bind _ _ _ _ _ (win_at_reads st h Hs Hh)), Hm, (run_bind _ _ _ _ _ (update_changes st h _ Hs Hh)).
  set (w1 := set_visible _ true). set (st1 := changed st h w1). assert (Hs1 : seen st1) by (by apply seen_changed).
  unfold layout_minimized_window. destruct (screen_size_reads st1) as ([sw sh] & Es).
  pose proof (se_count st Hs) as Hc. unfold MAX_WINDOWS in Hc.
  destruct (count_minimized_runs 32 0 h 0 st1 Hs1 ltac:(lia) ltac:(cbn; lia)) as (k & Ek).
  set (q := minimized_place sw sh k). set (st2 := changed st1 h (with_place (look st1 h) q)).
  assert (El : ('(sw, sh) ← screen_size; n ← count_minimized 32 0 h 0; update (block st h) (fun w => with_place w (minimized_place sw sh n))) st1 = Some (tt, st2)).
  { rewrite (run_bind _ _ _ _ _ Es), (run_bind _ _ _ _ _ Ek). exact (update_changes st1 h _ Hs1 Hh). }
  rewrite (run_bind _ _ _ _ _ El). assert (Hs2 : seen st2) by (by apply seen_changed).
  assert (Lk : look st2 h = with_place w1 q) by (unfold st2; rewrite look_changed, decide_True by done; unfold st1; by rewrite look_changed, decide_True by done).
  set (d := drag (memory st2)).
  set (dr := mkDrag false INVALID_HANDLE (drag_offset_x d) (drag_offset_y d) (drag_pixels d) (drag_pixels_width d) (drag_pixels_height d)).
  exists (set_memory st2 (if drag_window (drag (memory st2)) =? h then put_drag (memory st2) dr else memory st2)). split; [done|].
  destruct (drag_window (drag (memory st2)) =? h).
  - split; [by apply seen_memory|]. split; [done|]. split; [done|]. by exists q.
  - rewrite set_memory_id. split; [done|]. split; [done|]. split; [done|]. by exists q.
Qed.

(** The whole effect of the minimise button on a window that is not minimised. *)
Lemma minimize_button_runs proc st h :
  seen st -> h ∈ order (memory st) -> minimized (show (look st h)) = false ->
  exists st', do_caption_button_action proc h (block st h) CAPBTN_MINIMIZE st = Some (tt, st') /\ seen st' /\ order (memory st') = order (memory st) /\
    (forall h', block st' h' = block st h') /\
    exists q b, look st' h = set_active (with_place (set_visible (set_minimized (with_restore (look st h) (place (look st h))) true) true) q) b.
Proof.
  intros Hs Hh Hm. destruct (minimize_window_runs st h Hs Hh Hm) as (st1 & E1 & Hs1 & Ho1 & Hb1 & q & Hk1).
  destruct (find_topmost_runs st1 Hs1) as (t & Et & Ht). destruct (set_window_active_sets st1 t Hs1 Ht) as (st2 & E2 & Hs2 & Hm2 & Hb2 & Hk2).
  exists st2. split; [|split; [done|split; [rewrite <- Ho1; exact (f_equal order Hm2)|split; [intros h'; by rewrite Hb2|]]]].
  - unfold do_caption_button_action. rewrite (run_bind _ _ _ _ _ (win_at_reads st h Hs Hh)), Hm, (run_bind _ _ _ _ _ E1), (run_bind _ _ _ _ _ Et). exact E2.
  - exists q, (h =? t). rewrite Hk2 by (by rewrite Ho1). by rewrite Hk1.
Qed.

Lemma restore_button_runs proc st h :
  seen st -> h ∈ order (memory st) -> desktop (look st h) = false -> minimized (show (look st h)) = true ->
  exists st', do_caption_button_action proc h (block st h) CAPBTN_MINIMIZE st = Some (tt, st') /\ seen st' /\ order (memory st') = order (memory st) /\
    active_window (memory st') = h /\ look st' h = set_active (with_place (set_visible (set_minimized (look st h) false) true) (restored_place (look st h))) true.
Proof.
  intros Hs Hh Hd Hm. set (w := with_place (set_visible (set_minimized (look st h) false) true) (restored_place (look st h))).
  assert (Hs1 : seen (changed st h w)) by (by apply seen_changed).
  assert (Hlk : look (changed st h w) h = w) by (by rewrite look_changed, decide_True by done).
  destruct (set_window_active_sets (changed st h w) h Hs1) as (st2 & E2 & Hs2 & Hm2 & Hb2 & Hk2); [right; split; [done|by rewrite Hlk]|].
  exists st2. split; [|split; [done|split; [exact (f_equal order Hm2)|split; [exact (f_equal active_window Hm2)|]]]].
  - unfold do_caption_button_action. rewrite (run_bind _ _ _ _ _ (win_at_reads st h Hs Hh)), Hm. unfold restore_window_if_needed.
    rewrite (run_bind _ _ _ _ _ (update_changes st h _ Hs Hh)), Hm. exact E2.
  - rewrite Hk2, Hlk, Z.eqb_refl by done. done.
Qed.

Lemma maximize_button_runs proc st h :
  seen st -> h ∈ order (memory st) -> minimized (show (look st h)) = false ->
  exists w, do_caption_button_action proc h (block st h) CAPBTN_MAXIMIZE st = Some (tt, changed st h w) /\
    if maximized (show (look st h)) then w = set_maximized (with_place (look st h) (restored_place (look st h))) false
    else exists q, w = set_maximized (with_place (with_restore (look st h) (place (look st h))) q) true.
Proof.
  intros Hs Hh Hm. unfold do_caption_button_action. rewrite (run_bind _ _ _ _ _ (win_at_reads st h Hs Hh)), Hm. destruct (maximized _) eqn:Hx.
  - eexists. split; [exact (update_changes st h _ Hs Hh)|]. by rewrite Hx.
  - unfold maximize_window. rewrite (run_bind _ _ _ _ _ (win_at_reads st h Hs Hh)), Hx. destruct (screen_size_reads st) as ([sw sh] & Es).
    rewrite (run_bind _ _ _ _ _ Es). eexists. split; [exact (update_changes st h _ Hs Hh)|]. by eexists.
Qed.

(** Pressing the minimise or the maximise button of a window twice puts it back
    where it was, with the size it had; after the minimise button it is the
    active window.  The order of the windows does not change. *)
Theorem caption_button_roundtrip proc st (h : Z) (b : CAPTION_BUTTON_HIT) :
  let w := look st h in
  seen st -> h ∈ order (memory st) -> b = CAPBTN_MINIMIZE \/ b = CAPBTN_MAXIMIZE ->
  desktop w = false -> minimized (show w) = false -> maximized (show w) = false -> 0 < ww (place w) -> 0 < wh (place w) ->
  exists st', (do_caption_button_action proc h (block st h) b;; do_caption_button_action proc h (block st h) b) st = Some (tt, st') /\
    seen st' /\ order (memory st') = order (memory st) /\ place (look st' h) = place w /\ minimized (show (look st' h)) = false /\ maximized (show (look st' h)) = false /\
    active_window (memory st') = if decide (b = CAPBTN_MINIMIZE) then h else active_window (memory st).
Proof.
  intros w Hs Hh Hb Hd Hm Hx Hw Hwh.
  assert (Hre : forall v, restore v = place w -> restored_place v = place w).
  { intros v E. unfold restored_place. rewrite E, !(proj2 (Z.ltb_lt _ _)) by done. by destruct (place w). }
  destruct Hb as [-> | ->].
  - destruct (minimize_button_runs proc st h Hs Hh Hm) as (st1 & E1 & Hs1 & Ho1 & Hb1 & q & c & Hk1).
    destruct (restore_button_runs proc st1 h Hs1) as (st2 & E2 & Hs2 & Ho2 & Ha2 & Hk2); [by rewrite Ho1 | by rewrite Hk1 | by rewrite Hk1 |].
    exists st2. rewrite Hb1 in E2. rewrite (run_bind _ _ _ _ _ E1), decide_True, Ho2, Ho1, Hk2, Hk1 by done. split_and!; try done; by apply Hre.
  - destruct (maximize_button_runs proc st h Hs Hh Hm) as (w1 & E1 & Hk1). fold w in Hk1. rewrite Hx in Hk1. destruct Hk1 as (q & ->). fold w in E1.
    set (w1 := set_maximized _ true) in E1. set (st1 := changed st h w1) in E1.
    assert (Hs1 : seen st1) by (by apply seen_changed). assert (Hk1 : look st1 h = w1) by (unfold st1; by rewrite look_changed, decide_True by done).
    destruct (maximize_button_runs proc st1 h Hs1 Hh) as (w2 & E2 & Hk2); [by rewrite Hk1|]. rewrite Hk1 in Hk2. cbn in Hk2.
    exists (changed st1 h w2). rewrite (run_bind _ _ _ _ _ E1). split; [exact E2|]. assert (Hl2 : look (changed st1 h w2) h = w2) by (by rewrite look_changed, decide_True by done).
    rewrite Hl2, Hk2, decide_False by done. split; [apply seen_changed; [done|done|by rewrite Hk1]|]. split_and!; try done; by apply Hre.
Qed.

(** ** Painting

    Window procedures that answer [WM_PAINT] by drawing. *)
Section painting.
Context (proc : Z -> Z -> Z -> Z -> Z -> prog H unit) (client : Z -> list draw).

Definition appended st (d : list draw) : ob H w32k := set_memory st (put_drawn (memory st) (drawn (memory st) ++ d)).

Definition painter : Prop := forall q h st, proc q h WM_PAINT 0 0 st = Some (tt, appended st (client h)).
Hypothesis Hpaint : painter.

Lemma appended_nil st : appended st [] = st.
Proof. unfold appended. rewrite app_nil_r. by destruct st as [? ? ? ? ? ? []]. Qed.
Lemma appended_app st d d' : appended (appended st d) d' = appended st (d ++ d').
Proof. unfold appended. cbn. by rewrite <- app_assoc. Qed.

(** Drawing shows nothing else a different state. *)
Lemma seen_appended st d : seen st -> seen (appended st d).
Proof. intros []. split; try done. intros h Hh. destruct (se_holds0 h Hh). by split. Qed.

Lemma paint_runs f st : paint f st = Some (tt, appended st (f (memory st))).
Proof. done. Qed.

Lemma acts_paint f st : acts (paint f) st tt (memory (appended st (f (memory st)))).
Proof. done. Qed.

(** What a body that only draws does over the whole list. *)
Lemma windows_append st (f : Z -> list draw) (g : Z -> prog H unit) :
  seen st -> (forall d i, 0 <= i < window_count (memory st) -> g i (appended st d) = Some (tt, appended st (d ++ f (get 0 (window_list (memory st)) i)))) ->
  for_windows g st = Some (tt, appended st (concat (map f (order (memory st))))).
Proof.
  intros Hs Hg. pose proof (se_count st Hs) as Hc. unfold MAX_WINDOWS in Hc.
  assert (Hgen : forall n i d, 0 <= i -> window_count (memory st) - i <= Z.of_nat n ->
    windows_from n i g (appended st d) = Some (tt, appended st (d ++ concat (map f (drop (Z.to_nat i) (order (memory st))))))).
  { induction n as [|n IH]; intros i d Hi Hn; cbn [windows_from]; rewrite run_gets; change (window_count (memory (appended st d))) with (window_count (memory st)).
    - rewrite (proj2 (Z.leb_le _ _)) by lia. rewrite drop_ge by (rewrite order_length; [lia|done]). cbn. by rewrite app_nil_r.
    - destruct (Z.leb_spec (window_count (memory st)) i).
      { rewrite drop_ge by (rewrite order_length; [lia|done]). cbn. by rewrite app_nil_r. }
      rewrite (run_bind _ _ _ _ _ (Hg d i ltac:(lia))), IH by lia.
      rewrite (drop_S _ _ _ (slot_order st i Hs ltac:(lia))). cbn [map concat]. rewrite <- app_assoc.
      replace (Z.to_nat (i + 1)) with (S (Z.to_nat i)) by lia. done. }
  unfold for_windows. rewrite <- (appended_nil st) at 1. rewrite (Hgen 32%nat 0 []) by lia. done.
Qed.

Lemma read_appended st h d {A} (none : A) (f : Z -> WINDOW -> prog H A) x d' :
  seen st -> h ∈ order (memory st) -> acts (f (block st h) (look st h)) (appended st d) x (memory (appended st (d ++ d'))) ->
  with_window h none f (appended st d) = Some (x, appended st (d ++ d')).
Proof. intros Hs Hh Ha. exact (with_window_runs (appended st d) h _ _ none x f _ (se_holds _ (seen_appended st d Hs) h Hh) Ha). Qed.

(** A window in its layer, and what is drawn of it. *)
Definition layer st (popups : bool) (h : Z) : bool := visible (show (look st h)) && Bool.eqb (popup st (look st h)) popups.
Definition client_of st (h : Z) : list draw :=
  if minimized (show (look st h)) then [] else if wndProc (look st h) =? 0 then [] else client h.
Definition whole st (h : Z) : list draw := draw_window_frame (memory st) (block st h) (look st h) ++ client_of st h.
Definition caption_of st (h : Z) : list draw := draw_window_caption (memory st) (block st h) (look st h).

Lemma acts_in_layer st d h popups : seen st -> h ∈ order (memory st) ->
  acts (in_layer popups (look st h)) (appended st d) (layer st popups h) (memory (appended st d)).
Proof.
  intros Hs Hh. unfold in_layer, layer. destruct (visible _); cbn [negb andb]; [|apply acts_ret].
  eapply acts_bind; [apply acts_popup, (se_class _ (seen_appended st d Hs) h Hh)|]. rewrite set_memory_id. apply acts_ret.
Qed.

Lemma acts_paint_window st d h : acts (paint_window proc (block st h) h (look st h)) (appended st d) tt (memory (appended st (d ++ whole st h))).
Proof.
  unfold paint_window. eapply acts_bind; [apply acts_paint|]. change (set_memory (appended st d) _) with (appended (appended st d) (draw_window_frame (memory st) (block st h) (look st h))).
  rewrite appended_app. unfold whole, client_of. destruct (minimized _).
  { rewrite app_nil_r. apply acts_ret. }
  unfold call_proc. destruct (_ =? 0); [rewrite app_nil_r; apply acts_ret|]. intros P. rewrite Hpaint. do 2 f_equal. rewrite app_assoc. unfold appended. cbn. by rewrite <- !app_assoc.
Qed.

(** One layer of the windows that a test selects. *)
Lemma layer_appends st popups (test : Z -> WINDOW -> prog H bool) (T : Z -> bool) :
  seen st -> (forall d h, h ∈ order (memory st) -> acts (test h (look st h)) (appended st d) (T h) (memory (appended st d))) ->
  for_windows (fun i => with_slot i tt (fun h p w =>
      inl ← in_layer popups w; if negb inl then mret tt else t ← test h w; if t : bool then paint_window proc p h w else mret tt)) st
  = Some (tt, appended st (concat (map (fun h => if layer st popups h && T h then whole st h else []) (order (memory st))))).
Proof.
  intros Hs HT. apply (windows_append st (fun h => if layer st popups h && T h then whole st h else [])); [done|].
  intros d i Hi. set (h := get 0 _ i). assert (Hh : h ∈ order (memory st)) by (by apply slot_in).
  apply (with_slot_runs (appended st d) i h (block st h) (look st h) tt tt _ (memory (appended st (d ++ (if layer st popups h && T h then whole st h else [])))));
    [done | done | by apply (se_holds _ (seen_appended st d Hs)) |].
  eapply acts_bind; [by apply acts_in_layer|]. rewrite set_memory_id. destruct (layer st popups h); cbn [negb andb]; [|rewrite app_nil_r; apply acts_ret].
  eapply acts_bind; [by apply HT|]. rewrite set_memory_id. destruct (T h); [apply acts_paint_window | rewrite app_nil_r; apply acts_ret].
Qed.

Lemma captions_append st popups : seen st ->
  paint_captions popups st = Some (tt, appended st (concat (map (fun h => if layer st popups h then caption_of st h else []) (order (memory st))))).
Proof.
  intros Hs. apply (windows_append st (fun h => if layer st popups h then caption_of st h else [])); [done|].
  intros d i Hi. unfold list_at. rewrite run_gets. change (window_list (memory (appended st d))) with (window_list (memory st)). set (h := get 0 _ i).
  assert (Hh : h ∈ order (memory st)) by (by apply slot_in). apply read_appended; [done|done|].
  eapply acts_bind; [by apply acts_in_layer|]. rewrite set_memory_id. destruct (layer st popups h); [|rewrite app_nil_r; apply acts_ret].
  pose proof (acts_paint (fun s => draw_window_caption s (block st h) (look st h)) (appended st d)) as Ha. by rewrite appended_app in Ha.
Qed.

(** The windows in the order in which they are painted. *)
Definition painted st : list Z :=
  filter (fun h => layer st false h = true) (order (memory st)) ++ filter (fun h => layer st true h = true) (order (memory st)).

Lemma concat_select {A} (t : Z -> bool) (f : Z -> list A) l :
  concat (map (fun h => if t h then f h else []) l) = concat (map f (filter (fun h => t h = true) l)).
Proof.
  induction l as [|h l IH]; [done|]. cbn [map concat]. rewrite IH. destruct (t h) eqn:E.
  - by rewrite filter_cons_True.
  - rewrite filter_cons_False by congruence. done.
Qed.

Lemma layers_append st : seen st -> paint_layers proc all_windows st = Some (tt, appended st (concat (map (whole st) (painted st)))).
Proof.
  intros Hs. assert (HT : forall s d h, h ∈ order (memory s) -> acts (all_windows h (look s h)) (appended s d) true (memory (appended s d))) by (intros; apply acts_ret).
  unfold paint_layers. rewrite (run_bind _ _ _ _ _ (layer_appends st false all_windows (fun _ => true) Hs (HT st))).
  set (D := concat _). rewrite (layer_appends (appended st D) true all_windows (fun _ => true) (seen_appended st D Hs) (HT _)).
  rewrite appended_app. do 3 f_equal. unfold painted. rewrite map_app, concat_app. unfold D.
  rewrite <- (concat_select (fun h => layer st false h)), <- (concat_select (fun h => layer st true h)).
  f_equal; f_equal; apply map_ext; intros h; by rewrite andb_true_r.
Qed.

(** The whole picture: the desktop, the windows, their captions again, the preview
    and the cursor. *)
Definition scene st : list draw :=
  [MouseEraseCursor] ++ paint_desktop_area (memory st) 0 0 (scr_width (screen (memory st))) (scr_height (screen (memory st))) ++
  concat (map (whole st) (painted st)) ++ concat (map (caption_of st) (painted st)) ++
  (if color_preview_overlay (memory st) then draw_preview (memory st) else []) ++ [MouseDrawCursor; FbSwapBuffers].

Definition busy st (b : bool) : ob H w32k := set_memory st (put_redraw (memory st) b).

Lemma seen_busy st b : seen st -> seen (busy st b).
Proof. intros []. split; try done. intros h Hh. destruct (se_holds0 h Hh). by split. Qed.

Lemma redraw_appends st : seen st -> redraw_in_progress (memory st) = false -> Win32kRedrawAll proc st = Some (tt, appended st (scene st)).
Proof.
  intros Hs Hr. unfold Win32kRedrawAll. rewrite run_gets, Hr. pose proof (seen_busy st true Hs) as Hb.
  rewrite (run_bind (modify _) _ st tt (busy st true) eq_refl).
  rewrite (run_bind (emit _) _ _ tt (appended (busy st true) [MouseEraseCursor]) eq_refl).
  rewrite (run_bind _ _ _ _ _ (paint_runs _ _)), appended_app. set (D1 := [MouseEraseCursor] ++ _).
  rewrite (run_bind _ _ _ _ _ (layers_append _ (seen_appended _ D1 Hb))), appended_app. set (D2 := D1 ++ _).
  rewrite (run_bind _ _ _ _ _ (captions_append _ false (seen_appended _ D2 Hb))), appended_app. set (D3 := D2 ++ _).
  rewrite (run_bind _ _ _ _ _ (captions_append _ true (seen_appended _ D3 Hb))), appended_app. set (D4 := D3 ++ _).
  rewrite (run_bind _ _ _ _ _ (paint_runs _ _)), appended_app. set (D5 := D4 ++ _).
  rewrite (run_bind (emit _) _ _ tt (appended (appended (busy st true) D5) [MouseDrawCursor]) eq_refl).
  rewrite (run_bind (emit _) _ _ tt (appended (appended (appended (busy st true) D5) [MouseDrawCursor]) [FbSwapBuffers]) eq_refl), !appended_app.
  assert (ED : D5 ++ [MouseDrawCursor] ++ [FbSwapBuffers] = scene st).
  { unfold scene, D5, D4, D3, D2, D1. rewrite (concat_select (layer _ false)), (concat_select (layer _ true)).
    rewrite <- !app_assoc. do 3 f_equal. rewrite (app_assoc (concat _) (concat _)), <- concat_app, <- map_app. done. }
  rewrite ED. unfold modify. do 2 f_equal. unfold appended, busy, set_memory, put_redraw, put_drawn. cbn -[scene]. by rewrite Hr.
Qed.

(** A redraw paints the desktop, then every visible window from the back to the
    front, menus last, each with its frame and what its procedure draws, then
    all captions; and a click reaches the window that was painted last at that
    point, as long as menus are in front in the list. *)
Theorem click_reaches_seen st (x y : Z) (N P : list Z) :
  seen st -> redraw_in_progress (memory st) = false -> order (memory st) = N ++ P ->
  Forall (fun h => popup st (look st h) = false) N -> Forall (fun h => popup st (look st h) = true) P ->
  Win32kRedrawAll proc st = Some (tt, appended st (scene st)) /\
  exists pool', find_window_at x y st =
    Some (default INVALID_HANDLE (last (filter (fun h => is_in_window (look st h) x y = true) (painted st))), set_pool st pool').
Proof.
  intros Hs Hr Ho HN HP. split; [by apply redraw_appends|]. destruct (find_window_at_front st x y Hs) as (P' & E). exists P'. rewrite E. do 3 f_equal.
  assert (Hsel : forall L b, Forall (fun h => popup st (look st h) = b) L ->
    filter (fun h => layer st b h = true) L = filter (fun h => visible (show (look st h)) = true) L /\ filter (fun h => layer st (negb b) h = true) L = []).
  { induction L as [|h L IH]; intros b HL; [done|]. apply Forall_cons in HL as [Hh HL]. destruct (IH b HL) as [E1 E2]. rewrite !filter_cons, E1, E2. unfold layer. rewrite Hh.
    destruct (visible (show (look st h))), b; done. }
  unfold painted. rewrite Ho, !filter_app. destruct (Hsel N false HN) as [-> EN]. destruct (Hsel P true HP) as [-> EP]. cbn [negb] in EN, EP.
  rewrite EN, EP, app_nil_r, filter_nil. cbn [app].
  rewrite !list_filter_filter. f_equal. f_equal; apply list_filter_iff; intros h; unfold hit; tauto.
Qed.

(** ** Resizing and dragging *)
Lemma layers_some st (test : Z -> WINDOW -> prog H bool) (T : Z -> bool) :
  seen st -> (forall d h, h ∈ order (memory st) -> acts (test h (look st h)) (appended st d) (T h) (memory (appended st d))) ->
  exists d, paint_layers proc test st = Some (tt, appended st d).
Proof.
  intros Hs HT. unfold paint_layers. rewrite (run_bind _ _ _ _ _ (layer_appends st false test T Hs HT)). set (D := concat _).
  assert (HT' : forall d h, h ∈ order (memory (appended st D)) -> acts (test h (look (appended st D) h)) (appended (appended st D) d) (T h) (memory (appended (appended st D) d))).
  { intros d h Hh. rewrite appended_app. by apply HT. }
  rewrite (layer_appends (appended st D) true test T (seen_appended st D Hs) HT'), appended_app. by eexists.
Qed.

Lemma captions_some st area (test : Z -> prog H bool) (T : Z -> bool) :
  seen st -> (forall d h, h ∈ order (memory st) -> acts (test h) (appended st d) (T h) (memory (appended st d))) ->
  exists d, captions_in area test st = Some (tt, appended st d).
Proof.
  intros Hs HT. eexists. apply (windows_append st (fun h => if visible (show (look st h)) then if T h && meets (place (look st h)) area then caption_of st h else [] else [])); [done|].
  intros d i Hi. unfold list_at. rewrite run_gets. change (window_list (memory (appended st d))) with (window_list (memory st)). set (h := get 0 _ i).
  assert (Hh : h ∈ order (memory st)) by (by apply slot_in). apply read_appended; [done|done|].
  destruct (visible _); cbn [negb]; [|rewrite app_nil_r; apply acts_ret].
  eapply acts_bind; [by apply HT|]. rewrite set_memory_id. destruct (T h && _); [|rewrite app_nil_r; apply acts_ret].
  pose proof (acts_paint (fun s => draw_window_caption s (block st h) (look st h)) (appended st d)) as Ha. by rewrite appended_app in Ha.
Qed.

(** An action that only draws. *)
Definition draws (f : prog H unit) st : Prop := exists d, f st = Some (tt, appended st d).

Lemma draws_paint f st : draws (paint f) st.
Proof. by eexists. Qed.
Lemma draws_bind (f : prog H unit) (k : unit -> prog H unit) st : draws f st -> (forall d, draws (k tt) (appended st d)) -> draws (f ≫= k) st.
Proof. intros [d E] Hk. unfold draws. rewrite (run_bind _ _ _ _ _ E). destruct (Hk d) as [d' E']. rewrite E', appended_app. by eexists. Qed.

Lemma resize_present_draws st h : seen st -> h ∈ order (memory st) -> draws (resize_present proc (block st h)) st.
Proof.
  intros Hs Hh. unfold resize_present, draws. rewrite (run_bind _ _ _ _ _ (win_at_reads st h Hs Hh)), run_gets.
  set (area := span _ _). change (draws (emit MouseEraseCursor;; clip_to area;; paint_desktop_in area;; paint_layers proc (fun _ o => mret (meets (place o) area));;
    captions_in area (fun _ => mret true);; emit FbResetClipRect;; emit MouseDrawCursor;; emit FbSwapBuffers) st).
  do 3 (apply draws_bind; [apply draws_paint|]; intros ?). rewrite !appended_app. apply draws_bind.
  - apply (layers_some _ _ (fun h => meets (place (look st h)) area)); [by apply seen_appended|]. intros. apply acts_ret.
  - intros. rewrite appended_app. apply draws_bind.
    + apply (captions_some _ _ _ (fun _ => true)); [by apply seen_appended|]. intros. apply acts_ret.
    + intros. rewrite !appended_app. do 2 (apply draws_bind; [apply draws_paint|]; intros ?). apply draws_paint.
Qed.

Lemma resize_axis_ok start size delta least bound low high p n :
  0 <= start -> start + size <= bound -> 0 < least <= size -> low && high = false -> resize_axis start size delta least bound low high = (p, n) ->
  0 <= p /\ p + n <= bound /\ least <= n /\ (low = false -> p = start) /\ (high = false -> p + n = start + size).
Proof.
  intros Hs Hb Hl Hlh. unfold resize_axis. destruct low, high; try done; cbn;
    repeat (match goal with |- context [if ?a <? ?b then _ else _] => destruct (Z.ltb_spec a b) end; cbn); intros [= <- <-]; lia.
Qed.

Lemma screen_size_runs st : 0 < scr_width (screen (memory st)) -> 0 < scr_height (screen (memory st)) ->
  screen_size st = Some ((scr_width (screen (memory st)), scr_height (screen (memory st))), st).
Proof.
  intros Hw Hh. unfold screen_size, screen_width, screen_height. rewrite !run_gets.
  rewrite (proj2 (Z.leb_gt (scr_width _) 0)), (proj2 (Z.leb_gt (scr_height _) 0)) by lia. done.
Qed.

Lemma resize_moves st (h x y : Z) :
  let s := memory st in
  let r := resize s in
  let sc := screen s in
  seen st -> h ∈ order s -> refs st h < 4294967294 -> resizing r = true -> resize_window r = h -> h <> INVALID_HANDLE ->
  0 < scr_width sc -> 0 < scr_height sc ->
  exists w d, place w = resized r x y (scr_width sc) (scr_height sc) /\ Win32kHandleMouseMove proc x y st = Some (tt, appended (changed st h w) d).
Proof.
  intros s r sc Hs Hh Hr Hz Hw Hinv Hsw Hsh. pose proof (se_holds st Hs h Hh) as Hho.
  unfold Win32kHandleMouseMove. rewrite run_gets. fold s r. rewrite Hz, Hw, (proj2 (Z.eqb_neq _ _) Hinv). cbn [negb andb].
  unfold resize_step. rewrite run_gets. fold s r. rewrite Hw, (run_ref st h _ _ _ Hho), (proj2 (Z.eqb_neq _ _) (ho_nonnull _ _ _ _ Hho)).
  pose proof (seen_taken st h Hs Hh Hr) as Ht. destruct (taken_pool st h Hho) as (P & EP).
  assert (Em : memory (taken st h) = s) by (by rewrite EP). assert (Hh' : h ∈ order (memory (taken st h))) by (by rewrite Em).
  rewrite (run_bind _ _ _ _ _ (screen_size_runs (taken st h) ltac:(by rewrite Em) ltac:(by rewrite Em))), Em. fold sc.
  rewrite <- (taken_block st h h Hho).
  match goal with |- context [update _ ?g] => rewrite (run_bind _ _ _ _ _ (update_changes (taken st h) h g Ht Hh')) end. rewrite taken_look by done.
  match goal with |- context [changed _ _ ?v] => set (w := v) in * end.
  assert (Hc : seen (changed (taken st h) h w)) by (apply seen_changed; [done|done|]; rewrite taken_look by done; unfold w; by destruct (_ || _)).
  exists w. set (st2 := changed (taken st h) h w) in *.
  assert (Er : resize (memory st2) = r) by (unfold st2, changed; cbn; by rewrite Em).
  assert (Ecur : update_cursor_for_point x y st2 = Some (tt, appended st2 [MouseSetCursorType (edge_cursor (resize_edge r))])).
  { unfold update_cursor_for_point. rewrite run_gets, Er, Hz. done. }
  rewrite (run_bind _ _ _ _ _ Ecur).
  destruct (resize_present_draws _ h (seen_appended _ [MouseSetCursorType (edge_cursor (resize_edge r))] Hc) Hh') as (d & Ep).
  change (block (appended st2 _) h) with (block (taken st h) h) in Ep. rewrite (run_bind _ _ _ _ _ Ep), run_gets, appended_app. set (D := _ ++ d).
  change (resize (memory (appended st2 D))) with (resize (memory st2)). rewrite Er, Hw. exists D. split; [unfold w; by destruct (_ || _)|].
  unfold appended, st2, changed. rewrite !set_memory_twice. rewrite (deref_back st h _ _ _ Hho), taken_block by done. cbn [memory set_memory]. by rewrite Em.
Qed.

(** While an edge is dragged the window keeps at least 96 by 64 pixels, stays on
    the screen and moves only the edges that are dragged: a position of the
    pointer gives the same rectangle however it was reached. *)
Theorem mouse_move_resizes st (h x y : Z) :
  let s := memory st in
  let r := resize s in
  let sc := screen s in
  seen st -> h ∈ order s -> refs st h < 4294967294 -> resizing r = true -> resize_window r = h -> h <> INVALID_HANDLE ->
  0 < scr_width sc -> 0 < scr_height sc ->
  0 <= wx (resize_start r) -> wx (resize_start r) + ww (resize_start r) <= scr_width sc -> 96 <= ww (resize_start r) ->
  0 <= wy (resize_start r) -> wy (resize_start r) + wh (resize_start r) <= scr_height sc -> 64 <= wh (resize_start r) ->
  e_left (resize_edge r) && e_right (resize_edge r) = false -> e_top (resize_edge r) && e_bottom (resize_edge r) = false ->
  exists w d, Win32kHandleMouseMove proc x y st = Some (tt, appended (changed st h w) d) /\
    place w = resized r x y (scr_width sc) (scr_height sc) /\
    0 <= wx (place w) /\ wx (place w) + ww (place w) <= scr_width sc /\ 96 <= ww (place w) /\
    0 <= wy (place w) /\ wy (place w) + wh (place w) <= scr_height sc /\ 64 <= wh (place w) /\
    (e_left (resize_edge r) = false -> wx (place w) = wx (resize_start r)) /\
    (e_right (resize_edge r) = false -> wx (place w) + ww (place w) = wx (resize_start r) + ww (resize_start r)) /\
    (e_top (resize_edge r) = false -> wy (place w) = wy (resize_start r)) /\
    (e_bottom (resize_edge r) = false -> wy (place w) + wh (place w) = wy (resize_start r) + wh (resize_start r)).
Proof.
  intros s r sc Hs Hh Hr Hz Hw Hinv Hsw Hsh X1 X2 X3 Y1 Y2 Y3 EX EY.
  destruct (resize_moves st h x y Hs Hh Hr Hz Hw Hinv Hsw Hsh) as (w & d & Hp & E). exists w, d. split; [exact E|]. split; [exact Hp|]. fold s in Hp. fold r sc in Hp. revert Hp. unfold resized.
  repeat match goal with |- context [resize_axis ?u ?v ?d ?l ?b ?lo ?hi] => let e := fresh "Ax" in destruct (resize_axis u v d l b lo hi) eqn:e end.
  intros ->. apply resize_axis_ok in Ax; [|lia|lia|lia|done]. apply resize_axis_ok in Ax0; [|lia|lia|lia|done]. cbn. tauto.
Qed.

End painting.
End spec.

(** ** A desktop

    A kernel with a 1024 by 768 screen, the procedures of which draw a white
    client area; handle 2 is a menu bar at the top of the stack, 3 and 4 are
    ordinary windows. *)
Definition paints (_ h m _ _ : Z) : prog fresh unit := if m =? WM_PAINT then paint (fun _ => [FbFillRect 0 0 8 8 h]) else mret tt.
Definition plain : Z := Z.lor WS_VISIBLE (Z.lor WS_CAPTION (Z.lor WS_SYSMENU (Z.lor WS_THICKFRAME (Z.lor WS_MINIMIZEBOX WS_MAXIMIZEBOX)))).

Definition boot : prog fresh unit :=
  Win32kInit (mkScreen 1024 768 true false);;
  _ ← Win32kRegisterClass AMD64 (cstr "App") 0 4096;
  _ ← Win32kRegisterClass AMD64 (cstr "Shell_TrayWnd") 0 4096; mret tt.

Definition open (nm ttl : list Z) (x y w h own : Z) : prog fresh Z := Win32kCreateWindowEx AMD64 paints 64 nm ttl x y w h plain 0 own.

Definition desk : prog fresh unit :=
  boot;;
  _ ← open (cstr "Shell_TrayWnd") (cstr "tray") 0 740 1024 28 INVALID_HANDLE;
  _ ← open (cstr "App") (cstr "one") 100 100 200 160 INVALID_HANDLE;
  _ ← open (cstr "App") (cstr "two") 150 150 200 160 INVALID_HANDLE; mret tt.

Definition machine : ob fresh w32k := ObInit (mkOb [] 0 [] 0 ∅ fresh_start (w32k_start (fun _ => None))).
Definition after {A} (p : prog fresh A) : ob fresh w32k := match p machine with Some (_, st) => st | None => machine end.

Lemma Forall_evaluated {A} (f : A -> bool) (b : bool) (l : list A) : forallb (fun x => Bool.eqb (f x) b) l = true -> Forall (fun x => f x = b) l.
Proof. rewrite forallb_forall, Forall_forall. intros Hf x Hx. by apply eqb_prop, Hf, list_elem_of_In. Qed.

Lemma activate_window_fronts_witness :
  exists st', Win32kActivateWindow 32 3 (after desk) = Some (tt, st') /\ order (memory st') = [4; 3; 2] /\ active_window (memory st') = 3.
Proof.
  destruct (activate_window_fronts 32 (after desk) 3 [3; 4] [2]) as (st' & E & _ & Ha & Hl & _).
  - apply seenb_seen. vm_compute. reflexivity.
  - vm_compute. reflexivity.
  - apply Forall_evaluated. vm_compute. reflexivity.
  - apply Forall_evaluated. vm_compute. reflexivity.
  - replace (order (memory (after desk))) with [3; 4; 2] by (vm_compute; reflexivity). set_solver.
  - discriminate.
  - vm_compute. reflexivity.
  - vm_compute. reflexivity.
  - vm_compute. reflexivity.
  - intros h Hh. apply Z.eqb_neq. revert h Hh. apply Forall_forall, Forall_evaluated. vm_compute. reflexivity.
  - lia.
  - exists st'. split; [exact E|]. split; [rewrite Hl; vm_compute; reflexivity | exact Ha].
Defined.

Lemma paints_painter : painter paints (fun h => [FbFillRect 0 0 8 8 h]).
Proof. done. Qed.

Lemma click_reaches_seen_witness :
  exists pool', find_window_at 200 200 (after desk) = Some (4, set_pool (after desk) pool').
Proof.
  destruct (click_reaches_seen paints (fun h => [FbFillRect 0 0 8 8 h]) paints_painter (after desk) 200 200 [3; 4; 2] []) as (_ & P & E).
  - apply seenb_seen. vm_compute. reflexivity.
  - vm_compute. reflexivity.
  - vm_compute. reflexivity.
  - apply Forall_evaluated. vm_compute. reflexivity.
  - constructor.
  - exists P. rewrite E. apply (f_equal (fun h => Some (h, _))). vm_compute. reflexivity.
Defined.

(** The lower right corner of window 4 is pressed. *)
Definition grabbed : prog fresh unit := desk;; Win32kHandleMouseDown paints 64 349 309 1.

Lemma mouse_move_resizes_witness :
  exists w d, Win32kHandleMouseMove paints 5000 0 (after grabbed) = Some (tt, appended (changed (after grabbed) 4 w) d) /\ place w = mkPlace 150 150 874 64.
Proof.
  destruct (mouse_move_resizes paints (fun h => [FbFillRect 0 0 8 8 h]) paints_painter (after grabbed) 4 5000 0) as (w & d & E & Hp & _);
    [apply seenb_seen; vm_compute; reflexivity | replace (order (memory (after grabbed))) with [3; 4; 2] by (vm_compute; reflexivity); set_solver
    | vm_compute; (reflexivity || discriminate) ..
    | exists w, d; split; [exact E | rewrite Hp; vm_compute; reflexivity]].
Defined.

Lemma caption_button_roundtrip_witness :
  exists st', (do_caption_button_action paints 4 (block (after desk) 4) CAPBTN_MINIMIZE;; do_caption_button_action paints 4 (block (after desk) 4) CAPBTN_MINIMIZE) (after desk)
    = Some (tt, st') /\ place (look st' 4) = mkPlace 150 150 200 160 /\ active_window (memory st') = 4.
Proof.
  destruct (caption_button_roundtrip paints (after desk) 4 CAPBTN_MINIMIZE) as (st' & E & _ & _ & Hp & _ & _ & Ha);
    [apply seenb_seen; vm_compute; reflexivity | replace (order (memory (after desk))) with [3; 4; 2] by (vm_compute; reflexivity); set_solver
    | left; reflexivity | vm_compute; reflexivity ..
    | exists st'; split; [exact E | split; [rewrite Hp; vm_compute; reflexivity | exact Ha]]].
Defined.

(** ** What goes wrong *)

(** A dialog in front of its owner. *)
Definition dialog : prog fresh unit :=
  boot;;
  _ ← open (cstr "Shell_TrayWnd") (cstr "tray") 0 740 1024 28 INVALID_HANDLE;
  _ ← open (cstr "App") (cstr "one") 100 100 200 160 INVALID_HANDLE;
  _ ← open (cstr "App") (cstr "two") 150 150 200 160 3; mret tt.

(** A click on the owner of a dialog: the owner moves in front of the dialog, and
    the dialog's handle is written over the next window of the list, here the
    task bar, which is never painted or clicked again; the dialog is in the list
    twice. *)
Theorem owner_click_loses_window :
  order (memory (after dialog)) = [3; 4; 2] /\ order (memory (after (dialog;; Win32kHandleMouseDown paints 64 110 110 1))) = [4; 3; 4].
Proof. split; vm_compute; reflexivity. Qed.

(** [HWND_TOPMOST] is the invalid handle, which asks for no change of the order: no
    window is made topmost by it. *)
Theorem topmost_request_ignored :
  let st := after (desk;; Win32kSetWindowPos paints 64 3 HWND_TOPMOST 0 0 0 0 (SWP_NOSIZE + SWP_NOMOVE)) in
  is_top st 3 = false /\ order (memory st) = [3; 4; 2].
Proof. split; vm_compute; reflexivity. Qed.

(** Looking for the window under the pointer takes a reference to every hidden
    window in front of it and never gives it back. *)
Theorem hidden_window_leaks :
  let hidden := (desk;; Win32kSetWindowShowState paints 64 4 SW_HIDE) in
  refs (after hidden) 4 = 1 /\ refs (after (hidden;; update_cursor_for_point 110 110)) 4 = 2.
Proof. split; vm_compute; reflexivity. Qed.

(** Minimising a maximised window forgets the size it had before: restored and
    then made normal, it still fills the screen. *)
Definition caption_press (h : Z) (b : CAPTION_BUTTON_HIT) : prog fresh unit := with_window h tt (fun p _ => do_caption_button_action paints h p b).

Theorem minimised_maximised_size_lost :
  let st := after (desk;; caption_press 4 CAPBTN_MAXIMIZE;; caption_press 4 CAPBTN_MINIMIZE;; caption_press 4 CAPBTN_MINIMIZE;; caption_press 4 CAPBTN_MAXIMIZE) in
  place (look (after desk) 4) = mkPlace 150 150 200 160 /\ place (look st 4) = mkPlace 0 0 1024 768 /\ maximized (show (look st 4)) = false.
Proof. split_and!; vm_compute; reflexivity. Qed.

(** Classes and windows are objects of one type: a window whose title is the name of
    a class registered later is taken for the class. *)
Theorem window_taken_for_class :
  (boot;; _ ← open (cstr "App") (cstr "Menu") 0 0 100 100 INVALID_HANDLE;
   _ ← Win32kRegisterClass AMD64 (cstr "Menu") 0 4096;
   open (cstr "Menu") (cstr "m") 0 0 100 100 INVALID_HANDLE) machine = None.
Proof. vm_compute. reflexivity. Qed.

End W32kSpec.
