(* ===== verification/Registry.v ===== *)
(** * dlls/advapi32/advapi32.c: the registry and the service control manager

    Keys and values live in two static tables; a key is named by its full path, a
    value by the key it belongs to and its name.  A handle is one of the
    predefined roots or the address of a table entry, and reading through any
    other is undefined.  A string in a table entry is the list of the bytes before
    its NUL; copying one into an array it does not fit is undefined.  Wide strings
    are lists of 16-bit units.  What a function stores through its pointer
    arguments is part of its result, [None] where it stores nothing. *)

From stdpp Require Import base list numbers strings.
From Stdlib Require Import ZArith Lia.
From S2P Require Import Prelude.

Module Registry.

Definition ERROR_SUCCESS : Z := 0.
Definition ERROR_FILE_NOT_FOUND : Z := 2.
Definition ERROR_INVALID_HANDLE : Z := 6.
Definition ERROR_OUTOFMEMORY : Z := 14.
Definition ERROR_INVALID_PARAMETER : Z := 87.
Definition ERROR_MORE_DATA : Z := 234.
Definition ERROR_NO_MORE_ITEMS : Z := 259.
Definition REG_CREATED_NEW_KEY : Z := 1.
Definition REG_OPENED_EXISTING_KEY : Z := 2.
Definition REG_SZ : Z := 1.
Definition REG_DWORD : Z := 4.
Definition REG_MAX_KEYS : Z := 128.
Definition REG_MAX_VALUES : Z := 256.
Definition REG_MAX_PATH : Z := 256.
Definition REG_MAX_NAME : Z := 96.
Definition REG_MAX_DATA : Z := 1024.

Definition SERVICE_STOPPED : Z := 1.
Definition SERVICE_RUNNING : Z := 4.
Definition SERVICE_CONTROL_STOP : Z := 1.

(** ** Data *)
Inductive HKEY := HNull | HKEY_CLASSES_ROOT | HKEY_CURRENT_USER | HKEY_LOCAL_MACHINE | HKEY_USERS | KeyAt (i : Z).

#[global] Instance hkey_eq_dec : EqDecision HKEY.
Proof. solve_decision. Defined.

Record REG_KEY := mkKey { k_used : bool; k_root : HKEY; k_path : list Z }.
(** [v_key] is the index of the key. *)
Record REG_VALUE := mkValue { v_used : bool; v_key : Z; v_name : list Z; v_type : Z; v_size : Z; v_data : list Z }.

Record SERVICE_STATUS := mkStatus {
  dwServiceType : Z; dwCurrentState : Z; dwControlsAccepted : Z; dwWin32ExitCode : Z;
  dwServiceSpecificExitCode : Z; dwCheckPoint : Z; dwWaitHint : Z }.
Record SC_SERVICE_RECORD := mkRecord { s_name : list Z; s_status : SERVICE_STATUS; s_used : bool }.
Inductive SC_HANDLE := ScNull | ScManager | ScRecord (i : Z).

Record registry := mkRegistry {
  registry_keys : list REG_KEY;
  registry_values : list REG_VALUE;
  registry_initialized : bool;
  service_records : list SC_SERVICE_RECORD;
  service_count : Z
}.

Definition no_key : REG_KEY := mkKey false HNull [].
Definition no_value : REG_VALUE := mkValue false (-1) [] 0 0 (replicate 1024 0).
Definition no_record : SC_SERVICE_RECORD := mkRecord [] (mkStatus 0 0 0 0 0 0 0) false.

(** The statics before the first call. *)
Definition registry_start : registry := mkRegistry (replicate 128 no_key) (replicate 256 no_value) false (replicate 32 no_record) 0.

Definition put_key (r : registry) (i : Z) (k : REG_KEY) : registry :=
  mkRegistry (put (registry_keys r) i k) (registry_values r) (registry_initialized r) (service_records r) (service_count r).
Definition put_value (r : registry) (i : Z) (v : REG_VALUE) : registry :=
  mkRegistry (registry_keys r) (put (registry_values r) i v) (registry_initialized r) (service_records r) (service_count r).
Definition put_record (r : registry) (i : Z) (s : SC_SERVICE_RECORD) : registry :=
  mkRegistry (registry_keys r) (registry_values r) (registry_initialized r) (put (service_records r) i s) (service_count r).

(** ** Programs: state and undefined behaviour *)
Definition reg (A : Type) : Type := registry -> option (A * registry).
#[global] Instance reg_ret : MRet reg := fun A x r => Some (x, r).
#[global] Instance reg_bind : MBind reg := fun A B k m r => '(x, r) ← m r; k x r.

Definition reads {A} (f : registry -> A) : reg A := fun r => Some (f r, r).
Definition change (f : registry -> registry) : reg unit := fun r => Some (tt, f r).
Definition undefined {A} : reg A := fun _ => None.

(** A string copied into an array of [cap] bytes. *)
Definition fit (cap : Z) (s : list Z) : reg (list Z) := if Z.of_nat (length s) <? cap then mret s else undefined.

(** ** Strings *)
Definition upper_ascii (c : Z) : Z := if (97 <=? c) && (c <=? 122) then c - 32 else c.

Fixpoint reg_ascii_equal (a b : list Z) : bool :=
  match a, b with
  | x :: a, y :: b => if upper_ascii x =? upper_ascii y then reg_ascii_equal a b else false
  | [], [] => true
  | _, _ => false
  end.

(** At most [n] units, and whether that was all of them. *)
Fixpoint narrow (n : nat) (src : list Z) : list Z * bool :=
  match n, src with
  | S n, c :: src => let '(t, all) := narrow n src in ((if c <? 128 then c else 63) :: t, all)
  | _, [] => ([], true)
  | O, _ => ([], false)
  end.

Definition reg_wide_to_ascii (src : option (list Z)) (limit : Z) : list Z * bool :=
  match src with None => ([], true) | Some src => narrow (Z.to_nat (limit - 1)) src end.

Definition reg_ascii_to_wide (src : list Z) (limit : Z) : list Z := take (Z.to_nat (limit - 1)) src.

Definition reg_root_name (root : HKEY) : list Z :=
  match root with
  | HKEY_CURRENT_USER => cstr "HKCU"
  | HKEY_USERS => cstr "HKU"
  | HKEY_CLASSES_ROOT => cstr "HKCR"
  | _ => cstr "HKLM"
  end.

Definition backslash : Z := 92.

Definition reg_path_from (root : HKEY) (subkey : list Z) : option (list Z) :=
  let name := reg_root_name root in
  match subkey with
  | [] => Some name
  | _ =>
      let path := name ++ backslash :: map (fun c => if c =? 47 then backslash else c) subkey in
      if Z.of_nat (length path) <? REG_MAX_PATH then Some path else None
  end.

(** [count] bytes of two NUL-terminated strings. *)
Definition reg_prefix_equal (a b : list Z) (count : nat) : bool := forallb (fun i => char_at a i =? char_at b i) (seq 0 count).
Definition reg_has_separator_after (text : list Z) : bool := existsb (fun c => c =? backslash) text.

(** ** Keys *)
Definition key_entry (r : registry) (i : Z) : REG_KEY := get no_key (registry_keys r) i.
Definition value_entry (r : registry) (i : Z) : REG_VALUE := get no_value (registry_values r) i.

Definition reg_find_key (r : registry) (path : list Z) : option Z :=
  first_from 128 0 (fun i => k_used (key_entry r i) && reg_ascii_equal (k_path (key_entry r i)) path).

Definition reg_make_key (root : HKEY) (path : list Z) : reg (option Z) :=
  found ← reads (fun r => reg_find_key r path);
  match found with
  | Some i => mret (Some i)
  | None =>
      slot ← reads (fun r => first_from 128 0 (fun i => negb (k_used (key_entry r i))));
      match slot with
      | None => mret None
      | Some i => path ← fit REG_MAX_PATH path; change (fun r => put_key r i (mkKey true root path));; mret (Some i)
      end
  end.

(** ** Values *)
Definition reg_find_value (r : registry) (key : Z) (name : list Z) : option Z :=
  first_from 256 0 (fun i => v_used (value_entry r i) && (v_key (value_entry r i) =? key) && reg_ascii_equal (v_name (value_entry r i)) name).

(** The value, or a free entry that becomes it. *)
Definition claim_value (key : Z) (name : list Z) : reg (option Z) :=
  found ← reads (fun r => reg_find_value r key name);
  match found with
  | Some i => mret (Some i)
  | None =>
      slot ← reads (fun r => first_from 256 0 (fun i => negb (v_used (value_entry r i))));
      match slot with
      | None => mret None
      | Some i =>
          name ← fit REG_MAX_NAME name;
          change (fun r => let v := value_entry r i in put_value r i (mkValue true key name (v_type v) (v_size v) (v_data v)));; mret (Some i)
      end
  end.

(** [type], [size] and the first bytes of the data. *)
Definition store_value (i type size : Z) (bytes : list Z) : reg unit :=
  change (fun r => let v := value_entry r i in
    put_value r i (mkValue (v_used v) (v_key v) (v_name v) type size (bytes ++ drop (length bytes) (v_data v)))).

Definition dword_bytes (v : Z) : list Z := [u8 v; u8 (Z.shiftr v 8); u8 (Z.shiftr v 16); u8 (Z.shiftr v 24)].

Definition seed_dword (key : Z) (name : list Z) (v : Z) : reg unit :=
  slot ← claim_value key name;
  match slot with None => mret tt | Some i => store_value i REG_DWORD 4 (dword_bytes v) end.

Definition services_path : list Z := cstr "HKLM\SYSTEM\CurrentControlSet\Services\".

Definition registry_seed_service (name : list Z) (type start : Z) : reg unit :=
  path ← fit REG_MAX_PATH (services_path ++ name);
  key ← reg_make_key HKEY_LOCAL_MACHINE path;
  match key with
  | None => mret tt
  | Some key => seed_dword key (cstr "Type") type;; seed_dword key (cstr "Start") start
  end.

Definition registry_seed_services : reg unit :=
  reg_make_key HKEY_LOCAL_MACHINE (cstr "HKLM\SYSTEM");;
  reg_make_key HKEY_LOCAL_MACHINE (cstr "HKLM\SYSTEM\CurrentControlSet");;
  reg_make_key HKEY_LOCAL_MACHINE (cstr "HKLM\SYSTEM\CurrentControlSet\Services");;
  registry_seed_service (cstr "Serial") 1 0;;
  registry_seed_service (cstr "Vga") 1 1;;
  registry_seed_service (cstr "Keyboard") 1 1;;
  registry_seed_service (cstr "Framebuffer") 1 1;;
  registry_seed_service (cstr "Mouse") 1 1;;
  registry_seed_service (cstr "Net") 1 2;;
  registry_seed_service (cstr "AC97") 1 1;;
  registry_seed_service (cstr "HDA") 1 1;;
  registry_seed_service (cstr "ES1371") 1 1;;
  registry_seed_service (cstr "SB16") 1 1.

Definition registry_init : reg unit :=
  done ← reads registry_initialized;
  if done : bool then mret tt else
  change (fun r => mkRegistry (registry_keys r) (registry_values r) true (service_records r) (service_count r));;
  reg_make_key HKEY_LOCAL_MACHINE (cstr "HKLM");;
  reg_make_key HKEY_CURRENT_USER (cstr "HKCU");;
  reg_make_key HKEY_USERS (cstr "HKU");;
  reg_make_key HKEY_CLASSES_ROOT (cstr "HKCR");;
  registry_seed_services.

(** The key a non-null handle leads to. *)
Definition key_at (h : HKEY) : reg REG_KEY :=
  match h with
  | KeyAt i => if (0 <=? i) && (i <? REG_MAX_KEYS) then reads (fun r => key_entry r i) else undefined
  | _ => undefined
  end.

(** The full path of [subkey] under a handle, or an error. *)
Definition key_path (h : HKEY) (subkey : list Z) : reg (Z + list Z) :=
  match h with
  | KeyAt _ =>
      parent ← key_at h;
      if negb (k_used parent) then mret (inl ERROR_INVALID_HANDLE) else
      path ← fit REG_MAX_PATH (match subkey with [] => k_path parent | _ => k_path parent ++ backslash :: subkey end);
      mret (inr path)
  | _ => mret (match reg_path_from h subkey with Some path => inr path | None => inl ERROR_INVALID_PARAMETER end)
  end.

Definition handle_of (k : option Z) : HKEY := match k with Some i => KeyAt i | None => HNull end.

(** [res]: whether [phkResult] is given. *)
Definition RegOpenKeyExW (hKey : HKEY) (lpSubKey : option (list Z)) (res : bool) : reg (Z * option HKEY) :=
  registry_init;;
  let '(subkey, all) := reg_wide_to_ascii lpSubKey REG_MAX_PATH in
  if negb res || negb all then mret (ERROR_INVALID_PARAMETER, None) else
  p ← key_path hKey subkey;
  match p with
  | inl e => mret (e, None)
  | inr path =>
      k ← reads (fun r => reg_find_key r path);
      mret (match k with Some _ => ERROR_SUCCESS | None => ERROR_FILE_NOT_FOUND end, Some (handle_of k))
  end.

Definition RegOpenKeyW (hKey : HKEY) (lpSubKey : option (list Z)) (res : bool) : reg (Z * option HKEY) := RegOpenKeyExW hKey lpSubKey res.

(** The error, the key and the disposition. *)
Definition RegCreateKeyExW (hKey : HKEY) (lpSubKey : option (list Z)) (res : bool) : reg (Z * option HKEY * option Z) :=
  registry_init;;
  let '(subkey, all) := reg_wide_to_ascii lpSubKey REG_MAX_PATH in
  if negb res || negb all then mret (ERROR_INVALID_PARAMETER, None, None) else
  p ← key_path hKey subkey;
  match p with
  | inl e => mret (e, None, None)
  | inr path =>
      k ← reads (fun r => reg_find_key r path);
      let disposition := match k with Some _ => REG_OPENED_EXISTING_KEY | None => REG_CREATED_NEW_KEY end in
      k ← (match k with Some i => mret (Some i) | None => reg_make_key hKey path end);
      match k with
      | None => mret (ERROR_OUTOFMEMORY, None, Some disposition)
      | Some i => mret (ERROR_SUCCESS, Some (KeyAt i), Some disposition)
      end
  end.

Definition RegCreateKeyW (hKey : HKEY) (name : option (list Z)) (res : bool) : reg (Z * option HKEY) :=
  '(e, h, _) ← RegCreateKeyExW hKey name res; mret (e, h).

Definition RegCloseKey (hKey : HKEY) : reg Z := mret ERROR_SUCCESS.
Definition RegFlushKey (hKey : HKEY) : reg Z := registry_init;; mret ERROR_SUCCESS.

(** The index of the entry a handle is the address of, when it is in use. *)
Definition used_key (h : HKEY) : reg (option Z) :=
  match h with
  | HNull => mret None
  | KeyAt i => k ← key_at h; mret (if k_used k then Some i else None)
  | _ => undefined
  end.

(** What a query stores: type, data and size. *)
Record QUERY := mkQuery { q_type : option Z; q_data : option (list Z); q_size : option Z }.
Definition no_query : QUERY := mkQuery None None None.

(** [typed]: [lpType] is given; [room]: [lpData] is given; [cb]: [*lpcbData]. *)
Definition RegQueryValueExW (hKey : HKEY) (lpValueName : option (list Z)) (typed room : bool) (cb : option Z) : reg (Z * QUERY) :=
  registry_init;;
  k ← used_key hKey;
  match k, cb with
  | Some key, Some cb =>
      let '(name, all) := reg_wide_to_ascii lpValueName REG_MAX_NAME in
      if negb all then mret (ERROR_INVALID_PARAMETER, no_query) else
      found ← reads (fun r => reg_find_value r key name);
      match found with
      | None => mret (ERROR_FILE_NOT_FOUND, no_query)
      | Some i =>
          v ← reads (fun r => value_entry r i);
          let ty := if typed then Some (v_type v) else None in
          mret (if negb room then (ERROR_SUCCESS, mkQuery ty None (Some (v_size v)))
                else if cb <? v_size v then (ERROR_MORE_DATA, mkQuery ty None (Some (v_size v)))
                else (ERROR_SUCCESS, mkQuery ty (Some (take (Z.to_nat (v_size v)) (v_data v))) (Some (v_size v))))
      end
  | _, _ => mret (ERROR_INVALID_PARAMETER, no_query)
  end.

(** [cbData] bytes of the caller's buffer, if there is one. *)
Definition source_bytes (lpData : option (list Z)) (cbData : Z) : reg (list Z) :=
  match lpData with
  | Some d => if cbData =? 0 then mret [] else if cbData <=? Z.of_nat (length d) then mret (take (Z.to_nat cbData) d) else undefined
  | None => mret []
  end.

Definition RegSetValueExW (hKey : HKEY) (lpValueName : option (list Z)) (dwType : Z) (lpData : option (list Z)) (cbData : Z) : reg Z :=
  registry_init;;
  k ← used_key hKey;
  match k with
  | None => mret ERROR_INVALID_PARAMETER
  | Some key =>
      let '(name, all) := reg_wide_to_ascii lpValueName REG_MAX_NAME in
      if (REG_MAX_DATA <? cbData) || negb all then mret ERROR_INVALID_PARAMETER else
      slot ← claim_value key name;
      match slot with
      | None => mret ERROR_OUTOFMEMORY
      | Some i => bytes ← source_bytes lpData cbData; store_value i dwType cbData bytes;; mret ERROR_SUCCESS
      end
  end.

Definition RegSetValueExA (key : HKEY) (name : option (list Z)) (type : Z) (data : option (list Z)) (bytes : Z) : reg Z :=
  match name with
  | None => mret ERROR_INVALID_PARAMETER
  | Some name => RegSetValueExW key (Some (take (Z.to_nat (REG_MAX_NAME - 1)) name)) type data bytes
  end.

Definition RegGetValueW (key : HKEY) (subkey value : option (list Z)) (typed room : bool) (bytes : option Z) : reg (Z * QUERY) :=
  match subkey with
  | Some (_ :: _) =>
      '(e, opened) ← RegOpenKeyW key subkey true;
      if negb (e =? 0) then mret (e, no_query) else
      match opened with Some h => RegQueryValueExW h value typed room bytes | None => undefined end
  | _ => RegQueryValueExW key value typed room bytes
  end.

(** Neither initialises the registry nor asks whether the key is in use. *)
Definition RegDeleteValueW (hKey : HKEY) (valueName : option (list Z)) : reg Z :=
  let '(name, all) := reg_wide_to_ascii valueName REG_MAX_NAME in
  if bool_decide (hKey = HNull) || negb all then mret ERROR_INVALID_PARAMETER else
  found ← reads (fun r => match hKey with KeyAt i => reg_find_value r i name | _ => None end);
  match found with
  | None => mret ERROR_FILE_NOT_FOUND
  | Some i =>
      change (fun r => let v := value_entry r i in put_value r i (mkValue false (v_key v) (v_name v) (v_type v) (v_size v) (v_data v)));;
      mret ERROR_SUCCESS
  end.

(** ** Enumeration *)

(** The entries of the table that are children of a key. *)
Definition is_child (r : registry) (k : REG_KEY) (i : Z) : bool :=
  let p := k_path (key_entry r i) in
  let n := length (k_path k) in
  k_used (key_entry r i) && bool_decide (k_root (key_entry r i) = k_root k) && reg_prefix_equal p (k_path k) n &&
  (char_at p n =? backslash) && negb (reg_has_separator_after (drop (S n) p)).

Definition is_value (r : registry) (key i : Z) : bool := v_used (value_entry r i) && (v_key (value_entry r i) =? key).

(** Subkeys, values, longest name, longest data. *)
Record INFO := mkInfo { i_subkeys : Z; i_values : Z; i_name : Z; i_data : Z }.

Definition RegQueryInfoKeyW (hKey : HKEY) : reg (Z * option INFO) :=
  key ← used_key hKey;
  match key with
  | None => mret (ERROR_INVALID_HANDLE, None)
  | Some key => reads (fun r =>
      let count := for_range 0 REG_MAX_KEYS (fun i n => if is_child r (key_entry r key) i then n + 1 else n) 0 in
      let widest (f : REG_VALUE -> Z) := for_range 0 REG_MAX_VALUES (fun i n => if is_value r key i then Z.max n (f (value_entry r i)) else n) 0 in
      let values := for_range 0 REG_MAX_VALUES (fun i n => if is_value r key i then n + 1 else n) 0 in
      (ERROR_SUCCESS, Some (mkInfo count values (widest (fun v => Z.of_nat (length (v_name v)))) (widest v_size))))
  end.

(** The entry number [index] among those that [test] selects. *)
Fixpoint nth_from (n : nat) (i : Z) (test : Z -> bool) (index : Z) : option Z :=
  match n with
  | O => None
  | S n => if test i then if index =? 0 then Some i else nth_from n (i + 1) test (index - 1) else nth_from n (i + 1) test index
  end.

(** What an enumeration stores. *)
Record ENTRY := mkEntry { e_name : option (list Z); e_namelen : option Z; e_type : option Z; e_data : option (list Z); e_datalen : option Z }.
Definition no_entry : ENTRY := mkEntry None None None None None.

Definition RegEnumValueW (hKey : HKEY) (index : Z) (named : bool) (nameLen : option Z) (typed room : bool) (dataLen : option Z) : reg (Z * ENTRY) :=
  k ← used_key hKey;
  match k, nameLen with
  | Some key, Some len => reads (fun r =>
      match nth_from 256 0 (is_value r key) index with
      | None => (ERROR_NO_MORE_ITEMS, no_entry)
      | Some i =>
          let v := value_entry r i in
          let needed := Z.of_nat (length (v_name v)) in
          if len <=? needed then (ERROR_MORE_DATA, mkEntry None (Some needed) None None None) else
          let nm := if named then Some (reg_ascii_to_wide (v_name v) len) else None in
          let ty := if typed then Some (v_type v) else None in
          match dataLen with
          | None => (ERROR_SUCCESS, mkEntry nm (Some needed) ty None None)
          | Some d =>
              if negb room || (d <? v_size v)
              then (if room then ERROR_MORE_DATA else ERROR_SUCCESS, mkEntry nm (Some needed) ty None (Some (v_size v)))
              else (ERROR_SUCCESS, mkEntry nm (Some needed) ty (Some (take (Z.to_nat (v_size v)) (v_data v))) (Some (v_size v)))
          end
      end)
  | _, _ => mret (ERROR_INVALID_PARAMETER, no_entry)
  end.

Definition RegEnumKeyExW (hKey : HKEY) (index : Z) (named : bool) (nameLen : option Z) : reg (Z * ENTRY) :=
  k ← used_key hKey;
  match k, nameLen with
  | Some key, Some len =>
      if negb named then mret (ERROR_INVALID_PARAMETER, no_entry) else
      reads (fun r =>
        match nth_from 128 0 (is_child r (key_entry r key)) index with
        | None => (ERROR_NO_MORE_ITEMS, no_entry)
        | Some i =>
            let child := drop (S (length (k_path (key_entry r key)))) (k_path (key_entry r i)) in
            let n := Z.of_nat (length child) in
            if len <=? n then (ERROR_MORE_DATA, mkEntry None (Some n) None None None)
            else (ERROR_SUCCESS, mkEntry (Some (reg_ascii_to_wide child len)) (Some n) None None None)
        end)
  | _, _ => mret (ERROR_INVALID_PARAMETER, no_entry)
  end.

(** ** Services *)
Definition service_entry (r : registry) (i : Z) : SC_SERVICE_RECORD := get no_record (service_records r) i.
Definition unit_at (s : list Z) : Z := match s with [] => 0 | c :: _ => c end.

(** The units of a record's name against those of a name, 63 at most, and the
    ones where the comparison stops. *)
Fixpoint same_name (n : nat) (a b : list Z) : bool :=
  match n, a, b with
  | S n, x :: a', y :: b' => if x =? y then same_name n a' b' else false
  | _, _, _ => unit_at a =? unit_at b
  end.

Definition find_service (r : registry) (name : option (list Z)) : option Z :=
  match name with
  | None => None
  | Some name => first_from (Z.to_nat (service_count r)) 0 (fun i => same_name 63 (s_name (service_entry r i)) name)
  end.

Definition service_ascii_to_wide (src : list Z) (limit : Z) : list Z := take (Z.to_nat (limit - 1)) src.

Definition service_registry_set_dword (key : HKEY) (name : list Z) (value : Z) : reg unit :=
  RegSetValueExW key (Some (service_ascii_to_wide name 64)) REG_DWORD (Some (dword_bytes value)) 4;; mret tt.

(** The bytes of a wide string with its NUL. *)
Definition wide_bytes (s : list Z) : list Z := concat (map (fun c => [u8 c; u8 (Z.shiftr c 8)]) s) ++ [0; 0].

Definition service_registry_set_string (key : HKEY) (name : list Z) (value : option (list Z)) : reg unit :=
  match value with
  | None => mret tt
  | Some value =>
      RegSetValueExW key (Some (service_ascii_to_wide name 64)) REG_SZ (Some (wide_bytes value)) (2 * Z.of_nat (length value) + 2);; mret tt
  end.

Definition service_registry_store (name : list Z) (display : option (list Z)) (type start error : Z) (binary depend : option (list Z)) : reg unit :=
  let path := take 255 (cstr "SYSTEM\CurrentControlSet\Services\" ++ name) in
  '(e, h, _) ← RegCreateKeyExW HKEY_LOCAL_MACHINE (Some path) true;
  if negb (e =? 0) then mret tt else
  match h with
  | None => undefined
  | Some key =>
      service_registry_set_dword key (cstr "Type") type;;
      service_registry_set_dword key (cstr "Start") start;;
      service_registry_set_dword key (cstr "ErrorControl") error;;
      service_registry_set_string key (cstr "DisplayName") display;;
      service_registry_set_string key (cstr "ImagePath") binary;;
      match depend with Some d => service_registry_set_string key (cstr "DependOnService") (Some d) | None => mret tt end
  end.

Definition OpenSCManagerW : reg SC_HANDLE := mret ScManager.
Definition sc_handle (i : option Z) : SC_HANDLE := match i with Some i => ScRecord i | None => ScNull end.
Definition OpenServiceW (name : option (list Z)) : reg SC_HANDLE := reads (fun r => sc_handle (find_service r name)).

Definition CreateServiceW (name display : option (list Z)) (type start error : Z) (binary depend : option (list Z)) : reg SC_HANDLE :=
  full ← reads (fun r => (32 <=? service_count r) || bool_decide (is_Some (find_service r name)));
  match name with
  | None => mret ScNull
  | Some nm =>
      if full : bool then mret ScNull else
      i ← reads service_count;
      change (fun r =>
        let s := s_status (service_entry r i) in
        let s := mkStatus type SERVICE_STOPPED (dwControlsAccepted s) error (dwServiceSpecificExitCode s) (dwCheckPoint s) (dwWaitHint s) in
        mkRegistry (registry_keys r) (registry_values r) (registry_initialized r)
          (put (service_records r) i (mkRecord (take 63 nm) s true)) (service_count r + 1));;
      service_registry_store nm display type start error binary depend;;
      mret (ScRecord i)
  end.

(** The record of a handle, if it is in use. *)
Definition record_of (h : SC_HANDLE) : reg (option (Z * SC_SERVICE_RECORD)) :=
  match h with
  | ScNull => mret None
  | ScManager => undefined
  | ScRecord i =>
      if (0 <=? i) && (i <? 32) then s ← reads (fun r => service_entry r i); mret (if s_used s then Some (i, s) else None) else undefined
  end.

Definition service_in_state (s : SC_SERVICE_RECORD) (c : Z) : SC_SERVICE_RECORD :=
  let t := s_status s in
  mkRecord (s_name s) (mkStatus (dwServiceType t) c (dwControlsAccepted t) (dwWin32ExitCode t) (dwServiceSpecificExitCode t) (dwCheckPoint t) (dwWaitHint t)) (s_used s).

Definition CloseServiceHandle (service : SC_HANDLE) : reg bool := mret true.

Definition DeleteService (service : SC_HANDLE) : reg bool :=
  r ← record_of service;
  match r with
  | None => mret false
  | Some (i, s) => change (fun r => put_record r i (mkRecord (s_name s) (s_status s) false));; mret true
  end.

Definition StartServiceW (service : SC_HANDLE) : reg bool :=
  r ← record_of service;
  match r with
  | None => mret false
  | Some (i, s) => change (fun r => put_record r i (service_in_state s SERVICE_RUNNING));; mret true
  end.

Definition ControlService (service : SC_HANDLE) (control : Z) : reg (bool * option SERVICE_STATUS) :=
  r ← record_of service;
  match r with
  | None => mret (false, None)
  | Some (i, s) =>
      let s := if control =? SERVICE_CONTROL_STOP then service_in_state s SERVICE_STOPPED else s in
      change (fun r => put_record r i s);; mret (true, Some (s_status s))
  end.

Definition QueryServiceStatus (service : SC_HANDLE) (status : bool) : reg (bool * option SERVICE_STATUS) :=
  r ← record_of service;
  mret (match r with Some (_, s) => if status then (true, Some (s_status s)) else (false, None) | None => (false, None) end).

(** ** The user

    The result, what is stored in the buffer and what in the size. *)
Definition GetUserNameW (room : bool) (cb : option Z) : bool * option (list Z) * option Z :=
  let name := cstr "Administrator" ++ [0] in
  let need := Z.of_nat (length name) in
  match cb with
  | None => (false, None, None)
  | Some cb => if negb room || (cb <? need) then (false, None, Some need) else (true, Some name, Some (need - 1))
  end.

End Registry.
