(* ===== verification/RegistrySpec.v ===== *)
(** * What the registry keeps

    Keys and values are found by name up to the case of letters, each name at
    most once; the functions refine a map from paths to maps from value names to
    values ([registry_refines]); enumeration lists each value once; and every
    reachable state is well formed. *)

From stdpp Require Import base list numbers gmap strings.
From Stdlib Require Import ZArith Lia.
From S2P Require Import Prelude.
From S2P Require Import Registry.
Import Registry.

Module RegistrySpec.

(** ** Names up to case *)
Definition folded (s : list Z) : list Z := map upper_ascii s.

Lemma ascii_equal_iff a b : reg_ascii_equal a b = true <-> folded a = folded b.
Proof.
  unfold folded. revert b. induction a as [|x a IH]; intros [|y b]; cbn [reg_ascii_equal map]; try done. destruct (Z.eqb_spec (upper_ascii x) (upper_ascii y)) as [E|E].
  - rewrite IH, E. split; [by intros -> | by intros [=]].
  - split; [done | by intros [=]].
Qed.

Definition ascii (s : list Z) : list Z := map (fun c => if c <? 128 then c else 63) s.

Lemma narrow_fits n s : (length s <= n)%nat -> narrow n s = (ascii s, true).
Proof. revert n. induction s as [|c s IH]; intros [|n] Hn; cbn in *; try done; try lia. by rewrite IH by lia. Qed.

Lemma narrow_long n s : (n < length s)%nat -> (narrow n s).2 = false.
Proof.
  revert n. induction s as [|c s IH]; intros [|n] Hn; cbn in *; try done; try lia. specialize (IH n ltac:(lia)). by destruct (narrow n s).
Qed.

Lemma narrow_length n s : (length (narrow n s).1 <= n)%nat.
Proof. revert n. induction s as [|c s IH]; intros [|n]; cbn; try lia. specialize (IH n). destruct (narrow n s). cbn in *. lia. Qed.

(** ** Well-formed registries *)
Definition key_index (i : Z) : Prop := 0 <= i < REG_MAX_KEYS.
Definition value_index (i : Z) : Prop := 0 <= i < REG_MAX_VALUES.

(** The key at [i] is in use under a name; the value at [j] is in use under a key and
    a name. *)
Definition key_is (r : registry) (i : Z) (p : list Z) : Prop := key_index i /\ k_used (key_entry r i) = true /\ folded (k_path (key_entry r i)) = p.
Definition value_is (r : registry) (j i : Z) (n : list Z) : Prop :=
  value_index j /\ v_used (value_entry r j) = true /\ v_key (value_entry r j) = i /\ folded (v_name (value_entry r j)) = n.

Record inv (r : registry) : Prop := {
  in_keys : length (registry_keys r) = 128%nat;
  in_values : length (registry_values r) = 256%nat;
  in_path : forall i p, key_is r i p -> Z.of_nat (length (k_path (key_entry r i))) < REG_MAX_PATH;
  in_keys_once : forall i j p, key_is r i p -> key_is r j p -> i = j;
  in_value : forall j i n, value_is r j i n ->
    (exists p, key_is r i p) /\ Z.of_nat (length (v_name (value_entry r j))) < REG_MAX_NAME;
  in_values_once : forall j j' i n, value_is r j i n -> value_is r j' i n -> j = j';
  in_data : forall j, value_index j -> length (v_data (value_entry r j)) = 1024%nat /\ 0 <= v_size (value_entry r j) <= REG_MAX_DATA;
  in_services : length (service_records r) = 32%nat /\ 0 <= service_count r <= 32
}.

Lemma find_key_iff r path i : inv r -> reg_find_key r path = Some i <-> key_is r i (folded path).
Proof.
  intros Hr. unfold reg_find_key. rewrite first_from_Some, andb_true_iff, ascii_equal_iff. unfold key_is, key_index, REG_MAX_KEYS. split.
  - intros (? & [? ?] & _). split; [lia|done].
  - intros (Hi & Hu & Hp). split; [lia|]. split; [done|]. intros j Hj. apply not_true_iff_false. rewrite andb_true_iff, ascii_equal_iff. intros [Ju Jp].
    assert (j = i) by (apply (in_keys_once r Hr j i (folded path)); unfold key_is, key_index, REG_MAX_KEYS; repeat split; lia || done). lia.
Qed.

Lemma find_key_none r path : inv r -> reg_find_key r path = None <-> forall i, ~ key_is r i (folded path).
Proof.
  intros Hr. setoid_rewrite <- (find_key_iff r path _ Hr). rewrite eq_None_not_Some. split; [|intros Hn [i Hi]; by apply (Hn i)].
  intros Hn i Hi. apply Hn. by exists i.
Qed.

Lemma find_value_iff r key name j : inv r -> reg_find_value r key name = Some j <-> value_is r j key (folded name).
Proof.
  intros Hr. unfold reg_find_value. rewrite first_from_Some, !andb_true_iff, ascii_equal_iff, Z.eqb_eq. unfold value_is, value_index, REG_MAX_VALUES. split.
  - intros (? & [[? ?] ?] & _). split; [lia|done].
  - intros (Hi & Hu & Hk & Hp). split; [lia|]. split; [done|]. intros l Hl. apply not_true_iff_false. rewrite !andb_true_iff, ascii_equal_iff, Z.eqb_eq. intros [[Ju Jk] Jp].
    assert (l = j) by (apply (in_values_once r Hr l j key (folded name)); unfold value_is, value_index, REG_MAX_VALUES; repeat split; lia || done). lia.
Qed.

Lemma find_value_none r key name : inv r -> reg_find_value r key name = None <-> forall j, ~ value_is r j key (folded name).
Proof.
  intros Hr. setoid_rewrite <- (find_value_iff r key name _ Hr). rewrite eq_None_not_Some. split; [|intros Hn [i Hi]; by apply (Hn i)].
  intros Hn i Hi. apply Hn. by exists i.
Qed.

(** ** Writing an entry *)
Lemma key_entry_put r i k j : length (registry_keys r) = 128%nat -> key_index i -> 0 <= j -> key_entry (put_key r i k) j = if j =? i then k else key_entry r j.
Proof. intros Hl Hi Hj. apply get_put; [unfold key_index, REG_MAX_KEYS in Hi; lia | done]. Qed.

Lemma value_entry_put r i v j : length (registry_values r) = 256%nat -> value_index i -> 0 <= j -> value_entry (put_value r i v) j = if j =? i then v else value_entry r j.
Proof. intros Hl Hi Hj. apply get_put; [unfold value_index, REG_MAX_VALUES in Hi; lia | done]. Qed.

Lemma key_is_put r i k j p : length (registry_keys r) = 128%nat -> key_index i ->
  key_is (put_key r i k) j p <-> if decide (j = i) then k_used k = true /\ folded (k_path k) = p else key_is r j p.
Proof.
  intros Hl Hi. unfold key_is. destruct (decide (j = i)) as [->|Hne].
  - rewrite key_entry_put, Z.eqb_refl by (done || apply Hi). tauto.
  - split; intros (Hj & Hu & Hp); (split; [done|]); rewrite key_entry_put in * by (done || apply Hj); by rewrite (proj2 (Z.eqb_neq _ _) Hne) in *.
Qed.

Lemma value_is_put r i v j k n : length (registry_values r) = 256%nat -> value_index i ->
  value_is (put_value r i v) j k n <-> if decide (j = i) then v_used v = true /\ v_key v = k /\ folded (v_name v) = n else value_is r j k n.
Proof.
  intros Hl Hi. unfold value_is. destruct (decide (j = i)) as [->|Hne].
  - rewrite value_entry_put, Z.eqb_refl by (done || apply Hi). tauto.
  - split; intros (Hj & Hu); (split; [done|]); rewrite value_entry_put in * by (done || apply Hj); by rewrite (proj2 (Z.eqb_neq _ _) Hne) in *.
Qed.

(** A new key in a free entry. *)
Lemma new_key_is r i root path j p : inv r -> key_index i -> k_used (key_entry r i) = false ->
  key_is (put_key r i (mkKey true root path)) j p <-> key_is r j p \/ j = i /\ p = folded path.
Proof.
  intros Hr Hi Hu. rewrite key_is_put by (done || apply Hr). destruct (decide (j = i)) as [->|Hne]; [|tauto]. cbn. split.
  - intros [_ <-]. by right.
  - intros [(_ & Hu' & _)|[_ ->]]; [congruence|done].
Qed.

Lemma inv_new_key r i root path :
  inv r -> key_index i -> k_used (key_entry r i) = false -> (forall j, ~ key_is r j (folded path)) -> Z.of_nat (length path) < REG_MAX_PATH ->
  inv (put_key r i (mkKey true root path)).
Proof.
  intros Hr Hi Hu Hno Hl. pose proof (fun j p => new_key_is r i root path j p Hr Hi Hu) as Hk. pose proof Hr as [H1 H2 H3 H4 H5 H6 H7 H8].
  split; try done.
  - cbn. by rewrite length_put.
  - intros j p Hj. rewrite key_entry_put by (done || apply Hj). destruct (Z.eqb_spec j i) as [->|Hne]; [done|]. apply (H3 j p). apply Hk in Hj as [|[-> _]]; done.
  - intros j j' p [Hj|[-> ->]]%Hk [Hj'|[-> E]]%Hk; [by apply (H4 j j' p)| | |done]; [subst p; by apply Hno in Hj | by apply Hno in Hj'].
  - intros j k n Hv. destruct (H5 j k n Hv) as ((p & Hp) & Hrest). split; [|done]. exists p. apply Hk. by left.
Qed.

(** A value that takes a free entry. *)
Lemma new_value_is r i v j k n : inv r -> value_index i -> v_used (value_entry r i) = false -> v_used v = true ->
  value_is (put_value r i v) j k n <-> value_is r j k n \/ j = i /\ k = v_key v /\ n = folded (v_name v).
Proof.
  intros Hr Hi Hu Hv. rewrite value_is_put by (done || apply Hr). destruct (decide (j = i)) as [->|Hne]; [|tauto]. split.
  - intros (_ & <- & <-). by right.
  - intros [(_ & Hu' & _)|(_ & -> & ->)]; [congruence|done].
Qed.

Lemma inv_new_value r i v :
  inv r -> value_index i -> v_used (value_entry r i) = false -> v_used v = true -> (forall j, ~ value_is r j (v_key v) (folded (v_name v))) ->
  (exists p, key_is r (v_key v) p) -> Z.of_nat (length (v_name v)) < REG_MAX_NAME -> 0 <= v_size v <= REG_MAX_DATA -> length (v_data v) = 1024%nat ->
  inv (put_value r i v).
Proof.
  intros Hr Hi Hu Hv Hno Hkey Hn Hs Hd. pose proof (fun j k n => new_value_is r i v j k n Hr Hi Hu Hv) as Hk. pose proof Hr as [H1 H2 H3 H4 H5 H6 H7 H8].
  split; try done.
  - cbn. by rewrite length_put.
  - intros j k n Hj. rewrite value_entry_put by (done || apply Hj). destruct (Z.eqb_spec j i) as [->|Hne].
    + destruct Hj as (_ & _ & E & _). rewrite value_entry_put, Z.eqb_refl in E by (done || apply Hi). subst k. done.
    + apply Hk in Hj as [Hj|[-> _]]; [by apply (H5 j k n) | done].
  - intros j j' k n [Hj|(-> & -> & ->)]%Hk [Hj'|(-> & E1 & E2)]%Hk; [by apply (H6 j j' k n)| | |done]; [subst; by apply Hno in Hj | by apply Hno in Hj'].
  - intros j Hj. rewrite value_entry_put by (done || apply Hj). destruct (Z.eqb_spec j i); [done | by apply H7].
Qed.

(** A change of what a value holds, or its removal. *)
Lemma inv_change_value r i v :
  inv r -> value_index i -> (v_used v = true -> v_used (value_entry r i) = true) -> v_key v = v_key (value_entry r i) -> v_name v = v_name (value_entry r i) ->
  0 <= v_size v <= REG_MAX_DATA -> length (v_data v) = 1024%nat -> inv (put_value r i v).
Proof.
  intros Hr Hi Hu Ek En Hs Hd. pose proof Hr as [H1 H2 H3 H4 H5 H6 H7 H8].
  assert (Hk : forall j k n, value_is (put_value r i v) j k n -> value_is r j k n).
  { intros j k n Hj. apply value_is_put in Hj; [|done..]. destruct (decide (j = i)) as [->|]; [|done]. destruct Hj as (Hj & <- & <-). repeat split; try apply Hi; try done. by apply Hu. by rewrite En. }
  split; try done.
  - cbn. by rewrite length_put.
  - intros j k n Hj. pose proof (H5 j k n (Hk j k n Hj)) as (Hp & Hn). split; [done|]. rewrite value_entry_put by (done || apply Hj).
    destruct (Z.eqb_spec j i) as [->|Hne]; [|done]. by rewrite En.
  - intros j j' k n Hj Hj'. apply (H6 j j' k n); by apply Hk.
  - intros j Hj. rewrite value_entry_put by (done || apply Hj). destruct (Z.eqb_spec j i); [done | by apply H7].
Qed.

(** ** Running *)
Lemma reg_step {A B} (f : reg A) (k : A -> reg B) r x r1 : f r = Some (x, r1) -> (f ≫= k) r = k x r1.
Proof. intros E. unfold mbind, reg_bind. by rewrite E. Qed.

Lemma reads_step {A B} (f : registry -> A) (k : A -> reg B) r : (reads f ≫= k) r = k (f r) r.
Proof. done. Qed.

Lemma fit_step {A} cap s (k : list Z -> reg A) r : Z.of_nat (length s) < cap -> (fit cap s ≫= k) r = k s r.
Proof. intros Hl. unfold fit. by rewrite (proj2 (Z.ltb_lt _ _) Hl). Qed.

Definition free_key (r : registry) : option Z := first_from 128 0 (fun i => negb (k_used (key_entry r i))).
Definition free_value (r : registry) : option Z := first_from 256 0 (fun i => negb (v_used (value_entry r i))).

Lemma free_key_unused r i : free_key r = Some i -> key_index i /\ k_used (key_entry r i) = false.
Proof. unfold free_key. rewrite first_from_Some, negb_true_iff. unfold key_index, REG_MAX_KEYS. intros (? & ? & _). split; [lia|done]. Qed.
Lemma free_value_unused r i : free_value r = Some i -> value_index i /\ v_used (value_entry r i) = false.
Proof. unfold free_value. rewrite first_from_Some, negb_true_iff. unfold value_index, REG_MAX_VALUES. intros (? & ? & _). split; [lia|done]. Qed.

Lemma make_key_runs root path r : Z.of_nat (length path) < REG_MAX_PATH ->
  reg_make_key root path r = Some (match reg_find_key r path with
    | Some i => (Some i, r)
    | None => match free_key r with Some i => (Some i, put_key r i (mkKey true root path)) | None => (None, r) end
    end).
Proof.
  intros Hl. unfold reg_make_key. rewrite reads_step. destruct (reg_find_key r path); [done|]. rewrite reads_step. fold (free_key r).
  destruct (free_key r); [|done]. by rewrite fit_step.
Qed.

Definition claimed (r : registry) (i key : Z) (name : list Z) : registry :=
  let v := value_entry r i in put_value r i (mkValue true key name (v_type v) (v_size v) (v_data v)).

Lemma claim_value_runs key name r : Z.of_nat (length name) < REG_MAX_NAME ->
  claim_value key name r = Some (match reg_find_value r key name with
    | Some i => (Some i, r)
    | None => match free_value r with Some i => (Some i, claimed r i key name) | None => (None, r) end
    end).
Proof.
  intros Hl. unfold claim_value. rewrite reads_step. destruct (reg_find_value r key name); [done|]. rewrite reads_step. fold (free_value r).
  destruct (free_value r); [|done]. by rewrite fit_step.
Qed.

Lemma init_done r : registry_initialized r = true -> registry_init r = Some (tt, r).
Proof. intros Hi. unfold registry_init. by rewrite reads_step, Hi. Qed.

Lemma init_step {A} (k : reg A) r : registry_initialized r = true -> (registry_init;; k) r = k r.
Proof. intros Hi. by rewrite (reg_step _ _ _ _ _ (init_done r Hi)). Qed.

(** ** Handles *)
Definition valid_handle (r : registry) (h : HKEY) : Prop :=
  match h with KeyAt i => key_index i /\ k_used (key_entry r i) = true | _ => True end.

Definition named (r : registry) (h : HKEY) : list Z := folded (match h with KeyAt i => k_path (key_entry r i) | _ => reg_root_name h end).

Definition slashes (s : list Z) : list Z := map (fun c => if c =? 47 then backslash else c) s.

(** The path of a subkey, as it is written and up to case. *)
Definition full_path (r : registry) (h : HKEY) (sub : list Z) : list Z :=
  match h with
  | KeyAt i => match sub with [] => k_path (key_entry r i) | _ => k_path (key_entry r i) ++ backslash :: sub end
  | _ => match sub with [] => reg_root_name h | _ => reg_root_name h ++ backslash :: slashes sub end
  end.
Definition below (h : HKEY) (base sub : list Z) : list Z :=
  match sub with [] => base | _ => base ++ backslash :: folded (match h with KeyAt _ => sub | _ => slashes sub end) end.

Lemma folded_full_path r h sub : folded (full_path r h sub) = below h (named r h) sub.
Proof. unfold folded. destruct h, sub; cbn [full_path below named folded]; unfold folded; try done; by rewrite map_app. Qed.

Lemma key_at_used r i : key_index i -> key_at (KeyAt i) r = Some (key_entry r i, r).
Proof. intros [H1 H2]. unfold key_at. by rewrite (proj2 (Z.leb_le _ _) H1), (proj2 (Z.ltb_lt _ _) H2). Qed.

Lemma key_path_runs r h sub : valid_handle r h -> Z.of_nat (length (full_path r h sub)) < REG_MAX_PATH ->
  key_path h sub r = Some (inr (full_path r h sub), r).
Proof.
  intros Hv Hl. destruct h; cbn [key_path full_path] in *.
  6:{ destruct Hv as [Hi Hu]. rewrite (reg_step _ _ _ _ _ (key_at_used r i Hi)), Hu. cbn [negb]. rewrite fit_step by done. done. }
  all: unfold reg_path_from; destruct sub as [|c sub]; [done|]; apply Z.ltb_lt in Hl; unfold slashes in Hl |- *; cbv zeta; by rewrite Hl.
Qed.

Lemma used_key_runs r i : key_index i -> k_used (key_entry r i) = true -> used_key (KeyAt i) r = Some (Some i, r).
Proof. intros Hi Hu. unfold used_key. by rewrite (reg_step _ _ _ _ _ (key_at_used r i Hi)), Hu. Qed.

(** ** The abstract registry

    Paths to maps from names to a type and data, paths and names in upper case. *)
Abbreviation tree := (gmap (list Z) (gmap (list Z) (Z * list Z))).

Definition data_of (v : REG_VALUE) : Z * list Z := (v_type v, take (Z.to_nat (v_size v)) (v_data v)).

Definition key_holds (r : registry) (i : Z) (m : gmap (list Z) (Z * list Z)) : Prop :=
  forall n, match m !! n with
            | Some x => exists j, value_is r j i n /\ data_of (value_entry r j) = x
            | None => forall j, ~ value_is r j i n
            end.
Definition represents (r : registry) (A : tree) : Prop :=
  forall p, match A !! p with
            | Some m => exists i, key_is r i p /\ key_holds r i m
            | None => forall i, ~ key_is r i p
            end.

Inductive request :=
| Open (h : HKEY) (sub : list Z)
| Create (h : HKEY) (sub : list Z)
| SetValue (h : HKEY) (name : list Z) (ty : Z) (data : list Z)
| Query (h : HKEY) (name : list Z) (room : Z)
| Delete (h : HKEY) (name : list Z).

Inductive answer := Opened (h : HKEY) | Found (ty : Z) (data : list Z) | Needs (ty size : Z) | Ok | Fails (e : Z).

Definition status (e : Z) (ok : answer) : answer := if e =? ERROR_SUCCESS then ok else Fails e.

Definition perform (q : request) : reg answer :=
  match q with
  | Open h sub => '(e, k) ← RegOpenKeyExW h (Some sub) true; mret (status e (Opened (default HNull k)))
  | Create h sub => '(e, k, _) ← RegCreateKeyExW h (Some sub) true; mret (status e (Opened (default HNull k)))
  | SetValue h name ty data => e ← RegSetValueExW h (Some name) ty (Some data) (Z.of_nat (length data)); mret (status e Ok)
  | Query h name room =>
      '(e, o) ← RegQueryValueExW h (Some name) true true (Some room);
      mret (if e =? ERROR_MORE_DATA then Needs (default 0 (q_type o)) (default 0 (q_size o)) else status e (Found (default 0 (q_type o)) (default [] (q_data o))))
  | Delete h name => e ← RegDeleteValueW h (Some name); mret (status e Ok)
  end.

(** What is too long to be asked. *)
Definition over_long (q : request) : bool :=
  match q with
  | Open h sub | Create h sub =>
      (REG_MAX_PATH <=? Z.of_nat (length sub)) ||
      match h, sub with KeyAt _, _ | _, [] => false | _, _ => REG_MAX_PATH <=? Z.of_nat (length (reg_root_name h)) + 1 + Z.of_nat (length sub) end
  | SetValue _ name _ data => (REG_MAX_NAME <=? Z.of_nat (length name)) || (REG_MAX_DATA <? Z.of_nat (length data))
  | Query _ name _ | Delete _ name => REG_MAX_NAME <=? Z.of_nat (length name)
  end.

(** What may be asked: open handles, an entry of the table for values; under an open key, paths that fit the array. *)
Definition fits (r : registry) (q : request) : Prop :=
  match q with
  | Open h sub | Create h sub =>
      valid_handle r h /\ (Z.of_nat (length sub) < REG_MAX_PATH -> (exists i, h = KeyAt i) -> Z.of_nat (length (full_path r h (ascii sub))) < REG_MAX_PATH)
  | SetValue h _ _ _ | Query h _ _ | Delete h _ => (exists i, h = KeyAt i) /\ valid_handle r h
  end.

(** The answers of the abstract registry: [nm] gives the path of a handle, the
    booleans say whether there is room for another key and another value. *)
Inductive serves (key_room value_room : bool) (nm : HKEY -> list Z) : request -> tree -> answer -> tree -> Prop :=
| open_hit h sub A h' : is_Some (A !! below h (nm h) (ascii sub)) -> nm h' = below h (nm h) (ascii sub) ->
    serves key_room value_room nm (Open h sub) A (Opened h') A
| open_miss h sub A : A !! below h (nm h) (ascii sub) = None ->
    serves key_room value_room nm (Open h sub) A (Fails ERROR_FILE_NOT_FOUND) A
| create_hit h sub A h' : is_Some (A !! below h (nm h) (ascii sub)) -> nm h' = below h (nm h) (ascii sub) ->
    serves key_room value_room nm (Create h sub) A (Opened h') A
| create_new h sub A h' : A !! below h (nm h) (ascii sub) = None -> key_room = true -> nm h' = below h (nm h) (ascii sub) ->
    serves key_room value_room nm (Create h sub) A (Opened h') (<[below h (nm h) (ascii sub) := ∅]> A)
| create_full h sub A : A !! below h (nm h) (ascii sub) = None -> key_room = false ->
    serves key_room value_room nm (Create h sub) A (Fails ERROR_OUTOFMEMORY) A
| set_ok h name ty data A m : A !! nm h = Some m -> (m !! folded (ascii name) = None -> value_room = true) ->
    serves key_room value_room nm (SetValue h name ty data) A Ok (<[nm h := <[folded (ascii name) := (ty, data)]> m]> A)
| set_full h name ty data A m : A !! nm h = Some m -> m !! folded (ascii name) = None -> value_room = false ->
    serves key_room value_room nm (SetValue h name ty data) A (Fails ERROR_OUTOFMEMORY) A
| query_hit h name room A m ty data : A !! nm h = Some m -> m !! folded (ascii name) = Some (ty, data) -> Z.of_nat (length data) <= room ->
    serves key_room value_room nm (Query h name room) A (Found ty data) A
| query_short h name room A m ty data : A !! nm h = Some m -> m !! folded (ascii name) = Some (ty, data) -> room < Z.of_nat (length data) ->
    serves key_room value_room nm (Query h name room) A (Needs ty (Z.of_nat (length data))) A
| query_miss h name room A m : A !! nm h = Some m -> m !! folded (ascii name) = None ->
    serves key_room value_room nm (Query h name room) A (Fails ERROR_FILE_NOT_FOUND) A
| delete_hit h name A m : A !! nm h = Some m -> is_Some (m !! folded (ascii name)) ->
    serves key_room value_room nm (Delete h name) A Ok (<[nm h := delete (folded (ascii name)) m]> A)
| delete_miss h name A m : A !! nm h = Some m -> m !! folded (ascii name) = None ->
    serves key_room value_room nm (Delete h name) A (Fails ERROR_FILE_NOT_FOUND) A.

(** What is too long is refused and changes nothing. *)
Definition answered (key_room value_room : bool) (nm : HKEY -> list Z) (q : request) (A : tree) (a : answer) (A' : tree) : Prop :=
  if over_long q then a = Fails ERROR_INVALID_PARAMETER /\ A' = A else serves key_room value_room nm q A a A'.

Lemma rep_key r A i p : inv r -> represents r A -> key_is r i p -> exists m, A !! p = Some m /\ key_holds r i m.
Proof.
  intros Hr HA Hi. specialize (HA p). destruct (A !! p) as [m|]; [|by apply HA in Hi]. destruct HA as (i' & Hi' & Hm).
  exists m. split; [done|]. by rewrite (in_keys_once r Hr i i' p Hi Hi').
Qed.

Lemma rep_none r A p : represents r A -> (forall i, ~ key_is r i p) -> A !! p = None.
Proof. intros HA Hn. specialize (HA p). destruct (A !! p); [|done]. destruct HA as (i & Hi & _). by apply Hn in Hi. Qed.

Lemma rep_new_key r A i root path :
  inv r -> represents r A -> key_index i -> k_used (key_entry r i) = false -> represents (put_key r i (mkKey true root path)) (<[folded path := ∅]> A).
Proof.
  intros Hr HA Hi Hu p. pose proof (fun j p => new_key_is r i root path j p Hr Hi Hu) as Hk. destruct (decide (p = folded path)) as [->|Hne].
  - rewrite lookup_insert_eq. exists i. split; [apply Hk; by right|]. intros n. rewrite lookup_empty. intros j Hj.
    destruct (in_value r Hr j i n Hj) as ((p & _ & Hu' & _) & _). congruence.
  - rewrite lookup_insert_ne by done. specialize (HA p). destruct (A !! p) as [m|].
    + destruct HA as (k & Hk' & Hm). exists k. split; [apply Hk; by left | exact Hm].
    + intros k [Hk'|[_ E]]%Hk; [by apply HA in Hk' | done].
Qed.

(** An entry that now holds the value [x] of key [i] under [n], where it held none or
    an older one. *)
Lemma rep_store r A i p m j0 v :
  inv r -> represents r A -> key_is r i p -> A !! p = Some m -> value_index j0 -> v_used v = true -> v_key v = i ->
  (value_is r j0 i (folded (v_name v)) \/ v_used (value_entry r j0) = false /\ forall j, ~ value_is r j i (folded (v_name v))) ->
  represents (put_value r j0 v) (<[p := <[folded (v_name v) := data_of v]> m]> A).
Proof.
  intros Hr HA Hi Hm Hj0 Hu Hkey Hcase q. set (n := folded (v_name v)) in *.
  assert (Hv : forall j k n', value_is (put_value r j0 v) j k n' <-> if decide (j = j0) then k = i /\ n' = n else value_is r j k n').
  { intros j k n'. rewrite value_is_put by (done || apply Hr). destruct (decide (j = j0)); [|done]. rewrite Hkey. unfold n. intuition congruence. }
  assert (Hold : forall k n', value_is r j0 k n' -> k = i /\ n' = n).
  { intros k n' (_ & Hu' & Hk' & Hn'). destruct Hcase as [(_ & _ & Hk & Hn)|[Hu0 _]]; [|congruence]. by rewrite <- Hk, <- Hk', <- Hn', <- Hn. }
  assert (Hoth : forall k m', key_holds r k m' -> (k = i -> m' = m) -> key_holds (put_value r j0 v) k (if decide (k = i) then <[n := data_of v]> m' else m')).
  { intros k m' Hk Hmm n'. destruct (decide (k = i /\ n' = n)) as [[-> ->]|Hne].
    - rewrite decide_True, lookup_insert_eq by done. exists j0. rewrite Hv, decide_True by done. split; [done|]. by rewrite value_entry_put, Z.eqb_refl by (apply Hr || done || apply Hj0).
    - replace ((if decide (k = i) then <[n := data_of v]> m' else m') !! n') with (m' !! n') by (destruct (decide (k = i)) as [->|]; [rewrite lookup_insert_ne by naive_solver|]; done).
      specialize (Hk n'). destruct (m' !! n') as [x|].
      + destruct Hk as (j & Hj & Hx). exists j. assert (j <> j0) by (intros ->; by apply Hold in Hj). rewrite Hv, decide_False by done. split; [done|].
        rewrite value_entry_put by (apply Hr || done || apply Hj). by rewrite (proj2 (Z.eqb_neq _ _)).
      + intros j Hj. apply Hv in Hj. destruct (decide (j = j0)); [by apply Hne | by apply Hk in Hj]. }
  destruct (rep_key r A i p Hr HA Hi) as (m1 & E1 & H1). rewrite Hm in E1. injection E1 as <-.
  destruct (decide (q = p)) as [->|Hq].
  - rewrite lookup_insert_eq. exists i. split; [exact Hi|]. specialize (Hoth i m H1 ltac:(done)). by rewrite decide_True in Hoth by done.
  - rewrite lookup_insert_ne by done. specialize (HA q). destruct (A !! q) as [m'|]; [|done]. destruct HA as (k & Hk & Hm').
    assert (k <> i) by (intros ->; destruct Hi as (_ & _ & <-); by destruct Hk as (_ & _ & <-)).
    exists k. split; [exact Hk|]. specialize (Hoth k m' Hm' ltac:(done)). by rewrite decide_False in Hoth.
Qed.

Lemma rep_delete r A i p m j0 n v :
  inv r -> represents r A -> key_is r i p -> A !! p = Some m -> value_is r j0 i n -> v_used v = false -> represents (put_value r j0 v) (<[p := delete n m]> A).
Proof.
  intros Hr HA Hi Hm Hj0 Hu q. pose proof Hj0 as (Hidx & _ & Ek & En).
  assert (Hv : forall j k n', value_is (put_value r j0 v) j k n' <-> j <> j0 /\ value_is r j k n').
  { intros j k n'. rewrite value_is_put by (done || apply Hr). destruct (decide (j = j0)); [|tauto]. rewrite Hu. split; [intros [? _]; done | by intros [? _]]. }
  assert (Hent : forall j, j <> j0 -> 0 <= j -> value_entry (put_value r j0 v) j = value_entry r j).
  { intros j Hj Hp. rewrite value_entry_put by (done || apply Hr). by rewrite (proj2 (Z.eqb_neq _ _)). }
  assert (Hoth : forall k m', key_holds r k m' -> key_holds (put_value r j0 v) k (if decide (k = i) then delete n m' else m')).
  { intros k m' Hk n'. destruct (decide (k = i /\ n' = n)) as [[-> ->]|Hne].
    - rewrite decide_True, lookup_delete_eq by done. intros j [Hne Hj]%Hv. apply Hne. by apply (in_values_once r Hr j j0 i n).
    - replace ((if decide (k = i) then delete n m' else m') !! n') with (m' !! n') by (destruct (decide (k = i)) as [->|]; [rewrite lookup_delete_ne by naive_solver|]; done).
      specialize (Hk n'). destruct (m' !! n') as [x|].
      + destruct Hk as (j & Hj & Hx). exists j. assert (j <> j0) by (intros ->; destruct Hj as (_ & _ & E1 & E2); apply Hne; by rewrite <- E1, <- E2, Ek, En).
        split; [by apply Hv | rewrite Hent; [done|done|apply Hj]].
      + intros j [_ Hj]%Hv. by apply Hk in Hj. }
  destruct (rep_key r A i p Hr HA Hi) as (m1 & E1 & H1). rewrite Hm in E1. injection E1 as <-.
  destruct (decide (q = p)) as [->|Hq].
  - rewrite lookup_insert_eq. exists i. split; [exact Hi|]. specialize (Hoth i m H1). by rewrite decide_True in Hoth by done.
  - rewrite lookup_insert_ne by done. specialize (HA q). destruct (A !! q) as [m'|]; [|done]. destruct HA as (k & Hk & Hm').
    assert (k <> i) by (intros ->; destruct Hi as (_ & _ & <-); by destruct Hk as (_ & _ & <-)).
    exists k. split; [exact Hk|]. specialize (Hoth k m' Hm'). by rewrite decide_False in Hoth.
Qed.

(** ** Each request *)
Definition key_room (r : registry) : bool := match free_key r with Some _ => true | None => false end.
Definition value_room (r : registry) : bool := match free_value r with Some _ => true | None => false end.

(** Handles keep their meaning. *)
Definition keeps (r r' : registry) : Prop := forall h, valid_handle r h -> valid_handle r' h /\ named r' h = named r h.

Lemma keeps_refl r : keeps r r.
Proof. by intros h Hh. Qed.

Lemma keeps_value r i v : keeps r (put_value r i v).
Proof. intros h Hh. exact (conj Hh eq_refl). Qed.

Lemma keeps_new_key r i k : inv r -> key_index i -> k_used (key_entry r i) = false -> keeps r (put_key r i k).
Proof.
  intros Hr Hi Hu [| | | | |j] Hh; try done. destruct Hh as [Hj Hju]. unfold valid_handle, named. rewrite key_entry_put by (apply Hr || done || apply Hj).
  destruct (Z.eqb_spec j i) as [->|]; [congruence|]. exact (conj (conj Hj Hju) eq_refl).
Qed.

(** The simulation, one request. *)
Definition simulates (q : request) : Prop := forall r A,
  inv r -> registry_initialized r = true -> represents r A -> fits r q -> over_long q = false ->
  exists a r' A', perform q r = Some (a, r') /\ serves (key_room r) (value_room r) (named r') q A a A' /\
    inv r' /\ registry_initialized r' = true /\ represents r' A' /\ keeps r r'.

Lemma wide_fits limit s : Z.of_nat (length s) < limit -> reg_wide_to_ascii (Some s) limit = (ascii s, true).
Proof. intros Hl. unfold reg_wide_to_ascii. apply narrow_fits. lia. Qed.
Lemma wide_long limit s : 0 < limit <= Z.of_nat (length s) -> (reg_wide_to_ascii (Some s) limit).2 = false.
Proof. intros Hl. unfold reg_wide_to_ascii. apply narrow_long. lia. Qed.

Lemma length_ascii s : length (ascii s) = length s.
Proof. apply length_map. Qed.
Lemma path_fits r h sub : over_long (Open h sub) = false -> fits r (Open h sub) ->
  Z.of_nat (length sub) < REG_MAX_PATH /\ Z.of_nat (length (full_path r h (ascii sub))) < REG_MAX_PATH.
Proof.
  cbn [over_long fits]. intros [Hs%Z.leb_gt Ho]%orb_false_iff [_ Hp]. split; [done|].
  pose proof (length_ascii sub) as El. destruct h; [| | | | |apply Hp; [done | by eexists]];
    (destruct sub as [|c sub]; [done|]; apply Z.leb_gt in Ho; change (ascii (c :: sub)) with ((if c <? 128 then c else 63) :: ascii sub) in *; cbn [full_path];
     rewrite length_app; cbn [length] in *; unfold slashes; rewrite length_map; cbn [length] in *; lia).
Qed.

Lemma open_simulated h sub : simulates (Open h sub).
Proof.
  intros r A Hr Hi HA Hfit Ho. destruct (path_fits r h sub Ho Hfit) as [Hl Hp]. destruct Hfit as [Hv _]. pose proof (folded_full_path r h (ascii sub)) as Ef.
  assert (E : RegOpenKeyExW h (Some sub) true r = Some ((match reg_find_key r (full_path r h (ascii sub)) with Some _ => ERROR_SUCCESS | None => ERROR_FILE_NOT_FOUND end,
    Some (handle_of (reg_find_key r (full_path r h (ascii sub))))), r)).
  { unfold RegOpenKeyExW. rewrite init_step, wide_fits by done. cbn [negb orb]. by rewrite (reg_step _ _ _ _ _ (key_path_runs r h (ascii sub) Hv Hp)), reads_step. }
  destruct (reg_find_key r (full_path r h (ascii sub))) as [i|] eqn:Ek.
  - exists (Opened (KeyAt i)), r, A. cbn [perform]. rewrite (reg_step _ _ _ _ _ E). split; [done|]. apply (find_key_iff _ _ _ Hr) in Ek. rewrite Ef in Ek.
    split; [|split; [done|split; [done|split; [done|apply keeps_refl]]]]. destruct (rep_key r A i _ Hr HA Ek) as (m & Em & _).
    apply open_hit; [by rewrite Em | apply Ek].
  - exists (Fails ERROR_FILE_NOT_FOUND), r, A. cbn [perform]. rewrite (reg_step _ _ _ _ _ E). split; [done|]. rewrite (find_key_none _ _ Hr) in Ek. rewrite Ef in Ek.
    split; [|split; [done|split; [done|split; [done|apply keeps_refl]]]]. apply open_miss. by apply (rep_none r).
Qed.

Lemma create_simulated h sub : simulates (Create h sub).
Proof.
  intros r A Hr Hi HA Hfit Ho. destruct (path_fits r h sub Ho Hfit) as [Hl Hp]. destruct Hfit as [Hv _]. pose proof (folded_full_path r h (ascii sub)) as Ef. set (path := full_path r h (ascii sub)) in *.
  cbn [perform]. unfold RegCreateKeyExW. unfold mbind at 1, reg_bind at 1. rewrite init_step, wide_fits by done. cbn [negb orb].
  rewrite (reg_step _ _ _ _ _ (key_path_runs r h (ascii sub) Hv Hp)), reads_step. fold path.
  destruct (reg_find_key r path) as [i|] eqn:Ek.
  - exists (Opened (KeyAt i)), r, A. split; [done|]. apply (find_key_iff _ _ _ Hr) in Ek. rewrite Ef in Ek.
    split; [|split; [done|split; [done|split; [done|apply keeps_refl]]]]. destruct (rep_key r A i _ Hr HA Ek) as (m & Em & _).
    apply create_hit; [by rewrite Em | apply Ek].
  - pose proof (make_key_runs h path r Hp) as Em. rewrite Ek in Em. rewrite (find_key_none _ _ Hr) in Ek.
    assert (Hnone : A !! below h (named r h) (ascii sub) = None) by (apply (rep_none r); [done|]; by rewrite <- Ef).
    destruct (free_key r) as [i|] eqn:Efree; rewrite (reg_step _ _ _ _ _ Em).
    + destruct (free_key_unused r i Efree) as [Hidx Hu]. set (r' := put_key r i (mkKey true h path)).
      assert (Hkeep : keeps r r') by (by apply keeps_new_key). pose proof (proj2 (Hkeep h Hv)) as Hnm.
      exists (Opened (KeyAt i)), r', (<[below h (named r h) (ascii sub) := ∅]> A). split; [done|].
      split; [rewrite <- Hnm; apply create_new; rewrite ?Hnm; [done | unfold key_room; by rewrite Efree |]|].
      * unfold named, r'. by rewrite key_entry_put, Z.eqb_refl by (apply Hr || done || apply Hidx).
      * split; [by apply inv_new_key|]. split; [done|]. split; [|done]. rewrite <- Ef. by apply rep_new_key.
    + exists (Fails ERROR_OUTOFMEMORY), r, A. split; [done|]. split; [apply create_full; [done | unfold key_room; by rewrite Efree]|].
      split; [done|split; [done|split; [done|apply keeps_refl]]].
Qed.

(** The name of an open key, and what the tree has there. *)
Lemma open_key r A h i : inv r -> represents r A -> h = KeyAt i -> valid_handle r h -> exists m, key_is r i (named r h) /\ A !! named r h = Some m /\ key_holds r i m.
Proof.
  intros Hr HA -> [Hi Hu]. assert (Hk : key_is r i (named r (KeyAt i))) by done. destruct (rep_key r A i _ Hr HA Hk) as (m & Em & Hm). by exists m.
Qed.

Lemma holds_found r i m name : inv r -> key_holds r i m ->
  match reg_find_value r i name with
  | Some j => value_is r j i (folded name) /\ m !! folded name = Some (data_of (value_entry r j))
  | None => (forall j, ~ value_is r j i (folded name)) /\ m !! folded name = None
  end.
Proof.
  intros Hr Hm. specialize (Hm (folded name)). destruct (reg_find_value r i name) as [j|] eqn:E.
  - apply (find_value_iff _ _ _ _ Hr) in E. split; [done|]. destruct (m !! folded name) as [x|]; [|by apply Hm in E].
    destruct Hm as (j' & Hj' & <-). by rewrite (in_values_once r Hr j j' i (folded name)).
  - rewrite (find_value_none _ _ _ Hr) in E. split; [done|]. destruct (m !! folded name); [|done]. destruct Hm as (j & Hj & _). by apply E in Hj.
Qed.

Lemma query_simulated h name room : simulates (Query h name room).
Proof.
  intros r A Hr Hi HA ((i & ->) & Hv) Hl%Z.leb_gt. destruct (open_key r A _ i Hr HA eq_refl Hv) as (m & Hk & Em & Hm). pose proof (holds_found r i m (ascii name) Hr Hm) as Hf.
  cbn [perform]. unfold RegQueryValueExW. unfold mbind at 1, reg_bind at 1. rewrite init_step by done.
  rewrite (reg_step _ _ _ _ _ (used_key_runs r i (proj1 Hv) (proj2 Hv))), wide_fits by done. cbn [negb]. rewrite reads_step.
  destruct (reg_find_value r i (ascii name)) as [j|].
  - destruct Hf as [Hj Hmj]. destruct (in_data r Hr j (proj1 Hj)) as [_ Hs]. rewrite reads_step. cbn [negb].
    assert (El : Z.of_nat (length (data_of (value_entry r j)).2) = v_size (value_entry r j)) by (cbn; rewrite length_take; pose proof (in_data r Hr j (proj1 Hj)); unfold REG_MAX_DATA in *; lia).
    destruct (Z.ltb_spec room (v_size (value_entry r j))); [exists (Needs (v_type (value_entry r j)) (v_size (value_entry r j))) | exists (Found (v_type (value_entry r j)) (data_of (value_entry r j)).2)];
      exists r, A; (split; [done|]; split; [|split; [done|split; [done|split; [done|apply keeps_refl]]]]).
    + rewrite <- El. eapply query_short; [exact Em | exact Hmj | by rewrite El].
    + eapply query_hit; [exact Em | exact Hmj | by rewrite El].
  - eexists _, r, A. split; [done|]. split; [|split; [done|split; [done|split; [done|apply keeps_refl]]]]. eapply query_miss; [exact Em | apply Hf].
Qed.

Lemma delete_simulated h name : simulates (Delete h name).
Proof.
  intros r A Hr Hi HA ((i & ->) & Hv) Hl%Z.leb_gt. destruct (open_key r A _ i Hr HA eq_refl Hv) as (m & Hk & Em & Hm). pose proof (holds_found r i m (ascii name) Hr Hm) as Hf.
  cbn [perform]. unfold RegDeleteValueW. rewrite wide_fits, bool_decide_eq_false_2 by done. cbn [negb orb]. unfold mbind at 1, reg_bind at 1. rewrite reads_step.
  destruct (reg_find_value r i (ascii name)) as [j|].
  - destruct Hf as [Hj Hmj]. set (v := value_entry r j). set (r' := put_value r j (mkValue false (v_key v) (v_name v) (v_type v) (v_size v) (v_data v))).
    exists Ok, r', (<[named r (KeyAt i) := delete (folded (ascii name)) m]> A). split; [done|].
    split; [apply (delete_hit _ _ (named r')); [exact Em | by rewrite Hmj]|]. split; [|split; [done|split; [by eapply rep_delete | apply keeps_value]]].
    apply inv_change_value; try done; [apply Hj | apply (in_data r Hr), Hj | apply (in_data r Hr), Hj].
  - exists (Fails ERROR_FILE_NOT_FOUND), r, A. split; [done|]. split; [|split; [done|split; [done|split; [done|apply keeps_refl]]]]. eapply delete_miss; [exact Em | apply Hf].
Qed.

(** The entry of a value once it is stored. *)
Definition stored (v : REG_VALUE) (key : Z) (name : list Z) (ty : Z) (data : list Z) : REG_VALUE :=
  mkValue true key name ty (Z.of_nat (length data)) (data ++ drop (length data) (v_data v)).

Lemma source_runs data r : source_bytes (Some data) (Z.of_nat (length data)) r = Some (data, r).
Proof.
  unfold source_bytes. destruct (Z.eqb_spec (Z.of_nat (length data)) 0) as [E|E]; [by destruct data|].
  rewrite (proj2 (Z.leb_le _ _)) by lia. by rewrite Nat2Z.id, firstn_all.
Qed.

Lemma data_of_stored v key name ty data : data_of (stored v key name ty data) = (ty, data).
Proof. unfold data_of, stored. cbn. by rewrite Nat2Z.id, take_app_length. Qed.

Lemma stored_length v key name ty data : length (v_data v) = 1024%nat -> Z.of_nat (length data) <= REG_MAX_DATA -> length (v_data (stored v key name ty data)) = 1024%nat.
Proof. intros Hv Hd. unfold REG_MAX_DATA in Hd. cbn. rewrite length_app, length_drop. lia. Qed.

Lemma put_value_twice r i v w : put_value (put_value r i v) i w = put_value r i w.
Proof. unfold put_value, put. cbn. by rewrite list_insert_insert_eq. Qed.

(** Storing a value that was there, in a free entry, or nowhere. *)
Lemma set_runs r i name ty data :
  inv r -> registry_initialized r = true -> valid_handle r (KeyAt i) -> Z.of_nat (length name) < REG_MAX_NAME -> Z.of_nat (length data) <= REG_MAX_DATA ->
  RegSetValueExW (KeyAt i) (Some name) ty (Some data) (Z.of_nat (length data)) r = Some (
    match reg_find_value r i (ascii name) with
    | Some j => (ERROR_SUCCESS, put_value r j (stored (value_entry r j) (v_key (value_entry r j)) (v_name (value_entry r j)) ty data))
    | None => match free_value r with
              | Some j => (ERROR_SUCCESS, put_value r j (stored (value_entry r j) i (ascii name) ty data))
              | None => (ERROR_OUTOFMEMORY, r)
              end
    end).
Proof.
  intros Hr Hi Hv Hl Hd. unfold RegSetValueExW. rewrite init_step by done.
  rewrite (reg_step _ _ _ _ _ (used_key_runs r i (proj1 Hv) (proj2 Hv))), wide_fits by done. rewrite (proj2 (Z.ltb_ge _ _)) by lia. cbn [negb orb].
  assert (Hl' : Z.of_nat (length (ascii name)) < REG_MAX_NAME) by (unfold ascii; by rewrite length_map).
  pose proof (claim_value_runs i (ascii name) r Hl') as E. destruct (reg_find_value r i (ascii name)) as [j|] eqn:Ej.
  - rewrite (reg_step _ _ _ _ _ E), (reg_step _ _ _ _ _ (source_runs data r)). apply (find_value_iff _ _ _ _ Hr) in Ej as (_ & Hu & _).
    unfold store_value, stored. unfold mbind, reg_bind, change. cbn. by rewrite Hu.
  - destruct (free_value r) as [j|] eqn:Ef; rewrite (reg_step _ _ _ _ _ E); [|done]. rewrite (reg_step _ _ _ _ _ (source_runs data _)).
    destruct (free_value_unused r j Ef) as [Hj _]. unfold store_value, mbind, reg_bind, change, mret, reg_ret, claimed.
    rewrite put_value_twice. cbn [mbind option_bind]. unfold stored. rewrite value_entry_put, Z.eqb_refl by (apply Hr || done || apply Hj). done.
Qed.

Lemma set_simulated h name ty data : simulates (SetValue h name ty data).
Proof.
  intros r A Hr Hi HA ((i & ->) & Hv) [Hl%Z.leb_gt Hd%Z.ltb_ge]%orb_false_iff. destruct (open_key r A _ i Hr HA eq_refl Hv) as (m & Hk & Em & Hm). pose proof (holds_found r i m (ascii name) Hr Hm) as Hf.
  pose proof (set_runs r i name ty data Hr Hi Hv Hl Hd) as E. cbn [perform]. destruct (reg_find_value r i (ascii name)) as [j|].
  - destruct Hf as [Hj Hmj]. pose proof Hj as (Hidx & Hu & Ek & En). set (v := stored _ _ _ _ _) in E.
    exists Ok, (put_value r j v), (<[named r (KeyAt i) := <[folded (ascii name) := (ty, data)]> m]> A). rewrite (reg_step _ _ _ _ _ E). split; [done|].
    split; [apply (set_ok _ _ (named (put_value r j v))); [exact Em | by rewrite Hmj]|]. split; [|split; [done|split; [|apply keeps_value]]].
    + apply inv_change_value; try done; [cbn; lia | apply stored_length; [by apply (in_data r Hr)|done]].
    + rewrite <- En, <- (data_of_stored (value_entry r j) (v_key (value_entry r j)) (v_name (value_entry r j)) ty data). fold v.
      eapply (rep_store r A i _ m j v); try done. left. change (v_name v) with (v_name (value_entry r j)). by rewrite En.
  - destruct Hf as [Hno Hmn]. destruct (free_value r) as [j|] eqn:Ef; rewrite (reg_step _ _ _ _ _ E).
    + destruct (free_value_unused r j Ef) as [Hidx Hu]. set (v := stored _ _ _ _ _) in *.
      exists Ok, (put_value r j v), (<[named r (KeyAt i) := <[folded (ascii name) := (ty, data)]> m]> A). split; [done|].
      split; [apply (set_ok _ _ (named (put_value r j v))); [exact Em | intros _; unfold value_room; by rewrite Ef]|]. split; [|split; [done|split; [|apply keeps_value]]].
      * apply inv_new_value; try done; [by eexists | cbn; unfold ascii; by rewrite length_map | cbn; lia | apply stored_length; [by apply (in_data r Hr)|done]].
      * rewrite <- (data_of_stored (value_entry r j) i (ascii name) ty data). fold v. apply (rep_store r A i _ m j v); try done. by right.
    + exists (Fails ERROR_OUTOFMEMORY), r, A. split; [done|]. split; [|split; [done|split; [done|split; [done|apply keeps_refl]]]].
      eapply set_full; [exact Em | done | unfold value_room; by rewrite Ef].
Qed.

(** What is too long never gets past the checks. *)
Lemma over_long_refused q r : registry_initialized r = true -> fits r q -> over_long q = true -> perform q r = Some (Fails ERROR_INVALID_PARAMETER, r).
Proof.
  assert (Hpath : forall h sub, valid_handle r h -> over_long (Open h sub) = true ->
    (reg_wide_to_ascii (Some sub) REG_MAX_PATH).2 = false \/ reg_wide_to_ascii (Some sub) REG_MAX_PATH = (ascii sub, true) /\ key_path h (ascii sub) r = Some (inl ERROR_INVALID_PARAMETER, r)).
  { intros h sub Hv Ho. destruct (Z.leb_spec REG_MAX_PATH (Z.of_nat (length sub))) as [Hl|Hl]; [left; apply wide_long; unfold REG_MAX_PATH in *; lia|].
    right. split; [by apply wide_fits|]. cbn [over_long] in Ho. rewrite (proj2 (Z.leb_gt _ _)) in Ho by done. cbn [orb] in Ho.
    destruct h; [| | | | |done]; (destruct sub as [|c sub]; [done|]; apply Z.leb_le in Ho; pose proof (length_ascii (c :: sub)) as El;
      change (ascii (c :: sub)) with ((if c <? 128 then c else 63) :: ascii sub) in *; cbn [key_path]; unfold reg_path_from; cbv zeta;
      rewrite (proj2 (Z.ltb_ge _ _)); [done|]; rewrite length_app; cbn [length] in *; rewrite length_map; cbn [length] in *; lia). }
  intros Hi Hfit Ho. destruct q as [h sub|h sub|h name ty data|h name room|h name]; cbn [perform].
  1,2: destruct Hfit as [Hv _]; unfold RegOpenKeyExW, RegCreateKeyExW; unfold mbind at 1, reg_bind at 1; rewrite init_step by done;
    destruct (Hpath h sub Hv Ho) as [E|[E Ep]]; [destruct (reg_wide_to_ascii _ _) as [? ?]; cbn in E; by subst | rewrite E; cbn [negb orb]; by rewrite (reg_step _ _ _ _ _ Ep)].
  all: destruct Hfit as [[i ->] Hv]; cbn [over_long] in Ho.
  - unfold RegSetValueExW; unfold mbind at 1, reg_bind at 1; rewrite init_step by done; rewrite (reg_step _ _ _ _ _ (used_key_runs r i (proj1 Hv) (proj2 Hv))).
    destruct (Z.ltb_spec REG_MAX_DATA (Z.of_nat (length data))); [by destruct (reg_wide_to_ascii _ _)|]. rewrite orb_false_r in Ho. apply Z.leb_le in Ho.
    pose proof (wide_long REG_MAX_NAME name ltac:(unfold REG_MAX_NAME in *; lia)) as E. destruct (reg_wide_to_ascii _ _). cbn in E. by subst.
  - unfold RegQueryValueExW; unfold mbind at 1, reg_bind at 1; rewrite init_step by done; rewrite (reg_step _ _ _ _ _ (used_key_runs r i (proj1 Hv) (proj2 Hv))). apply Z.leb_le in Ho.
    pose proof (wide_long REG_MAX_NAME name ltac:(unfold REG_MAX_NAME in *; lia)) as E. destruct (reg_wide_to_ascii _ _). cbn in E. by subst.
  - unfold RegDeleteValueW. apply Z.leb_le in Ho.
    pose proof (wide_long REG_MAX_NAME name ltac:(unfold REG_MAX_NAME in *; lia)) as E. destruct (reg_wide_to_ascii _ _). cbn in E. subst. by rewrite orb_true_r.
Qed.

(** C34. The registry refines a map from paths to maps from names to values, paths and names up to the case of letters.
    Opening and creating a key under a predefined root or an open key, and setting (with data), querying (with a buffer of any
    size) and deleting a value of an open key are answered as the map answers them and change it in the same way; a subkey, name or
    data that is too long is refused; memory runs out only when a table is full, and every open handle goes on meaning the same
    key.  Left out, because there the code is undefined or shows stale bytes: values of a predefined root,
    subkeys that together with the path of their open key exceed 255 characters, and setting a value without data. *)
Theorem registry_refines (q : request) (r : registry) (A : tree) :
  inv r -> registry_initialized r = true -> represents r A -> fits r q ->
  exists a r' A', perform q r = Some (a, r') /\ answered (key_room r) (value_room r) (named r') q A a A' /\
    inv r' /\ registry_initialized r' = true /\ represents r' A' /\ keeps r r'.
Proof.
  intros Hr Hi HA Hfit. unfold answered. destruct (over_long q) eqn:Ho.
  - exists (Fails ERROR_INVALID_PARAMETER), r, A. split; [by apply over_long_refused|]. done.
  - destruct q; [apply open_simulated | apply create_simulated | apply set_simulated | apply query_simulated | apply delete_simulated]; done.
Qed.

(** ** Every reachable state is well formed *)
Definition triple {A} (P : registry -> Prop) (f : reg A) (Q : A -> registry -> Prop) : Prop := forall r x r', P r -> f r = Some (x, r') -> Q x r'.

Lemma triple_bind {A B} P (f : reg A) Q (k : A -> reg B) R : triple P f Q -> (forall x, triple (Q x) (k x) R) -> triple P (f ≫= k) R.
Proof.
  intros Hf Hk r y r' HP E. unfold mbind, reg_bind in E. destruct (f r) as [[x r1]|] eqn:Ef; [|done]. exact (Hk x r1 y r' (Hf r x r1 HP Ef) E).
Qed.
Lemma triple_ret {A} (P : registry -> Prop) (x : A) : triple P (mret x) (fun _ => P).
Proof. intros r y r' HP [= <- <-]. exact HP. Qed.
Lemma triple_reads {A} (P : registry -> Prop) (f : registry -> A) : triple P (reads f) (fun x r => P r /\ x = f r).
Proof. intros r y r' HP [= <- <-]. done. Qed.
Lemma triple_reads_any {A} (P : registry -> Prop) (f : registry -> A) : triple P (reads f) (fun _ => P).
Proof. intros r y r' HP [= <- <-]. done. Qed.
Lemma triple_weaken {A} (P P' : registry -> Prop) (f : reg A) (Q Q' : A -> registry -> Prop) :
  triple P f Q -> (forall r, P' r -> P r) -> (forall x r, Q x r -> Q' x r) -> triple P' f Q'.
Proof. intros Hf HP HQ r x r' Hr E. eapply HQ, Hf; [by apply HP | exact E]. Qed.
Lemma triple_fit P cap s : triple P (fit cap s) (fun x r => P r /\ x = s /\ Z.of_nat (length s) < cap).
Proof. intros r x r' HP E. unfold fit in E. destruct (Z.ltb_spec (Z.of_nat (length s)) cap); [|done]. injection E as <- <-. done. Qed.

Definition with_key (i : Z) (r : registry) : Prop := inv r /\ exists p, key_is r i p.
Definition with_some (k : option Z) (r : registry) : Prop := match k with Some i => with_key i r | None => inv r end.

Lemma some_inv k r : with_some k r -> inv r.
Proof. destruct k; [by intros [? _] | done]. Qed.

Lemma make_key_keeps root path : triple inv (reg_make_key root path) with_some.
Proof.
  unfold reg_make_key. eapply triple_bind; [apply triple_reads|]. intros [i|]; cbn beta.
  - intros r x r' [Hr E] [= <- <-]. split; [done|]. symmetry in E. apply (find_key_iff _ _ _ Hr) in E. by eexists.
  - eapply triple_bind; [apply triple_reads|]. intros [i|]; cbn beta.
    + intros r x r' [[Hr E] Ef]. symmetry in E, Ef. rewrite (find_key_none _ _ Hr) in E. destruct (free_key_unused r i Ef) as [Hi Hu].
      unfold fit. destruct (Z.ltb_spec (Z.of_nat (length path)) REG_MAX_PATH); [|done]. intros [= <- <-]. split; [by apply inv_new_key|].
      eexists. apply new_key_is; [done..|]. right. done.
    + intros r x r' [[Hr _] _] [= <- <-]. done.
Qed.

Lemma claim_value_keeps key name : triple (with_key key) (claim_value key name) (fun x r => with_key key r /\ forall i, x = Some i -> value_index i).
Proof.
  unfold claim_value. eapply triple_bind; [apply triple_reads|]. intros [i|]; cbn beta.
  - intros r x r' [[Hr Hk] E] [= <- <-]. split; [done|]. intros j [= <-]. symmetry in E. apply (find_value_iff _ _ _ _ Hr) in E. apply E.
  - eapply triple_bind; [apply triple_reads|]. intros [i|]; cbn beta.
    + intros r x r' [[[Hr Hk] E] Ef]. symmetry in E, Ef. rewrite (find_value_none _ _ _ Hr) in E. destruct (free_value_unused r i Ef) as [Hi Hu].
      unfold fit. destruct (Z.ltb_spec (Z.of_nat (length name)) REG_MAX_NAME); [|done]. intros [= <- <-]. split; [|by intros j [= <-]]. split; [|done].
      apply inv_new_value; try done; by apply (in_data r Hr).
    + intros r x r' [[Hr _] _] [= <- <-]. done.
Qed.

Lemma store_value_keeps key i ty size bytes : value_index i -> 0 <= size <= REG_MAX_DATA -> (length bytes <= 1024)%nat ->
  triple (with_key key) (store_value i ty size bytes) (fun _ => with_key key).
Proof.
  intros Hi Hs Hb r x r' [Hr Hk] [= <- <-]. split; [|exact Hk]. apply inv_change_value; try done. cbn. rewrite length_app, length_drop, (proj1 (in_data r Hr i Hi)). lia.
Qed.

(** A call that keeps the registry well formed. *)
Definition safe {A} (f : reg A) : Prop := triple inv f (fun _ => inv).

Lemma safe_bind {A B} (f : reg A) (k : A -> reg B) : safe f -> (forall x, safe (k x)) -> safe (f ≫= k).
Proof. intros. by eapply triple_bind. Qed.
Lemma safe_ret {A} (x : A) : safe (mret x).
Proof. apply triple_ret. Qed.
Lemma safe_reads {A} (f : registry -> A) : safe (reads f).
Proof. apply triple_reads_any. Qed.
Lemma safe_undefined {A} : safe (A := A) undefined.
Proof. done. Qed.

Lemma safe_make_key root path : safe (reg_make_key root path).
Proof. eapply triple_weaken; [apply make_key_keeps | done | apply some_inv]. Qed.

Create HintDb registry.
#[local] Hint Resolve safe_bind safe_ret safe_reads safe_undefined safe_make_key : registry.

Lemma seed_dword_keeps key name v : triple (with_key key) (seed_dword key name v) (fun _ => with_key key).
Proof.
  unfold seed_dword. eapply triple_bind; [apply claim_value_keeps|]. intros [i|]; cbn beta.
  - intros r x r' [Hk Hi]. by apply store_value_keeps; [apply Hi | | cbn; lia |].
  - intros r x r' [Hk _] [= <- <-]. done.
Qed.

Lemma seed_service_safe name type start : safe (registry_seed_service name type start).
Proof.
  unfold registry_seed_service. apply safe_bind; [intros r x r' Hr E; by apply (triple_fit inv) in E as [? _]|]. intros path.
  eapply triple_bind; [apply make_key_keeps|]. intros [key|]; cbn [with_some]; [|apply triple_ret].
  eapply triple_bind; [apply seed_dword_keeps|]. intros ?. eapply triple_weaken; [apply seed_dword_keeps | done | by intros ? r [? _]].
Qed.
#[local] Hint Resolve seed_service_safe : registry.

Lemma init_safe : safe registry_init.
Proof.
  unfold registry_init, registry_seed_services. apply safe_bind; [apply safe_reads|]. intros [|]; [apply safe_ret|].
  apply safe_bind; [intros r x r' Hr [= <- <-]; destruct Hr; by split|]. intros _. repeat (apply safe_bind; [auto with registry | intros _]). auto with registry.
Qed.
#[local] Hint Resolve init_safe : registry.

Lemma used_key_keeps h : triple inv (used_key h) with_some.
Proof.
  destruct h; cbn [used_key]; try (intros r x r' Hr E; (done || (injection E as <- <-; exact Hr))).
  intros r x r' Hr E. unfold key_at in E. destruct ((0 <=? i) && (i <? REG_MAX_KEYS)) eqn:Ei; [|done]. apply andb_true_iff in Ei as [E1 E2].
  rewrite reads_step in E. injection E as <- <-. destruct (k_used (key_entry r i)) eqn:Hu; [|done]. split; [done|].
  exists (folded (k_path (key_entry r i))). repeat split; try done; unfold REG_MAX_KEYS in *; lia.
Qed.

Lemma used_key_safe h : safe (used_key h).
Proof. eapply triple_weaken; [apply used_key_keeps | done | apply some_inv]. Qed.

Lemma key_path_safe h sub : safe (key_path h sub).
Proof.
  destruct h; cbn [key_path]; try apply safe_ret. apply safe_bind; [cbn; destruct (_ && _); auto with registry|]. intros k. destruct (negb _); [apply safe_ret|].
  apply safe_bind; [intros r x r' Hr E; by apply (triple_fit inv) in E as [? _] | intros; apply safe_ret].
Qed.
#[local] Hint Resolve used_key_safe key_path_safe : registry.

Lemma open_safe h s b : safe (RegOpenKeyExW h s b).
Proof.
  unfold RegOpenKeyExW. apply safe_bind; [apply init_safe|]. intros _. destruct (reg_wide_to_ascii _ _) as [sub all]. destruct (_ || _); [apply safe_ret|].
  apply safe_bind; [apply key_path_safe|]. intros [e|path]; auto with registry.
Qed.

Lemma create_safe h s b : safe (RegCreateKeyExW h s b).
Proof.
  unfold RegCreateKeyExW. apply safe_bind; [apply init_safe|]. intros _. destruct (reg_wide_to_ascii _ _) as [sub all]. destruct (_ || _); [apply safe_ret|].
  apply safe_bind; [apply key_path_safe|]. intros [e|path]; [apply safe_ret|]. apply safe_bind; [apply safe_reads|]. intros k.
  apply safe_bind; [destruct k; auto with registry|]. intros [i|]; apply safe_ret.
Qed.

Lemma query_safe h s t d c : safe (RegQueryValueExW h s t d c).
Proof.
  unfold RegQueryValueExW. apply safe_bind; [apply init_safe|]. intros _. apply safe_bind; [apply used_key_safe|]. intros [key|]; [|apply safe_ret].
  destruct c; [|apply safe_ret]. destruct (reg_wide_to_ascii _ _) as [nm all]. destruct (negb _); [apply safe_ret|].
  apply safe_bind; [apply safe_reads|]. intros [i|]; auto with registry.
Qed.

(** The size of the data is that of an unsigned argument. *)
Lemma set_safe h s ty d c : 0 <= c -> safe (RegSetValueExW h s ty d c).
Proof.
  intros Hc. unfold RegSetValueExW. apply safe_bind; [apply init_safe|]. intros _. eapply triple_bind; [apply used_key_keeps|]. intros [key|]; cbn [with_some]; [|apply triple_ret].
  destruct (reg_wide_to_ascii _ _) as [nm all]. destruct (Z.ltb_spec REG_MAX_DATA c); cbn [orb]; [eapply triple_weaken; [apply triple_ret | exact (fun r => id) | by intros x r [? _]]|].
  destruct (negb all); [eapply triple_weaken; [apply triple_ret | exact (fun r => id) | by intros x r [? _]]|].
  eapply triple_bind; [apply claim_value_keeps|]. intros [i|]; cbn beta; [|intros r x r' [[Hr _] _] [= <- <-]; exact Hr].
  intros r x r' [Hk Hi] E. destruct (source_bytes d c r) as [[bytes r1]|] eqn:Eb; [|unfold mbind, reg_bind in E; by rewrite Eb in E].
  rewrite (reg_step _ _ _ _ _ Eb) in E. assert (r1 = r /\ (length bytes <= 1024)%nat) as [-> Hl].
  { unfold source_bytes in Eb. unfold REG_MAX_DATA in *. destruct d as [d|]; [|injection Eb as <- <-; cbn; split; [done|lia]].
    destruct (c =? 0); [injection Eb as <- <-; cbn; split; [done|lia]|]. destruct (c <=? _); [|done]. injection Eb as <- <-. split; [done|]. rewrite length_take. lia. }
  unfold mbind, reg_bind in E. destruct (store_value i ty c bytes r) as [[u r2]|] eqn:Es; [|done]. injection E as <- <-.
  by apply (store_value_keeps key i ty c bytes (Hi i eq_refl) ltac:(lia) Hl r u r2 Hk) in Es as [? _].
Qed.

Lemma delete_safe h s : safe (RegDeleteValueW h s).
Proof.
  unfold RegDeleteValueW. destruct (reg_wide_to_ascii _ _) as [nm all]. destruct (_ || _); [apply safe_ret|].
  intros r x r' Hr. rewrite reads_step. destruct h; try (intros [= <- <-]; exact Hr). destruct (reg_find_value r i nm) as [j|] eqn:Ej; [|intros [= <- <-]; exact Hr].
  intros [= <- <-]. apply (find_value_iff _ _ _ _ Hr) in Ej. apply inv_change_value; try done; [apply Ej | apply (in_data r Hr), Ej | apply (in_data r Hr), Ej].
Qed.
#[local] Hint Resolve open_safe create_safe query_safe set_safe delete_safe : registry.

Lemma set_string_safe key name value : safe (service_registry_set_string key name value).
Proof. destruct value; cbn; [|apply safe_ret]. apply safe_bind; [apply set_safe; lia | intros; apply safe_ret]. Qed.
Lemma set_dword_safe key name v : safe (service_registry_set_dword key name v).
Proof. apply safe_bind; [apply set_safe; lia | intros; apply safe_ret]. Qed.
#[local] Hint Resolve set_string_safe set_dword_safe : registry.

Lemma store_service_safe name display type start error binary depend : safe (service_registry_store name display type start error binary depend).
Proof.
  unfold service_registry_store. apply safe_bind; [apply create_safe|]. intros [[e [key|]] d]; destruct (negb _); try apply safe_ret; try apply safe_undefined.
  repeat (apply safe_bind; [auto with registry | intros ?]). destruct depend; auto with registry.
Qed.

Lemma put_record_inv r i s : inv r -> inv (put_record r i s).
Proof. intros []. split; try done. cbn. by rewrite length_put. Qed.

Lemma create_service_safe name display type start error binary depend : safe (CreateServiceW name display type start error binary depend).
Proof.
  intros r x r' Hr. unfold CreateServiceW. rewrite reads_step. destruct name as [nm|]; [|intros [= <- <-]; exact Hr].
  destruct (Z.leb_spec 32 (service_count r)) as [|Hc]; cbn [orb]; [intros [= <- <-]; exact Hr|]. destruct (bool_decide _); [intros [= <- <-]; exact Hr|].
  rewrite reads_step. set (f := fun r : registry => _). intros E. rewrite (reg_step (change f) _ r tt (f r) eq_refl) in E.
  assert (Hf : inv (f r)). { destruct Hr as [H1 H2 H3 H4 H5 H6 H7 [H8 H9]]. split; try done. cbn. rewrite length_put. split; [done|lia]. }
  revert E. apply safe_bind; [apply store_service_safe | intros; apply safe_ret | exact Hf].
Qed.

Lemma record_of_safe h : safe (record_of h).
Proof. destruct h; cbn; [apply safe_ret | apply safe_undefined|]. destruct (_ && _); auto with registry. Qed.

Lemma change_record_safe i s : safe (change (fun r => put_record r i s)).
Proof. intros r [] r' Hr [= <-]. by apply put_record_inv. Qed.
#[local] Hint Resolve create_service_safe record_of_safe change_record_safe : registry.

(** The states the library's functions lead to, in any order. *)
Inductive reachable : registry -> Prop :=
| reach_start : reachable registry_start
| reach_open r h s b x r' : reachable r -> RegOpenKeyExW h s b r = Some (x, r') -> reachable r'
| reach_create r h s b x r' : reachable r -> RegCreateKeyExW h s b r = Some (x, r') -> reachable r'
| reach_set r h s ty d c x r' : reachable r -> 0 <= c -> RegSetValueExW h s ty d c r = Some (x, r') -> reachable r'
| reach_set_a r h s ty d c x r' : reachable r -> 0 <= c -> RegSetValueExA h s ty d c r = Some (x, r') -> reachable r'
| reach_query r h s t d c x r' : reachable r -> RegQueryValueExW h s t d c r = Some (x, r') -> reachable r'
| reach_get r h k s t d c x r' : reachable r -> RegGetValueW h k s t d c r = Some (x, r') -> reachable r'
| reach_delete r h s x r' : reachable r -> RegDeleteValueW h s r = Some (x, r') -> reachable r'
| reach_flush r h x r' : reachable r -> RegFlushKey h r = Some (x, r') -> reachable r'
| reach_create_service r n d t s e b p x r' : reachable r -> CreateServiceW n d t s e b p r = Some (x, r') -> reachable r'
| reach_delete_service r h x r' : reachable r -> DeleteService h r = Some (x, r') -> reachable r'
| reach_start_service r h x r' : reachable r -> StartServiceW h r = Some (x, r') -> reachable r'
| reach_control r h c x r' : reachable r -> ControlService h c r = Some (x, r') -> reachable r'.

Lemma get_replicate {A} (x : A) n i : get x (replicate n x) i = x.
Proof. unfold get. destruct (replicate n x !! Z.to_nat i) eqn:E; [|done]. by apply lookup_replicate in E as [-> _]. Qed.

Lemma start_inv : inv registry_start.
Proof.
  assert (Hk : forall i, key_entry registry_start i = no_key) by (intros; apply get_replicate).
  assert (Hv : forall i, value_entry registry_start i = no_value) by (intros; apply get_replicate).
  assert (Nk : forall i p, ~ key_is registry_start i p) by (intros i p (_ & E & _); by rewrite Hk in E).
  assert (Nv : forall i k p, ~ value_is registry_start i k p) by (intros i k p (_ & E & _); by rewrite Hv in E).
  split; try done.
  - intros i p Hi. by apply Nk in Hi.
  - intros i j p Hi. by apply Nk in Hi.
  - intros j i n Hj. by apply Nv in Hj.
  - intros j j' i n Hj. by apply Nv in Hj.
  - intros j _. rewrite Hv. done.
Qed.

(** Whatever is called, in whatever order, no path and no value name of a key is
    ever entered twice (up to case), values belong to keys in use, every string
    and every size fits its array, and the number of services its table. *)
Theorem registry_reachable_inv (r : registry) : reachable r -> inv r.
Proof.
  induction 1 as [|r h s b x r' _ IH E|r h s b x r' _ IH E|r h s ty d c x r' _ IH Hc E|r h s ty d c x r' _ IH Hc E|r h s t d c x r' _ IH E|r h k s t d c x r' _ IH E
    |r h s x r' _ IH E|r h x r' _ IH E|r n d t s e b p x r' _ IH E|r h x r' _ IH E|r h x r' _ IH E|r h c x r' _ IH E]; [apply start_inv | revert E; revert IH; revert r x r' ..].
  - apply open_safe.
  - apply create_safe.
  - by apply set_safe.
  - destruct s; [by apply set_safe | apply safe_ret].
  - apply query_safe.
  - destruct k as [[|u k]|]; try apply query_safe. apply safe_bind; [apply open_safe|]. intros [e [o|]]; destruct (negb _); auto with registry.
  - apply delete_safe.
  - apply safe_bind; auto with registry.
  - apply create_service_safe.
  - apply safe_bind; [apply record_of_safe|]. intros [[i u]|]; auto with registry.
  - apply safe_bind; [apply record_of_safe|]. intros [[i u]|]; auto with registry.
  - apply safe_bind; [apply record_of_safe|]. intros [[i u]|]; auto with registry.
Qed.

(** ** Enumeration *)
Lemma nth_from_lookup n i test k :
  nth_from n i test (Z.of_nat k) = filter (fun j => test j = true) (seqZ i (Z.of_nat n)) !! k.
Proof.
  revert i k. induction n as [|n IH]; intros i k; [done|]. rewrite Nat2Z.inj_succ, seqZ_cons, Z.pred_succ by lia. cbn [nth_from].
  destruct (test i) eqn:E.
  - rewrite filter_cons_True by done. destruct k as [|k]; [done|]. rewrite (proj2 (Z.eqb_neq _ _)) by lia. replace (Z.of_nat (S k) - 1) with (Z.of_nat k) by lia. apply IH.
  - rewrite filter_cons_False by congruence. apply IH.
Qed.

Lemma count_filter (test : Z -> bool) n i acc : 0 <= n ->
  for_range i n (fun j c => if test j then c + 1 else c) acc = acc + Z.of_nat (length (filter (fun j => test j = true) (seqZ i n))).
Proof.
  intros Hn. unfold for_range. generalize (seqZ i n). intros l. revert acc. induction l as [|j l IH]; intros acc; cbn [fold_left]; [cbn; lia|]. rewrite IH. destruct (test j) eqn:E.
  - rewrite filter_cons_True by done. cbn. lia.
  - rewrite filter_cons_False by congruence. done.
Qed.

(** The entries of the values of a key, in the order of the table. *)
Definition entries (r : registry) (i : Z) : list Z := filter (fun j => is_value r i j = true) (seqZ 0 256).

Lemma entries_is r i j : j ∈ entries r i <-> exists n, value_is r j i n.
Proof.
  unfold entries. rewrite list_elem_of_filter, elem_of_seqZ. unfold is_value, value_is, value_index, REG_MAX_VALUES. rewrite andb_true_iff, Z.eqb_eq. split.
  - intros [[Hu Hk] Hj]. eexists. repeat split; try done; lia.
  - intros (n & Hj & Hu & Hk & _). repeat split; try done; lia.
Qed.

Lemma entries_content r A i m : inv r -> represents r A -> valid_handle r (KeyAt i) -> A !! named r (KeyAt i) = Some m ->
  map (fun j => (folded (v_name (value_entry r j)), data_of (value_entry r j))) (entries r i) ≡ₚ map_to_list m.
Proof.
  intros Hr HA Hv Em. destruct (open_key r A _ i Hr HA eq_refl Hv) as (m' & _ & Em' & Hm). rewrite Em in Em'. injection Em' as <-.
  assert (Hof : forall j, j ∈ entries r i -> value_is r j i (folded (v_name (value_entry r j)))) by (intros j (n & H1 & H2 & H3 & H4)%entries_is; done).
  apply NoDup_Permutation.
  - apply NoDup_fmap_2_strong; [|apply NoDup_filter, NoDup_seqZ]. intros j j' Hj Hj' [= En _]. apply (in_values_once r Hr j j' i (folded (v_name (value_entry r j)))); [by apply Hof|].
    rewrite En. by apply Hof.
  - apply NoDup_map_to_list.
  - intros [n x]. rewrite elem_of_map_to_list, list_elem_of_fmap. specialize (Hm n). split.
    + intros (j & [= -> ->] & Hj). apply Hof in Hj. destruct (m !! _) as [y|]; [|by apply Hm in Hj]. destruct Hm as (j' & Hj' & <-).
      by rewrite (in_values_once r Hr j j' i _ Hj Hj').
    + intros E. rewrite E in Hm. destruct Hm as (j & Hj & <-). exists j. pose proof Hj as (_ & _ & _ & <-). split; [done|]. apply entries_is. by eexists.
Qed.

(** Asking for the values of a key one index after another lists the contents of
    the key, each value once with its name as it was given, its type and its
    data, and ends after as many as RegQueryInfoKeyW counts. *)
Theorem RegEnumValueW_complete (r : registry) (A : tree) (i : Z) (m : gmap (list Z) (Z * list Z)) :
  inv r -> represents r A -> valid_handle r (KeyAt i) -> A !! named r (KeyAt i) = Some m ->
  exists l : list (list Z * (Z * list Z)),
    map (fun e : list Z * (Z * list Z) => (folded e.1, e.2)) l ≡ₚ map_to_list m /\
    (forall k : nat, RegEnumValueW (KeyAt i) (Z.of_nat k) true (Some REG_MAX_NAME) true true (Some REG_MAX_DATA) r = Some (
       match l !! k with
       | Some (n, (ty, d)) => (ERROR_SUCCESS, mkEntry (Some n) (Some (Z.of_nat (length n))) (Some ty) (Some d) (Some (Z.of_nat (length d))))
       | None => (ERROR_NO_MORE_ITEMS, no_entry)
       end, r)) /\
    exists info, RegQueryInfoKeyW (KeyAt i) r = Some ((ERROR_SUCCESS, Some info), r) /\ i_values info = Z.of_nat (length l).
Proof.
  intros Hr HA Hv Em. pose proof (entries_content r A i m Hr HA Hv Em) as Hp.
  exists (map (fun j => (v_name (value_entry r j), data_of (value_entry r j))) (entries r i)). split; [by rewrite map_map|]. split.
  - intros k. unfold RegEnumValueW. rewrite (reg_step _ _ _ _ _ (used_key_runs r i (proj1 Hv) (proj2 Hv))). unfold reads.
    rewrite (nth_from_lookup 256 0 (is_value r i) k). change (filter _ (seqZ 0 (Z.of_nat 256))) with (entries r i). rewrite list_lookup_fmap. destruct (entries r i !! k) as [j|] eqn:Ej; [|done].
    apply list_elem_of_lookup_2, entries_is in Ej as (n & Hj). destruct (in_value r Hr j i n Hj) as (_ & Hl). destruct (in_data r Hr j (proj1 Hj)) as [Hd Hs].
    cbn [fmap option_fmap option_map data_of]. unfold data_of. unfold REG_MAX_NAME, REG_MAX_DATA in *. rewrite (proj2 (Z.leb_gt _ _)), (proj2 (Z.ltb_ge _ _)) by lia. cbn [negb orb].
    unfold reg_ascii_to_wide. rewrite take_ge by lia. rewrite length_take, Hd. replace (Z.of_nat (Z.to_nat (v_size (value_entry r j)) `min` 1024)) with (v_size (value_entry r j)) by lia. done.
  - eexists. unfold RegQueryInfoKeyW. rewrite (reg_step _ _ _ _ _ (used_key_runs r i (proj1 Hv) (proj2 Hv))). split; [reflexivity|]. cbn [i_values].
    rewrite (count_filter (is_value r i)) by done. by rewrite length_map.
Qed.

(** ** Every well-formed registry represents a tree *)
Definition contents (r : registry) (i : Z) : gmap (list Z) (Z * list Z) :=
  list_to_map (map (fun j => (folded (v_name (value_entry r j)), data_of (value_entry r j))) (entries r i)).
Definition used_keys (r : registry) : list Z := filter (fun i => k_used (key_entry r i) = true) (seqZ 0 128).
Definition tree_of (r : registry) : tree := list_to_map (map (fun i => (folded (k_path (key_entry r i)), contents r i)) (used_keys r)).

Lemma list_to_map_of {B} (f : Z -> list Z) (g : Z -> B) (l : list Z) n :
  match (list_to_map (map (fun j => (f j, g j)) l) : gmap (list Z) B) !! n with
  | Some x => exists j, j ∈ l /\ f j = n /\ g j = x
  | None => forall j, j ∈ l -> f j <> n
  end.
Proof.
  destruct (_ !! n) as [x|] eqn:E.
  - apply elem_of_list_to_map_2, list_elem_of_fmap in E as (j & [= -> ->] & Hj). by exists j.
  - intros j Hj <-. apply not_elem_of_list_to_map in E. apply E. rewrite <- list_fmap_compose. apply list_elem_of_fmap. by exists j.
Qed.

Lemma tree_of_represents r : represents r (tree_of r).
Proof.
  intros p. assert (Hkey : forall i, i ∈ used_keys r <-> key_index i /\ k_used (key_entry r i) = true).
  { intros i. unfold used_keys. rewrite list_elem_of_filter, elem_of_seqZ. unfold key_index, REG_MAX_KEYS. intuition lia. }
  pose proof (list_to_map_of (fun i => folded (k_path (key_entry r i))) (contents r) (used_keys r) p) as Hp.
  unfold tree_of. destruct (list_to_map _ !! p) as [m|].
  - destruct Hp as (i & [Hi Hu]%Hkey & Hf & <-). exists i. split; [done|]. intros n. unfold contents.
    pose proof (list_to_map_of (fun j => folded (v_name (value_entry r j))) (fun j => data_of (value_entry r j)) (entries r i) n) as Hn.
    destruct (list_to_map _ !! n) as [x|].
    + destruct Hn as (j & (n' & H1 & H2 & H3 & H4)%entries_is & <- & <-). by exists j.
    + intros j Hj. apply (Hn j); [apply entries_is; by eexists | apply Hj].
  - intros i (Hi & Hu & Hf). apply (Hp i); [by apply Hkey | done].
Qed.

(** ** A registry as it is after the first call *)
Definition seeded : registry := match registry_init registry_start with Some (_, r) => r | None => registry_start end.

Lemma seeded_inv : inv seeded.
Proof. apply (init_safe registry_start tt seeded start_inv). vm_compute. reflexivity. Qed.

(** The value "Start" of the key of the service "Net" becomes 4; the key is the entry
    number 12. *)
Definition net_key : HKEY := KeyAt 12.

Lemma registry_refines_witness :
  exists a r', perform (SetValue net_key (cstr "sTART") REG_DWORD [4; 0; 0; 0]) seeded = Some (a, r') /\ a = Ok /\ inv r'.
Proof.
  destruct (registry_refines (SetValue net_key (cstr "sTART") REG_DWORD [4; 0; 0; 0]) seeded (tree_of seeded)) as (a & r' & A' & E & Hs & Hr & _);
    [exact seeded_inv | vm_compute; reflexivity | apply tree_of_represents | |].
  - split; [eexists; reflexivity|]. split; vm_compute; [split; [discriminate|reflexivity] | reflexivity].
  - assert (Ha : option_map fst (perform (SetValue net_key (cstr "sTART") REG_DWORD [4; 0; 0; 0]) seeded) = Some Ok) by (vm_compute; reflexivity).
    rewrite E in Ha. injection Ha as Ha. exists a, r'. split; [exact E|]. split; [exact Ha | exact Hr].
Defined.

Lemma registry_reachable_inv_witness : reachable seeded /\ inv seeded.
Proof.
  assert (Hreach : reachable seeded) by (apply (reach_flush registry_start HNull ERROR_SUCCESS); [apply reach_start | vm_compute; reflexivity]).
  split; [exact Hreach | exact (registry_reachable_inv seeded Hreach)].
Defined.

Lemma RegEnumValueW_complete_witness :
  exists l : list (list Z * (Z * list Z)), length l = 2%nat /\
    RegEnumValueW net_key 1 true (Some REG_MAX_NAME) true true (Some REG_MAX_DATA) seeded
    = Some (match l !! 1%nat with
            | Some (n, (ty, d)) => (ERROR_SUCCESS, mkEntry (Some n) (Some (Z.of_nat (length n))) (Some ty) (Some d) (Some (Z.of_nat (length d))))
            | None => (ERROR_NO_MORE_ITEMS, no_entry)
            end, seeded).
Proof.
  destruct (RegEnumValueW_complete seeded (tree_of seeded) 12 (contents seeded 12)) as (l & Hp & He & _).
  - exact seeded_inv.
  - apply tree_of_represents.
  - split; vm_compute; [split; [discriminate|reflexivity] | reflexivity].
  - vm_compute. reflexivity.
  - exists l. split; [|exact (He 1%nat)]. apply Permutation_length in Hp. rewrite length_map in Hp. rewrite Hp. vm_compute. reflexivity.
Defined.

(** ** What goes wrong *)
Definition answers {A} (f : reg A) : option A := option_map fst (f registry_start).

(** A new key is entered with the handle it was created under as its root, and
    enumeration compares roots: a key created under an open key is not listed. *)
Theorem created_subkey_not_listed :
  answers ('(_, a, _) ← RegCreateKeyExW HKEY_LOCAL_MACHINE (Some (cstr "A")) true;
           RegCreateKeyExW (default HNull a) (Some (cstr "B")) true;;
           opened ← RegOpenKeyExW HKEY_LOCAL_MACHINE (Some (cstr "A\B")) true;
           listed ← RegEnumKeyExW (default HNull a) 0 true (Some 64);
           mret (opened.1, listed.1)) = Some (ERROR_SUCCESS, ERROR_NO_MORE_ITEMS).
Proof. vm_compute. reflexivity. Qed.

(** Keys are found up to case but enumerated exactly: a subkey whose path spells its
    parent differently is not listed. *)
Theorem other_case_not_listed :
  answers ('(_, a, _) ← RegCreateKeyExW HKEY_LOCAL_MACHINE (Some (cstr "Soft")) true;
           RegCreateKeyExW HKEY_LOCAL_MACHINE (Some (cstr "SOFT\B")) true;;
           opened ← RegOpenKeyExW (default HNull a) (Some (cstr "B")) true;
           listed ← RegEnumKeyExW (default HNull a) 0 true (Some 64);
           mret (opened.1, listed.1)) = Some (ERROR_SUCCESS, ERROR_NO_MORE_ITEMS).
Proof. vm_compute. reflexivity. Qed.

(** The path under an open key is put together without regard to the length of the
    array. *)
Theorem long_subkey_overflows :
  let long := replicate 200 65 in
  answers (RegCreateKeyExW HKEY_LOCAL_MACHINE (Some long) true) = Some (ERROR_SUCCESS, Some (KeyAt 17), Some REG_CREATED_NEW_KEY) /\
  answers ('(_, a, _) ← RegCreateKeyExW HKEY_LOCAL_MACHINE (Some long) true; RegOpenKeyExW (default HNull a) (Some long) true) = None.
Proof. split; vm_compute; reflexivity. Qed.

(** Values of a predefined root: its handle is taken for the address of a key. *)
Theorem root_value_undefined :
  answers (RegSetValueExW HKEY_LOCAL_MACHINE (Some (cstr "x")) REG_DWORD (Some [1; 0; 0; 0]) 4) = None.
Proof. vm_compute. reflexivity. Qed.

(** A value set without data keeps the bytes of the value that had the entry
    before, here one of another key that was deleted. *)
Theorem stale_data_shown :
  answers ('(_, a, _) ← RegCreateKeyExW HKEY_LOCAL_MACHINE (Some (cstr "A")) true;
           '(_, b, _) ← RegCreateKeyExW HKEY_CURRENT_USER (Some (cstr "B")) true;
           RegSetValueExW (default HNull a) (Some (cstr "secret")) 3 (Some [1; 2; 3; 4]) 4;;
           RegDeleteValueW (default HNull a) (Some (cstr "secret"));;
           RegSetValueExW (default HNull b) (Some (cstr "x")) 3 None 4;;
           q ← RegQueryValueExW (default HNull b) (Some (cstr "x")) true true (Some 4);
           mret (q_data q.2)) = Some (Some [1; 2; 3; 4]).
Proof. vm_compute. reflexivity. Qed.

(** A deleted service keeps its entry, which find_service still finds: it can neither
    be started nor created again. *)
Theorem deleted_service_blocks :
  answers (s ← CreateServiceW (Some (cstr "Spool")) None 1 2 0 None None;
           DeleteService s;;
           started ← StartServiceW s;
           again ← CreateServiceW (Some (cstr "Spool")) None 1 2 0 None None;
           mret (s, started, again)) = Some (ScRecord 0, false, ScNull).
Proof. vm_compute. reflexivity. Qed.

End RegistrySpec.
