(* ===== verification/Driver.v ===== *)
(** * kernel/io/driver.c, kernel/io/driver_stubs.c: loading drivers

    Drivers are files of the boot medium.  A service of the boot table whose
    descriptor names an image is read with [CdfsReadFile], loaded, linked and
    relocated by the image loader, entered in the table of loaded drivers and
    given to its [DriverEntry]; some images then take over the kernel's stubs.
    The state puts the components together: the loader's ([Pe]) over a kernel
    made of [Cdfs] (which holds [Ob], [Io] and the heap) and the stub pointers.
    Code of the loaded images is an argument that runs what is at an address.
    Serial log lines are left out. *)

From stdpp Require Import base list numbers gmap strings.
From Stdlib Require Import ZArith Lia.
From S2P Require Import Prelude.
From S2P Require Import Util.
From S2P Require Import Pmm.
From S2P Require Import Vmm.
From S2P Require Import Mm.
From S2P Require Import Sim.
From S2P Require Import Ob.
From S2P Require Import Service.
From S2P Require Import Io.
From S2P Require Import Hw.
From S2P Require Import Fat32.
From S2P Require Import Cdfs.
From S2P Require Import Ram.
From S2P Require Import Pe.
From S2P Require Import PeSpec.
Import Util Vmm Ob Io Hw Fat32 Cdfs Pe PeSpec.

Module Driver.

(** ** The kernel under the loader *)

(** [stubs]: the pointers of driver_stubs.c that are set, by symbol. *)
Record platform (D H : Type) := mkPlatform { system : @sys D H; stubs : gmap (list Z) Z }.
Arguments mkPlatform {D H}. Arguments system {D H}. Arguments stubs {D H}.

Definition stub {D H} (name : list Z) (k : platform D H) : Z := default 0 (stubs k !! name).

Definition set_system {D H} (k : platform D H) (s : @sys D H) : platform D H := mkPlatform s (stubs k).

(** The heap of the machine, for the service manager's own table. *)
#[export] Instance platform_heap {D H} `{KernelHeap H} : KernelHeap (option (pe (platform D H))).
Proof.
  refine {| kh_ok := fun w => match w with Some st => kh_ok (heap (kern (system (kernel st)))) | None => False end;
    kh_live := fun w => match w with Some st => kh_live (heap (kern (system (kernel st)))) | None => ∅ end;
    kh_malloc := fun n w => st ← w; '(p, h) ← kh_malloc n (heap (kern (system (kernel st))));
      Some (p, Some (set_kernel st (set_system (kernel st) (set_sys_heap (system (kernel st)) h))));
    kh_free := fun p w => st ← w; h ← kh_free p (heap (kern (system (kernel st))));
      Some (Some (set_kernel st (set_system (kernel st) (set_sys_heap (system (kernel st)) h)))) |}.
  - intros [st|] n Hok Hn; [|done]. destruct (kh_malloc_spec _ n Hok Hn) as (p & h' & E & Hok' & Hc). cbn. rewrite E. cbn.
    by eexists p, _.
  - intros [st|] p Hok; [|done]. destruct (kh_free_spec _ p Hok) as (h' & E & Hf). cbn. rewrite E. cbn. by eexists.
  - intros [st|] Hok; [|done]. by apply kh_live_null.
  - intros [st|] p cap Hok; [|done]. by apply kh_live_bounds.
Defined.

Section driver.
Context {D H : Type} `{Bus D} `{KernelHeap H} (a : arch).
Context (dispatch : Z -> Z -> IO_REQUEST -> ob H (io D) -> option (Z * IO_REQUEST * ob H (io D))).
Context (run_unload : Z -> Z -> ob H (io D) -> option (ob H (io D))).
Context (stack : Z) (chain : nat) (vol : FAT32_VOLUME).
(** Code of a loaded CDFS.SYS, at the address of its [CdfsReadFile]. *)
Context (run_read_file : Z -> list Z -> platform D H -> option (option (Z * Z) * platform D H)).

(** The stub of [CdfsReadFile]: the driver's, or the one linked in. *)
Definition CdfsReadFile_stub (path : list Z) (k : platform D H) : option (option (Z * Z) * platform D H) :=
  let p := stub (cstr "CdfsReadFile") k in
  if negb (p =? 0) then run_read_file p path k else
  '(r, s) ← CdfsReadFile a dispatch stack chain vol (Some path) (system k);
  Some (match r with Some (buffer, size, _) => Some (buffer, size) | None => None end, set_system k s).

#[local] Instance platform_kernel : Kernel (platform D H).
Proof.
  refine {| k_ram := fun k => ram (system k); k_set_ram := fun m k => set_system k (set_ram (system k) m);
    k_malloc := fun n k => '(p, h) ← kh_malloc n (heap (kern (system k))); Some (p, set_system k (set_sys_heap (system k) h));
    k_free := fun p k => h ← kh_free p (heap (kern (system k))); Some (set_system k (set_sys_heap (system k) h));
    k_read_file := CdfsReadFile_stub |}.
  - done.
  - intros n s p s'. destruct (kh_malloc _ _) as [[q h]|]; cbn; [|done]. by intros [= <- <-].
  - intros p s s'. destruct (kh_free _ _) as [h|]; cbn; [|done]. by intros [= <-].
Defined.

Context (walk depth : nat) (kernel_exports : list (list Z * Z)).
Context (call_dllmain : Z -> Z -> loader (platform D H) unit).
(** [DriverEntry(driver, context)] at an address, and a [void] function of a
    driver that a stub installation calls. *)
Context (call_entry : Z -> Z -> Z -> loader (platform D H) Z) (call_void : Z -> loader (platform D H) unit).

Abbreviation boot A := (loader (platform D H) A).

Definition on_io {A} (f : ob H (io D) -> option (A * ob H (io D))) : boot A := fun st =>
  let s := system (kernel st) in
  '(x, k) ← f (kern s); Some (x, set_kernel st (set_system (kernel st) (set_kern s k))).

Definition load_dll : list Z -> boot Z := PeLoadDll a walk kernel_exports call_dllmain depth.

(** ** driver_stubs.c: installation *)
Definition put_stub (name : list Z) (p : Z) : boot unit := fun st =>
  Some (tt, set_kernel st (mkPlatform (system (kernel st)) (<[name := p]> (stubs (kernel st))))).
Definition RESOLVE (image : Z) (name : list Z) : boot unit := p ← get_proc a walk image name; put_stub name p.

Fixpoint resolve_all (image : Z) (names : list (list Z)) : boot unit :=
  match names with [] => mret tt | n :: names => RESOLVE image n;; resolve_all image names end.

(** [if (p) p();] *)
Definition call_stub (name : list Z) : boot unit := fun st =>
  let p := stub name (kernel st) in if p =? 0 then Some (tt, st) else call_void p st.

Definition DriverInstallSerial (image : Z) : boot unit :=
  resolve_all image (map cstr ["SerialInit"; "SerialPutChar"; "SerialPutString"; "SerialPrintHex"; "SerialPrintDec"]%string);;
  call_stub (cstr "SerialInit").
Definition DriverInstallVga (image : Z) : boot unit :=
  resolve_all image (map cstr ["VgaInit"; "VgaClearScreen"; "VgaPutPixel"; "VgaFillRect"; "VgaDrawRect"; "VgaDrawChar";
    "VgaDrawString"; "VgaSwapBuffers"]%string).
Definition DriverInstallCdfs (image : Z) : boot unit :=
  resolve_all image (map cstr ["CdfsInit"; "CdfsReadSector"; "CdfsFindFile"; "CdfsReadFile"]%string);;
  (if negb (Fat32IsMounted vol) then call_stub (cstr "CdfsInit") else mret tt).
Definition DriverInstallKeyboard (image : Z) : boot unit :=
  resolve_all image (map cstr ["KeyboardInit"; "KeyboardHandleData"; "KeyboardHandleControllerEvent"; "KeyboardPollEvent"]%string).
Definition DriverInstallMouse (image : Z) : boot unit :=
  resolve_all image (map cstr ["MouseInit"; "MouseGetState"; "MouseDrawCursor"; "MouseEraseCursor"; "MouseSetCursorType";
    "MouseHandleByte"; "MouseHandleInterrupt"]%string).
Definition DriverInstallNet (image : Z) : boot unit :=
  resolve_all image (map cstr ["NetInit"; "NetPoll"; "NetIsReady"; "NetPing"; "NetResolve"]%string).
Definition DriverInstallFb (image : Z) : boot unit :=
  resolve_all image (map cstr ["FbInit"; "FbClearScreen"; "FbPutPixel"; "FbFillRect"; "FbFillRectRGB"; "FbDrawRect";
    "FbDrawChar"; "FbDrawString"; "FbDrawCharTransparent"; "FbDrawStringTransparent"; "FbGetPixelRGB"; "FbPutPixelRGB";
    "FbPaintWallpaper"; "FbCaptureRGB"; "FbBlitRGB"; "FbSetClipRect"; "FbResetClipRect"; "FbSwapBuffers";
    "FbIsFramebuffer"; "FbGetWidth"; "FbGetHeight"; "FbGetModeCount"; "FbGetModeInfo"; "FbSetResolution"; "FbGetPixel";
    "FbCapture"; "FbBlitIndexed"]%string).
Definition DriverInstallWin32k (image : Z) : boot unit :=
  resolve_all image (map cstr ["Win32kInit"; "Win32kRegisterClass"; "Win32kCreateWindow"; "Win32kCreateWindowByClass";
    "Win32kShowWindow"; "Win32kUpdateWindow"; "Win32kGetClientRect"; "Win32kGetClientScreenRect"; "Win32kGetWindowRect";
    "Win32kDestroyWindow"; "Win32kHandleMouseDown"; "Win32kHandleMouseUp"; "Win32kHandleMouseMove"; "Win32kRedrawAll";
    "Win32kSetColorPreview"; "Win32kRefreshCursor"; "Win32kIsDragging"; "Win32kIsResizing"; "Win32kGetActiveWindow";
    "Win32kActivateWindow"; "Win32kSetWindowIcons"]%string).

(** ** driver.c *)
Definition driver_call_entry (name : list Z) (image context : Z) : boot Z :=
  entry ← get_proc a walk image (cstr "DriverEntry");
  driver ← on_io (IoCreateDriver a (Some name) image context);
  if driver =? 0 then mret 0 else
  if entry =? 0 then mret 1 else
  on_io (fun k => Some (tt, IoSetCurrentDriver driver k));;
  status ← call_entry entry driver context;
  on_io (fun k => Some (tt, IoSetCurrentDriver 0 k));;
  (if status =? 0 then on_io (fun k => k ← IoDeleteDriver run_unload driver k; Some (tt, k)) else mret tt);;
  mret status.

Definition put_drivers (l : list (list Z * Z)) : boot unit := fun st =>
  Some (tt, mkPe (kernel st) (dll_list st) (pe_last_error st) (pe_current_loading_dll st) (pe_loading_stack st) (pe_loading_driver st) l).

(** [strcpy] into [path[64]]. *)
Definition driver_register_image (path : list Z) (image : Z) : boot bool :=
  st ← get_state;
  if 16 <=? Z.of_nat (Datatypes.length (loaded_drivers st)) then mret false else
  if 64 <=? Z.of_nat (Datatypes.length path) then lift None else
  put_drivers ((path, image) :: loaded_drivers st);; mret true.

(** The chain of [strcmp]s on the service's name. *)
Definition driver_install (name : list Z) (image : Z) : boot unit :=
  let named s := strcmp name (cstr s) =? 0 in
  if named "Win32k"%string then DriverInstallWin32k image
  else if named "Serial"%string then DriverInstallSerial image
  else if named "Vga"%string then DriverInstallVga image
  else if named "Cdfs"%string then DriverInstallCdfs image
  else if named "Keyboard"%string then DriverInstallKeyboard image
  else if named "Mouse"%string then DriverInstallMouse image
  else if named "Net"%string then DriverInstallNet image
  else if named "Framebuffer"%string then DriverInstallFb image
  else mret tt.

Definition driver_load_one (context : Z) (service : Service.SERVICE_DESCRIPTOR) : boot bool :=
  match Service.image_path service with
  | None => mret true
  | Some path =>
      file ← read_file path;
      match file with
      | None => mret false
      | Some (file_buf, file_size) =>
          PeSetLoadingDriver true;;
          image ← PeLoadImage a walk (PeResolveExternalSymbol a walk kernel_exports load_dll) file_buf file_size;
          PeSetLoadingDriver false;;
          pe_free file_buf;;
          if image =? 0 then mret false else
          ok ← PeResolveImports a walk load_dll image;
          if negb ok then PeFreeImage a image;; mret false else
          m ← get_ram;
          (if negb (ld32 m image =? ELF_MAGIC) then m ← lift (PePerformRelocations a walk image m); put_ram m else mret tt);;
          driver_register_image path image;;
          status ← driver_call_entry (Service.name service) image context;
          if status =? 0 then mret false else
          driver_install (Service.name service) image;; mret true
      end
  end.

(** The service manager's view of the machine: [None] once something undefined
    has happened, from when on nothing counts, as [DriverLoadAll] is then undefined. *)
Definition start_driver (context : Z) (service : Service.SERVICE_DESCRIPTOR) (w : option (pe (platform D H)))
  : bool * option (pe (platform D H)) :=
  match w ≫= driver_load_one context service with Some (ok, st) => (ok, Some st) | None => (false, None) end.

Definition world_defined (st : Service.svc (option (pe (platform D H)))) : bool :=
  match Service.world st with Some _ => true | None => false end.

(** On LA64 the drivers are linked in.  The result is undefined when a call was. *)
Definition DriverLoadAll (mb_info : Z) (st : Service.svc (option (pe (platform D H))))
  : option (Service.svc (option (pe (platform D H)))) :=
  match a with
  | LA64 => Some st
  | X86 | AMD64 =>
      '(_, st) ← Service.ServiceManagerStart (start_driver mb_info) a Service.driver_services (Service.ServiceManagerInitialize st);
      if world_defined st then Some st else None
  end.

End driver.

End Driver.
