(* ===== verification/DriverSpec.v ===== *)
(** * Driver start-up: what is loaded, in which order

    The run of the service manager over [driver_load_one] is matched with a log of
    its start calls; the log's order comes from [Service], what each call leaves
    in the table of loaded drivers from the image loader's frame lemmas. *)

From stdpp Require Import base list numbers gmap strings.
From Stdlib Require Import ZArith Lia.
From S2P Require Import Prelude.
From S2P Require Import Util.
From S2P Require Import Pmm.
From S2P Require Import Vmm.
From S2P Require Import Mm.
From S2P Require Import Sim.
From S2P Require Import Ob.
From S2P Require Import Service.
From S2P Require Import Io.
From S2P Require Import Hw.
From S2P Require Import Fat32.
From S2P Require Import Cdfs.
From S2P Require Import Ram.
From S2P Require Import Pe.
From S2P Require Import PeSpec.
From S2P Require Import Driver.
Import Util Vmm Ob Io Hw Fat32 Cdfs Pe PeSpec Driver.

Module DriverSpec.
Import Service.

(** ** Runs with and without a log *)
Section erase.
Context {W : Type} (start : SERVICE_DESCRIPTOR -> W -> bool * W) (ds : list SERVICE_DESCRIPTOR).

Definition logged : SERVICE_DESCRIPTOR -> W * list event -> bool * (W * list event) :=
  logged_start (fun d w _ => start d w).
Definition erase (st : svc (W * list event)) : svc W := mkSvc (service_runtime st) (service_runtime_count st) (fst (world st)).

Lemma start_dependencies_erase call call' deps st r st' :
  (forall i s b s', call i s = Some (b, s') -> call' i (erase s) = Some (b, erase s')) ->
  start_dependencies call deps st = Some (r, st') -> start_dependencies call' deps (erase st) = Some (r, erase st').
Proof.
  intros Hc. revert st. induction deps as [|dep deps IH]; intros st; cbn [start_dependencies]; [by intros [= <- <-]|].
  change (service_index dep (erase st)) with (service_index dep st). destruct (service_index dep st) as [i|]; [|done].
  destruct (i <? 0); [by intros [= <- <-]|].
  destruct (call i st) as [[[] s1]|] eqn:E; [| |done]; rewrite (Hc _ _ _ _ E); [apply IH | by intros [= <- <-]].
Qed.

Lemma start_one_erase fuel : forall i st r st',
  service_start_one logged fuel i st = Some (r, st') -> service_start_one start fuel i (erase st) = Some (r, erase st').
Proof.
  induction fuel as [|fuel IH]; intros i st r st'; cbn [service_start_one]; [done|].
  change (service_runtime (erase st)) with (service_runtime st). destruct (service_runtime st !! Z.to_nat i) as [rt|]; [|done].
  destruct (state rt); try (by intros [= <- <-]).
  change (set_state i SERVICE_START_PENDING (erase st)) with (erase (set_state i SERVICE_START_PENDING st)).
  destruct (start_dependencies _ _ (set_state _ _ st)) as [[ok s1]|] eqn:Ed; [|done].
  rewrite (start_dependencies_erase _ _ _ _ _ _ IH Ed). destruct ok; [|by intros [= <- <-]].
  unfold logged at 1, logged_start. change (world (erase s1)) with (fst (world s1)).
  destruct (start (descriptor rt) (fst (world s1))) as [[] w]; by intros [= <- <-].
Qed.

Lemma start_phases_erase fuel ts st st' :
  start_phases logged fuel ts ds st = Some st' -> start_phases start fuel ts ds (erase st) = Some (erase st').
Proof.
  assert (Hphase : forall t rest i s s', start_phase logged fuel t rest i s = Some s' -> start_phase start fuel t rest i (erase s) = Some (erase s')).
  { intros t rest. induction rest as [|d rest IH]; intros i s s'; cbn [start_phase]; [by intros [= <-]|].
    destruct (start_type d =? t); [|apply IH].
    destruct (service_start_one _ fuel i s) as [[b s1]|] eqn:E; [|done]. rewrite (start_one_erase _ _ _ _ _ E). apply IH. }
  revert st. induction ts as [|t ts IH]; intros st; cbn [start_phases]; [by intros [= <-]|].
  destruct (start_phase _ fuel t ds 0 st) as [s1|] eqn:E; [|done]. rewrite (Hphase _ _ _ _ _ E). apply IH.
Qed.

Lemma ServiceManagerStart_erase `{KernelHeap W} a st r st' :
  ServiceManagerStart logged a ds st = Some (r, st') -> ServiceManagerStart start a ds (erase st) = Some (r, erase st').
Proof.
  unfold ServiceManagerStart. change (world (erase st)) with (fst (world st)). cbn [kh_malloc heap_beside].
  destruct (Z.of_nat (Datatypes.length ds) =? 0); [by intros [= <- <-]|].
  destruct (kh_malloc _ (fst (world st))) as [[p w]|]; cbn [fmap option_fmap option_map fst snd]; [|done].
  destruct (p =? 0); [by intros [= <- <-]|].
  match goal with |- context [start_phases logged ?f ?ts ds ?s] => pose proof (start_phases_erase f ts s) as He; destruct (start_phases logged f ts ds s) as [s1|] end; [|done].
  specialize (He _ eq_refl). change (erase _) with (mkSvc (map (fun s => mkRuntime s SERVICE_STOPPED) ds) (Datatypes.length ds) w) in He at 1.
  rewrite He. by intros [= <- <-].
Qed.

End erase.

(** Nothing is started without a table. *)
Lemma start_zero {W} `{KernelHeap W} (start : SERVICE_DESCRIPTOR -> W -> bool * W) a ds st st' :
  ds <> [] -> ServiceManagerStart start a ds st = Some (0, st') -> service_runtime st' = [].
Proof.
  intros Hne. unfold ServiceManagerStart. destruct (Z.eqb_spec (Z.of_nat (Datatypes.length ds)) 0); [by destruct ds|].
  destruct (kh_malloc _ _) as [[p w]|]; [|done]. destruct (p =? 0); [by intros [= <-]|]. by destruct (start_phases _ _ _ _ _).
Qed.

(** A property of the rest of the kernel that every start routine keeps. *)
Section world.
Context {W : Type} (start : SERVICE_DESCRIPTOR -> W -> bool * W) (ds : list SERVICE_DESCRIPTOR) (I : W -> Prop).
Context (Hstart : forall d w ok w', d ∈ ds -> I w -> start d w = (ok, w') -> I w').

Lemma start_one_world fuel : forall i st r st',
  shape ds st -> in_table ds i -> I (world st) -> service_start_one start fuel i st = Some (r, st') -> I (world st').
Proof.
  induction fuel as [|fuel IH]; intros i st r st' Hs Hi HI; cbn [service_start_one]; [done|].
  destruct (shape_lookup ds st i Hs Hi) as (rt & -> & Hd). destruct (state rt); try (by intros [= <- <-]).
  assert (Hdeps : forall deps s b s', shape ds s -> I (world s) ->
    start_dependencies (service_start_one start fuel) deps s = Some (b, s') -> I (world s')).
  { induction deps as [|dep deps IHd]; intros s b s' Hs' HI'; cbn [start_dependencies]; [by intros [= <- <-]|].
    rewrite (service_index_resolve ds) by done. destruct (Z.ltb_spec (resolve ds dep) 0); [by intros [= <- <-]|].
    pose proof (resolve_range ds dep ltac:(lia)) as Hj.
    destruct (service_start_one start fuel _ s) as [[[] s1]|] eqn:E; [| |done].
    - intros E2. eapply IHd; [..|exact E2]; [by destruct (start_one_post start ds fuel _ _ _ _ Hs' Hj E) | by eapply IH].
    - intros [= <- <-]. by eapply IH. }
  destruct (start_dependencies _ _ _) as [[ok s1]|] eqn:Ed; [|done].
  pose proof (Hdeps _ (set_state i SERVICE_START_PENDING st) _ _ (set_state_shape ds i _ st Hs) HI Ed) as HI1.
  destruct ok; [|by intros [= <- <-]]. destruct (start _ _) as [b w] eqn:Es.
  pose proof (Hstart _ _ _ _ (list_elem_of_lookup_2 _ _ _ Hd) HI1 Es). by destruct b; intros [= <- <-].
Qed.

End world.

(** ** One driver *)
Section one.
Context {D H : Type} `{Bus D} `{KernelHeap H} (a : arch).
Context (dispatch : Z -> Z -> IO_REQUEST -> ob H (io D) -> option (Z * IO_REQUEST * ob H (io D))).
Context (run_unload : Z -> Z -> ob H (io D) -> option (ob H (io D))).
Context (stack : Z) (chain : nat) (vol : FAT32_VOLUME).
Context (run_read_file : Z -> list Z -> platform D H -> option (option (Z * Z) * platform D H)).
Context (walk depth : nat) (kernel_exports : list (list Z * Z)).
Context (call_dllmain : Z -> Z -> loader (platform D H) unit).
Context (call_entry : Z -> Z -> Z -> loader (platform D H) Z) (call_void : Z -> loader (platform D H) unit).
(** Code of images leaves the loader's tables to the loader. *)
Context (Hmain : forall e i, keeps (call_dllmain e i)) (Hentry : forall e d c, keeps (call_entry e d c)) (Hvoid : forall p, keeps (call_void p)).

#[local] Instance the_kernel : Kernel (platform D H) := platform_kernel a dispatch stack chain vol run_read_file.

Lemma keeps_on_io {A} (f : ob H (io D) -> option (A * ob H (io D))) : keeps (on_io f).
Proof.
  apply keeps_kernel. intros st x st'. unfold on_io. destruct (f _) as [[y k]|]; cbn; [|done]. intros [= <- <-]. by eexists _, _.
Qed.

Lemma keeps_put_stub n p : keeps (put_stub (D := D) (H := H) n p).
Proof. apply keeps_kernel. intros st x st' [= <- <-]. by eexists _, _. Qed.

Lemma keeps_call_stub n : keeps (call_stub call_void n).
Proof. intros st x st'. unfold call_stub. destruct (_ =? 0); [by intros [= <- <-]|]. apply Hvoid. Qed.

#[local] Hint Resolve keeps_on_io keeps_put_stub keeps_call_stub keeps_get_proc : keeps.

Lemma keeps_resolve_all image names : keeps (resolve_all a dispatch stack chain vol run_read_file walk image names).
Proof. induction names as [|n names IH]; cbn [resolve_all]; unfold RESOLVE; keep. Qed.
#[local] Hint Resolve keeps_resolve_all : keeps.

Lemma keeps_driver_install name image : keeps (driver_install a dispatch stack chain vol run_read_file walk call_void name image).
Proof.
  unfold driver_install, DriverInstallWin32k, DriverInstallSerial, DriverInstallVga, DriverInstallCdfs, DriverInstallKeyboard,
    DriverInstallMouse, DriverInstallNet, DriverInstallFb. keep.
Qed.

Lemma keeps_driver_call_entry name image context :
  keeps (driver_call_entry a dispatch run_unload stack chain vol run_read_file walk call_entry name image context).
Proof. unfold driver_call_entry. keep. Qed.

Lemma keeps_load_dll n : keeps (load_dll a dispatch stack chain vol run_read_file walk depth kernel_exports call_dllmain n).
Proof. intros st x st' E. by eapply (PeLoadDll_result a walk kernel_exports call_dllmain Hmain). Qed.

(** *** The ways a driver's start can go *)
Abbreviation M := (pe (platform D H)).
Abbreviation procedure := (get_proc a walk).
Abbreviation load_one := (driver_load_one a dispatch run_unload stack chain vol run_read_file walk depth kernel_exports call_dllmain call_entry call_void).
Abbreviation load_library := (load_dll a dispatch stack chain vol run_read_file walk depth kernel_exports call_dllmain).

(** The file is read; its image is built while the loader knows that it is a driver's, and the file's memory given back. *)
Definition opens (path : list Z) (m : M) (image : Z) (m' : M) : Prop :=
  exists buf size m1 m2, read_file path m = Some (Some (buf, size), m1) /\
    PeLoadImage a walk (PeResolveExternalSymbol a walk kernel_exports load_library) buf size
      (mkPe (kernel m1) (dll_list m1) (pe_last_error m1) (pe_current_loading_dll m1) (pe_loading_stack m1) true (loaded_drivers m1)) = Some (image, m2) /\
    pe_free buf (mkPe (kernel m2) (dll_list m2) (pe_last_error m2) (pe_current_loading_dll m2) (pe_loading_stack m2) false (loaded_drivers m2)) = Some (tt, m').

(** It is linked, and moved to where it stands unless it is an ELF image. *)
Definition links (image : Z) (m : M) (linked : bool) (m' : M) : Prop := PeResolveImports a walk load_library image m = Some (linked, m').
Definition relocates (image : Z) (m m' : M) : Prop :=
  if ld32 (k_ram (kernel m)) image =? ELF_MAGIC then m' = m
  else exists ram, PePerformRelocations a walk image (k_ram (kernel m)) = Some ram /\ m' = set_kernel m (k_set_ram ram (kernel m)).

(** It becomes the first entry of the table, unless the table is full. *)
Definition enters (path : list Z) (image : Z) (m m' : M) : Prop :=
  if (16 <=? Datatypes.length (loaded_drivers m))%nat then m' = m
  else Z.of_nat (Datatypes.length path) < 64 /\
    m' = mkPe (kernel m) (dll_list m) (pe_last_error m) (pe_current_loading_dll m) (pe_loading_stack m) (pe_loading_driver m) ((path, image) :: loaded_drivers m).

(** The driver's own routine decides; a driver without one is accepted, and one without a driver object refused. *)
Inductive decides (driver_name : list Z) (image context : Z) (m : M) : bool -> M -> Prop :=
| decides_no_object entry m1 m2 : procedure image (cstr "DriverEntry") m = Some (entry, m1) ->
    on_io (IoCreateDriver a (Some driver_name) image context) m1 = Some (0, m2) -> decides driver_name image context m false m2
| decides_no_entry m1 driver m2 : procedure image (cstr "DriverEntry") m = Some (0, m1) ->
    on_io (IoCreateDriver a (Some driver_name) image context) m1 = Some (driver, m2) -> driver <> 0 -> decides driver_name image context m true m2
| decides_accepted entry m1 driver m2 status m3 : procedure image (cstr "DriverEntry") m = Some (entry, m1) -> entry <> 0 ->
    on_io (IoCreateDriver a (Some driver_name) image context) m1 = Some (driver, m2) -> driver <> 0 ->
    (on_io (fun k => Some (tt, IoSetCurrentDriver driver k));; call_entry entry driver context) m2 = Some (status, m3) -> status <> 0 ->
    forall m4, on_io (fun k => Some (tt, IoSetCurrentDriver 0 k)) m3 = Some (tt, m4) -> decides driver_name image context m true m4
| decides_refused entry m1 driver m2 m3 : procedure image (cstr "DriverEntry") m = Some (entry, m1) -> entry <> 0 ->
    on_io (IoCreateDriver a (Some driver_name) image context) m1 = Some (driver, m2) -> driver <> 0 ->
    (on_io (fun k => Some (tt, IoSetCurrentDriver driver k));; call_entry entry driver context) m2 = Some (0, m3) ->
    forall m4 m5, on_io (fun k => Some (tt, IoSetCurrentDriver 0 k)) m3 = Some (tt, m4) ->
    on_io (fun k => k ← IoDeleteDriver run_unload driver k; Some (tt, k)) m4 = Some (tt, m5) -> decides driver_name image context m false m5.

(** What starting the driver of a service may come to. *)
Inductive loads (context : Z) (d : SERVICE_DESCRIPTOR) (m : M) : bool -> M -> Prop :=
| loads_builtin : image_path d = None -> loads context d m true m
| loads_unread path m1 : image_path d = Some path -> read_file path m = Some (None, m1) -> loads context d m false m1
| loads_no_image path m1 : image_path d = Some path -> opens path m 0 m1 -> loads context d m false m1
| loads_unlinked path image m1 m2 m3 : image_path d = Some path -> opens path m image m1 -> image <> 0 ->
    links image m1 false m2 -> PeFreeImage a image m2 = Some (tt, m3) -> loads context d m false m3
| loads_refused path image m1 m2 m3 m4 m5 : image_path d = Some path -> opens path m image m1 -> image <> 0 ->
    links image m1 true m2 -> relocates image m2 m3 -> enters path image m3 m4 -> decides (name d) image context m4 false m5 -> loads context d m false m5
| loads_accepted path image m1 m2 m3 m4 m5 m6 : image_path d = Some path -> opens path m image m1 -> image <> 0 ->
    links image m1 true m2 -> relocates image m2 m3 -> enters path image m3 m4 -> decides (name d) image context m4 true m5 ->
    driver_install a dispatch stack chain vol run_read_file walk call_void (name d) image m5 = Some (tt, m6) -> loads context d m true m6.

Lemma driver_call_entry_decides driver_name image context m status m' :
  driver_call_entry a dispatch run_unload stack chain vol run_read_file walk call_entry driver_name image context m = Some (status, m') ->
  decides driver_name image context m (negb (status =? 0)) m'.
Proof.
  unfold driver_call_entry. intros E. apply bind_Some in E as (entry & m1 & E1 & E). apply bind_Some in E as (driver & m2 & E2 & E).
  destruct (Z.eqb_spec driver 0) as [->|Hd]; [injection E as <- <-; by eapply decides_no_object|].
  destruct (Z.eqb_spec entry 0) as [->|He]; [injection E as <- <-; by eapply decides_no_entry|].
  apply bind_Some in E as (? & m3 & E3 & E). apply bind_Some in E as (st & m4 & E4 & E). apply bind_Some in E as (? & m5 & E5 & E). apply bind_Some in E as (? & m6 & E6 & E).
  injection E as <- <-.
  assert (E34 : (on_io (fun k => Some (tt, IoSetCurrentDriver driver k));; call_entry entry driver context) m2 = Some (st, m4)) by (unfold mbind, loader_bind; by rewrite E3).
  destruct x0. destruct (Z.eqb_spec st 0) as [->|Hst]; cbn [negb].
  - destruct x1. by eapply decides_refused.
  - injection E6 as _ <-. by eapply decides_accepted.
Qed.

Lemma driver_load_one_loads context d m ok m' : load_one context d m = Some (ok, m') -> loads context d m ok m'.
Proof.
  unfold driver_load_one. destruct (image_path d) as [path|] eqn:Ep; [|intros [= <- <-]; by apply loads_builtin].
  intros E. apply bind_Some in E as (file & m1 & E1 & E). destruct file as [[buf size]|]; [|injection E as <- <-; by eapply loads_unread].
  apply bind_Some in E as (? & m2 & [= _ <-] & E). apply bind_Some in E as (image & m3 & E3 & E).
  apply bind_Some in E as (? & m4 & [= _ <-] & E). apply bind_Some in E as ([] & m5 & E5 & E).
  assert (Ho : opens path m image m5) by (by exists buf, size, m1, m3).
  destruct (Z.eqb_spec image 0) as [->|Hi]; [injection E as <- <-; by eapply loads_no_image|].
  apply bind_Some in E as (linked & m6 & E6 & E). destruct linked; cbn [negb] in E.
  2:{ apply bind_Some in E as ([] & m7 & E7 & [= <- <-]). by eapply loads_unlinked. }
  apply bind_Some in E as (ram & ? & [= <- <-] & E). apply bind_Some in E as (? & m7 & E7 & E).
  assert (Hr : relocates image m6 m7).
  { unfold relocates. destruct (_ =? ELF_MAGIC); cbn [negb] in E7; [by injection E7 as _ <-|].
    apply bind_Some in E7 as (ram & ? & E7 & E8). unfold lift in E7. destruct (PePerformRelocations _ _ _ _) as [r|]; [|done]. injection E7 as <- <-.
    injection E8 as _ <-. by exists r. }
  apply bind_Some in E as (? & m8 & E8 & E).
  assert (He : enters path image m7 m8).
  { unfold enters, driver_register_image in *. apply bind_Some in E8 as (? & ? & [= <- <-] & E8).
    destruct (Z.leb_spec 16 (Z.of_nat (Datatypes.length (loaded_drivers m7)))), (Nat.leb_spec 16 (Datatypes.length (loaded_drivers m7))); try lia; [by injection E8 as _ <-|].
    destruct (Z.leb_spec 64 (Z.of_nat (Datatypes.length path))); [done|]. apply bind_Some in E8 as (? & ? & [= _ <-] & [= _ <-]). split; [lia | done]. }
  apply bind_Some in E as (status & m9 & E9 & E). apply driver_call_entry_decides in E9.
  destruct (Z.eqb_spec status 0) as [->|Hs]; cbn [negb] in E9; [injection E as <- <-; by eapply loads_refused|].
  apply bind_Some in E as ([] & m10 & E10 & [= <- <-]). by eapply loads_accepted.
Qed.

(** What a call leaves in the table of drivers. *)
Definition drivers_after (d : SERVICE_DESCRIPTOR) (ok : bool) (l l' : list (list Z * Z)) : Prop :=
  match image_path d with
  | None => ok = true /\ l' = l
  | Some p => (ok = false /\ l' = l) \/ (exists image, image <> 0 /\ l' = (p, image) :: l) \/
              ((16 <= Datatypes.length l)%nat /\ l' = l)
  end.

Lemma driver_load_one_drivers context d st ok st' :
  driver_load_one a dispatch run_unload stack chain vol run_read_file walk depth kernel_exports call_dllmain call_entry call_void context d st
    = Some (ok, st') ->
  drivers_after d ok (loaded_drivers st) (loaded_drivers st').
Proof.
  unfold driver_load_one, drivers_after. destruct (image_path d) as [path|]; [|by intros [= <- <-]].
  assert (K : forall {A} (f : loader (platform D H) A) s x s', keeps f -> f s = Some (x, s') -> loaded_drivers s' = loaded_drivers s).
  { intros A f s x s' Hf E. by destruct (Hf s x s' E) as (_ & _ & _ & Ed & _). }
  intros E. apply bind_Some in E as (file & s1 & E1 & E). apply (K _ _ _ _ _ (keeps_read_file path)) in E1. rewrite <- E1. clear E1 st.
  destruct file as [[file_buf file_size]|]; [|injection E as <- <-; by left].
  apply bind_Some in E as (? & s2 & [= _ <-] & E). apply bind_Some in E as (image & s3 & E3 & E).
  apply K in E3; [|by apply keeps_PeLoadImage; intros n; apply keeps_resolve, keeps_load_dll]. cbn [loaded_drivers] in E3. rewrite <- E3. clear E3 s1.
  apply bind_Some in E as (? & s4 & [= _ <-] & E). apply bind_Some in E as (? & s5 & E5 & E).
  apply (K _ _ _ _ _ (keeps_pe_free _)) in E5. cbn [loaded_drivers] in E5. rewrite <- E5. clear E5 s3.
  destruct (Z.eqb_spec image 0) as [|Hi]; [injection E as <- <-; by left|].
  apply bind_Some in E as (linked & s6 & E6 & E). apply (K _ _ _ _ _ (keeps_PeResolveImports _ _ _ keeps_load_dll image)) in E6. rewrite <- E6. clear E6 s5.
  destruct linked; cbn [negb] in E.
  2:{ apply bind_Some in E as (? & s7 & E7 & [= <- <-]). apply (K _ _ _ _ _ (keeps_PeFreeImage a image)) in E7. by left. }
  apply bind_Some in E as (m & ? & [= <- <-] & E). apply bind_Some in E as (? & s7 & E7 & E).
  apply K in E7; [|keep]. rewrite <- E7. clear E7 s6.
  apply bind_Some in E as (? & s8 & E8 & E). apply bind_Some in E as (status & s9 & E9 & E).
  apply (K _ _ _ _ _ (keeps_driver_call_entry _ _ _)) in E9.
  assert (Elast : loaded_drivers st' = loaded_drivers s9).
  { destruct (status =? 0); [by injection E as _ <-|]. apply bind_Some in E as (? & s10 & E10 & [= _ <-]).
    by apply (K _ _ _ _ _ (keeps_driver_install _ _)) in E10. }
  rewrite Elast, E9. clear E E9 Elast. right. unfold driver_register_image in E8. apply bind_Some in E8 as (? & ? & [= <- <-] & E8).
  destruct (Z.leb_spec 16 (Z.of_nat (Datatypes.length (loaded_drivers s7)))); [right; injection E8 as _ <-; split; [lia | done]|].
  left. exists image. split; [done|]. destruct (64 <=? _); [done|]. by apply bind_Some in E8 as (? & ? & [= _ <-] & [= _ <-]).
Qed.

(** ** All drivers *)

(** [l] (latest first) are start calls and their outcomes, [ps] the images in the
    table of drivers: a service without an image always starts, one that starts
    is in the table, one that does not may be. *)
Inductive trace : list event -> list (list Z) -> Prop :=
| trace_nil : trace [] []
| trace_builtin d l ps : image_path d = None -> trace l ps -> trace ((d, true) :: l) ps
| trace_loaded d p ok l ps : image_path d = Some p -> trace l ps -> trace ((d, ok) :: l) (p :: ps)
| trace_refused d p l ps : image_path d = Some p -> trace l ps -> trace ((d, false) :: l) ps.

Lemma trace_length l ps : trace l ps -> (Datatypes.length ps <= Datatypes.length l)%nat.
Proof. induction 1; cbn [Datatypes.length]; lia. Qed.

Lemma trace_running l ps d p : trace l ps -> (d, true) ∈ l -> image_path d = Some p -> p ∈ ps.
Proof.
  induction 1 as [|d' l ps E T IH|d' p' ok l ps E T IH|d' p' l ps E T IH]; intros Hin Hp.
  - by apply not_elem_of_nil in Hin.
  - apply elem_of_cons in Hin as [[= ->]|Hin]; [congruence | by apply IH].
  - apply elem_of_cons in Hin as [[= -> <-]|Hin]; apply elem_of_cons; [left; congruence | right; by apply IH].
  - apply elem_of_cons in Hin as [[=]|Hin]. by apply IH.
Qed.

(** Behind the image of a running driver there are those of its dependencies. *)
Lemma trace_ordered l ps d p : ordered l -> trace l ps -> (d, true) ∈ l -> image_path d = Some p ->
  exists newer older, ps = newer ++ p :: older /\
    forall dep, dep ∈ dependencies d -> exists d', name d' = dep /\ (d', true) ∈ l /\ (forall p', image_path d' = Some p' -> p' ∈ older).
Proof.
  intros Ho T Hin Hp. induction T as [|d' l ps E T IH|d' p' ok l ps E T IH|d' p' l ps E T IH]; [by apply not_elem_of_nil in Hin|..].
  all: destruct Ho as (Hdeps & _ & Ho).
  all: assert (Hrest : (d, true) ∈ l -> exists newer older, ps = newer ++ p :: older /\ forall dep, dep ∈ dependencies d ->
    exists d'', name d'' = dep /\ (forall b, (d'', true) ∈ (d', b) :: l) /\ (forall p', image_path d'' = Some p' -> p' ∈ older))
    by (intros Hl; destruct (IH Ho Hl) as (newer & older & Eq & Hd); exists newer, older; split; [done|]; intros dep Hdep;
        destruct (Hd dep Hdep) as (d'' & ? & ? & ?); exists d''; split; [done|]; split; [intros b; apply elem_of_cons; by right | done]).
  - apply elem_of_cons in Hin as [[= ->]|Hl]; [congruence|]. destruct (Hrest Hl) as (nw & older & Eq & Hd). exists nw, older. split; [done|].
    intros dep Hdep. destruct (Hd dep Hdep) as (d'' & ? & ? & ?). by exists d''.
  - apply elem_of_cons in Hin as [[= -> <-]|Hl].
    + exists [], ps. split; [cbn; congruence|]. intros dep Hdep. destruct (Hdeps dep Hdep) as (d'' & Hn & Hl). exists d''.
      split; [done|]. split; [apply elem_of_cons; by right|]. intros q Hq. by eapply trace_running.
    + destruct (Hrest Hl) as (nw & older & Eq & Hd). exists (p' :: nw), older. split; [by rewrite Eq|].
      intros dep Hdep. destruct (Hd dep Hdep) as (d'' & ? & ? & ?). by exists d''.
  - apply elem_of_cons in Hin as [[=]|Hl]. destruct (Hrest Hl) as (nw & older & Eq & Hd). exists nw, older. split; [done|].
    intros dep Hdep. destruct (Hd dep Hdep) as (d'' & ? & ? & ?). by exists d''.
Qed.

Lemma ordered_NoDup l : ordered l -> NoDup (map fst l).
Proof.
  induction l as [|[d ok] l IH]; cbn [map ordered fst]; [constructor|]. intros (_ & Hno & Ho). constructor; [|by apply IH].
  intros Hin. apply list_elem_of_In, in_map_iff in Hin as ([d' b] & Ed & Hin). cbn in Ed. subst d'. apply (Hno b). by apply list_elem_of_In.
Qed.

(** The machine's history under the start calls of a log (latest first), each of which went one of the ways above. *)
Inductive history (context : Z) (m0 : M) : list event -> M -> Prop :=
| history_start : history context m0 [] m0
| history_call l m d ok m' : history context m0 l m -> d ∈ driver_services -> loads context d m ok m' -> history context m0 ((d, ok) :: l) m'.

(** Something undefined has happened: a start call in a state that others had led to. *)
Definition undefined_after (context : Z) (m0 : M) : Prop :=
  exists l m d, history context m0 l m /\ d ∈ driver_services /\ load_one context d m = None.

(** The link between the machine and the log while services start: as long as the
    table has room, it is the log's. *)
Definition linked (context : Z) (m0 : M) (w : option M * list event) : Prop :=
  match w.1 with
  | Some m => history context m0 w.2 m /\ ((Datatypes.length w.2 <= 16)%nat -> trace w.2 (map fst (loaded_drivers m)))
  | None => undefined_after context m0
  end.

Abbreviation start_one := (start_driver a dispatch run_unload stack chain vol run_read_file walk depth kernel_exports call_dllmain call_entry call_void).

Lemma logged_linked context m0 d w ok w' :
  d ∈ driver_services -> linked context m0 w -> logged (start_one context) d w = (ok, w') -> linked context m0 w'.
Proof.
  intros Hd Hl E. unfold logged, logged_start, start_driver in E. destruct w as [[st|] l]; unfold linked in *; cbn [fst snd] in *; cbn [mbind option_bind] in E; [|by injection E as <- <-].
  destruct Hl as [Hh Hl]. destruct (load_one context d st) as [[b st']|] eqn:El; [|injection E as <- <-; cbn; by exists l, st, d].
  injection E as <- <-. cbn [fst snd Datatypes.length]. split; [eapply history_call; [exact Hh | done | by apply driver_load_one_loads]|]. intros Hlen.
  pose proof (driver_load_one_drivers _ _ _ _ _ El) as Ha. pose proof (Hl ltac:(lia)) as T.
  pose proof (trace_length _ _ T) as Hlt. rewrite length_map in Hlt.
  unfold drivers_after in Ha. destruct (image_path d) as [p|] eqn:Ep.
  - destruct Ha as [[-> ->]|[(image & _ & ->)|[Hfull _]]]; [by eapply trace_refused | by eapply trace_loaded | lia].
  - destruct Ha as [-> ->]. by apply trace_builtin.
Qed.

Lemma history_services context m0 l m d ok : history context m0 l m -> (d, ok) ∈ l -> d ∈ driver_services.
Proof.
  induction 1 as [|l m d' ok' m' Hh IH Hd Hl]; intros Hin; [by apply not_elem_of_nil in Hin|]. apply elem_of_cons in Hin as [[= -> ->]|Hin]; [done | by apply IH].
Qed.

Lemma history_short context m0 l m : history context m0 l m -> ordered l -> (Datatypes.length l <= 16)%nat.
Proof.
  intros Hh Ho. pose proof (ordered_NoDup _ Ho) as Hlnd. transitivity (Datatypes.length (map fst l)); [by rewrite length_map|].
  etransitivity; [apply (submseteq_length _ driver_services), NoDup_submseteq; [done|] | cbn; lia].
  intros d Hin. apply list_elem_of_In, in_map_iff in Hin as ([d' b] & <- & Hin). eapply history_services; [exact Hh|]. by apply list_elem_of_In.
Qed.

Lemma driver_services_start : Forall (fun d => SERVICE_BOOT_START <= start_type d <= SERVICE_AUTO_START) driver_services.
Proof. unfold SERVICE_BOOT_START, SERVICE_AUTO_START. repeat (constructor; [cbn; unfold SERVICE_BOOT_START, SERVICE_SYSTEM_START, SERVICE_AUTO_START; lia|]). constructor. Qed.

Lemma initial_log {W} (w : W) : log_inv driver_services (mkSvc (map (fun s => mkRuntime s SERVICE_STOPPED) driver_services) (Datatypes.length driver_services) (w, [])).
Proof.
  split; [done|]. intros i d Hi Hd. destruct (initial_shape driver_services (w, [] : list event)) as [_ ->]; [|done].
  split; [split; [intros Hin; by apply not_elem_of_nil in Hin | done]|]. intros Hin. by apply not_elem_of_nil in Hin.
Qed.

(** The machine once the service manager has the memory for its table. *)
Definition with_heap (st : M) (h : H) : M := set_kernel st (set_system (kernel st) (set_sys_heap (system (kernel st)) h)).

(** What start-up leaves behind: the log of start calls in the order of the dependencies, each with the outcome that the machine's history gives
    it, the states of the services, and the table of drivers. *)
Definition started (context : Z) (m0 : M) (st' : svc (option M)) (m : M) : Prop :=
  exists l, ordered l /\ history context m0 l m /\
    (forall i d, in_table driver_services i -> driver_services !! Z.to_nat i = Some d ->
       ((d, true) ∈ l <-> state_of st' i = Some SERVICE_RUNNING) /\ settled st' i) /\
    trace l (map fst (loaded_drivers m)) /\
    forall d p, (d, true) ∈ l -> image_path d = Some p ->
      exists newer older, map fst (loaded_drivers m) = newer ++ p :: older /\
        forall dep, dep ∈ dependencies d -> exists d', name d' = dep /\ (d', true) ∈ l /\ (forall p', image_path d' = Some p' -> p' ∈ older).

(** C15. Drivers are loaded in the order of their dependencies.  [DriverLoadAll] comes to an end: with no service started, for want of memory
    for its table; or undefined, as a driver's load in a state that earlier loads had led to is ([undefined_after]; the manager itself adds nothing undefined);
    or with every service of the boot table started or failed.  Then each start call in the log has gone one of the ways of [loads]: the service
    runs exactly when its image was read, built, linked, moved to its place, entered in the table and accepted by its entry point, and its
    stubs were installed; the table lists the images in the order of the calls, and behind the image of a running driver there are
    those of all the drivers it depends on, which are running too.  Code of the images may use the loader, but leaves its tables to it. *)
Theorem DriverLoadAll_ordered (mb_info : Z) (st : M) :
  a <> LA64 -> kh_ok (heap (kern (system (kernel st)))) -> loaded_drivers st = [] ->
  exists p h, kh_malloc (Z.of_nat (Datatypes.length driver_services) * sizeof_SERVICE_RUNTIME a) (heap (kern (system (kernel st)))) = Some (p, h) /\
    match DriverLoadAll a dispatch run_unload stack chain vol run_read_file walk depth kernel_exports call_dllmain call_entry call_void
        mb_info (mkSvc [] 0 (Some st)) with
    | None => p <> 0 /\ undefined_after mb_info (with_heap st h)
    | Some st' => exists m, world st' = Some m /\
        ((p = 0 /\ service_runtime st' = [] /\ m = with_heap st h) \/ (p <> 0 /\ started mb_info (with_heap st h) st' m))
    end.
Proof.
  intros Ha Hok Hnone. destruct driver_services_ok as (Hnd & Hcs & Hdeps).
  destruct (kh_malloc_spec (heap (kern (system (kernel st)))) (Z.of_nat (Datatypes.length driver_services) * sizeof_SERVICE_RUNTIME a) Hok) as (p & h & Em & _).
  { cbn. destruct a; cbn; lia. }
  exists p, h. split; [exact Em|].
  assert (EM : kh_malloc (Z.of_nat (Datatypes.length driver_services) * sizeof_SERVICE_RUNTIME a) (Some st, [] : list event) = Some (p, (Some (with_heap st h), []))).
  { cbn [kh_malloc heap_beside]. cbn. cbn in Em. rewrite Em. done. }
  assert (Erun : forall r st1, ServiceManagerStart (logged (start_one mb_info)) a driver_services (mkSvc [] 0 (Some st, [])) = Some (r, st1) ->
    DriverLoadAll a dispatch run_unload stack chain vol run_read_file walk depth kernel_exports call_dllmain call_entry call_void mb_info (mkSvc [] 0 (Some st)) =
    (if world_defined (erase st1) then Some (erase st1) else None)).
  { intros r st1 E%ServiceManagerStart_erase. unfold DriverLoadAll. destruct a; [..|done]; change (ServiceManagerInitialize _) with (erase (mkSvc [] 0 (Some st, [] : list event))); by rewrite E. }
  destruct (ServiceManagerStart_spec (logged (start_one mb_info)) driver_services a
    (fun s => log_inv driver_services s /\ linked mb_info (with_heap st h) (world s)) (mkSvc [] 0 (Some st, [])))
    as [(st1 & E & Em') | (st1 & E & Hs & Hn & ([Ho Hl] & Hlink) & Hall)]; try done.
  - intros i s r s' Hs _ Hi [Hlog Hlk] Ec. split; [by destruct (start_one_log driver_services (fun d w _ => start_one mb_info d w) Hnd Hcs Hdeps _ i s r s' Hs Hi Hlog Ec)|].
    eapply (start_one_world _ driver_services (linked mb_info (with_heap st h))); [|exact Hs|exact Hi|exact Hlk|exact Ec]. intros. by eapply logged_linked.
  - intros q w Em'. cbn [world] in Em'. rewrite EM in Em'. injection Em' as <- <-. split; [by apply initial_log|]. split; [apply history_start|]. intros _. cbn [with_heap set_kernel loaded_drivers]. rewrite Hnone. constructor.
  - cbn [world] in Em'. rewrite EM in Em'. injection Em' as -> Ew. rewrite (Erun _ _ E). unfold world_defined, erase. cbn [world]. rewrite <- Ew. cbn [fst].
    exists (with_heap st h). split; [done|]. left. split; [done|]. split; [|done]. apply ServiceManagerStart_erase in E. by apply start_zero in E.
  - rewrite (Erun _ _ E). assert (Hp : p <> 0).
    { intros ->. unfold ServiceManagerStart in E. cbn [world] in E. rewrite u32_small in E by (unfold is_u32; destruct a; cbn; lia). rewrite EM in E. cbn in E. discriminate E. }
    unfold world_defined, linked in *. change (world (erase st1)) with (fst (world st1)). destruct (fst (world st1)) as [m|] eqn:Ew; [|done].
    destruct Hlink as [Hh Ht]. exists m. split; [exact Ew|]. right. split; [done|]. exists (log st1). split; [done|]. split; [done|].
    pose proof (Ht (history_short _ _ _ _ Hh Ho)) as T. split; [|split; [done|]; intros d q Hin Hq; by apply trace_ordered].
    intros i d Hi Hd. split; [by apply Hl|]. apply (Hall i d Hi Hd). pose proof driver_services_start as Hst. rewrite Forall_lookup in Hst. by eapply Hst.
Qed.

End one.

(** ** A boot without a framebuffer driver

    Every other image is the small library of [PeSpec], which has no
    [DriverEntry]; the reader of the medium is a routine at address 1. *)
#[local] Instance idle_bus : Bus unit := {|
  port_in := fun _ _ => mret 0; port_out := fun _ _ _ => mret tt; mmio_load := fun _ _ => mret 0; mmio_store := fun _ _ _ => mret tt |}.

Definition boot_kern : ob fresh (io unit) := IoInit (ObInit (mkOb [] 0 [] 0 ∅ fresh_start (mkIo ∅ ∅ (fun _ => 0) 0 0 0 tt))).
Definition boot_state : pe (platform unit fresh) :=
  mkPe (mkPlatform (mkSys boot_kern (mkCdfs false false 0 0 false [] 0 false)) {[cstr "CdfsReadFile" := 1]}) [] [] None [] false [].

Definition read_tiny (_ : Z) (path : list Z) (k : platform unit fresh) : option (option (Z * Z) * platform unit fresh) :=
  if bool_decide (path = cstr "/DISCOUNT/SYSTEM32/DRIVERS/FB.SYS") then Some (None, k) else
  let s := system k in
  '(p, h) ← kh_malloc 428 (heap (kern s));
  Some (Some (p, 428), set_system k (set_ram (set_sys_heap s h) (store (ram s) p tiny_file))).

Definition boot_run (st : pe (platform unit fresh)) := DriverLoadAll X86 (fun _ _ _ _ => None) (fun _ _ _ => None) 4096 0 no_volume read_tiny 300 1 []
  (fun _ _ => mret tt) (fun _ _ _ => mret 1) (fun _ => mret tt) 0 (mkSvc [] 0 (Some st)).

Definition boot_summary (r : option (svc (option (pe (platform unit fresh))))) : option (list SERVICE_STATE * list (list Z)) :=
  st ← r; p ← world st; Some (map state (service_runtime st), map fst (loaded_drivers p)).

Definition image_file (s : string) : list Z := cstr "/DISCOUNT/SYSTEM32/DRIVERS/" ++ cstr s.

(** The framebuffer driver fails, and so do the mouse and the window system. *)
Lemma boot_run_result : boot_summary (boot_run boot_state) =
  Some (replicate 5 SERVICE_RUNNING ++ replicate 2 SERVICE_FAILED ++ replicate 6 SERVICE_RUNNING ++ [SERVICE_FAILED],
    map image_file ["NET.SYS"; "SB16.SYS"; "AC97.SYS"; "ES1371.SYS"; "HDA.SYS"; "KEYBOARD.SYS"; "VGA.SYS"; "SERIAL.SYS"]%string).
Proof. vm_compute. reflexivity. Qed.

Lemma DriverLoadAll_ordered_witness :
  exists st' m m0 l, boot_run boot_state = Some st' /\ world st' = Some m /\ ordered l /\
    history X86 (fun _ _ _ _ => None) (fun _ _ _ => None) 4096 0 no_volume read_tiny 300 1 [] (fun _ _ => mret tt) (fun _ _ _ => mret 1) (fun _ => mret tt) 0 m0 l m /\
    In (image_file "KEYBOARD.SYS") (map fst (loaded_drivers m)).
Proof.
  pose proof boot_run_result as Hrun.
  destruct (DriverLoadAll_ordered X86 (fun _ _ _ _ => None) (fun _ _ _ => None) 4096 0 no_volume read_tiny 300 1 []
    (fun _ _ => mret tt) (fun _ _ _ => mret 1) (fun _ => mret tt) (fun _ _ => keeps_ret tt) (fun _ _ _ => keeps_ret 1) (fun _ => keeps_ret tt)
    0 boot_state ltac:(discriminate) fresh_start_ok eq_refl) as (p & h & _ & Hr).
  change (DriverLoadAll _ _ _ _ _ _ _ _ _ _ _ _ _ _ _) with (boot_run boot_state) in Hr.
  destruct (boot_run boot_state) as [st'|]; [|discriminate Hrun]. unfold boot_summary in Hrun. cbn [mbind option_bind] in Hrun.
  destruct Hr as (m & Ew & Hr). rewrite Ew in Hrun. cbn [mbind option_bind] in Hrun. injection Hrun as Hst Hl.
  destruct Hr as [(_ & Hz & _)|(_ & l & Ho & Hh & _)]; [rewrite Hz in Hst; discriminate Hst|].
  exists st', m, (with_heap boot_state h), l. do 4 (split; [first [reflexivity | exact Ew | exact Ho | exact Hh]|]). rewrite Hl. vm_compute. tauto.
Defined.

(** A driver that is refused stays in the table: with no memory for its driver
    object, say (here the I/O manager is not initialised), nothing that has an image
    starts, and yet all images are kept and later ones are linked against
    them. *)
Definition dead_state : pe (platform unit fresh) :=
  mkPe (mkPlatform (mkSys (ObInit (mkOb [] 0 [] 0 ∅ fresh_start (mkIo ∅ ∅ (fun _ => 0) 0 0 0 tt))) (mkCdfs false false 0 0 false [] 0 false))
    {[cstr "CdfsReadFile" := 1]}) [] [] None [] false [].

Theorem refused_drivers_stay : boot_summary (boot_run dead_state) =
  Some ([SERVICE_RUNNING; SERVICE_FAILED; SERVICE_RUNNING; SERVICE_FAILED; SERVICE_FAILED; SERVICE_FAILED; SERVICE_FAILED; SERVICE_FAILED;
         SERVICE_FAILED; SERVICE_FAILED; SERVICE_FAILED; SERVICE_FAILED; SERVICE_RUNNING; SERVICE_FAILED],
    map image_file ["NET.SYS"; "SB16.SYS"; "AC97.SYS"; "ES1371.SYS"; "HDA.SYS"; "VGA.SYS"; "SERIAL.SYS"]%string).
Proof. vm_compute. reflexivity. Qed.

End DriverSpec.
