(* ===== verification/Ahci.v ===== *)
(** * drivers/ahci/ahci.c: SATA disks

    A controller is memory-mapped; a command is a header, a table with the frame
    for the disk and one descriptor of the data, all in memory the controller
    reads by DMA.  As in [Nic], that memory and the data buffers belong to the
    hardware and are reached with the bus's loads and stores.  The pages for the
    structures come from [Vmm], the registers are mapped by [VmmMapMmioRange] of
    [Paging].  Serial log lines are left out. *)

From stdpp Require Import base list numbers gmap strings.
From Stdlib Require Import ZArith Lia.
From S2P Require Import Prelude.
From S2P Require Import Util.
From S2P Require Import Pmm.
From S2P Require Import Vmm.
From S2P Require Import Paging.
From S2P Require Import Mm.
From S2P Require Import Sim.
From S2P Require Import Ob.
From S2P Require Import Io.
From S2P Require Import Hw.
From S2P Require Import Fat32.
From S2P Require Import Ide.
From S2P Require Import Ram.
From S2P Require Import Net.
From S2P Require Import Nic.
From S2P Require Import NicSpec.
Import Util Pmm Vmm Paging Ob Io Hw Nic.

Module Ahci.

Definition AHCI_MAX_DISKS : Z := 4.
Definition AHCI_TIMEOUT : nat := Z.to_nat 1000000.
Definition ATA_CMD_READ_DMA_EXT : Z := 37.
Definition ATA_CMD_WRITE_DMA_EXT : Z := 53.

Record AHCI_DISK := mkAhciDisk { port : Z; ahci_sectors : Z; clb : Z; fb : Z; table : Z }.
Definition no_ahci_disk : AHCI_DISK := mkAhciDisk 0 0 0 0 0.

Definition sizeof_AHCI_DISK (a : arch) : Z := match a with X86 => 20 | AMD64 | LA64 => 40 end.

(** The structure in memory: a pointer, a [uint32_t], three pointers. *)
Definition ahci_store (a : arch) (m : mem) (p : Z) (d : AHCI_DISK) : mem :=
  let w := Z.of_nat (ptr_bytes a) in
  stp a (stp a (stp a (st32 (stp a m p (port d)) (p + w) (ahci_sectors d)) (p + 2 * w) (clb d)) (p + 3 * w) (fb d)) (p + 4 * w) (table d).
Definition ahci_disk_at (a : arch) (m : mem) (p : Z) : AHCI_DISK :=
  let w := Z.of_nat (ptr_bytes a) in
  mkAhciDisk (ldp a m p) (ld32 m (p + w)) (ldp a m (p + 2 * w)) (ldp a m (p + 3 * w)) (ldp a m (p + 4 * w)).

(** ** Commands *)
Section command.
Context {D : Type} `{Bus D}.

Definition reg32 (base offset : Z) : hw D Z := ld W32 (base + offset).
Definition reg32w (base offset v : Z) : hw D unit := st W32 (base + offset) v.

Definition wait_clear (port mask : Z) : hw D bool := poll AHCI_TIMEOUT (reg32 port 24) (fun v => Z.land v mask =? 0).

(** The header, the frame and the descriptor of one command, in cleared memory. *)
Definition fill_command (disk : AHCI_DISK) (command lba count physical : Z) (write : bool) : hw D unit :=
  zero_out (clb disk) 1024;; zero_out (table disk) 256;;
  st W16 (clb disk) (Z.lor 5 (if write then 64 else 0));; st W16 (clb disk + 2) 1;;
  st W32 (clb disk + 8) (u32 (VmmGetPhysicalAddress (table disk)));;
  zero_out (table disk) 20;;
  st W8 (table disk) 39;; st W8 (table disk + 2) command;; st W8 (table disk + 7) 64;;
  st W8 (table disk + 4) lba;; st W8 (table disk + 5) (Z.shiftr lba 8);; st W8 (table disk + 6) (Z.shiftr lba 16);;
  st W8 (table disk + 8) (Z.shiftr lba 24);; st W8 (table disk + 9) (Z.shiftr lba 32);; st W8 (table disk + 10) (Z.shiftr lba 40);;
  st W8 (table disk + 12) count;; st W8 (table disk + 13) (Z.shiftr count 8);;
  st W32 (table disk + 128) physical;; st W32 (table disk + 132) 0;; st W32 (table disk + 140) (count * 512 - 1).

(** The loop that waits for the slot to be free again. *)
Fixpoint wait_done (n : nat) (port : Z) : hw D bool :=
  match n with
  | O => mret false
  | S n' =>
      is_ ← reg32 port 16;
      ci ← reg32 port 56;
      if Z.land ci 1 =? 0 then reg32w port 16 is_;; mret (Z.land is_ 1073741824 =? 0)
      else if negb (Z.land is_ 1073741824 =? 0) then mret false else wait_done n' port
  end.

Definition ahci_command (disk : AHCI_DISK) (command lba count buffer : Z) (write : bool) : hw D bool :=
  let physical := VmmGetPhysicalAddress buffer in
  if (buffer =? 0) || (physical =? 0) || (4294967295 <? physical) || (4194304 <? count * 512) then mret false else
  ok ← wait_clear (port disk) 144;
  if negb ok then mret false else
  fill_command disk command lba count physical write;;
  is_ ← reg32 (port disk) 16;
  reg32w (port disk) 16 (Z.lor is_ 1);;
  reg32w (port disk) 56 1;;
  wait_done AHCI_TIMEOUT (port disk).

(** The size in the identify block at [p]. *)
Definition identified_sectors (p : Z) : hw D Z :=
  w60 ← ld W16 (p + 120); w61 ← ld W16 (p + 122); w83 ← ld W16 (p + 166);
  if Z.land w83 1024 =? 0 then mret (Z.lor w60 (u32 (Z.shiftl w61 16))) else
  w100 ← ld W16 (p + 200); w101 ← ld W16 (p + 202); w102 ← ld W16 (p + 204); w103 ← ld W16 (p + 206);
  let total := Z.lor (Z.lor (Z.lor w100 (Z.shiftl w101 16)) (Z.shiftl w102 32)) (u64 (Z.shiftl w103 48)) in
  mret (if 4294967295 <? total then 4294967295 else u32 total).

(** From the cleared pages on; [stack] is the address of [identify]. *)
Definition start_port (disk : AHCI_DISK) (stack : Z) : hw D (bool * AHCI_DISK) :=
  zero_out (clb disk) 4096;; zero_out (fb disk) 4096;; zero_out (table disk) 4096;;
  cmd ← reg32 (port disk) 24;
  reg32w (port disk) 24 (Z.land cmd 4294967294);;
  ok ← wait_clear (port disk) 32768;
  if negb ok then mret (false, disk) else
  reg32w (port disk) 0 (u32 (VmmGetPhysicalAddress (clb disk)));;
  reg32w (port disk) 8 (u32 (VmmGetPhysicalAddress (fb disk)));;
  reg32w (port disk) 16 4294967295;;
  cmd ← reg32 (port disk) 24;
  reg32w (port disk) 24 (Z.lor cmd 16);;
  ok ← ahci_command disk Ide.ATA_CMD_IDENTIFY 0 1 stack false;
  if negb ok then mret (false, disk) else
  n ← identified_sectors stack;
  mret (negb (n =? 0), mkAhciDisk (port disk) n (clb disk) (fb disk) (table disk)).

End command.

(** ** The driver *)
Section driver.
Context {D H : Type} `{Bus D} `{KernelHeap H} (a : arch) (stack : Z).

Record ahci := mkAhci { kern : ob H (io D); vm : mmu; ahci_driver : Z; disks : list AHCI_DISK; disk_count : Z }.
Implicit Types s : ahci.

Definition on_hba {A} (f : hw D A) s : A * ahci :=
  let '(x, d) := f (hardware (memory (kern s))) in
  (x, mkAhci (set_memory (kern s) (set_hardware (memory (kern s)) d)) (vm s) (ahci_driver s) (disks s) (disk_count s)).
Definition allocate_page s : Z * ahci :=
  let '(p, ps) := VmmAllocatePages 1 (pages (vm s)) in
  (p, mkAhci (kern s) (mkMmu (words (vm s)) ps (cr3 (vm s))) (ahci_driver s) (disks s) (disk_count s)).
Definition put_disk s (d : AHCI_DISK) : ahci := mkAhci (kern s) (vm s) (ahci_driver s) (put (disks s) (disk_count s) d) (disk_count s).

Definition ahci_port_init (p : Z) s : bool * ahci :=
  let '(c, s) := allocate_page s in
  let '(f, s) := allocate_page s in
  let '(t, s) := allocate_page s in
  let disk := mkAhciDisk p (ahci_sectors (get no_ahci_disk (disks s) (disk_count s))) c f t in
  if (c =? 0) || (f =? 0) || (t =? 0) then (false, put_disk s disk) else
  let '((ok, disk), s) := on_hba (start_port disk stack) s in
  (ok, put_disk s disk).

Definition ahci_dispatch_addr : Z := 1056768.

Definition ahci_dispatch (device : Z) (r : IO_REQUEST) (k : ob H (io D)) : option (Z * IO_REQUEST * ob H (io D)) :=
  dev ← devices (memory k) !! device;
  let disk := ahci_disk_at a (bytes (memory k)) (device_extension dev) in
  match parameters r with
  | device_control _ _ _ => None
  | read_write offset =>
      let count := Z.shiftr (Io.length r) 9 in
      if (buffer r =? 0) || (Io.length r =? 0) || negb (Z.land offset 511 =? 0) || negb (Z.land (Io.length r) 511 =? 0)
         || (4294967295 <? Z.shiftr offset 9) || (65535 <? count) || (ahci_sectors disk <? Z.shiftr offset 9 + count)
      then Some (IO_STATUS_INVALID_PARAMETER, r, k) else
      let write := major_function r =? Ide.IO_MJ_WRITE in
      let '(ok, d) := ahci_command disk (if write then ATA_CMD_WRITE_DMA_EXT else ATA_CMD_READ_DMA_EXT) (Z.shiftr offset 9) (u16 count)
                        (buffer r) write (hardware (memory k)) in
      let k := set_memory k (set_hardware (memory k) d) in
      if negb ok then Some (IO_STATUS_DEVICE_ERROR, r, k)
      else Some (IO_STATUS_SUCCESS, with_status r (status r) (Io.length r), k)
  end.

Definition sata_name (n : Z) : list Z := cstr "SataDisk" ++ [48 + n].

(** The body of the loop over the ports of a controller. *)
Definition scan_port (abar pi : Z) (i : Z) s : option ahci :=
  if AHCI_MAX_DISKS <=? disk_count s then Some s else
  if Z.land pi (Z.shiftl 1 i) =? 0 then Some s else
  let p := usize a (abar + 256 + i * 128) in
  let '(ssts, s) := on_hba (reg32 p 36) s in
  if negb (ssts =? 257) then Some s else
  let '(ok, s) := ahci_port_init p s in
  if negb ok then Some s else
  '(device, k) ← IoCreateDevice a (ahci_driver s) (Some (sata_name (disk_count s))) (sizeof_AHCI_DISK a) (kern s);
  let s := mkAhci k (vm s) (ahci_driver s) (disks s) (disk_count s) in
  if device =? 0 then Some s else
  dev ← devices (memory k) !! device;
  let disk := get no_ahci_disk (disks s) (disk_count s) in
  let k := set_memory k (set_bytes (memory k) (ahci_store a (bytes (memory k)) (device_extension dev) disk)) in
  Some (mkAhci k (vm s) (ahci_driver s) (disks s) (disk_count s + 1)).

Fixpoint each (l : list Z) (f : Z -> ahci -> option ahci) s : option ahci :=
  match l with [] => Some s | x :: l => s ← f x s; each l f s end.

Definition scan_controller (bus slot function : Z) s : option ahci :=
  let '(bar, s) := on_hba (PciConfigRead32 a bus slot function 36) s in
  let abar_phys := Z.land bar 4294967280 in
  if (abar_phys =? 0) || negb (Z.land bar 1 =? 0) then Some s else
  let '(high, s) := if Z.land bar 6 =? 4 then on_hba (PciConfigRead32 a bus slot function 40) s else (0, s) in
  let '(abar, m) := VmmMapMmioRange a (Z.lor abar_phys (Z.shiftl high 32)) 4352 (vm s) in
  let s := mkAhci (kern s) m (ahci_driver s) (disks s) (disk_count s) in
  if abar =? 0 then Some s else
  let '(pi, s) := on_hba (reg32 abar 12) s in
  let '(_, s) := on_hba (ghc ← reg32 abar 4; reg32w abar 4 (Z.lor ghc 2147483648)) s in
  each (seqZ 0 32) (scan_port abar pi) s.

(** One function of the PCI scan. *)
Definition scan_function (bus slot fn : Z) s : option ahci :=
  let '(id, s) := on_hba (PciConfigRead32 a bus slot fn 0) s in
  let '(class, s) := on_hba (PciConfigRead32 a bus slot fn 8) s in
  if negb (id =? 4294967295) && (Z.shiftr class 8 =? 67073) then
    let '(_, s) := on_hba (c ← PciConfigRead32 a bus slot fn 4; PciConfigWrite32 a bus slot fn 4 (Z.lor c 6)) s in
    scan_controller bus slot fn s
  else Some s.

Definition AhciInitialize (driver : Z) s : option (bool * ahci) :=
  if driver =? 0 then Some (false, s) else
  let k := kern s in
  drv ← drivers (memory k) !! driver;
  let drv := Ide.with_major_function (Ide.with_major_function drv Fat32.IO_MJ_READ ahci_dispatch_addr) Ide.IO_MJ_WRITE ahci_dispatch_addr in
  let k := set_memory k (set_drivers (memory k) (<[driver := drv]> (drivers (memory k)))) in
  let s := mkAhci k (vm s) driver (replicate 4 no_ahci_disk) 0 in
  s ← match a with
      | LA64 => Some s
      | X86 | AMD64 =>
          each (seqZ 0 256) (fun bus => each (seqZ 0 32) (fun slot => each (seqZ 0 8) (fun fn => scan_function bus slot fn))) s
      end;
  Some (negb (disk_count s =? 0), s).

Definition AhciBootInitialize s : option (bool * ahci) :=
  '(driver, k) ← IoCreateDriver a (Some (cstr "BootAhci")) 0 0 (kern s);
  let s := mkAhci k (vm s) (ahci_driver s) (disks s) (disk_count s) in
  if driver =? 0 then Some (false, s) else AhciInitialize driver s.

Definition AhciGetDiskCount s : Z := disk_count s.
Definition AhciGetDiskSectors (index : Z) s : Z :=
  if index <? disk_count s then ahci_sectors (get no_ahci_disk (disks s) index) else 0.
Definition AhciGetDiskName (index : Z) : list Z := cstr "SataDisk0".

End driver.

End Ahci.
