(* ===== verification/AhciSpec.v ===== *)
(** * The SATA driver on a controller

    What a command leaves in memory for the controller, and what comes of the
    initialisation on a controller whose command register can be read back. *)

From stdpp Require Import base list numbers gmap strings.
From Stdlib Require Import ZArith Lia.
From S2P Require Import Prelude.
From S2P Require Import Util.
From S2P Require Import Pmm.
From S2P Require Import Vmm.
From S2P Require Import Paging.
From S2P Require Import Mm.
From S2P Require Import Sim.
From S2P Require Import Ob.
From S2P Require Import Io.
From S2P Require Import Hw.
From S2P Require Import Ide.
From S2P Require Import Net.
From S2P Require Import Nic.
From S2P Require Import NicSpec.
From S2P Require Import Ahci.
Import Util Pmm Vmm Paging Ob Io Hw Nic NicSpec Ahci.

Module AhciSpec.

(** ** The structures of a command *)
Section posts.
Context {D : Type} `{QuietMemory D}.

Definition zeroed (m : mem) (p : Z) (n : nat) : mem := fun x => if (p <=? x) && (x <? p + Z.of_nat n) then 0 else m x.

Lemma does_zero m p n : (forall i, 0 <= i < Z.of_nat n -> plain (p + i)) -> exists m', does m (zero_out p n) tt m' /\ forall x, m' x = zeroed m p n x.
Proof.
  unfold zero_out. revert m p. induction n as [|n IH]; intros m p Hp; cbn [replicate copy_out].
  - exists m. split; [apply does_ret|]. intros x. unfold zeroed. destruct (Z.leb_spec p x), (Z.ltb_spec x (p + Z.of_nat 0)); cbn [andb]; (done || lia).
  - destruct (IH (mwrite W8 m p (truncate W8 0)) (p + 1)) as (m' & Hd & Hx).
    { intros i Hi. replace (p + 1 + i) with (p + (i + 1)) by lia. apply Hp. lia. }
    exists m'. split; [eapply does_bind; [apply does_st; cbn [size]; intros i Hi; apply Hp; lia | done]|].
    intros x. rewrite Hx. unfold zeroed, mwrite. cbn [size].
    destruct (Z.leb_spec (p + 1) x), (Z.ltb_spec x (p + 1 + Z.of_nat n)), (Z.leb_spec p x), (Z.ltb_spec x (p + Z.of_nat (S n))),
      (Z.ltb_spec x (p + 1)); cbn [andb]; try done; try lia.
    replace (x - p) with 0 by lia. done.
Qed.

(** What a controller reads at the start of a command list: the header, then
    the register frame and the descriptor of its table. *)
Record sata_command := mkSata {
  c_write : bool; c_update : bool; c_command : Z; c_lba_mode : bool; c_lba : Z; c_count : Z; c_base : Z; c_bytes : Z
}.

Definition controller_reads (m : mem) (list_ : Z) : option sata_command :=
  let flags := mval W16 m list_ in
  let t := mval W32 m (list_ + 8) in
  let b k := mval W8 m (t + k) in
  if (Z.land flags 31 =? 5) && (mval W16 m (list_ + 2) =? 1) && (b 0 =? 39) then
    Some (mkSata (Z.testbit flags 6) (Z.testbit (b 1) 7) (b 2) (Z.testbit (b 7) 6)
      (b 4 + 256 * b 5 + 65536 * b 6 + 16777216 * b 8 + 4294967296 * b 9 + 1099511627776 * b 10)
      (b 12 + 256 * b 13) (mval W32 m (t + 128)) (Z.land (mval W32 m (t + 140)) 4194303 + 1))
  else None.

Lemma mwrite_out w m p v x : x < p \/ p + size w <= x -> mwrite w m p v x = m x.
Proof. intros Hx. unfold mwrite. destruct (Z.leb_spec p x), (Z.ltb_spec x (p + size w)); cbn [andb]; (done || lia). Qed.
Lemma mwrite_in w m p v k : 0 <= k < size w -> mwrite w m p v (p + k) = u8 (Z.shiftr v (8 * k)).
Proof. intros Hk. unfold mwrite. rewrite (proj2 (Z.leb_le _ _)), (proj2 (Z.ltb_lt _ _)) by lia. cbn [andb]. by replace (p + k - p) with k by lia. Qed.
Lemma mwrite_in0 w m p v : mwrite w m p v p = u8 v.
Proof. rewrite <- (Z.add_0_r p) at 2. rewrite mwrite_in by (destruct w; cbn; lia). by rewrite Z.mul_0_r, Z.shiftr_0_r. Qed.

Lemma u8_shift v k : 0 <= k -> u8 (Z.shiftr v k) = v / 2 ^ k mod 256.
Proof. intros. unfold u8. by rewrite Z.shiftr_div_pow2. Qed.

(** A register's worth of memory, read where it was written or beside it. *)
Lemma mval_written w m p v : mval w (mwrite w m p (truncate w v)) p = truncate w v.
Proof.
  assert (E8 : forall x, u8 (u8 x) = u8 x) by (intros; unfold u8; zlia).
  destruct w; cbn [mval truncate]; rewrite ?mwrite_in0, ?mwrite_in by (cbn [size]; lia); rewrite ?E8; [done|..];
    rewrite ?u8_shift by lia; unfold u8, u16, u32; [change (2 ^ (8 * 1)) with 256 | change (2 ^ (8 * 1)) with 256; change (2 ^ (8 * 2)) with 65536; change (2 ^ (8 * 3)) with 16777216]; zlia.
Qed.

Lemma mval_beside w w' m p q v : q + size w' <= p \/ p + size w <= q -> mval w' (mwrite w m p v) q = mval w' m q.
Proof. intros Hq. destruct w'; cbn [mval size] in *; by rewrite !mwrite_out by lia. Qed.

Lemma mval_zeroed w (m m' : mem) p n q :
  (forall x, m' x = zeroed m p n x) -> p <= q -> q + size w <= p + Z.of_nat n -> mval w m' q = 0.
Proof.
  intros E Hp Hq. assert (Hz : forall k, 0 <= k < size w -> m' (q + k) = 0).
  { intros k Hk. rewrite E. unfold zeroed. by rewrite (proj2 (Z.leb_le _ _)), (proj2 (Z.ltb_lt _ _)) by lia. }
  destruct w; cbn [mval size] in *; rewrite <- (Z.add_0_r q) at 1; rewrite !Hz by lia; done.
Qed.

Lemma mval_unzeroed w (m m' : mem) p n q :
  (forall x, m' x = zeroed m p n x) -> q + size w <= p \/ p + Z.of_nat n <= q -> mval w m' q = mval w m q.
Proof.
  intros E Hq. assert (Hz : forall k, 0 <= k < size w -> m' (q + k) = m (q + k)).
  { intros k Hk. rewrite E. unfold zeroed. destruct (Z.leb_spec p (q + k)), (Z.ltb_spec (q + k) (p + Z.of_nat n)); cbn [andb]; (done || lia). }
  destruct w; cbn [mval size] in *; pose proof (Hz 0 ltac:(lia)) as H0'; rewrite Z.add_0_r in H0'; rewrite ?Hz by lia; by rewrite H0'.
Qed.

(** The value of a field after the stores of [fill_command]. *)
Ltac field := repeat first
  [ rewrite mval_written | rewrite mval_beside by (cbn [size]; lia)
  | erewrite mval_zeroed by (first [eassumption | cbn [size]; lia]) | erewrite mval_unzeroed by (first [eassumption | cbn [size]; lia]) ].

Definition on_plain (p n : Z) : Prop := forall i, 0 <= i < n -> plain (p + i).

Lemma fill_command_reads (m : mem) (disk : AHCI_DISK) (command lba count physical : Z) (write : bool) :
  on_plain (clb disk) 1024 -> on_plain (table disk) 256 -> (clb disk + 1024 <= table disk \/ table disk + 256 <= clb disk) ->
  is_u32 (table disk) -> 0 <= command < 256 -> 0 <= lba < 281474976710656 -> 0 < count <= 8192 -> is_u32 physical ->
  exists m', does m (fill_command disk command lba count physical write) tt m' /\
    controller_reads m' (clb disk) = Some (mkSata write false command true lba count physical (count * 512)).
Proof.
  intros Hc Ht Hd Htu Hcmd Hlba Hn Hph. unfold fill_command, VmmGetPhysicalAddress.
  destruct (does_zero m (clb disk) 1024 Hc) as (m1 & D1 & E1).
  destruct (does_zero m1 (table disk) 256 Ht) as (m2 & D2 & E2).
  set (m3 := mwrite W32 (mwrite W16 (mwrite W16 m2 (clb disk) (truncate W16 (Z.lor 5 (if write then 64 else 0)))) (clb disk + 2) (truncate W16 1)) (clb disk + 8) (truncate W32 (u32 (table disk)))).
  destruct (does_zero m3 (table disk) 20) as (m4 & D4 & E4); [intros i Hi; apply Ht; lia|].
  eexists. split.
  - eapply does_bind; [exact D1|]. eapply does_bind; [exact D2|].
    do 3 (eapply does_bind; [apply does_st; cbn [size]; intros i Hi; rewrite <- ?Z.add_assoc; apply Hc; lia|]).
    eapply does_bind; [exact D4|].
    do 13 (eapply does_bind; [apply does_st; cbn [size]; intros i Hi; rewrite <- ?Z.add_assoc; apply Ht; lia|]).
    apply does_st; cbn [size]; intros i Hi; rewrite <- ?Z.add_assoc; apply Ht; lia.
  - subst m3. unfold controller_reads.
    match goal with |- context [mval W32 ?M (clb disk + 8)] => set (M' := M) end.
    assert (Et : mval W32 M' (clb disk + 8) = table disk) by (subst M'; field; cbn [truncate]; rewrite !u32_small by (unfold is_u32 in *; zlia); done).
    assert (Ef : mval W16 M' (clb disk) = Z.lor 5 (if write then 64 else 0)) by (subst M'; field; by destruct write).
    assert (E2' : mval W16 M' (clb disk + 2) = 1) by (subst M'; field; done).
    rewrite Et, Ef, E2', Z.add_0_r. clear Et Ef E2'.
    assert (B0 : mval W8 M' (table disk) = 39) by (subst M'; field; done).
    assert (B1 : mval W8 M' (table disk + 1) = 0) by (subst M'; field; done).
    assert (B2 : mval W8 M' (table disk + 2) = command) by (subst M'; field; cbn [truncate]; unfold u8; zlia).
    assert (B7 : mval W8 M' (table disk + 7) = 64) by (subst M'; field; done).
    assert (L : mval W8 M' (table disk + 4) + 256 * mval W8 M' (table disk + 5) + 65536 * mval W8 M' (table disk + 6) + 16777216 * mval W8 M' (table disk + 8)
      + 4294967296 * mval W8 M' (table disk + 9) + 1099511627776 * mval W8 M' (table disk + 10) = lba).
    { subst M'. field. cbn [truncate]. rewrite !u8_shift by lia. unfold u8.
      change (2 ^ 8) with 256. change (2 ^ 16) with 65536. change (2 ^ 24) with 16777216. change (2 ^ 32) with 4294967296. change (2 ^ 40) with 1099511627776. zlia. }
    assert (N : mval W8 M' (table disk + 12) + 256 * mval W8 M' (table disk + 13) = count).
    { subst M'. field. cbn [truncate]. rewrite u8_shift by lia. unfold u8. change (2 ^ 8) with 256. zlia. }
    assert (P : mval W32 M' (table disk + 128) = physical) by (subst M'; field; cbn [truncate]; by apply u32_small).
    assert (S : mval W32 M' (table disk + 140) = count * 512 - 1) by (subst M'; field; cbn [truncate]; apply u32_small; unfold is_u32; lia).
    rewrite B0, B1, B2, B7, L, N, P, S. clearbody M'. change 4194303 with (Z.ones 22). rewrite Z.land_ones by lia. change (2 ^ 22) with 4194304.
    rewrite Z.mod_small by lia. replace (count * 512 - 1 + 1) with (count * 512) by lia. by destruct write.
Qed.

Lemma view_ld w p d : view (snd (ld w p d)) = view d.
Proof. unfold ld, mbind, hw_bind, mret, hw_ret. pose proof (quiet_keep w p d). by destruct (mmio_load w p d). Qed.

Lemma bind_apply {A B} (f : hw D A) (k : A -> hw D B) d : (f ≫= k) d = k (fst (f d)) (snd (f d)).
Proof. unfold mbind, hw_bind. by destruct (f d). Qed.

(** When a command is accepted and the port is free, the controller finds at the
    doorbell exactly the request: direction, command, first sector, count and
    buffer.  But the frame does not say that it carries a command ([c_update], bit
    7 of its second byte): a disk that goes by the standard takes it for a change
    of its control register. *)
Theorem ahci_command_posts (d : D) (disk : AHCI_DISK) (command lba count buffer : Z) (write : bool) :
  on_plain (clb disk) 1024 -> on_plain (table disk) 256 -> (clb disk + 1024 <= table disk \/ table disk + 256 <= clb disk) ->
  is_u32 (table disk) -> 0 <= command < 256 -> 0 <= lba < 281474976710656 -> 0 < count <= 8192 -> 0 < buffer < 4294967296 ->
  (forall i, 0 <= i < 4 -> ~ plain (port disk + 16 + i)) -> fst (wait_clear (port disk) 144 d) = true ->
  exists d', controller_reads (view d') (clb disk) = Some (mkSata write false command true lba count buffer (count * 512)) /\
    ahci_command disk command lba count buffer write d = wait_done AHCI_TIMEOUT (port disk) (snd (reg32w (port disk) 56 1 d')).
Proof.
  intros Hc Ht Hd Htu Hcmd Hlba Hn Hb Hreg Hw. unfold ahci_command, VmmGetPhysicalAddress.
  rewrite (proj2 (Z.eqb_neq buffer 0)), (proj2 (Z.ltb_ge 4294967295 buffer)), (proj2 (Z.ltb_ge 4194304 _)) by lia. cbn [orb].
  rewrite bind_apply, Hw. cbn [negb]. set (d1 := snd (wait_clear (port disk) 144 d)).
  destruct (fill_command_reads (view d1) disk command lba count buffer write Hc Ht Hd Htu Hcmd Hlba Hn ltac:(unfold is_u32; lia)) as (m' & Hf & Hr).
  destruct (Hf d1 eq_refl) as [_ Hv]. rewrite bind_apply. set (d2 := snd (fill_command _ _ _ _ _ _ d1)) in *.
  rewrite bind_apply. set (d3 := snd (reg32 (port disk) 16 d2)). assert (V3 : view d3 = m') by (unfold d3, reg32; by rewrite view_ld).
  rewrite bind_apply. set (d4 := snd (reg32w (port disk) 16 _ d3)).
  assert (V4 : view d4 = m') by (unfold d4, reg32w, st; rewrite (quiet_reg W32) by exact Hreg; done).
  exists d4. split; [by rewrite V4|]. by rewrite bind_apply.
Qed.

End posts.

(** ** Initialisation

    [FRE] (bit 4 of the command register of a port) reads back as it was
    written. *)
Section init.
Context {D H : Type} `{Bus D} `{KernelHeap H} (a : arch) (stack : Z).
Context (fre : Z -> D -> Prop).
Context (fre_set : forall p v d, Z.testbit v 4 = true -> fre p (snd (mmio_store W32 (p + 24) v d))).
Context (fre_read : forall p d, fre p d -> Z.testbit (fst (mmio_load W32 (p + 24) d)) 4 = true /\ fre p (snd (mmio_load W32 (p + 24) d))).

Lemma busy_while_receiving n p d : fre p d -> fst (poll n (reg32 p 24) (fun v => Z.land v 144 =? 0) d) = false.
Proof.
  revert d. induction n as [|n IH]; intros d Hd; cbn [poll]; [done|]. destruct (fre_read p d Hd) as [Hb Hd'].
  unfold reg32, ld, mbind, hw_bind, mret, hw_ret. destruct (mmio_load W32 (p + 24) d) as [v d']. cbn [fst snd truncate] in *.
  assert ((Z.land (u32 v) 144 =? 0) = false) as ->; [|by apply IH].
  apply Z.eqb_neq. intros E. apply (f_equal (fun x => Z.testbit x 4)) in E. rewrite Z.land_spec, Z.bits_0 in E. unfold u32 in E.
  change 4294967296 with (2 ^ 32) in E. rewrite Z.mod_pow2_bits_low, Hb in E by lia. done.
Qed.

Lemma ahci_command_busy disk command lba count buffer write d :
  fre (port disk) d -> fst (ahci_command disk command lba count buffer write d) = false.
Proof.
  intros Hd. unfold ahci_command. destruct (_ || _); [done|]. unfold mbind, hw_bind.
  pose proof (busy_while_receiving AHCI_TIMEOUT (port disk) d Hd) as Hb. unfold wait_clear.
  destruct (poll _ _ _ d) as [ok d']. cbn in Hb. by subst ok.
Qed.

Lemma start_port_fails disk d : fst (fst (start_port disk stack d)) = false.
Proof.
  unfold start_port. do 5 (rewrite bind_apply). rewrite bind_apply. destruct (fst (wait_clear _ _ _)); cbn [negb]; [|done].
  do 4 rewrite bind_apply. rewrite bind_apply. set (v := fst (reg32 _ _ _)).
  set (d1 := snd (reg32w (port disk) 24 (Z.lor v 16) _)). rewrite bind_apply.
  assert (fre (port disk) d1) as Hd.
  { apply fre_set. cbn [truncate]. unfold u32. change 4294967296 with (2 ^ 32). rewrite Z.mod_pow2_bits_low, Z.lor_spec by lia. by rewrite orb_true_r. }
  by rewrite (ahci_command_busy _ _ _ _ _ _ _ Hd).
Qed.

(** No disk, and the devices of the I/O manager as they were. *)
Definition fruitless (s s' : @ahci D H) : Prop :=
  disk_count s = 0 -> disk_count s' = 0 /\ devices (memory (kern s')) = devices (memory (kern s)).

Lemma fruitless_trans s1 s2 s3 : fruitless s1 s2 -> fruitless s2 s3 -> fruitless s1 s3.
Proof. intros H12 H23 E. destruct (H12 E) as [E2 <-]. by apply H23. Qed.

Lemma fruitless_on_hba {A} (f : hw D A) s : fruitless s (snd (on_hba f s)).
Proof. intros E. unfold on_hba. by destruct (f _). Qed.

Lemma port_init_fruitless p s : fst (ahci_port_init stack p s) = false /\ fruitless s (snd (ahci_port_init stack p s)).
Proof.
  unfold ahci_port_init, allocate_page. repeat (destruct (VmmAllocatePages 1 _) as [? ?]). destruct (_ || _); [by split|].
  match goal with |- context [on_hba (start_port ?k stack) ?s1] => pose proof (start_port_fails k (hardware (memory (Ahci.kern s1)))) as Hf; set (s2 := s1) in * end.
  assert (K : fruitless s s2) by done. unfold on_hba. destruct (start_port _ _ _) as [[ok disk] d]. cbn in Hf. subst ok. split; [done|].
  intros E. by destruct (K E).
Qed.

Lemma scan_port_fruitless abar pi i s : exists s', scan_port a stack abar pi i s = Some s' /\ fruitless s s'.
Proof.
  unfold scan_port. destruct (AHCI_MAX_DISKS <=? _); [by exists s|]. destruct (Z.land _ _ =? 0); [by exists s|].
  match goal with |- context [on_hba ?f s] => pose proof (fruitless_on_hba f s) as K1; destruct (on_hba f s) as [ssts s1] end. cbn [snd] in K1.
  destruct (negb _); [by exists s1|].
  destruct (port_init_fruitless (usize a (abar + 256 + i * 128)) s1) as [Hf K2]. destruct (ahci_port_init _ _ s1) as [ok s2]. cbn [fst snd] in *. subst ok.
  exists s2. split; [done|]. by eapply fruitless_trans.
Qed.

Lemma each_fruitless l f s : (forall x s, exists s', f x s = Some s' /\ fruitless s s') -> exists s', each l f s = Some s' /\ fruitless s s'.
Proof.
  intros Hf. revert s. induction l as [|x l IH]; intros s; cbn [each]; [by exists s|].
  destruct (Hf x s) as (s1 & -> & K1). destruct (IH s1) as (s2 & E & K2). exists s2. split; [exact E | by eapply fruitless_trans].
Qed.

Ltac hba := match goal with |- context [on_hba ?f ?s1] => let K := fresh "K" in
  pose proof (fruitless_on_hba f s1) as K; destruct (on_hba f s1) as [? ?]; cbn [snd] in K end.

Lemma scan_controller_fruitless bus slot fn s : exists s', scan_controller a stack bus slot fn s = Some s' /\ fruitless s s'.
Proof.
  unfold scan_controller. hba. destruct (_ || _); [by eexists|].
  assert (exists high s1, (if Z.land z 6 =? 4 then on_hba (PciConfigRead32 a bus slot fn 40) a0 else (0, a0)) = (high, s1) /\ fruitless a0 s1) as (high & s1 & -> & K1).
  { destruct (_ =? 4); [hba; by eexists _, _ | by eexists _, _]. }
  destruct (VmmMapMmioRange _ _ _ _) as [abar vm']. set (s2 := mkAhci _ _ _ _ _). assert (K2 : fruitless s1 s2) by done.
  pose proof (fruitless_trans _ _ _ K (fruitless_trans _ _ _ K1 K2)) as K3.
  destruct (abar =? 0); [by eexists|]. hba. hba.
  match goal with |- context [each _ (scan_port a stack ?x ?y) ?s3] => destruct (each_fruitless (seqZ 0 32) (scan_port a stack x y) s3) as (s' & -> & K6) end;
    [intros; apply scan_port_fruitless|].
  exists s'. split; [done|]. eauto using fruitless_trans.
Qed.

Lemma scan_function_fruitless bus slot fn s : exists s', scan_function a stack bus slot fn s = Some s' /\ fruitless s s'.
Proof.
  unfold scan_function. hba. hba. destruct (_ && _); [|eexists; split; [done|]; eauto using fruitless_trans]. hba.
  match goal with |- context [scan_controller a stack bus slot fn ?s3] => destruct (scan_controller_fruitless bus slot fn s3) as (s' & -> & K6) end.
  exists s'. split; [done|]. eauto using fruitless_trans.
Qed.

(** On such a controller no disk is ever found: a port is told to receive frames
    just before its first command, and a command waits for a mask of the command
    register that has the receive bit in it. *)
Theorem AhciInitialize_finds_nothing (driver : Z) (s : @ahci D H) (drv : IO_DRIVER_OBJECT) :
  drivers (memory (kern s)) !! driver = Some drv ->
  exists s', AhciInitialize a stack driver s = Some (false, s') /\ (driver <> 0 -> AhciGetDiskCount s' = 0) /\
    devices (memory (kern s')) = devices (memory (kern s)).
Proof.
  intros Hd. unfold AhciInitialize. destruct (Z.eqb_spec driver 0); [by exists s|]. rewrite Hd. cbn [mbind option_bind].
  set (s1 := mkAhci _ _ _ _ _).
  assert (exists s2, match a with LA64 => Some s1 | _ => each (seqZ 0 256) (fun bus => each (seqZ 0 32) (fun slot => each (seqZ 0 8) (fun fn => scan_function a stack bus slot fn))) s1 end
    = Some s2 /\ fruitless s1 s2) as (s2 & E & K).
  { assert (Hall : exists s2, each (seqZ 0 256) (fun bus => each (seqZ 0 32) (fun slot => each (seqZ 0 8) (fun fn => scan_function a stack bus slot fn))) s1 = Some s2 /\ fruitless s1 s2).
    { do 3 (apply each_fruitless; intros). apply scan_function_fruitless. }
    destruct a; [exact Hall | exact Hall | by exists s1]. }
  rewrite E. cbn [mbind option_bind]. destruct (K eq_refl) as [E0 Edev]. exists s2. rewrite E0. by split.
Qed.

End init.

(** ** The search ends

    On every hardware: with the object manager in order, finding SATA disks gives
    an answer, keeps the object manager in order, and finds at most four disks, of
    32-bit sizes. *)
Section search.
Context {D H : Type} `{Bus D} `{KernelHeap H} (a : arch) (stack : Z).
Implicit Types s : @ahci D H.

Definition disks_ok s : Prop := 0 <= disk_count s <= 4 /\ Forall (fun d => is_u32 (ahci_sectors d)) (disks s).
Definition kernel_ok (k : ob H (io D)) : Prop := inv k /\ registered k (device_object_type (memory k)).
Record search_ok s : Prop := {
  so_kernel : kernel_ok (kern s);
  so_driver : ahci_driver s <> 0 /\ exists d, drivers (memory (kern s)) !! ahci_driver s = Some d /\ dtype d = IO_TYPE_DRIVER;
  so_disks : disks_ok s
}.

Lemma lor_u32 x y : is_u32 x -> is_u32 y -> is_u32 (Z.lor x y).
Proof.
  unfold is_u32. intros Hx Hy. split; [apply Z.lor_nonneg; lia|]. assert (0 <= Z.lor x y) by (apply Z.lor_nonneg; lia).
  destruct (Z.eq_dec (Z.lor x y) 0) as [->|]; [lia|]. apply (Z.log2_lt_pow2 _ 32); [lia|]. rewrite Z.log2_lor by lia.
  apply Z.max_lub_lt; (destruct (Z.eq_dec x 0) as [->|], (Z.eq_dec y 0) as [->|]; try (change (Z.log2 0) with 0; lia); apply Z.log2_lt_pow2; lia).
Qed.

Lemma ld16_u32 p (d : D) : is_u32 (fst (ld W16 p d)).
Proof. unfold ld, mbind, hw_bind, mret, hw_ret. destruct (mmio_load W16 p d). cbn. unfold is_u32, u16. zlia. Qed.

Lemma identified_u32 p (d : D) : is_u32 (fst (identified_sectors p d)).
Proof.
  unfold identified_sectors. do 3 rewrite bind_apply. destruct (_ =? 0).
  - apply lor_u32; [apply ld16_u32|]. apply u32_range.
  - do 4 rewrite bind_apply. cbn [fst mret hw_ret]. destruct (_ <? _); [unfold is_u32; lia | apply u32_range].
Qed.

Lemma start_port_sizes disk (d : D) : is_u32 (ahci_sectors disk) -> is_u32 (ahci_sectors (snd (fst (start_port disk stack d)))).
Proof.
  intros Hd. unfold start_port. do 6 rewrite bind_apply. destruct (negb _); [exact Hd|]. do 6 rewrite bind_apply.
  destruct (negb _); [exact Hd|]. rewrite bind_apply. apply identified_u32.
Qed.

(** [f] keeps the search in order and the number of disks. *)
Definition quietly s s' : Prop := search_ok s -> search_ok s' /\ disk_count s' = disk_count s.
Lemma quietly_trans s1 s2 s3 : quietly s1 s2 -> quietly s2 s3 -> quietly s1 s3.
Proof. intros K1 K2 Hs. destruct (K1 Hs) as [Hs2 <-]. by apply K2. Qed.

Lemma on_hba_ok {A} (f : hw D A) s : quietly s (snd (on_hba f s)).
Proof. intros [Hk Hd Hs]. unfold on_hba. by destruct (f _). Qed.
Lemma allocate_page_ok s : quietly s (snd (allocate_page s)).
Proof. intros [Hk Hd Hs]. unfold allocate_page. by destruct (VmmAllocatePages _ _). Qed.
Lemma put_disk_ok s d : is_u32 (ahci_sectors d) -> quietly s (put_disk s d).
Proof. intros Hu [Hk Hd [Hn Hs]]. split; [|done]. split; try done. split; [done|]. unfold put_disk, put. cbn. by apply Forall_insert. Qed.

Lemma port_init_ok p s : quietly s (snd (ahci_port_init stack p s)).
Proof.
  intros K1. unfold ahci_port_init.
  pose proof (allocate_page_ok s K1) as [K2 E2]. destruct (allocate_page s) as [c s1]. cbn [snd] in K2, E2.
  pose proof (allocate_page_ok s1 K2) as [K3 E3]. destruct (allocate_page s1) as [f s2]. cbn [snd] in K3, E3.
  pose proof (allocate_page_ok s2 K3) as [K4 E4]. destruct (allocate_page s2) as [t s3]. cbn [snd] in K4, E4.
  rewrite <- E2, <- E3, <- E4. set (disk := mkAhciDisk _ _ _ _ _).
  assert (Hu : is_u32 (ahci_sectors disk)).
  { cbn. unfold get. destruct (disks s3 !! _) as [d|] eqn:E; cbn; [|unfold is_u32; lia]. destruct K4 as [_ _ [_ Hsz]]. by apply (Forall_lookup_1 _ _ _ _ Hsz E). }
  destruct (_ || _); [by apply put_disk_ok|]. pose proof (on_hba_ok (start_port disk stack) s3 K4) as [K5 E5].
  pose proof (start_port_sizes disk (hardware (memory (kern s3))) Hu) as Hu'. unfold on_hba in *.
  destruct (start_port disk stack _) as [[ok disk'] d]. cbn [fst snd] in *. rewrite <- E5. by apply put_disk_ok.
Qed.

Lemma sata_cstring n : 0 <= n < 10 -> cstring (sata_name n).
Proof. intros Hn. unfold sata_name. apply Forall_app. split; [by apply (bool_decide_eq_true_1 (Forall _ _)); vm_compute | repeat constructor; lia]. Qed.

Lemma scan_port_ok abar pi i s : search_ok s -> exists s', scan_port a stack abar pi i s = Some s' /\ search_ok s'.
Proof.
  intros Hs. unfold scan_port. destruct (Z.leb_spec AHCI_MAX_DISKS (disk_count s)) as [|Hlt]; [by exists s|]. destruct (Z.land _ _ =? 0); [by exists s|].
  set (p := usize a _). pose proof (on_hba_ok (reg32 p 36) s Hs) as [K1 E1]. destruct (on_hba _ s) as [ssts s1]. cbn [snd] in K1, E1. destruct (negb _); [by exists s1|].
  pose proof (port_init_ok p s1 K1) as [K2 E2]. destruct (ahci_port_init _ _ s1) as [ok s2]. cbn [snd] in K2, E2. destruct (negb ok); [by exists s2|].
  destruct K2 as [[Hi Hreg] [Hz (d & Hd & Hty)] [Hn Hsz]].
  destruct (IoCreateDevice_correct a (kern s2) (ahci_driver s2) d (sata_name (disk_count s2)) (sizeof_AHCI_DISK a) Hi Hreg Hd Hz Hty
    ltac:(apply sata_cstring; lia) ltac:(discriminate) ltac:(destruct a; cbn; lia)) as (r & k & -> & [Et Ety] & Hfail & Hr). cbn [mbind option_bind].
  assert (Hreg' : registered k (device_object_type (memory k))) by (unfold registered in *; by rewrite Et, Ety).
  destruct (Z.eqb_spec r 0) as [->|Hr0].
  - eexists. split; [reflexivity|]. destruct (Hfail eq_refl) as (Hi' & _ & _ & Hdr). split; [done| |done]. split; [done|]. exists d. cbn. by rewrite Hdr.
  - destruct (Hr Hr0) as (Hi' & _ & hd & ext & _ & _ & _ & Hdv & Hdr & _). cbn [Ahci.kern]. rewrite Hdv, lookup_insert_eq. cbn [mbind option_bind].
    eexists. split; [reflexivity|]. split; [by split| |]; cbn.
    + split; [done|]. rewrite Hdr, lookup_insert_eq. by eexists.
    + split; [cbn; unfold AHCI_MAX_DISKS in *; lia | done].
Qed.

Lemma each_ok l f s : (forall x s, search_ok s -> exists s', f x s = Some s' /\ search_ok s') -> search_ok s -> exists s', each l f s = Some s' /\ search_ok s'.
Proof.
  intros Hf. revert s. induction l as [|x l IH]; intros s Hs; cbn [each]; [by exists s|].
  destruct (Hf x s Hs) as (s1 & -> & K1). by apply IH.
Qed.

(** A register access in a search that is in order. *)
Ltac search Hs := match goal with |- context [on_hba ?f ?s1] => let K := fresh "K" in
  pose proof (proj1 (on_hba_ok f s1 Hs)) as K; destruct (on_hba f s1) as [? ?]; cbn [snd] in K; clear Hs; rename K into Hs end.

Lemma scan_controller_ok bus slot fn s : search_ok s -> exists s', scan_controller a stack bus slot fn s = Some s' /\ search_ok s'.
Proof.
  intros Hs. unfold scan_controller. search Hs. destruct (_ || _); [by eexists|].
  assert (exists high s1, (if Z.land z 6 =? 4 then on_hba (PciConfigRead32 a bus slot fn 40) a0 else (0, a0)) = (high, s1) /\ search_ok s1) as (high & s1 & -> & Hs1).
  { destruct (_ =? 4); [search Hs|]; by eexists _, _. }
  destruct (VmmMapMmioRange _ _ _ _) as [abar vm']. set (s2 := mkAhci _ _ _ _ _). assert (Hs2 : search_ok s2) by (by destruct Hs1).
  destruct (abar =? 0); [by eexists|]. search Hs2. search Hs2. apply each_ok; [|done]. intros. by apply scan_port_ok.
Qed.

Lemma scan_function_ok bus slot fn s : search_ok s -> exists s', scan_function a stack bus slot fn s = Some s' /\ search_ok s'.
Proof. intros Hs. unfold scan_function. search Hs. search Hs. destruct (_ && _); [|by eexists]. search Hs. by apply scan_controller_ok. Qed.

Lemma initialize_ok driver d s : kernel_ok (kern s) -> driver <> 0 -> drivers (memory (kern s)) !! driver = Some d -> dtype d = IO_TYPE_DRIVER ->
  exists found s', AhciInitialize a stack driver s = Some (found, s') /\ kernel_ok (kern s') /\ disks_ok s'.
Proof.
  intros Hk Hz Hd Hty. unfold AhciInitialize. rewrite (proj2 (Z.eqb_neq driver 0)), Hd by done. cbn [mbind option_bind]. set (s1 := mkAhci _ _ _ _ _).
  assert (Hs1 : search_ok s1).
  { split; [done| |].
    - split; [done|]. cbn. rewrite lookup_insert_eq. by eexists.
    - split; [cbn; lia|]. apply Forall_replicate. cbn. unfold is_u32. lia. }
  assert (exists s2, match a with LA64 => Some s1 | _ => each (seqZ 0 256) (fun bus => each (seqZ 0 32) (fun slot => each (seqZ 0 8) (fun fn => scan_function a stack bus slot fn))) s1 end
    = Some s2 /\ search_ok s2) as (s2 & E & [Hk2 _ Hd2]).
  { assert (Hall : exists s2, each (seqZ 0 256) (fun bus => each (seqZ 0 32) (fun slot => each (seqZ 0 8) (fun fn => scan_function a stack bus slot fn))) s1 = Some s2 /\ search_ok s2).
    { do 3 (apply each_ok; [intros|done]). by apply scan_function_ok. }
    destruct a; [exact Hall | exact Hall | by exists s1]. }
  rewrite E. cbn [mbind option_bind]. by eexists _, s2.
Qed.

(** The whole search, from creating the driver object on. *)
Theorem AhciBootInitialize_total s : kernel_ok (kern s) -> 0 <= driver_object_type (memory (kern s)) -> disks_ok s ->
  exists found s', AhciBootInitialize a stack s = Some (found, s') /\ kernel_ok (kern s') /\ disks_ok s'.
Proof.
  intros [Hi Hreg] Hty Hs. unfold AhciBootInitialize.
  destruct (IoCreateDriver_correct a (kern s) (cstr "BootAhci") 0 0 Hi Hty ltac:(cstring_lit)) as (r & k & -> & Hi' & [Et Ety] & _ & _ & Hr). cbn [mbind option_bind].
  assert (Hk : kernel_ok k) by (split; [done|]; unfold registered in *; by rewrite Et, Ety).
  destruct (Z.eqb_spec r 0) as [|Hr0]; [by eexists _, _|]. destruct (Hr Hr0) as (hd & _ & _ & _ & Hd). by eapply initialize_ok.
Qed.

End search.

(** A controller that is nothing but registers. *)
#[local] Instance register_bus : Bus (Z -> Z) := {|
  port_in := fun _ _ d => (0, d); port_out := fun _ _ _ d => (tt, d);
  mmio_load := fun _ p d => (d p, d); mmio_store := fun _ p v d => (tt, fun x => if x =? p then v else d x) |}.

Definition register_state : @ahci (Z -> Z) fresh :=
  mkAhci (mkOb [] 0 [] 0 ∅ fresh_start (mkIo {[ 4096 := mkDriver IO_TYPE_DRIVER (cstr "BootAhci") 0 0 (replicate 8 0) (replicate 8 0) 0 0 0 ]} ∅ (fun _ => 0) 1 2 0 (fun _ => 0)))
    empty_mmu 0 [] 0.

Lemma AhciInitialize_finds_nothing_witness :
  exists s', AhciInitialize AMD64 8192 4096 register_state = Some (false, s') /\ AhciGetDiskCount s' = 0.
Proof.
  destruct (AhciInitialize_finds_nothing AMD64 8192 (fun p d => Z.testbit (d (p + 24)) 4 = true)) with (driver := 4096) (s := register_state)
    (drv := mkDriver IO_TYPE_DRIVER (cstr "BootAhci") 0 0 (replicate 8 0) (replicate 8 0) 0 0 0) as (s' & E & Hc & _).
  - intros p v d Hv. cbn. by rewrite Z.eqb_refl.
  - intros p d Hd. by split.
  - reflexivity.
  - exists s'. split; [exact E | by apply Hc].
Defined.

End AhciSpec.
