(* ===== verification/Msc.v ===== *)
(** * drivers/usb/usb_msc.c: USB mass storage

    SCSI commands in the bulk-only protocol: a command block (CBW) out, the
    data, a status block (CSW) in.  A bulk transfer is a function pointer the
    host controller driver hands over; what is at it is the argument
    [transfer], on the memory and on the state [D] of hardware and transport.
    What its reads do on a device that follows the protocol is in [MscSpec].
    Serial log lines are left out. *)

From stdpp Require Import base list numbers gmap strings.
From Stdlib Require Import ZArith Lia.
From S2P Require Import Prelude.
From S2P Require Import Util.
From S2P Require Import Pmm.
From S2P Require Import Vmm.
From S2P Require Import Mm.
From S2P Require Import Sim.
From S2P Require Import Ob.
From S2P Require Import Io.
From S2P Require Import Hw.
From S2P Require Import Fat32.
From S2P Require Import Ide.
From S2P Require Import Cdfs.
From S2P Require Import Ram.
Import Util Ob Io Fat32.

Module Msc.

Definition MSC_CBW_SIGNATURE : Z := 1128420181.
Definition MSC_CSW_SIGNATURE : Z := 1396855637.
Definition SCSI_READ_CAPACITY_10 : Z := 37.
Definition SCSI_READ_10 : Z := 40.

Record MSC_DEVICE := mkMsc {
  msc_context : Z; msc_transfer : Z; msc_in : Z; msc_out : Z; block_size : Z; block_count : Z; next_tag : Z
}.

(** Two pointers, two bytes, three [uint32_t]: the offset of the bytes, and of
    [block_size]. *)
Definition msc_bytes (a : arch) : Z := 2 * Z.of_nat (ptr_bytes a).
Definition msc_words (a : arch) : Z := msc_bytes a + 4.
Definition sizeof_MSC_DEVICE (a : arch) : Z := msc_words a + 12.

Definition msc_at (a : arch) (m : mem) (p : Z) : MSC_DEVICE :=
  mkMsc (ldp a m p) (ldp a m (p + Z.of_nat (ptr_bytes a))) (ld8 m (p + msc_bytes a)) (ld8 m (p + msc_bytes a + 1))
    (ld32 m (p + msc_words a)) (ld32 m (p + msc_words a + 4)) (ld32 m (p + msc_words a + 8)).

Definition be32 (b : list Z) (o : Z) : Z :=
  Z.lor (Z.lor (Z.lor (u32 (Z.shiftl (get 0 b o) 24)) (Z.shiftl (get 0 b (o + 1)) 16)) (Z.shiftl (get 0 b (o + 2)) 8)) (get 0 b (o + 3)).
Definition put_be32 (v : Z) : list Z := [u8 (Z.shiftr v 24); u8 (Z.shiftr v 16); u8 (Z.shiftr v 8); u8 v].

Definition le_bytes (v : Z) : list Z := [u8 v; u8 (Z.shiftr v 8); u8 (Z.shiftr v 16); u8 (Z.shiftr v 24)].

(** [MSC_CBW], packed: 31 bytes; the command is padded to 16. *)
Definition cbw_bytes (tag length : Z) (input : bool) (cdb : list Z) : list Z :=
  le_bytes MSC_CBW_SIGNATURE ++ le_bytes tag ++ le_bytes length
  ++ [if input then 128 else 0; 0; Z.of_nat (Datatypes.length cdb)] ++ cdb ++ replicate (16 - Datatypes.length cdb) 0.

Section msc.
Context {D H : Type} `{KernelHeap H} (a : arch).
(** [transfer] at an address: context, endpoint, buffer and length. *)
Context (transfer : Z -> Z -> Z -> Z -> Z -> mem -> D -> bool * mem * D).
Context (run_unload : Z -> Z -> ob H (io D) -> option (ob H (io D))).
(** The addresses of the locals [cbw], [csw] and [capacity]. *)
Context (cbw csw capacity : Z).

Definition bot_command (p : Z) (cdb : list Z) (data length : Z) (input : bool) (m : mem) (d : D) : bool * mem * D :=
  let dev := msc_at a m p in
  let bulk ep := transfer (msc_transfer dev) (msc_context dev) ep in
  let tag := u32 (next_tag dev + 1) in
  let m := st32 m (p + msc_words a + 8) tag in
  let m := store m cbw (cbw_bytes tag length input cdb) in
  let '(ok, m, d) := bulk (msc_out dev) cbw 31 m d in
  if negb ok then (false, m, d) else
  let '(ok, m, d) := if length =? 0 then (true, m, d) else bulk (if input then msc_in dev else msc_out dev) data length m d in
  if negb ok then (false, m, d) else
  let '(ok, m, d) := bulk (msc_in dev) csw 13 m d in
  if negb ok then (false, m, d) else
  if negb (ld32 m csw =? MSC_CSW_SIGNATURE) || negb (ld32 m (csw + 4) =? ld32 m (cbw + 4)) then (false, m, d) else
  if negb (m (csw + 12) =? 0) then (false, m, d) else (true, m, d).

Definition read_cdb (lba blocks : Z) : list Z :=
  [SCSI_READ_10; 0] ++ put_be32 lba ++ [0; u8 (Z.shiftr blocks 8); u8 blocks; 0].

Definition msc_read_addr : Z := 1060864.

(** A block size of zero is a division by zero. *)
Definition msc_read (device : Z) (r : IO_REQUEST) (k : ob H (io D)) : option (Z * IO_REQUEST * ob H (io D)) :=
  dev ← devices (memory k) !! device;
  let p := device_extension dev in
  let d := msc_at a (bytes (memory k)) p in
  match parameters r with
  | device_control _ _ _ => None
  | read_write offset =>
      if (buffer r =? 0) || (Io.length r =? 0) then Some (IO_STATUS_INVALID_PARAMETER, r, k) else
      if block_size d =? 0 then None else
      if negb (offset mod block_size d =? 0) || negb (Io.length r mod block_size d =? 0) then Some (IO_STATUS_INVALID_PARAMETER, r, k) else
      let lba := u32 (offset / block_size d) in
      let blocks := Io.length r / block_size d in
      if (block_count d <=? lba) || (u32 (block_count d - lba) <? blocks) || (65535 <? blocks) then Some (IO_STATUS_INVALID_PARAMETER, r, k) else
      let '(ok, m, hw) := bot_command p (read_cdb lba blocks) (buffer r) (Io.length r) true (bytes (memory k)) (hardware (memory k)) in
      let k := set_memory k (set_hardware (set_bytes (memory k) m) hw) in
      if negb ok then Some (IO_STATUS_DEVICE_ERROR, r, k)
      else Some (IO_STATUS_SUCCESS, with_status r (status r) (Io.length r), k)
  end.

Definition run_msc (f device : Z) (r : IO_REQUEST) (k : ob H (io D)) : option (Z * IO_REQUEST * ob H (io D)) :=
  if f =? msc_read_addr then msc_read device r k else None.

(** ** Attaching a device *)
Record msc := mkMscState { kern : ob H (io D); msc_driver : Z; disk_count : Z }.

Definition UsbMscInitialize (driver : Z) (s : msc) : option msc :=
  if driver =? 0 then Some (mkMscState (kern s) 0 0) else
  let k := kern s in
  drv ← drivers (memory k) !! driver;
  let k := set_memory k (set_drivers (memory k) (<[driver := Ide.with_major_function drv IO_MJ_READ msc_read_addr]> (drivers (memory k)))) in
  Some (mkMscState k driver 0).

(** The capacity is asked for up to eight times. *)
Fixpoint probe_capacity (n : nat) (p : Z) (m : mem) (d : D) : bool * mem * D :=
  match n with
  | O => (false, m, d)
  | S n' =>
      let '(ok, m, d) := bot_command p ([SCSI_READ_CAPACITY_10] ++ replicate 9 0) capacity 8 true m d in
      if ok then (true, m, d) else probe_capacity n' p m d
  end.

Definition msc_name (n : Z) : list Z := cstr "UsbDisk" ++ [48 + n].

Definition UsbMscAttach (context xfer bulk_in bulk_out : Z) (s : msc) : option (Z * msc) :=
  if (msc_driver s =? 0) || (xfer =? 0) || (9 <? disk_count s) then Some (0, s) else
  '(object, k) ← IoCreateDevice a (msc_driver s) (Some (msc_name (disk_count s))) (sizeof_MSC_DEVICE a) (kern s);
  let s := mkMscState k (msc_driver s) (disk_count s) in
  if object =? 0 then Some (0, s) else
  dev ← devices (memory k) !! object;
  let p := device_extension dev in
  let m := stp a (stp a (bytes (memory k)) p context) (p + Z.of_nat (ptr_bytes a)) xfer in
  let m := upd (upd m (p + msc_bytes a) bulk_in) (p + msc_bytes a + 1) bulk_out in
  let m := st32 m (p + msc_words a + 8) 0 in
  let '(ready, m, d) := probe_capacity 8 p m (hardware (memory k)) in
  let k := set_memory k (set_hardware (set_bytes (memory k) m) d) in
  let size := be32 (load m capacity 8) 4 in
  if negb ready then k ← IoDeleteDevice (io_call run_unload) object k; Some (0, mkMscState k (msc_driver s) (disk_count s)) else
  let m := st32 (st32 m (p + msc_words a + 4) (u32 (be32 (load m capacity 8) 0 + 1))) (p + msc_words a) size in
  let k := set_memory k (set_bytes (memory k) m) in
  if size =? 0 then k ← IoDeleteDevice (io_call run_unload) object k; Some (0, mkMscState k (msc_driver s) (disk_count s)) else
  Some (object, mkMscState k (msc_driver s) (disk_count s + 1)).

End msc.

End Msc.
