(* ===== verification/MscSpec.v ===== *)
(** * USB mass storage

    The laws of a device that follows the bulk-only protocol, as bulk transfers
    see it, and what [msc_read] does on such a device over any transport, as long as
    the transport can move the buffers in one transfer each. *)

From stdpp Require Import base list numbers gmap strings.
From Stdlib Require Import ZArith Lia.
From S2P Require Import Prelude.
From S2P Require Import Util.
From S2P Require Import Pmm.
From S2P Require Import Vmm.
From S2P Require Import Mm.
From S2P Require Import Sim.
From S2P Require Import Ob.
From S2P Require Import Io.
From S2P Require Import Hw.
From S2P Require Import Fat32.
From S2P Require Import Ide.
From S2P Require Import Cdfs.
From S2P Require Import Ram.
From S2P Require Import Msc.
Import Util Ob Io Fat32 Msc.

Module MscSpec.

(** ** The protocol *)
Inductive bot := BotIdle | BotData (tag : Z) (bs : list Z) | BotStatus (tag : Z).

(** A command block that asks for [n] blocks from [lba] on: tag, bytes, [lba], [n]. *)
Definition cbw_read (bs : list Z) : option (Z * Z * Z * Z) :=
  if (le32 bs 0 =? MSC_CBW_SIGNATURE) && (get 0 bs 12 =? 128) && (get 0 bs 13 =? 0) && (get 0 bs 14 =? 10) && (get 0 bs 15 =? SCSI_READ_10)
  then Some (le32 bs 4, le32 bs 8,
             16777216 * get 0 bs 17 + 65536 * get 0 bs 18 + 256 * get 0 bs 19 + get 0 bs 20, 256 * get 0 bs 22 + get 0 bs 23)
  else None.

Definition csw_bytes (tag : Z) : list Z := le_bytes MSC_CSW_SIGNATURE ++ le_bytes tag ++ replicate 5 0.

Lemma u8_byte v k : 0 <= k -> u8 (Z.shiftr v k) = v / 2 ^ k mod 256.
Proof. intros. unfold u8. by rewrite Z.shiftr_div_pow2. Qed.

Lemma le_bytes_eq v : le_bytes v = [v mod 256; v / 256 mod 256; v / 65536 mod 256; v / 16777216 mod 256].
Proof. unfold le_bytes. by rewrite !u8_byte by lia. Qed.

Lemma cbw_read_bytes tag n lba : is_u32 tag -> is_u32 lba -> 0 < n < 65536 ->
  cbw_read (cbw_bytes tag (n * 512) true (read_cdb lba n)) = Some (tag, n * 512, lba, n).
Proof.
  intros Ht Hl Hn. unfold is_u32 in *. unfold cbw_read, cbw_bytes, read_cdb, put_be32. rewrite !le_bytes_eq, !u8_byte by lia.
  unfold le32, le16, le8, get, u8. const_indices. cbn -[Z.div Z.modulo Z.mul Z.add Z.pow].
  change (2 ^ 8) with 256. change (2 ^ 16) with 65536. change (2 ^ 24) with 16777216.
  rewrite (proj2 (Z.eqb_eq _ MSC_CBW_SIGNATURE)) by reflexivity. cbn [andb Z.eqb Pos.eqb].
  repeat f_equal; zlia.
Qed.

(** ** The laws *)
Section device.
Context {D H : Type} `{KernelHeap H} (a : arch).
Context (transfer : Z -> Z -> Z -> Z -> Z -> mem -> D -> bool * mem * D).
Context (xfer context ep_in ep_out : Z) (img : Z -> Z) (limit : Z).
(** The view of hardware and transport, the memory they keep for themselves, and
    the buffers (address and length) one transfer can move. *)
Context (view : bot -> mem -> D -> Prop) (transport : Z -> Prop) (movable : Z -> Z -> Prop).

Definition apart (p n : Z) : Prop := forall x, p <= x < p + n -> ~ transport x.

Record bot_device : Prop := {
  bd_ext b m m' d : (forall x, transport x -> m' x = m x) -> view b m d -> view b m' d;
  bd_command m d p tag lba n : view BotIdle m d -> apart p 31 -> movable p 31 ->
    cbw_read (load m p 31) = Some (tag, n * 512, lba, n) -> 0 < n -> 0 <= lba -> lba + n <= limit ->
    exists m' d', transfer xfer context ep_out p 31 m d = (true, m', d') /\
      view (BotData tag (load img (lba * 512) (n * 512))) m' d' /\ forall x, ~ transport x -> m' x = m x;
  bd_data m d p tag bs n : view (BotData tag bs) m d -> apart p n -> Z.of_nat (Datatypes.length bs) = n -> 0 < n -> movable p n ->
    exists m' d', transfer xfer context ep_in p n m d = (true, m', d') /\ view (BotStatus tag) m' d' /\
      forall x, ~ transport x -> m' x = store m p bs x;
  bd_status m d p tag : view (BotStatus tag) m d -> apart p 13 -> movable p 13 ->
    exists m' d', transfer xfer context ep_in p 13 m d = (true, m', d') /\ view BotIdle m' d' /\
      forall x, ~ transport x -> m' x = store m p (csw_bytes tag) x
}.

Context (Hbot : bot_device) (Hlimit : 0 < limit < 4294967296) (Hmovable : forall q n, movable q n -> n <= 33553920).
Context (cbw csw device p : Z).

(** What the driver keeps for itself: its extension, the two blocks on the
    stack, and the transport's memory. *)
Definition inside (q n x : Z) : Prop := q <= x < q + n.
Definition private (x : Z) : Prop := transport x \/ inside p (sizeof_MSC_DEVICE a) x \/ inside cbw 31 x \/ inside csw 13 x.

Record layout : Prop := {
  lo_ext : apart p (sizeof_MSC_DEVICE a);
  lo_cbw : apart cbw 31;
  lo_csw : apart csw 13;
  lo_ext_cbw x : inside p (sizeof_MSC_DEVICE a) x -> ~ inside cbw 31 x;
  lo_ext_csw x : inside p (sizeof_MSC_DEVICE a) x -> ~ inside csw 13 x;
  lo_cbw_csw x : inside cbw 31 x -> ~ inside csw 13 x;
  lo_movable : movable cbw 31 /\ movable csw 13
}.
Context (Hlay : layout).

(** The extension describes the device, whatever the last tag. *)
Definition describes (m : mem) : Prop :=
  exists tag, msc_at a m p = mkMsc context xfer ep_in ep_out 512 limit tag.

Definition msc_ready (s : io D) : Prop :=
  (exists dev, devices s !! device = Some dev /\ device_extension dev = p) /\ describes (bytes s) /\ view BotIdle (bytes s) (hardware s).

Lemma size_words : msc_words a + 12 = sizeof_MSC_DEVICE a /\ msc_bytes a + 4 = msc_words a /\ 2 * Z.of_nat (ptr_bytes a) = msc_bytes a.
Proof. done. Qed.

(** Only the tag depends on the last four bytes of the extension. *)
Lemma describes_ext m m' : (forall x, p <= x < p + msc_words a + 8 -> m' x = m x) -> describes m -> describes m'.
Proof.
  intros E [tag Hd]. exists (ld32 m' (p + msc_words a + 8)). pose proof size_words as (_ & Hw & Hb).
  set (v := msc_at a m p) in Hd. transitivity (mkMsc (msc_context v) (msc_transfer v) (msc_in v) (msc_out v) (block_size v) (block_count v) (ld32 m' (p + msc_words a + 8)));
    [|by rewrite Hd].
  unfold v, msc_at, ldp. cbn [msc_context msc_transfer msc_in msc_out block_size block_count].
  f_equal; apply ldn_ext; intros i Hi; apply E; (lia || (destruct a; cbn in *; lia)).
Qed.

Lemma ld32_stored m q v tl : is_u32 v -> ld32 (store m q (le_bytes v ++ tl)) q = v.
Proof.
  intros Hv. unfold is_u32 in Hv. assert (B : forall k, 0 <= k < 4 -> store m q (le_bytes v ++ tl) (q + k) = get 0 (le_bytes v) k).
  { intros k Hk. unfold store. rewrite (proj2 (Z.leb_le _ _)), (proj2 (Z.ltb_lt _ _)) by (rewrite ?length_app; cbn [le_bytes Datatypes.length]; lia).
    cbn [andb]. unfold get. replace (q + k - q) with k by lia. by rewrite lookup_app_l by (cbn; lia). }
  set (M := store m q (le_bytes v ++ tl)) in *. clearbody M. cbn [ldn]. rewrite <- (Z.add_0_r q) at 1. rewrite <- !Z.add_assoc, !B, le_bytes_eq by lia. unfold get. const_indices.
  cbn -[Z.div Z.modulo Z.mul Z.add]. zlia.
Qed.

Lemma ld32_after m q b1 v tl : is_u32 v -> ld32 (store m q (b1 ++ le_bytes v ++ tl)) (q + Z.of_nat (Datatypes.length b1)) = v.
Proof.
  intros Hv. rewrite <- (ld32_stored (store m q b1) (q + Z.of_nat (Datatypes.length b1)) v tl Hv) at 2.
  apply ldn_ext. intros i _. symmetry. apply store_app.
Qed.

Lemma out_of q n x (bs : list Z) m : Z.of_nat (Datatypes.length bs) = n -> ~ inside q n x -> store m q bs x = m x.
Proof. intros <- Hx. by apply Ide.store_outside. Qed.

Lemma cbw_length tag n lba b : Z.of_nat (Datatypes.length (cbw_bytes tag n b (read_cdb lba (n / 512)))) = 31.
Proof. done. Qed.

(** The whole exchange for [n] blocks from [lba] on. *)
Lemma bot_command_reads m d lba n buf :
  describes m -> view BotIdle m d -> 0 <= lba -> 0 < n -> movable buf (n * 512) -> lba + n <= limit -> (forall x, inside buf (n * 512) x -> ~ private x) ->
  exists m' d', bot_command a transfer cbw csw p (read_cdb lba n) buf (n * 512) true m d = (true, m', d') /\
    describes m' /\ view BotIdle m' d' /\ forall x, ~ private x -> m' x = store m buf (load img (lba * 512) (n * 512)) x.
Proof.
  intros Hd Hv Hl Hn Hm Hfit Hbuf. pose proof (Hmovable _ _ Hm) as Hmost. pose proof Hd as [tag0 Hat]. unfold bot_command. rewrite Hat. cbn [msc_transfer msc_context msc_in msc_out next_tag].
  set (tag := u32 (tag0 + 1)). assert (Ht : is_u32 tag) by apply u32_range.
  set (m1 := st32 m _ tag). set (cb := cbw_bytes tag (n * 512) true (read_cdb lba n)). set (bs := load img (lba * 512) (n * 512)).
  assert (Hbs : Z.of_nat (Datatypes.length bs) = n * 512) by (unfold bs; rewrite load_length; lia).
  assert (Hv1 : view BotIdle (store m1 cbw cb) d).
  { apply (bd_ext Hbot _ m); [|done]. intros x Hx. pose proof size_words as (Hw & _). rewrite (out_of cbw 31) by (done || (intros Hc; by apply (lo_cbw Hlay x))).
    apply stn_out. assert (~ inside p (sizeof_MSC_DEVICE a) x) as Hp by (intros Hc; by apply (lo_ext Hlay x)). unfold inside in Hp.
    assert (0 <= msc_words a) by (by destruct a). lia. }
  destruct (bd_command Hbot (store m1 cbw cb) d cbw tag lba n Hv1 (lo_cbw Hlay) (proj1 (lo_movable Hlay))) as (m3 & d3 & -> & Hv3 & H3); [|lia..|].
  { rewrite load_store by done. apply cbw_read_bytes; [done | unfold is_u32; lia | lia]. }
  cbn [negb]. rewrite (proj2 (Z.eqb_neq (n * 512) 0)) by lia.
  destruct (bd_data Hbot m3 d3 buf tag bs (n * 512) Hv3) as (m4 & d4 & -> & Hv4 & H4); [|done | lia | done |].
  { intros x Hx Htr. apply (Hbuf x Hx). by left. }
  cbn [negb]. destruct (bd_status Hbot m4 d4 csw tag Hv4 (lo_csw Hlay) (proj2 (lo_movable Hlay))) as (m5 & d5 & -> & Hv5 & H5). cbn [negb].
  assert (V : forall x, ~ transport x -> m5 x = store (store (store m1 cbw cb) buf bs) csw (csw_bytes tag) x).
  { intros x Hx. rewrite H5 by done. apply store_ext. rewrite H4 by done. apply store_ext. by apply H3. }
  assert (Vcbw : forall x, inside cbw 31 x -> m5 x = store m1 cbw cb x).
  { intros x Hx. rewrite V by (by apply (lo_cbw Hlay)). rewrite (out_of csw 13) by (done || by apply (lo_cbw_csw Hlay)).
    apply (out_of buf (n * 512)); [done|]. intros Hb. apply (Hbuf x Hb). by right; right; left. }
  assert (ld32 m5 csw = MSC_CSW_SIGNATURE) as ->.
  { rewrite (ldn_ext 4 m5 _ csw (fun i Hi => V (csw + i) (lo_csw Hlay (csw + i) ltac:(lia)))). by apply (ld32_stored _ csw MSC_CSW_SIGNATURE). }
  assert (ld32 m5 (csw + 4) = tag) as ->.
  { rewrite (ldn_ext 4 m5 _ (csw + 4) (fun i Hi => V (csw + 4 + i) (lo_csw Hlay (csw + 4 + i) ltac:(lia)))). by apply (ld32_after _ csw (le_bytes MSC_CSW_SIGNATURE)). }
  assert (ld32 m5 (cbw + 4) = tag) as ->.
  { rewrite (ldn_ext 4 m5 _ (cbw + 4) (fun i Hi => Vcbw (cbw + 4 + i) ltac:(unfold inside; lia))). by apply (ld32_after _ cbw (le_bytes MSC_CBW_SIGNATURE)). }
  assert (m5 (csw + 12) = 0) as ->.
  { rewrite V by (apply (lo_csw Hlay); lia). unfold store. rewrite (proj2 (Z.leb_le _ _)), (proj2 (Z.ltb_lt _ _)) by (cbn; lia).
    cbn [andb]. by replace (csw + 12 - csw) with 12 by lia. }
  rewrite !Z.eqb_refl. cbn [negb orb]. pose proof size_words as (Hw & _). exists m5, d5. split; [done|]. split; [|split; [done|]].
  - apply (describes_ext m); [|done]. intros x Hx. assert (Hi : inside p (sizeof_MSC_DEVICE a) x) by (unfold inside; lia).
    rewrite V by (by apply (lo_ext Hlay)). rewrite (out_of csw 13) by (done || by apply (lo_ext_csw Hlay)).
    rewrite (out_of buf (n * 512)); [|done | intros Hb; apply (Hbuf x Hb); by right; left].
    rewrite (out_of cbw 31) by (done || by apply (lo_ext_cbw Hlay)). apply stn_out. lia.
  - intros x Hx. rewrite V by (intros Htr; apply Hx; by left). rewrite (out_of csw 13) by (done || (intros Hc; apply Hx; by right; right; right)).
    apply store_ext. rewrite (out_of cbw 31) by (done || (intros Hc; apply Hx; by right; right; left)). apply stn_out.
    assert (~ inside p (sizeof_MSC_DEVICE a) x) as Hp by (intros Hc; apply Hx; by right; left). unfold inside in Hp.
    assert (0 <= msc_words a) by (by destruct a). lia.
Qed.

Lemma msc_read_ok (st : ob H (io D)) (r : IO_REQUEST) offset :
  msc_ready (memory st) -> parameters r = read_write offset ->
  0 <= offset -> offset mod 512 = 0 -> 0 < Io.length r -> Io.length r mod 512 = 0 -> offset + Io.length r <= limit * 512 ->
  buffer r <> 0 -> movable (buffer r) (Io.length r) -> (forall x, buffer r <= x < buffer r + Io.length r -> ~ private x) ->
  exists r' m d, run_msc a transfer cbw csw msc_read_addr device r st
      = Some (IO_STATUS_SUCCESS, r', set_memory st (set_hardware (set_bytes (memory st) m) d)) /\
    msc_ready (set_hardware (set_bytes (memory st) m) d) /\
    forall x, ~ private x -> m x = store (bytes (memory st)) (buffer r) (load img offset (Io.length r)) x.
Proof.
  intros ((dev & E1 & E2) & Hd & Hv) Hpar Ho Hoa Hn Hna Hfit Hb Hmv Hp. pose proof (Hmovable _ _ Hmv) as Hmost.
  unfold run_msc, msc_read. rewrite Z.eqb_refl, E1. cbn [mbind option_bind]. rewrite Hpar, E2.
  pose proof Hd as [tag ->]. cbn [block_size block_count].
  rewrite (proj2 (Z.eqb_neq (buffer r) 0)), (proj2 (Z.eqb_neq (Io.length r) 0)), Hoa, Hna by lia. cbn [negb orb Z.eqb].
  rewrite u32_small by (unfold is_u32; zlia).
  rewrite (proj2 (Z.leb_gt limit _)), u32_small by (try unfold is_u32; zlia). rewrite (proj2 (Z.ltb_ge _ _)), (proj2 (Z.ltb_ge 65535 _)) by zlia. cbn [orb].
  destruct (bot_command_reads (bytes (memory st)) (hardware (memory st)) (offset / 512) (Io.length r / 512) (buffer r) Hd Hv)
    as (m' & d' & E & Hd' & Hv' & Hm); [zlia | zlia | by replace (Io.length r / 512 * 512) with (Io.length r) by zlia | zlia | |].
  { intros x Hx. apply Hp. unfold inside in Hx. zlia. }
  replace (Io.length r / 512 * 512) with (Io.length r) in * by zlia. replace (offset / 512 * 512) with offset in * by zlia.
  rewrite E. cbn [negb]. eexists _, m', d'. split; [reflexivity|]. split; [|exact Hm]. split; [by exists dev|]. by split.
Qed.

(** What the driver takes for a read it can make. *)
Definition valid_read (r : IO_REQUEST) (offset : Z) : Prop :=
  buffer r <> 0 /\ 0 < Io.length r /\ offset mod 512 = 0 /\ Io.length r mod 512 = 0 /\ offset + Io.length r <= limit * 512 /\ Io.length r <= 33553920.

Lemma msc_refuses (st : ob H (io D)) (r : IO_REQUEST) offset :
  msc_ready (memory st) -> parameters r = read_write offset -> 0 <= offset < 2199023255552 -> 0 <= Io.length r -> ~ valid_read r offset ->
  run_msc a transfer cbw csw msc_read_addr device r st = Some (IO_STATUS_INVALID_PARAMETER, r, st).
Proof.
  intros ((dev & E1 & E2) & Hd & Hv) Hpar Ho Hn Hbad. unfold valid_read in Hbad.
  unfold run_msc, msc_read. rewrite Z.eqb_refl, E1. cbn [mbind option_bind]. rewrite Hpar, E2. pose proof Hd as [tag ->]. cbn [block_size block_count].
  destruct (Z.eqb_spec (buffer r) 0); [done|]. destruct (Z.eqb_spec (Io.length r) 0); [done|]. cbn [orb Z.eqb].
  destruct (Z.eqb_spec (offset mod 512) 0); [|done]. destruct (Z.eqb_spec (Io.length r mod 512) 0); [|done]. cbn [negb orb].
  rewrite (u32_small (offset / 512)) by (unfold is_u32; zlia). destruct (Z.leb_spec limit (offset / 512)); [done|]. cbn [orb].
  rewrite u32_small by (unfold is_u32; zlia). destruct (Z.ltb_spec (limit - offset / 512) (Io.length r / 512)); [done|]. cbn [orb].
  destruct (Z.ltb_spec 65535 (Io.length r / 512)); [done|]. exfalso. apply Hbad. split_and!; zlia.
Qed.

(** C10. A read of a USB disk, on a device that follows the bulk-only protocol with
    blocks of 512 bytes, over any transport: a request that is not of whole blocks
    inside the disk, or is too long for the command, is refused and nothing is
    touched; any other brings the bytes of the disk to the buffer and leaves the
    device ready for the next, if the buffer (and the driver's two blocks on the
    stack) is one that a single transfer of the transport can move, since the driver
    does not split it. *)
Theorem msc_read_correct (st : ob H (io D)) (r : IO_REQUEST) (offset : Z) :
  msc_ready (memory st) -> parameters r = read_write offset -> 0 <= offset < 2199023255552 -> 0 <= Io.length r ->
  (~ valid_read r offset -> run_msc a transfer cbw csw msc_read_addr device r st = Some (IO_STATUS_INVALID_PARAMETER, r, st)) /\
  (valid_read r offset -> movable (buffer r) (Io.length r) -> (forall x, buffer r <= x < buffer r + Io.length r -> ~ private x) ->
   exists r' m d, run_msc a transfer cbw csw msc_read_addr device r st
       = Some (IO_STATUS_SUCCESS, r', set_memory st (set_hardware (set_bytes (memory st) m) d)) /\
     msc_ready (set_hardware (set_bytes (memory st) m) d) /\
     forall x, ~ private x -> m x = store (bytes (memory st)) (buffer r) (load img offset (Io.length r)) x).
Proof.
  intros Hr Hpar Ho Hn. split; [by apply msc_refuses|]. intros (V1 & V2 & V3 & V4 & V5 & _) Hm Hp. apply msc_read_ok; try done. lia.
Qed.

End device.

(** ** A simulated stick of 8 blocks *)
Definition stick (o : Z) : Z := o mod 251.

Definition stick_transfer (_ _ ep p n : Z) (m : mem) (d : bot) : bool * mem * bot :=
  match d with
  | BotIdle => match cbw_read (load m p 31) with
               | Some (tag, bytes, lba, _) => (true, m, BotData tag (load stick (lba * 512) bytes))
               | None => (false, m, d)
               end
  | BotData tag bs => (true, store m p bs, BotStatus tag)
  | BotStatus tag => (true, store m p (csw_bytes tag), BotIdle)
  end.

Lemma stick_bot : bot_device stick_transfer 4096 20480 129 2 stick 8 (fun b _ d => d = b) (fun _ => False) (fun _ n => n <= 65536).
Proof.
  split.
  - by intros b m m' d _ ->.
  - intros m d p tag lba n -> _ _ E _ _ _. cbn. rewrite E. by eexists _, _.
  - intros m d p tag bs n -> _ _ _ _. by eexists _, _.
  - intros m d p tag -> _ _. by eexists _, _.
Qed.

Definition stick_memory : mem :=
  st32 (st32 (upd (upd (st32 (st32 (fun _ => 0) 12288 20480) 12292 4096) 12296 129) 12297 2) 12300 512) 12304 8.
Definition stick_state : ob fresh (io bot) :=
  mkOb [] 0 [] 0 ∅ fresh_start (mkIo ∅ {[ 8192 := mkDevice IO_TYPE_DEVICE [] 4096 12288 24 0 1 ]} stick_memory 1 2 0 BotIdle).

Definition sample_read (length : Z) : IO_REQUEST := mkRequest IO_MJ_READ 0 0 65536 length (read_write 1536).

Lemma msc_read_correct_witness :
  (exists r' m d, run_msc X86 stick_transfer 32768 33024 msc_read_addr 8192 (sample_read 1024) stick_state
      = Some (IO_STATUS_SUCCESS, r', set_memory stick_state (set_hardware (set_bytes (memory stick_state) m) d)) /\ m 65540 = 34) /\
  run_msc X86 stick_transfer 32768 33024 msc_read_addr 8192 (sample_read 4096) stick_state = Some (IO_STATUS_INVALID_PARAMETER, sample_read 4096, stick_state).
Proof.
  assert (Hlay : layout X86 (fun _ => False) (fun _ n => n <= 65536) 32768 33024 12288).
  { split; try (intros x Hx Hf; exact Hf); try (split; lia); intros x; unfold inside; change (sizeof_MSC_DEVICE X86) with 24; lia. }
  assert (Hready : msc_ready X86 4096 20480 129 2 8 (fun b _ d => d = b) 8192 12288 (memory stick_state)).
  { split; [by exists (mkDevice IO_TYPE_DEVICE [] 4096 12288 24 0 1)|]. split; [by exists 0 | reflexivity]. }
  pose proof (fun r => msc_read_correct (H := fresh) X86 stick_transfer 4096 20480 129 2 stick 8 (fun b _ d => d = b) (fun _ => False) (fun _ n => n <= 65536)
    stick_bot ltac:(lia) ltac:(cbn; intros; lia) 32768 33024 8192 12288 Hlay stick_state r 1536 Hready) as Hread.
  split.
  - destruct (Hread (sample_read 1024) eq_refl) as [_ Hok]; [lia | cbn; lia|].
    destruct Hok as (r' & m & d & E & _ & Hm); [repeat split; cbn; lia | cbn; lia | |].
    + intros x Hx Hp. cbn in Hx. destruct Hp as [Hf|[Hi|[Hi|Hi]]]; [exact Hf|unfold inside in Hi; change (sizeof_MSC_DEVICE X86) with 24 in *; lia..].
    + exists r', m, d. split; [exact E|]. rewrite Hm; [vm_compute; reflexivity|].
      intros [Hf|[Hi|[Hi|Hi]]]; [exact Hf|unfold inside in Hi; change (sizeof_MSC_DEVICE X86) with 24 in *; lia..].
  - apply (Hread (sample_read 4096) eq_refl); [lia | cbn; lia|]. unfold valid_read. cbn. lia.
Defined.

End MscSpec.
