(* ===== verification/Hid.v ===== *)
(** * drivers/usb/xhci.c: input reports

    Keyboards and mice deliver reports in the boot format; [xhci.c] turns them
    into the bytes a PS/2 keyboard or mouse would send and puts them in the
    queue of [Input].  The fields of [XHCI_DEVICE] these functions read and write
    are arguments and results: [hid_seen_input] and [hid_previous]; [report]
    holds [hid_report]. *)

From stdpp Require Import base list numbers gmap strings.
From Stdlib Require Import ZArith Lia.
From S2P Require Import Prelude.
From S2P Require Import Hw.
From S2P Require Import Input.
From S2P Require Import Mouse.
Import Ring.

Module Hid.

Definition letter_scancodes : list Z :=
  [30; 48; 46; 32; 18; 33; 34; 35; 23; 36; 37; 38; 50; 49; 24; 25; 16; 19; 31; 20; 22; 47; 17; 45; 21; 44].
Definition digit_scancodes : list Z := [2; 3; 4; 5; 6; 7; 8; 9; 10; 11].

Definition hid_usage_to_scancode (usage : Z) : Z :=
  if (4 <=? usage) && (usage <=? 29) then get 0 letter_scancodes (usage - 4) else
  if (30 <=? usage) && (usage <=? 39) then get 0 digit_scancodes (usage - 30) else
  match usage with
  | 40 => 28 | 41 => 1 | 42 => 14 | 43 => 15 | 44 => 57 | 45 => 12 | 46 => 13 | 47 => 26 | 48 => 27 | 49 => 43
  | 51 => 39 | 52 => 40 | 53 => 41 | 54 => 51 | 55 => 52 | 56 => 53 | 57 => 58
  | 79 => 77 | 80 => 75 | 81 => 80 | 82 => 72 | 76 => 83
  | _ => 0
  end.

Definition report_has_usage (report : list Z) (usage : Z) : bool := existsb (fun i => get 0 report i =? usage) (seqZ 2 6).

Definition keyboard_scancode (scancode : Z) (pressed extended : bool) (q : ring Input.INPUT_BYTE) : ring Input.INPUT_BYTE :=
  if scancode =? 0 then q else
  let q := if extended then Input.InputInjectKeyboardByte 224 q else q in
  Input.InputInjectKeyboardByte (u8 (Z.lor scancode (if pressed then 0 else 128))) q.

Definition mod_scan : list Z := [29; 42; 56; 91; 29; 54; 56; 92].

(** [usage >= 0x4c && usage <= 0x52] *)
Definition usage_extended (usage : Z) : bool := (76 <=? usage) && (usage <=? 82).

Definition process_keyboard_report (seen : bool) (previous report : list Z) (q : ring Input.INPUT_BYTE)
  : bool * list Z * ring Input.INPUT_BYTE :=
  let old_mod := get 0 previous 0 in
  let new_mod := get 0 report 0 in
  let seen := seen || (negb (new_mod =? 0) || negb (get 0 report 2 =? 0)) in
  let q := for_range 0 8 (fun i q =>
    let bit := u8 (Z.shiftl 1 i) in
    if Z.land (Z.lxor old_mod new_mod) bit =? 0 then q
    else keyboard_scancode (get 0 mod_scan i) (negb (Z.land new_mod bit =? 0)) (4 <=? i) q) q in
  let q := for_range 2 6 (fun i q =>
    let usage := get 0 previous i in
    if negb (usage =? 0) && negb (report_has_usage report usage)
    then keyboard_scancode (hid_usage_to_scancode usage) false (usage_extended usage) q else q) q in
  let q := for_range 2 6 (fun i q =>
    let usage := get 0 report i in
    if negb (usage =? 0) && negb (report_has_usage previous usage)
    then keyboard_scancode (hid_usage_to_scancode usage) true (usage_extended usage) q else q) q in
  (seen, take 8 report, q).

Definition process_mouse_report (seen : bool) (report : list Z) (q : ring Input.INPUT_BYTE) : bool * ring Input.INPUT_BYTE :=
  let buttons := Z.land (get 0 report 0) 7 in
  let dx := s8 (get 0 report 1) in
  let dy := s8 (get 0 report 2) in
  let ps2_y := if 127 <? - dy then 127 else - dy in
  let seen := seen || (negb (buttons =? 0) || negb (dx =? 0) || negb (dy =? 0)) in
  let first := u8 (Z.lor (Z.lor (Z.lor 8 buttons) (if dx <? 0 then 16 else 0)) (if ps2_y <? 0 then 32 else 0)) in
  (seen, Input.InputInjectMouseByte (u8 ps2_y) (Input.InputInjectMouseByte (u8 dx) (Input.InputInjectMouseByte first q))).

(** ** Bytes in the queue *)
Definition inject_all (l : list Input.INPUT_BYTE) (q : ring Input.INPUT_BYTE) : ring Input.INPUT_BYTE :=
  fold_left (fun q b => ring_push Input.INPUT_QUEUE_SIZE b q) l q.

Definition waiting (q : ring Input.INPUT_BYTE) : list Input.INPUT_BYTE := queue Input.INPUT_QUEUE_SIZE Input.no_byte q.

Lemma inject_all_waiting l q : ring_ok Input.INPUT_QUEUE_SIZE q -> (length (waiting q) + length l <= 63)%nat ->
  ring_ok Input.INPUT_QUEUE_SIZE (inject_all l q) /\ waiting (inject_all l q) = waiting q ++ l.
Proof.
  revert q. induction l as [|b l IH]; intros q Hq Hl; [by rewrite app_nil_r|]. cbn [inject_all fold_left length] in *.
  destruct (ring_push_spec Input.INPUT_QUEUE_SIZE Input.no_byte q b Hq) as [Hq' E].
  pose proof (queue_length Input.INPUT_QUEUE_SIZE Input.no_byte q Hq) as Hn. fold (waiting q) in *.
  rewrite (proj2 (Z.ltb_lt _ _)) in E by (unfold Input.INPUT_QUEUE_SIZE in *; lia). fold (waiting (ring_push Input.INPUT_QUEUE_SIZE b q)) in E.
  destruct (IH _ Hq') as [Hr Er]; [rewrite E, length_app; cbn; lia|]. split; [exact Hr|]. etrans; [exact Er|]. by rewrite E, <- (assoc_L (++)).
Qed.

Lemma inject_all_app l l' q : inject_all (l ++ l') q = inject_all l' (inject_all l q).
Proof. apply fold_left_app. Qed.

Lemma for_range_inject a n f q : for_range a n (fun i q => inject_all (f i) q) q = inject_all (concat (map f (seqZ a n))) q.
Proof.
  unfold for_range. revert q. induction (seqZ a n) as [|i l IH]; intros q; [done|]. cbn [fold_left map concat]. by rewrite inject_all_app, IH.
Qed.

Lemma for_range_fun {A} a n (f g : Z -> A -> A) x : (forall i y, f i y = g i y) -> for_range a n f x = for_range a n g x.
Proof.
  intros E. unfold for_range. revert x. induction (seqZ a n) as [|i l IH]; intros x; [done|]. cbn [fold_left]. by rewrite E, IH.
Qed.

(** ** Strokes: a key, prefixed or not, and its direction *)
Definition key : Type := bool * Z.
Definition stroke : Type := key * bool.

Definition stroke_bytes (s : stroke) : list Z := (if s.1.1 then [224] else []) ++ [Z.lor s.1.2 (if s.2 then 0 else 128)].

Definition usage_keys (usage : Z) : list key :=
  if hid_usage_to_scancode usage =? 0 then [] else [(usage_extended usage, hid_usage_to_scancode usage)].
Definition modifier_key (i : Z) : key := (4 <=? i, get 0 mod_scan i).

(** The keys a report says are down. *)
Definition report_usages (report : list Z) : list key := concat (map (fun i => usage_keys (get 0 report i)) (seqZ 2 6)).
Definition report_modifiers (report : list Z) : list key :=
  concat (map (fun i => if Z.testbit (get 0 report 0) i then [modifier_key i] else []) (seqZ 0 8)).
Definition report_keys (report : list Z) : gset key := list_to_set (report_modifiers report ++ report_usages report).

(** The keys down after the bytes received so far (newest first), as the events
    of the keyboard driver show them. *)
Definition press (s : gset key) (e : Keyboard.KEYBOARD_EVENT) : gset key :=
  let k := (negb (Keyboard.extended e =? 0), Keyboard.scancode e) in
  if Keyboard.pressed e =? 0 then s ∖ {[k]} else s ∪ {[k]}.
Definition keys_down (hist : list Z) : gset key := fold_left press (Keyboard.events [] (rev hist)) ∅.

Definition strike (s : gset key) (k : stroke) : gset key := if k.2 then s ∪ {[k.1]} else s ∖ {[k.1]}.

Lemma events_app hist l l' : Keyboard.events hist (l ++ l') = Keyboard.events hist l ++ Keyboard.events (rev l ++ hist) l'.
Proof.
  revert hist. induction l as [|b l IH]; intros hist; [done|]. cbn [app Keyboard.events rev]. by rewrite IH, <- !(assoc_L (++)).
Qed.

Definition scan (sc : Z) : Prop := 0 < sc < 96.

(** The bytes of a stroke are one event, with the key and the direction. *)
Lemma stroke_event (k : key) p hist s : scan k.2 -> Keyboard.prefixed hist = 0 ->
  fold_left press (Keyboard.events hist (stroke_bytes (k, p))) s = strike s (k, p) /\
  Keyboard.prefixed (rev (stroke_bytes (k, p)) ++ hist) = 0.
Proof.
  destruct k as [ext sc]. cbn [snd]. intros Hs Hh. unfold stroke_bytes. cbn [fst snd].
  set (b := Z.lor sc (if p then 0 else 128)).
  assert (Hb : Z.land b 127 = sc /\ Keyboard.is_press b = p /\ (b =? 224) = false).
  { assert (forallb (fun sc => forallb (fun p : bool => let b := Z.lor sc (if p then 0 else 128) in
      (Z.land b 127 =? sc) && Bool.eqb (Keyboard.is_press b) p && negb (b =? 224)) [true; false]) (seqZ 1 95) = true) as Hall by (vm_compute; reflexivity).
    rewrite forallb_forall in Hall. specialize (Hall sc ltac:(apply list_elem_of_In, elem_of_seqZ; unfold scan in Hs; lia)).
    rewrite forallb_forall in Hall. specialize (Hall p ltac:(destruct p; cbn; auto)). cbn zeta in Hall. fold b in Hall.
    rewrite !andb_true_iff, Z.eqb_eq, negb_true_iff, Bool.eqb_true_iff in Hall. tauto. }
  destruct Hb as (H1 & H2 & H3). assert (E : forall h, Keyboard.events h [b] = [Keyboard.event_of b h]) by (intros h; cbn; by rewrite H3).
  destruct ext; cbn [app Keyboard.events fold_left rev Z.eqb Pos.eqb].
  - rewrite H3. cbn [app fold_left Keyboard.prefixed]. rewrite H3. split; [|done]. unfold press, strike. cbn. rewrite H1, H2. by destruct p.
  - rewrite H3. cbn [app fold_left Keyboard.prefixed]. rewrite H3. split; [|done]. unfold press, strike. cbn. rewrite H1, H2, Hh. by destruct p.
Qed.

Lemma strokes_events (l : list stroke) hist s : Forall (fun k : stroke => scan k.1.2) l -> Keyboard.prefixed hist = 0 ->
  fold_left press (Keyboard.events hist (concat (map stroke_bytes l))) s = fold_left strike l s /\
  Keyboard.prefixed (rev (concat (map stroke_bytes l)) ++ hist) = 0.
Proof.
  revert hist s. induction l as [|[k p] l IH]; intros hist s Hl Hh; [done|]. apply Forall_cons in Hl as [Hk Hl].
  destruct (stroke_event k p hist s Hk Hh) as [E1 E2]. cbn [map concat fold_left]. rewrite events_app, fold_left_app, E1, rev_app_distr, <- (assoc_L (++)).
  by apply IH.
Qed.

(** ** The strokes of a report *)
Definition modifier_strokes (old new i : Z) : list stroke :=
  if Bool.eqb (Z.testbit old i) (Z.testbit new i) then [] else [(modifier_key i, Z.testbit new i)].
Definition usage_strokes (other : list Z) (p : bool) (usage : Z) : list stroke :=
  if negb (usage =? 0) && negb (report_has_usage other usage) then map (fun k => (k, p)) (usage_keys usage) else [].

Definition report_strokes (previous report : list Z) : list stroke :=
  concat (map (modifier_strokes (get 0 previous 0) (get 0 report 0)) (seqZ 0 8))
  ++ concat (map (fun i => usage_strokes report false (get 0 previous i)) (seqZ 2 6))
  ++ concat (map (fun i => usage_strokes previous true (get 0 report i)) (seqZ 2 6)).

Definition key_bytes (l : list stroke) : list Input.INPUT_BYTE := map (Input.mkByte 0) (concat (map stroke_bytes l)).

Lemma key_bytes_app l l' : key_bytes (l ++ l') = key_bytes l ++ key_bytes l'.
Proof. unfold key_bytes. by rewrite map_app, concat_app, map_app. Qed.

Lemma keyboard_scancode_strokes (k : key) p q : scan k.2 -> keyboard_scancode k.2 p k.1 q = inject_all (key_bytes [(k, p)]) q.
Proof.
  intros Hs. unfold keyboard_scancode, scan in *. rewrite (proj2 (Z.eqb_neq _ _)) by lia.
  assert (u8 (Z.lor k.2 (if p then 0 else 128)) = Z.lor k.2 (if p then 0 else 128)) as ->.
  { apply u8_small. unfold is_u8. split; [apply Z.lor_nonneg; destruct p; lia|].
    destruct p; [rewrite Z.lor_0_r; lia|]. rewrite Z.lor_comm. change 128 with (1 * 2 ^ 7). rewrite lor_high_low by lia. lia. }
  destruct k as [[] sc]; done.
Qed.

Lemma usage_scan usage : is_u8 usage -> Forall (fun k : key => scan k.2) (usage_keys usage).
Proof.
  intros Hu. assert (forallb (fun u => (0 <=? hid_usage_to_scancode u) && (hid_usage_to_scancode u <? 96)) (seqZ 0 256) = true) as Hall by (vm_compute; reflexivity).
  rewrite forallb_forall in Hall. specialize (Hall usage ltac:(apply list_elem_of_In, elem_of_seqZ; unfold is_u8 in Hu; lia)).
  unfold usage_keys. destruct (Z.eqb_spec (hid_usage_to_scancode usage) 0); [constructor|]. constructor; [|constructor]. unfold scan. cbn. lia.
Qed.

Lemma modifier_scan i : 0 <= i < 8 -> scan (modifier_key i).2.
Proof.
  intros Hi. assert (i ∈ seqZ 0 8) as Hin by (apply elem_of_seqZ; lia). revert i Hi Hin.
  assert (Forall (fun i => scan (modifier_key i).2) (seqZ 0 8)) as Hall by (repeat constructor). by intros i _ Hin; eapply Forall_forall in Hall.
Qed.

Lemma bit_of v i : is_u8 v -> 0 <= i < 8 -> (Z.land v (u8 (Z.shiftl 1 i)) =? 0) = negb (Z.testbit v i).
Proof.
  intros Hv Hi. assert (u8 (Z.shiftl 1 i) = 2 ^ i) as ->.
  { rewrite Z.shiftl_1_l. apply u8_small. split; [lia|]. apply (Z.pow_lt_mono_r 2 i 8); lia. }
  destruct (Z.testbit v i) eqn:E.
  - apply Z.eqb_neq. intros Hc. assert (Z.testbit (Z.land v (2 ^ i)) i = true) as Ht by (rewrite Z.land_spec, E, Z.pow2_bits_true by lia; done).
    by rewrite Hc, Z.bits_0 in Ht.
  - apply Z.eqb_eq. apply Z.bits_inj_0. intros n. rewrite Z.land_spec. destruct (decide (n = i)) as [->|Hn]; [by rewrite E|].
    destruct (decide (0 <= n)); [by rewrite Z.pow2_bits_false, andb_false_r by lia | by rewrite Z.testbit_neg_r by lia].
Qed.

Definition report_ok (report : list Z) : Prop := length report = 8%nat /\ Forall is_u8 report.

Lemma report_byte report i : report_ok report -> is_u8 (get 0 report i).
Proof.
  intros [_ Hr]. unfold get. destruct (report !! Z.to_nat i) as [v|] eqn:E; cbn; [|split; lia]. by eapply Forall_lookup in Hr.
Qed.

Lemma lxor_u8 x y : is_u8 x -> is_u8 y -> is_u8 (Z.lxor x y).
Proof.
  intros Hx Hy. unfold is_u8 in *. assert (0 <= Z.lxor x y) by (apply Z.lxor_nonneg; lia). split; [done|].
  destruct (decide (Z.lxor x y = 0)) as [->|]; [lia|]. apply Z.log2_lt_cancel. change (Z.log2 256) with 8.
  pose proof (Z.log2_lxor x y). pose proof (Z.log2_le_mono x 255). pose proof (Z.log2_le_mono y 255). change (Z.log2 255) with 7 in *. lia.
Qed.

Lemma concat_key_bytes f (l : list Z) : concat (map (fun i => key_bytes (f i)) l) = key_bytes (concat (map f l)).
Proof. induction l as [|i l IH]; [done|]. cbn [map concat]. by rewrite IH, key_bytes_app. Qed.

Lemma for_range_strokes a n (f : Z -> ring Input.INPUT_BYTE -> ring Input.INPUT_BYTE) (g : Z -> list stroke) q :
  (forall i q, a <= i < a + n -> f i q = inject_all (key_bytes (g i)) q) ->
  for_range a n f q = inject_all (key_bytes (concat (map g (seqZ a n)))) q.
Proof.
  intros E. rewrite <- concat_key_bytes, <- for_range_inject. unfold for_range. revert q.
  assert (Forall (fun i => a <= i < a + n) (seqZ a n)) as Hall by (apply Forall_forall; intros i Hi%elem_of_seqZ; lia).
  induction Hall as [|i l Hi _ IH]; intros q; [done|]. cbn [fold_left]. by rewrite E, IH.
Qed.

Lemma usage_strokes_inject other p usage q : is_u8 usage ->
  (if negb (usage =? 0) && negb (report_has_usage other usage)
   then keyboard_scancode (hid_usage_to_scancode usage) p (usage_extended usage) q else q)
  = inject_all (key_bytes (usage_strokes other p usage)) q.
Proof.
  intros Hu. unfold usage_strokes. destruct (_ && _); [|done]. pose proof (usage_scan usage Hu) as Hs. unfold usage_keys in *.
  destruct (hid_usage_to_scancode usage =? 0) eqn:E; [unfold keyboard_scancode; by rewrite E|]. apply Forall_cons in Hs as [Hs _].
  by apply (keyboard_scancode_strokes (usage_extended usage, hid_usage_to_scancode usage)).
Qed.

(** What the driver queues are the bytes of the report's strokes. *)
Lemma process_keyboard_strokes seen previous report q : report_ok previous -> report_ok report ->
  (process_keyboard_report seen previous report q).2 = inject_all (key_bytes (report_strokes previous report)) q.
Proof.
  intros Hp Hr. unfold process_keyboard_report, report_strokes. cbn [snd]. rewrite !key_bytes_app, !inject_all_app.
  rewrite (for_range_strokes 2 6 _ (fun i => usage_strokes previous true (get 0 report i)))
    by (intros; by apply usage_strokes_inject, report_byte).
  rewrite (for_range_strokes 2 6 _ (fun i => usage_strokes report false (get 0 previous i)))
    by (intros; by apply usage_strokes_inject, report_byte).
  do 2 f_equal. apply for_range_strokes. intros i q' Hi. cbn zeta.
  rewrite !bit_of, Z.lxor_spec, !negb_involutive by (try apply lxor_u8; try apply report_byte; done || lia).
  unfold modifier_strokes. destruct (Z.testbit (get 0 previous 0) i), (Z.testbit (get 0 report 0) i); try done;
    apply (keyboard_scancode_strokes (modifier_key i)), modifier_scan; lia.
Qed.

(** ** What the strokes do to the keys down *)
Lemma fold_press (l : list key) s : fold_left strike (map (fun k => (k, true)) l) s = s ∪ list_to_set l.
Proof. revert s. induction l as [|k l IH]; intros s; cbn; [set_solver|]. rewrite IH. unfold strike. cbn. set_solver. Qed.

Lemma fold_release (l : list key) s : fold_left strike (map (fun k => (k, false)) l) s = s ∖ list_to_set l.
Proof. revert s. induction l as [|k l IH]; intros s; cbn; [set_solver|]. rewrite IH. unfold strike. cbn. set_solver. Qed.

(** A row of switches, each struck when it changes. *)
Lemma fold_switches {I} (l : list I) (name : I -> key) (old new : I -> bool) s :
  NoDup (map name l) -> (forall i, i ∈ l -> name i ∈ s <-> old i = true) ->
  let s' := fold_left strike (concat (map (fun i => if Bool.eqb (old i) (new i) then [] else [(name i, new i)]) l)) s in
  (forall i, i ∈ l -> name i ∈ s' <-> new i = true) /\ forall k, k ∉ map name l -> k ∈ s' <-> k ∈ s.
Proof.
  revert s. induction l as [|i l IH]; intros s Hd Hs; [by split; [intros i Hi; inversion Hi|]|].
  cbn zeta in *. cbn [map concat] in *. apply NoDup_cons in Hd as [Hn Hd]. rewrite fold_left_app.
  match goal with |- context [fold_left strike (concat _) ?x] => set (s1 := x) end.
  assert (H1 : name i ∈ s1 <-> new i = true).
  { pose proof (Hs i (list_elem_of_here _ _)) as Hi. unfold s1. destruct (old i), (new i); cbn; unfold strike; cbn; set_solver. }
  assert (H2 : forall k, k <> name i -> k ∈ s1 <-> k ∈ s) by (intros k Hk; unfold s1; destruct (old i), (new i); cbn; unfold strike; cbn; set_solver).
  clearbody s1. destruct (IH s1 Hd) as [I1 I2].
  { intros j Hj. rewrite H2; [apply Hs; by right|]. intros Hc. apply Hn. rewrite <- Hc. by apply list_elem_of_fmap_2. }
  split.
  - intros j [->|Hj]%elem_of_cons; [etrans; [by apply I2 | exact H1] | by apply I1].
  - intros k Hk. apply not_elem_of_cons in Hk as [Hk1 Hk2]. etrans; [by apply I2 | by apply H2].
Qed.

Lemma mods_nodup : NoDup (map modifier_key (seqZ 0 8)).
Proof. apply (bool_decide_eq_true_1 (NoDup _)). vm_compute. reflexivity. Qed.

(** Two usages with the same key are the same; none has the key of a modifier. *)
Lemma usage_keys_apart u v k : is_u8 u -> is_u8 v -> k ∈ usage_keys u ->
  (k ∈ usage_keys v -> u = v) /\ k ∉ map modifier_key (seqZ 0 8).
Proof.
  intros Hu Hv Hk.
  assert (forallb (fun u => match usage_keys u with
    | [k] => bool_decide (k ∉ map modifier_key (seqZ 0 8)) && forallb (fun v => bool_decide (k ∉ usage_keys v) || (u =? v)) (seqZ 0 256)
    | _ => true end) (seqZ 0 256) = true) as Hall by (vm_compute; reflexivity).
  rewrite forallb_forall in Hall. specialize (Hall u ltac:(apply list_elem_of_In, elem_of_seqZ; unfold is_u8 in Hu; lia)).
  assert (usage_keys u = [k]) as E by (unfold usage_keys in *; destruct (_ =? 0); [inversion Hk|]; by apply list_elem_of_singleton in Hk as ->).
  rewrite E, andb_true_iff, bool_decide_eq_true, forallb_forall in Hall. destruct Hall as [H1 H2]. split; [|done]. intros Hkv.
  specialize (H2 v ltac:(apply list_elem_of_In, elem_of_seqZ; unfold is_u8 in Hv; lia)).
  rewrite orb_true_iff, bool_decide_eq_true, Z.eqb_eq in H2. tauto.
Qed.

Lemma elem_report_usages report k : k ∈ report_usages report <-> exists i, 2 <= i < 8 /\ k ∈ usage_keys (get 0 report i).
Proof.
  unfold report_usages. rewrite list_elem_of_In, in_concat. setoid_rewrite in_map_iff. split.
  - intros (l & (i & <- & Hi%list_elem_of_In%elem_of_seqZ) & Hk%list_elem_of_In). exists i. split; [lia|done].
  - intros (i & Hi & Hk). eexists. split; [exists i; split; [done|]; apply list_elem_of_In, elem_of_seqZ; lia | by apply list_elem_of_In].
Qed.

Lemma report_has_usage_spec report u : report_has_usage report u = true <-> exists i, 2 <= i < 8 /\ get 0 report i = u.
Proof.
  unfold report_has_usage. rewrite existsb_exists. split; intros (i & Hi & E); exists i.
  - apply list_elem_of_In, elem_of_seqZ in Hi. split; [lia | by apply Z.eqb_eq].
  - split; [apply list_elem_of_In, elem_of_seqZ; lia | by apply Z.eqb_eq].
Qed.

(** The keys struck for the usages of one report that another does not have. *)
Definition changed_usages (other report : list Z) : list key :=
  concat (map (fun i => if negb (get 0 report i =? 0) && negb (report_has_usage other (get 0 report i)) then usage_keys (get 0 report i) else []) (seqZ 2 6)).

Lemma usage_strokes_changed other report p :
  concat (map (fun i => usage_strokes other p (get 0 report i)) (seqZ 2 6)) = map (fun k => (k, p)) (changed_usages other report).
Proof.
  unfold changed_usages. induction (seqZ 2 6) as [|i l IH]; [done|]. cbn [map concat]. rewrite map_app, IH. f_equal. unfold usage_strokes. by destruct (_ && _).
Qed.

Lemma elem_changed_usages other report k : report_ok other -> report_ok report ->
  k ∈ changed_usages other report <-> k ∈ report_usages report /\ k ∉ report_usages other.
Proof.
  intros Ho Hr. rewrite !elem_report_usages. unfold changed_usages. rewrite list_elem_of_In, in_concat. setoid_rewrite in_map_iff. split.
  - intros (l & (i & <- & Hi%list_elem_of_In%elem_of_seqZ) & Hk). destruct (_ && _) eqn:E; [|done]. apply list_elem_of_In in Hk.
    apply andb_true_iff in E as [_ E%negb_true_iff]. split; [exists i; split; [lia|done]|]. intros (j & Hj & Hkj).
    destruct (usage_keys_apart _ _ k (report_byte report i Hr) (report_byte other j Ho) Hk) as [Heq _]. specialize (Heq Hkj).
    assert (report_has_usage other (get 0 report i) = true) by (apply report_has_usage_spec; by exists j). congruence.
  - intros [(i & Hi & Hk) Hn]. eexists. split; [exists i; split; [done|]; apply list_elem_of_In, elem_of_seqZ; lia|].
    assert (get 0 report i <> 0) as Hz by (intros Hc; rewrite Hc in Hk; inversion Hk). rewrite (proj2 (Z.eqb_neq _ _) Hz).
    destruct (report_has_usage other (get 0 report i)) eqn:E; [|by apply list_elem_of_In].
    apply report_has_usage_spec in E as (j & Hj & Ej). exfalso. apply Hn. exists j. split; [done|]. by rewrite Ej.
Qed.

Lemma elem_report_modifiers report k :
  k ∈ report_modifiers report <-> exists i, i ∈ seqZ 0 8 /\ Z.testbit (get 0 report 0) i = true /\ k = modifier_key i.
Proof.
  unfold report_modifiers. rewrite list_elem_of_In, in_concat. setoid_rewrite in_map_iff. split.
  - intros (l & (i & <- & Hi%list_elem_of_In) & Hk). destruct (Z.testbit _ i) eqn:E; [|done]. destruct Hk as [<-|[]]. by exists i.
  - intros (i & Hi & Hb & ->). eexists. split; [exists i; split; [done | by apply list_elem_of_In]|]. rewrite Hb. by left.
Qed.

(** The modifier of a bit is down exactly when the bit is set. *)
Lemma modifier_in report i : report_ok report -> i ∈ seqZ 0 8 -> modifier_key i ∈ report_keys report <-> Z.testbit (get 0 report 0) i = true.
Proof.
  intros Hr Hi. unfold report_keys. rewrite elem_of_list_to_set, elem_of_app, elem_report_modifiers, elem_report_usages. split.
  - intros [(j & Hj & Hb & E)|(j & Hj & Hk)].
    + assert (i = j) as ->; [|done]. pose proof mods_nodup as Hd. apply elem_of_seqZ in Hi, Hj.
      assert (forall i j, 0 <= i < 8 -> 0 <= j < 8 -> modifier_key i = modifier_key j -> i = j) as Hinj.
      { intros i' j' Hi' Hj' E'. apply (NoDup_lookup (map modifier_key (seqZ 0 8)) (Z.to_nat i') (Z.to_nat j') (modifier_key i')) in Hd; [lia| |].
        - rewrite list_lookup_fmap, lookup_seqZ_lt by lia. cbn. f_equal. f_equal. lia.
        - rewrite list_lookup_fmap, lookup_seqZ_lt by lia. cbn. rewrite E'. f_equal. f_equal. lia. }
      apply Hinj; [lia..|done].
    + destruct (usage_keys_apart _ _ _ (report_byte report j Hr) (report_byte report j Hr) Hk) as [_ Hn]. destruct Hn. by apply list_elem_of_fmap_2.
  - intros Hb. left. by exists i.
Qed.

(** Outside the modifiers a report's keys are those of its usages. *)
Lemma other_in report k : k ∉ map modifier_key (seqZ 0 8) -> k ∈ report_keys report <-> k ∈ report_usages report.
Proof.
  intros Hk. unfold report_keys. rewrite elem_of_list_to_set, elem_of_app, elem_report_modifiers. split; [|by right].
  intros [(i & Hi & _ & ->)|?]; [|done]. destruct Hk. by apply list_elem_of_fmap_2.
Qed.

Lemma report_strokes_keys previous report : report_ok previous -> report_ok report ->
  fold_left strike (report_strokes previous report) (report_keys previous) = report_keys report.
Proof.
  intros Hp Hr. unfold report_strokes. rewrite !fold_left_app, !usage_strokes_changed, fold_press, fold_release.
  destruct (fold_switches (seqZ 0 8) modifier_key (Z.testbit (get 0 previous 0)) (Z.testbit (get 0 report 0)) (report_keys previous) mods_nodup) as [F1 F2].
  { intros i Hi. by apply modifier_in. }
  change (map (fun i => if Bool.eqb _ _ then [] else _) (seqZ 0 8)) with (map (modifier_strokes (get 0 previous 0) (get 0 report 0)) (seqZ 0 8)) in F1, F2.
  set (s := fold_left strike _ _) in *. clearbody s.
  assert (Hc : forall o r k, report_ok o -> report_ok r -> k ∈ changed_usages o r -> k ∉ map modifier_key (seqZ 0 8)).
  { intros o r k Ho Hr' Hk. apply elem_changed_usages in Hk as [(i & Hi & Hk)%elem_report_usages _]; [|done..].
    by eapply usage_keys_apart; [apply (report_byte r i) .. |]. }
  apply set_eq. intros k. rewrite elem_of_union, elem_of_difference, !elem_of_list_to_set.
  destruct (decide (k ∈ map modifier_key (seqZ 0 8))) as [Hk|Hk].
  - assert (exists i, i ∈ seqZ 0 8 /\ k = modifier_key i) as (i & Hi & ->) by (apply list_elem_of_fmap in Hk as (i & -> & Hi); by exists i).
    rewrite F1, modifier_in by done. split; [|intros Hb; left; split; [done|]; intros Hn; by apply Hc in Hn].
    intros [[? _]|Hn]; [done|]. by apply Hc in Hn.
  - rewrite F2, !other_in, !elem_changed_usages by done.
    destruct (decide (k ∈ report_usages previous)), (decide (k ∈ report_usages report)); tauto.
Qed.

Lemma length_strokes l : (length (key_bytes l) <= 2 * length l)%nat.
Proof. induction l as [|[[e sc] p] l IH]; [done|]. unfold key_bytes in *. cbn. rewrite length_map, length_app in *. destruct e; cbn; lia. Qed.

Lemma length_concat_le {A B} (f : A -> list B) n l : (forall x, length (f x) <= n)%nat -> (length (concat (map f l)) <= n * length l)%nat.
Proof. intros Hf. induction l as [|x l IH]; cbn [map concat length]; [lia|]. rewrite length_app. pose proof (Hf x). lia. Qed.

Lemma length_report_strokes previous report : (length (report_strokes previous report) <= 20)%nat.
Proof.
  assert (U : forall o p u, (length (usage_strokes o p u) <= 1)%nat) by (intros; unfold usage_strokes, usage_keys; repeat case_match; cbn; lia).
  unfold report_strokes. rewrite !length_app.
  pose proof (length_concat_le (modifier_strokes (get 0 previous 0) (get 0 report 0)) 1 (seqZ 0 8) ltac:(intros; unfold modifier_strokes; case_match; cbn; lia)).
  pose proof (length_concat_le (fun i => usage_strokes report false (get 0 previous i)) 1 (seqZ 2 6) (fun i => U _ _ _)).
  pose proof (length_concat_le (fun i => usage_strokes previous true (get 0 report i)) 1 (seqZ 2 6) (fun i => U _ _ _)).
  rewrite !length_seqZ in *. lia.
Qed.

Lemma report_strokes_scan previous report : report_ok previous -> report_ok report -> Forall (fun k : stroke => scan k.1.2) (report_strokes previous report).
Proof.
  intros Hp Hr. unfold report_strokes. rewrite !usage_strokes_changed, !Forall_app.
  assert (U : forall o r p, report_ok r -> Forall (fun k : stroke => scan k.1.2) (map (fun k => (k, p)) (changed_usages o r))).
  { intros o r p Hr'. apply Forall_fmap, Forall_forall. intros k Hk. unfold changed_usages in Hk. apply list_elem_of_In, in_concat in Hk as (l & Hl & Hk).
    apply in_map_iff in Hl as (i & <- & _). destruct (_ && _); [|done]. apply list_elem_of_In in Hk. cbn.
    pose proof (usage_scan _ (report_byte r i Hr')) as Hs. by eapply Forall_forall in Hs. }
  split_and!; [|by apply U..]. apply Forall_forall. intros k Hk%list_elem_of_In. apply in_concat in Hk as (l & Hl & Hk).
  apply in_map_iff in Hl as (i & <- & Hi%list_elem_of_In%elem_of_seqZ). unfold modifier_strokes in Hk. destruct (Bool.eqb _ _); [done|].
  destruct Hk as [<-|[]]. apply modifier_scan. lia.
Qed.

(** A keyboard report queues the bytes of the keys that changed: when the keys
    down, as the keyboard driver's events show them, were those of the previous
    report, then after the queued bytes they are those of this one, provided the
    queue has room for the forty bytes a report takes at most. *)
Lemma keyboard_report_tracks (seen : bool) (previous report : list Z) (q : ring Input.INPUT_BYTE) (hist : list Z) :
  report_ok previous -> report_ok report -> ring_ok Input.INPUT_QUEUE_SIZE q -> (length (waiting q) <= 23)%nat ->
  Keyboard.prefixed hist = 0 -> keys_down hist = report_keys previous ->
  exists bytes seen' q', process_keyboard_report seen previous report q = (seen', report, q') /\
    ring_ok Input.INPUT_QUEUE_SIZE q' /\ waiting q' = waiting q ++ map (Input.mkByte 0) bytes /\ (length bytes <= 40)%nat /\
    Keyboard.prefixed (rev bytes ++ hist) = 0 /\ keys_down (rev bytes ++ hist) = report_keys report.
Proof.
  intros Hp Hr Hq Hroom Hpre Hdown. set (l := report_strokes previous report).
  exists (concat (map stroke_bytes l)), (process_keyboard_report seen previous report q).1.1, (inject_all (key_bytes l) q).
  pose proof (length_strokes l) as Hn. pose proof (length_report_strokes previous report) as Hl. fold l in Hl.
  destruct (inject_all_waiting (key_bytes l) q Hq) as [Hq' E]; [lia|].
  destruct (strokes_events l hist (report_keys previous) (report_strokes_scan _ _ Hp Hr) Hpre) as [Hev Hpre'].
  split; [|split; [exact Hq'|split; [exact E|split; [|split; [exact Hpre'|]]]]].
  - unfold l. rewrite <- (process_keyboard_strokes seen previous report q Hp Hr). unfold process_keyboard_report. cbn [fst snd].
    rewrite (take_ge report) by (rewrite (proj1 Hr); lia). done.
  - unfold key_bytes in Hn. rewrite length_map in Hn. lia.
  - unfold keys_down in *. rewrite rev_app_distr, rev_involutive, events_app, fold_left_app, rev_involutive, app_nil_r, Hdown, Hev.
    by apply report_strokes_keys.
Qed.

(** When more keys are down than a report holds, the keyboard sends the usage 1
    in every place: the keys held are released, and struck again after. *)
Example rollover_releases :
  waiting (process_keyboard_report true [0; 0; 4; 0; 0; 0; 0; 0] [0; 0; 1; 1; 1; 1; 1; 1] Input.input_reset).2 = [Input.mkByte 0 158].
Proof. vm_compute. reflexivity. Qed.

(** The prefix goes with the modifiers on the right: right shift, which has none on
    a PS/2 keyboard, gets it, and the left Windows key, which has one, does not. *)
Example modifier_prefixes :
  waiting (process_keyboard_report true (replicate 8 0) [32; 0; 0; 0; 0; 0; 0; 0] Input.input_reset).2 = map (Input.mkByte 0) [224; 54] /\
  waiting (process_keyboard_report true (replicate 8 0) [8; 0; 0; 0; 0; 0; 0; 0] Input.input_reset).2 = map (Input.mkByte 0) [91].
Proof. vm_compute. split; reflexivity. Qed.

(** ** The mouse *)
Lemma first_byte b e f : 0 <= b -> let v := u8 (Z.lor (Z.lor (Z.lor 8 (Z.land b 7)) (if (e : bool) then 16 else 0)) (if (f : bool) then 32 else 0)) in
  is_u8 v /\ Z.land v 8 <> 0 /\ Z.land v 7 = Z.land b 7.
Proof.
  intros Hb v. assert (0 <= Z.land b 7 < 8) as Hr by (change 7 with (Z.ones 3); rewrite Z.land_ones by lia; apply Z.mod_pos_bound; lia).
  subst v. set (w := Z.land b 7) in *. clearbody w.
  assert (w ∈ seqZ 0 8) as Hin by (apply elem_of_seqZ; lia). revert Hin. clear Hr Hb. revert w.
  assert (Forall (fun w => let v := u8 (Z.lor (Z.lor (Z.lor 8 w) (if e then 16 else 0)) (if f then 32 else 0)) in is_u8 v /\ Z.land v 8 <> 0 /\ Z.land v 7 = w) (seqZ 0 8)) as Hall.
  { destruct e, f; repeat (constructor; [vm_compute; repeat split; discriminate|]); constructor. }
  intros w Hin. by eapply Forall_forall in Hall.
Qed.

(** A mouse report queues three bytes, and the mouse driver, between packets of
    three bytes, makes of them the report's buttons and a movement by twice the
    counts in both directions, down for positive ones, on the screen. *)
Theorem mouse_report_moves (seen : bool) (b dx dy fbw fbh : Z) (q : ring Input.INPUT_BYTE) (m : Mouse.mouse) :
  is_u8 b -> -64 < dx < 64 -> -64 < dy < 64 -> 0 < fbw -> 0 < fbh ->
  ring_ok Input.INPUT_QUEUE_SIZE q -> (length (waiting q) <= 60)%nat ->
  Mouse.mouse_cycle m = 0 -> Mouse.mouse_packet_size m = 3 -> length (Mouse.mouse_byte m) = 3%nat ->
  exists bytes, waiting (process_mouse_report seen [b; u8 dx; u8 dy] q).2 = waiting q ++ map (Input.mkByte 1) bytes /\
    let m' := fold_left (fun m b => Mouse.MouseHandleByte fbw fbh b m) bytes m in
    Mouse.x (Mouse.state m') = Z.max 0 (Z.min (fbw - 1) (Mouse.x (Mouse.state m) + 2 * dx)) /\
    Mouse.y (Mouse.state m') = Z.max 0 (Z.min (fbh - 1) (Mouse.y (Mouse.state m) + 2 * dy)) /\
    Mouse.buttons (Mouse.state m') = Z.land b 7 /\ Mouse.mouse_cycle m' = 0.
Proof.
  intros Hb Hdx Hdy Hw Hh Hq Hroom Hc Hp Hl. unfold process_mouse_report. cbn [snd]. change (get 0 [b; u8 dx; u8 dy] 0) with b.
  change (get 0 [b; u8 dx; u8 dy] 1) with (u8 dx). change (get 0 [b; u8 dx; u8 dy] 2) with (u8 dy).
  assert (s8 (u8 dx) = dx) as -> by zlia. assert (s8 (u8 dy) = dy) as -> by zlia. rewrite (proj2 (Z.ltb_ge 127 (- dy))) by lia.
  destruct (first_byte b (dx <? 0) (- dy <? 0) ltac:(unfold is_u8 in Hb; lia)) as (H1 & H2 & H3). set (first := u8 _) in *. clearbody first.
  exists [first; u8 dx; u8 (- dy)]. split.
  - change (Input.InputInjectMouseByte _ _) with (inject_all (map (Input.mkByte 1) [first; u8 dx; u8 (- dy)]) q).
    apply (inject_all_waiting _ _ Hq). cbn. lia.
  - destruct (Mouse.mouse_packet_moves fbw fbh first dx (- dy) m Hw Hh H1 H2 Hdx ltac:(lia) Hc Hp Hl) as (E1 & E2 & E3 & _ & E4).
    cbn zeta. rewrite E1, E2, E3, E4, H3. split_and!; try done. do 2 f_equal. lia.
Qed.

Lemma mouse_report_moves_witness :
  exists bytes, waiting (process_mouse_report false [1; 20; 246] Input.input_reset).2 = map (Input.mkByte 1) bytes /\
    Mouse.y (Mouse.state (fold_left (fun m b => Mouse.MouseHandleByte 640 480 b m) bytes Mouse.centred)) = 220.
Proof.
  destruct (mouse_report_moves false 1 20 (-10) 640 480 Input.input_reset Mouse.centred ltac:(split; lia) ltac:(lia) ltac:(lia) ltac:(lia) ltac:(lia)
    ltac:(by repeat split) ltac:(vm_compute; lia) eq_refl eq_refl eq_refl) as (bytes & E & _ & Hy & _).
  exists bytes. split; [exact E | exact Hy].
Defined.

(** A driver that has switched a PS/2 mouse to packets of four bytes takes the
    first byte of the next report for the wheel, and loses that report. *)
Example usb_reports_desynchronise :
  let m4 := Mouse.mkMouse (Mouse.state Mouse.centred) 0 [0; 0; 0] 4 320 240 Mouse.MOUSE_CURSOR_ARROW (fun _ => 0) false in
  let feed r m := fold_left (fun m b => Mouse.MouseHandleByte 640 480 (Input.data b) m) (waiting (process_mouse_report true r Input.input_reset).2) m in
  Mouse.x (Mouse.state (feed [0; 3; 0] m4)) = 326 /\ Mouse.x (Mouse.state (feed [0; 3; 0] (feed [0; 3; 0] m4))) = 326.
Proof. vm_compute. split; reflexivity. Qed.

End Hid.
