(* ===== verification/Xhci.v ===== *)
(** * drivers/usb/xhci.c: the xHCI host controller

    The controller and the driver share memory: rings of transfer request blocks
    (TRBs) the driver fills, a ring of events the controller fills, contexts.  The
    controller may change memory at every access of a register and whenever the
    driver spins ([Dma]); the driver's own loads and stores are plain memory.
    Structures the controller does not read are records: [hosts] holds the
    [XHCI_STATE] of each controller by its address.  Together with the page
    allocator and the input queue that is the state [usb], which stands in the
    place of the hardware below [Msc].  Serial log lines and memory barriers are
    left out. *)

From stdpp Require Import base list numbers gmap strings.
From Stdlib Require Import ZArith Lia.
From S2P Require Import Prelude.
From S2P Require Import Util.
From S2P Require Import Pmm.
From S2P Require Import Vmm.
From S2P Require Import Paging.
From S2P Require Import Mm.
From S2P Require Import Sim.
From S2P Require Import Ob.
From S2P Require Import Io.
From S2P Require Import Hw.
From S2P Require Import Input.
From S2P Require Import Fat32.
From S2P Require Import Ram.
From S2P Require Import Ide.
From S2P Require Import Cdfs.
From S2P Require Import Msc.
From S2P Require Import Hid.
Import Util Pmm Vmm Paging.

(** Registers and the passage of time, for a device that masters the bus. *)
Class Dma (C : Type) := {
  reg_read : Z -> mem -> C -> Z * mem * C;
  reg_write : Z -> Z -> mem -> C -> mem * C;
  reg_read8 : Z -> mem -> C -> Z * mem * C;
  relax : mem -> C -> mem * C
}.

Module Xhci.

Definition XHCI_MAX_DEVICES : Z := 8.
Definition XHCI_RING_TRBS : Z := 256.

Record XHCI_RING := mkXring { trbs : Z; enqueue : Z; cycle : Z }.
Definition no_ring : XHCI_RING := mkXring 0 0 0.

(** The fields of [XHCI_DEVICE] for storage, for input, and the rest. *)
Record BULK := mkBulk {
  bulk_in : Z; bulk_out : Z; bulk_in_dci : Z; bulk_out_dci : Z; bulk_in_packet : Z; bulk_out_packet : Z; in_ring : XHCI_RING; out_ring : XHCI_RING
}.
Record HID := mkHid {
  hid_protocol : Z; hid_interface : Z; hid_in : Z; hid_in_dci : Z; hid_seen_input : bool; hid_in_packet : Z;
  hid_previous : list Z; hid_pending : Z; hid_ring : XHCI_RING
}.
Record XHCI_DEVICE := mkXdevice {
  slot_id : Z; xport : Z; speed : Z; configured : bool; bulk : BULK; hid : HID; output_context : Z; input_context : Z; ep0 : XHCI_RING
}.
Definition no_bulk : BULK := mkBulk 0 0 0 0 0 0 no_ring no_ring.
Definition no_hid : HID := mkHid 0 0 0 0 false 0 (replicate 8 0) 0 no_ring.
Definition no_xdevice : XHCI_DEVICE := mkXdevice 0 0 0 false no_bulk no_hid 0 0 no_ring.

Definition with_ep0 (d : XHCI_DEVICE) (r : XHCI_RING) : XHCI_DEVICE :=
  mkXdevice (slot_id d) (xport d) (speed d) (configured d) (bulk d) (hid d) (output_context d) (input_context d) r.
Definition with_bulk (d : XHCI_DEVICE) (b : BULK) : XHCI_DEVICE :=
  mkXdevice (slot_id d) (xport d) (speed d) (configured d) b (hid d) (output_context d) (input_context d) (ep0 d).
Definition with_hid (d : XHCI_DEVICE) (h : HID) : XHCI_DEVICE :=
  mkXdevice (slot_id d) (xport d) (speed d) (configured d) (bulk d) h (output_context d) (input_context d) (ep0 d).
Definition with_configured (d : XHCI_DEVICE) : XHCI_DEVICE :=
  mkXdevice (slot_id d) (xport d) (speed d) true (bulk d) (hid d) (output_context d) (input_context d) (ep0 d).
Definition with_slot_id (d : XHCI_DEVICE) (s : Z) : XHCI_DEVICE :=
  mkXdevice s (xport d) (speed d) (configured d) (bulk d) (hid d) (output_context d) (input_context d) (ep0 d).

Record XHCI_STATE := mkXhci {
  operational : Z; runtime : Z; doorbells : Z; context_size : Z; event_cycle : Z; event_dequeue : Z; max_slots : Z;
  dcbaa : Z; command_ring : XHCI_RING; xevents : Z; erst : Z; xdevices : list XHCI_DEVICE; device_count : Z; enumerated_ports : Z
}.
Definition no_host : XHCI_STATE := mkXhci 0 0 0 0 0 0 0 0 no_ring 0 0 (replicate 8 no_xdevice) 0 0.

Definition with_events (s : XHCI_STATE) (dequeue cyc : Z) : XHCI_STATE :=
  mkXhci (operational s) (runtime s) (doorbells s) (context_size s) cyc dequeue (max_slots s) (dcbaa s) (command_ring s) (xevents s) (erst s)
    (xdevices s) (device_count s) (enumerated_ports s).
Definition with_command (s : XHCI_STATE) (r : XHCI_RING) : XHCI_STATE :=
  mkXhci (operational s) (runtime s) (doorbells s) (context_size s) (event_cycle s) (event_dequeue s) (max_slots s) (dcbaa s) r (xevents s) (erst s)
    (xdevices s) (device_count s) (enumerated_ports s).
Definition with_devices (s : XHCI_STATE) (l : list XHCI_DEVICE) (n : Z) : XHCI_STATE :=
  mkXhci (operational s) (runtime s) (doorbells s) (context_size s) (event_cycle s) (event_dequeue s) (max_slots s) (dcbaa s) (command_ring s) (xevents s) (erst s)
    l n (enumerated_ports s).
Definition with_ports (s : XHCI_STATE) (p : Z) : XHCI_STATE :=
  mkXhci (operational s) (runtime s) (doorbells s) (context_size s) (event_cycle s) (event_dequeue s) (max_slots s) (dcbaa s) (command_ring s) (xevents s) (erst s)
    (xdevices s) (device_count s) p.

(** Where [devices[i]] and its [hid_report] are in the structure. *)
Definition device_at (a : arch) (host i : Z) : Z := host + match a with X86 => 44 + 92 * i | AMD64 | LA64 => 80 + 144 * i end.
Definition report_at (a : arch) (host i : Z) : Z := device_at a host i + match a with X86 => 24 | AMD64 | LA64 => 28 end.

(** ** Memory and registers *)
Section xhci.
Context {C : Type} `{Dma C} (a : arch).

Record usb := mkUsb { chip : C; vm : mmu; hosts : gmap Z XHCI_STATE; keys : Ring.ring Input.INPUT_BYTE }.
Definition set_chip (d : usb) (c : C) : usb := mkUsb c (vm d) (hosts d) (keys d).

Definition xm (A : Type) : Type := mem -> usb -> A * mem * usb.
#[global] Instance xm_ret : MRet xm := fun A x m d => (x, m, d).
#[global] Instance xm_bind : MBind xm := fun A B k f m d => let '(x, m, d) := f m d in k x m d.

Definition UsbMmioRead32 (b o : Z) : xm Z := fun m d => let '(v, m, c) := reg_read (b + o) m (chip d) in (u32 v, m, set_chip d c).
Definition UsbMmioWrite32 (b o v : Z) : xm unit := fun m d => let '(m, c) := reg_write (b + o) (u32 v) m (chip d) in (tt, m, set_chip d c).
Definition CpuRelax : xm unit := fun m d => let '(m, c) := relax m (chip d) in (tt, m, set_chip d c).
Definition peek (n : nat) (p : Z) : xm Z := fun m d => (ldn n m p, m, d).
Definition poke (n : nat) (p v : Z) : xm unit := fun m d => (tt, stn n m p v, d).
Definition clear (p n : Z) : xm unit := fun m d => (tt, memset p 0 n m, d).

Definition dma_page : xm Z := fun m d =>
  let '(p, ps) := VmmAllocatePages 1 (pages (vm d)) in
  (p, if p =? 0 then m else memset p 0 4096 m, mkUsb (chip d) (mkMmu (words (vm d)) ps (cr3 (vm d))) (hosts d) (keys d)).

Fixpoint wait_loop_bits (n : nat) (b o mask : Z) (set : bool) : xm bool :=
  match n with
  | O => mret false
  | S n' => v ← UsbMmioRead32 b o; if Bool.eqb (negb (Z.land v mask =? 0)) set then mret true else CpuRelax;; wait_loop_bits n' b o mask set
  end.
Definition wait_bits : Z -> Z -> Z -> bool -> xm bool := wait_loop_bits (Z.to_nat 2000000).

Fixpoint bios_wait (n : nat) (b o : Z) : xm unit :=
  match n with O => mret tt | S n' => v ← UsbMmioRead32 b o; if Z.land v 65536 =? 0 then mret tt else bios_wait n' b o end.

(** The list of extended capabilities: an offset moves on by four at least. *)
Fixpoint handoff_loop (n : nat) (b o : Z) : xm unit :=
  match n with
  | O => mret tt
  | S n' =>
      if (o <? 64) || (65536 <=? o) then mret tt else
      v ← UsbMmioRead32 b o;
      if Z.land v 255 =? 1 then
        UsbMmioWrite32 b o (Z.lor v 16777216);; bios_wait (Z.to_nat 100000) b o;; UsbMmioWrite32 b (o + 4) 0
      else
        let next := Z.land (Z.shiftr v 8) 255 in
        if next =? 0 then mret tt else handoff_loop n' b (o + next * 4)
  end.
Definition legacy_handoff (b hcc : Z) : xm unit := handoff_loop (Z.to_nat 16384) b (Z.land (Z.shiftr hcc 16) 65535 * 4).

(** ** Rings *)
Definition ring_allocate : xm (bool * XHCI_RING) :=
  p ← dma_page;
  if p =? 0 then mret (false, mkXring 0 0 1) else
  poke 8 (p + 16 * 255) p;; poke 4 (p + 16 * 255 + 12) 6147;; mret (true, mkXring p 0 1).

(** A block at the producer's place; the link at the end of the ring takes the
    cycle bit of the round that ends.  The result is the block's address. *)
Definition xring_push (r : XHCI_RING) (parameter status control : Z) : xm (Z * XHCI_RING) :=
  let trb := trbs r + 16 * enqueue r in
  poke 8 trb parameter;; poke 4 (trb + 8) status;; poke 4 (trb + 12) (Z.lor control (cycle r));;
  if enqueue r + 1 =? 255 then
    poke 4 (trbs r + 16 * 255 + 12) (Z.lor 6146 (cycle r));; mret (trb, mkXring (trbs r) 0 (Z.lxor (cycle r) 1))
  else mret (trb, mkXring (trbs r) (enqueue r + 1) (cycle r)).

(** ** Controllers and their devices *)
Definition get_host (h : Z) : xm XHCI_STATE := fun m d => (default no_host (hosts d !! h), m, d).
Definition put_host (h : Z) (s : XHCI_STATE) : xm unit := fun m d => (tt, m, mkUsb (chip d) (vm d) (<[h := s]> (hosts d)) (keys d)).
Definition get_device (h i : Z) : xm XHCI_DEVICE := s ← get_host h; mret (get no_xdevice (xdevices s) i).
Definition put_device (h i : Z) (d : XHCI_DEVICE) : xm unit := s ← get_host h; put_host h (with_devices s (put (xdevices s) i d) (device_count s)).

(** The event at the consumer's place is done with: the next one, and the
    controller is told. *)
Definition next_event (h : Z) : xm unit :=
  s ← get_host h;
  let n := event_dequeue s + 1 in
  let s := if n =? 256 then with_events s 0 (Z.lxor (event_cycle s) 1) else with_events s n (event_cycle s) in
  let dequeue := Z.lor (VmmGetPhysicalAddress (xevents s + 16 * event_dequeue s)) 8 in
  put_host h s;; UsbMmioWrite32 (runtime s + 32) 24 dequeue;; UsbMmioWrite32 (runtime s + 32) 28 (Z.shiftr dequeue 32).

(** The result, and what is stored through [slot_id]: the slot of the last
    event seen. *)
Fixpoint wait_event_loop (n : nat) (h submitted type slot : Z) : xm (bool * Z) :=
  match n with
  | O => mret (false, slot)
  | S n' =>
      s ← get_host h;
      let event := xevents s + 16 * event_dequeue s in
      control ← peek 4 (event + 12);
      if Z.land control 1 =? event_cycle s then
        status ← peek 4 (event + 8);
        parameter ← peek 8 event;
        let kind := Z.land (Z.shiftr control 10) 63 in
        let completion := u8 (Z.shiftr status 24) in
        let hit := (kind =? type) && ((submitted =? 0) || (Z.shiftr parameter 4 =? Z.shiftr (VmmGetPhysicalAddress submitted) 4)) in
        let slot := u8 (Z.shiftr control 24) in
        next_event h;;
        if hit then mret ((completion =? 1) || ((type =? 32) && (completion =? 13)), slot)
        else CpuRelax;; wait_event_loop n' h submitted type slot
      else CpuRelax;; wait_event_loop n' h submitted type slot
  end.
Definition wait_event (h submitted type slot : Z) : xm (bool * Z) := wait_event_loop (Z.to_nat 4000000) h submitted type slot.

Definition xhci_command (h parameter control slot : Z) : xm (bool * Z) :=
  s ← get_host h;
  '(trb, ring) ← xring_push (command_ring s) parameter 0 control;
  put_host h (with_command s ring);; UsbMmioWrite32 (doorbells s) 0 0;; wait_event h trb 33 slot.

(** ** Contexts *)
Definition input_slot (s : XHCI_STATE) (d : XHCI_DEVICE) : Z := input_context d + context_size s.
Definition input_ep (s : XHCI_STATE) (d : XHCI_DEVICE) (dci : Z) : Z := input_context d + (dci + 1) * context_size s.

Definition configure_endpoint_context (s : XHCI_STATE) (d : XHCI_DEVICE) (dci endpoint_type packet : Z) (r : XHCI_RING) : xm unit :=
  let ep := input_ep s d dci in
  let dequeue := Z.lor (VmmGetPhysicalAddress (trbs r)) 1 in
  poke 4 (ep + 4) (Z.lor (Z.lor 6 (Z.shiftl endpoint_type 3)) (Z.shiftl packet 16));;
  poke 4 (ep + 8) (u32 dequeue);; poke 4 (ep + 12) (u32 (Z.shiftr dequeue 32));; poke 4 (ep + 16) packet.

(** ** Transfers *)
Definition setup_word (request_type request value index length : Z) : Z :=
  Z.lor (Z.lor (Z.lor (Z.lor request_type (Z.shiftl request 8)) (Z.shiftl value 16)) (Z.shiftl index 32)) (Z.shiftl length 48).

Definition control_transfer (h i request_type request value index buffer length : Z) : xm bool :=
  d ← get_device h i;
  let in_ := negb (Z.land request_type 128 =? 0) in
  let dir := if length =? 0 then 0 else if in_ then 3 else 2 in
  '(_, ring) ← xring_push (ep0 d) (setup_word request_type request value index length) 8 (Z.lor (Z.lor 2048 64) (Z.shiftl dir 16));
  ring ← (if length =? 0 then mret ring
          else '(_, ring) ← xring_push ring (VmmGetPhysicalAddress buffer) length (Z.lor 3072 (if in_ then 65536 else 0)); mret ring);
  '(status, ring) ← xring_push ring 0 0 (Z.lor (Z.lor 4096 32) (if (length =? 0) || negb in_ then 65536 else 0));
  put_device h i (with_ep0 d ring);;
  s ← get_host h;
  UsbMmioWrite32 (doorbells s) (slot_id d * 4) 1;;
  '(ok, _) ← wait_event h status 32 0; mret ok.

Definition with_rings (b : BULK) (r_in r_out : XHCI_RING) : BULK :=
  mkBulk (bulk_in b) (bulk_out b) (bulk_in_dci b) (bulk_out_dci b) (bulk_in_packet b) (bulk_out_packet b) r_in r_out.

(** [context] is the [i]-th device of the controller at [h]. *)
Definition bulk_transfer (h i endpoint buffer length : Z) : xm bool :=
  d ← get_device h i;
  let input := negb (Z.land endpoint 128 =? 0) in
  let b := bulk d in
  '(trb, ring) ← xring_push (if input then in_ring b else out_ring b) (VmmGetPhysicalAddress buffer) length (Z.lor 1024 32);
  put_device h i (with_bulk d (if input then with_rings b ring (out_ring b) else with_rings b (in_ring b) ring));;
  s ← get_host h;
  UsbMmioWrite32 (doorbells s) (slot_id d * 4) (if input then bulk_in_dci b else bulk_out_dci b);;
  '(ok, _) ← wait_event h trb 32 0; mret ok.

(** The function behind a pointer that [UsbMscAttach] was given: the only one
    is [bulk_transfer], with a device of a controller, whose structure is at the start of a page. *)
Definition bulk_transfer_addr : Z := 1060928.
Definition usb_transfer (xfer context endpoint buffer length : Z) : xm bool :=
  if negb (xfer =? bulk_transfer_addr) then mret false else
  let h := 4096 * (context / 4096) in
  bulk_transfer h ((context - device_at a h 0) / (device_at a h 1 - device_at a h 0)) endpoint buffer length.

(** ** Configuration descriptors

    A read outside the bytes the device sent is [None]. *)
Definition cfg (config : list Z) (o : Z) : option Z := if o <? 0 then None else config !! Z.to_nat o.

Record storage := mkStorage { s_in : Z; s_out : Z; s_in_dci : Z; s_out_dci : Z; s_in_packet : Z; s_out_packet : Z; mass_interface : bool }.

Definition storage_interface (config : list Z) (o : Z) (st : storage) : option storage :=
  c5 ← cfg config (o + 5); c6 ← cfg config (o + 6); c7 ← cfg config (o + 7);
  Some (mkStorage (s_in st) (s_out st) (s_in_dci st) (s_out_dci st) (s_in_packet st) (s_out_packet st) ((c5 =? 8) && (c6 =? 6) && (c7 =? 80))).
Definition storage_endpoint (config : list Z) (o : Z) (st : storage) : option storage :=
  c3 ← cfg config (o + 3);
  if negb (Z.land c3 3 =? 2) then Some st else
  address ← cfg config (o + 2); c4 ← cfg config (o + 4); c5 ← cfg config (o + 5);
  let input := negb (Z.land address 128 =? 0) in
  let dci := Z.land address 15 * 2 + (if input then 1 else 0) in
  let packet := Z.lor c4 (Z.shiftl c5 8) in
  Some (if input then mkStorage address (s_out st) dci (s_out_dci st) packet (s_out_packet st) (mass_interface st)
        else mkStorage (s_in st) address (s_in_dci st) dci (s_in_packet st) packet (mass_interface st)).

Fixpoint storage_scan (n : nat) (config : list Z) (offset : Z) (st : storage) : option storage :=
  let total := Z.of_nat (length config) in
  match n with
  | O => None
  | S n' =>
      if negb (offset + 2 <=? total) then Some st else
      len ← cfg config offset; type ← cfg config (offset + 1);
      if (len <? 2) || (total <? offset + len) then Some st else
      st ← (if (type =? 4) && (9 <=? len) then storage_interface config offset st
            else if mass_interface st && (type =? 5) && (7 <=? len) then storage_endpoint config offset st else Some st);
      storage_scan n' config (offset + len) st
  end.

Record hidscan := mkHidscan { hid_if : bool; h_protocol : Z; h_interface : Z; h_in : Z; h_dci : Z; h_packet : Z; h_interval : Z }.

Definition hid_interface_at (config : list Z) (o : Z) (st : hidscan) : option hidscan :=
  c2 ← cfg config (o + 2); c5 ← cfg config (o + 5); c6 ← cfg config (o + 6); c7 ← cfg config (o + 7);
  Some (if (c5 =? 3) && (c6 =? 1) && ((c7 =? 1) || (c7 =? 2))
        then mkHidscan true c7 c2 (h_in st) (h_dci st) (h_packet st) (h_interval st)
        else mkHidscan false (h_protocol st) (h_interface st) (h_in st) (h_dci st) (h_packet st) (h_interval st)).
(** The endpoint, if it is the wanted one: the scan ends there. *)
Definition hid_endpoint_at (config : list Z) (o : Z) (st : hidscan) : option (bool * hidscan) :=
  address ← cfg config (o + 2); c3 ← cfg config (o + 3);
  if (Z.land address 128 =? 0) || negb (Z.land c3 3 =? 3) then Some (false, st) else
  c4 ← cfg config (o + 4); c5 ← cfg config (o + 5); c6 ← cfg config (o + 6);
  Some (true, mkHidscan (hid_if st) (h_protocol st) (h_interface st) address (Z.land address 15 * 2 + 1) (Z.lor c4 (Z.shiftl c5 8)) c6).

Fixpoint hid_scan (n : nat) (config : list Z) (offset : Z) (st : hidscan) : option hidscan :=
  let total := Z.of_nat (length config) in
  match n with
  | O => None
  | S n' =>
      if negb (offset + 2 <=? total) then Some st else
      len ← cfg config offset; type ← cfg config (offset + 1);
      if (len <? 2) || (total <? offset + len) then Some st else
      '(stop, st) ← (if (type =? 4) && (9 <=? len) then st ← hid_interface_at config offset st; Some (false, st)
                     else if hid_if st && (type =? 5) && (7 <=? len) then hid_endpoint_at config offset st else Some (false, st));
      if stop : bool then Some st else hid_scan n' config (offset + len) st
  end.

End xhci.

Arguments usb : clear implicits.
Arguments xm : clear implicits.

End Xhci.
