(* ===== verification/XhciSpec.v ===== *)
(** * The xHCI driver: descriptors, and a stick behind a controller

    That no configuration descriptor leads the scans of [Xhci] outside it; and
    the laws of a controller, as registers and shared memory show it, with a
    storage device behind it: on such a controller [bulk_transfer] is a transport
    of [MscSpec], so a read of the disk goes through rings, doorbells and events
    to the bytes of the stick. *)

From stdpp Require Import base list numbers gmap strings.
From Stdlib Require Import ZArith Lia.
From S2P Require Import Prelude.
From S2P Require Import Util.
From S2P Require Import Pmm.
From S2P Require Import Vmm.
From S2P Require Import Paging.
From S2P Require Import Mm.
From S2P Require Import Sim.
From S2P Require Import Ob.
From S2P Require Import Io.
From S2P Require Import Hw.
From S2P Require Import Input.
From S2P Require Import Fat32.
From S2P Require Import Ram.
From S2P Require Import Ide.
From S2P Require Import Cdfs.
From S2P Require Import Msc.
From S2P Require Import MscSpec.
From S2P Require Import Hid.
From S2P Require Import Xhci.
Import Util Pmm Vmm Paging Ob Io Fat32 Msc MscSpec Xhci.

Module XhciSpec.

(** ** Descriptors *)
Section descriptors.
Context (config : list Z) (Hbytes : Forall is_u8 config).
Abbreviation total := (Z.of_nat (Datatypes.length config)).

Lemma cfg_in o : 0 <= o < total -> exists v, cfg config o = Some v /\ is_u8 v.
Proof.
  intros Ho. unfold cfg. rewrite (proj2 (Z.ltb_ge o 0)) by lia. destruct (lookup_lt_is_Some_2 config (Z.to_nat o)) as [v E]; [lia|].
  exists v. split; [done|]. by eapply Forall_lookup in Hbytes.
Qed.

Ltac byte_at o v := let E := fresh "E" in let Hv := fresh "Hv" in
  destruct (cfg_in o) as (v & E & Hv); [lia|]; rewrite E; cbn [mbind option_bind].

(** What the scans note has the type of its field; a context index selects a
    context of the 31 a device has. *)
Definition u16_of (x : Z) : Prop := 0 <= x < 65536.
Definition dci_ok (x : Z) : Prop := 0 <= x < 32.
Definition storage_ok (st : storage) : Prop :=
  is_u8 (s_in st) /\ is_u8 (s_out st) /\ dci_ok (s_in_dci st) /\ dci_ok (s_out_dci st) /\ u16_of (s_in_packet st) /\ u16_of (s_out_packet st).
Definition hidscan_ok (st : hidscan) : Prop :=
  is_u8 (h_protocol st) /\ is_u8 (h_interface st) /\ is_u8 (h_in st) /\ dci_ok (h_dci st) /\ u16_of (h_packet st) /\ is_u8 (h_interval st).

Lemma packet_u16 x y : is_u8 x -> is_u8 y -> u16_of (Z.lor x (Z.shiftl y 8)).
Proof.
  intros Hx Hy. unfold is_u8, u16_of in *. rewrite Z.lor_comm, Z.shiftl_mul_pow2, lor_high_low by lia. lia.
Qed.

Lemma dci_of x (b : bool) : dci_ok (Z.land x 15 * 2 + (if b then 1 else 0)).
Proof. unfold dci_ok. change 15 with (Z.ones 4). rewrite Z.land_ones by lia. pose proof (Z.mod_pos_bound x (2 ^ 4)). destruct b; lia. Qed.

Lemma storage_step o len type st : 0 <= o -> 2 <= len -> o + len <= total -> storage_ok st ->
  exists st', (if (type =? 4) && (9 <=? len) then storage_interface config o st
    else if mass_interface st && (type =? 5) && (7 <=? len) then storage_endpoint config o st else Some st) = Some st' /\ storage_ok st'.
Proof.
  intros Ho Hl Hin (H1 & H2 & H3 & H4 & H5 & H6). destruct (_ && _) eqn:E1; [|destruct (mass_interface st && _ && _) eqn:E2; [|by exists st]].
  - apply andb_true_iff in E1 as [_ E1%Z.leb_le]. unfold storage_interface. byte_at (o + 5) c5. byte_at (o + 6) c6. byte_at (o + 7) c7.
    by eexists.
  - apply andb_true_iff in E2 as [_ E2%Z.leb_le]. unfold storage_endpoint. byte_at (o + 3) c3. destruct (negb _); [by exists st|].
    byte_at (o + 2) ad. byte_at (o + 4) c4. byte_at (o + 5) c5. eexists. split; [done|].
    pose proof (dci_of ad) as Hdci. destruct (negb (Z.land ad 128 =? 0)); [specialize (Hdci true) | specialize (Hdci false)];
      unfold storage_ok; cbn; split_and!; auto using packet_u16.
Qed.

Lemma hid_step o len type st : 0 <= o -> 2 <= len -> o + len <= total -> hidscan_ok st ->
  exists stop st', (if (type =? 4) && (9 <=? len) then st ← hid_interface_at config o st; Some (false, st)
    else if hid_if st && (type =? 5) && (7 <=? len) then hid_endpoint_at config o st else Some (false, st)) = Some (stop, st') /\ hidscan_ok st'.
Proof.
  intros Ho Hl Hin Hst. pose proof Hst as (H1 & H2 & H3 & H4 & H5 & H6). destruct (_ && _) eqn:E1; [|destruct (hid_if st && _ && _) eqn:E2; [|by exists false, st]].
  - apply andb_true_iff in E1 as [_ E1%Z.leb_le]. unfold hid_interface_at. byte_at (o + 2) c2. byte_at (o + 5) c5. byte_at (o + 6) c6. byte_at (o + 7) c7.
    eexists _, _. split; [done|]. destruct (_ && _); unfold hidscan_ok; cbn; split_and!; auto.
  - apply andb_true_iff in E2 as [_ E2%Z.leb_le]. unfold hid_endpoint_at. byte_at (o + 2) ad. byte_at (o + 3) c3. destruct (_ || _); [by exists false, st|].
    byte_at (o + 4) c4. byte_at (o + 5) c5. byte_at (o + 6) c6. eexists _, _. split; [done|]. pose proof (dci_of ad true).
    unfold hidscan_ok; cbn; split_and!; auto using packet_u16.
Qed.

Lemma storage_scan_ok n o st : 0 <= o <= total -> total < o + Z.of_nat n -> storage_ok st ->
  exists st', storage_scan n config o st = Some st' /\ storage_ok st'.
Proof.
  revert o st. induction n as [|n IH]; intros o st Ho Hn Hst; [lia|]. cbn [storage_scan].
  destruct (Z.leb_spec (o + 2) total); cbn [negb]; [|by exists st]. byte_at o len. byte_at (o + 1) type.
  destruct (_ || _) eqn:E'; [by exists st|]. apply orb_false_iff in E' as [L1%Z.ltb_ge L2%Z.ltb_ge].
  destruct (storage_step o len type st) as (st1 & -> & Hst1); [lia..|done|]. apply IH; [lia..|done].
Qed.

Lemma hid_scan_ok n o st : 0 <= o <= total -> total < o + Z.of_nat n -> hidscan_ok st ->
  exists st', hid_scan n config o st = Some st' /\ hidscan_ok st'.
Proof.
  revert o st. induction n as [|n IH]; intros o st Ho Hn Hst; [lia|]. cbn [hid_scan].
  destruct (Z.leb_spec (o + 2) total); cbn [negb]; [|by exists st]. byte_at o len. byte_at (o + 1) type.
  destruct (_ || _) eqn:E'; [by exists st|]. apply orb_false_iff in E' as [L1%Z.ltb_ge L2%Z.ltb_ge].
  destruct (hid_step o len type st) as ([] & st1 & -> & Hst1); [lia..|done| |]; [by exists st1|]. apply IH; [lia..|done].
Qed.

End descriptors.

(** C24. Whatever configuration descriptor a device sends, both scans end, read
    nothing outside it, and note values of their fields' types; the context index
    of an endpoint selects one of a device's contexts. *)
Theorem descriptors_scanned (config : list Z) : Forall is_u8 config ->
  (exists st, storage_scan (S (Datatypes.length config)) config 0 (mkStorage 0 0 0 0 0 0 false) = Some st /\ storage_ok st) /\
  (exists st, hid_scan (S (Datatypes.length config)) config 0 (mkHidscan false 0 0 0 0 0 10) = Some st /\ hidscan_ok st).
Proof.
  intros Hc. split; [apply storage_scan_ok | apply hid_scan_ok]; try done; try lia;
    unfold storage_ok, hidscan_ok, is_u8, dci_ok, u16_of; cbn; lia.
Qed.

(** A stick: one interface of class 8, subclass 6, protocol 80, with endpoints
    0x81 and 0x02 of 512 bytes. *)
Definition stick_config : list Z :=
  [9; 2; 32; 0; 1; 1; 0; 128; 50; 9; 4; 0; 0; 2; 8; 6; 80; 0; 7; 5; 129; 2; 0; 2; 0; 7; 5; 2; 2; 0; 2; 0].

Lemma descriptors_scanned_witness :
  storage_scan 33 stick_config 0 (mkStorage 0 0 0 0 0 0 false) = Some (mkStorage 129 2 3 4 512 512 true) /\
  exists st, hid_scan 33 stick_config 0 (mkHidscan false 0 0 0 0 0 10) = Some st /\ hidscan_ok st.
Proof.
  split; [vm_compute; reflexivity|]. apply (descriptors_scanned stick_config).
  apply (bool_decide_eq_true_1 (Forall (fun x => 0 <= x < 256) stick_config)). vm_compute. reflexivity.
Defined.


(** ** A controller with a stick behind it *)
Fixpoint relaxed {C} `{Dma C} (n : nat) (m : mem) (c : C) : mem * C :=
  match n with O => (m, c) | S n' => let '(m, c) := relax m c in relaxed n' m c end.

(** A place on a ring and the cycle bit of its round. *)
Definition place : Type := Z * Z.
Definition next_trb (p : place) : place := if p.1 + 1 =? 255 then (0, Z.lxor p.2 1) else (p.1 + 1, p.2).
Definition next_slot (p : place) : place := if p.1 + 1 =? 256 then (0, Z.lxor p.2 1) else (p.1 + 1, p.2).
Definition bit (c : Z) : Prop := c = 0 \/ c = 1.

(** A normal TRB at a place, and the link behind the last one. *)
Definition queued (m : mem) (base : Z) (p : place) (buffer len : Z) : Prop :=
  let trb := base + 16 * p.1 in
  ld64 m trb = buffer /\ ld32 m (trb + 8) = len /\ ld32 m (trb + 12) = Z.lor 1056 p.2 /\
  (p.1 = 254 -> ld64 m (base + 4080) = base /\ ld32 m (base + 4092) = Z.lor 6146 p.2).

(** A transfer event for a TRB, completed without error. *)
Definition completed (m : mem) (e cyc trb : Z) : Prop :=
  Z.land (ld32 m (e + 12)) 1 = cyc /\ Z.land (Z.shiftr (ld32 m (e + 12)) 10) 63 = 32 /\
  u8 (Z.shiftr (ld32 m (e + 8)) 24) = 1 /\ Z.shiftr (ld64 m e) 4 = Z.shiftr trb 4.

Section controller.
Context {C : Type} `{Dma C} (a : arch).
(** The controller's structure and the device's index in it; event ring,
    registers, slot, context indices, endpoints and the two transfer rings. *)
Context (h i ev rt db sl in_dci out_dci ep_in ep_out ib ob : Z) (img : Z -> Z) (limit : Z).
(** The stick and the controller's places on the out, in and event ring. *)
Context (V : MscSpec.bot -> place -> place -> place -> C -> Prop).

(** One transfer of the protocol: direction, what the device is up to, length, the
    bytes it puts into memory. *)
Inductive moves (m : mem) (p : Z) : bool -> MscSpec.bot -> Z -> list Z -> MscSpec.bot -> Prop :=
| move_command tag lba n : cbw_read (load m p 31) = Some (tag, n * 512, lba, n) -> 0 < n -> 0 <= lba -> lba + n <= limit ->
    moves m p false BotIdle 31 [] (BotData tag (load img (lba * 512) (n * 512)))
| move_data tag bs : 0 < Z.of_nat (Datatypes.length bs) <= 65536 ->
    moves m p true (BotData tag bs) (Z.of_nat (Datatypes.length bs)) bs (BotStatus tag)
| move_status tag : moves m p true (BotStatus tag) 13 (csw_bytes tag) BotIdle.

(** The pages of the rings, and what is no address. *)
Definition rings (x : Z) : Prop := inside ev 4096 x \/ inside ib 4096 x \/ inside ob 4096 x \/ ~ is_u64 x.

(** A buffer that one TRB can describe: at most 64 KiB, and not across a boundary of 64 KiB. *)
Definition one_trb (p len : Z) : Prop := 0 < len <= 65536 /\ p / 65536 = (p + len - 1) / 65536.

(** The laws: rung at its doorbell, the controller carries out the TRB at its
    place, if one TRB can describe the buffer, and posts an event in time, in a slot whose cycle bit was
    the old one until then; writing the dequeue pointer disturbs nothing. *)
Record xhci_device : Prop := {
  xd_transfer input b po pi pe c m p len data b' :
    V b po pi pe c -> moves m p input b len data b' -> apart rings p len -> one_trb p len ->
    queued m (if input then ib else ob) (if input then pi else po) p len ->
    Z.land (ld32 m (ev + 16 * pe.1 + 12)) 1 <> pe.2 ->
    exists n, (n < Z.to_nat 4000000)%nat /\
      let '(m0, c0) := reg_write (db + sl * 4) (u32 (if input then in_dci else out_dci)) m c in
      (forall k, (k < n)%nat -> Z.land (ld32 (relaxed k m0 c0).1 (ev + 16 * pe.1 + 12)) 1 <> pe.2) /\
      let '(m1, c1) := relaxed n m0 c0 in
      completed m1 (ev + 16 * pe.1) pe.2 ((if input then ib else ob) + 16 * (if input then pi else po).1) /\
      V b' (if input then po else next_trb po) (if input then next_trb pi else pi) (next_slot pe) c1 /\
      forall x, ~ inside (ev + 16 * pe.1) 16 x -> m1 x = store m p data x;
  xd_ack_low b po pi pe c m : V b po pi pe c ->
    exists c', reg_write (rt + 32 + 24) (u32 (Z.lor (ev + 16 * pe.1) 8)) m c = (m, c') /\ V b po pi pe c';
  xd_ack_high b po pi pe c m : V b po pi pe c ->
    exists c', reg_write (rt + 32 + 28) (u32 (Z.shiftr (Z.lor (ev + 16 * pe.1) 8) 32)) m c = (m, c') /\ V b po pi pe c'
}.

Context (Hx : xhci_device).

(** ** The driver's side *)
Definition host_ok (s : XHCI_STATE) (pe : place) : Prop :=
  xevents s = ev /\ runtime s = rt /\ doorbells s = db /\ event_dequeue s = pe.1 /\ event_cycle s = pe.2 /\ Datatypes.length (xdevices s) = 8%nat.
Definition device_ok (d : XHCI_DEVICE) (po pi : place) : Prop :=
  slot_id d = sl /\ bulk_in_dci (bulk d) = in_dci /\ bulk_out_dci (bulk d) = out_dci /\
  in_ring (bulk d) = mkXring ib pi.1 pi.2 /\ out_ring (bulk d) = mkXring ob po.1 po.2.
Definition on_ring (p : place) : Prop := 0 <= p.1 < 255 /\ bit p.2.
Definition on_events (p : place) : Prop := 0 <= p.1 < 256 /\ bit p.2.

(** The slots behind the consumer's place have this round's bit, the others the
    last one's; the links lead back. *)
Definition rings_ok (m : mem) (pe : place) : Prop :=
  (forall j, 0 <= j < 256 -> Z.land (ld32 m (ev + 16 * j + 12)) 1 = if j <? pe.1 then pe.2 else 1 - pe.2) /\
  ld64 m (ib + 4080) = ib /\ ld64 m (ob + 4080) = ob.

Definition pipe (b : MscSpec.bot) (m : mem) (d : usb C) : Prop :=
  exists po pi pe s, V b po pi pe (chip d) /\ hosts d !! h = Some s /\ host_ok s pe /\ device_ok (get no_xdevice (xdevices s) i) po pi /\
    on_ring po /\ on_ring pi /\ on_events pe /\ rings_ok m pe.

Definition set_host (d : usb C) (c : C) (s : XHCI_STATE) : usb C := mkUsb c (vm d) (<[h := s]> (hosts d)) (keys d).

(** *** Waiting *)
Lemma next_event_ok b po pi pe s m d : V b po pi (next_slot pe) (chip d) -> hosts d !! h = Some s -> host_ok s pe ->
  exists c', next_event h m d = (tt, m, set_host d c' (with_events s (next_slot pe).1 (next_slot pe).2)) /\ V b po pi (next_slot pe) c'.
Proof.
  intros HV Hs (E1 & E2 & E3 & E4 & E5 & E6). unfold next_event, mbind, xm_bind, get_host. rewrite Hs. cbn [default from_option id].
  rewrite E4, E5. set (s' := with_events s (next_slot pe).1 (next_slot pe).2).
  assert ((if pe.1 + 1 =? 256 then with_events s 0 (Z.lxor pe.2 1) else with_events s (pe.1 + 1) pe.2) = s') as -> by (unfold s', next_slot; by destruct (_ =? 256)).
  unfold put_host, UsbMmioWrite32. cbn [chip vm hosts keys]. change (runtime s') with (runtime s). change (xevents s') with (xevents s).
  change (event_dequeue s') with (next_slot pe).1. change (VmmGetPhysicalAddress ?x) with x. rewrite E1, E2.
  destruct (xd_ack_low Hx b po pi (next_slot pe) (chip d) m HV) as (c1 & -> & HV1). cbn [set_chip chip vm hosts keys].
  destruct (xd_ack_high Hx b po pi (next_slot pe) c1 m HV1) as (c2 & -> & HV2). by exists c2.
Qed.

Lemma wait_loop_ok n fuel trb slot b po pi pe s m d : (n < fuel)%nat -> hosts d !! h = Some s -> host_ok s pe ->
  (forall k, (k < n)%nat -> Z.land (ld32 (relaxed k m (chip d)).1 (ev + 16 * pe.1 + 12)) 1 <> pe.2) ->
  completed (relaxed n m (chip d)).1 (ev + 16 * pe.1) pe.2 trb -> V b po pi (next_slot pe) (relaxed n m (chip d)).2 ->
  exists c' slot', wait_event_loop fuel h trb 32 slot m d
      = ((true, slot'), (relaxed n m (chip d)).1, set_host d c' (with_events s (next_slot pe).1 (next_slot pe).2)) /\
    V b po pi (next_slot pe) c'.
Proof.
  revert fuel slot m d. induction n as [|n IH]; intros fuel slot m d Hf Hs Hh Hk Hc HV; (destruct fuel as [|fuel]; [lia|]);
    cbn [wait_event_loop]; unfold mbind, xm_bind, get_host, peek; rewrite Hs; cbn [default from_option id];
    pose proof Hh as (-> & _ & _ & -> & -> & _).
  - cbn [relaxed fst snd] in *. destruct Hc as (C1 & C2 & C3 & C4). rewrite C1, Z.eqb_refl.
    destruct (next_event_ok b po pi pe s m d HV Hs Hh) as (c' & -> & HV'). rewrite C2, C3, C4. change (VmmGetPhysicalAddress trb) with trb.
    rewrite !Z.eqb_refl, orb_true_r. cbn [Z.eqb Pos.eqb andb orb]. exists c'. eexists. by split.
  - rewrite (proj2 (Z.eqb_neq _ _)) by apply (Hk 0%nat ltac:(lia)). unfold CpuRelax. cbn [relaxed] in *. destruct (relax m (chip d)) as [m1 c1] eqn:Er.
    destruct (IH fuel slot m1 (set_chip d c1)) as (c' & slot' & E & HV'); [lia | exact Hs | exact Hh | | exact Hc | exact HV |].
    + intros k Hlt. specialize (Hk (S k) ltac:(lia)). cbn [relaxed] in Hk. rewrite Er in Hk. exact Hk.
    + exists c', slot'. by split.
Qed.

(** *** Queueing *)
Lemma on_ring_next p : on_ring p -> on_ring (next_trb p).
Proof. intros [Hp Hb]. unfold next_trb. destruct (Z.eqb_spec (p.1 + 1) 255); split; cbn; try lia; destruct Hb as [-> | ->]; vm_compute; tauto. Qed.

Lemma on_events_next p : on_events p -> on_events (next_slot p).
Proof. intros [Hp Hb]. unfold next_slot. destruct (Z.eqb_spec (p.1 + 1) 256); split; cbn; try lia; destruct Hb as [-> | ->]; vm_compute; tauto. Qed.

Lemma xring_push_ok base p q len m (d : usb C) : on_ring p -> is_u64 q -> is_u32 len -> ld64 m (base + 4080) = base ->
  exists m', xring_push (mkXring base p.1 p.2) q len 1056 m d = ((base + 16 * p.1, mkXring base (next_trb p).1 (next_trb p).2), m', d) /\
    queued m' base p q len /\ ld64 m' (base + 4080) = base /\ forall x, ~ inside base 4096 x -> m' x = m x.
Proof.
  intros [Hp Hb] Hq Hl Hlink. unfold xring_push, mbind, xm_bind, poke, mret, xm_ret. cbn [trbs enqueue cycle].
  change (base + 16 * 255 + 12) with (base + 4080 + 12). set (trb := base + 16 * p.1).
  set (m3 := stn 4 (stn 4 (stn 8 m trb q) (trb + 8) len) (trb + 12) (Z.lor 1056 p.2)).
  assert (Hc : 0 <= Z.lor 1056 p.2 < 256 ^ Z.of_nat 4 /\ 0 <= Z.lor 6146 p.2 < 256 ^ Z.of_nat 4) by (destruct Hb as [-> | ->]; vm_compute; repeat split; discriminate).
  assert (H3 : ld64 m3 trb = q /\ ld32 m3 (trb + 8) = len /\ ld32 m3 (trb + 12) = Z.lor 1056 p.2).
  { unfold m3. split_and!.
    - rewrite !ldn_stn_ne by (cbn; lia). apply ldn_stn. exact Hq.
    - rewrite ldn_stn_ne by (cbn; lia). apply ldn_stn. exact Hl.
    - apply ldn_stn, Hc. }
  assert (F3 : forall x, ~ inside base 4080 x -> m3 x = m x).
  { intros x Hx'. unfold inside in Hx'. unfold m3. rewrite !stn_out by (cbn; lia). done. }
  assert (L3 : ld64 m3 (base + 4080) = base).
  { rewrite <- Hlink at 2. apply ldn_ext. intros j Hj. apply F3. unfold inside. cbn in Hj. lia. }
  destruct H3 as (Q1 & Q2 & Q3). unfold next_trb. destruct (Z.eqb_spec (p.1 + 1) 255) as [E|E].
  - eexists. split; [done|]. unfold queued. fold trb.
    rewrite !(ldn_stn_ne _ 4 m3 _ (base + 4080 + 12)) by (unfold trb; cbn; lia). split_and!; try done.
    + intros _. split; [done|]. replace (base + 4092) with (base + 4080 + 12) by lia. apply ldn_stn, Hc.
    + intros x Hx'. unfold inside in Hx'. rewrite stn_out by (cbn; lia). apply F3. unfold inside. lia.
  - eexists. split; [done|]. unfold queued. fold trb. split_and!; try done; [lia|]. intros x Hx'. apply F3. unfold inside in *. lia.
Qed.

Lemma moves_ext m m' p input b len data b' : (forall x, inside p len x -> m' x = m x) -> moves m p input b len data b' -> moves m' p input b len data b'.
Proof.
  intros E Hm. revert E. destruct Hm as [tag lba n Hr | | ]; intros E; constructor; try done. rewrite <- Hr. f_equal. unfold load. apply map_ext_in.
  intros x Hx'%list_elem_of_In%elem_of_seqZ. apply E. unfold inside. lia.
Qed.

Lemma moves_length m p input b len data b' : moves m p input b len data b' -> is_u32 len /\ 0 < len /\ Z.of_nat (Datatypes.length data) <= len.
Proof. intros [| |]; unfold is_u32; cbn; lia. Qed.

(** *** A transfer *)
Context (Hi : 0 <= i < 8) (Hh : h mod 4096 = 0) (Hin : Z.land ep_in 128 <> 0) (Hout : Z.land ep_out 128 = 0).
Context (Hpages : forall x, ~ (inside ev 4096 x /\ inside ib 4096 x) /\ ~ (inside ev 4096 x /\ inside ob 4096 x) /\ ~ (inside ib 4096 x /\ inside ob 4096 x)).

Lemma rings_ok_ext m m' pe : (forall x, rings x -> m' x = m x) -> rings_ok m pe -> rings_ok m' pe.
Proof.
  intros E (R1 & R2 & R3). assert (L : forall n q, (forall j, 0 <= j < Z.of_nat n -> rings (q + j)) -> ldn n m' q = ldn n m q) by (intros n q Hq; apply ldn_ext; auto).
  split_and!; [intros j Hj; rewrite <- (R1 j Hj); f_equal | rewrite <- R2 at 2 | rewrite <- R3 at 2]; apply L; intros k Hk; cbn in Hk; unfold rings, inside; lia.
Qed.

(** The event was the only thing that changed on the event ring. *)
Lemma rings_ok_event m m' pe trb : on_events pe -> rings_ok m pe -> completed m' (ev + 16 * pe.1) pe.2 trb ->
  (forall x, rings x -> is_u64 x -> ~ inside (ev + 16 * pe.1) 16 x -> m' x = m x) -> (forall x, inside ev 4096 x \/ inside ib 4096 x \/ inside ob 4096 x -> is_u64 x) ->
  rings_ok m' (next_slot pe).
Proof.
  intros [He Hb] (R1 & R2 & R3) (C1 & _) E Hu.
  assert (L : forall n q, (forall j, 0 <= j < Z.of_nat n -> (inside ev 4096 (q + j) \/ inside ib 4096 (q + j) \/ inside ob 4096 (q + j)) /\ ~ inside (ev + 16 * pe.1) 16 (q + j)) -> ldn n m' q = ldn n m q).
  { intros n q Hq. apply ldn_ext. intros j Hj. destruct (Hq j Hj) as [Hr Hn]. apply E; [unfold rings; tauto | by apply Hu | done]. }
  split_and!.
  - intros j Hj. destruct (decide (j = pe.1)) as [->|Hne].
    + rewrite C1. unfold next_slot. destruct (Z.eqb_spec (pe.1 + 1) 256); cbn [fst snd].
      * rewrite (proj2 (Z.ltb_ge _ _)) by lia. by destruct Hb as [-> | ->].
      * by rewrite (proj2 (Z.ltb_lt _ _)) by lia.
    + rewrite L by (intros k Hk; cbn in Hk; unfold inside; lia). rewrite (R1 j Hj). unfold next_slot.
      destruct (Z.eqb_spec (pe.1 + 1) 256); cbn [fst snd]; [|destruct (Z.ltb_spec j pe.1); [by rewrite (proj2 (Z.ltb_lt _ _)) by lia | by rewrite (proj2 (Z.ltb_ge _ _)) by lia]].
      rewrite (proj2 (Z.ltb_lt _ _)), (proj2 (Z.ltb_ge _ _)) by lia. by destruct Hb as [-> | ->].
  - rewrite <- R2 at 2. apply L. intros k Hk. cbn in Hk. pose proof (Hpages (ib + 4080 + k)). unfold inside in *. lia.
  - rewrite <- R3 at 2. apply L. intros k Hk. cbn in Hk. pose proof (Hpages (ob + 4080 + k)). unfold inside in *. lia.
Qed.

Lemma context_device : 4096 * (device_at a h i / 4096) = h /\ (device_at a h i - device_at a h 0) / (device_at a h 1 - device_at a h 0) = i.
Proof.
  assert (E : h = 4096 * (h / 4096)) by (pose proof (Z.div_mod h 4096); lia).
  assert (K : forall k n, 0 < n -> h + k * n - h = n * k) by lia.
  unfold device_at. split.
  - symmetry. assert (h / 4096 = (h + match a with X86 => 44 + 92 * i | AMD64 | LA64 => 80 + 144 * i end) / 4096) as <-; [|done].
    apply Z.div_unique with (r := match a with X86 => 44 + 92 * i | AMD64 | LA64 => 80 + 144 * i end); [left; destruct a; lia | lia].
  - destruct a; [replace (_ - _) with (i * 92) by lia; replace (_ - _) with 92 by lia; by apply Z.div_mul |
      replace (_ - _) with (i * 144) by lia; replace (_ - _) with 144 by lia; by apply Z.div_mul ..].
Qed.

Lemma xm_step {A B} (f : xm C A) (k : A -> xm C B) m d x m' d' : f m d = (x, m', d') -> (f ≫= k) m d = k x m' d'.
Proof. intros E. unfold mbind, xm_bind. by rewrite E. Qed.

Lemma get_host_ok m (d : usb C) s : hosts d !! h = Some s -> get_host h m d = (s, m, d).
Proof. intros Hs. unfold get_host. by rewrite Hs. Qed.

Lemma get_device_ok m (d : usb C) s : hosts d !! h = Some s -> get_device h i m d = (get no_xdevice (xdevices s) i, m, d).
Proof. intros Hs. unfold get_device. by rewrite (xm_step _ _ _ _ _ _ _ (get_host_ok m d s Hs)). Qed.

Lemma put_device_ok m (d : usb C) s dev : hosts d !! h = Some s ->
  put_device h i dev m d = (tt, m, set_host d (chip d) (with_devices s (put (xdevices s) i dev) (device_count s))).
Proof. intros Hs. unfold put_device, mbind, xm_bind, get_host. rewrite Hs. done. Qed.

Context (Haddr : forall x, inside ev 4096 x \/ inside ib 4096 x \/ inside ob 4096 x -> is_u64 x).

Lemma bulk_ok input b b' p len data m d : pipe b m d -> moves m p input b len data b' -> apart rings p len -> one_trb p len ->
  exists m' d', usb_transfer a bulk_transfer_addr (device_at a h i) (if input then ep_in else ep_out) p len m d = (true, m', d') /\
    pipe b' m' d' /\ forall x, ~ rings x -> m' x = store m p data x.
Proof.
  intros (po & pi & pe & s & HV & Hs & Hok & Hdev & Hpo & Hpi & Hpe & Hr) Hm Hap Hone. destruct context_device as [Ec Ei].
  destruct (moves_length _ _ _ _ _ _ _ Hm) as (Hlen & Hlen0 & Hdl).
  assert (Hp : is_u64 p). { destruct (decide (0 <= p < 18446744073709551616)); [done|]. exfalso. apply (Hap p); [lia|]. unfold rings, is_u64. tauto. }
  unfold usb_transfer. rewrite Z.eqb_refl, Ec, Ei. cbn [negb]. unfold bulk_transfer. erewrite xm_step by (by apply get_device_ok).
  set (dev := get no_xdevice (xdevices s) i) in *.
  assert (negb (Z.land (if input then ep_in else ep_out) 128 =? 0) = input) as ->.
  { destruct input; [by rewrite (proj2 (Z.eqb_neq _ _) Hin) | by rewrite Hout]. }
  pose proof Hdev as (D1 & D2 & D3 & D4 & D5). cbn zeta. change (VmmGetPhysicalAddress p) with p. change (Z.lor 1024 32) with 1056.
  set (base := if input then ib else ob). set (q := if input then pi else po).
  assert ((if input then in_ring (bulk dev) else out_ring (bulk dev)) = mkXring base q.1 q.2) as -> by (unfold base, q; by destruct input).
  destruct (xring_push_ok base q p len m d) as (m1 & Ep & Hq & Hl & F); [by destruct input | done | done | destruct Hr as (_ & ? & ?); by destruct input |].
  erewrite xm_step by exact Ep. cbv beta iota. set (dev' := with_bulk dev _).
  erewrite xm_step by (by apply put_device_ok). set (s' := with_devices s _ _).
  erewrite xm_step by (apply (get_host_ok _ _ s'); apply lookup_insert_eq).
  assert (Hm1 : moves m1 p input b len data b').
  { apply (moves_ext m); [|done]. intros x Hx'. apply F. intros Hc. apply (Hap x Hx'). unfold base in Hc. destruct input; unfold rings; tauto. }
  destruct Hr as (R1 & R2 & R3).
  assert (Hev : forall x, inside ev 4096 x -> m1 x = m x).
  { intros x Hx'. apply F. intros Hc. destruct (Hpages x) as (P1 & P2 & _). unfold base in Hc. destruct input; tauto. }
  assert (Rm1 : rings_ok m1 pe).
  { split; [intros j Hj; rewrite <- (R1 j Hj); f_equal; apply ldn_ext; intros k Hk; apply Hev; unfold inside; cbn in Hk; lia|].
    unfold base in F, Hl. destruct input; (split; [|]); try exact Hl;
      [transitivity (ld64 m (ob + 4080)); [|exact R3] | transitivity (ld64 m (ib + 4080)); [|exact R2]]; apply ldn_ext; intros k Hk; apply F; intros Hc;
      [apply (Hpages (ob + 4080 + k)) | apply (Hpages (ib + 4080 + k))]; cbn in Hk; unfold inside in *; lia. }
  destruct (xd_transfer Hx input b po pi pe (chip d) m1 p len data b' HV Hm1 Hap Hone Hq) as (n & Hn & T).
  { rewrite (proj1 Rm1) by apply Hpe. rewrite Z.ltb_irrefl. destruct Hpe as [_ [-> | ->]]; lia. }
  pose proof Hok as (O1 & O2 & O3 & O4 & O5 & O6). change (doorbells s') with (doorbells s). rewrite O3, D1.
  assert ((if input then bulk_in_dci (bulk dev) else bulk_out_dci (bulk dev)) = if input then in_dci else out_dci) as -> by (destruct input; congruence).
  destruct (reg_write (db + sl * 4) (u32 (if input then in_dci else out_dci)) m1 (chip d)) as [m0 c0] eqn:Ew.
  set (d1 := set_host d (chip d) s'). erewrite xm_step by (unfold UsbMmioWrite32; change (chip d1) with (chip d); rewrite Ew; done).
  assert (Hok' : host_ok s' pe) by (unfold host_ok; cbn; rewrite length_put; by split_and!).
  destruct T as [Tk T]. destruct (relaxed n m0 c0) as [m2 c2] eqn:Esp. destruct T as (Tc & TV & Tm).
  destruct (wait_loop_ok n (Z.to_nat 4000000) (base + 16 * q.1) 0 b' (if input then po else next_trb po) (if input then next_trb pi else pi) pe s' m0 (set_chip d1 c0) Hn (lookup_insert_eq _ _ _) Hok')
    as (c3 & slot' & E3 & HV3); [exact Tk | cbn [set_chip chip]; rewrite Esp; exact Tc | cbn [set_chip chip]; rewrite Esp; exact TV |].
  erewrite xm_step by exact E3. cbv beta iota. cbn [set_chip chip]. rewrite Esp. cbn [fst]. eexists _, _. split; [reflexivity|]. split.
  - eexists _, _, (next_slot pe), _. split; [exact HV3|]. split; [apply lookup_insert_eq|].
    split; [unfold host_ok; cbn; rewrite length_put; by split_and!|]. cbn [xdevices with_events s' with_devices].
    rewrite get_put, Z.eqb_refl by lia. split; [|split; [|split; [|split; [by apply on_events_next|]]]].
    + subst base q dev'. destruct input; unfold device_ok; cbn; by split_and!.
    + subst q. destruct input; [done | by apply on_ring_next].
    + subst q. destruct input; [by apply on_ring_next | done].
    + apply (rings_ok_event m1 m2 pe _ Hpe Rm1 Tc); [|exact Haddr]. intros x Hr Hu He. rewrite Tm by done. apply Ide.store_outside. intros Hc. apply (Hap x); [lia | done].
  - intros x Hr. rewrite Tm by (intros Hc; apply Hr; left; unfold inside in *; destruct Hpe; lia). apply store_ext, F. subst base. intros Hc. apply Hr. unfold rings. destruct input; tauto.
Qed.

(** The transport of mass storage. *)
Lemma xhci_bot : bot_device (usb_transfer a) bulk_transfer_addr (device_at a h i) ep_in ep_out img limit pipe rings one_trb.
Proof.
  split.
  - intros b m m' d E (po & pi & pe & s & H1 & H2 & H3 & H4 & H5 & H6 & H7 & Hr). exists po, pi, pe, s. split_and!; try done. by apply (rings_ok_ext m).
  - intros m d p tag lba n Hv Hap Hone Hr Hn Hl Hfit. destruct (bulk_ok false _ _ p 31 [] m d Hv (move_command m p tag lba n Hr Hn Hl Hfit) Hap Hone) as (m' & d' & E & Hv' & Hm).
    exists m', d'. split; [exact E|]. split; [exact Hv'|]. intros x Hx'. rewrite Hm by done. apply store_nil.
  - intros m d p tag bs n Hv Hap <- Hn Hone. by apply (bulk_ok true _ _ p _ bs m d Hv (move_data m p tag bs (proj1 Hone))).
  - intros m d p tag Hv Hap Hone. by apply (bulk_ok true _ _ p _ _ m d Hv (move_status m p tag)).
Qed.

(** C11. A read of a USB disk behind an xHCI controller, through the I/O
    manager's dispatch, the mass-storage driver, and the rings, doorbells and
    events of the controller, returns the bytes of the stick, whatever the places
    on the rings, if the buffer, and the driver's two blocks on the stack, have at most 64 KiB
    and cross no boundary of 64 KiB: the driver puts each in one TRB. *)
Theorem usb_read_correct {K : Type} `{KernelHeap K} (cbw csw device p : Z) (st : Ob.ob K (io (usb C))) (r : IO_REQUEST) (offset : Z) :
  0 < limit < 4294967296 -> layout a rings one_trb cbw csw p ->
  msc_ready a bulk_transfer_addr (device_at a h i) ep_in ep_out limit pipe device p (memory st) ->
  parameters r = read_write offset -> 0 <= offset -> offset mod 512 = 0 ->
  Io.length r mod 512 = 0 -> offset + Io.length r <= limit * 512 ->
  buffer r <> 0 -> one_trb (buffer r) (Io.length r) -> (forall x, buffer r <= x < buffer r + Io.length r -> ~ private a rings cbw csw p x) ->
  exists r' m d, run_msc a (usb_transfer a) cbw csw msc_read_addr device r st
      = Some (IO_STATUS_SUCCESS, r', set_memory st (set_hardware (set_bytes (memory st) m) d)) /\
    msc_ready a bulk_transfer_addr (device_at a h i) ep_in ep_out limit pipe device p (set_hardware (set_bytes (memory st) m) d) /\
    forall x, ~ private a rings cbw csw p x -> m x = store (bytes (memory st)) (buffer r) (load img offset (Io.length r)) x.
Proof.
  intros Hl Hlay Hr Hpar Ho Hoa Hna Hfit Hb Hone Hp.
  apply (msc_read_ok a (usb_transfer a) bulk_transfer_addr (device_at a h i) ep_in ep_out img limit pipe rings one_trb xhci_bot Hl); try done.
  - intros q n [Hn _]. lia.
  - apply Hone.
Qed.

End controller.

(** ** A simulated controller with the stick of [MscSpec] *)
Record sim := mkSim { sim_bot : MscSpec.bot; sim_out : place; sim_in : place; sim_events : place }.
Definition sim_ev : Z := 1048576.
Definition sim_ib : Z := 1052672.
Definition sim_ob : Z := 1056768.

(** The TRB is done: its data, and the event. *)
Definition sim_done (input : bool) (c : sim) (trb p : Z) (data : list Z) (b : MscSpec.bot) (m : mem) : mem * sim :=
  let e := sim_ev + 16 * (sim_events c).1 in
  (stn 4 (stn 4 (stn 8 (store m p data) e trb) (e + 8) 16777216) (e + 12) (Z.lor 32768 (sim_events c).2),
   mkSim b (if input then sim_out c else next_trb (sim_out c)) (if input then next_trb (sim_in c) else sim_in c) (next_slot (sim_events c))).

Definition sim_write (r v : Z) (m : mem) (c : sim) : mem * sim :=
  if negb (r =? 1100004) then (m, c) else
  let input := v =? 3 in
  let trb := if input then sim_ib + 16 * (sim_in c).1 else sim_ob + 16 * (sim_out c).1 in
  let p := ld64 m trb in
  match sim_bot c, input with
  | BotIdle, false => match cbw_read (load m p 31) with
                      | Some (tag, bytes, lba, _) => sim_done input c trb p [] (BotData tag (load stick (lba * 512) bytes)) m
                      | None => (m, c)
                      end
  | BotData tag bs, true => sim_done input c trb p bs (BotStatus tag) m
  | BotStatus tag, true => sim_done input c trb p (csw_bytes tag) BotIdle m
  | _, _ => (m, c)
  end.

#[global] Instance sim_dma : Dma sim := {|
  reg_read _ m c := (0, m, c); reg_write := sim_write; reg_read8 _ m c := (0, m, c); relax m c := (m, c) |}.

Definition sim_view (b : MscSpec.bot) (po pi pe : place) (c : sim) : Prop := c = mkSim b po pi pe /\ on_ring po /\ on_ring pi /\ on_events pe.

Lemma sim_done_ok (input : bool) b (po pi pe : place) p data b' m : on_ring po -> on_ring pi -> on_events pe ->
  let trb := (if input then sim_ib else sim_ob) + 16 * (if input then pi else po).1 in
  let '(m1, c1) := sim_done input (mkSim b po pi pe) trb p data b' m in
  completed m1 (sim_ev + 16 * pe.1) pe.2 trb /\ sim_view b' (if input then po else next_trb po) (if input then next_trb pi else pi) (next_slot pe) c1 /\
  forall x, ~ inside (sim_ev + 16 * pe.1) 16 x -> m1 x = store m p data x.
Proof.
  intros Ho Hi He trb. unfold sim_done. cbn [sim_events sim_out sim_in]. set (e := sim_ev + 16 * pe.1).
  assert (Hc : 0 <= Z.lor 32768 pe.2 < 256 ^ Z.of_nat 4) by (destruct He as [_ [-> | ->]]; vm_compute; split; [discriminate | reflexivity | discriminate | reflexivity]).
  assert (Ht : 0 <= trb < 256 ^ Z.of_nat 8) by (unfold trb, sim_ib, sim_ob; destruct input, Ho, Hi; lia).
  split_and!.
  - unfold completed. rewrite !(ldn_stn_ne 4 4 _ (e + 8) (e + 12)), !(ldn_stn_ne 8 4) by (cbn; lia). rewrite !ldn_stn by (done || lia).
    destruct He as [_ [-> | ->]]; by split_and!.
  - split; [done|]. destruct input; split_and!; auto using on_ring_next, on_events_next.
  - intros x Hx. unfold inside in Hx. by rewrite !stn_out by (cbn; lia).
Qed.

Lemma sim_laws : xhci_device sim_ev 1110000 1100000 1 3 4 sim_ib sim_ob stick 8 sim_view.
Proof.
  split.
  - intros input b po pi pe c m p len data b' (-> & Ho & Hi & He) Hm Hap _ (Hq & _) _. exists 0%nat. split; [lia|].
    pose proof (sim_done_ok input b po pi pe p data b' m Ho Hi He) as Hd. cbn zeta in Hd.
    assert (E : reg_write (1100000 + 1 * 4) (u32 (if input then 3 else 4)) m (mkSim b po pi pe)
      = sim_done input (mkSim b po pi pe) ((if input then sim_ib else sim_ob) + 16 * (if input then pi else po).1) p data b' m).
    { cbn [reg_write sim_dma]. unfold sim_write. change (1100000 + 1 * 4 =? 1100004) with true. cbn [negb sim_bot sim_in sim_out].
      destruct Hm as [tag lba n Hr _ _ _ | tag bs _ | tag]; cbv beta iota in Hq |- *; [change (u32 4 =? 3) with false | change (u32 3 =? 3) with true ..];
        cbv zeta beta iota; rewrite Hq; [by rewrite Hr | done..]. }
    rewrite E. destruct (sim_done _ _ _ _ _ _ _) as [m1 c1]. cbn [relaxed]. split; [lia | exact Hd].
  - intros b po pi pe c m Hv. by exists c.
  - intros b po pi pe c m Hv. by exists c.
Qed.

(** A stick in slot 1, its out ring at its last place. *)
Definition sim_device : XHCI_DEVICE :=
  mkXdevice 1 0 3 true (mkBulk 129 2 3 4 512 512 (mkXring sim_ib 0 1) (mkXring sim_ob 254 1)) no_hid 0 0 no_ring.
Definition sim_host : XHCI_STATE := mkXhci 0 1110000 1100000 32 1 0 32 0 no_ring sim_ev 0 (sim_device :: replicate 7 no_xdevice) 1 1.
Definition sim_memory : mem :=
  st64 (st64 (st32 (st32 (upd (upd (st32 (st32 (fun _ => 0) 12288 2097196) 12292 bulk_transfer_addr) 12296 129) 12297 2) 12300 512) 12304 8)
    (sim_ib + 4080) sim_ib) (sim_ob + 4080) sim_ob.
Definition sim_usb : usb sim :=
  mkUsb (mkSim BotIdle (254, 1) (0, 1) (0, 1)) (mkMmu (fun _ => 0) (mkPmm [] 0 0 0 0) 0) {[ 2097152 := sim_host ]} Input.input_reset.
Definition sim_state : Ob.ob fresh (io (usb sim)) :=
  mkOb [] 0 [] 0 ∅ fresh_start (mkIo ∅ {[ 8192 := mkDevice IO_TYPE_DEVICE [] 4096 12288 24 0 1 ]} sim_memory 1 2 0 sim_usb).

Lemma sim_pipe : pipe 2097152 0 sim_ev 1110000 1100000 1 3 4 sim_ib sim_ob sim_view BotIdle sim_memory sim_usb.
Proof.
  exists (254, 1), (0, 1), (0, 1), sim_host. assert (forall p c, 0 <= p < 255 -> bit c -> on_ring (p, c)) as R by (intros p c Hp Hc; split; done).
  split_and!; try done; try (apply R; [lia | by right]); try (split; [cbn; lia | by right]).
  - split; [done|]. split_and!; try (apply R; [lia | by right]).
  - split; [|split; vm_compute; reflexivity]. intros j Hj. cbn [fst snd]. rewrite (proj2 (Z.ltb_ge _ _)) by lia.
    assert (ld32 sim_memory (sim_ev + 16 * j + 12) = 0) as ->; [|done]. transitivity (ld32 (fun _ => 0) (sim_ev + 16 * j + 12)); [|done].
    apply ldn_ext. intros k Hk. cbn in Hk. unfold sim_memory, sim_ev, sim_ib, sim_ob. rewrite !stn_out by (cbn; lia).
    unfold upd. rewrite !(proj2 (Z.eqb_neq _ _)) by lia. by rewrite !stn_out by (cbn; lia).
Qed.

Lemma usb_read_correct_witness :
  exists r' m d, run_msc X86 (usb_transfer X86) 32768 33024 msc_read_addr 8192 (mkRequest IO_MJ_READ 0 0 65536 1024 (read_write 1536)) sim_state
      = Some (IO_STATUS_SUCCESS, r', set_memory sim_state (set_hardware (set_bytes (memory sim_state) m) d)) /\
    m 65540 = 34.
Proof.
  assert (Hpriv : forall x, 65536 <= x < 66560 -> ~ private X86 (rings sim_ev sim_ib sim_ob) 32768 33024 12288 x).
  { intros x Hx [[Hf|[Hf|[Hf|Hf]]]|[Hf|[Hf|Hf]]]; unfold inside, sim_ev, sim_ib, sim_ob, is_u64 in Hf; try (change (sizeof_MSC_DEVICE X86) with 24 in Hf); lia. }
  assert (Hlay : layout X86 (rings sim_ev sim_ib sim_ob) one_trb 32768 33024 12288).
  { split; [intros x Hx [Hf|[Hf|[Hf|Hf]]]; unfold inside, sim_ev, sim_ib, sim_ob, is_u64 in Hf; try (change (sizeof_MSC_DEVICE X86) with 24 in Hx); lia..| | | |].
    1-3: intros x; unfold inside; change (sizeof_MSC_DEVICE X86) with 24; lia.
    split; split; [lia | reflexivity | lia | reflexivity]. }
  destruct (usb_read_correct X86 2097152 0 sim_ev 1110000 1100000 1 3 4 129 2 sim_ib sim_ob stick 8 sim_view sim_laws ltac:(lia) eq_refl
      ltac:(discriminate) eq_refl ltac:(intros x; unfold inside, sim_ev, sim_ib, sim_ob; lia) ltac:(intros x; unfold inside, sim_ev, sim_ib, sim_ob, is_u64; lia)
      32768 33024 8192 12288 sim_state (mkRequest IO_MJ_READ 0 0 65536 1024 (read_write 1536)) 1536 ltac:(lia) Hlay) as (r' & m & d & E & _ & Hm).
  - split; [by exists (mkDevice IO_TYPE_DEVICE [] 4096 12288 24 0 1)|]. split; [by exists 0 | exact sim_pipe].
  - reflexivity.
  - lia.
  - reflexivity.
  - reflexivity.
  - cbn. lia.
  - cbn. lia.
  - split; [cbn; lia | reflexivity].
  - exact Hpriv.
  - exists r', m, d. split; [exact E|]. rewrite Hm by (apply Hpriv; lia). vm_compute. reflexivity.
Defined.

(** Nothing keeps a buffer from crossing a boundary of 64 KiB: this one is queued in one TRB. *)
Example crossing_transfer_queued :
  let '(_, m, _) := xring_push (mkXring 0 0 1) 65280 512 1056 (fun _ => 0) sim_usb in ld64 m 0 = 65280 /\ ld32 m 8 = 512 /\ ~ one_trb 65280 512.
Proof. vm_compute. split; [reflexivity|]. split; [reflexivity|]. intros [_ Hc]. discriminate Hc. Qed.

(** The length of a TRB has 17 bits; one that does not fit (as in reads of 255 sectors of a
    CD) spills into the fields above it. *)
Example long_transfer_spills :
  Z.shiftr (ld32 (xring_push (mkXring 0 0 1) 65536 522240 1056 (fun _ => 0) sim_usb).1.2 8) 17 = 3.
Proof. vm_compute. reflexivity. Qed.

End XhciSpec.
