(* ===== verification/Usb.v ===== *)
(** * drivers/usb: enumeration, and the four host controllers

    The rest of drivers/usb/xhci.c: finding what kind of device a port has,
    configuring it, polling for input; the initialisation of the older
    controllers (uhci.c, ohci.c, ehci.c), which carry no devices; and usb.c, the
    search of the PCI bus.  Mass storage is attached through [Msc], so the state
    is that of [Msc] over the state [usb] of [Xhci]; a step is a function from
    it to an optional result, [None] where the code has no defined behaviour. *)

From stdpp Require Import base list numbers gmap strings.
From Stdlib Require Import ZArith Lia.
From S2P Require Import Prelude.
From S2P Require Import Util.
From S2P Require Import Pmm.
From S2P Require Import Vmm.
From S2P Require Import Paging.
From S2P Require Import Mm.
From S2P Require Import Sim.
From S2P Require Import Ob.
From S2P Require Import Io.
From S2P Require Import Hw.
From S2P Require Import Input.
From S2P Require Import Fat32.
From S2P Require Import Ram.
From S2P Require Import Ide.
From S2P Require Import Cdfs.
From S2P Require Import Msc.
From S2P Require Import Hid.
From S2P Require Import Xhci.
Import Util Pmm Vmm Paging Ob Io Hw Fat32 Msc Xhci.

Module Usb.

Inductive USB_HC_TYPE := USB_HC_UHCI | USB_HC_OHCI | USB_HC_EHCI | USB_HC_XHCI.

Record USB_CONTROLLER := mkController {
  bus : Z; slot : Z; function : Z; type : USB_HC_TYPE; base : Z; io_base : Z; ports : Z; initialized : bool; private_data : Z
}.
Definition no_controller : USB_CONTROLLER := mkController 0 0 0 USB_HC_UHCI 0 0 0 false 0.
Definition with_ports_of (c : USB_CONTROLLER) (n : Z) : USB_CONTROLLER :=
  mkController (bus c) (slot c) (function c) (type c) (base c) (io_base c) n (initialized c) (private_data c).
Definition with_private (c : USB_CONTROLLER) (p : Z) : USB_CONTROLLER :=
  mkController (bus c) (slot c) (function c) (type c) (base c) (io_base c) (ports c) (initialized c) p.

Section usb.
Context {C H : Type} `{Dma C} `{Bus C} `{KernelHeap H} (a : arch).
Context (run_unload : Z -> Z -> ob H (io (usb C)) -> option (ob H (io (usb C)))).
(** The addresses of the locals: [cbw], [csw] and [capacity] of usb_msc.c,
    [descriptor] and [header] of [enumerate_port]. *)
Context (cbw csw capacity descriptor header : Z).

Abbreviation xm := (Xhci.xm C).
Abbreviation kernel := (@msc (usb C) H).
Definition um (A : Type) : Type := kernel -> option (A * kernel).
#[global] Instance um_ret : MRet um := fun A x s => Some (x, s).
#[global] Instance um_bind : MBind um := fun A B k f s => '(x, s) ← f s; k x s.

Definition on_usb {A} (f : xm A) : um A := fun s =>
  let k := kern s in
  let '(x, m, d) := f (bytes (memory k)) (hardware (memory k)) in
  Some (x, mkMscState (set_memory k (set_hardware (set_bytes (memory k) m) d)) (msc_driver s) (disk_count s)).

(** Early returns of zero. *)
Definition unless {A} (ok : bool) (rest : um A) (zero : A) : um A := if ok then rest else mret zero.

Fixpoint um_range {A} (n : nat) (i : Z) (body : Z -> A -> um A) (x : A) : um A :=
  match n with O => mret x | S n' => x ← body i x; um_range n' (i + 1) body x end.

(** ** Configuring a device *)
Definition load_bytes (p n : Z) : xm (list Z) := fun m d => (load m p n, m, d).
Definition undefined {A} : um A := fun _ => None.
Definition lift {A} (o : option A) : um A := match o with Some x => mret x | None => undefined end.

(** The slot context of an input context, and its control word of added
    contexts. *)
Definition fill_slot (h i added entries : Z) : xm unit :=
  s ← get_host h; d ← get_device h i;
  poke 4 (input_context d + 4) added;;
  poke 4 (input_slot s d) (Z.lor (u32 (Z.shiftl entries 27)) (Z.shiftl (speed d) 20));;
  poke 4 (input_slot s d + 4) (Z.shiftl (xport d + 1) 16).

Definition configure_endpoint (h i : Z) : xm bool :=
  d ← get_device h i;
  '(ok, _) ← xhci_command h (VmmGetPhysicalAddress (input_context d)) (Z.lor 12288 (Z.shiftl (slot_id d) 24)) 0; mret ok.

(** Both bulk rings; the second is not tried when the first fails. *)
Definition allocate_bulk (h i : Z) : xm bool :=
  d ← get_device h i;
  '(ok, r) ← ring_allocate;
  put_device h i (with_bulk d (with_rings (bulk d) r (out_ring (bulk d))));;
  if negb ok then mret false else
  '(ok, r') ← ring_allocate;
  put_device h i (with_bulk d (with_rings (bulk d) r r'));; mret ok.

Definition configure_mass_storage (h i : Z) (config : list Z) : um bool :=
  st ← lift (storage_scan (S (Datatypes.length config)) config 0 (mkStorage 0 0 0 0 0 0 false));
  if (s_in st =? 0) || (s_out st =? 0) then mret false else
  ok ← on_usb (allocate_bulk h i);
  unless ok (
  ok ← on_usb (
    d ← get_device h i;
    put_device h i (with_bulk d (mkBulk (s_in st) (s_out st) (s_in_dci st) (s_out_dci st) (s_in_packet st) (s_out_packet st)
      (in_ring (bulk d)) (out_ring (bulk d))));;
    s ← get_host h; d ← get_device h i;
    clear (input_context d) 4096;;
    fill_slot h i (Z.lor (Z.lor 1 (Z.shiftl 1 (s_in_dci st))) (Z.shiftl 1 (s_out_dci st))) (if s_out_dci st <? s_in_dci st then s_in_dci st else s_out_dci st);;
    configure_endpoint_context s d (s_out_dci st) 2 (s_out_packet st) (out_ring (bulk d));;
    configure_endpoint_context s d (s_in_dci st) 6 (s_in_packet st) (in_ring (bulk d));;
    configure_endpoint h i);
  unless ok (
  c5 ← lift (cfg config 5);
  ok ← on_usb (control_transfer h i 0 9 c5 0 0 0);
  unless ok (
  on_usb (d ← get_device h i; put_device h i (with_configured d));;
  object ← UsbMscAttach a (usb_transfer a) run_unload cbw csw capacity (device_at a h i) bulk_transfer_addr (s_in st) (s_out st);
  mret (negb (object =? 0))) false) false) false.

Definition configure_hid (h i : Z) (config : list Z) : um bool :=
  st ← lift (hid_scan (S (Datatypes.length config)) config 0 (mkHidscan false 0 0 0 0 0 10));
  if (h_in st =? 0) || (h_protocol st =? 0) then mret false else
  ok ← on_usb (
    d ← get_device h i; '(ok, r) ← ring_allocate;
    let x := hid d in
    put_device h i (with_hid d (mkHid (hid_protocol x) (hid_interface x) (hid_in x) (hid_in_dci x) (hid_seen_input x) (hid_in_packet x)
      (hid_previous x) (hid_pending x) r));; mret ok);
  unless ok (
  ok ← on_usb (
    d ← get_device h i;
    let x := hid d in
    put_device h i (with_hid d (mkHid (h_protocol st) (h_interface st) (h_in st) (h_dci st) (hid_seen_input x)
      (if 16 <? h_packet st then 16 else h_packet st) (hid_previous x) (hid_pending x) (hid_ring x)));;
    s ← get_host h; d ← get_device h i;
    clear (input_context d) 4096;;
    fill_slot h i (Z.lor 1 (Z.shiftl 1 (h_dci st))) (h_dci st);;
    configure_endpoint_context s d (h_dci st) 7 (h_packet st) (hid_ring (hid d));;
    poke 4 (input_ep s d (h_dci st)) (Z.shiftl (h_interval st) 16);;
    configure_endpoint h i);
  unless ok (
  c5 ← lift (cfg config 5);
  ok ← on_usb (control_transfer h i 0 9 c5 0 0 0);
  unless ok (
  ok ← on_usb (control_transfer h i 33 11 0 (h_interface st) 0 0);
  unless ok (on_usb (d ← get_device h i; put_device h i (with_configured d));; mret true) false) false) false) false.

Definition set_pending (x : HID) (p : Z) (r : XHCI_RING) : HID :=
  mkHid (hid_protocol x) (hid_interface x) (hid_in x) (hid_in_dci x) (hid_seen_input x) (hid_in_packet x) (hid_previous x) p r.

Definition submit_hid_transfer (h i : Z) : xm unit :=
  d ← get_device h i;
  let x := hid d in
  if negb (configured d) || (hid_protocol x =? 0) || negb (hid_pending x =? 0) then mret tt else
  clear (report_at a h i) 16;;
  '(trb, r) ← xring_push (hid_ring x) (VmmGetPhysicalAddress (report_at a h i)) (hid_in_packet x) (Z.lor 1024 32);
  put_device h i (with_hid d (set_pending x trb r));;
  s ← get_host h;
  UsbMmioWrite32 (doorbells s) (slot_id d * 4) (hid_in_dci x).

(** ** Ports *)
Definition port_register (s : XHCI_STATE) (port : Z) : Z := operational s + 1024 + port * 16.

Definition reset_port (h port : Z) : xm bool :=
  s ← get_host h;
  let r := port_register s port in
  portsc ← UsbMmioRead32 r 0;
  if (Z.land portsc 1 =? 0) || (8 <=? device_count s) then mret false else
  UsbMmioWrite32 r 0 (Z.lor (Z.land portsc 4278321151) 16);;
  ok ← wait_bits r 0 16 false;
  if negb ok then mret false else wait_bits r 0 2 true.

(** A cleared device in the next slot, its control ring and its contexts; the
    slot the controller gives it, and its address. *)
Definition address_device (h i port : Z) : xm bool :=
  s ← get_host h;
  portsc ← UsbMmioRead32 (port_register s port) 0;
  clear (report_at a h i) 16;;
  put_device h i (mkXdevice 0 port (Z.land (Z.shiftr portsc 10) 15) false no_bulk no_hid 0 0 no_ring);;
  '(ok, r) ← ring_allocate;
  d ← get_device h i; put_device h i (with_ep0 d r);;
  if negb ok then mret false else
  ic ← dma_page; oc ← dma_page;
  d ← get_device h i;
  put_device h i (mkXdevice (slot_id d) (xport d) (speed d) (configured d) (bulk d) (hid d) oc ic (ep0 d));;
  if (ic =? 0) || (oc =? 0) then mret false else
  '(ok, sl) ← xhci_command h 0 9216 0;
  d ← get_device h i; put_device h i (with_slot_id d sl);;
  if negb ok || (sl =? 0) then mret false else
  s ← get_host h; d ← get_device h i;
  poke 8 (dcbaa s + 8 * sl) (VmmGetPhysicalAddress oc);;
  fill_slot h i 3 1;;
  configure_endpoint_context s d 1 4 (if 4 <=? speed d then 512 else if speed d =? 3 then 64 else 8) (ep0 d);;
  '(ok, _) ← xhci_command h (VmmGetPhysicalAddress ic) (Z.lor 11264 (Z.shiftl sl 24)) 0; mret ok.

(** The configuration descriptor: its header first, for the length. *)
Definition read_configuration (h i : Z) : xm (option (list Z)) :=
  clear descriptor 18;;
  ok ← control_transfer h i 128 6 256 0 descriptor 18;
  if negb ok then mret None else
  ok ← control_transfer h i 128 6 512 0 header 9;
  if negb ok then mret None else
  lo ← peek 1 (header + 2); hi ← peek 1 (header + 3);
  let total := Z.lor lo (Z.shiftl hi 8) in
  if (total <? 9) || (4096 <? total) then mret None else
  config ← dma_page;
  if config =? 0 then mret None else
  ok ← control_transfer h i 128 6 512 0 config total;
  if negb ok then mret None else
  l ← load_bytes config total; mret (Some l).

Definition enumerate_port (h port : Z) : um bool :=
  ok ← on_usb (reset_port h port);
  unless ok (
  s ← on_usb (get_host h);
  let i := device_count s in
  ok ← on_usb (address_device h i port);
  unless ok (
  config ← on_usb (read_configuration h i);
  match config with
  | None => mret false
  | Some config =>
      on_usb (s ← get_host h; put_host h (with_devices s (xdevices s) (device_count s + 1)));;
      ok ← configure_hid h i config;
      (if ok : bool then on_usb (submit_hid_transfer h i) else configure_mass_storage h i config;; mret tt);;
      mret true
  end) false) false.

(** ** The controller *)
Definition set_rings (s : XHCI_STATE) (d e t : Z) : XHCI_STATE :=
  mkXhci (operational s) (runtime s) (doorbells s) (context_size s) (event_cycle s) (event_dequeue s) (max_slots s) d (command_ring s) e t
    (xdevices s) (device_count s) (enumerated_ports s).

Definition initialize_rings (h : Z) : xm bool :=
  dc ← dma_page; ev ← dma_page; er ← dma_page;
  s ← get_host h; put_host h (set_rings s dc ev er);;
  if (dc =? 0) || (ev =? 0) || (er =? 0) then mret false else
  '(ok, r) ← ring_allocate;
  s ← get_host h; put_host h (with_command s r);;
  if negb ok then mret false else
  s ← get_host h; put_host h (with_events s 0 1);;
  poke 8 er ev;; poke 4 (er + 8) 256;;
  let o := operational s in
  UsbMmioWrite32 o 24 (Z.lor (trbs r) 1);; UsbMmioWrite32 o 28 (Z.shiftr (trbs r) 32);;
  UsbMmioWrite32 o 48 dc;; UsbMmioWrite32 o 52 (Z.shiftr dc 32);;
  let ir := runtime s + 32 in
  UsbMmioWrite32 ir 8 1;; UsbMmioWrite32 ir 16 er;; UsbMmioWrite32 ir 20 (Z.shiftr er 32);;
  UsbMmioWrite32 ir 24 ev;; UsbMmioWrite32 ir 28 (Z.shiftr ev 32);; mret true.

Definition read8 (p : Z) : xm Z := fun m d => let '(v, m, c) := reg_read8 p m (chip d) in (u8 v, m, set_chip d c).

(** Halting, resetting and starting again. *)
Definition start_controller (h : Z) : xm bool :=
  s ← get_host h;
  let o := operational s in
  v ← UsbMmioRead32 o 0; UsbMmioWrite32 o 0 (Z.land v 4294967294);;
  ok ← wait_bits o 4 1 true;
  if negb ok then mret false else
  UsbMmioWrite32 o 0 2;;
  ok ← wait_bits o 0 2 false;
  if negb ok then mret false else
  ok ← wait_bits o 4 2048 false;
  if negb ok then mret false else
  ok ← initialize_rings h;
  if negb ok then mret false else
  UsbMmioWrite32 o 56 (max_slots s);; UsbMmioWrite32 o 0 1;;
  wait_bits o 4 1 false.

(** Enumeration at a port, remembered for the first 32. *)
Definition enumerate_once (h port : Z) : um unit :=
  ok ← enumerate_port h port;
  if ok && (port <? 32) then on_usb (s ← get_host h; put_host h (with_ports s (Z.lor (enumerated_ports s) (u32 (Z.shiftl 1 port))))) else mret tt.

Definition XhciInitialize (c : USB_CONTROLLER) : um (bool * USB_CONTROLLER) :=
  if base c =? 0 then mret (false, c) else
  len ← on_usb (read8 (base c));
  if len <? 32 then mret (false, c) else
  hcs ← on_usb (UsbMmioRead32 (base c) 4);
  hcc ← on_usb (UsbMmioRead32 (base c) 16);
  on_usb (legacy_handoff (base c) hcc);;
  h ← on_usb dma_page;
  if h =? 0 then mret (false, c) else
  rt ← on_usb (UsbMmioRead32 (base c) 24);
  db ← on_usb (UsbMmioRead32 (base c) 20);
  let slots := Z.land hcs 255 in
  on_usb (put_host h (mkXhci (base c + len) (base c + Z.land rt 4294967264) (base c + Z.land db 4294967292) (if Z.land hcc 4 =? 0 then 32 else 64) 0 0
    (if 32 <? slots then 32 else slots) 0 no_ring 0 0 (replicate 8 no_xdevice) 0 0));;
  let c := with_private (with_ports_of c (u8 (Z.shiftr hcs 24))) h in
  ok ← on_usb (start_controller h);
  unless ok (
  um_range (Z.to_nat (ports c)) 0 (fun port _ =>
    s ← on_usb (get_host h);
    status ← on_usb (UsbMmioRead32 (operational s) (1024 + port * 16));
    if Z.land status 1 =? 0 then mret tt else enumerate_once h port) tt;;
  mret (true, c)) (false, c).

(** ** Polling *)
Fixpoint find_pending (n : nat) (i completed : Z) (s : XHCI_STATE) : option Z :=
  match n with
  | O => None
  | S n' =>
      if device_count s <=? i then None else
      let p := hid_pending (hid (get no_xdevice (xdevices s) i)) in
      if negb (p =? 0) && (Z.shiftr (VmmGetPhysicalAddress p) 4 =? completed) then Some i else find_pending n' (i + 1) completed s
  end.

Definition set_keys (q : Ring.ring Input.INPUT_BYTE) : xm unit := fun m d => (tt, m, mkUsb (chip d) (vm d) (hosts d) q).
Definition get_keys : xm (Ring.ring Input.INPUT_BYTE) := fun m d => (keys d, m, d).

(** The report of the device whose transfer is done (its first eight bytes are
    read), and the next transfer. *)
Definition process_report (h i : Z) : xm unit :=
  d ← get_device h i;
  let x := hid d in
  report ← load_bytes (report_at a h i) 8;
  q ← get_keys;
  let '(seen, previous, q) :=
    if hid_protocol x =? 1 then Hid.process_keyboard_report (hid_seen_input x) (hid_previous x) report q
    else if hid_protocol x =? 2 then let '(seen, q) := Hid.process_mouse_report (hid_seen_input x) report q in (seen, hid_previous x, q)
    else (hid_seen_input x, hid_previous x, q) in
  put_device h i (with_hid d (mkHid (hid_protocol x) (hid_interface x) (hid_in x) (hid_in_dci x) seen (hid_in_packet x) previous 0 (hid_ring x)));;
  set_keys q;; submit_hid_transfer h i.

(** One event, if there is one. *)
Definition poll_event (h : Z) : xm bool :=
  s ← get_host h;
  let event := xevents s + 16 * event_dequeue s in
  control ← peek 4 (event + 12);
  if negb (Z.land control 1 =? event_cycle s) then mret false else
  status ← peek 4 (event + 8);
  parameter ← peek 8 event;
  let kind := Z.land (Z.shiftr control 10) 63 in
  let completion := u8 (Z.shiftr status 24) in
  (if (kind =? 32) && ((completion =? 1) || (completion =? 13)) then
     match find_pending 8 0 (Z.shiftr parameter 4) s with Some i => process_report h i | None => mret tt end
   else mret tt);;
  next_event h;; mret true.

(** The loop ends at the first event that has not come. *)
Fixpoint poll_events (fuel : nat) (h : Z) : um unit :=
  match fuel with
  | O => undefined
  | S n => more ← on_usb (poll_event h); if more : bool then poll_events n h else mret tt
  end.

Definition poll_port (h port : Z) : um unit :=
  s ← on_usb (get_host h);
  let offset := 1024 + port * 16 in
  status ← on_usb (UsbMmioRead32 (operational s) offset);
  if Z.land status 16646144 =? 0 then mret tt else
  on_usb (UsbMmioWrite32 (operational s) offset (Z.land status 16646144));;
  if Z.land status 1 =? 0 then
    (if port <? 32 then on_usb (s ← get_host h; put_host h (with_ports s (Z.land (enumerated_ports s) (4294967295 - Z.shiftl 1 port)))) else mret tt)
  else if (port <? 32) && (Z.land (enumerated_ports s) (Z.shiftl 1 port) =? 0) then enumerate_once h port else mret tt.

Definition XhciPoll (fuel : nat) (c : USB_CONTROLLER) : um unit :=
  if private_data c =? 0 then mret tt else
  poll_events fuel (private_data c);;
  um_range (Z.to_nat (ports c)) 0 (fun port _ => poll_port (private_data c) port) tt.

(** ** The other controllers *)
Definition on_chip {A} (f : hw C A) : xm A := fun m d => let '(x, c) := f (chip d) in (x, m, set_chip d c).
Fixpoint UsbWait (n : nat) : xm unit := match n with O => mret tt | S n' => CpuRelax;; UsbWait n' end.
Fixpoint xm_range (n : nat) (i : Z) (body : Z -> xm unit) : xm unit := match n with O => mret tt | S n' => body i;; xm_range n' (i + 1) body end.

Definition UhciInitialize (c : USB_CONTROLLER) : xm (bool * USB_CONTROLLER) :=
  if io_base c =? 0 then mret (false, c) else
  on_chip (outw a (io_base c) 4);; UsbWait (Z.to_nat 100000);; on_chip (outw a (io_base c) 0);; on_chip (outw a (io_base c + 2) 65535);;
  xm_range 2 0 (fun p => s ← on_chip (inw a (io_base c + 16 + p * 2)); on_chip (outw a (io_base c + 16 + p * 2) (Z.lor s 10)));;
  mret (true, with_ports_of c 2).

Definition OhciInitialize (c : USB_CONTROLLER) : xm (bool * USB_CONTROLLER) :=
  if base c =? 0 then mret (false, c) else
  r ← UsbMmioRead32 (base c) 0;
  if (Z.land r 255 =? 0) || (r =? 4294967295) then mret (false, c) else
  UsbMmioWrite32 (base c) 4 0;; UsbMmioWrite32 (base c) 8 1;; UsbWait (Z.to_nat 100000);; UsbMmioWrite32 (base c) 12 4294967295;;
  v ← UsbMmioRead32 (base c) 72;
  let n := if 15 <? Z.land v 255 then 15 else Z.land v 255 in
  xm_range (Z.to_nat n) 0 (fun p => s ← UsbMmioRead32 (base c) (84 + p * 4); UsbMmioWrite32 (base c) (84 + p * 4) (Z.lor s 196608));;
  UsbMmioWrite32 (base c) 4 128;; mret (true, with_ports_of c n).

Definition EhciInitialize (c : USB_CONTROLLER) : xm (bool * USB_CONTROLLER) :=
  if base c =? 0 then mret (false, c) else
  l ← read8 (base c);
  let o := base c + l in
  v ← UsbMmioRead32 (base c) 4;
  let n := Z.land v 15 in
  r ← UsbMmioRead32 o 0;
  UsbMmioWrite32 o 0 (Z.lor r 2);; UsbWait (Z.to_nat 200000);; UsbMmioWrite32 o 4 4294967295;;
  xm_range (Z.to_nat n) 0 (fun p => s ← UsbMmioRead32 o (68 + p * 4); UsbMmioWrite32 o (68 + p * 4) (Z.lor s 6));;
  UsbMmioWrite32 o 64 1;; mret (true, with_ports_of c n).

(** ** usb.c *)
Definition MAX_CONTROLLERS : Z := 8.
Definition pci_read (b s f r : Z) : um Z := on_usb (on_chip (PciConfigRead32 a b s f r)).
Definition UsbPciRead (c : USB_CONTROLLER) (r : Z) : um Z := pci_read (bus c) (slot c) (function c) r.
Definition UsbPciWrite (c : USB_CONTROLLER) (r v : Z) : um unit := on_usb (on_chip (PciConfigWrite32 a (bus c) (slot c) (function c) r v)).

Definition map_registers (p n : Z) : xm Z := fun m d =>
  let '(v, mm) := VmmMapMmioRange a p n (vm d) in (v, m, mkUsb (chip d) mm (hosts d) (keys d)).

Definition mmio_bar (c : USB_CONTROLLER) : um Z :=
  l ← UsbPciRead c 16;
  l ← (match a with
       | LA64 => if Z.land l 4294967280 =? 0 then UsbPciWrite c 16 1107296256;; UsbPciRead c 16 else mret l
       | X86 | AMD64 => mret l
       end);
  let p := Z.land l 4294967280 in
  p ← (match a with
       | X86 => mret p
       | AMD64 | LA64 => if Z.land l 6 =? 4 then hi ← UsbPciRead c 20; mret (Z.lor p (Z.shiftl hi 32)) else mret p
       end);
  on_usb (map_registers p 65536).

Definition start (c : USB_CONTROLLER) : um (bool * USB_CONTROLLER) :=
  match type c with
  | USB_HC_UHCI => on_usb (UhciInitialize c)
  | USB_HC_OHCI => on_usb (OhciInitialize c)
  | USB_HC_EHCI => on_usb (EhciInitialize c)
  | USB_HC_XHCI => XhciInitialize c
  end.

(** The table and the count. *)
Definition table : Type := list USB_CONTROLLER * Z.

Definition controller_type (pi : Z) : option USB_HC_TYPE :=
  if pi =? 0 then Some USB_HC_UHCI else if pi =? 16 then Some USB_HC_OHCI else if pi =? 32 then Some USB_HC_EHCI else if pi =? 48 then Some USB_HC_XHCI else None.

(** A controller that was found, at the next place of the table. *)
Definition bring_up (t : table) (c : USB_CONTROLLER) : um table :=
  c ← (match type c with
       | USB_HC_UHCI => v ← UsbPciRead c 32; mret (mkController (bus c) (slot c) (function c) (type c) 0 (Z.land v 65532) 0 (initialized c) 0)
       | _ => p ← mmio_bar c; mret (mkController (bus c) (slot c) (function c) (type c) p 0 0 (initialized c) 0)
       end);
  v ← UsbPciRead c 4; UsbPciWrite c 4 (Z.lor v 6);;
  '(ok, c) ← start c;
  if ok : bool then
    mret (put t.1 t.2 (mkController (bus c) (slot c) (function c) (type c) (base c) (io_base c) (ports c) true (private_data c)), t.2 + 1)
  else mret (put t.1 t.2 c, t.2).

(** One function of the bus; the flag says that the slot is empty. *)
Definition probe_function (b s f : Z) (t : table) : um (bool * table) :=
  id ← pci_read (u8 b) s f 0;
  if id =? 4294967295 then mret (f =? 0, t) else
  cc ← pci_read (u8 b) s f 8;
  if negb (Z.shiftr cc 24 =? 12) || negb (Z.land (Z.shiftr cc 16) 255 =? 3) then mret (false, t) else
  let old := get no_controller t.1 t.2 in
  match controller_type (u8 (Z.shiftr cc 8)) with
  | None => mret (false, (put t.1 t.2 (mkController (u8 b) s f (type old) 0 0 0 (initialized old) 0), t.2))
  | Some ty => t ← bring_up t (mkController (u8 b) s f ty 0 0 0 (initialized old) 0); mret (false, t)
  end.

Fixpoint probe_functions (n : nat) (b s f : Z) (t : table) : um table :=
  match n with
  | O => mret t
  | S n' => if MAX_CONTROLLERS <=? t.2 then mret t else
      '(empty, t) ← probe_function b s f t; if empty : bool then mret t else probe_functions n' b s (f + 1) t
  end.
Definition UsbInit (t : table) : um table :=
  um_range (match a with LA64 => 1 | X86 | AMD64 => 256 end) 0 (fun b t =>
    if MAX_CONTROLLERS <=? t.2 then mret t else
    um_range 32 0 (fun s t => if MAX_CONTROLLERS <=? t.2 then mret t else probe_functions 8 b s 0 t) t) (t.1, 0).

Definition UsbPoll (fuel : nat) (t : table) : um unit :=
  um_range (Z.to_nat t.2) 0 (fun i _ =>
    let c := get no_controller t.1 i in
    match type c with USB_HC_XHCI => XhciPoll fuel c | _ => mret tt end) tt.

Definition UsbIsReady (t : table) : bool := 0 <? t.2.
Definition UsbGetControllerCount (t : table) : Z := t.2.

Definition msc_initialize (driver : Z) : um unit := fun s => s ← UsbMscInitialize driver s; Some (tt, s).

(** [DriverEntry] of the driver, and the same with a driver object of its own. *)
Definition UsbDriverEntry (driver : Z) (t : table) : um (bool * table) :=
  msc_initialize driver;; t ← UsbInit t; mret (0 <? t.2, t).

Definition create_driver : um Z := fun s =>
  '(d, k) ← IoCreateDriver a (Some (cstr "BootUsb")) 0 0 (kern s); Some (d, mkMscState k (msc_driver s) (disk_count s)).
Definition UsbBootInitialize (t : table) : um (bool * table) :=
  d ← create_driver;
  if d =? 0 then mret (false, t) else
  msc_initialize d;; t ← UsbInit t; mret (0 <? t.2, t).

End usb.

End Usb.
