(* ===== verification/UsbSpec.v ===== *)
(** * USB input: from a completed transfer to the keys down

    [poll_event] on the event of a keyboard's transfer, composed with what [Hid]
    proves of the report and [Keyboard] of the bytes; and the loss of an
    input event that comes while the driver waits for another. *)

From stdpp Require Import base list numbers gmap strings.
From Stdlib Require Import ZArith Lia.
From S2P Require Import Prelude.
From S2P Require Import Util.
From S2P Require Import Pmm.
From S2P Require Import Vmm.
From S2P Require Import Paging.
From S2P Require Import Mm.
From S2P Require Import Sim.
From S2P Require Import Ob.
From S2P Require Import Io.
From S2P Require Import Hw.
From S2P Require Import Input.
From S2P Require Import Fat32.
From S2P Require Import Ram.
From S2P Require Import Ide.
From S2P Require Import Cdfs.
From S2P Require Import Msc.
From S2P Require Import MscSpec.
From S2P Require Import Hid.
From S2P Require Import Xhci.
From S2P Require Import XhciSpec.
From S2P Require Import Usb.
Import Util Pmm Vmm Paging Ob Io Hw Fat32 Msc MscSpec Xhci XhciSpec Usb.

Module UsbSpec.

Section poll.
Context {C : Type} `{Dma C} (a : arch) (h : Z).
Implicit Types (m : mem) (d : usb C) (s : XHCI_STATE).

(** The event at the consumer's place completes the transfer at [trb]. *)
Definition transfer_done s m (trb : Z) : Prop :=
  let e := xevents s + 16 * event_dequeue s in
  Z.land (ld32 m (e + 12)) 1 = event_cycle s /\ Z.land (Z.shiftr (ld32 m (e + 12)) 10) 63 = 32 /\
  (u8 (Z.shiftr (ld32 m (e + 8)) 24) = 1 \/ u8 (Z.shiftr (ld32 m (e + 8)) 24) = 13) /\ Z.shiftr (ld64 m e) 4 = Z.shiftr trb 4.

Definition hid_at s (i : Z) : HID := hid (get no_xdevice (xdevices s) i).

(** Device [i] waits for [trb], and no device before it does. *)
Definition first_waiting s (i trb : Z) : Prop :=
  0 <= i < 8 /\ i < device_count s /\ Datatypes.length (xdevices s) = 8%nat /\ hid_pending (hid_at s i) = trb /\ trb <> 0 /\
  forall j, 0 <= j < i -> hid_pending (hid_at s j) = 0 \/ Z.shiftr (hid_pending (hid_at s j)) 4 <> Z.shiftr trb 4.

Lemma find_pending_first n j s i trb : first_waiting s i trb -> 0 <= j <= i -> (Z.to_nat (i - j) < n)%nat ->
  find_pending n j (Z.shiftr trb 4) s = Some i.
Proof.
  intros (Hi & Hc & Hl & Hp & Hz & Hf). revert j. induction n as [|n IH]; intros j Hj Hn; [lia|]. cbn [find_pending].
  rewrite (proj2 (Z.leb_gt _ _)) by lia. change (VmmGetPhysicalAddress ?x) with x. fold (hid_at s j). destruct (decide (j = i)) as [->|Hne].
  - rewrite Hp, Z.eqb_refl, (proj2 (Z.eqb_neq _ _) Hz). done.
  - destruct (Hf j ltac:(lia)) as [-> | Hd]; [cbn [Z.eqb negb andb]; apply IH; lia|]. rewrite (proj2 (Z.eqb_neq _ _) Hd), andb_false_r. apply IH; lia.
Qed.

(** Steps that change registers and memory only. *)
Lemma write_frame b o v m d : exists m' c', UsbMmioWrite32 b o v m d = (tt, m', set_chip d c').
Proof. unfold UsbMmioWrite32. destruct (reg_write _ _ _ _) as [m' c']. by exists m', c'. Qed.

Lemma next_event_frame m d s : hosts d !! h = Some s ->
  exists m' d' s', next_event h m d = (tt, m', d') /\ keys d' = keys d /\ hosts d' !! h = Some s' /\ xdevices s' = xdevices s.
Proof.
  intros Hs. unfold next_event. erewrite xm_step by (by apply get_host_ok). cbv zeta.
  set (s' := if _ =? 256 then _ else _). unfold put_host, mbind at 1, xm_bind at 1. cbv beta iota.
  set (d1 := mkUsb _ _ _ _). edestruct write_frame as (m1 & c1 & E1). erewrite xm_step by exact E1.
  edestruct write_frame as (m2 & c2 & E2). rewrite E2. eexists m2, _, s'. split; [done|]. split; [done|].
  split; [apply lookup_insert_eq|]. unfold s'. by destruct (_ =? 256).
Qed.

Lemma xring_push_frame r p l c m d : exists m', xring_push r p l c m d
  = ((trbs r + 16 * enqueue r, mkXring (trbs r) (if enqueue r + 1 =? 255 then 0 else enqueue r + 1) (if enqueue r + 1 =? 255 then Z.lxor (cycle r) 1 else cycle r)), m', d).
Proof. unfold xring_push, mbind, xm_bind, poke, mret, xm_ret. destruct (_ =? 255); by eexists. Qed.

Lemma submit_frame m d s i : hosts d !! h = Some s -> 0 <= i < 8 -> Datatypes.length (xdevices s) = 8%nat ->
  configured (get no_xdevice (xdevices s) i) = true -> hid_protocol (hid_at s i) <> 0 -> hid_pending (hid_at s i) = 0 ->
  exists m' d' s', submit_hid_transfer a h i m d = (tt, m', d') /\ keys d' = keys d /\ hosts d' !! h = Some s' /\
    hid_previous (hid_at s' i) = hid_previous (hid_at s i) /\ hid_pending (hid_at s' i) = trbs (hid_ring (hid_at s i)) + 16 * enqueue (hid_ring (hid_at s i)).
Proof.
  intros Hs Hi Hl Hc Hp Hz. unfold submit_hid_transfer. erewrite xm_step by (by apply get_device_ok). cbv zeta. fold (hid_at s i).
  rewrite Hc, Hz, (proj2 (Z.eqb_neq _ _) Hp). cbn [negb orb Z.eqb]. unfold clear at 1, mbind at 1, xm_bind at 1. cbv beta iota.
  edestruct xring_push_frame as (m1 & E1). erewrite xm_step by exact E1. cbv beta iota.
  erewrite xm_step by (by apply put_device_ok). erewrite xm_step by (apply get_host_ok; apply lookup_insert_eq). cbv beta.
  edestruct write_frame as (m2 & c2 & E2). rewrite E2. eexists m2, _, _. split; [done|]. split; [done|]. split; [apply lookup_insert_eq|].
  unfold hid_at. cbn [xdevices with_devices]. by rewrite get_put, Z.eqb_refl by lia.
Qed.

(** C23. A completed transfer of a USB keyboard, found by the poll: the bytes
    queued make the keys down, as the keyboard driver decodes them, those of the
    report in memory; the report is remembered and the next transfer queued. *)
Theorem poll_delivers_report m d s i trb (hist : list Z) :
  hosts d !! h = Some s -> transfer_done s m trb -> first_waiting s i trb ->
  configured (get no_xdevice (xdevices s) i) = true -> hid_protocol (hid_at s i) = 1 ->
  let report := load m (report_at a h i) 8 in
  Hid.report_ok (hid_previous (hid_at s i)) -> Forall is_u8 report ->
  Ring.ring_ok Input.INPUT_QUEUE_SIZE (keys d) -> (Datatypes.length (Hid.waiting (keys d)) <= 23)%nat ->
  Keyboard.prefixed hist = 0 -> Hid.keys_down hist = Hid.report_keys (hid_previous (hid_at s i)) ->
  exists m' d' s' bytes, poll_event a h m d = (true, m', d') /\ hosts d' !! h = Some s' /\
    Hid.waiting (keys d') = Hid.waiting (keys d) ++ map (Input.mkByte 0) bytes /\
    Hid.keys_down (rev bytes ++ hist) = Hid.report_keys report /\ hid_previous (hid_at s' i) = report /\
    hid_pending (hid_at s' i) = trbs (hid_ring (hid_at s i)) + 16 * enqueue (hid_ring (hid_at s i)).
Proof.
  intros Hs (T1 & T2 & T3 & T4) Hw Hcfg Hp report Hprev Hu Hq Hroom Hpre Hdown. pose proof Hw as (Hi & _ & Hl & _).
  assert (Hr : Hid.report_ok report) by (split; [by unfold report; rewrite load_length by lia | done]).
  destruct (Hid.keyboard_report_tracks (hid_seen_input (hid_at s i)) _ report (keys d) hist Hprev Hr Hq Hroom Hpre Hdown)
    as (bytes & seen' & q' & Er & _ & Hwait & _ & _ & Hkeys).
  unfold poll_event. erewrite xm_step by (by apply get_host_ok). cbv zeta. unfold peek, mbind at 1, xm_bind at 1. cbv beta iota. rewrite T1, Z.eqb_refl. cbn [negb].
  unfold mbind at 1, xm_bind at 1. cbv beta iota. unfold mbind at 1, xm_bind at 1. cbv beta iota. rewrite T2, T4, (find_pending_first 8 0 s i trb Hw) by lia.
  assert ((32 =? 32) && ((u8 (Z.shiftr (ld32 m (xevents s + 16 * event_dequeue s + 8)) 24) =? 1) || (u8 (Z.shiftr (ld32 m (xevents s + 16 * event_dequeue s + 8)) 24) =? 13)) = true) as ->
    by (destruct T3 as [-> | ->]; done).
  set (x := hid_at s i) in *. set (dev := get no_xdevice (xdevices s) i) in *.
  set (x' := mkHid (hid_protocol x) (hid_interface x) (hid_in x) (hid_in_dci x) seen' (hid_in_packet x) report 0 (hid_ring x)).
  set (s1 := with_devices s (put (xdevices s) i (with_hid dev x')) (device_count s)).
  set (d1 := mkUsb (chip d) (vm d) (<[h := s1]> (hosts d)) q').
  assert (Hat : get no_xdevice (xdevices s1) i = with_hid dev x') by (unfold s1; cbn [xdevices with_devices]; by rewrite get_put, Z.eqb_refl by lia).
  destruct (submit_frame m d1 s1 i (lookup_insert_eq _ _ _) Hi) as (m2 & d2 & s2 & E2 & K2 & H2 & P2 & Q2);
    [unfold s1; cbn; by rewrite length_put | by rewrite Hat | unfold hid_at; rewrite Hat; cbn; lia | unfold hid_at; by rewrite Hat |].
  assert (Eproc : process_report a h i m d = (tt, m2, d2)).
  { unfold process_report. erewrite xm_step by (by apply get_device_ok). cbv zeta. fold dev. change (hid dev) with x.
    unfold load_bytes, get_keys, mbind at 1, xm_bind at 1. cbv beta iota. unfold mbind at 1, xm_bind at 1. cbv beta iota. fold report. rewrite Hp, Er. cbn [Z.eqb Pos.eqb]. cbv beta iota.
    erewrite xm_step by (by apply put_device_ok). rewrite <- Hp. fold x'. unfold set_keys, mbind at 1, xm_bind at 1. cbv beta iota. exact E2. }
  erewrite xm_step by exact Eproc. destruct (next_event_frame m2 d2 s2 H2) as (m3 & d3 & s3 & E3 & K3 & H3 & L3).
  erewrite xm_step by exact E3. exists m3, d3, s3, bytes. split; [done|]. split; [done|]. rewrite K3, K2. split; [exact Hwait|]. split; [exact Hkeys|].
  unfold hid_at in *. rewrite L3, P2, Q2, Hat. by split.
Qed.

End poll.

(** ** An event that is not waited for *)

(** A keyboard waits for its transfer at 4096; the event of it comes while the
    driver waits for a bulk transfer. *)
Definition lost_host : XHCI_STATE :=
  mkXhci 0 1110000 1100000 32 1 0 32 0 no_ring sim_ev 0
    (mkXdevice 2 0 3 true no_bulk (mkHid 1 0 129 3 false 8 (replicate 8 0) 4096 (mkXring 4096 1 1)) 0 0 no_ring :: replicate 7 no_xdevice) 1 1.
Definition lost_usb : usb sim := mkUsb (mkSim BotIdle (0, 1) (0, 1) (0, 1)) (mkMmu (fun _ => 0) (mkPmm [] 0 0 0 0) 0) {[ 2097152 := lost_host ]} Input.input_reset.
Definition lost_memory : mem := st32 (st32 (st64 (fun _ => 0) sim_ev 4096) (sim_ev + 8) 16777216) (sim_ev + 12) (Z.lor 32768 (33554432 + 1)).

(** The wait consumes it; no later poll finds it, the keyboard still counts as
    waiting, and so its transfer is never queued again. *)
Example hid_event_lost :
  let '(_, m, d) := wait_event_loop 2 2097152 8192 32 0 lost_memory lost_usb in
  let '(found, m', d') := poll_event X86 2097152 m d in
  let '(_, _, d'') := submit_hid_transfer X86 2097152 0 m' d' in
  found = false /\ Hid.waiting (keys d'') = [] /\
  (hid_pending ∘ hid ∘ (fun s => get no_xdevice (xdevices s) 0)) <$> (hosts d'' !! 2097152) = Some 4096.
Proof. vm_compute. split_and!; reflexivity. Qed.

(** Polled instead, the same event brings shift and the letter A. *)
Definition typed_memory : mem := upd (upd lost_memory 2097220 2) 2097222 4.

Lemma poll_delivers_report_witness :
  exists m' d' bytes, poll_event X86 2097152 typed_memory lost_usb = (true, m', d') /\
    Hid.waiting (keys d') = map (Input.mkByte 0) bytes /\ Hid.keys_down (rev bytes) = Hid.report_keys [2; 0; 4; 0; 0; 0; 0; 0].
Proof.
  assert (Hok : forall l, Datatypes.length l = 8%nat -> forallb (fun x => (0 <=? x) && (x <? 256)) l = true -> Hid.report_ok l).
  { intros l Hl Hb. split; [done|]. apply Forall_forall. intros x Hx. rewrite forallb_forall in Hb. specialize (Hb x ltac:(by apply list_elem_of_In)).
    unfold is_u8. lia. }
  assert (Hf : first_waiting lost_host 0 4096) by (unfold first_waiting; split_and!; cbn; try lia; done).
  destruct (poll_delivers_report X86 2097152 typed_memory lost_usb lost_host 0 4096 [] (lookup_insert_eq _ _ _)) as (m' & d' & s' & bytes & E & _ & Hw & Hk & _).
  - repeat split; vm_compute; auto.
  - exact Hf.
  - reflexivity.
  - reflexivity.
  - apply Hok; reflexivity.
  - apply (Hok (load typed_memory (report_at X86 2097152 0) 8)); vm_compute; reflexivity.
  - repeat split; cbn; lia.
  - vm_compute. lia.
  - reflexivity.
  - vm_compute. reflexivity.
  - exists m', d', bytes. split; [exact E|]. rewrite app_nil_r in Hk. split; [exact Hw|]. rewrite Hk. vm_compute. reflexivity.
Defined.

End UsbSpec.
