(* ===== verification/Csrss.v ===== *)
(** * win32/csrss/csrss.c: programs and the session

    The client/server runtime runs the session: it logs the user on, starts
    programs, feeds input to the window manager and to programs, and clears up
    behind programs that end.  Its statics are the records below.  What it asks of
    the window manager, the loader, the dispatcher and the drivers is the class
    [World]; code at an address (handlers of programs, entries of user32, kernel32 and
    msgina) is the argument [invoke], which may do anything to the whole state,
    since programs call csrss back; so may [KeYield], which runs other threads.
    The statics are records of the state, a pointer into [g_gui_apps] is an index.
    The painting of csrss's own three windows and serial log lines are left out. *)

From stdpp Require Import base list numbers gmap strings.
From Stdlib Require Import ZArith Lia.
From S2P Require Import Prelude.
From S2P Require Import Util.
From S2P Require Import Pmm.
From S2P Require Import Vmm.
From S2P Require Import Mm.
From S2P Require Import Ob.
From S2P Require Import Ke.
From S2P Require Import Hw.
From S2P Require Import Input.
From S2P Require Import Mouse.
From S2P Require Import W32k.
Import Util.

Module Csrss.

Definition INVALID_HANDLE : Z := Ob.INVALID_HANDLE.

Inductive CSRSS_SESSION_STATE :=
| CSRSS_SESSION_BOOTING | CSRSS_SESSION_LOGGED_ON | CSRSS_SESSION_LOCKED | CSRSS_SESSION_LOGGING_OFF | CSRSS_SESSION_SHUTTING_DOWN.
Inductive GUI_APP_KIND := GUI_APP_KIND_CUSTOM | GUI_APP_KIND_WINMAIN | GUI_APP_KIND_WWINMAIN | GUI_APP_KIND_WMAIN | GUI_APP_KIND_MAIN.

#[global] Instance session_state_eq_dec : EqDecision CSRSS_SESSION_STATE.
Proof. solve_decision. Defined.
#[global] Instance app_kind_eq_dec : EqDecision GUI_APP_KIND.
Proof. solve_decision. Defined.

Definition MAX_GUI_APPS : Z := 8.

Record GUI_APP_INSTANCE := mkApp {
  pid : Z; app_path : list Z; command_line : list Z; image : Z; window : Z; thread : Z; kind : GUI_APP_KIND; exited : bool; exit_code : Z; handle_key : Z; handle_mouse : Z; should_exit : Z; reset_exit : Z
}.
Definition with_image (r : GUI_APP_INSTANCE) (v : Z) : GUI_APP_INSTANCE :=
  mkApp (pid r) (app_path r) (command_line r) v (window r) (thread r) (kind r) (exited r) (exit_code r) (handle_key r) (handle_mouse r) (should_exit r) (reset_exit r).
Definition with_window (r : GUI_APP_INSTANCE) (v : Z) : GUI_APP_INSTANCE :=
  mkApp (pid r) (app_path r) (command_line r) (image r) v (thread r) (kind r) (exited r) (exit_code r) (handle_key r) (handle_mouse r) (should_exit r) (reset_exit r).
Definition with_thread (r : GUI_APP_INSTANCE) (v : Z) : GUI_APP_INSTANCE :=
  mkApp (pid r) (app_path r) (command_line r) (image r) (window r) v (kind r) (exited r) (exit_code r) (handle_key r) (handle_mouse r) (should_exit r) (reset_exit r).
Definition with_kind (r : GUI_APP_INSTANCE) (v : GUI_APP_KIND) : GUI_APP_INSTANCE :=
  mkApp (pid r) (app_path r) (command_line r) (image r) (window r) (thread r) v (exited r) (exit_code r) (handle_key r) (handle_mouse r) (should_exit r) (reset_exit r).
Definition with_exit (r : GUI_APP_INSTANCE) (e : bool) (c : Z) : GUI_APP_INSTANCE :=
  mkApp (pid r) (app_path r) (command_line r) (image r) (window r) (thread r) (kind r) e c (handle_key r) (handle_mouse r) (should_exit r) (reset_exit r).
Definition with_handlers (r : GUI_APP_INSTANCE) (k m s x : Z) : GUI_APP_INSTANCE :=
  mkApp (pid r) (app_path r) (command_line r) (image r) (window r) (thread r) (kind r) (exited r) (exit_code r) k m s x.
Definition no_app : GUI_APP_INSTANCE := mkApp 0 [] [] 0 0 0 GUI_APP_KIND_CUSTOM false 0 0 0 0 0.

(** What a program's thread is started with; [ctx_app] is the index of the entry
    [app] points to. *)
Record GUI_APP_THREAD_CTX := mkCtx { ctx_app : Z; ctx_entry : Z; ctx_kind : GUI_APP_KIND; ctx_command_line : list Z }.

(** The programs, csrss's own windows, the session, and what is to be shown or
    started at the next turn. *)
Record programs := mkPrograms {
  g_gui_apps : list GUI_APP_INSTANCE; g_gui_app_count : Z; g_next_gui_pid : Z; g_current_gui_pid : Z; thread_contexts : gmap Z GUI_APP_THREAD_CTX
}.
Record own_windows := mkWindows {
  g_error_class : Z; g_error_window : Z; g_mouse_capture : Z; g_session_class : Z; g_lock_window : Z; g_logon_window : Z
}.
Record session := mkSession {
  g_session_state : CSRSS_SESSION_STATE; g_logon_field : Z; g_shell_started : bool; g_logon_user : list Z; g_logon_password : list Z; g_winlogon_thread : Z; g_gina_context : Z
}.
Record pending_work := mkPending {
  g_error_app : list Z; g_error_text : list Z; g_pending_error : option (list Z * list Z); g_pending_launch : option (list Z * list Z)
}.

(** Code addresses looked up in the libraries; zero when there is none. *)
Record libraries := mkLibs {
  g_user32_post_message : Z; g_user32_find_top_level_window : Z; g_user32_inject_keyboard : Z; g_user32_inject_mouse : Z; g_user32_set_process_id : Z;
  g_kernel32_set_process_image_base : Z; g_kernel32_set_console_sink : Z; g_wlx_negotiate : Z; g_wlx_initialize : Z; g_wlx_logged_on_sas : Z;
  g_wlx_logged_out_sas : Z; g_wlx_logoff : Z; g_wlx_shutdown : Z; g_wlx_display_sas_notice : Z
}.
Definition set_apps (r : programs) (v : list GUI_APP_INSTANCE) : programs :=
  mkPrograms v (g_gui_app_count r) (g_next_gui_pid r) (g_current_gui_pid r) (thread_contexts r).
Definition set_count (r : programs) (v : Z) : programs :=
  mkPrograms (g_gui_apps r) v (g_next_gui_pid r) (g_current_gui_pid r) (thread_contexts r).
Definition set_next_pid (r : programs) (v : Z) : programs :=
  mkPrograms (g_gui_apps r) (g_gui_app_count r) v (g_current_gui_pid r) (thread_contexts r).
Definition set_current (r : programs) (v : Z) : programs :=
  mkPrograms (g_gui_apps r) (g_gui_app_count r) (g_next_gui_pid r) v (thread_contexts r).
Definition set_contexts (r : programs) (v : gmap Z GUI_APP_THREAD_CTX) : programs :=
  mkPrograms (g_gui_apps r) (g_gui_app_count r) (g_next_gui_pid r) (g_current_gui_pid r) v.
Definition set_error_class (r : own_windows) (v : Z) : own_windows :=
  mkWindows v (g_error_window r) (g_mouse_capture r) (g_session_class r) (g_lock_window r) (g_logon_window r).
Definition set_error_window (r : own_windows) (v : Z) : own_windows :=
  mkWindows (g_error_class r) v (g_mouse_capture r) (g_session_class r) (g_lock_window r) (g_logon_window r).
Definition set_mouse_capture (r : own_windows) (v : Z) : own_windows :=
  mkWindows (g_error_class r) (g_error_window r) v (g_session_class r) (g_lock_window r) (g_logon_window r).
Definition set_session_class (r : own_windows) (v : Z) : own_windows :=
  mkWindows (g_error_class r) (g_error_window r) (g_mouse_capture r) v (g_lock_window r) (g_logon_window r).
Definition set_lock_window (r : own_windows) (v : Z) : own_windows :=
  mkWindows (g_error_class r) (g_error_window r) (g_mouse_capture r) (g_session_class r) v (g_logon_window r).
Definition set_logon_window (r : own_windows) (v : Z) : own_windows :=
  mkWindows (g_error_class r) (g_error_window r) (g_mouse_capture r) (g_session_class r) (g_lock_window r) v.
Definition set_session_state (r : session) (v : CSRSS_SESSION_STATE) : session :=
  mkSession v (g_logon_field r) (g_shell_started r) (g_logon_user r) (g_logon_password r) (g_winlogon_thread r) (g_gina_context r).
Definition set_logon_field (r : session) (v : Z) : session :=
  mkSession (g_session_state r) v (g_shell_started r) (g_logon_user r) (g_logon_password r) (g_winlogon_thread r) (g_gina_context r).
Definition set_shell_started (r : session) (v : bool) : session :=
  mkSession (g_session_state r) (g_logon_field r) v (g_logon_user r) (g_logon_password r) (g_winlogon_thread r) (g_gina_context r).
Definition set_logon_user (r : session) (v : list Z) : session :=
  mkSession (g_session_state r) (g_logon_field r) (g_shell_started r) v (g_logon_password r) (g_winlogon_thread r) (g_gina_context r).
Definition set_logon_password (r : session) (v : list Z) : session :=
  mkSession (g_session_state r) (g_logon_field r) (g_shell_started r) (g_logon_user r) v (g_winlogon_thread r) (g_gina_context r).
Definition set_winlogon_thread (r : session) (v : Z) : session :=
  mkSession (g_session_state r) (g_logon_field r) (g_shell_started r) (g_logon_user r) (g_logon_password r) v (g_gina_context r).
Definition set_gina_context (r : session) (v : Z) : session :=
  mkSession (g_session_state r) (g_logon_field r) (g_shell_started r) (g_logon_user r) (g_logon_password r) (g_winlogon_thread r) v.
Definition set_pending_error (r : pending_work) (v : option (list Z * list Z)) : pending_work :=
  mkPending (g_error_app r) (g_error_text r) v (g_pending_launch r).
Definition set_pending_launch (r : pending_work) (v : option (list Z * list Z)) : pending_work :=
  mkPending (g_error_app r) (g_error_text r) (g_pending_error r) v.

(** csrss's window procedures. *)
Inductive wndproc := ErrorProc | LockProc | LogonProc.

(** ** What csrss needs of the rest *)
Class World (S : Type) := {
  (** The window manager; destroying a window tells which of csrss's procedures
      were sent [WM_DESTROY]. *)
  Win32kRegisterClass : list Z -> wndproc -> S -> Z * S;
  Win32kCreateWindowByClass : Z -> list Z -> Z -> Z -> Z -> Z -> Z -> S -> Z * S;
  destroy_window : Z -> S -> list wndproc * S;
  Win32kActivateWindow : Z -> S -> S;
  Win32kShowWindow : Z -> S -> S;
  Win32kUpdateWindow : Z -> S -> S;
  Win32kRedrawAll : S -> S;
  Win32kRefreshCursor : S -> S;
  Win32kGetActiveWindow : S -> Z;
  Win32kHandleMouseMove : Z -> Z -> S -> S;
  Win32kHandleMouseDown : Z -> Z -> S -> S;
  Win32kHandleMouseUp : Z -> Z -> S -> S;
  Win32kIsDragging : S -> bool;
  Win32kIsResizing : S -> bool;
  (** Objects: a referenced window or thread, if the handle has one. *)
  reference_window : Z -> S -> option W32k.WINDOW * S;
  put_window : Z -> W32k.WINDOW -> S -> S;
  reference_thread : Z -> S -> option Ke.THREAD_STATE * S;
  ObDereferenceObject : Z -> S -> S;
  (** Threads: the routine is csrss's for programs ([true]) or for the logon. *)
  KeCreateThread : bool -> Z -> S -> Z * S;
  KeCreateProcess : list Z -> S -> Z * S;
  (** Files, images, the heap. *)
  CdfsReadFile : list Z -> S -> option (list Z) * S;
  PeLoadImage : list Z -> S -> Z * S;
  PeFreeImage : Z -> S -> S;
  PeSetImagePath : Z -> list Z -> S -> S;
  PeResolveImports : Z -> S -> bool * S;
  PeIsELFImage : Z -> S -> bool;
  PePerformRelocations : Z -> S -> S;
  PeGetLastError : S -> option (list Z);
  PeGetProcAddress : Z -> list Z -> S -> Z * S;
  PeGetEntryPoint : Z -> S -> Z;
  PeLoadDll : list Z -> S -> Z * S;
  kmalloc : Z -> S -> Z * S;
  kfree : Z -> S -> S;
  (** Screen and input. *)
  Win32kInit : S -> S;
  MouseInit : S -> S;
  KeyboardInit : S -> S;
  FbGetWidth : S -> Z;
  FbGetHeight : S -> Z;
  FbSetResolution : Z -> Z -> Z -> S -> bool * S;
  UsbPoll : S -> S;
  InputReadControllerByte : S -> option (bool * Z) * S;
  MouseHandleByte : Z -> S -> S;
  MouseGetState : S -> Mouse.MOUSE_STATE;
  KeyboardHandleData : Z -> S -> S;
  KeyboardPollEvent : S -> option Keyboard.KEYBOARD_EVENT * S
}.

Record sys (S : Type) := mkSys { progs : programs; wins : own_windows; sess : session; pend : pending_work; libs : libraries; world : S }.
Arguments mkSys {S}. Arguments progs {S}. Arguments wins {S}. Arguments sess {S}. Arguments pend {S}. Arguments libs {S}. Arguments world {S}.

Definition se (S A : Type) : Type := sys S -> A * sys S.
#[global] Instance se_ret S : MRet (se S) := fun A x s => (x, s).
#[global] Instance se_bind S : MBind (se S) := fun A B k f s => let '(x, s) := f s in k x s.

(** ** Text *)
Definition upcase (c : Z) : Z := if (97 <=? c) && (c <=? 122) then c - 32 else c.
Definition uppercase_copy (src : list Z) (max_len : nat) : list Z := map upcase (take (max_len - 1) src).
Definition bounded_copy (src : list Z) (max_len : nat) : list Z := take (max_len - 1) src.

Definition is_space (c : Z) : bool := (c =? 32) || (c =? 9).
Fixpoint skip_spaces (s : list Z) : list Z := match s with c :: s' => if is_space c then skip_spaces s' else s | [] => [] end.

(** The characters before the end of the name, at most [n], and the rest. *)
Fixpoint take_name (n : nat) (quote : Z) (s : list Z) : list Z * list Z :=
  match n, s with
  | S n', c :: s' =>
      if (if quote =? 0 then is_space c else c =? quote) then ([], s)
      else let '(name, rest) := take_name n' quote s' in (c :: name, rest)
  | _, _ => ([], s)
  end.

(** The image's name and the arguments of a command line. *)
Definition split_command (path : list Z) : list Z * list Z :=
  let s := skip_spaces path in
  let '(quote, s) := match s with c :: s' => if (c =? 34) || (c =? 39) then (c, s') else (0, s) | [] => (0, s) end in
  let '(name, s) := take_name 255 quote s in
  let s := match s with c :: s' => if negb (quote =? 0) && (c =? quote) then s' else s | [] => s end in
  (name, skip_spaces s).

Definition csrss_translate_key_wparam (e : Keyboard.KEYBOARD_EVENT) : Z :=
  match Keyboard.scancode e with
  | 14 => 8 | 15 => 9 | 28 => 13 | 1 => 27 | 57 => 32
  | _ => u8 (Keyboard.ascii e)
  end.

Definition app_left (w : W32k.WINDOW) : Z := W32k.wx (W32k.place w) + (if W32k.has (W32k.style w) W32k.WS_CAPTION then 3 else 2).
Definition app_top (w : W32k.WINDOW) : Z := W32k.wy (W32k.place w) + (if W32k.has (W32k.style w) W32k.WS_CAPTION then 21 else 2).
Definition make_lparam (l h : Z) : Z := Z.lor (u16 l) (Z.shiftl (u16 h) 16).

Section csrss.
Context {S : Type} `{World S} (a : arch).
(** Code at an address; a program's entry of some kind, or the entry point of its
    image ([None]), with image, path and command line; the other threads. *)
Context (invoke : Z -> list Z -> se S Z).
Context (run_program : option GUI_APP_KIND -> Z -> Z -> list Z -> list Z -> se S Z).
Context (KeYield : se S unit).

Definition query {A} (f : sys S -> A) : se S A := fun s => (f s, s).
Definition on_world {A} (f : S -> A * S) : se S A := fun s =>
  let '(x, w) := f (world s) in (x, mkSys (progs s) (wins s) (sess s) (pend s) (libs s) w).
Definition act (f : S -> S) : se S unit := on_world (fun w => (tt, f w)).
Definition set_progs (f : programs -> programs) : se S unit := fun s => (tt, mkSys (f (progs s)) (wins s) (sess s) (pend s) (libs s) (world s)).
Definition set_wins (f : own_windows -> own_windows) : se S unit := fun s => (tt, mkSys (progs s) (f (wins s)) (sess s) (pend s) (libs s) (world s)).
Definition set_sess (f : session -> session) : se S unit := fun s => (tt, mkSys (progs s) (wins s) (f (sess s)) (pend s) (libs s) (world s)).
Definition set_pend (f : pending_work -> pending_work) : se S unit := fun s => (tt, mkSys (progs s) (wins s) (sess s) (f (pend s)) (libs s) (world s)).
Definition set_libs (l : libraries) : se S unit := fun s => (tt, mkSys (progs s) (wins s) (sess s) (pend s) l (world s)).

Definition app_at (i : Z) : se S GUI_APP_INSTANCE := query (fun s => get no_app (g_gui_apps (progs s)) i).
Definition put_app (i : Z) (a : GUI_APP_INSTANCE) : se S unit := set_progs (fun p => set_apps p (put (g_gui_apps p) i a)).
Definition upd_app (i : Z) (f : GUI_APP_INSTANCE -> GUI_APP_INSTANCE) : se S unit := a ← app_at i; put_app i (f a).
Definition as_program (p : Z) {A} (f : se S A) : se S A :=
  set_progs (fun t => set_current t p);; x ← f; set_progs (fun t => set_current t 0);; mret x.

(** What csrss's own procedures do at [WM_DESTROY]. *)
Definition on_destroy (p : wndproc) : se S unit :=
  set_wins (fun w => match p with ErrorProc => set_error_window w INVALID_HANDLE | LockProc => set_lock_window w INVALID_HANDLE | LogonProc => set_logon_window w INVALID_HANDLE end).
Definition close_window (h : Z) : se S unit := l ← on_world (destroy_window h); foldr (fun p k => on_destroy p;; k) (mret tt) l.

Definition csrss_find_app_by_window (hwnd : Z) (p : programs) : option Z :=
  first_from (Z.to_nat (g_gui_app_count p)) 0 (fun i => window (get no_app (g_gui_apps p) i) =? hwnd).

(** ** Messages *)
Definition csrss_post_standard_message (hwnd msg wParam lParam : Z) : se S unit :=
  post ← query (g_user32_post_message ∘ libs);
  if (post =? 0) || (hwnd =? INVALID_HANDLE) then mret tt else invoke post [hwnd; msg; wParam; lParam];; mret tt.

Definition csrss_inject_logon_mouse (hwnd msg wParam lParam : Z) : se S unit :=
  f ← query (g_user32_inject_mouse ∘ libs);
  if f =? 0 then csrss_post_standard_message hwnd msg wParam lParam else invoke f [hwnd; msg; wParam; lParam];; mret tt.

Definition csrss_post_logon_mouse (msg wParam x y : Z) : se S bool :=
  st ← query (g_session_state ∘ sess); l ← query libs;
  if negb (bool_decide (st = CSRSS_SESSION_BOOTING)) || (g_user32_post_message l =? 0) then mret false else
  hwnd ← (if g_user32_find_top_level_window l =? 0 then query (Win32kGetActiveWindow ∘ world) else invoke (g_user32_find_top_level_window l) [1]);
  if hwnd =? INVALID_HANDLE then mret false else
  win ← on_world (reference_window hwnd);
  match win with
  | None => mret false
  | Some w =>
      if W32k.minimized (W32k.show w) then act (ObDereferenceObject hwnd);; mret false else
      csrss_inject_logon_mouse hwnd msg wParam (make_lparam (x - app_left w) (y - app_top w));;
      act (ObDereferenceObject hwnd);; mret true
  end.

(** ** csrss's own windows *)
Definition show_own (h : Z) : se S unit := act (Win32kActivateWindow h);; act (Win32kShowWindow h);; act Win32kRedrawAll.

Definition csrss_show_launch_error (path detail : option (list Z)) : se S unit :=
  c ← query (g_error_class ∘ wins);
  (if c =? INVALID_HANDLE then c ← on_world (Win32kRegisterClass (cstr "LoaderErrorDialog") ErrorProc); set_wins (fun w => set_error_class w c) else mret tt);;
  c ← query (g_error_class ∘ wins);
  if c =? INVALID_HANDLE then mret tt else
  let app := match path with Some p => take 95 p | None => cstr "Application Error" end in
  let text := match detail with Some d => take 255 d | None => cstr "The application could not be started." end in
  set_pend (fun p => mkPending app text (g_pending_error p) (g_pending_launch p));;
  old ← query (g_error_window ∘ wins);
  (if old =? INVALID_HANDLE then mret tt else close_window old;; set_wins (fun w => set_error_window w INVALID_HANDLE));;
  h ← on_world (Win32kCreateWindowByClass c (cstr "Application Error") 120 120 520 120 (Z.lor (Z.lor W32k.WS_VISIBLE W32k.WS_CAPTION) W32k.WS_SYSMENU));
  set_wins (fun w => set_error_window w h);;
  if h =? INVALID_HANDLE then mret tt else show_own h.

Definition csrss_show_logon_screen : se S unit :=
  w ← query wins;
  if negb (g_logon_window w =? INVALID_HANDLE) then mret tt else
  c ← on_world (Win32kRegisterClass (cstr "CsrssLogonScreen") LogonProc);
  set_wins (fun w => set_session_class w c);;
  if c =? INVALID_HANDLE then mret tt else
  h ← on_world (Win32kCreateWindowByClass c (cstr "Windows Logon") 220 160 360 220 (Z.lor (Z.lor W32k.WS_VISIBLE W32k.WS_CAPTION) W32k.WS_SYSMENU));
  set_wins (fun w => set_logon_window w h);;
  if h =? INVALID_HANDLE then mret tt else show_own h.

Definition csrss_show_lock_screen : se S unit :=
  w ← query wins;
  if negb (g_lock_window w =? INVALID_HANDLE) then mret tt else
  (if g_session_class w =? INVALID_HANDLE then c ← on_world (Win32kRegisterClass (cstr "CsrssLockScreen") LockProc); set_wins (fun w => set_session_class w c) else mret tt);;
  c ← query (g_session_class ∘ wins);
  if c =? INVALID_HANDLE then mret tt else
  fw ← query (FbGetWidth ∘ world); fh ← query (FbGetHeight ∘ world);
  h ← on_world (Win32kCreateWindowByClass c (cstr "Windows Security") 0 0 fw fh W32k.WS_VISIBLE);
  set_wins (fun w => set_lock_window w h);;
  if h =? INVALID_HANDLE then mret tt else show_own h.

Definition csrss_hide_lock_screen : se S unit :=
  h ← query (g_lock_window ∘ wins);
  (if h =? INVALID_HANDLE then mret tt else close_window h;; set_wins (fun w => set_lock_window w INVALID_HANDLE));;
  n ← query (g_gui_app_count ∘ progs); a ← app_at 0;
  (if (0 <? n) && negb (window a =? INVALID_HANDLE) then act (Win32kActivateWindow (window a)) else mret tt);;
  act Win32kRedrawAll.

(** ** The session *)
Definition csrss_complete_logon : se S unit :=
  st ← query (g_session_state ∘ sess);
  if negb (bool_decide (st = CSRSS_SESSION_BOOTING)) then mret tt else
  set_sess (fun s => set_session_state s CSRSS_SESSION_LOGGED_ON);;
  h ← query (g_logon_window ∘ wins);
  (if h =? INVALID_HANDLE then mret tt else close_window h;; set_wins (fun w => set_logon_window w INVALID_HANDLE));;
  act Win32kRedrawAll.

Definition csrss_handle_logon_key (e : Keyboard.KEYBOARD_EVENT) : se S unit :=
  if Keyboard.pressed e =? 0 then mret tt else
  if Keyboard.scancode e =? 15 then set_sess (fun s => set_logon_field s (if g_logon_field s =? 0 then 1 else 0));; act Win32kRedrawAll else
  if Keyboard.scancode e =? 28 then csrss_complete_logon else
  set_sess (fun s =>
    let field := if g_logon_field s =? 0 then g_logon_user s else g_logon_password s in
    let field := if Keyboard.scancode e =? 14 then take (length field - 1) field
                 else if (32 <=? Keyboard.ascii e) && (Keyboard.ascii e <? 127) && (Z.of_nat (length field) <? 31) then field ++ [Keyboard.ascii e] else field in
    if g_logon_field s =? 0 then set_logon_user s field else set_logon_password s field);;
  act Win32kRedrawAll.

Definition csrss_session_lock : se S unit :=
  st ← query (g_session_state ∘ sess);
  if negb (bool_decide (st = CSRSS_SESSION_LOGGED_ON)) then mret tt else
  set_sess (fun s => set_session_state s CSRSS_SESSION_LOCKED);;
  s ← query sess; l ← query libs;
  (if g_wlx_logged_on_sas l =? 0 then mret 0 else invoke (g_wlx_logged_on_sas l) [g_gina_context s; 1; 0]);;
  s ← query sess; l ← query libs;
  (if g_wlx_display_sas_notice l =? 0 then mret 0 else invoke (g_wlx_display_sas_notice l) [g_gina_context s]);;
  csrss_show_lock_screen.

Definition csrss_session_unlock : se S unit :=
  st ← query (g_session_state ∘ sess);
  if negb (bool_decide (st = CSRSS_SESSION_LOCKED)) then mret tt else
  set_sess (fun s => set_session_state s CSRSS_SESSION_LOGGED_ON);; csrss_hide_lock_screen.

Definition csrss_handle_secure_attention : se S unit :=
  st ← query (g_session_state ∘ sess);
  match st with
  | CSRSS_SESSION_LOGGED_ON => csrss_session_lock
  | CSRSS_SESSION_LOCKED => csrss_session_unlock
  | _ => mret tt
  end.

Definition csrss_winlogon_sas_thread : se S unit :=
  l ← query libs; g ← query (g_gina_context ∘ sess);
  r ← invoke (g_wlx_logged_out_sas l) [g; 1];
  (if r =? 1 then csrss_complete_logon else mret tt);;
  set_sess (fun s => set_winlogon_thread s INVALID_HANDLE).

(** The entries of msgina. *)
Definition find_gina (gina : Z) : se S unit :=
  let at_ name := on_world (PeGetProcAddress gina name) in
  a ← at_ (cstr "WlxNegotiate"); b ← at_ (cstr "WlxInitialize"); c ← at_ (cstr "WlxLoggedOnSAS"); d ← at_ (cstr "WlxLoggedOutSAS");
  e ← at_ (cstr "WlxLogoff"); f ← at_ (cstr "WlxShutdown"); g ← at_ (cstr "WlxDisplaySASNotice");
  l ← query libs;
  set_libs (mkLibs (g_user32_post_message l) (g_user32_find_top_level_window l) (g_user32_inject_keyboard l) (g_user32_inject_mouse l) (g_user32_set_process_id l)
    (g_kernel32_set_process_image_base l) (g_kernel32_set_console_sink l) a b c d e f g).

Definition csrss_initialize_winlogon_session : se S unit :=
  gina ← on_world (PeLoadDll (cstr "MSGINA.DLL"));
  set_sess (fun s => set_gina_context (set_session_state s CSRSS_SESSION_BOOTING) 0);;
  (if gina =? 0 then mret tt else
   find_gina gina;;
   l ← query libs;
   negotiated ← (if g_wlx_negotiate l =? 0 then mret 0 else invoke (g_wlx_negotiate l) [65539]);
   if negb (negotiated =? 0) && negb (g_wlx_initialize l =? 0) then invoke (g_wlx_initialize l) [0; gina; 0];; mret tt else mret tt);;
  set_sess (fun s => mkSession CSRSS_SESSION_BOOTING 0 (g_shell_started s) [] [] (g_winlogon_thread s) (g_gina_context s));;
  l ← query libs;
  if g_wlx_logged_out_sas l =? 0 then csrss_show_logon_screen else
  t ← on_world (KeCreateThread false 0);
  set_sess (fun s => set_winlogon_thread s t);;
  if t =? INVALID_HANDLE then csrss_show_logon_screen else mret tt.

Definition csrss_queue_launch_error (path detail : option (list Z)) : se S unit :=
  let app := match path with Some p => take 95 p | None => cstr "Application Error" end in
  let text := match detail with Some d => take 255 d | None => cstr "The application could not be started." end in
  set_pend (fun p => set_pending_error p (Some (app, text))).

(** ** Programs *)
(** [sizeof(GUI_APP_THREAD_CTX)]: two pointers, an [enum], 256 bytes, 256 words of two
    bytes and 256 of four. *)
Definition sizeof_GUI_APP_THREAD_CTX : Z := match a with X86 => 1804 | AMD64 | LA64 => 1816 end.

(** The thread of a program; [arg] is the address of its context. *)
Definition csrss_gui_thread_main (arg : Z) : se S unit :=
  c ← query (fun s => thread_contexts (progs s) !! arg);
  match c with
  | None => mret tt
  | Some c =>
      if ctx_entry c =? 0 then act (kfree arg) else
      stack ← on_world (kmalloc 65536);
      if stack =? 0 then upd_app (ctx_app c) (fun a => with_exit a true (-1));; act (kfree arg) else
      a ← app_at (ctx_app c); l ← query libs;
      set_progs (fun t => set_current t (pid a));;
      (if g_user32_set_process_id l =? 0 then mret 0 else invoke (g_user32_set_process_id l) [pid a]);;
      a ← app_at (ctx_app c); l ← query libs;
      (if g_kernel32_set_process_image_base l =? 0 then mret 0 else invoke (g_kernel32_set_process_image_base l) [image a]);;
      a ← app_at (ctx_app c);
      ret ← run_program (Some (ctx_kind c)) (ctx_entry c) (image a) (app_path a) (ctx_command_line c);
      set_progs (fun t => set_current t 0);;
      l ← query libs;
      (if g_user32_set_process_id l =? 0 then mret 0 else invoke (g_user32_set_process_id l) [1]);;
      act (kfree stack);;
      upd_app (ctx_app c) (fun a => with_exit a true ret);;
      act (kfree arg)
  end.

(** Running an image to its end, in the thread of csrss. *)
Definition csrss_execute_image_sync (path command : list Z) (file : list Z) : se S Z :=
  image ← on_world (PeLoadImage file);
  if image =? 0 then
    e ← query (PeGetLastError ∘ world);
    csrss_queue_launch_error (Some path) (Some (default (cstr "The application image could not be mapped.") e));; mret (-3)
  else
  ok ← on_world (PeResolveImports image);
  if negb ok then
    e ← query (PeGetLastError ∘ world); csrss_queue_launch_error (Some path) e;; act (PeFreeImage image);; mret (-5)
  else
  elf ← query (PeIsELFImage image ∘ world);
  (if elf : bool then mret tt else act (PePerformRelocations image));;
  stack ← on_world (kmalloc 65536);
  func ← query (PeGetEntryPoint image ∘ world);
  wmain ← on_world (PeGetProcAddress image (cstr "wmain"));
  main_fn ← on_world (PeGetProcAddress image (cstr "main"));
  if (func =? 0) || (stack =? 0) then
    (if stack =? 0 then mret tt else act (kfree stack));;
    csrss_queue_launch_error (Some path) (Some (cstr "The application entry point could not be started."));;
    act (PeFreeImage image);; mret (-4)
  else
  ret ← (if negb (wmain =? 0) then run_program (Some GUI_APP_KIND_WMAIN) wmain image path (take 255 command)
         else if negb (main_fn =? 0) then run_program (Some GUI_APP_KIND_MAIN) main_fn image path command
         else run_program None func image [] []);
  act (kfree stack);; act (PeFreeImage image);; mret ret.

(** A standard program: a context and a thread for its entry. *)
Definition start_standard (i : Z) (k : GUI_APP_KIND) (entry : Z) : se S bool :=
  a ← app_at i;
  c ← on_world (kmalloc sizeof_GUI_APP_THREAD_CTX);
  if c =? 0 then act (PeFreeImage (image a));; upd_app i (fun a => with_image a 0);; mret false else
  set_progs (fun t => set_contexts t (<[c := mkCtx i entry k (bounded_copy (command_line a) 256)]> (thread_contexts t)));;
  upd_app i (fun a => with_kind a k);;
  t ← on_world (KeCreateThread true c);
  upd_app i (fun a => with_thread a t);;
  if t =? INVALID_HANDLE then act (kfree c);; act (PeFreeImage (image a));; upd_app i (fun a => with_image a 0);; mret false else mret true.

(** A program written for csrss: its own entries, called from csrss's thread. *)
Definition start_custom (i init_fn create_window_fn : Z) : se S bool :=
  a ← app_at i;
  set_progs (fun t => set_current t (pid a));;
  ok ← invoke init_fn [];
  if ok =? 0 then set_progs (fun t => set_current t 0);; a ← app_at i; act (PeFreeImage (image a));; upd_app i (fun a => with_image a 0);; mret false else
  a ← app_at i; l ← query libs;
  (if g_kernel32_set_console_sink l =? 0 then mret 0 else
   sink ← on_world (PeGetProcAddress (image a) (cstr "CmdAppWriteConsole"));
   if sink =? 0 then mret 0 else invoke (g_kernel32_set_console_sink l) [sink]);;
  a ← app_at i; invoke (reset_exit a) [];;
  a ← app_at i; set_progs (fun t => set_current t (pid a));;
  h ← invoke create_window_fn [];
  upd_app i (fun a => with_window a h);;
  set_progs (fun t => set_current t 0);;
  if h =? INVALID_HANDLE then a ← app_at i; act (PeFreeImage (image a));; upd_app i (fun a => with_image a 0);; mret false else mret true.

(** The image of a program, mapped, linked and relocated. *)
Definition map_program (path : list Z) (i : Z) : se S bool :=
  f ← on_world (CdfsReadFile path);
  match f with
  | None => mret false
  | Some file =>
      im ← on_world (PeLoadImage file);
      upd_app i (fun a => with_image a im);;
      if im =? 0 then csrss_show_launch_error (Some path) (Some (cstr "The application image could not be mapped."));; mret false else
      act (PeSetImagePath im path);;
      ok ← on_world (PeResolveImports im);
      if negb ok then
        e ← query (PeGetLastError ∘ world); csrss_show_launch_error (Some path) e;; act (PeFreeImage im);; upd_app i (fun a => with_image a 0);; mret false
      else
      elf ← query (PeIsELFImage im ∘ world);
      (if elf : bool then mret tt else act (PePerformRelocations im));; mret true
  end.

Definition csrss_load_gui_instance (path : list Z) (i : Z) : se S bool :=
  if bool_decide (path = []) then mret false else
  ok ← map_program path i;
  if negb ok then mret false else
  a ← app_at i;
  let at_ name := on_world (PeGetProcAddress (image a) name) in
  init_fn ← at_ (cstr "CmdAppInit"); create_window_fn ← at_ (cstr "CmdAppCreateMainWindow");
  k ← at_ (cstr "CmdAppHandleKey"); m ← at_ (cstr "CmdAppHandleMouse"); x ← at_ (cstr "CmdAppShouldExit"); r ← at_ (cstr "CmdAppResetExit");
  upd_app i (fun a => with_handlers a k m x r);;
  winmain ← at_ (cstr "WinMain"); wwinmain ← at_ (cstr "wWinMain"); wmain ← at_ (cstr "wmain"); main_fn ← at_ (cstr "main");
  if (init_fn =? 0) || (create_window_fn =? 0) || (k =? 0) || (x =? 0) || (r =? 0) then
    if negb (winmain =? 0) then start_standard i GUI_APP_KIND_WINMAIN winmain
    else if negb (wwinmain =? 0) then start_standard i GUI_APP_KIND_WWINMAIN wwinmain
    else if negb (wmain =? 0) then start_standard i GUI_APP_KIND_WMAIN wmain
    else if negb (main_fn =? 0) then start_standard i GUI_APP_KIND_MAIN main_fn
    else
      csrss_show_launch_error (Some path) (Some (cstr "The application is not a valid Win32 program."));;
      act (PeFreeImage (image a));; upd_app i (fun a => with_image a 0);; mret false
  else start_custom i init_fn create_window_fn.

(** A standard program's window, once user32 has one. *)
Fixpoint bind_window (tries : nat) (i : Z) : se S unit :=
  match tries with
  | O => mret tt
  | Datatypes.S n =>
      a ← app_at i;
      if negb (window a =? INVALID_HANDLE) then mret tt else
      f ← query (g_user32_find_top_level_window ∘ libs);
      if f =? 0 then KeYield;; bind_window n i else
      h ← invoke f [pid a];
      if negb (h =? INVALID_HANDLE) && negb (h =? 0) then upd_app i (fun a => with_window a h)
      else upd_app i (fun a => with_window a INVALID_HANDLE);; KeYield;; bind_window n i
  end.

(** Moved back onto a screen of [sw] by [sh]. *)
Definition fit_place (sw sh : Z) (p : W32k.PLACE) : W32k.PLACE :=
  let x := if sw <? W32k.wx p + W32k.ww p then sw - W32k.ww p else W32k.wx p in
  let y := if sh <? W32k.wy p + W32k.wh p then sh - W32k.wh p else W32k.wy p in
  W32k.mkPlace (if x <? 0 then 0 else x) (if y <? 0 then 0 else y) (W32k.ww p) (W32k.wh p).

Definition screen_or_default : se S (Z * Z) :=
  w ← query (FbGetWidth ∘ world); h ← query (FbGetHeight ∘ world);
  mret (if w <=? 0 then 640 else w, if h <=? 0 then 480 else h).

(** New windows of csrss's programs are staggered. *)
Definition cascade_window (i : Z) : se S unit :=
  a ← app_at i;
  win ← on_world (reference_window (window a));
  match win with
  | None => mret tt
  | Some w =>
      n ← query (g_gui_app_count ∘ progs);
      '(sw, sh) ← screen_or_default;
      let p := W32k.place w in
      act (put_window (window a) (W32k.with_place w (fit_place sw sh (W32k.mkPlace (W32k.wx p + n * 24) (W32k.wy p + n * 24) (W32k.ww p) (W32k.wh p)))));;
      act (ObDereferenceObject (window a))
  end.

Definition csrss_spawn_gui_instance (path command : list Z) : se S Z :=
  p ← query progs;
  if MAX_GUI_APPS <=? g_gui_app_count p then mret (-5) else
  let i := g_gui_app_count p in
  put_app i (mkApp (g_next_gui_pid p) path (bounded_copy command 256) 0 INVALID_HANDLE INVALID_HANDLE GUI_APP_KIND_CUSTOM false 0 0 0 0 0);;
  set_progs (fun t => set_next_pid t (u32 (g_next_gui_pid t + 1)));;
  ok ← csrss_load_gui_instance path i;
  if negb ok then mret (-1) else
  a ← app_at i;
  (if bool_decide (kind a = GUI_APP_KIND_CUSTOM) then mret tt else bind_window 32 i);;
  a ← app_at i;
  (if window a =? INVALID_HANDLE then mret tt else
   (if bool_decide (kind a = GUI_APP_KIND_CUSTOM) then cascade_window i else mret tt);;
   act (Win32kActivateWindow (window a));; act (Win32kShowWindow (window a)));;
  set_progs (fun t => set_count t (g_gui_app_count t + 1));;
  act Win32kRedrawAll;; mret 0.

(** What cannot be started as a program with windows is started at the next turn. *)
Definition csrss_execute_image (path : list Z) : se S Z :=
  if bool_decide (path = []) then mret (-1) else
  let '(name, args) := split_command path in
  let upper_path := uppercase_copy name 256 in
  r ← csrss_spawn_gui_instance upper_path args;
  if r =? 0 then mret 0 else
  set_pend (fun p => set_pending_launch p (Some (upper_path, bounded_copy args 256)));; mret 0.

(** ** Screen modes *)
Definition fit_program (dflt : bool) (i : Z) : se S unit :=
  a ← app_at i;
  win ← on_world (reference_window (window a));
  match win with
  | None => mret tt
  | Some w =>
      '(sw, sh) ← (if dflt then screen_or_default else w ← query (FbGetWidth ∘ world); h ← query (FbGetHeight ∘ world); mret (w, h));
      let p := if W32k.maximized (W32k.show w) then W32k.mkPlace 0 0 sw sh else fit_place sw sh (W32k.place w) in
      act (put_window (window a) (W32k.with_place w p));; act (ObDereferenceObject (window a))
  end.

Fixpoint fit_programs (n : nat) (i : Z) (dflt : bool) : se S unit :=
  match n with
  | O => mret tt
  | Datatypes.S n => c ← query (g_gui_app_count ∘ progs); if c <=? i then mret tt else fit_program dflt i;; fit_programs n (i + 1) dflt
  end.

Definition csrss_set_screen_resolution (width height : Z) : se S bool :=
  ok ← on_world (FbSetResolution width height 32);
  if negb ok then mret false else fit_programs 8 0 true;; act Win32kRedrawAll;; mret true.

Definition csrss_set_screen_mode (width height bpp : Z) : se S bool :=
  ok ← on_world (FbSetResolution width height bpp);
  if negb ok then mret false else fit_programs 8 0 false;; act Win32kRedrawAll;; mret true.

(** ** Input *)
Record turn := mkTurn { last_x : Z; last_y : Z; last_buttons : Z; last_wheel : Z; running : bool }.

Definition capture_or_active : se S Z :=
  c ← query (g_mouse_capture ∘ wins); if c =? INVALID_HANDLE then query (Win32kGetActiveWindow ∘ world) else mret c.

Definition GUI_MOUSE_MOVE : Z := 1.
Definition GUI_MOUSE_LDOWN : Z := 2.
Definition GUI_MOUSE_LUP : Z := 3.
Definition GUI_MOUSE_WHEEL : Z := 4.

(** The program [a] is called with a point of its client area. *)
Definition call_mouse (a : GUI_APP_INSTANCE) (w : W32k.WINDOW) (m : Mouse.MOUSE_STATE) (value event : Z) : se S unit :=
  as_program (pid a) (invoke (handle_mouse a) [Mouse.x m - app_left w; Mouse.y m - app_top w; value; event]);; mret tt.
Definition takes_mouse (a : GUI_APP_INSTANCE) : bool := bool_decide (kind a = GUI_APP_KIND_CUSTOM) && negb (handle_mouse a =? 0).

Definition on_mouse_move (m : Mouse.MOUSE_STATE) : se S unit :=
  act (Win32kHandleMouseMove (Mouse.x m) (Mouse.y m));;
  hwnd ← capture_or_active;
  p ← query progs;
  let app := csrss_find_app_by_window hwnd p in
  let a := get no_app (g_gui_apps p) (default 0 app) in
  st ← query (g_session_state ∘ sess);
  (if bool_decide (app <> None) && takes_mouse a then
     win ← on_world (reference_window hwnd);
     match win with
     | None => mret tt
     | Some w =>
         (if W32k.minimized (W32k.show w) then mret tt else call_mouse a w m (Mouse.buttons m) GUI_MOUSE_MOVE);;
         act (ObDereferenceObject hwnd)
     end
   else if bool_decide (st = CSRSS_SESSION_BOOTING) then
     csrss_post_logon_mouse 512 (if Z.land (Mouse.buttons m) 1 =? 0 then 0 else 1) (Mouse.x m) (Mouse.y m);; mret tt
   else mret tt);;
  d ← query (Win32kIsDragging ∘ world); r ← query (Win32kIsResizing ∘ world);
  if negb d && negb r then act Win32kRefreshCursor else mret tt.

Definition on_wheel (m : Mouse.MOUSE_STATE) : se S unit :=
  hwnd ← capture_or_active;
  p ← query progs;
  let app := csrss_find_app_by_window hwnd p in
  let a := get no_app (g_gui_apps p) (default 0 app) in
  win ← on_world (reference_window hwnd);
  (match win with
   | Some w => if bool_decide (app <> None) && negb (W32k.minimized (W32k.show w)) && takes_mouse a
               then call_mouse a w m (u8 (Mouse.wheel_delta m)) GUI_MOUSE_WHEEL else mret tt
   | None => mret tt
   end);;
  st ← query (g_session_state ∘ sess);
  (if bool_decide (app = None) && bool_decide (st = CSRSS_SESSION_BOOTING)
   then csrss_post_logon_mouse 522 (u32 (Mouse.wheel_delta m)) (Mouse.x m) (Mouse.y m);; mret tt else mret tt);;
  match win with Some _ => act (ObDereferenceObject hwnd) | None => mret tt end.

Definition in_client_area (w : W32k.WINDOW) (m : Mouse.MOUSE_STATE) : bool :=
  (app_left w <=? Mouse.x m) && (Mouse.x m <? W32k.wx (W32k.place w) + W32k.ww (W32k.place w) - 3) &&
  (app_top w <=? Mouse.y m) && (Mouse.y m <? W32k.wy (W32k.place w) + W32k.wh (W32k.place w) - 3).

Definition post_to_logon (hwnd msg wParam : Z) (m : Mouse.MOUSE_STATE) : se S unit :=
  st ← query (g_session_state ∘ sess); p ← query progs;
  if bool_decide (st = CSRSS_SESSION_BOOTING) && bool_decide (csrss_find_app_by_window hwnd p = None)
  then csrss_post_logon_mouse msg wParam (Mouse.x m) (Mouse.y m);; mret tt else mret tt.

Definition on_left_down (m : Mouse.MOUSE_STATE) : se S unit :=
  act (Win32kHandleMouseDown (Mouse.x m) (Mouse.y m));;
  st ← query (g_session_state ∘ sess); f ← query (g_user32_find_top_level_window ∘ libs);
  hwnd ← (if bool_decide (st = CSRSS_SESSION_BOOTING) && negb (f =? 0) then invoke f [1] else query (Win32kGetActiveWindow ∘ world));
  p ← query progs;
  (match csrss_find_app_by_window hwnd p with
   | None => mret tt
   | Some i =>
       let a := get no_app (g_gui_apps p) i in
       win ← on_world (reference_window hwnd);
       match win with
       | None => mret tt
       | Some w =>
           c ← query (g_mouse_capture ∘ wins);
           (if negb (W32k.minimized (W32k.show w)) && ((c =? hwnd) || in_client_area w m) && takes_mouse a
            then call_mouse a w m (Mouse.buttons m) GUI_MOUSE_LDOWN;; set_wins (fun w => set_mouse_capture w hwnd) else mret tt);;
           act (ObDereferenceObject hwnd)
       end
   end);;
  post_to_logon hwnd 513 1 m.

Definition on_left_up (m : Mouse.MOUSE_STATE) : se S unit :=
  act (Win32kHandleMouseUp (Mouse.x m) (Mouse.y m));;
  hwnd ← capture_or_active;
  p ← query progs;
  (match csrss_find_app_by_window hwnd p with
   | None => mret tt
   | Some i =>
       let a := get no_app (g_gui_apps p) i in
       win ← on_world (reference_window hwnd);
       match win with
       | None => mret tt
       | Some w =>
           (if negb (W32k.minimized (W32k.show w)) && in_client_area w m && takes_mouse a then call_mouse a w m (Mouse.buttons m) GUI_MOUSE_LUP else mret tt);;
           c ← query (g_mouse_capture ∘ wins);
           (if c =? hwnd then set_wins (fun w => set_mouse_capture w INVALID_HANDLE) else mret tt);;
           act (ObDereferenceObject hwnd)
       end
   end);;
  post_to_logon hwnd 514 0 m;;
  act Win32kRefreshCursor.

Definition mouse_byte (data : Z) (t : turn) : se S turn :=
  act (MouseHandleByte data);;
  m ← query (MouseGetState ∘ world);
  (if negb (Mouse.x m =? last_x t) || negb (Mouse.y m =? last_y t) then on_mouse_move m else mret tt);;
  (if negb (Mouse.wheel_delta m =? last_wheel t) then on_wheel m else mret tt);;
  (if negb (Z.land (Mouse.buttons m) 1 =? 0) && (Z.land (last_buttons t) 1 =? 0) then on_left_down m else mret tt);;
  (if (Z.land (Mouse.buttons m) 1 =? 0) && negb (Z.land (last_buttons t) 1 =? 0) then on_left_up m else mret tt);;
  mret (mkTurn (Mouse.x m) (Mouse.y m) (Mouse.buttons m) (Mouse.wheel_delta m) (running t)).

(** A key for the active window: to the program that owns it, or to user32. *)
Definition send_key (hwnd wparam : Z) (e : Keyboard.KEYBOARD_EVENT) : se S unit :=
  f ← query (g_user32_inject_keyboard ∘ libs);
  if f =? 0 then csrss_post_standard_message hwnd (if Keyboard.pressed e =? 0 then 257 else 256) wparam (Keyboard.scancode e)
  else invoke f [hwnd; wparam; Keyboard.pressed e];; mret tt.

Definition deliver_key (e : Keyboard.KEYBOARD_EVENT) : se S unit :=
  let wparam := csrss_translate_key_wparam e in
  hwnd ← query (Win32kGetActiveWindow ∘ world);
  p ← query progs;
  (match csrss_find_app_by_window hwnd p with
   | Some i =>
       let a := get no_app (g_gui_apps p) i in
       if bool_decide (kind a = GUI_APP_KIND_CUSTOM) then
         if handle_key a =? 0 then mret tt
         else as_program (pid a) (invoke (handle_key a) [Keyboard.scancode e; Keyboard.ascii e; Keyboard.pressed e]);; mret tt
       else if wparam =? 0 then mret tt else send_key hwnd wparam e
   | None => if negb (hwnd =? INVALID_HANDLE) && negb (wparam =? 0) then send_key hwnd wparam e else mret tt
   end);;
  if negb (Keyboard.pressed e =? 0) && negb (hwnd =? INVALID_HANDLE) then act (Win32kUpdateWindow hwnd);; act Win32kRefreshCursor else mret tt.

(** Ctrl+Alt+Del. *)
Definition is_secure_attention (e : Keyboard.KEYBOARD_EVENT) : bool :=
  negb (Keyboard.pressed e =? 0) && negb (Keyboard.extended e =? 0) && (Keyboard.scancode e =? 83) && negb (Keyboard.ctrl e =? 0) && negb (Keyboard.alt e =? 0).

Definition key_event (e : Keyboard.KEYBOARD_EVENT) (t : turn) : se S turn :=
  st ← query (g_session_state ∘ sess); logon ← query (g_logon_window ∘ wins);
  if bool_decide (st = CSRSS_SESSION_BOOTING) && negb (logon =? INVALID_HANDLE) then csrss_handle_logon_key e;; mret t else
  if is_secure_attention e then csrss_handle_secure_attention;; mret t else
  if bool_decide (st = CSRSS_SESSION_LOCKED) then mret t else
  deliver_key e;;
  mret (if negb (Keyboard.pressed e =? 0) && (Keyboard.scancode e =? 1) then mkTurn (last_x t) (last_y t) (last_buttons t) (last_wheel t) false else t).

(** The keyboard's queue holds 31 events. *)
Fixpoint key_events (fuel : nat) (t : turn) : se S turn :=
  match fuel with
  | O => mret t
  | Datatypes.S n =>
      e ← on_world KeyboardPollEvent;
      match e with None => mret t | Some e => t ← key_event e t; key_events n t end
  end.

(** The bytes that wait, [fuel] of them at most. *)
Fixpoint input_bytes (fuel : nat) (t : turn) : se S turn :=
  match fuel with
  | O => mret t
  | Datatypes.S n =>
      b ← on_world InputReadControllerByte;
      match b with
      | None => mret t
      | Some (true, data) => t ← mouse_byte data t; input_bytes n t
      | Some (false, data) => act (KeyboardHandleData data);; t ← key_events 32 t; input_bytes n t
      end
  end.

(** ** Programs that have ended *)

(** The window behind a handle is destroyed if it is still there. *)
Definition destroy_if_there (hwnd : Z) : se S unit :=
  w ← on_world (reference_window hwnd);
  match w with None => mret tt | Some _ => act (ObDereferenceObject hwnd);; close_window hwnd end.

(** Whether the program is to be removed. *)
Definition program_ended (a : GUI_APP_INSTANCE) : se S bool :=
  if bool_decide (kind a = GUI_APP_KIND_CUSTOM) then
    w ← on_world (reference_window (window a));
    match w with
    | None => mret true
    | Some _ =>
        act (ObDereferenceObject (window a));;
        if should_exit a =? 0 then mret false else
        x ← invoke (should_exit a) [];
        if x =? 0 then mret false else
        (if window a =? INVALID_HANDLE then mret tt else close_window (window a));; mret true
    end
  else
    t ← on_world (reference_thread (thread a));
    match t with
    | None => mret false
    | Some st =>
        (if bool_decide (st = Ke.THREAD_TERMINATED) && negb (window a =? INVALID_HANDLE) then destroy_if_there (window a) else mret tt);;
        act (ObDereferenceObject (thread a));; mret (bool_decide (st = Ke.THREAD_TERMINATED))
    end.

(** The entry at [i] is given up: the entries behind it move forward. *)
Definition release_entry (i : Z) (a : GUI_APP_INSTANCE) (l : libraries) : se S unit :=
  (if negb (g_kernel32_set_console_sink l =? 0) && bool_decide (kind a = GUI_APP_KIND_CUSTOM) && bool_decide (app_path a = cstr "/DISCOUNT/SYSTEM32/CMD.EXE")
   then invoke (g_kernel32_set_console_sink l) [0];; mret tt else mret tt);;
  (if image a =? 0 then mret tt else act (PeFreeImage (image a));; upd_app i (fun a => with_image a 0));;
  (if negb (bool_decide (kind a = GUI_APP_KIND_CUSTOM)) && negb (thread a =? INVALID_HANDLE)
   then act (ObDereferenceObject (thread a));; upd_app i (fun a => with_thread a INVALID_HANDLE) else mret tt);;
  set_progs (fun p =>
    let n := g_gui_app_count p in
    set_count (set_apps p (for_range i (n - 1 - i) (fun j l => put l j (get no_app l (j + 1))) (g_gui_apps p))) (n - 1));;
  act Win32kRedrawAll.
Definition release_program (i : Z) : se S unit := a ← app_at i; l ← query libs; release_entry i a l.

(** One entry after the other: each turn removes an entry or goes on to the
    next, so as many turns as there are entries see them all. *)
Fixpoint reap (fuel : nat) (i : Z) : se S unit :=
  match fuel with
  | O => mret tt
  | Datatypes.S n =>
      c ← query (g_gui_app_count ∘ progs);
      if c <=? i then mret tt else
      a ← app_at i;
      gone ← program_ended a;
      if gone : bool then release_program i;; reap n i else reap n (i + 1)
  end.

(** ** The session's start *)
Definition find_libraries : se S unit :=
  on_world (PeLoadDll (cstr "NTDLL.DLL"));;
  k ← on_world (PeLoadDll (cstr "KERNEL32.DLL"));
  (if k =? 0 then mret tt else
   b ← on_world (PeGetProcAddress k (cstr "Kernel32SetProcessImageBase")); c ← on_world (PeGetProcAddress k (cstr "Kernel32SetConsoleSink"));
   l ← query libs;
   set_libs (mkLibs (g_user32_post_message l) (g_user32_find_top_level_window l) (g_user32_inject_keyboard l) (g_user32_inject_mouse l) (g_user32_set_process_id l)
     b c (g_wlx_negotiate l) (g_wlx_initialize l) (g_wlx_logged_on_sas l) (g_wlx_logged_out_sas l) (g_wlx_logoff l) (g_wlx_shutdown l) (g_wlx_display_sas_notice l)));;
  on_world (PeLoadDll (cstr "ADVAPI32.DLL"));; on_world (PeLoadDll (cstr "GDI32.DLL"));;
  u ← on_world (PeLoadDll (cstr "USER32.DLL"));
  (if u =? 0 then mret tt else
   let at_ name := on_world (PeGetProcAddress u name) in
   a ← at_ (cstr "PostMessageW"); b ← at_ (cstr "FindTopLevelWindowForProcessId"); c ← at_ (cstr "User32InjectKeyboard");
   d ← at_ (cstr "User32InjectMouse"); e ← at_ (cstr "User32SetProcessId");
   l ← query libs;
   set_libs (mkLibs a b c d e (g_kernel32_set_process_image_base l) (g_kernel32_set_console_sink l)
     (g_wlx_negotiate l) (g_wlx_initialize l) (g_wlx_logged_on_sas l) (g_wlx_logged_out_sas l) (g_wlx_logoff l) (g_wlx_shutdown l) (g_wlx_display_sas_notice l)));;
  foldr (fun d k => on_world (PeLoadDll d);; k) (mret tt)
    [cstr "RPCRT4.DLL"; cstr "OLEAUT32.DLL"; cstr "OLE32.DLL"; cstr "SHELL32.DLL"; cstr "SHLWAPI.DLL"; cstr "COMCTL32.DLL"; cstr "COMDLG32.DLL"].

Definition session_start : se S turn :=
  set_progs (fun p => mkPrograms (g_gui_apps p) 0 1 0 (thread_contexts p));;
  set_pend (fun p => set_pending_launch (set_pending_error p None) None);;
  set_wins (fun w => mkWindows (g_error_class w) (g_error_window w) INVALID_HANDLE INVALID_HANDLE INVALID_HANDLE INVALID_HANDLE);;
  set_sess (fun s => set_shell_started s false);;
  act Win32kInit;; act MouseInit;; act KeyboardInit;;
  find_libraries;;
  csrss_initialize_winlogon_session;;
  m ← query (MouseGetState ∘ world);
  mret (mkTurn (Mouse.x m) (Mouse.y m) (Mouse.buttons m) (Mouse.wheel_delta m) true).

(** ** One turn of the session *)
Definition start_shell : se S unit :=
  s ← query sess;
  if bool_decide (g_session_state s = CSRSS_SESSION_LOGGED_ON) && negb (g_shell_started s) then
    r ← csrss_spawn_gui_instance (cstr "/DISCOUNT/SYSTEM32/PROGMAN.EXE") [];
    if r <? 0 then
      csrss_queue_launch_error (Some (cstr "/DISCOUNT/SYSTEM32/PROGMAN.EXE")) (Some (cstr "The logon shell could not be started."));;
      set_sess (fun s => set_session_state s CSRSS_SESSION_LOGGING_OFF)
    else set_sess (fun s => set_shell_started s true)
  else mret tt.

Definition is_executable (f : list Z) : bool :=
  ((64 <=? Z.of_nat (length f)) && (get 0 f 0 =? 77) && (get 0 f 1 =? 90)) ||
  ((4 <=? Z.of_nat (length f)) && (get 0 f 0 =? 127) && (get 0 f 1 =? 69) && (get 0 f 2 =? 76) && (get 0 f 3 =? 70)).

Definition run_pending_launch : se S unit :=
  l ← query (g_pending_launch ∘ pend);
  match l with
  | None => mret tt
  | Some (path, command) =>
      set_pend (fun p => set_pending_launch p None);;
      f ← on_world (CdfsReadFile path);
      match f with
      | None => csrss_queue_launch_error (Some path) (Some (cstr "The system cannot find the file specified."))
      | Some file =>
          if is_executable file then csrss_execute_image_sync path command file;; mret tt
          else csrss_queue_launch_error (Some path) (Some (cstr "The application is not a valid Win32 program."))
      end
  end.

Definition show_pending_error : se S unit :=
  e ← query (g_pending_error ∘ pend);
  match e with
  | None => mret tt
  | Some (app, text) => set_pend (fun p => set_pending_error p None);; csrss_show_launch_error (Some app) (Some text)
  end.

Definition session_turn (fuel : nat) (t : turn) : se S turn :=
  act UsbPoll;;
  start_shell;;
  t ← input_bytes fuel t;
  reap 16 0;;
  n ← query (g_gui_app_count ∘ progs); st ← query (g_session_state ∘ sess);
  let t := if (n =? 0) && bool_decide (st = CSRSS_SESSION_LOGGING_OFF) then mkTurn (last_x t) (last_y t) (last_buttons t) (last_wheel t) false else t in
  run_pending_launch;;
  show_pending_error;;
  KeYield;;
  mret t.

(** Turns while the session runs, [turns] of them at most. *)
Fixpoint session_loop (turns fuel : nat) (t : turn) : se S turn :=
  match turns with
  | O => mret t
  | Datatypes.S n => if running t then t ← session_turn fuel t; session_loop n fuel t else mret t
  end.

(** The end of the session, before the text screen comes back. *)
Fixpoint close_programs (n : nat) (i : Z) : se S unit :=
  match n with
  | O => mret tt
  | Datatypes.S n =>
      c ← query (g_gui_app_count ∘ progs);
      if c <=? i then mret tt else
      a ← app_at i;
      (if window a =? INVALID_HANDLE then mret tt else destroy_if_there (window a));;
      (if image a =? 0 then mret tt else act (PeFreeImage (image a)));;
      close_programs n (i + 1)
  end.

Definition session_end : se S unit :=
  close_programs 8 0;;
  h ← query (g_logon_window ∘ wins);
  (if h =? INVALID_HANDLE then mret tt else close_window h;; set_wins (fun w => set_logon_window w INVALID_HANDLE));;
  h ← query (g_lock_window ∘ wins);
  (if h =? INVALID_HANDLE then mret tt else csrss_hide_lock_screen);;
  s ← query sess; l ← query libs;
  (if bool_decide (g_session_state s = CSRSS_SESSION_LOGGED_ON) && negb (g_wlx_logoff l =? 0) then
     set_sess (fun s => set_session_state s CSRSS_SESSION_LOGGING_OFF);; invoke (g_wlx_logoff l) [g_gina_context s];; mret tt else mret tt);;
  s ← query sess; l ← query libs;
  if g_wlx_shutdown l =? 0 then mret tt else
  set_sess (fun s => set_session_state s CSRSS_SESSION_SHUTTING_DOWN);; invoke (g_wlx_shutdown l) [g_gina_context s; 1];; mret tt.

(** ** win32/csrss/csrss_init.c, win32/smss: the processes, and the way to csrss *)
Definition CsrssInitialize (csrss_process : Z) : se S (bool * Z) :=
  if negb (csrss_process =? INVALID_HANDLE) then mret (true, csrss_process) else
  p ← on_world (KeCreateProcess (cstr "Client/Server Runtime")); mret (negb (p =? INVALID_HANDLE), p).

Definition SmssInitialize (smss_process : Z) : se S (bool * Z) :=
  if negb (smss_process =? INVALID_HANDLE) then mret (true, smss_process) else
  p ← on_world (KeCreateProcess (cstr "Session Manager")); mret (negb (p =? INVALID_HANDLE), p).

Definition smss_execute_bootstrap (path : list Z) : se S Z :=
  f ← on_world (CdfsReadFile path);
  match f with
  | None => mret (-1)
  | Some file =>
      image ← on_world (PeLoadImage file);
      if image =? 0 then mret (-2) else
      ok ← on_world (PeResolveImports image);
      if negb ok then act (PeFreeImage image);; mret (-4) else
      (if (2 <=? Z.of_nat (length file)) && (get 0 file 0 =? 77) && (get 0 file 1 =? 90) then act (PePerformRelocations image) else mret tt);;
      stack ← on_world (kmalloc 65536);
      func ← query (PeGetEntryPoint image ∘ world);
      if (func =? 0) || (stack =? 0) then
        (if stack =? 0 then mret tt else act (kfree stack));; act (PeFreeImage image);; mret (-5)
      else
      ret ← run_program None func image [] [];
      act (kfree stack);; act (PeFreeImage image);; mret ret
  end.

(** Whether the session is handed to csrss. *)
Definition SmssSessionRun (smss_process : Z) : se S (bool * Z) :=
  '(ok, smss_process) ← SmssInitialize smss_process;
  if negb ok then mret (false, smss_process) else
  ret ← smss_execute_bootstrap (cstr "/DISCOUNT/SYSTEM32/CSRSS.EXE");
  mret (negb (negb (ret =? 1129534035) && negb (ret =? 0)), smss_process).

End csrss.

End Csrss.
