(* ===== verification/CsrssSpec.v ===== *)
(** * What the session keeps

    Three properties of win32/csrss/csrss.c.  The state of the session changes only
    by logging on, locking, unlocking and giving up: [Keeps] is the judgement that
    an operation moves the state along a relation, closed under sequencing and
    branching, and shown of every operation of a turn, whatever programs and other
    threads do within it.  The removal of ended programs, in place and with indices,
    is the filtering of a list: [Blind] is the judgement that an operation neither
    reads nor writes the table of programs.  A command line is split into the
    name and the arguments it was put together from. *)

From stdpp Require Import base list numbers gmap strings relations.
From Stdlib Require Import ZArith Lia.
From S2P Require Import Prelude.
From S2P Require Import Util.
From S2P Require Import Ob.
From S2P Require Import Ke.
From S2P Require Import Input.
From S2P Require Import Mouse.
From S2P Require Import W32k.
From S2P Require Import Csrss.
Import Util Csrss.

Module CsrssSpec.

(** ** Moving along a relation *)
Class Keeps {S A} (R : sys S -> sys S -> Prop) (f : se S A) : Prop := keeps : forall s, R s (f s).2.

Section closure.
Context {S : Type} (R : sys S -> sys S -> Prop) `{!PreOrder R}.

#[global] Instance keeps_pure {A} (x : A) : Keeps R (mret x).
Proof. intros s. cbn. reflexivity. Qed.
#[global] Instance keeps_then {A B} (k : A -> se S B) (f : se S A) : Keeps R f -> (forall x, Keeps R (k x)) -> Keeps R (mbind k f).
Proof. intros Hf Hk s. cbn. unfold mbind, se_bind. specialize (Hf s). destruct (f s) as [x s']. etrans; [exact Hf | apply Hk]. Qed.
#[global] Instance keeps_query {A} (f : sys S -> A) : Keeps R (query f).
Proof. intros s. cbn. reflexivity. Qed.

End closure.

(** The cases of an operation; what is left are its parts without an instance. *)
Ltac keep_parts :=
  repeat first
    [ progress intros
    | apply _
    | match goal with
      | |- Keeps _ (mbind _ _) => apply keeps_then
      | |- Keeps _ (if ?b then _ else _) => destruct b
      | |- Keeps _ (match ?x with _ => _ end) => destruct x
      | |- Keeps _ (let x := _ in _) => cbv zeta
      end ].

(** ** The states of the session *)
Inductive session_step : CSRSS_SESSION_STATE -> CSRSS_SESSION_STATE -> Prop :=
| log_on : session_step CSRSS_SESSION_BOOTING CSRSS_SESSION_LOGGED_ON
| lock : session_step CSRSS_SESSION_LOGGED_ON CSRSS_SESSION_LOCKED
| unlock : session_step CSRSS_SESSION_LOCKED CSRSS_SESSION_LOGGED_ON
| shell_fails : session_step CSRSS_SESSION_LOGGED_ON CSRSS_SESSION_LOGGING_OFF.

Definition moves {S} (s s' : sys S) : Prop := rtc session_step (g_session_state (sess s)) (g_session_state (sess s')).

#[global] Instance moves_preorder {S} : PreOrder (@moves S).
Proof. split; [intros s; unfold moves; done | intros x y z H1 H2; unfold moves in *; by etrans]. Qed.

Lemma moves_same {S} (s s' : sys S) : g_session_state (sess s') = g_session_state (sess s) -> moves s s'.
Proof. intros E. unfold moves. by rewrite E. Qed.

(** From logged on, every state within a session may still be given up. *)
Lemma logged_on_gives_up st : rtc session_step CSRSS_SESSION_LOGGED_ON st -> rtc session_step st CSRSS_SESSION_LOGGING_OFF.
Proof.
  intros H. cut (st = CSRSS_SESSION_LOGGED_ON \/ st = CSRSS_SESSION_LOCKED \/ st = CSRSS_SESSION_LOGGING_OFF).
  - intros [->|[->| ->]]; [apply rtc_once, shell_fails | eapply rtc_l; [apply unlock | apply rtc_once, shell_fails] | done].
  - pattern st. revert st H. apply rtc_ind_r; [by left|]. intros y z _ Hs [->|[->| ->]]; inversion Hs; auto.
Qed.

Section session.
Context {S : Type} `{World S} (a : arch).
Context (invoke : Z -> list Z -> se S Z) `{!forall f l, Keeps moves (invoke f l)}.
Context (run_program : option GUI_APP_KIND -> Z -> Z -> list Z -> list Z -> se S Z) `{!forall k e i p c, Keeps moves (run_program k e i p c)}.
Context (KeYield : se S unit) `{!Keeps moves KeYield}.

#[local] Instance on_world_moves {A} (f : S -> A * S) : Keeps moves (on_world f).
Proof. intros s. unfold on_world. destruct (f (world s)). by apply moves_same. Qed.
#[local] Instance act_moves (f : S -> S) : Keeps moves (act f).
Proof. apply on_world_moves. Qed.
#[local] Instance set_progs_moves f : Keeps (S := S) moves (set_progs f).
Proof. intros s. by apply moves_same. Qed.
#[local] Instance set_wins_moves f : Keeps (S := S) moves (set_wins f).
Proof. intros s. by apply moves_same. Qed.
#[local] Instance set_pend_moves f : Keeps (S := S) moves (set_pend f).
Proof. intros s. by apply moves_same. Qed.
#[local] Instance set_libs_moves l : Keeps (S := S) moves (set_libs l).
Proof. intros s. by apply moves_same. Qed.

Lemma set_sess_moves f : (forall s, g_session_state (f s) = g_session_state s) -> Keeps (S := S) moves (set_sess f).
Proof. intros E s. apply moves_same, E. Qed.

(** A change of state behind the test for the state it starts from. *)
Lemma guarded_moves {A} st st' (k : se S A) (x : A) s :
  session_step st st' -> Keeps moves k ->
  moves s ((if negb (bool_decide (g_session_state (sess s) = st)) then mret x else set_sess (fun s => set_session_state s st');; k) s).2.
Proof.
  intros Hst Hk. destruct (bool_decide _) eqn:E; cbn -[moves]; [|done].
  apply bool_decide_eq_true in E. etrans; [|apply Hk]. unfold moves. cbn. rewrite E. by apply rtc_once.
Qed.

#[local] Instance app_at_moves i : Keeps (S := S) moves (app_at i).
Proof. apply _. Qed.
#[local] Instance upd_app_moves i f : Keeps (S := S) moves (upd_app i f).
Proof. unfold upd_app, put_app. keep_parts. Qed.
#[local] Instance as_program_moves {A} p (f : se S A) : Keeps moves f -> Keeps moves (as_program p f).
Proof. intros. unfold as_program. keep_parts. Qed.

#[local] Instance close_window_moves h : Keeps (S := S) moves (close_window h).
Proof. unfold close_window. keep_parts. induction x as [|p l IH]; cbn [foldr]; unfold on_destroy; keep_parts. Qed.

(** *** Windows and the logon *)
#[local] Instance csrss_post_standard_message_moves h m w l : Keeps moves (csrss_post_standard_message invoke h m w l).
Proof. unfold csrss_post_standard_message. keep_parts. Qed.
#[local] Instance csrss_inject_logon_mouse_moves h m w l : Keeps moves (csrss_inject_logon_mouse invoke h m w l).
Proof. unfold csrss_inject_logon_mouse. keep_parts. Qed.
#[local] Instance csrss_post_logon_mouse_moves m w x y : Keeps moves (csrss_post_logon_mouse invoke m w x y).
Proof. unfold csrss_post_logon_mouse. keep_parts. Qed.
#[local] Instance show_own_moves h : Keeps (S := S) moves (show_own h).
Proof. unfold show_own. keep_parts. Qed.
#[local] Instance csrss_show_launch_error_moves p d : Keeps (S := S) moves (csrss_show_launch_error p d).
Proof. unfold csrss_show_launch_error. keep_parts. Qed.
#[local] Instance csrss_show_logon_screen_moves : Keeps (S := S) moves (csrss_show_logon_screen).
Proof. unfold csrss_show_logon_screen. keep_parts. Qed.
#[local] Instance csrss_show_lock_screen_moves : Keeps (S := S) moves (csrss_show_lock_screen).
Proof. unfold csrss_show_lock_screen. keep_parts. Qed.
#[local] Instance csrss_hide_lock_screen_moves : Keeps (S := S) moves (csrss_hide_lock_screen).
Proof. unfold csrss_hide_lock_screen. keep_parts. Qed.
#[local] Instance csrss_complete_logon_moves : Keeps (S := S) moves csrss_complete_logon.
Proof. intros s. apply (guarded_moves CSRSS_SESSION_BOOTING CSRSS_SESSION_LOGGED_ON); [apply log_on | keep_parts]. Qed.
#[local] Instance csrss_handle_logon_key_moves e : Keeps (S := S) moves (csrss_handle_logon_key e).
Proof. unfold csrss_handle_logon_key. keep_parts; apply set_sess_moves; intros []; cbn; [done|]; by destruct (_ =? 0). Qed.
#[local] Instance csrss_session_lock_moves : Keeps moves (csrss_session_lock invoke).
Proof. intros s. apply (guarded_moves CSRSS_SESSION_LOGGED_ON CSRSS_SESSION_LOCKED); [apply lock | keep_parts]. Qed.
#[local] Instance csrss_session_unlock_moves : Keeps (S := S) moves csrss_session_unlock.
Proof. intros s. apply (guarded_moves CSRSS_SESSION_LOCKED CSRSS_SESSION_LOGGED_ON); [apply unlock | keep_parts]. Qed.
#[local] Instance csrss_handle_secure_attention_moves : Keeps moves (csrss_handle_secure_attention invoke).
Proof. unfold csrss_handle_secure_attention. keep_parts. Qed.

(** *** Programs *)
#[local] Instance csrss_queue_launch_error_moves p d : Keeps (S := S) moves (csrss_queue_launch_error p d).
Proof. unfold csrss_queue_launch_error. keep_parts. Qed.
#[local] Instance csrss_execute_image_sync_moves p c f : Keeps moves (csrss_execute_image_sync run_program p c f).
Proof. unfold csrss_execute_image_sync. keep_parts. Qed.
#[local] Instance map_program_moves p i : Keeps (S := S) moves (map_program p i).
Proof. unfold map_program. keep_parts. Qed.
#[local] Instance start_standard_moves i k e : Keeps (S := S) moves (start_standard a i k e).
Proof. unfold start_standard. keep_parts. Qed.
#[local] Instance start_custom_moves i f c : Keeps moves (start_custom invoke i f c).
Proof. unfold start_custom. keep_parts. Qed.
#[local] Instance csrss_load_gui_instance_moves p i : Keeps moves (csrss_load_gui_instance a invoke p i).
Proof. unfold csrss_load_gui_instance. keep_parts. Qed.
#[local] Instance bind_window_moves n i : Keeps moves (bind_window invoke KeYield n i).
Proof. induction n; cbn [bind_window]; keep_parts. Qed.
#[local] Instance screen_or_default_moves : Keeps (S := S) moves screen_or_default.
Proof. unfold screen_or_default. keep_parts. Qed.
#[local] Instance cascade_window_moves i : Keeps (S := S) moves (cascade_window i).
Proof. unfold cascade_window. keep_parts. Qed.
#[local] Instance csrss_spawn_gui_instance_moves p c : Keeps moves (csrss_spawn_gui_instance a invoke KeYield p c).
Proof. unfold csrss_spawn_gui_instance. keep_parts. Qed.
#[local] Instance csrss_execute_image_moves p : Keeps moves (csrss_execute_image a invoke KeYield p).
Proof. unfold csrss_execute_image. keep_parts. Qed.

(** The thread of a program and the thread of the logon, which [KeYield] may run. *)
#[local] Instance csrss_gui_thread_main_moves c : Keeps moves (csrss_gui_thread_main invoke run_program c).
Proof. unfold csrss_gui_thread_main. keep_parts. Qed.
#[local] Instance csrss_winlogon_sas_thread_moves : Keeps moves (csrss_winlogon_sas_thread invoke).
Proof. unfold csrss_winlogon_sas_thread. keep_parts. by apply set_sess_moves. Qed.

(** *** Input *)
#[local] Instance capture_or_active_moves : Keeps (S := S) moves capture_or_active.
Proof. unfold capture_or_active. keep_parts. Qed.
#[local] Instance call_mouse_moves p w m v e : Keeps moves (call_mouse invoke p w m v e).
Proof. unfold call_mouse. keep_parts. Qed.
#[local] Instance on_mouse_move_moves m : Keeps moves (on_mouse_move invoke m).
Proof. unfold on_mouse_move. keep_parts. Qed.
#[local] Instance on_wheel_moves m : Keeps moves (on_wheel invoke m).
Proof. unfold on_wheel. keep_parts. Qed.
#[local] Instance post_to_logon_moves h g w m : Keeps moves (post_to_logon invoke h g w m).
Proof. unfold post_to_logon. keep_parts. Qed.
#[local] Instance on_left_down_moves m : Keeps moves (on_left_down invoke m).
Proof. unfold on_left_down. keep_parts. Qed.
#[local] Instance on_left_up_moves m : Keeps moves (on_left_up invoke m).
Proof. unfold on_left_up. keep_parts. Qed.
#[local] Instance mouse_byte_moves d t : Keeps moves (mouse_byte invoke d t).
Proof. unfold mouse_byte. keep_parts. Qed.
#[local] Instance send_key_moves h w e : Keeps moves (send_key invoke h w e).
Proof. unfold send_key. keep_parts. Qed.
#[local] Instance deliver_key_moves e : Keeps moves (deliver_key invoke e).
Proof. unfold deliver_key. keep_parts. Qed.
#[local] Instance key_event_moves e t : Keeps moves (key_event invoke e t).
Proof. unfold key_event. keep_parts. Qed.
#[local] Instance key_events_moves n t : Keeps moves (key_events invoke n t).
Proof. revert t. induction n; intros t; cbn [key_events]; keep_parts. Qed.
#[local] Instance input_bytes_moves n t : Keeps moves (input_bytes invoke n t).
Proof. revert t. induction n; intros t; cbn [input_bytes]; keep_parts. Qed.

(** *** The turn *)
#[local] Instance destroy_if_there_moves h : Keeps (S := S) moves (destroy_if_there h).
Proof. unfold destroy_if_there. keep_parts. Qed.
#[local] Instance program_ended_moves p : Keeps moves (program_ended invoke p).
Proof. unfold program_ended. keep_parts. Qed.
#[local] Instance release_program_moves i : Keeps moves (release_program invoke i).
Proof. unfold release_program, release_entry. keep_parts. Qed.
#[local] Instance reap_moves n i : Keeps moves (reap invoke n i).
Proof. revert i. induction n; intros i; cbn [reap]; keep_parts. Qed.

(** The shell is started in the state logged on; giving it up is open from
    whatever state its start has led to. *)
#[local] Instance start_shell_moves : Keeps moves (start_shell a invoke KeYield).
Proof.
  intros s. unfold start_shell, mbind at 1, se_bind at 1, query. cbv beta iota zeta.
  destruct (bool_decide _ && _) eqn:E; [|done]. apply andb_prop in E as [E _]. apply bool_decide_eq_true in E.
  unfold mbind at 1, se_bind at 1.
  assert (M := csrss_spawn_gui_instance_moves (cstr "/DISCOUNT/SYSTEM32/PROGMAN.EXE") [] s). destruct (csrss_spawn_gui_instance _ _ _ _ _ s) as [r s1].
  unfold moves in *. cbn in M |- *. rewrite E in *. destruct (r <? 0); cbn; [|done].
  etrans; [exact M|]. by apply logged_on_gives_up.
Qed.
#[local] Instance run_pending_launch_moves : Keeps moves (run_pending_launch run_program).
Proof. unfold run_pending_launch. keep_parts. Qed.
#[local] Instance show_pending_error_moves : Keeps (S := S) moves show_pending_error.
Proof. unfold show_pending_error. keep_parts. Qed.
#[local] Instance session_turn_moves fuel t : Keeps moves (session_turn a invoke run_program KeYield fuel t).
Proof. unfold session_turn. keep_parts. Qed.
#[local] Instance session_loop_moves turns fuel t : Keeps moves (session_loop a invoke run_program KeYield turns fuel t).
Proof. revert t. induction turns; intros t; cbn [session_loop]; keep_parts. Qed.

End session.

(** ** What programs and threads do

    A piece of a program's code, or of the code of a library: it changes whatever it likes but the static that holds the state of the session, as
    it goes on calls the services csrss offers it (running an image) or lets other threads run, and at last returns. *)
Inductive behaviour (S : Type) :=
| Returns (v : Z)
| Does (f : sys S -> Z * sys S) (k : Z -> behaviour S)
| Executes (path : list Z) (k : Z -> behaviour S)
| Yields (k : Z -> behaviour S).
Arguments Returns {S}. Arguments Does {S}. Arguments Executes {S}. Arguments Yields {S}.

(** What runs while a thread waits: pieces of other threads, the thread of the logon, or the thread of a program from its
    context. *)
Inductive activity (S : Type) := Piece (b : behaviour S) | Logon | Program (arg : Z).
Arguments Piece {S}. Arguments Logon {S}. Arguments Program {S}.

(** Everything but the session's state. *)
Definition all_but_state {S} (f : sys S -> Z * sys S) : se S Z := fun s =>
  let '(x, s') := f s in (x, mkSys (progs s') (wins s') (set_session_state (sess s') (g_session_state (sess s))) (pend s') (libs s') (world s')).

Section behaviours.
Context {S : Type} `{World S} (a : arch).
(** The code at an address, a program from its entry, and what runs when a thread yields: any behaviours. *)
Context (code : Z -> list Z -> behaviour S) (entry : option GUI_APP_KIND -> Z -> Z -> list Z -> list Z -> behaviour S) (others : sys S -> list (activity S)).

Fixpoint behave (execute : list Z -> se S Z) (yield : se S unit) (b : behaviour S) : se S Z :=
  match b with
  | Returns v => mret v
  | Does f k => x ← all_but_state f; behave execute yield (k x)
  | Executes path k => x ← execute path; behave execute yield (k x)
  | Yields k => yield;; behave execute yield (k 0)
  end.

Record outside := mkOutside {
  invokes : Z -> list Z -> se S Z;
  runs : option GUI_APP_KIND -> Z -> Z -> list Z -> list Z -> se S Z;
  yields : se S unit
}.

(** Programs call csrss, which calls programs, to the depth [n]; deeper calls fail. *)
Fixpoint outside_at (n : nat) : outside :=
  let deeper := match n with
    | O => mkOutside (fun _ _ => mret 0) (fun _ _ _ _ _ => mret (-1)) (mret tt)
    | Datatypes.S n => outside_at n end in
  let execute path := match n with O => mret (-1) | _ => csrss_execute_image a (invokes deeper) (yields deeper) path end in
  let does t := match t with
    | Piece b => behave execute (yields deeper) b;; mret tt
    | Logon => csrss_winlogon_sas_thread (invokes deeper)
    | Program arg => csrss_gui_thread_main (invokes deeper) (runs deeper) arg end in
  mkOutside (fun f l => behave execute (yields deeper) (code f l)) (fun k e i p c => behave execute (yields deeper) (entry k e i p c))
    (fun s => foldr (fun t k => does t;; k) (mret tt) (others s) s).

Lemma all_but_state_moves f : Keeps moves (all_but_state (S := S) f).
Proof. intros s. unfold all_but_state. destruct (f s). by apply moves_same. Qed.

Lemma behave_moves execute yield b : (forall p, Keeps moves (execute p)) -> Keeps moves yield -> Keeps moves (behave execute yield b).
Proof.
  intros He Hy. pose proof all_but_state_moves. induction b as [v|f k IH|path k IH|k IH]; cbn [behave]; keep_parts.
Qed.

Definition keeps_outside (o : outside) : Prop :=
  (forall f l, Keeps moves (invokes o f l)) /\ (forall k e i p c, Keeps moves (runs o k e i p c)) /\ Keeps moves (yields o).

Lemma outside_moves n : keeps_outside (outside_at n).
Proof.
  induction n as [|n IH].
  all: cbn [outside_at]; lazymatch goal with |- keeps_outside (mkOutside (fun _ _ => behave ?ex (yields ?o) _) _ _) => set (deeper := o); set (execute := ex) end.
  all: assert (Hd : keeps_outside deeper) by (exact IH || (repeat split; intros; apply _)).
  all: destruct Hd as (Hi & Hr & Hy).
  all: assert (He : forall p, Keeps moves (execute p)) by (intros p; unfold execute; (apply keeps_pure, _ || apply csrss_execute_image_moves; done)).
  all: assert (Hb : forall b, Keeps moves (behave execute (yields deeper) b)) by (intros b; by apply behave_moves).
  all: split; [intros; apply Hb|]; split; [intros; apply Hb|]; intros s; cbn [yields]; generalize (others s); intros l; revert s.
  all: change (Keeps moves (foldr (fun t k => match t with Piece b => behave execute (yields deeper) b;; mret tt | Logon => csrss_winlogon_sas_thread (invokes deeper) | Program arg => csrss_gui_thread_main (invokes deeper) (runs deeper) arg end;; k) (mret tt) l)).
  all: induction l as [|t l IHl]; cbn [foldr]; [apply _|]; apply keeps_then; [apply _ | | intros; exact IHl].
  all: destruct t; [keep_parts | by apply csrss_winlogon_sas_thread_moves | by apply csrss_gui_thread_main_moves].
Qed.

(** C22. Over any number of turns of the session, whatever input arrives and whatever behaviours the programs, libraries and other threads
    have, calling csrss back to any depth, the state of the session changes only by logging on (from booting), locking and unlocking (between
    logged on and locked) and giving up a shell that cannot be started (from logged on): it never falls back to booting, and logging off is
    final.  Of programs it is only taken for granted that they change csrss's static variable through csrss's own code. *)
Theorem session_transitions depth turns fuel t s :
  rtc session_step (g_session_state (sess s))
    (g_session_state (sess (session_loop a (invokes (outside_at depth)) (runs (outside_at depth)) (yields (outside_at depth)) turns fuel t s).2)).
Proof. destruct (outside_moves depth) as (Hi & Hr & Hy). by apply (session_loop_moves a). Qed.

End behaviours.

(** ** Operations that leave the programs alone *)
Definition with_progs {S} (s : sys S) (p : programs) : sys S := mkSys p (wins s) (sess s) (pend s) (libs s) (world s).

Class Blind {S A} (f : se S A) : Prop := blind : forall s p, f (with_progs s p) = ((f s).1, with_progs (f s).2 p).

Section blind.
Context {S : Type} `{World S}.

#[global] Instance blind_ret {A} (x : A) : Blind (S := S) (mret x).
Proof. done. Qed.
#[global] Instance blind_bind {A B} (k : A -> se S B) (f : se S A) : Blind f -> (forall x, Blind (k x)) -> Blind (mbind k f).
Proof. intros Hf Hk s p. unfold mbind, se_bind. rewrite Hf. destruct (f s) as [x s']. apply Hk. Qed.
#[global] Instance blind_on_world {A} (f : S -> A * S) : Blind (on_world f).
Proof. intros s p. unfold on_world. cbn. by destruct (f (world s)). Qed.
#[global] Instance blind_act f : Blind (S := S) (act f).
Proof. apply blind_on_world. Qed.
#[global] Instance blind_set_wins f : Blind (S := S) (set_wins f).
Proof. done. Qed.
#[global] Instance blind_libs : Blind (S := S) (query libs).
Proof. done. Qed.

End blind.

Ltac blind_parts :=
  repeat first
    [ progress intros
    | apply _
    | match goal with
      | |- Blind (mbind _ _) => apply blind_bind
      | |- Blind (if ?b then _ else _) => destruct b
      | |- Blind (match ?x with _ => _ end) => destruct x
      end ].

Section reaping.
Context {S : Type} `{World S} (invoke : Z -> list Z -> se S Z) `{!forall f l, Blind (invoke f l)}.

#[local] Instance blind_destroy h : Blind (S := S) (close_window h).
Proof. unfold close_window. blind_parts. induction x as [|p l IH]; cbn [foldr]; unfold on_destroy; blind_parts. Qed.
#[local] Instance blind_ended p : Blind (program_ended invoke p).
Proof. unfold program_ended, destroy_if_there. blind_parts. Qed.

(** What giving a program up does outside the table. *)
Definition dispose_with (p : GUI_APP_INSTANCE) (l : libraries) : se S unit :=
  (if negb (g_kernel32_set_console_sink l =? 0) && bool_decide (kind p = GUI_APP_KIND_CUSTOM) && bool_decide (app_path p = cstr "/DISCOUNT/SYSTEM32/CMD.EXE")
   then invoke (g_kernel32_set_console_sink l) [0];; mret tt else mret tt);;
  (if image p =? 0 then mret tt else act (PeFreeImage (image p)));;
  (if negb (bool_decide (kind p = GUI_APP_KIND_CUSTOM)) && negb (thread p =? INVALID_HANDLE) then act (ObDereferenceObject (thread p)) else mret tt);;
  act Win32kRedrawAll.
Definition dispose (p : GUI_APP_INSTANCE) : se S unit := l ← query libs; dispose_with p l.

#[local] Instance blind_dispose p : Blind (dispose p).
Proof. unfold dispose, dispose_with. blind_parts. Qed.

(** The reference: the programs that have not ended, in their order. *)
Fixpoint survivors (l : list GUI_APP_INSTANCE) : se S (list GUI_APP_INSTANCE) :=
  match l with
  | [] => mret []
  | p :: l =>
      gone ← program_ended invoke p;
      if gone : bool then dispose p;; survivors l
      else kept ← survivors l; mret (p :: kept)
  end.

Definition entry_set (i : Z) (v : GUI_APP_INSTANCE -> GUI_APP_INSTANCE) (q : programs) : programs :=
  set_apps q (put (g_gui_apps q) i (v (get no_app (g_gui_apps q) i))).

Lemma entry_set_at kept p rest v q :
  g_gui_apps q = kept ++ p :: rest -> entry_set (Z.of_nat (length kept)) v q = set_apps q (kept ++ v p :: rest).
Proof.
  intros E. unfold entry_set, put, get. rewrite E, Nat2Z.id, list_lookup_middle by done. cbn. f_equal.
  by rewrite insert_app_r_alt, Nat.sub_diag by done.
Qed.

(** Sequencing, at a table set apart. *)
Lemma se_bind_eq {A B} (k : A -> se S B) (f : se S A) s : mbind k f s = k (f s).1 (f s).2.
Proof. unfold mbind, se_bind. by destruct (f s). Qed.
Lemma blind_step {A B} (k : A -> se S B) (f : se S A) `{!Blind f} s q : mbind k f (with_progs s q) = k (f s).1 (with_progs (f s).2 q).
Proof. rewrite se_bind_eq. by rewrite (blind s q). Qed.

(** [f] does [f'] outside the programs and [u] to them. *)
Definition tracks (f f' : se S unit) (u : programs -> programs) : Prop := forall s q, f (with_progs s q) = (tt, with_progs (f' s).2 (u q)).

Lemma tracks_blind f : Blind f -> tracks f f id.
Proof. intros Hf s q. rewrite Hf. by destruct (f s) as [[] s']. Qed.
Lemma tracks_set u g g' v : tracks g g' v -> tracks (set_progs u;; g) g' (v ∘ u).
Proof. intros Hg s q. apply (Hg s (u q)). Qed.
Lemma tracks_bind f f' u g g' v : tracks f f' u -> tracks g g' v -> tracks (f;; g) (f';; g') (v ∘ u).
Proof. intros Hf Hg s q. unfold mbind, se_bind. rewrite Hf, Hg. by destruct (f' s). Qed.
Lemma tracks_then f f' u h v : tracks f f' u -> tracks (f;; upd_app h v) f' (entry_set h v ∘ u).
Proof. intros Hf s q. unfold mbind, se_bind. by rewrite Hf. Qed.
Lemma tracks_if (b : bool) f f' u g g' v : tracks f f' u -> tracks g g' v -> tracks (if b then f else g) (if b then f' else g') (if b then u else v).
Proof. by destruct b. Qed.

Definition close_gap (i : Z) (q : programs) : programs :=
  let n := g_gui_app_count q in
  set_count (set_apps q (for_range i (n - 1 - i) (fun j l => put l j (get no_app l (j + 1))) (g_gui_apps q))) (n - 1).

Lemma release_entry_tracks i p l :
  tracks (release_entry invoke i p l) (dispose_with p l)
    (close_gap i ∘ (if negb (bool_decide (kind p = GUI_APP_KIND_CUSTOM)) && negb (thread p =? INVALID_HANDLE) then entry_set i (fun x => with_thread x INVALID_HANDLE) else id)
     ∘ (if image p =? 0 then id else entry_set i (fun x => with_image x 0))).
Proof.
  assert (T1 : tracks (if image p =? 0 then mret tt else act (PeFreeImage (image p));; upd_app i (fun a => with_image a 0)) (if image p =? 0 then mret tt else act (PeFreeImage (image p))) _)
    by (apply tracks_if; [apply tracks_blind, _ | apply tracks_then, tracks_blind, _]).
  assert (T2 : tracks (set_progs (close_gap i);; act Win32kRedrawAll) (act Win32kRedrawAll) _) by apply tracks_set, tracks_blind, _.
  set (c := negb (bool_decide (kind p = GUI_APP_KIND_CUSTOM)) && negb (thread p =? INVALID_HANDLE)).
  assert (T3 : tracks (if c then act (ObDereferenceObject (thread p));; upd_app i (fun a => with_thread a INVALID_HANDLE) else mret tt) (if c then act (ObDereferenceObject (thread p)) else mret tt) _)
    by (apply tracks_if; [apply tracks_then, tracks_blind, _ | apply tracks_blind, _]).
  assert (T := tracks_bind _ _ _ _ _ _ T1 (tracks_bind _ _ _ _ _ _ T3 T2)).
  refine (tracks_bind _ _ id _ _ _ (tracks_blind _ _) T). blind_parts.
Qed.

(** Giving up the program [p] behind the programs [kept]. *)
Lemma release_program_eq kept p rest tail s q :
  g_gui_apps q = kept ++ p :: rest ++ tail -> g_gui_app_count q = Z.of_nat (length kept + Datatypes.S (length rest)) ->
  exists z, release_program invoke (Z.of_nat (length kept)) (with_progs s q) =
    (tt, with_progs (dispose p s).2 (set_count (set_apps q (kept ++ rest ++ z :: tail)) (Z.of_nat (length kept + length rest)))).
Proof.
  intros Hq Hn.
  assert (Hp : get no_app (g_gui_apps q) (Z.of_nat (length kept)) = p) by (unfold get; by rewrite Hq, Nat2Z.id, list_lookup_middle).
  assert (E : forall (b : bool) v x q', g_gui_apps q' = kept ++ x :: rest ++ tail ->
    exists y, (if b then entry_set (Z.of_nat (length kept)) v else id) q' = set_apps q' (kept ++ y :: rest ++ tail)).
  { intros [] v x q' Ex; [eexists; by apply entry_set_at | exists x; rewrite <- Ex; by destruct q']. }
  destruct (E (negb (image p =? 0)) (fun x => with_image x 0) p q Hq) as [y Ey].
  destruct (E (negb (bool_decide (kind p = GUI_APP_KIND_CUSTOM)) && negb (thread p =? INVALID_HANDLE)) (fun x => with_thread x INVALID_HANDLE) y (set_apps q (kept ++ y :: rest ++ tail))) as [x Ex]; [done|].
  destruct (shift_entries no_app kept rest tail x) as [z Hz]. exists z.
  transitivity (release_entry invoke (Z.of_nat (length kept)) p (libs s) (with_progs s q)); [by rewrite <- Hp|].
  rewrite release_entry_tracks. change (dispose p s) with (dispose_with p (libs s) s). f_equal. f_equal. unfold compose.
  rewrite <- (if_negb _ (image p =? 0)), Ey, Ex. unfold close_gap. cbn. rewrite Hn.
  replace (Z.of_nat (length kept + Datatypes.S (length rest)) - 1 - Z.of_nat (length kept)) with (Z.of_nat (length rest)) by lia.
  rewrite Hz. unfold set_count, set_apps. cbn. f_equal. lia.
Qed.

(** The entries from [i] on. *)
Lemma reap_from rest kept tail s q fuel :
  g_gui_apps q = kept ++ rest ++ tail -> g_gui_app_count q = Z.of_nat (length kept + length rest) -> (length rest <= fuel)%nat ->
  exists tail', reap invoke fuel (Z.of_nat (length kept)) (with_progs s q) =
    (tt, with_progs (survivors rest s).2 (set_count (set_apps q (kept ++ (survivors rest s).1 ++ tail')) (Z.of_nat (length kept + length (survivors rest s).1)))).
Proof.
  revert kept tail s q fuel. induction rest as [|p rest IH]; intros kept tail s q fuel Hq Hn Hf.
  - exists tail. cbn [survivors fst snd app length mret se_ret] in *. rewrite Nat.add_0_r in *. destruct q as [l n ? ? ?]. cbn in Hq, Hn. subst l n.
    destruct fuel; [done|]. cbn [reap]. unfold mbind, se_bind, query. cbn. by rewrite Z.leb_refl.
  - destruct fuel as [|fuel]; [cbn in Hf; lia|]. cbn [length] in Hn, Hf.
    cbn [app] in Hq.
    assert (Hp : get no_app (g_gui_apps q) (Z.of_nat (length kept)) = p) by (unfold get; by rewrite Hq, Nat2Z.id, list_lookup_middle).
    assert (E : reap invoke (Datatypes.S fuel) (Z.of_nat (length kept)) (with_progs s q) =
      (gone ← program_ended invoke p; if gone : bool then release_program invoke (Z.of_nat (length kept));; reap invoke fuel (Z.of_nat (length kept)) else reap invoke fuel (Z.of_nat (length kept) + 1)) (with_progs s q)).
    { cbn [reap]. rewrite se_bind_eq. unfold query, compose. cbn [fst snd with_progs progs]. rewrite Hn, (proj2 (Z.leb_gt _ _)) by lia.
      rewrite se_bind_eq. unfold app_at, query. cbn [fst snd with_progs progs]. by rewrite Hp. }
    rewrite E, (blind_step _ (program_ended invoke p)). cbn [survivors]. rewrite se_bind_eq. destruct (program_ended invoke p s) as [[] s1]; cbn [fst snd].
    + rewrite se_bind_eq. destruct (release_program_eq kept p rest tail s1 q Hq Hn) as [z ->]. cbn [fst snd].
      rewrite se_bind_eq. destruct (IH kept (z :: tail) (dispose p s1).2 (set_count (set_apps q (kept ++ rest ++ z :: tail)) (Z.of_nat (length kept + length rest))) fuel) as [tail' ->]; [done | done | lia |].
      by exists tail'.
    + replace (Z.of_nat (length kept) + 1) with (Z.of_nat (length (kept ++ [p]))) by (rewrite length_app; cbn; lia).
      destruct (IH (kept ++ [p]) tail s1 q fuel) as [tail' ->]; [by rewrite Hq, <- app_assoc | rewrite Hn, length_app; cbn; lia | lia |].
      exists tail'. rewrite se_bind_eq. cbn [fst snd mret se_ret length]. rewrite length_app, <- app_assoc. cbn. by rewrite <- Nat.add_assoc.
Qed.

(** C20. Clearing up behind programs that have ended, which compacts the table in place with
    an index that stays where an entry was removed, is the reference [survivors]: every program is asked
    once and in order, those that have ended are disposed of, and the table then holds exactly the others in their
    order, with their number as the count.  The code a program or kernel32 is asked through is
    assumed not to start or end programs itself. *)
Theorem reap_survivors l tail s :
  g_gui_apps (progs s) = l ++ tail -> g_gui_app_count (progs s) = Z.of_nat (length l) -> (length l <= 16)%nat ->
  exists kept s' tail', survivors l s = (kept, s') /\
    reap invoke 16 0 s = (tt, with_progs s' (set_count (set_apps (progs s) (kept ++ tail')) (Z.of_nat (length kept)))).
Proof.
  intros Hl Hn Hf. destruct (reap_from l [] tail s (progs s) 16 Hl Hn Hf) as [tail' E].
  exists (survivors l s).1, (survivors l s).2, tail'. split; [by destruct (survivors l s)|].
  etrans; [|exact E]. by destruct s.
Qed.

End reaping.

(** ** Command lines *)

(** A command line: the name, between quotation marks if [quote] is one, a blank and
    the arguments. *)
Definition command (quote : Z) (name args : list Z) : list Z :=
  if quote =? 0 then name ++ 32 :: args else quote :: name ++ quote :: 32 :: args.

Lemma take_name_stops n quote name c rest :
  (length name <= n)%nat -> (forall x, x ∈ name -> (if quote =? 0 then is_space x else x =? quote) = false) -> (if quote =? 0 then is_space c else c =? quote) = true ->
  take_name n quote (name ++ c :: rest) = (name, c :: rest).
Proof.
  intros Hn Hin Hc. revert n Hn. induction name as [|x name IH]; intros n Hn.
  - cbn. destruct n; cbn; [done | by rewrite Hc].
  - destruct n as [|n]; [cbn in Hn; lia|]. cbn [app take_name]. rewrite Hin by left. rewrite IH; [done | by intros; apply Hin; right | cbn in Hn; lia].
Qed.

(** The arguments begin with no blank. *)
Definition unblanked (s : list Z) : bool := match s with c :: _ => negb (is_space c) | [] => true end.
Lemma skip_spaces_none s : unblanked s = true -> skip_spaces s = s.
Proof. destruct s as [|c s]; cbn; [done|]. by destruct (is_space c). Qed.

(** A command line put together from a name of up to 255 characters, plain (without blanks, and
    with no quotation mark first) or between single or double quotation marks (and without that mark), and
    arguments that begin with no blank is split into that name and those arguments. *)
Theorem split_command_command quote name args :
  (quote = 0 /\ name <> [] /\ get 0 name 0 <> 34 /\ get 0 name 0 <> 39 /\ forallb (negb ∘ is_space) name = true) \/
  ((quote = 34 \/ quote = 39) /\ forallb (fun c => negb (c =? quote)) name = true) ->
  (length name <= 255)%nat -> unblanked args = true ->
  split_command (command quote name args) = (name, args).
Proof.
  intros Hq Hn Ha. unfold split_command, command. destruct Hq as [(-> & Hne & H34 & H39 & Hb)|[Hq Hb]]; rewrite forallb_forall in Hb.
  - destruct name as [|c name]; [done|]. cbn in H34, H39.
    assert (Hc : is_space c = false) by (apply negb_true_iff, (Hb c); by left).
    change (0 =? 0) with true. cbv iota. rewrite (skip_spaces_none ((c :: name) ++ _)) by (cbn; by rewrite Hc). cbn [app Z.eqb].
    rewrite (proj2 (Z.eqb_neq c 34)), (proj2 (Z.eqb_neq c 39)) by done. cbn [orb].
    change (c :: name ++ 32 :: args) with ((c :: name) ++ 32 :: args). rewrite (take_name_stops 255 0 (c :: name) 32); [|done | intros x Hx; exact (proj1 (negb_true_iff _) (Hb x (proj1 (list_elem_of_In _ _) Hx))) | done].
    cbn. by rewrite skip_spaces_none.
  - assert (E : (quote =? 0) = false /\ is_space quote = false /\ (quote =? 34) || (quote =? 39) = true) by (by destruct Hq as [-> | ->]).
    destruct E as (E0 & E1 & E2). rewrite E0, skip_spaces_none by (cbn; by rewrite E1). cbn [app]. rewrite E2.
    rewrite (take_name_stops 255 quote name quote); rewrite ?E0;
      [|done | intros x Hx; exact (proj1 (negb_true_iff _) (Hb x (proj1 (list_elem_of_In _ _) Hx))) | apply Z.eqb_refl].
    rewrite Z.eqb_refl. cbn. by rewrite skip_spaces_none.
Qed.

(** ** A small world *)

(** Its state counts the calls into programs.  Window 5 is gone, thread 7 has ended; a class's handle
    tells the procedure, a window's handle the class; an entry's address is the length of its name. *)
Definition a_window : W32k.WINDOW :=
  W32k.mkWindow [] (W32k.mkPlace 0 0 100 100) (W32k.mkPlace 0 0 100 100) 0 0 (W32k.mkShow true true false false) false 0 0 0 0 0.

#[local] Instance desk : World Z := {|
  Win32kRegisterClass _ p w := (match p with ErrorProc => 1 | LockProc => 2 | LogonProc => 3 end, w);
  Win32kCreateWindowByClass c _ _ _ _ _ _ w := (100 + c, w);
  destroy_window _ w := ([], w); Win32kActivateWindow _ w := w; Win32kShowWindow _ w := w; Win32kUpdateWindow _ w := w;
  Win32kRedrawAll w := w; Win32kRefreshCursor w := w; Win32kGetActiveWindow _ := 3; Win32kHandleMouseMove _ _ w := w;
  Win32kHandleMouseDown _ _ w := w; Win32kHandleMouseUp _ _ w := w; Win32kIsDragging _ := false; Win32kIsResizing _ := false;
  reference_window h w := (if h =? 5 then None else Some a_window, w); put_window _ _ w := w;
  reference_thread h w := (Some (if h =? 7 then Ke.THREAD_TERMINATED else Ke.THREAD_READY), w); ObDereferenceObject _ w := w;
  KeCreateThread _ _ w := (9, w); KeCreateProcess _ w := (8, w); CdfsReadFile _ w := (Some [77; 90], w); PeLoadImage _ w := (4096, w); PeFreeImage _ w := w;
  PeSetImagePath _ _ w := w; PeResolveImports _ w := (true, w); PeIsELFImage _ _ := false; PePerformRelocations _ w := w;
  PeGetLastError _ := None; PeGetProcAddress _ n w := (Z.of_nat (length n), w); PeGetEntryPoint _ _ := 1; PeLoadDll _ w := (1, w);
  kmalloc _ w := (8192, w); kfree _ w := w; Win32kInit w := w; MouseInit w := w; KeyboardInit w := w; FbGetWidth _ := 640; FbGetHeight _ := 480;
  FbSetResolution _ _ _ w := (true, w); UsbPoll w := w; InputReadControllerByte w := (None, w); MouseHandleByte _ w := w;
  MouseGetState _ := Mouse.mkState 10 10 1 1 0 0 0; KeyboardHandleData _ w := w; KeyboardPollEvent w := (None, w) |}.

Definition call : Z -> list Z -> se Z Z := fun _ _ => act Z.succ;; mret 1.

Definition program (n w th : Z) (k : GUI_APP_KIND) : GUI_APP_INSTANCE := mkApp n [] [] 4096 w th k false 0 15 17 0 15.
Definition boot (st : CSRSS_SESSION_STATE) (l : list GUI_APP_INSTANCE) (capture : Z) : sys Z :=
  mkSys (mkPrograms (l ++ replicate (8 - length l) no_app) (Z.of_nat (length l)) 20 0 ∅)
    (mkWindows INVALID_HANDLE INVALID_HANDLE capture INVALID_HANDLE INVALID_HANDLE INVALID_HANDLE)
    (mkSession st 0 true [] [] INVALID_HANDLE 0) (mkPending [] [] None None) (mkLibs 0 0 0 0 0 0 0 0 0 0 1 0 0 0) 0.

(** The session of a machine on which the logon's thread runs at the first occasion, with a library that accepts the user. *)
Definition accepts : Z -> list Z -> behaviour Z := fun _ _ => Does (fun s => (1, s)) Returns.
Definition quits : option GUI_APP_KIND -> Z -> Z -> list Z -> list Z -> behaviour Z := fun _ _ _ _ _ => Yields Returns.
Definition logon_first : sys Z -> list (activity Z) := fun s => if bool_decide (g_session_state (sess s) = CSRSS_SESSION_BOOTING) then [Logon] else [].
Example session_logs_on :
  let o := outside_at AMD64 accepts quits logon_first 1 in
  g_session_state (sess (session_loop AMD64 (invokes o) (runs o) (yields o) 2 4 (mkTurn 0 0 0 0 true) (boot CSRSS_SESSION_BOOTING [] INVALID_HANDLE)).2) = CSRSS_SESSION_LOGGED_ON.
Proof. vm_compute. reflexivity. Qed.

Definition some_programs : list GUI_APP_INSTANCE :=
  [program 1 5 0 GUI_APP_KIND_CUSTOM; program 2 3 0 GUI_APP_KIND_CUSTOM; program 3 4 7 GUI_APP_KIND_WINMAIN; program 4 6 8 GUI_APP_KIND_MAIN].

Lemma reap_survivors_witness :
  exists kept s' tail', survivors call some_programs (boot CSRSS_SESSION_LOGGED_ON some_programs INVALID_HANDLE) = (kept, s') /\
    reap call 16 0 (boot CSRSS_SESSION_LOGGED_ON some_programs INVALID_HANDLE) =
      (tt, with_progs s' (set_count (set_apps (progs (boot CSRSS_SESSION_LOGGED_ON some_programs INVALID_HANDLE)) (kept ++ tail')) (Z.of_nat (length kept)))).
Proof.
  assert (Hc : forall f l, Blind (call f l)) by (intros f l s q; reflexivity).
  apply (reap_survivors call some_programs (replicate 4 no_app)); [reflexivity | reflexivity | cbn; lia].
Defined.

Lemma split_command_command_witness :
  split_command (command 34 (cstr "C:/My Programs/CMD.EXE") (cstr "/C dir")) = (cstr "C:/My Programs/CMD.EXE", cstr "/C dir").
Proof. apply split_command_command; [right; split; [left|]; reflexivity | cbn; lia | reflexivity]. Defined.

(** ** What programs and users can run into *)

(** A program whose start starts another: the table's slot and the check for a free one
    are the outer start's, so the ninth entry is counted in a table of eight. *)
Definition call_nested : Z -> list Z -> se Z Z := fun f _ => if f =? 10 then csrss_execute_image AMD64 call (mret tt) (cstr "/B.EXE");; mret 1 else mret 3.
Example nested_start_overflows :
  let '(r, s) := csrss_spawn_gui_instance AMD64 call_nested (mret tt) (cstr "/A.EXE") [] (boot CSRSS_SESSION_LOGGED_ON (replicate 7 (program 1 3 0 GUI_APP_KIND_CUSTOM)) INVALID_HANDLE) in
  r = 0 /\ g_gui_app_count (progs s) = 9 /\ length (g_gui_apps (progs s)) = 8%nat.
Proof. vm_compute. auto. Qed.

(** A thread's context points to its program's slot; once an earlier program has been removed,
    the thread runs as the program that has moved there. *)
Example thread_runs_as_another :
  let progs0 := [program 1 5 0 GUI_APP_KIND_CUSTOM; program 2 3 8 GUI_APP_KIND_WINMAIN; program 3 4 9 GUI_APP_KIND_WINMAIN] in
  let s := boot CSRSS_SESSION_LOGGED_ON progs0 INVALID_HANDLE in
  let s := (set_progs (fun p => set_contexts p {[8192 := mkCtx 1 1 GUI_APP_KIND_WINMAIN []]}) s).2 in
  let s := (reap call 16 0 s).2 in
  let seen := fun _ _ _ _ _ => query (g_current_gui_pid ∘ progs) in
  let s := (csrss_gui_thread_main call seen 8192 s).2 in
  map (fun p => (pid p, exited p, exit_code p)) (take 2 (g_gui_apps (progs s))) = [(2, false, 0); (3, true, 3)].
Proof. vm_compute. reflexivity. Qed.

(** After the built-in logon screen, locking shows a window of the logon's class. *)
Example lock_screen_is_logon_screen :
  let s := (csrss_show_logon_screen;; csrss_complete_logon;; csrss_session_lock call) (boot CSRSS_SESSION_BOOTING [] INVALID_HANDLE) in
  (g_session_state (sess s.2), g_lock_window (wins s.2)) = (CSRSS_SESSION_LOCKED, 103).
Proof. vm_compute. reflexivity. Qed.

(** A locked session still calls the program that has the mouse captured. *)
Example locked_mouse_reaches_program :
  let s := boot CSRSS_SESSION_LOCKED [program 1 3 0 GUI_APP_KIND_CUSTOM] 3 in
  world (mouse_byte call 0 (mkTurn 0 0 1 0 true) s).2 = 1.
Proof. vm_compute. reflexivity. Qed.

(** Ctrl+Alt+Del unlocks; Ctrl+Alt+Enter, which the lock screen asks for, does not. *)
Example unlocked_without_password :
  let s := boot CSRSS_SESSION_LOCKED [] INVALID_HANDLE in
  let t := mkTurn 0 0 0 0 true in
  g_session_state (sess (key_event call (Keyboard.mkEvent 28 13 1 0 1 1 0) t s).2) = CSRSS_SESSION_LOCKED /\
  g_session_state (sess (key_event call (Keyboard.mkEvent 83 0 1 0 1 1 1) t s).2) = CSRSS_SESSION_LOGGED_ON.
Proof. vm_compute. auto. Qed.

End CsrssSpec.
