(* ===== verification/Audio.v ===== *)
(** * kernel/audio/audio_service.c and drivers/audio: playback

    The service picks the first sound device that plays, wraps samples in a packet
    and sends it as a device control request; the four drivers ([ac97.c], [es1371.c], [hda.c],
    [sb16.c]) check the packet and feed the samples to their chip.  As in [Nic], the memory a
    chip reads by DMA belongs to the hardware and is written with the bus's stores.
    [CpuRelax] does nothing, [KeYield], which lets other threads run, is an argument, and
    so are the request path of the I/O manager ([control]) and the registration of a
    device with it ([register]).  Serial log lines are left out, but not the
    registers read for them. *)

From stdpp Require Import base list numbers gmap strings.
From Stdlib Require Import ZArith Lia.
From S2P Require Import Prelude.
From S2P Require Import Util.
From S2P Require Import Pmm.
From S2P Require Import Vmm.
From S2P Require Import Paging.
From S2P Require Import Mm.
From S2P Require Import Io.
From S2P Require Import Hw.
From S2P Require Import Nic.
Import Util Pmm Vmm Paging Hw Nic.

Module Audio.

Definition AUDIO_IOCTL_GET_CAPS : Z := 1096107009.
Definition AUDIO_IOCTL_PLAY_PCM : Z := 1096107010.
Definition AUDIO_IOCTL_STREAM_START : Z := 1096107011.
Definition AUDIO_IOCTL_STREAM_WRITE : Z := 1096107012.
Definition AUDIO_IOCTL_STREAM_STOP : Z := 1096107013.
Definition AUDIO_FORMAT_S16_STEREO : Z := 1.
Definition AUDIO_CAP_PLAYBACK : Z := 1.

Record AUDIO_FORMAT := mkFormat { sample_rate : Z; channels : Z; format : Z }.
Record AUDIO_CAPS := mkCaps { caps_format : AUDIO_FORMAT; max_buffer_size : Z; flags : Z }.

(** ** The structures as bytes *)
Definition le16 (v : Z) : list Z := [u8 v; u8 (Z.shiftr v 8)].
Definition le32 (v : Z) : list Z := [u8 v; u8 (Z.shiftr v 8); u8 (Z.shiftr v 16); u8 (Z.shiftr v 24)].
Definition at16 (l : list Z) (i : Z) : Z := get 0 l i + 256 * get 0 l (i + 1).
Definition at32 (l : list Z) (i : Z) : Z := at16 l i + 65536 * at16 l (i + 2).

Definition format_bytes (f : AUDIO_FORMAT) : list Z := le32 (sample_rate f) ++ le16 (channels f) ++ le16 (format f).
Definition format_at (l : list Z) : AUDIO_FORMAT := mkFormat (at32 l 0) (at16 l 4) (at16 l 6).
Definition caps_bytes (c : AUDIO_CAPS) : list Z := format_bytes (caps_format c) ++ le32 (max_buffer_size c) ++ le32 (flags c).
(** An [AUDIO_PCM_PACKET] and the samples behind it. *)
Definition pcm_packet (f : AUDIO_FORMAT) (samples : list Z) : list Z := format_bytes f ++ le32 (Z.of_nat (length samples)) ++ samples.

(** ** The service *)
Record service := mkService { audio_stream_endpoint : option (list Z); audio_stream_fallback : bool; audio_stream_active : bool }.

Section service.
Context {M H : Type} `{KernelHeap H}.
(** [IoDeviceControl]: device, code and input; the status and what the output buffer then holds. *)
Context (control : list Z -> Z -> list Z -> M -> (Z * list Z) * M).

Record audio := mkAudio { svc : service; devices : M; kheap : H }.

Definition request (device : list Z) (code : Z) (input : list Z) (s : audio) : (Z * list Z) * audio :=
  let '(r, m) := control device code input (devices s) in (r, mkAudio (svc s) m (kheap s)).

Definition audio_devices : list (list Z) := [cstr "AudioHDA"; cstr "AudioES1371"; cstr "AudioAC97"; cstr "AudioSB16"].

(** The first device that answers and can play. *)
Fixpoint first_playing (l : list (list Z)) (s : audio) : option (list Z) * audio :=
  match l with
  | [] => (None, s)
  | d :: l =>
      let '((status, caps), s) := request d AUDIO_IOCTL_GET_CAPS [] s in
      if (status =? Io.IO_STATUS_SUCCESS) && negb (Z.land (at32 caps 12) AUDIO_CAP_PLAYBACK =? 0) then (Some d, s) else first_playing l s
  end.
Definition audio_endpoint : audio -> option (list Z) * audio := first_playing audio_devices.

Definition AudioServiceGetCaps (s : audio) : (Z * list Z) * audio :=
  let '(e, s) := audio_endpoint s in
  match e with None => ((Io.IO_STATUS_NOT_FOUND, []), s) | Some e => request e AUDIO_IOCTL_GET_CAPS [] s end.

(** A packet is built on the heap, sent and released. *)
Definition send_packet (device : list Z) (code : Z) (f : AUDIO_FORMAT) (samples : list Z) (s : audio) : option (Z * audio) :=
  '(p, h) ← kh_malloc (12 + Z.of_nat (length samples)) (kheap s);
  let s := mkAudio (svc s) (devices s) h in
  if p =? 0 then Some (Io.IO_STATUS_NO_MEMORY, s) else
  let '((status, _), s) := request device code (pcm_packet f samples) s in
  h ← kh_free p (kheap s);
  Some (status, mkAudio (svc s) (devices s) h).

(** [None] for a null pointer. *)
Definition AudioServicePlay (f : option AUDIO_FORMAT) (samples : option (list Z)) (s : audio) : option (Z * audio) :=
  let '(e, s) := audio_endpoint s in
  match e, f, samples with
  | None, _, _ => Some (Io.IO_STATUS_NOT_FOUND, s)
  | Some e, Some f, Some samples =>
      let bytes := Z.of_nat (length samples) in
      if (bytes =? 0) || (4194304 <? bytes) then Some (Io.IO_STATUS_INVALID_PARAMETER, s) else send_packet e AUDIO_IOCTL_PLAY_PCM f samples s
  | Some _, _, _ => Some (Io.IO_STATUS_INVALID_PARAMETER, s)
  end.

Definition AudioServiceStreamStart (f : option AUDIO_FORMAT) (s : audio) : Z * audio :=
  match f with
  | None => (Io.IO_STATUS_INVALID_PARAMETER, s)
  | Some f =>
      if (sample_rate f =? 0) || (channels f =? 0) then (Io.IO_STATUS_INVALID_PARAMETER, s) else
      if audio_stream_active (svc s) then (Io.IO_STATUS_INVALID_PARAMETER, s) else
      let '(e, s) := audio_endpoint s in
      match e with
      | None => (Io.IO_STATUS_NOT_FOUND, s)
      | Some e =>
          let '((status, _), s) := request e AUDIO_IOCTL_STREAM_START (format_bytes f) s in
          let fallback := status =? Io.IO_STATUS_NOT_SUPPORTED in
          if negb fallback && negb (status =? Io.IO_STATUS_SUCCESS)
          then (status, mkAudio (mkService None fallback (audio_stream_active (svc s))) (devices s) (kheap s))
          else (Io.IO_STATUS_SUCCESS, mkAudio (mkService (Some e) fallback true) (devices s) (kheap s))
      end
  end.

Definition AudioServiceStreamWrite (f : option AUDIO_FORMAT) (samples : option (list Z)) (s : audio) : option (Z * audio) :=
  match f, samples with
  | Some fmt, Some l =>
      let bytes := Z.of_nat (length l) in
      if negb (audio_stream_active (svc s)) || (bytes =? 0) || (131072 <? bytes) then Some (Io.IO_STATUS_INVALID_PARAMETER, s) else
      if audio_stream_fallback (svc s) then AudioServicePlay f samples s else
      e ← audio_stream_endpoint (svc s);
      send_packet e AUDIO_IOCTL_STREAM_WRITE fmt l s
  | _, _ => Some (Io.IO_STATUS_INVALID_PARAMETER, s)
  end.

Definition AudioServiceStreamStop (s : audio) : option (Z * audio) :=
  if negb (audio_stream_active (svc s)) then Some (Io.IO_STATUS_INVALID_PARAMETER, s) else
  '(status, s) ←
    (if audio_stream_fallback (svc s) then Some (Io.IO_STATUS_SUCCESS, s) else
     e ← audio_stream_endpoint (svc s); let '((status, _), s) := request e AUDIO_IOCTL_STREAM_STOP [] s in Some (status, s));
  Some (status, mkAudio (mkService None false false) (devices s) (kheap s)).

End service.

(** ** Requests at a driver *)

(** The code, the input buffer, and the length of the output buffer (if there is one). *)
Record REQUEST := mkReq { code : Z; input : option (list Z); output_length : option Z }.
(** The status, [information] and what is written to the output. *)
Definition reply : Type := Z * option (list Z).
Definition fail (status : Z) : reply := (status, None).

Definition caps_reply (r : REQUEST) (c : AUDIO_CAPS) : reply :=
  match output_length r with
  | Some n => if n <? 16 then fail Io.IO_STATUS_INVALID_PARAMETER else (Io.IO_STATUS_SUCCESS, Some (caps_bytes c))
  | None => fail Io.IO_STATUS_INVALID_PARAMETER
  end.

(** The format and the samples of a packet, checked against the length of the input. *)
Definition packet_at (r : REQUEST) : option (AUDIO_FORMAT * list Z) :=
  l ← input r;
  if Z.of_nat (length l) <? 12 then None else
  let n := at32 l 8 in
  if Z.of_nat (length l) - 12 <? n then None else Some (format_at l, take (Z.to_nat n) (drop 12 l)).

Definition stereo16 (f : AUDIO_FORMAT) : bool := (format f =? AUDIO_FORMAT_S16_STEREO) && (channels f =? 2).

Section drivers.
Context {D : Type} `{Bus D} (a : arch) (KeYield : hw D unit).

(** Operations whose waiting is bounded by the device only, with fuel. *)
Definition op (A : Type) : Type := D -> option (A * D).
#[global] Instance op_ret : MRet op := fun A x d => Some (x, d).
#[global] Instance op_bind : MBind op := fun A B k f d => match f d with Some (x, d) => k x d | None => None end.
Definition now {A} (f : hw D A) : op A := fun d => Some (f d).

Fixpoint each (n : nat) (i : Z) (f : Z -> hw D unit) : hw D unit :=
  match n with O => mret tt | S n => f i;; each n (i + 1) f end.

(** *** AC'97: a ring of 32 slots of 32 KiB *)
Definition AC97_STREAM_SLOTS : Z := 32.
Definition AC97_STREAM_SLOT_BYTES : Z := 32768.
Definition AC97_BUFFER_BYTES : Z := AC97_STREAM_SLOT_BYTES * AC97_STREAM_SLOTS.

Record AC97_STATE := mkAc97 { ac_mixer : Z; ac_bus : Z; ac_bdl : Z; ac_buffer : Z }.
Record stream := mkStream { active : bool; running : bool; s_read : Z; s_write : Z; s_queued : Z; s_fill : Z; s_commits : Z }.
Definition no_stream : stream := mkStream false false 0 0 0 0 0.
Definition set_running (s : stream) : stream := mkStream (active s) true (s_read s) (s_write s) (s_queued s) (s_fill s) (s_commits s).
Definition set_fill (s : stream) (n : Z) : stream := mkStream (active s) (running s) (s_read s) (s_write s) (s_queued s) n (s_commits s).
(** One slot further on the side of the chip, and of the driver. *)
Definition played (s : stream) : stream := mkStream (active s) (running s) (Z.land (s_read s + 1) 31) (s_write s) (u8 (s_queued s - 1)) (s_fill s) (s_commits s).
Definition queued_one (s : stream) : stream := mkStream (active s) (running s) (s_read s) (Z.land (s_write s + 1) 31) (u8 (s_queued s + 1)) (s_fill s) (s_commits s).
Definition counted (s : stream) : stream := mkStream (active s) (running s) (s_read s) (s_write s) (s_queued s) (s_fill s) (u32 (s_commits s + 1)).

Definition mixer_write (c : AC97_STATE) (reg v : Z) : hw D unit := outw a (ac_mixer c + reg) v.
Definition mixer_read (c : AC97_STATE) (reg : Z) : hw D Z := inw a (ac_mixer c + reg).
Definition bm_read8 (c : AC97_STATE) (off : Z) : hw D Z := inb a (ac_bus c + off).
Definition bm_read16 (c : AC97_STATE) (off : Z) : hw D Z := inw a (ac_bus c + off).
Definition bm_write8 (c : AC97_STATE) (off v : Z) : hw D unit := outb a (ac_bus c + off) v.
Definition bm_write32 (c : AC97_STATE) (off v : Z) : hw D unit := outl a (ac_bus c + off) v.

(** Registers of the playback engine. *)
Definition PCM_BDL : Z := 16.
Definition PCM_CIV : Z := 20.
Definition PCM_LVI : Z := 21.
Definition PCM_STATUS : Z := 22.
Definition PCM_PICB : Z := 24.
Definition PCM_CONTROL : Z := 27.

Definition ac97_stream_extend_dma (c : AC97_STATE) (slot : Z) (s : stream) : hw D stream :=
  status ← bm_read8 c PCM_STATUS;
  bm_write8 c PCM_STATUS 24;; bm_write8 c PCM_LVI slot;;
  if Z.land status 1 =? 0 then mret s else bm_write8 c PCM_CONTROL 17;; mret (set_running s).

(** Slots before the one the chip is at have been played. *)
Fixpoint reap_to (n : nat) (civ : Z) (s : stream) : stream :=
  match n with
  | O => s
  | S n => if (s_queued s =? 0) || (s_read s =? civ) then s else reap_to n civ (played s)
  end.

Definition ac97_stream_reap (c : AC97_STATE) (s : stream) : hw D stream :=
  civ ← bm_read8 c PCM_CIV; picb ← bm_read16 c PCM_PICB;
  let s := reap_to (Z.to_nat (s_queued s)) (Z.land civ 31) s in
  if s_queued s =? 0 then mret s else
  status ← bm_read8 c PCM_STATUS;
  mret (if negb (Z.land status 1 =? 0) && (picb =? 0) then played s else s).

Definition slot_address (c : AC97_STATE) (i : Z) : Z := ac_buffer c + i * AC97_STREAM_SLOT_BYTES.

Definition ac97_stream_start (c : AC97_STATE) (f : AUDIO_FORMAT) (s : stream) : hw D (Z * stream) :=
  if negb (stereo16 f) || (sample_rate f =? 0) then mret (Io.IO_STATUS_INVALID_PARAMETER, s) else
  mixer_write c 44 (sample_rate f);; mixer_write c 2 0;; mixer_write c 24 0;;
  bm_write8 c PCM_CONTROL 2;;
  poll (Z.to_nat 10000) (bm_read8 c PCM_CONTROL) (fun v => Z.land v 2 =? 0);;
  zero_out (ac_bdl c) 4096;;
  each 32 0 (fun i => st W32 (ac_bdl c + 8 * i) (VmmGetPhysicalAddress (slot_address c i)));;
  bm_write32 c PCM_BDL (VmmGetPhysicalAddress (ac_bdl c));;
  bm_write8 c PCM_CIV 0;; bm_write8 c PCM_LVI 0;; bm_write8 c PCM_STATUS 29;;
  mret (Io.IO_STATUS_SUCCESS, mkStream true false 0 0 0 0 0).

(** The commits that are logged read three registers. *)
Definition commit_logged (n : Z) : bool := (n <=? 8) || ((32 <=? n) && (n <=? 40)) || (Z.land n 31 =? 0).

Definition ac97_stream_commit_slot (c : AC97_STATE) (length : Z) (s : stream) : hw D stream :=
  let slot := s_write s in
  st W32 (ac_bdl c + 8 * slot) (VmmGetPhysicalAddress (slot_address c slot));;
  st W32 (ac_bdl c + 8 * slot + 4) (Z.lor (Z.land (Z.shiftr length 1) 65535) 2147483648);;
  let s := queued_one s in
  s ← (if running s then ac97_stream_extend_dma c slot s else mret s);
  let s := counted s in
  (if commit_logged (s_commits s) then bm_read8 c PCM_CIV;; bm_read16 c PCM_PICB;; bm_read8 c PCM_STATUS;; mret tt else mret tt);;
  mret s.

Definition ac97_stream_start_dma (c : AC97_STATE) (last_valid : Z) (s : stream) : hw D stream :=
  bm_write8 c PCM_LVI last_valid;; bm_write8 c PCM_CONTROL 17;; mret (set_running s).

(** Waiting while the test holds. *)
Fixpoint reap_while (fuel : nat) (test : stream -> bool) (c : AC97_STATE) (s : stream) : op stream :=
  match fuel with
  | O => if test s then fun _ => None else mret s
  | S n => if test s then s ← now (ac97_stream_reap c s); now KeYield;; reap_while n test c s else mret s
  end.
Definition full (s : stream) : bool := s_queued s =? AC97_STREAM_SLOTS.

(** What fits into the current slot, and the slot when it is full. *)
Definition write_part (c : AC97_STATE) (data : list Z) (s : stream) : hw D stream :=
  copy_out (slot_address c (s_write s) + s_fill s) data;;
  let s := set_fill s (s_fill s + Z.of_nat (length data)) in
  if negb (s_fill s =? AC97_STREAM_SLOT_BYTES) then mret s else
  s ← ac97_stream_commit_slot c (s_fill s) s;
  let s := set_fill s 0 in
  if negb (running s) && full s then ac97_stream_start_dma c 31 s else mret s.

(** [turns] is for the loop over the data, [fuel] for each wait. *)
Fixpoint write_loop (turns fuel : nat) (c : AC97_STATE) (data : list Z) (s : stream) : op stream :=
  match data with
  | [] => mret s
  | _ =>
      match turns with
      | O => fun _ => None
      | S n =>
          s ← reap_while fuel full c s;
          let take_ := Z.to_nat (AC97_STREAM_SLOT_BYTES - s_fill s) in
          s ← now (write_part c (take take_ data) s);
          write_loop n fuel c (drop take_ data) s
      end
  end.

Definition ac97_stream_write (fuel : nat) (c : AC97_STATE) (data : list Z) (s : stream) : op (Z * stream) :=
  let n := Z.of_nat (length data) in
  if negb (active s) || (n =? 0) || negb (Z.land n 3 =? 0) then mret (Io.IO_STATUS_INVALID_PARAMETER, s) else
  s ← write_loop (length data) fuel c data s; mret (Io.IO_STATUS_SUCCESS, s).

Definition ac97_stream_stop (fuel : nat) (c : AC97_STATE) (s : stream) : op (Z * stream) :=
  if negb (active s) then mret (Io.IO_STATUS_INVALID_PARAMETER, s) else
  s ← now (if s_fill s =? 0 then mret s else s ← ac97_stream_commit_slot c (s_fill s) s; mret (set_fill s 0));
  let last := Z.land (s_write s + 31) 31 in
  s ← now (if negb (running s) && negb (s_queued s =? 0) then ac97_stream_start_dma c last s
           else if running s && negb (s_queued s =? 0) then bm_write8 c PCM_LVI last;; mret s else mret s);
  s ← reap_while fuel (fun s => negb (s_queued s =? 0)) c s;
  now (bm_write8 c PCM_STATUS 29);;
  mret (Io.IO_STATUS_SUCCESS, mkStream false (running s) (s_read s) (s_write s) (s_queued s) (s_fill s) (s_commits s)).

(** Pieces of a slot's size at most, cut to whole frames. *)
Fixpoint play_pieces (turns fuel : nat) (c : AC97_STATE) (data : list Z) (s : stream) : op (Z * stream) :=
  match data with
  | [] => mret (Io.IO_STATUS_SUCCESS, s)
  | _ =>
      match turns with
      | O => fun _ => None
      | S n =>
          let chunk := Z.to_nat (Z.land (Z.min (Z.of_nat (length data)) AC97_STREAM_SLOT_BYTES) (-4)) in
          '(status, s) ← ac97_stream_write fuel c (take chunk data) s;
          if negb (status =? Io.IO_STATUS_SUCCESS) then mret (status, s) else play_pieces n fuel c (drop chunk data) s
      end
  end.

Definition ac97_play (fuel : nat) (c : AC97_STATE) (data : list Z) (f : AUDIO_FORMAT) (s : stream) : op (Z * stream) :=
  let n := Z.of_nat (length data) in
  if (n =? 0) || (AC97_BUFFER_BYTES <? n) || negb (stereo16 f) || (sample_rate f =? 0) then mret (Io.IO_STATUS_INVALID_PARAMETER, s) else
  '(status, s) ← now (ac97_stream_start c f s);
  if negb (status =? Io.IO_STATUS_SUCCESS) then mret (status, s) else
  '(status, s) ← play_pieces (length data) fuel c data s;
  if negb (status =? Io.IO_STATUS_SUCCESS) then mret (status, s) else ac97_stream_stop fuel c s.

Definition ac97_control (fuel : nat) (c : AC97_STATE) (r : REQUEST) (s : stream) : op (reply * stream) :=
  let done (f : op (Z * stream)) : op (reply * stream) := '(status, s) ← f; mret (fail status, s) in
  let refuse := mret (fail Io.IO_STATUS_INVALID_PARAMETER, s) in
  if code r =? AUDIO_IOCTL_GET_CAPS then mret (caps_reply r (mkCaps (mkFormat 48000 2 AUDIO_FORMAT_S16_STEREO) AC97_BUFFER_BYTES AUDIO_CAP_PLAYBACK), s) else
  if code r =? AUDIO_IOCTL_PLAY_PCM then match packet_at r with Some (f, data) => done (ac97_play fuel c data f s) | None => refuse end else
  if code r =? AUDIO_IOCTL_STREAM_START then
    match input r with
    | Some l => if Z.of_nat (length l) <? 8 then refuse else done (now (ac97_stream_start c (format_at l) s))
    | None => refuse
    end else
  if code r =? AUDIO_IOCTL_STREAM_WRITE then match packet_at r with Some (_, data) => done (ac97_stream_write fuel c data s) | None => refuse end else
  if code r =? AUDIO_IOCTL_STREAM_STOP then done (ac97_stream_stop fuel c s) else
  mret (fail Io.IO_STATUS_NOT_SUPPORTED, s).

(** *** Ensoniq AudioPCI *)
Definition ES_BUFFER_BYTES : Z := 131072.
Record ES_STATE := mkEs { es_io : Z; legacy_1370 : bool; es_buffer : Z; es_ctrl : Z; es_serial : Z }.
Definition with_ctrl (e : ES_STATE) (v : Z) : ES_STATE := mkEs (es_io e) (legacy_1370 e) (es_buffer e) v (es_serial e).
Definition with_serial (e : ES_STATE) (v : Z) : ES_STATE := mkEs (es_io e) (legacy_1370 e) (es_buffer e) (es_ctrl e) v.
(** Bits cleared of a 32-bit word. *)
Definition without (v mask : Z) : Z := Z.land v (4294967295 - mask).

Definition es_read (e : ES_STATE) (reg : Z) : hw D Z := inl a (es_io e + reg).
Definition es_write (e : ES_STATE) (reg v : Z) : hw D unit := outl a (es_io e + reg) v.

(** The last value read, ready or not. *)
Fixpoint src_ready_loop (n : nat) (e : ES_STATE) (value : Z) : hw D Z :=
  match n with
  | O => mret value
  | S n => value ← es_read e 16; if Z.land value 8388608 =? 0 then mret value else src_ready_loop n e value
  end.
Definition es_src_ready (e : ES_STATE) : hw D Z := src_ready_loop (Z.to_nat 40960) e 0.

Definition es_src_write (e : ES_STATE) (reg data : Z) : hw D unit :=
  v ← es_src_ready e;
  es_write e 16 (Z.lor (Z.lor (Z.lor (Z.land v 7864320) (Z.shiftl (Z.land reg 127) 25)) 16777216) data);;
  es_src_ready e;; mret tt.

Definition es_frequency (rate : Z) : Z := u32 (rate * 32768 + 1500) / 3000.
Definition es_set_rate (e : ES_STATE) (rate : Z) : hw D unit :=
  if legacy_1370 e then mret tt else
  let freq := es_frequency rate in
  v ← es_src_ready e;
  es_write e 16 (Z.lor (Z.land v 5767168) 2097152);;
  es_src_write e 113 (u16 (Z.land (Z.shiftr freq 5) 64512));;
  es_src_write e 115 (u16 (Z.land freq 32767));;
  v ← es_src_ready e;
  es_write e 16 (Z.land v 5767168).

Fixpoint codec_write_loop (n : nat) (e : ES_STATE) (v : Z) : hw D unit :=
  match n with
  | O => mret tt
  | S n => x ← es_read e 20; if Z.land x 1073741824 =? 0 then es_write e 20 v else codec_write_loop n e v
  end.
Definition es_codec_write (e : ES_STATE) (reg value : Z) : hw D unit := codec_write_loop (Z.to_nat 40960) e (Z.lor (Z.shiftl (Z.land reg 127) 16) value).

(** The end of the frame: the interrupt, or the position back at the start. *)
Fixpoint es_wait (n : nat) (e : ES_STATE) (started : bool) : hw D unit :=
  match n with
  | O => mret tt
  | S n =>
      v ← es_read e 52;
      let current := Z.shiftr v 16 in
      let started := started || (negb (current =? 0) && negb (current =? 65535)) in
      status ← es_read e 4;
      if negb (Z.land status 4 =? 0) then mret tt else
      if started && (current =? 0) then mret tt else es_wait n e started
  end.

Definition es_play (e : ES_STATE) (data : list Z) (f : AUDIO_FORMAT) : hw D (Z * ES_STATE) :=
  let n := Z.of_nat (length data) in
  if (n =? 0) || (ES_BUFFER_BYTES <? n) || negb (Z.land n 3 =? 0) || negb (stereo16 f) || (sample_rate f =? 0) then mret (Io.IO_STATUS_INVALID_PARAMETER, e) else
  copy_out (es_buffer e) data;;
  let words := Z.shiftr n 2 in
  es_codec_write e 2 0;; es_codec_write e 24 0;; es_set_rate e (sample_rate f);;
  let e := with_ctrl e (without (es_ctrl e) 64) in
  es_write e 0 (es_ctrl e);; es_write e 12 12;; es_write e 48 (VmmGetPhysicalAddress (es_buffer e));;
  es_write e 52 (words - 1);; es_write e 36 (words - 1);;
  let e := with_serial e (Z.lor (without (es_serial e) 8323) 8579) in
  es_write e 32 (es_serial e);; es_write e 4 4;;
  let e := with_ctrl e (Z.lor (es_ctrl e) 192) in
  es_write e 0 (es_ctrl e);;
  es_wait (Z.to_nat 33554432) e false;;
  let e := with_ctrl e (without (es_ctrl e) 64) in
  es_write e 0 (es_ctrl e);; es_write e 4 4;; es_read e 4;;
  mret (Io.IO_STATUS_SUCCESS, e).

Definition es_control (r : REQUEST) (e : ES_STATE) : hw D (reply * ES_STATE) :=
  if code r =? AUDIO_IOCTL_GET_CAPS then
    mret (caps_reply r (mkCaps (mkFormat (if legacy_1370 e then 44100 else 48000) 2 AUDIO_FORMAT_S16_STEREO) ES_BUFFER_BYTES AUDIO_CAP_PLAYBACK), e)
  else if code r =? AUDIO_IOCTL_PLAY_PCM then
    match packet_at r with
    | Some (f, data) => '(status, e) ← es_play e data f; mret (fail status, e)
    | None => mret (fail Io.IO_STATUS_INVALID_PARAMETER, e)
    end
  else mret (fail Io.IO_STATUS_NOT_SUPPORTED, e).

(** *** High Definition Audio *)
Definition HDA_BUFFER_BYTES : Z := 131072.
Definition HDA_SLOT_BYTES : Z := 32768.
Record HDA_STATE := mkHda { hda_mmio : Z; hda_bdl : Z; hda_buffer : Z; corb : Z; rirb : Z; codec : Z; hda_output : Z; pin : Z; stream_mmio : Z }.
Definition with_codec (h : HDA_STATE) (c o p : Z) : HDA_STATE := mkHda (hda_mmio h) (hda_bdl h) (hda_buffer h) (corb h) (rirb h) c o p (stream_mmio h).
Definition with_stream (h : HDA_STATE) (v : Z) : HDA_STATE := mkHda (hda_mmio h) (hda_bdl h) (hda_buffer h) (corb h) (rirb h) (codec h) (hda_output h) (pin h) v.

Definition hread (w : width) (h : HDA_STATE) (reg : Z) : hw D Z := ld w (hda_mmio h + reg).
Definition hwrite (w : width) (h : HDA_STATE) (reg v : Z) : hw D unit := st w (hda_mmio h + reg) v.
Definition sread (h : HDA_STATE) (reg : Z) : hw D Z := ld W32 (stream_mmio h + reg).
Definition swrite (w : width) (h : HDA_STATE) (reg v : Z) : hw D unit := st w (stream_mmio h + reg) v.

(** Whether the reset failed. *)
Definition hda_reset (h : HDA_STATE) : hw D bool :=
  hread W32 h 8;;
  v ← hread W32 h 8; hwrite W32 h 8 (without v 1);;
  poll (Z.to_nat 100000) (hread W32 h 8) (fun v => Z.land v 1 =? 0);;
  v ← hread W32 h 8; hwrite W32 h 8 (Z.lor v 1);;
  ok ← poll (Z.to_nat 100000) (hread W32 h 8) (fun v => negb (Z.land v 1 =? 0));
  (if ok : bool then hread W32 h 8;; mret tt else hread W32 h 8;; hread W32 h 8;; mret tt);;
  mret (negb ok).

Definition hda_rings_init (h : HDA_STATE) : hw D unit :=
  zero_out (corb h) 4096;; zero_out (rirb h) 4096;;
  hwrite W8 h 76 0;; hwrite W8 h 92 0;; hwrite W16 h 74 32768;; hwrite W16 h 72 0;; hwrite W16 h 88 0;; hwrite W16 h 90 1;;
  hwrite W32 h 64 (VmmGetPhysicalAddress (corb h));; hwrite W32 h 68 0;;
  hwrite W32 h 80 (VmmGetPhysicalAddress (rirb h));; hwrite W32 h 84 0;;
  hwrite W8 h 76 2;; hwrite W8 h 92 2.

Fixpoint response (n : nat) (h : HDA_STATE) (old : Z) : hw D Z :=
  match n with
  | O => mret 4294967295
  | S n =>
      wp ← hread W8 h 88;
      if wp =? old then response n h old else
      wp ← hread W8 h 88; v ← ld W32 (rirb h + 8 * wp); mret (Z.land v 16777215)
  end.

Definition verb_word (codec node verb payload : Z) : Z :=
  u32 (Z.lor (Z.lor (Z.lor (Z.shiftl codec 28) (Z.shiftl node 20)) (Z.shiftl (Z.land verb 4095) 8)) (Z.land payload 1048575)).
Definition hda_verb (h : HDA_STATE) (codec node verb payload : Z) : hw D Z :=
  wp ← hread W8 h 72;
  let wp := u8 (wp + 1) in
  old ← hread W8 h 88;
  st W32 (corb h + 4 * wp) (verb_word codec node verb payload);;
  hwrite W8 h 72 wp;;
  response (Z.to_nat 100000) h old.

(** The first output and the first pin among the widgets. *)
Fixpoint scan_widgets (n : nat) (node : Z) (h : HDA_STATE) (codec output pin : Z) : hw D (Z * Z) :=
  match n with
  | O => mret (output, pin)
  | S n =>
      caps ← hda_verb h codec (u8 node) 3840 9;
      let type := Z.land (Z.shiftr caps 20) 15 in
      scan_widgets n (node + 1) h codec
        (if (type =? 0) && (output =? 0) then u8 node else output) (if (type =? 4) && (pin =? 0) then u8 node else pin)
  end.

Fixpoint scan_codecs (n : nat) (codec state : Z) (h : HDA_STATE) : hw D HDA_STATE :=
  match n with
  | O => mret h
  | S n =>
      if Z.testbit state codec then
        nodes ← hda_verb h codec 0 3840 4;
        '(output, pin) ← scan_widgets (Z.to_nat (u8 nodes)) (u8 (Z.shiftr nodes 16)) h codec 0 0;
        if negb (output =? 0) && negb (pin =? 0) then
          hda_verb h codec pin 1793 0;; hda_verb h codec pin 1799 64;; hda_verb h codec output 768 176;;
          mret (with_codec h codec output pin)
        else scan_codecs n (codec + 1) state h
      else scan_codecs n (codec + 1) state h
  end.
Definition hda_codec_setup (h : HDA_STATE) : hw D HDA_STATE := state ← hread W32 h 14; scan_codecs 15 0 state h.

(** One descriptor for every slot with data. *)
Fixpoint fill_bdl (n : nat) (i length : Z) (h : HDA_STATE) : hw D unit :=
  match n with
  | O => mret tt
  | S n =>
      if length <=? i * HDA_SLOT_BYTES then mret tt else
      let left := length - i * HDA_SLOT_BYTES in
      st W32 (hda_bdl h + 16 * i) (VmmGetPhysicalAddress (hda_buffer h + i * HDA_SLOT_BYTES));;
      st W32 (hda_bdl h + 16 * i + 8) (if HDA_SLOT_BYTES <? left then HDA_SLOT_BYTES else left);;
      st W32 (hda_bdl h + 16 * i + 12) 1;;
      fill_bdl n (i + 1) length h
  end.

Definition hda_play (h : HDA_STATE) (data : list Z) (f : AUDIO_FORMAT) : hw D Z :=
  let n := Z.of_nat (length data) in
  if (n =? 0) || (HDA_BUFFER_BYTES <? n) || negb (Z.land n 3 =? 0) || negb (stereo16 f) then mret Io.IO_STATUS_INVALID_PARAMETER else
  if negb (sample_rate f =? 48000) && negb (sample_rate f =? 44100) then mret Io.IO_STATUS_NOT_SUPPORTED else
  let stream_format := if sample_rate f =? 48000 then 17 else 16401 in
  copy_out (hda_buffer h) data;;
  hda_verb h (codec h) (hda_output h) 512 stream_format;; hda_verb h (codec h) (hda_output h) 1798 16;;
  zero_out (hda_bdl h) 4096;; fill_bdl 4 0 n h;;
  swrite W32 h 0 0;; swrite W32 h 8 n;; swrite W8 h 12 ((n + HDA_SLOT_BYTES - 1) / HDA_SLOT_BYTES - 1);;
  swrite W16 h 18 stream_format;; swrite W32 h 24 (VmmGetPhysicalAddress (hda_bdl h));; swrite W32 h 28 0;;
  swrite W8 h 3 255;; swrite W32 h 0 1048578;;
  poll (Z.to_nat 33554432) (sread h 4) (fun v => n <=? v);;
  swrite W32 h 0 0;; swrite W8 h 3 255;;
  sread h 4;; ld W8 (stream_mmio h + 3);;
  mret Io.IO_STATUS_SUCCESS.

Definition hda_control (r : REQUEST) (h : HDA_STATE) : hw D reply :=
  if code r =? AUDIO_IOCTL_GET_CAPS then mret (caps_reply r (mkCaps (mkFormat 48000 2 AUDIO_FORMAT_S16_STEREO) HDA_BUFFER_BYTES AUDIO_CAP_PLAYBACK))
  else if code r =? AUDIO_IOCTL_PLAY_PCM then
    match packet_at r with
    | Some (f, data) => status ← hda_play h data f; mret (fail status)
    | None => mret (fail Io.IO_STATUS_INVALID_PARAMETER)
    end
  else mret (fail Io.IO_STATUS_NOT_SUPPORTED).

(** *** Finding and registering *)
Context (register : list Z -> hw D bool).

(** The hardware and the memory manager. *)
Definition au (A : Type) : Type := D * mmu -> A * (D * mmu).
#[global] Instance au_ret : MRet au := fun A x s => (x, s).
#[global] Instance au_bind : MBind au := fun A B k f s => let '(x, s) := f s in k x s.
Definition dev {A} (f : hw D A) : au A := fun '(d, v) => let '(x, d) := f d in (x, (d, v)).
Definition alloc_pages (n : Z) : au Z := fun '(d, v) => let '(p, ps) := VmmAllocatePages n (pages v) in (p, (d, mkMmu (words v) ps (cr3 v))).
Definition map_mmio (p n : Z) : au Z := fun '(d, v) => let '(x, v) := VmmMapMmioRange a p n v in (x, (d, v)).

(** The functions of all devices on all buses, until one decides. *)
Fixpoint pci_scan {A} (n : nat) (i : Z) (probe : Z -> Z -> Z -> au (option A)) : au (option A) :=
  match n with
  | O => mret None
  | S n =>
      r ← probe (i / 256) (i / 8 mod 32) (i mod 8);
      match r with Some _ => mret r | None => pci_scan n (i + 1) probe end
  end.
Definition pci_all {A} (probe : Z -> Z -> Z -> au (option (option A))) : au (option A) := r ← pci_scan (Z.to_nat 65536) 0 probe; mret (r ≫= id).
Definition enable (bus slot fn bits : Z) : au unit := dev (v ← PciConfigRead32 a bus slot fn 4; PciConfigWrite32 a bus slot fn 4 (Z.lor v bits)).

(** Not this function; the end without a device; a device. *)
Definition next {A} : au (option (option A)) := mret None.
Definition stop {A} : au (option (option A)) := mret (Some None).
Definition found {A} (x : A) : au (option (option A)) := mret (Some (Some x)).

Definition Ac97Initialize : au (option AC97_STATE) := pci_all (fun bus slot fn =>
  id ← dev (PciConfigRead32 a bus slot fn 0);
  if id =? 4294967295 then next else
  class ← dev (PciConfigRead32 a bus slot fn 8);
  if negb (Z.shiftr class 8 =? 262400) then next else
  mixer_bar ← dev (PciConfigRead32 a bus slot fn 16); bm_bar ← dev (PciConfigRead32 a bus slot fn 20);
  if (Z.land mixer_bar 1 =? 0) || (Z.land bm_bar 1 =? 0) then next else
  enable bus slot fn 5;;
  bdl ← alloc_pages 1; buffer ← alloc_pages ((AC97_BUFFER_BYTES + 4095) / 4096);
  if (bdl =? 0) || (buffer =? 0) then stop else
  let c := mkAc97 (Z.land mixer_bar 65532) (Z.land bm_bar 65532) bdl buffer in
  ok ← dev (
    zero_out bdl 4096;; zero_out buffer (Z.to_nat AC97_BUFFER_BYTES);;
    mixer_write c 0 0;; mixer_write c 2 0;; mixer_write c 24 0;; mixer_write c 42 9;; mixer_write c 44 48000;;
    mixer_read c 2;; mixer_read c 24;; mixer_read c 42;;
    register (cstr "AudioAC97"));
  if negb ok then stop else found c).

Definition is_ensoniq (id : Z) : bool :=
  (u16 id =? 4724) && existsb (Z.eqb (u16 (Z.shiftr id 16))) [20480; 4977; 22656; 35128].

Definition Es1371Initialize : au (option ES_STATE) := pci_all (fun bus slot fn =>
  id ← dev (PciConfigRead32 a bus slot fn 0);
  if negb (is_ensoniq id) then next else
  bar ← dev (PciConfigRead32 a bus slot fn 16);
  if Z.land bar 1 =? 0 then next else
  class ← dev (PciConfigRead32 a bus slot fn 8);
  if negb (Z.shiftr class 8 =? 262400) then next else
  enable bus slot fn 5;;
  buffer ← alloc_pages 32;
  if buffer =? 0 then stop else
  let e := mkEs (Z.land bar 65532) (u16 (Z.shiftr id 16) =? 20480) buffer 128 0 in
  ok ← dev (
    zero_out buffer (Z.to_nat ES_BUFFER_BYTES);;
    es_write e 0 (Z.lor (es_ctrl e) 16384);; es_write e 0 (es_ctrl e);; es_codec_write e 2 0;; es_codec_write e 24 0;;
    register (cstr "AudioES1371"));
  if negb ok then stop else found e).

Definition HdaInitialize : au (option HDA_STATE) := pci_all (fun bus slot fn =>
  id ← dev (PciConfigRead32 a bus slot fn 0); class ← dev (PciConfigRead32 a bus slot fn 8);
  if negb (Z.shiftr class 8 =? 262912) || (negb (u16 id =? 5549) && negb (u16 id =? 32902)) then next else
  bar ← dev (PciConfigRead32 a bus slot fn 16);
  if (bar =? 0) || negb (Z.land bar 1 =? 0) then next else
  enable bus slot fn 6;;
  mmio ← map_mmio (Z.land bar 4294967280) 4096;
  if mmio =? 0 then stop else
  bdl ← alloc_pages 1; buffer ← alloc_pages 32; corb ← alloc_pages 1; rirb ← alloc_pages 1;
  if (bdl =? 0) || (buffer =? 0) || (corb =? 0) || (rirb =? 0) then stop else
  let h := mkHda mmio bdl buffer corb rirb 0 0 0 0 in
  failed ← dev (hda_reset h);
  if failed : bool then stop else
  h ← dev (hda_rings_init h;; hda_codec_setup h);
  let h := with_stream h (u32 (mmio + 128 + 4 * 32)) in
  ok ← dev (register (cstr "AudioHDA"));
  if negb ok then stop else found h).

(** *** Sound Blaster 16: it is detected, but does not play *)
Definition sb16_reset : hw D bool :=
  outb a 550 1;; outb a 550 0;;
  v ← inb a 558; if Z.land v 128 =? 0 then mret false else v ← inb a 554; mret (v =? 170).

Definition Sb16Initialize : hw D bool :=
  ok ← sb16_reset;
  if negb ok then mret false else
  outb a 548 34;; outb a 549 255;; outb a 548 4;; outb a 549 255;; register (cstr "AudioSB16").

Definition sb16_control (r : REQUEST) : reply :=
  if code r =? AUDIO_IOCTL_GET_CAPS then caps_reply r (mkCaps (mkFormat 22050 1 AUDIO_FORMAT_S16_STEREO) 0 0) else fail Io.IO_STATUS_NOT_SUPPORTED.

End drivers.

End Audio.
