(* ===== verification/AudioSpec.v ===== *)
(** * What playback keeps

    A packet survives the way from the service to a driver, and the service holds no
    memory afterwards.  The stream of the AC'97 driver is a queue of bytes,
    against a chip that is described by laws and plays whenever time passes: writes
    succeed, what the chip has played is a prefix of what was written, and the memory it
    reads holds every byte written and not yet played, in order, where the ring of slots
    and its descriptors say. *)

From stdpp Require Import base list numbers gmap strings.
From Stdlib Require Import ZArith Lia.
From S2P Require Import Prelude.
From S2P Require Import Util.
From S2P Require Import Vmm.
From S2P Require Import Mm.
From S2P Require Import Sim.
From S2P Require Import Io.
From S2P Require Import Hw.
From S2P Require Import Nic.
From S2P Require Import NicSpec.
From S2P Require Import Ahci.
From S2P Require Import AhciSpec.
From S2P Require Import Audio.
Import Util Hw Nic NicSpec AhciSpec Audio.

Module AudioSpec.

(** ** Packets *)
Definition format_ok (f : AUDIO_FORMAT) : Prop := 0 <= sample_rate f < 4294967296 /\ 0 <= channels f < 65536 /\ 0 <= format f < 65536.

Lemma le16_value v : 0 <= v < 65536 -> u8 v + 256 * u8 (Z.shiftr v 8) = v.
Proof. intros Hv. unfold u8. rewrite Z.shiftr_div_pow2 by lia. change (2 ^ 8) with 256. zlia. Qed.
Lemma le32_value v : 0 <= v < 4294967296 ->
  (u8 v + 256 * u8 (Z.shiftr v 8)) + 65536 * (u8 (Z.shiftr v 16) + 256 * u8 (Z.shiftr v 24)) = v.
Proof.
  intros Hv. unfold u8. rewrite !Z.shiftr_div_pow2 by lia. change (2 ^ 8) with 256. change (2 ^ 16) with 65536. change (2 ^ 24) with 16777216. zlia.
Qed.

Lemma format_at_bytes f l : format_ok f -> format_at (format_bytes f ++ l) = f.
Proof.
  intros (Hr & Hc & Hf). destruct f as [r c f]. cbn [sample_rate channels format] in *.
  transitivity (mkFormat ((u8 r + 256 * u8 (Z.shiftr r 8)) + 65536 * (u8 (Z.shiftr r 16) + 256 * u8 (Z.shiftr r 24))) (u8 c + 256 * u8 (Z.shiftr c 8)) (u8 f + 256 * u8 (Z.shiftr f 8))); [reflexivity|].
  by rewrite le32_value, !le16_value.
Qed.

(** Whatever samples the service wraps, up to the size a 32-bit length can tell, a driver finds the
    same format and the same samples in the packet. *)
Theorem packet_roundtrip (f : AUDIO_FORMAT) (samples : list Z) (c : Z) (n : option Z) :
  format_ok f -> Z.of_nat (length samples) < 4294967296 ->
  packet_at (mkReq c (Some (pcm_packet f samples)) n) = Some (f, samples).
Proof.
  intros Hf Hn. unfold packet_at. cbn [input]. unfold mbind, option_bind.
  assert (E8 : at32 (pcm_packet f samples) 8 = Z.of_nat (length samples)) by (apply (le32_value (Z.of_nat (length samples))); lia).
  assert (El : length (pcm_packet f samples) = (12 + length samples)%nat) by done.
  rewrite E8, El, (proj2 (Z.ltb_ge _ _)), (proj2 (Z.ltb_ge _ _)) by lia.
  f_equal. f_equal; [by apply format_at_bytes|]. rewrite Nat2Z.id. by rewrite take_ge.
Qed.

(** ** The service *)
Section service.
Context {M H : Type} `{KernelHeap H} (control : list Z -> Z -> list Z -> M -> (Z * list Z) * M).
Implicit Types s : @audio M H.

(** A packet goes to the device once, or memory is short; the heap is as before. *)
Lemma send_packet_forwards device c f samples s :
  kh_ok (kheap s) -> Z.of_nat (length samples) <= 4194304 ->
  exists status s', send_packet control device c f samples s = Some (status, s') /\ kh_ok (kheap s') /\ kh_live (kheap s') = kh_live (kheap s) /\ svc s' = svc s /\
    ((status = Io.IO_STATUS_NO_MEMORY /\ devices s' = devices s) \/
     (exists out, control device c (pcm_packet f samples) (devices s) = ((status, out), devices s'))).
Proof.
  intros Hok Hn. unfold send_packet. destruct (kh_malloc_spec (kheap s) (12 + Z.of_nat (length samples)) Hok ltac:(lia)) as (p & h & E & Hok' & Hc).
  rewrite E. cbn [mbind option_bind]. destruct Hc as [[-> Hl]|(Hp & Hf & cap & _ & Hl)]; cbn [Z.eqb].
  - eexists _, _. split; [reflexivity|]. cbn. split; [done|]. split; [done|]. split; [done | by left].
  - rewrite (proj2 (Z.eqb_neq p 0)) by lia. unfold request. cbn [devices svc kheap].
    destruct (control device c (pcm_packet f samples) (devices s)) as [[status out] m] eqn:Ec.
    destruct (kh_free_spec h p Hok') as (h' & E' & Hok2 & Hl'). cbn [kheap]. rewrite E'. cbn.
    eexists _, _. split; [reflexivity|]. cbn. split; [done|]. split; [rewrite Hl', Hl; by apply delete_insert_id|]. split; [done|]. right. eauto.
Qed.

(** In a stream that its device carries, a write of up to 128 KiB reaches that device, and no other, as one
    packet of exactly the samples written, whose status is returned; or memory is short and nothing is
    sent.  Either way the stream goes on and the packet's memory is given back. *)
Theorem stream_write_forwards (f : AUDIO_FORMAT) (samples : list Z) (device : list Z) s :
  kh_ok (kheap s) -> svc s = mkService (Some device) false true -> 0 < Z.of_nat (length samples) <= 131072 ->
  exists status s', AudioServiceStreamWrite control (Some f) (Some samples) s = Some (status, s') /\ svc s' = svc s /\
    kh_ok (kheap s') /\ kh_live (kheap s') = kh_live (kheap s) /\
    ((status = Io.IO_STATUS_NO_MEMORY /\ devices s' = devices s) \/
     (exists out, control device AUDIO_IOCTL_STREAM_WRITE (pcm_packet f samples) (devices s) = ((status, out), devices s'))).
Proof.
  intros Hok Hs Hn. unfold AudioServiceStreamWrite. rewrite Hs. cbn [audio_stream_active audio_stream_fallback audio_stream_endpoint negb orb].
  rewrite (proj2 (Z.eqb_neq _ 0)), (proj2 (Z.ltb_ge _ _)) by lia. cbn.
  destruct (send_packet_forwards device AUDIO_IOCTL_STREAM_WRITE f samples s Hok ltac:(lia)) as (status & s' & E & ? & ? & E' & Hc).
  exists status, s'. rewrite E, E'. auto.
Qed.

End service.

(** ** The AC'97 stream *)
Section ac97.
Context {D : Type} `{QuietMemory D} (a : arch) (KeYield : hw D unit) (c : AC97_STATE).

(** [W] has been written, in [n] whole slots and the part of another: the bytes of
    the slots that are queued, and of the part, stand in the buffer, as on a ring of 1 MiB, and the
    descriptors of the queued slots name them. *)
Record stream_ok (m : mem) (s : stream) (n : Z) (W : list Z) : Prop := {
  so_active : active s = true;
  so_total : Z.of_nat (length W) = 32768 * n + s_fill s;
  so_fill : 0 <= s_fill s < 32768;
  so_queued : 0 <= s_queued s <= 32 /\ s_queued s <= n;
  so_full : s_queued s = 32 -> s_fill s = 0;
  so_write : s_write s = n mod 32;
  so_read : s_read s = (n - s_queued s) mod 32;
  so_bytes : forall i, 32768 * (n - s_queued s) <= i < Z.of_nat (length W) -> m (ac_buffer c + i mod 1048576) = get 0 W i;
  so_entries : forall k, n - s_queued s <= k < n ->
    mval W32 m (ac_bdl c + 8 * (k mod 32)) = u32 (slot_address c (k mod 32)) /\ mval W32 m (ac_bdl c + 8 * (k mod 32) + 4) = 2147500032
}.

(** The driver has found [j] slots played. *)
Definition advanced (s : stream) (j : Z) : stream := mkStream (active s) (running s) ((s_read s + j) mod 32) (s_write s) (s_queued s - j) (s_fill s) (s_commits s).

Lemma advanced_ok m s n W j : stream_ok m s n W -> 0 <= j <= s_queued s -> stream_ok m (advanced s j) n W.
Proof.
  intros [] Hj. split; cbn; try done; try lia.
  - rewrite so_read0, Zplus_mod_idemp_l. f_equal. lia.
  - intros i Hi. apply so_bytes0. lia.
  - intros k Hk. apply so_entries0. lia.
Qed.

Lemma land31 x : Z.land x 31 = x mod 32.
Proof. change 31 with (Z.ones 5). by rewrite Z.land_ones by lia. Qed.

Lemma advanced_0 s : 0 <= s_read s < 32 -> advanced s 0 = s.
Proof. intros Hr. unfold advanced. destruct s. cbn in *. by rewrite Z.add_0_r, Z.sub_0_r, Z.mod_small. Qed.
Lemma played_advanced s j : 0 <= j < s_queued s -> s_queued s <= 32 -> played (advanced s j) = advanced s (j + 1).
Proof.
  intros Hj Hq. unfold played, advanced. cbn. rewrite land31, Zplus_mod_idemp_l. f_equal; [f_equal; lia|]. unfold u8. rewrite Z.mod_small; lia.
Qed.

(** Within [k] polls the chip is at another slot than [r], or has halted at its end. *)
Inductive moves_on (r : Z) : nat -> D -> Prop :=
| mo_elsewhere k d civ d1 : bm_read8 a c PCM_CIV d = (civ, d1) -> Z.land civ 31 <> r -> moves_on r (S k) d
| mo_halted k d civ d1 d2 status d3 : bm_read8 a c PCM_CIV d = (civ, d1) -> bm_read16 a c PCM_PICB d1 = (0, d2) -> bm_read8 a c PCM_STATUS d2 = (status, d3) ->
    Z.land status 1 <> 0 -> moves_on r (S k) d
| mo_waits k d civ d1 picb d2 status d3 : bm_read8 a c PCM_CIV d = (civ, d1) -> bm_read16 a c PCM_PICB d1 = (picb, d2) -> bm_read8 a c PCM_STATUS d2 = (status, d3) ->
    moves_on r k (snd (KeYield d3)) -> moves_on r (S k) d.

Lemma read_view w p d x d' : port_read a w p d = (x, d') -> view d' = view d.
Proof. intros E. pose proof (quiet_op_read a w p d) as Q. by rewrite E in Q. Qed.

(** *** The chip

    What the chip plays is what the descriptors say: the [k]-th slot from the start of the stream is
    described by entry [k mod 32] of the list, its length in samples of two bytes. *)
Definition slot_bytes (m : mem) (k : Z) : list Z :=
  map m (seqZ (mval W32 m (ac_bdl c + 8 * (k mod 32))) (2 * Z.land (mval W32 m (ac_bdl c + 8 * (k mod 32) + 4)) 65535)).
Definition between (m : mem) (p p' : Z) : list Z := concat (map (slot_bytes m) (seqZ p (p' - p))).

Context (silent ready : D -> Prop) (chip : Z -> Z -> list Z -> D -> Prop) (fuel : nat).

(** [chip p v h]: the engine runs, has finished [p] slots of [v] announced ones, and [h] is what it has
    played.  It may finish more of them whenever time passes, that is, with every access. *)
Definition onward (p v : Z) (h : list Z) (d d' : D) : Prop := exists p', p <= p' <= v /\ chip p' v (h ++ between (view d) p p') d'.

(** The laws, as the AC'97 bus master registers are documented: reset silences the engine; with the address of the list it is [ready], and
    the start bit makes it play from entry 0 to the last valid entry; the index register names the slot it is at, which is the last one when it has halted at
    the end; the halt bit is set only when it has finished them all; writing the entry after the last to the last valid index announces
    one more; memory it has yet to play it reads when it plays it; and it finishes a slot within [fuel] polls. *)
Record ac97_chip : Prop := {
  ch_reset d : silent (bm_write8 a c PCM_CONTROL 2 d).2;
  ch_silent_read w q d : silent d -> silent (port_read a w q d).2;
  ch_silent_store w q v d : (forall i, 0 <= i < size w -> plain (q + i)) -> silent d -> silent (st w q v d).2;
  ch_list d : silent d -> ready (bm_write32 a c PCM_BDL (ac_bdl c) d).2;
  ch_ready_read w q d : ready d -> ready (port_read a w q d).2;
  ch_ready_write off v d : off ∈ [PCM_CIV; PCM_LVI; PCM_STATUS] -> ready d -> ready (bm_write8 a c off v d).2;
  ch_ready_store w q v d : (forall i, 0 <= i < size w -> plain (q + i)) -> ready d -> ready (st w q v d).2;
  ch_start d : ready d -> exists p', 0 <= p' <= 32 /\ chip p' 32 (between (view d) 0 p') (bm_write8 a c PCM_CONTROL 17 (bm_write8 a c PCM_LVI 31 d).2).2;
  ch_read w q p v h d : chip p v h d -> onward p v h d (port_read a w q d).2;
  ch_civ p v h d : chip p v h d -> exists p', p <= p' <= v /\ chip p' v (h ++ between (view d) p p') (bm_read8 a c PCM_CIV d).2 /\
    Z.land (bm_read8 a c PCM_CIV d).1 31 = (if p' =? v then v - 1 else p') mod 32;
  ch_halted p v h d : chip p v h d -> Z.land (bm_read8 a c PCM_STATUS d).1 1 <> 0 -> chip v v (h ++ between (view d) p v) (bm_read8 a c PCM_STATUS d).2;
  ch_acknowledge p v h d x : chip p v h d -> onward p v h d (bm_write8 a c PCM_STATUS x d).2;
  ch_announce p v h d : chip p v h d -> exists p', p <= p' <= v + 1 /\ chip p' (v + 1) (h ++ between (view d) p p') (bm_write8 a c PCM_LVI (v mod 32) d).2;
  ch_resume p v h d : chip p v h d -> onward p v h d (bm_write8 a c PCM_CONTROL 17 d).2;
  ch_store w q x p v h d : (forall i, 0 <= i < size w -> plain (q + i)) -> chip p v h d ->
    (forall k, p <= k < v -> slot_bytes (view (st w q x d).2) k = slot_bytes (view d) k) -> onward p v h d (st w q x d).2;
  ch_yield p v h d : chip p v h d -> onward p v h d (KeYield d).2;
  ch_fuel : (0 < fuel)%nat;
  ch_progress p v h d : chip p v h d -> p < v -> moves_on (p mod 32) fuel d
}.

Context (Hchip : ac97_chip) (yield_quiet : quiet KeYield).

Record layout : Prop := {
  lay_buffer : on_plain (ac_buffer c) 1048576;
  lay_bdl : on_plain (ac_bdl c) 4096;
  lay_apart : ac_buffer c + 1048576 <= ac_bdl c \/ ac_bdl c + 4096 <= ac_buffer c;
  lay_low : 0 <= ac_buffer c <= 4293918720 /\ 0 <= ac_bdl c <= 4294963200
}.
Context (Hlay : layout).

(** The [q] last of [n] slots are in memory, with their entries. *)
Record slots_ok (m : mem) (q n : Z) (W : list Z) : Prop := {
  sl_total : 32768 * n <= Z.of_nat (length W);
  sl_queued : 0 <= q <= 32 /\ q <= n;
  sl_bytes : forall i, 32768 * (n - q) <= i < 32768 * n -> m (ac_buffer c + i mod 1048576) = get 0 W i;
  sl_entries : forall k, n - q <= k < n ->
    mval W32 m (ac_bdl c + 8 * (k mod 32)) = u32 (slot_address c (k mod 32)) /\ mval W32 m (ac_bdl c + 8 * (k mod 32) + 4) = 2147500032
}.
Lemma stream_slots m s n W : stream_ok m s n W -> slots_ok m (s_queued s) n W.
Proof. intros []. split; try done; try lia. intros i Hi. apply so_bytes0. lia. Qed.

Lemma ring_pos n r : 0 <= r < 32768 -> (32768 * n + r) mod 1048576 = 32768 * (n mod 32) + r.
Proof. intros. zlia. Qed.
(** Less than a turn apart, two places of the ring differ. *)
Lemma ring_apart i j : 0 < j - i < 1048576 -> i mod 1048576 <> j mod 1048576.
Proof. intros. zlia. Qed.

(** A stretch of memory that holds a stretch of a list. *)
Lemma map_window (m : mem) base len W k0 : 0 <= k0 -> 0 <= len -> k0 + len <= Z.of_nat (length W) ->
  (forall i, 0 <= i < len -> m (base + i) = get 0 W (k0 + i)) -> map m (seqZ base len) = take (Z.to_nat len) (drop (Z.to_nat k0) W).
Proof.
  intros Hk Hl HW Hm. apply list_eq. intros i. rewrite list_lookup_fmap. destruct (decide (i < Z.to_nat len)%nat) as [Hi|Hi].
  - rewrite lookup_seqZ_lt, lookup_take_lt, lookup_drop by lia. cbn [fmap option_fmap option_map]. rewrite Hm by lia. unfold get.
    replace (Z.to_nat (k0 + Z.of_nat i)) with (Z.to_nat k0 + i)%nat by lia. destruct (lookup_lt_is_Some_2 W (Z.to_nat k0 + i)) as [b ->]; [lia | done].
  - rewrite lookup_seqZ_ge, lookup_take_ge by lia. done.
Qed.

(** So the chip plays what was written. *)
Lemma slot_played m q n W k : slots_ok m q n W -> n - q <= k < n -> slot_bytes m k = take (Z.to_nat 32768) (drop (Z.to_nat (32768 * k)) W).
Proof.
  intros [HT [Hq Hqn] Hb He] Hk. destruct (He k Hk) as [E1 E2]. unfold slot_bytes. rewrite E1, E2. pose proof (Z.mod_pos_bound k 32 eq_refl).
  pose proof (lay_low Hlay). unfold slot_address, AC97_STREAM_SLOT_BYTES. rewrite u32_small by (unfold is_u32; lia).
  change (2 * Z.land 2147500032 65535) with 32768. apply map_window; [lia | lia | lia|]. intros i Hi.
  rewrite <- Hb by lia. rewrite ring_pos by lia. f_equal. lia.
Qed.

Lemma between_next m p p' : p <= p' -> between m p (p' + 1) = between m p p' ++ slot_bytes m p'.
Proof.
  intros Hp. unfold between. replace (p' + 1 - p) with (p' - p + 1) by lia. rewrite seqZ_app, map_app, concat_app by lia. f_equal.
  replace (p + (p' - p)) with p' by lia. rewrite seqZ_cons by lia. cbn. by rewrite app_nil_r.
Qed.

Lemma between_played m q n W p p' : slots_ok m q n W -> n - q <= p <= p' -> p' <= n ->
  take (Z.to_nat (32768 * p)) W ++ between m p p' = take (Z.to_nat (32768 * p')) W.
Proof.
  intros Hs [Hp Hpp] Hn. assert (Hp0 : 0 <= p) by (destruct Hs; lia). replace p' with (p + Z.of_nat (Z.to_nat (p' - p))) in * by lia. clear Hpp.
  induction (Z.to_nat (p' - p)) as [|k IH].
  { unfold between. rewrite Z.add_0_r, Z.sub_diag. cbn. by rewrite app_nil_r. }
  replace (p + Z.of_nat (S k)) with (p + Z.of_nat k + 1) in * by lia. rewrite between_next by lia. rewrite app_assoc, IH by lia.
  rewrite (slot_played m q n W) by (done || lia). rewrite take_take_drop. f_equal. lia.
Qed.

(** What the chip has played is what was written first; it is ahead of what the driver takes for played. *)
Definition hears (r : bool) (q n : Z) (W : list Z) (d : D) : Prop :=
  if r then exists p, n - q <= p <= n /\ chip p n (take (Z.to_nat (32768 * p)) W) d else ready d /\ q = n.

Lemma onward_hears q n W p d d' : slots_ok (view d) q n W -> n - q <= p <= n ->
  onward p n (take (Z.to_nat (32768 * p)) W) d d' -> exists p', p <= p' <= n /\ chip p' n (take (Z.to_nat (32768 * p')) W) d'.
Proof. intros Hs Hp (p' & Hp' & Hc). exists p'. split; [done|]. by rewrite (between_played (view d) q n W) in Hc by (done || lia). Qed.

(** Accesses that change no memory and no state of the engine but its progress. *)
Definition tame {A} (f : hw D A) : Prop :=
  quiet f /\ forall r q n W d, slots_ok (view d) q n W -> hears r q n W d -> hears r q n W (f d).2.
Lemma tame_ret {A} (x : A) : tame (mret x).
Proof. by split. Qed.
Lemma tame_bind {A B} (f : hw D A) (k : A -> hw D B) : tame f -> (forall x, tame (k x)) -> tame (f ≫= k).
Proof.
  intros [Qf Tf] Hk. split; [apply quiet_op_bind; [done | intros x; apply Hk]|]. intros r q n W d Hs Hh. unfold mbind, hw_bind.
  specialize (Qf d). specialize (Tf r q n W d Hs Hh). destruct (f d) as [x d1]. cbn [snd] in *. apply (proj2 (Hk x)); [by rewrite Qf | done].
Qed.
Lemma tame_access {A} (f : hw D A) : quiet f -> (forall d, ready d -> ready (f d).2) -> (forall p v h d, chip p v h d -> onward p v h d (f d).2) -> tame f.
Proof.
  intros Q Hsil Hon. split; [done|]. intros [] q n W d Hs; [|intros [? ?]; split; [by apply Hsil | done]].
  intros (p & Hp & Hc). destruct (onward_hears q n W p d _ Hs Hp (Hon _ _ _ _ Hc)) as (p' & ? & ?). exists p'. split; [lia | done].
Qed.
Lemma tame_read w q : tame (port_read a w q).
Proof. apply tame_access; [apply quiet_op_read | intros; by apply (ch_ready_read Hchip) | intros; by apply (ch_read Hchip)]. Qed.
Lemma tame_acknowledge x : tame (bm_write8 a c PCM_STATUS x).
Proof.
  apply tame_access; [apply quiet_op_write | | intros; by apply (ch_acknowledge Hchip)].
  intros d Hd. apply (ch_ready_write Hchip PCM_STATUS); [|done]. set_solver.
Qed.

(** A store beside the slots and their entries. *)
Definition free_at (q n x : Z) : Prop :=
  (forall i, 32768 * (n - q) <= i < 32768 * n -> ac_buffer c + i mod 1048576 <> x) /\
  (forall k j, n - q <= k < n -> 0 <= j < 8 -> ac_bdl c + 8 * (k mod 32) + j <> x).
Lemma mval_same w (m m' : mem) p : (forall k, 0 <= k < size w -> m' (p + k) = m (p + k)) -> mval w m' p = mval w m p.
Proof. intros E. pose proof (E 0) as E0. rewrite Z.add_0_r in E0. destruct w; cbn [mval size] in *; rewrite ?E, ?E0 by lia; done. Qed.
Lemma slots_ok_store w m x v q n W : (forall j, 0 <= j < size w -> free_at q n (x + j)) -> slots_ok m q n W -> slots_ok (mwrite w m x v) q n W.
Proof.
  intros Hf [HT Hq Hb He].
  assert (Hout : forall y, (forall j, 0 <= j < size w -> y <> x + j) -> mwrite w m x v y = m y).
  { intros y Hy. apply mwrite_out. destruct (Z.lt_ge_cases y x); [by left|]. right. destruct (Z.lt_ge_cases y (x + size w)); [|lia]. destruct (Hy (y - x)); lia. }
  split; try done.
  - intros i Hi. rewrite Hout; [by apply Hb|]. intros j Hj. by apply (Hf j Hj).
  - intros k Hk. destruct (He k Hk) as [<- <-]. split; apply mval_same; intros j Hj; cbn [size] in Hj; apply Hout; intros j' Hj'.
    + by apply (proj2 (Hf j' Hj') k j); lia.
    + rewrite <- Z.add_assoc. by apply (proj2 (Hf j' Hj') k (4 + j)); lia.
Qed.

Lemma st_view w p v d : (forall i, 0 <= i < size w -> plain (p + i)) -> view (st w p v d).2 = mwrite w (view d) p (truncate w v).
Proof. intros Hp. by apply (does_st w (view d) p v Hp d). Qed.

Lemma store_hears w x v r q n W d : (forall i, 0 <= i < size w -> plain (x + i)) -> (forall j, 0 <= j < size w -> free_at q n (x + j)) ->
  slots_ok (view d) q n W -> hears r q n W d -> slots_ok (view (st w x v d).2) q n W /\ hears r q n W (st w x v d).2.
Proof.
  intros Hp Hf Hs Hh. assert (Hs' : slots_ok (view (st w x v d).2) q n W) by (rewrite st_view by done; by apply slots_ok_store). split; [done|].
  destruct r; [|destruct Hh; split; [by apply (ch_ready_store Hchip) | done]]. destruct Hh as (p & Hpn & Hc).
  destruct (onward_hears q n W p d (st w x v d).2 Hs Hpn) as (p' & ? & ?); [|exists p'; split; [lia | done]].
  apply (ch_store Hchip); [done | done|]. intros k Hk. by rewrite !(slot_played _ q n W) by (done || lia).
Qed.

Lemma copy_hears data x r q n W d : (forall i, 0 <= i < Z.of_nat (length data) -> plain (x + i) /\ free_at q n (x + i)) ->
  slots_ok (view d) q n W -> hears r q n W d -> slots_ok (view (copy_out x data d).2) q n W /\ hears r q n W (copy_out x data d).2.
Proof.
  revert x d. induction data as [|b data IH]; intros x d Hx Hs Hh; cbn [copy_out]; [done|]. unfold mbind, hw_bind.
  destruct (store_hears W8 x b r q n W d) as [Hs1 Hh1]; [intros i Hi; apply Hx; cbn [size length] in *; lia | intros i Hi; apply Hx; cbn [size length] in *; lia | done | done|].
  destruct (st W8 x b d) as [[] d1]. cbn [snd] in *. apply IH; [|done|done]. intros i Hi. rewrite <- Z.add_assoc. apply Hx. cbn [length]. lia.
Qed.

(** *** Reaping *)

(** From [j] slots on, reaping stops at the slot the index register names. *)
Lemma reap_to_exact k s t : 0 <= s_read s < 32 -> 0 <= t < s_queued s -> s_queued s <= 32 -> forall j, 0 <= j <= t -> t - j <= Z.of_nat k ->
  reap_to k ((s_read s + t) mod 32) (advanced s j) = advanced s t.
Proof.
  intros Hr Ht Hq. induction k as [|k IH]; intros j Hj Hk; cbn [reap_to]; [by replace j with t by lia|].
  cbn [advanced s_queued s_read]. rewrite (proj2 (Z.eqb_neq (s_queued s - j) 0)) by lia. cbn [orb].
  destruct (Z.eqb_spec ((s_read s + j) mod 32) ((s_read s + t) mod 32)) as [E|E]; [assert (j = t) as -> by zlia; done|].
  assert (j <> t) by (by intros ->). rewrite played_advanced by lia. apply IH; lia.
Qed.

(** A look at the chip frees what it has finished, and no more; when that is nothing, the chip was at the first slot and had not halted
    at its end. *)
Lemma reap_hears s n W d : stream_ok (view d) s n W -> hears true (s_queued s) n W d -> 0 < s_queued s ->
  exists j, 0 <= j <= s_queued s /\ (ac97_stream_reap a c s d).1 = advanced s j /\ view (ac97_stream_reap a c s d).2 = view d /\
    hears true (s_queued s - j) n W (ac97_stream_reap a c s d).2 /\
    (j = 0 -> exists civ d1 picb d2 status d3,
      bm_read8 a c PCM_CIV d = (civ, d1) /\ Z.land civ 31 = s_read s /\ bm_read16 a c PCM_PICB d1 = (picb, d2) /\ bm_read8 a c PCM_STATUS d2 = (status, d3) /\
      (Z.land status 1 = 0 \/ picb <> 0) /\ (ac97_stream_reap a c s d).2 = d3).
Proof.
  intros Hok (p & Hp & Hc) Hq. pose proof (stream_slots _ _ _ _ Hok) as Hs. pose proof (so_queued _ _ _ _ Hok) as [Hq32 Hqn].
  assert (Hr : 0 <= s_read s < 32) by (rewrite (so_read _ _ _ _ Hok); apply Z.mod_pos_bound; lia).
  destruct (ch_civ Hchip _ _ _ _ Hc) as (p1 & Hp1 & Hc1 & Eciv). rewrite (between_played _ _ _ _ _ _ Hs) in Hc1 by lia.
  unfold ac97_stream_reap, mbind, hw_bind. destruct (bm_read8 a c PCM_CIV d) as [civ d1] eqn:E1. cbn [fst snd] in *. pose proof (read_view _ _ _ _ _ E1) as V1.
  pose proof (ch_read Hchip W16 (ac_bus c + PCM_PICB) _ _ _ _ Hc1) as Hc2. change (port_read a W16 (ac_bus c + PCM_PICB) d1) with (bm_read16 a c PCM_PICB d1) in Hc2.
  destruct (bm_read16 a c PCM_PICB d1) as [picb d2] eqn:E2. cbn [snd] in Hc2. pose proof (read_view _ _ _ _ _ E2) as V2.
  destruct (onward_hears (s_queued s) n W p1 d1 d2 ltac:(by rewrite V1) ltac:(lia) Hc2) as (p2 & Hp2 & Hc2').
  set (t := (if p1 =? n then n - 1 else p1) - (n - s_queued s)). assert (Ht : 0 <= t < s_queued s /\ n - (s_queued s - t) <= p1) by (unfold t; destruct (Z.eqb_spec p1 n); lia).
  assert (Ec : Z.land civ 31 = (s_read s + t) mod 32) by (rewrite Eciv, (so_read _ _ _ _ Hok), Zplus_mod_idemp_l; f_equal; unfold t; lia).
  pose proof (reap_to_exact (Z.to_nat (s_queued s)) s t Hr ltac:(lia) ltac:(lia) 0 ltac:(lia) ltac:(lia)) as Rt. rewrite advanced_0 in Rt by done.
  rewrite Ec, Rt.
  cbn [advanced s_queued]. rewrite (proj2 (Z.eqb_neq (s_queued s - t) 0)) by lia.
  pose proof (ch_halted Hchip _ _ _ _ Hc2') as Hh. pose proof (ch_read Hchip W8 (ac_bus c + PCM_STATUS) _ _ _ _ Hc2') as Hc3.
  change (port_read a W8 (ac_bus c + PCM_STATUS) d2) with (bm_read8 a c PCM_STATUS d2) in Hc3.
  destruct (bm_read8 a c PCM_STATUS d2) as [status d3] eqn:E3. cbn [fst snd] in *. pose proof (read_view _ _ _ _ _ E3) as V3.
  assert (Hs2 : slots_ok (view d2) (s_queued s) n W) by (by rewrite V2, V1).
  destruct (onward_hears (s_queued s) n W p2 d2 d3 Hs2 ltac:(lia) Hc3) as (p3 & Hp3 & Hc3').
  destruct (Z.eqb_spec (Z.land status 1) 0) as [E0|E0]; cbn [negb andb mret hw_ret fst snd]; [|destruct (Z.eqb_spec picb 0) as [E4|E4]; cbn [fst snd]].
  2:{ exists (t + 1). split; [lia|]. change (mkStream _ _ _ _ _ _ _) with (advanced s t). rewrite played_advanced by lia. split; [done|]. split; [by rewrite V3, V2, V1|]. split; [|lia].
    exists n. split; [lia|]. specialize (Hh E0). by rewrite (between_played _ _ _ _ _ _ Hs2) in Hh by lia. }
  all: exists t; split; [lia|]; split; [done|]; split; [by rewrite V3, V2, V1|]; split; [exists p3; split; [lia | done]|].
  all: intros Et; exists civ, d1, picb, d2, status, d3; rewrite Ec, Et, Z.add_0_r, Z.mod_small by done; auto 10.
Qed.

(** Waiting for a free slot ends, since the chip moves on. *)
Lemma reap_while_full k s n W d : stream_ok (view d) s n W -> (running s = true -> hears true (s_queued s) n W d) -> (s_queued s = 32 -> running s = true /\ moves_on (s_read s) k d) ->
  exists j d', reap_while a KeYield k full c s d = Some (advanced s j, d') /\ 0 <= j <= s_queued s /\ s_queued s - j < 32 /\ view d' = view d /\
    (if running s then hears true (s_queued s - j) n W d' else j = 0 /\ d' = d).
Proof.
  revert d. induction k as [|k IH]; intros d Hok Hh Hmove; pose proof (so_queued _ _ _ _ Hok) as [Hq32 Hqn];
    assert (Hr : 0 <= s_read s < 32) by (rewrite (so_read _ _ _ _ Hok); apply Z.mod_pos_bound; lia);
    (destruct (Z.eqb_spec (s_queued s) 32) as [Eq|Eq]; [destruct (Hmove Eq) as [Hrun Hmv]|]).
  2,4: exists 0, d; cbn [reap_while]; unfold full, AC97_STREAM_SLOTS; rewrite (proj2 (Z.eqb_neq _ _)) by done; rewrite advanced_0, Z.sub_0_r by done;
    split; [done|]; split; [lia|]; split; [lia|]; split; [done|]; destruct (running s); [by apply Hh | done].
  - inversion Hmv.
  - cbn [reap_while]. unfold full at 1, AC97_STREAM_SLOTS. rewrite Eq. cbn [Z.eqb Pos.eqb]. unfold mbind, op_bind, now.
    destruct (reap_hears s n W d Hok (Hh Hrun) ltac:(lia)) as (j & Hj & E1 & V1 & Hh1 & H0').
    destruct (ac97_stream_reap a c s d) as [s1 d1] eqn:Er. cbn [fst snd] in *. subst s1.
    destruct Hh1 as (p & Hp & Hc). pose proof (ch_yield Hchip _ _ _ _ Hc) as Hc2. pose proof (yield_quiet d1) as V2. destruct (KeYield d1) as [[] d2] eqn:Ey. cbn [snd] in *.
    pose proof (stream_slots _ _ _ _ Hok) as Hs. rewrite <- V1 in Hs.
    destruct (onward_hears (s_queued s) n W p d1 d2 Hs ltac:(lia) Hc2) as (p2 & Hp2 & Hc2').
    destruct (decide (j = 0)) as [->|Hj0].
    + rewrite advanced_0 by done. destruct (H0' eq_refl) as (civ & e1 & picb & e2 & status & e3 & R1 & Rc & R2 & R3 & Rn & ->).
      destruct (IH d2) as (j & d' & E & Hj' & Hlt & V & Hend); [by rewrite V2, V1 | intros _; exists p2; split; [lia | done] | |exists j, d'; split; [exact E|]; split; [lia|]; split; [lia|]; split; [by rewrite V, V2, V1 | rewrite Hrun in Hend |- *; by rewrite Eq in Hend]].
      intros _. split; [done|]. inversion Hmv as [? ? ? ? F1|? ? ? ? ? ? ? F1 F2 F3|? ? ? ? ? ? ? ? F1 F2 F3 F4]; subst; rewrite R1 in F1; simplify_eq; try congruence.
      * rewrite R2 in F2. simplify_eq. rewrite R3 in F3. simplify_eq. by destruct Rn.
      * rewrite R2 in F2. simplify_eq. rewrite R3 in F3. simplify_eq. by rewrite Ey in F4.
    + exists j, d2. assert (En : full (advanced s j) = false) by (unfold full, AC97_STREAM_SLOTS; cbn; apply Z.eqb_neq; lia).
      split; [destruct k; cbn [reap_while]; by rewrite En|]. split; [lia|]. split; [lia|]. split; [by rewrite V2|]. rewrite Hrun. exists p2. split; [lia | done].
Qed.

(** The chip is at the first slot, and then moves on, or it is past it. *)
Lemma full_moves s n W d : stream_ok (view d) s n W -> hears true (s_queued s) n W d -> s_queued s = 32 -> moves_on (s_read s) fuel d.
Proof.
  intros Hok (p & Hp & Hc) Hq. rewrite (so_read _ _ _ _ Hok), Hq in *. destruct (decide (p = n - 32)) as [->|Hne]; [apply (ch_progress Hchip _ _ _ _ Hc); lia|].
  destruct (ch_civ Hchip _ _ _ _ Hc) as (p1 & Hp1 & _ & Eciv). pose proof (ch_fuel Hchip) as Hf. destruct fuel as [|k]; [lia|].
  destruct (bm_read8 a c PCM_CIV d) as [civ d1] eqn:E1. eapply mo_elsewhere; [exact E1|]. cbn [fst] in Eciv. rewrite Eciv. destruct (Z.eqb_spec p1 n); zlia.
Qed.

(** *** Writing *)

(** Two states that differ in whether the engine runs and in the count for the log. *)
Definition alike (s s' : stream) : Prop :=
  active s = active s' /\ s_read s = s_read s' /\ s_write s = s_write s' /\ s_queued s = s_queued s' /\ s_fill s = s_fill s'.
Lemma alike_ok m s s' n W : alike s s' -> stream_ok m s n W -> stream_ok m s' n W.
Proof. intros (E1 & E2 & E3 & E4 & E5) []. split; rewrite <- ?E1, <- ?E2, <- ?E3, <- ?E4, <- ?E5; done. Qed.


Lemma copy_out_view data p d : (forall i, 0 <= i < Z.of_nat (length data) -> plain (p + i)) ->
  forall x, view (copy_out p data d).2 x = if (p <=? x) && (x <? p + Z.of_nat (length data)) then u8 (get 0 data (x - p)) else view d x.
Proof.
  revert p d. induction data as [|b data IH]; intros p d Hp x.
  { cbn [copy_out length]. destruct (Z.leb_spec p x), (Z.ltb_spec x (p + Z.of_nat 0)); cbn [andb]; (done || lia). }
  cbn [copy_out]. unfold mbind, hw_bind. pose proof (st_view W8 p b d) as V. destruct (st W8 p b d) as [[] d1]. cbn [snd] in V.
  rewrite IH by (intros k Hk; replace (p + 1 + k) with (p + (k + 1)) by lia; apply Hp; cbn [length]; lia).
  rewrite V by (intros k Hk; apply Hp; cbn [length size] in *; lia).
  rewrite mwrite8. cbn [length truncate].
  destruct (Z.leb_spec (p + 1) x), (Z.ltb_spec x (p + 1 + Z.of_nat (length data))), (Z.leb_spec p x), (Z.ltb_spec x (p + Z.of_nat (S (length data)))), (Z.eqb_spec x p);
    cbn [andb]; try lia; try done.
  - unfold get. replace (Z.to_nat (x - p)) with (S (Z.to_nat (x - (p + 1)))) by lia. done.
  - subst x. rewrite Z.sub_diag. change (get 0 (b :: data) 0) with b. unfold u8. by rewrite Z.mod_mod.
Qed.

Ltac quiet_parts := unfold bm_read8, bm_read16, bm_write8, bm_write32, mixer_write, inb, inw, outb, outw, outl;
  repeat first [progress intros | apply quiet_op_bind | apply quiet_op_ret | apply quiet_op_read | apply quiet_op_write
    | match goal with |- quiet (if ?b then _ else _) => destruct b end].

Lemma hw_bind_eq {A B} (f : hw D A) (k : A -> hw D B) d : (f ≫= k) d = k (f d).1 (f d).2.
Proof. unfold mbind, hw_bind. by destruct (f d). Qed.

Lemma extend_dma_quiet slot s d : view (ac97_stream_extend_dma a c slot s d).2 = view d /\ alike s (ac97_stream_extend_dma a c slot s d).1.
Proof.
  split.
  - revert d. change (quiet (ac97_stream_extend_dma a c slot s)). unfold ac97_stream_extend_dma. quiet_parts.
  - unfold ac97_stream_extend_dma. rewrite !hw_bind_eq. destruct (_ =? 0); [done | by rewrite !hw_bind_eq].
Qed.
Lemma log_quiet (b : bool) (d : D) : view ((if b then bm_read8 a c PCM_CIV;; bm_read16 a c PCM_PICB;; bm_read8 a c PCM_STATUS;; mret tt else mret tt) d).2 = view d.
Proof. revert d. destruct b; [|done]. change (quiet (bm_read8 a c PCM_CIV;; bm_read16 a c PCM_PICB;; bm_read8 a c PCM_STATUS;; mret tt)). quiet_parts. Qed.

Lemma commit_view slot_length s d : 0 <= s_write s < 32 ->
  let m' := mwrite W32 (mwrite W32 (view d) (ac_bdl c + 8 * s_write s) (u32 (slot_address c (s_write s)))) (ac_bdl c + 8 * s_write s + 4)
              (u32 (Z.lor (Z.land (Z.shiftr slot_length 1) 65535) 2147483648)) in
  view (ac97_stream_commit_slot a c slot_length s d).2 = m' /\ alike (queued_one s) (ac97_stream_commit_slot a c slot_length s d).1.
Proof.
  destruct Hlay as [_ Hb _ _]. intros Hw m'. unfold ac97_stream_commit_slot. rewrite !hw_bind_eq.
  set (d1 := (st W32 (ac_bdl c + 8 * s_write s) _ d).2). set (d2 := (st W32 _ _ d1).2).
  assert (V2 : view d2 = m').
  { unfold d2, d1. rewrite !st_view by (cbn [size]; intros k Hk; rewrite <- !Z.add_assoc; apply Hb; lia). done. }
  set (f := if running (queued_one s) then _ else _).
  assert (Hf : view (f d2).2 = view d2 /\ alike (queued_one s) (f d2).1) by (unfold f; destruct (running _); [apply extend_dma_quiet | done]).
  destruct Hf as [Vf Af]. split; cbn [fst snd mret hw_ret]; [by rewrite log_quiet, Vf | exact Af].
Qed.


(** The bytes of a part, behind those of the stream. *)
Lemma part_bytes m m1 s n W data :
  stream_ok m s n W -> s_queued s < 32 -> Z.of_nat (length data) <= 32768 - s_fill s -> Forall (fun b => 0 <= b < 256) data ->
  (forall x, m1 x = if (slot_address c (s_write s) + s_fill s <=? x) && (x <? slot_address c (s_write s) + s_fill s + Z.of_nat (length data))
                    then u8 (get 0 data (x - (slot_address c (s_write s) + s_fill s))) else m x) ->
  forall i, 32768 * (n - s_queued s) <= i < Z.of_nat (length (W ++ data)) -> m1 (ac_buffer c + i mod 1048576) = get 0 (W ++ data) i.
Proof.
  intros [_ HT Hf [Hq Hn] _ Hw _ Hb _] Hlt Hlen Hall Hm i Hi. rewrite length_app in Hi.
  rewrite get_app, Hm by lia. unfold slot_address, AC97_STREAM_SLOT_BYTES. rewrite Hw.
  set (p := ac_buffer c + n mod 32 * 32768 + s_fill s).
  destruct (Z.ltb_spec i (Z.of_nat (length W))) as [Hlow|Hhigh].
  - rewrite <- (Hb i) by lia.
    assert (Hout : ac_buffer c + i mod 1048576 < p \/ p + Z.of_nat (length data) <= ac_buffer c + i mod 1048576).
    { destruct (Z.lt_ge_cases (ac_buffer c + i mod 1048576) p); [by left|]. right.
      destruct (Z.lt_ge_cases (ac_buffer c + i mod 1048576) (p + Z.of_nat (length data))) as [Hin|]; [exfalso|done].
      apply (ring_apart i (32768 * n + (ac_buffer c + i mod 1048576 - p + s_fill s))); [lia|]. rewrite ring_pos by lia. unfold p. lia. }
    destruct (Z.leb_spec p (ac_buffer c + i mod 1048576)), (Z.ltb_spec (ac_buffer c + i mod 1048576) (p + Z.of_nat (length data))); cbn [andb]; (done || lia).
  - assert (E : ac_buffer c + i mod 1048576 = p + (i - Z.of_nat (length W))).
    { replace i with (32768 * n + (i - 32768 * n)) at 1 by lia. rewrite ring_pos by lia. unfold p. lia. }
    rewrite E, (proj2 (Z.leb_le _ _)), (proj2 (Z.ltb_lt _ _)) by lia. cbn [andb]. replace (p + (i - Z.of_nat (length W)) - p) with (i - Z.of_nat (length W)) by lia.
    unfold u8. apply Z.mod_small. unfold get. destruct (data !! _) as [b|] eqn:Eb; [|cbn; lia]. by apply (proj1 (Forall_lookup _ _) Hall) in Eb.
Qed.

(** Entries of the descriptor list, beside the buffer and beside each other. *)
Lemma entries_kept m m1 s n W data :
  stream_ok m s n W -> Z.of_nat (length data) <= 32768 - s_fill s ->
  (forall x, m1 x = if (slot_address c (s_write s) + s_fill s <=? x) && (x <? slot_address c (s_write s) + s_fill s + Z.of_nat (length data))
                    then u8 (get 0 data (x - (slot_address c (s_write s) + s_fill s))) else m x) ->
  forall k, n - s_queued s <= k < n ->
    mval W32 m1 (ac_bdl c + 8 * (k mod 32)) = u32 (slot_address c (k mod 32)) /\ mval W32 m1 (ac_bdl c + 8 * (k mod 32) + 4) = 2147500032.
Proof.
  destruct Hlay as [_ _ Hap _]. intros Hok Hlen Hm k Hk. destruct (so_entries _ _ _ _ Hok k Hk) as [<- <-].
  assert (Hout : forall j, 0 <= j < 8 -> m1 (ac_bdl c + 8 * (k mod 32) + j) = m (ac_bdl c + 8 * (k mod 32) + j)).
  { intros j Hj. rewrite Hm. destruct Hok. unfold slot_address, AC97_STREAM_SLOT_BYTES in *. rewrite so_write0.
    pose proof (Z.mod_pos_bound k 32 eq_refl). pose proof (Z.mod_pos_bound n 32 eq_refl).
    set (x := ac_bdl c + 8 * (k mod 32) + j). set (p := ac_buffer c + n mod 32 * 32768 + s_fill s).
    assert (x < p \/ p + Z.of_nat (length data) <= x) by (unfold x, p; lia).
    destruct (Z.leb_spec p x), (Z.ltb_spec x (p + Z.of_nat (length data))); cbn [andb]; (done || lia). }
  split; apply mval_same; intros j Hj; cbn [size] in Hj; rewrite <- ?Z.add_assoc; rewrite ?Z.add_assoc; [apply Hout; lia|].
  replace (ac_bdl c + 8 * (k mod 32) + 4 + j) with (ac_bdl c + 8 * (k mod 32) + (4 + j)) by lia. apply Hout. lia.
Qed.

(** A slot that is committed joins the queue. *)
Lemma commit_ok m s n W :
  active s = true -> Z.of_nat (length W) = 32768 * (n + 1) -> 0 <= s_queued s < 32 -> s_queued s <= n -> s_write s = n mod 32 -> s_read s = (n - s_queued s) mod 32 ->
  (forall i, 32768 * (n - s_queued s) <= i < Z.of_nat (length W) -> m (ac_buffer c + i mod 1048576) = get 0 W i) ->
  (forall k, n - s_queued s <= k < n -> mval W32 m (ac_bdl c + 8 * (k mod 32)) = u32 (slot_address c (k mod 32)) /\ mval W32 m (ac_bdl c + 8 * (k mod 32) + 4) = 2147500032) ->
  forall m2, m2 = mwrite W32 (mwrite W32 m (ac_bdl c + 8 * s_write s) (u32 (slot_address c (s_write s)))) (ac_bdl c + 8 * s_write s + 4) 2147500032 ->
  stream_ok m2 (set_fill (queued_one s) 0) (n + 1) W.
Proof.
  destruct Hlay as [_ _ Hap _]. intros Ha HT Hq Hqn Hw Hr Hb He m2 ->. pose proof (Z.mod_pos_bound n 32 eq_refl).
  assert (Eq : u8 (s_queued s + 1) = s_queued s + 1) by (unfold u8; apply Z.mod_small; lia).
  split; cbn [set_fill queued_one active s_fill s_queued s_write s_read]; rewrite ?Eq; [done | lia | lia | lia | done | | | |].
  - rewrite Hw, land31, Zplus_mod_idemp_l. done.
  - rewrite Hr. f_equal. lia.
  - intros i Hi. pose proof (Z.mod_pos_bound i 1048576 eq_refl). rewrite !mwrite_out by (cbn [size]; lia). apply Hb. lia.
  - intros k Hk. rewrite Hw. pose proof (Z.mod_pos_bound k 32 eq_refl). destruct (decide (k = n)) as [->|Hkn].
    + split; [rewrite mval_beside by (cbn [size]; lia); apply (mval_written W32) | apply (mval_written W32 _ _ 2147500032)].
    + assert (k mod 32 <> n mod 32) by zlia. rewrite !mval_beside by (cbn [size]; lia). apply He. lia.
Qed.

(** *** The driver and the chip together *)
Lemma hears_app r q n W data d : 0 <= q <= n -> 32768 * n <= Z.of_nat (length W) -> hears r q n W d -> hears r q n (W ++ data) d.
Proof. intros Hq HW. destruct r; [|done]. intros (p & Hp & Hc). exists p. split; [done|]. by rewrite take_app_le by lia. Qed.
Lemma slots_ok_app m q n W data : slots_ok m q n W -> slots_ok m q n (W ++ data).
Proof.
  intros [HT [Hq Hqn] Hb He]. split; [rewrite length_app; lia | done | | done]. intros i Hi. rewrite get_app by lia.
  by rewrite (proj2 (Z.ltb_lt _ _)), Hb by lia.
Qed.

(** What is written next is beside what is queued. *)
Lemma part_free q n r : 0 <= q < 32 -> q <= n -> 0 <= r < 32768 -> free_at q n (slot_address c (n mod 32) + r).
Proof.
  intros Hq Hqn Hr. pose proof (lay_apart Hlay) as Hap. pose proof (Z.mod_pos_bound n 32 eq_refl). unfold slot_address, AC97_STREAM_SLOT_BYTES. split.
  - intros i Hi E. apply (ring_apart i (32768 * n + r)); [lia|]. rewrite ring_pos by lia. lia.
  - intros k j Hk Hj. pose proof (Z.mod_pos_bound k 32 eq_refl). lia.
Qed.
Lemma entry_free q n j : 0 <= q < 32 -> q <= n -> 0 <= j < 8 -> free_at q n (ac_bdl c + 8 * (n mod 32) + j).
Proof.
  intros Hq Hqn Hj. pose proof (lay_apart Hlay) as Hap. pose proof (Z.mod_pos_bound n 32 eq_refl). split.
  - intros i Hi. pose proof (Z.mod_pos_bound i 1048576 eq_refl). lia.
  - intros k j' Hk Hj' E. assert (k mod 32 = n mod 32) by lia. zlia.
Qed.

Lemma tame_log (b : bool) : tame (if b then bm_read8 a c PCM_CIV;; bm_read16 a c PCM_PICB;; bm_read8 a c PCM_STATUS;; mret tt else mret tt).
Proof. destruct b; [|apply tame_ret]. repeat (apply tame_bind; [apply tame_read|intros ?]). apply tame_ret. Qed.
Lemma quiet_bm8 off v : quiet (bm_write8 a c off v).
Proof. apply quiet_op_write. Qed.

(** Announcing the slot behind the last one: the engine may have got as far as its end at once. *)
Lemma extend_hears s q n W d : slots_ok (view d) q n W -> slots_ok (view d) (q + 1) (n + 1) W -> hears true q n W d -> running s = true ->
  hears true (q + 1) (n + 1) W (ac97_stream_extend_dma a c (n mod 32) s d).2 /\ running (ac97_stream_extend_dma a c (n mod 32) s d).1 = true.
Proof.
  intros Hs Hs1 Hh Hrun. unfold ac97_stream_extend_dma. rewrite !hw_bind_eq.
  destruct (tame_read W8 (ac_bus c + PCM_STATUS)) as [Q1 T1]. change (port_read a W8 (ac_bus c + PCM_STATUS)) with (bm_read8 a c PCM_STATUS) in *.
  specialize (Q1 d). specialize (T1 true q n W d Hs Hh). destruct (bm_read8 a c PCM_STATUS d) as [status d1]. cbn [fst snd] in *.
  destruct (tame_acknowledge 24) as [Q2 T2]. specialize (Q2 d1). specialize (T2 true q n W d1 ltac:(by rewrite Q1) T1). set (d2 := (bm_write8 a c PCM_STATUS 24 d1).2) in *.
  assert (V2 : view d2 = view d) by congruence. destruct T2 as (p & Hp & Hc). destruct (ch_announce Hchip _ _ _ _ Hc) as (p' & Hp' & Hc'). rewrite V2 in Hc'.
  rewrite (between_played _ _ _ _ _ _ Hs1) in Hc' by lia. pose proof (quiet_bm8 PCM_LVI (n mod 32) d2) as V3. set (d3 := (bm_write8 a c PCM_LVI (n mod 32) d2).2) in *.
  destruct (Z.land status 1 =? 0); cbn [mret hw_ret fst snd]; [split; [exists p'; split; [lia | done] | done]|]. rewrite !hw_bind_eq. cbn [mret hw_ret fst snd set_running running].
  destruct (onward_hears (q + 1) (n + 1) W p' d3 _ ltac:(by rewrite V3, V2) ltac:(lia) (ch_resume Hchip _ _ _ _ Hc')) as (p2 & Hp2 & Hc2).
  split; [exists p2; split; [lia | done] | done].
Qed.

Lemma commit_hears s n W d : 0 <= s_queued s < 32 -> s_queued s <= n -> s_write s = n mod 32 -> slots_ok (view d) (s_queued s) n W ->
  slots_ok (mwrite W32 (mwrite W32 (view d) (ac_bdl c + 8 * s_write s) (u32 (slot_address c (s_write s)))) (ac_bdl c + 8 * s_write s + 4) 2147500032) (s_queued s + 1) (n + 1) W ->
  hears (running s) (s_queued s) n W d ->
  hears (running s) (s_queued s + 1) (n + 1) W (ac97_stream_commit_slot a c 32768 s d).2 /\ running (ac97_stream_commit_slot a c 32768 s d).1 = running s.
Proof.
  intros Hq Hqn Hw Hs Hs1 Hh. pose proof (Z.mod_pos_bound n 32 eq_refl).
  assert (Hpl : forall o i, 0 <= o -> 0 <= i -> o + i < 8 -> plain (ac_bdl c + 8 * s_write s + o + i)) by (intros; rewrite <- !Z.add_assoc; apply (lay_bdl Hlay); lia).
  unfold ac97_stream_commit_slot. rewrite !hw_bind_eq. cbn [fst snd mret hw_ret].
  destruct (store_hears W32 (ac_bdl c + 8 * s_write s) (Vmm.VmmGetPhysicalAddress (slot_address c (s_write s))) (running s) (s_queued s) n W d) as [HsA HhA];
    [intros i Hi; rewrite <- (Z.add_0_r (_ + 8 * s_write s)); apply Hpl; cbn [size] in *; lia | intros j Hj; rewrite Hw; apply entry_free; cbn [size] in *; lia | done | done|].
  set (d1 := (st W32 (ac_bdl c + 8 * s_write s) _ d).2) in *.
  destruct (store_hears W32 (ac_bdl c + 8 * s_write s + 4) (Z.lor (Z.land (Z.shiftr 32768 1) 65535) 2147483648) (running s) (s_queued s) n W d1) as [HsB HhB];
    [intros i Hi; apply Hpl; cbn [size] in *; lia | intros j Hj; rewrite Hw, <- Z.add_assoc; apply entry_free; cbn [size] in *; lia | done | done|].
  set (d2 := (st W32 (ac_bdl c + 8 * s_write s + 4) _ d1).2) in *.
  assert (V2 : view d2 = mwrite W32 (mwrite W32 (view d) (ac_bdl c + 8 * s_write s) (u32 (slot_address c (s_write s)))) (ac_bdl c + 8 * s_write s + 4) 2147500032).
  { unfold d2, d1. rewrite !st_view; [done | intros i Hi; rewrite <- (Z.add_0_r (_ + 8 * s_write s)); apply Hpl; cbn [size] in *; lia | intros i Hi; apply Hpl; cbn [size] in *; lia]. }
  rewrite <- V2 in Hs1. set (f := if running (queued_one s) then _ else _).
  assert (Hf : view (f d2).2 = view d2 /\ hears (running s) (s_queued s + 1) (n + 1) W (f d2).2 /\ running (f d2).1 = running s).
  { unfold f. cbn [queued_one running]. destruct (running s) eqn:Er.
    - split; [apply extend_dma_quiet|]. rewrite Hw. by apply extend_hears.
    - destruct HhB as [HhB ->]. cbn [mret hw_ret fst snd]. by repeat split. }
  destruct Hf as (Vf & Hf & Ef). destruct (f d2) as [s2 d3]. cbn [fst snd counted running] in *. split; [|done].
  apply (proj2 (tame_log (commit_logged (s_commits (counted s2))))); [by rewrite Vf | done].
Qed.

(** A running stream: memory as [stream_ok] says, and the chip where [hears] says. *)
Definition live (s : stream) (n : Z) (W : list Z) (d : D) : Prop :=
  stream_ok (view d) s n W /\ hears (running s) (s_queued s) n W d /\ (running s = false -> s_queued s < 32).

Lemma start_dma_hears s n W d : slots_ok (view d) 32 32 W -> n = 32 -> hears false 32 n W d ->
  hears true 32 32 W (ac97_stream_start_dma a c 31 s d).2 /\ view (ac97_stream_start_dma a c 31 s d).2 = view d.
Proof.
  intros Hs -> [Hh _]. unfold ac97_stream_start_dma. rewrite !hw_bind_eq. cbn [fst snd mret hw_ret]. split; [|by rewrite !quiet_bm8].
  destruct (ch_start Hchip _ Hh) as (p & Hp & Hc). exists p. split; [lia|]. pose proof (between_played _ _ _ _ 0 p Hs ltac:(lia) ltac:(lia)) as E. cbn [Z.mul Z.to_nat take app] in E. by rewrite <- E.
Qed.

Lemma write_part_live s n W data d :
  live s n W d -> s_queued s < 32 -> Z.of_nat (length data) <= 32768 - s_fill s -> Forall (fun b => 0 <= b < 256) data ->
  exists n', live (write_part a c data s d).1 n' (W ++ data) (write_part a c data s d).2.
Proof.
  intros (Hok & Hh & Hrun) Hlt Hlen Hall. pose proof Hok as [Ha HT Hf [Hq Hqn] _ Hw Hr _ _]. pose proof (Z.mod_pos_bound n 32 eq_refl). pose proof (stream_slots _ _ _ _ Hok) as Hs.
  unfold write_part. rewrite !hw_bind_eq. cbn [s_fill set_fill]. rewrite Hw in *.
  destruct (copy_hears data (slot_address c (n mod 32) + s_fill s) (running s) (s_queued s) n W d) as [Hs1 Hh1]; [|done|done|].
  { intros i Hi. split; [unfold slot_address, AC97_STREAM_SLOT_BYTES; rewrite <- !Z.add_assoc; apply (lay_buffer Hlay); lia | rewrite <- Z.add_assoc; apply part_free; lia]. }
  assert (V : forall x, view (copy_out (slot_address c (s_write s) + s_fill s) data d).2 x = _)
    by (apply copy_out_view; intros k Hk; unfold slot_address, AC97_STREAM_SLOT_BYTES; rewrite <- !Z.add_assoc; apply (lay_buffer Hlay); lia).
  pose proof (part_bytes _ _ _ _ _ _ Hok Hlt Hlen Hall V) as Bs. pose proof (entries_kept _ _ _ _ _ _ Hok Hlen V) as Es. clear V. rewrite Hw in *.
  set (d1 := (copy_out _ data d).2) in *. apply (hears_app _ _ _ _ data) in Hh1; [|lia|lia]. apply (slots_ok_app _ _ _ _ data) in Hs1.
  unfold AC97_STREAM_SLOT_BYTES. destruct (Z.eqb_spec (s_fill s + Z.of_nat (length data)) 32768) as [E|E]; cbn [negb].
  2:{ exists n. split; [|done]. split; cbn [set_fill active s_fill s_queued s_write s_read fst snd mret hw_ret]; try done; [rewrite length_app; lia | lia | lia]. }
  rewrite !hw_bind_eq. rewrite E. destruct (commit_view 32768 (set_fill s 32768) d1 ltac:(cbn; lia)) as [Vc Ac].
  assert (Hok2 : stream_ok (view (ac97_stream_commit_slot a c 32768 (set_fill s 32768) d1).2) (set_fill (queued_one s) 0) (n + 1) (W ++ data)).
  { apply (commit_ok (view d1) s n (W ++ data)); try done; [rewrite length_app; lia | lia]. }
  rewrite Vc in Hok2 at 1. pose proof (stream_slots _ _ _ _ Hok2) as Hs2. cbn [set_fill queued_one s_queued] in Hs2.
  assert (Eq : u8 (s_queued s + 1) = s_queued s + 1) by (unfold u8; apply Z.mod_small; lia). rewrite Eq in Hs2.
  destruct (commit_hears (set_fill s 32768) n (W ++ data) d1) as [Hh2 Er]; [cbn; lia | cbn; lia | done | done | exact Hs2 | done|].
  cbn [set_fill running s_queued] in Hh2, Er. rewrite <- Vc in Hok2, Hs2. destruct (ac97_stream_commit_slot a c 32768 (set_fill s 32768) d1) as [s2 d2]. cbn [fst snd] in *.
  assert (Al : alike (set_fill (queued_one s) 0) (set_fill s2 0)) by (destruct Ac as (? & ? & ? & ? & ?); done).
  assert (Eq2 : s_queued (set_fill s2 0) = s_queued s + 1) by (destruct Al as (_ & _ & _ & <- & _); exact Eq).
  exists (n + 1). change (running (set_fill s2 0)) with (running s2). rewrite Er. unfold full, AC97_STREAM_SLOTS. rewrite Eq2.
  destruct (running s) eqn:Es'; cbn [negb andb]; [|destruct (Z.eqb_spec (s_queued s + 1) 32) as [E32|E32]].
  - cbn [fst snd mret hw_ret]. split; [by eapply alike_ok|]. rewrite Eq2. change (running (set_fill s2 0)) with (running s2). by rewrite Er.
  - assert (En : n + 1 = 32) by (destruct Hh2; lia). rewrite E32, En in *. destruct (start_dma_hears (set_fill s2 0) 32 (W ++ data) d2 Hs2 eq_refl Hh2) as [Hh3 V3].
    assert (E1 : (ac97_stream_start_dma a c 31 (set_fill s2 0) d2).1 = set_running (set_fill s2 0)) by (unfold ac97_stream_start_dma; by rewrite !hw_bind_eq).
    unfold live. rewrite E1, V3. split; [by eapply (alike_ok _ (set_fill (queued_one s) 0))|]. split; [|done]. cbn [set_running running s_queued]. by rewrite Eq2.
  - cbn [fst snd mret hw_ret]. split; [by eapply alike_ok|]. rewrite Eq2. change (running (set_fill s2 0)) with (running s2). rewrite Er. split; [done | lia].
Qed.

Lemma write_loop_live turns data s n W d :
  live s n W d -> (length data <= turns)%nat -> Forall (fun b => 0 <= b < 256) data ->
  exists s' d' n', write_loop a KeYield turns fuel c data s d = Some (s', d') /\ live s' n' (W ++ data) d'.
Proof.
  revert data s n W d. induction turns as [|turns IH]; intros data s n W d Hl Ht Hall.
  { destruct data; [|cbn in Ht; lia]. exists s, d, n. by rewrite app_nil_r. }
  destruct data as [|b data]; [exists s, d, n; by rewrite app_nil_r|]. set (rest := b :: data) in *.
  assert (E0 : write_loop a KeYield (S turns) fuel c rest s d = (s ← reap_while a KeYield fuel full c s;
    s' ← now (write_part a c (take (Z.to_nat (AC97_STREAM_SLOT_BYTES - s_fill s)) rest) s);
    write_loop a KeYield turns fuel c (drop (Z.to_nat (AC97_STREAM_SLOT_BYTES - s_fill s)) rest) s') d) by done.
  pose proof Hl as (Hok & Hh & Hrun).
  destruct (reap_while_full fuel s n W d Hok) as (j & d1 & E1 & Hj & Hlt & V1 & Hh1).
  { intros Er. by rewrite Er in Hh. }
  { intros Hq. destruct (running s) eqn:Er; [|specialize (Hrun eq_refl); lia]. split; [done | by eapply full_moves]. }
  assert (Hl1 : live (advanced s j) n W d1).
  { split; [rewrite V1; by apply advanced_ok|]. cbn [advanced running s_queued]. destruct (running s) eqn:Er; [done|]. destruct Hh1 as [-> ->]. rewrite Z.sub_0_r. auto. }
  rewrite E0. unfold mbind, op_bind, now. rewrite E1. set (s1 := advanced s j) in *.
  set (k := Z.to_nat (AC97_STREAM_SLOT_BYTES - s_fill s1)).
  assert (Hk : (0 < k)%nat /\ Z.of_nat k = 32768 - s_fill s1) by (destruct (proj1 Hl1); unfold k, AC97_STREAM_SLOT_BYTES in *; lia).
  destruct (write_part_live s1 n W (take k rest) d1 Hl1 Hlt ltac:(rewrite length_take; lia) ltac:(by apply Forall_take)) as (n2 & Hl2).
  destruct (write_part a c (take k rest) s1 d1) as [s2 d2]. cbn [fst snd] in Hl2.
  destruct (IH (drop k rest) s2 n2 (W ++ take k rest) d2 Hl2) as (s3 & d3 & n3 & E3 & Hl3); [rewrite length_drop; unfold rest in *; cbn in *; lia | by apply Forall_drop|].
  exists s3, d3, n3. split; [exact E3|]. by rewrite <- app_assoc, take_drop in Hl3.
Qed.

(** The writes of a stream, and their statuses. *)
Fixpoint writes (l : list (list Z)) (s : stream) : op (list Z * stream) :=
  match l with
  | [] => mret ([], s)
  | data :: l => '(status, s) ← ac97_stream_write a KeYield fuel c data s; '(rest, s) ← writes l s; mret (status :: rest, s)
  end.

(** Whole frames of bytes. *)
Definition frames (data : list Z) : Prop := data <> [] /\ Z.land (Z.of_nat (length data)) 3 = 0 /\ Forall (fun b => 0 <= b < 256) data.

Lemma writes_live l s n W d : live s n W d -> Forall frames l ->
  exists s' d' n', writes l s d = Some ((replicate (length l) Io.IO_STATUS_SUCCESS, s'), d') /\ live s' n' (W ++ concat l) d'.
Proof.
  revert s n W d. induction l as [|data l IH]; intros s n W d Hl Hall; [exists s, d, n; by rewrite app_nil_r|].
  apply Forall_cons in Hall as [(Hne & H3 & Hb) Hall]. cbn [writes concat length replicate].
  destruct (write_loop_live (length data) data s n W d Hl ltac:(lia) Hb) as (s1 & d1 & n1 & E1 & Hl1).
  destruct (IH s1 n1 (W ++ data) d1 Hl1 Hall) as (s2 & d2 & n2 & E2 & Hl2).
  exists s2, d2, n2. split; [|by rewrite app_assoc].
  unfold mbind, op_bind, ac97_stream_write. rewrite (so_active _ _ _ _ (proj1 Hl)), H3. cbn [negb orb Z.eqb].
  rewrite (proj2 (Z.eqb_neq _ 0)) by (destruct data; [done|]; cbn; lia). cbn [orb]. unfold mbind, op_bind. rewrite E1. cbn. by rewrite E2.
Qed.

(** *** The start *)
Definition hushed {A} (f : hw D A) : Prop := forall d, silent d -> silent (f d).2.
Lemma hushed_bind {A B} (f : hw D A) (k : A -> hw D B) : hushed f -> (forall x, hushed (k x)) -> hushed (f ≫= k).
Proof. intros Hf Hk d Hd. rewrite hw_bind_eq. by apply Hk, Hf. Qed.
Lemma hushed_read w p : hushed (port_read a w p).
Proof. intros d. apply (ch_silent_read Hchip). Qed.
Lemma hushed_poll n w p test : hushed (poll n (port_read a w p) test).
Proof.
  induction n as [|n IH]; cbn [poll]; [by intros d|]. apply hushed_bind; [apply hushed_read|]. intros x. destruct (test x); [by intros d | exact IH].
Qed.
Lemma hushed_copy data p : (forall i, 0 <= i < Z.of_nat (length data) -> plain (p + i)) -> hushed (copy_out p data).
Proof.
  revert p. induction data as [|b data IH]; intros p Hp; cbn [copy_out]; [by intros d|]. apply hushed_bind.
  - intros d. apply (ch_silent_store Hchip). intros i Hi. apply Hp. cbn [size length] in *. lia.
  - intros _. apply IH. intros i Hi. rewrite <- Z.add_assoc. apply Hp. cbn [length]. lia.
Qed.
Lemma hushed_each n i f : (forall j, i <= j < i + Z.of_nat n -> hushed (f j)) -> hushed (each n i f).
Proof.
  revert i. induction n as [|n IH]; intros i Hf; cbn [each]; [by intros d|]. apply hushed_bind; [apply Hf; lia|]. intros _. apply IH. intros j Hj. apply Hf. lia.
Qed.

Lemma start_live f s d : stereo16 f = true -> sample_rate f <> 0 ->
  exists s' d', ac97_stream_start a c f s d = ((Io.IO_STATUS_SUCCESS, s'), d') /\ live s' 0 [] d'.
Proof.
  intros Hf Hr. unfold ac97_stream_start. rewrite Hf, (proj2 (Z.eqb_neq _ 0)) by done. cbn [negb orb]. rewrite !hw_bind_eq. cbn [mret hw_ret].
  lazymatch goal with |- context [bm_write8 a c PCM_CONTROL 2 ?e] => pose proof (ch_reset Hchip e) as Hd; set (d1 := (bm_write8 a c PCM_CONTROL 2 e).2) in * end.
  pose proof (hushed_poll (Z.to_nat 10000) W8 (ac_bus c + PCM_CONTROL) (fun v => Z.land v 2 =? 0) d1 Hd) as Hd2. change (port_read a W8 (ac_bus c + PCM_CONTROL)) with (bm_read8 a c PCM_CONTROL) in Hd2.
  set (d2 := (poll _ _ _ d1).2) in *. clearbody d2.
  assert (Hd3 : silent (zero_out (ac_bdl c) 4096 d2).2) by (apply hushed_copy; [|done]; rewrite length_replicate; apply (lay_bdl Hlay)).
  set (d3 := (zero_out _ _ d2).2) in *. clearbody d3.
  assert (Hd4 : silent (each 32 0 (fun i => st W32 (ac_bdl c + 8 * i) (Vmm.VmmGetPhysicalAddress (slot_address c i))) d3).2).
  { apply hushed_each; [|done]. intros j Hj e. apply (ch_silent_store Hchip). intros i Hi. rewrite <- Z.add_assoc. apply (lay_bdl Hlay). cbn [size] in Hi. lia. }
  set (d4 := (each _ _ _ d3).2) in *. clearbody d4.
  pose proof (ch_list Hchip d4 Hd4) as Hd5. change (Vmm.VmmGetPhysicalAddress (ac_bdl c)) with (ac_bdl c).
  set (d5 := (bm_write32 _ _ _ _ d4).2) in *. clearbody d5.
  eexists _, _. split; [reflexivity|]. split; [split; cbn; try done; lia|]. split; [|done]. split; [|done].
  repeat (apply (ch_ready_write Hchip); [set_solver|]). exact Hd5.
Qed.

(** C26. From its start, a stream of the AC'97 driver takes any number of writes of whole frames, on a chip that keeps the laws of [ac97_chip]
    and may play whenever time passes: each write succeeds, the waits for a free slot included; and afterwards, if the engine runs, what it
    has played is exactly the first [p] slots of the bytes written, in order, the driver has taken at most these [p] slots for played,
    and what it has yet to play stands in the DMA buffer, as on a ring of 1 MiB that no write has overrun, with descriptors naming the slots with
    16384 samples each.  Before 32 slots are full the engine is ready and nothing has been played or given up. *)
Theorem ac97_stream_integrity (f : AUDIO_FORMAT) (l : list (list Z)) (s : stream) (d : D) :
  stereo16 f = true -> sample_rate f <> 0 -> Forall frames l ->
  exists s' d' n, ('(status, s) ← now (ac97_stream_start a c f s); '(rest, s) ← writes l s; mret (status :: rest, s)) d =
      Some ((replicate (S (length l)) Io.IO_STATUS_SUCCESS, s'), d') /\ stream_ok (view d') s' n (concat l) /\
    if running s' then exists p, n - s_queued s' <= p <= n /\ chip p n (take (Z.to_nat (32768 * p)) (concat l)) d'
    else ready d' /\ s_queued s' = n /\ n < 32.
Proof.
  intros Hf Hr Hall. destruct (start_live f s d Hf Hr) as (s1 & d1 & E1 & Hl1).
  destruct (writes_live l s1 0 [] d1 Hl1 Hall) as (s2 & d2 & n2 & E2 & Hok2 & Hh2 & Hn2). exists s2, d2, n2.
  unfold mbind, op_bind, now. rewrite E1, E2. split; [done|]. split; [done|]. cbn [app] in Hh2. unfold hears in Hh2.
  destruct (running s2); [done|]. destruct Hh2 as [? ?]. split; [done|]. split; [done|]. specialize (Hn2 eq_refl). lia.
Qed.

End ac97.

(** ** Instances *)
Lemma packet_roundtrip_witness :
  packet_at (mkReq AUDIO_IOCTL_PLAY_PCM (Some (pcm_packet (mkFormat 44100 2 1) [1; 2; 3; 4])) None) = Some (mkFormat 44100 2 1, [1; 2; 3; 4]).
Proof. apply packet_roundtrip; [unfold format_ok; cbn; lia | cbn; lia]. Defined.

(** Devices that accept everything and count the requests. *)
Definition accepting : list Z -> Z -> list Z -> Z -> (Z * list Z) * Z := fun _ _ _ n => ((0, caps_bytes (mkCaps (mkFormat 48000 2 1) 65536 1)), n + 1).
Definition streaming : @audio Z Sim.fresh := mkAudio (mkService (Some (cstr "AudioHDA")) false true) 0 Sim.fresh_start.

Lemma stream_write_forwards_witness :
  exists status s', AudioServiceStreamWrite accepting (Some (mkFormat 44100 2 1)) (Some [1; 2; 3; 4]) streaming = Some (status, s') /\ svc s' = svc streaming /\
    kh_ok (kheap s') /\ kh_live (kheap s') = kh_live (kheap streaming) /\
    ((status = Io.IO_STATUS_NO_MEMORY /\ devices s' = devices streaming) \/
     (exists out, accepting (cstr "AudioHDA") AUDIO_IOCTL_STREAM_WRITE (pcm_packet (mkFormat 44100 2 1) [1; 2; 3; 4]) (devices streaming) = ((status, out), devices s'))).
Proof. apply (stream_write_forwards accepting); [apply Sim.fresh_start_ok | reflexivity | cbn; lia]. Defined.

(** A board with a playback engine that finishes a slot whenever the other threads run: whether it runs, the address of the list, the last valid
    index, the slots finished and announced, and what was played. *)
Record sound_board := mkSound { sb : board; on : bool; base : Z; lvi : Z; finished : Z; announced : Z; played_bytes : list Z }.
Definition a_chip : AC97_STATE := mkAc97 4096 8192 65536 1048576.
Definition at_end (d : sound_board) : bool := finished d =? announced d.
Definition sound_in (p : Z) (d : sound_board) : Z :=
  if p =? 8212 then (if at_end d then announced d - 1 else finished d) mod 32
  else if p =? 8214 then (if at_end d then 1 else 0) else if p =? 8216 then (if at_end d then 0 else 1) else 0.
Definition sound_out (p v : Z) (d : sound_board) : sound_board :=
  if p =? 8219 then
    if v =? 2 then mkSound (sb d) false (base d) (lvi d) (finished d) (announced d) (played_bytes d)
    else if (v =? 17) && negb (on d) then mkSound (sb d) true (base d) (lvi d) 0 (lvi d + 1) [] else d
  else if p =? 8213 then
    if on d then (if v =? announced d mod 32 then mkSound (sb d) true (base d) (lvi d) (finished d) (announced d + 1) (played_bytes d) else d)
    else mkSound (sb d) false (base d) v (finished d) (announced d) (played_bytes d)
  else if p =? 8208 then mkSound (sb d) (on d) v (lvi d) (finished d) (announced d) (played_bytes d) else d.
Definition put_board (d : sound_board) (b : board) : sound_board := mkSound b (on d) (base d) (lvi d) (finished d) (announced d) (played_bytes d).
#[global] Instance sound_bus : Bus sound_board := {
  port_in wd p d := (sound_in p d, d);
  port_out wd p v d := (tt, sound_out p v d);
  mmio_load wd p d := (fst (sim_load wd p (sb d)), d);
  mmio_store wd p v d := (tt, put_board d (snd (sim_store wd p v (sb d))))
}.
Lemma sound_out_board p v d : sb (sound_out p v d) = sb d.
Proof. unfold sound_out. repeat case_match; done. Qed.
#[global, refine] Instance sound_quiet : QuietMemory sound_board := { plain := plain (D := board); view d := view (sb d) }.
Proof.
  - intros wd p d. exact (quiet_load (D := board) wd p (sb d)).
  - done.
  - intros wd p v d. exact (quiet_store (D := board) wd p v (sb d)).
  - intros wd p v d. exact (quiet_reg (D := board) wd p v (sb d)).
  - exact (quiet_window (D := board)).
  - done.
  - intros wd p v d. cbn. by rewrite sound_out_board.
Defined.

(** Time passes: one more slot is played. *)
Definition sound_yield : hw sound_board unit := fun d =>
  (tt, if on d && (finished d <? announced d)
       then mkSound (sb d) true (base d) (lvi d) (finished d + 1) (announced d) (played_bytes d ++ slot_bytes a_chip (view d) (finished d)) else d).
Definition sound_silent (d : sound_board) : Prop := on d = false.
Definition sound_ready (d : sound_board) : Prop := on d = false /\ base d = 65536.
Definition sound_chip (p v : Z) (h : list Z) (d : sound_board) : Prop := on d = true /\ finished d = p /\ announced d = v /\ played_bytes d = h /\ 0 <= p <= v.

Lemma between_self c (m : mem) p : between c m p p = [].
Proof. unfold between. by rewrite Z.sub_diag. Qed.
Lemma stays p v h d d' : sound_chip p v h d' -> onward a_chip sound_chip p v h d d'.
Proof. intros Hc. exists p. split; [destruct Hc as (_ & _ & _ & _ & ?); lia|]. by rewrite between_self, app_nil_r. Qed.
Lemma small_index x : Z.land (truncate W8 (x mod 32)) 31 = x mod 32.
Proof. rewrite land31. pose proof (Z.mod_pos_bound x 32 eq_refl). unfold truncate, u8. rewrite (Z.mod_small (x mod 32) 256) by lia. apply Z.mod_small. lia. Qed.
Lemma sound_civ d : bm_read8 X86 a_chip PCM_CIV d = (truncate W8 ((if at_end d then announced d - 1 else finished d) mod 32), d).
Proof. done. Qed.
Lemma sound_picb d : bm_read16 X86 a_chip PCM_PICB d = (if at_end d then 0 else 1, d).
Proof. transitivity (truncate W16 (sound_in 8216 d), d); [done|]. unfold sound_in. cbn [Z.eqb Pos.eqb]. by destruct (at_end d). Qed.
Lemma sound_status d : bm_read8 X86 a_chip PCM_STATUS d = (if at_end d then 1 else 0, d).
Proof. transitivity (truncate W8 (sound_in 8214 d), d); [done|]. unfold sound_in. cbn [Z.eqb Pos.eqb]. by destruct (at_end d). Qed.
Lemma sound_lvi x d : bm_write8 X86 a_chip PCM_LVI (x mod 32) d = (tt, if on d then (if x mod 32 =? announced d mod 32 then mkSound (sb d) true (base d) (lvi d) (finished d) (announced d + 1) (played_bytes d) else d)
    else mkSound (sb d) false (base d) (x mod 32) (finished d) (announced d) (played_bytes d)).
Proof.
  pose proof (Z.mod_pos_bound x 32 eq_refl). transitivity (tt, sound_out 8213 (truncate W8 (x mod 32)) d); [done|].
  unfold truncate, u8, sound_out. rewrite (Z.mod_small (x mod 32) 256) by lia. done.
Qed.

Lemma sound_progress p v h d : sound_chip p v h d -> p < v -> moves_on X86 sound_yield a_chip (p mod 32) 2 d.
Proof.
  intros (Ho & Hf & Ha & Hh & Hp) Hv. eapply mo_waits; [apply sound_civ | apply sound_picb | apply sound_status|].
  unfold sound_yield. rewrite Ho, Hf, Ha, (proj2 (Z.ltb_lt p v)) by done. cbn [andb snd]. set (d1 := mkSound _ _ _ _ _ _ _).
  assert (Ee : at_end d1 = (p + 1 =? v)) by done. destruct (Z.eqb_spec (p + 1) v) as [E|E].
  - eapply mo_halted; [apply sound_civ | rewrite sound_picb, Ee; reflexivity | apply sound_status|]. by rewrite Ee.
  - eapply mo_elsewhere; [apply sound_civ|]. rewrite small_index, Ee. cbn [d1 finished]. zlia.
Qed.

Lemma sound_laws : ac97_chip X86 sound_yield a_chip sound_silent sound_ready sound_chip 2.
Proof.
  assert (Hc : forall d d' p v h, on d' = on d -> finished d' = finished d -> announced d' = announced d -> played_bytes d' = played_bytes d -> sound_chip p v h d -> sound_chip p v h d').
  { intros d d' p v h E1 E2 E3 E4 (? & ? & ? & ? & ?). unfold sound_chip. by rewrite E1, E2, E3, E4. }
  split.
  - done.
  - done.
  - done.
  - by intros d Hd.
  - done.
  - intros off v d Ho [H1 H2]. unfold sound_ready, bm_write8, outb, port_write. rewrite !elem_of_cons in Ho. destruct Ho as [->|[->|[->|Ho%not_elem_of_nil]]]; [..|done]; cbn; unfold sound_out; cbn; by rewrite ?H1.
  - done.
  - intros d [H1 H2]. exists 0. split; [lia|]. rewrite between_self. change 31 with (31 mod 32) at 1. rewrite sound_lvi, H1.
    unfold bm_write8, outb, port_write. cbn. unfold sound_out. cbn. by repeat split.
  - intros w q p v h d Hd. by apply stays.
  - intros p v h d Hd. exists p. split; [destruct Hd as (_ & _ & _ & _ & ?); lia|]. rewrite between_self, app_nil_r, sound_civ. split; [done|]. cbn [fst]. rewrite small_index.
    destruct Hd as (_ & <- & <- & _ & _). done.
  - intros p v h d Hd. rewrite sound_status. pose proof Hd as (_ & Ef & Ea & _ & _). unfold at_end. cbn [fst snd]. rewrite Ef, Ea. destruct (Z.eqb_spec p v) as [->|]; [|done].
    intros _. by rewrite between_self, app_nil_r.
  - intros p v h d x Hd. apply stays. by apply (Hc d).
  - intros p v h d (Ho & Ef & Ea & Eh & Hp). exists p. split; [lia|]. rewrite between_self, app_nil_r, sound_lvi, Ho, Ea, Z.eqb_refl. unfold sound_chip. cbn. repeat split; (done || lia).
  - intros p v h d Hd. assert (E : bm_write8 X86 a_chip PCM_CONTROL 17 d = (tt, d)); [|rewrite E; by apply stays].
    transitivity (tt, sound_out 8219 17 d); [done|]. unfold sound_out. cbn [Z.eqb Pos.eqb andb]. by rewrite (proj1 Hd).
  - intros w q x p v h d _ Hd _. apply stays. by apply (Hc d).
  - intros p v h d (Ho & Ef & Ea & Eh & Hp). unfold sound_yield. rewrite Ho, Ef, Ea. cbn [andb snd]. destruct (Z.ltb_spec p v); [|apply stays; exact (conj Ho (conj Ef (conj Ea (conj Eh Hp))))].
    exists (p + 1). split; [lia|]. rewrite between_next, between_self, Eh by lia. cbn [app]. unfold sound_chip. cbn. repeat split; (done || lia).
  - lia.
  - exact sound_progress.
Qed.

Definition a_board : sound_board := mkSound (mkBoard (fun _ => 0) []) false 0 0 0 0 [].
(** A slot of silence, and 40 of them: the ring fills, the engine starts, and eight writes wait for it. *)
Definition slot_of (b : Z) : list Z := replicate (Z.to_nat 32768) b.
Definition forty : list (list Z) := map slot_of (seqZ 0 40).

Lemma slot_frames k b : 0 < k -> Z.land k 3 = 0 -> 0 <= b < 256 -> frames (replicate (Z.to_nat k) b).
Proof.
  intros Hk H3 Hb. unfold frames. split; [intros E%(f_equal length); rewrite length_replicate in E; cbn [length] in E; lia|].
  split; [by rewrite length_replicate, Z2Nat.id by lia|]. by apply Forall_replicate.
Qed.

Lemma ac97_stream_integrity_witness :
  exists s' d' n, ('(status, s) ← now (ac97_stream_start X86 a_chip (mkFormat 44100 2 1) no_stream); '(rest, s) ← writes X86 sound_yield a_chip 2 forty s; mret (status :: rest, s)) a_board =
      Some ((replicate 41 0, s'), d') /\ stream_ok a_chip (view d') s' n (concat forty) /\
    if running s' then exists p, n - s_queued s' <= p <= n /\ sound_chip p n (take (Z.to_nat (32768 * p)) (concat forty)) d' else sound_ready d' /\ s_queued s' = n /\ n < 32.
Proof.
  assert (Hy : quiet (D := sound_board) sound_yield) by (intros d; unfold sound_yield; cbn [snd]; by destruct (_ && _)).
  assert (Hl : layout a_chip) by (split; [intros k Hk; cbn; lia | intros k Hk; cbn; lia | right; cbn; lia | cbn; lia]).
  apply (ac97_stream_integrity X86 sound_yield a_chip sound_silent sound_ready sound_chip 2 sound_laws Hy Hl (mkFormat 44100 2 1) forty no_stream a_board);
    [reflexivity | discriminate |].
  apply Forall_map, Forall_forall. intros b Hb%elem_of_seqZ. apply slot_frames; [lia | reflexivity | lia].
Defined.

(** Six bytes: the last two make a piece of no frame, which is refused after the first four have been queued; the
    stream is left open. *)
Example play_leaves_stream_open :
  option_map (fun r => (fst (fst r), active (snd (fst r)), s_fill (snd (fst r))))
    (ac97_play X86 (mret tt) 1 a_chip [1; 2; 3; 4; 5; 6] (mkFormat 44100 2 1) no_stream a_board) = Some (Io.IO_STATUS_INVALID_PARAMETER, true, 4).
Proof. vm_compute. reflexivity. Qed.

End AudioSpec.
