(* ===== verification/User32.v ===== *)
(** * dlls/user32: messages, timers and edit controls

    Of user32.c, the message table with the quit states and timers that feed it,
    and the text of edit controls.  A window is reduced to the fields these read. [W] is
    the state of the rest of the system: the clock, the process that runs, the active window, and
    what other threads do in [KeYield] are arguments over it.  The [pt] of a message is always zero
    and left out; calls that only ask for repainting are, too. *)

From stdpp Require Import base list numbers gmap strings.
From Stdlib Require Import ZArith Lia.
From S2P Require Import Prelude.
From S2P Require Import Util.
From S2P Require Import Mm.
Import Util.

Module User32.

Definition MAX_U32_WINDOWS : Z := 256.
Definition MAX_U32_TIMERS : Z := 64.
Definition MAX_U32_MESSAGES : Z := 256.
Definition MAX_U32_QUIT_STATES : Z := 32.
Definition WM_QUIT : Z := 18.
Definition WM_PAINT : Z := 15.
Definition WM_KEYDOWN : Z := 256.
Definition WM_CHAR : Z := 258.
Definition WM_TIMER : Z := 275.

Record MSG := mkMsg { m_hwnd : Z; message : Z; wParam : Z; lParam : Z; time : Z }.
Record U32_MESSAGE := mkEntry { used : bool; msg : MSG; owner_pid : Z }.
Record U32_QUIT_STATE := mkQuit { q_used : bool; q_pid : Z; exit_requested : bool; exit_code : Z }.
Record U32_TIMER := mkTimer { t_used : bool; t_hwnd : Z; t_id : Z; elapse : Z; tick : Z }.
Record U32_WINDOW := mkWin { w_used : bool; hwnd : Z; parent : Z; top_level : bool; visible : bool; invalidated : bool; w_pid : Z }.

Definition no_msg : MSG := mkMsg 0 0 0 0 0.
Definition no_entry : U32_MESSAGE := mkEntry false no_msg 0.
Definition no_quit : U32_QUIT_STATE := mkQuit false 0 false 0.
Definition no_timer : U32_TIMER := mkTimer false 0 0 0 0.
Definition no_win : U32_WINDOW := mkWin false 0 0 false false false 0.

Record user32 := mkUser {
  g_messages : list U32_MESSAGE; g_quit_states : list U32_QUIT_STATE; g_timers : list U32_TIMER; g_windows : list U32_WINDOW; g_user32_process_id : Z
}.
Definition set_messages (u : user32) (l : list U32_MESSAGE) : user32 := mkUser l (g_quit_states u) (g_timers u) (g_windows u) (g_user32_process_id u).
Definition set_quits (u : user32) (l : list U32_QUIT_STATE) : user32 := mkUser (g_messages u) l (g_timers u) (g_windows u) (g_user32_process_id u).
Definition set_timers (u : user32) (l : list U32_TIMER) : user32 := mkUser (g_messages u) (g_quit_states u) l (g_windows u) (g_user32_process_id u).

(** ** Windows *)
Definition u32_lookup_window (h : Z) (u : user32) : option U32_WINDOW :=
  i ← first_from (Z.to_nat MAX_U32_WINDOWS) 0 (fun i => w_used (get no_win (g_windows u) i) && (hwnd (get no_win (g_windows u) i) =? h));
  Some (get no_win (g_windows u) i).

(** [guard] counts the windows passed. *)
Fixpoint visible_up (guard : nat) (w : option U32_WINDOW) (u : user32) : bool :=
  match guard, w with
  | _, None => false
  | O, Some _ => true
  | S n, Some w => if negb (visible w) then false else if parent w =? 0 then true else visible_up n (u32_lookup_window (parent w) u) u
  end.
Definition u32_effectively_visible (h : Z) (u : user32) : bool := visible_up 256 (u32_lookup_window h u) u.

(** The chain of parents; a chain that returns to itself exhausts any fuel. *)
Fixpoint root_up (fuel : nat) (h : Z) (w : option U32_WINDOW) (u : user32) : option Z :=
  match w with
  | None => Some h
  | Some w =>
      if (parent w =? 0) || top_level w then Some (hwnd w) else
      match fuel with O => None | S n => root_up n h (u32_lookup_window (parent w) u) u end
  end.
Definition u32_get_root_window (h : Z) (u : user32) : option Z := root_up 256 h (u32_lookup_window h u) u.

Definition u32_has_top_level_window_for_pid (pid except : Z) (u : user32) : bool :=
  bool_decide (first_from (Z.to_nat MAX_U32_WINDOWS) 0 (fun i => let w := get no_win (g_windows u) i in
    w_used w && top_level w && negb (hwnd w =? except) && (w_pid w =? pid)) <> None).

(** ** Messages *)
Definition u32_message_matches (m : MSG) (h min max : Z) : bool :=
  if negb (h =? 0) && negb (m_hwnd m =? h) then false else
  if negb (min =? 0) || negb (max =? 0) then
    if message m <? min then false else negb (negb (max =? 0) && (max <? message m))
  else true.

Section messages.
Context {W : Type} (GetTickCount GetCurrentProcessId Win32kGetActiveWindow : W -> Z) (KeYield : user32 * W -> user32 * W).

Definition u32_current_process_id (u : user32) (w : W) : Z := if g_user32_process_id u =? 0 then GetCurrentProcessId w else g_user32_process_id u.

Definition u32_enqueue_message (h m wp lp : Z) (u : user32) (w : W) : bool * user32 :=
  let owner := match u32_lookup_window h u with Some x => if w_pid x =? 0 then u32_current_process_id u w else w_pid x | None => u32_current_process_id u w end in
  match first_from (Z.to_nat MAX_U32_MESSAGES) 0 (fun i => negb (used (get no_entry (g_messages u) i))) with
  | Some i => (true, set_messages u (put (g_messages u) i (mkEntry true (mkMsg h m wp lp (GetTickCount w)) owner)))
  | None => (false, u)
  end.
Definition PostMessageW := u32_enqueue_message.

(** The entry at [i] goes, those behind it move forward. *)
Definition remove_message (i : Z) (l : list U32_MESSAGE) : list U32_MESSAGE :=
  put (for_range i (MAX_U32_MESSAGES - 1 - i) (fun j l => put l j (get no_entry l (j + 1))) l) (MAX_U32_MESSAGES - 1) no_entry.

Definition u32_dequeue_message (h min max : Z) (remove : bool) (u : user32) (w : W) : option MSG * user32 :=
  let pid := u32_current_process_id u w in
  match first_from (Z.to_nat MAX_U32_MESSAGES) 0 (fun i => let e := get no_entry (g_messages u) i in
          used e && (owner_pid e =? pid) && u32_message_matches (msg e) h min max) with
  | Some i => (Some (msg (get no_entry (g_messages u) i)), if remove then set_messages u (remove_message i (g_messages u)) else u)
  | None => (None, u)
  end.
Definition PeekMessageW := u32_dequeue_message.

(** The index of a process's quit state. *)
Definition u32_get_quit_state (pid : Z) (u : user32) : option Z * user32 :=
  let at_ := get no_quit (g_quit_states u) in
  match first_from (Z.to_nat MAX_U32_QUIT_STATES) 0 (fun i => q_used (at_ i) && (q_pid (at_ i) =? pid)) with
  | Some i => (Some i, u)
  | None =>
      match first_from (Z.to_nat MAX_U32_QUIT_STATES) 0 (fun i => negb (q_used (at_ i))) with
      | Some i => (Some i, set_quits u (put (g_quit_states u) i (mkQuit true pid false 0)))
      | None => (None, u)
      end
  end.
Definition put_quit (i : option Z) (requested : bool) (c : Z) (u : user32) : user32 :=
  match i with
  | Some i => set_quits u (put (g_quit_states u) i (mkQuit true (q_pid (get no_quit (g_quit_states u) i)) requested c))
  | None => u
  end.

Definition PostQuitMessage (c : Z) (u : user32) (w : W) : user32 :=
  let '(q, u) := u32_get_quit_state (u32_current_process_id u w) u in
  snd (u32_enqueue_message 0 WM_QUIT c 0 (put_quit q true c u) w).

(** Timers that are due are put off and posted, whatever process they belong to. *)
Definition pump_one (h : Z) (now : Z) (w : W) (i : Z) (u : user32) : user32 :=
  let t := get no_timer (g_timers u) i in
  if t_used t && ((h =? 0) || (t_hwnd t =? h)) && (tick t <=? now) then
    snd (PostMessageW (t_hwnd t) WM_TIMER (t_id t) 0
      (set_timers u (put (g_timers u) i (mkTimer true (t_hwnd t) (t_id t) (elapse t) (u32 (now + (if elapse t =? 0 then 1 else elapse t)))))) w)
  else u.
Definition u32_pump_timers (h : Z) (u : user32) (w : W) : user32 := for_range 0 MAX_U32_TIMERS (pump_one h (GetTickCount w) w) u.

Definition SetTimer (h id e : Z) (u : user32) (w : W) : Z * user32 :=
  match first_from (Z.to_nat MAX_U32_TIMERS) 0 (fun i => negb (t_used (get no_timer (g_timers u) i))) with
  | Some i => (u32 id, set_timers u (put (g_timers u) i (mkTimer true h id e (u32 (GetTickCount w + (if e =? 0 then 1 else e))))))
  | None => (0, u)
  end.
Definition KillTimer (h id : Z) (u : user32) : bool * user32 :=
  match first_from (Z.to_nat MAX_U32_TIMERS) 0 (fun i => let t := get no_timer (g_timers u) i in t_used t && (t_hwnd t =? h) && (t_id t =? id)) with
  | Some i => (true, set_timers u (put (g_timers u) i no_timer))
  | None => (false, u)
  end.

(** The first dirty, visible window of the process that may paint now. *)
Fixpoint find_invalid (n : nat) (i filter pid active : Z) (u : user32) : option (option Z) :=
  match n with
  | O => Some None
  | S n =>
      let x := get no_win (g_windows u) i in
      if w_used x && u32_effectively_visible (hwnd x) u && invalidated x && (w_pid x =? pid) then
        root ← (if active =? 0 then Some 0 else u32_get_root_window (hwnd x) u);
        if negb (active =? 0) && negb (root =? active) then find_invalid n (i + 1) filter pid active u else
        if (filter =? 0) || (hwnd x =? filter) then Some (Some i) else find_invalid n (i + 1) filter pid active u
      else find_invalid n (i + 1) filter pid active u
  end.
Definition u32_find_invalid_window (filter : Z) (u : user32) (w : W) : option (option Z) :=
  find_invalid (Z.to_nat MAX_U32_WINDOWS) 0 filter (u32_current_process_id u w) (Win32kGetActiveWindow w) u.

(** The loop of [GetMessageW]; the result and the message. *)
Fixpoint get_message (fuel : nat) (h min max : Z) (quit : option Z) (u : user32) (w : W) : option (bool * MSG * (user32 * W)) :=
  match u32_dequeue_message h min max true u w with
  | (Some m, u) => Some (negb (message m =? WM_QUIT), m, (u, w))
  | (None, u) =>
      let u := u32_pump_timers 0 u w in
      inv ← u32_find_invalid_window h u w;
      match inv with
      | Some i => Some (true, mkMsg (hwnd (get no_win (g_windows u) i)) WM_PAINT 0 0 (GetTickCount w), (u, w))
      | None =>
          let q := get no_quit (g_quit_states u) (default 0 quit) in
          if bool_decide (quit <> None) && exit_requested q then Some (false, mkMsg 0 WM_QUIT (exit_code q) 0 (GetTickCount w), (u, w)) else
          match fuel with O => None | S n => let '(u, w) := KeYield (u, w) in get_message n h min max quit u w end
      end
  end.
Definition GetMessageW (fuel : nat) (h min max : Z) (u : user32) (w : W) : option (bool * MSG * (user32 * W)) :=
  let '(q, u) := u32_get_quit_state (u32_current_process_id u w) u in get_message fuel h min max q u w.

Definition TranslateMessage (m : MSG) (u : user32) (w : W) : user32 :=
  let ch := wParam m in
  if (message m =? WM_KEYDOWN) && ((ch =? 8) || (ch =? 9) || (ch =? 13) || (32 <=? ch))
  then snd (PostMessageW (m_hwnd m) WM_CHAR ch (lParam m) u w) else u.

(** A process is (re)started under [pid]: what is left of an earlier quit goes. *)
Definition User32SetProcessId (pid : Z) (u : user32) : user32 :=
  let pid := if pid =? 0 then 1 else pid in
  let u := mkUser (g_messages u) (g_quit_states u) (g_timers u) (g_windows u) pid in
  let '(q, u) := u32_get_quit_state pid u in
  let u := put_quit q false 0 u in
  set_messages u (map (fun e => if used e && (owner_pid e =? pid) && (message (msg e) =? WM_QUIT) then mkEntry false (msg e) (owner_pid e) else e) (g_messages u)).

End messages.

(** ** Edit controls *)

(** The text is a block of characters on the heap; a store outside it is [None]. *)
Record EDIT := mkEdit {
  edit_text : Z; edit_capacity : Z; edit_limit : Z; edit_len : Z; edit_sel_start : Z; edit_sel_end : Z; edit_modified : bool; title : list Z
}.
Definition no_edit : EDIT := mkEdit 0 0 0 0 0 0 false [].

Section edit.
Context {H : Type} `{KernelHeap H} (sizeof_WCHAR : Z).

Record control := mkControl { edit : EDIT; kheap : H; blocks : gmap Z (list Z) }.
Implicit Types s : control.

Definition set_edit s (e : EDIT) : control := mkControl e (kheap s) (blocks s).
Definition char_at (p i : Z) s : option Z := l ← blocks s !! p; if (0 <=? i) && (i <? Z.of_nat (length l)) then Some (get 0 l i) else None.
Definition set_char (p i v : Z) s : option control :=
  l ← blocks s !! p;
  if (0 <=? i) && (i <? Z.of_nat (length l)) then Some (mkControl (edit s) (kheap s) (<[p := put l i v]> (blocks s))) else None.
(** [u32_wmemcpy] from a constant string or another block. *)
Fixpoint set_chars (p i : Z) (l : list Z) s : option control :=
  match l with [] => Some s | c :: l => s ← set_char p i c s; set_chars p (i + 1) l s end.
Fixpoint chars_at (n : nat) (p i : Z) s : option (list Z) :=
  match n with O => Some [] | S n => c ← char_at p i s; l ← chars_at n p (i + 1) s; Some (c :: l) end.

(** The buffer, grown if it can be; the pointer is what the function returns. *)
Definition u32_ensure_edit_buffer (min_chars : Z) s : option (Z * control) :=
  let e := edit s in
  let e := mkEdit (edit_text e) (edit_capacity e) (if edit_limit e <=? 0 then 65535 else edit_limit e) (edit_len e) (edit_sel_start e) (edit_sel_end e) (edit_modified e) (title e) in
  let s := set_edit s e in
  let min_chars := if min_chars <? 64 then 64 else min_chars in
  if negb (edit_text e =? 0) && (min_chars <=? edit_capacity e) then Some (edit_text e, s) else
  let alloc := if 0 <? edit_capacity e then edit_capacity e * 2 else 64 in
  let alloc := if alloc <? min_chars then min_chars else alloc in
  let alloc := if edit_limit e + 1 <? alloc then edit_limit e + 1 else alloc in
  if alloc <=? 0 then Some (edit_text e, s) else
  '(p, h) ← kh_malloc (u32 (alloc * sizeof_WCHAR)) (kheap s);
  if p =? 0 then Some (edit_text e, mkControl e h (blocks s)) else
  let s := mkControl e h (<[p := replicate (Z.to_nat alloc) 0]> (blocks s)) in
  s ← (if negb (edit_text e =? 0) && (0 <? edit_len e) then
         l ← chars_at (Z.to_nat (edit_len e)) (edit_text e) 0 s;
         s ← set_chars p 0 l s;
         h ← kh_free (edit_text e) (kheap s);
         Some (mkControl e h (delete (edit_text e) (blocks s)))
       else Some s);
  Some (p, set_edit s (mkEdit p alloc (edit_limit e) (edit_len e) (edit_sel_start e) (edit_sel_end e) (edit_modified e) (title e))).

Definition u32_edit_sync_title s : option control :=
  let e := edit s in
  if edit_text e =? 0 then Some s else
  let n := if 127 <? edit_len e then 127 else edit_len e in
  l ← chars_at (Z.to_nat n) (edit_text e) 0 s;
  Some (set_edit s (mkEdit (edit_text e) (edit_capacity e) (edit_limit e) (edit_len e) (edit_sel_start e) (edit_sel_end e) (edit_modified e) l)).

(** [text] is the string, empty for a null pointer. *)
Definition u32_edit_set_text (text : list Z) s : option control :=
  let len := Z.of_nat (length text) in
  let len := if (0 <? edit_limit (edit s)) && (edit_limit (edit s) <? len) then edit_limit (edit s) else len in
  '(p, s) ← u32_ensure_edit_buffer (len + 1) s;
  if p =? 0 then Some s else
  s ← set_chars p 0 (take (Z.to_nat len) text) s;
  s ← set_char p len 0 s;
  let e := edit s in
  u32_edit_sync_title (set_edit s (mkEdit (edit_text e) (edit_capacity e) (edit_limit e) len len len false (title e))).

(** The tail and its end, moved from [from] to [to], in the order that keeps it whole. *)
Fixpoint move_down (n : nat) (p to from : Z) s : option control :=
  match n with O => Some s | S n => c ← char_at p from s; s ← set_char p to c s; move_down n p (to + 1) (from + 1) s end.
Fixpoint move_up (n : nat) (p to from : Z) s : option control :=
  match n with O => Some s | S n => c ← char_at p (from + Z.of_nat n) s; s ← set_char p (to + Z.of_nat n) c s; move_up n p to from s end.

Definition u32_edit_replace_sel (repl : list Z) s : option control :=
  '(p, s) ← u32_ensure_edit_buffer 64 s;
  if p =? 0 then Some s else
  let e := edit s in
  let start := if edit_sel_start e <? 0 then 0 else edit_sel_start e in
  let end_ := if edit_sel_end e <? start then start else edit_sel_end e in
  let end_ := if edit_len e <? end_ then edit_len e else end_ in
  let repl_len := Z.of_nat (length repl) in
  let new_len := start + repl_len + (edit_len e - end_) in
  let over := (0 <? edit_limit e) && (edit_limit e <? new_len) in
  let repl_len := if over then (if repl_len - (new_len - edit_limit e) <? 0 then 0 else repl_len - (new_len - edit_limit e)) else repl_len in
  let new_len := if over then start + repl_len + (edit_len e - end_) else new_len in
  '(p, s) ← u32_ensure_edit_buffer (new_len + 1) s;
  if p =? 0 then Some s else
  let e := edit s in
  let tail_len := edit_len e - end_ in
  s ← (if (0 <? tail_len) && negb (start + repl_len =? end_) then
         if start + repl_len <? end_ then move_down (Z.to_nat (tail_len + 1)) p (start + repl_len) end_ s
         else move_up (Z.to_nat (tail_len + 1)) p (start + repl_len) end_ s
       else set_char p new_len 0 s);
  s ← set_chars p start (take (Z.to_nat repl_len) repl) s;
  s ← set_char p new_len 0 s;
  let e := edit s in
  u32_edit_sync_title (set_edit s (mkEdit (edit_text e) (edit_capacity e) (edit_limit e) new_len (start + repl_len) (start + repl_len) true (title e))).

(** The messages of an edit control that change its text or its selection. *)
Definition wm_char (c : Z) s : option control :=
  let e := edit s in
  if c =? 8 then
    let back := (edit_sel_start e =? edit_sel_end e) && (0 <? edit_sel_start e) in
    u32_edit_replace_sel [] (if back then set_edit s (mkEdit (edit_text e) (edit_capacity e) (edit_limit e) (edit_len e) (edit_sel_start e - 1) (edit_sel_end e) (edit_modified e) (title e)) else s)
  else u32_edit_replace_sel (if c =? 0 then [] else [c]) s.

Definition em_setsel (start end_ : Z) s : control :=
  let e := edit s in
  let start := if start <? 0 then 0 else start in
  let end_ := if (end_ <? 0) || (edit_len e <? end_) then edit_len e else end_ in
  let start := if edit_len e <? start then edit_len e else start in
  let end_ := if end_ <? start then start else end_ in
  set_edit s (mkEdit (edit_text e) (edit_capacity e) (edit_limit e) (edit_len e) start end_ (edit_modified e) (title e)).

Definition em_limittext (n : Z) s : control :=
  let e := edit s in
  set_edit s (mkEdit (edit_text e) (edit_capacity e) (if n =? 0 then 65535 else s32 n) (edit_len e) (edit_sel_start e) (edit_sel_end e) (edit_modified e) (title e)).

(** The start of a line. *)
Fixpoint line_start (n : nat) (p pos current line : Z) s : option Z :=
  match n with
  | O => Some pos
  | S n => if line <=? current then Some pos else c ← char_at p pos s; line_start n p (pos + 1) (if c =? 10 then current + 1 else current) line s
  end.
Definition em_lineindex (line : Z) s : option Z :=
  if line <? 0 then Some (edit_sel_start (edit s)) else line_start (Z.to_nat (edit_len (edit s))) (edit_text (edit s)) 0 0 line s.

End edit.

End User32.
