(* ===== verification/User32Spec.v ===== *)
(** * What messages and edit controls keep

    The message table, in which a message takes the first free place and removal moves the
    rest forward, implements one queue: [run] and [abstract_run] give the same answers to
    every sequence of posts and peeks.  The text of an edit control is a list: replacing the
    selection, which moves characters within a buffer that grows, is [take], insertion and [drop]. *)

From stdpp Require Import base list numbers gmap strings.
From Stdlib Require Import ZArith Lia.
From S2P Require Import Prelude.
From S2P Require Import Util.
From S2P Require Import Mm.
From S2P Require Import Sim.
From S2P Require Import User32.
Import Util User32.

Module User32Spec.

Section queue.
Context {W : Type} (GetTickCount GetCurrentProcessId : W -> Z).

(** The table holds the messages [q], in order, at its start. *)
Definition entry (e : Z * MSG) : U32_MESSAGE := mkEntry true (snd e) (fst e).
Definition holds (u : user32) (q : list (Z * MSG)) : Prop :=
  exists rest, g_messages u = (entry <$> q) ++ rest /\ Forall (fun e => used e = false) rest /\ length (g_messages u) = 256%nat.

(** The queue: one for all processes. *)
Definition owner (h : Z) (u : user32) (w : W) : Z :=
  match u32_lookup_window h u with
  | Some x => if w_pid x =? 0 then u32_current_process_id GetCurrentProcessId u w else w_pid x
  | None => u32_current_process_id GetCurrentProcessId u w
  end.
Definition post (pid : Z) (m : MSG) (q : list (Z * MSG)) : bool * list (Z * MSG) :=
  if (length q <? 256)%nat then (true, q ++ [(pid, m)]) else (false, q).
Fixpoint peek (wanted : Z * MSG -> bool) (remove : bool) (q : list (Z * MSG)) : option MSG * list (Z * MSG) :=
  match q with
  | [] => (None, [])
  | e :: q =>
      if wanted e then (Some (snd e), if remove then q else e :: q)
      else let '(r, q) := peek wanted remove q in (r, e :: q)
  end.

Lemma get_entry q rest i : get no_entry ((entry <$> q) ++ rest) (Z.of_nat i) = match q !! i with Some e => entry e | None => get no_entry rest (Z.of_nat i - Z.of_nat (length q)) end.
Proof.
  unfold get. rewrite Nat2Z.id. destruct (q !! i) as [e|] eqn:E.
  - rewrite lookup_app_l by (rewrite length_fmap; by apply lookup_lt_Some in E). by rewrite list_lookup_fmap, E.
  - apply lookup_ge_None in E. rewrite lookup_app_r by (by rewrite length_fmap). rewrite length_fmap. do 2 f_equal. lia.
Qed.

Lemma enqueue_holds h m wp lp u w q : holds u q ->
  let '(b, q') := post (owner h u w) (mkMsg h m wp lp (GetTickCount w)) q in
  exists u', u32_enqueue_message GetTickCount GetCurrentProcessId h m wp lp u w = (b, u') /\ holds u' q' /\ g_windows u' = g_windows u /\ g_user32_process_id u' = g_user32_process_id u.
Proof.
  intros (rest & E & Hf & Hn). unfold u32_enqueue_message, post. fold (owner h u w).
  assert (Hlen : (length q + length rest)%nat = 256%nat) by (rewrite <- Hn, E, length_app, length_fmap; done).
  destruct (Nat.ltb_spec (length q) 256) as [Hq|Hq].
  - assert (F : first_from (Z.to_nat MAX_U32_MESSAGES) 0 (fun i => negb (used (get no_entry (g_messages u) i))) = Some (Z.of_nat (length q))).
    { apply first_from_Some. unfold MAX_U32_MESSAGES. split; [lia|]. rewrite E. split.
      - rewrite get_entry, lookup_ge_None_2 by done. rewrite Z.sub_diag. destruct rest as [|e rest]; [cbn in Hlen; lia|]. apply Forall_cons in Hf as [Hf _]. change (get no_entry (e :: rest) 0) with e. by rewrite Hf.
      - intros j Hj. destruct (lookup_lt_is_Some_2 q (Z.to_nat j) ltac:(lia)) as [e He]. rewrite <- (Z2Nat.id j) by lia. by rewrite get_entry, He. }
    rewrite F. destruct rest as [|r rest]; [cbn in Hlen; lia|]. eexists. split; [reflexivity|]. split; [|done].
    exists rest. cbn [set_messages g_messages]. split; [|split; [by apply Forall_cons in Hf as [_ ?] | by rewrite length_put]].
    rewrite E. unfold put. rewrite Nat2Z.id, insert_app_r_alt, length_fmap, Nat.sub_diag by (by rewrite length_fmap). cbn. by rewrite fmap_app, <- app_assoc.
  - assert (F : first_from (Z.to_nat MAX_U32_MESSAGES) 0 (fun i => negb (used (get no_entry (g_messages u) i))) = None).
    { apply first_from_None. unfold MAX_U32_MESSAGES. intros j Hj. rewrite E. destruct (lookup_lt_is_Some_2 q (Z.to_nat j) ltac:(lia)) as [e He]. rewrite <- (Z2Nat.id j) by lia. by rewrite get_entry, He. }
    rewrite F. exists u. split; [done|]. split; [by exists rest | done].
Qed.

Lemma peek_cases wanted remove q :
  (exists i e, q !! i = Some e /\ wanted e = true /\ (forall j e', (j < i)%nat -> q !! j = Some e' -> wanted e' = false) /\
    peek wanted remove q = (Some (snd e), if remove then take i q ++ drop (S i) q else q)) \/
  ((forall j e', q !! j = Some e' -> wanted e' = false) /\ peek wanted remove q = (None, q)).
Proof.
  induction q as [|e q [(i & e' & E & Hw & Hb & Ep)|[Hb Ep]]]; cbn [peek]; [right; split; [intros j e'; by rewrite lookup_nil | done]| |].
  all: destruct (wanted e) eqn:Ew; [left; exists O, e; split; [done|]; split; [done|]; split; [lia | by destruct remove]|]; rewrite Ep.
  - left. exists (S i), e'. split; [done|]. split; [done|]. split; [|by destruct remove]. intros [|j] x Hj Hx; [by injection Hx as <- | apply (Hb j); [lia | done]].
  - right. split; [|done]. intros [|j] x Hx; [by injection Hx as <- | by apply (Hb j)].
Qed.

Definition wanted (pid h min max : Z) (e : Z * MSG) : bool := (fst e =? pid) && u32_message_matches (snd e) h min max.

(** What the search through the table finds is the first wanted message. *)
Lemma search_table u q rest pid h min max :
  g_messages u = (entry <$> q) ++ rest -> Forall (fun e => used e = false) rest -> length (g_messages u) = 256%nat ->
  let test i := let e := get no_entry (g_messages u) i in used e && (owner_pid e =? pid) && u32_message_matches (msg e) h min max in
  (forall i e, q !! i = Some e -> test (Z.of_nat i) = wanted pid h min max e) /\ (forall j, Z.of_nat (length q) <= j < 256 -> test j = false).
Proof.
  intros E Hf Hn test. unfold test. rewrite E. split.
  - intros i e He. by rewrite get_entry, He.
  - intros j Hj. rewrite <- (Z2Nat.id j), get_entry, lookup_ge_None_2 by lia. unfold get at 1 2 3.
    destruct (rest !! _) as [e|] eqn:Er; [|done]. cbn. apply (proj1 (Forall_lookup _ _) Hf) in Er. by rewrite Er.
Qed.

Lemma remove_message_entries q rest i : (i < length q)%nat -> (length q + length rest)%nat = 256%nat ->
  remove_message (Z.of_nat i) ((entry <$> q) ++ rest) = (entry <$> (take i q ++ drop (S i) q)) ++ rest ++ [no_entry].
Proof.
  intros Hi Hn. destruct (lookup_lt_is_Some_2 q i Hi) as [e He]. unfold remove_message, MAX_U32_MESSAGES.
  rewrite <- (take_drop_middle q i e He) at 1. rewrite fmap_app, fmap_cons, <- app_assoc. cbn [app].
  destruct (shift_entries no_entry (entry <$> take i q) ((entry <$> drop (S i) q) ++ rest) [] (entry e)) as [z Ez].
  rewrite length_app, !length_fmap, length_take, length_drop, app_nil_r in Ez.
  replace (Nat.min i (length q)) with i in Ez by lia. replace (256 - 1 - Z.of_nat i) with (Z.of_nat (length q - S i + length rest)) by lia. rewrite Ez.
  rewrite fmap_app, <- !app_assoc. unfold put. change (Z.to_nat (256 - 1)) with 255%nat.
  rewrite insert_app_r_alt by (rewrite length_fmap, length_take; lia). f_equal. rewrite insert_app_r_alt by (rewrite !length_fmap, length_take, length_drop; lia). f_equal.
  rewrite insert_app_r_alt by (rewrite !length_fmap, length_take, length_drop; lia). f_equal.
  rewrite !length_fmap, length_take, length_drop. replace (255 - Nat.min i (length q) - (length q - S i) - length rest)%nat with O by lia. done.
Qed.

Lemma dequeue_holds h min max remove u w q : holds u q ->
  let '(r, q') := peek (wanted (u32_current_process_id GetCurrentProcessId u w) h min max) remove q in
  exists u', u32_dequeue_message GetCurrentProcessId h min max remove u w = (r, u') /\ holds u' q' /\ g_windows u' = g_windows u /\ g_user32_process_id u' = g_user32_process_id u.
Proof.
  intros Hh. pose proof Hh as (rest & E & Hf & Hn). set (pid := u32_current_process_id GetCurrentProcessId u w). unfold u32_dequeue_message. fold pid.
  destruct (search_table u q rest pid h min max E Hf Hn) as [Hin Hout].
  assert (Hlen : (length q + length rest)%nat = 256%nat) by (rewrite <- Hn, E, length_app, length_fmap; done).
  destruct (peek_cases (wanted pid h min max) remove q) as [(i & e & Ei & Hw & Hb & ->)|[Hb ->]].
  - pose proof (lookup_lt_Some _ _ _ Ei) as Hi.
    rewrite (proj2 (first_from_Some _ _ _ (Z.of_nat i))).
    2: { unfold MAX_U32_MESSAGES. split; [lia|]. split; [rewrite <- Hw; exact (Hin i e Ei)|]. intros j Hj. destruct (lookup_lt_is_Some_2 q (Z.to_nat j) ltac:(lia)) as [e' He'].
         rewrite <- (Z2Nat.id j) by lia. etrans; [exact (Hin _ _ He')|]. apply (Hb (Z.to_nat j)); [lia | done]. }
    eexists. split; [rewrite E at 1; by rewrite get_entry, Ei|]. destruct remove; [|done]. split; [|done]. exists (rest ++ [no_entry]).
    cbn [set_messages g_messages]. rewrite E, remove_message_entries by done. split; [done|]. split; [apply Forall_app; by split; [|repeat constructor]|].
    rewrite !length_app, length_fmap, length_app, length_take, length_drop. cbn. lia.
  - rewrite (proj2 (first_from_None _ _ _)); [by exists u|]. unfold MAX_U32_MESSAGES. intros j Hj. destruct (Z.lt_ge_cases j (Z.of_nat (length q))); [|apply Hout; lia].
    destruct (lookup_lt_is_Some_2 q (Z.to_nat j) ltac:(lia)) as [e' He']. rewrite <- (Z2Nat.id j) by lia. etrans; [exact (Hin _ _ He')|]. by apply (Hb (Z.to_nat j)).
Qed.

(** Posts and peeks, each at some state of the system. *)
Inductive call := Post (h m wp lp : Z) (w : W) | Peek (h min max : Z) (remove : bool) (w : W).
Inductive answer := Posted (b : bool) | Peeked (m : option MSG).

Fixpoint run (l : list call) (u : user32) : list answer * user32 :=
  match l with
  | [] => ([], u)
  | c :: l =>
      let '(a, u) := match c with
                     | Post h m wp lp w => let '(b, u) := PostMessageW GetTickCount GetCurrentProcessId h m wp lp u w in (Posted b, u)
                     | Peek h min max remove w => let '(r, u) := PeekMessageW GetCurrentProcessId h min max remove u w in (Peeked r, u)
                     end in
      let '(as_, u) := run l u in (a :: as_, u)
  end.

(** On the queue; [u] tells who owns a window and which process runs. *)
Fixpoint abstract_run (l : list call) (u : user32) (q : list (Z * MSG)) : list answer * list (Z * MSG) :=
  match l with
  | [] => ([], q)
  | c :: l =>
      let '(a, q) := match c with
                     | Post h m wp lp w => let '(b, q) := post (owner h u w) (mkMsg h m wp lp (GetTickCount w)) q in (Posted b, q)
                     | Peek h min max remove w => let '(r, q) := peek (wanted (u32_current_process_id GetCurrentProcessId u w) h min max) remove q in (Peeked r, q)
                     end in
      let '(as_, q) := abstract_run l u q in (a :: as_, q)
  end.

Lemma owner_ext u u' h w : g_windows u' = g_windows u -> g_user32_process_id u' = g_user32_process_id u -> owner h u' w = owner h u w.
Proof. intros E1 E2. unfold owner, u32_lookup_window, u32_current_process_id. by rewrite E1, E2. Qed.
Lemma abstract_run_ext l u u' q : g_windows u' = g_windows u -> g_user32_process_id u' = g_user32_process_id u -> abstract_run l u' q = abstract_run l u q.
Proof.
  intros E1 E2. revert q. induction l as [|[h m wp lp w|h min max remove w] l IH]; intros q; cbn [abstract_run]; [done| |].
  - rewrite (owner_ext u u') by done. destruct (post _ _ q). by rewrite IH.
  - unfold u32_current_process_id. rewrite E2. destruct (peek _ remove q). by rewrite IH.
Qed.

(** C32. The message table is one queue for all processes: any sequence of [PostMessageW] and
    [PeekMessageW] is answered as by that queue, so a process is given its messages in the order they were posted, each
    once when it removes them, those that fit the filter; a post fails exactly when 256 messages wait. *)
Theorem messages_refine_queue (l : list call) (u : user32) (q : list (Z * MSG)) :
  holds u q ->
  let '(answers, q') := abstract_run l u q in exists u', run l u = (answers, u') /\ holds u' q'.
Proof.
  revert u q. induction l as [|c l IH]; intros u q Hh; [by exists u|]. cbn [run abstract_run].
  destruct c as [h m wp lp w|h min max remove w]; unfold PostMessageW, PeekMessageW.
  - pose proof (enqueue_holds h m wp lp u w q Hh) as He. destruct (post _ _ q) as [b q1]. destruct He as (u1 & -> & H1 & Ew & Ep).
    rewrite <- (abstract_run_ext l u u1 q1 Ew Ep). specialize (IH u1 q1 H1). destruct (abstract_run l u1 q1) as [as_ q2]. destruct IH as (u2 & -> & H2). by exists u2.
  - pose proof (dequeue_holds h min max remove u w q Hh) as He. destruct (peek _ remove q) as [r q1]. destruct He as (u1 & -> & H1 & Ew & Ep).
    rewrite <- (abstract_run_ext l u u1 q1 Ew Ep). specialize (IH u1 q1 H1). destruct (abstract_run l u1 q1) as [as_ q2]. destruct IH as (u2 & -> & H2). by exists u2.
Qed.

End queue.

(** ** Edit controls *)
Section edit.
Context {H : Type} `{KernelHeap H} (size : Z) (size_pos : 1 <= size <= 4).
Implicit Types s : @control H.

(** *** Blocks *)
Definition with_block s (p : Z) (L : list Z) : control := mkControl (edit s) (kheap s) (<[p := L]> (blocks s)).

Lemma with_block_block s p L : blocks (with_block s p L) !! p = Some L.
Proof. cbn. apply lookup_insert_eq. Qed.
Lemma with_block_twice s p L L' : with_block (with_block s p L) p L' = with_block s p L'.
Proof. unfold with_block. cbn. by rewrite insert_insert_eq. Qed.
Lemma with_block_same s p L : blocks s !! p = Some L -> with_block s p L = s.
Proof. intros E. unfold with_block. rewrite insert_id by done. by destruct s. Qed.

Lemma char_at_eq p i s L : blocks s !! p = Some L -> 0 <= i < Z.of_nat (length L) -> char_at p i s = Some (get 0 L i).
Proof. intros E Hi. unfold char_at. rewrite E. cbn. by rewrite (proj2 (Z.leb_le 0 i)), (proj2 (Z.ltb_lt _ _)) by lia. Qed.
Lemma set_char_eq p i v s L : blocks s !! p = Some L -> 0 <= i < Z.of_nat (length L) -> set_char p i v s = Some (with_block s p (put L i v)).
Proof. intros E Hi. unfold set_char. rewrite E. cbn. by rewrite (proj2 (Z.leb_le 0 i)), (proj2 (Z.ltb_lt _ _)) by lia. Qed.

(** What a block holds after a copy of [n] characters to [to], each given by [f]. *)
Definition overlaid (L L' : list Z) (to n : Z) (f : Z -> Z) : Prop :=
  length L' = length L /\ forall i, 0 <= i -> get 0 L' i = if (to <=? i) && (i <? to + n) then f i else get 0 L i.

Lemma overlaid_none L to f : overlaid L L to 0 f.
Proof. split; [done|]. intros i Hi. destruct (Z.leb_spec to i), (Z.ltb_spec i (to + 0)); cbn [andb]; (done || lia). Qed.
Lemma overlaid_one L to v : 0 <= to < Z.of_nat (length L) -> overlaid L (put L to v) to 1 (fun _ => v).
Proof.
  intros Hi. split; [apply length_put|]. intros i Hj. rewrite get_put by done.
  destruct (Z.leb_spec to i), (Z.ltb_spec i (to + 1)), (Z.eqb_spec i to); cbn [andb]; (done || lia).
Qed.

Lemma set_chars_eq l p i s L : blocks s !! p = Some L -> 0 <= i -> i + Z.of_nat (length l) <= Z.of_nat (length L) ->
  exists L', set_chars p i l s = Some (with_block s p L') /\ overlaid L L' i (Z.of_nat (length l)) (fun j => get 0 l (j - i)).
Proof.
  revert i s L. induction l as [|c l IH]; intros i s L E Hi Hl; cbn [set_chars length] in *.
  - exists L. split; [by rewrite with_block_same | apply overlaid_none].
  - rewrite (set_char_eq p i c s L) by (done || lia). cbn [mbind option_bind].
    destruct (IH (i + 1) (with_block s p (put L i c)) (put L i c)) as (L' & -> & Hn & Hg); [apply with_block_block | lia | rewrite length_put; lia|].
    exists L'. rewrite with_block_twice. split; [done|]. split; [by rewrite Hn, length_put|]. intros j Hj. rewrite Hg by done. rewrite get_put by lia.
    destruct (Z.leb_spec (i + 1) j), (Z.ltb_spec j (i + 1 + Z.of_nat (length l))), (Z.leb_spec i j), (Z.ltb_spec j (i + Z.of_nat (S (length l)))), (Z.eqb_spec j i); cbn [andb]; try lia; try done.
    + unfold get. replace (Z.to_nat (j - i)) with (S (Z.to_nat (j - (i + 1)))) by lia. done.
    + subst j. by rewrite Z.sub_diag.
Qed.

Lemma chars_at_eq n p i s L : blocks s !! p = Some L -> 0 <= i -> i + Z.of_nat n <= Z.of_nat (length L) ->
  exists l, chars_at n p i s = Some l /\ length l = n /\ forall j, 0 <= j < Z.of_nat n -> get 0 l j = get 0 L (i + j).
Proof.
  intros E. revert i. induction n as [|n IH]; intros i Hi Hn; cbn [chars_at]; [exists []; split; [done|]; split; [done | lia]|].
  rewrite (char_at_eq p i s L) by (done || lia). cbn [mbind option_bind]. destruct (IH (i + 1) ltac:(lia) ltac:(lia)) as (l & -> & Hl & Hg). cbn.
  eexists. split; [reflexivity|]. split; [cbn; lia|]. intros j Hj. destruct (decide (j = 0)) as [->|].
  - by rewrite Z.add_0_r.
  - unfold get at 1. replace (Z.to_nat j) with (S (Z.to_nat (j - 1))) by lia. cbn. change (get 0 l (j - 1) = get 0 L (i + j)). rewrite Hg by lia. f_equal. lia.
Qed.

Lemma move_down_eq n p to from s L : blocks s !! p = Some L -> 0 <= to < from -> from + Z.of_nat n <= Z.of_nat (length L) ->
  exists L', move_down n p to from s = Some (with_block s p L') /\ overlaid L L' to (Z.of_nat n) (fun j => get 0 L (j - to + from)).
Proof.
  revert to from s L. induction n as [|n IH]; intros to from s L E Ht Hf; cbn [move_down].
  - exists L. split; [by rewrite with_block_same | apply overlaid_none].
  - rewrite (char_at_eq p from s L) by (done || lia). cbn [mbind option_bind]. rewrite (set_char_eq p to _ s L) by (done || lia). cbn [mbind option_bind].
    set (L1 := put L to (get 0 L from)).
    destruct (IH (to + 1) (from + 1) (with_block s p L1) L1) as (L' & -> & Hn & Hg); [apply with_block_block | lia | unfold L1; rewrite length_put; lia|].
    exists L'. rewrite with_block_twice. split; [done|]. unfold L1 in *. split; [by rewrite Hn, length_put|]. intros j Hj. rewrite Hg by done. rewrite !get_put by lia.
    destruct (Z.leb_spec (to + 1) j), (Z.ltb_spec j (to + 1 + Z.of_nat n)), (Z.leb_spec to j), (Z.ltb_spec j (to + Z.of_nat (S n))), (Z.eqb_spec j to); cbn [andb]; try lia; try done.
    + rewrite (proj2 (Z.eqb_neq (j - (to + 1) + (from + 1)) to)) by lia. f_equal. lia.
    + subst j. f_equal. lia.
Qed.

Lemma move_up_eq n p to from s L : blocks s !! p = Some L -> 0 <= from < to -> to + Z.of_nat n <= Z.of_nat (length L) ->
  exists L', move_up n p to from s = Some (with_block s p L') /\ overlaid L L' to (Z.of_nat n) (fun j => get 0 L (j - to + from)).
Proof.
  revert s L. induction n as [|n IH]; intros s L E Ht Hf; cbn [move_up].
  - exists L. split; [by rewrite with_block_same | apply overlaid_none].
  - rewrite (char_at_eq p (from + Z.of_nat n) s L) by (done || lia). cbn [mbind option_bind]. rewrite (set_char_eq p (to + Z.of_nat n) _ s L) by (done || lia). cbn [mbind option_bind].
    set (L1 := put L (to + Z.of_nat n) (get 0 L (from + Z.of_nat n))).
    destruct (IH (with_block s p L1) L1) as (L' & -> & Hn & Hg); [apply with_block_block | lia | unfold L1; rewrite length_put; lia|].
    exists L'. rewrite with_block_twice. split; [done|]. unfold L1 in *. split; [by rewrite Hn, length_put|]. intros j Hj. rewrite Hg by done.
    destruct (Z.leb_spec to j), (Z.ltb_spec j (to + Z.of_nat n)), (Z.ltb_spec j (to + Z.of_nat (S n))); cbn [andb]; try lia; rewrite get_put by lia.
    + rewrite (proj2 (Z.eqb_neq (j - to + from) (to + Z.of_nat n))) by lia. done.
    + rewrite (proj2 (Z.eqb_eq j (to + Z.of_nat n))) by lia. f_equal. lia.
    + rewrite (proj2 (Z.eqb_neq j (to + Z.of_nat n))) by lia. done.
    + rewrite (proj2 (Z.eqb_neq j (to + Z.of_nat n))) by lia. done.
Qed.

(** *** The control *)

(** The buffer holds [T] and a terminator, as reading past [T] gives 0. *)
Definition text_in (L T : list Z) : Prop := forall i, 0 <= i <= Z.of_nat (length T) -> get 0 L i = get 0 T i.
Definition buffer s (T : list Z) : Prop :=
  exists L, blocks s !! edit_text (edit s) = Some L /\ Z.of_nat (length L) = edit_capacity (edit s) /\
    Z.of_nat (length T) + 1 <= edit_capacity (edit s) <= edit_limit (edit s) + 1 /\ text_in L T /\ is_Some (kh_live (kheap s) !! edit_text (edit s)).
Record edit_ok s (T : list Z) : Prop := {
  eo_heap : kh_ok (kheap s);
  eo_limit : 0 < edit_limit (edit s) /\ size * (edit_limit (edit s) + 1) <= 4294963168;
  eo_len : edit_len (edit s) = Z.of_nat (length T) /\ Z.of_nat (length T) <= edit_limit (edit s);
  eo_sel : 0 <= edit_sel_start (edit s) <= edit_sel_end (edit s) /\ edit_sel_end (edit s) <= Z.of_nat (length T);
  eo_text : (edit_text (edit s) = 0 /\ edit_capacity (edit s) = 0 /\ T = []) \/ (edit_text (edit s) <> 0 /\ buffer s T)
}.

(** The heap gives a block of at most [n] bytes; it gives two, also with a block freed in between. *)
Definition gives (n : Z) (h : H) : Prop := forall m p h', 0 < m <= n -> kh_malloc m h = Some (p, h') -> p <> 0.
Definition next (n : Z) (h h' : H) : Prop := h' = h \/ exists m p h1, 0 < m <= n /\ kh_malloc m h = Some (p, h1) /\ (h' = h1 \/ exists q, kh_free q h1 = Some h').
Definition ample (n : Z) (h : H) : Prop := forall h', next n h h' -> gives n h'.

(** What a step on the buffer leaves alone. *)
Definition same_edit s s' : Prop :=
  edit_limit (edit s') = edit_limit (edit s) /\ edit_len (edit s') = edit_len (edit s) /\
  edit_sel_start (edit s') = edit_sel_start (edit s) /\ edit_sel_end (edit s') = edit_sel_end (edit s).

(** A new buffer of [alloc] characters, with what the old one held. *)
Definition replaced (alloc : Z) s : option (Z * control) :=
  let e := edit s in
  '(p, h) ← kh_malloc (u32 (alloc * size)) (kheap s);
  if p =? 0 then Some (edit_text e, mkControl e h (blocks s)) else
  let s := mkControl e h (<[p := replicate (Z.to_nat alloc) 0]> (blocks s)) in
  s ← (if negb (edit_text e =? 0) && (0 <? edit_len e) then
         l ← chars_at (Z.to_nat (edit_len e)) (edit_text e) 0 s;
         s ← set_chars p 0 l s;
         h ← kh_free (edit_text e) (kheap s);
         Some (mkControl e h (delete (edit_text e) (blocks s)))
       else Some s);
  Some (p, set_edit s (mkEdit p alloc (edit_limit e) (edit_len e) (edit_sel_start e) (edit_sel_end e) (edit_modified e) (title e))).

Lemma edit_limit_kept e : 0 < edit_limit e ->
  mkEdit (edit_text e) (edit_capacity e) (if edit_limit e <=? 0 then 65535 else edit_limit e) (edit_len e) (edit_sel_start e) (edit_sel_end e) (edit_modified e) (title e) = e.
Proof. intros Hl. rewrite (proj2 (Z.leb_gt _ _)) by done. by destruct e. Qed.

Lemma text_in_nil L : get 0 L 0 = 0 -> text_in L [].
Proof. intros E i Hi. cbn [length] in Hi. replace i with 0 by lia. by rewrite E. Qed.

(** The text copied into the new, zeroed block. *)
Lemma copied_text alloc L' l T : length l = length T -> (forall j, 0 <= j < Z.of_nat (length T) -> get 0 l j = get 0 T j) ->
  overlaid (replicate alloc 0) L' 0 (Z.of_nat (length l)) (fun j => get 0 l (j - 0)) -> text_in L' T.
Proof.
  intros Hl Hg [_ Hc] i Hi. rewrite Hc by lia. rewrite Hl. destruct (Z.leb_spec 0 i); [|lia]. destruct (Z.ltb_spec i (0 + Z.of_nat (length T))) as [Hlt|Hge]; cbn [andb].
  - rewrite Z.sub_0_r. apply Hg. lia.
  - rewrite get_zeros. unfold get. by rewrite lookup_ge_None_2 by lia.
Qed.

Lemma replaced_ok alloc s T : edit_ok s T -> Z.of_nat (length T) + 1 <= alloc <= edit_limit (edit s) + 1 ->
  gives (size * (edit_limit (edit s) + 1)) (kheap s) ->
  exists p s', replaced alloc s = Some (p, s') /\ p <> 0 /\ edit_text (edit s') = p /\ edit_ok s' T /\ edit_capacity (edit s') = alloc /\
    same_edit s s' /\ next (size * (edit_limit (edit s) + 1)) (kheap s) (kheap s').
Proof.
  intros [Hk [Hl Hb] [El Hn] Hs Ht] Ha Hg. assert (Hm : 0 < alloc * size <= size * (edit_limit (edit s) + 1)) by nia.
  unfold replaced. rewrite u32_small by (unfold is_u32; lia).
  destruct (kh_malloc_spec (kheap s) (alloc * size) Hk ltac:(lia)) as (p & h & E & Hk' & Hc). pose proof (Hg _ _ _ Hm E) as Hp.
  destruct Hc as [[Hp0 _]|(Hp32 & Hfresh & c & Hc & Hlive)]; [done|]. rewrite E. cbn [mbind option_bind]. rewrite (proj2 (Z.eqb_neq p 0)) by done.
  destruct (decide (edit_text (edit s) <> 0 /\ T <> [])) as [[Hx HT]|HT].
  - destruct Ht as [[? _]|[_ (L & EL & HL & Hcap & HT' & Hlv)]]; [done|]. assert (HTl : (0 < length T)%nat) by (destruct T; [done | cbn; lia]).
    assert (Hne : p <> edit_text (edit s)) by (intros ->; rewrite Hfresh in Hlv; by destruct Hlv).
    rewrite (proj2 (Z.eqb_neq _ _)) by done. rewrite (proj2 (Z.ltb_lt _ _)) by lia. cbn [negb andb].
    set (s1 := mkControl _ _ _). rewrite El, Nat2Z.id.
    destruct (chars_at_eq (length T) (edit_text (edit s)) 0 s1 L) as (l & El1 & Hll & Hlg); [cbn; by rewrite lookup_insert_ne | lia | lia|]. rewrite El1. cbn [mbind option_bind].
    destruct (set_chars_eq l p 0 s1 (replicate (Z.to_nat alloc) 0)) as (L' & -> & Hov); [cbn; by rewrite lookup_insert_eq | lia | rewrite length_replicate; lia|]. cbn [mbind option_bind kheap with_block s1].
    destruct (kh_free_spec h (edit_text (edit s)) Hk') as (h' & Ef & Hk'' & Hlive'). rewrite Ef. cbn [mbind option_bind].
    eexists p, _. split; [reflexivity|]. split; [done|]. split; [done|]. split; [|split; [done|]; split; [done|]; right; exists (alloc * size), p, h; split; [done|]; split; [done|]; right; by exists (edit_text (edit s))].
    constructor; cbn; [done | done | lia | done|]. right. split; [done|]. exists L'. cbn.
    split; [by rewrite lookup_delete_ne, lookup_insert_eq|]. split; [rewrite (proj1 Hov), length_replicate; lia|]. split; [done|].
    split; [|rewrite Hlive', Hlive, lookup_delete_ne, lookup_insert_eq by done; by eexists].
    apply (copied_text (Z.to_nat alloc) L' l); [done| |done]. intros j Hj. rewrite Hlg by done. rewrite Z.add_0_l. apply HT'. lia.
  - assert (HT0 : T = []) by (destruct Ht as [(_ & _ & ?)|[? _]]; [done|]; destruct T; [done|]; exfalso; by apply HT). subst T.
    rewrite El. cbn [length Z.of_nat]. rewrite Z.ltb_irrefl, andb_false_r. cbn [mbind option_bind].
    eexists p, _. split; [reflexivity|]. split; [done|]. split; [done|]. split; [|split; [done|]; split; [unfold same_edit; cbn; by rewrite El|]; right; exists (alloc * size), p, h; split; [done|]; split; [done|]; by left].
    constructor; cbn; [done | done | lia | done|]. right. split; [done|]. exists (replicate (Z.to_nat alloc) 0). cbn [blocks set_edit edit edit_text edit_capacity edit_limit kheap].
    split; [by rewrite lookup_insert_eq|]. split; [rewrite length_replicate; lia|]. split; [done|].
    split; [apply text_in_nil, get_zeros | rewrite Hlive, lookup_insert_eq; by eexists].
Qed.

(** Growing the buffer keeps the text and gives room for [min] characters, as far as the limit allows. *)
Lemma ensure_ok min s T : edit_ok s T -> gives (size * (edit_limit (edit s) + 1)) (kheap s) ->
  exists p s', u32_ensure_edit_buffer size min s = Some (p, s') /\ p <> 0 /\ edit_text (edit s') = p /\ edit_ok s' T /\
    Z.min min (edit_limit (edit s) + 1) <= edit_capacity (edit s') /\ same_edit s s' /\ next (size * (edit_limit (edit s) + 1)) (kheap s) (kheap s').
Proof.
  intros Hok Hg. pose proof Hok as [Hk [Hl Hb] [El Hn] Hs Ht]. unfold u32_ensure_edit_buffer. rewrite edit_limit_kept by done.
  set (min' := if min <? 64 then 64 else min). assert (Hmin : min <= min' /\ 64 <= min') by (unfold min'; destruct (Z.ltb_spec min 64); lia).
  replace (set_edit s (edit s)) with s by (by destruct s).
  destruct (negb (edit_text (edit s) =? 0) && (min' <=? edit_capacity (edit s))) eqn:Ekeep.
  - apply andb_true_iff in Ekeep as [Hx%negb_true_iff%Z.eqb_neq Hc%Z.leb_le].
    exists (edit_text (edit s)), s. split; [done|]. split; [done|]. split; [done|]. split; [done|]. split; [lia|]. split; [done | by left].
  - set (a1 := if 0 <? edit_capacity (edit s) then edit_capacity (edit s) * 2 else 64). set (a2 := if a1 <? min' then min' else a1).
    set (alloc := if edit_limit (edit s) + 1 <? a2 then edit_limit (edit s) + 1 else a2).
    assert (Ha : Z.of_nat (length T) + 1 <= alloc <= edit_limit (edit s) + 1 /\ Z.min min (edit_limit (edit s) + 1) <= alloc).
    { assert (edit_capacity (edit s) = 0 /\ T = [] \/ Z.of_nat (length T) + 1 <= edit_capacity (edit s)) as Hcap by (destruct Ht as [(_ & ? & ?)|[_ (L & _ & _ & ? & _)]]; [by left | right; lia]).
      unfold alloc, a2, a1. destruct (Z.ltb_spec 0 (edit_capacity (edit s))); repeat case_match; destruct Hcap as [[? ->]|]; cbn [length] in *; lia. }
    rewrite (proj2 (Z.leb_gt _ _)) by lia. destruct (replaced_ok alloc s T Hok (proj1 Ha) Hg) as (p & s' & E & Hp & Hx & Hok' & Hc & Hsame & Hnext).
    exists p, s'. split; [exact E|]. do 3 (split; [done|]). split; [lia | done].
Qed.

Lemma get_take {A} (d : A) n l i : 0 <= i < n -> get d (take (Z.to_nat n) l) i = get d l i.
Proof. intros Hi. unfold get. by rewrite lookup_take_lt by lia. Qed.
Lemma get_drop {A} (d : A) n l i : 0 <= i -> 0 <= n -> get d (drop (Z.to_nat n) l) i = get d l (i + n).
Proof. intros Hi Hn. unfold get. rewrite lookup_drop. do 2 f_equal. lia. Qed.

(** The title follows the text. *)
Lemma sync_title_ok s T : edit_ok s T -> edit_text (edit s) <> 0 ->
  let e := edit s in
  u32_edit_sync_title s = Some (set_edit s (mkEdit (edit_text e) (edit_capacity e) (edit_limit e) (edit_len e) (edit_sel_start e) (edit_sel_end e) (edit_modified e) (take 127 T))).
Proof.
  intros [_ _ [El _] _ Ht] Hp. destruct Ht as [[? _]|[_ (L & EL & HL & Hcap & HT & _)]]; [done|].
  unfold u32_edit_sync_title. rewrite (proj2 (Z.eqb_neq _ _)) by done. set (n := if 127 <? edit_len (edit s) then 127 else edit_len (edit s)).
  assert (Hn : Z.to_nat n = Nat.min 127 (length T)) by (unfold n; destruct (Z.ltb_spec 127 (edit_len (edit s))); lia). rewrite Hn.
  destruct (chars_at_eq (Nat.min 127 (length T)) (edit_text (edit s)) 0 s L) as (l & -> & Hl & Hg); [done | lia | lia|]. cbn. do 2 f_equal.
  f_equal. apply list_eq_same_length with (n := Nat.min 127 (length T)); [by rewrite length_take | done|].
  intros i x y Hi Hx Hy. specialize (Hg (Z.of_nat i) ltac:(lia)). rewrite Z.add_0_l, HT in Hg by lia. rewrite lookup_take_lt in Hy by lia.
  unfold get in Hg. by rewrite Nat2Z.id, Hx, Hy in Hg.
Qed.

(** The end of both operations: the buffer holds [T'], whose length and selection are set. *)
Lemma written s T L L' T' sel m : edit_ok s T -> edit_text (edit s) <> 0 -> blocks s !! edit_text (edit s) = Some L ->
  length L' = length L -> Z.of_nat (length T') + 1 <= Z.of_nat (length L) -> text_in L' T' -> 0 <= sel <= Z.of_nat (length T') ->
  let e := edit s in
  exists s', u32_edit_sync_title (set_edit (with_block s (edit_text e) L') (mkEdit (edit_text e) (edit_capacity e) (edit_limit e) (Z.of_nat (length T')) sel sel m (title e))) = Some s' /\
    edit_ok s' T' /\ edit s' = mkEdit (edit_text e) (edit_capacity e) (edit_limit e) (Z.of_nat (length T')) sel sel m (take 127 T').
Proof.
  intros [Hk [Hl Hb] [El Hn] Hs Ht] Hp EL HL HT' Htx Hsel e. destruct Ht as [[? _]|[_ (L0 & EL0 & HL0 & Hcap & _ & Hlv)]]; [done|].
  rewrite EL in EL0. injection EL0 as <-. set (s1 := set_edit _ _).
  assert (Hok : forall t, edit_ok (set_edit s1 (mkEdit (edit_text e) (edit_capacity e) (edit_limit e) (Z.of_nat (length T')) sel sel m t)) T').
  { intros t. unfold e. constructor; cbn; [done | done | lia | lia|]. right. split; [done|]. exists L'. cbn.
    split; [apply lookup_insert_eq|]. split; [cbn; lia|]. split; [cbn; lia|]. done. }
  rewrite (sync_title_ok s1 T'); [|exact (Hok (title e)) | done]. eexists. split; [reflexivity|]. split; [apply Hok | done].
Qed.

Lemma text_in_block s T : edit_ok s T -> edit_text (edit s) <> 0 -> exists L, blocks s !! edit_text (edit s) = Some L /\
  Z.of_nat (length L) = edit_capacity (edit s) /\ Z.of_nat (length T) + 1 <= Z.of_nat (length L) <= edit_limit (edit s) + 1 /\ text_in L T.
Proof. intros [_ _ _ _ Ht] Hp. destruct Ht as [[? _]|[_ (L & EL & HL & Hcap & HT & _)]]; [done|]. exists L. rewrite HL. done. Qed.

(** The new text is set: all that fits the limit. *)
Theorem edit_set_text text s T : edit_ok s T -> gives (size * (edit_limit (edit s) + 1)) (kheap s) ->
  exists s', u32_edit_set_text size text s = Some s' /\
    let T' := take (Z.to_nat (edit_limit (edit s))) text in edit_ok s' T' /\ title (edit s') = take 127 T' /\ edit_modified (edit s') = false.
Proof.
  intros Hok Hg. pose proof (eo_limit _ _ Hok) as [Hl _]. unfold u32_edit_set_text. rewrite (proj2 (Z.ltb_lt 0 _)) by done. cbn [andb].
  set (len := if edit_limit (edit s) <? Z.of_nat (length text) then edit_limit (edit s) else Z.of_nat (length text)).
  assert (Hlen : 0 <= len <= edit_limit (edit s) /\ len <= Z.of_nat (length text)) by (unfold len; destruct (Z.ltb_spec (edit_limit (edit s)) (Z.of_nat (length text))); lia).
  assert (ET : take (Z.to_nat (edit_limit (edit s))) text = take (Z.to_nat len) text).
  { unfold len. destruct (Z.ltb_spec (edit_limit (edit s)) (Z.of_nat (length text))); [done|]. by rewrite !take_ge by lia. }
  rewrite ET. set (T' := take (Z.to_nat len) text). assert (HT' : Z.of_nat (length T') = len) by (unfold T'; rewrite length_take; lia).
  destruct (ensure_ok (len + 1) s T Hok Hg) as (p & s1 & -> & Hp & Hx & Hok1 & Hcap & Hsame & _). cbn [mbind option_bind]. rewrite (proj2 (Z.eqb_neq p 0)) by done. subst p.
  destruct (text_in_block s1 T Hok1 Hp) as (L & EL & HL & _ & _).
  destruct (set_chars_eq T' (edit_text (edit s1)) 0 s1 L EL) as (L1 & -> & HL1 & Hg1); [lia | lia|]. cbn [mbind option_bind].
  rewrite (set_char_eq _ len 0 _ L1) by (apply with_block_block || lia). cbn [mbind option_bind]. rewrite with_block_twice. cbn [edit with_block].
  destruct (written s1 T L (put L1 len 0) T' len false Hok1 Hp EL) as (s' & E & Hok' & Ee); [by rewrite length_put | lia | | lia|].
  - intros i Hi. rewrite get_put by lia. destruct (Z.eqb_spec i len) as [->|]; [unfold get; by rewrite lookup_ge_None_2 by lia|].
    rewrite Hg1 by lia. destruct (Z.leb_spec 0 i), (Z.ltb_spec i (0 + Z.of_nat (length T'))); cbn [andb]; try lia. by rewrite Z.sub_0_r.
  - rewrite HT' in E. exists s'. split; [exact E|]. split; [done|]. by rewrite Ee.
Qed.

(** The characters behind the selection find their place behind the new ones. *)
Lemma move_tail p s L T start k end_ : blocks s !! p = Some L -> text_in L T -> 0 <= start <= end_ -> end_ <= Z.of_nat (length T) -> 0 <= k ->
  Z.of_nat (length T) + 1 <= Z.of_nat (length L) -> start + k + (Z.of_nat (length T) - end_) + 1 <= Z.of_nat (length L) ->
  exists L1, (if (0 <? Z.of_nat (length T) - end_) && negb (start + k =? end_) then
         if start + k <? end_ then move_down (Z.to_nat (Z.of_nat (length T) - end_ + 1)) p (start + k) end_ s
         else move_up (Z.to_nat (Z.of_nat (length T) - end_ + 1)) p (start + k) end_ s
       else set_char p (start + k + (Z.of_nat (length T) - end_)) 0 s) = Some (with_block s p L1) /\ length L1 = length L /\
    forall i, 0 <= i <= start + k + (Z.of_nat (length T) - end_) ->
      (i < start -> get 0 L1 i = get 0 T i) /\ (start + k <= i -> get 0 L1 i = get 0 T (i - (start + k) + end_)).
Proof.
  intros EL HT Hs He Hk HL Hnew. set (n := Z.of_nat (length T) - end_) in *.
  destruct ((0 <? n) && negb (start + k =? end_)) eqn:Em.
  - apply andb_true_iff in Em as [Hn%Z.ltb_lt Hne%negb_true_iff%Z.eqb_neq].
    assert (exists L1, (if start + k <? end_ then move_down (Z.to_nat (n + 1)) p (start + k) end_ s else move_up (Z.to_nat (n + 1)) p (start + k) end_ s) = Some (with_block s p L1) /\
      overlaid L L1 (start + k) (Z.of_nat (Z.to_nat (n + 1))) (fun j => get 0 L (j - (start + k) + end_))) as (L1 & E & HL1 & Hg).
    { destruct (Z.ltb_spec (start + k) end_); [apply move_down_eq | apply move_up_eq]; (done || lia). }
    exists L1. split; [done|]. split; [done|]. intros i Hi. rewrite Hg by lia.
    split; intros Hi'; destruct (Z.leb_spec (start + k) i), (Z.ltb_spec i (start + k + Z.of_nat (Z.to_nat (n + 1)))); cbn [andb]; try lia; apply HT; lia.
  - rewrite (set_char_eq p _ 0 s L) by (done || lia). eexists. split; [reflexivity|]. split; [by rewrite length_put|].
    apply andb_false_iff in Em. assert (Hc : n = 0 \/ start + k = end_) by (destruct Em as [Hn%Z.ltb_ge|Hn%negb_false_iff%Z.eqb_eq]; lia).
    intros i Hi. rewrite get_put by lia. split; intros Hi'; destruct (Z.eqb_spec i (start + k + n)) as [->|].
    + lia.
    + apply HT. lia.
    + replace (start + k + n - (start + k) + end_) with (Z.of_nat (length T)) by lia. unfold get. by rewrite lookup_ge_None_2 by lia.
    + destruct Hc; [lia|]. replace (i - (start + k) + end_) with i by lia. apply HT. lia.
Qed.

(** What replacing [start, end_) by [k] characters of [repl] gives. *)
Definition spliced (T repl : list Z) (start end_ k : Z) : list Z := take (Z.to_nat start) T ++ take (Z.to_nat k) repl ++ drop (Z.to_nat end_) T.

Lemma length_spliced T repl start end_ k : 0 <= start <= end_ -> end_ <= Z.of_nat (length T) -> 0 <= k <= Z.of_nat (length repl) ->
  Z.of_nat (length (spliced T repl start end_ k)) = start + k + (Z.of_nat (length T) - end_).
Proof. intros. unfold spliced. rewrite !length_app, !length_take, length_drop. lia. Qed.

Lemma get_spliced T repl start end_ k i : 0 <= start <= end_ -> end_ <= Z.of_nat (length T) -> 0 <= k <= Z.of_nat (length repl) -> 0 <= i ->
  get 0 (spliced T repl start end_ k) i = if i <? start then get 0 T i else if i <? start + k then get 0 repl (i - start) else get 0 T (i - (start + k) + end_).
Proof.
  intros Hs He Hk Hi. unfold spliced. rewrite get_app by done. rewrite length_take. replace (Z.of_nat (Nat.min (Z.to_nat start) (length T))) with start by lia.
  destruct (Z.ltb_spec i start); [by apply get_take|]. rewrite get_app by lia. rewrite length_take. replace (Z.of_nat (Nat.min (Z.to_nat k) (length repl))) with k by lia.
  destruct (Z.ltb_spec (i - start) k), (Z.ltb_spec i (start + k)); try lia; [by apply get_take; lia|]. rewrite get_drop by lia. f_equal. lia.
Qed.

(** C33. What an edit control does with typing, pasting and deleting: between [sel_start] and [sel_end] the
    text is replaced by as much of the new text as the limit leaves room for, what stood before and behind stays, the caret is put
    behind what is new, and the window title follows; the buffer grows without losing or overrunning
    anything.  The control's text and buffer are within its limit, as they are until EM_LIMITTEXT lowers it below them
    ([lowered_limit_overruns] is what happens then), and the heap can give two blocks of the control's full size. *)
Theorem edit_replace_sel (repl : list Z) (s : control) (T : list Z) :
  edit_ok s T -> ample (size * (edit_limit (edit s) + 1)) (kheap s) ->
  exists s', u32_edit_replace_sel size repl s = Some s' /\
    let start := edit_sel_start (edit s) in let end_ := edit_sel_end (edit s) in
    let k := Z.min (Z.of_nat (length repl)) (edit_limit (edit s) - (start + (Z.of_nat (length T) - end_))) in
    let T' := spliced T repl start end_ k in
    edit_ok s' T' /\ edit_sel_start (edit s') = start + k /\ edit_sel_end (edit s') = start + k /\ title (edit s') = take 127 T'.
Proof.
  intros Hok Hample. pose proof (eo_sel _ _ Hok) as [Hs He]. pose proof (eo_len _ _ Hok) as [El Hn]. pose proof (eo_limit _ _ Hok) as [Hl _]. unfold u32_edit_replace_sel.
  destruct (ensure_ok 64 s T Hok (Hample _ (or_introl eq_refl))) as (p & s1 & -> & Hp & Hx & Hok1 & _ & (Elim & El1 & Es & Ee) & Hnext). cbn [mbind option_bind].
  rewrite (proj2 (Z.eqb_neq p 0)) by done. clear p Hp Hx. rewrite !Es, !Ee, !El1, !El, !Elim.
  set (start := edit_sel_start (edit s)) in *. set (end_ := edit_sel_end (edit s)) in *. set (lim := edit_limit (edit s)) in *. set (n := Z.of_nat (length T)) in *.
  rewrite (proj2 (Z.ltb_ge start 0)) by lia. rewrite (proj2 (Z.ltb_ge end_ start)) by lia. rewrite (proj2 (Z.ltb_ge n end_)) by lia. rewrite (proj2 (Z.ltb_lt 0 lim)) by lia. cbn [andb].
  set (r := Z.of_nat (length repl)). set (k := Z.min r (lim - (start + (n - end_)))).
  assert (Er : (if lim <? start + r + (n - end_) then if r - (start + r + (n - end_) - lim) <? 0 then 0 else r - (start + r + (n - end_) - lim) else r) = k)
    by (unfold k; destruct (Z.ltb_spec lim (start + r + (n - end_))); [destruct (Z.ltb_spec (r - (start + r + (n - end_) - lim)) 0)|]; lia).
  rewrite !Er. assert (En : (if lim <? start + r + (n - end_) then start + k + (n - end_) else start + r + (n - end_)) = start + k + (n - end_))
    by (unfold k; destruct (Z.ltb_spec lim (start + r + (n - end_))); lia). rewrite En. assert (Hk : 0 <= k <= r /\ start + k + (n - end_) <= lim) by (unfold k; lia). clearbody k. clear Er En.
  assert (Hg2 : gives (size * (edit_limit (edit s1) + 1)) (kheap s1)) by (rewrite Elim; by apply Hample).
  destruct (ensure_ok (start + k + (n - end_) + 1) s1 T Hok1 Hg2) as (p & s2 & -> & Hp & Hx & Hok2 & Hcap & (_ & El2 & _ & _) & _). cbn [mbind option_bind].
  rewrite (proj2 (Z.eqb_neq p 0)) by done. subst p. rewrite !El2, !El1, !El. fold n.
  destruct (text_in_block s2 T Hok2 Hp) as (L & EL & HL & HLT & HT). rewrite Elim in Hcap.
  destruct (move_tail (edit_text (edit s2)) s2 L T start k end_ EL HT) as (L1 & E1 & HL1 & Hg1); [done | lia | lia | lia | lia|].
  fold n in E1. rewrite E1. cbn [mbind option_bind].
  destruct (set_chars_eq (take (Z.to_nat k) repl) (edit_text (edit s2)) start (with_block s2 (edit_text (edit s2)) L1) L1) as (L2 & -> & HL2 & Hg3);
    [apply with_block_block | lia | rewrite length_take; lia|]. cbn [mbind option_bind]. rewrite with_block_twice.
  rewrite (set_char_eq _ (start + k + (n - end_)) 0 _ L2) by (apply with_block_block || lia). cbn [mbind option_bind]. rewrite with_block_twice. cbn [edit with_block].
  pose proof (length_spliced T repl start end_ k Hs He ltac:(lia)) as HT'.
  destruct (written s2 T L (put L2 (start + k + (n - end_)) 0) (spliced T repl start end_ k) (start + k) true Hok2 Hp EL) as (s' & E & Hok' & Ee'); [by rewrite length_put; lia | lia | | lia|].
  - intros i Hi. rewrite get_put, get_spliced by lia. destruct (Z.eqb_spec i (start + k + (n - end_))) as [->|].
    { rewrite !(proj2 (Z.ltb_ge _ _)) by lia. unfold get. by rewrite lookup_ge_None_2 by lia. }
    rewrite Hg3 by lia. rewrite length_take. replace (Z.of_nat (Nat.min (Z.to_nat k) (length repl))) with k by lia. destruct (Hg1 i ltac:(lia)) as [Hlow Hhigh].
    destruct (Z.leb_spec start i), (Z.ltb_spec i (start + k)), (Z.ltb_spec i start); cbn [andb]; try lia; first [by apply get_take; lia | by apply Hhigh | by apply Hlow].
  - rewrite HT' in E. exists s'. split; [exact E|]. split; [done|]. by rewrite Ee'.
Qed.

End edit.

Definition empty_table : user32 := mkUser (replicate 256 no_entry) [] [] [] 7.

Lemma messages_refine_queue_witness :
  holds empty_table [] /\
  let '(answers, q') := abstract_run (fun w => w) (fun _ => 7) [Post 0 5 1 0 10; Post 0 6 2 0 11; Peek 0 6 6 true 12; Peek 0 0 0 false 13] empty_table [] in
  exists u', run (fun w => w) (fun _ => 7) [Post 0 5 1 0 10; Post 0 6 2 0 11; Peek 0 6 6 true 12; Peek 0 0 0 false 13] empty_table = (answers, u') /\ holds u' q'.
Proof.
  assert (Hh : holds empty_table []) by (exists (replicate 256 no_entry); split; [reflexivity|]; split; [by apply Forall_replicate | reflexivity]).
  split; [exact Hh|]. exact (messages_refine_queue (fun w => w) (fun _ => 7) [Post 0 5 1 0 10; Post 0 6 2 0 11; Peek 0 6 6 true 12; Peek 0 0 0 false 13] empty_table [] Hh).
Defined.

(** A heap that never reuses memory and has [2 * n] bytes left is ample. *)
Lemma fresh_ample n h : 0 <= n -> 0 < break h -> break h + 2 * n <= 4294967296 -> ample n h.
Proof.
  intros H0 Hb Hn. assert (Hg : forall h', 0 < break h' -> break h' + n <= 4294967296 -> gives n h').
  { intros h' Hb' Hn' m p h1 Hm. cbn. unfold fresh_malloc. rewrite (proj2 (Z.leb_le _ _)) by lia. intros [= <- <-]. lia. }
  intros h' [->|(m & p & h1 & Hm & E & Hh)]; [apply Hg; lia|].
  assert (E1 : break h1 = break h + m) by (revert E; cbn; unfold fresh_malloc; rewrite (proj2 (Z.leb_le _ _)) by lia; by intros [= <- <-]).
  destruct Hh as [->|[q [= <-]]]; apply Hg; cbn; lia.
Qed.

(** "Hello" with "el" selected, in a control of at most six characters. *)
Definition hello : control :=
  mkControl (mkEdit 65536 7 6 5 1 3 false [72; 101; 108; 108; 111]) (mkFresh 65550 {[65536 := 14]}) {[65536 := [72; 101; 108; 108; 111; 0; 0]]}.

Lemma hello_ok : edit_ok 2 hello [72; 101; 108; 108; 111].
Proof.
  constructor; cbn; [|lia | lia | lia|].
  - split; [cbn; lia|]. intros p cap. cbn. intros [<- <-]%lookup_singleton_Some. lia.
  - right. split; [done|]. exists [72; 101; 108; 108; 111; 0; 0]. split; [reflexivity|]. split; [reflexivity|]. split; [cbn; lia|]. split; [|by exists 14].
    intros i Hi. cbn [length] in Hi. assert (i = 0 \/ i = 1 \/ i = 2 \/ i = 3 \/ i = 4 \/ i = 5) as Hc by lia. destruct Hc as [->|[->|[->|[->|[->| ->]]]]]; reflexivity.
Qed.

Lemma edit_replace_sel_witness :
  exists s', u32_edit_replace_sel 2 [97; 98; 99; 100] hello = Some s' /\ edit_ok 2 s' [72; 97; 98; 99; 108; 111].
Proof.
  destruct (edit_replace_sel 2 ltac:(lia) [97; 98; 99; 100] hello [72; 101; 108; 108; 111] hello_ok ltac:(apply fresh_ample; cbn; lia)) as (s' & E & Hok & _).
  exists s'. split; [exact E | exact Hok].
Defined.

(** *** Flaws *)

(** A process restarts while its [WM_QUIT] waits before a message: the hole it leaves is the
    next free place, and a message posted later is delivered first. *)
Example quit_hole_reorders :
  let post m u := snd (PostMessageW (fun w : Z => w) (fun _ => 7) 0 m 0 0 u 0) in
  fst (PeekMessageW (fun _ : Z => 7) 0 0 0 true (post 6 (User32SetProcessId 7 (post 5 (post WM_QUIT empty_table)))) 0) = Some (mkMsg 0 6 0 0 0).
Proof. reflexivity. Qed.

(** The heap is exhausted when a full buffer of 64 characters should grow: the old buffer is used as if it had grown, and
    the character is stored behind its end. *)
Definition full_edit : control :=
  mkControl (mkEdit 65536 64 65535 63 63 63 false []) (mkFresh 4294967296 {[65536 := 128]}) {[65536 := replicate 63 97 ++ [0]]}.
Example failed_growth_overruns : u32_edit_replace_sel 2 [98] full_edit = None.
Proof. vm_compute. reflexivity. Qed.

(** Thirty characters in a control of at most forty, then limited to ten: the next key makes a buffer for eleven characters and copies all thirty into it. *)
Example lowered_limit_overruns :
  wm_char 2 98 (em_limittext 10 (mkControl (mkEdit 65536 41 40 30 30 30 false []) (mkFresh 65618 {[65536 := 82]}) {[65536 := replicate 30 97 ++ replicate 11 0]})) = None.
Proof. vm_compute. reflexivity. Qed.

(** An empty control limited to twenty characters takes a new block every time it is
    set to the empty text, and never frees the last one. *)
Example empty_text_leaks :
  ((s ← u32_edit_set_text 2 [] (mkControl (mkEdit 0 0 20 0 0 0 false []) fresh_start ∅); s ← u32_edit_set_text 2 [] s; s ← u32_edit_set_text 2 [] s;
    Some (base.size (kh_live (kheap s)))) : option nat) = Some 3%nat.
Proof. vm_compute. reflexivity. Qed.

End User32Spec.
