(* ===== verification/Setup.v ===== *)
(** * kernel/core/setup.c: native-mode Setup

    The screens that lead to an installation, the formatting of the disk and the copy of the
    boot medium to it.  Sectors are read by [Cdfs] and written through [Io]; the sizes of
    IDE disks are those [Ide] found, SATA disks are searched with [AhciBootInitialize] of
    [Ahci], whose variables are part of the state.  The console is the log of what is put
    on it, and [keys] what [KeyboardPollEvent] will give.  A step ends with a value, or
    stops (the processor halts, or no key will ever come), or is undefined. *)

From stdpp Require Import base list numbers gmap strings.
From Stdlib Require Import ZArith Lia.
From S2P Require Import Prelude.
From S2P Require Import Util.
From S2P Require Import Pmm.
From S2P Require Import Vmm.
From S2P Require Import Paging.
From S2P Require Import Mm.
From S2P Require Import Ob.
From S2P Require Import Io.
From S2P Require Import Hw.
From S2P Require Import Input.
From S2P Require Import Fat32.
From S2P Require Import Ide.
From S2P Require Import Cdfs.
From S2P Require Import Ahci.
Import Util Ob Io Hw Keyboard Fat32 Cdfs.

Module Setup.

Definition ISO_SECTOR_SIZE : Z := 2048.

Inductive output := Clear | Line (row : Z) (text : list Z) | Status (text : list Z).

Inductive outcome (S A : Type) := Go (x : A) (s : S) | Stop (s : S) | Wrong.
Arguments Go {S A}.
Arguments Stop {S A}.
Arguments Wrong {S A}.

Definition step (S A : Type) : Type := S -> outcome S A.
#[global] Instance step_ret S : MRet (step S) := fun A x s => Go x s.
#[global] Instance step_bind S : MBind (step S) := fun A B k f s => match f s with Go x s => k x s | Stop s => Stop s | Wrong => Wrong end.

Section setup.
Context {D H : Type} `{Bus D} `{KernelHeap H} (a : arch).
Context (dispatch : Z -> Z -> IO_REQUEST -> ob H (io D) -> option (Z * IO_REQUEST * ob H (io D))).
Context (run_unload : Z -> Z -> ob H (io D) -> option (ob H (io D))).
(** The addresses of the local arrays [sector] and [zeros], and of the SATA driver's [identify]. *)
Context (stack identify : Z).

(** The variables of the SATA driver, with the page tables it maps its registers in. *)
Record ahci_vars := mkVars { v_vm : Paging.mmu; v_driver : Z; v_disks : list Ahci.AHCI_DISK; v_count : Z }.

Record setup := mkSetup { machine : @sys D H; ide_sizes : list Z; sata : ahci_vars; keys : list KEYBOARD_EVENT; console : list output }.
Implicit Types s : setup.

Definition set_machine s (m : sys) : setup := mkSetup m (ide_sizes s) (sata s) (keys s) (console s).
Definition put_out (o : output) : step setup unit := fun s => Go tt (mkSetup (machine s) (ide_sizes s) (sata s) (keys s) (console s ++ [o])).

(** What the SATA driver sees of the machine, and the machine it leaves. *)
Definition ahci_of s : @Ahci.ahci D H := Ahci.mkAhci (kern (machine s)) (v_vm (sata s)) (v_driver (sata s)) (v_disks (sata s)) (v_count (sata s)).
Definition with_ahci s (x : @Ahci.ahci D H) : setup :=
  mkSetup (set_kern (machine s) (Ahci.kern x)) (ide_sizes s) (mkVars (Ahci.vm x) (Ahci.ahci_driver x) (Ahci.disks x) (Ahci.disk_count x)) (keys s) (console s).
(** A function of the drivers. *)
Definition on_machine {A} (f : @sys D H -> option (A * @sys D H)) : step setup A :=
  fun s => match f (machine s) with Some (x, m) => Go x (set_machine s m) | None => Wrong end.
Definition stop {A} : step setup A := fun s => Stop s.
Definition number (n : Z) : step setup (list Z) := fun s => match itoa n 10 with Some t => Go t s | None => Wrong end.

Definition line (row : Z) (text : list Z) : step setup unit := put_out (Line row text).
Definition status (text : list Z) : step setup unit := put_out (Status text).
Definition title (page : list Z) : step setup unit :=
  put_out Clear;; line 1 (cstr "discouNT Native-Mode Setup");; line 2 page;;
  line 3 (cstr "----------------------------------------------------------------------------").

(** Events of keys released are passed over. *)
Fixpoint next_key (l : list KEYBOARD_EVENT) : option (KEYBOARD_EVENT * list KEYBOARD_EVENT) :=
  match l with [] => None | e :: l => if pressed e =? 0 then next_key l else Some (e, l) end.
Definition wait_key : step setup KEYBOARD_EVENT := fun s =>
  match next_key (keys s) with
  | Some (e, l) => Go e (mkSetup (machine s) (ide_sizes s) (sata s) l (console s))
  | None => Stop (mkSetup (machine s) (ide_sizes s) (sata s) [] (console s))
  end.

Definition target_sectors (disk : Z) (use_ahci : bool) s : Z := if use_ahci then Ahci.AhciGetDiskSectors disk (ahci_of s) else get 0 (ide_sizes s) disk.
Definition target_name (disk : Z) (use_ahci : bool) : list Z := cstr (if use_ahci then "SataDisk" else "Harddisk") ++ [48 + disk].

Definition write_target (disk : Z) (use_ahci : bool) (offset data size : Z) (m : @sys D H) : option (bool * @sys D H) :=
  '(device, k) ← IoGetDevice (Some (target_name disk use_ahci)) (kern m);
  if device =? 0 then Some (false, set_kern m k) else
  '(st, _, k) ← IoCallDriver dispatch device (Some (mkRequest Ide.IO_MJ_WRITE 0 0 data size (read_write offset))) k;
  d ← devices (memory k) !! device;
  k ← ObDereferenceObject (io_call run_unload) (vhandle d) k;
  Some (st =? IO_STATUS_SUCCESS, set_kern m k).

(** [done] of [total] as a line of progress. *)
Definition progress (text : list Z) (done total : Z) : step setup unit :=
  n ← number (done * 100 / total); line 14 (text ++ n ++ cstr "%").

(** The loop of [deploy]: [n] sectors are left. *)
Fixpoint copy_medium (n : nat) (current total disk : Z) (use_ahci : bool) : step setup bool :=
  match n with
  | O => mret true
  | S n =>
      ok ← on_machine (CdfsReadSector a dispatch current stack);
      if negb ok then mret false else
      ok ← on_machine (write_target disk use_ahci (current * ISO_SECTOR_SIZE) stack ISO_SECTOR_SIZE);
      if negb ok then mret false else
      (if (Z.land current 127 =? 0) || (current + 1 =? total) then progress (cstr "Copying installation media: ") (current + 1) total else mret tt);;
      copy_medium n (current + 1) total disk use_ahci
  end.

Definition deploy (disk : Z) (use_ahci : bool) : step setup bool := fun s =>
  let target_size := target_sectors disk use_ahci s in
  (ok ← on_machine (CdfsReadSector a dispatch 16 stack);
   if negb ok then mret false else
   sector ← (fun s => Go (load (ram (machine s)) stack ISO_SECTOR_SIZE) s);
   if negb (is_iso sector) then mret false else
   let total := le32 sector 80 in
   if (total =? 0) || (target_size <? total * 4) then mret false else
   copy_medium (Z.to_nat total) 0 total disk use_ahci) s.

(** The loop of [format_disk]; every turn writes a sector at least. *)
Fixpoint zero_batches (n : nat) (done sectors disk : Z) (use_ahci : bool) : step setup bool :=
  if sectors <=? done then mret true else
  match n with
  | O => fun _ => Wrong
  | S n =>
      let batch := if 4 <? sectors - done then 4 else sectors - done in
      ok ← on_machine (write_target disk use_ahci (done * 512) stack (batch * 512));
      if negb ok then mret false else
      let done := done + batch in
      (if (Z.land done 127 =? 0) || (done =? sectors) then progress (cstr "Formatting disk: ") done sectors else mret tt);;
      zero_batches n done sectors disk use_ahci
  end.

Definition format_disk (disk : Z) (use_ahci slow : bool) : step setup bool := fun s =>
  let total := target_sectors disk use_ahci s in
  let sectors := if slow then total else if 2048 <? total then 2048 else total in
  let s := set_machine s (set_ram (machine s) (store (ram (machine s)) stack (replicate 2048 0))) in
  if sectors =? 0 then Go false s else zero_batches (Z.to_nat sectors) 0 sectors disk use_ahci s.

Definition exit_setup {A} : step setup A :=
  title (cstr "Setup is no longer running");; line 8 (cstr "You may now restart the computer.");; status (cstr "Setup stopped");; stop.

(** Each turn of these loops takes a key. *)
Fixpoint wait_f3 (n : nat) : step setup unit :=
  match n with O => stop | S n => key ← wait_key; if scancode key =? 61 then mret tt else wait_f3 n end.
Fixpoint wait_enter (n : nat) : step setup unit :=
  match n with O => stop | S n => key ← wait_key; if ascii key =? 10 then mret tt else wait_enter n end.
Definition turns : step setup nat := fun s => Go (S (Datatypes.length (keys s))) s.

Fixpoint select_disk (n : nat) (selected count : Z) (use_ahci : bool) : step setup Z :=
  match n with
  | O => stop
  | S n =>
      i ← number selected;
      size ← (fun s => number (target_sectors selected use_ahci s / 2048) s);
      line 7 (cstr (if use_ahci then "> SataDisk" else "> Harddisk") ++ i ++ cstr "  (" ++ size ++ cstr " MB)");;
      line 10 (cstr "UP/DOWN selects a disk. ENTER continues.");;
      status (cstr "ENTER=Install   UP/DOWN=Select   F3=Exit");;
      key ← wait_key;
      if scancode key =? 61 then exit_setup else
      let ext := negb (extended key =? 0) in
      let selected := if ext && (scancode key =? 72) && negb (selected =? 0) then selected - 1 else selected in
      let selected := if ext && (scancode key =? 80) && (selected + 1 <? count) then selected + 1 else selected in
      if ascii key =? 10 then mret selected else select_disk n selected count use_ahci
  end.

Fixpoint select_format (n : nat) (slow : bool) : step setup bool :=
  match n with
  | O => stop
  | S n =>
      key ← wait_key;
      if scancode key =? 61 then exit_setup else
      let ext := negb (extended key =? 0) in
      let up := ext && (scancode key =? 72) && slow in
      (if up then line 8 (cstr "> Fast format");; line 9 (cstr "  Slow format (zero the entire disk)") else mret tt);;
      let slow := if up then false else slow in
      let down := ext && (scancode key =? 80) && negb slow in
      (if down then line 8 (cstr "  Fast format");; line 9 (cstr "> Slow format (zero the entire disk)") else mret tt);;
      let slow := if down then true else slow in
      if ascii key =? 10 then mret slow else select_format n slow
  end.

Fixpoint confirm (n : nat) : step setup unit :=
  match n with
  | O => stop
  | S n => key ← wait_key; if scancode key =? 61 then exit_setup else if scancode key =? 68 then mret tt else confirm n
  end.

Definition install (disk : Z) (use_ahci slow : bool) : step setup unit :=
  title (cstr "Installing discouNT");;
  line 6 (cstr (if slow then "Formatting disk (slow format)..." else "Formatting disk (fast format)..."));;
  line 14 (cstr "Formatting disk: 0%");;
  ok ← format_disk disk use_ahci slow;
  if ok : bool then
    line 6 (cstr "Copying system files to the disk...");;
    line 14 (cstr "Copying files: 0%");;
    ok ← deploy disk use_ahci;
    if ok : bool then
      line 18 (cstr "Setup completed successfully.");;
      line 20 (cstr "Remove the installation media and restart the computer.");;
      status (cstr "ENTER=Restart")
    else
      line 18 (cstr "Setup could not copy the installation media.");;
      line 20 (cstr "Check the source media and target disk capacity.");;
      status (cstr "ENTER=Exit")
  else
    line 18 (cstr "Setup could not format the selected disk.");;
    line 20 (cstr "Check the target disk and restart Setup.");;
    status (cstr "ENTER=Exit").

(** The disks Setup offers: IDE disks, or else SATA disks. *)
Definition find_disks : step setup (bool * Z) := fun s =>
  let count := Z.of_nat (Datatypes.length (ide_sizes s)) in
  if negb (count =? 0) then Go (false, count) s else
  match Ahci.AhciBootInitialize a identify (ahci_of s) with
  | Some (found, x) => Go (found, Ahci.AhciGetDiskCount x) (with_ahci s x)
  | None => Wrong
  end.

Definition welcome : step setup unit :=
  title (cstr "Welcome to Setup");;
  line 6 (cstr "This portion of Setup prepares discouNT for use on your computer.");;
  line 8 (cstr "ENTER  Continue");;
  line 9 (cstr "F3     Exit Setup");;
  status (cstr "ENTER=Continue   F3=Exit");;
  key ← wait_key;
  if (scancode key =? 61) || negb (ascii key =? 10) then exit_setup else
  title (cstr "Select the installation disk").

(** The disk and the format, confirmed. *)
Definition choose (use_ahci : bool) (count : Z) : step setup (Z * bool) :=
  if count =? 0 then
    line 7 (cstr "Setup did not find a supported ATA/SATA hard disk.");;
    status (cstr "F3=Exit");;
    n ← turns; wait_f3 n;; exit_setup
  else
  n ← turns; selected ← select_disk n 0 count use_ahci;
  title (cstr "Choose format type");;
  line 6 (cstr "Choose how the selected disk should be formatted.");;
  line 8 (cstr "> Fast format");;
  line 9 (cstr "  Slow format (zero the entire disk)");;
  line 11 (cstr "Fast format clears existing disk metadata.");;
  line 12 (cstr "Slow format may take a long time on large disks.");;
  status (cstr "UP/DOWN=Select   ENTER=Continue   F3=Exit");;
  n ← turns; slow ← select_format n false;
  title (cstr "Confirm installation");;
  line 6 (cstr "WARNING: All existing data on the selected disk will be overwritten.");;
  line 8 (cstr (if slow : bool then "Slow format and install discouNT?" else "Fast format and install discouNT?"));;
  line 10 (cstr "Press F10 to continue, or F3 to cancel.");;
  status (cstr "F10=Install   F3=Cancel");;
  n ← turns; confirm n;;
  mret (selected, slow).

Definition SetupRun : step setup unit :=
  welcome;;
  disks ← find_disks;
  let '(use_ahci, count) := disks in
  choice ← choose use_ahci count;
  let '(selected, slow) := choice in
  install selected use_ahci slow;;
  n ← turns; wait_enter n;; exit_setup.

End setup.

End Setup.
