(* ===== verification/SetupSpec.v ===== *)
(** * What Setup promises

    Nothing happens to the machine before F10 is pressed, but for the search for SATA disks
    where there is no IDE disk: [setup_needs_confirmation].  Whatever the medium holds and
    whatever the drivers answer, an installation asks for no write outside the chosen disk:
    [install_writes_inside]. *)

From stdpp Require Import base list numbers gmap strings.
From Stdlib Require Import ZArith Lia.
From S2P Require Import Prelude.
From S2P Require Import Util.
From S2P Require Import Pmm.
From S2P Require Import Vmm.
From S2P Require Import Mm.
From S2P Require Import Sim.
From S2P Require Import Ob.
From S2P Require Import Io.
From S2P Require Import Hw.
From S2P Require Import Input.
From S2P Require Import Fat32.
From S2P Require Import Ide.
From S2P Require Import Cdfs.
From S2P Require Import Paging.
From S2P Require Import Ahci.
From S2P Require Import AhciSpec.
From S2P Require Import Setup.
Import Util Ob Io Hw Keyboard Fat32 Cdfs Setup.

Module SetupSpec.

Lemma itoa_total n : 0 <= n < 2147483648 -> is_Some (itoa n 10).
Proof. intros Hn. unfold itoa. destruct (n =? 0); [by eexists|]. apply itoa_loop_total; cbn; lia. Qed.

(** ** Confirmation *)
Section safety.
Context {D H : Type} `{Bus D} `{KernelHeap H} (a : arch).
Context (dispatch : Z -> Z -> IO_REQUEST -> ob H (io D) -> option (Z * IO_REQUEST * ob H (io D))).
Context (run_unload : Z -> Z -> ob H (io D) -> option (ob H (io D))).
Context (stack identify : Z).
Implicit Types s : @setup D H.

(** F10 is not among the keys; the sizes of disks are 32-bit numbers. *)
Definition not_f10 (e : KEYBOARD_EVENT) : Prop := pressed e <> 0 -> scancode e <> 68.
Definition sizes_ok (l : list Z) : Prop := Forall is_u32 l /\ Z.of_nat (Datatypes.length l) < 2147483648.
Definition disk_state s : @sys D H * list Z * ahci_vars := (machine s, ide_sizes s, sata s).
Definition calm w s : Prop := disk_state s = w /\ Forall not_f10 (keys s) /\ sizes_ok (ide_sizes s) /\ AhciSpec.disks_ok (ahci_of s).

(** [f] touches nothing but the screen and the keys; it gives a value with [Q]. *)
Definition safe {A} (f : step (@setup D H) A) (Q : A -> Prop) : Prop :=
  forall m s, calm m s -> match f s with Go x s' => calm m s' /\ Q x | Stop s' => calm m s' | Wrong => False end.

Lemma calm_ret {A} (x : A) (Q : A -> Prop) : Q x -> safe (mret x) Q.
Proof. by intros HQ m s Hs. Qed.
Lemma calm_bind {A B} (f : step (@setup D H) A) (k : A -> step (@setup D H) B) (Q : A -> Prop) R :
  safe f Q -> (forall x, Q x -> safe (k x) R) -> safe (mbind k f) R.
Proof. intros Hf Hk m s Hs. specialize (Hf m s Hs). unfold mbind, step_bind. destruct (f s) as [x s'|s'|]; [|done..]. destruct Hf as [Hs' Hx]. by apply (Hk x Hx). Qed.
Lemma safe_then {A B} (f : step (@setup D H) A) (g : step (@setup D H) B) (Q : A -> Prop) R : safe f Q -> safe g R -> safe (f;; g) R.
Proof. intros Hf Hg. by apply (calm_bind _ _ Q). Qed.
Lemma safe_weaken {A} (f : step (@setup D H) A) (Q R : A -> Prop) : safe f Q -> (forall x, Q x -> R x) -> safe f R.
Proof. intros Hf HR m s Hs. specialize (Hf m s Hs). destruct (f s); [|done..]. destruct Hf. auto. Qed.
Lemma safe_stop {A} (Q : A -> Prop) : safe stop Q.
Proof. by intros m s Hs. Qed.
Lemma safe_put o : safe (put_out o) (fun _ => True).
Proof. by intros m s (? & ? & ?). Qed.
Lemma safe_number n : 0 <= n < 2147483648 -> safe (number n) (fun _ => True).
Proof. intros Hn m s Hs. unfold number. by destruct (itoa_total n Hn) as [t ->]. Qed.
Lemma safe_turns : safe turns (fun _ => True).
Proof. by intros m s Hs. Qed.

Lemma next_key_not_f10 l : Forall not_f10 l -> match next_key l with Some (e, l) => scancode e <> 68 /\ Forall not_f10 l | None => True end.
Proof. induction 1 as [|e l He Hl IH]; cbn [next_key]; [done|]. destruct (Z.eqb_spec (pressed e) 0) as [|Hp]; [done|]. split; [by apply He | done]. Qed.
Lemma safe_wait_key : safe wait_key (fun e => scancode e <> 68).
Proof.
  intros m s (Em & Hk & Hi & Ha). unfold wait_key. pose proof (next_key_not_f10 _ Hk) as Hn. destruct (next_key (keys s)) as [[e l]|].
  - by destruct Hn.
  - done.
Qed.

Lemma safe_line row text : safe (line row text) (fun _ => True).
Proof. apply safe_put. Qed.
Lemma safe_status text : safe (status text) (fun _ => True).
Proof. apply safe_put. Qed.
Lemma safe_title page : safe (title page) (fun _ => True).
Proof. unfold title. repeat (eapply safe_then; [apply safe_put|]). apply safe_put. Qed.
Lemma safe_exit {A} (Q : A -> Prop) : safe exit_setup Q.
Proof. unfold exit_setup. eapply safe_then; [apply safe_title|]. repeat (eapply safe_then; [apply safe_put|]). apply safe_stop. Qed.

(** Sequences of lines and keys. *)
Ltac safely :=
  repeat match goal with
  | |- safe (if ?b then _ else _) _ => destruct b
  | |- safe exit_setup _ => apply safe_exit
  | |- safe stop _ => apply safe_stop
  | |- safe (mret _) _ => apply calm_ret
  | |- safe (line _ _;; _) _ => eapply safe_then; [apply safe_line|]
  | |- safe (status _;; _) _ => eapply safe_then; [apply safe_status|]
  | |- safe (title _;; _) _ => eapply safe_then; [apply safe_title|]
  | |- safe (mbind _ wait_key) _ => eapply calm_bind; [apply safe_wait_key | let k := fresh "key" in intros k ?]
  | |- safe (mbind _ turns) _ => eapply calm_bind; [apply safe_turns | let t := fresh "t" in intros t _]
  end.

Lemma safe_wait_f3 n : safe (wait_f3 n) (fun _ => True).
Proof. induction n; cbn [wait_f3]; safely; done. Qed.

Lemma safe_size selected ahci : safe (fun s => number (target_sectors selected ahci s / 2048) s) (fun _ => True).
Proof.
  intros m s Hs. apply safe_number; [|done]. destruct Hs as (_ & _ & [Hi _] & [_ Ha]).
  assert (is_u32 (target_sectors selected ahci s)) as Hx; [|unfold is_u32 in Hx; zlia]. unfold target_sectors, Ahci.AhciGetDiskSectors, get. destruct ahci.
  - destruct (_ <? _); [|unfold is_u32; lia]. destruct (Ahci.disks _ !! _) as [x|] eqn:E; [|unfold is_u32; cbn; lia]. exact (Forall_lookup_1 _ _ _ _ Ha E).
  - destruct (ide_sizes s !! _) as [x|] eqn:E; [|unfold is_u32; cbn; lia]. exact (Forall_lookup_1 _ _ _ _ Hi E).
Qed.

Lemma safe_select_disk n selected count ahci : 0 <= selected < count -> count < 2147483648 -> safe (select_disk n selected count ahci) (fun _ => True).
Proof.
  intros Hs Hc. revert selected Hs. induction n as [|n IH]; intros selected Hs; cbn [select_disk]; [apply safe_stop|].
  eapply calm_bind; [apply safe_number; lia|]. intros i _. eapply calm_bind; [apply safe_size|]. intros size _. safely; [done|].
  apply IH. destruct (_ && _ && negb (selected =? 0)) eqn:E1; destruct (_ && _ && (_ + 1 <? count)) eqn:E2;
    rewrite ?andb_true_iff, ?negb_true_iff, ?Z.eqb_neq, ?Z.ltb_lt in *; lia.
Qed.

Lemma safe_select_format n slow : safe (select_format n slow) (fun _ => True).
Proof.
  revert slow. induction n as [|n IH]; intros slow; cbn [select_format]; [apply safe_stop|]. safely.
  eapply (safe_then _ _ (fun _ => True)); [|eapply (safe_then _ _ (fun _ => True)); [|safely; [done | apply IH]]]; safely; first [apply safe_line | exact I].
Qed.

(** No key but F10 confirms. *)
Lemma safe_confirm n : safe (confirm n) (fun _ => False).
Proof. induction n as [|n IH]; cbn [confirm]; [apply safe_stop|]. eapply calm_bind; [apply safe_wait_key|]. intros key Hkey. rewrite (proj2 (Z.eqb_neq (scancode key) 68)) by done. safely. done. Qed.

Lemma safe_welcome : safe welcome (fun _ => True).
Proof. unfold welcome. safely. apply safe_title. Qed.
Lemma safe_choose ahci count : 0 <= count < 2147483648 -> safe (choose ahci count) (fun _ => False).
Proof.
  intros Hc. unfold choose. destruct (Z.eqb_spec count 0).
  - safely. eapply safe_then; [apply safe_wait_f3 | apply safe_exit].
  - safely. eapply calm_bind; [apply safe_select_disk; lia|]. intros selected _. safely.
    eapply calm_bind; [apply safe_select_format|]. intros slow _. safely. eapply calm_bind; [apply safe_confirm | intros ? []].
Qed.

(** The search for SATA disks can be made. *)
Definition searchable s : Prop := AhciSpec.kernel_ok (kern (machine s)) /\ 0 <= driver_object_type (memory (kern (machine s))).

(** Finding disks: nothing changes if there is an IDE disk; else the search for SATA disks is all that happens. *)
Lemma find_disks_calm w s : calm w s -> (ide_sizes s = [] -> searchable s) ->
  exists ahci count s', find_disks a identify s = Go (ahci, count) s' /\ calm (disk_state s') s' /\ 0 <= count < 2147483648 /\ ide_sizes s' = ide_sizes s /\
    (s' = s \/ (ide_sizes s = [] /\ exists x, Ahci.AhciBootInitialize a identify (ahci_of s) = Some (ahci, x) /\ s' = with_ahci s x)).
Proof.
  intros Hs Hsearch. pose proof Hs as (Ew & Hk & [Hi Hil] & Ha). unfold find_disks.
  destruct (Z.eqb_spec (Z.of_nat (Datatypes.length (ide_sizes s))) 0) as [E|E]; cbn [negb].
  - assert (ide_sizes s = []) as E0 by (destruct (ide_sizes s); [done | cbn in E; lia]). destruct (Hsearch E0) as [Hkn Hty].
    destruct (AhciSpec.AhciBootInitialize_total a identify (ahci_of s) Hkn Hty Ha) as (found & x & Ex & _ & Hd). rewrite Ex.
    eexists found, _, _. split; [reflexivity|]. split; [|split; [unfold Ahci.AhciGetDiskCount; destruct Hd; lia | split; [done | right; split; [done | by exists x]]]].
    split; [done|]. split; [done|]. split; [by split|]. destruct x. exact Hd.
  - eexists false, _, s. split; [reflexivity|]. rewrite Ew. split; [done|]. split; [lia|]. split; [done | by left].
Qed.

(** C13. Setup does not touch the machine before F10 is pressed: whatever other keys come, in
    whatever order, it ends, or waits for another key, with memory, kernel and disks as they were if
    there is an IDE disk; if there is none, all that may have happened is the search for SATA disks
    that [AhciBootInitialize] makes, which ends. *)
Theorem setup_needs_confirmation (s : setup) :
  Forall not_f10 (keys s) -> sizes_ok (ide_sizes s) -> AhciSpec.disks_ok (ahci_of s) -> (ide_sizes s = [] -> searchable s) ->
  exists s', SetupRun a dispatch run_unload stack identify s = Stop s' /\
    (disk_state s' = disk_state s \/
     (ide_sizes s = [] /\ exists found x, Ahci.AhciBootInitialize a identify (ahci_of s) = Some (found, x) /\ disk_state s' = disk_state (with_ahci s x))).
Proof.
  intros Hk Hi Ha Hsearch. assert (Hs : calm (disk_state s) s) by done. unfold SetupRun, mbind, step_bind.
  pose proof (safe_welcome _ s Hs) as C1. destruct (welcome s) as [[] s1|s1|]; [|exists s1; split; [done|]; left; by destruct C1 | done].
  destruct C1 as [C1 _]. pose proof C1 as ([= Em Ei Ev] & _).
  assert (Ea : ahci_of s1 = ahci_of s) by (unfold ahci_of; by rewrite Em, Ev).
  destruct (find_disks_calm _ s1 C1) as (ahci & count & s2 & -> & C2 & Hc & _ & Hm); [unfold searchable; rewrite Ei, Em; exact Hsearch|].
  pose proof (safe_choose ahci count Hc _ s2 C2) as C3. destruct (choose ahci count s2) as [x s3|s3|]; [by destruct C3 | | done].
  exists s3. split; [done|]. destruct C3 as (-> & _). destruct Hm as [->|(E0 & x & Ex & ->)].
  - left. apply C1.
  - right. split; [congruence|]. exists ahci, x. split; [congruence|]. unfold disk_state, with_ahci. cbn. by rewrite Em, Ei.
Qed.

End safety.

(** ** Writes *)
Section inside.
Context {D H : Type} `{Bus D} `{KernelHeap H} (a : arch).
Context (dispatch : Z -> Z -> IO_REQUEST -> ob H (io D) -> option (Z * IO_REQUEST * ob H (io D))).
Context (run_unload : Z -> Z -> ob H (io D) -> option (ob H (io D))) (stack : Z).
Implicit Types s : @setup D H.

(** A write of whole sectors, from the buffer, in a disk of [size] sectors. *)
Definition inside (size : Z) (r : IO_REQUEST) : bool :=
  match parameters r with
  | read_write offset => (0 <=? offset) && (offset mod 512 =? 0) && (0 <? Io.length r) && (Io.length r mod 512 =? 0) &&
      (offset + Io.length r <=? size * 512) && (buffer r =? stack) && (Io.length r <=? 2048)
  | device_control _ _ _ => false
  end.

(** The driver, but that any other write is undefined. *)
Definition guarded (size : Z) (routine device : Z) (r : IO_REQUEST) (k : ob H (io D)) : option (Z * IO_REQUEST * ob H (io D)) :=
  if (major_function r =? Ide.IO_MJ_WRITE) && negb (inside size r) then None else dispatch routine device r k.

Context (size : Z).

Lemma guarded_call device r k : (major_function r =? Ide.IO_MJ_WRITE) && negb (inside size r) = false ->
  IoCallDriver (guarded size) device (Some r) k = IoCallDriver dispatch device (Some r) k.
Proof.
  intros Hr. unfold IoCallDriver. destruct (device =? 0); [done|]. destruct (devices (memory k) !! device) as [d|]; [|done]. cbn [mbind option_bind].
  destruct (_ || _); [done|]. destruct (drivers (memory k) !! driver d) as [drv|]; [|done]. cbn [mbind option_bind].
  assert (E : forall f x i, guarded size f device (with_status r x i) k = dispatch f device (with_status r x i) k).
  { intros f x i. unfold guarded. by replace (inside size (with_status r x i)) with (inside size r) by done; change (major_function (with_status r x i)) with (major_function r); rewrite Hr. }
  assert (E' : forall f, guarded size f device r k = dispatch f device r k) by (intros f; unfold guarded; by rewrite Hr).
  by rewrite E, E'.
Qed.

Lemma guarded_read lba p m : CdfsReadSector a (guarded size) lba p m = CdfsReadSector a dispatch lba p m.
Proof. unfold CdfsReadSector, usb_read_iso_sector. by rewrite guarded_call. Qed.

Lemma guarded_write disk ahci offset n m : 0 <= offset -> offset mod 512 = 0 -> 0 < n <= 2048 -> n mod 512 = 0 -> offset + n <= size * 512 ->
  write_target (guarded size) run_unload disk ahci offset stack n m = write_target dispatch run_unload disk ahci offset stack n m.
Proof.
  intros Ho Hoa Hn Hna Hin. unfold write_target. destruct (IoGetDevice _ _) as [[device k]|]; [|done]. cbn [mbind option_bind]. destruct (device =? 0); [done|].
  rewrite guarded_call; [done|]. unfold inside. cbn [parameters major_function Io.length buffer].
  rewrite (proj2 (Z.leb_le 0 offset)), Hoa, (proj2 (Z.ltb_lt 0 n)), Hna, (proj2 (Z.leb_le _ (size * 512))), !Z.eqb_refl, (proj2 (Z.leb_le n 2048)) by lia. done.
Qed.

(** Steps that leave the sizes of the disks alone. *)
Definition keeps_sizes {A} (f : step (@setup D H) A) : Prop :=
  forall disk ahci s, match f s with Go _ s' => target_sectors disk ahci s' = target_sectors disk ahci s | _ => True end.

Lemma install_keeps_ret {A} (x : A) : keeps_sizes (mret x).
Proof. by intros disk ahci s. Qed.
Lemma install_keeps_bind {A B} (f : step (@setup D H) A) (k : A -> step (@setup D H) B) : keeps_sizes f -> (forall x, keeps_sizes (k x)) -> keeps_sizes (mbind k f).
Proof.
  intros Hf Hk disk ahci s. specialize (Hf disk ahci s). unfold mbind, step_bind. destruct (f s) as [x s1|s1|]; [|done..].
  specialize (Hk x disk ahci s1). destruct (k x s1); [by rewrite Hk | done..].
Qed.
Lemma keeps_out o : keeps_sizes (put_out o).
Proof. by intros disk ahci s. Qed.
Lemma keeps_machine {A} (f : @sys D H -> option (A * @sys D H)) : keeps_sizes (on_machine f).
Proof. intros disk ahci s. unfold on_machine. by destruct (f (machine s)) as [[x m]|]. Qed.
Lemma keeps_progress text done_ total : keeps_sizes (progress text done_ total).
Proof. unfold progress. apply install_keeps_bind; [|intros n; apply keeps_out]. intros disk ahci s. unfold number. by destruct (itoa _ _). Qed.

Lemma keeps_zero n : forall k sectors disk ahci, keeps_sizes (zero_batches (guarded size) run_unload stack n k sectors disk ahci).
Proof.
  induction n as [|n IH]; intros k sectors disk ahci; cbn [zero_batches]; (destruct (_ <=? _); [apply install_keeps_ret|]); [by intros ? ? ?|].
  apply install_keeps_bind; [apply keeps_machine|]. intros ok. destruct (negb ok); [apply install_keeps_ret|]. apply install_keeps_bind; [|intros _; apply IH].
  destruct (_ || _); [apply keeps_progress | apply install_keeps_ret].
Qed.

(** Step by step the guard makes no difference. *)
Lemma same_bind {A B} (f g : step (@setup D H) A) (k l : A -> step (@setup D H) B) s :
  f s = g s -> (forall x s', g s = Go x s' -> k x s' = l x s') -> mbind k f s = mbind l g s.
Proof. intros E Hk. unfold mbind, step_bind. rewrite E. destruct (g s) as [x s'|s'|] eqn:Eg; [by apply Hk | done..]. Qed.

Lemma guarded_on_machine {A} (f g : @sys D H -> option (A * @sys D H)) s : f (machine s) = g (machine s) -> on_machine f s = on_machine g s.
Proof. intros E. unfold on_machine. by rewrite E. Qed.

Lemma guarded_copy n : forall current total disk ahci s, 0 <= current -> (n = 0%nat \/ current + Z.of_nat n = total) -> total * 4 <= size ->
  copy_medium a (guarded size) run_unload stack n current total disk ahci s = copy_medium a dispatch run_unload stack n current total disk ahci s.
Proof.
  induction n as [|n IH]; intros current total disk ahci s Hc Hn Hsz; cbn [copy_medium]; [done|].
  apply same_bind; [apply guarded_on_machine, guarded_read|]. intros ok s1 _. destruct (negb ok); [done|]. unfold ISO_SECTOR_SIZE.
  apply same_bind; [apply guarded_on_machine, guarded_write; zlia|]. intros ok2 s2 _. destruct (negb ok2); [done|].
  apply same_bind; [done|]. intros _ s3 _. apply IH; [lia | lia | done].
Qed.

Lemma guarded_zero n : forall k sectors disk ahci s, 0 <= k -> sectors <= size ->
  zero_batches (guarded size) run_unload stack n k sectors disk ahci s = zero_batches dispatch run_unload stack n k sectors disk ahci s.
Proof.
  induction n as [|n IH]; intros k sectors disk ahci s Hk Hsz; cbn [zero_batches]; destruct (Z.leb_spec sectors k); try done.
  set (batch := if 4 <? sectors - k then 4 else sectors - k). assert (Hb : 1 <= batch <= 4 /\ k + batch <= sectors) by (unfold batch; destruct (Z.ltb_spec 4 (sectors - k)); lia).
  apply same_bind; [apply guarded_on_machine, guarded_write; zlia|]. intros ok s1 _. destruct (negb ok); [done|].
  apply same_bind; [done|]. intros _ s2 _. apply IH; lia.
Qed.

Lemma guarded_format disk ahci slow s : target_sectors disk ahci s = size ->
  format_disk (guarded size) run_unload stack disk ahci slow s = format_disk dispatch run_unload stack disk ahci slow s /\ keeps_sizes (format_disk (guarded size) run_unload stack disk ahci slow).
Proof.
  intros Es. split.
  - unfold format_disk. rewrite Es. set (n := if slow then size else _). assert (n <= size) by (unfold n; destruct slow; [lia|]; destruct (Z.ltb_spec 2048 size); lia).
    destruct (n =? 0); [done|]. by apply guarded_zero.
  - intros d u s0. unfold format_disk. destruct (_ =? 0); [done|]. match goal with |- match zero_batches _ _ _ ?n ?k ?m ?x ?y ?t with _ => _ end => exact (keeps_zero n k m x y d u t) end.
Qed.

Lemma guarded_deploy disk ahci s : target_sectors disk ahci s = size -> deploy a (guarded size) run_unload stack disk ahci s = deploy a dispatch run_unload stack disk ahci s.
Proof.
  intros Es. unfold deploy. rewrite Es. apply same_bind; [apply guarded_on_machine, guarded_read|]. intros ok s1 _. destruct (negb ok); [done|].
  apply same_bind; [done|]. intros sector s2 _. destruct (negb _); [done|]. destruct (Z.ltb_spec size (le32 sector 80 * 4)); [by rewrite orb_true_r|].
  destruct (_ || _); [done|]. apply guarded_copy; lia.
Qed.

(** A step common to both. *)
Lemma same_keeping {A B} (f : step (@setup D H) A) (k l : A -> step (@setup D H) B) disk ahci n s :
  keeps_sizes f -> target_sectors disk ahci s = n -> (forall x s', target_sectors disk ahci s' = n -> k x s' = l x s') -> mbind k f s = mbind l f s.
Proof. intros Hf Es Hk. apply same_bind; [done|]. intros x s' Ef. apply Hk. specialize (Hf disk ahci s). rewrite Ef in Hf. by rewrite Hf. Qed.
Lemma keeps_title page : keeps_sizes (title page).
Proof. unfold title. repeat (apply install_keeps_bind; [apply keeps_out | intros _]). apply keeps_out. Qed.

End inside.

(** C12. An installation asks for no write outside the disk it was told to use: whatever the
    medium holds, whatever the drivers of the medium and of the disk answer and do, every write
    request of formatting and copying has whole sectors, from the buffer on the stack, between the
    start and the end of the disk.  (With the driver that is undefined for any other write, the installation goes exactly the same way.) *)
Theorem install_writes_inside {D H : Type} `{Bus D} `{KernelHeap H} (a : arch)
    (dispatch : Z -> Z -> IO_REQUEST -> ob H (io D) -> option (Z * IO_REQUEST * ob H (io D)))
    (run_unload : Z -> Z -> ob H (io D) -> option (ob H (io D))) (stack disk : Z) (ahci slow : bool) (s : setup) :
  install a (guarded dispatch stack (target_sectors disk ahci s)) run_unload stack disk ahci slow s
  = install a dispatch run_unload stack disk ahci slow s.
Proof.
  unfold install. set (size := target_sectors disk ahci s). assert (Es : target_sectors disk ahci s = size) by done. clearbody size.
  eapply same_keeping; [apply keeps_title | exact Es | clear s Es; intros _ s Es].
  do 2 (eapply same_keeping; [apply keeps_out | exact Es | clear s Es; intros _ s Es]).
  destruct (guarded_format dispatch run_unload stack size disk ahci slow s Es) as [Ef Kf].
  apply same_bind; [done|]. intros ok s2 Es2. specialize (Kf disk ahci s). rewrite Ef, Es2, Es in Kf. destruct ok; [|done].
  clear Es2. do 2 (eapply same_keeping; [apply keeps_out | exact Kf | clear Kf; intros _ ? Kf]). apply same_bind; [by apply guarded_deploy | done].
Qed.

(** ** Witnesses *)

(** A machine with nothing on its bus, its kernel just started. *)
#[local] Instance silent_bus : Bus unit := {|
  port_in := fun _ _ d => (0, d); port_out := fun _ _ _ d => (tt, d); mmio_load := fun _ _ d => (0, d); mmio_store := fun _ _ _ d => (tt, d) |}.
Definition booted : ob fresh (io unit) := IoInit (ObInit (mkOb [] 0 [] 0 ∅ fresh_start (mkIo ∅ ∅ (fun _ => 0) 0 0 0 tt))).

(** Enter for the welcome, the disk and the format, then a key that is not F10. *)
Definition enter : KEYBOARD_EVENT := mkEvent 28 10 1 0 0 0 0.
Definition hesitant : list KEYBOARD_EVENT := [enter; enter; enter; mkEvent 44 122 1 0 0 0 0].
Definition at_boot (sizes : list Z) : @setup unit fresh :=
  mkSetup (mkSys booted (mkCdfs true true 0 368 false [] 0 false)) sizes (mkVars Paging.empty_mmu 0 [] 0) hesitant [].

Lemma at_boot_searchable sizes : searchable (at_boot sizes).
Proof.
  assert (object_type_count booted = 3 /\ device_object_type (memory booted) = 2 /\ driver_object_type (memory booted) = 1) as (E1 & E2 & E3) by (vm_compute; auto).
  split; [split|].
  - apply (IoInit_inv (H := fresh)), ObInit_inv. exact fresh_start_ok.
  - cbn [at_boot machine kern]. unfold registered. rewrite E1, E2. lia.
  - cbn [at_boot machine kern]. rewrite E3. lia.
Qed.

Lemma setup_needs_confirmation_witness :
  (exists s', SetupRun X86 (Ide.run_ide X86) (fun _ _ k => Some k) 4096 8192 (at_boot [96]) = Stop s' /\ machine s' = machine (at_boot [96])) /\
  (exists s', SetupRun X86 (Ide.run_ide X86) (fun _ _ k => Some k) 4096 8192 (at_boot []) = Stop s').
Proof.
  assert (Hk : forall sizes, Forall not_f10 (keys (at_boot sizes))) by (intros; repeat constructor; unfold not_f10; cbn; lia).
  assert (Ha : forall sizes, AhciSpec.disks_ok (ahci_of (at_boot sizes))) by (intros; split; [cbn; lia | constructor]).
  split.
  - destruct (setup_needs_confirmation X86 (Ide.run_ide X86) (fun _ _ k => Some k) 4096 8192 (at_boot [96])) as (s' & E & [Hm|[Hm _]]); [done| |done|done| |discriminate Hm].
    + split; [repeat constructor; lia | cbn; lia].
    + exists s'. split; [exact E|]. by injection Hm.
  - destruct (setup_needs_confirmation X86 (Ide.run_ide X86) (fun _ _ k => Some k) 4096 8192 (at_boot [])) as (s' & E & _); [done| |done| |by exists s'].
    + split; [constructor | cbn; lia].
    + intros _. apply at_boot_searchable.
Defined.

End SetupSpec.
