(* ===== verification/Ttf.v ===== *)
(** * drivers/fb/ttf.c: the font rasteriser

    TrueType tables, the character map, simple and composite outlines, and their
    rendering into cells of 8 by 12 pixels with 4 by 4 samples each.  [data] is the block the
    file was read into; reading outside it, or an array past what was stored there, and an
    [int32_t] that overflows are undefined ([None]).  Pointers into the file are offsets. *)

From stdpp Require Import base list numbers gmap strings.
From Stdlib Require Import ZArith Lia.
From S2P Require Import Prelude.
From S2P Require Import Util.
Import Util.

Module Ttf.

Record TTF := mkTtf {
  data : list Z; size : Z;
  cmap : Z; glyf : Z; loca : Z; head : Z; hhea : Z; hmtx : Z;
  glyph_count : Z; hmetrics : Z; loca_format : Z; units_per_em : Z; ascender : Z; descender : Z; ready : bool
}.
Definition no_font : TTF := mkTtf [] 0 0 0 0 0 0 0 0 0 0 0 0 0 false.

Definition s16 (x : Z) : Z := (x + 32768) mod 65536 - 32768.
Definition i32 (x : Z) : option Z := if (-2147483648 <=? x) && (x <=? 2147483647) then Some x else None.

(** [while (v) { v &= v - 1; n++; }]: each turn clears a bit. *)
Fixpoint popcount_loop (fuel : nat) (v n : Z) : Z :=
  match fuel with O => n | S f => if v =? 0 then n else popcount_loop f (Z.land v (v - 1)) (n + 1) end.
Definition popcount16 (v : Z) : Z := popcount_loop 16 v 0.

(** ** Reading the file *)
Section font.
Context (ttf : TTF).

Definition rd8 (o : Z) : option Z := if 0 <=? o then data ttf !! Z.to_nat o else None.
Definition rd16 (o : Z) : option Z := a ← rd8 o; b ← rd8 (o + 1); Some (256 * a + b).
Definition rds16 (o : Z) : option Z := s16 <$> rd16 o.
Definition rd32 (o : Z) : option Z := a ← rd16 o; b ← rd16 (o + 2); Some (65536 * a + b).

Definition range_ok (off len : Z) : bool := (off <=? size ttf) && (len <=? size ttf - off).

Fixpoint find_table (n : nat) (i tag : Z) : option Z :=
  match n with
  | O => Some 0
  | S n =>
      let r := 12 + i * 16 in
      t ← rd32 r;
      if negb (t =? tag) then find_table n (i + 1) tag else
      off ← rd32 (r + 8); len ← rd32 (r + 12);
      Some (if range_ok off len then off else 0)
  end.
Definition table (tag : Z) : option Z :=
  if size ttf <? 12 then Some 0 else
  count ← rd16 4;
  if negb (range_ok 12 (count * 16)) then Some 0 else find_table (Z.to_nat count) 0 tag.

(** ** The character map *)

(** The segments of a format 4 table; [Some None] when none holds [ch]. *)
Fixpoint find_segment (n : nat) (j sub seg_count ch : Z) : option (option Z) :=
  match n with
  | O => Some None
  | S n =>
      let ends := sub + 14 in
      let starts := sub + 16 + seg_count * 2 in
      let deltas := starts + seg_count * 2 in
      let ranges := deltas + seg_count * 2 in
      start ← rd16 (starts + j * 2);
      end_ ← rd16 (ends + j * 2);
      if (ch <? start) || (end_ <? ch) then find_segment n (j + 1) sub seg_count ch else
      r ← rd16 (ranges + j * 2);
      if r =? 0 then
        delta ← rds16 (deltas + j * 2);
        let g := ch + delta in Some (Some (if (0 <=? g) && (g <? glyph_count ttf) then g else 0))
      else
        let at_ := u32 (ranges + j * 2 + r + (ch - start) * 2) in
        if negb (range_ok at_ 2) then Some (Some 0) else
        g ← rd16 at_;
        g ← (if g =? 0 then Some 0 else delta ← rds16 (deltas + j * 2); Some (g + delta));
        Some (Some (if (0 <=? g) && (g <? glyph_count ttf) then g else 0))
  end.

Definition wanted_map (pass platform encoding : Z) : bool :=
  ((pass =? 0) && (platform =? 3) && (encoding =? 1)) || ((pass =? 1) && (platform =? 3) && (encoding =? 0)) || ((pass =? 2) && (platform =? 0)).

Fixpoint find_encoding (n : nat) (i pass ch : Z) : option (option Z) :=
  match n with
  | O => Some None
  | S n =>
      let record := cmap ttf + 4 + i * 8 in
      platform ← rd16 record; encoding ← rd16 (record + 2); off ← rd32 (record + 4);
      if negb (wanted_map pass platform encoding) then find_encoding n (i + 1) pass ch else
      if (size ttf - cmap ttf <? off) || negb (range_ok (cmap ttf + off) 16) then find_encoding n (i + 1) pass ch else
      let sub := cmap ttf + off in
      format ← rd16 sub;
      if negb (format =? 4) then find_encoding n (i + 1) pass ch else
      double ← rd16 (sub + 6);
      let seg_count := double / 2 in
      if (seg_count =? 0) || (size ttf - sub <? 16 + seg_count * 8) then find_encoding n (i + 1) pass ch else
      r ← find_segment (Z.to_nat seg_count) 0 sub seg_count ch;
      match r with Some g => Some (Some g) | None => find_encoding n (i + 1) pass ch end
  end.

Fixpoint find_map (n : nat) (pass records ch : Z) : option Z :=
  match n with
  | O => Some 0
  | S n => r ← find_encoding (Z.to_nat records) 0 pass ch; match r with Some g => Some g | None => find_map n (pass + 1) records ch end
  end.

Definition glyph_for (ch : Z) : option Z :=
  if cmap ttf =? 0 then Some 0 else
  if negb (range_ok (cmap ttf) 4) then Some 0 else
  records ← rd16 (cmap ttf + 2);
  if negb (range_ok (cmap ttf + 4) (records * 8)) then Some 0 else find_map 3 0 records ch.

Definition glyph_offset (glyph : Z) : option Z :=
  if (loca ttf =? 0) || (glyph_count ttf <? glyph) then Some 0 else
  let long := negb (loca_format ttf =? 0) in
  let at_ := u32 (loca ttf + (if long then glyph * 4 else glyph * 2)) in
  if negb (range_ok at_ (if long then 4 else 2)) then Some 0 else
  off ← (if long then rd32 at_ else x ← rd16 at_; Some (x * 2));
  Some (if off <=? size ttf - glyf ttf then off else 0).

End font.

(** ** Outlines *)

(** Points of a polygon, at most 1024. *)
Definition add_point (out : list (Z * Z)) (p : Z * Z) : list (Z * Z) := if (1024 <=? length out)%nat then out else out ++ [p].

Definition at_index {A} (l : list A) (i : Z) : option A := if 0 <=? i then l !! Z.to_nat i else None.
Definition half (a b : Z) : option Z := s ← i32 (a + b); Some (Z.quot s 2).
Definition middle (p q : Z * Z) : option (Z * Z) := x ← half (fst p) (fst q); y ← half (snd p) (snd q); Some (x, y).

(** A coordinate of a quadratic curve at [t] of 256. *)
Definition curve (t c s e : Z) : option Z :=
  let a := 256 - t in
  u ← i32 (a * a * c); v ← i32 (2 * a * t * s); w ← i32 (u + v); x ← i32 (t * t * e); y ← i32 (w + x); Some (Z.quot y 65536).

Section outline.
Context (pts : list (Z * Z)) (flags : list Z).

Definition on_curve (i : Z) : option bool := f ← at_index flags i; Some (negb (Z.land f 1 =? 0)).

Fixpoint curve_steps (l : list Z) (c s e : Z * Z) (out : list (Z * Z)) : option (list (Z * Z)) :=
  match l with
  | [] => Some out
  | step :: l =>
      x ← curve (step * 256 / 4) (fst c) (fst s) (fst e); y ← curve (step * 256 / 4) (snd c) (snd s) (snd e);
      curve_steps l c s e (add_point out (x, y))
  end.

(** The loop over the points of a contour; [c] is where the pen is. *)
Fixpoint flatten_loop (k : nat) (i n begin : Z) (c : Z * Z) (out : list (Z * Z)) : option (list (Z * Z)) :=
  match k with
  | O => Some out
  | S k =>
      let at_ := begin + i in
      let next := if i + 1 <? n then at_ + 1 else begin in
      let next2 := if i + 2 <? n then at_ + 2 else begin + (i + 2 - n) in
      here ← on_curve at_; p ← at_index pts at_;
      if here : bool then flatten_loop k (i + 1) n begin p (add_point out p) else
      q ← at_index pts next; on ← on_curve next;
      e ← (if on : bool then Some q else q2 ← at_index pts next2; middle q q2);
      out ← curve_steps [1; 2; 3; 4] c p e out;
      flatten_loop k (i + 1) n begin e out
  end.

Definition flatten (begin end_ : Z) : option (list (Z * Z)) :=
  let n := end_ - begin + 1 in
  if n <? 1 then Some [] else
  first ← on_curve begin; last ← on_curve end_; p ← at_index pts begin; q ← at_index pts end_;
  c ← (if first : bool then Some p else if last : bool then Some q else middle p q);
  flatten_loop (Z.to_nat n) 0 n begin c (add_point [] c).

End outline.

(** Whether the ray from a point crosses the edge from [p] to [q]. *)
Definition crosses (sx sy : Z) (p q : Z * Z) : option bool :=
  if bool_decide ((sy <? snd p) = (sy <? snd q)) then Some false else
  dx ← i32 (fst q - fst p); dy ← i32 (sy - snd p); prod ← i32 (dx * dy);
  at_ ← i32 (Z.quot prod (snd q - snd p) + fst p); Some (sx <? at_).
Fixpoint inside_loop (sx sy : Z) (l : list (Z * Z)) (last : Z * Z) (result : bool) : option bool :=
  match l with
  | [] => Some result
  | p :: l => b ← crosses sx sy p last; inside_loop sx sy l p (xorb result b)
  end.
Definition inside (sx sy : Z) (poly : list (Z * Z)) : option bool :=
  match list.last poly with None => Some false | Some q => inside_loop sx sy poly q false end.

(** ** Coverage: [sub_cover[sx][sy]] is entry [12 * sx + sy] *)
Definition cover : Type := list Z.
Definition no_cover : cover := replicate 96 0.

Section render.
Context (ttf : TTF).

(** The flags; a repeated flag stands once and a count follows it. *)
Fixpoint read_flags (fuel : nat) (p limit points : Z) (acc : list Z) : option (option (list Z * Z)) :=
  if points <=? Z.of_nat (length acc) then Some (Some (acc, p)) else
  match fuel with
  | O => None
  | S fuel =>
      if limit <=? p then Some None else
      f ← rd8 ttf p;
      if Z.land f 8 =? 0 then read_flags fuel (p + 1) limit points (acc ++ [f]) else
      n ← rd8 ttf (p + 1);
      read_flags fuel (p + 2) limit points (take (Z.to_nat points) (acc ++ [f] ++ replicate (Z.to_nat n) f))
  end.

(** One of the two coordinates of every point: [short] and [same] are its bits of the flags. *)
Fixpoint read_coordinates (flags : list Z) (short same p limit prev : Z) : option (option (list Z * Z)) :=
  match flags with
  | [] => Some (Some ([], p))
  | f :: flags =>
      let is_same := negb (Z.land f same =? 0) in
      r ← (if negb (Z.land f short =? 0) then b ← rd8 ttf p; Some (Some ((if is_same then b else - b), p + 1))
           else if is_same then Some (Some (0, p))
           else if limit <? p + 2 then Some None
           else d ← rds16 ttf p; Some (Some (d, p + 2)));
      match r with
      | None => Some None
      | Some (d, p) =>
          rest ← read_coordinates flags short same p limit (prev + d);
          Some (match rest with Some (l, p) => Some (prev + d :: l, p) | None => None end)
      end
  end.

Fixpoint read_ends (n : nat) (p : Z) : option (list Z) :=
  match n with O => Some [] | S n => e ← rd16 ttf p; l ← read_ends n (p + 2); Some (e :: l) end.

Definition em : Z := if units_per_em ttf =? 0 then 2048 else units_per_em ttf.

Definition glyph_advance (glyph : Z) : option Z :=
  if (hmtx ttf =? 0) || (hmetrics ttf =? 0) then Some em else
  let metric := if glyph <? hmetrics ttf then glyph else hmetrics ttf - 1 in
  let at_ := u32 (hmtx ttf + metric * 4) in
  if negb (range_ok ttf at_ 2) then Some em else
  a ← rd16 ttf at_; Some (if a =? 0 then em else a).

(** Sample [k] of the 16 of a pixel, in the font's coordinates. *)
Definition sample_at (advance top bottom sx sy k : Z) : option (Z * Z) :=
  let cell_x := (sx * 4 + k mod 4) * em / 32 in
  let cell_y := (sy * 4 + k / 4) * em / 48 in
  ax ← i32 (cell_x * advance); ay ← i32 (cell_y * (top - bottom));
  Some (Z.quot ax em, top - Z.quot ay em).

Fixpoint pixel_mask (n : nat) (k : Z) (poly : list (Z * Z)) (advance top bottom sx sy : Z) (mask : Z) : option Z :=
  match n with
  | O => Some mask
  | S n =>
      s ← sample_at advance top bottom sx sy k; b ← inside (fst s) (snd s) poly;
      pixel_mask n (k + 1) poly advance top bottom sx sy (if b : bool then Z.lor mask (Z.shiftl 1 k) else mask)
  end.

(** The 96 pixels, [i] on: [i = 12 * sx + sy]. *)
Fixpoint xor_polygon (n : nat) (i : Z) (poly : list (Z * Z)) (advance top bottom : Z) (c : cover) : option cover :=
  match n with
  | O => Some c
  | S n =>
      mask ← pixel_mask 16 0 poly advance top bottom (i / 12) (i mod 12) 0;
      xor_polygon n (i + 1) poly advance top bottom (put c i (Z.lxor (get 0 c i) mask))
  end.

Fixpoint draw_contours (ends : list Z) (begin : Z) (pts : list (Z * Z)) (flags : list Z) (advance top bottom : Z) (c : cover) : option cover :=
  match ends with
  | [] => Some c
  | e :: ends =>
      poly ← flatten pts flags begin e;
      c ← (if (length poly <? 3)%nat then Some c else xor_polygon 96 0 poly advance top bottom c);
      draw_contours ends (u16 (e + 1)) pts flags advance top bottom c
  end.

(** What is read of a simple glyph: its contours, points and flags, the lowest and highest ordinate. *)
Record outline := mkOutline { o_ends : list Z; o_points : list (Z * Z); o_flags : list Z; o_ymin : Z; o_ymax : Z }.

Definition read_outline (glyph : Z) : option (option outline) :=
  off ← glyph_offset ttf glyph; next ← glyph_offset ttf (u16 (glyph + 1));
  if glyf ttf =? 0 then Some None else
  if (next <=? off) || (size ttf - glyf ttf <? next) then Some None else
  let p := glyf ttf + off in
  let limit := glyf ttf + next in
  if limit <? p + 10 then Some None else
  contours ← rds16 ttf p; ymin ← rds16 ttf (p + 4); ymax ← rds16 ttf (p + 8);
  if (contours <=? 0) || (64 <? contours) then Some None else
  let p := p + 10 in
  if limit <? p + contours * 2 + 2 then Some None else
  ends ← read_ends (Z.to_nat contours) p;
  let points := u16 (get 0 ends (contours - 1) + 1) in
  if (points =? 0) || (256 <? points) then Some None else
  let p := p + contours * 2 in
  il ← rd16 ttf p;
  let p := p + 2 in
  if limit <? p + il then Some None else
  f ← read_flags (Z.to_nat points) (p + il) limit points [];
  match f with None => Some None | Some (flags, p) =>
  xs ← read_coordinates flags 2 16 p limit 0;
  match xs with None => Some None | Some (xs, p) =>
  ys ← read_coordinates flags 4 32 p limit 0;
  match ys with None => Some None | Some (ys, _) =>
  Some (Some (mkOutline ends (zip xs ys) flags ymin ymax))
  end end end.

Definition render_simple_outline (glyph : Z) (c : cover) : option (bool * cover) :=
  o ← read_outline glyph;
  match o with
  | None => Some (false, c)
  | Some o =>
      let '(top, bottom) := if ascender ttf <=? descender ttf then (o_ymax o, o_ymin o) else (ascender ttf, descender ttf) in
      advance ← glyph_advance glyph;
      c ← draw_contours (o_ends o) 0 (o_points o) (o_flags o) advance top bottom c;
      Some (true, c)
  end.

(** ** Composite glyphs *)

(** A component: its glyph, its offset and its matrix in 2.14 fixed point. *)
Record component := mkComponent { c_glyph : Z; c_dx : Z; c_dy : Z; m00 : Z; m01 : Z; m10 : Z; m11 : Z }.
Definition s8_at (p : Z) : option Z := s8 <$> rd8 ttf p.

(** The matrix after the arguments; [Some None] when the glyph ends there. *)
Definition read_matrix (flags p limit : Z) : option (option (Z * Z * Z * Z * Z)) :=
  if negb (Z.land flags 8 =? 0) then
    if limit <? p + 2 then Some None else a ← rds16 ttf p; Some (Some (a, 0, 0, a, p + 2))
  else if negb (Z.land flags 64 =? 0) then
    if limit <? p + 4 then Some None else a ← rds16 ttf p; d ← rds16 ttf (p + 2); Some (Some (a, 0, 0, d, p + 4))
  else if negb (Z.land flags 128 =? 0) then
    if limit <? p + 8 then Some None else
    a ← rds16 ttf p; b ← rds16 ttf (p + 2); c ← rds16 ttf (p + 4); d ← rds16 ttf (p + 6); Some (Some (a, b, c, d, p + 8))
  else Some (Some (16384, 0, 0, 16384, p)).

(** A component, whether more follow, and where. *)
Definition read_component (p limit : Z) : option (option (component * bool * Z)) :=
  if limit <? p + 4 then Some None else
  flags ← rd16 ttf p; glyph ← rd16 ttf (p + 2);
  let words := negb (Z.land flags 1 =? 0) in
  let p := p + 4 in
  if limit <? p + (if words then 4 else 2) then Some None else
  arg1 ← (if words then rds16 ttf p else s8_at p);
  arg2 ← (if words then rds16 ttf (p + 2) else s8_at (p + 1));
  let p := p + (if words then 4 else 2) in
  let xy := negb (Z.land flags 2 =? 0) in
  m ← read_matrix flags p limit;
  match m with
  | None => Some None
  | Some (a, b, c, d, p) => Some (Some (mkComponent glyph (if xy then arg1 else 0) (if xy then arg2 else 0) a b c d, negb (Z.land flags 32 =? 0), p))
  end.

(** Where pixel [(sx, sy)] of a component goes. *)
Definition component_pixel (k : component) (sx sy : Z) : Z * Z :=
  let px_shift := Z.quot (c_dx k * 8) em in
  let py_shift := Z.quot (- (c_dy k * 12)) em in
  let cx := sx * 2 - 7 in
  let cy := sy * 2 - 11 in
  (4 + Z.quot (m00 k * cx + m01 k * cy) 32768 + px_shift, 6 + Z.quot (m10 k * cx + m11 k * cy) 32768 + py_shift).

(** The pixels of [temp] are put into the cover, row by row; [j = 8 * sy + sx]. *)
Definition place_component (k : component) (temp : cover) (c : cover) : cover :=
  for_range 0 96 (fun j c =>
    let '(tsx, tsy) := component_pixel k (j mod 8) (j / 8) in
    if (0 <=? tsx) && (tsx <? 8) && (0 <=? tsy) && (tsy <? 12)
    then put c (12 * tsx + tsy) (Z.lxor (get 0 c (12 * tsx + tsy)) (get 0 temp (12 * (j mod 8) + j / 8))) else c) c.

(** The loop over the components; each takes six bytes at least. *)
Fixpoint draw_components (fuel : nat) (p limit : Z) (c : cover) : option (bool * cover) :=
  match fuel with
  | O => None
  | S fuel =>
      r ← read_component p limit;
      match r with
      | None => Some (false, c)
      | Some (k, more, p) =>
          '(_, temp) ← render_simple_outline (c_glyph k) no_cover;
          let c := place_component k temp c in
          if more : bool then draw_components fuel p limit c else Some (true, c)
      end
  end.

Definition render_composite_outline (glyph : Z) (c : cover) : option (bool * cover) :=
  off ← glyph_offset ttf glyph; next ← glyph_offset ttf (u16 (glyph + 1));
  if glyf ttf =? 0 then Some (false, c) else
  if (next =? 0) || (next <=? off) then Some (false, c) else
  if size ttf <? u32 (glyf ttf + next) then Some (false, c) else
  let p := glyf ttf + off in
  let limit := glyf ttf + next in
  if limit <? p + 10 then Some (false, c) else
  contours ← rds16 ttf p;
  if 0 <=? contours then Some (false, c) else
  draw_components (Z.to_nat (limit - p)) (p + 10) limit c.

(** ** A glyph's rows *)
Definition row_of (c : cover) (sy : Z) : Z :=
  for_range 0 8 (fun sx row => if 2 <=? popcount16 (get 0 c (12 * sx + sy)) then Z.lor row (Z.shiftr 128 sx) else row) 0.

(** [None] inside: the glyph cannot be drawn. *)
Definition render (glyph : Z) : option (option (list Z)) :=
  off ← glyph_offset ttf glyph; next ← glyph_offset ttf (u16 (glyph + 1));
  if (glyf ttf =? 0) || (next =? 0) || (next <=? off) || (size ttf <? u32 (glyf ttf + next)) then Some None else
  let p := glyf ttf + off in
  if glyf ttf + next <? p + 10 then Some None else
  contours ← rds16 ttf p;
  '(ok, c) ← (if 0 <=? contours then render_simple_outline glyph no_cover else render_composite_outline glyph no_cover);
  Some (if ok : bool then Some (map (row_of c) (seqZ 0 12)) else None).

(** The rows start at zero; what they hold when the result is 0 is no glyph. *)
Definition FbTtfGlyph (c : Z) : option (option (list Z)) :=
  if negb (ready ttf) || (c <? 32) || (126 <? c) then Some None else
  glyph ← glyph_for ttf c; render glyph.

End render.

(** ** Loading *)

(** [file] is what [CdfsReadFile] gives for the font: the block and the size.  The result, the font, and whether the block is freed. *)
Definition FbTtfLoad (a : arch) (file : option (list Z * Z)) (ttf : TTF) : option (bool * TTF * bool) :=
  match a with
  | LA64 => Some (false, ttf, false)
  | X86 | AMD64 =>
      if ready ttf then Some (true, ttf, false) else
      match file with
      | None => Some (false, ttf, false)
      | Some (block, n) =>
          let f := mkTtf block n (cmap ttf) (glyf ttf) (loca ttf) (head ttf) (hhea ttf) (hmtx ttf) (glyph_count ttf) (hmetrics ttf) (loca_format ttf) (units_per_em ttf) (ascender ttf) (descender ttf) false in
          head ← table f 1751474532; cmap ← table f 1668112752; glyf ← table f 1735162214; loca ← table f 1819239265; hhea ← table f 1751672161; hmtx ← table f 1752003704;
          maxp ← table f 1835104368;
          if (head =? 0) || (cmap =? 0) || (glyf =? 0) || (loca =? 0) || (maxp =? 0) || (hhea =? 0) then
            Some (false, mkTtf [] n cmap glyf loca head hhea hmtx (glyph_count ttf) (hmetrics ttf) (loca_format ttf) (units_per_em ttf) (ascender ttf) (descender ttf) false, true)
          else
            count ← rd16 f (maxp + 4); upm ← rd16 f (head + 18); asc ← rds16 f (hhea + 4); desc ← rds16 f (hhea + 6); hm ← rd16 f (hhea + 34); fmt ← rds16 f (head + 50);
            Some (true, mkTtf block n cmap glyf loca head hhea hmtx count hm fmt upm asc desc true, false)
      end
  end.

End Ttf.
