(* ===== verification/TtfSpec.v ===== *)
(** * What the font rasteriser guarantees

    The character map is searched inside the file whatever it holds ([glyph_for_safe]).  A
    pixel of a drawn outline is set if two of its samples or more lie inside an odd number
    of its contours ([glyph_pixels]): the even-odd rule, although contours are drawn one
    after the other into bit masks.  Then, what a damaged font or a composite glyph comes to. *)

From stdpp Require Import base list numbers gmap strings.
From Stdlib Require Import ZArith Lia.
From S2P Require Import Prelude.
From S2P Require Import Util.
From S2P Require Import Ttf.
Import Util Ttf.

Module TtfSpec.

(** ** Reading *)
Record font_ok (ttf : TTF) : Prop := {
  fo_bytes : Forall byte (data ttf);
  fo_size : 0 <= size ttf < 4294967296 /\ size ttf <= Z.of_nat (length (data ttf));
  fo_cmap : 0 <= cmap ttf <= size ttf;
  fo_glyf : 0 <= glyf ttf <= size ttf
}.

Section reading.
Context (ttf : TTF) (Hfont : font_ok ttf).

Lemma rd8_ok o : 0 <= o -> o + 1 <= size ttf -> exists x, rd8 ttf o = Some x /\ 0 <= x < 256.
Proof.
  intros Ho Hs. pose proof (fo_size _ Hfont) as [_ Hd]. unfold rd8. rewrite (proj2 (Z.leb_le 0 o)) by done.
  destruct (lookup_lt_is_Some_2 (data ttf) (Z.to_nat o) ltac:(lia)) as [x Hx]. exists x. split; [done|].
  by apply (Forall_lookup_1 byte _ _ _ (fo_bytes _ Hfont) Hx).
Qed.
Lemma rd16_ok o : 0 <= o -> o + 2 <= size ttf -> exists x, rd16 ttf o = Some x /\ 0 <= x < 65536.
Proof.
  intros Ho Hs. destruct (rd8_ok o Ho ltac:(lia)) as (x & Ex & Hx), (rd8_ok (o + 1) ltac:(lia) ltac:(lia)) as (y & Ey & Hy).
  unfold rd16. rewrite Ex. cbn. rewrite Ey. cbn. eexists. split; [done | lia].
Qed.
Lemma rds16_ok o : 0 <= o -> o + 2 <= size ttf -> exists x, rds16 ttf o = Some x /\ -32768 <= x < 32768.
Proof. intros Ho Hs. destruct (rd16_ok o Ho Hs) as (x & E & Hx). unfold rds16. rewrite E. eexists. split; [done|]. unfold Ttf.s16. zlia. Qed.
Lemma rd32_ok o : 0 <= o -> o + 4 <= size ttf -> exists x, rd32 ttf o = Some x /\ 0 <= x < 4294967296.
Proof.
  intros Ho Hs. destruct (rd16_ok o Ho ltac:(lia)) as (x & Ex & Hx), (rd16_ok (o + 2) ltac:(lia) ltac:(lia)) as (y & Ey & Hy).
  unfold rd32. rewrite Ex. cbn. rewrite Ey. cbn. eexists. split; [done | lia].
Qed.
Lemma range_ok_true o n : range_ok ttf o n = true -> o <= size ttf /\ o + n <= size ttf.
Proof. unfold range_ok. rewrite andb_true_iff, !Z.leb_le. lia. Qed.

(** Read, name the value, and go on. *)
Ltac reading L x := let E := fresh "E" in let Hx := fresh "H" x in
  destruct L as (x & E & Hx); [lia | lia |]; rewrite E; cbn [mbind option_bind]; clear E.

Definition glyph_index (g : Z) : Prop := g = 0 \/ 0 <= g < glyph_count ttf.
Lemma glyph_index_if g : glyph_index (if (0 <=? g) && (g <? glyph_count ttf) then g else 0).
Proof. unfold glyph_index. destruct (Z.leb_spec 0 g), (Z.ltb_spec g (glyph_count ttf)); cbn [andb]; lia. Qed.

Lemma find_segment_ok n j sub seg_count ch : 0 <= sub -> 0 <= j -> j + Z.of_nat n <= seg_count -> sub + 16 + seg_count * 8 <= size ttf ->
  exists r, find_segment ttf n j sub seg_count ch = Some r /\ match r with Some g => glyph_index g | None => True end.
Proof.
  intros Hs. revert j. induction n as [|n IH]; intros j Hj Hn Hfit; cbn [find_segment]; [by eexists|].
  reading (rd16_ok (sub + 16 + seg_count * 2 + j * 2)) start. reading (rd16_ok (sub + 14 + j * 2)) end_.
  destruct (_ || _); [apply IH; lia|]. reading (rd16_ok (sub + 16 + seg_count * 2 + seg_count * 2 + seg_count * 2 + j * 2)) r. destruct (r =? 0).
  - reading (rds16_ok (sub + 16 + seg_count * 2 + seg_count * 2 + j * 2)) delta. eexists. split; [done | apply glyph_index_if].
  - set (at_ := u32 _). destruct (range_ok ttf at_ 2) eqn:Er; cbn [negb]; [|eexists; split; [done | by left]].
    apply range_ok_true in Er. assert (0 <= at_) by (unfold at_; zlia). reading (rd16_ok at_) g. destruct (g =? 0); cbn [mbind option_bind].
    + eexists. split; [done | apply (glyph_index_if 0)].
    + reading (rds16_ok (sub + 16 + seg_count * 2 + seg_count * 2 + j * 2)) delta. eexists. split; [done | apply glyph_index_if].
Qed.

Lemma find_encoding_ok n i pass ch : 0 <= i -> cmap ttf + 4 + (i + Z.of_nat n) * 8 <= size ttf ->
  exists r, find_encoding ttf n i pass ch = Some r /\ match r with Some g => glyph_index g | None => True end.
Proof.
  pose proof (fo_cmap _ Hfont) as Hc. revert i. induction n as [|n IH]; intros i Hi Hfit; cbn [find_encoding]; [by eexists|].
  reading (rd16_ok (cmap ttf + 4 + i * 8)) platform. reading (rd16_ok (cmap ttf + 4 + i * 8 + 2)) encoding. reading (rd32_ok (cmap ttf + 4 + i * 8 + 4)) off.
  destruct (negb (wanted_map _ _ _)); [apply IH; lia|]. destruct (_ || _) eqn:Eo; [apply IH; lia|].
  apply orb_false_iff in Eo as [_ Er%negb_false_iff%range_ok_true]. reading (rd16_ok (cmap ttf + off)) format. destruct (negb (format =? 4)); [apply IH; lia|].
  reading (rd16_ok (cmap ttf + off + 6)) double. destruct (_ || _) eqn:Es; [apply IH; lia|]. apply orb_false_iff in Es as [_ Es%Z.ltb_ge].
  destruct (find_segment_ok (Z.to_nat (double / 2)) 0 (cmap ttf + off) (double / 2) ch) as (r & -> & Hr); [lia | lia | zlia | lia|]. cbn [mbind option_bind].
  destruct r as [g|]; [by eexists | apply IH; lia].
Qed.

(** C38. Whatever the font file holds, looking up a character reads nothing outside it and gives a
    glyph of the font, or glyph 0. *)
Theorem glyph_for_safe (ch : Z) : exists g, glyph_for ttf ch = Some g /\ glyph_index g.
Proof.
  pose proof (fo_cmap _ Hfont) as Hc. unfold glyph_for. assert (H0 : exists g, Some 0 = Some g /\ glyph_index g) by (exists 0; split; [done | by left]).
  destruct (cmap ttf =? 0); [done|]. destruct (range_ok ttf (cmap ttf) 4) eqn:E1; cbn [negb]; [|done]. apply range_ok_true in E1.
  reading (rd16_ok (cmap ttf + 2)) records. destruct (range_ok ttf (cmap ttf + 4) (records * 8)) eqn:E2; cbn [negb]; [|done]. apply range_ok_true in E2.
  generalize 0 at 1 as pass. generalize 3%nat as n. induction n as [|n IH]; intros pass; cbn [find_map]; [done|].
  destruct (find_encoding_ok (Z.to_nat records) 0 pass ch) as (r & -> & Hr); [lia | lia|]. cbn [mbind option_bind]. destruct r as [g|]; [by exists g | apply IH].
Qed.

(** Glyph offsets stay inside the glyph table. *)
Lemma glyph_offset_ok glyph : exists off, glyph_offset ttf glyph = Some off /\ 0 <= off <= size ttf - glyf ttf.
Proof.
  pose proof (fo_glyf _ Hfont) as Hg. unfold glyph_offset. destruct (_ || _); [exists 0; split; [done | lia]|].
  set (at_ := u32 _). assert (0 <= at_) by (unfold at_; zlia). destruct (negb (loca_format ttf =? 0)).
  - destruct (range_ok ttf at_ 4) eqn:Er; cbn [negb]; [|exists 0; split; [done | lia]]. apply range_ok_true in Er. reading (rd32_ok at_) off.
    eexists. split; [done|]. destruct (Z.leb_spec off (size ttf - glyf ttf)); lia.
  - destruct (range_ok ttf at_ 2) eqn:Er; cbn [negb]; [|exists 0; split; [done | lia]]. apply range_ok_true in Er. reading (rd16_ok at_) x.
    eexists. split; [done|]. destruct (Z.leb_spec (x * 2) (size ttf - glyf ttf)); lia.
Qed.

End reading.

(** ** Drawing *)

(** Coordinates small enough that nothing overflows; the em of a font is at most 16384. *)
Definition small (x : Z) : Prop := -16000 <= x <= 16000.
Definition within (p : Z * Z) : Prop := small (fst p) /\ small (snd p).

Lemma i32_ok x : -2147483648 <= x <= 2147483647 -> i32 x = Some x.
Proof. intros Hx. unfold i32. by rewrite (proj2 (Z.leb_le _ _)), (proj2 (Z.leb_le _ _)) by lia. Qed.

Lemma quot_small x m : 0 < m -> - (16000 * m) <= x <= 16000 * m -> small (Z.quot x m).
Proof. unfold small. intros Hm Hx. pose proof (Z.quot_rem' x m). pose proof (Z.rem_bound_abs x m ltac:(lia)). nia. Qed.
Lemma quot_bound x d : - Z.abs x <= Z.quot x d <= Z.abs x.
Proof.
  destruct (Z.eq_dec d 0) as [->|Hd]; [rewrite Z.quot_0_r_ext by done; lia|].
  assert (Z.abs (Z.quot x d) <= Z.abs x); [|lia]. rewrite <- Z.quot_abs by done. apply Z.quot_le_upper_bound; [lia|]. nia.
Qed.

Lemma half_ok a b : small a -> small b -> exists m, half a b = Some m /\ small m.
Proof. unfold small. intros Ha Hb. unfold half. rewrite i32_ok by lia. eexists. split; [done|]. apply quot_small; lia. Qed.
Lemma middle_ok p q : within p -> within q -> exists m, middle p q = Some m /\ within m.
Proof.
  intros [Hx Hy] [Hx' Hy']. unfold middle. destruct (half_ok _ _ Hx Hx') as (x & -> & H1). cbn. destruct (half_ok _ _ Hy Hy') as (y & -> & H2). cbn. by eexists.
Qed.

Lemma curve_ok t c s e : 0 <= t <= 256 -> small c -> small s -> small e -> exists v, curve t c s e = Some v /\ small v.
Proof.
  unfold small. intros Ht Hc Hs He. unfold curve. set (a := 256 - t). assert (Ha : 0 <= a /\ 0 <= a * a /\ 0 <= t * t /\ 0 <= a * t /\ a * a + 2 * (a * t) + t * t = 65536) by (unfold a; nia).
  assert (H1 : - (a * a * 16000) <= a * a * c <= a * a * 16000) by nia.
  assert (H2 : - (a * t * 32000) <= 2 * a * t * s <= a * t * 32000) by nia.
  assert (H3 : - (t * t * 16000) <= t * t * e <= t * t * 16000) by nia.
  repeat (rewrite i32_ok by lia; cbn [mbind option_bind]).
  eexists. split; [done|]. apply quot_small; lia.
Qed.

Lemma add_point_ok out p : Forall within out -> within p -> Forall within (add_point out p).
Proof. intros Ho Hp. unfold add_point. destruct (_ <=? _)%nat; [done|]. apply Forall_app. split; [done | by constructor]. Qed.

Lemma curve_steps_ok l c s e out : Forall (fun k => 0 <= k <= 4) l -> within c -> within s -> within e -> Forall within out ->
  exists out', curve_steps l c s e out = Some out' /\ Forall within out'.
Proof.
  intros Hl [Hcx Hcy] [Hsx Hsy] [Hex Hey]. revert out. induction Hl as [|k l Hk Hl IH]; intros out Ho; cbn [curve_steps]; [by eexists|].
  destruct (curve_ok (k * 256 / 4) _ _ _ ltac:(zlia) Hcx Hsx Hex) as (x & -> & Hx). cbn [mbind option_bind].
  destruct (curve_ok (k * 256 / 4) _ _ _ ltac:(zlia) Hcy Hsy Hey) as (y & -> & Hy). cbn [mbind option_bind]. apply IH, add_point_ok; done.
Qed.

Section outline.
Context (pts : list (Z * Z)) (flags : list Z) (Hpts : Forall within pts) (Hlen : length flags = length pts).

Lemma at_pts i : 0 <= i < Z.of_nat (length pts) -> exists p, at_index pts i = Some p /\ within p.
Proof.
  intros Hi. unfold at_index. rewrite (proj2 (Z.leb_le 0 i)) by lia. destruct (lookup_lt_is_Some_2 pts (Z.to_nat i) ltac:(lia)) as [p Hp].
  exists p. split; [done|]. by apply (Forall_lookup_1 _ _ _ _ Hpts Hp).
Qed.
Lemma on_curve_at i : 0 <= i < Z.of_nat (length pts) -> exists b, on_curve flags i = Some b.
Proof.
  intros Hi. unfold on_curve, at_index. rewrite (proj2 (Z.leb_le 0 i)) by lia. destruct (lookup_lt_is_Some_2 flags (Z.to_nat i) ltac:(lia)) as [f ->]. by eexists.
Qed.

(** A contour from [begin] to [e]: two points, or one on the curve. *)
Definition contour_ok (begin e : Z) : Prop := 0 <= begin <= e /\ e < Z.of_nat (length pts) /\ (begin < e \/ on_curve flags begin = Some true).

Lemma flatten_loop_ok k i n begin c out : contour_ok begin (begin + n - 1) -> 0 <= i -> i + Z.of_nat k = n -> within c -> Forall within out ->
  exists out', flatten_loop pts flags k i n begin c out = Some out' /\ Forall within out'.
Proof.
  intros (Hb & He & Hone). revert i c out. induction k as [|k IH]; intros i c out Hi Hk Hc Ho; cbn [flatten_loop]; [by eexists|].
  destruct (on_curve_at (begin + i) ltac:(lia)) as [b Eb]. destruct (at_pts (begin + i) ltac:(lia)) as (p & Ep & Hp). rewrite Eb, Ep. cbn [mbind option_bind].
  destruct b; [apply IH; [lia | lia | done | by apply add_point_ok]|].
  assert (Hn : 1 < n). { destruct Hone as [|Hone]; [lia|]. destruct (Z.eq_dec n 1) as [->|]; [|lia]. replace (begin + i) with begin in Eb by lia. congruence. }
  set (next := if i + 1 <? n then _ else _). assert (Hnext : 0 <= next < Z.of_nat (length pts)) by (unfold next; destruct (Z.ltb_spec (i + 1) n); lia).
  destruct (at_pts next Hnext) as (q & Eq & Hq). destruct (on_curve_at next Hnext) as [on Eon]. rewrite Eq, Eon. cbn [mbind option_bind].
  set (next2 := if i + 2 <? n then _ else _). assert (Hnext2 : 0 <= next2 < Z.of_nat (length pts)) by (unfold next2; destruct (Z.ltb_spec (i + 2) n); lia).
  assert (exists e, (if on then Some q else q2 ← at_index pts next2; middle q q2) = Some e /\ within e) as (e & -> & Hew).
  { destruct on; [by exists q|]. destruct (at_pts next2 Hnext2) as (q2 & -> & Hq2). cbn. by apply middle_ok. }
  cbn [mbind option_bind]. destruct (curve_steps_ok [1; 2; 3; 4] c p e out) as (out' & -> & Ho'); [repeat constructor; lia | done..|]. cbn [mbind option_bind]. apply IH; (done || lia).
Qed.

Lemma flatten_ok begin e : contour_ok begin e -> exists poly, flatten pts flags begin e = Some poly /\ Forall within poly.
Proof.
  intros Hc. pose proof Hc as (Hb & He & _). unfold flatten. rewrite (proj2 (Z.ltb_ge _ _)) by lia.
  destruct (on_curve_at begin ltac:(lia)) as [first ->], (on_curve_at e ltac:(lia)) as [last ->]. cbn [mbind option_bind].
  destruct (at_pts begin ltac:(lia)) as (p & -> & Hp), (at_pts e ltac:(lia)) as (q & -> & Hq). cbn [mbind option_bind].
  assert (exists c, (if first then Some p else if last then Some q else middle p q) = Some c /\ within c) as (c & -> & Hcw).
  { destruct first; [by exists p|]. destruct last; [by exists q|]. by apply middle_ok. }
  cbn [mbind option_bind]. apply flatten_loop_ok; [by replace (begin + (e - begin + 1) - 1) with e by lia | lia | lia | done | by apply add_point_ok].
Qed.

End outline.

Lemma crosses_ok sx sy p q : small sy -> within p -> within q -> exists b, crosses sx sy p q = Some b.
Proof.
  unfold within, small. intros Hs [Hpx Hpy] [Hqx Hqy]. unfold crosses. destruct (bool_decide _); [by eexists|].
  assert (Hp : -1024000000 <= (fst q - fst p) * (sy - snd p) <= 1024000000) by nia. pose proof (quot_bound ((fst q - fst p) * (sy - snd p)) (snd q - snd p)).
  repeat (rewrite i32_ok by lia; cbn [mbind option_bind]). by eexists.
Qed.
Lemma inside_ok sx sy poly : small sy -> Forall within poly -> exists b, inside sx sy poly = Some b.
Proof.
  intros Hs Hp. unfold inside. destruct (list.last poly) as [q|] eqn:El; [|by eexists].
  assert (Hq : within q) by (apply (Forall_forall within poly); [done|]; by apply last_Some_elem_of).
  clear El. generalize false as r. revert q Hq. induction Hp as [|p l Hp Hl IH]; intros q Hq r; cbn [inside_loop]; [by eexists|].
  destruct (crosses_ok sx sy p q Hs Hp Hq) as [b ->]. by apply IH.
Qed.

(** *** Samples *)
Section pixels.
Context (ttf : TTF) (advance top bottom : Z).
Context (Hem : 0 <= units_per_em ttf <= 16384) (Hadvance : 0 <= advance <= 65535) (Htop : small top) (Hbottom : small bottom) (Horder : bottom <= top).

Lemma em_range : 0 < em ttf <= 16384.
Proof. unfold em. destruct (Z.eqb_spec (units_per_em ttf) 0); lia. Qed.

Lemma sample_ok sx sy k : 0 <= sx < 8 -> 0 <= sy < 12 -> 0 <= k < 16 -> exists s, sample_at ttf advance top bottom sx sy k = Some s /\ small (snd s).
Proof.
  intros Hx Hy Hk. unfold small in *. pose proof em_range as He. unfold sample_at. set (cx := (sx * 4 + k mod 4) * em ttf / 32). set (cy := (sy * 4 + k / 4) * em ttf / 48).
  assert (Hcx : 0 <= cx <= em ttf) by (unfold cx; split; [apply Z.div_pos; zlia | apply Z.div_le_upper_bound; [lia|]; assert (0 <= k mod 4 < 4) by zlia; nia]).
  assert (Hcy : 0 <= cy <= em ttf) by (unfold cy; split; [apply Z.div_pos; zlia | apply Z.div_le_upper_bound; [lia|]; assert (0 <= k / 4 < 4) by zlia; nia]).
  rewrite (i32_ok (cx * advance)) by nia. cbn [mbind option_bind]. rewrite (i32_ok (cy * (top - bottom))) by nia. eexists. split; [done|]. cbn [snd].
  assert (0 <= Z.quot (cy * (top - bottom)) (em ttf) <= top - bottom); [|lia]. rewrite Z.quot_div_nonneg by nia. split; [apply Z.div_pos; nia|]. apply Z.div_le_upper_bound; nia.
Qed.

(** Whether a polygon covers sample [k] of pixel [i]. *)
Definition covers (poly : list (Z * Z)) (i k : Z) : bool :=
  match sample_at ttf advance top bottom (i / 12) (i mod 12) k with
  | Some s => match inside (fst s) (snd s) poly with Some b => b | None => false end
  | None => false
  end.

Lemma pixel_mask_ok n k poly i mask : Forall within poly -> 0 <= i < 96 -> 0 <= k -> k + Z.of_nat n <= 16 ->
  exists mask', pixel_mask ttf n k poly advance top bottom (i / 12) (i mod 12) mask = Some mask' /\
    forall j, 0 <= j -> Z.testbit mask' j = Z.testbit mask j || ((k <=? j) && (j <? k + Z.of_nat n) && covers poly i j).
Proof.
  intros Hp Hi. revert k mask. induction n as [|n IH]; intros k mask Hk Hn; cbn [pixel_mask].
  - exists mask. split; [done|]. intros j Hj. destruct (Z.leb_spec k j), (Z.ltb_spec j (k + Z.of_nat 0)); cbn [andb]; rewrite ?orb_false_r; (done || lia).
  - destruct (sample_ok (i / 12) (i mod 12) k) as (s & Es & Hs); [zlia | zlia | lia|]. rewrite Es. cbn [mbind option_bind]. destruct (inside_ok (fst s) (snd s) poly Hs Hp) as [b Eb]. rewrite Eb. cbn [mbind option_bind].
    destruct (IH (k + 1) (if b then Z.lor mask (Z.shiftl 1 k) else mask) ltac:(lia) ltac:(lia)) as (mask' & -> & Hm). exists mask'. split; [done|]. intros j Hj. rewrite Hm by done.
    assert (Hb : covers poly i k = b) by (unfold covers; by rewrite Es, Eb).
    assert (Ht : Z.testbit (if b then Z.lor mask (Z.shiftl 1 k) else mask) j = Z.testbit mask j || ((j =? k) && b)).
    { destruct b; [|by rewrite andb_false_r, orb_false_r]. rewrite Z.lor_spec, andb_true_r, Z.shiftl_1_l, Z.pow2_bits_eqb by lia. by rewrite Z.eqb_sym. }
    rewrite Ht. destruct (Z.eqb_spec j k) as [Ejk|].
    + subst j. rewrite (proj2 (Z.leb_gt (k + 1) k)), (proj2 (Z.leb_le k k)), (proj2 (Z.ltb_lt k (k + Z.of_nat (S n)))), Hb by lia. cbn [andb]. by rewrite orb_false_r.
    + rewrite orb_false_r. f_equal. f_equal. destruct (Z.leb_spec (k + 1) j), (Z.ltb_spec j (k + 1 + Z.of_nat n)), (Z.leb_spec k j), (Z.ltb_spec j (k + Z.of_nat (S n))); (done || lia).
Qed.

Lemma xor_polygon_ok n i0 poly c : Forall within poly -> length c = 96%nat -> 0 <= i0 -> i0 + Z.of_nat n <= 96 ->
  exists c', xor_polygon ttf n i0 poly advance top bottom c = Some c' /\ length c' = 96%nat /\
    forall i k, 0 <= i < 96 -> 0 <= k -> Z.testbit (get 0 c' i) k = xorb (Z.testbit (get 0 c i) k) ((i0 <=? i) && (i <? i0 + Z.of_nat n) && (k <? 16) && covers poly i k).
Proof.
  intros Hp. revert i0 c. induction n as [|n IH]; intros i0 c Hc Hi Hn; cbn [xor_polygon].
  - exists c. split; [done|]. split; [done|]. intros i k H1 H2. destruct (Z.leb_spec i0 i), (Z.ltb_spec i (i0 + Z.of_nat 0)); cbn [andb]; rewrite ?xorb_false_r; (done || lia).
  - destruct (pixel_mask_ok 16 0 poly i0 0 Hp) as (mask & -> & Hm); [lia | lia | lia|]. cbn [mbind option_bind].
    destruct (IH (i0 + 1) (put c i0 (Z.lxor (get 0 c i0) mask))) as (c' & -> & Hl & Hg); [by rewrite length_put | lia | lia|]. exists c'. split; [done|]. split; [done|].
    intros i k H1 H2. rewrite Hg, get_put by lia. destruct (Z.eqb_spec i i0) as [->|Hne].
    + rewrite (proj2 (Z.leb_gt (i0 + 1) i0)), (proj2 (Z.leb_le i0 i0)), (proj2 (Z.ltb_lt i0 (i0 + Z.of_nat (S n)))) by lia. cbn [andb]. rewrite xorb_false_r, Z.lxor_spec, Hm, Z.bits_0 by lia.
      by rewrite (proj2 (Z.leb_le 0 k)) by lia.
    + assert ((i0 + 1 <=? i) && (i <? i0 + 1 + Z.of_nat n) = (i0 <=? i) && (i <? i0 + Z.of_nat (S n))) as ->; [|done].
      destruct (Z.leb_spec (i0 + 1) i), (Z.ltb_spec i (i0 + 1 + Z.of_nat n)), (Z.leb_spec i0 i), (Z.ltb_spec i (i0 + Z.of_nat (S n))); (done || lia).
Qed.

(** The polygons of an outline, and the parity of those over a sample. *)
Fixpoint polygons (ends : list Z) (begin : Z) (pts : list (Z * Z)) (flags : list Z) : option (list (list (Z * Z))) :=
  match ends with
  | [] => Some []
  | e :: ends => poly ← flatten pts flags begin e; rest ← polygons ends (e + 1) pts flags; Some (poly :: rest)
  end.
Definition area (poly : list (Z * Z)) : bool := (3 <=? length poly)%nat.
Definition odd_cover (ps : list (list (Z * Z))) (i k : Z) : bool := Nat.odd (length (List.filter (fun poly => area poly && covers poly i k) ps)).

Lemma odd_cover_cons poly ps i k : odd_cover (poly :: ps) i k = xorb (area poly && covers poly i k) (odd_cover ps i k).
Proof. unfold odd_cover. cbn [List.filter]. destruct (_ && _); [|done]. cbn [length]. rewrite Nat.odd_succ, <- Nat.negb_odd. by destruct (Nat.odd _). Qed.

Fixpoint contours_ok (ends : list Z) (begin : Z) (pts : list (Z * Z)) (flags : list Z) : Prop :=
  match ends with [] => True | e :: ends => contour_ok pts flags begin e /\ contours_ok ends (e + 1) pts flags end.

Lemma draw_contours_ok ends begin pts flags (c : cover) : Forall within pts -> length flags = length pts -> (length pts <= 256)%nat -> contours_ok ends begin pts flags -> length c = 96%nat ->
  exists ps c', polygons ends begin pts flags = Some ps /\ draw_contours ttf ends begin pts flags advance top bottom c = Some c' /\ length c' = 96%nat /\
    forall i k, 0 <= i < 96 -> 0 <= k -> Z.testbit (get 0 c' i) k = xorb (Z.testbit (get 0 c i) k) ((k <? 16) && odd_cover ps i k).
Proof.
  intros Hp Hf Hn. revert begin c. induction ends as [|e ends IH]; intros begin c Hok Hc; cbn [polygons draw_contours].
  - exists [], c. split; [done|]. split; [done|]. split; [done|]. intros i k H1 H2. by rewrite andb_false_r, xorb_false_r.
  - destruct Hok as [He Hok]. destruct (flatten_ok pts flags Hp Hf begin e He) as (poly & -> & Hw). cbn [mbind option_bind]. destruct He as (Hb & Hl & _).
    assert (exists c1 : cover, (if (length poly <? 3)%nat then Some c else xor_polygon ttf 96 0 poly advance top bottom c) = Some c1 /\ length c1 = 96%nat /\
      forall i k, 0 <= i < 96 -> 0 <= k -> Z.testbit (get 0 c1 i) k = xorb (Z.testbit (get 0 c i) k) ((k <? 16) && (area poly && covers poly i k))) as (c1 & -> & Hc1 & Hg1).
    { unfold area. destruct (Nat.ltb_spec (length poly) 3).
      - exists c. split; [done|]. split; [done|]. intros i k H1 H2. rewrite (proj2 (Nat.leb_gt _ _)) by done. cbn [andb]. by rewrite andb_false_r, xorb_false_r.
      - destruct (xor_polygon_ok 96 0 poly c Hw Hc) as (c1 & E & Hl1 & Hg1); [lia | lia|]. exists c1. split; [done|]. split; [done|]. intros i k H1 H2. rewrite Hg1 by done.
        rewrite (proj2 (Nat.leb_le _ _)), (proj2 (Z.leb_le 0 i)), (proj2 (Z.ltb_lt i _)) by lia. done. }
    cbn [mbind option_bind]. replace (u16 (e + 1)) with (e + 1) by zlia. destruct (IH (e + 1) c1 Hok Hc1) as (ps & c' & -> & -> & Hc' & Hg'). cbn [mbind option_bind].
    exists (poly :: ps), c'. split; [done|]. split; [done|]. split; [done|]. intros i k H1 H2. rewrite Hg', Hg1, odd_cover_cons by done.
    destruct (k <? 16), (Z.testbit _ _), (area poly && covers poly i k), (odd_cover ps i k); done.
Qed.

End pixels.

(** *** Rows *)

(** The number of bits set. *)
Definition bits_set (v : Z) : Z := Z.of_nat (length (List.filter (Z.testbit v) (seqZ 0 16))).

(** A check of all numbers with [n] more bits than [b]. *)
Fixpoint all_below (n : nat) (test : Z -> bool) (b : Z) : bool :=
  match n with O => test b | S n => all_below n test (2 * b) && all_below n test (2 * b + 1) end.
Lemma all_below_spec n test b v : all_below n test b = true -> b * 2 ^ Z.of_nat n <= v < (b + 1) * 2 ^ Z.of_nat n -> test v = true.
Proof.
  revert b. induction n as [|n IH]; intros b; cbn [all_below]; [intros Hb Hv; cbn in Hv; by replace v with b by lia|].
  rewrite Nat2Z.inj_succ, Z.pow_succ_r by lia. intros [H0 H1]%andb_true_iff Hv.
  destruct (Z.lt_ge_cases v ((2 * b + 1) * 2 ^ Z.of_nat n)); [apply (IH (2 * b)) | apply (IH (2 * b + 1))]; (done || lia).
Qed.

Lemma popcount16_spec v : 0 <= v < 65536 -> popcount16 v = bits_set v.
Proof.
  intros Hv. apply Z.eqb_eq. apply (all_below_spec 16 (fun v => popcount16 v =? bits_set v) 0); [vm_compute; reflexivity | exact Hv].
Qed.

Lemma mask_range v : (forall k, 16 <= k -> Z.testbit v k = false) -> 0 <= v < 65536.
Proof.
  intros Hb. assert (v = v mod 2 ^ 16) as ->; [|apply (Z.mod_pos_bound v 65536); lia]. apply Z.bits_inj'. intros k Hk.
  destruct (Z.lt_ge_cases k 16); [by rewrite Z.mod_pow2_bits_low | rewrite Z.mod_pow2_bits_high by lia; by apply Hb].
Qed.

(** A row has a bit for each pixel, the first one highest. *)
Lemma fold_lor_bits (f : Z -> bool) l row j : Forall (fun x => 0 <= x < 8) l ->
  Z.testbit (fold_left (fun row x => if f x then Z.lor row (Z.shiftr 128 x) else row) l row) j = Z.testbit row j || existsb (fun x => f x && (7 - x =? j)) l.
Proof.
  intros Hl. revert row. induction Hl as [|x l Hx Hl IH]; intros row; cbn [fold_left existsb]; [by rewrite orb_false_r|].
  rewrite IH, orb_assoc. f_equal. destruct (f x); [|by rewrite orb_false_r]. rewrite Z.lor_spec. f_equal.
  change 128 with (2 ^ 7). rewrite Z.shiftr_div_pow2, <- Z.pow_sub_r by lia. apply Z.pow2_bits_eqb. lia.
Qed.
Lemma fold_bits (f : Z -> bool) sx : 0 <= sx < 8 -> Z.testbit (for_range 0 8 (fun x row => if f x then Z.lor row (Z.shiftr 128 x) else row) 0) (7 - sx) = f sx.
Proof.
  intros Hx. unfold for_range. rewrite fold_lor_bits by (apply Forall_forall; intros x Hin%elem_of_seqZ; lia). rewrite Z.bits_0. cbn [orb].
  apply eq_true_iff_eq. rewrite existsb_exists. split.
  - intros (x & _ & [Hf E%Z.eqb_eq]%andb_true_iff). by replace sx with x by lia.
  - intros Hf. exists sx. split; [apply list_elem_of_In, elem_of_seqZ; lia|]. by rewrite Hf, Z.eqb_refl.
Qed.
Lemma row_bit c sy sx : 0 <= sx < 8 -> Z.testbit (row_of c sy) (7 - sx) = (2 <=? popcount16 (get 0 c (12 * sx + sy))).
Proof. exact (fold_bits (fun x => 2 <=? popcount16 (get 0 c (12 * x + sy))) sx). Qed.

(** *** A glyph *)
Section glyph.
Context (ttf : TTF) (Hfont : font_ok ttf) (Hem : 0 <= units_per_em ttf <= 16384).

Lemma advance_ok glyph : exists a, glyph_advance ttf glyph = Some a /\ 0 <= a <= 65535.
Proof.
  pose proof (em_range ttf Hem) as He. unfold glyph_advance. destruct (_ || _); [exists (em ttf); split; [done | lia]|].
  set (at_ := u32 _). assert (0 <= at_) by (unfold at_; zlia). destruct (range_ok ttf at_ 2) eqn:Er; cbn [negb]; [|exists (em ttf); split; [done | lia]].
  apply range_ok_true in Er. destruct (rd16_ok ttf Hfont at_ ltac:(lia) ltac:(lia)) as (a & -> & Ha). eexists. split; [reflexivity|]. cbn. destruct (a =? 0); lia.
Qed.

(** The line above and the line below the letters. *)
Definition metrics (o : outline) : Z * Z := if ascender ttf <=? descender ttf then (o_ymax o, o_ymin o) else (ascender ttf, descender ttf).

(** An outline drawn as it is meant: its contours follow each other and its numbers are those of a font. *)
Record outline_ok (o : outline) : Prop := {
  ok_points : Forall within (o_points o);
  ok_flags : length (o_flags o) = length (o_points o);
  ok_count : (length (o_points o) <= 256)%nat;
  ok_contours : contours_ok (o_ends o) 0 (o_points o) (o_flags o);
  ok_metrics : small (fst (metrics o)) /\ small (snd (metrics o)) /\ snd (metrics o) <= fst (metrics o)
}.

(** A glyph with an outline is drawn as a simple one. *)
Lemma render_simple glyph o : read_outline ttf glyph = Some (Some o) ->
  render ttf glyph = ('(ok, c) ← render_simple_outline ttf glyph no_cover; Some (if ok : bool then Some (map (row_of c) (seqZ 0 12)) else None)).
Proof.
  pose proof (fo_size _ Hfont) as [Hs _]. pose proof (fo_glyf _ Hfont) as Hg. unfold read_outline, render.
  destruct (glyph_offset_ok ttf Hfont glyph) as (off & -> & Ho), (glyph_offset_ok ttf Hfont (u16 (glyph + 1))) as (next & -> & Hn). cbn [mbind option_bind].
  destruct (glyf ttf =? 0); [done|]. destruct (Z.leb_spec next off); cbn [orb]; [done|]. rewrite (proj2 (Z.ltb_ge (size ttf - glyf ttf) next)) by lia.
  rewrite (proj2 (Z.eqb_neq next 0)) by lia. rewrite u32_small by (unfold is_u32; lia). rewrite (proj2 (Z.ltb_ge (size ttf) _)) by lia. cbn [orb].
  destruct (Z.ltb_spec (glyf ttf + next) (glyf ttf + off + 10)); [done|]. destruct (rds16 ttf (glyf ttf + off)) as [contours|]; [|done]. cbn [mbind option_bind].
  destruct (rds16 ttf (glyf ttf + off + 4)); [|done]. destruct (rds16 ttf (glyf ttf + off + 8)); [|done]. cbn [mbind option_bind].
  destruct (Z.leb_spec contours 0); [done|]. by rewrite (proj2 (Z.leb_le 0 contours)) by lia.
Qed.

(** C36. The picture of a glyph follows the even-odd rule: a pixel is set if and only if at least two of its
    sixteen samples lie inside an odd number of the outline's polygons, which are its contours with every curve cut into four lines.  Nothing overflows or is read out of range. *)
Theorem glyph_pixels (glyph : Z) (o : outline) :
  read_outline ttf glyph = Some (Some o) -> outline_ok o ->
  exists advance ps rows, glyph_advance ttf glyph = Some advance /\ polygons (o_ends o) 0 (o_points o) (o_flags o) = Some ps /\
    render ttf glyph = Some (Some rows) /\
    forall sx sy, 0 <= sx < 8 -> 0 <= sy < 12 ->
      Z.testbit (get 0 rows sy) (7 - sx) =
        (2 <=? Z.of_nat (length (List.filter (odd_cover ttf advance (fst (metrics o)) (snd (metrics o)) ps (12 * sx + sy)) (seqZ 0 16)))).
Proof.
  intros Ho [Hp Hf Hc Hk (Ht & Hb & Horder)]. destruct (advance_ok glyph) as (advance & Ea & Hadv).
  destruct (draw_contours_ok ttf advance (fst (metrics o)) (snd (metrics o)) Hem Hadv Ht Hb Horder (o_ends o) 0 (o_points o) (o_flags o) no_cover Hp Hf Hc Hk eq_refl) as (ps & c & Eps & Ec & _ & Hg).
  exists advance, ps, (map (row_of c) (seqZ 0 12)). split; [done|]. split; [done|]. split.
  - rewrite (render_simple glyph o Ho). unfold render_simple_outline. rewrite Ho. cbn [mbind option_bind]. unfold metrics in Ec. destruct (_ <=? _); rewrite Ea; cbn [mbind option_bind fst snd] in *; by rewrite Ec.
  - intros sx sy Hx Hy. assert (get 0 (map (row_of c) (seqZ 0 12)) sy = row_of c sy) as ->.
    { unfold get. change (map (row_of c) (seqZ 0 12)) with (row_of c <$> seqZ 0 12). rewrite list_lookup_fmap, lookup_seqZ_lt by lia. cbn [fmap option_fmap option_map from_option id]. by replace (0 + Z.of_nat (Z.to_nat sy)) with sy by lia. }
    assert (Hbits : forall k, 0 <= k -> Z.testbit (get 0 c (12 * sx + sy)) k = (k <? 16) && odd_cover ttf advance (fst (metrics o)) (snd (metrics o)) ps (12 * sx + sy) k).
    { intros k H0. rewrite Hg by lia. unfold no_cover. by rewrite get_zeros, Z.bits_0, xorb_false_l. }
    rewrite row_bit, popcount16_spec by (done || (apply mask_range; intros k H0; rewrite Hbits by lia; by rewrite (proj2 (Z.ltb_ge k 16)))).
    unfold bits_set. do 3 f_equal. apply List.filter_ext_in. intros k Hin%list_elem_of_In%elem_of_seqZ. rewrite Hbits by lia. by rewrite (proj2 (Z.ltb_lt k 16)) by lia.
Qed.

End glyph.

(** ** A font of one glyph *)

(** Four bytes, two short offsets, zeros, and the glyph at the end of the one sector. *)
Definition font_with (glyph : list Z) : TTF :=
  let data := [0; 0; 0; 0; 0; 0; 0; Z.of_nat (length glyph) / 2] ++ replicate (2040 - length glyph) 0 ++ glyph in
  mkTtf data 2048 0 (2048 - Z.of_nat (length glyph)) 4 0 0 0 1 0 0 2048 2048 0 true.

(** The left half of the cell: one contour of four points. *)
Definition half_cell : list Z := [0; 1; 0; 0; 0; 0; 8; 0; 8; 0; 0; 3; 0; 0; 1; 1; 1; 1; 0; 0; 4; 0; 0; 0; 252; 0; 0; 0; 0; 0; 8; 0; 0; 0].
Definition half_outline : outline := mkOutline [3] [(0, 0); (1024, 0); (1024, 2048); (0, 2048)] [1; 1; 1; 1] 0 2048.

Lemma half_font_ok : font_ok (font_with half_cell).
Proof.
  split; [|cbn; lia..]. match goal with |- Forall ?P ?l => assert (Hb : Forall (fun b => 0 <= b < 256) l) end; [|exact Hb].
  match goal with |- Forall ?P ?l => apply (bool_decide_eq_true_1 (Forall P l)) end. vm_compute. reflexivity.
Qed.

Example half_cell_drawn : render (font_with half_cell) 0 = Some (Some (replicate 12 240)).
Proof. vm_compute. reflexivity. Qed.

Lemma glyph_for_safe_witness : exists g, glyph_for (font_with half_cell) 65 = Some g /\ glyph_index (font_with half_cell) g.
Proof. exact (glyph_for_safe (font_with half_cell) half_font_ok 65). Defined.

Lemma glyph_pixels_witness : exists rows, render (font_with half_cell) 0 = Some (Some rows).
Proof.
  destruct (glyph_pixels (font_with half_cell) half_font_ok ltac:(cbn; lia) 0 half_outline ltac:(vm_compute; reflexivity)) as (_ & _ & rows & _ & _ & E & _).
  - split; [repeat constructor; unfold small; cbn; lia | reflexivity | cbn; lia | | cbn; unfold small; lia].
    split; [|done]. split; [lia|]. split; [cbn; lia | left; lia].
  - exists rows. exact E.
Defined.

(** ** Flaws *)

(** A component that is neither scaled nor moved: columns 3 and 4 both go to 4 and cancel, nothing comes to column 0. *)
Example identity_component_distorted :
  let drawn := place_component (font_with half_cell) (mkComponent 0 0 0 16384 0 0 16384) (replicate 96 65535) no_cover in
  map (fun sx => get 0 drawn (12 * sx + 1)) (seqZ 0 8) = [0; 65535; 65535; 65535; 0; 65535; 65535; 65535].
Proof. vm_compute. reflexivity. Qed.

(** Only the last contour end is compared with the number of points: the first one here leads past the arrays. *)
Example contour_end_unchecked :
  render (font_with ([0; 2; 0; 0; 0; 0; 8; 0; 8; 0; 0; 200; 0; 3; 0; 0; 1; 1; 1; 1] ++ replicate 16 0)) 0 = None.
Proof. vm_compute. reflexivity. Qed.

(** Coordinates of one byte are read without regard to the end of the glyph, here that of the file. *)
Example short_coordinates_unchecked :
  render (font_with [0; 1; 0; 0; 0; 0; 8; 0; 8; 0; 0; 3; 0; 0; 7; 7; 7; 7]) 0 = None.
Proof. vm_compute. reflexivity. Qed.

(** A file of one sector whose tables are all empty and at its end passes the test for them; their fields are read behind it. *)
Definition empty_tables : list Z :=
  [0; 1; 0; 0; 0; 7; 0; 0; 0; 0; 0; 0] ++ concat (map (fun tag => tag ++ [0; 0; 0; 0; 0; 0; 8; 0; 0; 0; 0; 0])
    [cstr "head"; cstr "cmap"; cstr "glyf"; cstr "loca"; cstr "hhea"; cstr "hmtx"; cstr "maxp"]) ++ replicate 1924 0.
Example short_tables_unchecked : FbTtfLoad X86 (Some (empty_tables, 2048)) no_font = None.
Proof. vm_compute. reflexivity. Qed.

End TtfSpec.
